(* ===== verification/_CoqProject ===== *)
-Q . S2P
Prelude.v
Packed.v
PageAlloc.v
Heap.v
Pipe.v
Phys.v
Slab.v
Kmalloc.v
Paging.v
PageTables.v
CowClone.v
UserMem.v
BootPaging.v
Process.v
Signal.v
Sched.v
Reap.v
Spawn.v
Futex.v
Mmap.v
Fault.v
FreeSpace.v
UserTree.v
NewSpace.v
Elf.v
ElfLoad.v
ElfLib.v
ElfImage.v
Exec.v
ExecArgs.v
ExecRun.v
Dynlib.v
LibLoad.v
DlSym.v
Format.v
Keyboard.v
Ext2.v
Ext2Safe.v
Ext2Demo.v
Ext2Blocks.v
Ext2Alloc.v
Ext2Free.v
Ext2Total.v
Ext2File.v
Ext2Path.v
Ext2Save.v
Vfs.v
VfsPool.v
VfsSafe.v
VfsOps.v
VfsFile.v
VfsTree.v
VfsRun.v
VfsExt2.v
VfsEdge.v
Sha256.v
NetBase.v
Ip.v
Udp.v
Tcp.v
Dns.v
Dhcp.v
NetPoll.v
Path.v
Descr.v
SysFile.v
Stdin.v
SysIo.v
Syscall.v
SysInv.v
SysCalls.v
SysProc.v
SysRun.v
SysDemo.v
