(* ===== verification/Prelude.v ===== *)
(** * NyxOS kernel core

    NyxOS (src/) is a 64-bit hobby operating system in C: a kernel with paging, preemptive
    processes and threads, signals, pipes, a virtual file system over ext2, a TCP/IP stack and a
    windowed desktop, and a small user land that reaches the kernel through system calls.  This
    library models the parts of the kernel that carry its own logic and proves that they do what
    they are there for.

    ** How the parts fit together

    The frame allocator hands out 4 KB frames; page tables, slabs and user pages are made of
    them.  The page-table code maps frames into address spaces, shares them copy-on-write at
    fork and fills them in on page faults.  Processes own an address space, a kernel stack, a
    table of memory regions, signal state and file descriptors; the timer tick wakes sleepers,
    raises alarms and picks the next process; signals are delivered on the way back to user
    mode; exit, reaping and waiting give everything back.  Pipes and futexes block and wake
    processes.  The virtual file system keeps a pool of nodes, hands out counted handles and
    saves through to ext2.  The network stack is polled: frames and looped-back packets go
    through Ethernet, ARP, IP, UDP, TCP and the sockets, and calls that wait poll in place.  The
    keyboard's interrupt handler fills two rings the readers take from.  The system call layer
    sits on top of all of them: a descriptor of a process stands for a node of the file system,
    an end of a pipe, a socket or the console.  Passwords are stored as PBKDF2 hashes.

    ** Which file models what

    Foundations
    - Prelude.v: machine integers, bit lemmas, bounded loops, counting; the tactics and notations
      of all files.  Packed.v: packed structures as lists of bytes.

    Memory
    - PageAlloc.v: the frame allocator of kernel/memory.c ([mem] is its static state; alloc_page,
      free_page, page_incref, page_pin, init_memory).  [FrameSource] is what it promises.
    - Heap.v: the first-fit heap of kernel/heap.c, blocks as a map from header address to header.
    - Slab.v: the object caches of kernel/slab.c on any [FrameSource]; Kmalloc.v: kmalloc, kfree and
      krealloc of kernel/memory.c over slab and heap.
    - Phys.v: physical memory by bytes, 64-bit loads and stores.
    - Paging.v: the page-table code of kernel/paging.c on that memory (walks, map, unmap, protect,
      free, clone) and the user copies of kernel/syscall.c.  PageTables.v, CowClone.v, UserMem.v
      and BootPaging.v hold the theorems: the tree of an address space, the copy-on-write clone,
      user copies, and the kernel's own identity map.

    Processes
    - Process.v: process descriptors, the process table, thread groups (kernel/process.c,
      process_t of kernel/kernel.h); [kst] is the state of the whole process side.
    - Signal.v: kernel/signal.c.  Sched.v: the tick and the scheduler of kernel/process.c.
      Reap.v: exit, reaping, waitpid, kwait.  Spawn.v: kernel threads, user processes, fork and
      clone.  Futex.v: futexes.  Mmap.v: kernel/mmap.c.  Fault.v: vm_handle_fault.
    - FreeSpace.v: which frames free_page_directory releases.  UserTree.v and NewSpace.v: an
      address space under construction, [kept], and what it leaves alone.
    - Elf.v: kernel/elf.c and libseg_map of kernel/shared_libc.c; ElfLoad.v, ElfLib.v and ElfImage.v:
      segments, libraries and the program as a whole.  Exec.v: do_execve of kernel/process.c and
      elf_load_args; ExecArgs.v: the arguments on the stack; ExecRun.v: the change of program.
    - Dynlib.v: libseg_load and do_dlsym of kernel/shared_libc.c; LibLoad.v: the loaded library and
      its place in programs; DlSym.v: the symbols of a library.
    - Pipe.v: kernel/pipe.c, ring buffers with reference-counted ends and a parked reader.

    Console
    - Format.v: vsnprintf of kernel/kernel.c, the number conversions and vprintf of
      kernel/screen.c.  Keyboard.v: kernel/keyboard.c.

    Files
    - Ext2.v: the driver kernel/ext2.c over a disk of sectors.  Ext2Safe.v: its weakest
      preconditions; Ext2Total.v: every operation returns on any disk; Ext2Blocks.v, Ext2Alloc.v,
      Ext2Free.v: blocks, allocation, release; Ext2File.v, Ext2Path.v, Ext2Save.v: file contents,
      path names, saving and reading back; Ext2Demo.v: an image for the examples.
    - Vfs.v: kernel/vfs.c on any mounted file system ([FsOps]).  VfsPool.v: the invariant of the
      node pool; VfsSafe.v, VfsOps.v, VfsTree.v: every call keeps it; VfsFile.v: file contents;
      VfsRun.v: sequences of calls; VfsExt2.v: ext2 as the mounted file system; VfsEdge.v:
      behaviour at the edges.

    Network and hashing
    - NetBase.v: wire formats and the state [net] of the network stack.  Ip.v: ethernet.c, arp.c,
      ip.c.  Udp.v: udp.c, icmp.c and the datagram side of net.c.  Tcp.v: tcp.c.  Dns.v and
      Dhcp.v: dns.c, dhcp.c.  NetPoll.v: reception, polling, the echo service and the sockets.
    - Sha256.v: kernel/sha256.c, with FIPS 180-4, RFC 2104 and RFC 8018 as the reference.

    System calls (kernel/syscall.c)
    - Path.v: pointers, strings and path names of user space.  Descr.v: the combined state [sys]
      and the descriptor table.  SysFile.v, SysIo.v, Syscall.v: the cases of syscall_handler, the
      dispatcher, and what a parked call goes on with ([cont]).
    - Stdin.v: reads of the keyboard.  SysInv.v: the books, [owns]; SysCalls.v, SysProc.v: every
      call keeps them; SysRun.v: runs of any calls; SysDemo.v: the examples.

    Definitions have the names of the C functions they translate; helpers stand for a loop, a
    guard or a block of assignments of such a function.

    ** How the code is rendered

    Integers are [Z] with the wrap-around of their C type written out ([u8] to [u64], [s32]).
    Static tables are functions, lists or finite maps; a pointer is an address and a shared
    object lives in a store under it, so aliasing is kept (the five block buffers of ext2 are one
    store, a file handle is a node's address).  Console output is left out, but for Format.v.
    Critical sections (spin locks, interrupts off, preemption off) are single steps.  A call
    that sleeps is split where the code parks: one definition up to the sleep, one for what it
    does when it runs again; statements say what other processes may do in between.
    Errors are values: [option] for an access outside an object, a panic or no result, [0] or
    [-1] where the code returns them.

    Code outside a component is an interface ([Class]): the frame allocator for its clients
    ([FrameSource]), the kernel heap for process creation ([KernelHeap]), the network
    ([NetHeap], any allocation may fail) and the block buffers ([BlockHeap]), file reads
    ([FileReader]), mounted file systems ([FsOps], of which ext2 is the instance), polling while
    waiting ([Poll], of which kernel_poll_net is the instance), and the file handles the kernel
    keeps for itself ([KernelHandles]).  Witnesses instantiate each.

    ** What the theorems show

    - The whole: after any sequence of the modelled system calls that meets [SysRun.legal_run],
      parked calls going on in between, every call has ended or parked, and the descriptor tables
      account exactly for the references of file nodes and the ends of pipes.
    - Memory: allocation returns a frame nobody has, free returns it exactly when the last
      reference goes, the counters agree with the bitmap, boot hands out usable memory only; heap
      blocks tile the array and never overlap; slab objects are disjoint, and so are all blocks of
      kmalloc, wherever they come from.
    - Address spaces: mapping changes one page, protect and free change the pages of their range
      only, the tables stay a tree of distinct owned frames; a clone shares every page with one
      more reference and neither side can write it; a write fault gives the writer its own copy
      with the same bytes; a first touch installs a fresh page with the right contents; user
      copies stay inside user pages and round-trip; RAM is mapped at its own address.
    - Processes: the scheduler picks the next eligible process in table order and every ready one
      runs within a bounded number of ticks; timers fire on time; fork and clone build what they
      promise or leave the table alone; reaping frees exactly the right processes; waitpid loses
      no wake-up; signal handlers run on the interrupted context and return to it; SIGKILL cannot
      be blocked or caught; futex waiters are released in order; mappings keep the region table
      well formed.
    - Programs: whatever bytes a file holds, the loader reads nothing outside it and touches no frame
      in use; a file it refuses leaves no frame behind (but for one when memory ran out, and for
      segments that share pages); what it accepts is laid out as the headers say, always writable; the new program has the identity and
      descriptors of the process, and its arguments and environment on an aligned stack; the old
      space loses one reference per frame; libraries appear with their file's bytes in every
      program, and a symbol that is looked up is the first of its name.
    - Files: the ext2 driver stays inside its buffers and its caller's and ends on any disk
      contents, as long as the heap has its buffers; it allocates
      free blocks only, releases exactly the blocks an inode reaches, and what is saved under a
      path is read back with everything else unchanged.  Handles of the virtual file system lead
      to the same node until they are closed, whatever is called in between (within
      [VfsRun.legal_run]); what is written at
      an offset is read there; removing a file leaves it to those who have it open.
    - Console and names: what is typed is what a read delivers, rub-outs taken back; formatting
      stays inside its buffer and numbers read back; path names of up to 255 characters and 32
      components are brought to their normal form.
    - Pipes and network: a pipe is a first-in first-out stream for any interleaving; a local
      TCP connection is two byte queues for any interleaving of sends and receives, and local
      datagrams arrive whole and with their sender; every segment verifies
      and reads back; retransmission is bounded; the address cache stays well formed; DNS
      responses are parsed inside the packet and the parser ends.
    - Hashing: the streaming code equals the standard on every split of the message.

    ** Fuel and bounds

    Loops over a table take its length.  Loops that follow links take the number of objects that
    exist ([heap_alloc], [slab_scan]); parsers take the length of the packet, and the theorems
    show that more fuel changes nothing or that the result is always produced.  Loops of the file
    systems take the bound the code's own counters give; running out has no result, and the
    theorems that calls return show it does not happen.  The read loops of the keyboard take the
    characters that are waiting, and park when there are none left.  The drain of the loopback
    ring takes the number of packets it handles: deliveries are proved for every fuel large
    enough, and [echo_drain_diverges] shows the one situation where no number is enough.
    [kernel_poll_net] takes the depth of sends nested in a poll.

    ** Not modelled

    The calls that fetch a program or library file (SYS_EXEC, SYS_EXECVE, SYS_DLOPEN, SYS_DLSYM,
    do_dlopen, shared_libc_load, spawn_user_path): the files' bytes are arguments of what is
    modelled of them; the clock chip and the calls that read it (rtc.c, SYS_TIME, SYS_GETTIMEOFDAY);
    the process listing (SYS_GETPROCS, vm_collect_regions); user accounts (auth.c, login.c) but
    for their hashing; the archive of the boot image (initramfs.c; initramfs_data.h is
    generated).  The compositor, the windows and the desktop programs, fonts and the boot splash
    (drawing); drivers for disk, mouse, sound, timer, serial and screen (hardware registers);
    interrupt, descriptor-table and multiprocessor start-up code and the assembly stubs; the
    kernel shell and the start-up sequence of kernel.c; http.c and the ping command; the user
    programs and their C library. *)
From Stdlib Require Import ZArith Lia.
From stdpp Require Export base tactics option numbers list gmap functions.

#[global] Open Scope Z_scope.

(** * Machine integers

    A C object of an unsigned [w]-bit type is a [Z] in [0, 2^w); the wrap-around
    the language performs on every assignment is written out with [u8], [u16],
    [u32], [u64]; [s32] is the conversion to a two's complement [int32_t]. *)

Definition u8 (x : Z) : Z := x mod 2 ^ 8.
Definition u16 (x : Z) : Z := x mod 2 ^ 16.
Definition u32 (x : Z) : Z := x mod 2 ^ 32.
Definition u64 (x : Z) : Z := x mod 2 ^ 64.
Definition s32 (x : Z) : Z :=
  let y := u32 x in if y <? 2 ^ 31 then y else y - 2 ^ 32.

(** [~x] on a [uint32_t] / [uint64_t]. *)
Definition not32 (x : Z) : Z := u32 (Z.lnot x).
Definition not64 (x : Z) : Z := u64 (Z.lnot x).

(** C truth value of an integer, and of a comparison used as an integer. *)
Definition truthy (x : Z) : bool := negb (x =? 0).
Definition b2z (b : bool) : Z := if b then 1 else 0.

Declare Scope nyx_scope.
Delimit Scope nyx_scope with nyx.
Notation "x .& y" := (Z.land x y) (at level 42, left associativity) : nyx_scope.
Notation "x .| y" := (Z.lor x y) (at level 44, left associativity) : nyx_scope.
Notation "x .^ y" := (Z.lxor x y) (at level 43, left associativity) : nyx_scope.
Notation "x << n" := (Z.shiftl x n) (at level 41, left associativity) : nyx_scope.
Notation "x >> n" := (Z.shiftr x n) (at level 41, left associativity) : nyx_scope.
#[global] Open Scope nyx_scope.

Create HintDb nyx.

Ltac unfold_wrap := unfold u8, u16, u32, u64 in *.

(** Case analysis on the boolean comparisons the code branches on. *)
Ltac case_cmp :=
  match goal with
  | |- context [?a <? ?b] => destruct (Z.ltb_spec a b)
  | |- context [?a <=? ?b] => destruct (Z.leb_spec a b)
  | |- context [?a =? ?b] => destruct (Z.eqb_spec a b)
  | H : context [?a <? ?b] |- _ => destruct (Z.ltb_spec a b)
  | H : context [?a <=? ?b] |- _ => destruct (Z.leb_spec a b)
  | H : context [?a =? ?b] |- _ => destruct (Z.eqb_spec a b)
  end.

(** Turn boolean hypotheses into propositions. *)
Ltac bool_prop :=
  repeat match goal with
  | H : (_ <? _) = true |- _ => apply Z.ltb_lt in H
  | H : (_ <? _) = false |- _ => apply Z.ltb_ge in H
  | H : (_ <=? _) = true |- _ => apply Z.leb_le in H
  | H : (_ <=? _) = false |- _ => apply Z.leb_gt in H
  | H : (_ =? _) = true |- _ => apply Z.eqb_eq in H
  | H : (_ =? _) = false |- _ => apply Z.eqb_neq in H
  | H : _ && _ = true |- _ => apply andb_true_iff in H; destruct H
  | H : _ || _ = false |- _ => apply orb_false_iff in H; destruct H
  | H : negb _ = true |- _ => apply negb_true_iff in H
  | H : negb _ = false |- _ => apply negb_false_iff in H
  end.

Lemma u8_range x : 0 <= u8 x < 256.
Proof. apply Z.mod_pos_bound. lia. Qed.
Lemma u16_range x : 0 <= u16 x < 65536.
Proof. apply Z.mod_pos_bound. lia. Qed.
Lemma u32_range x : 0 <= u32 x < 4294967296.
Proof. apply Z.mod_pos_bound. lia. Qed.
Lemma u64_range x : 0 <= u64 x < 18446744073709551616.
Proof. apply Z.mod_pos_bound. lia. Qed.

Lemma u8_small x : 0 <= x < 256 -> u8 x = x.
Proof. intros. apply Z.mod_small. lia. Qed.
Lemma u16_small x : 0 <= x < 65536 -> u16 x = x.
Proof. intros. apply Z.mod_small. lia. Qed.
Lemma u32_small x : 0 <= x < 4294967296 -> u32 x = x.
Proof. intros. apply Z.mod_small. lia. Qed.
Lemma u64_small x : 0 <= x < 18446744073709551616 -> u64 x = x.
Proof. intros. apply Z.mod_small. lia. Qed.

Lemma s32_small x : - 2 ^ 31 <= x < 2 ^ 31 -> s32 x = x.
Proof.
  intros H. unfold s32, u32. destruct (Z.ltb_spec x 0).
  - assert (x mod 2 ^ 32 = x + 2 ^ 32) as -> by (symmetry; apply (Z.mod_unique _ _ (-1)); lia). destruct (Z.ltb_spec (x + 2 ^ 32) (2 ^ 31)); lia.
  - rewrite Z.mod_small by lia. destruct (Z.ltb_spec x (2 ^ 31)); lia.
Qed.

#[export] Hint Resolve u8_range u16_range u32_range u64_range : nyx.

(** * Single bits of a word *)

Lemma testbit_lor_bit w i j :
  0 <= i -> 0 <= j ->
  Z.testbit (w .| (1 << i)) j = Z.testbit w j || (i =? j).
Proof.
  intros. rewrite Z.lor_spec, Z.shiftl_spec by lia.
  destruct (Z.eqb_spec i j) as [->|].
  - now rewrite Z.sub_diag.
  - destruct (Z.ltb_spec j i).
    + now rewrite (Z.testbit_neg_r 1 (j - i)) by lia.
    + now rewrite (Z.bits_above_log2 1 (j - i)) by (simpl; lia).
Qed.

Lemma testbit_u32 x j : 0 <= j < 32 -> Z.testbit (u32 x) j = Z.testbit x j.
Proof. intros. unfold u32. now rewrite Z.mod_pow2_bits_low by lia. Qed.

Lemma testbit_u32_high x j : 32 <= j -> Z.testbit (u32 x) j = false.
Proof. intros. unfold u32. apply Z.mod_pow2_bits_high. lia. Qed.

Lemma testbit_clear_bit w i j :
  0 <= i -> 0 <= j < 32 ->
  Z.testbit (w .& not32 (1 << i)) j = Z.testbit w j && negb (i =? j).
Proof.
  intros. unfold not32.
  rewrite Z.land_spec, testbit_u32, Z.lnot_spec, Z.shiftl_spec by lia.
  destruct (Z.eqb_spec i j) as [->|].
  - now rewrite Z.sub_diag.
  - f_equal. destruct (Z.ltb_spec j i).
    + now rewrite (Z.testbit_neg_r 1 (j - i)) by lia.
    + now rewrite (Z.bits_above_log2 1 (j - i)) by (simpl; lia).
Qed.

(** [w & (1 << i)] used as a truth value is the bit. *)
Lemma truthy_land_bit w i :
  0 <= i -> truthy (w .& (1 << i)) = Z.testbit w i.
Proof.
  intros. unfold truthy. apply eq_true_iff_eq. rewrite negb_true_iff, Z.eqb_neq. split.
  - intros Hne. destruct (Z.testbit w i) eqn:E; [done|]. destruct Hne.
    apply Z.bits_inj'. intros j Hj. rewrite Z.land_spec, Z.bits_0, Z.shiftl_spec by lia.
    destruct (Z.eqb_spec i j) as [->|]; [now rewrite E|].
    destruct (Z.ltb_spec j i).
    + rewrite (Z.testbit_neg_r 1 (j - i)) by lia. now rewrite andb_false_r.
    + rewrite (Z.bits_above_log2 1 (j - i)) by (simpl; lia). now rewrite andb_false_r.
  - intros E H0. apply (f_equal (fun z => Z.testbit z i)) in H0.
    rewrite Z.land_spec, Z.bits_0, Z.shiftl_spec, E, Z.sub_diag in H0 by lia. done.
Qed.

Lemma word_nonzero_bit w :
  0 < w < 2 ^ 32 -> exists j, 0 <= j < 32 /\ Z.testbit w j = true.
Proof.
  intros Hw. exists (Z.log2 w). split.
  - split; [apply Z.log2_nonneg|]. apply Z.log2_lt_pow2; lia.
  - apply Z.bit_log2. lia.
Qed.

Lemma land_range_l w x k : 0 <= w < 2 ^ k -> 0 <= x -> 0 <= w .& x < 2 ^ k.
Proof.
  intros Hw Hx. assert (0 <= k) by (destruct (Z.ltb_spec k 0); [rewrite Z.pow_neg_r in Hw; lia|lia]).
  assert (0 <= w .& x) by (apply Z.land_nonneg; lia). split; [done|].
  apply Z.bounded_iff_bits_nonneg; [lia..|]. intros l Hl.
  rewrite Z.land_spec. by rewrite (proj1 (Z.bounded_iff_bits_nonneg k w ltac:(lia) ltac:(lia)) ltac:(lia) l Hl).
Qed.

Lemma lor_range w x k : 0 <= k -> 0 <= w < 2 ^ k -> 0 <= x < 2 ^ k -> 0 <= w .| x < 2 ^ k.
Proof.
  intros Hk Hw Hx. assert (0 <= w .| x) by (apply Z.lor_nonneg; lia). split; [done|].
  apply Z.bounded_iff_bits_nonneg; [lia..|]. intros l Hl. rewrite Z.lor_spec.
  rewrite (proj1 (Z.bounded_iff_bits_nonneg k w ltac:(lia) ltac:(lia)) ltac:(lia) l Hl).
  by rewrite (proj1 (Z.bounded_iff_bits_nonneg k x ltac:(lia) ltac:(lia)) ltac:(lia) l Hl).
Qed.

Lemma land_not64_pow2 x k :
  0 <= k <= 64 -> 0 <= x < 2 ^ 64 -> x .& not64 (2 ^ k - 1) = x / 2 ^ k * 2 ^ k.
Proof.
  intros Hk Hx. rewrite <- Z.shiftr_div_pow2, <- Z.shiftl_mul_pow2 by lia.
  apply Z.bits_inj'. intros j Hj. rewrite Z.land_spec, Z.shiftl_spec by lia. unfold not64, u64.
  destruct (Z.ltb_spec j 64) as [Hj64|Hj64].
  - rewrite Z.mod_pow2_bits_low, Z.lnot_spec by lia.
    replace (2 ^ k - 1) with (Z.ones k) by (rewrite Z.ones_equiv; lia).
    destruct (Z.ltb_spec j k).
    + rewrite Z.ones_spec_low by lia. rewrite andb_false_r. symmetry. apply Z.testbit_neg_r. lia.
    + rewrite Z.ones_spec_high by lia. rewrite andb_true_r, Z.shiftr_spec by lia. f_equal. lia.
  - rewrite Z.mod_pow2_bits_high by lia. rewrite andb_false_r. symmetry.
    destruct (Z.ltb_spec (j - k) 0); [apply Z.testbit_neg_r; lia|].
    rewrite Z.shiftr_spec by lia. replace (j - k + k) with j by lia.
    apply (proj1 (Z.bounded_iff_bits_nonneg 64 x ltac:(lia) ltac:(lia))); lia.
Qed.

(** * Bounded loops

    [for (i = lo; i < lo + n; i++) s = body(i, s)] and the "first index that
    satisfies a test" search most tables of the kernel are scanned with. *)

Fixpoint for_range {S} (n : nat) (lo : Z) (body : Z -> S -> S) (s : S) : S :=
  match n with
  | O => s
  | Datatypes.S n' => for_range n' (lo + 1) body (body lo s)
  end.

Fixpoint find_idx (n : nat) (lo : Z) (P : Z -> bool) : option Z :=
  match n with
  | O => None
  | Datatypes.S n' => if P lo then Some lo else find_idx n' (lo + 1) P
  end.

Lemma find_idx_Some n lo P i :
  find_idx n lo P = Some i <->
  lo <= i < lo + Z.of_nat n /\ P i = true /\ (forall j, lo <= j < i -> P j = false).
Proof.
  revert lo. induction n as [|n IH]; intros lo; simpl find_idx.
  - split; [done|]. lia.
  - destruct (P lo) eqn:E.
    + split.
      * intros [= <-]. repeat split; try lia; done.
      * intros (Hr & HP & Hmin). f_equal. destruct (Z.eq_dec lo i); [done|].
        rewrite Hmin in E by lia. done.
    + rewrite IH. split; intros (Hr & HP & Hmin).
      * split; [lia|]. split; [done|]. intros j Hj.
        destruct (Z.eq_dec j lo); [by subst|]. apply Hmin. lia.
      * assert (lo <> i) by congruence. split; [lia|]. split; [done|].
        intros j Hj. apply Hmin. lia.
Qed.

Lemma find_idx_None n lo P :
  find_idx n lo P = None <-> (forall j, lo <= j < lo + Z.of_nat n -> P j = false).
Proof.
  revert lo. induction n as [|n IH]; intros lo; simpl find_idx.
  - split; [lia|done].
  - destruct (P lo) eqn:E.
    + split; [done|]. intros H. rewrite H in E by lia. done.
    + rewrite IH. split.
      * intros H j Hj. destruct (Z.eq_dec j lo); [by subst|]. apply H. lia.
      * intros H j Hj. apply H. lia.
Qed.

(** Induction principle for a counted loop: an invariant indexed by the counter. *)
Lemma for_range_ind {S} (I : Z -> S -> Prop) n lo body s :
  I lo s ->
  (forall i s, lo <= i < lo + Z.of_nat n -> I i s -> I (i + 1) (body i s)) ->
  I (lo + Z.of_nat n) (for_range n lo body s).
Proof.
  revert lo s. induction n as [|n IH]; intros lo s H0 Hstep; simpl for_range.
  - by rewrite Z.add_0_r.
  - replace (lo + Z.of_nat (Datatypes.S n)) with (lo + 1 + Z.of_nat n) by lia.
    apply IH.
    + apply Hstep; [lia|done].
    + intros i s' Hi. apply Hstep. lia.
Qed.

(** * Counting

    [count_range P n]: how many [i] in [0, n) satisfy [P]. *)

Fixpoint count_range (P : Z -> bool) (n : nat) : Z :=
  match n with
  | O => 0
  | Datatypes.S n' => count_range P n' + b2z (P (Z.of_nat n'))
  end.

Lemma count_range_ext P Q n :
  (forall i, 0 <= i < Z.of_nat n -> P i = Q i) -> count_range P n = count_range Q n.
Proof.
  induction n as [|n IH]; intros H; simpl; [done|].
  rewrite IH, H by lia || (intros; apply H; lia). done.
Qed.

Lemma count_range_bounds P n : 0 <= count_range P n <= Z.of_nat n.
Proof. induction n; simpl count_range; [lia|]. destruct (P _); simpl b2z; lia. Qed.

Lemma count_range_flip P Q n k :
  0 <= k < Z.of_nat n ->
  (forall i, 0 <= i < Z.of_nat n -> i <> k -> P i = Q i) ->
  P k = true -> Q k = false ->
  count_range P n = count_range Q n + 1.
Proof.
  induction n as [|n IH]; intros Hk Heq HP HQ; [lia|]. simpl count_range.
  destruct (Z.eq_dec k (Z.of_nat n)) as [->|].
  - rewrite HP, HQ, (count_range_ext P Q) by (intros; apply Heq; lia). simpl. lia.
  - rewrite IH by first [lia | done | intros; apply Heq; lia].
    rewrite (Heq (Z.of_nat n)) by lia. lia.
Qed.

Lemma count_range_true n : count_range (fun _ => true) n = Z.of_nat n.
Proof. induction n; simpl count_range; [done|]. simpl b2z. lia. Qed.

Lemma count_range_false n : count_range (fun _ => false) n = 0.
Proof. induction n; simpl count_range; [done|]. simpl b2z. lia. Qed.

Lemma count_range_zero P n :
  count_range P n = 0 <-> (forall i, 0 <= i < Z.of_nat n -> P i = false).
Proof.
  split.
  - induction n as [|n IH]; simpl count_range; intros H i Hi; [lia|].
    pose proof (count_range_bounds P n). destruct (P (Z.of_nat n)) eqn:E; simpl b2z in H; [lia|].
    destruct (Z.eq_dec i (Z.of_nat n)) as [->|]; [done|]. apply IH; lia.
  - intros H. rewrite (count_range_ext _ (fun _ => false)) by done. apply count_range_false.
Qed.

(** * Searching a table *)

(** First index of a table that satisfies a test. *)
Fixpoint first_index {A} (f : A -> bool) (l : list A) : option nat :=
  match l with
  | [] => None
  | x :: l' => if f x then Some O else S <$> first_index f l'
  end.

Lemma first_index_Some {A} (f : A -> bool) l i :
  first_index f l = Some i <-> (exists x, l !! i = Some x /\ f x = true) /\ forall j y, (j < i)%nat -> l !! j = Some y -> f y = false.
Proof.
  revert i. induction l as [|x l IH]; intros i; simpl.
  - split; [done|]. intros [(y & Hy & _) _]. done.
  - destruct (f x) eqn:E.
    + split.
      * intros [= <-]. split; [by exists x|lia].
      * intros [(y & Hy & Hf) Hmin]. destruct i as [|i]; [done|]. specialize (Hmin O x ltac:(lia) eq_refl). congruence.
    + destruct i as [|i]; simpl.
      * split; [by destruct (first_index f l)|]. intros [(y & [= <-] & Hf) _]. congruence.
      * split.
        -- destruct (first_index f l) as [k|]; [|done]. intros [= ->]. destruct (proj1 (IH i) eq_refl) as [H1 H2].
           split; [done|]. intros [|j] y Hj Hy; [by injection Hy as <-|]. apply (H2 j); [lia|done].
        -- intros [H1 H2]. rewrite (proj2 (IH i)); [done|]. split; [done|]. intros j y Hj Hy. apply (H2 (S j) y); [lia|done].
Qed.

Lemma first_index_None {A} (f : A -> bool) l : first_index f l = None <-> forall j y, l !! j = Some y -> f y = false.
Proof.
  induction l as [|x l IH]; simpl; [done|]. destruct (f x) eqn:E.
  - split; [done|]. intros H. specialize (H O x eq_refl). congruence.
  - destruct (first_index f l) as [k|] eqn:Ek.
    + split; [done|]. intros H. destruct (proj1 (first_index_Some f l k) Ek) as [(y & Hy & Hf) _].
      specialize (H (S k) y Hy). congruence.
    + split; [|done]. intros _ [|j] y Hy; [by injection Hy as <-|]. by apply (proj1 IH eq_refl j).
Qed.
