(* ===== verification/Packed.v ===== *)
(** Packed structures and byte buffers.

    A packed C structure is the list of its bytes and a field is a little-endian number
    at its offset: [fld w o] reads it and [set_fld w o v] assigns it, so copying a
    structure in or out of a disk block is a copy of bytes.  [splice] overwrites a part
    of a buffer, [slice] takes a part out. *)
From Stdlib Require Import ZArith Lia.
From S2P Require Import Prelude.

Notation len l := (Z.of_nat (length l)).

Definition slice (o n : Z) (l : list Z) : list Z := take (Z.to_nat n) (drop (Z.to_nat o) l).
Definition splice (o : Z) (b l : list Z) : list Z :=
  take (Z.to_nat o) l ++ b ++ drop (Z.to_nat o + length b) l.

Definition zero_bytes (n : Z) : list Z := replicate (Z.to_nat n) 0.

(** Little-endian value of some bytes, and the [w] bytes of a value. *)
Fixpoint le_val (b : list Z) : Z :=
  match b with [] => 0 | x :: b' => u8 x + 256 * le_val b' end.
Fixpoint le_bytes (w : nat) (v : Z) : list Z :=
  match w with O => [] | S w' => u8 v :: le_bytes w' (v / 256) end.

Definition fld (w : nat) (o : Z) (l : list Z) : Z := le_val (slice o (Z.of_nat w) l).
Definition set_fld (w : nat) (o v : Z) (l : list Z) : list Z := splice o (le_bytes w v) l.

(** * Laws *)

Lemma length_slice o n l : 0 <= o -> 0 <= n -> o + n <= len l -> len (slice o n l) = n.
Proof. intros. unfold slice. rewrite length_take, length_drop. lia. Qed.

Lemma length_splice o b l : 0 <= o -> o + len b <= len l -> length (splice o b l) = length l.
Proof. intros. unfold splice. rewrite !length_app, length_take, length_drop. lia. Qed.

Lemma length_zero_bytes n : 0 <= n -> len (zero_bytes n) = n.
Proof. intros. unfold zero_bytes. rewrite length_replicate. lia. Qed.

Lemma lookup_slice o n l i :
  (i < Z.to_nat n)%nat -> slice o n l !! i = l !! (Z.to_nat o + i)%nat.
Proof. intros. unfold slice. rewrite lookup_take_lt by done. by rewrite lookup_drop. Qed.

Lemma lookup_splice o b l i :
  0 <= o -> o + len b <= len l ->
  splice o b l !! i =
  if decide (Z.to_nat o <= i < Z.to_nat o + length b)%nat then b !! (i - Z.to_nat o)%nat else l !! i.
Proof.
  intros Ho Hb. unfold splice.
  assert (Hl : length (take (Z.to_nat o) l) = Z.to_nat o) by (rewrite length_take; lia).
  case_decide as Hd.
  - rewrite lookup_app_r, Hl, lookup_app_l by lia. done.
  - destruct (decide (i < Z.to_nat o)%nat).
    + rewrite lookup_app_l by lia. by rewrite lookup_take_lt.
    + rewrite lookup_app_r, Hl, lookup_app_r, lookup_drop by lia. f_equal. lia.
Qed.

Lemma slice_splice_same o b l :
  0 <= o -> o + len b <= len l -> slice o (len b) (splice o b l) = b.
Proof.
  intros Ho Hb. unfold slice, splice. rewrite Nat2Z.id.
  rewrite drop_app_length' by (rewrite length_take; lia). by rewrite take_app_length.
Qed.

Lemma slice_splice_other o n o' b l :
  0 <= o -> 0 <= n -> 0 <= o' -> o' + len b <= len l ->
  o + n <= o' \/ o' + len b <= o ->
  slice o n (splice o' b l) = slice o n l.
Proof.
  intros Ho Hn Ho' Hb Hd. apply list_eq. intros i.
  destruct (decide (i < Z.to_nat n)%nat) as [Hi|Hi].
  - rewrite !lookup_slice, lookup_splice by done. case_decide; [lia|done].
  - rewrite !lookup_ge_None_2; [done|unfold slice; rewrite length_take; lia..].
Qed.

Lemma slice_full l : slice 0 (len l) l = l.
Proof. unfold slice. rewrite Nat2Z.id. by rewrite drop_0, firstn_all. Qed.

Lemma splice_full b l : length b = length l -> splice 0 b l = b.
Proof. intros H. unfold splice. simpl. rewrite H, drop_all. apply app_nil_r. Qed.

Lemma slice_slice o n o' n' l :
  0 <= o -> 0 <= o' -> 0 <= n' -> o' + n' <= n -> slice o' n' (slice o n l) = slice (o + o') n' l.
Proof.
  intros. apply list_eq. intros i. destruct (decide (i < Z.to_nat n')%nat).
  - rewrite !lookup_slice by lia. f_equal. lia.
  - rewrite !lookup_ge_None_2; [done|unfold slice; rewrite !length_take; lia..].
Qed.

Lemma length_le_bytes w v : length (le_bytes w v) = w.
Proof. revert v. induction w; intros; simpl; [done|]. by rewrite IHw. Qed.

Lemma le_val_bytes w v : le_val (le_bytes w v) = v mod 256 ^ Z.of_nat w.
Proof.
  revert v. induction w as [|w IH]; intros v; simpl le_val.
  - by rewrite Z.mod_1_r.
  - rewrite IH. rewrite (u8_small (u8 v)) by apply u8_range. unfold u8. change (2 ^ 8) with 256.
    rewrite Nat2Z.inj_succ, Z.pow_succ_r by lia. rewrite Z.rem_mul_r; lia.
Qed.

Lemma le_val_range b : 0 <= le_val b < 256 ^ len b.
Proof.
  induction b as [|x b IH]; simpl le_val; [simpl; lia|]. cbn [length].
  rewrite Nat2Z.inj_succ, Z.pow_succ_r by lia. pose proof (u8_range x). lia.
Qed.

Lemma fld_range w o l : 0 <= fld w o l < 256 ^ Z.of_nat w.
Proof.
  unfold fld. pose proof (le_val_range (slice o (Z.of_nat w) l)) as H.
  assert (256 ^ len (slice o (Z.of_nat w) l) <= 256 ^ Z.of_nat w).
  { apply Z.pow_le_mono_r; [lia|]. unfold slice. rewrite length_take. lia. }
  lia.
Qed.

Lemma fld1_range o l : 0 <= fld 1 o l < 256.
Proof. apply (fld_range 1). Qed.
Lemma fld2_range o l : 0 <= fld 2 o l < 65536.
Proof. apply (fld_range 2). Qed.
Lemma fld4_range o l : 0 <= fld 4 o l < 4294967296.
Proof. apply (fld_range 4). Qed.
#[export] Hint Resolve fld1_range fld2_range fld4_range : nyx.

Lemma length_set_fld w o v l :
  0 <= o -> o + Z.of_nat w <= len l -> length (set_fld w o v l) = length l.
Proof. intros. unfold set_fld. apply length_splice; rewrite ?length_le_bytes; lia. Qed.

Lemma fld_set_same w o v l :
  0 <= o -> o + Z.of_nat w <= len l -> fld w o (set_fld w o v l) = v mod 256 ^ Z.of_nat w.
Proof.
  intros. unfold fld, set_fld. rewrite <- (length_le_bytes w v) at 1.
  rewrite slice_splice_same by (rewrite ?length_le_bytes; lia). apply le_val_bytes.
Qed.

Lemma fld_set_other w o w' o' v l :
  0 <= o -> 0 <= o' -> o' + Z.of_nat w' <= len l ->
  o + Z.of_nat w <= o' \/ o' + Z.of_nat w' <= o ->
  fld w o (set_fld w' o' v l) = fld w o l.
Proof.
  intros. unfold fld, set_fld. rewrite slice_splice_other; [done|lia..| |]; rewrite ?length_le_bytes; lia.
Qed.

Lemma slice_set_other o n w o' v l :
  0 <= o -> 0 <= n -> 0 <= o' -> o' + Z.of_nat w <= len l ->
  o + n <= o' \/ o' + Z.of_nat w <= o ->
  slice o n (set_fld w o' v l) = slice o n l.
Proof. intros. unfold set_fld. apply slice_splice_other; rewrite ?length_le_bytes; lia. Qed.

Lemma fld_splice_other w o o' b l :
  0 <= o -> 0 <= o' -> o' + len b <= len l -> o + Z.of_nat w <= o' \/ o' + len b <= o ->
  fld w o (splice o' b l) = fld w o l.
Proof. intros. unfold fld. rewrite slice_splice_other; [done|lia..]. Qed.

Lemma fld_slice w o o' n l :
  0 <= o -> 0 <= o' -> o' + Z.of_nat w <= n -> fld w o' (slice o n l) = fld w (o + o') l.
Proof. intros. unfold fld. rewrite slice_slice; [done|lia..]. Qed.

Lemma fld_zero w o n : fld w o (zero_bytes n) = 0.
Proof.
  unfold fld, slice, zero_bytes. rewrite drop_replicate, take_replicate.
  generalize (Z.to_nat (Z.of_nat w) `min` (Z.to_nat n - Z.to_nat o))%nat. intros k.
  induction k; simpl; [done|]. rewrite IHk. done.
Qed.
