(* ===== verification/PageAlloc.v ===== *)
(** Physical page allocator (src/kernel/memory.c, lines 19-191): the frame
    bitmap, the per-frame reference counts used by copy-on-write, the pinned
    frames, and initialisation from the firmware memory map.

    The static C arrays are total functions from an index to the stored word;
    every access the code makes is guarded by an explicit bound, which the
    theorems below keep.  The [page_lock] critical sections are the bodies of
    the operations here; console output is not part of the state. *)
From S2P Require Import Prelude.

Definition PAGE_SIZE : Z := 4096.
Definition MAX_PAGES : Z := 512 * 1024 * 1024 / 4096.
Definition BITMAP_WORDS : Z := MAX_PAGES / 32.

Record mem := Mem {
  page_bitmap : Z -> Z;       (* bit = 1: the frame is free *)
  total_pages : Z;
  free_pages : Z;
  page_refcount : Z -> Z;
  page_pinned : Z -> Z;
  memory_total : Z;
  memory_used : Z
}.

(** One entry of the multiboot2 type-6 memory map. *)
Record mb_mmap_entry := MbEntry { mb_base : Z; mb_len : Z; mb_type : Z }.

Definition set_bitmap (f : Z -> Z) (m : mem) : mem :=
  Mem f (total_pages m) (free_pages m) (page_refcount m) (page_pinned m)
      (memory_total m) (memory_used m).
Definition set_free_pages (n : Z) (m : mem) : mem :=
  Mem (page_bitmap m) (total_pages m) n (page_refcount m) (page_pinned m)
      (memory_total m) (memory_used m).
Definition set_refcount (f : Z -> Z) (m : mem) : mem :=
  Mem (page_bitmap m) (total_pages m) (free_pages m) f (page_pinned m)
      (memory_total m) (memory_used m).
Definition set_memory_used (n : Z) (m : mem) : mem :=
  Mem (page_bitmap m) (total_pages m) (free_pages m) (page_refcount m)
      (page_pinned m) (memory_total m) n.

(** [(uint32_t)(uintptr_t)addr / PAGE_SIZE] *)
Definition page_idx_of (addr : Z) : Z := u32 addr / PAGE_SIZE.

(** [page_bitmap[p / 32] & (1u << (p % 32))] as a truth value. *)
Definition bit_is_set (m : mem) (p : Z) : bool :=
  truthy (page_bitmap m (p / 32) .& u32 (1 << (p mod 32))).

Definition page_pin (addr : Z) (m : mem) : mem :=
  let page_idx := page_idx_of addr in
  if page_idx <? MAX_PAGES then
    Mem (page_bitmap m) (total_pages m) (free_pages m) (page_refcount m)
        (<[page_idx := 1]> (page_pinned m)) (memory_total m) (memory_used m)
  else m.

(** One iteration of the loop of [reserve_low_pages]. *)
Definition reserve_step (i : Z) (m : mem) : mem :=
  if bit_is_set m i then
    set_free_pages (u32 (free_pages m - 1))
      (set_bitmap (<[i / 32 := page_bitmap m (i / 32) .& not32 (1 << (i mod 32))]>
                     (page_bitmap m)) m)
  else m.

(** The loop bound [i < end_page && i < total_pages] does not change while the
    loop runs, so its trip count is the minimum of the two. *)
Definition reserve_low_pages (end_page : Z) (m : mem) : mem :=
  for_range (Z.to_nat (Z.min end_page (total_pages m))) 0 reserve_step m.

(** [top]: the end of the highest available region. *)
Definition mmap_top (mmap : list mb_mmap_entry) : Z :=
  foldl (fun top e =>
           if (mb_type e =? 1) && (top <? u64 (mb_base e + mb_len e))
           then u64 (mb_base e + mb_len e) else top) 0 mmap.

Definition free_step (p : Z) (m : mem) : mem :=
  if negb (bit_is_set m p) then
    set_free_pages (u32 (free_pages m + 1))
      (set_bitmap (<[p / 32 := page_bitmap m (p / 32) .| u32 (1 << (p mod 32))]>
                     (page_bitmap m)) m)
  else m.

(** [for (a = start; a < end; a += PAGE_SIZE) { ...; if (p >= total_pages) break; ... }]
    Each iteration either stops or moves [p] one page up, and [p] is below
    [total_pages <= MAX_PAGES], so [MAX_PAGES + 1] rounds of fuel are enough
    (lemma [free_region_fuel]). *)
Fixpoint free_region (fuel : nat) (a e : Z) (m : mem) : mem :=
  match fuel with
  | O => m
  | S fuel' =>
      if a <? e then
        let p := u32 (a / PAGE_SIZE) in
        if total_pages m <=? p then m
        else free_region fuel' (u64 (a + PAGE_SIZE)) e (free_step p m)
      else m
  end.

Definition region_fuel : nat := Z.to_nat (MAX_PAGES + 1).

Definition region_start (e : mb_mmap_entry) : Z :=
  u64 (mb_base e + PAGE_SIZE - 1) .& not64 (PAGE_SIZE - 1).
Definition region_end (e : mb_mmap_entry) : Z :=
  u64 (mb_base e + mb_len e) .& not64 (PAGE_SIZE - 1).

Definition free_entry (m : mem) (e : mb_mmap_entry) : mem :=
  if negb (mb_type e =? 1) then m
  else free_region region_fuel (region_start e) (region_end e) m.

(** [kernel_end_page > low_1mb ? kernel_end_page : low_1mb] *)
Definition reserve_limit (kernel_end_page : Z) : Z :=
  let low_1mb := 0x100000 / PAGE_SIZE in
  if low_1mb <? kernel_end_page then kernel_end_page else low_1mb.

(** [init_memory(mem_size, mmap, mmap_count)]; [kernel_end] is the linker symbol
    [_kernel_end]; an empty list is a NULL or empty memory map. *)
Definition init_memory (kernel_end mem_size : Z) (mmap : list mb_mmap_entry)
    (m : mem) : mem :=
  let kernel_end_page := u32 ((kernel_end + PAGE_SIZE - 1) / PAGE_SIZE) in
  if bool_decide (mmap <> []) then
    let total0 := u32 (mmap_top mmap / PAGE_SIZE) in
    let total := if MAX_PAGES <? total0 then MAX_PAGES else total0 in
    let m1 := Mem (fun _ => 0) total 0 (page_refcount m) (page_pinned m) mem_size 0 in
    let m2 := foldl free_entry m1 mmap in
    reserve_low_pages (reserve_limit kernel_end_page) m2
  else
    let total0 := u32 (mem_size / PAGE_SIZE) in
    let total := if MAX_PAGES <? total0 then MAX_PAGES else total0 in
    reserve_low_pages kernel_end_page
      (Mem (fun _ => 0xFFFFFFFF) total total (page_refcount m) (page_pinned m) mem_size 0).

(** [__builtin_ctz] on a non-zero word. *)
Definition ctz32 (w : Z) : Z :=
  match find_idx 32 0 (Z.testbit w) with Some i => i | None => 0 end.

(** The scan of [alloc_page]: the frame it takes, if any. *)
Fixpoint alloc_scan (n : nat) (i : Z) (m : mem) : option Z :=
  match n with
  | O => None
  | S n' =>
      if u32 (i * 32) <? total_pages m then
        if truthy (page_bitmap m i) then
          let page_idx := u32 (i * 32 + ctz32 (page_bitmap m i)) in
          if total_pages m <=? page_idx then None else Some page_idx
        else alloc_scan n' (i + 1) m
      else None
  end.

(** Returns the frame's address ([0] is NULL) and the new state. *)
Definition alloc_page (m : mem) : Z * mem :=
  match alloc_scan (Z.to_nat BITMAP_WORDS) 0 m with
  | Some page_idx =>
      (u32 (page_idx * PAGE_SIZE),
       Mem (<[page_idx / 32 := page_bitmap m (page_idx / 32) .&
                               not32 (1 << (page_idx mod 32))]> (page_bitmap m))
           (total_pages m) (u32 (free_pages m - 1))
           (<[page_idx := 1]> (page_refcount m)) (page_pinned m)
           (memory_total m) (u64 (memory_used m + PAGE_SIZE)))
  | None => (0, m)
  end.

Definition page_incref (addr : Z) (m : mem) : mem :=
  let page_idx := page_idx_of addr in
  if total_pages m <=? page_idx then m
  else if page_refcount m page_idx <? 0xFF then
    set_refcount (<[page_idx := u8 (page_refcount m page_idx + 1)]> (page_refcount m)) m
  else m.

Definition get_free_pages (m : mem) : Z := free_pages m.

Definition page_get_refcount (addr : Z) (m : mem) : Z :=
  let page_idx := page_idx_of addr in
  if total_pages m <=? page_idx then 0 else page_refcount m page_idx.

Definition free_page (addr : Z) (m : mem) : mem :=
  let page_idx := page_idx_of addr in
  if total_pages m <=? page_idx then m
  else if 1 <? page_refcount m page_idx then
    set_refcount (<[page_idx := u8 (page_refcount m page_idx - 1)]> (page_refcount m)) m
  else if truthy (page_pinned m page_idx) then
    set_refcount (<[page_idx := 1]> (page_refcount m)) m
  else
    Mem (<[page_idx / 32 := page_bitmap m (page_idx / 32) .| u32 (1 << (page_idx mod 32))]>
           (page_bitmap m))
        (total_pages m) (u32 (free_pages m + 1))
        (<[page_idx := 0]> (page_refcount m)) (page_pinned m)
        (memory_total m) (u64 (memory_used m - PAGE_SIZE)).

(** * Invariant *)

(** Frame [p] is on the free side of the bitmap. *)
Definition is_free (m : mem) (p : Z) : bool :=
  Z.testbit (page_bitmap m (p / 32)) (p mod 32).

Record mem_wf (m : mem) : Prop := {
  wf_total : 0 <= total_pages m <= MAX_PAGES;
  wf_word : forall i, 0 <= page_bitmap m i < 2 ^ 32;
  wf_count : free_pages m = count_range (is_free m) (Z.to_nat (total_pages m));
  wf_page0 : is_free m 0 = false;
  wf_ref_range : forall p, 0 <= page_refcount m p <= 255;
  wf_free_ref : forall p, 0 <= p < total_pages m -> is_free m p = true -> page_refcount m p = 0;
  wf_pinned : forall p, 0 <= p < total_pages m -> truthy (page_pinned m p) = true -> is_free m p = false
}.

Lemma shift_bit_small p : 0 <= u32 (1 << (p mod 32)) /\ u32 (1 << (p mod 32)) = 1 << (p mod 32).
Proof.
  pose proof (Z.mod_pos_bound p 32 ltac:(lia)). split; [apply u32_range|].
  apply u32_small. rewrite Z.shiftl_mul_pow2 by lia.
  assert (0 < 2 ^ (p mod 32) <= 2 ^ 31); [|lia].
  split; [apply Z.pow_pos_nonneg; lia|apply Z.pow_le_mono_r; lia].
Qed.

Lemma bit_is_set_is_free m p : bit_is_set m p = is_free m p.
Proof.
  unfold bit_is_set, is_free. destruct (shift_bit_small p) as [_ ->].
  apply truthy_land_bit. apply Z.mod_pos_bound. lia.
Qed.

Lemma page_split p q : p / 32 = q / 32 -> (p mod 32 =? q mod 32) = (p =? q).
Proof.
  intros H. apply eq_true_iff_eq. rewrite !Z.eqb_eq.
  pose proof (Z.div_mod p 32 ltac:(lia)). pose proof (Z.div_mod q 32 ltac:(lia)).
  split; intros; [lia|by subst].
Qed.

(** The two bitmap writes, seen through [is_free]. *)
Lemma is_free_clear m p q :
  is_free (set_bitmap (<[p / 32 := page_bitmap m (p / 32) .& not32 (1 << (p mod 32))]>
             (page_bitmap m)) m) q = is_free m q && negb (p =? q).
Proof.
  unfold is_free; simpl. pose proof (Z.mod_pos_bound p 32 ltac:(lia)).
  pose proof (Z.mod_pos_bound q 32 ltac:(lia)).
  destruct (decide (p / 32 = q / 32)) as [E|E].
  - rewrite <- E, fn_lookup_insert, testbit_clear_bit, page_split by (done || lia). done.
  - rewrite fn_lookup_insert_ne by done. destruct (Z.eqb_spec p q); [by subst|].
    by rewrite andb_true_r.
Qed.

Lemma is_free_set m p q :
  is_free (set_bitmap (<[p / 32 := page_bitmap m (p / 32) .| u32 (1 << (p mod 32))]>
             (page_bitmap m)) m) q = is_free m q || (p =? q).
Proof.
  unfold is_free; simpl. destruct (shift_bit_small p) as [_ ->].
  pose proof (Z.mod_pos_bound p 32 ltac:(lia)). pose proof (Z.mod_pos_bound q 32 ltac:(lia)).
  destruct (decide (p / 32 = q / 32)) as [E|E].
  - rewrite <- E, fn_lookup_insert, testbit_lor_bit, page_split by (done || lia). done.
  - rewrite fn_lookup_insert_ne by done. destruct (Z.eqb_spec p q); [by subst|].
    by rewrite orb_false_r.
Qed.

Lemma word_clear_range w x : 0 <= w < 2 ^ 32 -> 0 <= w .& not32 x < 2 ^ 32.
Proof. intros. apply land_range_l; [lia|]. apply u32_range. Qed.

Lemma word_set_range w p : 0 <= w < 2 ^ 32 -> 0 <= w .| u32 (1 << (p mod 32)) < 2 ^ 32.
Proof. intros. apply lor_range; [lia..|]. apply u32_range. Qed.

(** The count of free frames follows the bitmap. *)
Lemma count_free_clear m p n :
  0 <= p < Z.of_nat n -> is_free m p = true ->
  count_range (is_free (set_bitmap (<[p / 32 := page_bitmap m (p / 32) .& not32 (1 << (p mod 32))]>
             (page_bitmap m)) m)) n = count_range (is_free m) n - 1.
Proof.
  intros Hp Hf. symmetry. apply Z.sub_move_r, (count_range_flip _ _ _ p); try done.
  - intros i _ Hi. rewrite is_free_clear. destruct (Z.eqb_spec p i); [congruence|]. by rewrite andb_true_r.
  - rewrite is_free_clear, Z.eqb_refl. by rewrite andb_false_r.
Qed.

Lemma count_free_set m p n :
  0 <= p < Z.of_nat n -> is_free m p = false ->
  count_range (is_free (set_bitmap (<[p / 32 := page_bitmap m (p / 32) .| u32 (1 << (p mod 32))]>
             (page_bitmap m)) m)) n = count_range (is_free m) n + 1.
Proof.
  intros Hp Hf. apply (count_range_flip _ _ _ p); try done.
  - intros i _ Hi. rewrite is_free_set. destruct (Z.eqb_spec p i); [congruence|]. by rewrite orb_false_r.
  - rewrite is_free_set, Z.eqb_refl. by rewrite orb_true_r.
Qed.

Lemma free_pages_bound m : mem_wf m -> 0 <= free_pages m <= MAX_PAGES.
Proof.
  intros Hwf. rewrite (wf_count _ Hwf). pose proof (wf_total _ Hwf).
  pose proof (count_range_bounds (is_free m) (Z.to_nat (total_pages m))). lia.
Qed.

(** * [alloc_page] *)

Lemma ctz32_spec w :
  0 < w < 2 ^ 32 ->
  0 <= ctz32 w < 32 /\ Z.testbit w (ctz32 w) = true /\
  (forall j, 0 <= j < ctz32 w -> Z.testbit w j = false).
Proof.
  intros Hw. unfold ctz32. destruct (find_idx 32 0 (Z.testbit w)) as [i|] eqn:E.
  - apply find_idx_Some in E. destruct E as (H1 & H2 & H3). repeat split; try lia; done.
  - destruct (word_nonzero_bit w Hw) as (j & Hj & HT).
    rewrite (proj1 (find_idx_None _ _ _) E) in HT by lia. done.
Qed.

Lemma word_free_false m i :
  page_bitmap m i = 0 -> forall q, q / 32 = i -> is_free m q = false.
Proof. intros H q <-. unfold is_free. by rewrite H, Z.bits_0. Qed.

Lemma is_free_word m i b : 0 <= b < 32 -> is_free m (i * 32 + b) = Z.testbit (page_bitmap m i) b.
Proof.
  intros. unfold is_free. f_equal; [f_equal|]; [|].
  - rewrite Z.div_add_l by lia. rewrite Z.div_small by lia. lia.
  - rewrite Z.add_comm, Z.mod_add by lia. apply Z.mod_small. lia.
Qed.

(** The scan finds exactly the lowest free frame below [total_pages]. *)
Lemma alloc_scan_spec m n i :
  mem_wf m -> 0 <= i -> i + Z.of_nat n = BITMAP_WORDS ->
  (forall q, 0 <= q < i * 32 -> is_free m q = false) ->
  match alloc_scan n i m with
  | Some p => 0 <= p < total_pages m /\ is_free m p = true /\
              (forall q, 0 <= q < p -> is_free m q = false)
  | None => forall q, 0 <= q < total_pages m -> is_free m q = false
  end.
Proof.
  intros Hwf. pose proof (wf_total _ Hwf) as Htot. unfold BITMAP_WORDS, MAX_PAGES in *.
  change (512 * 1024 * 1024 / 4096 / 32) with 4096.
  change (512 * 1024 * 1024 / 4096) with 131072 in Htot.
  revert i. induction n as [|n IH]; intros i Hi Hn Hlow; simpl alloc_scan.
  { intros q Hq. apply Hlow. lia. }
  rewrite (u32_small (i * 32)) by lia.
  destruct (Z.ltb_spec (i * 32) (total_pages m)) as [Hlt|]; [|intros q Hq; apply Hlow; lia].
  unfold truthy. destruct (Z.eqb_spec (page_bitmap m i) 0) as [E0|E0]; simpl negb; cbn iota.
  - apply IH; [lia..|]. intros q Hq. destruct (decide (q < i * 32)); [apply Hlow; lia|].
    apply (word_free_false m i E0). symmetry. apply (Z.div_unique q 32 i (q - 32 * i)); lia.
  - pose proof (wf_word _ Hwf i). destruct (ctz32_spec (page_bitmap m i)) as (Hb & Ht & Hmin); [lia|].
    set (b := ctz32 (page_bitmap m i)) in *. rewrite (u32_small (i * 32 + b)) by lia.
    assert (Hbelow : forall q, 0 <= q < i * 32 + b -> is_free m q = false).
    { intros q Hq. destruct (decide (q < i * 32)); [apply Hlow; lia|].
      replace q with (i * 32 + (q - i * 32)) by lia. rewrite is_free_word by lia. apply Hmin. lia. }
    destruct (Z.leb_spec (total_pages m) (i * 32 + b)).
    + intros q Hq. apply Hbelow. lia.
    + split; [lia|]. split; [|done]. by rewrite is_free_word.
Qed.

Lemma alloc_scan_page m :
  mem_wf m ->
  match alloc_scan (Z.to_nat BITMAP_WORDS) 0 m with
  | Some p => 0 < p < total_pages m /\ is_free m p = true /\
              (forall q, 0 <= q < p -> is_free m q = false)
  | None => forall q, 0 <= q < total_pages m -> is_free m q = false
  end.
Proof.
  intros Hwf. pose proof (alloc_scan_spec m (Z.to_nat BITMAP_WORDS) 0 Hwf) as H.
  destruct (alloc_scan _ _ _) as [p|]; [|apply H; (done || lia)].
  destruct H as (? & Hf & ?); [done..| |]; [lia|]. split; [|done].
  destruct (decide (p = 0)) as [->|]; [|lia]. rewrite (wf_page0 _ Hwf) in Hf. done.
Qed.

(** The state [alloc_page] leaves when it takes frame [p]. *)
Definition taken (m : mem) (p : Z) : mem :=
  Mem (<[p / 32 := page_bitmap m (p / 32) .& not32 (1 << (p mod 32))]> (page_bitmap m))
      (total_pages m) (u32 (free_pages m - 1)) (<[p := 1]> (page_refcount m)) (page_pinned m)
      (memory_total m) (u64 (memory_used m + PAGE_SIZE)).

Lemma is_free_taken m p q : is_free (taken m p) q = is_free m q && negb (p =? q).
Proof. apply is_free_clear. Qed.

Lemma taken_free_pages m p :
  mem_wf m -> 0 <= p < total_pages m -> is_free m p = true ->
  free_pages (taken m p) = free_pages m - 1 /\ 0 < free_pages m.
Proof.
  intros Hwf Hp Hf. pose proof (free_pages_bound _ Hwf) as Hb. unfold MAX_PAGES in Hb.
  change (512 * 1024 * 1024 / 4096) with 131072 in Hb.
  assert (Hn : 0 < free_pages m).
  { destruct (decide (free_pages m = 0)) as [E|]; [|lia]. rewrite (wf_count _ Hwf) in E.
    rewrite (proj1 (count_range_zero _ _) E p) in Hf by lia. done. }
  split; [|done]. simpl. apply u32_small. lia.
Qed.

Lemma taken_wf m p : mem_wf m -> 0 <= p < total_pages m -> is_free m p = true -> mem_wf (taken m p).
Proof.
  intros Hwf Hp Hf. destruct (taken_free_pages m p) as [Hfp _]; try done. constructor; simpl total_pages.
  - apply Hwf.
  - intros i. simpl. destruct (decide (p / 32 = i)) as [<-|];
      [rewrite fn_lookup_insert; apply word_clear_range, Hwf | rewrite fn_lookup_insert_ne by done; apply Hwf].
  - rewrite Hfp, (wf_count _ Hwf). symmetry. apply count_free_clear; [lia|done].
  - rewrite is_free_taken, (wf_page0 _ Hwf). done.
  - intros q. simpl. destruct (decide (p = q)) as [<-|];
      [rewrite fn_lookup_insert; lia | rewrite fn_lookup_insert_ne by done; apply Hwf].
  - intros q Hq. rewrite is_free_taken. simpl. destruct (Z.eqb_spec p q) as [<-|]; [by rewrite andb_false_r|].
    rewrite andb_true_r, fn_lookup_insert_ne by done. by apply Hwf.
  - intros q Hq Hpin. rewrite is_free_taken, (wf_pinned _ Hwf q Hq Hpin). done.
Qed.

Lemma alloc_page_cases m :
  mem_wf m ->
  (exists p, 0 < p < total_pages m /\ is_free m p = true /\
             (forall q, 0 <= q < p -> is_free m q = false) /\
             alloc_page m = (p * PAGE_SIZE, taken m p)) \/
  ((forall q, 0 <= q < total_pages m -> is_free m q = false) /\ alloc_page m = (0, m)).
Proof.
  intros Hwf. pose proof (alloc_scan_page m Hwf) as H. pose proof (wf_total _ Hwf) as Ht.
  unfold alloc_page. destruct (alloc_scan _ _ _) as [p|].
  - left. exists p. destruct H as (Hp & Hf & Hmin). repeat (split; [done|]).
    unfold MAX_PAGES in Ht. change (512 * 1024 * 1024 / 4096) with 131072 in Ht.
    unfold taken, PAGE_SIZE. rewrite u32_small by lia. done.
  - by right.
Qed.

(** C2: [alloc_page] hands out the lowest free frame, exactly one, and never NULL
    for a frame; it fails exactly when no frame is free. *)
Theorem alloc_page_correct m a m' :
  mem_wf m -> alloc_page m = (a, m') ->
  mem_wf m' /\
  ((a = 0 /\ m' = m /\ free_pages m = 0) \/
   (exists p, a = p * PAGE_SIZE /\ 0 < p < total_pages m /\
      is_free m p = true /\ (forall q, 0 <= q < p -> is_free m q = false) /\
      is_free m' p = false /\ page_refcount m' p = 1 /\
      free_pages m' = free_pages m - 1 /\
      (forall q, q <> p -> is_free m' q = is_free m q /\ page_refcount m' q = page_refcount m q))).
Proof.
  intros Hwf Ha. destruct (alloc_page_cases m Hwf) as [(p & Hp & Hf & Hmin & E)|[Hnone E]];
    rewrite E in Ha; injection Ha as <- <-.
  - split; [apply taken_wf; (done || lia)|]. right. exists p. repeat (split; [done|]).
    destruct (taken_free_pages m p) as [Hfp _]; [done|lia|done|].
    rewrite is_free_taken, Z.eqb_refl, andb_false_r. repeat (split; [done|]).
    split; [simpl; by rewrite fn_lookup_insert|]. split; [done|]. intros q Hq.
    rewrite is_free_taken. destruct (Z.eqb_spec p q); [congruence|]. rewrite andb_true_r.
    split; [done|]. simpl. by rewrite fn_lookup_insert_ne.
  - split; [done|]. left. repeat (split; [done|]). rewrite (wf_count _ Hwf).
    apply count_range_zero. intros i Hi. apply Hnone. pose proof (wf_total _ Hwf). lia.
Qed.

(** * [free_page], [page_incref], [page_pin] *)

(** A frame some owner holds: allocated, and not the reserved frame 0. *)
Definition held (m : mem) (p : Z) : Prop := 0 < p < total_pages m /\ is_free m p = false.

Lemma page_idx_of_frame p off : 0 <= p < MAX_PAGES -> 0 <= off < PAGE_SIZE ->
  page_idx_of (p * PAGE_SIZE + off) = p.
Proof.
  unfold page_idx_of, PAGE_SIZE, MAX_PAGES. change (512 * 1024 * 1024 / 4096) with 131072.
  intros. rewrite u32_small by lia. rewrite Z.div_add_l by lia. rewrite Z.div_small by lia. lia.
Qed.

Lemma held_idx m p : mem_wf m -> held m p -> page_idx_of (p * PAGE_SIZE) = p.
Proof.
  intros Hwf [Hp _]. pose proof (wf_total _ Hwf).
  rewrite <- (page_idx_of_frame p 0) at 2 by (unfold PAGE_SIZE; lia). by rewrite Z.add_0_r.
Qed.

Lemma set_refcount_wf m p r :
  mem_wf m -> 0 <= r <= 255 -> is_free m p = false -> mem_wf (set_refcount (<[p := r]> (page_refcount m)) m).
Proof.
  intros Hwf Hr Hnf. constructor; simpl; try apply Hwf.
  - intros q. destruct (decide (p = q)) as [<-|];
      [by rewrite fn_lookup_insert | rewrite fn_lookup_insert_ne by done; apply Hwf].
  - intros q Hq Hf. destruct (decide (p = q)) as [<-|]; [unfold is_free in *; simpl in Hf; congruence|].
    rewrite fn_lookup_insert_ne by done. by apply Hwf.
Qed.

Definition released (m : mem) (p : Z) : mem :=
  Mem (<[p / 32 := page_bitmap m (p / 32) .| u32 (1 << (p mod 32))]> (page_bitmap m))
      (total_pages m) (u32 (free_pages m + 1)) (<[p := 0]> (page_refcount m)) (page_pinned m)
      (memory_total m) (u64 (memory_used m - PAGE_SIZE)).

Lemma is_free_released m p q : is_free (released m p) q = is_free m q || (p =? q).
Proof. apply is_free_set. Qed.

Lemma released_wf m p :
  mem_wf m -> held m p -> truthy (page_pinned m p) = false -> mem_wf (released m p).
Proof.
  intros Hwf [Hp Hnf] Hpin. pose proof (free_pages_bound _ Hwf) as Hb. unfold MAX_PAGES in Hb.
  change (512 * 1024 * 1024 / 4096) with 131072 in Hb. constructor; simpl total_pages.
  - apply Hwf.
  - intros i. simpl. destruct (decide (p / 32 = i)) as [<-|];
      [rewrite fn_lookup_insert; apply word_set_range, Hwf | rewrite fn_lookup_insert_ne by done; apply Hwf].
  - simpl free_pages. rewrite u32_small by lia. rewrite (wf_count _ Hwf). symmetry.
    apply (count_free_set m p); [lia|done].
  - rewrite is_free_released, (wf_page0 _ Hwf). destruct (Z.eqb_spec p 0); [lia|done].
  - intros q. simpl. destruct (decide (p = q)) as [<-|];
      [rewrite fn_lookup_insert; lia | rewrite fn_lookup_insert_ne by done; apply Hwf].
  - intros q Hq. rewrite is_free_released. simpl. destruct (decide (p = q)) as [<-|];
      [by rewrite fn_lookup_insert|]. rewrite fn_lookup_insert_ne by done.
    destruct (Z.eqb_spec p q); [congruence|]. rewrite orb_false_r. by apply Hwf.
  - intros q Hq Hpq. rewrite is_free_released, (wf_pinned _ Hwf q Hq Hpq). simpl.
    destruct (Z.eqb_spec p q) as [<-|]; [simpl in Hpq; congruence|done].
Qed.

Lemma free_page_cases m p :
  mem_wf m -> held m p ->
  free_page (p * PAGE_SIZE) m =
    if 1 <? page_refcount m p then
      set_refcount (<[p := page_refcount m p - 1]> (page_refcount m)) m
    else if truthy (page_pinned m p) then set_refcount (<[p := 1]> (page_refcount m)) m
    else released m p.
Proof.
  intros Hwf Hh. unfold free_page. rewrite (held_idx m p Hwf Hh). destruct Hh as [Hp _].
  destruct (Z.leb_spec (total_pages m) p); [lia|].
  destruct (Z.ltb_spec 1 (page_refcount m p)); [|done].
  pose proof (wf_ref_range _ Hwf p). by rewrite u8_small by lia.
Qed.

(** C3: releasing a held frame keeps the invariant: a shared frame loses one
    reference and stays allocated, a pinned frame stays allocated and pinned with never less
    than one reference, the last reference of any other frame puts exactly that frame back. *)
Theorem free_page_correct m p m' :
  mem_wf m -> held m p -> free_page (p * PAGE_SIZE) m = m' ->
  mem_wf m' /\
  (1 < page_refcount m p -> held m' p /\ page_refcount m' p = page_refcount m p - 1) /\
  (truthy (page_pinned m p) = true -> held m' p /\ 1 <= page_refcount m' p /\
     (page_refcount m p <= 1 -> page_refcount m' p = 1 /\ free_pages m' = free_pages m)) /\
  page_pinned m' = page_pinned m /\
  (page_refcount m p <= 1 -> truthy (page_pinned m p) = false ->
     is_free m' p = true /\ free_pages m' = free_pages m + 1) /\
  (forall q, q <> p -> is_free m' q = is_free m q /\ page_refcount m' q = page_refcount m q).
Proof.
  intros Hwf Hh <-. rewrite (free_page_cases m p Hwf Hh). pose proof (wf_ref_range _ Hwf p) as Hr.
  pose proof (free_pages_bound _ Hwf) as Hb. unfold MAX_PAGES in Hb.
  change (512 * 1024 * 1024 / 4096) with 131072 in Hb.
  destruct (Z.ltb_spec 1 (page_refcount m p)); [|destruct (truthy (page_pinned m p)) eqn:Epin].
  - split; [apply set_refcount_wf; [done|lia|apply Hh]|]. simpl. rewrite fn_lookup_insert. split; [by split; [apply Hh|]|].
    split; [intros _; split; [apply Hh|lia]|]. split; [done|]. split; [lia|]. intros q Hq. split; [done|]. by rewrite fn_lookup_insert_ne.
  - split; [apply set_refcount_wf; [done|lia|apply Hh]|]. simpl. rewrite fn_lookup_insert. split; [lia|]. split; [intros _; split; [apply Hh|lia]|].
    split; [done|]. split; [done|]. intros q Hq. split; [done|]. by rewrite fn_lookup_insert_ne.
  - split; [by apply released_wf|]. split; [lia|]. split; [done|]. split; [done|]. split.
    + intros. rewrite is_free_released, Z.eqb_refl, orb_true_r. split; [done|]. simpl. apply u32_small. lia.
    + intros q Hq. rewrite is_free_released. destruct (Z.eqb_spec p q); [congruence|]. rewrite orb_false_r.
      split; [done|]. simpl. by rewrite fn_lookup_insert_ne.
Qed.

Lemma page_incref_held m p :
  mem_wf m -> held m p ->
  let m' := page_incref (p * PAGE_SIZE) m in
  mem_wf m' /\ held m' p /\ page_refcount m' p = Z.min 255 (page_refcount m p + 1) /\
  page_pinned m' = page_pinned m /\ (forall q, is_free m' q = is_free m q).
Proof.
  intros Hwf Hh. unfold page_incref. rewrite (held_idx m p Hwf Hh). pose proof (wf_ref_range _ Hwf p).
  destruct Hh as [Hp Hnf]. destruct (Z.leb_spec (total_pages m) p); [lia|].
  destruct (Z.ltb_spec (page_refcount m p) 255).
  - rewrite u8_small by lia. split; [apply set_refcount_wf; (done || lia)|]. split; [done|].
    split; [|done]. simpl. rewrite fn_lookup_insert. lia.
  - simpl. split; [done|]. split; [done|]. split; [lia|done].
Qed.

Lemma incref_iter k m p :
  mem_wf m -> held m p ->
  let m' := Nat.iter k (page_incref (p * PAGE_SIZE)) m in
  mem_wf m' /\ held m' p /\ page_refcount m' p = Z.min 255 (page_refcount m p + Z.of_nat k) /\
  page_pinned m' = page_pinned m.
Proof.
  intros Hwf Hh. induction k as [|k IH]; simpl.
  - pose proof (wf_ref_range _ Hwf p). split; [done|]. split; [done|]. split; [lia|done].
  - destruct IH as (Hwf' & Hh' & Hr & Hpin).
    destruct (page_incref_held _ p Hwf' Hh') as (H1 & H2 & H3 & H4 & _).
    split; [done|]. split; [done|]. split; [rewrite H3, Hr; lia|congruence].
Qed.

Lemma free_iter k m p :
  mem_wf m -> held m p -> truthy (page_pinned m p) = false -> Z.of_nat k < Z.max 1 (page_refcount m p) ->
  let m' := Nat.iter k (free_page (p * PAGE_SIZE)) m in
  mem_wf m' /\ held m' p /\ page_refcount m' p = page_refcount m p - Z.of_nat k /\
  page_pinned m' = page_pinned m.
Proof.
  intros Hwf Hh Hpin Hk. pose proof (wf_ref_range _ Hwf p). induction k as [|k IH]; simpl.
  - split; [done|]. split; [done|]. split; [lia|done].
  - destruct IH as (Hwf' & Hh' & Hr & Hpin'); [lia|].
    rewrite (free_page_cases _ p Hwf' Hh'). destruct (Z.ltb_spec 1 (page_refcount (Nat.iter k (free_page (p * PAGE_SIZE)) m) p)); [|lia].
    split; [apply set_refcount_wf; [done|lia|apply Hh']|]. split; [apply Hh'|].
    split; [simpl; rewrite fn_lookup_insert; lia|done].
Qed.

Lemma free_last m p :
  mem_wf m -> held m p -> truthy (page_pinned m p) = false -> page_refcount m p <= 1 ->
  is_free (free_page (p * PAGE_SIZE) m) p = true.
Proof.
  intros Hwf Hh Hpin Hr. rewrite (free_page_cases m p Hwf Hh). destruct (Z.ltb_spec 1 (page_refcount m p)); [lia|].
  by rewrite Hpin, is_free_released, Z.eqb_refl, orb_true_r.
Qed.

(** Copy-on-write sharing is counted exactly: a frame shared by [k] increfs on
    top of its owner survives [k] releases and goes back on release [k + 1]. *)
Theorem cow_refcount_lifecycle m p k :
  mem_wf m -> held m p -> truthy (page_pinned m p) = false -> page_refcount m p = 1 ->
  Z.of_nat k <= 254 ->
  let shared := Nat.iter k (page_incref (p * PAGE_SIZE)) m in
  page_get_refcount (p * PAGE_SIZE) shared = Z.of_nat k + 1 /\
  (forall j, (j <= k)%nat -> held (Nat.iter j (free_page (p * PAGE_SIZE)) shared) p) /\
  is_free (Nat.iter (S k) (free_page (p * PAGE_SIZE)) shared) p = true.
Proof.
  intros Hwf Hh Hpin Hr1 Hk shared. destruct (incref_iter k m p Hwf Hh) as (Hwf' & Hh' & Hr & Hp').
  fold shared in Hwf', Hh', Hr, Hp'. rewrite Hr1 in Hr. assert (Hps : truthy (page_pinned shared p) = false) by congruence.
  split; [|split].
  - unfold page_get_refcount. rewrite (held_idx shared p Hwf' Hh').
    destruct Hh' as [? _]. destruct (Z.leb_spec (total_pages shared) p); lia.
  - intros j Hj. apply free_iter; (done || lia).
  - destruct (free_iter k shared p) as (H1 & H2 & H3 & H4); try done; [lia|]. simpl.
    apply free_last; try done; [congruence|lia].
Qed.

(** The one-byte counter saturates: with 256 or more references taken, 255
    releases already hand the frame out again while references remain. *)
Theorem refcount_saturates m p k :
  mem_wf m -> held m p -> truthy (page_pinned m p) = false -> page_refcount m p = 1 ->
  255 <= Z.of_nat k ->
  is_free (Nat.iter 255 (free_page (p * PAGE_SIZE))
            (Nat.iter k (page_incref (p * PAGE_SIZE)) m)) p = true.
Proof.
  intros Hwf Hh Hpin Hr1 Hk. destruct (incref_iter k m p Hwf Hh) as (Hwf' & Hh' & Hr & Hp').
  rewrite Hr1 in Hr. set (shared := Nat.iter k _ m) in *.
  assert (Hps : truthy (page_pinned shared p) = false) by congruence.
  destruct (free_iter 254 shared p) as (H1 & H2 & H3 & H4); try done; [lia|].
  change 255%nat with (S 254). rewrite Nat.iter_succ. apply free_last; try done; [congruence|lia].
Qed.

(** * Initialisation *)

(** The part of the invariant the boot-time loops maintain. *)
Record bm_wf (m : mem) : Prop := {
  bm_total : 0 <= total_pages m <= MAX_PAGES;
  bm_word : forall i, 0 <= page_bitmap m i < 2 ^ 32;
  bm_count : free_pages m = count_range (is_free m) (Z.to_nat (total_pages m))
}.

Lemma bm_count_bound m : bm_wf m -> 0 <= free_pages m <= 131072.
Proof.
  intros H. rewrite (bm_count _ H). pose proof (bm_total _ H) as Ht. unfold MAX_PAGES in Ht.
  change (512 * 1024 * 1024 / 4096) with 131072 in Ht.
  pose proof (count_range_bounds (is_free m) (Z.to_nat (total_pages m))). lia.
Qed.

(** What the loops leave alone. *)
Definition same_meta (m m' : mem) : Prop :=
  total_pages m' = total_pages m /\ page_refcount m' = page_refcount m /\ page_pinned m' = page_pinned m.

Lemma same_meta_trans m1 m2 m3 : same_meta m1 m2 -> same_meta m2 m3 -> same_meta m1 m3.
Proof. unfold same_meta. intuition congruence. Qed.

Lemma free_step_spec m p :
  bm_wf m -> 0 <= p < total_pages m ->
  bm_wf (free_step p m) /\ same_meta m (free_step p m) /\
  (forall x, is_free (free_step p m) x = is_free m x || (p =? x)).
Proof.
  intros Hwf Hp. unfold free_step. rewrite bit_is_set_is_free. pose proof (bm_count_bound _ Hwf).
  destruct (is_free m p) eqn:Ef; simpl.
  - split; [done|]. split; [done|]. intros x. destruct (Z.eqb_spec p x) as [<-|]; [by rewrite Ef|by rewrite orb_false_r].
  - split; [|split; [done|intros x; apply (is_free_set m p x)]]. constructor; simpl.
    + apply Hwf.
    + intros i. destruct (decide (p / 32 = i)) as [<-|];
        [rewrite fn_lookup_insert; apply word_set_range, Hwf | rewrite fn_lookup_insert_ne by done; apply Hwf].
    + rewrite u32_small by lia. rewrite (bm_count _ Hwf). symmetry. apply (count_free_set m p); [lia|done].
Qed.

Lemma reserve_step_spec m p :
  bm_wf m -> 0 <= p < total_pages m ->
  bm_wf (reserve_step p m) /\ same_meta m (reserve_step p m) /\
  (forall x, is_free (reserve_step p m) x = is_free m x && negb (p =? x)).
Proof.
  intros Hwf Hp. unfold reserve_step. rewrite bit_is_set_is_free. pose proof (bm_count_bound _ Hwf).
  destruct (is_free m p) eqn:Ef; simpl.
  - split; [|split; [done|intros x; apply (is_free_clear m p x)]].
    assert (Hc := count_free_clear m p (Z.to_nat (total_pages m)) ltac:(lia) Ef). rewrite <- (bm_count _ Hwf) in Hc.
    assert (Hnn := count_range_bounds (is_free (set_bitmap (<[p / 32 := page_bitmap m (p / 32) .& not32 (1 << (p mod 32))]>
             (page_bitmap m)) m)) (Z.to_nat (total_pages m))). constructor; simpl.
    + apply Hwf.
    + intros i. destruct (decide (p / 32 = i)) as [<-|];
        [rewrite fn_lookup_insert; apply word_clear_range, Hwf | rewrite fn_lookup_insert_ne by done; apply Hwf].
    + rewrite u32_small by lia. by rewrite <- Hc.
  - split; [done|]. split; [done|]. intros x. destruct (Z.eqb_spec p x) as [<-|]; [by rewrite Ef|by rewrite andb_true_r].
Qed.

Lemma reserve_low_pages_spec m e :
  bm_wf m ->
  let m' := reserve_low_pages e m in
  bm_wf m' /\ same_meta m m' /\
  (forall x, 0 <= x -> is_free m' x = is_free m x && ((e <=? x) || (total_pages m <=? x))).
Proof.
  intros Hwf. unfold reserve_low_pages. pose proof (bm_total _ Hwf) as Ht.
  set (n := Z.to_nat (Z.min e (total_pages m))).
  assert (H := for_range_ind (fun i m' => bm_wf m' /\ same_meta m m' /\
     (forall x, 0 <= x -> is_free m' x = is_free m x && (i <=? x))) n 0 reserve_step m).
  destruct H as (H1 & H2 & H3).
  - split; [done|]. split; [done|]. intros x Hx. destruct (Z.leb_spec 0 x); [by rewrite andb_true_r|lia].
  - intros i s Hi (Hs1 & Hs2 & Hs3). destruct (reserve_step_spec s i) as (R1 & R2 & R3); [done| |].
    { destruct Hs2 as (-> & _). lia. }
    split; [done|]. split; [by eapply same_meta_trans|]. intros x Hx. rewrite R3, Hs3 by done.
    rewrite <- andb_assoc. f_equal. repeat case_cmp; simpl; lia || done.
  - split; [done|]. split; [done|]. intros x Hx. rewrite H3 by lia. f_equal. repeat case_cmp; simpl; (lia || done).
Qed.

(** An available region the firmware may report: within the 16 TiB whose frame
    numbers fit the code's 32-bit page index. *)
Definition entry_ok (e : mb_mmap_entry) : Prop :=
  mb_type e = 1 -> 0 <= mb_base e /\ 0 <= mb_len e /\ mb_base e + mb_len e <= 2 ^ 44.

(** Frame [x] lies wholly inside the available region [e]. *)
Definition covers (x : Z) (e : mb_mmap_entry) : bool :=
  (mb_type e =? 1) && (mb_base e <=? x * PAGE_SIZE) &&
  ((x + 1) * PAGE_SIZE <=? mb_base e + mb_len e).

Lemma free_region_spec fuel pa pe m :
  bm_wf m -> 0 <= pa -> pe <= 2 ^ 32 -> total_pages m <= pa + Z.of_nat fuel ->
  let m' := free_region fuel (pa * PAGE_SIZE) (pe * PAGE_SIZE) m in
  bm_wf m' /\ same_meta m m' /\
  (forall x, is_free m' x = is_free m x || ((pa <=? x) && (x <? pe) && (x <? total_pages m))).
Proof.
  revert pa m. induction fuel as [|fuel IH]; intros pa m Hwf Hpa Hpe Hf; simpl free_region.
  { split; [done|]. split; [done|]. intros x. repeat case_cmp; simpl; try lia; by rewrite orb_false_r. }
  unfold PAGE_SIZE in *.
  destruct (Z.ltb_spec (pa * 4096) (pe * 4096)) as [Hlt|Hge].
  2:{ split; [done|]. split; [done|]. intros x.
      repeat case_cmp; simpl; try lia; by rewrite orb_false_r. }
  rewrite Z.div_mul by lia. rewrite (u32_small pa) by lia. destruct (Z.leb_spec (total_pages m) pa) as [Ht|Ht].
  { split; [done|]. split; [done|]. intros x. repeat case_cmp; simpl; try lia; by rewrite orb_false_r. }
  destruct (free_step_spec m pa) as (F1 & F2 & F3); [done|lia|].
  rewrite (u64_small (pa * 4096 + 4096)) by lia. replace (pa * 4096 + 4096) with ((pa + 1) * 4096) by lia.
  destruct (IH (pa + 1) (free_step pa m)) as (H1 & H2 & H3); [done|lia|lia|destruct F2 as (-> & _); lia|].
  split; [done|]. split; [by eapply same_meta_trans|]. intros x.
  rewrite H3, F3. destruct F2 as (-> & _). rewrite <- orb_assoc. f_equal.
  repeat case_cmp; simpl; (lia || done).
Qed.

Lemma region_bounds e :
  entry_ok e -> mb_type e = 1 ->
  region_start e = (mb_base e + 4095) / 4096 * 4096 /\
  region_end e = (mb_base e + mb_len e) / 4096 * 4096.
Proof.
  intros Hok Ht. destruct (Hok Ht) as (? & ? & ?). unfold region_start, region_end, PAGE_SIZE.
  change (4096 - 1) with (2 ^ 12 - 1). change 4096 with (2 ^ 12).
  rewrite !land_not64_pow2 by (lia || apply u64_range).
  rewrite !u64_small by lia. split; [|done]. do 2 f_equal. lia.
Qed.

Lemma region_fuel_enough m : bm_wf m -> total_pages m <= Z.of_nat region_fuel.
Proof.
  intros Hwf. pose proof (bm_total _ Hwf). unfold region_fuel.
  assert (0 < MAX_PAGES) by done. rewrite Z2Nat.id; lia.
Qed.

Lemma free_entry_spec m e :
  bm_wf m -> entry_ok e ->
  bm_wf (free_entry m e) /\ same_meta m (free_entry m e) /\
  (forall x, is_free (free_entry m e) x = is_free m x || (covers x e && (x <? total_pages m))).
Proof.
  intros Hwf Hok. pose proof (region_fuel_enough m Hwf) as Hfuel.
  unfold free_entry, covers. revert Hfuel. generalize region_fuel. intros fuel Hfuel.
  destruct (Z.eqb_spec (mb_type e) 1) as [Ht|]; simpl.
  2:{ split; [done|]. split; [done|]. intros. by rewrite orb_false_r. }
  destruct (region_bounds e Hok Ht) as [-> ->]. destruct (Hok Ht) as (? & ? & ?).
  pose proof (Z.div_pos (mb_base e + 4095) 4096 ltac:(lia) ltac:(lia)).
  destruct (free_region_spec fuel ((mb_base e + 4095) / 4096) ((mb_base e + mb_len e) / 4096) m)
    as (F1 & F2 & F3); [done|done|apply Z.div_le_upper_bound; lia|lia|].
  split; [done|]. split; [done|]. intros x. unfold PAGE_SIZE in *. rewrite F3. do 2 f_equal.
  f_equal; apply eq_true_iff_eq; rewrite ?Z.leb_le, ?Z.ltb_lt; Z.div_mod_to_equations; lia.
Qed.

Lemma free_entries_spec mmap m :
  bm_wf m -> Forall entry_ok mmap ->
  let m' := foldl free_entry m mmap in
  bm_wf m' /\ same_meta m m' /\
  (forall x, is_free m' x = is_free m x || (existsb (covers x) mmap && (x <? total_pages m))).
Proof.
  intros Hwf Hok. revert m Hwf. induction Hok as [|e l He Hl IH]; intros m Hwf; simpl.
  { split; [done|]. split; [done|]. intros. by rewrite orb_false_r. }
  destruct (free_entry_spec m e Hwf He) as (F1 & F2 & F3). destruct (IH _ F1) as (H1 & H2 & H3).
  split; [done|]. split; [by eapply same_meta_trans|]. intros x.
  rewrite H3, F3. destruct F2 as (-> & _). by rewrite andb_orb_distrib_l, orb_assoc.
Qed.

Lemma init_total_range x : 0 <= (if MAX_PAGES <? u32 x then MAX_PAGES else u32 x) <= MAX_PAGES.
Proof. pose proof (u32_range x). assert (0 < MAX_PAGES) by done. case_cmp; lia. Qed.

Lemma boot_wf m :
  bm_wf m -> is_free m 0 = false -> (forall p, page_refcount m p = 0) -> (forall p, page_pinned m p = 0) -> mem_wf m.
Proof.
  intros Hwf H0 Hr Hp. constructor; try apply Hwf; try done.
  - intros p. rewrite Hr. lia.
  - intros p _ E. by rewrite Hp in E.
Qed.

Lemma boot_limit kernel_end p :
  0 <= kernel_end < 2 ^ 32 ->
  (reserve_limit (u32 ((kernel_end + PAGE_SIZE - 1) / PAGE_SIZE)) <=? p) = true <-> 0x100000 <= p * PAGE_SIZE /\ kernel_end <= p * PAGE_SIZE.
Proof.
  intros Hke. unfold reserve_limit, PAGE_SIZE. change (0x100000 / 4096) with 256. cbv zeta.
  rewrite (u32_small _) by (Z.div_mod_to_equations; lia). rewrite Z.leb_le.
  case_cmp; Z.div_mod_to_equations; lia.
Qed.

(** After [init_memory] with a firmware map, the free frames are exactly those
    wholly inside a region reported as available, below the page limit and above
    the first megabyte and the kernel image; the invariant holds. *)
Theorem init_memory_mmap_correct kernel_end mem_size mmap m0 :
  mmap <> [] -> Forall entry_ok mmap -> 0 <= kernel_end < 2 ^ 32 ->
  (forall p, page_refcount m0 p = 0) -> (forall p, page_pinned m0 p = 0) ->
  let m := init_memory kernel_end mem_size mmap m0 in
  mem_wf m /\
  forall p, 0 <= p < total_pages m ->
    (is_free m p = true <->
     0x100000 <= p * PAGE_SIZE /\ kernel_end <= p * PAGE_SIZE /\ exists e, e ∈ mmap /\ covers p e = true).
Proof.
  intros Hne Hok Hke Hr Hp. unfold init_memory. rewrite bool_decide_eq_true_2 by done.
  set (m1 := Mem _ _ _ _ _ _ _). assert (Hb : bm_wf m1).
  { constructor; simpl; [apply init_total_range|lia|]. symmetry. apply count_range_zero.
    intros. unfold is_free. simpl. apply Z.bits_0. }
  destruct (free_entries_spec mmap m1 Hb Hok) as (F1 & F2 & F3). set (m2 := foldl free_entry m1 mmap) in *.
  assert (Hlim := fun p => boot_limit kernel_end p Hke). cbv zeta in Hlim |- *.
  set (lim := reserve_limit _) in *. destruct (reserve_low_pages_spec m2 lim F1) as (R1 & R2 & R3).
  destruct (same_meta_trans _ _ _ F2 R2) as (Etot & Eref & Epin).
  assert (Htot2 : total_pages m2 = total_pages m1) by apply F2.
  assert (Hfree : forall p, 0 <= p -> is_free (reserve_low_pages lim m2) p =
            existsb (covers p) mmap && (p <? total_pages m1) && ((lim <=? p) || (total_pages m1 <=? p))).
  { intros p Hpp. rewrite R3, F3, Htot2 by lia. unfold is_free at 1. simpl page_bitmap. by rewrite Z.bits_0. }
  split.
  - apply boot_wf; [done| |intros; rewrite Eref; apply Hr|intros; rewrite Epin; apply Hp].
    rewrite Hfree by lia. destruct (lim <=? 0) eqn:E; [apply Hlim in E; lia|].
    destruct (Z.leb_spec (total_pages m1) 0), (Z.ltb_spec 0 (total_pages m1)); try lia; by rewrite ?andb_false_r.
  - intros p. rewrite Etot. intros Hpp. rewrite Hfree by lia.
    destruct (Z.ltb_spec p (total_pages m1)), (Z.leb_spec (total_pages m1) p); try lia.
    rewrite andb_true_r, orb_false_r, andb_true_iff, Hlim, existsb_exists.
    setoid_rewrite list_elem_of_In. naive_solver.
Qed.

(** What is known of one frame, and what dropping a reference to it does. *)
Definition frame_state (m : mem) (p : Z) : bool * Z * bool :=
  (is_free m p, page_refcount m p, truthy (page_pinned m p)).

Definition drop_ref (f : bool * Z * bool) : bool * Z * bool :=
  let '(free, rc, pinned) := f in
  if 1 <? rc then (free, rc - 1, pinned)
  else if pinned then (free, 1, pinned) else (true, 0, pinned).

(** * What the allocator promises its clients

    The page-table code and the slab only rely on this much of the allocator: a
    successful allocation hands out a whole frame nobody owned and changes the
    ownership of no other frame; a failed one changes nothing; releasing an owned frame
    does not affect the others.  [fs_frame] is what is known of a frame: on the free
    side, reference count, pinned. *)
Class FrameSource (A : Type) := {
  fs_alloc : A -> Z * A;
  fs_free : Z -> A -> A;
  fs_inv : A -> Prop;
  fs_owned : A -> Z -> Prop;
  fs_frame : A -> Z -> bool * Z * bool;
  fs_alloc_spec : forall a, fs_inv a ->
    (exists p a', fs_alloc a = (p * PAGE_SIZE, a') /\ 0 < p < MAX_PAGES /\ ~ fs_owned a p /\
       fs_inv a' /\ (forall q, fs_owned a' q <-> fs_owned a q \/ q = p) /\
       (forall q, q <> p -> fs_frame a' q = fs_frame a q)) \/
    fs_alloc a = (0, a);
  fs_free_spec : forall a p, fs_inv a -> fs_owned a p ->
    fs_inv (fs_free (p * PAGE_SIZE) a) /\
    (forall q, q <> p -> fs_owned (fs_free (p * PAGE_SIZE) a) q <-> fs_owned a q)
}.

Lemma alloc_page_source m :
  mem_wf m ->
  (exists p m', alloc_page m = (p * PAGE_SIZE, m') /\ 0 < p < MAX_PAGES /\ ~ held m p /\
     mem_wf m' /\ (forall q, held m' q <-> held m q \/ q = p) /\
     (forall q, q <> p -> frame_state m' q = frame_state m q)) \/
  alloc_page m = (0, m).
Proof.
  intros Hwf. destruct (alloc_page_cases m Hwf) as [(p & Hp & Hf & _ & E)|[_ E]]; [left|by right].
  pose proof (wf_total _ Hwf). exists p, (taken m p). split; [done|]. split; [lia|].
  split; [intros [_ Hh]; congruence|]. split; [apply taken_wf; (done || lia)|].
  split.
  2: { intros q Hq. unfold frame_state. rewrite is_free_taken. simpl. rewrite fn_lookup_insert_ne by done.
       destruct (Z.eqb_spec p q); [congruence|]. by rewrite andb_true_r. }
  intros q. unfold held. rewrite is_free_taken. simpl total_pages.
  destruct (Z.eqb_spec p q) as [<-|]; [rewrite andb_false_r | rewrite andb_true_r].
  - split; intros; [by right|]. split; [lia|done].
  - split; [by left|]. intros [?|?]; [done|congruence].
Qed.

Lemma free_page_frames m p :
  mem_wf m -> held m p ->
  mem_wf (free_page (p * PAGE_SIZE) m) /\ total_pages (free_page (p * PAGE_SIZE) m) = total_pages m /\
  (forall q, frame_state (free_page (p * PAGE_SIZE) m) q =
     if decide (q = p) then drop_ref (frame_state m p) else frame_state m q).
Proof.
  intros Hwf Hh. rewrite free_page_cases by done. pose proof (wf_ref_range _ Hwf p).
  assert (Hset : forall r, 0 <= r <= 255 ->
    mem_wf (set_refcount (<[p := r]> (page_refcount m)) m)) by (intros; apply set_refcount_wf; (done || apply Hh)).
  unfold frame_state, drop_ref. destruct (Z.ltb_spec 1 (page_refcount m p)).
  - split; [apply Hset; lia|]. split; [done|]. intros q. unfold is_free; simpl.
    destruct (decide (q = p)) as [->|]; [by rewrite fn_lookup_insert|by rewrite fn_lookup_insert_ne].
  - destruct (truthy (page_pinned m p)) eqn:Hpin.
    + split; [apply Hset; lia|]. split; [done|]. intros q. unfold is_free; simpl.
      destruct (decide (q = p)) as [->|]; [rewrite fn_lookup_insert; by rewrite Hpin|by rewrite fn_lookup_insert_ne].
    + split; [by apply released_wf|]. split; [done|]. intros q. rewrite is_free_released. simpl.
      destruct (decide (q = p)) as [->|].
      * rewrite fn_lookup_insert, Z.eqb_refl, orb_true_r. by rewrite Hpin.
      * rewrite fn_lookup_insert_ne by done. destruct (Z.eqb_spec p q); [congruence|]. by rewrite orb_false_r.
Qed.

(** One more reference, up to what a byte holds. *)
Definition bump_ref (f : bool * Z * bool) : bool * Z * bool :=
  let '(free, rc, pinned) := f in (free, if rc <? 255 then rc + 1 else rc, pinned).

Lemma page_incref_frames m p :
  mem_wf m -> held m p ->
  mem_wf (page_incref (p * PAGE_SIZE) m) /\ total_pages (page_incref (p * PAGE_SIZE) m) = total_pages m /\
  (forall q, frame_state (page_incref (p * PAGE_SIZE) m) q =
     if decide (q = p) then bump_ref (frame_state m p) else frame_state m q).
Proof.
  intros Hwf Hh. unfold page_incref. rewrite (held_idx m p Hwf Hh). pose proof (wf_ref_range _ Hwf p).
  destruct (Z.leb_spec (total_pages m) p); [destruct Hh; lia|]. unfold frame_state, bump_ref.
  destruct (Z.ltb_spec (page_refcount m p) 255).
  - rewrite u8_small by lia. split; [apply set_refcount_wf; [done|lia|apply Hh]|]. split; [done|].
    intros q. unfold is_free; simpl.
    destruct (decide (q = p)) as [->|]; [by rewrite fn_lookup_insert|by rewrite fn_lookup_insert_ne].
  - split; [done|]. split; [done|]. intros q. by destruct (decide (q = p)) as [->|].
Qed.

Lemma free_page_source m p :
  mem_wf m -> held m p ->
  mem_wf (free_page (p * PAGE_SIZE) m) /\
  (forall q, q <> p -> held (free_page (p * PAGE_SIZE) m) q <-> held m q).
Proof.
  intros Hwf Hh. destruct (free_page_frames m p Hwf Hh) as (H1 & H2 & H3). split; [done|].
  intros q Hq. unfold held. rewrite H2. specialize (H3 q). rewrite decide_False in H3 by done.
  injection H3 as -> _ _. done.
Qed.

#[export] Instance mem_frame_source : FrameSource mem := {
  fs_alloc := alloc_page; fs_free := free_page; fs_inv := mem_wf; fs_owned := held;
  fs_frame := frame_state;  fs_alloc_spec := alloc_page_source; fs_free_spec := free_page_source
}.

(** * A concrete allocator: frames 1-3 free, frame 4 allocated once. *)
Definition demo_mem : mem :=
  Mem (fun i => if i =? 0 then 14 else 0) 8 3 (fun p => if p =? 4 then 1 else 0)
      (fun _ => 0) 32768 4096.

Lemma demo_mem_wf : mem_wf demo_mem.
Proof.
  constructor; simpl; try done.
  - intros i. case_cmp; lia.
  - intros p. case_cmp; lia.
  - intros p Hp. destruct (Z.eqb_spec p 4) as [->|]; [|done]. done.
Qed.

Lemma demo_mem_held : held demo_mem 4.
Proof. split; [simpl; lia|reflexivity]. Qed.

Lemma alloc_page_correct_witness :
  mem_wf (snd (alloc_page demo_mem)) /\ fst (alloc_page demo_mem) = 1 * PAGE_SIZE.
Proof.
  split; [|reflexivity].
  exact (proj1 (alloc_page_correct demo_mem (fst (alloc_page demo_mem)) (snd (alloc_page demo_mem))
                 demo_mem_wf eq_refl)).
Defined.

Lemma free_page_correct_witness :
  is_free (free_page (4 * PAGE_SIZE) demo_mem) 4 = true /\ free_pages (free_page (4 * PAGE_SIZE) demo_mem) = 4.
Proof.
  destruct (free_page_correct demo_mem 4 _ demo_mem_wf demo_mem_held eq_refl) as (_ & _ & _ & _ & H & _).
  apply H; vm_compute; [discriminate|reflexivity].
Defined.

Lemma cow_refcount_lifecycle_witness :
  is_free (Nat.iter 3 (free_page (4 * PAGE_SIZE))
             (Nat.iter 2 (page_incref (4 * PAGE_SIZE)) demo_mem)) 4 = true.
Proof.
  apply (cow_refcount_lifecycle demo_mem 4 2 demo_mem_wf demo_mem_held); [reflexivity|reflexivity|lia].
Defined.

Lemma refcount_saturates_witness :
  is_free (Nat.iter 255 (free_page (4 * PAGE_SIZE))
             (Nat.iter 300 (page_incref (4 * PAGE_SIZE)) demo_mem)) 4 = true.
Proof.
  apply (refcount_saturates demo_mem 4 300 demo_mem_wf demo_mem_held); [reflexivity|reflexivity|lia].
Defined.

(** A small machine: a low region and RAM from 1 MiB to 1.5 MiB, kernel to 0x140000. *)
Definition demo_mmap : list mb_mmap_entry :=
  [MbEntry 0 0x9FC00 1; MbEntry 0x100000 0x80000 1; MbEntry 0xFFFC0000 0x40000 2].

Lemma init_memory_mmap_correct_witness :
  mem_wf (init_memory 0x140000 0x180000 demo_mmap (Mem (fun _ => 0) 0 0 (fun _ => 0) (fun _ => 0) 0 0)).
Proof.
  apply (init_memory_mmap_correct 0x140000 0x180000 demo_mmap); try done.
  repeat constructor; unfold entry_ok; simpl; lia.
Defined.
