(* ===== verification/Heap.v ===== *)
(** Kernel heap (src/kernel/heap.c): a first-fit allocator over one static
    16 MiB array, its blocks linked in address order by headers stored in front
    of each payload.

    The block headers are modelled as a finite map from the address of a header
    to its contents, so [curr->next] is a look-up in the shared memory and a
    header write is an insertion; a look-up that fails models a dereference of
    an address that holds no header.  [heap] is the address the linker gives the
    array. *)
From S2P Require Import Prelude.

Record heap_block := HeapBlock { hb_size : Z; hb_used : Z; hb_next : Z }.

#[export] Instance heap_block_eq_dec : EqDecision heap_block.
Proof. solve_decision. Defined.

Definition HEAP_SIZE : Z := 16 * 1024 * 1024.
(** [sizeof(heap_block_t)]: a [size_t], a byte padded to eight, a pointer. *)
Definition HB_HDR : Z := 24.

Section Heap.
Context (heap : Z).

Abbreviation hmem := (gmap Z heap_block).

Definition init_heap (st : hmem) : hmem :=
  <[heap := HeapBlock (HEAP_SIZE - HB_HDR) 0 0]> st.

(** What the allocation branch of the loop does to block [b] at [curr]. *)
Definition heap_take (curr : Z) (b : heap_block) (size : Z) (st : hmem) : hmem :=
  if u64 (size + HB_HDR + 16) <? hb_size b then
    let new_block := u64 (curr + HB_HDR + size) in
    let st1 := <[new_block := HeapBlock (u64 (hb_size b - size - HB_HDR)) 0 (hb_next b)]> st in
    <[curr := HeapBlock size 1 new_block]> st1
  else <[curr := HeapBlock (hb_size b) 1 (hb_next b)]> st.

(** The [while (curr)] loop; [None]: out of fuel, or [curr] is no header. *)
Fixpoint heap_alloc_from (fuel : nat) (curr size : Z) (st : hmem) : option (Z * hmem) :=
  match fuel with
  | O => None
  | S fuel' =>
      if curr =? 0 then Some (0, st)
      else b ← st !! curr;
           if negb (truthy (hb_used b)) && (size <=? hb_size b)
           then Some (u64 (curr + HB_HDR), heap_take curr b size st)
           else heap_alloc_from fuel' (hb_next b) size st
  end.

(** One round per header in memory and one for the NULL at the end. *)
Definition heap_alloc (size : Z) (st : hmem) : option (Z * hmem) :=
  heap_alloc_from (S (base.size st)) heap size st.

Definition heap_free (ptr : Z) (st : hmem) : option hmem :=
  if ptr =? 0 then Some st
  else
    let block := u64 (ptr - HB_HDR) in
    b ← st !! block;
    let b1 := HeapBlock (hb_size b) 0 (hb_next b) in
    let st1 := <[block := b1]> st in
    if hb_next b1 =? 0 then Some st1
    else
      nb ← st1 !! hb_next b1;
      if negb (truthy (hb_used nb))
      then Some (<[block := HeapBlock (u64 (hb_size b1 + HB_HDR + hb_size nb)) 0 (hb_next nb)]> st1)
      else Some st1.

(** * Invariant: the blocks tile the array *)

Definition heap_end : Z := heap + HEAP_SIZE.

(** [seg st a l z]: from address [a] to [z] memory is exactly the blocks [l],
    each linked to the block that starts where it ends, NULL at the array's end. *)
Fixpoint seg (st : hmem) (a : Z) (l : list (Z * heap_block)) (z : Z) : Prop :=
  match l with
  | [] => a = z
  | (x, b) :: l' =>
      x = a /\ st !! x = Some b /\ 0 <= hb_size b /\
      hb_next b = (if a + HB_HDR + hb_size b =? heap_end then 0 else a + HB_HDR + hb_size b) /\
      seg st (a + HB_HDR + hb_size b) l' z
  end.

(** The blocks of the whole array, in address order. *)
Definition blocks (st : hmem) (l : list (Z * heap_block)) : Prop := seg st heap l heap_end.
Definition heap_wf (st : hmem) : Prop := exists l, blocks st l.

(** The array's place in the address space. *)
Context (Hheap : 0 < heap /\ heap + HEAP_SIZE < 2 ^ 64).

Lemma seg_app st a l1 l2 z :
  seg st a (l1 ++ l2) z <-> exists m, seg st a l1 m /\ seg st m l2 z.
Proof.
  revert a. induction l1 as [|[x b] l1 IH]; intros a; simpl.
  - split; [by eexists|]. intros (m & -> & ?). done.
  - setoid_rewrite IH. naive_solver.
Qed.

Lemma seg_le st a l z : seg st a l z -> a <= z.
Proof.
  revert a. induction l as [|[x b] l IH]; intros a; simpl; [lia|].
  intros (_ & _ & ? & _ & H). apply IH in H. unfold HB_HDR in *. lia.
Qed.

(** Every block of a segment lies inside it. *)
Lemma seg_inside st a l z x b :
  seg st a l z -> (x, b) ∈ l -> a <= x /\ 0 <= hb_size b /\ x + HB_HDR + hb_size b <= z.
Proof.
  revert a. induction l as [|[y c] l IH]; intros a; simpl; [by intros _ ?%elem_of_nil|].
  intros (-> & _ & Hs & _ & H) Hin. pose proof (seg_le _ _ _ _ H). unfold HB_HDR in *.
  apply elem_of_cons in Hin as [[= -> ->]|Hin]; [lia|]. destruct (IH _ H Hin). lia.
Qed.

Lemma seg_lookup st a l z x b : seg st a l z -> (x, b) ∈ l -> st !! x = Some b.
Proof.
  revert a. induction l as [|[y c] l IH]; intros a; simpl; [by intros _ ?%elem_of_nil|].
  intros (-> & Hl & _ & _ & H) [[= -> ->]|Hin]%elem_of_cons; eauto.
Qed.

(** A segment only depends on the headers it mentions. *)
Lemma seg_frame st st' a l z :
  seg st a l z -> (forall x, a <= x < z -> st' !! x = st !! x) -> seg st' a l z.
Proof.
  revert a. induction l as [|[y c] l IH]; intros a; simpl; [done|].
  intros (-> & Hl & Hs & Hn & H) Heq. pose proof (seg_le _ _ _ _ H). unfold HB_HDR in *.
  repeat split; try done; [rewrite Heq by lia; done|]. apply IH; [done|]. intros x Hx. apply Heq. lia.
Qed.

Lemma seg_nodup st a l z : seg st a l z -> NoDup l.*1.
Proof.
  revert a. induction l as [|[y c] l IH]; intros a; simpl; [constructor|].
  intros (-> & _ & Hs & _ & H). constructor; [|by eapply IH].
  intros ([y' c'] & -> & Hin)%list_elem_of_fmap. simpl in *.
  destruct (seg_inside _ _ _ _ _ _ H Hin). unfold HB_HDR in *. lia.
Qed.

Lemma seg_length st a l z : seg st a l z -> (length l <= base.size st)%nat.
Proof.
  intros H. rewrite <- size_dom, <- (length_fmap fst).
  rewrite <- (size_list_to_set (C:=gset Z) l.*1) by (by eapply seg_nodup).
  apply subseteq_size. intros x Hx. rewrite elem_of_list_to_set in Hx.
  apply list_elem_of_fmap in Hx as ([y c] & -> & Hin). apply elem_of_dom. exists c. by eapply seg_lookup.
Qed.

(** Next pointer of the block that ends at [e]: where the rest of the scan starts. *)
Definition next_of (e : Z) : Z := if e =? heap_end then 0 else e.

Definition fits (size : Z) (b : heap_block) : bool := negb (truthy (hb_used b)) && (size <=? hb_size b).

(** The loop takes the first unused block that is large enough. *)
Lemma heap_alloc_from_spec st l a fuel size :
  seg st a l heap_end -> 0 < a -> (length l < fuel)%nat ->
  heap_alloc_from fuel (next_of a) size st =
  match list_find (fun kv => fits size kv.2 = true) l with
  | Some (_, (x, b)) => Some (u64 (x + HB_HDR), heap_take x b size st)
  | None => Some (0, st)
  end.
Proof.
  revert a fuel. induction l as [|[x b] l IH]; intros a fuel Hseg Ha Hf; destruct fuel as [|fuel]; try (simpl in Hf; lia).
  - simpl in Hseg. subst a. unfold next_of. rewrite Z.eqb_refl. done.
  - simpl in Hseg. destruct Hseg as (-> & Hl & Hs & Hn & Hseg). pose proof (seg_le _ _ _ _ Hseg).
    unfold HB_HDR in *. unfold next_of. destruct (Z.eqb_spec a heap_end); [lia|]. simpl.
    destruct (Z.eqb_spec a 0); [lia|]. rewrite Hl. simpl.
    fold (fits size b). destruct (decide (fits size b = true)) as [E|E].
    + by rewrite E.
    + apply not_true_is_false in E. rewrite E, Hn. simpl in Hf.
      change (if a + 24 + hb_size b =? heap_end then 0 else a + 24 + hb_size b) with (next_of (a + 24 + hb_size b)).
      rewrite IH by (done || lia). by destruct (list_find _ l) as [[? []]|].
Qed.

Lemma heap_end_bound : 0 < heap /\ heap_end = heap + 16777216 /\ heap_end < 2 ^ 64.
Proof. unfold heap_end, HEAP_SIZE in *. lia. Qed.

(** Taking a block that fits keeps the tiling: the block itself, or its two halves. *)
Lemma heap_take_spec st l1 x b l2 size :
  blocks st (l1 ++ (x, b) :: l2) -> 0 <= size -> fits size b = true ->
  exists b' rest,
    blocks (heap_take x b size st) (l1 ++ (x, b') :: rest ++ l2) /\
    hb_used b' = 1 /\ size <= hb_size b' <= hb_size b.
Proof.
  intros Hb Hsz Hfit. unfold fits in Hfit. apply andb_true_iff in Hfit as [_ Hle%Z.leb_le].
  unfold blocks in *. apply seg_app in Hb as (m & H1 & H2). simpl in H2. destruct H2 as (<- & Hl & Hs & Hn & H2).
  pose proof (seg_le _ _ _ _ H1). pose proof (seg_le _ _ _ _ H2). pose proof heap_end_bound.
  unfold heap_take. unfold HB_HDR in *. rewrite (u64_small (size + 24 + 16)) by lia.
  destruct (Z.ltb_spec (size + 24 + 16) (hb_size b)).
  - rewrite (u64_small (x + 24 + size)), (u64_small (hb_size b - size - 24)) by lia.
    exists (HeapBlock size 1 (x + 24 + size)), [(x + 24 + size, HeapBlock (hb_size b - size - 24) 0 (hb_next b))].
    split; [|split; [done|simpl; lia]]. apply seg_app. exists x. split.
    { eapply seg_frame; [exact H1|]. intros y Hy. rewrite !lookup_insert_ne by lia. done. }
    simpl. unfold HB_HDR. replace (x + 24 + size + 24 + (hb_size b - size - 24)) with (x + 24 + hb_size b) by lia.
    repeat split; try lia; try (by rewrite ?lookup_insert_ne, ?lookup_insert_eq by lia).
    + destruct (Z.eqb_spec (x + 24 + size) heap_end); lia.
    + eapply seg_frame; [exact H2|]. intros y Hy. rewrite !lookup_insert_ne by lia. done.
  - exists (HeapBlock (hb_size b) 1 (hb_next b)), []. split; [|split; [done|simpl; lia]].
    apply seg_app. exists x. split.
    { eapply seg_frame; [exact H1|]. intros y Hy. rewrite !lookup_insert_ne by lia. done. }
    simpl. unfold HB_HDR. rewrite lookup_insert_eq. repeat split; try done; try lia.
    eapply seg_frame; [exact H2|]. intros y Hy. rewrite !lookup_insert_ne by lia. done.
Qed.

(** Releasing a block merges it with the block behind it when that one is unused. *)
Lemma heap_free_spec st l1 x b l2 :
  blocks st (l1 ++ (x, b) :: l2) ->
  exists st' b' l2',
    heap_free (x + HB_HDR) st = Some st' /\ blocks st' (l1 ++ (x, b') :: l2') /\
    hb_used b' = 0 /\ hb_size b <= hb_size b' /\
    (forall kv, kv ∈ l2 -> hb_used kv.2 <> 0 -> kv ∈ l2').
Proof.
  intros Hb. unfold blocks in *. apply seg_app in Hb as (m & H1 & H2). simpl in H2. destruct H2 as (<- & Hl & Hs & Hn & H2).
  pose proof (seg_le _ _ _ _ H1). pose proof (seg_le _ _ _ _ H2). pose proof heap_end_bound.
  unfold heap_free. unfold HB_HDR in *. destruct (Z.eqb_spec (x + 24) 0); [lia|].
  replace (x + 24 - 24) with x by lia. rewrite (u64_small x) by lia. rewrite Hl. simpl.
  destruct l2 as [|[y c] l3]; simpl in H2.
  - rewrite H2 in Hn. rewrite Z.eqb_refl in Hn. rewrite Hn. simpl.
    exists (<[x := HeapBlock (hb_size b) 0 0]> st), (HeapBlock (hb_size b) 0 0), [].
    split; [done|]. split; [|split; [done|split; [done|]]]; [|set_solver].
    apply seg_app. exists x. split.
    { eapply seg_frame; [exact H1|]. intros y Hy. rewrite lookup_insert_ne by lia. done. }
    simpl. unfold HB_HDR. rewrite lookup_insert_eq, H2, Z.eqb_refl. done.
  - destruct H2 as (-> & Hlc & Hsc & Hnc & H2). pose proof (seg_le _ _ _ _ H2). unfold HB_HDR in *.
    destruct (Z.eqb_spec (x + 24 + hb_size b) heap_end); [lia|]. rewrite Hn.
    destruct (Z.eqb_spec (x + 24 + hb_size b) 0); [lia|]. rewrite lookup_insert_ne by lia. rewrite Hlc. simpl.
    destruct (truthy (hb_used c)) eqn:Eu; simpl.
    + eexists _, (HeapBlock (hb_size b) 0 (x + 24 + hb_size b)), ((x + 24 + hb_size b, c) :: l3).
      split; [done|]. split; [|split; [done|split; [done|]]]; [|set_solver].
      apply seg_app. exists x. split.
      { eapply seg_frame; [exact H1|]. intros y Hy. rewrite lookup_insert_ne by lia. done. }
      simpl. unfold HB_HDR. rewrite lookup_insert_eq. rewrite lookup_insert_ne by lia.
      destruct (Z.eqb_spec (x + 24 + hb_size b) heap_end); [lia|]. repeat split; try done.
      eapply seg_frame; [exact H2|]. intros y Hy. rewrite lookup_insert_ne by lia. done.
    + rewrite u64_small by lia. eexists _, (HeapBlock (hb_size b + 24 + hb_size c) 0 (hb_next c)), l3.
      split; [done|]. split; [|split; [done|split; [simpl; lia|]]].
      * apply seg_app. exists x. split.
        { eapply seg_frame; [exact H1|]. intros y Hy. rewrite !lookup_insert_ne by lia. done. }
        simpl. unfold HB_HDR. rewrite lookup_insert_eq.
        replace (x + 24 + (hb_size b + 24 + hb_size c)) with (x + 24 + hb_size b + 24 + hb_size c) by lia.
        repeat split; try done; try lia.
        eapply seg_frame; [exact H2|]. intros y Hy. rewrite !lookup_insert_ne by lia. done.
      * intros [k v] [[= -> ->]|Hin]%elem_of_cons Hu; [|done]. simpl in Hu.
        unfold truthy in Eu. destruct (Z.eqb_spec (hb_used c) 0); done.
Qed.

(** * What a caller sees *)

(** [b] is the block whose header is at [x]. *)
Definition block_at (st : hmem) (x : Z) (b : heap_block) : Prop := exists l, blocks st l /\ (x, b) ∈ l.

Lemma seg_unique st a l l' : seg st a l heap_end -> seg st a l' heap_end -> l = l'.
Proof.
  revert a l'. induction l as [|[x b] l IH]; intros a [|[x' b'] l']; simpl; try done.
  - intros -> (-> & _ & ? & _ & H). apply seg_le in H. unfold HB_HDR in *. lia.
  - intros (-> & _ & ? & _ & H) ->. apply seg_le in H. unfold HB_HDR in *. lia.
  - intros (-> & E & _ & _ & H) (-> & E' & _ & _ & H'). rewrite E in E'. injection E' as <-. f_equal. by eapply IH.
Qed.

Lemma block_at_split st x b : block_at st x b -> exists l1 l2, blocks st (l1 ++ (x, b) :: l2).
Proof. intros (l & Hl & (l1 & l2 & ->)%list_elem_of_split). by exists l1, l2. Qed.

Lemma blocks_disjoint st l1 x b l2 y c :
  blocks st (l1 ++ (x, b) :: l2) -> (y, c) ∈ l1 ++ (x, b) :: l2 -> y <> x ->
  y + HB_HDR + hb_size c <= x \/ x + HB_HDR + hb_size b <= y.
Proof.
  intros Hb Hin Hne. apply seg_app in Hb as (m & H1 & H2). simpl in H2. destruct H2 as (<- & _ & _ & _ & H2).
  apply elem_of_app in Hin as [Hin|[[= -> ->]|Hin]%elem_of_cons]; [|done|].
  - destruct (seg_inside _ _ _ _ _ _ H1 Hin). lia.
  - destruct (seg_inside _ _ _ _ _ _ H2 Hin). lia.
Qed.

Lemma heap_alloc_first st l size :
  blocks st l ->
  heap_alloc size st =
  match list_find (fun kv => fits size kv.2 = true) l with
  | Some (_, (x, b)) => Some (u64 (x + HB_HDR), heap_take x b size st)
  | None => Some (0, st)
  end.
Proof.
  intros Hb. unfold heap_alloc. pose proof heap_end_bound. pose proof (seg_length _ _ _ _ Hb).
  replace heap with (next_of heap) at 1 by (unfold next_of; destruct (Z.eqb_spec heap heap_end); lia).
  apply heap_alloc_from_spec; (done || lia).
Qed.

Lemma heap_alloc_ok st size :
  heap_wf st -> 0 <= size ->
  exists r st', heap_alloc size st = Some (r, st') /\ heap_wf st' /\
  ((r = 0 /\ st' = st /\ forall x b, block_at st x b -> fits size b = false) \/
   (exists x b b', r = x + HB_HDR /\ block_at st x b /\ hb_used b = 0 /\
      block_at st' x b' /\ hb_used b' = 1 /\ size <= hb_size b' /\
      heap <= x /\ r + hb_size b' <= heap_end /\
      (forall y c, block_at st y c -> hb_used c <> 0 -> block_at st' y c))).
Proof.
  intros [l Hb] Hsz. rewrite (heap_alloc_first st l size Hb).
  destruct (list_find _ l) as [[i [x b]]|] eqn:E.
  - apply list_find_Some in E as (Hi & Hfit & _). simpl in Hfit.
    apply list_elem_of_lookup_2 in Hi as Hin. apply list_elem_of_split in Hin as (l1 & l2 & ->).
    destruct (heap_take_spec st l1 x b l2 size Hb Hsz Hfit) as (b' & rest & Hb' & Hu' & Hsz').
    pose proof heap_end_bound. assert (Hin' : (x, b') ∈ l1 ++ (x, b') :: rest ++ l2) by set_solver.
    destruct (seg_inside _ _ _ _ _ _ Hb' Hin') as (Hx1 & Hx2 & Hx3). unfold HB_HDR in *.
    rewrite u64_small by lia.
    eexists _, _. split; [done|]. split; [by eexists|]. right. exists x, b, b'.
    split; [done|]. split; [eexists; split; [exact Hb|set_solver]|].
    split. { unfold fits, truthy in Hfit. destruct (Z.eqb_spec (hb_used b) 0); done. }
    split; [by eexists|]. split; [done|]. split; [lia|]. split; [lia|]. split; [lia|].
    intros y c (l' & Hl' & Hin'') Hu. rewrite (seg_unique _ _ _ _ Hl' Hb) in Hin''.
    eexists. split; [exact Hb'|]. apply elem_of_app in Hin'' as [?|[[= -> ->]|?]%elem_of_cons]; [set_solver| |set_solver].
    unfold fits, truthy in Hfit. destruct (Z.eqb_spec (hb_used b) 0); done.
  - exists 0, st. split; [done|]. split; [by exists l|]. left. split; [done|]. split; [done|].
    intros x b (l' & Hl' & Hin). rewrite (seg_unique _ _ _ _ Hl' Hb) in Hin.
    apply list_find_None in E. rewrite Forall_forall in E. apply not_true_is_false, (E (x, b)). by apply list_elem_of_In.
Qed.

(** On a well-formed heap [heap_alloc] always terminates; it fails exactly when
    no unused block is large enough, and otherwise returns the payload of a block
    that was unused, that is large enough and inside the array, with every block
    in use untouched and the blocks still tiling the array. *)
Theorem heap_alloc_correct st size :
  heap_wf st -> 0 <= size ->
  exists r st', heap_alloc size st = Some (r, st') /\ heap_wf st' /\
  ((r = 0 /\ st' = st /\ forall x b, block_at st x b -> fits size b = false) \/
   (exists x b b', r = x + HB_HDR /\ block_at st x b /\ hb_used b = 0 /\
      block_at st' x b' /\ hb_used b' = 1 /\ size <= hb_size b' /\
      heap <= x /\ r + hb_size b' <= heap_end /\
      (forall y c, block_at st y c -> hb_used c <> 0 -> block_at st' y c))).
Proof. apply heap_alloc_ok. Qed.

(** Two blocks of a well-formed heap never share a byte, header included. *)
Theorem heap_blocks_disjoint st x b y c :
  block_at st x b -> block_at st y c -> x <> y ->
  x + HB_HDR + hb_size b <= y \/ y + HB_HDR + hb_size c <= x.
Proof.
  intros (l1 & l2 & Hb)%block_at_split (l & Hl & Hin) Hne. rewrite (seg_unique _ _ _ _ Hl Hb) in Hin.
  destruct (blocks_disjoint st l1 x b l2 y c); (done || auto).
Qed.

Lemma heap_free_ok st x b :
  block_at st x b ->
  exists st', heap_free (x + HB_HDR) st = Some st' /\ heap_wf st' /\
  (forall y c, block_at st y c -> y <> x -> hb_used c <> 0 -> block_at st' y c) /\
  (exists r st'', heap_alloc (hb_size b) st' = Some (r, st'') /\ r <> 0).
Proof.
  intros (l1 & l2 & Hb)%block_at_split. destruct (heap_free_spec st l1 x b l2 Hb) as (st' & b' & l2' & E & Hb' & Hu & Hs & Hk).
  exists st'. split; [done|]. split; [by eexists|]. split.
  - intros y c (l & Hl & Hin) Hne Hc. rewrite (seg_unique _ _ _ _ Hl Hb) in Hin. eexists. split; [exact Hb'|].
    apply elem_of_app in Hin as [?|[[= -> ->]|?]%elem_of_cons]; [set_solver|done|].
    apply elem_of_app. right. apply elem_of_cons. right. by apply Hk.
  - rewrite (heap_alloc_first st' _ (hb_size b) Hb'). destruct (list_find _ _) as [[i [y c]]|] eqn:Ef.
    + eexists _, _. split; [done|]. apply list_find_Some in Ef as (Hi & _ & _).
      apply list_elem_of_lookup_2 in Hi. destruct (seg_inside _ _ _ _ _ _ Hb' Hi). pose proof heap_end_bound.
      unfold HB_HDR in *. rewrite u64_small by lia. lia.
    + apply list_find_None in Ef. rewrite Forall_forall in Ef. exfalso. apply (Ef (x, b')); [apply list_elem_of_In; set_solver|].
      unfold fits, truthy. simpl. rewrite Hu. simpl. apply Z.leb_le. done.
Qed.

(** releasing a block keeps the heap well formed and every other block in use
    as it was, and an allocation of the same size then succeeds. *)
Theorem heap_free_correct st x b :
  block_at st x b ->
  exists st', heap_free (x + HB_HDR) st = Some st' /\ heap_wf st' /\
  (forall y c, block_at st y c -> y <> x -> hb_used c <> 0 -> block_at st' y c) /\
  (exists r st'', heap_alloc (hb_size b) st' = Some (r, st'') /\ r <> 0).
Proof. apply heap_free_ok. Qed.

(** [init_heap] establishes the invariant whatever memory held. *)
Lemma init_heap_wf st : blocks (init_heap st) [(heap, HeapBlock (HEAP_SIZE - HB_HDR) 0 0)].
Proof.
  unfold blocks, init_heap. simpl. rewrite lookup_insert_eq. unfold heap_end, HB_HDR, HEAP_SIZE.
  replace (heap + 24 + (16 * 1024 * 1024 - 24)) with (heap + 16 * 1024 * 1024) by lia.
  rewrite Z.eqb_refl. repeat split; lia || done.
Qed.
End Heap.

(** * A concrete heap at 1 MiB, and after two allocations. *)
Definition demo_heap_base : Z := 0x100000.
Definition demo_heap : gmap Z heap_block := init_heap demo_heap_base ∅.

Lemma demo_heap_base_ok : 0 < demo_heap_base /\ demo_heap_base + HEAP_SIZE < 2 ^ 64.
Proof. by vm_compute. Qed.

Lemma demo_heap_wf : heap_wf demo_heap_base demo_heap.
Proof. eexists. apply init_heap_wf. Qed.

Lemma heap_alloc_correct_witness :
  exists r st', heap_alloc demo_heap_base 100 demo_heap = Some (r, st') /\ heap_wf demo_heap_base st'.
Proof.
  destruct (heap_alloc_correct demo_heap_base demo_heap_base_ok demo_heap 100 demo_heap_wf ltac:(lia))
    as (r & st' & E & Hwf & _).
  exists r, st'. split; assumption.
Defined.

(** The heap after [heap_alloc(100)]: a used block and the rest. *)
Definition demo_heap2 : gmap Z heap_block :=
  heap_take demo_heap_base (HeapBlock (HEAP_SIZE - HB_HDR) 0 0) 100 demo_heap.

Lemma demo_heap2_blocks :
  blocks demo_heap_base demo_heap2
    [(demo_heap_base, HeapBlock 100 1 (demo_heap_base + 124));
     (demo_heap_base + 124, HeapBlock (HEAP_SIZE - HB_HDR - 124) 0 0)].
Proof. vm_compute. repeat split; done. Qed.

Lemma heap_blocks_disjoint_witness :
  demo_heap_base + HB_HDR + 100 <= demo_heap_base + 124 \/
  demo_heap_base + 124 + HB_HDR + (HEAP_SIZE - HB_HDR - 124) <= demo_heap_base.
Proof.
  apply (heap_blocks_disjoint demo_heap_base demo_heap_base_ok demo_heap2 demo_heap_base
           (HeapBlock 100 1 (demo_heap_base + 124)) (demo_heap_base + 124)
           (HeapBlock (HEAP_SIZE - HB_HDR - 124) 0 0)).
  - eexists. split; [apply demo_heap2_blocks|]. left.
  - eexists. split; [apply demo_heap2_blocks|]. right. left.
  - discriminate.
Defined.

Lemma heap_free_correct_witness :
  exists st', heap_free (demo_heap_base + HB_HDR) demo_heap2 = Some st' /\ heap_wf demo_heap_base st'.
Proof.
  destruct (heap_free_correct demo_heap_base demo_heap_base_ok demo_heap2 demo_heap_base
              (HeapBlock 100 1 (demo_heap_base + 124))) as (st' & E & Hwf & _).
  - eexists. split; [apply demo_heap2_blocks|]. left.
  - exists st'. split; assumption.
Defined.
