(* ===== verification/Pipe.v ===== *)
(** Anonymous pipes (src/kernel/pipe.c): sixteen fixed ring buffers, each with
    reference-counted read and write ends and at most one parked reader.

    Process pointers are the process's identifier, [0] is NULL; of a process only
    the two fields this file writes are kept.  A blocked reader leaves the code
    at [sti; hlt] and re-enters the loop when it is scheduled again, so
    [pipe_read] is the loop body [pipe_read_iter] together with the step relation
    [read_run], in which other processes act between two iterations. *)
From S2P Require Import Prelude.

Definition PIPE_BUF_SIZE : Z := 4096.
Definition MAX_PIPES : Z := 16.

Definition PROC_RUN : Z := 1.
Definition PROC_BLOCKED : Z := 3.

Record pipe := Pipe {
  used : Z;
  buf : Z -> Z;
  head : Z;              (* read cursor *)
  count : Z;             (* bytes currently buffered *)
  read_refs : Z;
  write_refs : Z;
  reader_waiter : Z      (* process parked in pipe_read, 0 = NULL *)
}.

Record proc_park := ProcPark { state : Z; blocked_in_kernel : Z }.

Record pipes_st := PipesSt {
  pipes : Z -> pipe;
  procs : Z -> proc_park;
  user_cr3 : Z;
  user_rsp : Z
}.

Definition set_pipe (id : Z) (p : pipe) (s : pipes_st) : pipes_st :=
  PipesSt (<[id := p]> (pipes s)) (procs s) (user_cr3 s) (user_rsp s).
Definition set_proc (pid : Z) (q : proc_park) (s : pipes_st) : pipes_st :=
  PipesSt (pipes s) (<[pid := q]> (procs s)) (user_cr3 s) (user_rsp s).

(** [memset_asm(&pipes[i], 0, sizeof(pipe_t))], then the three assignments. *)
Definition fresh_pipe : pipe := Pipe 1 (fun _ => 0) 0 0 1 1 0.

Definition pipe_new (s : pipes_st) : Z * pipes_st :=
  match find_idx 16 0 (fun i => negb (truthy (used (pipes s i)))) with
  | Some i => (i, set_pipe i fresh_pipe s)
  | None => (-1, s)
  end.

(** [id < 0 || id >= MAX_PIPES || !pipes[id].used] *)
Definition bad_pipe (id : Z) (s : pipes_st) : bool :=
  (id <? 0) || (MAX_PIPES <=? id) || negb (truthy (used (pipes s id))).

Definition set_refs (r w : Z) (p : pipe) : pipe :=
  Pipe (used p) (buf p) (head p) (count p) r w (reader_waiter p).
Definition set_waiter (w : Z) (p : pipe) : pipe :=
  Pipe (used p) (buf p) (head p) (count p) (read_refs p) (write_refs p) w.
Definition set_used (u : Z) (p : pipe) : pipe :=
  Pipe u (buf p) (head p) (count p) (read_refs p) (write_refs p) (reader_waiter p).

Definition pipe_incref (id : Z) (is_write : bool) (s : pipes_st) : pipes_st :=
  if bad_pipe id s then s
  else let p := pipes s id in
       set_pipe id (if is_write then set_refs (read_refs p) (write_refs p + 1) p
                    else set_refs (read_refs p + 1) (write_refs p) p) s.

Definition pipe_wake_reader (id : Z) (s : pipes_st) : pipes_st :=
  let p := pipes s id in
  if truthy (reader_waiter p) then
    let w := reader_waiter p in
    set_pipe id (set_waiter 0 p)
      (set_proc w (ProcPark PROC_RUN (blocked_in_kernel (procs s w))) s)
  else s.

Definition pipe_close_end (id : Z) (is_write : bool) (s : pipes_st) : pipes_st :=
  if bad_pipe id s then s
  else
    let p := pipes s id in
    let s1 :=
      if is_write then
        let p1 := if 0 <? write_refs p then set_refs (read_refs p) (write_refs p - 1) p else p in
        let s0 := set_pipe id p1 s in
        if write_refs p1 =? 0 then pipe_wake_reader id s0 else s0
      else set_pipe id (if 0 <? read_refs p then set_refs (read_refs p - 1) (write_refs p) p else p) s in
    let p2 := pipes s1 id in
    if (read_refs p2 =? 0) && (write_refs p2 =? 0) then set_pipe id (set_used 0 p2) s1 else s1.

(** One byte into the ring. *)
Definition push (p : pipe) (c : Z) : pipe :=
  let tail := (head p + count p) mod PIPE_BUF_SIZE in
  Pipe (used p) (<[tail := u8 c]> (buf p)) (head p) (count p + 1)
       (read_refs p) (write_refs p) (reader_waiter p).

(** [while (written < n && p->count < PIPE_BUF_SIZE)], [src] being the [n] bytes left. *)
Fixpoint write_loop (src : list Z) (p : pipe) (written : Z) : Z * pipe :=
  match src with
  | [] => (written, p)
  | c :: src' => if count p <? PIPE_BUF_SIZE then write_loop src' (push p c) (written + 1)
                 else (written, p)
  end.

Definition pipe_write (id : Z) (src : list Z) (n : Z) (s : pipes_st) : Z * pipes_st :=
  if bad_pipe id s || (n <? 0) then (-1, s)
  else if read_refs (pipes s id) =? 0 then (-1, s)
  else
    let '(written, p) := write_loop (take (Z.to_nat n) src) (pipes s id) 0 in
    let s1 := set_pipe id p s in
    (written, if 0 <? written then pipe_wake_reader id s1 else s1).

Definition pipe_readable (id : Z) (s : pipes_st) : Z :=
  if bad_pipe id s then 1
  else b2z ((0 <? count (pipes s id)) || (write_refs (pipes s id) =? 0)).

(** One byte out of the ring. *)
Definition pop (p : pipe) : Z * pipe :=
  (buf p (head p),
   Pipe (used p) (buf p) ((head p + 1) mod PIPE_BUF_SIZE) (count p - 1)
        (read_refs p) (write_refs p) (reader_waiter p)).

(** [while (got < n && p->count > 0)]: at most [n] bytes, in order. *)
Fixpoint drain (n : nat) (p : pipe) : list Z * pipe :=
  match n with
  | O => ([], p)
  | S n' => if 0 <? count p
            then let '(c, p1) := pop p in
                 let '(l, p2) := drain n' p1 in (c :: l, p2)
            else ([], p)
  end.

Inductive read_res :=
| ReadDone (got : Z) (bytes : list Z) (s : pipes_st)
| ReadPark (s : pipes_st).

(** One pass of the [for (;;)] body: it either leaves the loop or parks [self]. *)
Definition pipe_read_iter (id n self : Z) (s : pipes_st) : read_res :=
  let s0 := if truthy self then set_proc self (ProcPark (state (procs s self)) 0) s else s in
  let p := pipes s0 id in
  if 0 <? count p then
    let '(l, p') := drain (Z.to_nat n) p in
    ReadDone (Z.of_nat (length l)) l (set_pipe id p' s0)
  else if write_refs p =? 0 then ReadDone 0 [] s0
  else if negb (truthy self) then ReadDone 0 [] s0
  else ReadPark (set_pipe id (set_waiter self p) (set_proc self (ProcPark PROC_BLOCKED 1) s0)).

(** The whole call: the guard, then iterations separated by arbitrary steps [env]
    of the rest of the system, and the two saved globals restored at the end. *)
Inductive read_run (env : pipes_st -> pipes_st -> Prop) (id n self : Z) :
    pipes_st -> Z -> list Z -> pipes_st -> Prop :=
| read_done s got bytes s' :
    pipe_read_iter id n self s = ReadDone got bytes s' ->
    read_run env id n self s got bytes s'
| read_again s s1 s2 got bytes s' :
    pipe_read_iter id n self s = ReadPark s1 -> env s1 s2 ->
    read_run env id n self s2 got bytes s' ->
    read_run env id n self s got bytes s'.

Definition restore_user (cr3 rsp : Z) (s : pipes_st) : pipes_st :=
  PipesSt (pipes s) (procs s) cr3 rsp.

Inductive pipe_read (env : pipes_st -> pipes_st -> Prop) (id n self : Z) (s : pipes_st) :
    Z -> list Z -> pipes_st -> Prop :=
| pipe_read_bad : bad_pipe id s = true \/ n <= 0 -> pipe_read env id n self s (-1) [] s
| pipe_read_ok got bytes s' :
    bad_pipe id s = false -> 0 < n -> read_run env id n self s got bytes s' ->
    pipe_read env id n self s got bytes (restore_user (user_cr3 s) (user_rsp s) s').

(** * The byte queue a pipe implements *)

(** The buffered bytes, oldest first. *)
Definition contents (p : pipe) : list Z :=
  (fun i => buf p ((head p + i) mod PIPE_BUF_SIZE)) <$> seqZ 0 (count p).

Record pipe_wf (p : pipe) : Prop := {
  pw_head : 0 <= head p < PIPE_BUF_SIZE;
  pw_count : 0 <= count p <= PIPE_BUF_SIZE
}.

Lemma length_contents p : pipe_wf p -> Z.of_nat (length (contents p)) = count p.
Proof. intros [_ H]. unfold contents. rewrite length_fmap, length_seqZ. lia. Qed.

Lemma ring_ne h i j :
  0 <= i < PIPE_BUF_SIZE -> 0 <= j < PIPE_BUF_SIZE -> i <> j ->
  (h + i) mod PIPE_BUF_SIZE <> (h + j) mod PIPE_BUF_SIZE.
Proof. unfold PIPE_BUF_SIZE. intros. Z.div_mod_to_equations. lia. Qed.

Lemma push_spec p c :
  pipe_wf p -> count p < PIPE_BUF_SIZE ->
  pipe_wf (push p c) /\ contents (push p c) = contents p ++ [u8 c].
Proof.
  intros [Hh Hc] Hlt. split; [constructor; simpl; lia|]. unfold contents. simpl.
  rewrite seqZ_S || rewrite (seqZ_app 0 (count p) 1) by lia. rewrite fmap_app. f_equal.
  - apply list_fmap_ext. intros i x Hx. apply lookup_seqZ in Hx as [-> Hi].
    rewrite fn_lookup_insert_ne; [done|]. apply ring_ne; lia.
  - simpl. by rewrite fn_lookup_insert.
Qed.

Lemma pop_spec p :
  pipe_wf p -> 0 < count p ->
  pipe_wf (pop p).2 /\ contents p = (pop p).1 :: contents (pop p).2.
Proof.
  intros [Hh Hc] Hlt. split.
  { constructor; simpl; [apply Z.mod_pos_bound; done|lia]. }
  unfold contents, pop. simpl. rewrite seqZ_cons by lia. rewrite fmap_cons. f_equal.
  - rewrite Z.add_0_r, Z.mod_small by lia. done.
  - replace (Z.succ 0) with (1 + 0) by lia. replace (Z.pred (count p)) with (count p - 1) by lia.
    rewrite <- (fmap_add_seqZ 1 0), <- list_fmap_compose. apply list_fmap_ext. intros i x _. simpl.
    f_equal. rewrite Zplus_mod_idemp_l. f_equal. lia.
Qed.

(** Everything but the ring. *)
Definition same_ends (p p' : pipe) : Prop :=
  used p' = used p /\ read_refs p' = read_refs p /\ write_refs p' = write_refs p /\
  reader_waiter p' = reader_waiter p.

Lemma write_loop_spec src p k :
  pipe_wf p ->
  let '(w, p') := write_loop src p k in
  let m := Z.min (Z.of_nat (length src)) (PIPE_BUF_SIZE - count p) in
  w = k + m /\ pipe_wf p' /\ same_ends p p' /\
  contents p' = contents p ++ (u8 <$> take (Z.to_nat m) src).
Proof.
  revert p k. induction src as [|c src IH]; intros p k Hwf; simpl.
  - pose proof Hwf as [? ?]. rewrite take_nil, fmap_nil, app_nil_r. repeat split; lia || done.
  - destruct (Z.ltb_spec (count p) PIPE_BUF_SIZE) as [Hlt|Hge].
    + destruct (push_spec p c Hwf Hlt) as [Hwf' Hc]. specialize (IH (push p c) (k + 1) Hwf').
      destruct (write_loop src (push p c) (k + 1)) as [w p']. destruct IH as (-> & Hw & (E1 & E2 & E3 & E4) & Hcont).
      simpl count in *. set (m := Z.min (Z.of_nat (length src)) (PIPE_BUF_SIZE - (count p + 1))) in *.
      destruct Hwf. replace (Z.min (Z.of_nat (S (length src))) (PIPE_BUF_SIZE - count p)) with (m + 1) by lia.
      split; [lia|]. split; [done|]. split; [done|]. rewrite Hcont, Hc, <- app_assoc.
      replace (Z.to_nat (m + 1)) with (S (Z.to_nat m)) by lia. done.
    + pose proof Hwf as [? ?]. replace (Z.min (Z.of_nat (S (length src))) (PIPE_BUF_SIZE - count p)) with 0 by lia.
      change (Z.to_nat 0) with O. rewrite take_0, fmap_nil, app_nil_r. repeat split; lia || done.
Qed.

Lemma drain_spec n p :
  pipe_wf p ->
  let '(l, p') := drain n p in
  pipe_wf p' /\ same_ends p p' /\ contents p = l ++ contents p' /\
  Z.of_nat (length l) = Z.min (Z.of_nat n) (count p).
Proof.
  revert p. induction n as [|n IH]; intros p Hwf; simpl.
  - destruct Hwf. repeat split; simpl; lia || done.
  - destruct (Z.ltb_spec 0 (count p)) as [Hlt|Hge].
    + destruct (pop_spec p Hwf Hlt) as [Hwf' Hc]. unfold pop in *. simpl in *. specialize (IH _ Hwf').
      destruct (drain n _) as [l p']. destruct IH as (Hw & (E1 & E2 & E3 & E4) & Hcont & Hlen). simpl in *.
      split; [done|]. split; [done|]. split; [by rewrite Hc, Hcont|]. simpl length. lia.
    + destruct Hwf. repeat split; simpl; lia || done.
Qed.

Lemma wake_pipe id s i :
  let s' := pipe_wake_reader id s in
  contents (pipes s' i) = contents (pipes s i) /\ (pipe_wf (pipes s i) -> pipe_wf (pipes s' i)) /\
  count (pipes s' i) = count (pipes s i) /\ write_refs (pipes s' i) = write_refs (pipes s i) /\
  read_refs (pipes s' i) = read_refs (pipes s i) /\ used (pipes s' i) = used (pipes s i).
Proof.
  unfold pipe_wake_reader. destruct (truthy _); [|done]. simpl. destruct (decide (id = i)) as [<-|].
  - rewrite fn_lookup_insert. split; [done|]. split; [|done]. by intros [].
  - rewrite fn_lookup_insert_ne by done. done.
Qed.

Lemma wake_spec id s :
  let s' := pipe_wake_reader id s in let w := reader_waiter (pipes s id) in
  reader_waiter (pipes s' id) = 0 /\ (w <> 0 -> state (procs s' w) = PROC_RUN) /\
  (forall q, q <> w -> procs s' q = procs s q).
Proof.
  unfold pipe_wake_reader, truthy. destruct (Z.eqb_spec (reader_waiter (pipes s id)) 0) as [E|E]; simpl.
  - done.
  - rewrite !fn_lookup_insert. split; [done|]. split; [done|]. intros q Hq. by rewrite fn_lookup_insert_ne.
Qed.

Lemma bad_pipe_false id s : bad_pipe id s = false -> 0 <= id < MAX_PIPES /\ used (pipes s id) <> 0.
Proof. unfold bad_pipe, truthy. intros. bool_prop. split; [lia|done]. Qed.

Lemma pipe_write_open id src n s :
  bad_pipe id s = false -> 0 <= n <= Z.of_nat (length src) -> read_refs (pipes s id) <> 0 ->
  pipe_wf (pipes s id) ->
  let '(w, s') := pipe_write id src n s in
  w = Z.min n (PIPE_BUF_SIZE - count (pipes s id)) /\
  pipe_wf (pipes s' id) /\
  contents (pipes s' id) = contents (pipes s id) ++ (u8 <$> take (Z.to_nat w) src) /\
  (0 < w -> reader_waiter (pipes s id) <> 0 ->
     state (procs s' (reader_waiter (pipes s id))) = PROC_RUN) /\
  (forall i, i <> id -> pipes s' i = pipes s i) /\
  (forall q, q <> reader_waiter (pipes s id) -> procs s' q = procs s q).
Proof.
  intros Hbad Hn Hr Hwf. unfold pipe_write. rewrite Hbad. destruct (Z.ltb_spec n 0); [lia|]. simpl.
  destruct (Z.eqb_spec (read_refs (pipes s id)) 0); [done|].
  pose proof (write_loop_spec (take (Z.to_nat n) src) (pipes s id) 0 Hwf) as H1.
  destruct (write_loop _ _ _) as [w p']. rewrite length_take in H1.
  replace (Z.of_nat (Z.to_nat n `min` length src)) with n in H1 by lia. destruct H1 as (-> & Hw & Hse & Hc).
  set (m := Z.min n (PIPE_BUF_SIZE - count (pipes s id))) in *. rewrite take_take in Hc.
  replace (Z.to_nat m `min` Z.to_nat n)%nat with (Z.to_nat m) in Hc by lia. rewrite !Z.add_0_l.
  set (s1 := set_pipe id p' s). assert (E1 : pipes s1 id = p') by (simpl; by rewrite fn_lookup_insert).
  assert (E2 : forall i, i <> id -> pipes s1 i = pipes s i) by (intros; simpl; by rewrite fn_lookup_insert_ne).
  assert (E3 : reader_waiter (pipes s1 id) = reader_waiter (pipes s id)) by (rewrite E1; apply Hse).
  split; [done|]. destruct (Z.ltb_spec 0 m).
  - destruct (wake_pipe id s1 id) as (W1 & W2 & _). destruct (wake_spec id s1) as (V1 & V2 & V3). rewrite E3 in V2, V3.
    split; [apply W2; by rewrite E1|]. split; [by rewrite W1, E1|]. split; [by intros _; apply V2|]. split.
    + intros i Hi. rewrite <- E2 by done. unfold pipe_wake_reader. destruct (truthy _); [|done]. simpl.
      by rewrite !fn_lookup_insert_ne by done.
    + intros q Hq. rewrite V3 by done. done.
  - rewrite E1. split; [done|]. split; [done|]. split; [lia|]. done.
Qed.

(** [pipe_write] on every branch: an invalid or closed pipe, a negative length or
    a pipe nobody reads returns -1 and changes nothing; otherwise exactly the bytes
    that fit are appended in order behind what is buffered, and if there are any the
    parked reader becomes runnable; no other pipe and no other process is touched. *)
Theorem pipe_write_correct id src n s :
  n <= Z.of_nat (length src) -> pipe_wf (pipes s id) ->
  let '(w, s') := pipe_write id src n s in
  (w = -1 /\ s' = s /\ (bad_pipe id s = true \/ n < 0 \/ read_refs (pipes s id) = 0)) \/
  (w = Z.min n (PIPE_BUF_SIZE - count (pipes s id)) /\
   bad_pipe id s = false /\ 0 <= n /\ read_refs (pipes s id) <> 0 /\
   pipe_wf (pipes s' id) /\
   contents (pipes s' id) = contents (pipes s id) ++ (u8 <$> take (Z.to_nat w) src) /\
   (0 < w -> reader_waiter (pipes s id) <> 0 ->
      state (procs s' (reader_waiter (pipes s id))) = PROC_RUN) /\
   (forall i, i <> id -> pipes s' i = pipes s i) /\
   (forall q, q <> reader_waiter (pipes s id) -> procs s' q = procs s q)).
Proof.
  intros Hn Hwf. destruct (bad_pipe id s) eqn:Hbad; [|destruct (Z.ltb_spec n 0) as [Hneg|];
    [|destruct (decide (read_refs (pipes s id) = 0)) as [Hr|Hr]]].
  - unfold pipe_write. rewrite Hbad. simpl. left. auto.
  - unfold pipe_write. rewrite Hbad. destruct (Z.ltb_spec n 0); [|lia]. simpl. left. auto.
  - unfold pipe_write. rewrite Hbad, Hr. destruct (n <? 0); simpl; left; auto.
  - pose proof (pipe_write_open id src n s Hbad ltac:(lia) Hr Hwf) as H1.
    destruct (pipe_write id src n s) as [w s']. right. destruct H1 as (? & ? & ? & ? & ? & ?). auto 10.
Qed.

(** * The byte stream *)

(** The operations processes can perform on pipe [id]; [acc] are the bytes the step
    accepted from a writer, [del] the bytes it delivered to a reader. *)
Inductive pipe_step (id : Z) : pipes_st -> list Z -> list Z -> pipes_st -> Prop :=
| ps_write src n s w s' :
    0 <= n <= Z.of_nat (length src) -> pipe_write id src n s = (w, s') ->
    pipe_step id s (u8 <$> take (Z.to_nat w) src) [] s'
| ps_read n self s got bytes s' :
    bad_pipe id s = false -> 0 < n -> pipe_read_iter id n self s = ReadDone got bytes s' ->
    pipe_step id s [] bytes s'
| ps_park n self s s' :
    bad_pipe id s = false -> 0 < n -> pipe_read_iter id n self s = ReadPark s' ->
    pipe_step id s [] [] s'
| ps_incref i w s : pipe_step id s [] [] (pipe_incref i w s)
| ps_close i w s : pipe_step id s [] [] (pipe_close_end i w s).

Inductive pipe_steps (id : Z) : pipes_st -> list Z -> list Z -> pipes_st -> Prop :=
| pss_nil s : pipe_steps id s [] [] s
| pss_cons s1 a1 d1 s2 a2 d2 s3 :
    pipe_step id s1 a1 d1 s2 -> pipe_steps id s2 a2 d2 s3 ->
    pipe_steps id s1 (a1 ++ a2) (d1 ++ d2) s3.

Lemma incref_contents i w s j :
  contents (pipes (pipe_incref i w s) j) = contents (pipes s j) /\
  (pipe_wf (pipes s j) -> pipe_wf (pipes (pipe_incref i w s) j)).
Proof.
  unfold pipe_incref. destruct (bad_pipe i s); [done|]. simpl. destruct (decide (i = j)) as [<-|].
  - rewrite fn_lookup_insert. destruct w; (split; [done|by intros []]).
  - by rewrite fn_lookup_insert_ne.
Qed.

Lemma close_contents i w s j :
  contents (pipes (pipe_close_end i w s) j) = contents (pipes s j) /\
  (pipe_wf (pipes s j) -> pipe_wf (pipes (pipe_close_end i w s) j)).
Proof.
  unfold pipe_close_end. destruct (bad_pipe i s); [done|].
  assert (Hset : forall p' s0, contents p' = contents (pipes s0 i) ->
     (pipe_wf (pipes s0 i) -> pipe_wf p') ->
     contents (pipes (set_pipe i p' s0) j) = contents (pipes s0 j) /\
     (pipe_wf (pipes s0 j) -> pipe_wf (pipes (set_pipe i p' s0) j))).
  { intros p' s0 Hc Hw. simpl. destruct (decide (i = j)) as [<-|];
      [by rewrite fn_lookup_insert | by rewrite fn_lookup_insert_ne]. }
  set (s1 := if w then _ else _).
  assert (H1 : contents (pipes s1 j) = contents (pipes s j) /\ (pipe_wf (pipes s j) -> pipe_wf (pipes s1 j))).
  { unfold s1. destruct w.
    - set (p1 := if 0 <? _ then _ else _).
      destruct (Hset p1 s) as [Ha Hb]; [by unfold p1; destruct (0 <? _)|unfold p1; destruct (0 <? _); [by intros []|done]|].
      destruct (write_refs p1 =? 0); [|done]. destruct (wake_pipe i (set_pipe i p1 s) j) as (Hc & Hd & _).
      split; [by rewrite Hc|auto].
    - apply Hset; destruct (0 <? _); done || by intros []. }
  destruct (_ && _); [|done]. destruct (Hset (set_used 0 (pipes s1 i)) s1) as [Ha Hb]; [done|by intros []|].
  destruct H1. split; [congruence|auto].
Qed.

Lemma read_iter_done id n self s got bytes s' :
  pipe_wf (pipes s id) -> pipe_read_iter id n self s = ReadDone got bytes s' ->
  pipe_wf (pipes s' id) /\ contents (pipes s id) = bytes ++ contents (pipes s' id) /\
  got = Z.of_nat (length bytes) /\ got = Z.min (Z.max 0 n) (count (pipes s id)) /\
  write_refs (pipes s' id) = write_refs (pipes s id).
Proof.
  intros Hwf. unfold pipe_read_iter. set (s0 := if truthy self then _ else _).
  assert (E : pipes s0 id = pipes s id) by (unfold s0; by destruct (truthy self)). rewrite E.
  pose proof Hwf as [_ Hc]. destruct (Z.ltb_spec 0 (count (pipes s id))).
  - pose proof (drain_spec (Z.to_nat n) (pipes s id) Hwf) as Hd. destruct (drain _ _) as [l p'].
    destruct Hd as (Hw & Hse & Hcont & Hlen). intros [= <- <- <-]. simpl. rewrite fn_lookup_insert.
    split; [done|]. split; [done|]. split; [done|]. split; [lia|]. apply Hse.
  - assert (Hdone : forall g b st, ReadDone 0 [] s0 = ReadDone g b st ->
      pipe_wf (pipes st id) /\ contents (pipes s id) = b ++ contents (pipes st id) /\
      g = Z.of_nat (length b) /\ g = Z.min (Z.max 0 n) (count (pipes s id)) /\ write_refs (pipes st id) = write_refs (pipes s id)).
    { intros g b st [= <- <- <-]. rewrite E. repeat split; simpl; try done; try apply Hwf; lia. }
    destruct (_ =? 0); [by apply Hdone|]. destruct (negb _); [by apply Hdone|done].
Qed.

Lemma read_iter_park id n self s s' :
  pipe_read_iter id n self s = ReadPark s' ->
  contents (pipes s' id) = contents (pipes s id) /\ (pipe_wf (pipes s id) -> pipe_wf (pipes s' id)) /\
  count (pipes s id) <= 0 /\ write_refs (pipes s id) <> 0 /\ self <> 0 /\
  count (pipes s' id) = count (pipes s id) /\ write_refs (pipes s' id) = write_refs (pipes s id) /\
  reader_waiter (pipes s' id) = self /\ procs s' self = ProcPark PROC_BLOCKED 1 /\
  (forall q, q <> self -> procs s' q = procs s q).
Proof.
  unfold pipe_read_iter, truthy. set (s0 := if negb _ then _ else _).
  assert (E : pipes s0 id = pipes s id) by (unfold s0; by destruct (negb (self =? 0))). rewrite E.
  destruct (Z.ltb_spec 0 (count (pipes s id))); [by destruct (drain _ _)|].
  destruct (Z.eqb_spec (write_refs (pipes s id)) 0); [done|].
  destruct (Z.eqb_spec self 0) as [|Hs]; simpl; [done|]. intros [= <-]. simpl. rewrite !fn_lookup_insert.
  split; [done|]. split; [by intros []|]. repeat (split; [done|]). intros q Hq.
  rewrite fn_lookup_insert_ne by done. unfold s0. destruct (Z.eqb_spec self 0); [done|]. simpl.
  by rewrite fn_lookup_insert_ne.
Qed.

Lemma pipe_step_stream id s a d s' :
  pipe_step id s a d s' -> pipe_wf (pipes s id) ->
  pipe_wf (pipes s' id) /\ contents (pipes s id) ++ a = d ++ contents (pipes s' id).
Proof.
  intros Hst Hwf. destruct Hst as [src n s w s' Hn Hw|n self s got bytes s' Hb Hn Hr|n self s s' Hb Hn Hr|i w s|i w s].
  - destruct (bad_pipe id s) eqn:Hbad; [|destruct (decide (read_refs (pipes s id) = 0)) as [Hr|Hr]].
    + unfold pipe_write in Hw. rewrite Hbad in Hw. simpl in Hw. injection Hw as <- <-. simpl. by rewrite app_nil_r.
    + unfold pipe_write in Hw. rewrite Hbad, Hr in Hw. simpl in Hw. destruct (n <? 0); injection Hw as <- <-; simpl; by rewrite app_nil_r.
    + pose proof (pipe_write_open id src n s Hbad Hn Hr Hwf) as H1. rewrite Hw in H1.
      destruct H1 as (_ & H1 & -> & _). done.
  - destruct (read_iter_done _ _ _ _ _ _ _ Hwf Hr) as (H1 & H2 & _). rewrite app_nil_r. done.
  - destruct (read_iter_park _ _ _ _ _ Hr) as (H1 & H2 & _). rewrite app_nil_r, H1. auto.
  - destruct (incref_contents i w s id) as [-> ?]. rewrite app_nil_r. auto.
  - destruct (close_contents i w s id) as [-> ?]. rewrite app_nil_r. auto.
Qed.

(** C6: a pipe is a FIFO byte stream: over any run of writes, reads, parked reads,
    increfs and closes, the bytes delivered followed by the bytes still buffered are
    the bytes buffered at the start followed by the bytes accepted; at most 4096
    are ever buffered. *)
Theorem pipe_stream_fifo id s acc del s' :
  pipe_steps id s acc del s' -> pipe_wf (pipes s id) ->
  contents (pipes s id) ++ acc = del ++ contents (pipes s' id) /\
  Z.of_nat (length (contents (pipes s' id))) <= PIPE_BUF_SIZE.
Proof.
  intros Hs Hwf. assert (pipe_wf (pipes s' id) /\ contents (pipes s id) ++ acc = del ++ contents (pipes s' id)) as [Hw' E].
  { induction Hs as [s|s1 a1 d1 s2 a2 d2 s3 H1 _ IH]; [by rewrite app_nil_r|].
    destruct (pipe_step_stream _ _ _ _ _ H1 Hwf) as [Hw2 E2]. destruct (IH Hw2) as [Hw3 E3].
    split; [done|]. by rewrite app_assoc, E2, <- !app_assoc, E3. }
  split; [done|]. rewrite length_contents by done. apply Hw'.
Qed.

(** * Blocking and waking *)

(** A parked reader is not forgotten: the next write that is accepted makes it
    runnable and its next pass returns the first bytes written, and closing the last
    write end makes it runnable and its next pass returns end of file. *)
Theorem pipe_parked_reader_wakes id n self s s1 :
  bad_pipe id s = false -> 0 < n -> pipe_wf (pipes s id) -> read_refs (pipes s id) <> 0 ->
  pipe_read_iter id n self s = ReadPark s1 ->
  (forall src k w s2, 0 < k <= Z.of_nat (length src) -> pipe_write id src k s1 = (w, s2) ->
     state (procs s2 self) = PROC_RUN /\
     exists s3, pipe_read_iter id n self s2 =
                ReadDone (Z.min n w) (u8 <$> take (Z.to_nat (Z.min n w)) src) s3) /\
  (write_refs (pipes s id) = 1 ->
     let s2 := pipe_close_end id true s1 in
     state (procs s2 self) = PROC_RUN /\
     exists s3, pipe_read_iter id n self s2 = ReadDone 0 [] s3).
Proof.
  intros Hbad Hn Hwf Hrr Hp. destruct (read_iter_park _ _ _ _ _ Hp) as (Hc & Hw & Hcnt & Hwr & Hself & Hcnt' & Hwr' & Hwait & Hproc & _).
  specialize (Hw Hwf). assert (Hc0 : count (pipes s1 id) = 0) by (pose proof (pw_count _ Hwf); lia).
  assert (Hun : used (pipes s1 id) = used (pipes s id) /\ read_refs (pipes s1 id) = read_refs (pipes s id)).
  { revert Hp. unfold pipe_read_iter. set (s0 := if truthy self then _ else _).
    assert (E : pipes s0 id = pipes s id) by (unfold s0; by destruct (truthy self)). rewrite E.
    destruct (0 <? _); [by destruct (drain _ _)|]. destruct (_ =? 0); [done|]. destruct (negb _); [done|].
    intros [= <-]. simpl. by rewrite fn_lookup_insert. }
  destruct Hun as [Hu Hrr1].
  assert (Hbad1 : bad_pipe id s1 = false) by (unfold bad_pipe in *; by rewrite Hu). split.
  - intros src k w s2 Hk Hwrite. pose proof (pipe_write_open id src k s1 Hbad1 ltac:(lia) ltac:(congruence) Hw) as H1.
    rewrite Hwrite in H1. destruct H1 as (Ew & Hwf2 & Hc2 & Hwake & _). rewrite Hc0 in Ew. unfold PIPE_BUF_SIZE in Ew.
    assert (0 < w) by lia. rewrite Hwait in Hwake. split; [by apply Hwake|].
    assert (Hs1 : contents (pipes s1 id) = []).
    { apply nil_length_inv. pose proof (length_contents _ Hw). lia. }
    rewrite Hs1 in Hc2. simpl in Hc2.
    assert (Hcnt2 : count (pipes s2 id) = w).
    { rewrite <- (length_contents _ Hwf2), Hc2, length_fmap, length_take. lia. }
    destruct (pipe_read_iter id n self s2) as [got bytes s3|s3] eqn:Er.
    + destruct (read_iter_done _ _ _ _ _ _ _ Hwf2 Er) as (_ & Hcat & Hgot & Hgot' & _).
      exists s3. assert (Eg : got = Z.min n w) by lia. rewrite Hc2 in Hcat. f_equal; [done|].
      apply (f_equal (take (length bytes))) in Hcat. rewrite take_app_length in Hcat. rewrite <- Hcat.
      rewrite <- fmap_take, take_take. do 2 f_equal. lia.
    + destruct (read_iter_park _ _ _ _ _ Er) as (_ & _ & ? & _). lia.
  - intros H1 s2. unfold s2, pipe_close_end. rewrite Hbad1. rewrite Hwr', H1. simpl. change (1 - 1) with 0.
    set (p1 := set_refs (read_refs (pipes s1 id)) 0 (pipes s1 id)). set (sc := set_pipe id p1 s1).
    assert (Esc : pipes sc id = p1) by (unfold sc; simpl; by rewrite fn_lookup_insert).
    destruct (wake_pipe id sc id) as (_ & _ & W3 & W4 & W5 & _). destruct (wake_spec id sc) as (_ & V2 & _).
    rewrite Esc in W3, W4, W5, V2. simpl in W3, W4, W5, V2. rewrite Hwait in V2. rewrite W5, Hrr1, W4. simpl.
    destruct (Z.eqb_spec (read_refs (pipes s id)) 0); [done|]. simpl. split; [by apply V2|].
    unfold pipe_read_iter. set (s0 := if truthy self then _ else _).
    assert (E : pipes s0 id = pipes (pipe_wake_reader id sc) id) by (unfold s0; by destruct (truthy self)).
    rewrite E, W3, W4, Hc0. simpl. by eexists.
Qed.

(** The waiter slot holds one process only: when a second reader parks on the same
    pipe, a following write wakes the second and leaves the first blocked, with no
    waiter recorded for it any more. *)
Theorem pipe_second_reader_lost id n1 n2 self1 self2 s s1 s2 src k w s3 :
  self1 <> self2 -> pipe_wf (pipes s id) -> read_refs (pipes s id) <> 0 ->
  bad_pipe id s = false ->
  pipe_read_iter id n1 self1 s = ReadPark s1 -> pipe_read_iter id n2 self2 s1 = ReadPark s2 ->
  0 < k <= Z.of_nat (length src) -> pipe_write id src k s2 = (w, s3) ->
  state (procs s3 self1) = PROC_BLOCKED /\ reader_waiter (pipes s3 id) <> self1.
Proof.
  intros Hne Hwf Hrr Hbad H1 H2 Hk Hw.
  destruct (read_iter_park _ _ _ _ _ H1) as (_ & Hw1 & Hc1 & _ & Hs1 & _ & _ & _ & Hp1 & _).
  destruct (read_iter_park _ _ _ _ _ H2) as (_ & Hw2 & _ & _ & Hs2 & Hc2 & _ & Hwait & Hp2 & Hoth).
  assert (Ep : procs s2 self1 = ProcPark PROC_BLOCKED 1) by (rewrite Hoth by done; done).
  unfold pipe_write in Hw. destruct (bad_pipe id s2 || (k <? 0)); [injection Hw as _ <-; by rewrite Ep, Hwait|].
  destruct (read_refs (pipes s2 id) =? 0); [injection Hw as _ <-; by rewrite Ep, Hwait|].
  pose proof (write_loop_spec (take (Z.to_nat k) src) (pipes s2 id) 0 (Hw2 (Hw1 Hwf))) as Hl.
  destruct (write_loop _ _ _) as [w' p']. destruct Hl as (_ & _ & (_ & _ & _ & Hse) & _). injection Hw as _ <-.
  assert (Er : reader_waiter (pipes (set_pipe id p' s2) id) = self2) by (simpl; rewrite fn_lookup_insert; congruence).
  destruct (0 <? w').
  - destruct (wake_spec id (set_pipe id p' s2)) as (V1 & _ & V3). rewrite V1, V3 by congruence. simpl.
    rewrite Ep. split; [done|congruence].
  - rewrite Er. simpl. rewrite Ep. split; [done|congruence].
Qed.

(** A wake-up that is not about the pipe does not end the read: whatever happened to
    the process meanwhile (a signal posted to it, for one), as long as the pipe is still
    empty with a writer open the next pass parks again. *)
Theorem pipe_read_parks_again id n self s s1 s2 :
  pipe_read_iter id n self s = ReadPark s1 ->
  count (pipes s2 id) = count (pipes s1 id) -> write_refs (pipes s2 id) = write_refs (pipes s1 id) ->
  exists s3, pipe_read_iter id n self s2 = ReadPark s3 /\ procs s3 self = ProcPark PROC_BLOCKED 1.
Proof.
  intros Hp Hc Hw. destruct (read_iter_park _ _ _ _ _ Hp) as (_ & _ & H1 & H2 & Hs & H3 & H4 & _).
  destruct (pipe_read_iter id n self s2) as [got bytes s3|s3] eqn:E.
  - exfalso. revert E. unfold pipe_read_iter, truthy. set (s0 := if negb _ then _ else _).
    assert (E : pipes s0 id = pipes s2 id) by (unfold s0; by destruct (negb (self =? 0))). rewrite E, Hc, Hw, H3, H4.
    destruct (Z.ltb_spec 0 (count (pipes s id))); [lia|]. destruct (Z.eqb_spec (write_refs (pipes s id)) 0); [done|].
    destruct (Z.eqb_spec self 0); done.
  - exists s3. split; [done|]. by destruct (read_iter_park _ _ _ _ _ E) as (_ & _ & _ & _ & _ & _ & _ & _ & ? & _).
Qed.

(** * A concrete run: pipe 0 just created, processes 7 and 8. *)
Definition demo_pipes : pipes_st :=
  PipesSt (fun i => if i =? 0 then fresh_pipe else Pipe 0 (fun _ => 0) 0 0 0 0 0)
          (fun _ => ProcPark PROC_RUN 0) 0 0.
Definition demo_parked : pipes_st :=
  match pipe_read_iter 0 2 7 demo_pipes with ReadPark s => s | ReadDone _ _ s => s end.
Definition demo_parked2 : pipes_st :=
  match pipe_read_iter 0 2 8 demo_parked with ReadPark s => s | ReadDone _ _ s => s end.

Lemma fresh_pipe_wf : pipe_wf fresh_pipe.
Proof. constructor; vm_compute; intuition congruence. Qed.

Lemma pipe_write_correct_witness :
  exists w s', pipe_write 0 [104; 105; 33] 3 demo_pipes = (w, s') /\ w = 3 /\
               contents (pipes s' 0) = [104; 105; 33].
Proof.
  pose proof (pipe_write_correct 0 [104; 105; 33] 3 demo_pipes ltac:(simpl; lia) fresh_pipe_wf) as H.
  destruct (pipe_write 0 [104; 105; 33] 3 demo_pipes) as [w s'] eqn:E.
  destruct H as [(_ & _ & [H|[H|H]])|(Hw & _ & _ & _ & _ & Hc & _)]; [discriminate H|lia|discriminate H|].
  exists w, s'. split; [reflexivity|]. rewrite Hc, Hw. split; reflexivity.
Defined.

(** A pipe whose write position is two bytes before the end of the ring: three bytes are written,
    two are read, two more are written and three are read. *)
Definition late_pipe : pipe := Pipe 1 (fun _ => 0) 4094 0 1 1 0.
Definition late_pipes : pipes_st :=
  PipesSt (fun i => if i =? 0 then late_pipe else Pipe 0 (fun _ => 0) 0 0 0 0 0) (fun _ => ProcPark PROC_RUN 0) 0 0.
Definition after_write (src : list Z) (s : pipes_st) : pipes_st := snd (pipe_write 0 src (Z.of_nat (length src)) s).
Definition after_read (n : Z) (s : pipes_st) : pipes_st := match pipe_read_iter 0 n 0 s with ReadDone _ _ s' => s' | ReadPark s' => s' end.

Lemma pipe_stream_fifo_witness :
  let s1 := after_write [104; 105; 33] late_pipes in let s2 := after_read 2 s1 in
  let s3 := after_write [111; 107] s2 in let s4 := after_read 3 s3 in
  contents (pipes late_pipes 0) ++ [104; 105; 33; 111; 107] = [104; 105; 33; 111; 107] ++ contents (pipes s4 0).
Proof.
  intros s1 s2 s3 s4.
  apply (pipe_stream_fifo 0 late_pipes ([104; 105; 33] ++ [] ++ [111; 107] ++ [] ++ []) ([] ++ [104; 105] ++ [] ++ [33; 111; 107] ++ []) s4).
  - apply (pss_cons 0 late_pipes _ _ s1); [apply (ps_write 0 [104; 105; 33] 3 late_pipes 3); [simpl; lia|reflexivity]|].
    apply (pss_cons 0 s1 _ _ s2); [apply (ps_read 0 2 0 s1 2); [reflexivity|lia|vm_compute; reflexivity]|].
    apply (pss_cons 0 s2 _ _ s3); [apply (ps_write 0 [111; 107] 2 s2 2); [simpl; lia|reflexivity]|].
    apply (pss_cons 0 s3 _ _ s4); [apply (ps_read 0 3 0 s3 3); [reflexivity|lia|vm_compute; reflexivity]|].
    apply pss_nil.
  - constructor; vm_compute; intuition congruence.
Defined.

Lemma pipe_parked_reader_wakes_witness :
  state (procs (snd (pipe_write 0 [104; 105; 33] 3 demo_parked)) 7) = PROC_RUN.
Proof.
  apply (proj1 (pipe_parked_reader_wakes 0 2 7 demo_pipes demo_parked eq_refl ltac:(lia)
                  fresh_pipe_wf ltac:(discriminate) eq_refl) [104; 105; 33] 3 3).
  - simpl. lia.
  - reflexivity.
Defined.

Lemma pipe_second_reader_lost_witness :
  state (procs (snd (pipe_write 0 [104] 1 demo_parked2)) 7) = PROC_BLOCKED.
Proof.
  apply (pipe_second_reader_lost 0 2 2 7 8 demo_pipes demo_parked demo_parked2 [104] 1 1
           (snd (pipe_write 0 [104] 1 demo_parked2))); try reflexivity.
  - discriminate.
  - exact fresh_pipe_wf.
  - discriminate.
  - simpl. lia.
Defined.

Lemma pipe_read_parks_again_witness :
  exists s3, pipe_read_iter 0 2 7 (set_proc 7 (ProcPark PROC_RUN 1) demo_parked) = ReadPark s3 /\
             procs s3 7 = ProcPark PROC_BLOCKED 1.
Proof.
  apply (pipe_read_parks_again 0 2 7 demo_pipes demo_parked); reflexivity.
Defined.
