(* ===== verification/Phys.v ===== *)
(** Physical memory, byte addressed.

    The kernel reaches all RAM through an identity map, so a [T*] into RAM is a
    physical address.  Memory is a total function from address to byte; [ld64] and
    [st64] are the little-endian 64-bit accesses the page-table code and the stack
    builders perform, [fill] and [copy] are [memset_asm] and [memcpy] on a range. *)
From Stdlib Require Import ZArith Lia.
From S2P Require Import Prelude.

Definition pmem := Z -> Z.

Definition ld8 (m : pmem) (a : Z) : Z := u8 (m a).
Definition st8 (m : pmem) (a v : Z) : pmem := fun x => if x =? a then u8 v else m x.

(** [n] bytes starting at [a], least significant first. *)
Fixpoint ldn (n : nat) (m : pmem) (a : Z) : Z :=
  match n with O => 0 | S k => u8 (m a) + 256 * ldn k m (a + 1) end.

Definition ld32 : pmem -> Z -> Z := ldn 4.
Definition ld64 : pmem -> Z -> Z := ldn 8.

(** Byte [i] of [v]. *)
Definition byte_of (v i : Z) : Z := u8 (v >> (8 * i)).

Definition stn (n : Z) (m : pmem) (a v : Z) : pmem :=
  fun x => if (a <=? x) && (x <? a + n) then byte_of v (x - a) else m x.

Definition st32 : pmem -> Z -> Z -> pmem := stn 4.
Definition st64 : pmem -> Z -> Z -> pmem := stn 8.

Definition fill (m : pmem) (a n c : Z) : pmem :=
  fun x => if (a <=? x) && (x <? a + n) then u8 c else m x.

Definition copy (m : pmem) (dst src n : Z) : pmem :=
  fun x => if (dst <=? x) && (x <? dst + n) then m (src + (x - dst)) else m x.

(** * Laws *)

Lemma ldn_range n m a : 0 <= ldn n m a < 2 ^ (8 * Z.of_nat n).
Proof.
  revert a. induction n as [|n IH]; intros a; [simpl; lia|].
  cbn [ldn]. specialize (IH (a + 1)). pose proof (u8_range (m a)).
  replace (8 * Z.of_nat (S n)) with (8 + 8 * Z.of_nat n) by lia.
  rewrite Z.pow_add_r by lia. change (2 ^ 8) with 256. lia.
Qed.

Lemma ld64_range m a : 0 <= ld64 m a < 2 ^ 64.
Proof. apply (ldn_range 8). Qed.

#[export] Hint Resolve ld64_range : nyx.

Lemma ldn_ext n m m' a :
  (forall x, a <= x < a + Z.of_nat n -> m x = m' x) -> ldn n m a = ldn n m' a.
Proof.
  revert a. induction n as [|n IH]; intros a H; [done|]. cbn [ldn].
  rewrite H by lia. f_equal. f_equal. apply IH. intros. apply H. lia.
Qed.

Lemma ld64_ext m m' a :
  (forall x, a <= x < a + 8 -> m x = m' x) -> ld64 m a = ld64 m' a.
Proof. intros H. apply (ldn_ext 8). intros. apply H. lia. Qed.

Lemma u8_u8 x : u8 (u8 x) = u8 x.
Proof. apply u8_small, u8_range. Qed.

Lemma ldn_bytes n m a v :
  (forall i, 0 <= i < Z.of_nat n -> m (a + i) = byte_of v i) ->
  ldn n m a = v mod 2 ^ (8 * Z.of_nat n).
Proof.
  revert a v. induction n as [|n IH]; intros a v H.
  - simpl. by rewrite Z.mod_1_r.
  - cbn [ldn]. rewrite (IH (a + 1) (v >> 8)).
    + specialize (H 0 ltac:(lia)). rewrite Z.add_0_r in H. rewrite H.
      unfold byte_of. rewrite Z.mul_0_r, Z.shiftr_0_r, u8_u8.
      rewrite Z.shiftr_div_pow2 by lia. unfold u8. change (2 ^ 8) with 256.
      replace (8 * Z.of_nat (S n)) with (8 + 8 * Z.of_nat n) by lia.
      rewrite Z.pow_add_r by lia. change (2 ^ 8) with 256.
      rewrite Z.rem_mul_r by lia. done.
    + intros i Hi. specialize (H (i + 1) ltac:(lia)).
      replace (a + 1 + i) with (a + (i + 1)) by lia. rewrite H. unfold byte_of.
      rewrite Z.shiftr_shiftr by lia. f_equal. f_equal. lia.
Qed.

Lemma ld64_st64_same m a v : ld64 (st64 m a v) a = u64 v.
Proof.
  unfold u64. apply (ldn_bytes 8). intros i Hi. unfold st64, stn.
  rewrite (proj2 (Z.leb_le a (a + i))) by lia. rewrite (proj2 (Z.ltb_lt (a + i) (a + 8))) by lia.
  simpl. f_equal. lia.
Qed.

Lemma ld64_st64_other m a b v : b + 8 <= a \/ a + 8 <= b -> ld64 (st64 m a v) b = ld64 m b.
Proof.
  intros H. apply ld64_ext. intros x Hx. unfold st64, stn.
  destruct (Z.leb_spec a x); [|done]. destruct (Z.ltb_spec x (a + 8)); [lia|done].
Qed.

Lemma st64_other m a v x : x < a \/ a + 8 <= x -> st64 m a v x = m x.
Proof.
  intros H. unfold st64, stn.
  destruct (Z.leb_spec a x); [|done]. destruct (Z.ltb_spec x (a + 8)); [lia|done].
Qed.

Lemma ld64_fill_other m a n c b : b + 8 <= a \/ a + n <= b -> ld64 (fill m a n c) b = ld64 m b.
Proof.
  intros H. apply ld64_ext. intros x Hx. unfold fill.
  destruct (Z.leb_spec a x); [|done]. destruct (Z.ltb_spec x (a + n)); [lia|done].
Qed.

Lemma fill_other m a n c x : x < a \/ a + n <= x -> fill m a n c x = m x.
Proof.
  intros H. unfold fill.
  destruct (Z.leb_spec a x); [|done]. destruct (Z.ltb_spec x (a + n)); [lia|done].
Qed.

Lemma ld64_fill_zero m a n b : a <= b -> b + 8 <= a + n -> ld64 (fill m a n 0) b = 0.
Proof.
  intros H1 H2. unfold ld64. rewrite (ldn_bytes 8 _ b 0); [done|].
  intros i Hi. unfold fill. rewrite (proj2 (Z.leb_le a (b + i))) by lia.
  rewrite (proj2 (Z.ltb_lt (b + i) (a + n))) by lia. simpl.
  unfold byte_of. by rewrite Z.shiftr_0_l.
Qed.

Lemma copy_in m dst src n i : 0 <= i < n -> copy m dst src n (dst + i) = m (src + i).
Proof.
  intros H. unfold copy. rewrite (proj2 (Z.leb_le dst (dst + i))) by lia.
  rewrite (proj2 (Z.ltb_lt (dst + i) (dst + n))) by lia. simpl. f_equal. lia.
Qed.

Lemma copy_other m dst src n x : x < dst \/ dst + n <= x -> copy m dst src n x = m x.
Proof.
  intros H. unfold copy.
  destruct (Z.leb_spec dst x); [|done]. destruct (Z.ltb_spec x (dst + n)); [lia|done].
Qed.

Lemma ld64_copy_other m dst src n b :
  b + 8 <= dst \/ dst + n <= b -> ld64 (copy m dst src n) b = ld64 m b.
Proof. intros H. apply ld64_ext. intros x Hx. apply copy_other. lia. Qed.
