(* ===== verification/Slab.v ===== *)
(** The slab allocator (src/kernel/slab.c): caches of equal-sized objects cut out of single
    frames, each frame with a header and a chain of its free objects.

    A frame's header is a [slab_page] stored under its address, the word a free object keeps its
    link in is [slot_next] of the object's address.  The frame allocator is the interface
    [FrameSource].  A walk that reaches an address without a header is [None]; a damaged chain
    makes the code panic ([SlabPanic]). *)
From Stdlib Require Import ZArith Lia.
From S2P Require Import Prelude PageAlloc.

Definition SLAB_PAGE_SIZE : Z := 4096.
Definition SLAB_MAX_OBJ : Z := 1024.
Definition SLAB_CACHE_SIZES : list Z := [32; 64; 128; 256; 512; 1024].
(** [sizeof(slab_page_t)]: three pointers and three 32-bit fields, padded. *)
Definition SLAB_HDR : Z := 40.

Record slab_page := SlabPage {
  sp_next : Z;
  sp_prev : Z;
  free_list : Z;
  sp_obj_size : Z;
  total_objs : Z;
  free_objs : Z
}.

Record slab_cache := SlabCache { obj_size : Z; pages : Z }.

Section Slab.
Context {A : Type} {FS : FrameSource A}.

Record slab_st := Slab {
  slab_caches : list slab_cache;  (* the first slab_cache_count *)
  spages : gmap Z slab_page;
  slot_next : gmap Z Z;
  frames : A
}.

Definition slab_init (s : slab_st) : slab_st :=
  Slab (map (fun z => SlabCache z 0) SLAB_CACHE_SIZES) (spages s) (slot_next s) (frames s).

Definition slab_find_cache (size : Z) (s : slab_st) : option nat :=
  first_index (fun c => size <=? obj_size c) (slab_caches s).

(** The free chain threaded through [n] objects from the [i]-th on; the last one comes first. *)
Fixpoint thread_slots (n : nat) (obj_start size i : Z) (fl : Z) (m : gmap Z Z) : Z * gmap Z Z :=
  match n with
  | O => (fl, m)
  | S n' => let slot := obj_start + i * size in thread_slots n' obj_start size (i + 1) slot (<[slot := fl]> m)
  end.

Definition obj_count (size : Z) : Z := (SLAB_PAGE_SIZE - SLAB_HDR) / size.

Definition set_prev (p : Z) (pg : slab_page) : slab_page :=
  SlabPage (sp_next pg) p (free_list pg) (sp_obj_size pg) (total_objs pg) (free_objs pg).

Definition slab_new_page (k : nat) (c : slab_cache) (s : slab_st) : Z * slab_st :=
  let '(mem, fr) := fs_alloc (frames s) in
  if mem =? 0 then (0, Slab (slab_caches s) (spages s) (slot_next s) fr)
  else
    let n := obj_count (obj_size c) in
    let '(fl, m) := thread_slots (Z.to_nat n) (mem + SLAB_HDR) (obj_size c) 0 0 (slot_next s) in
    let pgs := <[mem := SlabPage (pages c) 0 fl (obj_size c) n n]> (spages s) in
    let pgs := if truthy (pages c) then alter (set_prev mem) (pages c) pgs else pgs in
    (mem, Slab (<[k := SlabCache (obj_size c) mem]> (slab_caches s)) pgs m fr).

Inductive slab_res := SlabPanic | SlabDone (ptr : Z) (s : slab_st).

(** [page->free_list = nx; page->free_objs--]. *)
Definition take_slot (page nx : Z) (pg : slab_page) (s : slab_st) : slab_st :=
  Slab (slab_caches s)
    (<[page := SlabPage (sp_next pg) (sp_prev pg) nx (sp_obj_size pg) (total_objs pg) (u32 (free_objs pg - 1))]> (spages s))
    (slot_next s) (frames s).

Definition outside_page (page nx : Z) : bool :=
  negb (nx =? 0) && ((nx <? page + SLAB_HDR) || (page + SLAB_PAGE_SIZE <=? nx)).

(** The loop over the pages of a cache: [Some None] none has a free object. *)
Fixpoint slab_scan (fuel : nat) (page : Z) (s : slab_st) : option (option slab_res) :=
  match fuel with
  | O => None
  | S f =>
      if page =? 0 then Some None
      else
        pg ← spages s !! page;
        if truthy (free_list pg) then
          nx ← slot_next s !! free_list pg;
          Some (Some (if outside_page page nx then SlabPanic else SlabDone (free_list pg) (take_slot page nx pg s)))
        else slab_scan f (sp_next pg) s
  end.

Definition slab_alloc (size : Z) (s : slab_st) : option slab_res :=
  if (size =? 0) || (SLAB_MAX_OBJ <? size) then Some (SlabDone 0 s)
  else
    match slab_find_cache size s ≫= fun k => (fun c => (k, c)) <$> slab_caches s !! k with
    | None => Some (SlabDone 0 s)
    | Some (k, c) =>
        r ← slab_scan (S (base.size (spages s))) (pages c) s;
        match r with
        | Some r => Some r
        | None =>
            let '(page, s) := slab_new_page k c s in
            if page =? 0 then Some (SlabDone 0 s)
            else
              pg ← spages s !! page;
              nx ← slot_next s !! free_list pg;
              Some (SlabDone (free_list pg) (take_slot page nx pg s))
        end
    end.

Definition slab_free (ptr size : Z) (s : slab_st) : option slab_st :=
  if (ptr =? 0) || (size =? 0) || (SLAB_MAX_OBJ <? size) then Some s
  else
    match slab_find_cache size s with
    | None => Some s
    | Some _ =>
        let page := ptr .& not64 (SLAB_PAGE_SIZE - 1) in
        pg ← spages s !! page;
        Some (Slab (slab_caches s)
          (<[page := SlabPage (sp_next pg) (sp_prev pg) ptr (sp_obj_size pg) (total_objs pg) (u32 (free_objs pg + 1))]> (spages s))
          (<[ptr := free_list pg]> (slot_next s)) (frames s))
    end.

(** * The abstract allocator

    Per frame, the size of its objects and the free ones in the order they will be handed out. *)

Abbreviation view := (gmap Z (Z * list Z)).

Definition is_slot (z page x : Z) : Prop := exists i, 0 <= i < obj_count z /\ x = page + SLAB_HDR + i * z.

(** The object at [x], of size [z], is in use. *)
Definition live (V : view) (x z : Z) : Prop := exists page F, V !! page = Some (z, F) /\ is_slot z page x /\ x ∉ F.

(** The smallest class that holds [size] bytes. *)
Definition class_of (size z : Z) : Prop :=
  z ∈ SLAB_CACHE_SIZES /\ size <= z /\ forall z', z' ∈ SLAB_CACHE_SIZES -> size <= z' -> z <= z'.

(** Chains of free objects and of pages. *)
Fixpoint chain (m : gmap Z Z) (a : Z) (l : list Z) : Prop :=
  match l with
  | [] => a = 0
  | x :: l' => a = x /\ x <> 0 /\ exists n, m !! x = Some n /\ chain m n l'
  end.

Fixpoint plist (m : gmap Z slab_page) (a : Z) (l : list Z) : Prop :=
  match l with
  | [] => a = 0
  | x :: l' => a = x /\ x <> 0 /\ exists pg, m !! x = Some pg /\ plist m (sp_next pg) l'
  end.

Record page_rep (s : slab_st) (z page : Z) (F : list Z) (pg : slab_page) : Prop := {
  pr_size : sp_obj_size pg = z;
  pr_total : total_objs pg = obj_count z;
  pr_free : free_objs pg = Z.of_nat (length F);
  pr_chain : chain (slot_next s) (free_list pg) F;
  pr_nodup : NoDup F;
  pr_slots : forall x, x ∈ F -> is_slot z page x
}.

(** [L z]: the pages of the class [z], in list order. *)
Record slab_rep (s : slab_st) (L : Z -> list Z) (V : view) : Prop := {
  sr_sizes : map obj_size (slab_caches s) = SLAB_CACHE_SIZES;
  sr_lists : forall c, c ∈ slab_caches s -> plist (spages s) (pages c) (L (obj_size c)) /\ NoDup (L (obj_size c));
  sr_class : forall z p, p ∈ L z <-> exists F, V !! p = Some (z, F);
  sr_pages : forall p z F, V !! p = Some (z, F) -> z ∈ SLAB_CACHE_SIZES /\ exists pg, spages s !! p = Some pg /\ page_rep s z p F pg;
  sr_dom : forall p, is_Some (spages s !! p) -> is_Some (V !! p);
  sr_frames : forall p, is_Some (V !! p) -> exists q, p = q * PAGE_SIZE /\ 0 < q < MAX_PAGES /\ fs_owned (frames s) q;
  sr_inv : fs_inv (frames s)
}.
(** * Geometry of a slab *)

Lemma class_facts z :
  z ∈ SLAB_CACHE_SIZES -> 32 <= z <= 1024 /\ 3 <= obj_count z /\ SLAB_HDR + obj_count z * z <= SLAB_PAGE_SIZE.
Proof.
  unfold SLAB_CACHE_SIZES. rewrite !elem_of_cons. intros Hz.
  repeat destruct Hz as [->|Hz]; try by vm_compute; repeat split. by apply not_elem_of_nil in Hz.
Qed.

Lemma slot_inside z p x : z ∈ SLAB_CACHE_SIZES -> is_slot z p x -> p + SLAB_HDR <= x /\ x + z <= p + SLAB_PAGE_SIZE.
Proof. intros Hz (i & Hi & ->). destruct (class_facts z Hz) as (H1 & H2 & H3). nia. Qed.

Lemma slot_page z z' p p' x q q' :
  z ∈ SLAB_CACHE_SIZES -> z' ∈ SLAB_CACHE_SIZES -> p = q * PAGE_SIZE -> p' = q' * PAGE_SIZE ->
  is_slot z p x -> is_slot z' p' x -> p = p'.
Proof.
  intros Hz Hz' -> -> Hx Hx'. destruct (slot_inside _ _ _ Hz Hx), (slot_inside _ _ _ Hz' Hx').
  destruct (class_facts z Hz), (class_facts z' Hz'). unfold SLAB_HDR, SLAB_PAGE_SIZE, PAGE_SIZE in *. f_equal. lia.
Qed.

(** The page a slot is in, as [slab_free] computes it. *)
Lemma slot_base z p x q :
  z ∈ SLAB_CACHE_SIZES -> p = q * PAGE_SIZE -> 0 < q < MAX_PAGES -> is_slot z p x -> x .& not64 (SLAB_PAGE_SIZE - 1) = p.
Proof.
  intros Hz -> Hq Hx. destruct (slot_inside _ _ _ Hz Hx). destruct (class_facts z Hz).
  change MAX_PAGES with 131072 in Hq. unfold SLAB_HDR, SLAB_PAGE_SIZE, PAGE_SIZE in *. change (4096 - 1) with (2 ^ 12 - 1).
  rewrite land_not64_pow2 by lia. change (2 ^ 12) with 4096. f_equal. symmetry. apply Z.div_unique with (r := x - q * 4096); lia.
Qed.

Lemma slots_apart z p x y : 0 < z -> is_slot z p x -> is_slot z p y -> x <> y -> x + z <= y \/ y + z <= x.
Proof. intros Hz (i & Hi & ->) (j & Hj & ->) Hne. destruct (Z.lt_trichotomy i j) as [?|[->|?]]; [left|done|right]; nia. Qed.

(** A page has at most [obj_count] distinct objects, fewer than 2^12. *)
Lemma free_bound z p F : z ∈ SLAB_CACHE_SIZES -> NoDup F -> (forall x, x ∈ F -> is_slot z p x) ->
  Z.of_nat (length F) <= obj_count z < 4096.
Proof.
  intros Hz Hn Hs. destruct (class_facts z Hz) as (H1 & H2 & H3). split; [|unfold SLAB_HDR, SLAB_PAGE_SIZE in *; nia].
  assert (Hl : (length F <= length (map (fun i => (p + SLAB_HDR + Z.of_nat i * z)%Z) (seq 0 (Z.to_nat (obj_count z)))))%nat).
  { apply submseteq_length, NoDup_submseteq; [done|]. intros x Hx. destruct (Hs x Hx) as (i & Hi & ->).
    apply list_elem_of_In, in_map_iff. exists (Z.to_nat i). split; [lia|]. apply in_seq. lia. }
  rewrite length_map, length_seq in Hl. lia.
Qed.

(** * Chains *)

Lemma chain_ext m m' a l : (forall x, x ∈ l -> m' !! x = m !! x) -> chain m a l -> chain m' a l.
Proof.
  revert a. induction l as [|x l IH]; intros a He; simpl; [done|]. intros (-> & Hx & n & Hn & Hc).
  split; [done|]. split; [done|]. exists n. split; [by rewrite He by left|]. apply IH; [|done]. intros y Hy. apply He. by right.
Qed.

Lemma plist_ext m m' a l :
  (forall x pg, x ∈ l -> m !! x = Some pg -> exists pg', m' !! x = Some pg' /\ sp_next pg' = sp_next pg) -> plist m a l -> plist m' a l.
Proof.
  revert a. induction l as [|x l IH]; intros a He; simpl; [done|]. intros (-> & Hx & pg & Hn & Hc).
  destruct (He x pg ltac:(by left) Hn) as (pg' & Hn' & Hnx).
  split; [done|]. split; [done|]. exists pg'. split; [done|]. rewrite Hnx. apply IH; [|done]. intros y py Hy. apply He. by right.
Qed.

Lemma plist_length m a l : plist m a l -> NoDup l -> (length l <= base.size m)%nat.
Proof.
  intros Hp Hn. rewrite <- size_dom, <- (size_list_to_set (C := gset Z) l) by done. apply subseteq_size. intros x Hx.
  rewrite elem_of_list_to_set in Hx. apply elem_of_dom. clear Hn. revert a Hp Hx. induction l as [|y l IH]; intros a; simpl.
  - intros _ Hx. by apply not_elem_of_nil in Hx.
  - intros (-> & _ & pg & Hpg & Hl) [->|Hx]%elem_of_cons; [by eexists|by eapply IH].
Qed.

(** The chain built in a fresh page: every object once, the last one first. *)
Lemma thread_slots_spec n start size i fl m F :
  0 < start -> 0 < size -> 0 <= i -> chain m fl F -> NoDup F -> (forall x, x ∈ F -> x < start + i * size) ->
  let r := thread_slots n start size i fl m in
  exists F', chain r.2 r.1 F' /\ NoDup F' /\ length F' = (n + length F)%nat /\
  (forall x, x ∈ F' <-> x ∈ F \/ exists j, i <= j < i + Z.of_nat n /\ x = start + j * size) /\
  (forall x, (forall j, i <= j < i + Z.of_nat n -> x <> start + j * size) -> r.2 !! x = m !! x).
Proof.
  revert i fl m F. induction n as [|n IH]; intros i fl m F Hst Hsz Hi Hc Hn Hlt; cbn [thread_slots].
  - exists F. cbn. split; [done|]. split; [done|]. split; [done|]. split; [|done].
    intros x. split; [by left|]. intros [?|(j & Hj & _)]; [done|lia].
  - set (slot := start + i * size).
    assert (Hfresh : slot ∉ F) by (intros Hin; specialize (Hlt _ Hin); lia).
    destruct (IH (i + 1) slot (<[slot := fl]> m) (slot :: F)) as (F' & H1 & H2 & H3 & H4 & H5); [done|done|lia| | | |].
    + simpl. split; [done|]. split; [unfold slot; nia|]. exists fl. split; [apply lookup_insert_eq|].
      eapply chain_ext; [|done]. intros x Hx. apply lookup_insert_ne. congruence.
    + by constructor.
    + intros x [->|Hx]%elem_of_cons; [unfold slot; nia|]. specialize (Hlt x Hx). nia.
    + exists F'. split; [done|]. split; [done|]. split; [simpl in H3; lia|]. split.
      * intros x. rewrite H4, elem_of_cons. split.
        -- intros [[->|?]|(j & Hj & ->)]; [right; exists i; split; [lia|done]|by left|right; exists j; split; [lia|done]].
        -- intros [?|(j & Hj & ->)]; [by left; right|]. destruct (Z.eq_dec j i) as [->|]; [by left; left|]. right. exists j. split; [lia|done].
      * intros x Hx. rewrite H5 by (intros j Hj; apply Hx; lia). apply lookup_insert_ne. intros <-. apply (Hx i); [lia|done].
Qed.

(** * Searching a cache *)

Lemma sizes_sorted i j x y : SLAB_CACHE_SIZES !! i = Some x -> SLAB_CACHE_SIZES !! j = Some y -> (i <= j)%nat -> x <= y.
Proof. do 7 (destruct i as [|i]; [do 7 (destruct j as [|j]; [simpl; intros [= <-] [= <-] ?; lia || done|]); done|]); done. Qed.

Lemma find_cache_spec size s L V :
  slab_rep s L V -> 0 < size <= SLAB_MAX_OBJ ->
  exists k c, slab_find_cache size s = Some k /\ slab_caches s !! k = Some c /\ class_of size (obj_size c).
Proof.
  intros Hr Hs. unfold slab_find_cache.
  assert (E : first_index (fun c => size <=? obj_size c) (slab_caches s) = first_index (fun z => size <=? z) SLAB_CACHE_SIZES).
  { rewrite <- (sr_sizes _ _ _ Hr). generalize (slab_caches s). intros l. induction l as [|c l IH]; simpl; [done|]. by rewrite IH. }
  rewrite E. destruct (first_index (fun z => size <=? z) SLAB_CACHE_SIZES) as [k|] eqn:Ek.
  - apply first_index_Some in Ek as [(z & Hz & Hle) Hmin]. apply Z.leb_le in Hle.
    rewrite <- (sr_sizes _ _ _ Hr) in Hz. apply list_lookup_fmap_Some in Hz as (c & -> & Hc). exists k, c.
    split; [done|]. split; [done|]. split.
    + rewrite <- (sr_sizes _ _ _ Hr). apply list_elem_of_lookup. exists k. by rewrite list_lookup_fmap, Hc.
    + split; [done|]. intros z' Hz' Hle'. apply list_elem_of_lookup in Hz' as [j Hj].
      assert (Hkj : (k <= j)%nat).
      { destruct (decide (j < k)%nat) as [Hlt|]; [|lia]. specialize (Hmin j z' Hlt Hj). apply Z.leb_gt in Hmin. lia. }
      assert (Hk : SLAB_CACHE_SIZES !! k = Some (obj_size c)) by (rewrite <- (sr_sizes _ _ _ Hr); by rewrite list_lookup_fmap, Hc).
      apply (sizes_sorted k j); done.
  - exfalso. pose proof (proj1 (first_index_None _ _) Ek 5%nat 1024 eq_refl) as Hf. apply Z.leb_gt in Hf. unfold SLAB_MAX_OBJ in Hs. lia.
Qed.
Lemma slab_scan_spec s L V z fuel a l :
  slab_rep s L V -> plist (spages s) a l -> (forall p, p ∈ l -> p ∈ L z) -> (length l < fuel)%nat ->
  (exists p x F pg nx, p ∈ l /\ V !! p = Some (z, x :: F) /\ spages s !! p = Some pg /\ free_list pg = x /\
     slot_next s !! x = Some nx /\ chain (slot_next s) nx F /\
     slab_scan fuel a s = Some (Some (SlabDone x (take_slot p nx pg s)))) \/
  ((forall p, p ∈ l -> V !! p = Some (z, [])) /\ slab_scan fuel a s = Some None).
Proof.
  intros Hr. revert a fuel. induction l as [|p l IH]; intros a fuel Hp HL Hf; destruct fuel as [|fuel]; try (cbn in Hf; lia); cbn [slab_scan].
  - cbn in Hp. subst a. right. split; [|done]. intros p Hp. by apply not_elem_of_nil in Hp.
  - destruct Hp as (-> & Hp0 & pg & Hpg & Hl). rewrite (proj2 (Z.eqb_neq _ _) Hp0), Hpg. cbn [mbind option_bind].
    destruct (proj1 (sr_class _ _ _ Hr z p) (HL p ltac:(by left))) as [F HF].
    destruct (sr_pages _ _ _ Hr _ _ _ HF) as (Hz & pg' & Hpg' & [R1 R2 R3 R4 R5 R6]). rewrite Hpg in Hpg'. injection Hpg' as <-.
    destruct F as [|x F].
    + cbn in R4. rewrite R4. cbn in Hf. destruct (IH (sp_next pg) fuel Hl) as [(p' & x & F & pg' & nx & Hin & Hrest)|[Hall Es]]; [|lia| |].
      * intros p' Hp'. apply HL. by right.
      * left. exists p', x, F, pg', nx. split; [by right|done].
      * right. split; [|done]. intros p' [->|Hp']%elem_of_cons; [done|by apply Hall].
    + destruct R4 as (E & Hx & n & Hn & Hc). left. exists p, x, F, pg, n. split; [by left|]. split; [done|]. split; [done|].
      split; [done|]. split; [done|]. split; [done|]. unfold truthy. rewrite E, (proj2 (Z.eqb_neq _ _) Hx). cbn [negb]. rewrite Hn. cbn.
      enough (outside_page p n = false) as -> by done.
      unfold outside_page. destruct F as [|y F]; [cbn in Hc; by subst n|]. destruct Hc as (-> & Hy & _).
      destruct (slot_inside z p y Hz (R6 y ltac:(by right; left))). destruct (class_facts z Hz).
      apply andb_false_iff. right. apply orb_false_iff. split; [apply Z.ltb_ge|apply Z.leb_gt]; lia.
Qed.

(** One page changes, its links excepted. *)
Lemma rep_update s s' L V p z F F' pg pg' :
  slab_rep s L V -> V !! p = Some (z, F) -> spages s !! p = Some pg ->
  slab_caches s' = slab_caches s -> spages s' = <[p := pg']> (spages s) -> frames s' = frames s -> sp_next pg' = sp_next pg ->
  page_rep s' z p F' pg' -> (forall x, ~ is_slot z p x -> slot_next s' !! x = slot_next s !! x) ->
  slab_rep s' L (<[p := (z, F')]> V).
Proof.
  intros Hr HV Hpg Hc Hp Hf Hnx Hrep Hsl. split.
  - rewrite Hc. apply Hr.
  - intros c Hin. rewrite Hc in Hin. destruct (sr_lists _ _ _ Hr c Hin) as [H1 H2]. split; [|done]. rewrite Hp.
    eapply plist_ext; [|done]. intros x px _ Hx. destruct (decide (x = p)) as [->|Hne].
    + exists pg'. rewrite lookup_insert_eq. split; [done|]. congruence.
    + exists px. by rewrite lookup_insert_ne.
  - intros y x. rewrite (sr_class _ _ _ Hr). destruct (decide (x = p)) as [->|Hne].
    + rewrite lookup_insert_eq. split; [intros [G HG]; rewrite HV in HG; injection HG as <- _; by eexists|intros [G [= <- _]]; by eexists].
    + by rewrite lookup_insert_ne.
  - intros x y G HG. destruct (decide (x = p)) as [->|Hne].
    + rewrite lookup_insert_eq in HG. injection HG as <- <-. split; [apply (sr_pages _ _ _ Hr _ _ _ HV)|]. exists pg'. by rewrite Hp, lookup_insert_eq.
    + rewrite lookup_insert_ne in HG by done. destruct (sr_pages _ _ _ Hr _ _ _ HG) as (Hy & px & Hpx & [R1 R2 R3 R4 R5 R6]).
      split; [done|]. exists px. split; [by rewrite Hp, lookup_insert_ne|]. split; try done.
      eapply chain_ext; [|done]. intros a Ha. apply Hsl. intros Hs.
      destruct (sr_frames _ _ _ Hr p) as (q & Eq & _); [by eexists|]. destruct (sr_frames _ _ _ Hr x) as (q' & Eq' & _); [by eexists|].
      apply Hne. symmetry. eapply (slot_page z y p x a); [apply (sr_pages _ _ _ Hr _ _ _ HV)|done|done|done|done|by apply R6].
  - intros x Hx. rewrite Hp in Hx. destruct (decide (x = p)) as [->|Hne]; [rewrite lookup_insert_eq; by eexists|].
    rewrite lookup_insert_ne in Hx by done. rewrite lookup_insert_ne by done. by apply Hr.
  - intros x Hx. rewrite Hf. apply Hr. destruct (decide (x = p)) as [->|Hne]; [by eexists|]. by rewrite lookup_insert_ne in Hx.
  - rewrite Hf. apply Hr.
Qed.

Lemma take_slot_rep s L V p z x F pg nx :
  slab_rep s L V -> V !! p = Some (z, x :: F) -> spages s !! p = Some pg -> chain (slot_next s) nx F ->
  slab_rep (take_slot p nx pg s) L (<[p := (z, F)]> V).
Proof.
  intros Hr HV Hpg Hc. destruct (sr_pages _ _ _ Hr _ _ _ HV) as (Hz & pg' & Hpg' & [R1 R2 R3 R4 R5 R6]).
  rewrite Hpg in Hpg'. injection Hpg' as <-.
  eapply (rep_update s _ L V p z (x :: F) F pg _ Hr HV Hpg); try done. split; cbn; try done.
  - rewrite R3. cbn [length]. rewrite u32_small; [lia|].
    pose proof (free_bound z p (x :: F) Hz R5 R6). cbn [length] in *. lia.
  - by inversion R5.
  - intros y Hy. apply R6. by right.
Qed.
(** The pages after a new one at [mem] was linked in front of [head]. *)
Definition linked_pages (mem head : Z) (pg : slab_page) (m : gmap Z slab_page) : gmap Z slab_page :=
  let m := <[mem := pg]> m in if truthy head then alter (set_prev mem) head m else m.

Lemma linked_lookup mem head pg m :
  head <> mem -> linked_pages mem head pg m !! mem = Some pg /\
  (forall x px, x <> mem -> m !! x = Some px -> exists px', linked_pages mem head pg m !! x = Some px' /\ (px' = px \/ px' = set_prev mem px)) /\
  (forall x, x <> mem -> is_Some (linked_pages mem head pg m !! x) -> is_Some (m !! x)).
Proof.
  intros Hh. unfold linked_pages. destruct (truthy head).
  - split; [by rewrite lookup_alter_ne, lookup_insert_eq|]. split.
    + intros x px Hx Hpx. destruct (decide (x = head)) as [->|Hne].
      * rewrite lookup_alter_eq, lookup_insert_ne, Hpx by done. by eexists; split; [|right].
      * rewrite lookup_alter_ne, lookup_insert_ne by done. by eexists; split; [|left].
    + intros x Hx. destruct (decide (x = head)) as [->|Hne].
      * rewrite lookup_alter_eq, lookup_insert_ne, fmap_is_Some by done. done.
      * by rewrite lookup_alter_ne, lookup_insert_ne.
  - split; [apply lookup_insert_eq|]. split; intros x; [intros px Hx Hpx; exists px; rewrite lookup_insert_ne by done; by split; [|left]|].
    intros Hx. by rewrite lookup_insert_ne.
Qed.

Lemma page_rep_ext s s' z p F pg pg' mem :
  page_rep s z p F pg -> (pg' = pg \/ pg' = set_prev mem pg) -> (forall x, x ∈ F -> slot_next s' !! x = slot_next s !! x) -> page_rep s' z p F pg'.
Proof. intros [R1 R2 R3 R4 R5 R6] [->| ->] Hs; split; try done; cbn; by eapply chain_ext. Qed.

Lemma sizes_nodup i j x : SLAB_CACHE_SIZES !! i = Some x -> SLAB_CACHE_SIZES !! j = Some x -> i = j.
Proof. apply NoDup_lookup. unfold SLAB_CACHE_SIZES. apply NoDup_ListNoDup. repeat constructor; simpl; lia. Qed.

Definition add_page (L : Z -> list Z) (z mem : Z) : Z -> list Z := fun y => if decide (y = z) then mem :: L z else L y.

Lemma plist_head m a l : plist m a l -> l <> [] -> a ∈ l.
Proof. destruct l as [|x l]; [done|]. intros (-> & _). by left. Qed.

Lemma new_page_link s L V k c mem q fr sn pg F :
  slab_rep s L V -> slab_caches s !! k = Some c -> mem = q * PAGE_SIZE -> 0 < q < MAX_PAGES ->
  ~ fs_owned (frames s) q -> fs_inv fr -> (forall p, fs_owned fr p <-> fs_owned (frames s) p \/ p = q) ->
  sp_next pg = pages c ->
  let s' := Slab (<[k := SlabCache (obj_size c) mem]> (slab_caches s)) (linked_pages mem (pages c) pg (spages s)) sn fr in
  page_rep s' (obj_size c) mem F pg -> (forall x, ~ is_slot (obj_size c) mem x -> sn !! x = slot_next s !! x) ->
  V !! mem = None /\ slab_rep s' (add_page L (obj_size c) mem) (<[mem := (obj_size c, F)]> V).
Proof.
  intros Hr Hk Em Hq Hno Hi Hown Hnx s' Hrep Hsl. set (z := obj_size c) in *.
  assert (Hcin : c ∈ slab_caches s) by (apply list_elem_of_lookup; by exists k).
  assert (Hzk : SLAB_CACHE_SIZES !! k = Some z) by (rewrite <- (sr_sizes _ _ _ Hr); by rewrite list_lookup_fmap, Hk).
  assert (Hz : z ∈ SLAB_CACHE_SIZES) by (apply list_elem_of_lookup; by exists k).
  assert (HVn : V !! mem = None).
  { destruct (V !! mem) eqn:E; [|done]. destruct (sr_frames _ _ _ Hr mem) as (q' & E' & _ & Ho); [by eexists|].
    assert (q' = q) by (unfold PAGE_SIZE in *; lia). congruence. }
  assert (HLn : forall y, mem ∉ L y) by (intros y Hy; apply (sr_class _ _ _ Hr) in Hy as [G HG]; congruence).
  assert (Hhead : pages c <> mem).
  { destruct (sr_lists _ _ _ Hr c Hcin) as [Hp _]. intros E. rewrite E in Hp. fold z in Hp. destruct (L z) as [|x l] eqn:El.
    - cbn in Hp. unfold PAGE_SIZE in Em. lia.
    - destruct Hp as (Ex & _). apply (HLn z). rewrite El, Ex. by left. }
  destruct (linked_lookup mem (pages c) pg (spages s) Hhead) as (K1 & K2 & K3).
  assert (Hext : forall a l, plist (spages s) a l -> mem ∉ l -> plist (linked_pages mem (pages c) pg (spages s)) a l).
  { intros a l Hp Hn. eapply plist_ext; [|done]. intros x px Hx Hpx. destruct (K2 x px ltac:(congruence) Hpx) as (px' & E' & Hor).
    exists px'. split; [done|]. by destruct Hor as [->| ->]. }
  split; [done|]. split; cbn.
  - pose proof (list_fmap_insert obj_size (slab_caches s) k (SlabCache z mem)) as E. etransitivity; [exact E|].
    change (obj_size <$> slab_caches s) with (map obj_size (slab_caches s)). rewrite (sr_sizes _ _ _ Hr). by apply list_insert_id.
  - intros c' Hc'. apply list_elem_of_lookup in Hc' as [j Hj]. destruct (decide (j = k)) as [->|Hne].
    + rewrite list_lookup_insert_eq in Hj by (by eapply lookup_lt_Some). injection Hj as <-. cbn. unfold add_page. rewrite decide_True by done.
      destruct (sr_lists _ _ _ Hr c Hcin) as [Hp Hn]. fold z in Hp, Hn. split; [|by constructor].
      cbn. split; [done|]. split; [unfold PAGE_SIZE in Em; lia|]. exists pg. split; [done|]. rewrite Hnx. by apply Hext.
    + rewrite list_lookup_insert_ne in Hj by done. assert (Hin : c' ∈ slab_caches s) by (apply list_elem_of_lookup; by exists j).
      assert (obj_size c' <> z).
      { intros E. apply Hne. apply (sizes_nodup j k z); [|done]. rewrite <- (sr_sizes _ _ _ Hr). by rewrite list_lookup_fmap, Hj, <- E. }
      unfold add_page. rewrite decide_False by done. destruct (sr_lists _ _ _ Hr c' Hin) as [Hp Hn]. split; [by apply Hext|done].
  - intros y x. unfold add_page. destruct (decide (x = mem)) as [->|Hne].
    + rewrite lookup_insert_eq. destruct (decide (y = z)) as [->|Hyz].
      * split; [by eexists|]. intros _. by left.
      * split; [intros Hin; by apply HLn in Hin|]. intros [G [= E _]]. congruence.
    + rewrite lookup_insert_ne by done. rewrite <- (sr_class _ _ _ Hr). destruct (decide (y = z)) as [->|]; [|done]. rewrite elem_of_cons. naive_solver.
  - intros x y G HG. destruct (decide (x = mem)) as [->|Hne].
    + rewrite lookup_insert_eq in HG. injection HG as <- <-. split; [done|]. by exists pg.
    + rewrite lookup_insert_ne in HG by done. destruct (sr_pages _ _ _ Hr _ _ _ HG) as (Hy & px & Hpx & Rx). split; [done|].
      destruct (K2 x px Hne Hpx) as (px' & E' & Hor). exists px'. split; [done|]. eapply page_rep_ext; [done|done|].
      intros a Ha. cbn. apply Hsl. intros Hs. destruct (sr_frames _ _ _ Hr x) as (q' & Eq' & _); [by eexists|].
      apply Hne. symmetry. eapply (slot_page z y mem x a); [done|done|done|done|done|by apply Rx].
  - intros x Hx. destruct (decide (x = mem)) as [->|Hne]; [rewrite lookup_insert_eq; by eexists|]. rewrite lookup_insert_ne by done.
    apply Hr. by apply K3.
  - intros x Hx. destruct (decide (x = mem)) as [->|Hne].
    + exists q. split; [done|]. split; [done|]. apply Hown. by right.
    + rewrite lookup_insert_ne in Hx by done. destruct (sr_frames _ _ _ Hr x Hx) as (q' & E' & Hq' & Ho). exists q'. split; [done|]. split; [done|].
      apply Hown. by left.
  - done.
Qed.
(** * Allocation and release *)

(** [page] is a frame nobody owned; the owners of other frames keep them. *)
Definition fresh_frame (s s' : slab_st) (page : Z) : Prop :=
  exists q, page = q * PAGE_SIZE /\ ~ fs_owned (frames s) q /\ forall p, fs_owned (frames s) p -> fs_owned (frames s') p.

Lemma new_page_rep s L V k c :
  slab_rep s L V -> slab_caches s !! k = Some c ->
  (slab_new_page k c s = (0, s) /\ (fs_alloc (frames s)).1 = 0) \/
  exists page s' x F pg nx, slab_new_page k c s = (page, s') /\ page <> 0 /\ V !! page = None /\
    (forall y, y ∈ x :: F <-> is_slot (obj_size c) page y) /\
    slab_rep s' (add_page L (obj_size c) page) (<[page := (obj_size c, x :: F)]> V) /\
    spages s' !! page = Some pg /\ free_list pg = x /\ slot_next s' !! x = Some nx /\ chain (slot_next s') nx F /\
    fresh_frame s s' page.
Proof.
  intros Hr Hk. unfold slab_new_page. assert (Hz : obj_size c ∈ SLAB_CACHE_SIZES).
  { rewrite <- (sr_sizes _ _ _ Hr). apply list_elem_of_lookup. exists k. by rewrite list_lookup_fmap, Hk. }
  destruct (class_facts _ Hz) as (Z1 & Z2 & Z3).
  destruct (fs_alloc_spec (frames s) (sr_inv _ _ _ Hr)) as [(q & fr & E & Hq & Hno & Hi & Hown & _)|E]; [right|left; rewrite E; cbn; by destruct s].
  rewrite E. assert (Hm0 : q * PAGE_SIZE <> 0) by (unfold PAGE_SIZE; lia). rewrite (proj2 (Z.eqb_neq _ _) Hm0).
  set (mem := q * PAGE_SIZE) in *. set (z := obj_size c) in *.
  destruct (thread_slots_spec (Z.to_nat (obj_count z)) (mem + SLAB_HDR) z 0 0 (slot_next s) []) as (F & T1 & T2 & T3 & T4 & T5);
    [unfold mem, PAGE_SIZE, SLAB_HDR; lia|lia|lia|done|constructor|by intros x Hx%not_elem_of_nil|].
  destruct (thread_slots _ _ _ _ _ _) as [fl sn]. cbn in T1, T5. cbn in T3. rewrite Nat.add_0_r in T3.
  assert (Hslots : forall y, y ∈ F <-> is_slot z mem y).
  { intros y. rewrite T4. unfold is_slot. split.
    - intros [Hy%not_elem_of_nil|(j & Hj & ->)]; [done|]. exists j. split; [lia|done].
    - intros (j & Hj & ->). right. exists j. split; [lia|done]. }
  destruct F as [|x F]; [cbn in T3; lia|]. pose proof T1 as (-> & Hx & nx & Hnx & Hc).
  set (pg := SlabPage (pages c) 0 x z (obj_count z) (obj_count z)).
  destruct (new_page_link s L V k c mem q fr sn pg (x :: F) Hr Hk eq_refl Hq Hno Hi Hown eq_refl) as [HVn Hrep].
  { split; cbn [sp_obj_size total_objs free_objs free_list pg]; try done; [cbn [length] in T3 |- *; lia|]. intros y Hy. by apply Hslots. }
  { intros y Hy. fold z in Hy. apply T5. intros j Hj ->. apply Hy. exists j. split; [lia|done]. }
  eexists mem, _, x, F, pg, nx. split; [reflexivity|]. split; [done|]. split; [done|]. split; [done|]. split; [done|].
  split; [|split; [done|split; [done|split; [done|exists q; split; [done|split; [done|intros y Hy; apply Hown; by left]]]]]].
  cbn. apply linked_lookup. intros Eh.
  destruct (sr_lists _ _ _ Hr c) as [Hp _]; [apply list_elem_of_lookup; by exists k|]. rewrite Eh in Hp.
  destruct (L (obj_size c)) as [|y l] eqn:El; [cbn in Hp; done|]. destruct Hp as (Ey & _).
  assert (Hin : y ∈ L (obj_size c)) by (rewrite El; by left). apply (sr_class _ _ _ Hr) in Hin as [G HG]. congruence.
Qed.

(** What one allocation does to the abstract state: nothing when it fails; the first free object of a
    page of the class; or the first object of a fresh page, every page of the class being full. *)
Inductive alloc_view (z : Z) (V : view) : Z -> view -> Prop :=
| av_fail : (forall p F, V !! p = Some (z, F) -> F = []) -> alloc_view z V 0 V
| av_take p x F : V !! p = Some (z, x :: F) -> alloc_view z V x (<[p := (z, F)]> V)
| av_fresh p x F : V !! p = None -> p <> 0 -> (forall p' F', V !! p' = Some (z, F') -> F' = []) ->
    NoDup (x :: F) -> (forall y, y ∈ x :: F <-> is_slot z p y) -> alloc_view z V x (<[p := (z, F)]> V).

Lemma slab_alloc_refines size s L V :
  slab_rep s L V -> 0 < size <= SLAB_MAX_OBJ ->
  exists x s' L' V' z, slab_alloc size s = Some (SlabDone x s') /\ slab_rep s' L' V' /\ class_of size z /\ alloc_view z V x V' /\
  (x = 0 -> s' = s /\ (fs_alloc (frames s)).1 = 0) /\
  (frames s' = frames s /\ dom V' = dom V \/ exists page, fresh_frame s s' page /\ dom V' = {[page]} ∪ dom V).
Proof.
  intros Hr Hs. destruct (find_cache_spec size s L V Hr Hs) as (k & c & Ef & Hk & Hcl). unfold slab_alloc.
  destruct (Z.eqb_spec size 0); [lia|]. destruct (Z.ltb_spec SLAB_MAX_OBJ size); [lia|]. cbn [orb]. rewrite Ef. cbn. rewrite Hk. cbn.
  set (z := obj_size c) in *. assert (Hin : c ∈ slab_caches s) by (apply list_elem_of_lookup; by exists k).
  destruct (sr_lists _ _ _ Hr c Hin) as [Hp Hn]. pose proof (plist_length _ _ _ Hp Hn) as Hlen. fold z in Hp, Hlen.
  destruct (slab_scan_spec s L V z (S (base.size (spages s))) (pages c) (L z) Hr Hp ltac:(done) ltac:(lia))
    as [(p & x & F & pg & nx & Hpl & HV & Hpg & Hfl & Hnx & Hch & Es)|[Hfull Es]]; cbn in Es; rewrite Es; cbn.
  - exists x, (take_slot p nx pg s), L, (<[p := (z, F)]> V), z. split; [done|]. split; [by eapply take_slot_rep|].
    split; [done|]. split; [by apply av_take|]. split.
    + destruct (sr_pages _ _ _ Hr _ _ _ HV) as (Hz & pg' & Hpg' & [_ _ _ R4 _ _]). destruct R4 as (_ & Hx & _). done.
    + left. split; [done|]. apply dom_insert_lookup_L. by eexists.
  - assert (Hfull' : forall p F, V !! p = Some (z, F) -> F = []).
    { intros p F HF. assert (Hpl : p ∈ L z) by (apply (sr_class _ _ _ Hr); by exists F). rewrite (Hfull p Hpl) in HF. by injection HF. }
    destruct (new_page_rep s L V k c Hr Hk) as [[En Ea]|(page & s' & x & F & pg & nx & En & Hp0 & HVn & Hsl & Hrep & Hpg & Hfl & Hnx & Hch & Hfr)]; rewrite En.
    + exists 0, s, L, V, z. split; [done|]. split; [done|]. split; [done|]. split; [by apply av_fail|]. split; [done|by left].
    + rewrite (proj2 (Z.eqb_neq _ _) Hp0), Hpg. cbn. rewrite Hfl, Hnx. cbn. fold z in Hrep.
      exists x, (take_slot page nx pg s'), (add_page L z page), (<[page := (z, F)]> V), z. split; [done|]. split.
      { rewrite <- (insert_insert_eq V page (z, F) (z, x :: F)). eapply take_slot_rep; [exact Hrep|apply lookup_insert_eq|done|done]. }
      split; [done|].
      destruct (sr_pages _ _ _ Hrep page z (x :: F)) as (Hz & pg' & Hpg' & [_ _ _ R4 R5 _]); [apply lookup_insert_eq|].
      split; [by apply av_fresh|]. destruct R4 as (_ & Hx & _). split; [done|]. right. exists page. split; [exact Hfr|]. apply dom_insert_L.
Qed.

Lemma slab_free_refines ptr size s L V z page F :
  slab_rep s L V -> class_of size z -> 0 < size -> V !! page = Some (z, F) -> is_slot z page ptr -> ptr ∉ F ->
  exists s', slab_free ptr size s = Some s' /\ slab_rep s' L (<[page := (z, ptr :: F)]> V).
Proof.
  intros Hr (Hz & Hle & Hmin) Hpos HV Hsl Hnot. destruct (class_facts z Hz) as (Z1 & Z2 & Z3).
  destruct (sr_frames _ _ _ Hr page) as (q & Eq & Hq & _); [by eexists|]. destruct (slot_inside z page ptr Hz Hsl) as [Hi1 Hi2].
  assert (Hs : 0 < size <= SLAB_MAX_OBJ) by (unfold SLAB_MAX_OBJ; lia).
  destruct (find_cache_spec size s L V Hr Hs) as (k & c & Ef & _ & _). unfold slab_free.
  assert (Hp0 : ptr <> 0) by (unfold SLAB_HDR, PAGE_SIZE in *; lia).
  rewrite (proj2 (Z.eqb_neq _ _) Hp0). destruct (Z.eqb_spec size 0); [lia|]. destruct (Z.ltb_spec SLAB_MAX_OBJ size); [lia|]. cbn [orb].
  rewrite Ef, (slot_base z page ptr q Hz Eq Hq Hsl).
  destruct (sr_pages _ _ _ Hr _ _ _ HV) as (_ & pg & Hpg & [R1 R2 R3 R4 R5 R6]). rewrite Hpg. cbn. eexists. split; [reflexivity|].
  assert (Hnd : NoDup (ptr :: F)) by (by constructor).
  assert (Hsl' : forall x, x ∈ ptr :: F -> is_slot z page x) by (intros x [->|Hx]%elem_of_cons; [done|by apply R6]).
  pose proof (free_bound z page (ptr :: F) Hz Hnd Hsl').
  eapply (rep_update s _ L V page z F (ptr :: F) pg _ Hr HV Hpg); try done.
  - split; cbn; try done; [rewrite R3; rewrite u32_small; cbn [length] in *; lia|].
    split; [done|]. split; [done|]. exists (free_list pg). split; [apply lookup_insert_eq|]. eapply chain_ext; [|done].
    intros x Hx. apply lookup_insert_ne. congruence.
  - intros x Hx. cbn. apply lookup_insert_ne. congruence.
Qed.

(** * What a client sees *)

Lemma live_apart s L V x z y z' :
  slab_rep s L V -> live V x z -> live V y z' -> x <> y -> x + z <= y \/ y + z' <= x.
Proof.
  intros Hr (p & F & HV & Hs & _) (p' & F' & HV' & Hs' & _) Hne.
  destruct (sr_pages _ _ _ Hr _ _ _ HV) as (Hz & _), (sr_pages _ _ _ Hr _ _ _ HV') as (Hz' & _). destruct (class_facts z Hz).
  destruct (decide (p = p')) as [<-|Hp].
  - rewrite HV in HV'. injection HV' as <- <-. apply (slots_apart z p); [lia|done|done|done].
  - destruct (sr_frames _ _ _ Hr p) as (q & -> & _); [by eexists|]. destruct (sr_frames _ _ _ Hr p') as (q' & -> & _); [by eexists|].
    destruct (slot_inside _ _ _ Hz Hs), (slot_inside _ _ _ Hz' Hs'). unfold SLAB_HDR, SLAB_PAGE_SIZE, PAGE_SIZE in *. lia.
Qed.

Lemma slot_unique s L V x p F z p' F' z' :
  slab_rep s L V -> V !! p = Some (z, F) -> is_slot z p x -> V !! p' = Some (z', F') -> is_slot z' p' x -> p = p' /\ z = z' /\ F = F'.
Proof.
  intros Hr HV Hs HV' Hs'. destruct (sr_frames _ _ _ Hr p) as (q & Eq & _); [by eexists|].
  destruct (sr_frames _ _ _ Hr p') as (q' & Eq' & _); [by eexists|].
  assert (p = p') as <- by (eapply (slot_page z z' p p' x); [apply (sr_pages _ _ _ Hr _ _ _ HV)|apply (sr_pages _ _ _ Hr _ _ _ HV')|done..]).
  rewrite HV in HV'. by injection HV' as <- <-.
Qed.

Lemma alloc_live s s' L L' V z x V' :
  slab_rep s L V -> slab_rep s' L' V' -> alloc_view z V x V' -> x <> 0 ->
  live V' x z /\ (forall w, ~ live V x w) /\ (forall y w, y <> x -> live V' y w <-> live V y w).
Proof.
  intros Hr Hr' Hv Hx. destruct Hv as [Hf|p x F HV|p x F HVn Hp0 Hf Hnd Hsl]; [done| |].
  - destruct (sr_pages _ _ _ Hr _ _ _ HV) as (Hz & pg & _ & [_ _ _ _ R5 R6]). inversion R5; subst.
    assert (Hxs : is_slot z p x) by (apply R6; by left). split; [exists p, F; rewrite lookup_insert_eq; done|]. split.
    + intros w (p' & F' & HV' & Hs' & Hn'). destruct (slot_unique _ _ _ _ _ _ _ _ _ _ Hr HV Hxs HV' Hs') as (-> & -> & <-). apply Hn'. by left.
    + intros y w Hy. split; intros (p' & F' & HV' & Hs' & Hn').
      * destruct (decide (p' = p)) as [->|Hne]; [|rewrite lookup_insert_ne in HV' by done; by exists p', F'].
        rewrite lookup_insert_eq in HV'. injection HV' as <- <-. exists p, (x :: F). split; [done|]. split; [done|]. rewrite elem_of_cons. naive_solver.
      * destruct (decide (p' = p)) as [->|Hne]; [|exists p', F'; by rewrite lookup_insert_ne].
        rewrite HV in HV'. injection HV' as <- <-. exists p, F. rewrite lookup_insert_eq. split; [done|]. split; [done|]. intros Hi. apply Hn'. by right.
  - inversion Hnd; subst. assert (Hxs : is_slot z p x) by (apply Hsl; by left). split; [exists p, F; rewrite lookup_insert_eq; done|].
    assert (Hnew : forall w p' F', V !! p' = Some (w, F') -> ~ is_slot w p' x).
    { intros w p' F' HV' Hs'. assert (Hne : p' <> p) by congruence.
      destruct (slot_unique _ _ _ x p F z p' F' w Hr') as (E & _); [apply lookup_insert_eq|done|by rewrite lookup_insert_ne|done|congruence]. }
    split.
    + intros w (p' & F' & HV' & Hs' & _). by apply (Hnew w p' F').
    + intros y w Hy. split; intros (p' & F' & HV' & Hs' & Hn').
      * destruct (decide (p' = p)) as [->|Hne]; [|rewrite lookup_insert_ne in HV' by done; by exists p', F'].
        rewrite lookup_insert_eq in HV'. injection HV' as <- <-. exfalso. apply Hsl in Hs' as [->|?]%elem_of_cons; done.
      * assert (p' <> p) by congruence. exists p', F'. by rewrite lookup_insert_ne.
Qed.

Lemma free_live s L V x z p F :
  slab_rep s L V -> V !! p = Some (z, F) -> is_slot z p x -> x ∉ F ->
  (forall w, ~ live (<[p := (z, x :: F)]> V) x w) /\
  (forall y w, y <> x -> live (<[p := (z, x :: F)]> V) y w <-> live V y w).
Proof.
  intros Hr HV Hs Hn. split.
  - intros w (p' & F' & HV' & Hs' & Hn'). destruct (decide (p' = p)) as [->|Hne].
    + rewrite lookup_insert_eq in HV'. injection HV' as <- <-. apply Hn'. by left.
    + rewrite lookup_insert_ne in HV' by done. destruct (slot_unique _ _ _ _ _ _ _ _ _ _ Hr HV Hs HV' Hs') as (E & _). congruence.
  - intros y w Hy. split; intros (p' & F' & HV' & Hs' & Hn').
    + destruct (decide (p' = p)) as [->|Hne]; [|rewrite lookup_insert_ne in HV' by done; by exists p', F'].
      rewrite lookup_insert_eq in HV'. injection HV' as <- <-. exists p, F. split; [done|]. split; [done|]. intros Hi. apply Hn'. by right.
    + destruct (decide (p' = p)) as [->|Hne]; [|exists p', F'; by rewrite lookup_insert_ne].
      rewrite HV in HV'. injection HV' as <- <-. exists p, (x :: F). rewrite lookup_insert_eq. split; [done|]. split; [done|]. rewrite elem_of_cons. naive_solver.
Qed.
(** Before the first allocation. *)
Lemma slab_init_rep m fr : fs_inv fr -> slab_rep (slab_init (Slab [] ∅ m fr)) (fun _ => []) ∅.
Proof.
  intros Hi. split; cbn; try done.
  - intros c Hc. rewrite !elem_of_cons in Hc. split; [|constructor]. repeat destruct Hc as [->|Hc]; try done. by apply not_elem_of_nil in Hc.
  - intros z p. split; [by intros ?%not_elem_of_nil|]. by intros [F HF].
  - intros p [x Hx]. done.
  - intros p [x Hx]. done.
Qed.

(** C28: the slab refines a pool of disjoint objects.  From any well-formed state an allocation of up to
    1024 bytes ends without a panic: it fails, changing nothing, only when every page of the class is
    full and no frame is left, and otherwise returns an object of the smallest class that holds
    the request, that was not in use and shares no byte with one that is; exactly that object
    becomes used.  Releasing an object in use with its size makes exactly it free again. *)
Theorem slab_correct s L V :
  slab_rep s L V ->
  (forall size, 0 < size <= SLAB_MAX_OBJ ->
   exists x s' L' V' z, slab_alloc size s = Some (SlabDone x s') /\ slab_rep s' L' V' /\ class_of size z /\
   ((x = 0 /\ s' = s /\ V' = V /\ (fs_alloc (frames s)).1 = 0 /\ (forall p F, V !! p = Some (z, F) -> F = [])) \/
    (x <> 0 /\ live V' x z /\ (forall w, ~ live V x w) /\ (forall y w, y <> x -> live V' y w <-> live V y w) /\
     (forall y w, live V y w -> x + z <= y \/ y + w <= x)))) /\
  (forall x size z, live V x z -> class_of size z -> 0 < size ->
   exists s' V', slab_free x size s = Some s' /\ slab_rep s' L V' /\
   (forall w, ~ live V' x w) /\ (forall y w, y <> x -> live V' y w <-> live V y w)).
Proof.
  intros Hr. split.
  - intros size Hs. destruct (slab_alloc_refines size s L V Hr Hs) as (x & s' & L' & V' & z & E & Hr' & Hcl & Hv & H0 & _).
    exists x, s', L', V', z. split; [done|]. split; [done|]. split; [done|]. destruct (Z.eq_dec x 0) as [->|Hx].
    + left. destruct (H0 eq_refl) as [-> Ha]. split; [done|]. split; [done|]. inversion Hv as [Hf|p x F HV|p x F HVn Hp0 Hf Hnd Hsl]; subst.
      * done.
      * exfalso. destruct (sr_pages _ _ _ Hr _ _ _ HV) as (_ & pg & _ & [_ _ _ R4 _ _]). by destruct R4 as (_ & Hx & _).
      * exfalso. assert (Hs0 : is_slot z p 0) by (apply Hsl; by left). destruct Hcl as (Hz & _).
        destruct (slot_inside z p 0 Hz Hs0). destruct (sr_frames _ _ _ Hr' p) as (q & -> & Hq & _); [rewrite lookup_insert_eq; by eexists|].
        unfold SLAB_HDR, PAGE_SIZE in *. lia.
    + right. destruct (alloc_live _ _ _ _ _ _ _ _ Hr Hr' Hv Hx) as (H1 & H2 & H3). split; [done|]. split; [done|]. split; [done|]. split; [done|].
      intros y w Hy. assert (Hne : y <> x) by (intros ->; by apply (H2 w)).
      apply (live_apart _ _ _ x z y w Hr'); [done|by apply H3|congruence].
  - intros x size z (p & F & HV & Hsl & Hn) Hcl Hs. destruct (slab_free_refines x size s L V z p F Hr Hcl Hs HV Hsl Hn) as (s' & E & Hr').
    destruct (free_live s L V x z p F Hr HV Hsl Hn) as [H1 H2]. by exists s', (<[p := (z, x :: F)]> V).
Qed.
End Slab.

(** A slab on the small allocator of PageAlloc.v. *)
Definition demo_slab : slab_st (A := mem) := slab_init (Slab [] ∅ ∅ demo_mem).

Lemma slab_correct_witness :
  exists x s' L' V', slab_alloc 100 demo_slab = Some (SlabDone x s') /\ slab_rep s' L' V' /\ live V' x 128.
Proof.
  destruct (slab_correct demo_slab (fun _ => []) ∅ (slab_init_rep (FS := mem_frame_source) ∅ demo_mem demo_mem_wf)) as [Ha _].
  destruct (Ha 100 ltac:(vm_compute; split; [reflexivity|discriminate])) as (x & s' & L' & V' & z & E & Hr & Hcl & Hor).
  exists x, s', L', V'. split; [exact E|]. split; [exact Hr|].
  assert (z = 128) as ->.
  { destruct Hcl as (Hz & Hle & Hmin). specialize (Hmin 128 ltac:(by apply list_elem_of_In; right; right; left) ltac:(lia)).
    unfold SLAB_CACHE_SIZES in Hz. rewrite !elem_of_cons in Hz. repeat destruct Hz as [->|Hz]; try lia. by apply not_elem_of_nil in Hz. }
  destruct Hor as [(-> & -> & _ & Hf & _)|(_ & Hl & _)]; [|exact Hl]. exfalso. revert Hf. vm_compute. discriminate.
Defined.
