(* ===== verification/Kmalloc.v ===== *)
(** kmalloc, kfree and krealloc (src/kernel/memory.c): small blocks from the slab, the rest from the
    heap, an eight-byte header in front of each saying which.

    The headers are a map from their address to magic and size, the bytes of the blocks a memory of
    their own that only krealloc touches.  [heap] is the address of the heap's array.  [None] is a
    panic of the slab or an address without a header. *)
From Stdlib Require Import ZArith Lia.
From S2P Require Import Prelude PageAlloc Heap Phys Slab.

Definition ALLOC_MAGIC_SLAB : Z := 0x4E79584F.
Definition ALLOC_MAGIC_HEAP : Z := 0x4E795848.
(** [sizeof(alloc_hdr_t)]. *)
Definition ALLOC_HDR : Z := 8.

Section Kmalloc.
Context {A : Type} {FS : FrameSource A} (heap : Z).

Record kheap := KHeap {
  kslab : slab_st (A := A);
  kblocks : gmap Z heap_block;
  khdr : gmap Z (Z * Z);
  kbytes : Z -> Z
}.

Definition slab_part (size : Z) (k : kheap) : option (Z * slab_st) :=
  if u64 (size + ALLOC_HDR) <=? SLAB_MAX_OBJ then
    match slab_alloc (u32 (u32 size + ALLOC_HDR)) (kslab k) with
    | Some (SlabDone p s) => Some (p, s)
    | _ => None
    end
  else Some (0, kslab k).

Definition kmalloc (size : Z) (k : kheap) : option (Z * kheap) :=
  match slab_part size k with
  | None => None
  | Some (p, s) =>
      if truthy p then
        Some (p + ALLOC_HDR, KHeap s (kblocks k) (<[p := (ALLOC_MAGIC_SLAB, u32 size)]> (khdr k)) (kbytes k))
      else
        match heap_alloc heap (u64 (size + ALLOC_HDR)) (kblocks k) with
        | None => None
        | Some (p, st) =>
            if truthy p then Some (p + ALLOC_HDR, KHeap s st (<[p := (ALLOC_MAGIC_HEAP, u32 size)]> (khdr k)) (kbytes k))
            else Some (0, KHeap s st (khdr k) (kbytes k))
        end
  end.

Definition kmalloc_aligned (size align : Z) (k : kheap) : option (Z * kheap) := kmalloc size k.

Definition kfree (ptr : Z) (k : kheap) : option kheap :=
  if ptr =? 0 then Some k
  else
    let hdr := ptr - ALLOC_HDR in
    match khdr k !! hdr with
    | None => None
    | Some (magic, size) =>
        if magic =? ALLOC_MAGIC_SLAB
        then (fun s => KHeap s (kblocks k) (khdr k) (kbytes k)) <$> slab_free hdr (u32 (size + ALLOC_HDR)) (kslab k)
        else (fun st => KHeap (kslab k) st (khdr k) (kbytes k)) <$> heap_free hdr (kblocks k)
    end.

Definition krealloc (ptr size : Z) (k : kheap) : option (Z * kheap) :=
  if ptr =? 0 then kmalloc size k
  else if size =? 0 then (fun k => (0, k)) <$> kfree ptr k
  else
    match kmalloc size k with
    | None => None
    | Some (newp, k) =>
        let copied :=
          if truthy newp then
            match khdr k !! (ptr - ALLOC_HDR) with
            | None => None
            | Some (_, old_size) =>
                Some (KHeap (kslab k) (kblocks k) (khdr k) (copy (kbytes k) newp ptr (if old_size <? size then old_size else size)))
            end
          else Some k in
        match copied with
        | None => None
        | Some k => (fun k => (newp, k)) <$> kfree ptr k
        end
    end.

(** * Blocks in use *)

(** [B]: the blocks handed out and not yet returned, by address, with the size asked for. *)
Definition slab_block (V : gmap Z (Z * list Z)) (k : kheap) (p n : Z) : Prop :=
  khdr k !! (p - ALLOC_HDR) = Some (ALLOC_MAGIC_SLAB, n) /\
  exists z, live V (p - ALLOC_HDR) z /\ class_of (n + ALLOC_HDR) z.

Definition heap_used (k : kheap) (p n : Z) : Prop :=
  khdr k !! (p - ALLOC_HDR) = Some (ALLOC_MAGIC_HEAP, n) /\
  exists b, block_at heap (kblocks k) (p - ALLOC_HDR - HB_HDR) b /\ hb_used b <> 0 /\ n + ALLOC_HDR <= hb_size b.

(** The heap's array lies in frames that are taken, so no slab page is in it. *)
Record kheap_rep (k : kheap) (L : Z -> list Z) (V : gmap Z (Z * list Z)) (B : gmap Z Z) : Prop := {
  kr_slab : slab_rep (kslab k) L V;
  kr_heap : heap_wf heap (kblocks k);
  kr_block : forall p n, B !! p = Some n -> (0 < p /\ 0 <= n < 2 ^ 31) /\ (slab_block V k p n \/ heap_used k p n);
  kr_taken : forall q, heap < (q + 1) * PAGE_SIZE -> q * PAGE_SIZE < heap + HEAP_SIZE -> fs_owned (frames (kslab k)) q;
  kr_apart : forall p, is_Some (V !! p) -> p + PAGE_SIZE <= heap \/ heap + HEAP_SIZE <= p
}.

Definition kheap_ok (k : kheap) (B : gmap Z Z) : Prop := exists L V, kheap_rep k L V B.
(** Nothing is left for a request of [n] bytes: no unused block of the heap is large enough, and, if
    the request is small enough for the slab, no page of its class has room and there is no frame. *)
Definition no_room (n : Z) (k : kheap) : Prop :=
  (forall x b, block_at heap (kblocks k) x b -> hb_used b = 0 -> hb_size b < n + ALLOC_HDR) /\
  (n + ALLOC_HDR <= SLAB_MAX_OBJ -> slab_alloc (n + ALLOC_HDR) (kslab k) = Some (SlabDone 0 (kslab k)) /\ (fs_alloc (frames (kslab k))).1 = 0).

(** The array's place in the address space. *)
Context (Hheap : 0 < heap /\ heap + HEAP_SIZE < 2 ^ 64).

Lemma block_at_inside st x b : block_at heap st x b -> heap <= x /\ 0 <= hb_size b /\ x + HB_HDR + hb_size b <= heap + HEAP_SIZE.
Proof. intros (l & Hl & Hin). exact (seg_inside heap st heap l (heap_end heap) x b Hl Hin). Qed.

Lemma block_at_unique st x b b' : block_at heap st x b -> block_at heap st x b' -> b = b'.
Proof.
  intros (l & Hl & Hin) (l' & Hl' & Hin'). pose proof (seg_lookup heap _ _ _ _ _ _ Hl Hin). pose proof (seg_lookup heap _ _ _ _ _ _ Hl' Hin'). congruence.
Qed.

(** Objects of the slab are outside the array. *)
Lemma live_outside s L V x z :
  slab_rep s L V -> (forall p, is_Some (V !! p) -> p + PAGE_SIZE <= heap \/ heap + HEAP_SIZE <= p) ->
  live V x z -> 0 < z /\ (x + z <= heap \/ heap + HEAP_SIZE <= x).
Proof.
  intros Hr Ha (page & F & HV & Hs & _). destruct (sr_pages _ _ _ Hr _ _ _ HV) as (Hz & _). destruct (class_facts z Hz).
  destruct (slot_inside z page x Hz Hs). destruct (Ha page ltac:(by eexists)); unfold SLAB_PAGE_SIZE, SLAB_HDR, PAGE_SIZE in *; lia.
Qed.

(** Blocks in use, their headers included, share no byte. *)
Lemma blocks_apart k L V B p n q m :
  kheap_rep k L V B -> B !! p = Some n -> B !! q = Some m -> p <> q ->
  p + n <= q - ALLOC_HDR \/ q + m <= p - ALLOC_HDR.
Proof.
  intros [Hr Hh Hb Ht Ha] Hp Hq Hne. unfold ALLOC_HDR in *.
  assert (Hmix : forall p n q m, slab_block V k p n -> heap_used k q m -> p + n <= q - 8 \/ q + m <= p - 8).
  { intros p' n' q' m' (_ & z & Hl & (_ & Hc & _)) (_ & b & Hbl & _ & Hm). unfold ALLOC_HDR in *.
    destruct (live_outside _ _ _ _ _ Hr Ha Hl). destruct (block_at_inside _ _ _ Hbl). unfold HB_HDR in *. lia. }
  destruct (Hb p n Hp) as (Hn & [Sp|Hp']), (Hb q m Hq) as (Hm & [Sq|Hq']).
  - destruct Sp as (_ & z & Hl & (_ & Hc & _)), Sq as (_ & w & Hl' & (_ & Hc' & _)). unfold ALLOC_HDR in *.
    destruct (live_apart _ _ _ _ _ _ _ Hr Hl Hl' ltac:(lia)); lia.
  - by apply (Hmix p n q m).
  - destruct (Hmix q m p n Sq Hp'); lia.
  - destruct Hp' as (_ & b & Hbl & _ & Hs), Hq' as (_ & c & Hcl & _ & Hs'). unfold ALLOC_HDR, HB_HDR in *.
    destruct (heap_blocks_disjoint heap Hheap _ _ _ _ _ Hbl Hcl ltac:(lia)); unfold HB_HDR in *; lia.
Qed.

(** * Allocation *)

Lemma slab_step n k L V B :
  kheap_rep k L V B -> 0 <= n -> n + ALLOC_HDR <= SLAB_MAX_OBJ ->
  exists x s, slab_alloc (n + ALLOC_HDR) (kslab k) = Some (SlabDone x s) /\
  (x = 0 /\ s = kslab k /\ (fs_alloc (frames (kslab k))).1 = 0 \/
   x <> 0 /\ 0 < x + ALLOC_HDR /\ B !! (x + ALLOC_HDR) = None /\
   exists L' V', kheap_rep (KHeap s (kblocks k) (<[x := (ALLOC_MAGIC_SLAB, n)]> (khdr k)) (kbytes k)) L' V' (<[x + ALLOC_HDR := n]> B)).
Proof.
  intros [Hr Hh Hb Ht Ha] Hn Hs. unfold ALLOC_HDR, SLAB_MAX_OBJ in *.
  destruct (slab_alloc_refines (n + 8) (kslab k) L V Hr ltac:(unfold SLAB_MAX_OBJ; lia)) as (x & s & L' & V' & z & E & Hr' & Hcl & Hv & H0 & Hfr).
  exists x, s. split; [exact E|]. destruct (Z.eq_dec x 0) as [->|Hx]; [left; by destruct (H0 eq_refl) as [-> ?]|right].
  destruct (alloc_live _ _ _ _ _ _ _ _ Hr Hr' Hv Hx) as (Hlx & Hnl & Hoth).
  assert (Ha' : forall p, is_Some (V' !! p) -> p + PAGE_SIZE <= heap \/ heap + HEAP_SIZE <= p).
  { intros p Hp%elem_of_dom. destruct Hfr as [[_ Ed]|(page & (q & -> & Hno & _) & Ed)]; rewrite Ed in Hp; [apply Ha; by apply elem_of_dom|].
    apply elem_of_union in Hp as [->%elem_of_singleton|Hp]; [|apply Ha; by apply elem_of_dom].
    destruct (Z.le_gt_cases (q * PAGE_SIZE + PAGE_SIZE) heap); [by left|right].
    destruct (Z.le_gt_cases (heap + HEAP_SIZE) (q * PAGE_SIZE)); [done|]. exfalso. apply Hno, Ht; lia. }
  destruct (live_outside _ _ _ _ _ Hr' Ha' Hlx) as (Hz & Hout).
  assert (Hpos : 0 < x).
  { destruct Hlx as (page & F & HV & Hs' & _). destruct (sr_frames _ _ _ Hr' page) as (q & -> & Hq & _); [by eexists|].
    destruct (slot_inside z _ x (proj1 Hcl) Hs'). unfold SLAB_HDR, PAGE_SIZE in *. lia. }
  assert (HBn : B !! (x + 8) = None).
  { destruct (B !! (x + 8)) as [m|] eqn:Eb; [|done]. exfalso. destruct (Hb _ _ Eb) as (Hm & [(_ & w & Hl & _)|(_ & b & Hbl & _ & Hsz)]); unfold ALLOC_HDR in *.
    - apply (Hnl w). by replace (x + 8 - 8) with x in Hl by lia.
    - destruct (block_at_inside _ _ _ Hbl). unfold HB_HDR in *. lia. }
  split; [done|]. split; [lia|]. split; [done|]. exists L', V'. split; cbn; try done.
  - intros p m Hp. destruct (decide (p = x + 8)) as [->|Hne].
    + rewrite lookup_insert_eq in Hp. injection Hp as <-. split; [lia|]. left. unfold slab_block, ALLOC_HDR. cbn.
      replace (x + 8 - 8) with x by lia. rewrite lookup_insert_eq. split; [done|]. by exists z.
    + rewrite lookup_insert_ne in Hp by done. destruct (Hb p m Hp) as (Hm & Hor). split; [done|].
      assert (Hx' : x <> p - 8) by lia. unfold slab_block, heap_used, ALLOC_HDR in *. cbn. rewrite lookup_insert_ne by done.
      destruct Hor as [(Hh1 & w & Hl & Hc)|Hor]; [left|by right]. split; [done|]. exists w. split; [|done]. apply Hoth; [lia|done].
  - intros q Hq1 Hq2. destruct Hfr as [[Ef _]|(page & (q' & _ & _ & Hmono) & _)]; [rewrite Ef|apply Hmono]; by apply Ht.
Qed.

Lemma heap_step n k L V B :
  kheap_rep k L V B -> 0 <= n < 2 ^ 31 ->
  exists r st, heap_alloc heap (n + ALLOC_HDR) (kblocks k) = Some (r, st) /\
  (r = 0 /\ st = kblocks k /\ (forall x b, block_at heap (kblocks k) x b -> hb_used b = 0 -> hb_size b < n + ALLOC_HDR) \/
   r <> 0 /\ 0 < r + ALLOC_HDR /\ B !! (r + ALLOC_HDR) = None /\
   kheap_rep (KHeap (kslab k) st (<[r := (ALLOC_MAGIC_HEAP, n)]> (khdr k)) (kbytes k)) L V (<[r + ALLOC_HDR := n]> B)).
Proof.
  intros [Hr Hh Hb Ht Ha] Hn. unfold ALLOC_HDR in *.
  destruct (heap_alloc_ok heap Hheap (kblocks k) (n + 8) Hh ltac:(lia)) as (r & st & E & Hwf & Hor). exists r, st. split; [exact E|].
  destruct Hor as [(-> & -> & Hno)|(x & b & b' & -> & Hbl & Hu & Hbl' & Hu' & Hsz & Hlo & Hhi & Hkeep)].
  { left. split; [done|]. split; [done|]. intros x b Hbl Hu. specialize (Hno x b Hbl). unfold Heap.fits in Hno. rewrite Hu in Hno. cbn in Hno. by apply Z.leb_gt. }
  right. unfold HB_HDR in *.
  assert (HBn : B !! (x + 24 + 8) = None).
  { destruct (B !! (x + 24 + 8)) as [m|] eqn:Eb; [|done]. exfalso. destruct (Hb _ _ Eb) as (Hm & [(_ & w & Hl & (_ & Hc & _))|(_ & c & Hcl & Hcu & _)]); unfold ALLOC_HDR, HB_HDR in *.
    - destruct (live_outside _ _ _ _ _ Hr Ha Hl). destruct (block_at_inside _ _ _ Hbl'). unfold HB_HDR in *. lia.
    - replace (x + 24 + 8 - 8 - 24) with x in Hcl by lia. rewrite (block_at_unique _ _ _ _ Hcl Hbl) in Hcu. done. }
  split; [lia|]. split; [lia|]. split; [done|]. split; cbn; try done.
  intros p m Hp. destruct (decide (p = x + 24 + 8)) as [->|Hne].
  - rewrite lookup_insert_eq in Hp. injection Hp as <-. split; [lia|]. right. unfold heap_used, ALLOC_HDR, HB_HDR. cbn.
    replace (x + 24 + 8 - 8) with (x + 24) by lia. rewrite lookup_insert_eq. split; [done|]. exists b'.
    replace (x + 24 - 24) with x by lia. split; [done|]. split; [lia|lia].
  - rewrite lookup_insert_ne in Hp by done. destruct (Hb p m Hp) as (Hm & Hor). split; [done|].
    assert (Hx' : x + 24 <> p - 8) by lia. unfold slab_block, heap_used, ALLOC_HDR in *. cbn. rewrite lookup_insert_ne by done.
    destruct Hor as [Hor|(Hh1 & c & Hcl & Hcu & Hcs)]; [by left|right]. split; [done|]. exists c. split; [by apply Hkeep|done].
Qed.

Lemma kmalloc_ok n k B :
  kheap_ok k B -> 0 <= n < 2 ^ 31 ->
  exists p k', kmalloc n k = Some (p, k') /\ kbytes k' = kbytes k /\
  (p = 0 /\ kheap_ok k' B /\ k' = k /\ no_room n k \/ 0 < p /\ B !! p = None /\ kheap_ok k' (<[p := n]> B)).
Proof.
  intros (L & V & Hk) Hn.
  assert (Hfall : (n + ALLOC_HDR <= SLAB_MAX_OBJ -> slab_alloc (n + ALLOC_HDR) (kslab k) = Some (SlabDone 0 (kslab k)) /\ (fs_alloc (frames (kslab k))).1 = 0) -> exists p k', (match heap_alloc heap (u64 (n + ALLOC_HDR)) (kblocks k) with
      | None => None
      | Some (p, st) => if truthy p then Some (p + ALLOC_HDR, KHeap (kslab k) st (<[p := (ALLOC_MAGIC_HEAP, u32 n)]> (khdr k)) (kbytes k))
          else Some (0, KHeap (kslab k) st (khdr k) (kbytes k)) end) = Some (p, k') /\ kbytes k' = kbytes k /\
    (p = 0 /\ kheap_ok k' B /\ k' = k /\ no_room n k \/ 0 < p /\ B !! p = None /\ kheap_ok k' (<[p := n]> B))).
  { intros Hslab. rewrite u64_small, u32_small by (unfold ALLOC_HDR; lia). destruct (heap_step n k L V B Hk Hn) as (r & st & E & Hor). rewrite E.
    destruct Hor as [(-> & -> & Hno)|(Hr & Hp & HBn & Hk')].
    - cbn. eexists _, _. split; [done|]. split; [done|]. left. split; [done|].
      split; [exists L, V; by destruct k|]. split; [by destruct k|]. by split.
    - unfold truthy. rewrite (proj2 (Z.eqb_neq _ _) Hr). cbn. eexists _, _. split; [done|]. split; [done|]. right. split; [done|]. split; [done|]. by exists L, V. }
  unfold kmalloc, slab_part. destruct (Z.leb_spec (u64 (n + ALLOC_HDR)) SLAB_MAX_OBJ) as [Hle|Hgt]; [|apply Hfall; rewrite u64_small in Hgt by (unfold ALLOC_HDR; lia); lia].
  rewrite u64_small in Hle by (unfold ALLOC_HDR; lia).
  rewrite (u32_small n), (u32_small (n + ALLOC_HDR)) by (unfold ALLOC_HDR; lia).
  destruct (slab_step n k L V B Hk ltac:(lia) Hle) as (x & s & E & Hor). rewrite E.
  destruct Hor as [(-> & -> & Hfs)|(Hx & Hp & HBn & L' & V' & Hk')]; [rewrite u32_small in Hfall by lia; by apply Hfall|].
  unfold truthy. rewrite (proj2 (Z.eqb_neq _ _) Hx). cbn [negb]. eexists _, _. split; [done|]. split; [done|]. right. split; [done|]. split; [done|]. by exists L', V'.
Qed.

(** * Release *)

Lemma kfree_ok p n k B :
  kheap_ok k B -> B !! p = Some n -> exists k', kfree p k = Some k' /\ kbytes k' = kbytes k /\ kheap_ok k' (delete p B).
Proof.
  intros (L & V & [Hr Hh Hb Ht Ha]) Hp. unfold kfree. destruct (Hb p n Hp) as (Hn & Hsu). destruct (Z.eqb_spec p 0); [lia|].
  destruct Hsu as [Hs|Hu].
  - destruct Hs as (Hd & z & (page & F & HV & Hsl & Hnot) & Hcl). rewrite Hd, Z.eqb_refl. unfold ALLOC_HDR in *. rewrite u32_small by lia.
    destruct (slab_free_refines (p - 8) (n + 8) (kslab k) L V z page F Hr Hcl ltac:(lia) HV Hsl Hnot) as (s' & E & Hr').
    destruct (free_live _ _ _ _ _ _ _ Hr HV Hsl Hnot) as [_ Hoth]. rewrite E. cbn. eexists. split; [done|]. split; [done|]. exists L, (<[page := (z, p - 8 :: F)]> V).
    split; cbn; try done.
    + intros q m Hq. apply lookup_delete_Some in Hq as [Hne Hq]. destruct (Hb q m Hq) as (Hm & Hor). split; [done|].
      destruct Hor as [(Hd' & w & Hl & Hc)|Hor]; [left|by right]. split; [done|]. exists w. split; [|done]. apply Hoth; [unfold ALLOC_HDR; lia|done].
    + intros q Hq1 Hq2. assert (Hf : frames s' = frames (kslab k)).
      { revert E. unfold slab_free. destruct (_ || _); [by intros [= <-]|]. destruct (slab_find_cache _ _); [|by intros [= <-]].
        destruct (spages _ !! _); [|done]. by intros [= <-]. }
      rewrite Hf. by apply Ht.
    + intros q Hq. apply Ha. destruct (decide (q = page)) as [->|Hne]; [by eexists|]. by rewrite lookup_insert_ne in Hq.
  - destruct Hu as (Hd & b & Hbl & Hbu & Hsz). rewrite Hd. change (ALLOC_MAGIC_HEAP =? ALLOC_MAGIC_SLAB) with false. cbv iota.
    destruct (heap_free_ok heap Hheap (kblocks k) _ b Hbl) as (st' & E & Hwf & Hkeep & _).
    replace (p - ALLOC_HDR - HB_HDR + HB_HDR) with (p - ALLOC_HDR) in E by lia. rewrite E. cbn. eexists. split; [done|]. split; [done|]. exists L, V. split; cbn; try done.
    intros q m Hq. apply lookup_delete_Some in Hq as [Hne Hq]. destruct (Hb q m Hq) as (Hm & Hor). split; [done|].
    destruct Hor as [Hor|(Hd' & c & Hcl & Hcu & Hcs)]; [by left|right]. split; [done|]. exists c. split; [apply Hkeep; [done| |done]|done]. lia.
Qed.
Lemma krealloc_ok p n size k B :
  kheap_ok k B -> B !! p = Some n -> 0 < size < 2 ^ 31 ->
  exists r k', krealloc p size k = Some (r, k') /\
  (r = 0 /\ kheap_ok k' (delete p B) /\ no_room size k \/
   0 < r /\ B !! r = None /\ kheap_ok k' (<[r := size]> (delete p B)) /\
   forall i, 0 <= i < Z.min n size -> kbytes k' (r + i) = kbytes k (p + i)).
Proof.
  intros Hk Hp Hs. assert (Hpos : 0 < p) by (destruct Hk as (L & V & [_ _ Hb _ _]); apply (Hb p n Hp)).
  unfold krealloc. destruct (Z.eqb_spec p 0); [lia|]. destruct (Z.eqb_spec size 0); [lia|].
  destruct (kmalloc_ok size k B Hk ltac:(lia)) as (r & k1 & E & Eb & Hor). rewrite E. destruct Hor as [(-> & Hk1 & -> & Hno)|(Hr & HBr & Hk1)].
  - cbn. destruct (kfree_ok p n k B Hk1 Hp) as (k2 & E2 & _ & Hk2). rewrite E2. cbn. eexists _, _. split; [done|]. by left.
  - unfold truthy. destruct (Z.eqb_spec r 0); [lia|]. cbn [negb].
    assert (Hrp : r <> p) by congruence. assert (Hp1 : <[r := size]> B !! p = Some n) by (by rewrite lookup_insert_ne).
    assert (Hd : exists mg, khdr k1 !! (p - ALLOC_HDR) = Some (mg, n)).
    { destruct Hk1 as (L & V & [_ _ Hb _ _]). destruct (Hb p n Hp1) as (_ & [(Hd & _)|(Hd & _)]); by eexists. }
    destruct Hd as [mg Hd]. rewrite Hd. set (k2 := KHeap (kslab k1) (kblocks k1) (khdr k1) _).
    assert (Hk2 : kheap_ok k2 (<[r := size]> B)) by (destruct Hk1 as (L & V & [H1 H2 H3 H4 H5]); by exists L, V).
    destruct (kfree_ok p n k2 _ Hk2 Hp1) as (k3 & E3 & Eb3 & Hk3). rewrite E3. cbn. eexists _, _. split; [done|]. right. split; [done|]. split; [done|].
    split; [by rewrite <- delete_insert_ne|]. intros i Hi. rewrite Eb3. unfold k2. cbn [kbytes]. rewrite copy_in; [by rewrite Eb|].
    destruct (Z.ltb_spec n size); lia.
Qed.

(** C29: the kernel's allocator as its callers rely on it.  Whatever was allocated and freed before, the
    blocks in use, headers included, are pairwise disjoint.  kmalloc ends without a panic and adds
    exactly one block of the size asked for, from the slab or the heap; it fails, changing
    nothing, only if no unused block of the heap is large enough and, for a request the slab
    serves, no page of its class has room and no frame is left.  kfree of a block in use removes
    exactly it, whichever allocator it came from.  krealloc moves a block to one of the new size
    with the bytes both have room for; it fails only when there is no room for the new block, and
    then the old one has been released.  Sizes are below 2^31. *)
Theorem kmalloc_correct k B :
  kheap_ok k B ->
  (forall p n q m, B !! p = Some n -> B !! q = Some m -> p <> q -> p + n <= q - ALLOC_HDR \/ q + m <= p - ALLOC_HDR) /\
  (forall n, 0 <= n < 2 ^ 31 -> exists p k', kmalloc n k = Some (p, k') /\ kbytes k' = kbytes k /\
     (p = 0 /\ kheap_ok k' B /\ k' = k /\ no_room n k \/ 0 < p /\ B !! p = None /\ kheap_ok k' (<[p := n]> B))) /\
  (forall p n, B !! p = Some n -> exists k', kfree p k = Some k' /\ kbytes k' = kbytes k /\ kheap_ok k' (delete p B)) /\
  (forall p n size, B !! p = Some n -> 0 < size < 2 ^ 31 -> exists r k', krealloc p size k = Some (r, k') /\
     (r = 0 /\ kheap_ok k' (delete p B) /\ no_room size k \/
      0 < r /\ B !! r = None /\ kheap_ok k' (<[r := size]> (delete p B)) /\
      forall i, 0 <= i < Z.min n size -> kbytes k' (r + i) = kbytes k (p + i))).
Proof.
  intros Hk. split.
  - destruct Hk as (L & V & Hk). intros p n q m. by apply (blocks_apart k L V).
  - split; [intros n; by apply kmalloc_ok|]. split; [intros p n; by apply kfree_ok|]. intros p n size. by apply krealloc_ok.
Qed.
End Kmalloc.

(** * A machine of 32 MiB: the array from 1 MiB on, one free frame (5000) *)

Definition small_mem : mem :=
  Mem (fun i => if i =? 156 then 256 else 0) 8192 1 (fun p => if p =? 5000 then 0 else 1) (fun _ => 0) 33554432 0.

Lemma small_mem_free q : is_free small_mem q = true -> q = 5000.
Proof.
  unfold is_free. cbn. destruct (Z.eqb_spec (q / 32) 156) as [E|]; [|by rewrite Z.bits_0]. change 256 with (1 << 8).
  pose proof (Z.mod_pos_bound q 32 ltac:(lia)). rewrite Z.shiftl_spec by lia. intros Hb.
  assert (Hm : q mod 32 = 8).
  { destruct (Z.ltb_spec (q mod 32) 8); [rewrite Z.testbit_neg_r in Hb by lia; done|].
    destruct (Z.eq_dec (q mod 32) 8); [done|]. rewrite (Z.bits_above_log2 1 (q mod 32 - 8)) in Hb by (simpl; lia). done. }
  rewrite (Z.div_mod q 32) by lia. lia.
Qed.

Lemma small_mem_wf : mem_wf small_mem.
Proof.
  split.
  - by vm_compute.
  - intros i. cbn. case_cmp; lia.
  - vm_compute. reflexivity.
  - reflexivity.
  - intros p. cbn. case_cmp; lia.
  - intros p _ Hf. by rewrite (small_mem_free p Hf).
  - intros p _ Hp. by vm_compute in Hp.
Qed.

Definition fresh_kheap : kheap (A := mem) :=
  KHeap (slab_init (Slab [] ∅ ∅ small_mem)) (init_heap demo_heap_base ∅) ∅ (fun _ => 0).

Lemma fresh_kheap_ok : kheap_ok demo_heap_base fresh_kheap ∅.
Proof.
  exists (fun _ => []), ∅. split; cbn.
  - apply (slab_init_rep (FS := mem_frame_source) ∅ small_mem small_mem_wf).
  - eexists. apply init_heap_wf.
  - done.
  - unfold demo_heap_base, HEAP_SIZE, PAGE_SIZE. intros q Hq1 Hq2. split; [cbn; lia|].
    destruct (is_free small_mem q) eqn:E; [|done]. apply small_mem_free in E. lia.
  - intros p [x Hx]. done.
Qed.

Lemma kmalloc_correct_witness :
  exists p k', kmalloc demo_heap_base 100 fresh_kheap = Some (p, k') /\ p <> 0 /\ kheap_ok demo_heap_base k' (<[p := 100]> ∅).
Proof.
  destruct (kmalloc_correct demo_heap_base demo_heap_base_ok fresh_kheap ∅ fresh_kheap_ok) as (_ & Hm & _).
  destruct (Hm 100 ltac:(lia)) as (p & k' & E & _ & Hor). exists p, k'. split; [exact E|].
  destruct Hor as [(-> & _)|(Hp & _ & Hk)]; [|split; [lia|exact Hk]].
  exfalso. apply (f_equal (fun r => fst <$> r)) in E. revert E. vm_compute. discriminate.
Defined.

(** A size within eight bytes of 2^64 wraps when the header is added: the caller is given a block of
    a few bytes. *)
Lemma kmalloc_size_wraps : exists p k', kmalloc demo_heap_base (2 ^ 64 - 4) fresh_kheap = Some (p, k') /\ p <> 0.
Proof. eexists _, _. split; [vm_compute; reflexivity|discriminate]. Qed.
