(* ===== verification/Paging.v ===== *)
(** Page tables (src/kernel/paging.c) and the user-memory accessors built on the same
    walk (src/kernel/syscall.c: user_v2p, copy_from_user, copy_to_user).

    The four-level tables live in physical memory: the entry [i] of the table at
    [t] is the 64-bit word at [t + 8 * i].  The state [vm] is that memory with the
    frame allocator, the two root pointers, the TLB operations issued so far and the
    two fault counters.  [map_pml4] can end three ways (done, an early [return] when
    no frame is left, [kernel_panic] on a corrupt entry), which is the [flow] monad
    below. *)
From Stdlib Require Import ZArith Lia.
From S2P Require Import Prelude Phys PageAlloc.

Definition PAGE_PRESENT : Z := 1 << 0.
Definition PAGE_WRITABLE : Z := 1 << 1.
Definition PAGE_USER : Z := 1 << 2.
Definition PAGE_HUGE : Z := 1 << 7.
Definition PAGE_NX : Z := 1 << 63.
Definition PTE_DEMAND : Z := 1 << 9.
Definition PTE_COW : Z := 1 << 10.
Definition PTE_ADDR_MASK : Z := 0x000FFFFFFFFFF000.

Definition PROT_WRITE : Z := 2.
Definition PROT_EXEC : Z := 4.

Definition PML4_IDENTITY : Z := 0.
Definition PML4_HIGHER : Z := 511.
Definition IDENTITY_MAP_MB : Z := 64.
Definition USER_SPACE_MIN : Z := 0x1000.
Definition USER_SPACE_END : Z := 0x0000800000000000.

(** [invlpg] on this core, or a broadcast to every core. *)
Inductive tlb_op := Invlpg (va : Z) | TlbShootdown (va : Z).

Record vm := Vm {
  pm : pmem;
  pa : mem;
  kernel_pml4 : Z;
  current_pml4 : Z;
  tlb : list tlb_op;
  vm_demand_faults : Z;
  vm_cow_faults : Z
}.

Definition set_pm (v : pmem) (s : vm) : vm :=
  Vm v (pa s) (kernel_pml4 s) (current_pml4 s) (tlb s) (vm_demand_faults s) (vm_cow_faults s).
Definition set_pa (v : mem) (s : vm) : vm :=
  Vm (pm s) v (kernel_pml4 s) (current_pml4 s) (tlb s) (vm_demand_faults s) (vm_cow_faults s).
Definition set_roots (k c : Z) (s : vm) : vm :=
  Vm (pm s) (pa s) k c (tlb s) (vm_demand_faults s) (vm_cow_faults s).
Definition tlb_do (o : tlb_op) (s : vm) : vm :=
  Vm (pm s) (pa s) (kernel_pml4 s) (current_pml4 s) (tlb s ++ [o]) (vm_demand_faults s)
    (vm_cow_faults s).
Definition tlb_shootdown (va : Z) : vm -> vm := tlb_do (TlbShootdown va).
Definition invlpg (va : Z) : vm -> vm := tlb_do (Invlpg va).
Definition count_demand (s : vm) : vm :=
  Vm (pm s) (pa s) (kernel_pml4 s) (current_pml4 s) (tlb s) (u64 (vm_demand_faults s + 1))
    (vm_cow_faults s).
Definition count_cow (s : vm) : vm :=
  Vm (pm s) (pa s) (kernel_pml4 s) (current_pml4 s) (tlb s) (vm_demand_faults s)
    (u64 (vm_cow_faults s + 1)).

(** [t[i]] of a page table, and its update. *)
Definition entry (m : pmem) (t i : Z) : Z := ld64 m (t + 8 * i).
Definition set_entry (t i v : Z) (s : vm) : vm := set_pm (st64 (pm s) (t + 8 * i) v) s.
Definition zero_page (t : Z) (s : vm) : vm := set_pm (fill (pm s) t PAGE_SIZE 0) s.
Definition page_alloc (s : vm) : Z * vm :=
  let '(p, a) := alloc_page (pa s) in (p, set_pa a s).
Definition page_release (p : Z) (s : vm) : vm := set_pa (free_page p (pa s)) s.

Definition pml4_index (v : Z) : Z := (v >> 39) .& 0x1FF.
Definition pdpt_index (v : Z) : Z := (v >> 30) .& 0x1FF.
Definition pd_index (v : Z) : Z := (v >> 21) .& 0x1FF.
Definition pt_index (v : Z) : Z := (v >> 12) .& 0x1FF.

Definition present (e : Z) : bool := truthy (e .& PAGE_PRESENT).
Definition huge (e : Z) : bool := truthy (e .& PAGE_HUGE).

(** ** Early returns and panics *)

Inductive flow (A : Type) :=
| Go (a : A) (s : vm)   (* falls through *)
| Ret (s : vm)          (* the function returned here *)
| Panic.                (* kernel_panic: does not return *)
Arguments Go {A} a s.
Arguments Ret {A} s.
Arguments Panic {A}.

Definition fbind {A B} (c : flow A) (f : A -> vm -> flow B) : flow B :=
  match c with Go a s => f a s | Ret s => Ret s | Panic => Panic end.

(** What the caller of a [void] function sees. *)
Definition run_void {A} (c : flow A) : option vm :=
  match c with Go _ s => Some s | Ret s => Some s | Panic => None end.

(** [for (i = lo; i < lo + n; i++) body], with [return] inside the body. *)
Fixpoint for_flow (n : nat) (lo : Z) (body : Z -> vm -> flow unit) (s : vm) : flow unit :=
  match n with
  | O => Go tt s
  | S k => fbind (body lo s) (fun _ s' => for_flow k (lo + 1) body s')
  end.

(** ** Kernel address translation *)

Definition get_phys_addr (addr : Z) (s : vm) : Z :=
  if negb (truthy (kernel_pml4 s)) then 0
  else
    let pml4e := entry (pm s) (kernel_pml4 s) (pml4_index addr) in
    if negb (present pml4e) then 0
    else
      let pdpte := entry (pm s) (pml4e .& not64 0xFFF) (pdpt_index addr) in
      if negb (present pdpte) then 0
      else if huge pdpte then
        u64 ((pdpte .& not64 (2 ^ 30 - 1)) + (addr .& (2 ^ 30 - 1)))
      else
        let pde := entry (pm s) (pdpte .& not64 0xFFF) (pd_index addr) in
        if negb (present pde) then 0
        else if huge pde then
          u64 ((pde .& not64 (2 ^ 21 - 1)) + (addr .& (2 ^ 21 - 1)))
        else
          let pte := entry (pm s) (pde .& not64 0xFFF) (pt_index addr) in
          if negb (present pte) then 0
          else u64 ((pte .& not64 0xFFF) + (addr .& 0xFFF)).

(** ** Mapping *)

(** [None]: reserved bits set, the kernel panics. *)
Definition pt_next (e : Z) : option Z :=
  if truthy (e .& 0xFFF0000000000000) then None else Some (e .& PTE_ADDR_MASK).

Definition user_bit (flags : Z) : Z := if truthy (flags .& PAGE_USER) then PAGE_USER else 0.

(** One level of [map_pml4]: the next table, created when missing. *)
Definition map_level (t i flags : Z) (s : vm) : flow Z :=
  let e := entry (pm s) t i in
  if negb (present e) then
    let '(nt, s1) := page_alloc s in
    if negb (truthy nt) then Ret s1
    else Go nt (set_entry t i (nt .| PAGE_PRESENT .| PAGE_WRITABLE .| user_bit flags)
                  (zero_page nt s1))
  else match pt_next e with Some t' => Go t' s | None => Panic end.

Definition map_leaf (pt phys virt flags : Z) (s : vm) : vm :=
  let old := entry (pm s) pt (pt_index virt) in
  let s' := set_entry pt (pt_index virt)
              (phys .| PAGE_PRESENT .| PAGE_WRITABLE .| user_bit flags .| (flags .& PAGE_NX)) s in
  if present old then tlb_shootdown virt s' else invlpg virt s'.

Definition map_pml4 (pml4 phys virt flags : Z) (s : vm) : flow unit :=
  fbind (map_level pml4 (pml4_index virt) flags s) (fun pdpt s =>
  fbind (map_level pdpt (pdpt_index virt) flags s) (fun pd s =>
  fbind (map_level pd (pd_index virt) flags s) (fun pt s =>
  Go tt (map_leaf pt phys virt flags s)))).

Definition map_page (phys virt flags : Z) (s : vm) : option vm :=
  run_void (map_pml4 (kernel_pml4 s) phys virt flags s).

Definition map_page_dir (pml4 phys virt flags : Z) (s : vm) : option vm :=
  run_void (map_pml4 pml4 phys virt flags s).

Definition unmap_page (virt : Z) (s : vm) : vm :=
  if negb (truthy (kernel_pml4 s)) then s
  else
    let pml4e := entry (pm s) (kernel_pml4 s) (pml4_index virt) in
    if negb (present pml4e) then s
    else
      let pdpte := entry (pm s) (pml4e .& not64 0xFFF) (pdpt_index virt) in
      if negb (present pdpte) then s
      else
        let pde := entry (pm s) (pdpte .& not64 0xFFF) (pd_index virt) in
        if negb (present pde) then s
        else tlb_shootdown virt (set_entry (pde .& not64 0xFFF) (pt_index virt) 0 s).

(** ** Address spaces *)

Definition alloc_page_directory (s : vm) : Z * vm :=
  let '(pml4, s1) := page_alloc s in
  if negb (truthy pml4) then (0, s1)
  else
    (pml4, for_range (Z.to_nat (512 - PML4_HIGHER)) PML4_HIGHER (fun i s =>
             let e := entry (pm s) (kernel_pml4 s) i in
             if present e then set_entry pml4 i e s else s) (zero_page pml4 s1)).

Definition clone_page_directory (s : vm) : Z * vm := alloc_page_directory s.

(** The loops over the present, non-huge entries of one table: a [continue] skips
    the others. *)
Definition each_table (t : Z) (body : Z -> vm -> vm) (s : vm) : vm :=
  for_range 512 0 (fun j s =>
    let e := entry (pm s) t j in
    if negb (present e) || huge e then s else body (e .& PTE_ADDR_MASK) s) s.

Definition free_pt (pt : Z) (s : vm) : vm :=
  page_release pt (for_range 512 0 (fun l s =>
    let e := entry (pm s) pt l in
    if present e then page_release (e .& PTE_ADDR_MASK) s else s) s).

Definition free_pd (pd : Z) (s : vm) : vm := page_release pd (each_table pd free_pt s).
Definition free_pdpt (pdpt : Z) (s : vm) : vm := page_release pdpt (each_table pdpt free_pd s).

Definition free_page_directory (pml4 : Z) (s : vm) : vm :=
  if negb (truthy pml4) then s
  else
    page_release pml4 (for_range (Z.to_nat PML4_HIGHER) 0 (fun i s =>
      let e := entry (pm s) pml4 i in
      if negb (present e) then s else free_pdpt (e .& PTE_ADDR_MASK) s) s).

(** ** The leaf walker *)

(** The three upper levels of [pte_ptr]; the result is the address of the leaf
    table, [0] standing for the NULL returns. *)
Fixpoint pte_walk (idxs : list Z) (tbl : Z) (create : bool) (s : vm) : Z * vm :=
  match idxs with
  | [] => (tbl, s)
  | i :: rest =>
      let e := entry (pm s) tbl i in
      if huge e then (0, s)
      else if negb (present e) then
        if negb create then (0, s)
        else
          let '(nt, s1) := page_alloc s in
          if negb (truthy nt) then (0, s1)
          else pte_walk rest nt create
                 (set_entry tbl i (nt .| PAGE_PRESENT .| PAGE_WRITABLE .| PAGE_USER)
                    (zero_page nt s1))
      else pte_walk rest (e .& not64 0xFFF) create s
  end.

(** Address of the leaf entry of [virt], [0] = NULL. *)
Definition pte_ptr (pml4 virt : Z) (create : bool) (s : vm) : Z * vm :=
  let '(pt, s') := pte_walk [pml4_index virt; pdpt_index virt; pd_index virt] pml4 create s in
  if truthy pt then (pt + 8 * pt_index virt, s') else (0, s').

(** [*pte] and [*pte = v]. *)
Definition pte_get (pte : Z) (s : vm) : Z := ld64 (pm s) pte.
Definition pte_set (pte v : Z) (s : vm) : vm := set_pm (st64 (pm s) pte v) s.

Definition map_page_ro (pml4 phys virt : Z) (exec : bool) (s : vm) : vm :=
  let '(pte, s1) := pte_ptr pml4 virt true s in
  if negb (truthy pte) then s1
  else
    let f := PAGE_PRESENT .| PAGE_USER in
    let f := if negb exec then f .| PAGE_NX else f in
    pte_set pte ((phys .& PTE_ADDR_MASK) .| f) s1.

Definition free_range_page (pml4 va : Z) (s : vm) : vm :=
  let '(pte, s) := pte_ptr pml4 va false s in
  if truthy pte && present (pte_get pte s) then
    tlb_shootdown va (pte_set pte 0 (page_release (pte_get pte s .& PTE_ADDR_MASK) s))
  else s.

(** The flags [vm_protect_range] gives a present entry [e]. *)
Definition protect_flags (e prot : Z) : Z :=
  let f := PAGE_PRESENT .| PAGE_USER in
  let f := if truthy (prot .& PROT_WRITE) then f .| PAGE_WRITABLE else f in
  let f := if negb (truthy (prot .& PROT_EXEC)) then f .| PAGE_NX else f in
  let f := if truthy (e .& PTE_COW) then (f .& not64 PAGE_WRITABLE) .| PTE_COW else f in
  if truthy (e .& PTE_DEMAND) then f .| PTE_DEMAND else f.

Definition protect_range_page (pml4 prot va : Z) (s : vm) : vm :=
  let '(pte, s) := pte_ptr pml4 va false s in
  if truthy pte && present (pte_get pte s) then
    let e := pte_get pte s in
    tlb_shootdown va (pte_set pte ((e .& PTE_ADDR_MASK) .| protect_flags e prot) s)
  else s.

(** [for (va = start; va < end; va += PAGE_SIZE)]; the fuel is the number of pages. *)
Fixpoint each_page (fuel : nat) (va e : Z) (body : Z -> vm -> vm) (s : vm) : vm :=
  match fuel with
  | O => s
  | S n => if va <? e then each_page n (u64 (va + PAGE_SIZE)) e body (body va s) else s
  end.

Definition pages_between (start e : Z) : nat := Z.to_nat ((e - start + PAGE_SIZE - 1) / PAGE_SIZE).

Definition vm_free_range (pml4 start e : Z) (s : vm) : vm :=
  if negb (truthy pml4) then s
  else each_page (pages_between start e) start e (free_range_page pml4) s.

Definition vm_protect_range (pml4 start e prot : Z) (s : vm) : vm :=
  if negb (truthy pml4) then s
  else each_page (pages_between start e) start e (protect_range_page pml4 prot) s.

(** ** Copy-on-write clone *)

Definition virt_of (i j k l : Z) : Z := (i << 39) .| (j << 30) .| (k << 21) .| (l << 12).

(** One leaf of [clone_page_directory_cow]. *)
Definition cow_leaf (child virt pt l : Z) (s : vm) : flow unit :=
  let e := entry (pm s) pt l in
  if negb (present e) then Go tt s
  else
    let '(cpte, s1) := pte_ptr child virt true s in
    if negb (truthy cpte) then Ret (free_page_directory child s1)
    else
      let s2 :=
        if truthy (e .& PAGE_WRITABLE) then
          let cow := (e .& not64 PAGE_WRITABLE) .| PTE_COW in
          pte_set cpte cow (set_entry pt l cow s1)
        else pte_set cpte e s1 in
      Go tt (set_pa (page_incref (e .& PTE_ADDR_MASK) (pa s2)) s2).

Definition each_table_flow (t : Z) (body : Z -> Z -> vm -> flow unit) (s : vm) : flow unit :=
  for_flow 512 0 (fun j s =>
    let e := entry (pm s) t j in
    if negb (present e) || huge e then Go tt s else body j (e .& PTE_ADDR_MASK) s) s.

(** The four nested loops over the parent's user half. *)
Definition clone_loops (parent child : Z) (s : vm) : flow unit :=
  for_flow (Z.to_nat PML4_HIGHER) 0 (fun i s =>
    let e := entry (pm s) parent i in
    if negb (present e) then Go tt s
    else
      each_table_flow (e .& PTE_ADDR_MASK) (fun j pd s =>
        each_table_flow pd (fun k pt s =>
          for_flow 512 0 (fun l s => cow_leaf child (virt_of i j k l) pt l s) s) s) s) s.

(** The child's PML4, [0] when no frame was left. *)
Definition clone_page_directory_cow (parent : Z) (s : vm) : Z * vm :=
  if negb (truthy parent) then (0, s)
  else
    let '(child, s1) := alloc_page_directory s in
    if negb (truthy child) then (0, s1)
    else
      match clone_loops parent child s1 with
      | Go _ s2 => (child, s2)
      | Ret s2 => (0, s2)
      | Panic => (0, s1)
      end.

(** ** Boot *)

(** 2 MB entries of the identity map. *)
Definition identity_pages (memory_total : Z) : Z :=
  let ram_mb := (if truthy memory_total then memory_total else IDENTITY_MAP_MB << 20) >> 20 in
  let n := s32 (u64 (ram_mb + 1) / 2) in
  let n := if n <? IDENTITY_MAP_MB / 2 then IDENTITY_MAP_MB / 2 else n in
  if 512 <? n then 512 else n.

(** [None]: one of the three tables could not be allocated. *)
Definition init_paging (memory_total : Z) (s : vm) : option vm :=
  let '(pml4, s) := page_alloc s in
  if negb (truthy pml4) then None
  else
    let s := zero_page pml4 s in
    let '(pdpt, s) := page_alloc s in
    if negb (truthy pdpt) then None
    else
      let s := zero_page pdpt s in
      let '(pd, s) := page_alloc s in
      if negb (truthy pd) then None
      else
        let s := zero_page pd s in
        let s := for_range (Z.to_nat (identity_pages memory_total)) 0 (fun i s =>
                   set_entry pd i ((i * 0x200000) .| PAGE_PRESENT .| PAGE_WRITABLE .| PAGE_HUGE) s) s in
        let s := set_entry pdpt 0 (pd .| PAGE_PRESENT .| PAGE_WRITABLE) s in
        let s := set_entry pml4 PML4_IDENTITY (pdpt .| PAGE_PRESENT .| PAGE_WRITABLE) s in
        let s := set_entry pml4 PML4_HIGHER (entry (pm s) pml4 PML4_IDENTITY) s in
        Some (set_roots pml4 pml4 s).

(** ** User memory (syscall.c) *)

(** [0]: not a user mapping. *)
Definition user_v2p (user_cr3 vaddr : Z) (m : pmem) : Z :=
  if negb (truthy user_cr3) then 0
  else if (vaddr <? USER_SPACE_MIN) || (USER_SPACE_END <=? vaddr) then 0
  else
    let e := entry m (user_cr3 .& PTE_ADDR_MASK) (pml4_index vaddr) in
    if negb (e .& 5 =? 5) then 0
    else
      let e := entry m (e .& PTE_ADDR_MASK) (pdpt_index vaddr) in
      if negb (e .& 5 =? 5) then 0
      else if truthy (e .& 0x80) then (e .& 0x000FFFFFC0000000) + (vaddr .& 0x3FFFFFFF)
      else
        let e := entry m (e .& PTE_ADDR_MASK) (pd_index vaddr) in
        if negb (e .& 5 =? 5) then 0
        else if truthy (e .& 0x80) then (e .& 0x000FFFFFFFE00000) + (vaddr .& 0x1FFFFF)
        else
          let e := entry m (e .& PTE_ADDR_MASK) (pt_index vaddr) in
          if negb (e .& 5 =? 5) then 0
          else (e .& PTE_ADDR_MASK) + (vaddr .& 0xFFF).

(** Return value and the bytes read before a failure. *)
Fixpoint copy_from_user (user_cr3 usrc : Z) (len : nat) (m : pmem) : Z * list Z :=
  match len with
  | O => (0, [])
  | S n =>
      let p := user_v2p user_cr3 usrc m in
      if negb (truthy p) then (-1, [])
      else let '(r, bs) := copy_from_user user_cr3 (u64 (usrc + 1)) n m in (r, ld8 m p :: bs)
  end.

Fixpoint copy_to_user (user_cr3 udst : Z) (src : list Z) (m : pmem) : Z * pmem :=
  match src with
  | [] => (0, m)
  | c :: rest =>
      let p := user_v2p user_cr3 udst m in
      if negb (truthy p) then (-1, m)
      else copy_to_user user_cr3 (u64 (udst + 1)) rest (st8 m p c)
  end.
