(* ===== verification/PageTables.v ===== *)
(** The page-table tree (src/kernel/paging.c): the invariant of a user address space
    and what the walkers, the mapper and the range operations do to it.

    An address space is seen through [leaf]: the leaf entry of a virtual address, [0]
    where no table exists.  [pt_wf] says its tables form a tree of distinct frames the
    allocator has handed out. *)
From Stdlib Require Import ZArith Lia.
From S2P Require Import Prelude Phys PageAlloc Paging.

(** * Entries as numbers *)

Lemma lor_add a f k : 0 <= k -> 0 <= f < 2 ^ k -> (a * 2 ^ k) .| f = a * 2 ^ k + f.
Proof.
  intros Hk Hf. rewrite <- Z.shiftl_mul_pow2 by lia.
  assert (H : (a << k) .& f = 0).
  { apply Z.bits_inj'. intros j Hj. rewrite Z.land_spec, Z.bits_0, Z.shiftl_spec by lia.
    destruct (Z.ltb_spec j k).
    - by rewrite (Z.testbit_neg_r a) by lia.
    - rewrite (proj1 (Z.bounded_iff_bits_nonneg k f ltac:(lia) ltac:(lia)) ltac:(lia) j) by lia.
      by rewrite andb_false_r. }
  rewrite Z.add_nocarry_lxor by done. by rewrite Z.lxor_lor by done.
Qed.

Lemma testbit_low a f k j : 0 <= j < k -> Z.testbit (a * 2 ^ k + f) j = Z.testbit f j.
Proof.
  intros Hj. rewrite <- (Z.mod_pow2_bits_low (a * 2 ^ k + f) k j), <- (Z.mod_pow2_bits_low f k j) by lia.
  by rewrite Z.add_comm, Z_mod_plus_full.
Qed.

(** Frame number of an entry. *)
Definition pfn (e : Z) : Z := (e / 4096) mod 2 ^ 40.

Lemma addr_mask e : e .& PTE_ADDR_MASK = pfn e * 4096.
Proof.
  unfold pfn, PTE_ADDR_MASK.
  change 0x000FFFFFFFFFF000 with (Z.ones 40 << 12). change 4096 with (2 ^ 12).
  rewrite <- Z.shiftr_div_pow2, <- Z.land_ones, <- Z.shiftl_mul_pow2 by lia.
  apply Z.bits_inj'. intros j Hj. rewrite Z.land_spec, !Z.shiftl_spec by lia.
  destruct (Z.ltb_spec j 12).
  - rewrite !(Z.testbit_neg_r _ (j - 12)) by lia. by rewrite andb_false_r.
  - rewrite Z.land_spec, Z.shiftr_spec by lia. by replace (j - 12 + 12) with j by lia.
Qed.

Lemma page_mask e : 0 <= e < 2 ^ 52 -> e .& not64 0xFFF = pfn e * 4096.
Proof.
  intros H. change 0xFFF with (2 ^ 12 - 1). rewrite land_not64_pow2 by lia.
  unfold pfn. rewrite Z.mod_small; [done|]. split; [apply Z.div_pos; lia|].
  apply Z.div_lt_upper_bound; lia.
Qed.

Lemma present_bit e : present e = Z.testbit e 0.
Proof. unfold present, PAGE_PRESENT. apply truthy_land_bit. lia. Qed.

Lemma huge_bit e : huge e = Z.testbit e 7.
Proof. unfold huge, PAGE_HUGE. apply truthy_land_bit. lia. Qed.

(** A frame number with flag bits below bit 12. *)
Lemma frame_flags n f :
  0 <= n < 2 ^ 40 -> 0 <= f < 4096 ->
  (n * 4096) .| f = n * 4096 + f /\ pfn (n * 4096 + f) = n /\ 0 <= n * 4096 + f < 2 ^ 52.
Proof.
  intros Hn Hf. split; [apply (lor_add n f 12); lia|]. split; [|lia].
  unfold pfn. rewrite Z.div_add_l, Z.div_small, Z.add_0_r by lia. apply Z.mod_small. lia.
Qed.

Lemma reserved_clear e : 0 <= e < 2 ^ 52 -> e .& 0xFFF0000000000000 = 0.
Proof.
  intros H. apply Z.bits_inj'. intros j Hj. rewrite Z.land_spec, Z.bits_0.
  destruct (Z.ltb_spec j 52).
  - change 0xFFF0000000000000 with (0xFFF << 52). rewrite Z.shiftl_spec by lia.
    rewrite (Z.testbit_neg_r 0xFFF) by lia. apply andb_false_r.
  - by rewrite (proj1 (Z.bounded_iff_bits_nonneg 52 e ltac:(lia) ltac:(lia)) ltac:(lia) j) by lia.
Qed.

(** * The tree *)

Definition idx (i : Z) : Prop := 0 <= i < 512.

(** A path of table indices in the user half: the kernel mirror, entry 511 of the
    root, is not part of the tree. *)
Definition upath (p : list Z) : Prop := Forall idx p /\ head p <> Some PML4_HIGHER.

Definition step (m : pmem) (t i : Z) : option Z :=
  let e := entry m t i in
  if present e && negb (huge e) then Some (pfn e * 4096) else None.

Fixpoint walk (m : pmem) (t : Z) (p : list Z) : option Z :=
  match p with
  | [] => Some t
  | i :: r => match step m t i with Some t' => walk m t' r | None => None end
  end.

Lemma walk_snoc m t p i :
  walk m t (p ++ [i]) = match walk m t p with Some t' => step m t' i | None => None end.
Proof.
  revert t. induction p as [|j p IH]; intros t; simpl.
  - by destruct (step m t i).
  - destruct (step m t j); [apply IH|done].
Qed.

Lemma walk_app m t p q :
  walk m t (p ++ q) = match walk m t p with Some t' => walk m t' q | None => None end.
Proof.
  revert t. induction p as [|j p IH]; intros t; simpl; [done|].
  destruct (step m t j); [apply IH|done].
Qed.

(** Indices of the three upper levels, and the leaf entry. *)
Definition vpath (v : Z) : list Z := [pml4_index v; pdpt_index v; pd_index v].

Definition leaf (m : pmem) (root v : Z) : Z :=
  match walk m root (vpath v) with Some t => entry m t (pt_index v) | None => 0 end.

(** The addresses below the kernel mirror, as the walkers index them. *)
Definition user_va (v : Z) : Prop := 0 <= v < 511 * 2 ^ 39.

Definition upper_ok (e : Z) : Prop :=
  e = 0 \/ (present e = true /\ huge e = false /\ 0 <= e < 2 ^ 52).

Record pt_wf (s : vm) (root : Z) : Prop := {
  tw_inv : fs_inv (pa s);
  tw_owned : forall p t, upath p -> (length p <= 3)%nat -> walk (pm s) root p = Some t ->
    exists n, t = n * 4096 /\ 0 < n < MAX_PAGES /\ fs_owned (pa s) n;
  tw_inj : forall p q t, upath p -> upath q -> (length p <= 3)%nat -> (length q <= 3)%nat ->
    walk (pm s) root p = Some t -> walk (pm s) root q = Some t -> p = q;
  tw_upper : forall p t i, upath (p ++ [i]) -> (length p <= 2)%nat ->
    walk (pm s) root p = Some t -> upper_ok (entry (pm s) t i)
}.

(** Frame [n] holds one of the tables. *)
Definition is_table (s : vm) (root n : Z) : Prop :=
  exists p, upath p /\ (length p <= 3)%nat /\ walk (pm s) root p = Some (n * 4096).

(** [s'] is [s] with tables added to [root]: no leaf moved, no other frame touched. *)
Record grows (root : Z) (s s' : vm) : Prop := {
  g_wf : pt_wf s' root;
  g_walk : forall p t, upath p -> (length p <= 3)%nat ->
    walk (pm s) root p = Some t -> walk (pm s') root p = Some t;
  g_leaf : forall v, user_va v -> leaf (pm s') root v = leaf (pm s) root v;
  g_owned : forall n, fs_owned (pa s) n -> fs_owned (pa s') n;
  g_new : forall n, is_table s' root n -> fs_owned (pa s) n -> is_table s root n;
  g_data : forall n x, fs_owned (pa s) n -> ~ is_table s root n ->
    n * 4096 <= x < n * 4096 + 4096 -> pm s' x = pm s x;
  g_frames : forall n, fs_owned (pa s) n -> fs_frame (pa s') n = fs_frame (pa s) n;
  g_rest : kernel_pml4 s' = kernel_pml4 s /\ current_pml4 s' = current_pml4 s /\ tlb s' = tlb s /\
    vm_demand_faults s' = vm_demand_faults s /\ vm_cow_faults s' = vm_cow_faults s
}.

Lemma upath_prefix p q : upath (p ++ q) -> upath p.
Proof.
  intros [H1 H2]. apply Forall_app in H1 as [H1 _]. split; [done|].
  destruct p; [done|exact H2].
Qed.

Lemma index_range v : idx (pml4_index v) /\ idx (pdpt_index v) /\ idx (pd_index v) /\ idx (pt_index v).
Proof.
  unfold idx, pml4_index, pdpt_index, pd_index, pt_index. change 0x1FF with (Z.ones 9).
  rewrite !Z.land_ones by lia.
  repeat split; apply Z.mod_pos_bound; lia.
Qed.

Lemma vpath_upath v : user_va v -> upath (vpath v) /\ length (vpath v) = 3%nat.
Proof.
  intros Hv. destruct (index_range v) as (?&?&?&?). split; [|done]. split.
  - do 3 (constructor; [done|]). constructor.
  - simpl. intros [= E]. unfold pml4_index, PML4_HIGHER, user_va in *.
    change 0x1FF with (Z.ones 9) in E. rewrite Z.land_ones, Z.shiftr_div_pow2 in E by lia.
    rewrite Z.mod_small in E.
    + change (Z.ones 9) with 511 in E. assert (v / 2 ^ 39 < 511); [|lia]. apply Z.div_lt_upper_bound; lia.
    + split; [apply Z.div_pos; lia|apply Z.div_lt_upper_bound; lia].
Qed.

Lemma grows_refl root s : pt_wf s root -> grows root s s.
Proof. intros H. constructor; (done || tauto). Qed.

Lemma grows_trans root s1 s2 s3 : grows root s1 s2 -> grows root s2 s3 -> grows root s1 s3.
Proof.
  intros [W1 K1 L1 O1 N1 D1 F1 R1] [W2 K2 L2 O2 N2 D2 F2 R2]. constructor.
  - done.
  - intros. apply K2, K1; done.
  - intros. rewrite L2, L1; done.
  - auto.
  - intros n Hn Ho. apply N1; [|done]. apply N2; auto.
  - intros n x Ho Hn Hx. rewrite (D2 n), (D1 n); try done; [by apply O1|].
    intros Ht. apply Hn, N1; done.
  - intros n Hn. rewrite F2, F1; [done..|]. by apply O1.
  - intuition congruence.
Qed.

(** A frame as the allocator hands it out: taken, one reference, not pinned. *)
Definition fresh_frame : bool * Z * bool := (false, 1, false).

(** The frames taken on the way from [s] to [s'] are tables of [root]. *)
Definition tables_only (root : Z) (s s' : vm) : Prop :=
  forall n, fs_owned (pa s') n -> fs_owned (pa s) n \/ is_table s' root n /\ fs_frame (pa s') n = fresh_frame.

Lemma grows_table root s s' n : grows root s s' -> is_table s root n -> is_table s' root n.
Proof. intros G (p & Hp & Hl & Hw). exists p. split; [done|]. split; [done|]. by apply (g_walk _ _ _ G). Qed.

Lemma tables_only_refl root s : tables_only root s s.
Proof. intros n. by left. Qed.

Lemma tables_only_trans root s1 s2 s3 :
  grows root s2 s3 -> tables_only root s1 s2 -> tables_only root s2 s3 -> tables_only root s1 s3.
Proof.
  intros G T1 T2 n Hn. destruct (T2 n Hn) as [Hn2|]; [|by right]. destruct (T1 n Hn2) as [|[Ht Hf]]; [by left|right].
  split; [by eapply grows_table|]. by rewrite (g_frames _ _ _ G).
Qed.

(** * Adding a table *)

(** Words of two distinct frames, and distinct words of one frame, do not overlap. *)
Lemma word_apart n m i j :
  idx i -> idx j -> (n <> m \/ i <> j) ->
  n * 4096 + 8 * i + 8 <= m * 4096 + 8 * j \/ m * 4096 + 8 * j + 8 <= n * 4096 + 8 * i.
Proof. unfold idx. lia. Qed.

Lemma prefix_snoc_or {A} (a q : list A) j :
  a `prefix_of` (q ++ [j]) -> a `prefix_of` q \/ a = q ++ [j].
Proof.
  intros [r Hr]. destruct r as [|b r _] using rev_ind; [right; by rewrite app_nil_r in Hr|left].
  rewrite app_assoc in Hr. apply app_inj_tail in Hr as [-> _]. by exists r.
Qed.

Section add_table.
  Context (s s' : vm) (root : Z) (p : list Z) (t i n e : Z).
  Context (Hwf : pt_wf s root) (Hp : upath (p ++ [i])) (Hlen : (length p <= 2)%nat).
  Context (Ht : walk (pm s) root p = Some t) (He0 : entry (pm s) t i = 0).
  Context (Hn : 0 < n < MAX_PAGES) (Hfresh : ~ fs_owned (pa s) n).
  Context (Hinv : fs_inv (pa s')).
  Context (Hown : forall q, fs_owned (pa s') q <-> fs_owned (pa s) q \/ q = n).
  Context (Hfr : forall q, q <> n -> fs_frame (pa s') q = fs_frame (pa s) q).
  Context (Hpm : pm s' = st64 (fill (pm s) (n * 4096) 4096 0) (t + 8 * i) e).
  Context (Hpres : present e = true) (Hnh : huge e = false) (Her : 0 <= e < 2 ^ 52)
    (Hpfn : pfn e = n).
  Context (Hrest : kernel_pml4 s' = kernel_pml4 s /\ current_pml4 s' = current_pml4 s /\
    tlb s' = tlb s /\ vm_demand_faults s' = vm_demand_faults s /\ vm_cow_faults s' = vm_cow_faults s).

Lemma add_idx : idx i.
  Proof. destruct Hp as [H _]. apply Forall_app in H as [_ H]. by inversion H. Qed.

Lemma add_at : exists k, t = k * 4096 /\ 0 < k < MAX_PAGES /\ fs_owned (pa s) k.
  Proof. apply (tw_owned s root Hwf p); [by eapply upath_prefix|lia|done]. Qed.

  (** Entries of the tables that were there, and of the new one. *)
Lemma add_entry_old k j :
    fs_owned (pa s) k -> idx j -> (k * 4096, j) <> (t, i) ->
    entry (pm s') (k * 4096) j = entry (pm s) (k * 4096) j.
  Proof.
    intros Hk Hj Hne. destruct add_at as (kt & -> & _ & Hkt). pose proof add_idx as Hi.
    assert (k <> n) by congruence. unfold entry. rewrite Hpm.
    rewrite ld64_st64_other by (apply word_apart; [done..|]; destruct (decide (k = kt)); [right|left]; congruence).
    apply ld64_fill_other. unfold idx in Hj. lia.
  Qed.

Lemma add_entry_new j : idx j -> entry (pm s') (n * 4096) j = 0.
  Proof.
    intros Hj. destruct add_at as (kt & -> & _ & Hkt). pose proof add_idx as Hi.
    assert (kt <> n) by congruence. unfold entry. rewrite Hpm.
    rewrite ld64_st64_other by (apply word_apart; [done..|]; left; congruence).
    apply ld64_fill_zero; unfold idx in Hj; lia.
  Qed.

Lemma add_entry_at : entry (pm s') t i = e.
  Proof. unfold entry. rewrite Hpm, ld64_st64_same. apply u64_small. lia. Qed.

Lemma step_zero m a j : entry m a j = 0 -> step m a j = None.
  Proof. unfold step. intros ->. done. Qed.

Lemma add_step_new j : idx j -> step (pm s') (n * 4096) j = None.
  Proof. intros. by apply step_zero, add_entry_new. Qed.

Lemma add_step_at : step (pm s') t i = Some (n * 4096).
  Proof. unfold step. rewrite add_entry_at, Hpres, Hnh. simpl. by rewrite Hpfn. Qed.

  (** Paths through the new entry lead to the new table and no further; every other
      path leads where it led. *)
Lemma add_walk q :
    upath q -> (length q <= 3)%nat ->
    walk (pm s') root q =
      if decide ((p ++ [i]) `prefix_of` q) then
        if decide (q = p ++ [i]) then Some (n * 4096) else None
      else walk (pm s) root q.
  Proof.
    induction q as [|j q IH] using rev_ind; intros Hu Hl.
    - destruct (decide _) as [H|]; [|done].
      apply prefix_nil_inv in H. by destruct p.
    - rewrite length_app in Hl; simpl in Hl. rewrite !walk_snoc.
      assert (Hq : upath q) by (by eapply upath_prefix). rewrite IH by (done || lia).
      assert (Hj : idx j) by (destruct Hu as [H _]; apply Forall_app in H as [_ H]; by inversion H).
      destruct (decide ((p ++ [i]) `prefix_of` q)) as [Hpre|Hpre];
        destruct (decide ((p ++ [i]) `prefix_of` (q ++ [j]))) as [Hpre'|Hpre'].
      + destruct (decide (q ++ [j] = p ++ [i])) as [E|E].
        * apply prefix_length in Hpre. apply (f_equal length) in E.
          rewrite !length_app in *. simpl in *. lia.
        * destruct (decide _); [by apply add_step_new|done].
      + destruct Hpre'. by apply prefix_app_r.
      + apply prefix_snoc_or in Hpre' as [?|E]; [done|]. rewrite (decide_True (P := _ = _)) by done.
        apply app_inj_tail in E as [<- <-]. rewrite Ht. apply add_step_at.
      + destruct (walk (pm s) root q) as [t0|] eqn:Ew; [|done].
        destruct (tw_owned _ _ Hwf q t0 Hq ltac:(lia) Ew) as (k & -> & _ & Hk).
        unfold step. rewrite add_entry_old; [done..|].
        intros [= E1 ->]. apply Hpre'.
        rewrite (tw_inj s root Hwf q p t); [done|done|by eapply upath_prefix|lia|lia|by rewrite <- E1|done].
  Qed.

Lemma add_grows_wf : pt_wf s' root.
  Proof.
    assert (Hold : forall q u, upath q -> (length q <= 3)%nat -> walk (pm s') root q = Some u ->
      (q = p ++ [i] /\ u = n * 4096) \/ (~ (p ++ [i]) `prefix_of` q /\ walk (pm s) root q = Some u)).
    { intros q u Hq Hl. rewrite add_walk by done.
      destruct (decide _); [|by right]. destruct (decide _); [|done]. intros [= <-]. by left. }
    constructor.
    - done.
    - intros q u Hq Hl Hw. destruct (Hold q u Hq Hl Hw) as [[-> ->]|[_ Hw']].
      + exists n. split; [done|]. split; [done|]. apply Hown. by right.
      + destruct (tw_owned _ _ Hwf q u Hq Hl Hw') as (k & -> & Hk & Ho).
        exists k. repeat (split; [done|]). apply Hown. by left.
    - intros q1 q2 u H1 H2 L1 L2 W1 W2.
      destruct (Hold _ _ H1 L1 W1) as [[-> ->]|[_ W1']], (Hold _ _ H2 L2 W2) as [[-> E2]|[_ W2']].
      + done.
      + destruct (tw_owned _ _ Hwf q2 _ H2 L2 W2') as (k & E & _ & Ho).
        replace k with n in Ho by lia. done.
      + subst u. destruct (tw_owned _ _ Hwf q1 _ H1 L1 W1') as (k & E & _ & Ho).
        replace k with n in Ho by lia. done.
      + by apply (tw_inj _ _ Hwf q1 q2 u).
    - intros q u j Hq Hl Hw. assert (Hq' : upath q) by (by eapply upath_prefix).
      assert (Hj : idx j) by (destruct Hq as [H _]; apply Forall_app in H as [_ H]; by inversion H).
      destruct (Hold q u Hq' ltac:(lia) Hw) as [[-> ->]|[Hnp Hw']].
      + left. by apply add_entry_new.
      + destruct (tw_owned _ _ Hwf q u Hq' ltac:(lia) Hw') as (k & -> & _ & Ho).
        destruct (decide ((k * 4096, j) = (t, i))) as [[= E1 E2]|Hne].
        * rewrite E1, E2, add_entry_at. by right.
        * rewrite add_entry_old by done. by eapply (tw_upper _ _ Hwf q).
  Qed.

Lemma old_walk_none q : (p ++ [i]) `prefix_of` q -> walk (pm s) root q = None.
  Proof.
    intros [r ->]. induction r as [|j r IH] using rev_ind.
    - rewrite app_nil_r, walk_snoc, Ht. by apply step_zero.
    - by rewrite app_assoc, walk_snoc, IH.
  Qed.

Lemma add_leaf v : user_va v -> leaf (pm s') root v = leaf (pm s) root v.
  Proof.
    intros Hv. destruct (vpath_upath v Hv) as [Hu Hl3]. unfold leaf. rewrite add_walk by (done || lia).
    destruct (index_range v) as (_ & _ & _ & Hj).
    destruct (decide _) as [Hpre|Hpre].
    - rewrite (old_walk_none _ Hpre). destruct (decide _); [|done]. by apply add_entry_new.
    - destruct (walk (pm s) root (vpath v)) as [u|] eqn:Ew; [|done].
      destruct (tw_owned _ _ Hwf _ _ Hu ltac:(lia) Ew) as (k & -> & _ & Ho).
      apply add_entry_old; [done..|]. intros [= E1 _].
      assert (E : vpath v = p); [|apply (f_equal length) in E; lia].
      eapply (tw_inj _ _ Hwf); [done|by eapply upath_prefix|lia|lia|done|by rewrite E1].
  Qed.

Lemma add_grows : grows root s s'.
  Proof.
    constructor.
    - apply add_grows_wf.
    - intros q u Hq Hl Hw. rewrite add_walk by done. destruct (decide _) as [Hpre|]; [|done].
      by rewrite old_walk_none in Hw.
    - apply add_leaf.
    - intros k Hk. apply Hown. by left.
    - intros k (q & Hq & Hl & Hw) Hk. rewrite add_walk in Hw by done.
      destruct (decide _); [|by exists q]. destruct (decide _); [|done].
      injection Hw as Hw. replace k with n in Hk by lia. done.
    - intros k x Hk Hnt Hx. rewrite Hpm. destruct add_at as (kt & -> & _ & Hkt).
      pose proof add_idx as Hi. unfold idx in Hi.
      assert (k <> kt). { intros ->. apply Hnt. exists p.
        split; [by eapply upath_prefix|]. split; [lia|done]. }
      assert (k <> n) by congruence.
      rewrite st64_other by lia. apply fill_other. lia.
    - intros k Hk. apply Hfr. congruence.
    - done.
  Qed.
End add_table.

(** * The walkers *)

Lemma page_alloc_cases s :
  fs_inv (pa s) ->
  (exists n a, page_alloc s = (n * 4096, set_pa a s) /\ 0 < n < MAX_PAGES /\ ~ fs_owned (pa s) n /\
     fs_inv a /\ (forall q, fs_owned a q <-> fs_owned (pa s) q \/ q = n) /\
     (forall q, q <> n -> fs_frame a q = fs_frame (pa s) q)) \/
  page_alloc s = (0, s).
Proof.
  intros H. unfold page_alloc. pose proof (fs_alloc_spec (pa s) H) as Hs.
  change (@fs_alloc mem mem_frame_source) with alloc_page in Hs. unfold PAGE_SIZE in Hs.
  destruct Hs as [(n & a & E & Hs)|E]; rewrite E.
  - left. exists n, a. by split.
  - right. by destruct s.
Qed.

Lemma page_alloc_fresh s n a :
  fs_inv (pa s) -> 0 < n -> page_alloc s = (n * 4096, set_pa a s) -> fs_frame a n = fresh_frame.
Proof.
  intros Hi Hn. unfold page_alloc. destruct (alloc_page_cases (pa s) Hi) as [(p & Hp & Hf & _ & ->)|[_ ->]].
  - intros E. apply pair_equal_spec in E as [E1 E2]. apply (f_equal pa) in E2. unfold PAGE_SIZE in E1. assert (n = p) as -> by lia.
    change (taken (pa s) p = a) in E2. subst a. cbn. unfold frame_state. rewrite is_free_taken, Z.eqb_refl, andb_false_r. cbn. rewrite fn_lookup_insert.
    destruct (truthy (page_pinned (pa s) p)) eqn:Ep; [|done]. rewrite (wf_pinned _ Hi p) in Hf; (done || lia).
  - intros E. apply pair_equal_spec in E as [E1 _]. lia.
Qed.

Lemma max_pages_val : MAX_PAGES = 131072.
Proof. reflexivity. Qed.

Lemma truthy_frame n : 0 < n -> truthy (n * 4096) = true.
Proof. intros. unfold truthy. destruct (Z.eqb_spec (n * 4096) 0); [lia|done]. Qed.

(** An upper-level entry for frame [n]: present, writable and [u] = user or not. *)
Lemma table_entry n u :
  0 < n < MAX_PAGES -> u = 0 \/ u = PAGE_USER ->
  let e := n * 4096 .| PAGE_PRESENT .| PAGE_WRITABLE .| u in
  present e = true /\ huge e = false /\ 0 <= e < 2 ^ 52 /\ pfn e = n.
Proof.
  rewrite max_pages_val. intros Hn Hu e.
  assert (He : exists f, e = n * 4096 + f /\ 0 <= f < 4096 /\ Z.testbit f 0 = true /\ Z.testbit f 7 = false).
  { subst e. rewrite <- !Z.lor_assoc. destruct Hu as [-> | ->].
    - exists 3. split; [apply (proj1 (frame_flags n 3 ltac:(lia) ltac:(lia)))|done].
    - exists 7. split; [apply (proj1 (frame_flags n 7 ltac:(lia) ltac:(lia)))|done]. }
  destruct He as (f & -> & Hf & H0 & H7).
  destruct (frame_flags n f) as (_ & Hp & Hr); [lia..|].
  rewrite present_bit, huge_bit. change 4096 with (2 ^ 12).
  rewrite !testbit_low by lia. done.
Qed.

(** A missing table is created: the tree grows by it. *)
Lemma new_table_grows s root p t i n a u :
  pt_wf s root -> upath (p ++ [i]) -> (length p <= 2)%nat ->
  walk (pm s) root p = Some t -> present (entry (pm s) t i) = false ->
  0 < n < MAX_PAGES -> ~ fs_owned (pa s) n -> fs_inv a ->
  (forall q, fs_owned a q <-> fs_owned (pa s) q \/ q = n) ->
  (forall q, q <> n -> fs_frame a q = fs_frame (pa s) q) -> u = 0 \/ u = PAGE_USER ->
  let s' := set_entry t i (n * 4096 .| PAGE_PRESENT .| PAGE_WRITABLE .| u)
              (zero_page (n * 4096) (set_pa a s)) in
  grows root s s' /\ walk (pm s') root (p ++ [i]) = Some (n * 4096) /\ (fs_frame a n = fresh_frame -> tables_only root s s').
Proof.
  intros Hwf Hu Hl Hw Hnp Hn Hf Hi Ho Hfr Hfl s'.
  assert (He0 : entry (pm s) t i = 0).
  { destruct (tw_upper _ _ Hwf p t i Hu Hl Hw) as [?|(E & _)]; [done|]. congruence. }
  destruct (table_entry n u Hn Hfl) as (H1 & H2 & H3 & H4).
  assert (Hg : grows root s s').
  { apply (add_grows s s' root p t i n (n * 4096 .| PAGE_PRESENT .| PAGE_WRITABLE .| u)); done. }
  assert (Hw' : walk (pm s') root (p ++ [i]) = Some (n * 4096)).
  { rewrite (add_walk s s' root p t i n (n * 4096 .| PAGE_PRESENT .| PAGE_WRITABLE .| u));
      try done; [|rewrite length_app; simpl; lia].
    rewrite decide_True by done. by rewrite decide_True. }
  split; [done|]. split; [done|]. intros Hff k Hk. apply Ho in Hk as [Hk| ->]; [by left|right].
  split; [|done]. exists (p ++ [i]). rewrite length_app. cbn [length]. split; [done|]. split; [lia|done].
Qed.

Lemma upper_next s root p t i :
  pt_wf s root -> upath (p ++ [i]) -> (length p <= 2)%nat -> walk (pm s) root p = Some t ->
  let e := entry (pm s) t i in
  if present e then
    pt_next e = Some (pfn e * 4096) /\ huge e = false /\ e .& not64 0xFFF = pfn e * 4096 /\
    walk (pm s) root (p ++ [i]) = Some (pfn e * 4096)
  else e = 0 /\ walk (pm s) root (p ++ [i]) = None.
Proof.
  intros Hwf Hu Hl Hw. cbv zeta. rewrite walk_snoc, Hw. unfold step.
  destruct (tw_upper _ _ Hwf p t i Hu Hl Hw) as [E|(E & Eh & Er)].
  - rewrite E. done.
  - rewrite E, Eh. unfold pt_next. rewrite reserved_clear, addr_mask, page_mask by done. done.
Qed.

Lemma map_level_spec s root p t i flags :
  pt_wf s root -> upath (p ++ [i]) -> (length p <= 2)%nat -> walk (pm s) root p = Some t ->
  (exists t' s', map_level t i flags s = Go t' s' /\ grows root s s' /\
     walk (pm s') root (p ++ [i]) = Some t' /\ tables_only root s s') \/
  (map_level t i flags s = Ret s /\ page_alloc s = (0, s)).
Proof.
  intros Hwf Hu Hl Hw. pose proof (upper_next s root p t i Hwf Hu Hl Hw) as H. simpl in H.
  unfold map_level. destruct (present (entry (pm s) t i)) eqn:Ep; simpl.
  - destruct H as (-> & _ & _ & Hw'). left. eexists _, _. split; [done|]. split; [by apply grows_refl|]. split; [done|apply tables_only_refl].
  - destruct (page_alloc_cases s (tw_inv _ _ Hwf)) as [(n & a & Ea & Hn & Hf & Hi & Ho & Hfr)|Ea]; [|right; by rewrite Ea].
    rewrite Ea, truthy_frame by lia. simpl. left. eexists _, _. split; [done|].
    destruct (new_table_grows s root p t i n a (user_bit flags)) as (G & W & T); try done.
    { unfold user_bit. destruct (truthy _); [by right|by left]. }
    split; [done|]. split; [done|]. apply T. eapply page_alloc_fresh; [apply Hwf|lia|done].
Qed.

Lemma pte_walk_spec idxs s root p t :
  pt_wf s root -> upath (p ++ idxs) -> (length p + length idxs <= 3)%nat ->
  walk (pm s) root p = Some t ->
  let '(r, s') := pte_walk idxs t true s in
  grows root s s' /\ (r = 0 /\ page_alloc s' = (0, s') \/ walk (pm s') root (p ++ idxs) = Some r) /\ tables_only root s s'.
Proof.
  revert s p t. induction idxs as [|i rest IH]; intros s p t Hwf Hu Hl Hw.
  - simpl. rewrite app_nil_r. split; [by apply grows_refl|]. split; [by right|apply tables_only_refl].
  - simpl in Hl. assert (Hui : upath (p ++ [i])).
    { replace (p ++ i :: rest) with ((p ++ [i]) ++ rest) in Hu by (by rewrite <- app_assoc). by eapply upath_prefix. }
    replace (p ++ i :: rest) with ((p ++ [i]) ++ rest) in * by (by rewrite <- app_assoc).
    pose proof (upper_next s root p t i Hwf Hui ltac:(lia) Hw) as H. cbn [pte_walk]. simpl in H.
    destruct (present (entry (pm s) t i)) eqn:Ep.
    + destruct H as (_ & -> & -> & Hw'). simpl.
      apply IH; [done|done|rewrite length_app; simpl; lia|done].
    + destruct H as [E Hw']. rewrite E. simpl.
      destruct (page_alloc_cases s (tw_inv _ _ Hwf)) as [(n & a & Ea & Hn & Hf & Hi & Ho & Hfr)|Ea]; rewrite Ea.
      2: { simpl. split; [by apply grows_refl|]. split; [by left|apply tables_only_refl]. }
      rewrite truthy_frame by lia. simpl.
      destruct (new_table_grows s root p t i n a PAGE_USER) as (Hg & Hw2 & HT); try done; [lia|by right|].
      specialize (IH _ (p ++ [i]) (n * 4096) (g_wf _ _ _ Hg) Hu).
      destruct (pte_walk _ _ _ _) as [r s']. destruct IH as (Hg' & Hr & HT');
        [rewrite length_app; simpl; lia|done|]. split; [by eapply grows_trans|]. split; [done|].
      apply (tables_only_trans _ _ _ _ Hg' (HT (page_alloc_fresh s n a (tw_inv _ _ Hwf) (proj1 Hn) Ea)) HT').
Qed.

Lemma pte_walk_lookup idxs s root p t :
  pt_wf s root -> upath (p ++ idxs) -> (length p + length idxs <= 3)%nat ->
  walk (pm s) root p = Some t -> truthy t = true ->
  pte_walk idxs t false s = (default 0 (walk (pm s) root (p ++ idxs)), s).
Proof.
  revert p t. induction idxs as [|i rest IH]; intros p t Hwf Hu Hl Hw Htr.
  - simpl. by rewrite app_nil_r, Hw.
  - simpl in Hl. assert (Hui : upath (p ++ [i])).
    { replace (p ++ i :: rest) with ((p ++ [i]) ++ rest) in Hu by (by rewrite <- app_assoc). by eapply upath_prefix. }
    replace (p ++ i :: rest) with ((p ++ [i]) ++ rest) in * by (by rewrite <- app_assoc).
    pose proof (upper_next s root p t i Hwf Hui ltac:(lia) Hw) as H. cbn [pte_walk]. simpl in H.
    destruct (present (entry (pm s) t i)) eqn:Ep.
    + destruct H as (_ & -> & -> & Hw'). simpl.
      apply IH; [done|done|rewrite length_app; simpl; lia|done|].
      destruct (tw_owned _ _ Hwf _ _ Hui ltac:(rewrite length_app; simpl; lia) Hw') as (k & -> & Hk & _).
      apply truthy_frame. lia.
    + destruct H as [-> Hw']. simpl. by rewrite walk_app, Hw'.
Qed.

(** * Writing a leaf entry *)

Definition same_page (v w : Z) : Prop := vpath v = vpath w /\ pt_index v = pt_index w.
#[export] Instance same_page_dec v w : Decision (same_page v w) := _.

(** [s'] is [s] with the leaf of [v] replaced by [e] and nothing else moved. *)
Record leaf_set (root v e : Z) (s s' : vm) : Prop := {
  ls_wf : pt_wf s' root;
  ls_walk : forall p, upath p -> (length p <= 3)%nat -> walk (pm s') root p = walk (pm s) root p;
  ls_leaf : forall w, user_va w ->
    leaf (pm s') root w = if decide (same_page v w) then u64 e else leaf (pm s) root w;
  ls_data : forall n x, ~ is_table s root n -> n * 4096 <= x < n * 4096 + 4096 -> pm s' x = pm s x
}.

Section set_leaf.
  Context (s s' : vm) (root v t e : Z).
  Context (Hwf : pt_wf s root) (Hv : user_va v) (Ht : walk (pm s) root (vpath v) = Some t).
  Context (Hpm : pm s' = st64 (pm s) (t + 8 * pt_index v) e).
  Context (Hinv : fs_inv (pa s')).
  Context (Hown : forall n, is_table s root n -> fs_owned (pa s) n -> fs_owned (pa s') n).

Lemma set_leaf_at : exists k, t = k * 4096 /\ 0 < k < MAX_PAGES /\ fs_owned (pa s) k.
  Proof.
    destruct (vpath_upath v Hv). apply (tw_owned s root Hwf (vpath v)); [done|lia|done].
  Qed.

Lemma set_leaf_entry k j :
    idx j -> entry (pm s') (k * 4096) j =
      if decide (k * 4096 = t /\ j = pt_index v) then u64 e else entry (pm s) (k * 4096) j.
  Proof.
    intros Hj. destruct set_leaf_at as (kt & -> & _). destruct (index_range v) as (_ & _ & _ & Hi).
    unfold entry. rewrite Hpm. destruct (decide _) as [[E ->]|Hne].
    - rewrite E. apply ld64_st64_same.
    - apply ld64_st64_other. apply word_apart; [done..|]. destruct (decide (k = kt)) as [->|]; [right|by left].
      intros ->. by apply Hne.
  Qed.

Lemma set_leaf_walk p : upath p -> (length p <= 3)%nat -> walk (pm s') root p = walk (pm s) root p.
  Proof.
    induction p as [|j p IH] using rev_ind; [done|]. intros Hu Hl. rewrite length_app in Hl; simpl in Hl.
    assert (Hup : upath p) by (by eapply upath_prefix). destruct (vpath_upath v Hv) as [Huv Hlv].
    assert (Hj : idx j) by (destruct Hu as [H _]; apply Forall_app in H as [_ H]; by inversion H).
    rewrite !walk_snoc, IH by (done || lia). destruct (walk (pm s) root p) as [u|] eqn:Ew; [|done].
    destruct (tw_owned _ _ Hwf p u Hup ltac:(lia) Ew) as (k & -> & _ & Hk).
    unfold step. rewrite set_leaf_entry by done. destruct (decide _) as [[E _]|]; [|done].
    assert (Ep : p = vpath v) by (eapply (tw_inj _ _ Hwf); [done|done|lia|lia|done|by rewrite E]).
    rewrite Ep, Hlv in Hl. lia.
  Qed.

Lemma set_leaf_ok : leaf_set root v e s s'.
  Proof.
    destruct (vpath_upath v Hv) as [Huv Hlv]. constructor.
    - constructor; [done|..].
      + intros p u Hu Hl. rewrite set_leaf_walk by done. intros Hw.
        destruct (tw_owned _ _ Hwf p u Hu Hl Hw) as (k & -> & ? & ?). exists k.
        split; [done|]. split; [done|]. apply Hown; [by exists p|done].
      + intros p q u Hp Hq Lp Lq. rewrite !set_leaf_walk by done. by apply (tw_inj _ _ Hwf).
      + intros p u i Hp Lp. assert (Hup : upath p) by (by eapply upath_prefix).
        rewrite set_leaf_walk by (done || lia). intros Hw.
        assert (Hi : idx i) by (destruct Hp as [H _]; apply Forall_app in H as [_ H]; by inversion H).
        destruct (tw_owned _ _ Hwf p u Hup ltac:(lia) Hw) as (k & -> & _ & _).
        rewrite set_leaf_entry by done. destruct (decide _) as [[E _]|]; [|by eapply (tw_upper _ _ Hwf)].
        assert (Ep : p = vpath v) by (eapply (tw_inj _ _ Hwf); [done|done|lia|lia|done|by rewrite E]).
        rewrite Ep, Hlv in Lp. lia.
    - apply set_leaf_walk.
    - intros w Hw. destruct (vpath_upath w Hw) as [Huw Hlw]. destruct (index_range w) as (_ & _ & _ & Hi).
      unfold leaf. rewrite set_leaf_walk by (done || lia).
      destruct (walk (pm s) root (vpath w)) as [u|] eqn:Ew.
      + destruct (tw_owned _ _ Hwf _ _ Huw ltac:(lia) Ew) as (k & -> & _ & _).
        rewrite set_leaf_entry by done. destruct (decide (same_page v w)) as [[E1 E2]|Hne].
        * rewrite decide_True; [done|]. rewrite E1 in Ht. split; congruence.
        * rewrite decide_False; [done|]. intros [E1 E2]. apply Hne. split; [|done].
          eapply (tw_inj _ _ Hwf); [done|done|lia|lia|done|by rewrite <- E1].
      + rewrite decide_False; [done|]. intros [E1 _]. congruence.
    - intros n x Hn Hx. rewrite Hpm. destruct set_leaf_at as (k & -> & _).
      destruct (index_range v) as (_ & _ & _ & Hi). unfold idx in Hi. apply st64_other.
      assert (n <> k); [|lia]. intros ->. apply Hn. exists (vpath v). split; [done|]. split; [lia|done].
  Qed.
End set_leaf.

Lemma leaf_set_tables root v e s s' n :
  leaf_set root v e s s' -> is_table s' root n <-> is_table s root n.
Proof.
  intros L. unfold is_table. split; intros (p & Hu & Hl & Hw); exists p; (split; [done|]); (split; [done|]).
  - by rewrite <- (ls_walk _ _ _ _ _ L).
  - by rewrite (ls_walk _ _ _ _ _ L).
Qed.

(** For lower-half addresses the four indices are the page number. *)
Lemma same_page_iff v w : 0 <= v < 2 ^ 48 -> 0 <= w < 2 ^ 48 -> same_page v w <-> v / 4096 = w / 4096.
Proof.
  intros Hv Hw. unfold same_page, vpath, pml4_index, pdpt_index, pd_index, pt_index.
  change 0x1FF with (Z.ones 9). rewrite !Z.land_ones, !Z.shiftr_div_pow2 by lia.
  assert (Hsplit : forall x, 0 <= x < 2 ^ 48 -> x / 4096 =
    ((x / 2 ^ 39) mod 2 ^ 9) * 2 ^ 27 + ((x / 2 ^ 30) mod 2 ^ 9) * 2 ^ 18 +
    ((x / 2 ^ 21) mod 2 ^ 9) * 2 ^ 9 + (x / 2 ^ 12) mod 2 ^ 9).
  { intros x Hx. Z.to_euclidean_division_equations. lia. }
  split.
  - intros [[= E1 E2 E3] E4]. rewrite (Hsplit v), (Hsplit w) by done. congruence.
  - intros E. assert (Hd : forall k x, 12 <= k -> x / 2 ^ k = x / 4096 / 2 ^ (k - 12)).
    { intros k x Hk. rewrite Z.div_div by lia. f_equal. change 4096 with (2 ^ 12).
      rewrite <- Z.pow_add_r by lia. f_equal. lia. }
    rewrite !(Hd _ v), !(Hd _ w), E by lia. done.
Qed.

(** * Mapping a page *)

(** The leaf [map_pml4] writes for frame [n]. *)
Definition mapped_leaf (n flags : Z) : Z :=
  n * 4096 .| PAGE_PRESENT .| PAGE_WRITABLE .| user_bit flags .| (flags .& PAGE_NX).

(** The three levels of [map_pml4] reach the leaf table of [v], creating what is missing. *)
Lemma map_walk_spec s root n v flags :
  pt_wf s root -> user_va v ->
  (exists t s1, grows root s s1 /\ walk (pm s1) root (vpath v) = Some t /\
     map_pml4 root (n * 4096) v flags s = Go tt (map_leaf t (n * 4096) v flags s1) /\ tables_only root s s1) \/
  (exists s1, grows root s s1 /\ page_alloc s1 = (0, s1) /\
     map_pml4 root (n * 4096) v flags s = Ret s1 /\ tables_only root s s1).
Proof.
  intros Hwf Hv. destruct (vpath_upath v Hv) as [Hu _].
  assert (Hu1 : upath ([] ++ [pml4_index v])) by (by apply (upath_prefix _ [pdpt_index v; pd_index v])).
  assert (Hu2 : upath ([pml4_index v] ++ [pdpt_index v])) by (by apply (upath_prefix _ [pd_index v])).
  unfold map_pml4.
  destruct (map_level_spec s root [] root _ flags Hwf Hu1 ltac:(simpl; lia) eq_refl)
    as [(t1 & s1 & -> & G1 & W1 & T1)|[-> ?]]; simpl fbind; [|right; exists s; split; [by apply grows_refl|]; split; [done|]; split; [done|apply tables_only_refl]].
  destruct (map_level_spec s1 root [pml4_index v] t1 _ flags (g_wf _ _ _ G1) Hu2 ltac:(simpl; lia) W1)
    as [(t2 & s2 & -> & G2 & W2 & T2)|[-> ?]]; simpl fbind; [|right; by exists s1].
  assert (G12 : grows root s s2) by (by eapply grows_trans). assert (T12 : tables_only root s s2) by exact (tables_only_trans _ _ _ _ G2 T1 T2).
  destruct (map_level_spec s2 root [pml4_index v; pdpt_index v] t2 (pd_index v) flags
    (g_wf _ _ _ G2) Hu ltac:(simpl; lia) W2) as [(t3 & s3 & -> & G3 & W3 & T3)|[-> ?]]; simpl fbind; [|right; by exists s2].
  left. exists t3, s3. split; [by eapply grows_trans|]. split; [done|]. split; [done|exact (tables_only_trans _ _ _ _ G3 T12 T3)].
Qed.

Lemma map_leaf_sets s root n v flags t :
  pt_wf s root -> user_va v -> walk (pm s) root (vpath v) = Some t ->
  leaf_set root v (mapped_leaf n flags) s (map_leaf t (n * 4096) v flags s) /\
  pa (map_leaf t (n * 4096) v flags s) = pa s /\
  tlb (map_leaf t (n * 4096) v flags s) =
    tlb s ++ [if present (leaf (pm s) root v) then TlbShootdown v else Invlpg v].
Proof.
  intros Hwf Hv Hw. unfold leaf. rewrite Hw. unfold map_leaf.
  split; [|by destruct (present _)]. apply (set_leaf_ok s _ root v t); try done.
  - by destruct (present _).
  - destruct (present _); apply Hwf.
  - by destruct (present _).
Qed.

(** Mapping takes no frame but those of new tables; a frame already in use keeps its count. *)
Definition takes_tables (root : Z) (s s' : vm) : Prop :=
  (forall k, fs_owned (pa s') k <-> fs_owned (pa s) k \/ is_table s' root k) /\
  (forall k, fs_owned (pa s) k -> fs_frame (pa s') k = fs_frame (pa s) k) /\
  (forall k, fs_owned (pa s') k -> ~ fs_owned (pa s) k -> fs_frame (pa s') k = fresh_frame) /\
  (forall k, is_table s root k -> is_table s' root k).

Lemma takes_tables_intro root s s1 s' :
  grows root s s1 -> tables_only root s s1 -> pt_wf s' root -> pa s' = pa s1 -> (forall k, is_table s' root k <-> is_table s1 root k) ->
  takes_tables root s s'.
Proof.
  intros G T W Ep Et. unfold takes_tables. rewrite Ep. split_and!.
  - intros k. rewrite Et. split.
    + intros Hk. destruct (T k Hk) as [|[? _]]; [by left|by right].
    + intros [Hk|(p & Hp & Hl & Hw)]; [by apply (g_owned _ _ _ G)|]. destruct (tw_owned _ _ (g_wf _ _ _ G) p _ Hp Hl Hw) as (n & En & _ & Hn).
      by replace k with n by lia.
  - intros k Hk. by apply (g_frames _ _ _ G).
  - intros k Hk Hn. by destruct (T k Hk) as [|[_ ?]].
  - intros k Hk. apply Et. by eapply grows_table.
Qed.

Lemma map_page_dir_full s root n v flags :
  pt_wf s root -> user_va v ->
  exists s', map_page_dir root (n * 4096) v flags s = Some s' /\ pt_wf s' root /\
    takes_tables root s s' /\
    (forall k, is_table s' root k -> fs_owned (pa s) k -> is_table s root k) /\
    (forall k x, fs_owned (pa s) k -> ~ is_table s root k ->
       k * 4096 <= x < k * 4096 + 4096 -> pm s' x = pm s x) /\
    ((forall w, user_va w -> leaf (pm s') root w =
        if decide (same_page v w) then u64 (mapped_leaf n flags) else leaf (pm s) root w) /\
     tlb s' = tlb s ++ [if present (leaf (pm s) root v) then TlbShootdown v else Invlpg v] \/
     (forall w, user_va w -> leaf (pm s') root w = leaf (pm s) root w) /\
     tlb s' = tlb s /\ page_alloc s' = (0, s')).
Proof.
  intros Hwf Hv. unfold map_page_dir.
  destruct (map_walk_spec s root n v flags Hwf Hv) as [(t & s1 & G & W & -> & T)|(s1 & G & Ha & -> & T)]; simpl run_void.
  - destruct (map_leaf_sets s1 root n v flags t (g_wf _ _ _ G) Hv W) as (L & Epa & Etlb).
    destruct (g_rest _ _ _ G) as (_ & _ & Et & _). eexists. split; [done|]. split; [apply L|].
    split; [apply (takes_tables_intro root s s1); (done || apply L || (intros k; exact (leaf_set_tables _ _ _ _ _ k L)))|]. split; [|split].
    + intros k Hk. apply (leaf_set_tables _ _ _ _ _ _ L) in Hk. by apply G.
    + intros k x Hk Hnt Hx. rewrite (ls_data _ _ _ _ _ L k x), (g_data _ _ _ G k x); try done.
      intros Ht. apply Hnt. by apply (g_new _ _ _ G).
    + left. rewrite Etlb, Et, (g_leaf _ _ _ G) by done. split; [|done]. intros w Hw.
      rewrite (ls_leaf _ _ _ _ _ L) by done. by rewrite (g_leaf _ _ _ G).
  - exists s1. split; [done|]. split; [apply G|]. split; [apply (takes_tables_intro root s s1); (done || apply G)|].
    split; [apply G|]. split; [apply G|]. right. split; [apply G|]. split; [apply G|done].
Qed.

Lemma map_page_dir_spec s root n v flags :
  pt_wf s root -> user_va v ->
  exists s', map_page_dir root (n * 4096) v flags s = Some s' /\ pt_wf s' root /\
    (forall k, fs_owned (pa s) k -> fs_owned (pa s') k) /\
    (forall k, is_table s' root k -> fs_owned (pa s) k -> is_table s root k) /\
    (forall k x, fs_owned (pa s) k -> ~ is_table s root k ->
       k * 4096 <= x < k * 4096 + 4096 -> pm s' x = pm s x) /\
    ((forall w, user_va w -> leaf (pm s') root w =
        if decide (same_page v w) then u64 (mapped_leaf n flags) else leaf (pm s) root w) /\
     tlb s' = tlb s ++ [if present (leaf (pm s) root v) then TlbShootdown v else Invlpg v] \/
     (forall w, user_va w -> leaf (pm s') root w = leaf (pm s) root w) /\
     tlb s' = tlb s /\ page_alloc s' = (0, s')).
Proof.
  intros Hwf Hv. destruct (map_page_dir_full s root n v flags Hwf Hv) as (s' & H1 & H2 & (H3 & _) & H4). exists s'.
  split; [done|]. split; [done|]. split; [|done]. intros k Hk. apply H3. by left.
Qed.

(** C13: [map_page_dir] on a well-formed address space never panics.  If the frames for
    missing tables can be had, exactly the page of [v] changes, to the frame asked for
    with the flags asked for, and the translation is invalidated (on every core when
    it replaced one); otherwise it returns without mapping and no translation changed.
    Either way the tables stay well formed, no other frame's contents change, the frames
    in use afterwards are those in use before and the tables of the space, each new one
    with a single reference, and the count of every frame in use before is as it was. *)
Theorem map_page_dir_correct s root n v flags :
  pt_wf s root -> user_va v ->
  exists s', map_page_dir root (n * 4096) v flags s = Some s' /\ pt_wf s' root /\
    takes_tables root s s' /\
    (forall k x, fs_owned (pa s) k -> ~ is_table s root k ->
       k * 4096 <= x < k * 4096 + 4096 -> pm s' x = pm s x) /\
    ((forall w, user_va w -> leaf (pm s') root w =
        if decide (same_page v w) then u64 (mapped_leaf n flags) else leaf (pm s) root w) /\
     tlb s' = tlb s ++ [if present (leaf (pm s) root v) then TlbShootdown v else Invlpg v] \/
     (forall w, user_va w -> leaf (pm s') root w = leaf (pm s) root w) /\
     tlb s' = tlb s /\ page_alloc s' = (0, s')).
Proof.
  intros Hwf Hv. destruct (map_page_dir_full s root n v flags Hwf Hv) as (s' & H1 & H2 & H3 & _ & H4).
  by exists s'.
Qed.

(** * [pte_ptr] *)

Lemma root_truthy s root : pt_wf s root -> truthy root = true.
Proof.
  intros Hwf. destruct (tw_owned _ _ Hwf [] root) as (k & -> & ? & _); [by split| simpl; lia|done|].
  apply truthy_frame. lia.
Qed.

Lemma pte_ptr_create_or_full s root v :
  pt_wf s root -> user_va v ->
  let '(pte, s') := pte_ptr root v true s in
  grows root s s' /\ tables_only root s s' /\
  (pte = 0 /\ page_alloc s' = (0, s') \/ exists t, walk (pm s') root (vpath v) = Some t /\ pte = t + 8 * pt_index v /\ truthy pte = true).
Proof.
  intros Hwf Hv. destruct (vpath_upath v Hv) as [Hu Hl]. unfold pte_ptr.
  pose proof (pte_walk_spec (vpath v) s root [] root Hwf Hu ltac:(simpl; lia) eq_refl) as H.
  unfold vpath at 1 in H. destruct (pte_walk _ _ _ _) as [r s']. destruct H as (G & Hr & HT). simpl app in Hr.
  destruct (truthy r) eqn:Et; [|split; [done|split; [done|left; split; [done|]]]].
  2: { destruct Hr as [[_ Hr]|Hr]; [done|]. destruct (tw_owned _ _ (g_wf _ _ _ G) _ _ Hu ltac:(lia) Hr) as (k & -> & Hk & _). by rewrite truthy_frame in Et by lia. }
  split; [done|]. split; [done|]. right. destruct Hr as [[-> _] | Hr]; [done|]. exists r. split; [done|]. split; [done|].
  destruct (tw_owned _ _ (g_wf _ _ _ G) _ _ Hu ltac:(lia) Hr) as (k & -> & Hk & _).
  destruct (index_range v) as (_ & _ & _ & Hi). unfold idx in Hi. unfold truthy.
  destruct (Z.eqb_spec (k * 4096 + 8 * pt_index v) 0); [lia|done].
Qed.

Lemma pte_ptr_create s root v :
  pt_wf s root -> user_va v ->
  let '(pte, s') := pte_ptr root v true s in
  grows root s s' /\
  (pte = 0 \/ exists t, walk (pm s') root (vpath v) = Some t /\ pte = t + 8 * pt_index v /\ truthy pte = true).
Proof.
  intros Hwf Hv. pose proof (pte_ptr_create_or_full s root v Hwf Hv) as H. destruct (pte_ptr _ _ _ _) as [pte s'].
  destruct H as (G & _ & [[H _]|H]); (split; [done|]); [by left|by right].
Qed.

Lemma pte_ptr_lookup s root v :
  pt_wf s root -> user_va v ->
  pte_ptr root v false s =
    (match walk (pm s) root (vpath v) with Some t => t + 8 * pt_index v | None => 0 end, s).
Proof.
  intros Hwf Hv. destruct (vpath_upath v Hv) as [Hu Hl]. unfold pte_ptr.
  pose proof (pte_walk_lookup (vpath v) s root [] root Hwf Hu ltac:(simpl; lia) eq_refl
    (root_truthy _ _ Hwf)) as H.
  unfold vpath at 1 in H. rewrite H. simpl app.
  destruct (walk (pm s) root (vpath v)) as [t|] eqn:Ew; simpl; [|done].
  destruct (tw_owned _ _ Hwf _ _ Hu ltac:(lia) Ew) as (k & -> & Hk & _). by rewrite truthy_frame by lia.
Qed.

(** The two ways a caller uses the pointer: read the leaf, write the leaf. *)
Lemma pte_get_leaf s root v t :
  walk (pm s) root (vpath v) = Some t -> pte_get (t + 8 * pt_index v) s = leaf (pm s) root v.
Proof. intros H. unfold leaf. by rewrite H. Qed.

Lemma pte_set_leaf s root v t e :
  pt_wf s root -> user_va v -> walk (pm s) root (vpath v) = Some t ->
  leaf_set root v e s (pte_set (t + 8 * pt_index v) e s).
Proof. intros Hwf Hv Hw. apply (set_leaf_ok s _ root v t); try done. apply Hwf. Qed.

(** * Ranges of pages *)

(** The loop visits the pages of a page-aligned range in order and stops. *)
Lemma each_page_ind (I : Z -> vm -> Prop) a b body s :
  0 <= a <= b -> b * 4096 < 2 ^ 64 ->
  I a s -> (forall n s, a <= n < b -> I n s -> I (n + 1) (body (n * 4096) s)) ->
  I b (each_page (pages_between (a * 4096) (b * 4096)) (a * 4096) (b * 4096) body s).
Proof.
  intros Hab Hb. unfold pages_between, PAGE_SIZE.
  replace ((b * 4096 - a * 4096 + 4096 - 1) / 4096) with (b - a)
    by (apply (Z.div_unique _ _ _ 4095); lia).
  remember (Z.to_nat (b - a)) as k eqn:Ek. revert a s Hab Ek.
  induction k as [|k IH]; intros a s Hab Ek H0 Hstep; cbn [each_page].
  - replace b with a by lia. done.
  - rewrite (proj2 (Z.ltb_lt _ _)) by lia. unfold PAGE_SIZE.
    rewrite u64_small by lia. replace (a * 4096 + 4096) with ((a + 1) * 4096) by lia.
    apply IH; [lia|lia|apply Hstep; (done || lia)|]. intros n s' Hn. apply Hstep. lia.
Qed.

(** Pages [a, b) of the user half. *)
Definition user_range (a b : Z) : Prop := 0 <= a <= b /\ b <= 511 * 2 ^ 27.
Definition in_pages (a b w : Z) : bool := (a <=? w / 4096) && (w / 4096 <? b).

Lemma user_page n b : 0 <= n < b -> b <= 511 * 2 ^ 27 -> user_va (n * 4096).
Proof. unfold user_va. lia. Qed.

Lemma same_page_page n w : user_va (n * 4096) -> user_va w -> same_page (n * 4096) w <-> w / 4096 = n.
Proof.
  unfold user_va. intros. rewrite same_page_iff by lia. rewrite Z.div_mul by lia. split; congruence.
Qed.

Definition protected_leaf (prot e : Z) : Z := (e .& PTE_ADDR_MASK) .| protect_flags e prot.

Lemma protect_flags_range e prot : 0 <= protect_flags e prot < 2 ^ 64.
Proof. unfold protect_flags. repeat destruct (truthy _); by vm_compute. Qed.

Lemma protected_leaf_range prot e : 0 <= e < 2 ^ 64 -> u64 (protected_leaf prot e) = protected_leaf prot e.
Proof.
  intros. apply u64_small. apply (lor_range _ _ 64); [lia| |apply protect_flags_range].
  apply land_range_l; [lia|]. unfold PTE_ADDR_MASK. lia.
Qed.

Lemma leaf_range m root v : 0 <= leaf m root v < 2 ^ 64.
Proof. unfold leaf. destruct (walk _ _ _); [apply ld64_range|lia]. Qed.

(** One page of a range: the leaf is [f]-rewritten when it is present. *)
Lemma leaf_page_step s root v (upd : Z -> Z -> vm -> vm) f :
  pt_wf s root -> user_va v ->
  (forall pte t, walk (pm s) root (vpath v) = Some t -> pte = t + 8 * pt_index v ->
     present (leaf (pm s) root v) = true -> leaf_set root v (f (leaf (pm s) root v)) s (upd pte (leaf (pm s) root v) s)) ->
  let s' := (let '(pte, s1) := pte_ptr root v false s in
             if truthy pte && present (pte_get pte s1) then upd pte (pte_get pte s1) s1 else s1) in
  if present (leaf (pm s) root v) then leaf_set root v (f (leaf (pm s) root v)) s s' else s' = s.
Proof.
  intros Hwf Hv Hupd. cbv zeta. rewrite pte_ptr_lookup by done. destruct (vpath_upath v Hv) as [Hu Hl].
  destruct (walk (pm s) root (vpath v)) as [t|] eqn:Ew.
  - rewrite (pte_get_leaf _ _ _ _ Ew).
    destruct (tw_owned _ _ Hwf _ _ Hu ltac:(lia) Ew) as (k & -> & Hk & _).
    destruct (index_range v) as (_ & _ & _ & Hi). unfold idx in Hi.
    assert (truthy (k * 4096 + 8 * pt_index v) = true) as ->.
    { unfold truthy. destruct (Z.eqb_spec (k * 4096 + 8 * pt_index v) 0); [lia|done]. }
    simpl. destruct (present (leaf (pm s) root v)) eqn:Ep; [|done]. by apply (Hupd _ (k * 4096)).
  - unfold leaf. rewrite Ew. done.
Qed.

Lemma leaf_set_tlb root v e s s' o : leaf_set root v e s s' -> leaf_set root v e s (tlb_do o s').
Proof. intros [[] ? ? ?]. by constructor. Qed.

Lemma protect_page_spec s root prot v :
  pt_wf s root -> user_va v ->
  if present (leaf (pm s) root v) then
    leaf_set root v (protected_leaf prot (leaf (pm s) root v)) s (protect_range_page root prot v s)
  else protect_range_page root prot v s = s.
Proof.
  intros Hwf Hv.
  apply (leaf_page_step s root v (fun pte e s => tlb_shootdown v
    (pte_set pte ((e .& PTE_ADDR_MASK) .| protect_flags e prot) s)) (protected_leaf prot)); try done.
  intros pte t Hw -> _. by apply leaf_set_tlb, pte_set_leaf.
Qed.

Lemma protect_page_pa root prot v s :
  pt_wf s root -> user_va v -> pa (protect_range_page root prot v s) = pa s.
Proof.
  intros Hwf Hv. unfold protect_range_page. rewrite pte_ptr_lookup by done.
  by destruct (truthy _ && _).
Qed.

(** A page-wise update of a range, given what it does to one page. *)
Lemma range_update (body : Z -> vm -> vm) (f : Z -> Z) (Q : Z -> vm -> Prop) root a b s :
  user_range a b -> pt_wf s root -> Q a s ->
  (forall n s1, a <= n < b -> pt_wf s1 root -> Q n s1 ->
     leaf (pm s1) root (n * 4096) = leaf (pm s) root (n * 4096) ->
     Q (n + 1) (body (n * 4096) s1) /\
     if present (leaf (pm s) root (n * 4096)) then
       leaf_set root (n * 4096) (f (leaf (pm s) root (n * 4096))) s1 (body (n * 4096) s1)
     else body (n * 4096) s1 = s1) ->
  let s' := each_page (pages_between (a * 4096) (b * 4096)) (a * 4096) (b * 4096) body s in
  pt_wf s' root /\ Q b s' /\
  (forall n, is_table s' root n <-> is_table s root n) /\
  (forall w, user_va w -> leaf (pm s') root w =
     if in_pages a b w && present (leaf (pm s) root w) then u64 (f (leaf (pm s) root w))
     else leaf (pm s) root w) /\
  (forall n x, ~ is_table s root n -> n * 4096 <= x < n * 4096 + 4096 -> pm s' x = pm s x).
Proof.
  intros [Hab Hb] Hwf HQ Hstep. cbv zeta.
  apply (each_page_ind (fun m s' => pt_wf s' root /\ Q m s' /\
    (forall n, is_table s' root n <-> is_table s root n) /\
    (forall w, user_va w -> leaf (pm s') root w =
       if in_pages a m w && present (leaf (pm s) root w) then u64 (f (leaf (pm s) root w))
       else leaf (pm s) root w) /\
    (forall n x, ~ is_table s root n -> n * 4096 <= x < n * 4096 + 4096 -> pm s' x = pm s x)) a b);
    [lia|lia| |].
  - split; [done|]. split; [done|]. split; [done|]. split; [|done]. intros w Hw. unfold in_pages.
    destruct (Z.leb_spec a (w / 4096)), (Z.ltb_spec (w / 4096) a); (lia || done).
  - intros n s1 Hn (W & HQ1 & T & L & D). pose proof (user_page n b ltac:(lia) Hb) as Hv.
    assert (Hl : leaf (pm s1) root (n * 4096) = leaf (pm s) root (n * 4096)).
    { rewrite L by done. unfold in_pages. rewrite Z.div_mul by lia.
      destruct (Z.ltb_spec n n); [lia|]. by rewrite andb_false_r. }
    destruct (Hstep n s1 Hn W HQ1 Hl) as [HQ2 H].
    assert (Hin : forall w, in_pages a (n + 1) w = in_pages a n w || (w / 4096 =? n)).
    { intros w. unfold in_pages. destruct (Z.leb_spec a (w / 4096)), (Z.ltb_spec (w / 4096) (n + 1)),
        (Z.ltb_spec (w / 4096) n), (Z.eqb_spec (w / 4096) n); simpl; lia || done. }
    assert (Hnot : forall w, w / 4096 = n -> in_pages a n w = false).
    { intros w Hw. unfold in_pages. destruct (Z.ltb_spec (w / 4096) n); [lia|]. apply andb_false_r. }
    destruct (present (leaf (pm s) root (n * 4096))) eqn:Ep.
    + destruct H as [W2 K2 L2 D2]. split; [done|]. split; [done|]. split; [|split].
      * intros k. rewrite <- T. unfold is_table. split; intros (p & ? & ? & Hp); exists p;
          (split; [done|]); (split; [done|]); [by rewrite <- K2|by rewrite K2].
      * intros w Hw. rewrite L2, L, Hin by done.
        destruct (decide (same_page (n * 4096) w)) as [Hs|Hs].
        -- assert (leaf (pm s) root w = leaf (pm s) root (n * 4096)) as ->.
           { unfold leaf. destruct Hs as [-> ->]. done. }
           apply same_page_page in Hs; [|done..].
           rewrite (Hnot w Hs), Ep. destruct (Z.eqb_spec (w / 4096) n); [done|lia].
        -- destruct (Z.eqb_spec (w / 4096) n) as [E|]; [|by rewrite orb_false_r].
           destruct Hs. by apply same_page_page.
      * intros k x Hk Hx. rewrite (D2 k x), (D k x); try done. by rewrite T.
    + rewrite H in *. split; [done|]. split; [done|]. split; [done|]. split; [|done]. intros w Hw.
      rewrite L, Hin by done. destruct (Z.eqb_spec (w / 4096) n) as [E|]; [|by rewrite orb_false_r].
      rewrite (Hnot w E). simpl. assert (leaf (pm s) root w = leaf (pm s) root (n * 4096)) as ->; [|by rewrite Ep].
      apply same_page_page in E; [|done..]. unfold leaf. by destruct E as [-> ->].
Qed.

Lemma protect_flags_frame e prot : protect_flags e prot .& PTE_ADDR_MASK = 0.
Proof. unfold protect_flags. repeat destruct (truthy _); reflexivity. Qed.

Lemma protected_pfn prot e : pfn (protected_leaf prot e) = pfn e.
Proof.
  assert (H : protected_leaf prot e .& PTE_ADDR_MASK = e .& PTE_ADDR_MASK).
  { unfold protected_leaf. rewrite Z.land_lor_distr_l, protect_flags_frame, Z.lor_0_r.
    by rewrite <- Z.land_assoc. }
  rewrite !addr_mask in H. lia.
Qed.

Lemma protected_bit prot e j :
  0 <= j < 12 -> Z.testbit (protected_leaf prot e) j = Z.testbit (protect_flags e prot) j.
Proof.
  intros Hj. unfold protected_leaf. rewrite Z.lor_spec, addr_mask. change 4096 with (2 ^ 12).
  rewrite <- (Z.add_0_r (pfn e * 2 ^ 12)), testbit_low, Z.bits_0 by lia. done.
Qed.

Lemma protected_cow prot e :
  truthy (e .& PTE_COW) = true ->
  truthy (protected_leaf prot e .& PAGE_WRITABLE) = false /\
  truthy (protected_leaf prot e .& PTE_COW) = true.
Proof.
  intros Hc. unfold PAGE_WRITABLE, PTE_COW. rewrite !truthy_land_bit, !protected_bit by lia.
  unfold protect_flags. rewrite Hc. repeat destruct (truthy _); done.
Qed.

(** [vm_protect_range] on a page-aligned user range rewrites the flags of exactly the
    present pages of the range, keeps the frame of each, allocates and frees nothing and
    leaves every other translation and every data frame alone; a copy-on-write page
    never becomes writable and stays copy-on-write. *)
Theorem vm_protect_range_correct s root a b prot :
  pt_wf s root -> user_range a b ->
  let s' := vm_protect_range root (a * 4096) (b * 4096) prot s in
  pt_wf s' root /\ pa s' = pa s /\
  (forall w, user_va w -> leaf (pm s') root w =
     if in_pages a b w && present (leaf (pm s) root w) then protected_leaf prot (leaf (pm s) root w)
     else leaf (pm s) root w) /\
  (forall e, pfn (protected_leaf prot e) = pfn e /\
     (truthy (e .& PTE_COW) = true ->
        truthy (protected_leaf prot e .& PAGE_WRITABLE) = false /\
        truthy (protected_leaf prot e .& PTE_COW) = true)) /\
  (forall n x, ~ is_table s root n -> n * 4096 <= x < n * 4096 + 4096 -> pm s' x = pm s x).
Proof.
  intros Hwf Hr. cbv zeta. unfold vm_protect_range. rewrite (root_truthy _ _ Hwf). simpl negb. cbv iota.
  destruct (range_update (protect_range_page root prot) (protected_leaf prot) (fun _ s' => pa s' = pa s)
    root a b s Hr Hwf eq_refl) as (W & Hpa & _ & L & D).
  { intros n s1 Hn W Hpa El. destruct Hr as [Hr1 Hr2].
    pose proof (user_page n b ltac:(lia) Hr2) as Hv. rewrite <- El.
    split; [|by apply protect_page_spec]. by rewrite protect_page_pa. }
  split; [done|]. split; [done|]. split.
  { intros w Hw. rewrite L by done. by rewrite protected_leaf_range by apply leaf_range. }
  split; [|done]. intros e. split; [apply protected_pfn|apply protected_cow].
Qed.

(** The pages of an address space are backed by distinct frames it owns, none of which
    holds a table. *)
Definition leaves_wf (s : vm) (root : Z) : Prop :=
  (forall v, user_va v -> present (leaf (pm s) root v) = true ->
     fs_owned (pa s) (pfn (leaf (pm s) root v)) /\ ~ is_table s root (pfn (leaf (pm s) root v))) /\
  (forall v w, user_va v -> user_va w ->
     present (leaf (pm s) root v) = true -> present (leaf (pm s) root w) = true ->
     pfn (leaf (pm s) root v) = pfn (leaf (pm s) root w) -> same_page v w).

Lemma table_owned s root n : pt_wf s root -> is_table s root n -> fs_owned (pa s) n.
Proof.
  intros Hwf (p & Hu & Hl & Hw). destruct (tw_owned _ _ Hwf p _ Hu Hl Hw) as (k & E & _ & Ho).
  by replace n with k by lia.
Qed.

(** Freeing one present page: the leaf is cleared and its frame loses a reference. *)
Lemma free_page_step s root v :
  pt_wf s root -> leaves_wf s root -> user_va v -> present (leaf (pm s) root v) = true ->
  let s' := free_range_page root v s in
  leaf_set root v 0 s s' /\ leaves_wf s' root /\ total_pages (pa s') = total_pages (pa s) /\
  (forall k, frame_state (pa s') k =
     if decide (k = pfn (leaf (pm s) root v)) then drop_ref (frame_state (pa s) k)
     else frame_state (pa s) k).
Proof.
  intros Hwf [Hlo Hli] Hv Hpr. cbv zeta. destruct (Hlo v Hv Hpr) as [Ho Hnt].
  set (n := pfn (leaf (pm s) root v)) in *.
  destruct (free_page_frames (pa s) n (tw_inv _ _ Hwf) Ho) as (Hinv & Htot & Hfs).
  assert (Hown : forall k, k <> n -> fs_owned (pa s) k -> fs_owned (free_page (n * PAGE_SIZE) (pa s)) k).
  { intros k Hk Hko. by apply (free_page_source (pa s) n (tw_inv _ _ Hwf) Ho). }
  assert (Hs : leaf_set root v 0 s (free_range_page root v s) /\
    pa (free_range_page root v s) = free_page (n * PAGE_SIZE) (pa s)).
  { destruct (vpath_upath v Hv) as [Hu Hl]. unfold free_range_page. rewrite pte_ptr_lookup by done.
    unfold leaf in Hpr. destruct (walk (pm s) root (vpath v)) as [t|] eqn:Ew; [|done].
    rewrite (pte_get_leaf _ _ _ _ Ew).
    destruct (tw_owned _ _ Hwf _ _ Hu ltac:(lia) Ew) as (k & -> & Hk & _).
    destruct (index_range v) as (_ & _ & _ & Hi). unfold idx in Hi.
    assert (truthy (k * 4096 + 8 * pt_index v) = true) as ->.
    { unfold truthy. destruct (Z.eqb_spec (k * 4096 + 8 * pt_index v) 0); [lia|done]. }
    assert (Hl2 : leaf (pm s) root v = entry (pm s) (k * 4096) (pt_index v)) by (unfold leaf; by rewrite Ew).
    rewrite Hl2, Hpr. simpl andb. cbv iota. rewrite addr_mask, <- Hl2. fold n.
    split; [|done]. apply leaf_set_tlb. apply (set_leaf_ok s _ root v (k * 4096)); try done.
    intros j Hj Hjo. apply Hown; [|done]. intros ->. done. }
  destruct Hs as [L Hpa]. rewrite Hpa. split; [done|]. split; [|split].
  - assert (Hkeep : forall w, user_va w -> present (leaf (pm (free_range_page root v s)) root w) = true ->
      leaf (pm (free_range_page root v s)) root w = leaf (pm s) root w /\ pfn (leaf (pm s) root w) <> n).
    { intros w Hw. rewrite (ls_leaf _ _ _ _ _ L) by done. destruct (decide (same_page v w)) as [|Hs]; [done|].
      intros Hp. split; [done|]. intros E. apply Hs. by apply Hli. }
    split.
    + intros w Hw Hp. destruct (Hkeep w Hw Hp) as [E Hne]. rewrite E in *. rewrite Hpa.
      destruct (Hlo w Hw Hp) as [? ?].
      split; [by apply Hown|]. by rewrite (leaf_set_tables _ _ _ _ _ _ L).
    + intros w1 w2 Hw1 Hw2 Hp1 Hp2. destruct (Hkeep w1 Hw1 Hp1) as [E1 _], (Hkeep w2 Hw2 Hp2) as [E2 _].
      rewrite E1, E2 in *. by apply Hli.
  - done.
  - intros k. rewrite Hfs. destruct (decide (k = n)) as [->|]; done.
Qed.

(** Progress of the loop of [vm_free_range]: pages [a, m) have lost their frames. *)
Definition freed_upto (root a : Z) (s : vm) (m : Z) (s' : vm) : Prop :=
  leaves_wf s' root /\
  (forall w, user_va w -> in_pages a m w = true -> present (leaf (pm s) root w) = true ->
     frame_state (pa s') (pfn (leaf (pm s) root w)) =
       drop_ref (frame_state (pa s) (pfn (leaf (pm s) root w)))) /\
  (forall k, (forall w, user_va w -> in_pages a m w = true -> present (leaf (pm s) root w) = true ->
                pfn (leaf (pm s) root w) <> k) -> frame_state (pa s') k = frame_state (pa s) k).

Lemma in_pages_next a n w : a <= n -> in_pages a (n + 1) w = true <-> in_pages a n w = true \/ w / 4096 = n.
Proof. intros. unfold in_pages. rewrite !andb_true_iff, !Z.leb_le, !Z.ltb_lt. lia. Qed.

Lemma leaf_of_page m root n w :
  user_va (n * 4096) -> user_va w -> w / 4096 = n -> leaf m root w = leaf m root (n * 4096).
Proof.
  intros Hv Hw E. apply same_page_page in E; [|done..]. unfold leaf. by destruct E as [-> ->].
Qed.

(** Two pages of [leaves_wf] with one frame are one page. *)
Lemma leaves_inj s root n w :
  leaves_wf s root -> user_va (n * 4096) -> user_va w ->
  present (leaf (pm s) root (n * 4096)) = true -> present (leaf (pm s) root w) = true ->
  pfn (leaf (pm s) root w) = pfn (leaf (pm s) root (n * 4096)) -> w / 4096 = n.
Proof.
  intros [_ Hli] Hv Hw Hp1 Hp2 E. apply same_page_page; [done..|]. by apply Hli.
Qed.

Lemma freed_step root a s n s1 :
  leaves_wf s root -> pt_wf s1 root -> a <= n -> user_va (n * 4096) ->
  freed_upto root a s n s1 -> leaf (pm s1) root (n * 4096) = leaf (pm s) root (n * 4096) ->
  freed_upto root a s (n + 1) (free_range_page root (n * 4096) s1) /\
  if present (leaf (pm s) root (n * 4096)) then
    leaf_set root (n * 4096) 0 s1 (free_range_page root (n * 4096) s1)
  else free_range_page root (n * 4096) s1 = s1.
Proof.
  intros Hlw W Ha Hv (Q1 & Q2 & Q3) El. destruct (present (leaf (pm s) root (n * 4096))) eqn:Ep.
  - assert (Ep1 : present (leaf (pm s1) root (n * 4096)) = true) by (by rewrite El).
    destruct (free_page_step s1 root (n * 4096) W Q1 Hv Ep1) as (L & Q1' & _ & Hfs).
    rewrite El in Hfs. split; [|done]. split; [done|].
    assert (Hnew : forall w, user_va w -> in_pages a n w = true -> present (leaf (pm s) root w) = true ->
      pfn (leaf (pm s) root w) <> pfn (leaf (pm s) root (n * 4096))).
    { intros w Hw Hiw Hpw E. apply (leaves_inj s) in E; [|done..].
      unfold in_pages in Hiw. rewrite andb_true_iff, Z.ltb_lt in Hiw. lia. }
    split.
    + intros w Hw Hiw Hpw. rewrite Hfs. apply in_pages_next in Hiw as [Hiw|E]; [| |done].
      * rewrite decide_False by (by apply Hnew). by apply Q2.
      * rewrite (leaf_of_page _ _ n w) in * by done. rewrite decide_True by done. f_equal. by apply Q3.
    + intros k Hk. rewrite Hfs. rewrite decide_False.
      * apply Q3. intros w Hw Hiw. apply Hk; [done|]. apply in_pages_next; [done|by left].
      * intros ->. apply (Hk (n * 4096)); [done| |done..]. apply in_pages_next; [done|right].
        by rewrite Z.div_mul.
  - assert (E : free_range_page root (n * 4096) s1 = s1).
    { unfold free_range_page. rewrite pte_ptr_lookup by done. unfold leaf in El, Ep.
      destruct (walk (pm s1) root (vpath (n * 4096))) as [t|] eqn:Ew; [|done].
      rewrite (pte_get_leaf _ _ _ _ Ew). unfold leaf. rewrite Ew, El, Ep. by rewrite andb_false_r. }
    rewrite E. split; [|done]. split; [done|]. split.
    + intros w Hw Hiw Hpw. apply in_pages_next in Hiw as [Hiw|E2]; [by apply Q2| |done].
      rewrite (leaf_of_page _ _ n w) in Hpw by done. congruence.
    + intros k Hk. apply Q3. intros w Hw Hiw. apply Hk; [done|]. apply in_pages_next; [done|by left].
Qed.

(** [vm_free_range] on a page-aligned user range of a well-formed address space
    removes exactly the present pages of the range: their leaves become zero, each
    frame that backed one loses exactly one reference (and goes back to the pool if it
    was the last one and the frame is not pinned), every other translation, frame and
    byte of data is as before, and the address space stays well formed. *)
Theorem vm_free_range_correct s root a b :
  pt_wf s root -> leaves_wf s root -> user_range a b ->
  let s' := vm_free_range root (a * 4096) (b * 4096) s in
  pt_wf s' root /\ leaves_wf s' root /\
  (forall w, user_va w -> leaf (pm s') root w =
     if in_pages a b w && present (leaf (pm s) root w) then 0 else leaf (pm s) root w) /\
  (forall w, user_va w -> in_pages a b w = true -> present (leaf (pm s) root w) = true ->
     frame_state (pa s') (pfn (leaf (pm s) root w)) =
       drop_ref (frame_state (pa s) (pfn (leaf (pm s) root w)))) /\
  (forall k, (forall w, user_va w -> in_pages a b w = true -> present (leaf (pm s) root w) = true ->
                pfn (leaf (pm s) root w) <> k) ->
     frame_state (pa s') k = frame_state (pa s) k) /\
  (forall n x, ~ is_table s root n -> n * 4096 <= x < n * 4096 + 4096 -> pm s' x = pm s x).
Proof.
  intros Hwf Hlw Hr. cbv zeta. unfold vm_free_range. rewrite (root_truthy _ _ Hwf). simpl negb. cbv iota.
  destruct (range_update (free_range_page root) (fun _ => 0) (freed_upto root a s) root a b s Hr Hwf)
    as (W & (Q1 & Q2 & Q3) & _ & L & D); [| |by repeat (split; [done|])].
  - split; [done|]. split; [|done]. intros w Hw. unfold in_pages.
    destruct (Z.leb_spec a (w / 4096)), (Z.ltb_spec (w / 4096) a); (lia || done).
  - intros n s1 Hn W Q El. destruct Hr as [Hr1 Hr2]. apply freed_step; try done; [lia|].
    by apply (user_page n b ltac:(lia)).
Qed.

(** * A fresh address space *)

(** What [alloc_page_directory] returns: a new frame, empty but for the kernel mirror. *)
Lemma alloc_page_directory_spec s :
  fs_inv (pa s) ->
  (exists n s1, alloc_page_directory s = (n * 4096, s1) /\ 0 < n < MAX_PAGES /\
     ~ fs_owned (pa s) n /\ fs_inv (pa s1) /\
     (forall q, fs_owned (pa s1) q <-> fs_owned (pa s) q \/ q = n) /\
     (forall q, q <> n -> fs_frame (pa s1) q = fs_frame (pa s) q) /\
     (forall i, idx i -> i <> 511 -> entry (pm s1) (n * 4096) i = 0) /\
     (forall x, x < n * 4096 \/ n * 4096 + 4096 <= x -> pm s1 x = pm s x)) \/
  alloc_page_directory s = (0, s).
Proof.
  intros Hi. unfold alloc_page_directory.
  destruct (page_alloc_cases s Hi) as [(n & a & -> & Hn & Hf & Hia & Ho & Hfr)| ->]; [left|by right].
  rewrite truthy_frame by lia. simpl negb. cbv iota. exists n. eexists. split; [reflexivity|].
  split; [done|]. split; [done|]. change (Z.to_nat (512 - PML4_HIGHER)) with 1%nat. cbn [for_range].
  set (z := zero_page (n * 4096) (set_pa a s)).
  assert (Hz : pm z = fill (pm s) (n * 4096) 4096 0) by done.
  assert (Hzp : pa z = a) by done. clearbody z.
  assert (Hpa : forall e, pa (if present e then set_entry (n * 4096) PML4_HIGHER e z else z) = a)
    by (intros e; by destruct (present e)).
  rewrite !Hpa. split; [done|]. split; [done|]. split; [done|]. split.
  - intros i Hix Hne. unfold idx in Hix. destruct (present _); unfold entry; simpl pm.
    + rewrite ld64_st64_other by (unfold PML4_HIGHER; lia). rewrite Hz. apply ld64_fill_zero; lia.
    + rewrite Hz. apply ld64_fill_zero; lia.
  - intros x Hx. destruct (present _); simpl pm.
    + rewrite st64_other by (unfold PML4_HIGHER; lia). rewrite Hz. apply fill_other. lia.
    + rewrite Hz. apply fill_other. lia.
Qed.

Lemma idx_cons i q : Forall idx (i :: q) -> idx i /\ Forall idx q.
Proof. intros H. by inversion H. Qed.

Lemma empty_walk m root p :
  (forall i, idx i -> i <> 511 -> entry m root i = 0) -> upath p -> p <> [] -> walk m root p = None.
Proof.
  intros H [Hp Hh] Hne. destruct p as [|i p]; [done|]. simpl. apply idx_cons in Hp as [Hi _].
  rewrite step_zero; [done|]. apply H; [done|]. intros ->. by apply Hh.
Qed.

Lemma empty_root_wf s n :
  fs_inv (pa s) -> 0 < n < MAX_PAGES -> fs_owned (pa s) n ->
  (forall i, idx i -> i <> 511 -> entry (pm s) (n * 4096) i = 0) ->
  pt_wf s (n * 4096) /\ (forall v, user_va v -> leaf (pm s) (n * 4096) v = 0) /\
  (forall k, is_table s (n * 4096) k <-> k = n).
Proof.
  intros Hi Hn Ho Hz.
  assert (Hw : forall p t, upath p -> walk (pm s) (n * 4096) p = Some t -> p = [] /\ t = n * 4096).
  { intros p t Hu Hp. destruct p as [|i p]; [by injection Hp as <-|].
    rewrite empty_walk in Hp; done. }
  split; [constructor|split].
  - done.
  - intros p t Hu _ Hp. apply Hw in Hp as [-> ->]; [|done]. by exists n.
  - intros p q t Hp Hq _ _ Wp Wq. apply Hw in Wp as [-> _]; [|done]. by apply Hw in Wq as [-> _].
  - intros p t i Hu _ Hp. apply Hw in Hp as [-> ->]; [|by eapply upath_prefix].
    left. destruct Hu as [Hf Hh]. apply idx_cons in Hf as [Hix _]. apply Hz; [done|]. intros ->. by apply Hh.
  - intros v Hv. destruct (vpath_upath v Hv) as [Hu _]. unfold leaf. by rewrite empty_walk.
  - intros k. split.
    + intros (p & Hu & _ & Hp). apply Hw in Hp as [_ E]; [lia|done].
    + intros ->. exists []. split; [by split|]. split; [simpl; lia|done].
Qed.


(** * A concrete address space

    32 frames, all free but frame 0; the root is frame 1, one user page at 4 MB is
    backed by frame 2. *)
Definition demo_frames : mem :=
  Mem (fun i => if i =? 0 then 0xFFFFFFFE else 0) 32 31 (fun _ => 0) (fun _ => 0) 131072 0.
Definition demo_vm0 : vm := Vm (fun _ => 0) demo_frames 0 0 [] 0 0.
Definition demo_root : Z := 4096.
Definition demo_va : Z := 0x400000.
Definition demo_vm1 : vm := (alloc_page_directory demo_vm0).2.
Definition demo_vm2 : vm := (page_alloc demo_vm1).2.
Definition demo_vm3 : vm := default demo_vm2 (map_page_dir demo_root (2 * 4096) demo_va 7 demo_vm2).

Lemma demo_frames_wf : mem_wf demo_frames.
Proof.
  constructor; simpl; try done. intros i. case_cmp; lia.
Qed.

Lemma demo_vm1_wf : pt_wf demo_vm1 demo_root /\ (forall v, user_va v -> leaf (pm demo_vm1) demo_root v = 0) /\
  (forall k, is_table demo_vm1 demo_root k <-> k = 1).
Proof.
  destruct (alloc_page_directory_spec demo_vm0 demo_frames_wf)
    as [(n & s1 & E & Hn & _ & Hi & Ho & _ & Hz & _)|E].
  - assert (n = 1) as ->.
    { assert (H : fst (alloc_page_directory demo_vm0) = 4096) by (vm_compute; reflexivity).
      rewrite E in H. simpl in H. lia. }
    unfold demo_vm1. rewrite E. simpl. apply (empty_root_wf s1 1); try done. apply Ho. by right.
  - apply (f_equal fst) in E. vm_compute in E. done.
Qed.

Lemma demo_vm2_wf : pt_wf demo_vm2 demo_root /\ (forall v, user_va v -> leaf (pm demo_vm2) demo_root v = 0) /\
  (forall k, is_table demo_vm2 demo_root k <-> k = 1) /\ fs_owned (pa demo_vm2) 2.
Proof.
  destruct demo_vm1_wf as (W & L & T). unfold demo_vm2.
  destruct (page_alloc_cases demo_vm1 (tw_inv _ _ W)) as [(n & a & E & Hn & _ & Hi & Ho & _)|E].
  - assert (n = 2) as ->.
    { assert (H : fst (page_alloc demo_vm1) = 8192) by (vm_compute; reflexivity).
      rewrite E in H. simpl in H. lia. }
    rewrite E. simpl. split; [|split; [done|split; [done|apply Ho; by right]]].
    destruct W as [H1 H2 H3 H4]. constructor; [done| |done|done].
    intros p t Hu Hl Hw. destruct (H2 p t Hu Hl Hw) as (k & ? & ? & Hk). exists k.
    split; [done|]. split; [done|]. simpl. apply Ho. by left.
  - apply (f_equal fst) in E. vm_compute in E. done.
Qed.

Lemma demo_va_user : user_va demo_va.
Proof. unfold user_va, demo_va. lia. Qed.

Lemma demo_vm3_wf :
  pt_wf demo_vm3 demo_root /\ leaves_wf demo_vm3 demo_root /\
  (forall w, user_va w -> leaf (pm demo_vm3) demo_root w = if decide (same_page demo_va w) then 0x2007 else 0) /\
  ~ is_table demo_vm3 demo_root 2 /\ fs_owned (pa demo_vm3) 2.
Proof.
  destruct demo_vm2_wf as (W & L & T & O2).
  destruct (map_page_dir_spec demo_vm2 demo_root 2 demo_va 7 W demo_va_user)
    as (s' & E & W' & Ho & Hnew & _ & [[Hl _]|[Hl _]]).
  - assert (E3 : demo_vm3 = s') by (unfold demo_vm3; by rewrite E). rewrite E3. clear E3 E.
    assert (Hl2 : forall w, user_va w -> leaf (pm s') demo_root w = if decide (same_page demo_va w) then 0x2007 else 0).
    { intros w Hw. rewrite Hl by done. destruct (decide _); [reflexivity|by apply L]. }
    assert (Hnt : ~ is_table s' demo_root 2).
    { intros H. apply Hnew in H; [|done]. apply T in H. lia. }
    split; [done|]. split; [|split; [done|split; [done|by apply Ho]]]. split.
    + intros v Hv. rewrite Hl2 by done. destruct (decide _); [|done]. intros _.
      change (pfn 0x2007) with 2. split; [by apply Ho|done].
    + intros v w Hv Hw. rewrite !Hl2 by done. destruct (decide (same_page demo_va v)) as [[A1 A2]|]; [|done].
      destruct (decide (same_page demo_va w)) as [[B1 B2]|]; [|done]. intros _ _ _. split; congruence.
  - exfalso. specialize (Hl demo_va demo_va_user). rewrite L in Hl by apply demo_va_user.
    assert (H : leaf (pm demo_vm3) demo_root demo_va = 0x2007) by (vm_compute; reflexivity).
    assert (E3 : demo_vm3 = s') by (unfold demo_vm3; by rewrite E). rewrite E3, Hl in H. lia.
Qed.

#[local] Opaque demo_vm1 demo_vm2 demo_vm3.

Lemma map_page_dir_correct_witness :
  exists s', map_page_dir demo_root (2 * 4096) demo_va 7 demo_vm2 = Some s' /\ pt_wf s' demo_root.
Proof.
  destruct (map_page_dir_correct demo_vm2 demo_root 2 demo_va 7 (proj1 demo_vm2_wf) demo_va_user)
    as (s' & E & W & _). exists s'. split; [exact E|exact W].
Defined.

Lemma vm_protect_range_correct_witness :
  leaf (pm (vm_protect_range demo_root demo_va (0x402 * 4096) 1 demo_vm3)) demo_root demo_va = PAGE_NX + 0x2005.
Proof.
  destruct (vm_protect_range_correct demo_vm3 demo_root 0x400 0x402 1 (proj1 demo_vm3_wf)) as (_ & _ & H & _).
  - unfold user_range. lia.
  - change demo_va with (0x400 * 4096). rewrite H by (unfold user_va; lia).
    destruct demo_vm3_wf as (_ & _ & L & _). rewrite L by (unfold user_va; lia).
    rewrite decide_True by (split; reflexivity). reflexivity.
Defined.

Lemma vm_free_range_correct_witness :
  frame_state (pa (vm_free_range demo_root demo_va (0x402 * 4096) demo_vm3)) 2 = (true, 0, false).
Proof.
  destruct demo_vm3_wf as (W & LW & L & _).
  destruct (vm_free_range_correct demo_vm3 demo_root 0x400 0x402 W LW) as (_ & _ & _ & H & _).
  - unfold user_range. lia.
  - specialize (H demo_va demo_va_user eq_refl). rewrite L in H by apply demo_va_user.
    rewrite decide_True in H by (split; reflexivity). specialize (H eq_refl).
    change (pfn 0x2007) with 2 in H. change (0x400 * 4096) with demo_va in H. rewrite H.
    vm_compute. reflexivity.
Defined.
