(* ===== verification/CowClone.v ===== *)
(** Copy-on-write cloning of an address space (src/kernel/paging.c,
    [clone_page_directory_cow]): what fork shares between parent and child.

    Two address spaces are followed at once; [other_root] says that an operation on
    the tables of one leaves the other alone.  The four nested loops visit the pages in
    increasing page number, so the loop invariant [cloned] is indexed by the first page
    not yet visited. *)
From Stdlib Require Import ZArith Lia.
From S2P Require Import Prelude Phys PageAlloc Paging PageTables.

(** * An address space the operation does not work on *)

Lemma other_walk s s' r :
  pt_wf s r ->
  (forall n x, is_table s r n -> n * 4096 <= x < n * 4096 + 4096 -> pm s' x = pm s x) ->
  forall p, upath p -> (length p <= 3)%nat -> walk (pm s') r p = walk (pm s) r p.
Proof.
  intros Hwf Hsame p. induction p as [|j p IH] using rev_ind; [done|]. intros Hu Hl.
  rewrite length_app in Hl; simpl in Hl. assert (Hup : upath p) by (by eapply upath_prefix).
  assert (Hj : idx j) by (destruct Hu as [H _]; apply Forall_app in H as [_ H]; by inversion H).
  rewrite !walk_snoc, IH by (done || lia). destruct (walk (pm s) r p) as [t|] eqn:Ew; [|done].
  destruct (tw_owned _ _ Hwf p t Hup ltac:(lia) Ew) as (k & -> & _).
  unfold step, entry. rewrite (ld64_ext (pm s') (pm s)); [done|]. intros x Hx. unfold idx in Hj.
  apply (Hsame k); [exists p; split; [done|split; [lia|done]]|lia].
Qed.

Record other_root (r : Z) (s s' : vm) : Prop := {
  or_wf : pt_wf s' r;
  or_walk : forall p, upath p -> (length p <= 3)%nat -> walk (pm s') r p = walk (pm s) r p;
  or_leaf : forall v, user_va v -> leaf (pm s') r v = leaf (pm s) r v;
  or_table : forall n, is_table s' r n <-> is_table s r n
}.

Lemma other_root_intro s s' r :
  pt_wf s r -> fs_inv (pa s') -> (forall n, is_table s r n -> fs_owned (pa s') n) ->
  (forall n x, is_table s r n -> n * 4096 <= x < n * 4096 + 4096 -> pm s' x = pm s x) ->
  other_root r s s'.
Proof.
  intros Hwf Hi Ho Hsame. pose proof (other_walk s s' r Hwf Hsame) as Hw.
  assert (Hent : forall p t j, upath p -> (length p <= 3)%nat -> walk (pm s) r p = Some t -> idx j ->
    entry (pm s') t j = entry (pm s) t j).
  { intros p t j Hu Hl Hp Hj. destruct (tw_owned _ _ Hwf p t Hu Hl Hp) as (k & -> & _).
    apply ld64_ext. intros x Hx. unfold idx in Hj. apply (Hsame k); [by exists p|lia]. }
  constructor; [constructor|..].
  - done.
  - intros p t Hu Hl. rewrite Hw by done. intros Hp.
    destruct (tw_owned _ _ Hwf p t Hu Hl Hp) as (k & -> & Hk & _). exists k. split; [done|]. split; [done|].
    apply Ho. by exists p.
  - intros p q t Hp Hq Lp Lq. rewrite !Hw by done. by apply (tw_inj _ _ Hwf).
  - intros p t i Hu Hl. assert (Hup : upath p) by (by eapply upath_prefix).
    rewrite Hw by (done || lia). intros Hp.
    rewrite (Hent p) by (done || lia || (destruct Hu as [H _]; apply Forall_app in H as [_ H]; by inversion H)).
    by apply (tw_upper _ _ Hwf p).
  - done.
  - intros v Hv. destruct (vpath_upath v Hv) as [Hu Hl]. destruct (index_range v) as (_ & _ & _ & Hi4).
    unfold leaf. rewrite Hw by (done || lia). destruct (walk (pm s) r (vpath v)) as [t|] eqn:Ew; [|done].
    apply (Hent (vpath v)); (done || lia).
  - intros n. unfold is_table. split; intros (p & Hu & Hl & Hp); exists p; (split; [done|]);
      (split; [done|]); [by rewrite <- Hw|by rewrite Hw].
Qed.

Definition apart (s : vm) (r1 r2 : Z) : Prop := forall n, is_table s r1 n -> ~ is_table s r2 n.

Lemma grows_other s s' r1 r2 :
  grows r1 s s' -> pt_wf s r2 -> apart s r1 r2 -> other_root r2 s s' /\ apart s' r1 r2.
Proof.
  intros G Hwf Ha. assert (Hot : forall n, is_table s r2 n -> ~ is_table s r1 n) by (intros n H1 H2; by apply (Ha n)).
  assert (Ho : other_root r2 s s').
  { apply other_root_intro; [done|apply G| |].
    - intros n Hn. apply (g_owned _ _ _ G). by eapply table_owned.
    - intros n x Hn. apply (g_data _ _ _ G); [by eapply table_owned|by apply Hot]. }
  split; [done|]. intros n Hn1 Hn2. apply (or_table _ _ _ Ho) in Hn2. apply (Hot n Hn2).
  apply (g_new _ _ _ G); [done|]. by eapply table_owned.
Qed.

Lemma leaf_set_other s s' r1 r2 v e :
  leaf_set r1 v e s s' -> pa s' = pa s -> pt_wf s r2 -> apart s r1 r2 ->
  other_root r2 s s' /\ apart s' r1 r2.
Proof.
  intros L Hpa Hwf Ha. assert (Hot : forall n, is_table s r2 n -> ~ is_table s r1 n) by (intros n H1 H2; by apply (Ha n)).
  assert (Ho : other_root r2 s s').
  { apply other_root_intro; [done|rewrite Hpa; apply Hwf| |].
    - intros n Hn. rewrite Hpa. by eapply table_owned.
    - intros n x Hn. apply (ls_data _ _ _ _ _ L). by apply Hot. }
  split; [done|]. intros n Hn1 Hn2. apply (or_table _ _ _ Ho) in Hn2.
  apply (leaf_set_tables _ _ _ _ _ _ L) in Hn1. by apply (Ha n).
Qed.

Lemma apart_sym s r1 r2 : apart s r1 r2 -> apart s r2 r1.
Proof. intros H n H1 H2. by apply (H n). Qed.

(** Only the allocator's counters change. *)
Lemma same_memory_wf s a r :
  pt_wf s r -> fs_inv a -> (forall n, fs_owned (pa s) n -> fs_owned a n) -> pt_wf (set_pa a s) r.
Proof.
  intros [H1 H2 H3 H4] Hi Ho. constructor; [done| |done|done].
  intros p t Hu Hl Hw. destruct (H2 p t Hu Hl Hw) as (n & ? & ? & ?). exists n. auto.
Qed.

(** * The loop invariant *)

(** What a shared page becomes on both sides. *)
Definition cow_of (e : Z) : Z :=
  if truthy (e .& PAGE_WRITABLE) then (e .& not64 PAGE_WRITABLE) .| PTE_COW else e.

(** Page [w] has been visited and was present in [s0]. *)
Definition shared (P : Z) (s0 : vm) (m w : Z) : bool :=
  (w / 4096 <? m) && present (leaf (pm s0) P w).

Record cloned (P C : Z) (s0 : vm) (m : Z) (s : vm) : Prop := {
  c_wfP : pt_wf s P;
  c_wfC : pt_wf s C;
  c_apart : apart s C P;
  c_walkP : forall p, upath p -> (length p <= 3)%nat -> walk (pm s) P p = walk (pm s0) P p;
  c_leafP : forall w, user_va w -> leaf (pm s) P w =
    if shared P s0 m w then cow_of (leaf (pm s0) P w) else leaf (pm s0) P w;
  c_leafC : forall w, user_va w -> leaf (pm s) C w =
    if shared P s0 m w then cow_of (leaf (pm s0) P w) else 0;
  c_owned : forall n, fs_owned (pa s0) n -> fs_owned (pa s) n;
  c_newC : forall n, is_table s C n -> ~ fs_owned (pa s0) n;
  c_hit : forall w, user_va w -> shared P s0 m w = true ->
    fs_frame (pa s) (pfn (leaf (pm s0) P w)) = bump_ref (fs_frame (pa s0) (pfn (leaf (pm s0) P w)));
  c_miss : forall k, fs_owned (pa s0) k ->
    (forall w, user_va w -> shared P s0 m w = true -> pfn (leaf (pm s0) P w) <> k) ->
    fs_frame (pa s) k = fs_frame (pa s0) k;
  c_data : forall n x, fs_owned (pa s0) n -> ~ is_table s0 P n ->
    n * 4096 <= x < n * 4096 + 4096 -> pm s x = pm s0 x
}.

Lemma cow_of_range e : 0 <= e < 2 ^ 64 -> u64 (cow_of e) = cow_of e.
Proof.
  intros He. apply u64_small. unfold cow_of. destruct (truthy _); [|done].
  apply (lor_range _ _ 64); [lia| |by vm_compute]. apply land_range_l; [lia|]. apply u64_range.
Qed.

Lemma shared_next P s0 m w :
  user_va (m * 4096) -> user_va w ->
  shared P s0 (m + 1) w =
    shared P s0 m w || (w / 4096 =? m) && present (leaf (pm s0) P (m * 4096)).
Proof.
  intros Hv Hw. unfold shared. destruct (Z.eqb_spec (w / 4096) m) as [E|E].
  - rewrite (leaf_of_page _ _ m w) by done. destruct (Z.ltb_spec (w / 4096) (m + 1)), (Z.ltb_spec (w / 4096) m); (lia || done).
  - destruct (Z.ltb_spec (w / 4096) (m + 1)), (Z.ltb_spec (w / 4096) m); simpl; rewrite ?orb_false_r; (lia || done).
Qed.

(** Nothing to share in pages [m, m'): the invariant moves on. *)
Lemma cloned_skip P C s0 m m' s :
  m <= m' -> (forall w, user_va w -> m <= w / 4096 < m' -> present (leaf (pm s0) P w) = false) ->
  cloned P C s0 m s -> cloned P C s0 m' s.
Proof.
  intros Hm Hnone [].
  assert (Hs : forall w, user_va w -> shared P s0 m' w = shared P s0 m w).
  { intros w Hw. unfold shared. destruct (Z.ltb_spec (w / 4096) m), (Z.ltb_spec (w / 4096) m'); simpl; try (done || lia).
    apply Hnone; [done|lia]. }
  constructor; try done.
  - intros w Hw. rewrite Hs by done. auto.
  - intros w Hw. rewrite Hs by done. auto.
  - intros w Hw. rewrite Hs by done. auto.
  - intros k Hk Hn. apply c_miss0; [done|]. intros w Hw Hsw. apply Hn; [done|]. by rewrite Hs.
Qed.

(** The two leaf writes of a present page, on the state the child's tables grew to. *)
Lemma cow_write P C s v pt t e :
  pt_wf s P -> pt_wf s C -> apart s C P -> user_va v ->
  walk (pm s) P (vpath v) = Some pt -> walk (pm s) C (vpath v) = Some t -> leaf (pm s) P v = e ->
  let s' := if truthy (e .& PAGE_WRITABLE) then
              pte_set (t + 8 * pt_index v) (cow_of e) (set_entry pt (pt_index v) (cow_of e) s)
            else pte_set (t + 8 * pt_index v) e s in
  pt_wf s' P /\ pt_wf s' C /\ apart s' C P /\ pa s' = pa s /\
  (forall p, upath p -> (length p <= 3)%nat -> walk (pm s') P p = walk (pm s) P p) /\
  (forall n, is_table s' C n <-> is_table s C n) /\
  (forall w, user_va w -> leaf (pm s') P w = if decide (same_page v w) then u64 (cow_of e) else leaf (pm s) P w) /\
  (forall w, user_va w -> leaf (pm s') C w = if decide (same_page v w) then u64 (cow_of e) else leaf (pm s) C w) /\
  (forall n x, ~ is_table s P n -> ~ is_table s C n -> n * 4096 <= x < n * 4096 + 4096 -> pm s' x = pm s x).
Proof.
  intros WP WC Ha Hv Hp Hc He. cbv zeta. destruct (truthy (e .& PAGE_WRITABLE)) eqn:Ew.
  - pose proof (pte_set_leaf s P v pt (cow_of e) WP Hv Hp) as L1. unfold pte_set in L1.
    destruct (leaf_set_other s _ P C v _ L1 eq_refl WC (apart_sym _ _ _ Ha)) as [O1 A1].
    fold (set_entry pt (pt_index v) (cow_of e) s) in *. set (s1 := set_entry pt (pt_index v) (cow_of e) s) in *.
    destruct (vpath_upath v Hv) as [Hu Hl].
    assert (Hc1 : walk (pm s1) C (vpath v) = Some t) by (by rewrite (or_walk _ _ _ O1) by (done || lia)).
    pose proof (pte_set_leaf s1 C v t (cow_of e) (or_wf _ _ _ O1) Hv Hc1) as L2.
    destruct (leaf_set_other s1 _ C P v _ L2 eq_refl (ls_wf _ _ _ _ _ L1) (apart_sym _ _ _ A1)) as [O2 A2].
    split; [apply O2|]. split; [apply L2|]. split; [done|]. split; [done|]. split; [|split; [|split; [|split]]].
    + intros p Hpu Hpl. by rewrite (or_walk _ _ _ O2), (ls_walk _ _ _ _ _ L1).
    + intros n. by rewrite (leaf_set_tables _ _ _ _ _ _ L2), (or_table _ _ _ O1).
    + intros w Hw. rewrite (or_leaf _ _ _ O2), (ls_leaf _ _ _ _ _ L1) by done. done.
    + intros w Hw. rewrite (ls_leaf _ _ _ _ _ L2), (or_leaf _ _ _ O1) by done. done.
    + intros n x H1 H2 Hx. rewrite (ls_data _ _ _ _ _ L2 n x), (ls_data _ _ _ _ _ L1 n x); try done.
      by rewrite (or_table _ _ _ O1).
  - assert (Hce : cow_of e = e) by (unfold cow_of; by rewrite Ew).
    pose proof (pte_set_leaf s C v t e WC Hv Hc) as L2.
    destruct (leaf_set_other s _ C P v _ L2 eq_refl WP Ha) as [O2 A2].
    split; [apply O2|]. split; [apply L2|]. split; [done|]. split; [done|]. split; [|split; [|split; [|split]]].
    + intros p Hpu Hpl. by rewrite (or_walk _ _ _ O2).
    + intros n. by rewrite (leaf_set_tables _ _ _ _ _ _ L2).
    + intros w Hw. rewrite (or_leaf _ _ _ O2) by done. destruct (decide (same_page v w)) as [[E1 E2]|]; [|done].
      rewrite Hce, u64_small by (subst e; apply leaf_range). rewrite <- He. unfold leaf. by rewrite E1, E2.
    + intros w Hw. rewrite (ls_leaf _ _ _ _ _ L2) by done. by rewrite Hce.
    + intros n x H1 H2 Hx. by rewrite (ls_data _ _ _ _ _ L2 n x).
Qed.

Lemma page_incref_owned m p q :
  mem_wf m -> held m p -> held m q -> held (page_incref (p * PAGE_SIZE) m) q.
Proof.
  intros Hwf Hp Hq. destruct (page_incref_frames m p Hwf Hp) as (_ & Ht & Hf).
  unfold held. rewrite Ht. split; [apply Hq|]. specialize (Hf q). destruct (decide (q = p)) as [->|].
  - unfold frame_state, bump_ref in Hf. injection Hf as -> _ _. apply Hq.
  - unfold frame_state in Hf. injection Hf as -> _ _. apply Hq.
Qed.

(** A present page: both sides get the shared entry, the frame one reference. *)
Lemma cloned_share P C s0 m s s1 t pt e :
  leaves_wf s0 P -> cloned P C s0 m s -> user_va (m * 4096) ->
  leaf (pm s0) P (m * 4096) = e -> present e = true ->
  grows C s s1 -> walk (pm s) P (vpath (m * 4096)) = Some pt ->
  walk (pm s1) C (vpath (m * 4096)) = Some t ->
  let s2 := if truthy (e .& PAGE_WRITABLE) then
              pte_set (t + 8 * pt_index (m * 4096)) (cow_of e)
                (set_entry pt (pt_index (m * 4096)) (cow_of e) s1)
            else pte_set (t + 8 * pt_index (m * 4096)) e s1 in
  cloned P C s0 (m + 1) (set_pa (page_incref (e .& PTE_ADDR_MASK) (pa s2)) s2).
Proof.
  intros [Hlo Hli] Hc Hv He Hpr G Hwp Hwc. cbv zeta.
  destruct (grows_other s s1 C P G (c_wfP _ _ _ _ _ Hc) (c_apart _ _ _ _ _ Hc)) as [O1 A1].
  destruct (vpath_upath _ Hv) as [Hu Hl].
  assert (HmN : shared P s0 m (m * 4096) = false).
  { unfold shared. rewrite Z.div_mul by lia. destruct (Z.ltb_spec m m); [lia|done]. }
  assert (Hls : leaf (pm s1) P (m * 4096) = e).
  { rewrite (or_leaf _ _ _ O1), (c_leafP _ _ _ _ _ Hc), HmN by done. done. }
  assert (Hwp1 : walk (pm s1) P (vpath (m * 4096)) = Some pt) by (by rewrite (or_walk _ _ _ O1) by (done || lia)).
  pose proof (cow_write P C s1 (m * 4096) pt t e (or_wf _ _ _ O1) (g_wf _ _ _ G) A1 Hv Hwp1 Hwc Hls) as CW.
  cbv zeta in CW. set (s2 := if truthy (e .& PAGE_WRITABLE) then _ else _) in *.
  destruct CW as (WP & WC & A2 & Hpa & KP & TC & LP & LC & D2).
  assert (Ho0 : fs_owned (pa s0) (pfn e)) by (destruct (Hlo (m * 4096) Hv) as [H _]; by rewrite He in *).
  assert (Ho1 : fs_owned (pa s1) (pfn e)) by (by apply (g_owned _ _ _ G), (c_owned _ _ _ _ _ Hc)).
  rewrite addr_mask. rewrite Hpa.
  destruct (page_incref_frames (pa s1) (pfn e) (tw_inv _ _ (g_wf _ _ _ G)) Ho1) as (Hinv & _ & Hfs).
  assert (Hown : forall n, fs_owned (pa s1) n -> fs_owned (page_incref (pfn e * 4096) (pa s1)) n).
  { intros n Hn. by apply (page_incref_owned (pa s1) (pfn e) n (tw_inv _ _ (g_wf _ _ _ G))). }
  assert (Heq : forall w, user_va w -> w / 4096 = m -> leaf (pm s0) P w = e).
  { intros w Hw E. by rewrite (leaf_of_page _ _ m w). }
  assert (Hfr : forall w, user_va w -> shared P s0 m w = true -> pfn (leaf (pm s0) P w) <> pfn e).
  { intros w Hw Hs E. unfold shared in Hs. apply andb_true_iff in Hs as [Hs1 Hs2]. apply Z.ltb_lt in Hs1.
    rewrite <- He in E. apply leaves_inj in E; try done; [lia|by rewrite He]. }
  constructor.
  - apply same_memory_wf; [done|done|]. rewrite Hpa. apply Hown.
  - apply same_memory_wf; [done|done|]. rewrite Hpa. apply Hown.
  - done.
  - intros p Hpu Hpl. simpl. by rewrite KP, (or_walk _ _ _ O1), (c_walkP _ _ _ _ _ Hc).
  - intros w Hw. simpl. rewrite LP, shared_next, He, Hpr, andb_true_r by done.
    destruct (decide (same_page _ w)) as [Hs|Hs].
    + apply same_page_page in Hs; [|done..]. rewrite (proj2 (Z.eqb_eq _ _) Hs), orb_true_r, (Heq w Hw Hs).
      apply cow_of_range. subst e. apply leaf_range.
    + rewrite same_page_page in Hs by done. rewrite (proj2 (Z.eqb_neq _ _) Hs), orb_false_r.
      by rewrite (or_leaf _ _ _ O1), (c_leafP _ _ _ _ _ Hc).
  - intros w Hw. simpl. rewrite LC, shared_next, He, Hpr, andb_true_r by done.
    destruct (decide (same_page _ w)) as [Hs|Hs].
    + apply same_page_page in Hs; [|done..]. rewrite (proj2 (Z.eqb_eq _ _) Hs), orb_true_r, (Heq w Hw Hs).
      apply cow_of_range. subst e. apply leaf_range.
    + rewrite same_page_page in Hs by done. rewrite (proj2 (Z.eqb_neq _ _) Hs), orb_false_r.
      by rewrite (g_leaf _ _ _ G), (c_leafC _ _ _ _ _ Hc).
  - intros n Hn. simpl. by apply Hown, (g_owned _ _ _ G), (c_owned _ _ _ _ _ Hc).
  - intros n Hn. apply TC in Hn. intros Hn0. apply (c_newC _ _ _ _ _ Hc n); [|done].
    apply (g_new _ _ _ G); [done|]. by apply (c_owned _ _ _ _ _ Hc).
  - intros w Hw. rewrite shared_next, He, Hpr, andb_true_r by done. simpl pa. intros Hs.
    etrans; [apply Hfs|]. destruct (Z.eqb_spec (w / 4096) m) as [E|E].
    + rewrite (Heq w Hw E), decide_True by done. f_equal.
      change (fs_frame (pa s1) (pfn e) = fs_frame (pa s0) (pfn e)).
      rewrite (g_frames _ _ _ G) by (by apply (c_owned _ _ _ _ _ Hc)). by apply (c_miss _ _ _ _ _ Hc).
    + rewrite orb_false_r in Hs. rewrite decide_False by (by apply Hfr).
      etrans; [apply (g_frames _ _ _ G)|by apply (c_hit _ _ _ _ _ Hc)].
      apply (c_owned _ _ _ _ _ Hc). apply Hlo; [done|]. unfold shared in Hs. by apply andb_true_iff in Hs as [_ ?].
  - intros k Hk Hn. simpl pa. etrans; [apply Hfs|]. rewrite decide_False.
    + etrans; [apply (g_frames _ _ _ G); by apply (c_owned _ _ _ _ _ Hc)|].
      apply (c_miss _ _ _ _ _ Hc); [done|]. intros w Hw Hs. apply Hn; [done|]. by rewrite shared_next, Hs by done.
    + intros ->. apply (Hn (m * 4096)); [done| |by rewrite He].
      rewrite shared_next, He, Hpr, Z.div_mul, Z.eqb_refl by (done || lia). by rewrite orb_true_r.
  - intros n x Hn Hnt Hx. simpl pm.
    assert (HnP : ~ is_table s P n).
    { intros (p & Hpu & Hpl & Hpw). apply Hnt. exists p. split; [done|]. split; [done|].
      by rewrite <- (c_walkP _ _ _ _ _ Hc). }
    assert (HnC : ~ is_table s C n) by (intros H; by apply (c_newC _ _ _ _ _ Hc n)).
    rewrite (D2 n x), (g_data _ _ _ G n x), (c_data _ _ _ _ _ Hc n x); try done.
    + by apply (c_owned _ _ _ _ _ Hc).
    + by rewrite (or_table _ _ _ O1).
    + intros H. apply HnC, (g_new _ _ _ G); [done|]. by apply (c_owned _ _ _ _ _ Hc).
Qed.

Lemma cloned_leaf_step P C s0 m s s' pt :
  leaves_wf s0 P -> cloned P C s0 m s -> user_va (m * 4096) ->
  walk (pm s) P (vpath (m * 4096)) = Some pt ->
  cow_leaf C (m * 4096) pt (pt_index (m * 4096)) s = Go tt s' -> cloned P C s0 (m + 1) s'.
Proof.
  intros Hlw Hc Hv Hw. unfold cow_leaf.
  assert (He : entry (pm s) pt (pt_index (m * 4096)) = leaf (pm s0) P (m * 4096)).
  { transitivity (leaf (pm s) P (m * 4096)); [unfold leaf; by rewrite Hw|].
    rewrite (c_leafP _ _ _ _ _ Hc) by done. unfold shared. rewrite Z.div_mul by lia.
    destruct (Z.ltb_spec m m); [lia|done]. }
  rewrite He. destruct (present (leaf (pm s0) P (m * 4096))) eqn:Hpr; simpl negb; cbv iota.
  - pose proof (pte_ptr_create s C (m * 4096) (c_wfC _ _ _ _ _ Hc) Hv) as H.
    destruct (pte_ptr C (m * 4096) true s) as [cpte s1]. destruct H as [G [-> | (t & Hwt & -> & ->)]]; [done|].
    simpl negb. cbv iota. intros [= <-].
    pose proof (cloned_share P C s0 m s s1 t pt _ Hlw Hc Hv eq_refl Hpr G Hw Hwt) as H. cbv zeta in H.
    unfold cow_of in H. destruct (truthy (leaf (pm s0) P (m * 4096) .& PAGE_WRITABLE)); exact H.
  - intros [= <-]. apply (cloned_skip P C s0 m); [lia| |done]. intros w Hw' Hm.
    by rewrite (leaf_of_page _ _ m w) by (done || lia).
Qed.

(** * The loops *)

Lemma for_flow_ind (I : Z -> vm -> Prop) n lo body s s' :
  I lo s ->
  (forall i s s', lo <= i < lo + Z.of_nat n -> I i s -> body i s = Go tt s' -> I (i + 1) s') ->
  for_flow n lo body s = Go tt s' -> I (lo + Z.of_nat n) s'.
Proof.
  revert lo s. induction n as [|n IH]; intros lo s H0 Hstep; cbn [for_flow].
  - intros [= <-]. by rewrite Z.add_0_r.
  - destruct (body lo s) as [[] s1| |] eqn:Eb; simpl; try done. intros Hf.
    replace (lo + Z.of_nat (S n)) with (lo + 1 + Z.of_nat n) by lia. apply (IH (lo + 1) s1); [| |done].
    + apply (Hstep lo s); [lia|done..].
    + intros i s2 s3 Hi. apply Hstep. lia.
Qed.

Lemma indices w :
  0 <= w -> pml4_index w = (w / 4096 / 2 ^ 27) mod 512 /\ pdpt_index w = (w / 4096 / 2 ^ 18) mod 512 /\
  pd_index w = (w / 4096 / 2 ^ 9) mod 512 /\ pt_index w = (w / 4096) mod 512.
Proof.
  intros Hw. unfold pml4_index, pdpt_index, pd_index, pt_index. change 0x1FF with (Z.ones 9).
  rewrite !Z.land_ones, !Z.shiftr_div_pow2, !Z.div_div by lia. done.
Qed.

(** First page of the block of addresses whose indices start with [q]. *)
Definition block (q : list Z) : Z :=
  match q with
  | [i] => i * 2 ^ 27
  | [i; j] => i * 2 ^ 27 + j * 2 ^ 18
  | [i; j; k] => i * 2 ^ 27 + j * 2 ^ 18 + k * 2 ^ 9
  | _ => 0
  end.
Definition block_size (q : list Z) : Z := 2 ^ (36 - 9 * Z.of_nat (length q)).

Lemma block_vpath q w :
  upath q -> (1 <= length q <= 3)%nat -> user_va w -> block q <= w / 4096 < block q + block_size q ->
  exists r, vpath w = q ++ r.
Proof.
  intros [Hq _] Hl [Hw _] Hb. destruct (indices w Hw) as (E1 & E2 & E3 & _).
  unfold vpath. rewrite E1, E2, E3. unfold block_size in Hb.
  clear E1 E2 E3. generalize dependent (w / 4096). intros n Hb.
  destruct q as [|i [|j [|k [|]]]]; simpl length in Hl, Hb; simpl block in Hb; try lia;
    repeat match goal with H : Forall _ (_ :: _) |- _ => apply idx_cons in H as [? ?] end; unfold idx in *.
  - exists [(n / 2 ^ 18) mod 512; (n / 2 ^ 9) mod 512]. simpl. f_equal.
    Z.to_euclidean_division_equations. lia.
  - exists [(n / 2 ^ 9) mod 512]. simpl. repeat f_equal; Z.to_euclidean_division_equations; lia.
  - exists []. simpl. repeat f_equal; Z.to_euclidean_division_equations; lia.
Qed.

Lemma block_empty m root q w :
  upath q -> (1 <= length q <= 3)%nat -> walk m root q = None -> user_va w ->
  block q <= w / 4096 < block q + block_size q -> present (leaf m root w) = false.
Proof.
  intros Hq Hl Hn Hw Hb. destruct (block_vpath q w Hq Hl Hw Hb) as [r E].
  unfold leaf. by rewrite E, walk_app, Hn.
Qed.

Lemma virt_of_page i j k l :
  idx i -> idx j -> idx k -> idx l -> virt_of i j k l = (block [i; j; k] + l) * 4096.
Proof.
  unfold idx, virt_of, block. intros. rewrite !Z.shiftl_mul_pow2 by lia.
  rewrite (lor_add i (j * 2 ^ 30) 39) by lia.
  replace (i * 2 ^ 39 + j * 2 ^ 30) with ((i * 512 + j) * 2 ^ 30) by lia.
  rewrite (lor_add (i * 512 + j) (k * 2 ^ 21) 30) by lia.
  replace ((i * 512 + j) * 2 ^ 30 + k * 2 ^ 21) with (((i * 512 + j) * 512 + k) * 2 ^ 21) by lia.
  rewrite (lor_add _ (l * 2 ^ 12) 21) by lia. lia.
Qed.

Lemma page_indices i j k l :
  idx i -> idx j -> idx k -> idx l ->
  vpath ((block [i; j; k] + l) * 4096) = [i; j; k] /\ pt_index ((block [i; j; k] + l) * 4096) = l.
Proof.
  unfold idx, block. intros.
  destruct (indices ((i * 2 ^ 27 + j * 2 ^ 18 + k * 2 ^ 9 + l) * 4096)) as (E1 & E2 & E3 & E4); [lia|].
  unfold vpath. rewrite E1, E2, E3, E4, Z.div_mul by lia.
  split; [repeat f_equal|]; Z.to_euclidean_division_equations; lia.
Qed.

Section loops.
  Context (P C : Z) (s0 : vm) (Hlw : leaves_wf s0 P).

  (** The innermost loop: the 512 pages of one leaf table. *)
Lemma cloned_pt i j k pt s s' :
    upath [i; j; k] -> walk (pm s0) P [i; j; k] = Some pt -> cloned P C s0 (block [i; j; k]) s ->
    for_flow 512 0 (fun l s => cow_leaf C (virt_of i j k l) pt l s) s = Go tt s' ->
    cloned P C s0 (block [i; j; k] + 512) s'.
  Proof.
    intros Hu Hw Hc Hf. destruct Hu as [Hq Hh].
    assert (Hijk : idx i /\ idx j /\ idx k).
    { apply idx_cons in Hq as [? Hq]. apply idx_cons in Hq as [? Hq]. by apply idx_cons in Hq as [? _]. }
    destruct Hijk as (Hi & Hj & Hk).
    eapply (for_flow_ind (fun l s => cloned P C s0 (block [i; j; k] + l) s) 512 0 _ s s'); [by rewrite Z.add_0_r| |exact Hf].
    intros l s1 s2 Hl Hc1 Hb. assert (Hlx : idx l) by (unfold idx; lia).
    cbv beta in Hb. rewrite virt_of_page in Hb by done.
    destruct (page_indices i j k l Hi Hj Hk Hlx) as [Ev Ep].
    replace (block [i; j; k] + (l + 1)) with (block [i; j; k] + l + 1) by lia.
    apply (cloned_leaf_step P C s0 _ s1 s2 pt Hlw Hc1).
    - unfold user_va, block. unfold idx in *. assert (i <> 511) by (intros ->; by apply Hh). lia.
    - rewrite Ev, (c_walkP _ _ _ _ _ Hc1); [done|by split|simpl; lia].
    - by rewrite Ep.
  Qed.

  (** One entry of an upper-level table: either the block below it is empty, or the walk
      goes on at the table it names. *)
Lemma cloned_entry q j t m s :
    upath (q ++ [j]) -> (length q <= 2)%nat -> cloned P C s0 m s -> walk (pm s0) P q = Some t ->
    let e := entry (pm s) t j in
    if present e then huge e = false /\ walk (pm s0) P (q ++ [j]) = Some (e .& PTE_ADDR_MASK)
    else walk (pm s0) P (q ++ [j]) = None.
  Proof.
    intros Hu Hl Hc Hw. cbv zeta. assert (Huq : upath q) by (by eapply upath_prefix).
    assert (Hws : walk (pm s) P q = Some t) by (by rewrite (c_walkP _ _ _ _ _ Hc) by (done || lia)).
    pose proof (upper_next s P q t j (c_wfP _ _ _ _ _ Hc) Hu Hl Hws) as H. cbv zeta in H.
    rewrite (c_walkP _ _ _ _ _ Hc (q ++ [j])) in H by (done || (rewrite length_app; simpl; lia)).
    rewrite addr_mask. destruct (present (entry (pm s) t j)); [|apply H]. by destruct H as (_ & ? & _ & ?).
  Qed.

  (** A loop over the entries of a table at path [q]. *)
Lemma cloned_table q t body s s' :
    upath q -> (1 <= length q <= 2)%nat -> walk (pm s0) P q = Some t ->
    (forall j t' s s', upath (q ++ [j]) -> walk (pm s0) P (q ++ [j]) = Some t' ->
       cloned P C s0 (block (q ++ [j])) s -> body j t' s = Go tt s' ->
       cloned P C s0 (block (q ++ [j]) + block_size (q ++ [j])) s') ->
    cloned P C s0 (block q) s -> each_table_flow t body s = Go tt s' ->
    cloned P C s0 (block q + block_size q) s'.
  Proof.
    intros Hu Hl Hw Hbody Hc Hf.
    assert (Hblk : forall j, block (q ++ [j]) = block q + j * block_size (q ++ [j]) /\
      block_size q = 512 * block_size (q ++ [j])).
    { intros j. destruct q as [|a [|b [|]]]; simpl in Hl; try lia; unfold block_size; simpl; lia. }
    assert (Hsz : 0 <= block_size q) by (unfold block_size; apply Z.pow_nonneg; lia).
    replace (block q + block_size q) with (block q + (0 + Z.of_nat 512) * block_size (q ++ [0]))
      by (rewrite (proj2 (Hblk 0)); lia).
    eapply (for_flow_ind (fun j s => cloned P C s0 (block q + j * block_size (q ++ [0])) s) 512 0 _ s s');
      [by rewrite Z.mul_0_l, Z.add_0_r| |exact Hf].
    intros j s1 s2 Hj Hc1 Hb. cbv beta zeta in Hb.
    assert (Hs0 : block_size (q ++ [0]) = block_size (q ++ [j])) by (unfold block_size; by rewrite !length_app).
    rewrite Hs0 in *. destruct (Hblk j) as [Hbj _]. rewrite <- Hbj in Hc1.
    replace (block q + (j + 1) * block_size (q ++ [j])) with (block (q ++ [j]) + block_size (q ++ [j])) by lia.
    assert (Huj : upath (q ++ [j])).
    { destruct Hu as [Hq Hh]. split; [apply Forall_app; split; [done|constructor; [unfold idx; lia|constructor]]|].
      destruct q; [simpl in Hl; lia|done]. }
    pose proof (cloned_entry q j t _ s1 Huj ltac:(lia) Hc1 Hw) as He. cbv zeta in He.
    destruct (present (entry (pm s1) t j)) eqn:Ep.
    - destruct He as [Hh He]. rewrite Hh in Hb. simpl in Hb. exact (Hbody j _ s1 s2 Huj He Hc1 Hb).
    - simpl in Hb. injection Hb as <-. apply (cloned_skip P C s0 (block (q ++ [j]))); [| |done].
      + unfold block_size. pose proof (Z.pow_nonneg 2 (36 - 9 * Z.of_nat (length (q ++ [j])))). lia.
      + intros w Hw' Hm. by apply (block_empty _ _ (q ++ [j])); [|rewrite length_app; simpl; lia|..].
  Qed.

Lemma block3_size i j k : block_size [i; j; k] = 512.
  Proof. reflexivity. Qed.

  (** The whole walk. *)
Lemma cloned_all s s' :
    pt_wf s0 P -> cloned P C s0 0 s ->
    clone_loops P C s = Go tt s' ->
    cloned P C s0 (511 * 2 ^ 27) s'.
  Proof.
    intros Hwf Hc Hf. change (511 * 2 ^ 27) with ((0 + Z.of_nat (Z.to_nat PML4_HIGHER)) * 2 ^ 27).
    eapply (for_flow_ind (fun i s => cloned P C s0 (i * 2 ^ 27) s) _ 0 _ s s'); [done| |exact Hf].
    intros i s1 s2 Hi Hc1 Hb. cbv beta zeta in Hb. unfold PML4_HIGHER in Hi.
    assert (Hui : upath [i]).
    { split; [constructor; [unfold idx; lia|constructor]|]. simpl. unfold PML4_HIGHER. intros [= ->]. lia. }
    pose proof (cloned_entry [] i P _ s1 Hui ltac:(simpl; lia) Hc1 eq_refl) as He. cbv zeta in He. simpl app in He.
    replace ((i + 1) * 2 ^ 27) with (block [i] + block_size [i]) by (unfold block, block_size; simpl; lia).
    destruct (present (entry (pm s1) P i)); simpl negb in Hb; cbv iota in Hb.
    - destruct He as [_ He]. eapply (cloned_table [i]); [done|simpl; lia|exact He| |exact Hc1|exact Hb].
      intros j pd s3 s4 Huj Hwj Hc3 Hb3. simpl app in *.
      eapply (cloned_table [i; j]); [done|simpl; lia|exact Hwj| |exact Hc3|exact Hb3].
      intros k pt s5 s6 Huk Hwk Hc5 Hb5. simpl app in *. rewrite block3_size. by apply (cloned_pt i j k pt s5).
    - injection Hb as <-. apply (cloned_skip P C s0 (i * 2 ^ 27)); [unfold block, block_size; simpl; lia| |done].
      intros w Hw Hm. by apply (block_empty _ _ [i]); [|simpl; lia|..].
  Qed.
End loops.

(** * What fork gets *)

Lemma cloned_start P s n s1 :
  pt_wf s P -> 0 < n < MAX_PAGES -> ~ fs_owned (pa s) n -> fs_inv (pa s1) ->
  (forall q, fs_owned (pa s1) q <-> fs_owned (pa s) q \/ q = n) ->
  (forall q, q <> n -> fs_frame (pa s1) q = fs_frame (pa s) q) ->
  (forall i, idx i -> i <> 511 -> entry (pm s1) (n * 4096) i = 0) ->
  (forall x, x < n * 4096 \/ n * 4096 + 4096 <= x -> pm s1 x = pm s x) ->
  cloned P (n * 4096) s 0 s1.
Proof.
  intros Hwf Hn Hf Hi Ho Hfr Hz Hm.
  destruct (empty_root_wf s1 n Hi Hn ltac:(apply Ho; by right) Hz) as (WC & LC & TC).
  assert (HO : other_root P s s1).
  { apply other_root_intro; [done|done| |].
    - intros k Hk. apply Ho. left. by eapply table_owned.
    - intros k x Hk Hx. apply Hm. assert (k <> n); [|lia].
      intros ->. apply Hf. by eapply table_owned. }
  assert (Hsh : forall w, user_va w -> shared P s 0 w = false).
  { intros w [Hw _]. unfold shared. pose proof (Z.div_pos w 4096 Hw ltac:(lia)).
    destruct (Z.ltb_spec (w / 4096) 0); [lia|done]. }
  constructor.
  - apply HO.
  - done.
  - intros k Hk Hk2. apply TC in Hk as ->. apply (or_table _ _ _ HO) in Hk2. apply Hf. by eapply table_owned.
  - apply HO.
  - intros w Hw. rewrite Hsh by done. by apply HO.
  - intros w Hw. rewrite Hsh by done. by apply LC.
  - intros k Hk. apply Ho. by left.
  - intros k Hk. by apply TC in Hk as ->.
  - intros w Hw. by rewrite Hsh.
  - intros k Hk _. apply Hfr. congruence.
  - intros k x Hk _ Hx. apply Hm. assert (k <> n) by congruence. lia.
Qed.

Lemma cow_of_facts e :
  0 <= e < 2 ^ 64 -> pfn (cow_of e) = pfn e /\ present (cow_of e) = present e /\
  truthy (cow_of e .& PAGE_WRITABLE) = false /\
  (truthy (e .& PAGE_WRITABLE) = true -> truthy (cow_of e .& PTE_COW) = true).
Proof.
  intros He. unfold cow_of. destruct (truthy (e .& PAGE_WRITABLE)) eqn:Ew; [|by rewrite Ew].
  assert (Hnot : forall j, 0 <= j < 64 -> Z.testbit (not64 PAGE_WRITABLE) j = negb (j =? 1)).
  { intros j Hj. unfold not64, u64. rewrite Z.mod_pow2_bits_low, Z.lnot_spec by lia. f_equal.
    unfold PAGE_WRITABLE. rewrite Z.shiftl_spec by lia. destruct (Z.eqb_spec j 1) as [->|]; [done|].
    destruct (Z.ltb_spec j 1); [by rewrite Z.testbit_neg_r by lia|].
    by rewrite (Z.bits_above_log2 1 (j - 1)) by (simpl; lia). }
  split; [|split; [|split]].
  - assert (H : ((e .& not64 PAGE_WRITABLE) .| PTE_COW) .& PTE_ADDR_MASK = e .& PTE_ADDR_MASK).
    { rewrite Z.land_lor_distr_l. change (PTE_COW .& PTE_ADDR_MASK) with 0. rewrite Z.lor_0_r.
      rewrite <- Z.land_assoc. f_equal. }
    rewrite !addr_mask in H. lia.
  - rewrite !present_bit, Z.lor_spec, Z.land_spec, Hnot by lia. simpl. by rewrite andb_true_r, orb_false_r.
  - unfold PAGE_WRITABLE at 2. rewrite truthy_land_bit, Z.lor_spec, Z.land_spec, Hnot by lia. simpl.
    by rewrite andb_false_r.
  - intros _. unfold PTE_COW. rewrite truthy_land_bit, Z.lor_spec by lia. by rewrite orb_true_r.
Qed.

Lemma clone_cloned s parent child s' :
  pt_wf s parent -> leaves_wf s parent ->
  clone_page_directory_cow parent s = (child, s') -> child <> 0 ->
  cloned parent child s (511 * 2 ^ 27) s'.
Proof.
  intros Hwf Hlw Hcl Hne. unfold clone_page_directory_cow in Hcl.
  destruct (negb (truthy parent)) eqn:E0; [by rewrite (root_truthy _ _ Hwf) in E0|].
  destruct (alloc_page_directory_spec s (tw_inv _ _ Hwf))
    as [(n & s1 & Ea & Hn & Hf & Hi & Ho & Hfr & Hz & Hm)|Ea]; rewrite Ea in Hcl; [|by injection Hcl as <- _].
  destruct (negb (truthy (n * 4096))) eqn:E1; [by rewrite truthy_frame in E1 by lia|].
  pose proof (cloned_start parent s n s1 Hwf Hn Hf Hi Ho Hfr Hz Hm) as Hc0.
  destruct (clone_loops parent (n * 4096) s1) as [[] s2| |] eqn:Efl; injection Hcl as <- <-; try done.
  exact (cloned_all parent (n * 4096) s Hlw s1 s2 Hwf Hc0 Efl).
Qed.

Lemma shared_all P s0 w : user_va w -> shared P s0 (511 * 2 ^ 27) w = present (leaf (pm s0) P w).
Proof.
  intros [Hw1 Hw2]. unfold shared. rewrite (proj2 (Z.ltb_lt _ _)); [done|]. apply Z.div_lt_upper_bound; lia.
Qed.

(** C4: when [clone_page_directory_cow] returns a child, every present page of the parent
    is mapped in parent and child alike, to the frame the parent had, not writable in
    either (copy-on-write where it was writable), and that frame has gained exactly one
    reference; absent pages stay absent in the child, the tables of the two spaces are
    disjoint and well formed, and no byte of data and no other frame has changed. *)
Theorem clone_page_directory_cow_correct s parent child s' :
  pt_wf s parent -> leaves_wf s parent ->
  clone_page_directory_cow parent s = (child, s') -> child <> 0 ->
  pt_wf s' parent /\ pt_wf s' child /\ apart s' child parent /\
  (forall v, user_va v ->
     let e := leaf (pm s) parent v in
     if present e then
       leaf (pm s') parent v = cow_of e /\ leaf (pm s') child v = cow_of e /\
       pfn (cow_of e) = pfn e /\ truthy (cow_of e .& PAGE_WRITABLE) = false /\
       fs_frame (pa s') (pfn e) = bump_ref (fs_frame (pa s) (pfn e))
     else leaf (pm s') parent v = e /\ leaf (pm s') child v = 0) /\
  (forall k, fs_owned (pa s) k ->
     (forall v, user_va v -> present (leaf (pm s) parent v) = true -> pfn (leaf (pm s) parent v) <> k) ->
     fs_frame (pa s') k = fs_frame (pa s) k) /\
  (forall n x, fs_owned (pa s) n -> ~ is_table s parent n ->
     n * 4096 <= x < n * 4096 + 4096 -> pm s' x = pm s x).
Proof.
  intros Hwf Hlw Hcl Hne. pose proof (clone_cloned s parent child s' Hwf Hlw Hcl Hne) as Hc.
  split; [apply Hc|]. split; [apply Hc|]. split; [apply Hc|]. split; [|split; [|apply Hc]].
  - intros v Hv. cbv zeta. rewrite (c_leafP _ _ _ _ _ Hc), (c_leafC _ _ _ _ _ Hc), shared_all by done.
    destruct (present (leaf (pm s) parent v)) eqn:Ep; [|done].
    destruct (cow_of_facts (leaf (pm s) parent v) (leaf_range _ _ _)) as (H1 & _ & H2 & _).
    repeat (split; [done|]). apply (c_hit _ _ _ _ _ Hc); [done|]. by rewrite shared_all.
  - intros k Hk Hnm. apply (c_miss _ _ _ _ _ Hc); [done|]. intros w Hw. rewrite shared_all by done. by apply Hnm.
Qed.

Definition demo_fork : Z * vm := clone_page_directory_cow demo_root demo_vm3.

Lemma demo_fork_child : demo_fork.1 = 0x6000.
Proof. vm_compute. reflexivity. Qed.

#[local] Opaque demo_vm3 clone_page_directory_cow.

Lemma clone_page_directory_cow_correct_witness :
  leaf (pm demo_fork.2) demo_root demo_va = 0x2405 /\ leaf (pm demo_fork.2) demo_fork.1 demo_va = 0x2405 /\
  fs_frame (pa demo_fork.2) 2 = bump_ref (fs_frame (pa demo_vm3) 2).
Proof.
  destruct demo_vm3_wf as (W & LW & L & _).
  destruct (clone_page_directory_cow_correct demo_vm3 demo_root demo_fork.1 demo_fork.2 W LW
    (surjective_pairing demo_fork)) as (_ & _ & _ & H & _).
  - rewrite demo_fork_child. lia.
  - specialize (H demo_va demo_va_user). rewrite L in H by apply demo_va_user.
    rewrite decide_True in H by (split; reflexivity). cbv zeta in H.
    change (present 0x2007) with true in H. change (cow_of 0x2007) with 0x2405 in H.
    change (pfn 0x2007) with 2 in H. destruct H as (H1 & H2 & _ & _ & H3). split; [exact H1|]. split; [exact H2|exact H3].
Defined.
