(* ===== verification/UserMem.v ===== *)
(** User memory as the kernel sees it (src/kernel/syscall.c: user_v2p, copy_from_user,
    copy_to_user), on top of the page-table tree.

    [user_v2p] is related to the leaf of the address; from that come the containment of
    user pointers, the round trip of the two copies, and what the copies do to pages
    that are shared copy-on-write. *)
From Stdlib Require Import ZArith Lia.
From S2P Require Import Prelude Phys PageAlloc Paging PageTables CowClone.

Lemma land5_bits e : e .& 5 = 5 -> Z.testbit e 0 = true /\ Z.testbit e 2 = true.
Proof.
  intros H. split.
  - pose proof (f_equal (fun z => Z.testbit z 0) H) as H0. cbv beta in H0. rewrite Z.land_spec in H0.
    change (Z.testbit 5 0) with true in H0. by rewrite andb_true_r in H0.
  - pose proof (f_equal (fun z => Z.testbit z 2) H) as H0. cbv beta in H0. rewrite Z.land_spec in H0.
    change (Z.testbit 5 2) with true in H0. by rewrite andb_true_r in H0.
Qed.

Lemma huge_0x80 e : truthy (e .& 0x80) = huge e.
Proof. reflexivity. Qed.

Lemma root_mask s root : pt_wf s root -> root .& PTE_ADDR_MASK = root.
Proof.
  intros Hwf. destruct (tw_owned _ _ Hwf [] root) as (k & -> & Hk & _); [by split|simpl; lia|done|].
  rewrite addr_mask. unfold pfn. rewrite Z.div_mul by lia. rewrite max_pages_val in Hk.
  rewrite Z.mod_small by lia. done.
Qed.

Lemma user_range_va v : USER_SPACE_MIN <= v < USER_SPACE_END -> user_va v.
Proof. unfold USER_SPACE_MIN, USER_SPACE_END, user_va. lia. Qed.

(** On a well-formed address space [user_v2p] answers only user addresses with a present
    user leaf, and with the byte of that leaf's frame. *)
Lemma user_v2p_leaf s root v p :
  pt_wf s root -> user_v2p root v (pm s) = p -> p <> 0 ->
  USER_SPACE_MIN <= v < USER_SPACE_END /\ present (leaf (pm s) root v) = true /\
  Z.testbit (leaf (pm s) root v) 2 = true /\ p = pfn (leaf (pm s) root v) * 4096 + v mod 4096.
Proof.
  intros Hwf Hp Hne. unfold user_v2p in Hp. rewrite (root_truthy _ _ Hwf) in Hp. simpl negb in Hp. cbv iota in Hp.
  destruct (Z.ltb_spec v USER_SPACE_MIN) as [|Hlo]; [simpl in Hp; congruence|].
  destruct (Z.leb_spec USER_SPACE_END v) as [|Hhi]; [simpl in Hp; congruence|]. simpl orb in Hp. cbv iota in Hp.
  rewrite (root_mask _ _ Hwf) in Hp. assert (Hv : user_va v) by (apply user_range_va; lia).
  destruct (vpath_upath v Hv) as [Hu _].
  assert (Hu1 : upath ([] ++ [pml4_index v])) by (by apply (upath_prefix _ [pdpt_index v; pd_index v])).
  assert (Hu2 : upath ([pml4_index v] ++ [pdpt_index v])) by (by apply (upath_prefix _ [pd_index v])).
  destruct (Z.eqb_spec (entry (pm s) root (pml4_index v) .& 5) 5) as [E1|]; [|simpl in Hp; congruence].
  pose proof (upper_next s root [] root _ Hwf Hu1 ltac:(simpl; lia) eq_refl) as N1. cbv zeta in N1.
  rewrite present_bit, (proj1 (land5_bits _ E1)) in N1. destruct N1 as (_ & _ & _ & W1). simpl app in W1.
  simpl negb in Hp. cbv iota in Hp. rewrite addr_mask in Hp.
  set (t1 := pfn (entry (pm s) root (pml4_index v)) * 4096) in *.
  destruct (Z.eqb_spec (entry (pm s) t1 (pdpt_index v) .& 5) 5) as [E2|]; [|simpl in Hp; congruence].
  pose proof (upper_next s root [pml4_index v] t1 _ Hwf Hu2 ltac:(simpl; lia) W1) as N2. cbv zeta in N2.
  rewrite present_bit, (proj1 (land5_bits _ E2)) in N2. destruct N2 as (_ & Hh2 & _ & W2). simpl app in W2.
  simpl negb in Hp. cbv iota in Hp. rewrite huge_0x80, Hh2, addr_mask in Hp.
  set (t2 := pfn (entry (pm s) t1 (pdpt_index v)) * 4096) in *.
  destruct (Z.eqb_spec (entry (pm s) t2 (pd_index v) .& 5) 5) as [E3|]; [|simpl in Hp; congruence].
  pose proof (upper_next s root [pml4_index v; pdpt_index v] t2 (pd_index v) Hwf Hu ltac:(simpl; lia) W2) as N3.
  cbv zeta in N3. rewrite present_bit, (proj1 (land5_bits _ E3)) in N3. destruct N3 as (_ & Hh3 & _ & W3).
  simpl app in W3. simpl negb in Hp. cbv iota in Hp. rewrite huge_0x80, Hh3, addr_mask in Hp.
  set (t3 := pfn (entry (pm s) t2 (pd_index v)) * 4096) in *.
  assert (Hl : leaf (pm s) root v = entry (pm s) t3 (pt_index v)) by (unfold leaf, vpath; by rewrite W3).
  rewrite <- Hl in Hp. destruct (Z.eqb_spec (leaf (pm s) root v .& 5) 5) as [E4|]; [|simpl in Hp; congruence].
  simpl negb in Hp. cbv iota in Hp. rewrite addr_mask in Hp. destruct (land5_bits _ E4) as [B0 B2].
  split; [lia|]. rewrite present_bit. split; [done|]. split; [done|]. rewrite <- Hp. f_equal.
  change 0xFFF with (Z.ones 12). rewrite Z.land_ones by lia. done.
Qed.

(** [m] has the tables of [root] as [s] has them. *)
Definition agree (s : vm) (root : Z) (m : pmem) : Prop :=
  forall n x, is_table s root n -> n * 4096 <= x < n * 4096 + 4096 -> m x = pm s x.

Lemma agree_entry s root m p t j :
  pt_wf s root -> agree s root m -> upath p -> (length p <= 3)%nat -> walk (pm s) root p = Some t -> idx j ->
  entry m t j = entry (pm s) t j.
Proof.
  intros Hwf Ha Hu Hl Hw Hj. destruct (tw_owned _ _ Hwf p t Hu Hl Hw) as (k & -> & _).
  apply ld64_ext. intros x Hx. unfold idx in Hj. apply (Ha k); [by exists p|lia].
Qed.

(** A present user entry of an upper level leads to the next table of the tree. *)
Lemma user_level s root p t i :
  pt_wf s root -> upath (p ++ [i]) -> (length p <= 2)%nat -> walk (pm s) root p = Some t ->
  entry (pm s) t i .& 5 = 5 ->
  walk (pm s) root (p ++ [i]) = Some (entry (pm s) t i .& PTE_ADDR_MASK) /\ huge (entry (pm s) t i) = false.
Proof.
  intros Hwf Hu Hl Hw E. pose proof (upper_next s root p t i Hwf Hu Hl Hw) as N. cbv zeta in N.
  rewrite present_bit, (proj1 (land5_bits _ E)) in N. rewrite addr_mask. by destruct N as (_ & ? & _ & ?).
Qed.

(** The translation reads nothing but the tables. *)
Lemma user_v2p_ext s root v m :
  pt_wf s root -> agree s root m -> user_v2p root v m = user_v2p root v (pm s).
Proof.
  intros Hwf Ha. unfold user_v2p. destruct (negb (truthy root)); [done|].
  destruct (_ || _) eqn:Er; [done|]. rewrite (root_mask _ _ Hwf).
  apply orb_false_iff in Er as [Hlo Hhi]. apply Z.ltb_ge in Hlo. apply Z.leb_gt in Hhi.
  assert (Hv : user_va v) by (apply user_range_va; lia). destruct (vpath_upath v Hv) as [Hu _].
  destruct (index_range v) as (I1 & I2 & I3 & I4).
  assert (Hu1 : upath ([] ++ [pml4_index v])) by (by apply (upath_prefix _ [pdpt_index v; pd_index v])).
  assert (Hu2 : upath ([pml4_index v] ++ [pdpt_index v])) by (by apply (upath_prefix _ [pd_index v])).
  rewrite (agree_entry s root m [] root) by (done || (by split) || (simpl; lia)).
  destruct (Z.eqb_spec (entry (pm s) root (pml4_index v) .& 5) 5) as [E1|]; [|done].
  destruct (user_level s root [] root _ Hwf Hu1 ltac:(simpl; lia) eq_refl E1) as [W1 _]. simpl app in W1.
  rewrite (agree_entry s root m _ _ _ Hwf Ha Hu1 ltac:(simpl; lia) W1 I2).
  set (t1 := entry (pm s) root (pml4_index v) .& PTE_ADDR_MASK) in *.
  destruct (Z.eqb_spec (entry (pm s) t1 (pdpt_index v) .& 5) 5) as [E2|]; [|done].
  destruct (user_level s root _ _ _ Hwf Hu2 ltac:(simpl; lia) W1 E2) as [W2 Hh2]. simpl app in W2.
  rewrite huge_0x80, Hh2.
  rewrite (agree_entry s root m _ _ _ Hwf Ha Hu2 ltac:(simpl; lia) W2 I3).
  set (t2 := entry (pm s) t1 (pdpt_index v) .& PTE_ADDR_MASK) in *.
  destruct (Z.eqb_spec (entry (pm s) t2 (pd_index v) .& 5) 5) as [E3|]; [|done].
  destruct (user_level s root [pml4_index v; pdpt_index v] t2 (pd_index v) Hwf Hu ltac:(simpl; lia) W2 E3) as [W3 Hh3]. simpl app in W3.
  rewrite huge_0x80, Hh3.
  by rewrite (agree_entry s root m _ _ _ Hwf Ha Hu ltac:(simpl; lia) W3 I4).
Qed.

(** A user byte is in a data frame, and different user addresses are different bytes. *)
Lemma user_byte_frame s root v :
  pt_wf s root -> leaves_wf s root -> user_v2p root v (pm s) <> 0 ->
  exists n, ~ is_table s root n /\ n * 4096 <= user_v2p root v (pm s) < n * 4096 + 4096.
Proof.
  intros Hwf [Hlo _] Hne. destruct (user_v2p_leaf s root v _ Hwf eq_refl Hne) as (Hr & Hp & _ & E).
  exists (pfn (leaf (pm s) root v)). split; [by apply Hlo; [apply user_range_va|]|].
  rewrite E. pose proof (Z.mod_pos_bound v 4096). lia.
Qed.

Lemma user_byte_inj s root v w :
  pt_wf s root -> leaves_wf s root -> user_v2p root v (pm s) <> 0 ->
  user_v2p root v (pm s) = user_v2p root w (pm s) -> v = w.
Proof.
  intros Hwf [_ Hli] Hne E. destruct (user_v2p_leaf s root v _ Hwf eq_refl Hne) as (Hr & Hp & _ & E1).
  destruct (user_v2p_leaf s root w _ Hwf eq_refl ltac:(congruence)) as (Hr2 & Hp2 & _ & E2).
  pose proof (Z.mod_pos_bound v 4096 ltac:(lia)). pose proof (Z.mod_pos_bound w 4096 ltac:(lia)).
  assert (Hf : pfn (leaf (pm s) root v) = pfn (leaf (pm s) root w)) by lia.
  pose proof (Hli v w (user_range_va v Hr) (user_range_va w Hr2) Hp Hp2 Hf) as Hs.
  unfold USER_SPACE_MIN, USER_SPACE_END in *. apply same_page_iff in Hs; [|lia..].
  rewrite (Z.div_mod v 4096), (Z.div_mod w 4096) by lia. lia.
Qed.

Lemma agree_st8 s root m v c :
  pt_wf s root -> leaves_wf s root -> user_v2p root v (pm s) <> 0 -> agree s root m ->
  agree s root (st8 m (user_v2p root v (pm s)) c).
Proof.
  intros Hwf Hlw Hne Ha n x Hn Hx. unfold st8. destruct (Z.eqb_spec x (user_v2p root v (pm s))) as [->|].
  - destruct (user_byte_frame s root v Hwf Hlw Hne) as (k & Hk & Hr). destruct Hk. by replace k with n by lia.
  - by apply (Ha n).
Qed.

Section copies.
  Context (s : vm) (root : Z) (Hwf : pt_wf s root) (Hlw : leaves_wf s root).

Lemma copy_to_user_ok bs v m m' :
    agree s root m -> copy_to_user root v bs m = (0, m') ->
    agree s root m' /\
    (forall i b, bs !! i = Some b -> user_v2p root (v + Z.of_nat i) (pm s) <> 0 /\
       m' (user_v2p root (v + Z.of_nat i) (pm s)) = u8 b) /\
    (forall x, (forall i, (i < length bs)%nat -> user_v2p root (v + Z.of_nat i) (pm s) <> x) -> m' x = m x).
  Proof.
    revert v m. induction bs as [|b bs IH]; intros v m Ha; cbn [copy_to_user].
    - intros [= <-]. split; [done|]. split; [by intros []|done].
    - rewrite (user_v2p_ext s root v m Hwf Ha).
      destruct (truthy (user_v2p root v (pm s))) eqn:Et; simpl negb; cbv iota; [|done].
      assert (Hne : user_v2p root v (pm s) <> 0) by (intros E; by rewrite E in Et).
      destruct (user_v2p_leaf s root v _ Hwf eq_refl Hne) as (Hr & _).
      unfold USER_SPACE_MIN, USER_SPACE_END in Hr. rewrite u64_small by lia. intros Hc.
      destruct (IH (v + 1) _ (agree_st8 s root m v b Hwf Hlw Hne Ha) Hc) as (A & B & D).
      assert (Hhead : m' (user_v2p root v (pm s)) = u8 b).
      { rewrite D; [unfold st8; by rewrite Z.eqb_refl|]. intros i Hi E.
        apply eq_sym, (user_byte_inj s root) in E; [lia|done..]. }
      split; [done|]. split.
      + intros [|i] b' Hb; simpl in Hb.
        * injection Hb as <-. rewrite Z.add_0_r. by split.
        * replace (v + Z.of_nat (S i)) with (v + 1 + Z.of_nat i) by lia. by apply B.
      + intros x Hx. rewrite D.
        * unfold st8. destruct (Z.eqb_spec x (user_v2p root v (pm s))) as [->|]; [|done].
          exfalso. apply (Hx 0%nat); [simpl; lia|]. by rewrite Z.add_0_r.
        * intros i Hi. replace (v + 1 + Z.of_nat i) with (v + Z.of_nat (S i)) by lia. apply Hx. simpl. lia.
  Qed.

Lemma copy_from_user_ok bs v m :
    agree s root m ->
    (forall i b, bs !! i = Some b -> user_v2p root (v + Z.of_nat i) (pm s) <> 0 /\
       m (user_v2p root (v + Z.of_nat i) (pm s)) = u8 b) ->
    copy_from_user root v (length bs) m = (0, map u8 bs).
  Proof.
    intros Ha. revert v. induction bs as [|b bs IH]; intros v Hb; [done|]. cbn [length copy_from_user map].
    rewrite (user_v2p_ext s root v m Hwf Ha). destruct (Hb 0%nat b eq_refl) as [Hne Hm].
    rewrite Z.add_0_r in Hne, Hm. destruct (user_v2p_leaf s root v _ Hwf eq_refl Hne) as (Hr & _).
    unfold truthy. destruct (Z.eqb_spec (user_v2p root v (pm s)) 0); [done|]. simpl negb. cbv iota.
    unfold USER_SPACE_MIN, USER_SPACE_END in Hr. rewrite u64_small by lia. rewrite IH.
    - unfold ld8. by rewrite Hm, u8_u8.
    - intros i b' Hi. replace (v + 1 + Z.of_nat i) with (v + Z.of_nat (S i)) by lia. by apply (Hb (S i)).
  Qed.
End copies.

(** C14: kernel copies to user space stay in user space: whenever [copy_to_user] succeeds,
    every byte went to a present user page of the lower half, the address space's
    tables and every other byte of memory are untouched, and [copy_from_user] reads the
    same bytes back. *)
Theorem copy_user_roundtrip s root v bs m' :
  pt_wf s root -> leaves_wf s root -> copy_to_user root v bs (pm s) = (0, m') ->
  copy_from_user root v (length bs) m' = (0, map u8 bs) /\
  agree s root m' /\
  (forall i, (i < length bs)%nat ->
     let a := v + Z.of_nat i in
     USER_SPACE_MIN <= a < USER_SPACE_END /\ present (leaf (pm s) root a) = true /\
     Z.testbit (leaf (pm s) root a) 2 = true /\
     user_v2p root a (pm s) = pfn (leaf (pm s) root a) * 4096 + a mod 4096) /\
  (forall x, (forall i, (i < length bs)%nat -> user_v2p root (v + Z.of_nat i) (pm s) <> x) -> m' x = pm s x).
Proof.
  intros Hwf Hlw Hc. destruct (copy_to_user_ok s root Hwf Hlw bs v (pm s) m' ltac:(done) Hc) as (A & B & D).
  split; [by apply (copy_from_user_ok s)|]. split; [done|]. split; [|done].
  intros i Hi. cbv zeta. destruct (lookup_lt_is_Some_2 bs i Hi) as [b Hb]. destruct (B i b Hb) as [Hne _].
  apply (user_v2p_leaf s root _ _ Hwf eq_refl Hne).
Qed.

(** The page of [v] is not writable in the space [root]. *)
Definition write_protected (m : pmem) (root v : Z) : Prop := truthy (leaf m root v .& PAGE_WRITABLE) = false.

(** The copies do not honour copy-on-write.  After a fork, a byte the kernel writes
    into a page of the child (as any system call with an output buffer does) is seen by
    the parent at the same address, although the page is mapped read-only in both. *)
Theorem copy_to_user_writes_through_cow s parent child s' v c :
  pt_wf s parent -> leaves_wf s parent ->
  clone_page_directory_cow parent s = (child, s') -> child <> 0 ->
  user_v2p parent v (pm s') <> 0 -> user_v2p child v (pm s') <> 0 ->
  write_protected (pm s') child v /\ write_protected (pm s') parent v /\
  exists m', copy_to_user child v [c] (pm s') = (0, m') /\ copy_from_user parent v 1 m' = (0, [u8 c]).
Proof.
  intros Hwf Hlw Hcl Hne Hp Hc. pose proof (clone_cloned s parent child s' Hwf Hlw Hcl Hne) as HC.
  destruct (user_v2p_leaf s' parent v _ (c_wfP _ _ _ _ _ HC) eq_refl Hp) as (Hr & Hpp & _ & Ep).
  destruct (user_v2p_leaf s' child v _ (c_wfC _ _ _ _ _ HC) eq_refl Hc) as (_ & Hpc & _ & Ec).
  pose proof (user_range_va v Hr) as Hv. unfold write_protected.
  rewrite (c_leafP _ _ _ _ _ HC), shared_all in Ep, Hpp by done.
  rewrite (c_leafC _ _ _ _ _ HC), shared_all in Ec, Hpc by done.
  rewrite (c_leafP _ _ _ _ _ HC), (c_leafC _ _ _ _ _ HC), shared_all by done.
  destruct (present (leaf (pm s) parent v)) eqn:Hpr; [|congruence].
  destruct (cow_of_facts (leaf (pm s) parent v) (leaf_range _ _ _)) as (Hpfn & _ & Hw & _).
  split; [done|]. split; [done|]. simpl copy_to_user. unfold truthy.
  destruct (Z.eqb_spec (user_v2p child v (pm s')) 0) as [|_]; [done|]. simpl negb. cbv iota.
  eexists. split; [reflexivity|]. assert (Eq : user_v2p child v (pm s') = user_v2p parent v (pm s')) by lia.
  assert (Ha : agree s' parent (st8 (pm s') (user_v2p child v (pm s')) c)).
  { intros n x Hn Hx. unfold st8. destruct (Z.eqb_spec x (user_v2p child v (pm s'))) as [->|]; [|done].
    destruct Hlw as [Hlo _]. destruct (Hlo v Hv Hpr) as [_ Hnt]. destruct Hnt.
    pose proof (Z.mod_pos_bound v 4096 ltac:(lia)). replace (pfn (leaf (pm s) parent v)) with n by lia.
    destruct Hn as (q & Hq & Hl & Hw'). exists q. split; [done|]. split; [done|].
    by rewrite <- (c_walkP _ _ _ _ _ HC). }
  simpl copy_from_user. rewrite (user_v2p_ext s' parent v _ (c_wfP _ _ _ _ _ HC) Ha). unfold truthy.
  destruct (Z.eqb_spec (user_v2p parent v (pm s')) 0); [done|]. simpl. unfold ld8, st8.
  by rewrite Eq, Z.eqb_refl, u8_u8.
Qed.

Lemma demo_fork_v2p :
  user_v2p demo_root (demo_va + 5) (pm demo_fork.2) = 0x2005 /\
  user_v2p demo_fork.1 (demo_va + 5) (pm demo_fork.2) = 0x2005 /\
  (copy_to_user demo_root (demo_va + 4090) [1; 2; 3] (pm demo_vm3)).1 = 0.
Proof. vm_compute. done. Qed.

#[local] Opaque demo_vm3 clone_page_directory_cow.

Lemma copy_user_roundtrip_witness :
  copy_from_user demo_root (demo_va + 4090) 3
    (copy_to_user demo_root (demo_va + 4090) [1; 2; 3] (pm demo_vm3)).2 = (0, [1; 2; 3]).
Proof.
  destruct demo_vm3_wf as (W & LW & _). destruct demo_fork_v2p as (_ & _ & E).
  destruct (copy_user_roundtrip demo_vm3 demo_root (demo_va + 4090) [1; 2; 3]
    (copy_to_user demo_root (demo_va + 4090) [1; 2; 3] (pm demo_vm3)).2 W LW) as [H _].
  - rewrite (surjective_pairing (copy_to_user _ _ _ _)) at 1. by rewrite E.
  - exact H.
Defined.

Lemma copy_to_user_writes_through_cow_witness :
  exists m', copy_to_user demo_fork.1 (demo_va + 5) [0x41] (pm demo_fork.2) = (0, m') /\
    copy_from_user demo_root (demo_va + 5) 1 m' = (0, [0x41]).
Proof.
  destruct demo_vm3_wf as (W & LW & _). destruct demo_fork_v2p as (E1 & E2 & _).
  destruct (copy_to_user_writes_through_cow demo_vm3 demo_root demo_fork.1 demo_fork.2 (demo_va + 5) 0x41 W LW
    (surjective_pairing demo_fork)) as (_ & _ & H).
  - rewrite demo_fork_child. lia.
  - rewrite E1. lia.
  - rewrite E2. lia.
  - exact H.
Defined.
