(* ===== verification/BootPaging.v ===== *)
(** The kernel's own page tables after boot (src/kernel/paging.c: [init_paging],
    [get_phys_addr]): all of RAM is mapped at its own address and again at
    [KERNEL_BASE], which is what lets the rest of the kernel use a frame's physical
    address as a pointer. *)
From Stdlib Require Import ZArith Lia.
From S2P Require Import Prelude Phys PageAlloc Paging PageTables.

Definition KERNEL_BASE : Z := 0xFFFFFF8000000000.

(** The 2 MB entry of block [i]. *)
Definition huge_entry (i : Z) : Z := (i * 0x200000) .| PAGE_PRESENT .| PAGE_WRITABLE .| PAGE_HUGE.

Lemma huge_entry_val i : 0 <= i < 512 -> huge_entry i = i * 2 ^ 21 + 0x83.
Proof.
  intros Hi. unfold huge_entry. rewrite <- !Z.lor_assoc.
  change (PAGE_PRESENT .| (PAGE_WRITABLE .| PAGE_HUGE)) with 0x83. apply (lor_add i 0x83 21); lia.
Qed.

Lemma identity_pages_range mt : 32 <= identity_pages mt <= 512.
Proof.
  unfold identity_pages, IDENTITY_MAP_MB. change (64 / 2) with 32.
  destruct (_ <? 32) eqn:E1; destruct (512 <? _) eqn:E2; bool_prop; lia.
Qed.

(** The loop that fills the page directory. *)
Lemma fill_pd_spec c k s :
  0 <= k <= 512 ->
  let s' := for_range (Z.to_nat k) 0 (fun i s => set_entry c i (huge_entry i) s) s in
  (forall i, 0 <= i < k -> entry (pm s') c i = huge_entry i) /\
  (forall a, a + 8 <= c \/ c + 4096 <= a -> ld64 (pm s') a = ld64 (pm s) a) /\
  kernel_pml4 s' = kernel_pml4 s /\ pa s' = pa s.
Proof.
  intros Hk. cbv zeta.
  pose proof (for_range_ind (fun n s' =>
    (forall i, 0 <= i < n -> entry (pm s') c i = huge_entry i) /\
    (forall a, a + 8 <= c \/ c + 4096 <= a -> ld64 (pm s') a = ld64 (pm s) a) /\
    kernel_pml4 s' = kernel_pml4 s /\ pa s' = pa s) (Z.to_nat k) 0
    (fun i s => set_entry c i (huge_entry i) s) s) as H.
  rewrite Z.add_0_l, Z2Nat.id in H by lia. apply H.
  - split; [lia|done].
  - intros i s1 Hi (H1 & H2 & H3 & H4). split; [|split; [|done]].
    + intros j Hj. unfold entry; simpl pm. destruct (Z.eq_dec j i) as [->|].
      * rewrite ld64_st64_same. rewrite huge_entry_val by lia. apply u64_small. lia.
      * rewrite ld64_st64_other by lia. apply H1. lia.
    + intros a Ha. simpl pm. rewrite ld64_st64_other by lia. by apply H2.
Qed.

(** What [init_paging] leaves in memory: the three tables of frames [a], [b], [c]. *)
Record boot_tables (s : vm) (a b c k : Z) : Prop := {
  bt_root : kernel_pml4 s = a * 4096;
  bt_frames : 0 < a < MAX_PAGES /\ 0 < b < MAX_PAGES /\ 0 < c < MAX_PAGES;
  bt_low : entry (pm s) (a * 4096) 0 = b * 4096 + 3;
  bt_high : entry (pm s) (a * 4096) 511 = b * 4096 + 3;
  bt_pdpt : entry (pm s) (b * 4096) 0 = c * 4096 + 3;
  bt_pd : forall i, 0 <= i < k -> entry (pm s) (c * 4096) i = i * 2 ^ 21 + 0x83
}.

Lemma init_paging_tables mt s :
  fs_inv (pa s) ->
  match init_paging mt s with
  | Some s' => exists a b c, boot_tables s' a b c (identity_pages mt)
  | None => exists s1, page_alloc s1 = (0, s1)
  end.
Proof.
  intros Hi. pose proof (identity_pages_range mt) as Hk. unfold init_paging.
  destruct (page_alloc_cases s Hi) as [(a & pa1 & -> & Ha & _ & Hi1 & Ho1 & _)|E]; [|rewrite E; by exists s].
  rewrite truthy_frame by lia. simpl negb. cbv iota.
  set (s1 := zero_page (a * 4096) (set_pa pa1 s)).
  destruct (page_alloc_cases s1 Hi1) as [(b & pa2 & -> & Hb & Nb & Hi2 & Ho2 & _)|E]; [|rewrite E; by exists s1].
  rewrite truthy_frame by lia. simpl negb. cbv iota.
  set (s2 := zero_page (b * 4096) (set_pa pa2 s1)).
  destruct (page_alloc_cases s2 Hi2) as [(c & pa3 & -> & Hc & Nc & _)|E]; [|rewrite E; by exists s2].
  rewrite truthy_frame by lia. simpl negb. cbv iota.
  assert (Hab : a <> b) by (intros ->; apply Nb, Ho1; by right).
  assert (Hac : a <> c) by (intros ->; apply Nc, Ho2; left; apply Ho1; by right).
  assert (Hbc : b <> c) by (intros ->; apply Nc, Ho2; by right).
  set (s3 := zero_page (c * 4096) (set_pa pa3 s2)).
  pose proof (fill_pd_spec (c * 4096) (identity_pages mt) s3 ltac:(lia)) as F. cbv zeta in F.
  fold huge_entry. destruct F as (F1 & F2 & _ & _).
  change (fun (i : Z) (s : vm) => set_entry (c * 4096) i
    ((i * 0x200000) .| PAGE_PRESENT .| PAGE_WRITABLE .| PAGE_HUGE) s)
    with (fun (i : Z) (s : vm) => set_entry (c * 4096) i (huge_entry i) s).
  set (s4 := for_range _ _ _ s3) in *. clearbody s4. exists a, b, c. rewrite max_pages_val in *.
  assert (Hfl : forall n, 0 < n < 131072 -> n * 4096 .| PAGE_PRESENT .| PAGE_WRITABLE = n * 4096 + 3 /\
    0 <= n * 4096 + 3 < 2 ^ 64).
  { intros n Hn. rewrite <- Z.lor_assoc. split; [|lia]. apply (proj1 (frame_flags n 3 ltac:(lia) ltac:(lia))). }
  destruct (Hfl b Hb) as [Eb Rb], (Hfl c Hc) as [Ec Rc].
  constructor.
  - done.
  - rewrite max_pages_val. done.
  - unfold entry, PML4_HIGHER, PML4_IDENTITY. simpl pm. rewrite ld64_st64_other by lia.
    rewrite ld64_st64_same, Eb. apply u64_small. lia.
  - unfold entry, PML4_HIGHER, PML4_IDENTITY. simpl pm. rewrite ld64_st64_same.
    unfold entry. simpl pm. rewrite ld64_st64_same, Eb. rewrite (u64_small (b * 4096 + 3)) by lia. apply u64_small. lia.
  - unfold entry, PML4_HIGHER, PML4_IDENTITY. simpl pm. rewrite !(ld64_st64_other _ (a * 4096 + _)) by lia.
    rewrite ld64_st64_same, Ec. apply u64_small. lia.
  - intros i Hix. unfold entry, PML4_HIGHER, PML4_IDENTITY. simpl pm.
    rewrite !(ld64_st64_other _ (a * 4096 + _)) by lia. rewrite ld64_st64_other by lia.
    rewrite <- huge_entry_val by lia. by apply F1.
Qed.

(** A walk that reaches block [i] through root entry [r]. *)
Lemma boot_walk s a b c k v i :
  boot_tables s a b c k -> 0 <= i < k -> k <= 512 ->
  (pml4_index v = 0 \/ pml4_index v = 511) -> pdpt_index v = 0 -> pd_index v = i ->
  get_phys_addr v s = i * 2 ^ 21 + v mod 2 ^ 21.
Proof.
  intros [Er [Ra [Rb Rc]] El Eh Ep Ed] Hi Hk H1 H2 H3. rewrite max_pages_val in *. unfold get_phys_addr.
  rewrite Er, truthy_frame by lia. simpl negb. cbv iota. rewrite H2, H3.
  assert (E1 : entry (pm s) (a * 4096) (pml4_index v) = b * 4096 + 3) by (destruct H1 as [-> | ->]; done).
  assert (Hf : forall n, 0 < n < 131072 -> present (n * 4096 + 3) = true /\ huge (n * 4096 + 3) = false /\
    (n * 4096 + 3) .& not64 0xFFF = n * 4096).
  { intros n Hn. rewrite present_bit, huge_bit, page_mask by lia. change 4096 with (2 ^ 12) at 1 2.
    rewrite !testbit_low by lia. destruct (frame_flags n 3 ltac:(lia) ltac:(lia)) as (_ & -> & _). done. }
  destruct (Hf b Rb) as (B1 & B2 & B3), (Hf c Rc) as (C1 & C2 & C3).
  rewrite E1, B1, B3. simpl negb. cbv iota. rewrite Ep, C1, C2, C3. simpl negb. cbv iota.
  rewrite Ed by done.
  assert (Hp : present (i * 2 ^ 21 + 0x83) = true) by (rewrite present_bit, testbit_low by lia; done).
  assert (Hh : huge (i * 2 ^ 21 + 0x83) = true) by (rewrite huge_bit, testbit_low by lia; done).
  rewrite Hp, Hh. simpl negb. cbv iota. rewrite land_not64_pow2 by lia.
  rewrite Z.div_add_l, (Z.div_small 0x83), Z.add_0_r by lia.
  change (2 ^ 21 - 1) with (Z.ones 21). rewrite Z.land_ones by lia.
  apply u64_small. pose proof (Z.mod_pos_bound v (2 ^ 21) ltac:(lia)). lia.
Qed.

(** unless it ran out of frames (the kernel panics then), [init_paging] maps every
    physical address below the identity limit twice: at itself and at [KERNEL_BASE]
    above it.  The limit is 2 MB times a count between 32 and 512 and covers the whole
    megabytes of [memory_total] up to 1 GB; a last partial megabyte may be left out. *)
Theorem init_paging_identity mt s s' :
  fs_inv (pa s) -> 0 <= mt < 2 ^ 64 -> init_paging mt s = Some s' ->
  let limit := identity_pages mt * 2 ^ 21 in
  (forall v, 0 <= v < limit -> get_phys_addr v s' = v /\ get_phys_addr (KERNEL_BASE + v) s' = v) /\
  2 ^ 26 <= limit <= 2 ^ 30 /\ (mt <= 2 ^ 30 -> mt / 2 ^ 20 * 2 ^ 20 <= limit) /\
  identity_pages (127 * 2 ^ 20 - 4096) * 2 ^ 21 < 127 * 2 ^ 20 - 4096.
Proof.
  intros Hi Hmt E. cbv zeta. pose proof (init_paging_tables mt s Hi) as H. rewrite E in H.
  destruct H as (a & b & c & HT). pose proof (identity_pages_range mt) as Hk.
  split; [|split; [lia|split; [|vm_compute; reflexivity]]].
  - intros v Hv.
    assert (Hblk : 0 <= v / 2 ^ 21 < identity_pages mt)
      by (split; [apply Z.div_pos; lia|apply Z.div_lt_upper_bound; lia]).
    assert (Hix : forall h, 0 <= h -> pdpt_index (h * 2 ^ 39 + v) = 0 /\ pd_index (h * 2 ^ 39 + v) = v / 2 ^ 21 /\
      pml4_index (h * 2 ^ 39 + v) = h mod 512 /\ (h * 2 ^ 39 + v) mod 2 ^ 21 = v mod 2 ^ 21).
    { intros h Hh. unfold pml4_index, pdpt_index, pd_index. change 0x1FF with (Z.ones 9).
      rewrite !Z.land_ones, !Z.shiftr_div_pow2 by lia. clear -Hv Hk Hh.
      repeat split; Z.to_euclidean_division_equations; lia. }
    assert (Hv2 : v = (v / 2 ^ 21) * 2 ^ 21 + v mod 2 ^ 21) by (rewrite (Z.div_mod v (2 ^ 21)) at 1; lia).
    split.
    + destruct (Hix 0 ltac:(lia)) as (I1 & I2 & I3 & I4). rewrite Z.mul_0_l, Z.add_0_l in *.
      rewrite (boot_walk s' a b c _ v (v / 2 ^ 21) HT) by (done || lia || (left; done)). lia.
    + change KERNEL_BASE with ((2 ^ 25 - 1) * 2 ^ 39). destruct (Hix (2 ^ 25 - 1) ltac:(lia)) as (I1 & I2 & I3 & I4).
      rewrite (boot_walk s' a b c _ _ (v / 2 ^ 21) HT) by (done || lia || (right; done)). lia.
  - intros Hle. unfold identity_pages, IDENTITY_MAP_MB, truthy. change (64 / 2) with 32.
    destruct (Z.eqb_spec mt 0) as [->|]; [by vm_compute|]. simpl negb. cbv iota.
    rewrite Z.shiftr_div_pow2 by lia.
    assert (Hd : 0 <= mt / 2 ^ 20 <= 1024) by (split; [apply Z.div_pos; lia|]; apply Z.div_le_upper_bound; lia).
    rewrite u64_small by lia. unfold s32. rewrite u32_small by (Z.to_euclidean_division_equations; lia).
    destruct (Z.ltb_spec ((mt / 2 ^ 20 + 1) / 2) (2 ^ 31)); [|Z.to_euclidean_division_equations; lia].
    case_cmp; case_cmp; Z.to_euclidean_division_equations; lia.
Qed.

Lemma init_paging_identity_witness :
  get_phys_addr (KERNEL_BASE + 0x3FFFFFF) (default demo_vm0 (init_paging 0 demo_vm0)) = 0x3FFFFFF.
Proof.
  destruct (init_paging 0 demo_vm0) as [s'|] eqn:E.
  - simpl default. destruct (init_paging_identity 0 demo_vm0 s' demo_frames_wf ltac:(lia) E) as (H & _).
    apply (H 0x3FFFFFF). vm_compute. split; congruence.
  - exfalso. assert (H : match init_paging 0 demo_vm0 with Some _ => true | None => false end = true)
      by (vm_compute; reflexivity).
    by rewrite E in H.
Defined.
