(* ===== verification/Process.v ===== *)
(** Processes (src/kernel/process.c and the [process_t] of src/kernel/kernel.h):
    the process descriptors, the process table and the look-ups every other
    component goes through.

    A [process_t*] is an address, [0] being NULL; the descriptors live in a finite
    map from address to contents, so two tables naming the same process share it
    and a freed descriptor is an address the map no longer has.  The first
    [process_count] entries of [process_table] are a list of addresses; the code
    never reads an entry beyond them.  Only the fields the modelled operations
    use are kept.  Page tables and physical memory are the [vm] of Paging.v;
    calls into the kernel heap, the pipes and the file layers are recorded in the
    order they are made in [calls]. *)
From Stdlib Require Import ZArith Lia.
From S2P Require Import Prelude Phys PageAlloc Paging.

Definition PROC_PARKED : Z := 0.
Definition PROC_RUN : Z := 1.
Definition PROC_ZOMBIE : Z := 2.
Definition PROC_BLOCKED : Z := 3.
Definition PROC_STOPPED : Z := 4.

Definition MAX_PROCESSES : Z := 512.
Definition PROC_MAX_FDS : Z := 32.
Definition PROC_MAX_VMAS : Z := 16.
Definition MAX_CPUS : Z := 8.

Definition UFD_PIPE_FLAG : Z := 0x40000000.
Definition UFD_SOCK_FLAG : Z := 0x20000000.
Definition UFD_PIPE_ID (h : Z) : Z := (h .& 0x3FFFFFFF) >> 1.
Definition UFD_PIPE_IS_WRITE (h : Z) : Z := h .& 1.
Definition UFD_SOCK_ID (h : Z) : Z := h .& 0xFFFF.

(** A mapped region of an address space ([vma_t]). *)
Record vma := Vma {
  v_start : Z;
  v_end : Z;
  v_prot : Z;
  v_used : Z;
  v_file_buf : Z;  (* address of the private snapshot, 0 = anonymous *)
  v_file_size : Z
}.

Definition set_v_start (v : Z) (r : vma) : vma :=
  Vma v (v_end r) (v_prot r) (v_used r) (v_file_buf r) (v_file_size r).
Definition set_v_end (v : Z) (r : vma) : vma :=
  Vma (v_start r) v (v_prot r) (v_used r) (v_file_buf r) (v_file_size r).
Definition set_v_prot (v : Z) (r : vma) : vma :=
  Vma (v_start r) (v_end r) v (v_used r) (v_file_buf r) (v_file_size r).
Definition set_v_used (v : Z) (r : vma) : vma :=
  Vma (v_start r) (v_end r) (v_prot r) v (v_file_buf r) (v_file_size r).
Definition set_v_file_buf (v : Z) (r : vma) : vma :=
  Vma (v_start r) (v_end r) (v_prot r) (v_used r) v (v_file_size r).
Definition set_v_file_size (v : Z) (r : vma) : vma :=
  Vma (v_start r) (v_end r) (v_prot r) (v_used r) (v_file_buf r) v.

(** Scheduling, blocking and job control. *)
Record sched_part := SchedPart {
  state : Z;
  waiting_for : Z;
  blocked_in_kernel : Z;
  wake_tick : Z;
  futex_key : Z;
  stop_sig : Z;
  stopped_reported : Z;
  sched_managed : Z;
  sched_weight : Z;
  sched_quantum : Z;
  sched_cpu : Z;
  exit_code : Z;
  alarm_tick : Z
}.

Definition set_state (v : Z) (r : sched_part) : sched_part :=
  SchedPart v (waiting_for r) (blocked_in_kernel r) (wake_tick r) (futex_key r) (stop_sig r)
    (stopped_reported r) (sched_managed r) (sched_weight r) (sched_quantum r) (sched_cpu r)
    (exit_code r) (alarm_tick r).
Definition set_waiting_for (v : Z) (r : sched_part) : sched_part :=
  SchedPart (state r) v (blocked_in_kernel r) (wake_tick r) (futex_key r) (stop_sig r)
    (stopped_reported r) (sched_managed r) (sched_weight r) (sched_quantum r) (sched_cpu r)
    (exit_code r) (alarm_tick r).
Definition set_blocked_in_kernel (v : Z) (r : sched_part) : sched_part :=
  SchedPart (state r) (waiting_for r) v (wake_tick r) (futex_key r) (stop_sig r) (stopped_reported
    r) (sched_managed r) (sched_weight r) (sched_quantum r) (sched_cpu r) (exit_code r) (alarm_tick
    r).
Definition set_wake_tick (v : Z) (r : sched_part) : sched_part :=
  SchedPart (state r) (waiting_for r) (blocked_in_kernel r) v (futex_key r) (stop_sig r)
    (stopped_reported r) (sched_managed r) (sched_weight r) (sched_quantum r) (sched_cpu r)
    (exit_code r) (alarm_tick r).
Definition set_futex_key (v : Z) (r : sched_part) : sched_part :=
  SchedPart (state r) (waiting_for r) (blocked_in_kernel r) (wake_tick r) v (stop_sig r)
    (stopped_reported r) (sched_managed r) (sched_weight r) (sched_quantum r) (sched_cpu r)
    (exit_code r) (alarm_tick r).
Definition set_stop_sig (v : Z) (r : sched_part) : sched_part :=
  SchedPart (state r) (waiting_for r) (blocked_in_kernel r) (wake_tick r) (futex_key r) v
    (stopped_reported r) (sched_managed r) (sched_weight r) (sched_quantum r) (sched_cpu r)
    (exit_code r) (alarm_tick r).
Definition set_stopped_reported (v : Z) (r : sched_part) : sched_part :=
  SchedPart (state r) (waiting_for r) (blocked_in_kernel r) (wake_tick r) (futex_key r) (stop_sig
    r) v (sched_managed r) (sched_weight r) (sched_quantum r) (sched_cpu r) (exit_code r)
    (alarm_tick r).
Definition set_sched_managed (v : Z) (r : sched_part) : sched_part :=
  SchedPart (state r) (waiting_for r) (blocked_in_kernel r) (wake_tick r) (futex_key r) (stop_sig
    r) (stopped_reported r) v (sched_weight r) (sched_quantum r) (sched_cpu r) (exit_code r)
    (alarm_tick r).
Definition set_sched_weight (v : Z) (r : sched_part) : sched_part :=
  SchedPart (state r) (waiting_for r) (blocked_in_kernel r) (wake_tick r) (futex_key r) (stop_sig
    r) (stopped_reported r) (sched_managed r) v (sched_quantum r) (sched_cpu r) (exit_code r)
    (alarm_tick r).
Definition set_sched_quantum (v : Z) (r : sched_part) : sched_part :=
  SchedPart (state r) (waiting_for r) (blocked_in_kernel r) (wake_tick r) (futex_key r) (stop_sig
    r) (stopped_reported r) (sched_managed r) (sched_weight r) v (sched_cpu r) (exit_code r)
    (alarm_tick r).
Definition set_sched_cpu (v : Z) (r : sched_part) : sched_part :=
  SchedPart (state r) (waiting_for r) (blocked_in_kernel r) (wake_tick r) (futex_key r) (stop_sig
    r) (stopped_reported r) (sched_managed r) (sched_weight r) (sched_quantum r) v (exit_code r)
    (alarm_tick r).
Definition set_exit_code (v : Z) (r : sched_part) : sched_part :=
  SchedPart (state r) (waiting_for r) (blocked_in_kernel r) (wake_tick r) (futex_key r) (stop_sig
    r) (stopped_reported r) (sched_managed r) (sched_weight r) (sched_quantum r) (sched_cpu r) v
    (alarm_tick r).
Definition set_alarm_tick (v : Z) (r : sched_part) : sched_part :=
  SchedPart (state r) (waiting_for r) (blocked_in_kernel r) (wake_tick r) (futex_key r) (stop_sig
    r) (stopped_reported r) (sched_managed r) (sched_weight r) (sched_quantum r) (sched_cpu r)
    (exit_code r) v.

(** Signals. *)
Record sig_part := SigPart {
  sig_pending : Z;
  sig_mask : Z;
  sig_active : Z;
  sig_handlers : Z -> Z;
  sig_trampoline : Z;
  sig_saved : Z -> Z  (* 18 words *)
}.

Definition set_sig_pending (v : Z) (r : sig_part) : sig_part :=
  SigPart v (sig_mask r) (sig_active r) (sig_handlers r) (sig_trampoline r) (sig_saved r).
Definition set_sig_mask (v : Z) (r : sig_part) : sig_part :=
  SigPart (sig_pending r) v (sig_active r) (sig_handlers r) (sig_trampoline r) (sig_saved r).
Definition set_sig_active (v : Z) (r : sig_part) : sig_part :=
  SigPart (sig_pending r) (sig_mask r) v (sig_handlers r) (sig_trampoline r) (sig_saved r).
Definition set_sig_handlers (v : Z -> Z) (r : sig_part) : sig_part :=
  SigPart (sig_pending r) (sig_mask r) (sig_active r) v (sig_trampoline r) (sig_saved r).
Definition set_sig_trampoline (v : Z) (r : sig_part) : sig_part :=
  SigPart (sig_pending r) (sig_mask r) (sig_active r) (sig_handlers r) v (sig_saved r).
Definition set_sig_saved (v : Z -> Z) (r : sig_part) : sig_part :=
  SigPart (sig_pending r) (sig_mask r) (sig_active r) (sig_handlers r) (sig_trampoline r) v.

(** Address space and descriptors a thread group shares through its leader. *)
Record mm_part := MmPart {
  heap_start : Z;
  program_break : Z;
  mmap_vmas : list vma;  (* PROC_MAX_VMAS entries *)
  mmap_next : Z;
  ufd_inuse : Z -> Z;
  ufd_handle : Z -> Z;
  ufd_offset : Z -> Z
}.

Definition set_heap_start (v : Z) (r : mm_part) : mm_part :=
  MmPart v (program_break r) (mmap_vmas r) (mmap_next r) (ufd_inuse r) (ufd_handle r) (ufd_offset
    r).
Definition set_program_break (v : Z) (r : mm_part) : mm_part :=
  MmPart (heap_start r) v (mmap_vmas r) (mmap_next r) (ufd_inuse r) (ufd_handle r) (ufd_offset r).
Definition set_mmap_vmas (v : list vma) (r : mm_part) : mm_part :=
  MmPart (heap_start r) (program_break r) v (mmap_next r) (ufd_inuse r) (ufd_handle r) (ufd_offset
    r).
Definition set_mmap_next (v : Z) (r : mm_part) : mm_part :=
  MmPart (heap_start r) (program_break r) (mmap_vmas r) v (ufd_inuse r) (ufd_handle r) (ufd_offset
    r).
Definition set_ufd_inuse (v : Z -> Z) (r : mm_part) : mm_part :=
  MmPart (heap_start r) (program_break r) (mmap_vmas r) (mmap_next r) v (ufd_handle r) (ufd_offset
    r).
Definition set_ufd_handle (v : Z -> Z) (r : mm_part) : mm_part :=
  MmPart (heap_start r) (program_break r) (mmap_vmas r) (mmap_next r) (ufd_inuse r) v (ufd_offset
    r).
Definition set_ufd_offset (v : Z -> Z) (r : mm_part) : mm_part :=
  MmPart (heap_start r) (program_break r) (mmap_vmas r) (mmap_next r) (ufd_inuse r) (ufd_handle r)
    v.

(** Names and terminal mode; strings without their terminating NUL. *)
Record text_part := TextPart {
  comm : list Z;
  cmdline : list Z;
  cwd : list Z;
  tty_raw : Z
}.

Definition set_comm (v : list Z) (r : text_part) : text_part :=
  TextPart v (cmdline r) (cwd r) (tty_raw r).
Definition set_cmdline (v : list Z) (r : text_part) : text_part :=
  TextPart (comm r) v (cwd r) (tty_raw r).
Definition set_cwd (v : list Z) (r : text_part) : text_part :=
  TextPart (comm r) (cmdline r) v (tty_raw r).
Definition set_tty_raw (v : Z) (r : text_part) : text_part :=
  TextPart (comm r) (cmdline r) (cwd r) v.

(** [process_t]. *)
Record proc := Proc {
  pid : Z;
  ppid : Z;
  tgid : Z;
  page_directory : Z;
  stack : Z;
  kernel_stack : Z;
  p_sched : sched_part;
  p_sig : sig_part;
  p_mm : mm_part;
  p_text : text_part
}.

Definition set_pid (v : Z) (r : proc) : proc :=
  Proc v (ppid r) (tgid r) (page_directory r) (stack r) (kernel_stack r) (p_sched r) (p_sig r)
    (p_mm r) (p_text r).
Definition set_ppid (v : Z) (r : proc) : proc :=
  Proc (pid r) v (tgid r) (page_directory r) (stack r) (kernel_stack r) (p_sched r) (p_sig r) (p_mm
    r) (p_text r).
Definition set_tgid (v : Z) (r : proc) : proc :=
  Proc (pid r) (ppid r) v (page_directory r) (stack r) (kernel_stack r) (p_sched r) (p_sig r) (p_mm
    r) (p_text r).
Definition set_page_directory (v : Z) (r : proc) : proc :=
  Proc (pid r) (ppid r) (tgid r) v (stack r) (kernel_stack r) (p_sched r) (p_sig r) (p_mm r)
    (p_text r).
Definition set_stack (v : Z) (r : proc) : proc :=
  Proc (pid r) (ppid r) (tgid r) (page_directory r) v (kernel_stack r) (p_sched r) (p_sig r) (p_mm
    r) (p_text r).
Definition set_kernel_stack (v : Z) (r : proc) : proc :=
  Proc (pid r) (ppid r) (tgid r) (page_directory r) (stack r) v (p_sched r) (p_sig r) (p_mm r)
    (p_text r).
Definition set_p_sched (v : sched_part) (r : proc) : proc :=
  Proc (pid r) (ppid r) (tgid r) (page_directory r) (stack r) (kernel_stack r) v (p_sig r) (p_mm r)
    (p_text r).
Definition set_p_sig (v : sig_part) (r : proc) : proc :=
  Proc (pid r) (ppid r) (tgid r) (page_directory r) (stack r) (kernel_stack r) (p_sched r) v (p_mm
    r) (p_text r).
Definition set_p_mm (v : mm_part) (r : proc) : proc :=
  Proc (pid r) (ppid r) (tgid r) (page_directory r) (stack r) (kernel_stack r) (p_sched r) (p_sig
    r) v (p_text r).
Definition set_p_text (v : text_part) (r : proc) : proc :=
  Proc (pid r) (ppid r) (tgid r) (page_directory r) (stack r) (kernel_stack r) (p_sched r) (p_sig
    r) (p_mm r) v.

(** Updates of one field of a part. *)
Definition on_sched (f : sched_part -> sched_part) (p : proc) : proc := set_p_sched (f (p_sched p)) p.
Definition on_sig (f : sig_part -> sig_part) (p : proc) : proc := set_p_sig (f (p_sig p)) p.
Definition on_mm (f : mm_part -> mm_part) (p : proc) : proc := set_p_mm (f (p_mm p)) p.
Definition on_text (f : text_part -> text_part) (p : proc) : proc := set_p_text (f (p_text p)) p.

(** Calls into other components, in program order. *)
Inductive kcall :=
| CallPipeClose (id is_write : Z)
| CallPipeIncref (id is_write : Z)
| CallSockClose (id : Z)
| CallVfsClose (h : Z)
| CallKfree (ptr : Z).

(** The part of the kernel's global state the process code works on. *)
Record kst := Kst {
  pstore : gmap Z proc;  (* process_t objects by address *)
  process_table : list Z;  (* process_count = its length *)
  current_idx : Z;  (* the boot CPU's round-robin cursor *)
  sched_cur : Z -> Z;  (* cpu_info[i].sched_cur *)
  this_cpu : Z;  (* cpu_self()->cpu_number *)
  user_cr3 : Z;  (* of this CPU, as the next ones *)
  user_rsp : Z;
  kernel_rsp : Z;
  tss_rsp0 : Z;
  saved_rsp : Z;
  next_rsp : Z;
  next_cr3 : Z;
  preempt_count : Z;
  syscall_frame : option (Z -> Z);  (* words at syscall_frame_ptr, None = NULL *)
  tick_count : Z;
  sched_enabled : Z;
  idle_proc : Z;
  next_pid : Z;
  g_foreground_pid : Z;
  kernel_pml4_phys : Z;
  kvm : vm;  (* physical memory and page tables *)
  calls : list kcall
}.

Definition set_pstore (v : gmap Z proc) (r : kst) : kst :=
  Kst v (process_table r) (current_idx r) (sched_cur r) (this_cpu r) (user_cr3 r) (user_rsp r)
    (kernel_rsp r) (tss_rsp0 r) (saved_rsp r) (next_rsp r) (next_cr3 r) (preempt_count r)
    (syscall_frame r) (tick_count r) (sched_enabled r) (idle_proc r) (next_pid r) (g_foreground_pid
    r) (kernel_pml4_phys r) (kvm r) (calls r).
Definition set_process_table (v : list Z) (r : kst) : kst :=
  Kst (pstore r) v (current_idx r) (sched_cur r) (this_cpu r) (user_cr3 r) (user_rsp r) (kernel_rsp
    r) (tss_rsp0 r) (saved_rsp r) (next_rsp r) (next_cr3 r) (preempt_count r) (syscall_frame r)
    (tick_count r) (sched_enabled r) (idle_proc r) (next_pid r) (g_foreground_pid r)
    (kernel_pml4_phys r) (kvm r) (calls r).
Definition set_current_idx (v : Z) (r : kst) : kst :=
  Kst (pstore r) (process_table r) v (sched_cur r) (this_cpu r) (user_cr3 r) (user_rsp r)
    (kernel_rsp r) (tss_rsp0 r) (saved_rsp r) (next_rsp r) (next_cr3 r) (preempt_count r)
    (syscall_frame r) (tick_count r) (sched_enabled r) (idle_proc r) (next_pid r) (g_foreground_pid
    r) (kernel_pml4_phys r) (kvm r) (calls r).
Definition set_sched_cur (v : Z -> Z) (r : kst) : kst :=
  Kst (pstore r) (process_table r) (current_idx r) v (this_cpu r) (user_cr3 r) (user_rsp r)
    (kernel_rsp r) (tss_rsp0 r) (saved_rsp r) (next_rsp r) (next_cr3 r) (preempt_count r)
    (syscall_frame r) (tick_count r) (sched_enabled r) (idle_proc r) (next_pid r) (g_foreground_pid
    r) (kernel_pml4_phys r) (kvm r) (calls r).
Definition set_this_cpu (v : Z) (r : kst) : kst :=
  Kst (pstore r) (process_table r) (current_idx r) (sched_cur r) v (user_cr3 r) (user_rsp r)
    (kernel_rsp r) (tss_rsp0 r) (saved_rsp r) (next_rsp r) (next_cr3 r) (preempt_count r)
    (syscall_frame r) (tick_count r) (sched_enabled r) (idle_proc r) (next_pid r) (g_foreground_pid
    r) (kernel_pml4_phys r) (kvm r) (calls r).
Definition set_user_cr3 (v : Z) (r : kst) : kst :=
  Kst (pstore r) (process_table r) (current_idx r) (sched_cur r) (this_cpu r) v (user_rsp r)
    (kernel_rsp r) (tss_rsp0 r) (saved_rsp r) (next_rsp r) (next_cr3 r) (preempt_count r)
    (syscall_frame r) (tick_count r) (sched_enabled r) (idle_proc r) (next_pid r) (g_foreground_pid
    r) (kernel_pml4_phys r) (kvm r) (calls r).
Definition set_user_rsp (v : Z) (r : kst) : kst :=
  Kst (pstore r) (process_table r) (current_idx r) (sched_cur r) (this_cpu r) (user_cr3 r) v
    (kernel_rsp r) (tss_rsp0 r) (saved_rsp r) (next_rsp r) (next_cr3 r) (preempt_count r)
    (syscall_frame r) (tick_count r) (sched_enabled r) (idle_proc r) (next_pid r) (g_foreground_pid
    r) (kernel_pml4_phys r) (kvm r) (calls r).
Definition set_kernel_rsp (v : Z) (r : kst) : kst :=
  Kst (pstore r) (process_table r) (current_idx r) (sched_cur r) (this_cpu r) (user_cr3 r)
    (user_rsp r) v (tss_rsp0 r) (saved_rsp r) (next_rsp r) (next_cr3 r) (preempt_count r)
    (syscall_frame r) (tick_count r) (sched_enabled r) (idle_proc r) (next_pid r) (g_foreground_pid
    r) (kernel_pml4_phys r) (kvm r) (calls r).
Definition set_tss_rsp0 (v : Z) (r : kst) : kst :=
  Kst (pstore r) (process_table r) (current_idx r) (sched_cur r) (this_cpu r) (user_cr3 r)
    (user_rsp r) (kernel_rsp r) v (saved_rsp r) (next_rsp r) (next_cr3 r) (preempt_count r)
    (syscall_frame r) (tick_count r) (sched_enabled r) (idle_proc r) (next_pid r) (g_foreground_pid
    r) (kernel_pml4_phys r) (kvm r) (calls r).
Definition set_saved_rsp (v : Z) (r : kst) : kst :=
  Kst (pstore r) (process_table r) (current_idx r) (sched_cur r) (this_cpu r) (user_cr3 r)
    (user_rsp r) (kernel_rsp r) (tss_rsp0 r) v (next_rsp r) (next_cr3 r) (preempt_count r)
    (syscall_frame r) (tick_count r) (sched_enabled r) (idle_proc r) (next_pid r) (g_foreground_pid
    r) (kernel_pml4_phys r) (kvm r) (calls r).
Definition set_next_rsp (v : Z) (r : kst) : kst :=
  Kst (pstore r) (process_table r) (current_idx r) (sched_cur r) (this_cpu r) (user_cr3 r)
    (user_rsp r) (kernel_rsp r) (tss_rsp0 r) (saved_rsp r) v (next_cr3 r) (preempt_count r)
    (syscall_frame r) (tick_count r) (sched_enabled r) (idle_proc r) (next_pid r) (g_foreground_pid
    r) (kernel_pml4_phys r) (kvm r) (calls r).
Definition set_next_cr3 (v : Z) (r : kst) : kst :=
  Kst (pstore r) (process_table r) (current_idx r) (sched_cur r) (this_cpu r) (user_cr3 r)
    (user_rsp r) (kernel_rsp r) (tss_rsp0 r) (saved_rsp r) (next_rsp r) v (preempt_count r)
    (syscall_frame r) (tick_count r) (sched_enabled r) (idle_proc r) (next_pid r) (g_foreground_pid
    r) (kernel_pml4_phys r) (kvm r) (calls r).
Definition set_preempt_count (v : Z) (r : kst) : kst :=
  Kst (pstore r) (process_table r) (current_idx r) (sched_cur r) (this_cpu r) (user_cr3 r)
    (user_rsp r) (kernel_rsp r) (tss_rsp0 r) (saved_rsp r) (next_rsp r) (next_cr3 r) v
    (syscall_frame r) (tick_count r) (sched_enabled r) (idle_proc r) (next_pid r) (g_foreground_pid
    r) (kernel_pml4_phys r) (kvm r) (calls r).
Definition set_syscall_frame (v : option (Z -> Z)) (r : kst) : kst :=
  Kst (pstore r) (process_table r) (current_idx r) (sched_cur r) (this_cpu r) (user_cr3 r)
    (user_rsp r) (kernel_rsp r) (tss_rsp0 r) (saved_rsp r) (next_rsp r) (next_cr3 r) (preempt_count
    r) v (tick_count r) (sched_enabled r) (idle_proc r) (next_pid r) (g_foreground_pid r)
    (kernel_pml4_phys r) (kvm r) (calls r).
Definition set_tick_count (v : Z) (r : kst) : kst :=
  Kst (pstore r) (process_table r) (current_idx r) (sched_cur r) (this_cpu r) (user_cr3 r)
    (user_rsp r) (kernel_rsp r) (tss_rsp0 r) (saved_rsp r) (next_rsp r) (next_cr3 r) (preempt_count
    r) (syscall_frame r) v (sched_enabled r) (idle_proc r) (next_pid r) (g_foreground_pid r)
    (kernel_pml4_phys r) (kvm r) (calls r).
Definition set_sched_enabled (v : Z) (r : kst) : kst :=
  Kst (pstore r) (process_table r) (current_idx r) (sched_cur r) (this_cpu r) (user_cr3 r)
    (user_rsp r) (kernel_rsp r) (tss_rsp0 r) (saved_rsp r) (next_rsp r) (next_cr3 r) (preempt_count
    r) (syscall_frame r) (tick_count r) v (idle_proc r) (next_pid r) (g_foreground_pid r)
    (kernel_pml4_phys r) (kvm r) (calls r).
Definition set_idle_proc (v : Z) (r : kst) : kst :=
  Kst (pstore r) (process_table r) (current_idx r) (sched_cur r) (this_cpu r) (user_cr3 r)
    (user_rsp r) (kernel_rsp r) (tss_rsp0 r) (saved_rsp r) (next_rsp r) (next_cr3 r) (preempt_count
    r) (syscall_frame r) (tick_count r) (sched_enabled r) v (next_pid r) (g_foreground_pid r)
    (kernel_pml4_phys r) (kvm r) (calls r).
Definition set_next_pid (v : Z) (r : kst) : kst :=
  Kst (pstore r) (process_table r) (current_idx r) (sched_cur r) (this_cpu r) (user_cr3 r)
    (user_rsp r) (kernel_rsp r) (tss_rsp0 r) (saved_rsp r) (next_rsp r) (next_cr3 r) (preempt_count
    r) (syscall_frame r) (tick_count r) (sched_enabled r) (idle_proc r) v (g_foreground_pid r)
    (kernel_pml4_phys r) (kvm r) (calls r).
Definition set_g_foreground_pid (v : Z) (r : kst) : kst :=
  Kst (pstore r) (process_table r) (current_idx r) (sched_cur r) (this_cpu r) (user_cr3 r)
    (user_rsp r) (kernel_rsp r) (tss_rsp0 r) (saved_rsp r) (next_rsp r) (next_cr3 r) (preempt_count
    r) (syscall_frame r) (tick_count r) (sched_enabled r) (idle_proc r) (next_pid r) v
    (kernel_pml4_phys r) (kvm r) (calls r).
Definition set_kernel_pml4_phys (v : Z) (r : kst) : kst :=
  Kst (pstore r) (process_table r) (current_idx r) (sched_cur r) (this_cpu r) (user_cr3 r)
    (user_rsp r) (kernel_rsp r) (tss_rsp0 r) (saved_rsp r) (next_rsp r) (next_cr3 r) (preempt_count
    r) (syscall_frame r) (tick_count r) (sched_enabled r) (idle_proc r) (next_pid r)
    (g_foreground_pid r) v (kvm r) (calls r).
Definition set_kvm (v : vm) (r : kst) : kst :=
  Kst (pstore r) (process_table r) (current_idx r) (sched_cur r) (this_cpu r) (user_cr3 r)
    (user_rsp r) (kernel_rsp r) (tss_rsp0 r) (saved_rsp r) (next_rsp r) (next_cr3 r) (preempt_count
    r) (syscall_frame r) (tick_count r) (sched_enabled r) (idle_proc r) (next_pid r)
    (g_foreground_pid r) (kernel_pml4_phys r) v (calls r).
Definition set_calls (v : list kcall) (r : kst) : kst :=
  Kst (pstore r) (process_table r) (current_idx r) (sched_cur r) (this_cpu r) (user_cr3 r)
    (user_rsp r) (kernel_rsp r) (tss_rsp0 r) (saved_rsp r) (next_rsp r) (next_cr3 r) (preempt_count
    r) (syscall_frame r) (tick_count r) (sched_enabled r) (idle_proc r) (next_pid r)
    (g_foreground_pid r) (kernel_pml4_phys r) (kvm r) v.

Definition process_count (k : kst) : Z := Z.of_nat (length (process_table k)).

(** [p->field = ...]: update the descriptor at address [a]; a NULL or freed pointer
    has no descriptor to update. *)
Definition upd (a : Z) (f : proc -> proc) (k : kst) : kst := set_pstore (alter f a (pstore k)) k.

Definition log_call (c : kcall) (k : kst) : kst := set_calls (calls k ++ [c]) k.

(** [process_table[i]->field == ...] for a table entry. *)
Definition entry_is (k : kst) (test : proc -> bool) (a : Z) : bool :=
  match pstore k !! a with Some p => test p | None => false end.

(** The first table entry that satisfies [test]; [0] if none. *)
Definition table_find (k : kst) (test : Z -> bool) : Z :=
  match list_find (fun a => Is_true (test a)) (process_table k) with
  | Some (_, a) => a
  | None => 0
  end.

Definition find_process (id : Z) (k : kst) : Z :=
  table_find k (entry_is k (fun p => pid p =? id)).

Definition get_current_process (k : kst) : Z :=
  if negb (this_cpu k =? 0) then sched_cur k (this_cpu k)
  else if (0 <? process_count k) && (current_idx k <? process_count k) then
    default 0 (process_table k !! Z.to_nat (current_idx k))
  else 0.

(** [if (!p || !p->tgid || p->tgid == p->pid) return p; ...] *)
Definition tg_leader (a : Z) (k : kst) : Z :=
  match pstore k !! a with
  | None => a
  | Some p =>
      if negb (truthy (tgid p)) || (tgid p =? pid p) then a
      else let l := find_process (tgid p) k in if truthy l then l else a
  end.

Definition addr_space_shared (pml4 except : Z) (k : kst) : bool :=
  truthy pml4 &&
  truthy (table_find k (fun a => negb (a =? except) && entry_is k (fun p => page_directory p =? pml4) a)).

Definition wake_waiters (child : Z) (k : kst) : kst :=
  match pstore k !! child with
  | None => k
  | Some c =>
      if negb (truthy (ppid c)) then k
      else
        let parent := find_process (ppid c) k in
        match pstore k !! parent with
        | None => k
        | Some q =>
            if (state (p_sched q) =? PROC_BLOCKED) &&
               ((waiting_for (p_sched q) =? pid c) || (waiting_for (p_sched q) =? 0))
            then upd parent (on_sched (fun s => set_state PROC_RUN (set_waiting_for 0 s))) k
            else k
        end
  end.

(** * The table *)

Record table_wf (k : kst) : Prop := {
  tb_nodup : NoDup (process_table k);
  tb_live : forall a, a ∈ process_table k -> a <> 0 /\ is_Some (pstore k !! a);
  tb_pid : forall a b p q, a ∈ process_table k -> b ∈ process_table k ->
    pstore k !! a = Some p -> pstore k !! b = Some q -> pid p = pid q -> a = b
}.

Lemma table_find_Some k test a :
  table_wf k -> table_find k test = a -> a <> 0 -> a ∈ process_table k /\ test a = true.
Proof.
  intros Hwf E Hne. unfold table_find in E. destruct (list_find _ _) as [[i b]|] eqn:Ef; [|congruence].
  subst b. apply list_find_Some in Ef as (Hi & Ht & _). split; [by eapply list_elem_of_lookup_2|].
  by apply Is_true_true.
Qed.

Lemma table_find_None k test :
  table_wf k -> table_find k test = 0 -> forall a, a ∈ process_table k -> test a = false.
Proof.
  intros Hwf E a Ha. unfold table_find in E. destruct (list_find _ _) as [[i b]|] eqn:Ef.
  - subst b. apply list_find_Some in Ef as (Hi & _). apply list_elem_of_lookup_2 in Hi.
    by destruct (tb_live k Hwf 0 Hi).
  - apply list_find_None in Ef. rewrite Forall_forall in Ef.
    destruct (test a) eqn:Et; [|done]. exfalso. apply (Ef a); [by apply list_elem_of_In|]. by rewrite Et.
Qed.

(** [find_process] is the inverse of [pid] on a well-formed table. *)
Lemma find_process_iff k a p :
  table_wf k -> a ∈ process_table k -> pstore k !! a = Some p -> find_process (pid p) k = a.
Proof.
  intros Hwf Ha Hp. unfold find_process.
  destruct (decide (table_find k (entry_is k (fun q => pid q =? pid p)) = 0)) as [E|E].
  - pose proof (table_find_None _ _ Hwf E a Ha) as H. unfold entry_is in H. rewrite Hp, Z.eqb_refl in H. done.
  - destruct (table_find_Some _ _ _ Hwf eq_refl E) as [Hin Ht]. unfold entry_is in Ht.
    set (b := table_find _ _) in *. destruct (pstore k !! b) as [q|] eqn:Hq; [|done].
    apply Z.eqb_eq in Ht. by apply (tb_pid k Hwf b a q p).
Qed.

(** The same as a test, for concrete states. *)
Definition table_wfb (k : kst) : bool :=
  bool_decide (NoDup (process_table k)) &&
  forallb (fun a => negb (a =? 0) && bool_decide (is_Some (pstore k !! a))) (process_table k) &&
  bool_decide (NoDup ((fun a => pid <$> pstore k !! a) <$> process_table k)).

Lemma nodup_map_inj {A B} (f : A -> B) (l : list A) a b :
  NoDup (f <$> l) -> a ∈ l -> b ∈ l -> f a = f b -> a = b.
Proof.
  intros Hnd Ha Hb E. apply list_elem_of_lookup in Ha as [i Hi], Hb as [j Hj].
  assert (i = j) as ->; [|congruence].
  apply (NoDup_lookup (f <$> l) i j (f a)); [done|by rewrite list_lookup_fmap, Hi|].
  by rewrite list_lookup_fmap, Hj, E.
Qed.

Lemma table_wfb_spec k : table_wfb k = true -> table_wf k.
Proof.
  unfold table_wfb. intros H. apply andb_true_iff in H as [H H3]. apply andb_true_iff in H as [H1 H2].
  apply bool_decide_eq_true in H1, H3. rewrite forallb_forall in H2. constructor.
  - done.
  - intros a Ha. apply list_elem_of_In in Ha. specialize (H2 a Ha). apply andb_true_iff in H2 as [E L].
    apply bool_decide_eq_true in L. apply negb_true_iff, Z.eqb_neq in E. done.
  - intros a b p q Ha Hb Hp Hq E. eapply nodup_map_inj; [exact H3|done..|]. cbv beta. rewrite Hp, Hq. simpl. by rewrite E.
Qed.

(** * Zeroed descriptors and a state to start examples from *)

Definition zero_sched : sched_part := SchedPart 0 0 0 0 0 0 0 0 0 0 0 0 0.
Definition zero_sig : sig_part := SigPart 0 0 0 (fun _ => 0) 0 (fun _ => 0).
Definition zero_vma : vma := Vma 0 0 0 0 0 0.
Definition zero_mm : mm_part :=
  MmPart 0 0 (replicate (Z.to_nat PROC_MAX_VMAS) zero_vma) 0 (fun _ => 0) (fun _ => 0) (fun _ => 0).

(** [memset_asm(p, 0, sizeof(process_t))]. *)
Definition zero_proc : proc := Proc 0 0 0 0 0 0 zero_sched zero_sig zero_mm (TextPart [] [] [] 0).

Definition start_kst (procs : gmap Z proc) (tbl : list Z) (v : vm) : kst :=
  Kst procs tbl 0 (fun _ => 0) 0 0 0 0 0 0 0 0 0 None 0 1 0 1 0 0 v [].
