(* ===== verification/Signal.v ===== *)
(** Signals (src/kernel/signal.c): posting, delivery on the way back to ring 3, return
    from a handler, masks and alarms.

    The saved register frame is the array of words the entry stub pushed: 0..14 the
    general registers (r15..rax), 15 RFLAGS, 16 RIP for a system call; the exception
    frame keeps RIP, RFLAGS and the user RSP at 17, 19 and 20.  [signal_dispatch] can
    end in three ways: it returns to ring 3 with a frame, it parks the process until
    SIGCONT (what happens then is [dispatch_resume]), or the process never returns. *)
From Stdlib Require Import ZArith Lia.
From S2P Require Import Prelude Phys PageAlloc Paging PageTables Process.

#[local] Arguments Z.testbit : simpl never.

Definition NSIG : Z := 32.
Definition SIGKILL : Z := 9.
Definition SIGALRM : Z := 14.
Definition SIGCHLD : Z := 17.
Definition SIGCONT : Z := 18.
Definition SIGSTOP : Z := 19.
Definition SIGTSTP : Z := 20.
Definition SIG_DFL : Z := 0.
Definition SIG_IGN : Z := 1.

(** [1u << sig]. *)
Definition sigbit (sig : Z) : Z := u32 (1 << sig).

Definition uncatchable (sig : Z) : bool := (sig =? SIGKILL) || (sig =? SIGSTOP).
Definition default_is_ignore (sig : Z) : bool := (sig =? SIGCHLD) || (sig =? SIGCONT).

(** [p->sig_pending &= ~(1u << sig)] and the two [|=] of a delivery. *)
Definition clear_pending (sig : Z) (s : sig_part) : sig_part :=
  set_sig_pending (sig_pending s .& not32 (sigbit sig)) s.
Definition enter_handler (sig : Z) (s : sig_part) : sig_part :=
  set_sig_mask (sig_mask s .| sigbit sig) (set_sig_active (sig_active s .| sigbit sig) s).

Definition raise_proc (sig : Z) (p : proc) : proc :=
  let p :=
    if (sig =? SIGCONT) && (state (p_sched p) =? PROC_STOPPED)
    then on_sched (fun s => set_state PROC_RUN (set_stop_sig 0 s)) p else p in
  let p := on_sig (fun s => set_sig_pending (sig_pending s .| sigbit sig) s) p in
  if state (p_sched p) =? PROC_BLOCKED
  then on_sched (fun s => set_state PROC_RUN (set_wake_tick 0 (set_waiting_for 0 s))) p else p.

Definition signal_raise (a sig : Z) (k : kst) : kst :=
  if (sig <=? 0) || (NSIG <=? sig) then k else upd a (raise_proc sig) k.

Definition signal_pending (p : proc) : bool :=
  truthy (sig_pending (p_sig p) .& not32 (sig_mask (p_sig p))).

(** Becoming stopped: the fields written before the parent is woken. *)
Definition stop_proc (sig : Z) (p : proc) : proc :=
  on_sched (fun s => set_state PROC_STOPPED (set_stopped_reported 0 (set_stop_sig sig s))) p.
Definition mark_in_kernel (v : Z) (p : proc) : proc := on_sched (set_blocked_in_kernel v) p.
Definition consume_cont (p : proc) : proc := on_sig (clear_pending SIGCONT) p.

(** Up to the park; [None] when no stop is pending (the caller goes on). *)
Definition signal_check_stop (a : Z) (k : kst) : option kst :=
  match pstore k !! a with
  | None => None
  | Some p =>
      let stops := sig_pending (p_sig p) .& (sigbit SIGTSTP .| sigbit SIGSTOP) in
      if negb (truthy stops) then None
      else
        let sig := if truthy (stops .& sigbit SIGTSTP) then SIGTSTP else SIGSTOP in
        Some (upd a (mark_in_kernel 1)
                (wake_waiters a (upd a (fun p => stop_proc sig (on_sig (clear_pending sig) p)) k)))
  end.

(** Once the scheduler runs it again in another state. *)
Definition check_stop_resume (a : Z) (k : kst) : kst :=
  upd a (fun p => consume_cont (mark_in_kernel 0 p)) k.

Definition do_kill (id sig : Z) (k : kst) : Z * kst :=
  if (sig <? 0) || (NSIG <=? sig) then (-1, k)
  else
    let target := find_process (u32 id) k in
    if negb (truthy target) then (-1, k)
    else if sig =? 0 then (0, k)
    else (0, signal_raise target sig k).

Definition do_signal (sig handler trampoline : Z) (k : kst) : Z * kst :=
  if (sig <=? 0) || (NSIG <=? sig) || uncatchable sig then (-1, k)
  else
    let a := get_current_process k in
    match pstore k !! a with
    | None => (-1, k)
    | Some p =>
        (sig_handlers (p_sig p) sig,
         upd a (on_sig (fun s =>
           let s := set_sig_handlers (<[sig := handler]> (sig_handlers s)) s in
           let s := if truthy trampoline then set_sig_trampoline trampoline s else s in
           if handler =? SIG_IGN then clear_pending sig s else s)) k)
    end.

(** Never returns: the state the process is left in. *)
Definition signal_terminate (a sig : Z) (k : kst) : kst :=
  wake_waiters a (upd a (on_sched (fun s => set_state PROC_ZOMBIE (set_exit_code (128 + sig) s))) k).

Definition le64 (v : Z) : list Z := map (fun i => byte_of v (Z.of_nat i)) (seq 0 8).

(** [copy_to_user] on the kernel state: through [user_cr3]. *)
Definition kcopy_to_user (udst : Z) (bs : list Z) (k : kst) : Z * kst :=
  let '(r, m) := copy_to_user (user_cr3 k) udst bs (pm (kvm k)) in (r, set_kvm (set_pm m (kvm k)) k).

(** [sp -= 128; sp &= ~15; sp -= 8]. *)
Definition handler_sp (rsp : Z) : Z := u64 ((u64 (rsp - 128) .& not64 15) - 8).

(** The 18 words saved for SYS_SIGRETURN, from where the frame keeps them. *)
Definition save_context (f : Z -> Z) (rflags rip rsp : Z) : Z -> Z :=
  fun i => if i =? 15 then rflags else if i =? 16 then rip else if i =? 17 then rsp else f i.

Definition deliverable (p : proc) : Z := sig_pending (p_sig p) .& not32 (sig_mask (p_sig p)).

(** Lowest pending signal, [0] if none. *)
Definition lowest_signal (d : Z) : Z :=
  default 0 (find_idx (Z.to_nat (NSIG - 1)) 1 (fun s => truthy (d .& sigbit s))).

Inductive dispatch_res :=
| DReturn (f : Z -> Z) (k : kst)
| DParked (a s_cr3 s_rsp : Z) (k : kst)
| DGone (k : kst).

Definition signal_dispatch (frame : Z -> Z) (k : kst) : dispatch_res :=
  let a := get_current_process k in
  match pstore k !! a with
  | None => DReturn frame k
  | Some p =>
      if negb (truthy (page_directory p)) then DReturn frame k
      else
        let sig := lowest_signal (deliverable p) in
        if negb (truthy sig) then DReturn frame k
        else
          let disp := if uncatchable sig then SIG_DFL else sig_handlers (p_sig p) sig in
          if disp =? SIG_IGN then DReturn frame (upd a (on_sig (clear_pending sig)) k)
          else if disp =? SIG_DFL then
            let k := upd a (on_sig (clear_pending sig)) k in
            if default_is_ignore sig then DReturn frame k
            else if (sig =? SIGTSTP) || (sig =? SIGSTOP) then
              DParked a (user_cr3 k) (user_rsp k)
                (upd a (mark_in_kernel 1) (wake_waiters a (upd a (stop_proc sig) k)))
            else DGone (signal_terminate a sig k)
          else if truthy (sig_active (p_sig p)) then DReturn frame k
          else
            let k := upd a (on_sig (clear_pending sig)) k in
            let k := upd a (on_sig (set_sig_saved (save_context frame (frame 15) (frame 16) (user_rsp k)))) k in
            let sp := handler_sp (user_rsp k) in
            let '(r, k) := kcopy_to_user sp (le64 (sig_trampoline (p_sig p))) k in
            if negb (r =? 0) then DGone (signal_terminate a sig k)
            else
              DReturn (<[16 := disp]> (<[9 := sig]> frame))
                (upd a (on_sig (enter_handler sig)) (set_user_rsp sp k))
  end.

Definition dispatch_resume (a s_cr3 s_rsp : Z) (k : kst) : kst :=
  set_user_rsp s_rsp (set_user_cr3 s_cr3 (check_stop_resume a k)).

(** Return value, exception frame and state. *)
Definition signal_deliver_fault (f : Z -> Z) (sig : Z) (k : kst) : Z * (Z -> Z) * kst :=
  let a := get_current_process k in
  match pstore k !! a with
  | None => (0, f, k)
  | Some p =>
      if negb (truthy (page_directory p)) then (0, f, k)
      else if (sig <=? 0) || (NSIG <=? sig) || uncatchable sig then (0, f, k)
      else
        let disp := sig_handlers (p_sig p) sig in
        if (disp =? SIG_DFL) || (disp =? SIG_IGN) then (0, f, k)
        else if truthy (sig_active (p_sig p)) then (0, f, k)
        else
          let k := upd a (on_sig (set_sig_saved (save_context f (f 19) (f 17) (f 20)))) k in
          let sp := handler_sp (f 20) in
          let tramp := sig_trampoline (p_sig p) in
          let k := set_user_cr3 (page_directory p) k in
          if negb (truthy tramp) then (0, f, k)
          else
            let '(r, k) := kcopy_to_user sp (le64 tramp) k in
            if negb (r =? 0) then (0, f, k)
            else (1, <[20 := sp]> (<[17 := disp]> (<[9 := sig]> f)), upd a (on_sig (enter_handler sig)) k)
  end.

Definition do_sigreturn (k : kst) : kst :=
  let a := get_current_process k in
  match pstore k !! a with
  | None => k
  | Some p =>
      if negb (truthy (sig_active (p_sig p))) then k
      else
        match syscall_frame k with
        | None => k
        | Some frame =>
            let saved := sig_saved (p_sig p) in
            let frame := fun i => if (0 <=? i) && (i <=? 16) then saved i else frame i in
            upd a (on_sig (fun s => set_sig_active 0
              (set_sig_mask (sig_mask s .& not32 (sig_active s)) s)))
              (set_user_rsp (saved 17) (set_syscall_frame (Some frame) k))
        end
  end.

Definition do_sigprocmask (how set oldset_ptr : Z) (k : kst) : Z * kst :=
  let a := get_current_process k in
  match pstore k !! a with
  | None => (-1, k)
  | Some p =>
      let old := sig_mask (p_sig p) in
      let '(r, k) := if truthy oldset_ptr then kcopy_to_user oldset_ptr (le64 old) k else (0, k) in
      if negb (r =? 0) then (-1, k)
      else
        let nm := if how =? 0 then old .| u32 set
                  else if how =? 1 then old .& not32 (u32 set)
                  else if how =? 2 then u32 set else old in
        let nm := nm .& not32 (sigbit SIGKILL .| sigbit SIGSTOP) in
        (0, upd a (on_sig (fun s => set_sig_active (sig_active s .& nm) (set_sig_mask nm s))) k)
  end.

Definition do_alarm (seconds : Z) (k : kst) : Z * kst :=
  let a := get_current_process k in
  match pstore k !! a with
  | None => (0, k)
  | Some p =>
      let now := tick_count k in
      let at_ := alarm_tick (p_sched p) in
      let remaining :=
        if truthy at_ then
          let left := s32 (at_ - now) in if 0 <? left then u32 (left + 999) / 1000 else 0
        else 0 in
      (remaining,
       upd a (on_sched (set_alarm_tick
         (if seconds =? 0 then 0
          else let d := u32 (now + u32 (seconds * 1000)) in if truthy d then d else 1))) k)
  end.

Definition signal_send_foreground (sig : Z) (k : kst) : kst :=
  if negb (truthy (g_foreground_pid k)) then k
  else
    let a := find_process (g_foreground_pid k) k in
    if truthy a then signal_raise a sig k else k.

(** * Bits of the signal words *)

Lemma sigbit_small s : 0 <= s < 32 -> sigbit s = 1 << s.
Proof.
  intros Hs. unfold sigbit. apply u32_small. rewrite Z.shiftl_mul_pow2 by lia.
  assert (0 < 2 ^ s <= 2 ^ 31); [|lia].
  split; [apply Z.pow_pos_nonneg; lia|apply Z.pow_le_mono_r; lia].
Qed.

Lemma testbit_sigbit s j : 0 <= s < 32 -> 0 <= j -> Z.testbit (sigbit s) j = (s =? j).
Proof.
  intros Hs Hj. pose proof (testbit_lor_bit 0 s j ltac:(lia) Hj) as H.
  rewrite Z.lor_0_l, Z.bits_0 in H. by rewrite sigbit_small.
Qed.

Lemma truthy_sigbit w s : 0 <= s < 32 -> truthy (w .& sigbit s) = Z.testbit w s.
Proof. intros Hs. rewrite sigbit_small by done. apply truthy_land_bit. lia. Qed.

Lemma testbit_not32 x j : 0 <= j < 32 -> Z.testbit (not32 x) j = negb (Z.testbit x j).
Proof. intros. unfold not32. by rewrite testbit_u32, Z.lnot_spec by lia. Qed.

Lemma testbit_not32_high x j : 32 <= j -> Z.testbit (not32 x) j = false.
Proof. intros. unfold not32. by apply testbit_u32_high. Qed.

(** Blocking a signal that was not blocked and unblocking it again. *)
Lemma mask_roundtrip mask s :
  0 <= mask < 2 ^ 32 -> 0 <= s < 32 -> Z.testbit mask s = false ->
  (mask .| sigbit s) .& not32 (sigbit s) = mask.
Proof.
  intros Hm Hs Hb. apply Z.bits_inj'. intros j Hj. rewrite Z.land_spec, Z.lor_spec.
  destruct (Z.ltb_spec j 32).
  - rewrite testbit_not32, testbit_sigbit by lia. destruct (Z.eqb_spec s j) as [<-|].
    + by rewrite Hb, andb_false_r.
    + by rewrite orb_false_r, andb_true_r.
  - rewrite testbit_not32_high, andb_false_r by lia. symmetry.
    apply (proj1 (Z.bounded_iff_bits_nonneg 32 mask ltac:(lia) ltac:(lia))); lia.
Qed.

Lemma lowest_signal_spec d s :
  0 < s < 32 -> lowest_signal d = s <->
  Z.testbit d s = true /\ (forall j, 0 < j < s -> Z.testbit d j = false).
Proof.
  intros Hs. unfold lowest_signal.
  destruct (find_idx _ 1 _) as [i|] eqn:E; simpl default.
  - apply find_idx_Some in E as (Hi & Hb & Hmin). change (Z.of_nat (Z.to_nat (NSIG - 1))) with 31 in Hi.
    rewrite truthy_sigbit in Hb by lia. split.
    + intros ->. split; [done|]. intros j Hj. rewrite <- truthy_sigbit by lia. apply Hmin. lia.
    + intros [H1 H2]. destruct (Z.lt_trichotomy i s) as [Hlt|[?|Hgt]]; [|done|].
      * rewrite H2 in Hb by lia. done.
      * pose proof (Hmin s ltac:(lia)) as Hf. rewrite truthy_sigbit in Hf by lia. congruence.
  - split; [intros <-; lia|]. intros [H1 _].
    pose proof (proj1 (find_idx_None _ _ _) E s) as Hf. cbv beta in Hf. rewrite truthy_sigbit in Hf by lia.
    change (Z.of_nat (Z.to_nat (NSIG - 1))) with 31 in Hf. rewrite Hf in H1 by lia. done.
Qed.

Lemma testbit_deliverable p j :
  0 <= j < 32 ->
  Z.testbit (deliverable p) j = Z.testbit (sig_pending (p_sig p)) j && negb (Z.testbit (sig_mask (p_sig p)) j).
Proof. intros. unfold deliverable. by rewrite Z.land_spec, testbit_not32. Qed.

(** * Where descriptors go *)

Lemma lookup_upd a f k b :
  pstore (upd a f k) !! b = if decide (a = b) then f <$> pstore k !! b else pstore k !! b.
Proof.
  unfold upd; simpl. destruct (decide (a = b)) as [<-|]; [apply lookup_alter_eq|by apply lookup_alter_ne].
Qed.

Lemma upd_shape a f k :
  process_table (upd a f k) = process_table k /\ current_idx (upd a f k) = current_idx k /\
  sched_cur (upd a f k) = sched_cur k /\ this_cpu (upd a f k) = this_cpu k.
Proof. done. Qed.

Lemma get_current_upd a f k : get_current_process (upd a f k) = get_current_process k.
Proof. done. Qed.

(** The stack a handler starts on. *)
Lemma handler_sp_spec rsp :
  136 + 15 <= rsp < 2 ^ 64 -> handler_sp rsp mod 16 = 8 /\ rsp - 136 - 15 <= handler_sp rsp <= rsp - 136.
Proof.
  intros Hr. unfold handler_sp. rewrite (u64_small (rsp - 128)) by lia.
  assert ((rsp - 128) .& not64 15 = (rsp - 128) / 16 * 16) as -> by (apply (land_not64_pow2 _ 4); lia).
  rewrite u64_small by (Z.to_euclidean_division_equations; lia).
  Z.to_euclidean_division_equations. lia.
Qed.

(** The conditions under which [signal_dispatch] enters a handler of the current
    process [a] for [sig]. *)
Record enters (k : kst) (a : Z) (p : proc) (sig : Z) : Prop := {
  en_cur : get_current_process k = a;
  en_proc : pstore k !! a = Some p;
  en_user : truthy (page_directory p) = true;
  en_sig : 0 < sig < 32;
  en_low : lowest_signal (deliverable p) = sig;
  en_catch : uncatchable sig = false;
  en_handler : sig_handlers (p_sig p) sig <> SIG_DFL /\ sig_handlers (p_sig p) sig <> SIG_IGN;
  en_idle : sig_active (p_sig p) = 0;
  en_stack : (copy_to_user (user_cr3 k) (handler_sp (user_rsp k)) (le64 (sig_trampoline (p_sig p)))
                (pm (kvm k))).1 = 0
}.

(** The descriptor on entry to the handler. *)
Definition entered (frame : Z -> Z) (rsp sig : Z) (p : proc) : proc :=
  on_sig (fun s => enter_handler sig (set_sig_saved (save_context frame (frame 15) (frame 16) rsp)
                     (clear_pending sig s))) p.

Lemma dispatch_enters frame k a p sig :
  enters k a p sig ->
  exists k', signal_dispatch frame k = DReturn (<[16 := sig_handlers (p_sig p) sig]> (<[9 := sig]> frame)) k' /\
    user_rsp k' = handler_sp (user_rsp k) /\ user_cr3 k' = user_cr3 k /\
    pstore k' !! a = Some (entered frame (user_rsp k) sig p) /\
    (forall b, b <> a -> pstore k' !! b = pstore k !! b) /\
    pm (kvm k') = (copy_to_user (user_cr3 k) (handler_sp (user_rsp k)) (le64 (sig_trampoline (p_sig p)))
                     (pm (kvm k))).2.
Proof.
  intros [Hc Hp Hu Hs Hl Huc [Hd Hi] Ha Hst]. unfold signal_dispatch. rewrite Hc, Hp, Hu, Hl, Huc. simpl negb.
  cbv iota. assert (truthy sig = true) as -> by (unfold truthy; destruct (Z.eqb_spec sig 0); [lia|done]).
  simpl negb. cbv iota. rewrite (proj2 (Z.eqb_neq _ _) Hi), (proj2 (Z.eqb_neq _ _) Hd), Ha.
  change (truthy 0) with false. cbv iota. unfold kcopy_to_user. simpl user_cr3. simpl user_rsp. simpl kvm.
  destruct (copy_to_user _ _ _ _) as [r m] eqn:Ec. simpl in Hst. subst r. simpl Z.eqb. simpl negb. cbv iota.
  eexists. split; [reflexivity|]. split; [done|]. split; [done|]. split; [|split; [|done]].
  - unfold upd; simpl. by rewrite !lookup_alter_eq, Hp.
  - intros b Hb. unfold upd; simpl. by rewrite !lookup_alter_ne.
Qed.

Lemma truthy_sigbit_self s : 0 <= s < 32 -> truthy (sigbit s) = true.
Proof.
  intros Hs. rewrite <- (Z.land_diag (sigbit s)), truthy_sigbit, testbit_sigbit by lia. apply Z.eqb_refl.
Qed.

Lemma sigreturn_restores k a p g sig frame rsp mask :
  get_current_process k = a -> pstore k !! a = Some p -> syscall_frame k = Some g -> 0 < sig < 32 ->
  0 <= mask < 2 ^ 32 -> Z.testbit mask sig = false ->
  sig_saved (p_sig p) = save_context frame (frame 15) (frame 16) rsp ->
  sig_active (p_sig p) = sigbit sig -> sig_mask (p_sig p) = mask .| sigbit sig ->
  exists h q, syscall_frame (do_sigreturn k) = Some h /\ (forall i, 0 <= i <= 16 -> h i = frame i) /\
    user_rsp (do_sigreturn k) = rsp /\ pstore (do_sigreturn k) !! a = Some q /\
    sig_mask (p_sig q) = mask /\ sig_active (p_sig q) = 0.
Proof.
  intros Hc Hp Hf Hs Hm Hb Hsav Hact Hmsk. unfold do_sigreturn.
  rewrite Hc, Hp, Hf, Hact, truthy_sigbit_self, Hsav by lia. simpl negb. cbv iota.
  eexists _, _. split; [reflexivity|]. split; [|split; [done|split]].
  - intros i Hi. rewrite (proj2 (Z.leb_le 0 i)), (proj2 (Z.leb_le i 16)) by lia. simpl.
    unfold save_context. destruct (Z.eqb_spec i 15) as [->|]; [done|].
    destruct (Z.eqb_spec i 16) as [->|]; [done|]. by destruct (Z.eqb_spec i 17); [lia|].
  - unfold upd; simpl. by rewrite lookup_alter_eq, Hp.
  - simpl. rewrite Hact, Hmsk. split; [|done]. apply mask_roundtrip; (done || lia).
Qed.

(** C7: entering a handler and returning from it is transparent to the interrupted
    program.  [signal_dispatch] runs the handler of the lowest deliverable signal with
    the signal number in RDI, on a stack at least 136 bytes below the interrupted one
    and aligned as after a call, and blocks the signal; [do_sigreturn], whatever the
    handler did to its own registers, restores all seventeen saved words, the stack
    pointer and the signal mask. *)
Theorem signal_handler_roundtrip frame k a p sig :
  enters k a p sig -> 151 <= user_rsp k < 2 ^ 64 -> 0 <= sig_mask (p_sig p) < 2 ^ 32 ->
  exists f1 k1 p1,
    signal_dispatch frame k = DReturn f1 k1 /\ pstore k1 !! a = Some p1 /\
    Z.testbit (deliverable p) sig = true /\ (forall j, 0 < j < sig -> Z.testbit (deliverable p) j = false) /\
    f1 16 = sig_handlers (p_sig p) sig /\ f1 9 = sig /\
    (forall i, i <> 9 -> i <> 16 -> f1 i = frame i) /\
    user_rsp k1 mod 16 = 8 /\ user_rsp k1 + 136 <= user_rsp k /\
    Z.testbit (sig_mask (p_sig p1)) sig = true /\ Z.testbit (sig_pending (p_sig p1)) sig = false /\
    (forall k2 p2 g, get_current_process k2 = a -> pstore k2 !! a = Some p2 -> syscall_frame k2 = Some g ->
       sig_saved (p_sig p2) = sig_saved (p_sig p1) -> sig_active (p_sig p2) = sig_active (p_sig p1) ->
       sig_mask (p_sig p2) = sig_mask (p_sig p1) ->
       exists h p3, syscall_frame (do_sigreturn k2) = Some h /\ (forall i, 0 <= i <= 16 -> h i = frame i) /\
         user_rsp (do_sigreturn k2) = user_rsp k /\
         pstore (do_sigreturn k2) !! a = Some p3 /\ sig_mask (p_sig p3) = sig_mask (p_sig p) /\
         sig_active (p_sig p3) = 0).
Proof.
  intros He Hr Hm. destruct (dispatch_enters frame k a p sig He) as (k1 & E & Er & _ & Hp1 & _).
  pose proof (en_sig _ _ _ _ He) as Hs. pose proof (en_low _ _ _ _ He) as Hlow.
  apply lowest_signal_spec in Hlow as [Hd Hmin]; [|done].
  assert (Hmask : Z.testbit (sig_mask (p_sig p)) sig = false).
  { rewrite testbit_deliverable in Hd by lia. apply andb_true_iff in Hd as [_ Hd]. by apply negb_true_iff in Hd. }
  destruct (handler_sp_spec (user_rsp k) ltac:(lia)) as [Hal Hsp].
  eexists _, k1, (entered frame (user_rsp k) sig p). split; [exact E|]. split; [done|]. split; [done|]. split; [done|].
  split; [by rewrite fn_lookup_insert|]. split; [by rewrite fn_lookup_insert_ne, fn_lookup_insert|].
  split; [intros i H1 H2; by rewrite !fn_lookup_insert_ne|]. rewrite Er. split; [done|]. split; [lia|].
  unfold entered; simpl. split; [rewrite Z.lor_spec, testbit_sigbit, Z.eqb_refl by lia; apply orb_true_r|].
  split; [rewrite Z.land_spec, testbit_not32, testbit_sigbit, Z.eqb_refl by lia; apply andb_false_r|].
  intros k2 p2 g Hc2 Hp2 Hf2 Hsav Hact Hmsk. rewrite (en_idle _ _ _ _ He), Z.lor_0_l in Hact.
  by apply (sigreturn_restores k2 a p2 g sig).
Qed.

(** * SIGKILL and SIGSTOP *)

(** Neither has a handler, neither is blocked. *)
Definition sig_ok (s : sig_part) : Prop :=
  sig_handlers s SIGKILL = SIG_DFL /\ sig_handlers s SIGSTOP = SIG_DFL /\
  Z.testbit (sig_mask s) SIGKILL = false /\ Z.testbit (sig_mask s) SIGSTOP = false.

Definition all_ok (k : kst) : Prop := forall a p, pstore k !! a = Some p -> sig_ok (p_sig p).

(** Updates that keep the mask and the dispositions keep [sig_ok]. *)
Definition keeps (f : proc -> proc) : Prop := forall p, sig_ok (p_sig p) -> sig_ok (p_sig (f p)).

Lemma upd_ok a f k : keeps f -> all_ok k -> all_ok (upd a f k).
Proof.
  intros Hf Hk b p. rewrite lookup_upd. destruct (decide (a = b)) as [<-|]; [|apply Hk].
  destruct (pstore k !! a) as [q|] eqn:E; [|done]. intros [= <-]. by apply Hf, (Hk a).
Qed.

Lemma wake_waiters_ok a k : all_ok k -> all_ok (wake_waiters a k).
Proof.
  intros Hk. unfold wake_waiters. destruct (pstore k !! a) as [c|]; [|done].
  destruct (negb _); [done|]. destruct (pstore k !! _) as [q|]; [|done].
  destruct (_ && _); [|done]. apply upd_ok; [by intros p Hp|done].
Qed.

Lemma store_ok k k' : pstore k' = pstore k -> all_ok k -> all_ok k'.
Proof. intros E Hk a p. rewrite E. apply Hk. Qed.

Lemma sched_keeps f : keeps (on_sched f).
Proof. by intros p Hp. Qed.

Lemma clear_keeps sig : keeps (on_sig (clear_pending sig)).
Proof. by intros p Hp. Qed.

Lemma raise_keeps sig : keeps (raise_proc sig).
Proof.
  intros p Hp. unfold raise_proc. by destruct (_ && _), (_ =? PROC_BLOCKED).
Qed.

Lemma enter_keeps sig : 0 < sig < 32 -> uncatchable sig = false -> keeps (on_sig (enter_handler sig)).
Proof.
  intros Hs Huc p (H1 & H2 & H3 & H4). unfold uncatchable in Huc. bool_prop.
  unfold on_sig, enter_handler, sig_ok; simpl.
  rewrite !Z.lor_spec, !testbit_sigbit by (unfold SIGKILL, SIGSTOP; lia).
  rewrite H3, H4. repeat (split; [done|]). split; by apply Z.eqb_neq.
Qed.

Lemma save_keeps sv : keeps (on_sig (set_sig_saved sv)).
Proof. by intros p Hp. Qed.

#[local] Hint Resolve upd_ok wake_waiters_ok sched_keeps clear_keeps raise_keeps save_keeps : nyx.

Lemma kcopy_store udst bs k : pstore (kcopy_to_user udst bs k).2 = pstore k.
Proof. unfold kcopy_to_user. by destruct (copy_to_user _ _ _ _). Qed.

Lemma signal_raise_ok a sig k : all_ok k -> all_ok (signal_raise a sig k).
Proof. intros Hk. unfold signal_raise. destruct (_ || _); auto with nyx. Qed.

Lemma do_kill_ok id sig k : all_ok k -> all_ok (do_kill id sig k).2.
Proof.
  intros Hk. unfold do_kill. destruct (_ || _); [done|]. destruct (negb _); [done|].
  destruct (_ =? 0); [done|]. by apply signal_raise_ok.
Qed.

Lemma do_signal_ok sig h tr k : all_ok k -> all_ok (do_signal sig h tr k).2.
Proof.
  intros Hk. unfold do_signal. destruct ((sig <=? 0) || (NSIG <=? sig) || uncatchable sig) eqn:E; [done|].
  destruct (pstore k !! _) as [p|]; [|done]. simpl. apply upd_ok; [|done].
  intros q (H1 & H2 & H3 & H4). apply orb_false_iff in E as [_ E]. unfold uncatchable in E. bool_prop.
  unfold on_sig; simpl. destruct (truthy tr), (h =? SIG_IGN); simpl; unfold sig_ok; simpl;
    rewrite !fn_lookup_insert_ne by done; done.
Qed.

Lemma terminate_ok a sig k : all_ok k -> all_ok (signal_terminate a sig k).
Proof. intros Hk. unfold signal_terminate. auto with nyx. Qed.

Definition res_ok (r : dispatch_res) : Prop :=
  match r with DReturn _ k => all_ok k | DParked _ _ _ k => all_ok k | DGone k => all_ok k end.

Lemma signal_dispatch_ok frame k : all_ok k -> res_ok (signal_dispatch frame k).
Proof.
  intros Hk. unfold signal_dispatch. destruct (pstore k !! get_current_process k) as [p|]; [|done].
  destruct (negb _); [done|]. set (sig := lowest_signal _). destruct (negb (truthy sig)) eqn:Es; [done|].
  destruct (_ =? SIG_IGN) eqn:Ei; [simpl; auto with nyx|]. destruct (_ =? SIG_DFL) eqn:Ed.
  - destruct (default_is_ignore sig); [simpl; auto with nyx|]. destruct (_ || _); simpl.
    + apply upd_ok; [apply sched_keeps|]. apply wake_waiters_ok, upd_ok; [apply sched_keeps|]. auto with nyx.
    + apply terminate_ok. auto with nyx.
  - destruct (truthy (sig_active _)); [done|]. destruct (uncatchable sig) eqn:Huc; [done|].
    set (k1 := upd _ (on_sig (set_sig_saved _)) _).
    assert (Hk1 : all_ok k1) by (unfold k1; auto with nyx).
    pose proof (kcopy_store (handler_sp (user_rsp k1)) (le64 (sig_trampoline (p_sig p))) k1) as Hst.
    destruct (kcopy_to_user _ _ k1) as [r k2]. simpl in Hst.
    assert (Hk2 : all_ok k2) by (by apply (store_ok k1)).
    destruct (negb (r =? 0)); simpl; [by apply terminate_ok|].
    apply upd_ok; [|by apply (store_ok k2)]. apply enter_keeps; [|done].
    subst sig. unfold lowest_signal in *. destruct (find_idx _ 1 _) as [i|] eqn:Ef; [|done].
    apply find_idx_Some in Ef as (Hi & _). simpl. change (Z.of_nat (Z.to_nat (NSIG - 1))) with 31 in Hi. lia.
Qed.

Lemma deliver_fault_ok f sig k : all_ok k -> all_ok (signal_deliver_fault f sig k).2.
Proof.
  intros Hk. unfold signal_deliver_fault. destruct (pstore k !! get_current_process k) as [p|]; [|done].
  destruct (negb _); [done|].
  destruct ((sig <=? 0) || (NSIG <=? sig) || uncatchable sig) eqn:E; [done|].
  destruct ((_ =? SIG_DFL) || _); [done|].
  destruct (truthy (sig_active (p_sig p))); [done|].
  set (k1 := set_user_cr3 _ _). assert (Hk1 : all_ok k1) by (eapply (store_ok (upd _ _ k)); [reflexivity|]; auto with nyx).
  destruct (negb (truthy _)); [done|].
  pose proof (kcopy_store (handler_sp (f 20)) (le64 (sig_trampoline (p_sig p))) k1) as Hst.
  destruct (kcopy_to_user _ _ k1) as [r k2]. simpl in Hst. assert (Hk2 : all_ok k2) by (by apply (store_ok k1)).
  destruct (negb (r =? 0)); simpl; [done|]. apply upd_ok; [|done].
  apply orb_false_iff in E as [E ?]. bool_prop. apply enter_keeps; [unfold NSIG in *; lia|done].
Qed.

Lemma do_sigreturn_ok k : all_ok k -> all_ok (do_sigreturn k).
Proof.
  intros Hk. unfold do_sigreturn. destruct (pstore k !! _) as [p|]; [|done]. destruct (negb _); [done|].
  destruct (syscall_frame k); [|done]. apply upd_ok; [|by apply (store_ok k)].
  intros q (H1 & H2 & H3 & H4). split; [done|]. split; [done|]. simpl. rewrite !Z.land_spec, H3, H4. done.
Qed.

Lemma do_sigprocmask_ok how set old k : all_ok k -> all_ok (do_sigprocmask how set old k).2.
Proof.
  intros Hk. unfold do_sigprocmask. destruct (pstore k !! _) as [p|]; [|done].
  set (c := if truthy old then _ else _).
  assert (Hc : all_ok c.2).
  { subst c. destruct (truthy old); [|done]. apply (store_ok k); [apply kcopy_store|done]. }
  destruct c as [r k1]. simpl in Hc. destruct (negb (r =? 0)); [done|]. simpl. apply upd_ok; [|done].
  intros q (H1 & H2 & _ & _). split; [done|]. split; [done|]. simpl.
  rewrite !Z.land_spec, !testbit_not32, !Z.lor_spec, !testbit_sigbit by (unfold SIGKILL, SIGSTOP; lia).
  by rewrite !andb_false_r.
Qed.

(** A terminated process is a zombie with the shell's status, whoever waits for it. *)
Lemma terminate_state a sig k :
  is_Some (pstore k !! a) ->
  exists q, pstore (signal_terminate a sig k) !! a = Some q /\
    state (p_sched q) = PROC_ZOMBIE /\ exit_code (p_sched q) = 128 + sig.
Proof.
  intros [p Hp]. unfold signal_terminate. set (k1 := upd a _ k).
  assert (H1 : exists q, pstore k1 !! a = Some q /\ state (p_sched q) = PROC_ZOMBIE /\ exit_code (p_sched q) = 128 + sig).
  { subst k1. rewrite lookup_upd, decide_True, Hp by done. by eexists. }
  clearbody k1. destruct H1 as (q & Hq & Hst & Hex). unfold wake_waiters. rewrite Hq.
  destruct (negb _); [by exists q|]. destruct (pstore k1 !! find_process (ppid q) k1) as [r|] eqn:Er; [|by exists q].
  destruct (_ && _) eqn:Eb; [|by exists q]. rewrite lookup_upd. destruct (decide _) as [E|]; [|by exists q].
  rewrite E in Er. assert (r = q) as -> by congruence. rewrite Hst in Eb. done.
Qed.

(** Everything signal.c lets happen to the kernel state. *)
Inductive sig_step : kst -> kst -> Prop :=
| step_raise a sig k : sig_step k (signal_raise a sig k)
| step_kill id sig k : sig_step k (do_kill id sig k).2
| step_signal sig h tr k : sig_step k (do_signal sig h tr k).2
| step_check_stop a k k' : signal_check_stop a k = Some k' -> sig_step k k'
| step_check_resume a k : sig_step k (check_stop_resume a k)
| step_return frame f k k' : signal_dispatch frame k = DReturn f k' -> sig_step k k'
| step_parked frame a c r k k' : signal_dispatch frame k = DParked a c r k' -> sig_step k k'
| step_gone frame k k' : signal_dispatch frame k = DGone k' -> sig_step k k'
| step_resume a c r k : sig_step k (dispatch_resume a c r k)
| step_fault f sig k : sig_step k (signal_deliver_fault f sig k).2
| step_sigreturn k : sig_step k (do_sigreturn k)
| step_procmask how set old k : sig_step k (do_sigprocmask how set old k).2
| step_alarm s k : sig_step k (do_alarm s k).2
| step_foreground sig k : sig_step k (signal_send_foreground sig k).

Lemma sig_step_ok k k' : sig_step k k' -> all_ok k -> all_ok k'.
Proof.
  intros [] Hk.
  - by apply signal_raise_ok.
  - by apply do_kill_ok.
  - by apply do_signal_ok.
  - unfold signal_check_stop in *. destruct (pstore _ !! _) as [p|]; [|done]. destruct (negb _); [done|].
    simplify_eq. apply upd_ok; [apply sched_keeps|]. apply wake_waiters_ok, upd_ok; [|done]. by intros q Hq.
  - apply upd_ok; [|done]. by intros q Hq.
  - pose proof (signal_dispatch_ok frame k0 Hk) as H0. by rewrite H in H0.
  - pose proof (signal_dispatch_ok frame k0 Hk) as H0. by rewrite H in H0.
  - pose proof (signal_dispatch_ok frame k0 Hk) as H0. by rewrite H in H0.
  - unfold dispatch_resume. apply (store_ok (check_stop_resume a k0)); [done|]. apply upd_ok; [|done]. by intros q Hq.
  - by apply deliver_fault_ok.
  - by apply do_sigreturn_ok.
  - by apply do_sigprocmask_ok.
  - unfold do_alarm. destruct (pstore _ !! _); [|done]. simpl. apply upd_ok; [apply sched_keeps|done].
  - unfold signal_send_foreground. destruct (negb _); [done|]. destruct (truthy _); [by apply signal_raise_ok|done].
Qed.

(** No sequence of signal operations, by any process and in any order, can give
    SIGKILL or SIGSTOP a handler or block them; so a SIGKILL that is the lowest
    deliverable signal of the running process terminates it with status 137. *)
Theorem sigkill_cannot_be_avoided k0 k frame a p :
  all_ok k0 -> rtc sig_step k0 k ->
  get_current_process k = a -> pstore k !! a = Some p ->
  sig_ok (p_sig p) /\
  (truthy (page_directory p) = true -> Z.testbit (sig_pending (p_sig p)) SIGKILL = true ->
   (forall j, 0 < j < SIGKILL -> Z.testbit (deliverable p) j = false) ->
   signal_dispatch frame k = DGone (signal_terminate a SIGKILL (upd a (on_sig (clear_pending SIGKILL)) k)) /\
   exists q, pstore (signal_terminate a SIGKILL (upd a (on_sig (clear_pending SIGKILL)) k)) !! a = Some q /\
     state (p_sched q) = PROC_ZOMBIE /\ exit_code (p_sched q) = 137).
Proof.
  intros H0 Hr Hc Hp.
  assert (Hk : all_ok k) by (induction Hr as [|k1 k2 k3 Hs _ IH]; [done|]; apply IH; [by eapply sig_step_ok|done..]).
  pose proof (Hk a p Hp) as (H1 & H2 & H3 & H4). split; [done|]. intros Hu Hpe Hmin. split.
  - unfold signal_dispatch. rewrite Hc, Hp, Hu. simpl negb. cbv iota.
    assert (lowest_signal (deliverable p) = SIGKILL) as ->.
    { apply lowest_signal_spec; [by vm_compute|]. split; [|done].
      rewrite testbit_deliverable, Hpe, H3 by (by vm_compute). done. }
    reflexivity.
  - apply terminate_state. rewrite lookup_upd, decide_True, Hp by done. by eexists.
Qed.

(** Handlers are serialised, and that serialisation also holds back SIGKILL: while a
    handler runs, a caught signal below 9 that is pending makes every dispatch return
    without effect, so a pending, unblocked SIGKILL is not acted on. *)
Theorem sigkill_starved frame k a p sig :
  get_current_process k = a -> pstore k !! a = Some p ->
  sig_active (p_sig p) <> 0 ->
  0 < sig < SIGKILL -> lowest_signal (deliverable p) = sig ->
  sig_handlers (p_sig p) sig <> SIG_DFL -> sig_handlers (p_sig p) sig <> SIG_IGN ->
  Z.testbit (deliverable p) SIGKILL = true ->
  signal_dispatch frame k = DReturn frame k.
Proof.
  intros Hc Hp Ha Hs Hl Hd Hi _. unfold signal_dispatch. rewrite Hc, Hp. destruct (negb _); [done|].
  rewrite Hl. unfold SIGKILL in Hs. destruct (negb (truthy sig)); [done|].
  assert (uncatchable sig = false) as ->.
  { unfold uncatchable, SIGKILL, SIGSTOP. destruct (Z.eqb_spec sig 9), (Z.eqb_spec sig 19); (lia || done). }
  rewrite (proj2 (Z.eqb_neq _ _) Hd), (proj2 (Z.eqb_neq _ _) Hi).
  unfold truthy. by rewrite (proj2 (Z.eqb_neq _ _) Ha).
Qed.

(** A handler that unblocks its own signal with sigprocmask and then returns normally
    is not returned from: [do_sigprocmask] has cleared the in-handler bit, so
    [do_sigreturn] takes the call for a spurious one and restores nothing. *)
Theorem sigreturn_lost_after_unblock k a p sig :
  get_current_process k = a -> pstore k !! a = Some p ->
  0 < sig < 32 -> sig_active (p_sig p) = sigbit sig ->
  let k' := (do_sigprocmask 1 (sigbit sig) 0 k).2 in
  (do_sigprocmask 1 (sigbit sig) 0 k).1 = 0 /\ do_sigreturn k' = k'.
Proof.
  intros Hc Hp Hs Ha. cbv zeta. unfold do_sigprocmask. rewrite Hc, Hp. simpl. split; [done|].
  unfold do_sigreturn. rewrite get_current_upd, Hc, lookup_upd, decide_True, Hp by done. simpl. rewrite Ha.
  assert (sigbit sig .& (sig_mask (p_sig p) .& not32 (u32 (sigbit sig)) .&
            not32 (sigbit SIGKILL .| sigbit SIGSTOP)) = 0) as ->; [|done].
  apply Z.bits_inj'. intros j Hj. rewrite !Z.land_spec, Z.bits_0, testbit_sigbit by lia.
  destruct (Z.eqb_spec sig j) as [<-|]; [|done].
  rewrite testbit_not32, testbit_u32, testbit_sigbit, Z.eqb_refl by lia. by rewrite andb_false_r.
Qed.

(** * A concrete process: SIGINT pending with a handler, a mapped stack page. *)

Definition demo_sig (pending active : Z) : proc :=
  set_p_sig (SigPart pending 0 active (<[2 := 0x5000]> (fun _ => 0)) 0x6000 (fun _ => 0))
    (set_pid 7 (set_page_directory demo_root zero_proc)).
Definition demo_sig_kst (pending active : Z) : kst :=
  set_user_cr3 demo_root (set_user_rsp 0x400800
    (set_syscall_frame (Some (fun _ => 0)) (start_kst {[ 100 := demo_sig pending active ]} [100] demo_vm3))).

Lemma demo_enters : enters (demo_sig_kst 4 0) 100 (demo_sig 4 0) 2.
Proof. constructor; try (vm_compute; done). Qed.

Lemma signal_handler_roundtrip_witness :
  exists f1 k1, signal_dispatch (fun i => 1000 + i) (demo_sig_kst 4 0) = DReturn f1 k1 /\ f1 16 = 0x5000 /\ f1 9 = 2 /\
    user_rsp k1 mod 16 = 8.
Proof.
  destruct (signal_handler_roundtrip (fun i => 1000 + i) (demo_sig_kst 4 0) 100 (demo_sig 4 0) 2 demo_enters)
    as (f1 & k1 & p1 & E & _ & _ & _ & H16 & H9 & _ & Hal & _); [simpl; lia..|].
  exists f1, k1. split; [exact E|]. split; [exact H16|]. split; [exact H9|exact Hal].
Defined.

Lemma sigkill_cannot_be_avoided_witness :
  exists q, pstore (signal_terminate 100 SIGKILL (upd 100 (on_sig (clear_pending SIGKILL)) (demo_sig_kst 512 0))) !! 100
    = Some q /\ state (p_sched q) = PROC_ZOMBIE.
Proof.
  destruct (sigkill_cannot_be_avoided (demo_sig_kst 512 0) (demo_sig_kst 512 0) (fun _ => 0) 100 (demo_sig 512 0))
    as [_ H].
  - intros a p Hp. simpl in Hp. apply lookup_singleton_Some in Hp as [<- <-]. done.
  - constructor.
  - reflexivity.
  - reflexivity.
  - destruct H as (_ & q & Hq & Hz & _).
    + reflexivity.
    + reflexivity.
    + intros j Hj. assert (j = 1 \/ j = 2 \/ j = 3 \/ j = 4 \/ j = 5 \/ j = 6 \/ j = 7 \/ j = 8) as Hj8
        by (unfold SIGKILL in Hj; lia).
      repeat (destruct Hj8 as [-> | Hj8]; [reflexivity|]). by rewrite Hj8.
    + exists q. split; [exact Hq|exact Hz].
Defined.

Lemma sigkill_starved_witness :
  signal_dispatch (fun _ => 0) (demo_sig_kst 516 1024) = DReturn (fun _ => 0) (demo_sig_kst 516 1024).
Proof.
  apply (sigkill_starved (fun _ => 0) (demo_sig_kst 516 1024) 100 (demo_sig 516 1024) 2);
    (reflexivity || (vm_compute; done)).
Defined.

Lemma sigreturn_lost_after_unblock_witness :
  do_sigreturn (do_sigprocmask 1 (sigbit 2) 0 (demo_sig_kst 0 4)).2 = (do_sigprocmask 1 (sigbit 2) 0 (demo_sig_kst 0 4)).2.
Proof.
  apply (sigreturn_lost_after_unblock (demo_sig_kst 0 4) 100 (demo_sig 0 4) 2); [reflexivity|reflexivity|lia|reflexivity].
Defined.
