(* ===== verification/Sched.v ===== *)
(** The boot CPU's scheduler (src/kernel/process.c: sched_forget, sched_target,
    irq_scheduler_tick): timer wake-ups, alarms and the weighted round robin.

    The tick runs with interrupts off, so it is one step of the model.  A pointer to a
    kernel stack may be the low identity address or its alias above [KERNEL_BASE];
    both name the same physical word. *)
From Stdlib Require Import ZArith Lia.
From S2P Require Import Prelude Phys PageAlloc Paging PageTables BootPaging Process Signal.

#[local] Arguments Z.testbit : simpl never.

Definition sched_forget (a : Z) (k : kst) : kst :=
  if negb (truthy a) then k
  else set_sched_cur (fun i => if (0 <=? i) && (i <? MAX_CPUS) && (sched_cur k i =? a) then 0 else sched_cur k i) k.

(** Physical address behind a kernel pointer. *)
Definition kva (a : Z) : Z := if KERNEL_BASE <=? a then a - KERNEL_BASE else a.

(** Word 18 of the frame at [sp], the CS of a saved frame; [0x08] without a frame. *)
Definition frame_cs (sp : Z) (k : kst) : Z :=
  if truthy sp then ld64 (pm (kvm k)) (kva (u64 (sp + 144))) else 0x08.

Definition sched_target (a : Z) (k : kst) : kst :=
  match pstore k !! a with
  | None => k
  | Some p =>
      let k := set_next_rsp (stack p) k in
      if truthy (page_directory p) then
        let cs := frame_cs (stack p) k in
        let k := set_next_cr3 (if cs .& 3 =? 3 then page_directory p else kernel_pml4_phys k) k in
        let kstk := u64 (kernel_stack p + KERNEL_BASE) in
        set_kernel_rsp kstk (set_tss_rsp0 kstk k)
      else set_next_cr3 (kernel_pml4_phys k) k
  end.

(** The deadline test the wait queue and the alarms share. *)
Definition due (now deadline : Z) : bool := truthy deadline && (0 <=? s32 (now - deadline)).

Definition wake_sleeper (now : Z) (p : proc) : proc :=
  if (state (p_sched p) =? PROC_BLOCKED) && due now (wake_tick (p_sched p))
  then on_sched (fun s => set_state PROC_RUN (set_wake_tick 0 s)) p else p.

Definition fire_alarm (now : Z) (p : proc) : proc :=
  if due now (alarm_tick (p_sched p)) then raise_proc SIGALRM (on_sched (set_alarm_tick 0) p) else p.

(** A loop over the table that updates each process from its own fields. *)
Definition each_proc (f : proc -> proc) (k : kst) : kst :=
  foldl (fun k a => upd a f k) k (process_table k).

(** May the scheduler switch to table entry [a]? *)
Definition eligible (k : kst) (a : Z) : bool :=
  match pstore k !! a with
  | None => false
  | Some p =>
      (state (p_sched p) =? PROC_RUN) && negb (a =? idle_proc k) && truthy (stack p) &&
      (sched_cpu (p_sched p) =? 0) &&
      negb (truthy (page_directory p) && negb (truthy (sched_managed (p_sched p))))
  end.

Definition table_at (k : kst) (i : Z) : Z := default 0 (process_table k !! Z.to_nat i).

(** Offset from the cursor of the first eligible entry, the cursor itself last. *)
Definition sched_scan (k : kst) : option Z :=
  find_idx (length (process_table k)) 1
    (fun i => eligible k (table_at k ((current_idx k + i) mod process_count k))).

Definition turn (p : proc) : Z := if truthy (sched_weight (p_sched p)) then sched_weight (p_sched p) else 1.
Definition start_turn (p : proc) : proc := on_sched (set_sched_quantum (turn p)) p.

(** [process_table[current_idx]] if the cursor is in range. *)
Definition sched_current (k : kst) : Z :=
  if (0 <=? current_idx k) && (current_idx k <? process_count k) then table_at k (current_idx k) else 0.

(** The default: resume the interrupted context. *)
Definition resume_current (k : kst) : kst :=
  let k := set_next_rsp (saved_rsp k) k in
  let cs := frame_cs (saved_rsp k) k in
  let run := if truthy (sched_cur k (this_cpu k)) then sched_cur k (this_cpu k) else sched_current k in
  set_next_cr3
    (match pstore k !! run with
     | Some r => if truthy (page_directory r) && (cs .& 3 =? 3) then page_directory r else kernel_pml4_phys k
     | None => kernel_pml4_phys k
     end) k.

(** [if (cur->sched_cpu == 0) cur->stack = saved_rsp]. *)
Definition save_outgoing (cur : Z) (k : kst) : kst :=
  upd cur (fun c => if sched_cpu (p_sched c) =? 0 then set_stack (saved_rsp k) c else c) k.

(** Switch to the table entry at [idx]. *)
Definition switch_to (idx : Z) (k : kst) : kst :=
  let a := table_at k idx in
  let k := set_current_idx idx k in
  let k := set_sched_cur (<[this_cpu k := a]> (sched_cur k)) k in
  sched_target a (upd a start_turn k).

(** The part after the timers. *)
Definition sched_switch (k : kst) : kst :=
  let cur := sched_current k in
  let k := resume_current k in
  if negb (truthy (sched_enabled k)) || (0 <? preempt_count k) || (process_count k =? 0) then k
  else
    match pstore k !! cur with
    | None => k
    | Some c =>
        if (state (p_sched c) =? PROC_RUN) && (1 <? sched_quantum (p_sched c)) then
          upd cur (on_sched (fun s => set_sched_quantum (u32 (sched_quantum s - 1)) s)) k
        else
          let k := save_outgoing cur k in
          match sched_scan k with
          | Some i => switch_to ((current_idx k + i) mod process_count k) k
          | None => if state (p_sched c) =? PROC_RUN then upd cur start_turn k else k
          end
    end.

Definition tick_timers (k : kst) : kst :=
  let k := each_proc (wake_sleeper (tick_count k)) k in
  each_proc (fire_alarm (tick_count k)) k.

Definition irq_scheduler_tick (k : kst) : kst := sched_switch (tick_timers k).

(** * The table loops *)

Lemma foldl_upd_lookup f l k b :
  NoDup l ->
  pstore (foldl (fun k a => upd a f k) k l) !! b =
    if decide (b ∈ l) then f <$> pstore k !! b else pstore k !! b.
Proof.
  revert k. induction l as [|a l IH]; intros k Hnd; simpl; [done|].
  inversion Hnd as [|? ? Ha Hnd']; subst. rewrite IH, lookup_upd by done.
  destruct (decide (a = b)) as [->|Hne].
  - rewrite decide_False by done. rewrite decide_True; [done|]. by left.
  - destruct (decide (b ∈ l)) as [Hin|Hin].
    + rewrite decide_True; [done|]. by right.
    + rewrite decide_False; [done|]. intros H. inversion H; subst; congruence.
Qed.

Lemma foldl_upd_frame f l k : foldl (fun k a => upd a f k) k l = set_pstore (pstore (foldl (fun k a => upd a f k) k l)) k.
Proof.
  revert k. induction l as [|a l IH]; intros k; simpl; [by destruct k|]. rewrite IH. done.
Qed.

Lemma each_proc_lookup f k a :
  table_wf k -> a ∈ process_table k -> pstore (each_proc f k) !! a = f <$> pstore k !! a.
Proof. intros Hwf Ha. unfold each_proc. rewrite foldl_upd_lookup by apply Hwf. by rewrite decide_True. Qed.

Lemma each_proc_frame f k : each_proc f k = set_pstore (pstore (each_proc f k)) k.
Proof. apply foldl_upd_frame. Qed.

Lemma each_proc_wf f k : (forall p, pid (f p) = pid p) -> table_wf k -> table_wf (each_proc f k).
Proof.
  intros Hf Hwf.
  assert (Hl : forall a p, a ∈ process_table k -> pstore (each_proc f k) !! a = Some p ->
    exists q, pstore k !! a = Some q /\ pid p = pid q).
  { intros a p Ha. rewrite each_proc_lookup by done. destruct (pstore k !! a) as [q|]; [|done].
    intros [= <-]. exists q. split; [done|apply Hf]. }
  rewrite each_proc_frame. constructor; simpl.
  - apply Hwf.
  - intros a Ha. split; [by apply (tb_live k Hwf a)|]. destruct (tb_live k Hwf a Ha) as [_ [q Hq]].
    rewrite each_proc_lookup, Hq by done. by eexists.
  - intros a b p q Ha Hb Hp Hq E. apply Hl in Hp as (p0 & Hp & E1), Hq as (q0 & Hq & E2); [|done..].
    eapply (tb_pid k Hwf a b); [done|done|done|done|congruence].
Qed.

Lemma tick_timers_lookup k a p :
  table_wf k -> a ∈ process_table k -> pstore k !! a = Some p ->
  pstore (tick_timers k) !! a = Some (fire_alarm (tick_count k) (wake_sleeper (tick_count k) p)).
Proof.
  intros Hwf Ha Hp. unfold tick_timers.
  assert (W1 : table_wf (each_proc (wake_sleeper (tick_count k)) k)).
  { apply each_proc_wf; [|done]. intros q. unfold wake_sleeper. by destruct (_ && _). }
  rewrite each_proc_lookup; [|done|by rewrite each_proc_frame].
  rewrite each_proc_lookup, Hp by done. rewrite each_proc_frame. done.
Qed.

Lemma tick_timers_frame k : tick_timers k = set_pstore (pstore (tick_timers k)) k.
Proof.
  unfold tick_timers. set (k1 := each_proc (wake_sleeper (tick_count k)) k).
  etrans; [apply each_proc_frame|]. generalize (pstore (each_proc (fire_alarm (tick_count k1)) k1)). intros m.
  subst k1. rewrite each_proc_frame. done.
Qed.

Lemma fire_pid now p : pid (fire_alarm now p) = pid p.
Proof. unfold fire_alarm, raise_proc. destruct (due _ _); [|done]. by destruct (_ && _), (_ =? PROC_BLOCKED). Qed.

Lemma tick_timers_wf k : table_wf k -> table_wf (tick_timers k).
Proof.
  intros Hwf. unfold tick_timers. apply each_proc_wf; [apply fire_pid|]. apply each_proc_wf; [|done].
  intros p. unfold wake_sleeper. by destruct (_ && _).
Qed.

(** What the second half of the tick can change of a process: its saved stack pointer and
    what is left of its turn. *)
Definition same_but_turn (p q : proc) : Prop :=
  p_sig q = p_sig p /\ p_mm q = p_mm p /\ pid q = pid p /\
  state (p_sched q) = state (p_sched p) /\ wake_tick (p_sched q) = wake_tick (p_sched p) /\
  alarm_tick (p_sched q) = alarm_tick (p_sched p).

Lemma upd_turn a f k b p :
  (forall p, same_but_turn p (f p)) -> pstore k !! b = Some p ->
  exists q, pstore (upd a f k) !! b = Some q /\ same_but_turn p q.
Proof.
  intros Hf Hp. rewrite lookup_upd, Hp. destruct (decide (a = b)); [exists (f p)|exists p]; by split.
Qed.

Lemma same_but_turn_trans p q r : same_but_turn p q -> same_but_turn q r -> same_but_turn p r.
Proof. unfold same_but_turn. intuition congruence. Qed.

Lemma sched_target_store a k : pstore (sched_target a k) = pstore k.
Proof. unfold sched_target. destruct (pstore k !! a); [|done]. by destruct (truthy _). Qed.

Lemma switch_to_store idx k : pstore (switch_to idx k) = alter start_turn (table_at k idx) (pstore k).
Proof. unfold switch_to. by rewrite sched_target_store. Qed.

Lemma save_outgoing_turn cur k b p :
  pstore k !! b = Some p -> exists q, pstore (save_outgoing cur k) !! b = Some q /\ same_but_turn p q.
Proof. apply upd_turn. intros q. by destruct (_ =? 0). Qed.

Lemma sched_switch_keeps k b p :
  pstore k !! b = Some p -> exists q, pstore (sched_switch k) !! b = Some q /\ same_but_turn p q.
Proof.
  intros Hp. unfold sched_switch. generalize (sched_current k). intros cur.
  assert (Hp1 : pstore (resume_current k) !! b = Some p) by done.
  generalize dependent (resume_current k). intros k1 Hp1.
  assert (Hid : exists q, pstore k1 !! b = Some q /\ same_but_turn p q) by (exists p; by split).
  destruct (_ || _); [done|]. destruct (pstore k1 !! cur) as [c|]; [|done].
  destruct (_ && _); [by apply upd_turn|].
  destruct (save_outgoing_turn cur k1 b p Hp1) as (q & Hq & S1). generalize dependent (save_outgoing cur k1).
  intros k2 Hq. destruct (sched_scan k2) as [i|].
  - rewrite switch_to_store. destruct (upd_turn (table_at k2 ((current_idx k2 + i) mod process_count k2)) start_turn k2 b q)
      as (r & Hr & S2); [done|done|]. exists r. split; [exact Hr|]. by eapply same_but_turn_trans.
  - destruct (_ =? PROC_RUN); [|by exists q].
    destruct (upd_turn cur start_turn k2 b q) as (r & Hr & S2); [done|done|].
    exists r. split; [done|]. by eapply same_but_turn_trans.
Qed.

(** * Timers *)

Lemma due_spec now deadline d :
  0 < deadline < 2 ^ 32 -> 0 <= now < 2 ^ 32 -> - 2 ^ 31 <= d < 2 ^ 31 -> u32 (now - deadline) = u32 d ->
  due now deadline = (0 <=? d).
Proof.
  intros Hd Hn Hr E. unfold due, truthy. destruct (Z.eqb_spec deadline 0); [lia|]. simpl negb.
  unfold s32. rewrite E. simpl andb. destruct (Z.leb_spec 0 d).
  - rewrite u32_small by lia. destruct (Z.ltb_spec d (2 ^ 31)); [|lia]. apply Z.leb_le. lia.
  - assert (Eu : u32 d = d + 2 ^ 32).
    { unfold u32. rewrite <- (Z.mod_small (d + 2 ^ 32) (2 ^ 32)) by lia.
      rewrite <- (Z.mod_add d 1 (2 ^ 32)) by lia. f_equal. }
    rewrite Eu. destruct (Z.ltb_spec (d + 2 ^ 32) (2 ^ 31)); [lia|]. apply Z.leb_gt. lia.
Qed.

Lemma wake_fields now p :
  p_sig (wake_sleeper now p) = p_sig p /\ alarm_tick (p_sched (wake_sleeper now p)) = alarm_tick (p_sched p).
Proof. unfold wake_sleeper. by destruct (_ && _). Qed.

(** The timers of one tick of the boot CPU.  A process blocked with a deadline that
    has come is runnable afterwards and its deadline is cleared; a process whose alarm has
    come has SIGALRM pending, no alarm left, and is runnable if it was blocked; a process
    for which neither has come keeps its state, its deadlines and its signals. *)
Theorem tick_timers_fire k a p :
  table_wf k -> a ∈ process_table k -> pstore k !! a = Some p ->
  exists q, pstore (irq_scheduler_tick k) !! a = Some q /\ pid q = pid p /\
    (state (p_sched p) = PROC_BLOCKED -> due (tick_count k) (wake_tick (p_sched p)) = true ->
       state (p_sched q) = PROC_RUN /\ wake_tick (p_sched q) = 0) /\
    (due (tick_count k) (alarm_tick (p_sched p)) = true ->
       Z.testbit (sig_pending (p_sig q)) SIGALRM = true /\ alarm_tick (p_sched q) = 0 /\
       state (p_sched q) = (if state (p_sched p) =? PROC_BLOCKED then PROC_RUN else state (p_sched p))) /\
    (due (tick_count k) (alarm_tick (p_sched p)) = false ->
       p_sig q = p_sig p /\ alarm_tick (p_sched q) = alarm_tick (p_sched p) /\
       (state (p_sched p) <> PROC_BLOCKED \/ due (tick_count k) (wake_tick (p_sched p)) = false ->
        state (p_sched q) = state (p_sched p) /\ wake_tick (p_sched q) = wake_tick (p_sched p))).
Proof.
  intros Hwf Ha Hp. pose proof (tick_timers_lookup k a p Hwf Ha Hp) as Ht.
  destruct (sched_switch_keeps _ _ _ Ht) as (q & Hq & Es & Em & Epid & Est & Ew & Eal).
  exists q. unfold irq_scheduler_tick. split; [done|]. rewrite Epid, Est, Ew, Eal, Es. clear.
  destruct (wake_fields (tick_count k) p) as [Ws Wa].
  split; [rewrite fire_pid; unfold wake_sleeper; by destruct (_ && _)|].
  unfold fire_alarm. rewrite Wa. destruct (due _ (alarm_tick _)).
  - split; [|split; [|done]].
    + intros Hb Hd. unfold wake_sleeper. rewrite Hb, Hd. done.
    + intros _. unfold wake_sleeper. destruct (Z.eqb_spec (state (p_sched p)) PROC_BLOCKED) as [Eb|Eb].
      * rewrite andb_true_l. destruct (due _ _); unfold raise_proc; simpl.
        -- split; [|done]. change (sigbit SIGALRM) with (1 << 14). by rewrite testbit_lor_bit, orb_true_r.
        -- rewrite Eb. simpl. split; [|done]. change (sigbit SIGALRM) with (1 << 14).
           by rewrite testbit_lor_bit, orb_true_r.
      * rewrite andb_false_l. unfold raise_proc. simpl. rewrite (proj2 (Z.eqb_neq _ _) Eb). simpl.
        split; [|done]. change (sigbit SIGALRM) with (1 << 14). by rewrite testbit_lor_bit, orb_true_r.
  - split; [|split; [done|]].
    + intros Hb Hd. unfold wake_sleeper. by rewrite Hb, Hd.
    + intros _. split; [done|]. split; [done|]. intros [H|H]; unfold wake_sleeper.
      * by rewrite (proj2 (Z.eqb_neq _ _) H).
      * by rewrite H, andb_false_r.
Qed.

(** A table of three: the init placeholder (no stack), a sleeper whose time has come at
    tick 500, and a runnable kernel thread with an alarm at 499. *)
Definition demo_sleeper : proc :=
  on_sched (fun s => set_state PROC_BLOCKED (set_wake_tick 500 s)) (set_stack 8192 (set_pid 2 zero_proc)).
Definition demo_worker : proc :=
  on_sched (fun s => set_state PROC_RUN (set_alarm_tick 499 s)) (set_stack 12288 (set_pid 3 zero_proc)).
Definition demo_sched : kst :=
  set_saved_rsp 4000
    (set_tick_count 500
      (start_kst {[ 16 := on_sched (set_state PROC_RUN) (set_pid 1 zero_proc);
                    32 := demo_sleeper; 48 := demo_worker ]} [16; 32; 48] demo_vm0)).

Lemma demo_sched_wf : table_wf demo_sched.
Proof. apply table_wfb_spec. by vm_compute. Qed.

#[local] Ltac in_list := apply list_elem_of_In; simpl; tauto.

Lemma tick_timers_fire_witness :
  exists q r, pstore (irq_scheduler_tick demo_sched) !! 32 = Some q /\
    pstore (irq_scheduler_tick demo_sched) !! 48 = Some r /\
    state (p_sched q) = PROC_RUN /\ wake_tick (p_sched q) = 0 /\
    Z.testbit (sig_pending (p_sig r)) SIGALRM = true /\ alarm_tick (p_sched r) = 0.
Proof.
  destruct (tick_timers_fire demo_sched 32 demo_sleeper demo_sched_wf ltac:(in_list) eq_refl)
    as (q & Hq & _ & Hw & _).
  destruct (tick_timers_fire demo_sched 48 demo_worker demo_sched_wf ltac:(in_list) eq_refl)
    as (r & Hr & _ & _ & Hal & _).
  exists q, r. destruct (Hw eq_refl eq_refl), (Hal eq_refl) as (? & ? & _). done.
Defined.

(** The deadline [do_alarm] sets for [x] milliseconds at tick [now]. *)
Lemma alarm_due now x t :
  0 <= now < 2 ^ 32 -> 0 < x < 2 ^ 31 -> 0 <= t < 2 ^ 31 - 1 ->
  let d := u32 (now + x) in
  due (u32 (now + t)) (if truthy d then d else 1) = (x + b2z (d =? 0) <=? t).
Proof.
  intros Hn Hx Ht d. pose proof (u32_range (now + x)) as Hd. fold d in Hd.
  assert (Ed : exists j, d = now + x - j * 2 ^ 32).
  { exists ((now + x) / 2 ^ 32). subst d. unfold u32. rewrite Z.mod_eq by lia. lia. }
  destruct Ed as [j Ej].
  rewrite (due_spec _ _ (t - x - b2z (d =? 0))).
  - apply eq_true_iff_eq. rewrite !Z.leb_le. lia.
  - unfold truthy. destruct (Z.eqb_spec d 0); simpl negb; cbv iota; lia.
  - apply u32_range.
  - destruct (d =? 0); simpl b2z; lia.
  - unfold u32. rewrite Zminus_mod_idemp_l. unfold truthy. destruct (Z.eqb_spec d 0) as [E|E]; simpl b2z; simpl negb; cbv iota.
    + replace (now + t - 1) with (t - x - 1 + j * 2 ^ 32) by lia. apply Z.mod_add. lia.
    + rewrite Ej. replace (now + t - (now + x - j * 2 ^ 32)) with (t - x - 0 + j * 2 ^ 32) by lia. apply Z.mod_add. lia.
Qed.

(** An alarm of [seconds] set at tick [now] is delivered by the first tick that comes
    [1000 * seconds] milliseconds later (one more when the deadline would be the value
    0, which means "no alarm") as long as that is below 2^31, also across the wrap of the
    tick counter.  From 2^31 ms up the signed comparison turns: the alarm goes off at
    once. *)
Theorem alarm_goes_off_on_time seconds k a p t :
  get_current_process k = a -> pstore k !! a = Some p -> 0 <= tick_count k < 2 ^ 32 ->
  exists q, pstore (do_alarm seconds k).2 !! a = Some q /\
    (0 < seconds * 1000 < 2 ^ 31 -> 0 <= t < 2 ^ 31 - 1 ->
     fire_alarm (u32 (tick_count k + t)) q =
       if seconds * 1000 + b2z (u32 (tick_count k + seconds * 1000) =? 0) <=? t
       then raise_proc SIGALRM (on_sched (set_alarm_tick 0) q) else q) /\
    (2 ^ 31 < seconds * 1000 < 2 ^ 32 - 1 ->
     fire_alarm (tick_count k) q = raise_proc SIGALRM (on_sched (set_alarm_tick 0) q)).
Proof.
  intros Ha Hp Hn. unfold do_alarm. rewrite Ha, Hp. cbv zeta. cbn [snd]. rewrite lookup_upd, decide_True, Hp by done.
  eexists. split; [done|]. split.
  - intros Hs Ht. unfold fire_alarm. simpl alarm_tick. destruct (Z.eqb_spec seconds 0); [lia|].
    rewrite (u32_small (seconds * 1000)) by lia. rewrite alarm_due by lia. done.
  - intros Hs. unfold fire_alarm. simpl alarm_tick. destruct (Z.eqb_spec seconds 0); [lia|].
    rewrite (u32_small (seconds * 1000)) by lia. set (d := u32 (tick_count k + seconds * 1000)).
    replace (due (tick_count k) (if truthy d then d else 1)) with true; [done|]. symmetry.
    pose proof (u32_range (tick_count k + seconds * 1000)) as Hd. fold d in Hd.
    assert (Ed : d = tick_count k + seconds * 1000 \/ d = tick_count k + seconds * 1000 - 2 ^ 32).
    { subst d. unfold u32. destruct (Z.ltb_spec (tick_count k + seconds * 1000) (2 ^ 32)).
      - left. apply Z.mod_small. lia.
      - right. rewrite <- (Z.mod_small (_ - 2 ^ 32) (2 ^ 32)) by lia.
        rewrite <- (Z.mod_add (_ - 2 ^ 32) 1 (2 ^ 32)) by lia. f_equal. lia. }
    unfold truthy. destruct (Z.eqb_spec d 0); simpl negb; cbv iota.
    + rewrite (due_spec _ _ (tick_count k - 1)) by (try done; lia). apply Z.leb_le. lia.
    + rewrite (due_spec _ _ (2 ^ 32 - seconds * 1000)); [apply Z.leb_le; lia|lia|lia|lia|].
      unfold u32. destruct Ed as [->| ->].
      * replace (tick_count k - (tick_count k + seconds * 1000)) with (2 ^ 32 - seconds * 1000 + -1 * 2 ^ 32) by lia.
        apply Z.mod_add. lia.
      * f_equal. lia.
Qed.

Lemma alarm_goes_off_on_time_witness :
  exists q, pstore (do_alarm 3 (set_tick_count 4294967000 (set_current_idx 2 demo_sched))).2 !! 48 = Some q /\
    fire_alarm (u32 (4294967000 + 2999)) q = q /\
    fire_alarm (u32 (4294967000 + 3000)) q = raise_proc SIGALRM (on_sched (set_alarm_tick 0) q).
Proof.
  set (k := set_tick_count 4294967000 (set_current_idx 2 demo_sched)).
  destruct (alarm_goes_off_on_time 3 k 48 demo_worker 2999 eq_refl eq_refl ltac:(simpl; lia)) as (q & Hq & H1 & _).
  destruct (alarm_goes_off_on_time 3 k 48 demo_worker 3000 eq_refl eq_refl ltac:(simpl; lia)) as (q' & Hq' & H2 & _).
  rewrite Hq in Hq'. injection Hq' as <-. exists q. split; [exact Hq|]. split.
  - exact (H1 ltac:(lia) ltac:(lia)).
  - exact (H2 ltac:(lia) ltac:(lia)).
Defined.

(** * Round robin *)

(** The tick finds the scheduler on, no critical section, and the cursor in the table. *)
Record tick_ready (k : kst) : Prop := {
  tr_wf : table_wf k;
  tr_cursor : 0 <= current_idx k < process_count k;
  tr_on : sched_enabled k <> 0;
  tr_preempt : preempt_count k <= 0
}.

Lemma table_at_lookup k i :
  0 <= i < process_count k -> process_table k !! Z.to_nat i = Some (table_at k i).
Proof.
  intros Hi. unfold process_count in Hi. unfold table_at.
  destruct (lookup_lt_is_Some_2 (process_table k) (Z.to_nat i)) as [x ->]; [lia|done].
Qed.

Lemma table_at_elem k i : 0 <= i < process_count k -> table_at k i ∈ process_table k.
Proof. intros Hi. by eapply list_elem_of_lookup_2, table_at_lookup. Qed.

Lemma sched_current_ready k : tick_ready k -> sched_current k = table_at k (current_idx k).
Proof.
  intros R. unfold sched_current. destruct (tr_cursor k R).
  rewrite (proj2 (Z.leb_le _ _)), (proj2 (Z.ltb_lt _ _)) by lia. done.
Qed.

Lemma resume_current_frame k :
  pstore (resume_current k) = pstore k /\ process_table (resume_current k) = process_table k /\
  current_idx (resume_current k) = current_idx k /\ this_cpu (resume_current k) = this_cpu k /\
  idle_proc (resume_current k) = idle_proc k /\ kvm (resume_current k) = kvm k /\
  kernel_pml4_phys (resume_current k) = kernel_pml4_phys k /\ next_rsp (resume_current k) = saved_rsp k /\
  saved_rsp (resume_current k) = saved_rsp k.
Proof. done. Qed.

Definition spend_tick (p : proc) : proc :=
  on_sched (fun s => set_sched_quantum (u32 (sched_quantum s - 1)) s) p.

(** One tick once the guards have passed. *)
Lemma sched_switch_eq k c :
  tick_ready k -> pstore k !! table_at k (current_idx k) = Some c ->
  let cur := table_at k (current_idx k) in
  let k2 := save_outgoing cur (resume_current k) in
  sched_switch k =
    if (state (p_sched c) =? PROC_RUN) && (1 <? sched_quantum (p_sched c)) then upd cur spend_tick (resume_current k)
    else match sched_scan k2 with
         | Some i => switch_to ((current_idx k + i) mod process_count k) k2
         | None => if state (p_sched c) =? PROC_RUN then upd cur start_turn k2 else k2
         end.
Proof.
  intros R Hc cur k2. unfold sched_switch. rewrite sched_current_ready by done. fold cur.
  replace (negb (truthy (sched_enabled (resume_current k))) || _ || _) with false.
  - change (pstore (resume_current k)) with (pstore k). subst cur. rewrite Hc. done.
  - symmetry. change (sched_enabled (resume_current k)) with (sched_enabled k).
    change (preempt_count (resume_current k)) with (preempt_count k).
    change (process_count (resume_current k)) with (process_count k).
    pose proof (tr_on k R). pose proof (tr_preempt k R). pose proof (tr_cursor k R). unfold truthy.
    rewrite (proj2 (Z.eqb_neq (sched_enabled k) 0)), (proj2 (Z.ltb_ge _ _)), (proj2 (Z.eqb_neq (process_count k) 0)) by lia. done.
Qed.

Lemma save_outgoing_frame cur k :
  process_table (save_outgoing cur k) = process_table k /\ current_idx (save_outgoing cur k) = current_idx k /\
  idle_proc (save_outgoing cur k) = idle_proc k.
Proof. done. Qed.

Lemma sched_scan_spec k :
  match sched_scan k with
  | Some i => 1 <= i <= process_count k /\ eligible k (table_at k ((current_idx k + i) mod process_count k)) = true /\
      (forall j, 1 <= j < i -> eligible k (table_at k ((current_idx k + j) mod process_count k)) = false)
  | None => forall j, 1 <= j <= process_count k -> eligible k (table_at k ((current_idx k + j) mod process_count k)) = false
  end.
Proof.
  destruct (sched_scan k) as [i|] eqn:E; unfold sched_scan in E.
  - apply find_idx_Some in E as (Hi & He & Hj). unfold process_count at 1. split; [lia|]. split; [done|exact Hj].
  - intros j Hj. apply (proj1 (find_idx_None _ _ _) E j). unfold process_count in Hj. lia.
Qed.

(** Every slot of the table is reached by the scan, the cursor's own last. *)
Lemma cyclic_offset idx j n :
  0 <= idx < n -> 0 <= j < n -> exists i, 1 <= i <= n /\ (idx + i) mod n = j.
Proof.
  intros Hi Hj. destruct (Z.ltb_spec idx j).
  - exists (j - idx). split; [lia|]. rewrite Z.mod_small; lia.
  - exists (j - idx + n). split; [lia|]. replace (idx + (j - idx + n)) with (j + 1 * n) by lia.
    rewrite Z.mod_add, Z.mod_small; lia.
Qed.

Lemma switch_to_fields idx k b q :
  table_at k idx = b -> pstore k !! b = Some q ->
  let k' := switch_to idx k in
  current_idx k' = idx /\ sched_cur k' (this_cpu k) = b /\ pstore k' !! b = Some (start_turn q) /\
  process_table k' = process_table k /\
  next_rsp k' = stack q /\
  (page_directory q = 0 -> next_cr3 k' = kernel_pml4_phys k) /\
  (page_directory q <> 0 ->
     next_cr3 k' = (if frame_cs (stack q) k .& 3 =? 3 then page_directory q else kernel_pml4_phys k) /\
     tss_rsp0 k' = u64 (kernel_stack q + KERNEL_BASE) /\ kernel_rsp k' = u64 (kernel_stack q + KERNEL_BASE)).
Proof.
  intros Hb Hq. unfold switch_to. rewrite Hb. unfold sched_target. rewrite lookup_upd, decide_True by done.
  change (pstore (set_sched_cur _ _)) with (pstore k). rewrite Hq. simpl fmap. cbv iota.
  change (truthy (page_directory (start_turn q))) with (negb (page_directory q =? 0)).
  destruct (Z.eqb_spec (page_directory q) 0) as [E|E]; simpl negb; cbv iota zeta.
  - split; [done|]. split; [by apply fn_lookup_insert|]. split; [simpl; by rewrite lookup_alter_eq, Hq|].
    split; [done|]. split; [done|]. split; [done|]. intros H. by destruct H.
  - split; [done|]. split; [by apply fn_lookup_insert|]. split; [simpl; by rewrite lookup_alter_eq, Hq|].
    split; [done|]. split; [done|]. split; [intros H; by destruct E|]. done.
Qed.

(** C8: what one scheduling decision does.  While the running process is runnable and has
    more than one tick of its turn left it goes on, one tick poorer.  Otherwise the CPU
    goes to the first eligible entry after the cursor in cyclic order, the cursor's own
    entry last: runnable, not idle, with a saved context, of this CPU, and a kernel thread
    or a managed user process.  It gets a full turn, the cursor and the per-CPU record
    name it, and the context to load is its own, on the page tables its saved frame needs.
    Without an eligible entry the interrupted context goes on. *)
Theorem sched_round_robin k c :
  tick_ready k -> pstore k !! table_at k (current_idx k) = Some c ->
  let cur := table_at k (current_idx k) in
  let k2 := save_outgoing cur (resume_current k) in
  let slot i := table_at k ((current_idx k + i) mod process_count k) in
  let k' := sched_switch k in
  (state (p_sched c) = PROC_RUN -> 1 < sched_quantum (p_sched c) -> k' = upd cur spend_tick (resume_current k)) /\
  (state (p_sched c) <> PROC_RUN \/ sched_quantum (p_sched c) <= 1 ->
   (exists i q, 1 <= i <= process_count k /\ eligible k2 (slot i) = true /\
      (forall j, 1 <= j < i -> eligible k2 (slot j) = false) /\
      pstore k2 !! slot i = Some q /\
      current_idx k' = (current_idx k + i) mod process_count k /\ sched_cur k' (this_cpu k) = slot i /\
      pstore k' !! slot i = Some (start_turn q) /\ next_rsp k' = stack q /\ stack q <> 0 /\
      (page_directory q = 0 -> next_cr3 k' = kernel_pml4_phys k) /\
      (page_directory q <> 0 ->
         next_cr3 k' = (if frame_cs (stack q) k .& 3 =? 3 then page_directory q else kernel_pml4_phys k) /\
         tss_rsp0 k' = u64 (kernel_stack q + KERNEL_BASE))) \/
   ((forall b, b ∈ process_table k -> eligible k2 b = false) /\
    current_idx k' = current_idx k /\ next_rsp k' = saved_rsp k)).
Proof.
  intros R Hc cur k2 slot k'. subst k'. pose proof (sched_switch_eq k c R Hc) as E.
  cbv zeta in E. fold cur in E. fold k2 in E. split.
  - intros Hr Hq. rewrite E, (proj2 (Z.eqb_eq _ _) Hr), (proj2 (Z.ltb_lt _ _) Hq). done.
  - intros Hout. replace ((state (p_sched c) =? PROC_RUN) && (1 <? sched_quantum (p_sched c))) with false in E.
    2:{ destruct Hout as [H|H]; [by rewrite (proj2 (Z.eqb_neq _ _) H)|].
        rewrite (proj2 (Z.ltb_ge _ _) H). by rewrite andb_false_r. }
    pose proof (sched_scan_spec k2) as Hs. rewrite E.
    change (process_count k2) with (process_count k) in Hs. change (current_idx k2) with (current_idx k) in Hs.
    destruct (sched_scan k2) as [i|].
    + left. destruct Hs as (Hi & He & Hj). change (table_at k2) with (table_at k) in *. fold (slot i) in He.
      destruct (pstore k2 !! slot i) as [q|] eqn:Hq; [|unfold eligible in He; by rewrite Hq in He].
      exists i, q. destruct (switch_to_fields ((current_idx k + i) mod process_count k) k2 (slot i) q eq_refl Hq)
        as (F1 & F2 & F3 & _ & F4 & F5 & F6).
      split; [done|]. split; [done|]. split; [exact Hj|]. split; [done|]. split; [exact F1|]. split; [exact F2|].
      split; [exact F3|]. split; [exact F4|]. split.
      * unfold eligible in He. rewrite Hq in He. bool_prop. unfold truthy in *. bool_prop. done.
      * split; [done|]. intros Hu. destruct (F6 Hu) as (? & ? & ?). done.
    + right. split.
      * intros b Hb. apply list_elem_of_lookup in Hb as [n Hn].
        assert (Hlt : 0 <= Z.of_nat n < process_count k) by (apply lookup_lt_Some in Hn; unfold process_count; lia).
        destruct (cyclic_offset (current_idx k) (Z.of_nat n) (process_count k) (tr_cursor k R) Hlt) as (i & Hi & Em).
        specialize (Hs i Hi). rewrite Em in Hs. change (table_at k2) with (table_at k) in Hs.
        unfold table_at in Hs. rewrite Nat2Z.id, Hn in Hs. done.
      * by destruct (_ =? PROC_RUN).
Qed.

Lemma sched_round_robin_witness :
  current_idx (sched_switch (tick_timers demo_sched)) = 1 /\
  next_rsp (sched_switch (tick_timers demo_sched)) = 8192.
Proof.
  assert (R : tick_ready (tick_timers demo_sched)) by (constructor; [by apply table_wfb_spec; vm_compute|by vm_compute|done|by vm_compute]).
  set (K := tick_timers demo_sched) in *. set (c := on_sched (set_state PROC_RUN) (set_pid 1 zero_proc)).
  assert (Hc : pstore K !! table_at K (current_idx K) = Some c) by reflexivity.
  set (K2 := save_outgoing (table_at K (current_idx K)) (resume_current K)).
  assert (H1 : (current_idx K + 1) mod process_count K = 1) by reflexivity.
  assert (H2 : exists q, pstore K2 !! table_at K 1 = Some q /\ stack q = 8192 /\ eligible K2 (table_at K 1) = true)
    by (eexists; by vm_compute).
  assert (H3 : table_at K 1 ∈ process_table K) by in_list.
  pose proof (sched_round_robin K c R Hc) as H. cbv zeta in H. fold K2 in H.
  assert (Hq1 : sched_quantum (p_sched c) <= 1) by done. clearbody c K2 K.
  destruct H2 as (q & Hq & Hs & He).
  destruct (proj2 H (or_intror Hq1)) as [(i & q' & Hi & _ & Hj & Hq' & Hi' & _ & _ & Hn & _)|(H0 & _)].
  - assert (i = 1) as ->.
    { destruct (decide (i = 1)); [done|]. specialize (Hj 1 ltac:(lia)). rewrite H1 in Hj. congruence. }
    rewrite H1 in *. split; congruence.
  - specialize (H0 _ H3). congruence.
Defined.

(** ** Nobody waits for ever *)

(** Weights are at most [W]; quanta are [uint32_t] values. *)
Definition weights_ok (W : Z) (k : kst) : Prop :=
  forall b p, b ∈ process_table k -> pstore k !! b = Some p -> turn p <= W /\ 0 <= sched_quantum (p_sched p) < 2 ^ 32.

(** Slots from the cursor to slot [ai], and the ticks left of the running turn. *)
Definition slots_before (k : kst) (ai : Z) : Z := (ai - current_idx k) mod process_count k.
Definition turn_left (k : kst) : Z :=
  match pstore k !! table_at k (current_idx k) with
  | Some c => Z.max 0 (sched_quantum (p_sched c) - 1)
  | None => 0
  end.
Definition wait_bound (W : Z) (k : kst) (ai : Z) : Z := slots_before k ai * W + turn_left k.

(** What other code may do between two ticks: anything but change the table, the cursor
    and what is left of the turns. *)
Definition between_ticks (k k' : kst) : Prop :=
  process_table k' = process_table k /\ current_idx k' = current_idx k /\
  (forall b p, b ∈ process_table k -> pstore k !! b = Some p ->
     exists q, pstore k' !! b = Some q /\ sched_quantum (p_sched q) = sched_quantum (p_sched p)).

Lemma tick_timers_ready k : tick_ready k -> tick_ready (tick_timers k).
Proof.
  intros R. pose proof (tick_timers_wf k (tr_wf k R)) as W. destruct R as [_ R1 R2 R3].
  rewrite tick_timers_frame in *. constructor; [exact W|exact R1|exact R2|exact R3].
Qed.

Lemma timers_proc_fields now p :
  let q := fire_alarm now (wake_sleeper now p) in
  stack q = stack p /\ page_directory q = page_directory p /\ turn q = turn p /\
  sched_quantum (p_sched q) = sched_quantum (p_sched p) /\ sched_cpu (p_sched q) = sched_cpu (p_sched p) /\
  sched_managed (p_sched q) = sched_managed (p_sched p) /\
  (state (p_sched p) = PROC_RUN -> state (p_sched q) = PROC_RUN).
Proof.
  unfold fire_alarm, wake_sleeper, raise_proc, turn.
  destruct (Z.eqb_spec (state (p_sched p)) PROC_BLOCKED) as [E|E].
  - destruct (due now (wake_tick _)); simpl; destruct (due now (alarm_tick _)); simpl; try rewrite E; simpl;
      repeat split; done.
  - simpl. destruct (due now (alarm_tick _)); simpl; [rewrite (proj2 (Z.eqb_neq _ _) E); simpl|]; repeat split; done.
Qed.

Lemma tick_timers_eligible k a :
  table_wf k -> a ∈ process_table k -> eligible k a = true -> eligible (tick_timers k) a = true.
Proof.
  intros Hwf Ha He. unfold eligible in *. destruct (pstore k !! a) as [p|] eqn:Hp; [|done].
  rewrite (tick_timers_lookup k a p) by done.
  destruct (timers_proc_fields (tick_count k) p) as (E1 & E2 & _ & _ & E3 & E4 & E5).
  rewrite E1, E2, E3, E4. rewrite (tick_timers_frame k). simpl idle_proc.
  destruct (Z.eqb_spec (state (p_sched p)) PROC_RUN) as [Er|]; [|done]. by rewrite (E5 Er).
Qed.

Lemma tick_timers_bound W k ai : tick_ready k -> wait_bound W (tick_timers k) ai = wait_bound W k ai.
Proof.
  intros R. unfold wait_bound, slots_before, turn_left.
  assert (Et : forall i, table_at (tick_timers k) i = table_at k i) by (intros; by rewrite tick_timers_frame).
  assert (Ei : current_idx (tick_timers k) = current_idx k) by (by rewrite tick_timers_frame).
  assert (En : process_count (tick_timers k) = process_count k) by (by rewrite tick_timers_frame).
  rewrite Et, Ei, En. f_equal. pose proof (table_at_elem k _ (tr_cursor k R)) as Hin.
  destruct (tb_live k (tr_wf k R) _ Hin) as [_ [c Hc]].
  rewrite (tick_timers_lookup k _ c), Hc by (apply R || done).
  destruct (timers_proc_fields (tick_count k) c) as (_ & _ & _ & -> & _). done.
Qed.

Lemma slots_before_pos k ai :
  0 <= current_idx k < process_count k -> 0 <= ai < process_count k -> ai <> current_idx k ->
  1 <= slots_before k ai < process_count k.
Proof.
  intros Hc Ha Hne. unfold slots_before. destruct (Z.ltb_spec ai (current_idx k)).
  - rewrite <- (Z.mod_add _ 1) by lia. rewrite Z.mod_small; lia.
  - rewrite Z.mod_small; lia.
Qed.

(** Moving the cursor [i] slots on, not beyond the waiting one, takes them off its wait. *)
Lemma slots_before_move k k' ai i :
  process_count k' = process_count k -> 0 < process_count k -> 1 <= i <= slots_before k ai ->
  current_idx k' = (current_idx k + i) mod process_count k ->
  slots_before k' ai = slots_before k ai - i.
Proof.
  intros En Hn Hi Ei. unfold slots_before in *. rewrite En, Ei, Zminus_mod_idemp_r.
  pose proof (Z.mod_pos_bound (ai - current_idx k) (process_count k) Hn).
  rewrite <- (Z.mod_small ((ai - current_idx k) mod process_count k - i) (process_count k)) by lia.
  rewrite Zminus_mod_idemp_l. f_equal. lia.
Qed.

Lemma save_outgoing_other cur k a p :
  a <> cur -> pstore k !! a = Some p -> pstore (save_outgoing cur k) !! a = Some p.
Proof. intros Hne Hp. unfold save_outgoing. rewrite lookup_upd, decide_False by done. done. Qed.

Lemma eligible_saved cur k a :
  a <> cur -> eligible k a = true -> eligible (save_outgoing cur (resume_current k)) a = true.
Proof.
  intros Hne He. unfold eligible in *. destruct (pstore k !! a) as [p|] eqn:Hp; [|done].
  by rewrite (save_outgoing_other cur (resume_current k) a p Hne Hp).
Qed.

Lemma save_outgoing_weight cur k b q :
  pstore (save_outgoing cur k) !! b = Some q -> exists p, pstore k !! b = Some p /\ turn p = turn q.
Proof.
  unfold save_outgoing. rewrite lookup_upd. destruct (decide (cur = b)); [|by exists q].
  destruct (pstore k !! b) as [p|]; [|done]. intros [= <-]. exists p. split; [done|]. by destruct (_ =? 0).
Qed.

(** The entry at slot [ai] waits for its turn. *)
Record waiting (W ai : Z) (k : kst) : Prop := {
  wt_positive : 1 <= W;
  wt_ready : tick_ready k;
  wt_weights : weights_ok W k;
  wt_slot : 0 <= ai < process_count k;
  wt_other : ai <> current_idx k;
  wt_eligible : eligible k (table_at k ai) = true
}.

Lemma waiting_other W ai k : waiting W ai k -> table_at k ai <> table_at k (current_idx k).
Proof.
  intros [_ R _ Hs Hne _] E. apply Hne.
  pose proof (table_at_lookup k ai Hs) as L1. pose proof (table_at_lookup k _ (tr_cursor k R)) as L2.
  rewrite <- E in L2. pose proof (NoDup_lookup _ _ _ _ (tb_nodup k (tr_wf k R)) L1 L2).
  pose proof (tr_cursor k R). lia.
Qed.

Lemma waiting_scan W ai k :
  waiting W ai k ->
  exists i, sched_scan (save_outgoing (table_at k (current_idx k)) (resume_current k)) = Some i /\ 1 <= i <= slots_before k ai.
Proof.
  intros Hw. pose proof (waiting_other W ai k Hw) as Hne. destruct Hw as [_ R _ Hs Hi He].
  pose proof (slots_before_pos k ai (tr_cursor k R) Hs Hi) as Hd.
  apply (eligible_saved _ k _ Hne) in He. set (k2 := save_outgoing _ _) in *.
  assert (Eslot : (current_idx k2 + slots_before k ai) mod process_count k2 = ai).
  { change (current_idx k2) with (current_idx k). change (process_count k2) with (process_count k).
    unfold slots_before. rewrite Zplus_mod_idemp_r. replace (_ + _) with ai by lia. apply Z.mod_small. lia. }
  pose proof (sched_scan_spec k2) as Hsc. change (process_count k2) with (process_count k) in Hsc, Eslot.
  destruct (sched_scan k2) as [i|].
  - exists i. split; [done|]. destruct Hsc as (Hr & _ & Hj). split; [lia|].
    destruct (Z.ltb_spec (slots_before k ai) i) as [Hlt|]; [|lia].
    specialize (Hj _ (conj (proj1 Hd) Hlt)). rewrite Eslot in Hj. change (table_at k2) with (table_at k) in Hj. congruence.
  - specialize (Hsc (slots_before k ai) ltac:(lia)). rewrite Eslot in Hsc. change (table_at k2) with (table_at k) in Hsc. congruence.
Qed.

Lemma sched_switch_progress W ai k :
  waiting W ai k ->
  process_table (sched_switch k) = process_table k /\ wait_bound W (sched_switch k) ai < wait_bound W k ai.
Proof.
  intros Hw. pose proof (waiting_scan W ai k Hw) as (i & Hsc & Hi). destruct Hw as [HW R Hwt Hs Hne He].
  pose proof (table_at_elem k _ (tr_cursor k R)) as Hin.
  destruct (tb_live k (tr_wf k R) _ Hin) as [_ [c Hc]].
  pose proof (sched_switch_eq k c R Hc) as E. cbv zeta in E. rewrite Hsc in E. rewrite E. clear E.
  destruct (Hwt _ c Hin Hc) as [_ Hq].
  set (cur := table_at k (current_idx k)) in *. destruct (_ && _) eqn:Ek.
  - apply andb_true_iff in Ek as [_ Ek]. apply Z.ltb_lt in Ek. split; [done|]. unfold wait_bound.
    change (slots_before (upd cur spend_tick (resume_current k)) ai) with (slots_before k ai).
    apply Z.add_lt_mono_l. unfold turn_left. change (table_at (upd _ _ _) _) with cur. fold cur.
    rewrite lookup_upd, decide_True by done. change (pstore (resume_current k)) with (pstore k). rewrite Hc. simpl.
    rewrite u32_small by lia. lia.
  - set (k2 := save_outgoing cur (resume_current k)) in *. set (idx := (current_idx k + i) mod process_count k).
    pose proof (sched_scan_spec k2) as Hspec. rewrite Hsc in Hspec. destruct Hspec as (_ & Hel & _).
    change (table_at k2 ((current_idx k2 + i) mod process_count k2)) with (table_at k idx) in Hel.
    unfold eligible in Hel. destruct (pstore k2 !! table_at k idx) as [q|] eqn:Hq2; [|done].
    destruct (switch_to_fields idx k2 (table_at k idx) q eq_refl Hq2) as (F1 & _ & F3 & F4 & _). split; [done|].
    assert (Hidx : 0 <= idx < process_count k) by (apply Z.mod_pos_bound; lia).
    destruct (save_outgoing_weight _ _ _ _ Hq2) as (p & Hp & Ep).
    destruct (Hwt _ p (table_at_elem k idx Hidx) Hp) as [Hturn _].
    unfold wait_bound. rewrite (slots_before_move k (switch_to idx k2) ai i); [|unfold process_count; by rewrite F4|lia|done|done].
    assert (Hl : turn_left (switch_to idx k2) <= Z.max 0 (W - 1)).
    { unfold turn_left. rewrite F1. unfold table_at. rewrite F4. change (process_table k2) with (process_table k).
      fold (table_at k idx). rewrite F3. unfold start_turn. simpl. lia. }
    assert (H0 : 0 <= turn_left k) by (unfold turn_left; fold cur; rewrite Hc; lia).
    nia.
Qed.

Lemma waiting_timers W ai k : waiting W ai k -> waiting W ai (tick_timers k).
Proof.
  intros [HW R Hwt Hs Hne He].
  pose proof (tick_timers_eligible k _ (tr_wf k R) (table_at_elem k ai Hs) He) as He'.
  assert (Ht : process_table (tick_timers k) = process_table k) by (by rewrite tick_timers_frame).
  assert (Hi : current_idx (tick_timers k) = current_idx k) by (by rewrite tick_timers_frame).
  constructor.
  - done.
  - by apply tick_timers_ready.
  - intros b q Hb Hq. rewrite Ht in Hb. destruct (tb_live k (tr_wf k R) b Hb) as [_ [p Hp]].
    rewrite (tick_timers_lookup k b p (tr_wf k R) Hb Hp) in Hq. injection Hq as <-.
    destruct (timers_proc_fields (tick_count k) p) as (_ & _ & -> & -> & _). by apply (Hwt b).
  - unfold process_count. by rewrite Ht.
  - by rewrite Hi.
  - unfold table_at in *. by rewrite Ht.
Qed.

Lemma tick_progress W ai k :
  waiting W ai k ->
  process_table (irq_scheduler_tick k) = process_table k /\
  wait_bound W (irq_scheduler_tick k) ai < wait_bound W k ai.
Proof.
  intros Hw. unfold irq_scheduler_tick.
  destruct (sched_switch_progress W ai _ (waiting_timers W ai k Hw)) as [Et Hb].
  rewrite tick_timers_bound in Hb by apply Hw. split; [|done]. rewrite Et. by rewrite tick_timers_frame.
Qed.

Lemma sched_target_frame a k :
  process_table (sched_target a k) = process_table k /\ current_idx (sched_target a k) = current_idx k.
Proof. unfold sched_target. destruct (pstore k !! a); [|done]. by destruct (truthy _). Qed.

Lemma sched_switch_table k :
  process_table (sched_switch k) = process_table k /\
  (0 <= current_idx k < process_count k -> 0 <= current_idx (sched_switch k) < process_count k).
Proof.
  unfold sched_switch. destruct (_ || _); [done|]. destruct (pstore _ !! _) as [c|]; [|done].
  destruct (_ && _); [done|]. destruct (sched_scan _) as [i|]; [|by destruct (_ =? PROC_RUN)].
  unfold switch_to. split; [by rewrite (proj1 (sched_target_frame _ _))|].
  intros H. rewrite (proj2 (sched_target_frame _ _)). apply Z.mod_pos_bound.
  change (process_count (save_outgoing _ _)) with (process_count k). lia.
Qed.

Lemma sched_switch_wf k : table_wf k -> table_wf (sched_switch k).
Proof.
  intros Hwf. destruct (sched_switch_table k) as [Et _].
  assert (L : forall a q, a ∈ process_table k -> pstore (sched_switch k) !! a = Some q ->
    exists p, pstore k !! a = Some p /\ pid q = pid p).
  { intros a q Ha Hq. destruct (tb_live k Hwf a Ha) as [_ [p Hp]].
    destruct (sched_switch_keeps k a p Hp) as (q' & Hq' & S). exists p. split; [done|].
    rewrite Hq in Hq'. injection Hq' as <-. apply S. }
  constructor; rewrite ?Et.
  - apply Hwf.
  - intros a Ha. destruct (tb_live k Hwf a Ha) as [H0 [p Hp]]. split; [done|].
    destruct (sched_switch_keeps k a p Hp) as (q' & Hq' & _). by eexists.
  - intros a b p q Ha Hb Hp Hq E. apply L in Hp as (p' & Hp & E1), Hq as (q' & Hq & E2); [|done..].
    eapply (tb_pid k Hwf a b); [done..|congruence].
Qed.

Lemma tick_keeps_table k :
  tick_ready k -> table_wf (irq_scheduler_tick k) /\ process_table (irq_scheduler_tick k) = process_table k /\
    0 <= current_idx (irq_scheduler_tick k) < process_count k.
Proof.
  intros R. unfold irq_scheduler_tick. split; [apply sched_switch_wf, tick_timers_wf, R|].
  destruct (sched_switch_table (tick_timers k)) as [Et Ei].
  pose proof (tr_cursor _ (tick_timers_ready k R)) as Hc. specialize (Ei Hc). rewrite Et.
  assert (Ht : process_table (tick_timers k) = process_table k) by (by rewrite tick_timers_frame).
  unfold process_count in *. rewrite Ht in *. done.
Qed.

Lemma turn_left_nonneg k : 0 <= turn_left k.
Proof. unfold turn_left. destruct (pstore k !! _); lia. Qed.

Lemma between_bound W ai k k' :
  table_wf k -> 0 <= current_idx k < process_count k -> between_ticks k k' ->
  wait_bound W k' ai = wait_bound W k ai.
Proof.
  intros Hwf Hc (Et & Ei & Hq). unfold wait_bound, slots_before, turn_left, process_count, table_at.
  rewrite Et, Ei. f_equal. fold (table_at k (current_idx k)). pose proof (table_at_elem k _ Hc) as Hin.
  destruct (tb_live k Hwf _ Hin) as [_ [p Hp]]. destruct (Hq _ p Hin Hp) as (q & -> & E). rewrite Hp. by rewrite E.
Qed.

(** C9: the round robin starves nobody.  Take any run of ticks with preemption on, with
    anything that does not touch the table, the cursor and the turns happening in between.  If slot [ai] is
    eligible at every tick and no turn is longer than [W] ticks, it is running after at
    most [W] ticks for every slot the cursor has before it, plus what is left of the
    running turn. *)
Theorem round_robin_no_starvation (ks : nat -> kst) W ai m :
  1 <= W -> 0 <= ai < process_count (ks 0%nat) -> 0 <= current_idx (ks 0%nat) < process_count (ks 0%nat) ->
  (forall i, (i < m)%nat ->
     tick_ready (ks i) /\ weights_ok W (ks i) /\ eligible (ks i) (table_at (ks i) ai) = true /\
     between_ticks (irq_scheduler_tick (ks i)) (ks (Datatypes.S i))) ->
  wait_bound W (ks 0%nat) ai <= Z.of_nat m ->
  exists i, (i <= m)%nat /\ current_idx (ks i) = ai.
Proof.
  intros HW. revert ks. induction m as [|m IH]; intros ks Hai Hcur Hrun Hb.
  - exists 0%nat. split; [done|]. destruct (decide (ai = current_idx (ks 0%nat))) as [|Hne]; [done|exfalso].
    pose proof (slots_before_pos _ ai Hcur Hai Hne). pose proof (turn_left_nonneg (ks 0%nat)).
    unfold wait_bound in Hb. nia.
  - destruct (decide (ai = current_idx (ks 0%nat))) as [E|Hne]; [exists 0%nat; by split; [lia|]|].
    destruct (Hrun 0%nat ltac:(lia)) as (R & Hw & He & Hbt).
    destruct (tick_progress W ai (ks 0%nat)) as [Et Hlt]; [by constructor|].
    destruct (tick_keeps_table _ R) as (Hwf' & _ & Hc').
    assert (En : process_count (irq_scheduler_tick (ks 0%nat)) = process_count (ks 0%nat)) by (unfold process_count; by rewrite Et).
    rewrite <- En in Hc'. pose proof (between_bound W ai _ _ Hwf' Hc' Hbt) as Eb.
    destruct Hbt as (Et' & Ei' & _).
    assert (En' : process_count (ks 1%nat) = process_count (ks 0%nat)) by (unfold process_count; by rewrite Et', Et).
    destruct (IH (fun i => ks (Datatypes.S i))) as (i & Hi & Ei).
    + by rewrite En'.
    + by rewrite En', Ei', <- En.
    + intros i Hi. apply Hrun. lia.
    + lia.
    + exists (Datatypes.S i). split; [lia|done].
Qed.

(** Two kernel threads and the placeholder: the thread at slot 2 runs after two ticks. *)
Definition demo_ticks (i : nat) : kst := Nat.iter i irq_scheduler_tick demo_sched.

Lemma round_robin_no_starvation_witness : exists i, (i <= 2)%nat /\ current_idx (demo_ticks i) = 2.
Proof.
  apply (round_robin_no_starvation demo_ticks 1 2 2); [lia|by vm_compute|by vm_compute| |by vm_compute].
  intros i Hi. assert (Hc : i = 0%nat \/ i = 1%nat) by lia.
  split; [constructor; [apply table_wfb_spec; destruct Hc as [-> | ->]; by vm_compute|..];
          destruct Hc as [-> | ->]; by vm_compute|].
  split.
  { intros b p Hb Hp. apply list_elem_of_In in Hb. destruct Hc as [-> | ->]; vm_compute in Hb;
    destruct Hb as [<-|[<-|[<-|[]]]]; vm_compute in Hp; injection Hp as <-; by vm_compute. }
  split; [destruct Hc as [-> | ->]; by vm_compute|].
  split; [done|]. split; [done|]. intros b p _ Hp. exists p. done.
Defined.
