(* ===== verification/Reap.v ===== *)
(** The end of a process (src/kernel/process.c: close_proc_fds, tg_reassign_leader,
    reap_user_process, destroy_process, reap_zombies, do_waitpid, kwait, kwait_all;
    src/kernel/mmap.c: mmap_free_bufs; the SYS_EXIT case of src/kernel/syscall.c).

    A call that parks the caller ([sti; hlt] in a loop) is one iteration of its loop: it
    returns, or it leaves the state in which the caller sleeps.  What the rest of the
    kernel does until the next iteration is up to the statements. *)
From Stdlib Require Import ZArith Lia.
From S2P Require Import Prelude Phys PageAlloc Paging PageTables BootPaging Process Signal Sched.

#[local] Arguments Z.testbit : simpl never.

Definition WNOHANG : Z := 1.
Definition WUNTRACED : Z := 2.
Definition WSTOPPED : Z := 0x10000.

(** ** What a process owns *)

(** The close call for a descriptor's handle. *)
Definition close_call (h : Z) : kcall :=
  if truthy (h .& UFD_PIPE_FLAG) then CallPipeClose (UFD_PIPE_ID h) (UFD_PIPE_IS_WRITE h)
  else if truthy (h .& UFD_SOCK_FLAG) then CallSockClose (UFD_SOCK_ID h)
  else CallVfsClose h.

Definition clear_fd (i : Z) (p : proc) : proc :=
  on_mm (fun m => set_ufd_inuse (<[i := 0]> (ufd_inuse m)) m) p.

Definition close_fd (a i : Z) (k : kst) : kst :=
  match pstore k !! a with
  | Some p =>
      if truthy (ufd_inuse (p_mm p) i)
      then upd a (clear_fd i) (log_call (close_call (ufd_handle (p_mm p) i)) k) else k
  | None => k
  end.

Definition close_proc_fds (a : Z) (k : kst) : kst := for_range (Z.to_nat PROC_MAX_FDS) 0 (close_fd a) k.

Definition drop_buf (v : vma) : vma := set_v_file_size 0 (set_v_file_buf 0 v).

Definition set_vma (i : nat) (f : vma -> vma) (p : proc) : proc :=
  on_mm (fun m => set_mmap_vmas (alter f i (mmap_vmas m)) m) p.

Definition free_buf (a i : Z) (k : kst) : kst :=
  match pstore k !! a ≫= (fun p => mmap_vmas (p_mm p) !! Z.to_nat i) with
  | Some v =>
      if truthy (v_file_buf v) then upd a (set_vma (Z.to_nat i) drop_buf) (log_call (CallKfree (v_file_buf v)) k)
      else k
  | None => k
  end.

Definition mmap_free_bufs (a : Z) (k : kst) : kst := for_range (Z.to_nat PROC_MAX_VMAS) 0 (free_buf a) k.

(** The heir takes the heap window, the regions with their buffers, and the descriptors... *)
Definition inherit_group (d : proc) (h : proc) : proc :=
  on_mm (fun m => MmPart (heap_start (p_mm d)) (program_break (p_mm d)) (mmap_vmas (p_mm d)) (mmap_next (p_mm d))
    (fun i => if (0 <=? i) && (i <? PROC_MAX_FDS) then ufd_inuse (p_mm d) i else ufd_inuse m i)
    (fun i => if (0 <=? i) && (i <? PROC_MAX_FDS) then ufd_handle (p_mm d) i else ufd_handle m i)
    (fun i => if (0 <=? i) && (i <? PROC_MAX_FDS) then ufd_offset (p_mm d) i else ufd_offset m i)) h.

(** ...and the dying leader keeps neither buffers nor descriptors. *)
Definition disown_group (d : proc) : proc :=
  on_mm (fun m => set_ufd_inuse (fun i => if (0 <=? i) && (i <? PROC_MAX_FDS) then 0 else ufd_inuse m i)
    (set_mmap_vmas (map drop_buf (mmap_vmas m)) m)) d.

Definition in_group_of (k : kst) (dying id b : Z) : bool :=
  negb (b =? dying) && entry_is k (fun p => tgid p =? id) b.

Definition tg_reassign_leader (dying : Z) (k : kst) : kst :=
  match pstore k !! dying with
  | None => k
  | Some d =>
      let heir := table_find k (in_group_of k dying (pid d)) in
      match pstore k !! heir with
      | None => k
      | Some h =>
          let k := upd dying disown_group (upd heir (inherit_group d) k) in
          let k := foldl (fun k b => if in_group_of k dying (pid d) b then upd b (set_tgid (pid h)) k else k)
                     k (process_table k) in
          upd heir (set_tgid 0) k
      end
  end.

(** [if (p->page_directory && !addr_space_shared(p->page_directory, p)) free_page_directory(...)] *)
Definition release_space (a : Z) (k : kst) : kst :=
  match pstore k !! a with
  | Some p =>
      if truthy (page_directory p) && negb (addr_space_shared (page_directory p) a k)
      then set_kvm (free_page_directory (page_directory p) (kvm k)) k else k
  | None => k
  end.

Definition release_kstack (a : Z) (k : kst) : kst :=
  match pstore k !! a with
  | Some p => if truthy (kernel_stack p) then log_call (CallKfree (kernel_stack p - 4096)) k else k
  | None => k
  end.

(** The sequence reap_zombies and do_waitpid share, up to the table. *)
Definition reclaim (a : Z) (k : kst) : kst :=
  release_kstack a (release_space a (mmap_free_bufs a (tg_reassign_leader a (close_proc_fds a k)))).

Definition kfree_proc (a : Z) (k : kst) : kst :=
  log_call (CallKfree a) (set_pstore (delete a (pstore k)) k).

(** ** Removing a table slot *)

Definition swap_remove (i : nat) (l : list Z) : list Z :=
  match l !! (length l - 1)%nat with
  | Some x => take (length l - 1) (<[i := x]> l)
  | None => l
  end.

(** [last = --process_count; process_table[i] = process_table[last]; ...] *)
Definition remove_slot (i : Z) (k : kst) : kst :=
  let lst := process_count k - 1 in
  let k := set_process_table (swap_remove (Z.to_nat i) (process_table k)) k in
  if current_idx k =? lst then set_current_idx i k else k.

Definition reap_user_process (a : Z) (k : kst) : kst :=
  if negb (truthy a) then k
  else
    let k := close_proc_fds a k in
    let k := match list_find (eq a) (process_table k) with
             | Some (i, _) => set_process_table (swap_remove i (process_table k)) k
             | None => k
             end in
    kfree_proc a (sched_forget a (release_kstack a (release_space a (mmap_free_bufs a (tg_reassign_leader a k))))).

Definition destroy_process (id : Z) (k : kst) : kst :=
  let a := find_process id k in
  match pstore k !! a with
  | None => k
  | Some p =>
      if truthy (sched_managed (p_sched p)) && negb (state (p_sched p) =? PROC_ZOMBIE)
      then wake_waiters a (upd a (on_sched (fun s => set_state PROC_ZOMBIE (set_exit_code (-1) s))) k)
      else reap_user_process a k
  end.

(** ** The background reaper *)

Definition preempt_disable (k : kst) : kst := set_preempt_count (preempt_count k + 1) k.
Definition preempt_enable (k : kst) : kst :=
  if 0 <? preempt_count k then set_preempt_count (preempt_count k - 1) k else k.

(** A live user process waits for its own children. *)
Definition parent_collects (p : proc) (k : kst) : bool :=
  entry_is k (fun q => truthy (page_directory q) && negb (state (p_sched q) =? PROC_ZOMBIE)) (find_process (ppid p) k).

Definition reapable (k : kst) (i : Z) : bool :=
  entry_is k (fun p => (state (p_sched p) =? PROC_ZOMBIE) && negb (i =? current_idx k) && negb (parent_collects p k))
    (table_at k i).

(** The end of the zombie at slot [i]. *)
Definition drop_slot (i : Z) (k : kst) : kst :=
  let a := table_at k i in kfree_proc a (sched_forget a (remove_slot i (reclaim a k))).

(** Every iteration ends the slot it looks at or drops it: the table length is enough fuel. *)
Fixpoint reap_loop (fuel : nat) (i : Z) (k : kst) : kst :=
  match fuel with
  | O => k
  | Datatypes.S f =>
      if i <? process_count k then
        if reapable k i then reap_loop f i (drop_slot i k) else reap_loop f (i + 1) k
      else k
  end.

Definition reap_zombies (k : kst) : kst :=
  let k := preempt_disable k in
  preempt_enable (reap_loop (length (process_table k)) 0 k).

(** ** Waiting for children *)

Inductive wait_res :=
| WReturn (result : Z) (code : option Z) (k : kst)
| WPark (k : kst).

(** The scan: first zombie child, last stopped one not reported yet, any child at all. *)
Fixpoint wait_scan (k : kst) (self_pid wpid options : Z) (l : list Z) (i zi si : Z) (any : bool) : Z * Z * bool :=
  match l with
  | [] => (zi, si, any)
  | a :: l' =>
      match pstore k !! a with
      | None => wait_scan k self_pid wpid options l' (i + 1) zi si any
      | Some p =>
          if negb (ppid p =? self_pid) then wait_scan k self_pid wpid options l' (i + 1) zi si any
          else if (0 <? wpid) && negb (s32 (pid p) =? wpid) then wait_scan k self_pid wpid options l' (i + 1) zi si any
          else if state (p_sched p) =? PROC_ZOMBIE then (i, si, true)
          else
            let si := if truthy (options .& WUNTRACED) && (state (p_sched p) =? PROC_STOPPED) &&
                         negb (truthy (stopped_reported (p_sched p))) then i else si in
            wait_scan k self_pid wpid options l' (i + 1) zi si true
      end
  end.

(** [user_cr3] and [user_rsp] are put back on every return. *)
Definition wait_return (cr3 rsp : Z) (result : Z) (code : option Z) (k : kst) : wait_res :=
  WReturn result code (set_user_rsp rsp (set_user_cr3 cr3 k)).

(** The end of a child collected by waitpid. *)
Definition collect_child (zi : Z) (k : kst) : kst :=
  let child := table_at k zi in kfree_proc child (remove_slot zi (reclaim child k)).

(** One iteration, by the process at [self]. *)
Definition waitpid_iter (self wpid options cr3 rsp : Z) (k : kst) : wait_res :=
  match pstore k !! self with
  | None => wait_return cr3 rsp (-1) None k
  | Some me =>
      let k := upd self (mark_in_kernel 0) k in
      let '(zi, si, any) := wait_scan k (pid me) wpid options (process_table k) 0 (-1) (-1) false in
      if negb any then wait_return cr3 rsp (-1) None k
      else if (zi <? 0) && (0 <=? si) then
        let ch := table_at k si in
        match pstore k !! ch with
        | Some c =>
            wait_return cr3 rsp (s32 (pid c)) (Some (WSTOPPED .| stop_sig (p_sched c)))
              (upd ch (on_sched (set_stopped_reported 1)) k)
        | None => wait_return cr3 rsp (-1) None k
        end
      else if 0 <=? zi then
        match pstore k !! table_at k zi with
        | Some c => wait_return cr3 rsp (s32 (pid c)) (Some (exit_code (p_sched c))) (collect_child zi k)
        | None => wait_return cr3 rsp (-1) None k
        end
      else if truthy (options .& WNOHANG) then wait_return cr3 rsp 0 None k
      else
        WPark (upd self (on_sched (fun s =>
          set_waiting_for (if 0 <? wpid then u32 wpid else 0) (set_state PROC_BLOCKED (set_blocked_in_kernel 1 s)))) k)
  end.

Definition do_waitpid (wpid options : Z) (k : kst) : wait_res :=
  let self := get_current_process k in
  if negb (truthy self) then WReturn (-1) None k
  else waitpid_iter self wpid options (user_cr3 k) (user_rsp k) k.

Definition park_for (w : Z) (p : proc) : proc :=
  on_sched (fun s => set_waiting_for w (set_state PROC_BLOCKED s)) p.

Definition kwait_iter (self id : Z) (k : kst) : wait_res :=
  let child := find_process id k in
  match pstore k !! child with
  | None => WReturn (-1) None k
  | Some c =>
      if state (p_sched c) =? PROC_ZOMBIE then WReturn (exit_code (p_sched c)) None k
      else WPark (upd self (park_for id) k)
  end.

Definition kwait (id : Z) (k : kst) : wait_res :=
  let self := get_current_process k in
  if negb (truthy self) then WReturn (-1) None k else kwait_iter self id k.

Definition kwait_all_iter (self : Z) (k : kst) : wait_res :=
  match pstore k !! self with
  | None => WReturn 0 None k
  | Some me =>
      let pending := table_find k (fun a => negb (a =? self) &&
        entry_is k (fun p => (ppid p =? pid me) && negb (state (p_sched p) =? PROC_ZOMBIE)) a) in
      if negb (truthy pending) then WReturn 0 None k else WPark (upd self (park_for 0) k)
  end.

Definition kwait_all (k : kst) : wait_res :=
  let self := get_current_process k in
  if negb (truthy self) then WReturn 0 None k else kwait_all_iter self k.

(** SYS_EXIT: the state the process is left in (it never returns). *)
Definition sys_exit (code : Z) (k : kst) : kst :=
  let a := get_current_process k in
  if negb (truthy a) then k
  else
    let k := close_proc_fds a (upd a (on_sched (set_exit_code (s32 code))) k) in
    wake_waiters a (upd a (on_sched (set_state PROC_ZOMBIE)) k).

(** * Removing a slot *)

Lemma swap_remove_lookup i l j :
  (i < length l)%nat ->
  swap_remove i l !! j =
    if decide (j < length l - 1)%nat then (if decide (j = i) then l !! (length l - 1)%nat else l !! j) else None.
Proof.
  intros Hi. unfold swap_remove.
  destruct (lookup_lt_is_Some_2 l (length l - 1)%nat) as [x Hx]; [lia|]. rewrite Hx.
  destruct (decide (j < length l - 1)%nat) as [Hj|Hj].
  - rewrite lookup_take_lt by done. destruct (decide (j = i)) as [->|Hne].
    + by rewrite list_lookup_insert_eq by done.
    + by rewrite list_lookup_insert_ne by done.
  - by rewrite lookup_take_ge by lia.
Qed.

Lemma length_swap_remove i l : (i < length l)%nat -> length (swap_remove i l) = (length l - 1)%nat.
Proof.
  intros Hi. unfold swap_remove.
  destruct (lookup_lt_is_Some_2 l (length l - 1)%nat) as [x Hx]; [lia|]. rewrite Hx.
  rewrite length_take, length_insert. lia.
Qed.

Lemma swap_remove_elem i l a b :
  NoDup l -> l !! i = Some a -> b ∈ swap_remove i l <-> b ∈ l /\ b <> a.
Proof.
  intros Hnd Ha. pose proof (lookup_lt_Some _ _ _ Ha) as Hi. split.
  - intros Hb. apply list_elem_of_lookup in Hb as [j Hj]. rewrite swap_remove_lookup in Hj by done.
    destruct (decide (j < length l - 1)%nat) as [Hlt|]; [|done].
    destruct (decide (j = i)) as [->|Hne].
    + split; [by eapply list_elem_of_lookup_2|]. intros ->.
      pose proof (NoDup_lookup _ _ _ _ Hnd Ha Hj). lia.
    + split; [by eapply list_elem_of_lookup_2|]. intros ->.
      by pose proof (NoDup_lookup _ _ _ _ Hnd Ha Hj).
  - intros [Hb Hne]. apply list_elem_of_lookup in Hb as [j Hj]. pose proof (lookup_lt_Some _ _ _ Hj).
    assert (j <> i) by congruence. destruct (decide (j = length l - 1)%nat) as [->|].
    + apply list_elem_of_lookup. exists i. rewrite swap_remove_lookup, decide_True, decide_True by (done || lia). done.
    + apply list_elem_of_lookup. exists j. rewrite swap_remove_lookup, decide_True, decide_False by (done || lia). done.
Qed.

Lemma swap_remove_nodup i l : NoDup l -> (i < length l)%nat -> NoDup (swap_remove i l).
Proof.
  intros Hnd Hi. apply NoDup_alt. intros j1 j2 x H1 H2. rewrite swap_remove_lookup in H1, H2 by done.
  destruct (decide (j1 < _)%nat), (decide (j2 < _)%nat); try done.
  destruct (decide (j1 = i)), (decide (j2 = i)); subst; try done;
    pose proof (NoDup_lookup _ _ _ _ Hnd H1 H2); lia.
Qed.

(** * What reclaiming leaves alone *)

(** What identifies a process to the table operations. *)
Definition same_ident (p q : proc) : Prop :=
  pid q = pid p /\ ppid q = ppid p /\ page_directory q = page_directory p /\ p_sched q = p_sched p /\
  kernel_stack q = kernel_stack p /\ stack q = stack p.

Definition evolves (k k' : kst) : Prop :=
  process_table k' = process_table k /\ current_idx k' = current_idx k /\ sched_cur k' = sched_cur k /\
  preempt_count k' = preempt_count k /\ this_cpu k' = this_cpu k /\
  (forall b, match pstore k !! b, pstore k' !! b with
             | Some p, Some q => same_ident p q
             | None, None => True
             | _, _ => False
             end).

Lemma evolves_refl k : evolves k k.
Proof. repeat (split; [done|]). intros b. by destruct (pstore k !! b). Qed.

Lemma evolves_trans k1 k2 k3 : evolves k1 k2 -> evolves k2 k3 -> evolves k1 k3.
Proof.
  intros (A1 & A2 & A3 & A4 & A5 & A6) (B1 & B2 & B3 & B4 & B5 & B6).
  repeat (split; [congruence|]). intros b. specialize (A6 b). specialize (B6 b).
  destruct (pstore k1 !! b), (pstore k2 !! b), (pstore k3 !! b); try done. unfold same_ident in *. intuition congruence.
Qed.

Lemma evolves_upd a f k : (forall p, same_ident p (f p)) -> evolves k (upd a f k).
Proof.
  intros Hf. repeat (split; [done|]). intros b. rewrite lookup_upd.
  destruct (decide (a = b)); destruct (pstore k !! b); simpl; try done.
Qed.

Lemma evolves_store k k' :
  pstore k' = pstore k -> process_table k' = process_table k -> current_idx k' = current_idx k ->
  sched_cur k' = sched_cur k -> preempt_count k' = preempt_count k -> this_cpu k' = this_cpu k -> evolves k k'.
Proof. intros E1 E2 E3 E4 E5 E6. repeat (split; [done|]). intros b. rewrite E1. by destruct (pstore k !! b). Qed.

Lemma evolves_upd_log a f c k : (forall p, same_ident p (f p)) -> evolves k (upd a f (log_call c k)).
Proof. intros Hf. apply (evolves_trans _ (log_call c k)); [by apply evolves_store|]. by apply evolves_upd. Qed.

Lemma evolves_for n lo body k : (forall i k, evolves k (body i k)) -> evolves k (for_range n lo body k).
Proof.
  intros Hb. apply (for_range_ind (fun _ => evolves k)); [apply evolves_refl|].
  intros i s _ H. eapply evolves_trans; [exact H|apply Hb].
Qed.

Lemma evolves_foldl (f : kst -> Z -> kst) l k : (forall k b, evolves k (f k b)) -> evolves k (foldl f k l).
Proof.
  intros Hf. revert k. induction l as [|b l IH]; intros k; simpl; [apply evolves_refl|].
  eapply evolves_trans; [apply Hf|apply IH].
Qed.

Lemma close_proc_fds_evolves a k : evolves k (close_proc_fds a k).
Proof.
  apply evolves_for. intros i k'. unfold close_fd. destruct (pstore k' !! a); [|apply evolves_refl].
  destruct (truthy _); [by apply evolves_upd_log|apply evolves_refl].
Qed.

Lemma mmap_free_bufs_evolves a k : evolves k (mmap_free_bufs a k).
Proof.
  apply evolves_for. intros i k'. unfold free_buf. destruct (_ ≫= _); [|apply evolves_refl].
  destruct (truthy _); [by apply evolves_upd_log|apply evolves_refl].
Qed.

Lemma tg_reassign_evolves a k : evolves k (tg_reassign_leader a k).
Proof.
  unfold tg_reassign_leader. destruct (pstore k !! a) as [d|]; [|apply evolves_refl].
  destruct (pstore k !! table_find _ _) as [h|]; [|apply evolves_refl].
  eapply evolves_trans; [|by apply evolves_upd].
  eapply evolves_trans; [|apply evolves_foldl].
  - eapply evolves_trans; by apply evolves_upd.
  - intros k' b. destruct (in_group_of _ _ _ _); [by apply evolves_upd|apply evolves_refl].
Qed.

Lemma reclaim_evolves a k : evolves k (reclaim a k).
Proof.
  unfold reclaim. eapply evolves_trans; [apply (close_proc_fds_evolves a)|].
  eapply evolves_trans; [apply (tg_reassign_evolves a)|]. eapply evolves_trans; [apply (mmap_free_bufs_evolves a)|].
  generalize (mmap_free_bufs a (tg_reassign_leader a (close_proc_fds a k))). clear k. intros k.
  apply (evolves_trans _ (release_space a k)).
  - unfold release_space. destruct (pstore k !! a); [|apply evolves_refl].
    destruct (_ && _); [by apply evolves_store|apply evolves_refl].
  - unfold release_kstack. destruct (pstore _ !! a); [|apply evolves_refl].
    destruct (truthy _); [by apply evolves_store|apply evolves_refl].
Qed.

(** * The reaper *)

Definition current_of (k : kst) : Z := table_at k (current_idx k).

(** A zombie nobody will wait for, other than the running process. *)
Definition collectable (k : kst) (a : Z) : bool :=
  entry_is k (fun p => (state (p_sched p) =? PROC_ZOMBIE) && negb (parent_collects p k)) a && negb (a =? current_of k).

Lemma find_process_pid k a p :
  table_wf k -> find_process (pid p) k = a -> a <> 0 ->
  a ∈ process_table k /\ exists q, pstore k !! a = Some q /\ pid q = pid p.
Proof.
  intros Hwf Hf Ha. destruct (table_find_Some _ _ _ Hwf Hf Ha) as [Hin Ht]. split; [done|].
  unfold entry_is in Ht. destruct (pstore k !! a) as [q|]; [|done]. exists q. split; [done|]. by apply Z.eqb_eq.
Qed.

Lemma parent_collects_iff k p :
  table_wf k -> pstore k !! 0 = None ->
  parent_collects p k = true <->
  exists b q, b ∈ process_table k /\ pstore k !! b = Some q /\ pid q = ppid p /\
    truthy (page_directory q) = true /\ state (p_sched q) <> PROC_ZOMBIE.
Proof.
  intros Hwf H0. unfold parent_collects, entry_is. split.
  - destruct (decide (find_process (ppid p) k = 0)) as [E|E]; [by rewrite E, H0|].
    destruct (table_find_Some _ _ _ Hwf eq_refl E) as [Hin Ht]. fold (find_process (ppid p) k) in *.
    unfold entry_is in Ht. destruct (pstore k !! find_process (ppid p) k) as [q|] eqn:Hq; [|done].
    intros H. bool_prop. eexists _, q. done.
  - intros (b & q & Hb & Hq & E & Hu & Hz). rewrite <- E, (find_process_iff k b q) by done. rewrite Hq, Hu.
    by rewrite (proj2 (Z.eqb_neq _ _) Hz).
Qed.

Record reap_inv (k0 k : kst) : Prop := {
  ri_wf : table_wf k;
  ri_null : pstore k !! 0 = None;
  ri_cursor : 0 <= current_idx k < process_count k;
  ri_cur : current_of k = current_of k0;
  ri_sub : forall b, b ∈ process_table k -> b ∈ process_table k0;
  ri_keep : forall b, b ∈ process_table k0 -> collectable k0 b = false -> b ∈ process_table k;
  ri_same : forall b q, b ∈ process_table k -> pstore k !! b = Some q ->
    exists p, pstore k0 !! b = Some p /\ same_ident p q;
  ri_gone : forall b, b ∈ process_table k0 -> b ∉ process_table k ->
    pstore k !! b = None /\ forall c, 0 <= c < MAX_CPUS -> sched_cur k c <> b;
  ri_preempt : preempt_count k = preempt_count k0
}.

Lemma reap_inv_start k :
  table_wf k -> pstore k !! 0 = None -> 0 <= current_idx k < process_count k -> reap_inv k k.
Proof.
  intros Hwf H0 Hc. constructor; try done. intros b q _ Hq. exists q. done.
Qed.

Section reaping.
Context (k0 : kst) (Hwf0 : table_wf k0) (Hnull0 : pstore k0 !! 0 = None).

Lemma parent_collects_inv k b p q :
  reap_inv k0 k -> pstore k0 !! b = Some p -> pstore k !! b = Some q -> same_ident p q ->
  parent_collects q k = parent_collects p k0.
Proof.
  intros I Hp Hq S. apply eq_true_iff_eq. rewrite !parent_collects_iff by (apply I || done).
  destruct S as (_ & Epp & _). rewrite Epp. split; intros (c & r & Hc & Hr & E & Hu & Hz).
  - destruct (ri_same _ _ I c r Hc Hr) as (r0 & Hr0 & S). destruct S as (S1 & _ & S3 & S4 & _).
    exists c, r0. rewrite <- S1, <- S3, <- S4. split; [by apply (ri_sub _ _ I)|done].
  - assert (Hk : c ∈ process_table k).
    { apply (ri_keep _ _ I); [done|]. unfold collectable, entry_is. rewrite Hr. by rewrite (proj2 (Z.eqb_neq _ _) Hz). }
    destruct (tb_live k (ri_wf _ _ I) c Hk) as [_ [r' Hr']]. destruct (ri_same _ _ I c r' Hk Hr') as (r0 & Hr0 & S).
    rewrite Hr in Hr0. injection Hr0 as <-. destruct S as (S1 & _ & S3 & S4 & _).
    exists c, r'. rewrite S1, S3, S4. done.
Qed.

Lemma current_slot k i :
  table_wf k -> 0 <= current_idx k < process_count k -> 0 <= i < process_count k ->
  (i =? current_idx k) = (table_at k i =? current_of k).
Proof.
  intros Hwf Hc Hi. apply eq_true_iff_eq. rewrite !Z.eqb_eq. split; [by intros ->|]. intros E.
  pose proof (table_at_lookup k i Hi) as L1. pose proof (table_at_lookup k _ Hc) as L2.
  unfold current_of in E. rewrite <- E in L2. pose proof (NoDup_lookup _ _ _ _ (tb_nodup k Hwf) L1 L2). lia.
Qed.

Lemma reapable_collectable k i :
  reap_inv k0 k -> 0 <= i < process_count k -> reapable k i = collectable k0 (table_at k i).
Proof.
  intros I Hi. pose proof (table_at_elem k i Hi) as Hin. destruct (tb_live k (ri_wf _ _ I) _ Hin) as [_ [q Hq]].
  destruct (ri_same _ _ I _ q Hin Hq) as (p & Hp & S). unfold reapable, collectable, entry_is. rewrite Hq, Hp.
  rewrite (current_slot k i) by (apply I || done). rewrite (ri_cur _ _ I), (parent_collects_inv k _ p q I Hp Hq S).
  destruct S as (_ & _ & _ & -> & _). destruct (state _ =? _), (parent_collects p k0), (_ =? current_of k0); done.
Qed.
End reaping.

Lemma remove_slot_fields i k :
  let k' := remove_slot i k in
  process_table k' = swap_remove (Z.to_nat i) (process_table k) /\
  current_idx k' = (if current_idx k =? process_count k - 1 then i else current_idx k) /\
  pstore k' = pstore k /\ sched_cur k' = sched_cur k /\ preempt_count k' = preempt_count k /\ this_cpu k' = this_cpu k.
Proof. unfold remove_slot. simpl current_idx. by destruct (_ =? _). Qed.

#[local] Opaque reclaim.

Lemma drop_fields i k k1 a :
  evolves k k1 ->
  let k' := kfree_proc a (sched_forget a (remove_slot i k1)) in
  process_table k' = swap_remove (Z.to_nat i) (process_table k) /\
  current_idx k' = (if current_idx k =? process_count k - 1 then i else current_idx k) /\
  pstore k' = delete a (pstore k1) /\ preempt_count k' = preempt_count k /\
  (a <> 0 -> forall c, 0 <= c < MAX_CPUS ->
     sched_cur k' c = (if sched_cur k c =? a then 0 else sched_cur k c)).
Proof.
  intros (E1 & E2 & E3 & E4 & _ & _).
  destruct (remove_slot_fields i k1) as (F1 & F2 & F3 & F4 & F5 & _).
  unfold process_count in *. rewrite E1, E2 in *. rewrite E3 in F4. rewrite E4 in F5.
  generalize dependent (remove_slot i k1). intros k2 F1 F2 F3 F4 F5.
  unfold kfree_proc, sched_forget, truthy. destruct (Z.eqb_spec a 0); simpl; rewrite F3; try done.
  repeat (split; [done|]). intros _ c Hc. rewrite F4.
  rewrite (proj2 (Z.leb_le _ _)), (proj2 (Z.ltb_lt _ _)) by lia. done.
Qed.

Lemma drop_slot_fields i k :
  let k' := drop_slot i k in let a := table_at k i in
  process_table k' = swap_remove (Z.to_nat i) (process_table k) /\
  current_idx k' = (if current_idx k =? process_count k - 1 then i else current_idx k) /\
  pstore k' = delete a (pstore (reclaim a k)) /\ preempt_count k' = preempt_count k /\
  (a <> 0 -> forall c, 0 <= c < MAX_CPUS ->
     sched_cur k' c = (if sched_cur k c =? a then 0 else sched_cur k c)).
Proof. exact (drop_fields i k (reclaim (table_at k i) k) (table_at k i) (reclaim_evolves _ k)). Qed.

Lemma drop_slot_table i k :
  table_wf k -> 0 <= current_idx k < process_count k -> 0 <= i < process_count k -> i <> current_idx k ->
  let k' := drop_slot i k in
  process_count k' = process_count k - 1 /\ 0 <= current_idx k' < process_count k' /\ current_of k' = current_of k /\
  (forall b, b ∈ process_table k' <-> b ∈ process_table k /\ b <> table_at k i) /\
  (forall j, 0 <= j < i -> j < process_count k' -> table_at k' j = table_at k j).
Proof.
  intros Hwf Hc Hi Hne k'. destruct (drop_slot_fields i k) as (F1 & F2 & _). fold k' in F1, F2.
  pose proof (table_at_lookup k i Hi) as La.
  assert (Hlt : (Z.to_nat i < length (process_table k))%nat) by (unfold process_count in Hi; lia).
  assert (En : process_count k' = process_count k - 1).
  { unfold process_count. rewrite F1, length_swap_remove by done. lia. }
  assert (Hat : forall j, 0 <= j < process_count k - 1 ->
    table_at k' j = if decide (j = i) then table_at k (process_count k - 1) else table_at k j).
  { intros j Hj. unfold table_at. rewrite F1, swap_remove_lookup by done. unfold process_count in *.
    rewrite decide_True by lia. destruct (decide (j = i)) as [->|].
    - rewrite decide_True by done. f_equal. f_equal. lia.
    - rewrite decide_False by lia. done. }
  split; [done|]. rewrite En. split; [rewrite F2; destruct (Z.eqb_spec (current_idx k) (process_count k - 1)); lia|].
  split; [|split].
  - unfold current_of at 1. rewrite F2. destruct (Z.eqb_spec (current_idx k) (process_count k - 1)) as [E|E].
    + rewrite Hat by lia. rewrite decide_True by done. unfold current_of. by rewrite E.
    + rewrite Hat by lia. by rewrite decide_False by done.
  - intros b. rewrite F1. apply swap_remove_elem; [apply Hwf|done].
  - intros j Hj Hj'. rewrite Hat by lia. by rewrite decide_False by lia.
Qed.

Lemma drop_slot_inv k0 k i :
  table_wf k0 -> reap_inv k0 k -> 0 <= i < process_count k -> collectable k0 (table_at k i) = true -> reap_inv k0 (drop_slot i k).
Proof.
  intros Hwf0 I Hi Hcol. set (a := table_at k i) in *. pose proof (ri_wf _ _ I) as Hwf.
  assert (Hnc : i <> current_idx k).
  { intros ->. unfold collectable in Hcol. apply andb_true_iff in Hcol as [_ Hcol].
    rewrite <- (ri_cur _ _ I) in Hcol. unfold current_of in Hcol. subst a. by rewrite Z.eqb_refl in Hcol. }
  destruct (drop_slot_table i k Hwf (ri_cursor _ _ I) Hi Hnc) as (En & Hc' & Ecur & Hin & _).
  destruct (drop_slot_fields i k) as (F1 & _ & F3 & F4 & F5). fold a in F3, F5, Hin.
  set (k' := drop_slot i k) in *. pose proof (table_at_elem k i Hi) as Ha. fold a in Ha.
  destruct (tb_live k Hwf a Ha) as [Ha0 _]. destruct (reclaim_evolves a k) as (_ & _ & _ & _ & _ & Hst).
  assert (Hlook : forall b, b <> a -> forall q, pstore k' !! b = Some q -> exists p, pstore k !! b = Some p /\ same_ident p q).
  { intros b Hb q Hq. rewrite F3, lookup_delete_ne in Hq by done. specialize (Hst b). rewrite Hq in Hst.
    destruct (pstore k !! b) as [p|]; [by exists p|done]. }
  assert (Hlive : forall b, b <> a -> is_Some (pstore k !! b) -> is_Some (pstore k' !! b)).
  { intros b Hb [p Hp]. rewrite F3, lookup_delete_ne by done. specialize (Hst b). rewrite Hp in Hst.
    destruct (pstore (reclaim a k) !! b); [by eexists|done]. }
  constructor.
  - constructor.
    + rewrite F1. apply swap_remove_nodup; [apply Hwf|]. unfold process_count in Hi. lia.
    + intros b Hb. apply Hin in Hb as [Hb Hne]. destruct (tb_live k Hwf b Hb). split; [done|by apply Hlive].
    + intros b c p q Hb Hcc Hp Hq E. apply Hin in Hb as [Hb Hb'], Hcc as [Hcc Hcc'].
      destruct (Hlook b Hb' p Hp) as (p0 & Hp0 & S1), (Hlook c Hcc' q Hq) as (q0 & Hq0 & S2).
      apply (tb_pid k Hwf b c p0 q0); try done. destruct S1 as [S1 _], S2 as [S2 _]. congruence.
  - rewrite F3, lookup_delete_ne by done. specialize (Hst 0). rewrite (ri_null _ _ I) in Hst. by destruct (pstore _ !! 0).
  - done.
  - rewrite Ecur. apply I.
  - intros b Hb. apply Hin in Hb as [Hb _]. by apply (ri_sub _ _ I).
  - intros b Hb Hk. apply Hin. split; [by apply (ri_keep _ _ I)|]. congruence.
  - intros b q Hb Hq. apply Hin in Hb as [Hb Hne]. destruct (Hlook b Hne q Hq) as (p & Hp & S1).
    destruct (ri_same _ _ I b p Hb Hp) as (p0 & Hp0 & S2). exists p0. split; [done|].
    unfold same_ident in *. intuition congruence.
  - intros b Hb0 Hb. destruct (decide (b = a)) as [->|Hne].
    + split; [by rewrite F3, lookup_delete_eq|]. intros c Hc. rewrite F5 by done.
      destruct (Z.eqb_spec (sched_cur k c) a); [by apply not_eq_sym|done].
    + assert (Hk : b ∉ process_table k) by (intros H; by apply Hb, Hin).
      destruct (ri_gone _ _ I b Hb0 Hk) as [G1 G2]. split.
      * rewrite F3, lookup_delete_ne by done. specialize (Hst b). rewrite G1 in Hst. by destruct (pstore _ !! b).
      * intros c Hc. rewrite F5 by done. destruct (_ =? a); [|by apply G2].
        apply not_eq_sym, (tb_live k0 Hwf0 b Hb0).
  - by rewrite F4, (ri_preempt _ _ I).
Qed.

Lemma reap_loop_inv k0 n i k :
  table_wf k0 -> pstore k0 !! 0 = None -> reap_inv k0 k -> 0 <= i -> process_count k <= i + Z.of_nat n ->
  (forall j, 0 <= j < i -> j < process_count k -> collectable k0 (table_at k j) = false) ->
  let k' := reap_loop n i k in
  reap_inv k0 k' /\ (forall j, 0 <= j < process_count k' -> collectable k0 (table_at k' j) = false).
Proof.
  intros Hwf0 Hn0. revert i k. induction n as [|n IH]; intros i k I Hi Hn Hdone; simpl.
  - split; [done|]. intros j Hj. apply Hdone; lia.
  - destruct (Z.ltb_spec i (process_count k)) as [Hlt|Hge]; [|split; [done|]; intros j Hj; apply Hdone; lia].
    rewrite (reapable_collectable k0 Hwf0 Hn0 k i I) by lia.
    destruct (collectable k0 (table_at k i)) eqn:Hcol.
    + assert (Hnc : i <> current_idx k).
      { intros ->. unfold collectable in Hcol. apply andb_true_iff in Hcol as [_ Hcol].
        rewrite <- (ri_cur _ _ I) in Hcol. unfold current_of in Hcol. by rewrite Z.eqb_refl in Hcol. }
      destruct (drop_slot_table i k (ri_wf _ _ I) (ri_cursor _ _ I) (conj Hi Hlt) Hnc) as (En & _ & _ & _ & Hat).
      apply IH; [by apply drop_slot_inv|done|lia|]. intros j Hj Hj'. rewrite Hat by done. apply Hdone; lia.
    + apply IH; [done|lia|lia|]. intros j Hj Hj'. destruct (decide (j = i)) as [->|]; [done|]. apply Hdone; lia.
Qed.

(** C10: the background reaper.  It removes from the table exactly the zombies that no live
    user process will wait for, never the running process; the others stay, unchanged in
    identity and scheduling state, and the cursor still names the running process.  What
    is removed is freed, and no CPU keeps a pointer to it. *)
Theorem reap_zombies_correct k :
  table_wf k -> pstore k !! 0 = None -> 0 <= current_idx k < process_count k -> 0 <= preempt_count k ->
  let k' := reap_zombies k in
  table_wf k' /\ 0 <= current_idx k' < process_count k' /\ current_of k' = current_of k /\
  preempt_count k' = preempt_count k /\
  (forall b, b ∈ process_table k' <-> b ∈ process_table k /\ collectable k b = false) /\
  (forall b q, b ∈ process_table k' -> pstore k' !! b = Some q ->
     exists p, pstore k !! b = Some p /\ same_ident p q) /\
  (forall b, b ∈ process_table k -> collectable k b = true ->
     pstore k' !! b = None /\ forall c, 0 <= c < MAX_CPUS -> sched_cur k' c <> b).
Proof.
  intros Hwf H0 Hc Hp. unfold reap_zombies. set (k0 := preempt_disable k).
  assert (Hwf0 : table_wf k0) by (destruct Hwf; by constructor).
  destruct (reap_loop_inv k0 (length (process_table k0)) 0 k0 Hwf0 H0 (reap_inv_start k0 Hwf0 H0 Hc))
    as [I Hall]; [lia|unfold process_count; lia|lia|].
  generalize dependent (reap_loop (length (process_table k0)) 0 k0). intros k1 I Hall.
  assert (Ep : preempt_enable k1 = set_preempt_count (preempt_count k) k1).
  { unfold preempt_enable. rewrite (ri_preempt _ _ I). simpl preempt_count.
    destruct (Z.ltb_spec 0 (preempt_count k + 1)); [|lia]. f_equal. lia. }
  cbv zeta. rewrite Ep. destruct I as [Iwf I0 Icur Ieq Isub Ikeep Isame Igone Ipre].
  split; [destruct Iwf; by constructor|]. split; [exact Icur|]. split; [exact Ieq|]. split; [done|].
  split; [|split; [exact Isame|]].
  - intros b. simpl process_table. split; [|intros [Hb Hcb]; by apply Ikeep].
    intros Hb. split; [by apply Isub|]. apply list_elem_of_lookup in Hb as [j Hj].
    pose proof (lookup_lt_Some _ _ _ Hj). specialize (Hall (Z.of_nat j) ltac:(unfold process_count; lia)).
    unfold table_at in Hall. rewrite Nat2Z.id, Hj in Hall. exact Hall.
  - intros b Hb Hcb. apply Igone; [done|]. intros Hb'. apply list_elem_of_lookup in Hb' as [j Hj].
    pose proof (lookup_lt_Some _ _ _ Hj). specialize (Hall (Z.of_nat j) ltac:(unfold process_count; lia)).
    unfold table_at in Hall. rewrite Nat2Z.id, Hj in Hall. simpl in Hall.
    change (collectable k0 b) with (collectable k b) in Hall. congruence.
Qed.

(** * Waiting *)

(** Entry [a] is a child of process [sp] that [wpid] asks for. *)
Definition is_kid (k : kst) (sp wpid a : Z) : bool :=
  entry_is k (fun p => (ppid p =? sp) && negb ((0 <? wpid) && negb (s32 (pid p) =? wpid))) a.
Definition is_zombie (k : kst) (a : Z) : bool := entry_is k (fun p => state (p_sched p) =? PROC_ZOMBIE) a.
Definition is_news (k : kst) (options a : Z) : bool :=
  entry_is k (fun p => truthy (options .& WUNTRACED) && (state (p_sched p) =? PROC_STOPPED) &&
                       negb (truthy (stopped_reported (p_sched p)))) a.

Lemma wait_scan_cons k sp w o a l i zi si any :
  wait_scan k sp w o (a :: l) i zi si any =
    if is_kid k sp w a then
      if is_zombie k a then (i, si, true)
      else wait_scan k sp w o l (i + 1) zi (if is_news k o a then i else si) true
    else wait_scan k sp w o l (i + 1) zi si any.
Proof.
  simpl. unfold is_kid, is_zombie, is_news, entry_is. destruct (pstore k !! a) as [p|]; [|done].
  destruct (ppid p =? sp); simpl; [|done]. by destruct (_ && _).
Qed.

Lemma wait_scan_spec k sp w o l i si any :
  0 <= i ->
  (exists j a, l !! j = Some a /\ is_kid k sp w a = true /\ is_zombie k a = true /\
     (forall j' b, (j' < j)%nat -> l !! j' = Some b -> is_kid k sp w b && is_zombie k b = false) /\
     exists si', wait_scan k sp w o l i (-1) si any = (i + Z.of_nat j, si', true)) \/
  ((forall b, b ∈ l -> is_kid k sp w b && is_zombie k b = false) /\
   exists si', wait_scan k sp w o l i (-1) si any = (-1, si', any || existsb (is_kid k sp w) l) /\
     ((si' = si /\ forall b, b ∈ l -> is_kid k sp w b && is_news k o b = false) \/
      (exists j a, l !! j = Some a /\ si' = i + Z.of_nat j /\ is_kid k sp w a = true /\ is_news k o a = true))).
Proof.
  revert i si any. induction l as [|a l IH]; intros i si any Hi.
  - right. split; [intros b Hb; by apply not_elem_of_nil in Hb|]. exists si. simpl. rewrite orb_false_r.
    split; [done|]. left. split; [done|]. intros b Hb. by apply not_elem_of_nil in Hb.
  - rewrite wait_scan_cons. destruct (is_kid k sp w a) eqn:Ek; [destruct (is_zombie k a) eqn:Ez|].
    + left. exists 0%nat, a. repeat (split; [done|]). split; [intros j' b Hj'; lia|]. exists si. f_equal. f_equal. lia.
    + destruct (IH (i + 1) (if is_news k o a then i else si) true ltac:(lia))
        as [(j & b & Hj & Hk & Hz & Hmin & si' & E)|(Hnz & si' & E & Hs)].
      * left. exists (Datatypes.S j), b. repeat (split; [done|]). split.
        -- intros [|j'] c Hj' Hc; [simpl in Hc; simplify_eq; by rewrite Ez, andb_false_r|]. apply (Hmin j'); [lia|done].
        -- exists si'. rewrite E. f_equal. f_equal. lia.
      * right. split; [intros b Hb; inversion Hb; subst; [by rewrite Ez, andb_false_r|by apply Hnz]|].
        exists si'. rewrite E. simpl. rewrite Ek, orb_true_r. split; [done|].
        destruct Hs as [[-> Hs]|(j & b & Hj & -> & Hb)].
        -- destruct (is_news k o a) eqn:En.
           ++ right. exists 0%nat, a. repeat split; try done. lia.
           ++ left. split; [done|]. intros b Hb. inversion Hb; subst; [by rewrite En, andb_false_r|by apply Hs].
        -- right. exists (Datatypes.S j), b. split; [done|]. split; [lia|done].
    + destruct (IH (i + 1) si any ltac:(lia)) as [(j & b & Hj & Hk & Hz & Hmin & si' & E)|(Hnz & si' & E & Hs)].
      * left. exists (Datatypes.S j), b. repeat (split; [done|]). split.
        -- intros [|j'] c Hj' Hc; [simpl in Hc; simplify_eq; by rewrite Ek|]. apply (Hmin j'); [lia|done].
        -- exists si'. rewrite E. f_equal. f_equal. lia.
      * right. split; [intros b Hb; inversion Hb; subst; [by rewrite Ek|by apply Hnz]|].
        exists si'. rewrite E. simpl. rewrite Ek. split; [done|].
        destruct Hs as [[-> Hs]|(j & b & Hj & -> & Hb)].
        -- left. split; [done|]. intros b Hb. inversion Hb; subst; [by rewrite Ek|by apply Hs].
        -- right. exists (Datatypes.S j), b. split; [done|]. split; [lia|done].
Qed.

Lemma collect_fields i k k1 a :
  evolves k k1 ->
  let k' := kfree_proc a (remove_slot i k1) in
  process_table k' = swap_remove (Z.to_nat i) (process_table k) /\ pstore k' = delete a (pstore k1) /\
  sched_cur k' = sched_cur k.
Proof.
  intros (E1 & E2 & E3 & _). destruct (remove_slot_fields i k1) as (F1 & _ & F3 & F4 & _).
  rewrite E1 in F1. rewrite E3 in F4. generalize dependent (remove_slot i k1). intros k2 F1 F3 F4.
  unfold kfree_proc. simpl. by rewrite F3.
Qed.

Lemma collect_child_spec j k a :
  NoDup (process_table k) -> process_table k !! j = Some a ->
  let k' := collect_child (Z.of_nat j) k in
  (forall b, b ∈ process_table k' <-> b ∈ process_table k /\ b <> a) /\ pstore k' !! a = None /\
  (forall b p, b <> a -> pstore k !! b = Some p -> exists q, pstore k' !! b = Some q /\ same_ident p q) /\
  sched_cur k' = sched_cur k.
Proof.
  intros Hnd Hj. unfold collect_child.
  assert (Ea : table_at k (Z.of_nat j) = a) by (unfold table_at; by rewrite Nat2Z.id, Hj). rewrite Ea. cbv zeta.
  pose proof (reclaim_evolves a k) as Ev. destruct (collect_fields (Z.of_nat j) k _ a Ev) as (F1 & F2 & F3).
  destruct Ev as (_ & _ & _ & _ & _ & Hst). generalize dependent (kfree_proc a (remove_slot (Z.of_nat j) (reclaim a k))).
  intros k' F1 F2 F3. rewrite Nat2Z.id in F1. split; [|split; [|split; [|done]]].
  - intros b. rewrite F1. by apply swap_remove_elem.
  - by rewrite F2, lookup_delete_eq.
  - intros b p Hb Hp. rewrite F2, lookup_delete_ne by done. specialize (Hst b). rewrite Hp in Hst.
    destruct (pstore (reclaim a k) !! b) as [q|]; [by exists q|done].
Qed.

(** Marking a process "back from its sleep" does not change who it waits for. *)
Lemma entry_is_mark k self v test b :
  (forall p, test (mark_in_kernel v p) = test p) -> entry_is (upd self (mark_in_kernel v) k) test b = entry_is k test b.
Proof.
  intros Ht. unfold entry_is. rewrite lookup_upd. destruct (decide (self = b)); destruct (pstore k !! b); simpl; done.
Qed.

Definition park_waiting (wpid : Z) (p : proc) : proc :=
  on_sched (fun s => set_waiting_for (if 0 <? wpid then u32 wpid else 0)
    (set_state PROC_BLOCKED (set_blocked_in_kernel 1 s))) p.

#[local] Opaque collect_child.

Section waitpid.
Context (self wpid options cr3 rsp : Z) (k : kst) (me : proc).
Context (Hme : pstore k !! self = Some me).
#[local] Notation kid := (is_kid k (pid me) wpid).
#[local] Notation r := (waitpid_iter self wpid options cr3 rsp k).
#[local] Notation k1 := (upd self (mark_in_kernel 0) k).

Lemma awake_facts b :
  is_kid k1 (pid me) wpid b = kid b /\ is_zombie k1 b = is_zombie k b /\ is_news k1 options b = is_news k options b.
Proof. unfold is_kid, is_zombie, is_news. rewrite !entry_is_mark; done. Qed.

Lemma awake_lookup b c : pstore k !! b = Some c ->
  exists c', pstore k1 !! b = Some c' /\ pid c' = pid c /\ exit_code (p_sched c') = exit_code (p_sched c) /\
    stop_sig (p_sched c') = stop_sig (p_sched c).
Proof. intros Hc. rewrite lookup_upd, Hc. destruct (decide (self = b)); eexists; by split. Qed.

Lemma waitpid_scan_cases :
  (exists j a c, process_table k !! j = Some a /\ pstore k !! a = Some c /\ kid a = true /\ is_zombie k a = true /\
     (forall j' b, (j' < j)%nat -> process_table k !! j' = Some b -> kid b && is_zombie k b = false) /\
     r = wait_return cr3 rsp (s32 (pid c)) (Some (exit_code (p_sched c))) (collect_child (Z.of_nat j) k1)) \/
  ((forall b, b ∈ process_table k -> kid b && is_zombie k b = false) /\
   ((existsb kid (process_table k) = false /\ r = wait_return cr3 rsp (-1) None k1) \/
    (exists a c, a ∈ process_table k /\ pstore k !! a = Some c /\ kid a = true /\ is_news k options a = true /\
       r = wait_return cr3 rsp (s32 (pid c)) (Some (WSTOPPED .| stop_sig (p_sched c))) (upd a (on_sched (set_stopped_reported 1)) k1)) \/
    (existsb kid (process_table k) = true /\
     (forall b, b ∈ process_table k -> kid b && is_news k options b = false) /\
     r = if truthy (options .& WNOHANG) then wait_return cr3 rsp 0 None k1 else WPark (upd self (park_waiting wpid) k1)))).
Proof.
  destruct (wait_scan_spec k1 (pid me) wpid options (process_table k) 0 (-1) false ltac:(lia))
    as [(j & a & Hj & Hk & Hz & Hmin & si & E)|(Hnz & si & E & Hs)];
    unfold waitpid_iter; rewrite Hme; cbv zeta; change (process_table k1) with (process_table k); rewrite E.
  - left. destruct (awake_facts a) as (F1 & F2 & _). rewrite F1 in Hk. rewrite F2 in Hz.
    unfold is_zombie, entry_is in Hz. destruct (pstore k !! a) as [c|] eqn:Hc; [|done].
    exists j, a, c. split; [done|]. split; [done|]. split; [done|]. split; [by unfold is_zombie, entry_is; rewrite Hc|].
    split; [intros j' b Hj' Hb; destruct (awake_facts b) as (<- & <- & _); by apply (Hmin j')|].
    simpl negb. cbv iota. rewrite Z.add_0_l, (proj2 (Z.ltb_ge (Z.of_nat j) 0)), (proj2 (Z.leb_le 0 (Z.of_nat j))) by lia. simpl andb. cbv iota.
    replace (table_at k1 (Z.of_nat j)) with a by (unfold table_at; simpl process_table; by rewrite Nat2Z.id, Hj).
    destruct (awake_lookup a c Hc) as (c' & -> & -> & -> & _). done.
  - right. split; [intros b Hb; destruct (awake_facts b) as (<- & <- & _); by apply Hnz|].
    assert (Eany : existsb (is_kid k1 (pid me) wpid) (process_table k) = existsb kid (process_table k)).
    { generalize (process_table k). intros l. induction l as [|b l IH]; simpl; [done|]. by rewrite IH, (proj1 (awake_facts b)). }
    rewrite Eany. simpl orb. destruct (existsb kid (process_table k)) eqn:Ex; simpl negb; cbv iota; [|by left].
    right. destruct Hs as [[-> Hs]|(j & a & Hj & -> & Hk & Hn)].
    + right. split; [done|]. split; [|done]. intros b Hb. destruct (awake_facts b) as (<- & _ & <-). by apply Hs.
    + left. destruct (awake_facts a) as (F1 & _ & F3). rewrite F1 in Hk. rewrite F3 in Hn.
      unfold is_news, entry_is in Hn. destruct (pstore k !! a) as [c|] eqn:Hc; [|done].
      exists a, c. split; [by eapply list_elem_of_lookup_2|]. split; [done|]. split; [done|].
      split; [by unfold is_news, entry_is; rewrite Hc|]. rewrite Z.add_0_l.
      rewrite (proj2 (Z.leb_le 0 (Z.of_nat j))) by lia. simpl andb. cbv iota.
      replace (table_at k1 (Z.of_nat j)) with a by (unfold table_at; simpl process_table; by rewrite Nat2Z.id, Hj).
      destruct (awake_lookup a c Hc) as (c' & -> & -> & _ & ->). done.
Qed.
End waitpid.

Lemma existsb_elem (f : Z -> bool) (l : list Z) : existsb f l = true <-> exists b, b ∈ l /\ f b = true.
Proof.
  rewrite existsb_exists. split; intros (b & Hb & E); exists b; (split; [by apply list_elem_of_In|done]).
Qed.

Lemma existsb_none (f : Z -> bool) (l : list Z) : existsb f l = false -> forall b, b ∈ l -> f b = false.
Proof.
  intros E b Hb. destruct (f b) eqn:Eb; [|done]. assert (existsb f l = true); [|congruence].
  apply existsb_elem. by exists b.
Qed.

(** C15: waitpid, one turn of its loop.  Without a child it asks for it fails; with a zombie
    child it returns the pid and exit code of the first one in table order, which is gone
    from the table and freed while every other process stays; a stop not reported yet is
    reported (with WUNTRACED) only if no child has exited; otherwise it returns 0 with
    WNOHANG and parks the caller without, also one that a signal woke: there is no
    interrupted return.  The caller's [user_cr3] and [user_rsp] are in
    place on every return.  Unlike the other free paths it leaves the per-CPU records
    alone, also one that names the freed child. *)
Theorem waitpid_correct self wpid options cr3 rsp k me :
  table_wf k -> pstore k !! self = Some me ->
  let kid := is_kid k (pid me) wpid in
  match waitpid_iter self wpid options cr3 rsp k with
  | WReturn res code k' =>
      user_cr3 k' = cr3 /\ user_rsp k' = rsp /\ sched_cur k' = sched_cur k /\
      ((res = -1 /\ code = None /\ (forall b, b ∈ process_table k -> kid b = false) /\ process_table k' = process_table k) \/
       (exists j a c, process_table k !! j = Some a /\ pstore k !! a = Some c /\ kid a = true /\ is_zombie k a = true /\
          (forall j' b, (j' < j)%nat -> process_table k !! j' = Some b -> kid b && is_zombie k b = false) /\
          res = s32 (pid c) /\ code = Some (exit_code (p_sched c)) /\
          (forall b, b ∈ process_table k' <-> b ∈ process_table k /\ b <> a) /\ pstore k' !! a = None) \/
       ((forall b, b ∈ process_table k -> kid b && is_zombie k b = false) /\ process_table k' = process_table k /\
        ((exists a c, a ∈ process_table k /\ pstore k !! a = Some c /\ kid a = true /\ is_news k options a = true /\
            res = s32 (pid c) /\ code = Some (WSTOPPED .| stop_sig (p_sched c)) /\ is_news k' options a = false) \/
         (res = 0 /\ code = None /\ truthy (options .& WNOHANG) = true /\ exists b, b ∈ process_table k /\ kid b = true))))
  | WPark k' =>
      (exists b, b ∈ process_table k /\ kid b = true) /\ truthy (options .& WNOHANG) = false /\
      (forall b, b ∈ process_table k -> kid b = true -> is_zombie k b = false /\ is_news k options b = false) /\
      exists me', pstore k' !! self = Some me' /\ state (p_sched me') = PROC_BLOCKED /\
        waiting_for (p_sched me') = (if 0 <? wpid then u32 wpid else 0) /\ blocked_in_kernel (p_sched me') = 1
  end.
Proof.
  intros Hwf Hme kid.
  destruct (waitpid_scan_cases self wpid options cr3 rsp k me Hme)
    as [(j & a & c & Hj & Hc & Hk & Hz & Hmin & ->)|(Hnz & [[Hno ->]|[(a & c & Ha & Hc & Hk & Hn & ->)|(Hex & Hnn & ->)]])].
  - unfold wait_return. destruct (collect_child_spec j (upd self (mark_in_kernel 0) k) a (tb_nodup k Hwf) Hj) as (C1 & C2 & _ & C4).
    generalize dependent (collect_child (Z.of_nat j) (upd self (mark_in_kernel 0) k)). intros kc C1 C2 C4.
    split; [done|]. split; [done|]. split; [exact C4|]. right. left. exists j, a, c.
    repeat (split; [first [done|exact Hmin|exact C1]|]). exact C2.
  - unfold wait_return. repeat (split; [done|]). left. repeat (split; [done|]). split; [|done]. by apply existsb_none.
  - unfold wait_return. repeat (split; [done|]). right. right. split; [done|]. split; [done|]. left. exists a, c.
    repeat (split; [done|]). unfold is_news, entry_is.
    change (pstore (set_user_rsp _ _)) with (pstore (upd a (on_sched (set_stopped_reported 1)) (upd self (mark_in_kernel 0) k))).
    rewrite lookup_upd, decide_True by done.
    destruct (awake_lookup self k a c Hc) as (c' & -> & _). simpl. by rewrite andb_false_r.
  - destruct (truthy (options .& WNOHANG)) eqn:En; unfold wait_return.
    + repeat (split; [done|]). right. right. split; [done|]. split; [done|]. right. repeat (split; [done|]). by apply existsb_elem.
    + split; [by apply existsb_elem|]. split; [done|]. split.
      * intros b Hb Ek. specialize (Hnz b Hb). specialize (Hnn b Hb). unfold kid in Ek. by rewrite Ek in Hnz, Hnn.
      * rewrite lookup_upd, decide_True, lookup_upd, decide_True, Hme by done. eexists. done.
Qed.

(** * Exit and wait *)

Lemma store_wf k k' :
  table_wf k -> process_table k' = process_table k ->
  (forall b p, pstore k !! b = Some p -> exists q, pstore k' !! b = Some q /\ pid q = pid p) -> table_wf k'.
Proof.
  intros Hwf Et H. constructor; rewrite ?Et.
  - apply Hwf.
  - intros b Hb. destruct (tb_live k Hwf b Hb) as [Hb0 [p Hp]]. split; [done|]. destruct (H b p Hp) as (q & Hq & _). by eexists.
  - intros b c p q Hb Hc Hp Hq E. destruct (tb_live k Hwf b Hb) as [_ [p0 Hp0]], (tb_live k Hwf c Hc) as [_ [q0 Hq0]].
    destruct (H b p0 Hp0) as (p' & Hp' & E1), (H c q0 Hq0) as (q' & Hq' & E2). simplify_eq.
    apply (tb_pid k Hwf b c p0 q0); try done. congruence.
Qed.

Lemma upd_pid k a f b p :
  (forall p, pid (f p) = pid p) -> pstore k !! b = Some p -> exists q, pstore (upd a f k) !! b = Some q /\ pid q = pid p.
Proof. intros Hf Hp. rewrite lookup_upd, Hp. destruct (decide (a = b)); eexists; by split. Qed.

Definition with_inuse (f : Z -> Z) (p : proc) : proc := on_mm (set_ufd_inuse f) p.

(** Closing clears every slot of the process, and touches nothing else of the store. *)
Lemma close_proc_fds_shape a k p :
  pstore k !! a = Some p ->
  exists f, pstore (close_proc_fds a k) = <[a := with_inuse f p]> (pstore k) /\
    (forall i, 0 <= i < PROC_MAX_FDS -> f i = 0).
Proof.
  intros Hp.
  enough (H : exists f, pstore (close_proc_fds a k) = <[a := with_inuse f p]> (pstore k) /\
    (forall i, 0 <= i < 0 + Z.of_nat (Z.to_nat PROC_MAX_FDS) -> f i = 0)) by exact H.
  apply (for_range_ind (fun n k' => exists f, pstore k' = <[a := with_inuse f p]> (pstore k) /\
    (forall i, 0 <= i < n -> f i = 0))).
  - exists (ufd_inuse (p_mm p)). split; [|lia]. rewrite insert_id; [done|]. rewrite Hp. f_equal. by destruct p as [? ? ? ? ? ? ? ? [] ?].
  - intros i s Hi (f & Hs & Hz). unfold close_fd. rewrite Hs, lookup_insert_eq. simpl ufd_inuse.
    destruct (truthy (f i)) eqn:Et.
    + exists (<[i := 0]> f). split.
      * simpl. rewrite Hs. by rewrite alter_insert_eq.
      * intros j Hj. destruct (decide (j = i)) as [->|]; [by rewrite fn_lookup_insert|].
        rewrite fn_lookup_insert_ne by done. apply Hz. lia.
    + exists f. split; [done|]. intros j Hj. destruct (decide (j = i)) as [->|]; [|apply Hz; lia].
      unfold truthy in Et. by bool_prop.
Qed.

Lemma close_proc_fds_closed a k p :
  pstore k !! a = Some p ->
  exists q, pstore (close_proc_fds a k) !! a = Some q /\ same_ident p q /\
    (forall i, 0 <= i < PROC_MAX_FDS -> ufd_inuse (p_mm q) i = 0).
Proof.
  intros Hp. destruct (close_proc_fds_shape a k p Hp) as (f & E & Hz). exists (with_inuse f p).
  rewrite E, lookup_insert_eq. done.
Qed.

Lemma wake_waiters_wakes k a b c q :
  table_wf k -> b ∈ process_table k -> pstore k !! a = Some c -> pstore k !! b = Some q -> pid q = ppid c -> ppid c <> 0 ->
  state (p_sched q) = PROC_BLOCKED -> waiting_for (p_sched q) = pid c \/ waiting_for (p_sched q) = 0 ->
  wake_waiters a k = upd b (on_sched (fun s => set_state PROC_RUN (set_waiting_for 0 s))) k.
Proof.
  intros Hwf Hb Hc Hq Epid Hpp Hst Hw. unfold wake_waiters. rewrite Hc. unfold truthy.
  rewrite (proj2 (Z.eqb_neq _ _) Hpp). simpl negb. cbv iota zeta. rewrite <- Epid, (find_process_iff k b q) by done.
  assert (Ew : (waiting_for (p_sched q) =? pid c) || (waiting_for (p_sched q) =? 0) = true)
    by (destruct Hw as [-> | ->]; rewrite Z.eqb_refl; [done|apply orb_true_r]).
  by rewrite Hq, Hst, Ew, Z.eqb_refl.
Qed.

Definition wake_up (p : proc) : proc := on_sched (fun s => set_state PROC_RUN (set_waiting_for 0 s)) p.

(** The state SYS_EXIT leaves when the parent sleeps on this child. *)
Lemma sys_exit_spec code k a c b q :
  table_wf k -> get_current_process k = a -> a <> 0 -> pstore k !! a = Some c ->
  b ∈ process_table k -> b <> a -> pstore k !! b = Some q -> pid q = ppid c -> ppid c <> 0 ->
  state (p_sched q) = PROC_BLOCKED -> waiting_for (p_sched q) = pid c \/ waiting_for (p_sched q) = 0 ->
  let k' := sys_exit code k in
  process_table k' = process_table k /\
  (exists c', pstore k' !! a = Some c' /\ pid c' = pid c /\ ppid c' = ppid c /\ state (p_sched c') = PROC_ZOMBIE /\
     exit_code (p_sched c') = s32 code /\ forall i, 0 <= i < PROC_MAX_FDS -> ufd_inuse (p_mm c') i = 0) /\
  (exists q', pstore k' !! b = Some q' /\ pid q' = pid q /\ ppid q' = ppid q /\ state (p_sched q') = PROC_RUN) /\
  (forall e p, e <> a -> e <> b -> pstore k !! e = Some p -> exists p', pstore k' !! e = Some p' /\ same_ident p p').
Proof.
  intros Hwf Ha Ha0 Hc Hb Hne Hq Epid Hpp Hst Hw. unfold sys_exit. rewrite Ha. unfold truthy.
  rewrite (proj2 (Z.eqb_neq _ _) Ha0). simpl negb. cbv iota zeta.
  set (k1 := upd a (on_sched (set_exit_code (s32 code))) k).
  assert (Hc1 : pstore k1 !! a = Some (on_sched (set_exit_code (s32 code)) c)) by (unfold k1; by rewrite lookup_upd, decide_True, Hc).
  destruct (close_proc_fds_closed a k1 _ Hc1) as (c2 & Hc2 & S2 & Hz). pose proof (close_proc_fds_evolves a k1) as (E1 & _ & _ & _ & _ & Est).
  assert (Hothers : forall e p, e <> a -> pstore k !! e = Some p ->
    exists p', pstore (close_proc_fds a k1) !! e = Some p' /\ same_ident p p').
  { intros e p He Hp. specialize (Est e). unfold k1 in Est. rewrite lookup_upd, decide_False, Hp in Est by done.
    destruct (pstore (close_proc_fds a _) !! e) as [p'|] eqn:E; [|done]. exists p'. by split. }
  generalize dependent (close_proc_fds a k1). intros k2 Hc2 E1 Est Hothers.
  set (k3 := upd a (on_sched (set_state PROC_ZOMBIE)) k2).
  assert (Hc3 : pstore k3 !! a = Some (on_sched (set_state PROC_ZOMBIE) c2)) by (unfold k3; by rewrite lookup_upd, decide_True, Hc2).
  destruct (Hothers b q Hne Hq) as (q2 & Hq2 & (Q1 & Q2 & Q3 & Q4 & _)).
  assert (Hq3 : pstore k3 !! b = Some q2) by (unfold k3; by rewrite lookup_upd, decide_False by done).
  destruct S2 as (P1 & P2 & P3 & P4 & _).
  assert (Hwf3 : table_wf k3).
  { apply (store_wf k); [done|done|]. intros e p Hp. unfold k3. rewrite lookup_upd. destruct (decide (a = e)) as [<-|Hea].
    - rewrite Hc2. eexists. split; [done|]. simplify_eq. exact P1.
    - destruct (Hothers e p ltac:(done) Hp) as (p' & -> & S). exists p'. split; [done|]. apply S. }
  rewrite (wake_waiters_wakes k3 a b (on_sched (set_state PROC_ZOMBIE) c2) q2 Hwf3); try done.
  - split; [done|]. split; [|split].
    + exists (on_sched (set_state PROC_ZOMBIE) c2). rewrite lookup_upd, decide_False by done. split; [done|].
      split; [done|]. split; [done|]. split; [done|]. split; [simpl; by rewrite P4|]. exact Hz.
    + exists (wake_up q2). rewrite lookup_upd, decide_True, Hq3 by done. done.
    + intros e p Hea Heb Hp. destruct (Hothers e p Hea Hp) as (p' & Hp' & S). exists p'.
      rewrite lookup_upd, decide_False by done. unfold k3. rewrite lookup_upd, decide_False by done. done.
  - unfold k3. simpl process_table. rewrite E1. done.
  - simpl. rewrite P2, Q1. done.
  - simpl. by rewrite P2.
  - by rewrite Q4.
  - simpl. rewrite P1, Q4. done.
Qed.

Lemma u32_s32 x : 0 <= x < 2 ^ 32 -> u32 (s32 x) = x.
Proof.
  intros Hx. unfold s32. rewrite (u32_small x) by lia. destruct (Z.ltb_spec x (2 ^ 31)); [apply u32_small; lia|].
  unfold u32. rewrite <- (Z.mod_small x (2 ^ 32)) by lia. rewrite <- (Z.mod_add _ 1 (2 ^ 32)) by lia. f_equal. rewrite Z.mod_small by lia. lia.
Qed.

(** C16: no wake-up is lost between exit and waitpid.  A parent that parked in waitpid for
    this child (or any child) is runnable once the child has called exit; its next look at
    the table returns the child's pid and status and the child is gone. *)
Theorem exit_waitpid_rendezvous code wpid options cr3 rsp k a c b q :
  table_wf k -> get_current_process k = a -> a ∈ process_table k -> pstore k !! a = Some c ->
  b ∈ process_table k -> b <> a -> pstore k !! b = Some q -> pid q = ppid c -> ppid c <> 0 -> 0 <= pid c < 2 ^ 32 ->
  state (p_sched q) = PROC_BLOCKED -> waiting_for (p_sched q) = (if 0 <? wpid then u32 wpid else 0) ->
  (0 < wpid -> wpid = s32 (pid c)) ->
  (forall e, e ∈ process_table k -> e <> a -> is_kid k (pid q) wpid e && is_zombie k e = false) ->
  let k' := sys_exit code k in
  exists q' k'', pstore k' !! b = Some q' /\ state (p_sched q') = PROC_RUN /\
    waitpid_iter b wpid options cr3 rsp k' = WReturn (s32 (pid c)) (Some (s32 code)) k'' /\
    a ∉ process_table k'' /\ pstore k'' !! a = None.
Proof.
  intros Hwf Ha Hin Hc Hb Hne Hq Epid Hpp Hpid Hst Hwf' Hwp Hothers k'.
  assert (Hw : waiting_for (p_sched q) = pid c \/ waiting_for (p_sched q) = 0).
  { rewrite Hwf'. destruct (Z.ltb_spec 0 wpid); [left|by right]. rewrite Hwp by done. by apply u32_s32. }
  destruct (sys_exit_spec code k a c b q Hwf Ha (proj1 (tb_live k Hwf a Hin)) Hc Hb Hne Hq Epid Hpp Hst Hw)
    as (Et & (c' & Hc' & P1 & P2 & P3 & P4 & _) & (q' & Hq' & Q1 & Q2 & Q3) & Hrest). fold k' in Et, Hc', Hq', Hrest.
  assert (Hkid : is_kid k' (pid q') wpid a = true).
  { unfold is_kid, entry_is. rewrite Hc', P1, P2, Q1, Epid, Z.eqb_refl. simpl. apply negb_true_iff.
    destruct (Z.ltb_spec 0 wpid); [|done]. by rewrite <- Hwp, Z.eqb_refl by done. }
  assert (Hzom : is_zombie k' a = true) by (unfold is_zombie, entry_is; by rewrite Hc', P3).
  assert (Honly : forall e, e ∈ process_table k -> e <> a -> is_kid k' (pid q') wpid e && is_zombie k' e = false).
  { intros e He Hea. destruct (decide (e = b)) as [->|Heb].
    - unfold is_zombie, entry_is. rewrite Hq', Q3. by rewrite andb_false_r.
    - destruct (tb_live k Hwf e He) as [_ [p Hp]]. destruct (Hrest e p Hea Heb Hp) as (p' & Hp' & (S1 & S2 & _ & S4 & _)).
      specialize (Hothers e He Hea). unfold is_kid, is_zombie, entry_is in *. rewrite Hp in Hothers. rewrite Hp', S1, S2, S4, Q1. exact Hothers. }
  exists q'. apply list_elem_of_lookup in Hin as [j0 Hj0]. rewrite <- Et in Hj0.
  destruct (waitpid_scan_cases b wpid options cr3 rsp k' q' Hq')
    as [(j & a' & c2 & Hj & Hc2 & Hk & Hz & _ & ->)|(Hnz & _)].
  - assert (a' = a) as ->.
    { destruct (decide (a' = a)); [done|]. rewrite Et in Hj. apply list_elem_of_lookup_2 in Hj.
      specialize (Honly a' Hj n). by rewrite Hk, Hz in Honly. }
    assert (Hnd : NoDup (process_table (upd b (mark_in_kernel 0) k'))) by (simpl process_table; rewrite Et; apply Hwf).
    destruct (collect_child_spec j (upd b (mark_in_kernel 0) k') a Hnd Hj) as (C1 & C2 & _).
    unfold wait_return. generalize dependent (collect_child (Z.of_nat j) (upd b (mark_in_kernel 0) k')). intros kc C1 C2.
    rewrite Hc' in Hc2. injection Hc2 as <-. rewrite P1, P4. eexists. split; [done|]. split; [done|]. split; [done|].
    split; [|exact C2]. simpl process_table. rewrite C1. naive_solver.
  - exfalso. specialize (Hnz a (list_elem_of_lookup_2 _ _ _ Hj0)). by rewrite Hkid, Hzom in Hnz.
Qed.

(** A parent (pid 2) asleep in waitpid for its child (pid 3), which is running; init first. *)
Definition demo_parent : proc :=
  on_sched (fun s => set_waiting_for 3 (set_state PROC_BLOCKED (set_blocked_in_kernel 1 (set_sched_managed 1 s))))
    (set_page_directory 0x5000 (set_ppid 1 (set_pid 2 zero_proc))).
Definition demo_child : proc :=
  on_mm (fun m => set_ufd_handle (<[3 := UFD_PIPE_FLAG .| 5]> (ufd_handle m)) (set_ufd_inuse (<[3 := 1]> (ufd_inuse m)) m))
    (on_sched (fun s => set_state PROC_RUN (set_sched_managed 1 s)) (set_ppid 2 (set_pid 3 zero_proc))).
Definition demo_family : kst :=
  set_current_idx 2
    (start_kst {[ 16 := on_sched (set_state PROC_RUN) (set_pid 1 zero_proc); 32 := demo_parent; 48 := demo_child ]}
       [16; 32; 48] demo_vm0).

#[local] Ltac in_list := apply list_elem_of_In; simpl; tauto.

Lemma exit_waitpid_rendezvous_witness :
  exists q' k'', pstore (sys_exit 7 demo_family) !! 32 = Some q' /\ state (p_sched q') = PROC_RUN /\
    waitpid_iter 32 3 0 11 12 (sys_exit 7 demo_family) = WReturn (s32 (pid demo_child)) (Some (s32 7)) k'' /\
    48 ∉ process_table k'' /\ pstore k'' !! 48 = None.
Proof.
  apply (exit_waitpid_rendezvous 7 3 0 11 12 demo_family 48 demo_child 32 demo_parent).
  - by apply table_wfb_spec; vm_compute.
  - reflexivity.
  - in_list.
  - reflexivity.
  - in_list.
  - lia.
  - reflexivity.
  - reflexivity.
  - by vm_compute.
  - by vm_compute.
  - reflexivity.
  - reflexivity.
  - reflexivity.
  - intros e He Hne. apply list_elem_of_In in He. destruct He as [<-|[<-|[<-|[]]]]; vm_compute; done.
Defined.

(** ** What the heirs of a thread group get *)

Lemma close_proc_fds_calls a k p i :
  pstore k !! a = Some p -> 0 <= i < PROC_MAX_FDS -> ufd_inuse (p_mm p) i <> 0 ->
  close_call (ufd_handle (p_mm p) i) ∈ calls (close_proc_fds a k).
Proof.
  intros Hp Hi Hu.
  enough (H : exists q, pstore (close_proc_fds a k) !! a = Some q /\ ufd_handle (p_mm q) = ufd_handle (p_mm p) /\
    (forall j, 0 + Z.of_nat (Z.to_nat PROC_MAX_FDS) <= j -> ufd_inuse (p_mm q) j = ufd_inuse (p_mm p) j) /\
    (forall j, 0 <= j < 0 + Z.of_nat (Z.to_nat PROC_MAX_FDS) -> ufd_inuse (p_mm p) j <> 0 ->
       close_call (ufd_handle (p_mm p) j) ∈ calls (close_proc_fds a k))) by (destruct H as (q & _ & _ & _ & H); by apply H).
  apply (for_range_ind (fun n k' => exists q, pstore k' !! a = Some q /\ ufd_handle (p_mm q) = ufd_handle (p_mm p) /\
    (forall j, n <= j -> ufd_inuse (p_mm q) j = ufd_inuse (p_mm p) j) /\
    (forall j, 0 <= j < n -> ufd_inuse (p_mm p) j <> 0 -> close_call (ufd_handle (p_mm p) j) ∈ calls k'))).
  - exists p. split; [done|]. split; [done|]. split; [done|]. lia.
  - intros n s Hn (q & Hq & Eh & Hge & Hlt). unfold close_fd. rewrite Hq. rewrite Hge by lia.
    destruct (truthy (ufd_inuse (p_mm p) n)) eqn:Et.
    + rewrite lookup_upd, decide_True by done. simpl pstore. rewrite Hq. eexists. split; [done|]. split; [done|]. split.
      * intros j Hj. simpl. rewrite fn_lookup_insert_ne by lia. apply Hge. lia.
      * intros j Hj Hne. simpl calls. apply elem_of_app. destruct (decide (j = n)) as [->|].
        -- right. rewrite Eh. by apply list_elem_of_singleton.
        -- left. apply Hlt; [lia|done].
    + exists q. split; [done|]. split; [done|]. split; [intros j Hj; apply Hge; lia|].
      intros j Hj Hne. destruct (decide (j = n)) as [->|]; [|apply Hlt; [lia|done]].
      unfold truthy in Et. by bool_prop.
Qed.

Lemma mmap_free_bufs_other a k b : b <> a -> pstore (mmap_free_bufs a k) !! b = pstore k !! b.
Proof.
  intros Hne. apply (for_range_ind (fun _ k' => pstore k' !! b = pstore k !! b)); [done|].
  intros i s _ IH. unfold free_buf. destruct (_ ≫= _); [|done]. destruct (truthy _); [|done].
  rewrite lookup_upd, decide_False by done. exact IH.
Qed.

Lemma release_store a k : pstore (release_kstack a (release_space a k)) = pstore k.
Proof.
  assert (E : pstore (release_space a k) = pstore k).
  { unfold release_space. destruct (pstore k !! a); [|done]. by destruct (_ && _). }
  unfold release_kstack. rewrite E. destruct (pstore k !! a); [|done]. by destruct (truthy _).
Qed.

Lemma regroup_mm dying id h l k b p :
  pstore k !! b = Some p ->
  exists q, pstore (foldl (fun k c => if in_group_of k dying id c then upd c (set_tgid h) k else k) k l) !! b = Some q /\
    p_mm q = p_mm p.
Proof.
  revert k p. induction l as [|c l IH]; intros k p Hp; simpl; [by exists p|].
  destruct (in_group_of k dying id c); [|by apply IH].
  destruct (decide (c = b)) as [->|Hne].
  - edestruct (IH (upd b (set_tgid h) k)) as (q & Hq & E); [by rewrite lookup_upd, decide_True, Hp|]. by exists q.
  - apply IH. by rewrite lookup_upd, decide_False.
Qed.

Lemma list_find_match_ext (f g : Z -> bool) l :
  (forall c, f c = g c) ->
  match list_find (fun a => Is_true (f a)) l with Some (_, a) => a | None => 0 end =
  match list_find (fun a => Is_true (g a)) l with Some (_, a) => a | None => 0 end.
Proof.
  intros E. induction l as [|c l IH]; simpl; [done|]. unfold decide_rel. 
  destruct (decide (Is_true (f c))) as [H|H], (decide (Is_true (g c))) as [H'|H']; try done; try (rewrite E in H; done).
  destruct (list_find (fun a => Is_true (f a)) l) as [[]|], (list_find (fun a => Is_true (g a)) l) as [[]|]; simpl in *; done.
Qed.

Lemma reassign_heir_mm a d b h k :
  pstore k !! a = Some d -> table_find k (in_group_of k a (pid d)) = b -> b <> a -> pstore k !! b = Some h ->
  exists h', pstore (tg_reassign_leader a k) !! b = Some h' /\
    (forall i, 0 <= i < PROC_MAX_FDS -> ufd_inuse (p_mm h') i = ufd_inuse (p_mm d) i) /\
    mmap_vmas (p_mm h') = mmap_vmas (p_mm d) /\ heap_start (p_mm h') = heap_start (p_mm d).
Proof.
  intros Hd Hf Hne Hh. unfold tg_reassign_leader. rewrite Hd. cbv zeta. rewrite Hf, Hh.
  set (k1 := upd a disown_group (upd b (inherit_group d) k)).
  assert (Hb : pstore k1 !! b = Some (inherit_group d h)).
  { unfold k1. rewrite lookup_upd, decide_False, lookup_upd, decide_True, Hh by done. done. }
  destruct (regroup_mm a (pid d) (pid h) (process_table k1) k1 b _ Hb) as (q & Hq & E).
  rewrite lookup_upd, decide_True, Hq by done. eexists. split; [done|]. simpl p_mm. rewrite E. split; [|done].
  intros i Hi. simpl. rewrite (proj2 (Z.leb_le _ _)), (proj2 (Z.ltb_lt _ _)) by lia. done.
Qed.

#[local] Transparent reclaim.

(** When the leader of a thread group is collected, the surviving thread that takes over
    inherits the heap and the mapped regions but no open descriptor: the leader's table,
    which the whole group shares, was closed before it was handed over. *)
Theorem group_fds_closed_before_handover a d b h k :
  pstore k !! a = Some d -> table_wf k -> table_find k (in_group_of k a (pid d)) = b -> b <> 0 ->
  pstore k !! b = Some h ->
  exists h', pstore (reclaim a k) !! b = Some h' /\
    (forall i, 0 <= i < PROC_MAX_FDS -> ufd_inuse (p_mm h') i = 0) /\
    (forall i, 0 <= i < PROC_MAX_FDS -> ufd_inuse (p_mm d) i <> 0 ->
       close_call (ufd_handle (p_mm d) i) ∈ calls (close_proc_fds a k)) /\
    mmap_vmas (p_mm h') = mmap_vmas (p_mm d) /\ heap_start (p_mm h') = heap_start (p_mm d).
Proof.
  intros Hd Hwf Hf Hb0 Hh.
  destruct (table_find_Some _ _ _ Hwf Hf Hb0) as [_ Ht]. unfold in_group_of in Ht. apply andb_true_iff in Ht as [Hba _].
  apply negb_true_iff, Z.eqb_neq in Hba.
  destruct (close_proc_fds_shape a k d Hd) as (f & Es & Hz). pose proof (close_proc_fds_evolves a k) as (Et & _).
  set (k1 := close_proc_fds a k) in *.
  assert (Hf1 : table_find k1 (in_group_of k1 a (pid (with_inuse f d))) = b).
  { rewrite <- Hf. unfold table_find. rewrite Et. apply list_find_match_ext. intros c. unfold in_group_of, entry_is.
    rewrite Es. destruct (Z.eqb_spec c a); [done|]. by rewrite lookup_insert_ne by done. }
  assert (Hd1 : pstore k1 !! a = Some (with_inuse f d)) by (by rewrite Es, lookup_insert_eq).
  assert (Hh1 : pstore k1 !! b = Some h) by (by rewrite Es, lookup_insert_ne by done).
  destruct (reassign_heir_mm a _ b h k1 Hd1 Hf1 Hba Hh1) as (h' & Hh' & Hi & Hv & Hs).
  exists h'. unfold reclaim. fold k1. rewrite release_store, mmap_free_bufs_other by done. split; [done|].
  split; [intros i Hr; rewrite Hi by done; by apply Hz|]. split; [|done].
  intros i Hr Hne. by apply close_proc_fds_calls.
Qed.

#[local] Opaque reclaim.

(** The same family with the child dead but not waited for, and an orphan zombie. *)
Definition demo_zombie (id parent : Z) : proc :=
  on_sched (set_state PROC_ZOMBIE) (set_ppid parent (set_pid id zero_proc)).
Definition demo_reap : kst :=
  start_kst {[ 16 := on_sched (set_state PROC_RUN) (set_pid 1 zero_proc); 32 := demo_parent;
               48 := demo_zombie 3 2; 64 := demo_zombie 4 77 ]} [16; 32; 64; 48] demo_vm0.

Lemma reap_zombies_correct_witness :
  64 ∉ process_table (reap_zombies demo_reap) /\ 48 ∈ process_table (reap_zombies demo_reap).
Proof.
  destruct (reap_zombies_correct demo_reap) as (_ & _ & _ & _ & H & _).
  - by apply table_wfb_spec; vm_compute.
  - reflexivity.
  - by vm_compute.
  - by vm_compute.
  - split.
    + intros Hin. apply H in Hin as [_ Hin]. vm_compute in Hin. done.
    + apply H. split; [in_list|]. by vm_compute.
Defined.

Lemma waitpid_correct_witness :
  exists k', waitpid_iter 32 3 0 11 12 demo_reap = WReturn 3 (Some 0) k' /\ 48 ∉ process_table k'.
Proof.
  assert (Hwf : table_wf demo_reap) by (by apply table_wfb_spec; vm_compute).
  pose proof (waitpid_correct 32 3 0 11 12 demo_reap demo_parent Hwf eq_refl) as H. cbv zeta in H.
  assert (Hkids : forall b c, b ∈ process_table demo_reap -> pstore demo_reap !! b = Some c ->
    is_kid demo_reap (pid demo_parent) 3 b = true -> b = 48 /\ s32 (pid c) = 3 /\ exit_code (p_sched c) = 0).
  { intros b c Hb Hc Hk. apply list_elem_of_In in Hb. destruct Hb as [<-|[<-|[<-|[<-|[]]]]]; vm_compute in Hk; try done.
    vm_compute in Hc. by injection Hc as <-. }
  assert (H48 : 48 ∈ process_table demo_reap) by in_list.
  assert (Kz : is_kid demo_reap (pid demo_parent) 3 48 = true /\ is_zombie demo_reap 48 = true) by (by vm_compute).
  destruct Kz as [K48 Z48]. clear Hwf. generalize dependent (waitpid_iter 32 3 0 11 12 demo_reap).
  intros [res code k'|k'] H.
  - destruct H as (_ & _ & _ & [(_ & _ & Hno & _)|[(j & a & c & Hj & Hc & Hk & _ & _ & -> & -> & Hin & _)|(Hnz & _)]]).
    + by rewrite Hno in K48.
    + destruct (Hkids a c (list_elem_of_lookup_2 _ _ _ Hj) Hc Hk) as (-> & -> & ->). exists k'. split; [done|].
      rewrite Hin. naive_solver.
    + specialize (Hnz 48 H48). by rewrite K48, Z48 in Hnz.
  - destruct H as (_ & _ & Hnz & _). destruct (Hnz 48 H48 K48) as [Hz _]. congruence.
Defined.

(** Thread 3 of the group led by process 2, which has a pipe open. *)
Definition demo_leader : proc :=
  on_mm (fun m => set_ufd_handle (<[4 := UFD_PIPE_FLAG .| 6]> (ufd_handle m))
           (set_ufd_inuse (<[4 := 1]> (ufd_inuse m)) m)) demo_parent.
Definition demo_group : kst :=
  start_kst {[ 16 := on_sched (set_state PROC_RUN) (set_pid 1 zero_proc);
               32 := demo_leader; 48 := set_tgid 2 demo_child ]} [16; 32; 48] demo_vm0.

Lemma group_fds_closed_before_handover_witness :
  (exists h', pstore (reclaim 32 demo_group) !! 48 = Some h' /\ ufd_inuse (p_mm h') 4 = 0) /\
  close_call (ufd_handle (p_mm demo_leader) 4) ∈ calls (close_proc_fds 32 demo_group).
Proof.
  assert (Hwf : table_wf demo_group) by (by apply table_wfb_spec; vm_compute).
  assert (Hf : table_find demo_group (in_group_of demo_group 32 (pid demo_leader)) = 48) by (by vm_compute).
  assert (H4 : 0 <= 4 < PROC_MAX_FDS) by (unfold PROC_MAX_FDS; lia).
  assert (Hu : ufd_inuse (p_mm demo_leader) 4 <> 0) by (by vm_compute).
  assert (Hh : pstore demo_group !! 48 = Some (set_tgid 2 demo_child)) by reflexivity.
  destruct (group_fds_closed_before_handover 32 demo_leader 48 (set_tgid 2 demo_child) demo_group
    eq_refl Hwf Hf ltac:(lia) Hh) as (h' & Hh' & H0 & Hc & _).
  split; [exists h'; split; [exact Hh'|exact (H0 4 H4)]|exact (Hc 4 H4 Hu)].
Defined.
