(* ===== verification/Spawn.v ===== *)
(** The birth of a process (src/kernel/process.c: the four kernel-stack builders,
    init_process, create_process, create_kernel_thread_on_cpu, create_user_process,
    do_fork, do_clone).

    The kernel heap is an interface here: [kmalloc] gives back an address (0 = NULL) and a
    state in which only the frame allocator may have moved on; a block is never the
    address of a live descriptor.  Kernel stacks are memory: the builders push 64-bit words
    below the top of a fresh 4 KB block, and what the interrupt stub pops when the process
    is first scheduled is read back from there. *)
From Stdlib Require Import ZArith Lia.
From S2P Require Import Prelude Phys PageAlloc Paging PageTables BootPaging Process Signal Sched Reap.

#[local] Arguments Z.testbit : simpl never.

Definition KERNEL_CS : Z := 0x08.
Definition KERNEL_DS : Z := 0x10.
Definition USER_CS : Z := 0x1B.
Definition USER_DS : Z := 0x23.
Definition CLONE_VM : Z := 0x100.
Definition USER_STACK_TOP : Z := 0x00007FFFFFFFE000.
Definition USER_STACK_INIT_PAGES : Z := 4.
Definition MAX_PATH : Z := 256.
(** [sizeof(process_t)]. *)
Definition SIZEOF_PROCESS : Z := 4120.

(** What the process code relies on of kmalloc. *)
Class KernelHeap := {
  kmalloc : Z -> kst -> Z * kst;
  kmalloc_keeps : forall n k, exists v, (kmalloc n k).2 = set_kvm v k /\ pm v = pm (kvm k);
  kmalloc_fresh : forall n k, (kmalloc n k).1 <> 0 -> pstore k !! (kmalloc n k).1 = None;
  kmalloc_low : forall n k, (kmalloc n k).1 <> 0 -> 0 < (kmalloc n k).1 /\ (kmalloc n k).1 + n < 2 ^ 39
}.

(** [strncpy(dst, src, n); dst[n] = 0]. *)
Definition strncpy (n : Z) (src : list Z) : list Z := take (Z.to_nat n) src.

(** ** Kernel stacks *)

(** [*--sp = w] for each word in turn. *)
Definition push (w : Z) (s : Z * pmem) : Z * pmem := (s.1 - 8, st64 s.2 (s.1 - 8) w).
Definition push_all (ws : list Z) (sp : Z) (m : pmem) : Z * pmem := foldl (fun s w => push w s) (sp, m) ws.

(** The words below the top of a stack: the iretq frame, error code and interrupt number,
    then the general registers from rax down to r15. *)
Definition task_frame (ss rsp rflags cs rip : Z) (regs : list Z) : list Z :=
  [ss; rsp; rflags; cs; rip; 0; 32] ++ regs.

Section Spawn.
Context {KH : KernelHeap}.

(** A 4 KB stack with [words top] pushed; [alias] is added to the saved pointer. *)
Definition build_stack (a alias : Z) (words : Z -> list Z) (k : kst) : Z * kst :=
  let '(mem, k) := kmalloc 4096 k in
  if negb (truthy mem) then (-1, k)
  else
    let top := mem + 4096 in
    let '(sp, m) := push_all (words top) top (pm (kvm k)) in
    (0, upd a (fun p => set_kernel_stack top (set_stack (u64 (sp + alias)) p)) (set_kvm (set_pm m (kvm k)) k)).

Definition no_regs : list Z := replicate 15 0.

Definition init_task_stack (a entry : Z) (k : kst) : Z * kst :=
  build_stack a 0 (fun top => task_frame KERNEL_DS top 0x202 KERNEL_CS entry no_regs) k.

Definition init_user_task_stack (a entry user_stack_top : Z) (k : kst) : Z * kst :=
  build_stack a KERNEL_BASE (fun _ => task_frame USER_DS user_stack_top 0x202 USER_CS entry no_regs) k.

(** rax = 0, then frame[13] (rbx) down to frame[0] (r15). *)
Definition forked_regs (frame : Z -> Z) : list Z :=
  [0; frame 13; frame 12; frame 11; frame 10; frame 9; frame 8; frame 7; frame 6; frame 5; frame 4;
   frame 3; frame 2; frame 1; frame 0].

Definition init_forked_task_stack (a : Z) (frame : Z -> Z) (u_rsp : Z) (k : kst) : Z * kst :=
  build_stack a KERNEL_BASE
    (fun _ => task_frame USER_DS u_rsp (frame 15 .| 0x202) USER_CS (frame 16) (forked_regs frame)) k.

Definition thread_regs (arg : Z) : list Z := [0; 0; 0; 0; 0; arg; 0; 0; 0; 0; 0; 0; 0; 0; 0].

Definition init_thread_task_stack (a entry user_stack_top arg : Z) (k : kst) : Z * kst :=
  build_stack a KERNEL_BASE (fun _ => task_frame USER_DS user_stack_top 0x202 USER_CS entry (thread_regs arg)) k.

(** ** Creation *)

(** A zeroed descriptor with the next pid at the fresh address [a]. *)
Definition new_proc (a : Z) (f : proc -> proc) (k : kst) : kst :=
  let p := set_pid (u32 (next_pid k)) zero_proc in
  set_pstore (<[a := f p]> (pstore k)) (set_next_pid (u64 (next_pid k + 1)) k).

Definition append_proc (a : Z) (k : kst) : kst := set_process_table (process_table k ++ [a]) k.

Definition init_process (k : kst) : kst :=
  let k := set_process_table [] k in
  let '(a, k) := kmalloc SIZEOF_PROCESS k in
  if negb (truthy a) then k
  else append_proc a (new_proc a (fun p => on_text (set_comm [105; 110; 105; 116]) (on_sched (set_state PROC_RUN) p)) k).

Definition create_process (name : list Z) (entry : Z) (k : kst) : Z * kst :=
  if MAX_PROCESSES <=? process_count k then (0, k)
  else
    let '(a, k) := kmalloc SIZEOF_PROCESS k in
    if negb (truthy a) then (0, k)
    else
      let k := new_proc a (fun p => on_text (set_comm (strncpy 31 name)) (on_sched (set_state PROC_RUN) p)) k in
      if truthy entry then
        let '(r, k) := init_task_stack a entry k in
        if r <? 0 then (0, kfree_proc a k) else (a, append_proc a k)
      else (a, append_proc a k).

Definition create_kernel_thread_on_cpu (name : list Z) (entry cpu : Z) (k : kst) : Z * kst :=
  let '(a, k) := create_process name entry k in
  (a, if truthy a then upd a (on_sched (set_sched_cpu (s32 cpu))) k else k).

(** The initial stack pages of a user process without one: [None] when a page-table entry
    is corrupt (the kernel panics), [Some (0, k)] when no frame is left. *)
Fixpoint stack_pages (n : nat) (sp page_dir : Z) (k : kst) : option (Z * kst) :=
  match n with
  | O => Some (1, k)
  | Datatypes.S n' =>
      let '(pg, v) := page_alloc (kvm k) in
      let k := set_kvm v k in
      if negb (truthy pg) then Some (0, k)
      else
        match map_page_dir page_dir pg (USER_STACK_TOP - sp * 4096) (0x7 .| PAGE_NX) (kvm k) with
        | None => None
        | Some v => stack_pages n' (sp + 1) page_dir (set_kvm v k)
        end
  end.

Definition store_words (a : Z) (ws : list Z) (m : pmem) : pmem :=
  fst (foldl (fun '(m, a) w => (st64 m a w, a + 8)) (m, a) ws).

(** The stack of a process started without one: [Some (0, k)] out of frames. *)
Definition default_user_stack (page_dir : Z) (k : kst) : option (Z * kst) :=
  let '(stack_page, v) := page_alloc (kvm k) in
  let k := set_kvm v k in
  if negb (truthy stack_page) then Some (0, k)
  else
    match map_page_dir page_dir stack_page USER_STACK_TOP (0x7 .| PAGE_NX) (kvm k) with
    | None => None
    | Some v =>
        match stack_pages (Z.to_nat (USER_STACK_INIT_PAGES - 1)) 1 page_dir (set_kvm v k) with
        | None => None
        | Some (ok, k) =>
            if negb (truthy ok) then Some (0, k)
            else Some (USER_STACK_TOP + 4096 - 32,
                       set_kvm (set_pm (store_words (stack_page + 4096 - 32) [0; 0; 0; 0] (pm (kvm k))) (kvm k)) k)
        end
    end.

(** [cpu] is the CPU the balancer picked, 0 when balancing is off; [cwd0] is vfs_getcwd(). *)
Definition create_user_process (name : list Z) (entry user_stack page_dir cpu : Z) (cwd0 : list Z) (k : kst) : option (Z * kst) :=
  if MAX_PROCESSES <=? process_count k then Some (0, k)
  else
    let '(a, k) := kmalloc SIZEOF_PROCESS k in
    if negb (truthy a) then Some (0, k)
    else
      let k := new_proc a (fun p =>
        on_text (fun t => set_cwd (strncpy (MAX_PATH - 1) cwd0) (set_comm (strncpy 31 name) t))
          (on_sched (fun s => set_sched_cpu (s32 cpu) (set_state PROC_RUN s)) (set_page_directory page_dir p))) k in
      match (if truthy user_stack then Some (user_stack, k) else default_user_stack page_dir k) with
      | None => None
      | Some (us, k) =>
          if negb (truthy us) then Some (0, kfree_proc a k)
          else
            let '(r, k) := init_user_task_stack a entry us k in
            if r <? 0 then Some (0, kfree_proc a k) else Some (a, append_proc a k)
      end.

(** ** fork *)

(** The fields the child starts with. *)
Definition fork_fields (child_pml4 : Z) (parent : proc) (p : proc) : proc :=
  let p := set_page_directory child_pml4 (on_sched (set_state PROC_RUN) (set_ppid (pid parent) p)) in
  let p := on_mm (fun m => set_mmap_next (mmap_next (p_mm parent)) (set_mmap_vmas (mmap_vmas (p_mm parent))
             (set_program_break (program_break (p_mm parent)) (set_heap_start (heap_start (p_mm parent)) m)))) p in
  let p := on_sig (fun s => set_sig_trampoline (sig_trampoline (p_sig parent)) (set_sig_mask (sig_mask (p_sig parent))
             (set_sig_handlers (fun i => if (0 <=? i) && (i <? NSIG) then sig_handlers (p_sig parent) i else sig_handlers s i) s))) p in
  on_text (fun t => set_cwd (strncpy (MAX_PATH - 1) (cwd (p_text parent))) (set_comm (strncpy 31 (comm (p_text parent))) t)) p.

Definition set_buf (buf size : Z) (v : vma) : vma := set_v_file_size size (set_v_file_buf buf v).

(** One round of the loop that gives the child its own file snapshots. *)
Definition copy_buf (child i : Z) (k : kst) : kst :=
  match pstore k !! child ≫= (fun p => mmap_vmas (p_mm p) !! Z.to_nat i) with
  | Some v =>
      if truthy (v_used v) && truthy (v_file_buf v) then
        let '(nb, k) := kmalloc (v_file_size v) k in
        if truthy nb then
          upd child (set_vma (Z.to_nat i) (set_buf nb (v_file_size v)))
            (set_kvm (set_pm (copy (pm (kvm k)) nb (v_file_buf v) (v_file_size v)) (kvm k)) k)
        else upd child (set_vma (Z.to_nat i) (set_buf 0 0)) k
      else k
  | None => k
  end.

(** One round of the loop that shares the pipe descriptors. *)
Definition share_fd (parent : proc) (child i : Z) (k : kst) : kst :=
  let h := ufd_handle (p_mm parent) i in
  if truthy (ufd_inuse (p_mm parent) i) && truthy (h .& UFD_PIPE_FLAG) then
    log_call (CallPipeIncref (UFD_PIPE_ID h) (UFD_PIPE_IS_WRITE h))
      (upd child (on_mm (fun m => set_ufd_offset (<[i := 0]> (ufd_offset m))
         (set_ufd_handle (<[i := h]> (ufd_handle m)) (set_ufd_inuse (<[i := 1]> (ufd_inuse m)) m)))) k)
  else k.

(** The last block of do_fork and do_clone. *)
Definition publish (self child : Z) (weight : Z) (k : kst) : kst :=
  let k := upd self (on_sched (set_sched_managed 1)) k in
  let k := upd child (on_sched (fun s => set_sched_weight weight (set_sched_managed 1 s))) k in
  set_sched_enabled 1 (append_proc child k).

Definition do_fork (k : kst) : Z * kst :=
  let a := get_current_process k in
  match pstore k !! a with
  | None => (-1, k)
  | Some parent =>
      if negb (truthy (page_directory parent)) then (-1, k)
      else if MAX_PROCESSES <=? process_count k then (-1, k)
      else
        match syscall_frame k with
        | None => (-1, k)
        | Some frame =>
            let '(child_pml4, v) := clone_page_directory_cow (page_directory parent) (kvm k) in
            let k := set_kvm v k in
            if negb (truthy child_pml4) then (-1, k)
            else
              let '(child, k) := kmalloc SIZEOF_PROCESS k in
              if negb (truthy child) then (-1, set_kvm (free_page_directory child_pml4 (kvm k)) k)
              else
                let k := new_proc child (fork_fields child_pml4 parent) k in
                let k := for_range (Z.to_nat PROC_MAX_VMAS) 0 (copy_buf child) k in
                let k := for_range (Z.to_nat PROC_MAX_FDS) 0 (share_fd parent child) k in
                let '(r, k) := init_forked_task_stack child frame (user_rsp k) k in
                if r <? 0 then (-1, kfree_proc child (set_kvm (free_page_directory child_pml4 (kvm k)) k))
                else
                  let k := publish a child (sched_weight (p_sched parent)) k in
                  (match pstore k !! child with Some c => s32 (pid c) | None => -1 end, k)
        end
  end.

(** ** clone *)

Definition clone_fields (leader_pid leader_cpu : Z) (self : proc) (p : proc) : proc :=
  let p := set_page_directory (page_directory self) (set_tgid leader_pid (set_ppid (pid self) p)) in
  let p := on_sched (fun s => set_sched_cpu leader_cpu (set_state PROC_RUN s)) p in
  let p := on_mm (fun m => set_mmap_next (mmap_next (p_mm self)) (set_mmap_vmas (map drop_buf (mmap_vmas (p_mm self)))
             (set_heap_start (heap_start (p_mm self)) (set_program_break (program_break (p_mm self)) m)))) p in
  let p := on_sig (fun s => set_sig_trampoline (sig_trampoline (p_sig self)) (set_sig_mask (sig_mask (p_sig self))
             (set_sig_handlers (fun i => if (0 <=? i) && (i <? NSIG) then sig_handlers (p_sig self) i else sig_handlers s i) s))) p in
  on_text (fun t => set_cwd (strncpy (MAX_PATH - 1) (cwd (p_text self))) (set_comm (strncpy 31 (comm (p_text self))) t)) p.

Definition do_clone (fn stk arg flags : Z) (k : kst) : Z * kst :=
  let a := get_current_process k in
  match pstore k !! a with
  | None => (-1, k)
  | Some self =>
      if negb (truthy (page_directory self)) then (-1, k)
      else if negb (truthy (flags .& CLONE_VM)) then (-1, k)
      else if negb (truthy fn) || negb (truthy stk) then (-1, k)
      else if MAX_PROCESSES <=? process_count k then (-1, k)
      else
        let '(t, k) := kmalloc SIZEOF_PROCESS k in
        if negb (truthy t) then (-1, k)
        else
          let leader := default self (pstore k !! tg_leader a k) in
          let k := new_proc t (clone_fields (pid leader) (sched_cpu (p_sched leader)) self) k in
          let '(r, k) := init_thread_task_stack t fn stk arg k in
          if r <? 0 then (-1, kfree_proc t k)
          else
            let k := publish a t (sched_weight (p_sched self)) k in
            (match pstore k !! t with Some c => s32 (pid c) | None => -1 end, k)
  end.
End Spawn.

(** * What a built stack holds *)

Lemma push_all_spec ws sp m :
  let r := push_all ws sp m in
  r.1 = sp - 8 * Z.of_nat (length ws) /\
  (forall i w, ws !! i = Some w -> 0 <= w < 2 ^ 64 -> ld64 r.2 (sp - 8 * (Z.of_nat i + 1)) = w) /\
  (forall x, x < sp - 8 * Z.of_nat (length ws) \/ sp <= x -> r.2 x = m x).
Proof.
  unfold push_all. revert sp m. induction ws as [|w ws IH]; intros sp m; simpl.
  - split; [lia|]. split; [intros i w Hw; done|done].
  - destruct (IH (sp - 8) (st64 m (sp - 8) w)) as (E1 & E2 & E3).
    change (push w (sp, m)) with (sp - 8, st64 m (sp - 8) w). split; [lia|]. split.
    + intros [|i] v Hv Hr; simpl in Hv.
      * simplify_eq. replace (sp - 8 * (Z.of_nat 0 + 1)) with (sp - 8) by lia.
        rewrite (ld64_ext _ (st64 m (sp - 8) v)) by (intros x Hx; apply E3; lia).
        rewrite ld64_st64_same. by apply u64_small.
      * replace (sp - 8 * (Z.of_nat (Datatypes.S i) + 1)) with (sp - 8 - 8 * (Z.of_nat i + 1)) by lia. by apply E2.
    + intros x Hx. rewrite E3 by lia. apply st64_other. lia.
Qed.

(** Word [i] of the frame saved at kernel pointer [sp], as the interrupt stub pops it. *)
Definition saved_word (k : kst) (sp i : Z) : Z := ld64 (pm (kvm k)) (kva sp + 8 * i).

Lemma kva_alias a : 0 <= a < 2 ^ 39 -> kva (u64 (a + KERNEL_BASE)) = a.
Proof.
  intros Ha. unfold KERNEL_BASE. rewrite u64_small by lia. unfold kva, KERNEL_BASE.
  destruct (Z.leb_spec 0xFFFFFF8000000000 (a + 0xFFFFFF8000000000)); lia.
Qed.

Lemma kva_low a : 0 <= a < 2 ^ 39 -> kva (u64 (a + 0)) = a.
Proof.
  intros Ha. rewrite Z.add_0_r, u64_small by lia. unfold kva, KERNEL_BASE.
  destruct (Z.leb_spec 0xFFFFFF8000000000 a); lia.
Qed.

Section Stacks.
Context {KH : KernelHeap}.

(** A frame of 22 words, each a 64-bit value. *)
Definition frame_words (ws : list Z) : Prop := length ws = 22%nat /\ forall w, w ∈ ws -> 0 <= w < 2 ^ 64.

Record built (a : Z) (ws : list Z) (k k' : kst) (mem : Z) (stk : Z) : Prop := {
  bu_mem : mem <> 0;
  bu_fresh : pstore k !! mem = None;
  bu_frame : exists v, k' = upd a (fun p => set_kernel_stack (mem + 4096) (set_stack stk p)) (set_kvm v k) /\
    (forall x, x < mem \/ mem + 4096 <= x -> pm v x = pm (kvm k) x);
  bu_stack : kva stk = mem + 4096 - 176 /\ stk <> 0;
  bu_words : forall i w, ws !! i = Some w -> saved_word k' stk (21 - Z.of_nat i) = w
}.

Lemma build_stack_spec a alias words k :
  alias = 0 \/ alias = KERNEL_BASE -> (forall top, 0 <= top <= 2 ^ 39 -> frame_words (words top)) ->
  (exists v k', build_stack a alias words k = (-1, k') /\ k' = set_kvm v k /\ pm v = pm (kvm k) /\ (kmalloc 4096 k).1 = 0) \/
  (exists mem k', build_stack a alias words k = (0, k') /\ built a (words (mem + 4096)) k k' mem (u64 (mem + 4096 - 176 + alias))).
Proof.
  intros Hal Hws. unfold build_stack. destruct (kmalloc 4096 k) as [mem k1] eqn:Em.
  pose proof (kmalloc_keeps 4096 k) as (v & Ev & Epm). pose proof (kmalloc_low 4096 k) as Hlow.
  pose proof (kmalloc_fresh 4096 k) as Hfr. rewrite Em in *. simpl in *. subst k1.
  unfold truthy. destruct (Z.eqb_spec mem 0) as [->|Hne]; simpl negb; cbv iota.
  - left. by exists v, (set_kvm v k).
  - right. specialize (Hlow Hne). destruct (Hws (mem + 4096) ltac:(lia)) as [Hlen Hrange].
    destruct (push_all_spec (words (mem + 4096)) (mem + 4096) (pm (kvm (set_kvm v k)))) as (P1 & P2 & P3).
    rewrite Hlen in P1, P3. destruct (push_all _ _ _) as [sp m]. simpl in P1, P2, P3. subst sp.
    replace (mem + 4096 - 8 * Z.of_nat 22) with (mem + 4096 - 176) in * by lia.
    assert (Hkva : kva (u64 (mem + 4096 - 176 + alias)) = mem + 4096 - 176).
    { destruct Hal as [-> | ->]; [apply kva_low|apply kva_alias]; lia. }
    eexists mem, _. split; [reflexivity|]. constructor.
    + done.
    + by apply Hfr.
    + eexists. split; [reflexivity|]. intros x Hx. simpl. rewrite P3 by lia. by rewrite Epm.
    + split; [done|]. intros E. rewrite E in Hkva. unfold kva, KERNEL_BASE in Hkva. simpl in Hkva. lia.
    + intros i w Hi. pose proof (lookup_lt_Some _ _ _ Hi) as Hil. rewrite Hlen in Hil. unfold saved_word. rewrite Hkva. simpl.
      replace (mem + 4096 - 176 + 8 * (21 - Z.of_nat i)) with (mem + 4096 - 8 * (Z.of_nat i + 1)) by lia.
      apply P2; [done|]. by apply Hrange, (list_elem_of_lookup_2 _ i).
Qed.
End Stacks.

(** * fork *)

(** Steps on the way to a new process: they touch its own descriptor's memory part, the
    calls made and physical memory. *)
Definition prepared (child : Z) (k k' : kst) : Prop :=
  k' = set_calls (calls k') (set_kvm (kvm k') (set_pstore (pstore k') k)) /\
  (forall b, b <> child -> pstore k' !! b = pstore k !! b).

Lemma prepared_refl child k : prepared child k k.
Proof. split; [by destruct k|done]. Qed.

Lemma prepared_trans child k1 k2 k3 : prepared child k1 k2 -> prepared child k2 k3 -> prepared child k1 k3.
Proof.
  intros [E1 H1] [E2 H2]. split; [|intros b Hb; by rewrite H2, H1]. rewrite E2 at 1. rewrite E1. done.
Qed.

Lemma prepared_kvm child v k : prepared child k (set_kvm v k).
Proof. split; [by destruct k|done]. Qed.

Lemma prepared_upd child f k : prepared child k (upd child f k).
Proof. split; [by destruct k|]. intros b Hb. by rewrite lookup_upd, decide_False. Qed.

Lemma prepared_log child c k : prepared child k (log_call c k).
Proof. split; [by destruct k|done]. Qed.

Section Fork.
Context {KH : KernelHeap}.

Lemma prepared_kmalloc child n k : prepared child k (kmalloc n k).2.
Proof. destruct (kmalloc_keeps n k) as (v & -> & _). apply prepared_kvm. Qed.

(** [x] lies in no file snapshot among the regions [l]. *)
Definition outside_bufs (l : list vma) (x : Z) : Prop :=
  forall w, w ∈ l -> v_used w <> 0 -> v_file_buf w <> 0 -> x < v_file_buf w \/ v_file_buf w + v_file_size w <= x.

Lemma outside_bufs_sub l l' x : l' ⊆ l -> outside_bufs l x -> outside_bufs l' x.
Proof. intros Hs H w Hw. apply H. by apply Hs. Qed.

(** The same, but for the region [j]. *)
Definition outside_others (l : list vma) (j : nat) (x : Z) : Prop :=
  forall i w, l !! i = Some w -> i <> j -> v_used w <> 0 -> v_file_buf w <> 0 -> x < v_file_buf w \/ v_file_buf w + v_file_size w <= x.

(** What a child gets for the [j]-th region [v] of its parent: the same region, and if the region
    has a snapshot of a file, a new block with the parent's bytes, or none if the heap has no
    block.  [m0] is memory before, [m] after, [l] the child's regions; the bytes are those of
    the parent where no other new block lies and nothing was written later ([quiet]). *)
Definition snapshot_of (quiet : Z -> Prop) (m0 m : pmem) (l : list vma) (j : nat) (v w : vma) : Prop :=
  if truthy (v_used v) && truthy (v_file_buf v) then
    (w = set_buf 0 0 v /\ exists k1, (kmalloc (v_file_size v) k1).1 = 0) \/
    (exists nb, w = set_buf nb (v_file_size v) v /\ nb <> 0 /\ (exists k1, (kmalloc (v_file_size v) k1).1 = nb) /\
       forall i, 0 <= i < v_file_size v -> quiet (nb + i) -> outside_others l j (nb + i) -> outside_bufs l (v_file_buf v + i) ->
         m (nb + i) = m0 (v_file_buf v + i))
  else w = v.

Lemma snapshot_of_mono (q q' : Z -> Prop) m0 m m' l l' j v w :
  snapshot_of q m0 m l j v w -> (forall x, q' x -> q x) -> l ⊆ l' -> (forall x, outside_others l' j x -> outside_others l j x) ->
  (forall x, q' x -> outside_others l' j x -> m' x = m x) -> snapshot_of q' m0 m' l' j v w.
Proof.
  unfold snapshot_of. intros H Hq Hs Ho Hm. destruct (_ && _); [|done]. destruct H as [?|(nb & -> & Hnb & Hk & H)]; [by left|right].
  exists nb. split; [done|]. split; [done|]. split; [done|]. intros i Hi Hqi Hoi Hb. rewrite Hm by done. apply H; [done|by apply Hq|by apply Ho|by eapply outside_bufs_sub].
Qed.

Lemma outside_others_take l n n' j x : (n <= n')%nat -> outside_others (take n' l) j x -> outside_others (take n l) j x.
Proof. intros Hn H i w Hi. apply (H i w). rewrite lookup_take_Some in *. destruct Hi. split; [done|lia]. Qed.

Lemma take_sub {A} (l : list A) n n' : (n <= n')%nat -> take n l ⊆ take n' l.
Proof. intros Hn x Hx. apply elem_of_take in Hx as (i & Hi & Hlt). apply elem_of_take. exists i. split; [done|lia]. Qed.

(** The child after [n] rounds of the snapshot loop. *)
Definition snapshots (child n : Z) (p : proc) (k k' : kst) : Prop :=
  prepared child k k' /\ calls k' = calls k /\
  exists l, pstore k' !! child = Some (on_mm (set_mmap_vmas l) p) /\
    length l = length (mmap_vmas (p_mm p)) /\
    (forall j, n <= Z.of_nat j -> l !! j = mmap_vmas (p_mm p) !! j) /\
    (forall j v, mmap_vmas (p_mm p) !! j = Some v ->
       exists w, l !! j = Some w /\ v_start w = v_start v /\ v_end w = v_end v /\ v_prot w = v_prot v /\ v_used w = v_used v) /\
    (forall x, outside_bufs (take (Z.to_nat n) l) x -> pm (kvm k') x = pm (kvm k) x) /\
    (forall j v w, Z.of_nat j < n -> mmap_vmas (p_mm p) !! j = Some v -> l !! j = Some w ->
       snapshot_of (fun _ => True) (pm (kvm k)) (pm (kvm k')) (take (Z.to_nat n) l) j v w).

Lemma on_mm_vmas l p : on_mm (set_mmap_vmas l) p = set_p_mm (set_mmap_vmas l (p_mm p)) p.
Proof. done. Qed.

(** Rewriting region [n] of the child, with a change to memory that stays inside its new
    snapshot. *)
Lemma take_alter_sub n (g : vma -> vma) l : take n l ⊆ take (S n) (alter g n l).
Proof.
  intros u Hu. apply elem_of_take in Hu as (i & Hi & Hil). apply elem_of_take. exists i. rewrite list_lookup_alter_ne by lia. split; [done|lia].
Qed.

Lemma snapshots_set child n p k k' (g : vma -> vma) w v' :
  0 <= n -> snapshots child n p k k' ->
  (forall l, pstore k' !! child = Some (on_mm (set_mmap_vmas l) p) -> l !! Z.to_nat n = Some w) ->
  v_start (g w) = v_start w -> v_end (g w) = v_end w -> v_prot (g w) = v_prot w -> v_used (g w) = v_used w ->
  (forall x, outside_bufs [g w] x -> pm v' x = pm (kvm k') x) ->
  (forall l, (forall x, outside_bufs l x -> pm (kvm k') x = pm (kvm k) x) ->
     forall l', l ⊆ l' -> snapshot_of (fun _ => True) (pm (kvm k)) (pm v') l' (Z.to_nat n) w (g w)) ->
  snapshots child (n + 1) p k (upd child (set_vma (Z.to_nat n) g) (set_kvm v' k')).
Proof.
  intros Hn (Hp & Hc & l & Hl & Hlen & Hrest & Hsame & Hmem & Hsnap) Hw G1 G2 G3 G4 Hm Hnew. specialize (Hw l Hl).
  assert (Hlt : (Z.to_nat n < length l)%nat) by (by eapply lookup_lt_Some).
  replace (Z.to_nat (n + 1)) with (S (Z.to_nat n)) by lia.
  split; [eapply prepared_trans; [exact Hp|]; eapply prepared_trans; [apply prepared_kvm|apply prepared_upd]|].
  split; [done|]. exists (alter g (Z.to_nat n) l). split.
  { rewrite lookup_upd, decide_True by done. simpl. rewrite Hl. done. }
  assert (Hg : take (S (Z.to_nat n)) (alter g (Z.to_nat n) l) !! Z.to_nat n = Some (g w)).
  { apply lookup_take_Some. rewrite list_lookup_alter_eq, Hw. split; [done|lia]. }
  split; [by rewrite length_alter|]. split; [intros j Hj; rewrite list_lookup_alter_ne by lia; apply Hrest; lia|]. split; [|split].
  - intros j v Hv. destruct (Hsame j v Hv) as (u & Hu & S1 & S2 & S3 & S4). destruct (decide (j = Z.to_nat n)) as [->|Hne].
    + rewrite Hw in Hu. simplify_eq. exists (g u). rewrite list_lookup_alter_eq, Hw. split; [done|]. by rewrite G1, G2, G3, G4.
    + exists u. rewrite list_lookup_alter_ne by done. done.
  - replace (Z.to_nat (n + 1)) with (S (Z.to_nat n)) by lia. intros x Hx. simpl. rewrite Hm.
    + apply Hmem. eapply outside_bufs_sub; [apply take_alter_sub|exact Hx].
    + intros u Hu. apply list_elem_of_singleton in Hu as ->. apply Hx. by eapply list_elem_of_lookup_2.
  - replace (Z.to_nat (n + 1)) with (S (Z.to_nat n)) by lia. intros j v u Hj Hv Hu. simpl. destruct (decide (j = Z.to_nat n)) as [->|Hne].
    + rewrite list_lookup_alter_eq, Hw in Hu. injection Hu as <-. rewrite <- Hrest, Hw in Hv by lia. injection Hv as <-. apply (Hnew _ Hmem). apply take_alter_sub.
    + rewrite list_lookup_alter_ne in Hu by done. apply (snapshot_of_mono _ _ _ _ _ _ _ _ _ _ (Hsnap j v u ltac:(lia) Hv Hu)); [done|apply take_alter_sub| |].
      * intros x Hx i z Hi. apply lookup_take_Some in Hi as [Hi Hil]. apply (Hx i z). apply lookup_take_Some. rewrite list_lookup_alter_ne by lia. split; [done|lia].
      * intros x _ Hx. apply Hm. intros z Hz. apply list_elem_of_singleton in Hz as ->. by apply (Hx (Z.to_nat n)).
Qed.

Lemma snapshots_step child n p k k' :
  0 <= n -> snapshots child n p k k' -> snapshots child (n + 1) p k (copy_buf child n k').
Proof.
  intros Hn Hsn. pose proof Hsn as (Hp & Hc & l & Hl & Hlen & Hrest & Hsame & Hmem & Hsnap). unfold copy_buf. rewrite Hl. simpl.
  assert (Hkeep : (forall w, l !! Z.to_nat n = Some w -> truthy (v_used w) && truthy (v_file_buf w) = false) -> snapshots child (n + 1) p k k').
  { intros Hno. split; [done|]. split; [done|]. exists l. split; [done|]. split; [done|].
    assert (Hle : (Z.to_nat n <= Z.to_nat (n + 1))%nat) by lia. split; [intros j Hj; apply Hrest; lia|]. split; [done|]. split.
    - intros x Hx. apply Hmem. eapply outside_bufs_sub; [by apply take_sub|exact Hx].
    - intros j v w Hj Hv Hw. destruct (decide (Z.of_nat j = n)) as [E|].
      + assert (Hvw : v = w) by (rewrite <- Hrest, Hw in Hv by lia; by injection Hv). subst w. unfold snapshot_of. rewrite Hno; [done|]. by replace (Z.to_nat n) with j by lia.
      + apply (snapshot_of_mono _ _ _ _ _ _ _ _ _ _ (Hsnap j v w ltac:(lia) Hv Hw)); [done|by apply take_sub|intros x; by apply outside_others_take|done]. }
  destruct (l !! Z.to_nat n) as [w|] eqn:Ew; [|by apply Hkeep].
  destruct (truthy (v_used w) && truthy (v_file_buf w)) eqn:Eb; [clear Hkeep|apply Hkeep; by intros ? [= <-]].
  assert (Hw : forall l', pstore k' !! child = Some (on_mm (set_mmap_vmas l') p) -> l' !! Z.to_nat n = Some w).
  { intros l' Hl'. rewrite Hl in Hl'. injection Hl' as ->. done. }
  destruct (kmalloc (v_file_size w) k') as [nb k1] eqn:Em.
  pose proof (kmalloc_keeps (v_file_size w) k') as (v & Ev & Epm). rewrite Em in Ev. simpl in Ev. subst k1.
  destruct (truthy nb) eqn:Enb.
  - apply (snapshots_set child n p k k' (set_buf nb (v_file_size w)) w); try done.
    + intros x Hx. simpl. rewrite copy_other; [by rewrite Epm|]. unfold truthy in *. bool_prop.
      apply (Hx (set_buf nb (v_file_size w) w)); [by apply list_elem_of_singleton|done|done].
    + intros l1 H1 l2 Hs. unfold snapshot_of. rewrite Eb. right. exists nb. split; [done|]. split; [unfold truthy in Enb; by bool_prop|].
      split; [exists k'; by rewrite Em|]. intros i Hi _ _ Hb. simpl. rewrite copy_in by done. rewrite Epm. apply H1. by eapply outside_bufs_sub.
  - apply (snapshots_set child n p k k' (set_buf 0 0) w); try done; [intros x _; by rewrite Epm|].
    intros l1 _ l2 _. unfold snapshot_of. rewrite Eb. left. split; [done|]. exists k'. rewrite Em. unfold truthy in Enb. by bool_prop.
Qed.

Lemma snapshots_all child p k :
  pstore k !! child = Some p -> snapshots child PROC_MAX_VMAS p k (for_range (Z.to_nat PROC_MAX_VMAS) 0 (copy_buf child) k).
Proof.
  intros Hp. change PROC_MAX_VMAS with (0 + Z.of_nat (Z.to_nat PROC_MAX_VMAS)) at 1.
  apply (for_range_ind (fun n => snapshots child n p k)).
  - split; [apply prepared_refl|]. split; [done|]. exists (mmap_vmas (p_mm p)).
    split; [rewrite Hp; f_equal; by destruct p as [? ? ? ? ? ? ? ? [] ?]|]. split; [done|]. split; [done|].
    split; [|split; [done|lia]]. intros j v Hv. by exists v.
  - intros i s Hi Hs. apply snapshots_step; [lia|done].
Qed.

(** ** Descriptors *)

Definition inherits (parent : proc) (i : Z) : bool :=
  truthy (ufd_inuse (p_mm parent) i) && truthy (ufd_handle (p_mm parent) i .& UFD_PIPE_FLAG).

Definition incref_of (parent : proc) (i : Z) : kcall :=
  CallPipeIncref (UFD_PIPE_ID (ufd_handle (p_mm parent) i)) (UFD_PIPE_IS_WRITE (ufd_handle (p_mm parent) i)).

(** The calls that count the first [n] descriptors, if inherited, once more. *)
Definition increfs_upto (parent : proc) (n : Z) : list kcall :=
  seqZ 0 n ≫= fun i => if inherits parent i then [incref_of parent i] else [].
Definition fork_increfs (parent : proc) : list kcall := increfs_upto parent PROC_MAX_FDS.

Lemma increfs_step parent n :
  0 <= n -> increfs_upto parent (n + 1) = increfs_upto parent n ++ (if inherits parent n then [incref_of parent n] else []).
Proof.
  intros Hn. unfold increfs_upto. rewrite seqZ_app by lia. rewrite bind_app. f_equal. rewrite Z.add_0_l, (seqZ_cons n) by lia. change (seqZ (Z.succ n) (Z.pred 1)) with (@nil Z).
  cbn [mbind list_bind]. apply app_nil_r.
Qed.

(** The child after [n] rounds of the descriptor loop. *)
Definition fds_shared (parent : proc) (child n : Z) (p : proc) (k k' : kst) : Prop :=
  prepared child k k' /\ kvm k' = kvm k /\
  calls k' = calls k ++ increfs_upto parent n /\
  exists fi fh fo, pstore k' !! child = Some (on_mm (fun m => set_ufd_offset fo (set_ufd_handle fh (set_ufd_inuse fi m))) p) /\
    (forall i, 0 <= i < n -> fi i = (if inherits parent i then 1 else ufd_inuse (p_mm p) i) /\
       (inherits parent i = true -> fh i = ufd_handle (p_mm parent) i)) /\
    (forall i, n <= i -> fi i = ufd_inuse (p_mm p) i).

Lemma share_fds_all parent child p k :
  pstore k !! child = Some p ->
  fds_shared parent child PROC_MAX_FDS p k (for_range (Z.to_nat PROC_MAX_FDS) 0 (share_fd parent child) k).
Proof.
  intros Hp. change PROC_MAX_FDS with (0 + Z.of_nat (Z.to_nat PROC_MAX_FDS)) at 1.
  apply (for_range_ind (fun n => fds_shared parent child n p k)).
  - split; [apply prepared_refl|]. split; [done|]. split; [by rewrite app_nil_r|].
    exists (ufd_inuse (p_mm p)), (ufd_handle (p_mm p)), (ufd_offset (p_mm p)).
    split; [rewrite Hp; f_equal; by destruct p as [? ? ? ? ? ? ? ? [] ?]|]. split; [lia|done].
  - intros n s Hn (Hpr & Hk & Hcs & fi & fh & fo & Hl & Hlt & Hge). unfold share_fd. fold (inherits parent n).
    assert (Hst : calls s ++ (if inherits parent n then [incref_of parent n] else []) = calls k ++ increfs_upto parent (n + 1)) by (by rewrite increfs_step, app_assoc, Hcs by lia).
    destruct (inherits parent n) eqn:Ei.
    + split; [eapply prepared_trans; [exact Hpr|]; eapply prepared_trans; [apply prepared_upd|apply prepared_log]|].
      split; [done|]. split.
      * exact Hst.
      * exists (<[n := 1]> fi), (<[n := ufd_handle (p_mm parent) n]> fh), (<[n := 0]> fo).
        split; [simpl; rewrite lookup_alter_eq, Hl; done|]. split.
        -- intros i Hi. destruct (decide (i = n)) as [->|]; [by rewrite Ei, !fn_lookup_insert|].
           rewrite !fn_lookup_insert_ne by done. apply Hlt. lia.
        -- intros i Hi. rewrite fn_lookup_insert_ne by lia. apply Hge. lia.
    + split; [done|]. split; [done|]. split.
      * by rewrite app_nil_r in Hst.
      * exists fi, fh, fo. split; [done|]. split; [|intros i Hi; apply Hge; lia]. intros i Hi.
        destruct (decide (i = n)) as [->|]; [|apply Hlt; lia]. rewrite Ei, Hge by lia. done.
Qed.
End Fork.

(** What the new process finds when it is first scheduled: the saved registers. *)
Record resumes_as (k : kst) (stk : Z) (regs : Z -> Z) (rip rflags rsp : Z) : Prop := {
  ra_regs : forall i, 0 <= i < 15 -> saved_word k stk i = regs i;
  ra_rip : saved_word k stk 17 = rip;
  ra_cs : saved_word k stk 18 = USER_CS;
  ra_rflags : saved_word k stk 19 = rflags;
  ra_rsp : saved_word k stk 20 = rsp;
  ra_ss : saved_word k stk 21 = USER_DS
}.

Lemma forked_frame_words frame u_rsp :
  (forall i, 0 <= frame i < 2 ^ 64) -> 0 <= u_rsp < 2 ^ 64 ->
  frame_words (task_frame USER_DS u_rsp (frame 15 .| 0x202) USER_CS (frame 16) (forked_regs frame)).
Proof.
  intros Hf Hu. split; [done|]. intros w Hw.
  assert (Hlor : 0 <= frame 15 .| 0x202 < 2 ^ 64) by (apply lor_range; [lia|apply Hf|lia]).
  apply list_elem_of_In in Hw. simpl in Hw. unfold USER_DS, USER_CS in Hw.
  repeat (destruct Hw as [<-|Hw]; [first [apply Hf|lia]|]). done.
Qed.

Section ForkTheorem.
Context {KH : KernelHeap}.
#[local] Opaque clone_page_directory_cow free_page_directory for_range.

Lemma built_resumes a frame u_rsp k k' mem stk :
  built a (task_frame USER_DS u_rsp (frame 15 .| 0x202) USER_CS (frame 16) (forked_regs frame)) k k' mem stk ->
  resumes_as k' stk (fun i => if i =? 14 then 0 else frame i) (frame 16) (frame 15 .| 0x202) u_rsp.
Proof.
  intros B. pose proof (bu_words _ _ _ _ _ _ B) as H. constructor.
  - intros i Hi. assert (Hc : exists n, (n < 15)%nat /\ i = 21 - Z.of_nat (7 + n)) by (exists (Z.to_nat (14 - i)); lia).
    destruct Hc as (n & Hn & ->). rewrite (H (7 + n)%nat (if 21 - Z.of_nat (7 + n) =? 14 then 0 else frame (21 - Z.of_nat (7 + n)))); [done|].
    do 15 (destruct n as [|n]; [reflexivity|]). lia.
  - exact (H 4%nat _ eq_refl).
  - exact (H 3%nat _ eq_refl).
  - exact (H 2%nat _ eq_refl).
  - exact (H 1%nat _ eq_refl).
  - exact (H 0%nat _ eq_refl).
Qed.

(** The child just before its kernel stack is built. *)
Definition fork_child (child child_pml4 : Z) (parent : proc) (k : kst) : kst :=
  for_range (Z.to_nat PROC_MAX_FDS) 0 (share_fd parent child)
    (for_range (Z.to_nat PROC_MAX_VMAS) 0 (copy_buf child) (new_proc child (fork_fields child_pml4 parent) k)).

(** What the child has before its kernel stack is built; [m0] is memory when it was made. *)
Record forked (child child_pml4 : Z) (parent : proc) (k k2 : kst) (c : proc) : Prop := {
  fk_proc : pstore k2 !! child = Some c;
  fk_pid : pid c = u32 (next_pid k) /\ ppid c = pid parent /\ tgid c = 0 /\ page_directory c = child_pml4;
  fk_sched : p_sched c = set_state PROC_RUN zero_sched;
  fk_sig : p_sig c = p_sig (fork_fields child_pml4 parent zero_proc);
  fk_text : p_text c = p_text (fork_fields child_pml4 parent zero_proc);
  fk_heap : heap_start (p_mm c) = heap_start (p_mm parent) /\ program_break (p_mm c) = program_break (p_mm parent) /\
    mmap_next (p_mm c) = mmap_next (p_mm parent);
  fk_regions : length (mmap_vmas (p_mm c)) = length (mmap_vmas (p_mm parent)) /\
    forall j v w, Z.of_nat j < PROC_MAX_VMAS -> mmap_vmas (p_mm parent) !! j = Some v -> mmap_vmas (p_mm c) !! j = Some w ->
      snapshot_of (fun _ => True) (pm (kvm k)) (pm (kvm k2)) (take (Z.to_nat PROC_MAX_VMAS) (mmap_vmas (p_mm c))) j v w;
  fk_fds : forall i, 0 <= i < PROC_MAX_FDS -> ufd_inuse (p_mm c) i = b2z (inherits parent i) /\
    (inherits parent i = true -> ufd_handle (p_mm c) i = ufd_handle (p_mm parent) i);
  fk_calls : calls k2 = calls k ++ fork_increfs parent;
  fk_memory : forall x, outside_bufs (take (Z.to_nat PROC_MAX_VMAS) (mmap_vmas (p_mm c))) x -> pm (kvm k2) x = pm (kvm k) x
}.

Lemma fork_child_spec child child_pml4 parent k :
  prepared child (new_proc child (fork_fields child_pml4 parent) k) (fork_child child child_pml4 parent k) /\
  exists c, forked child child_pml4 parent k (fork_child child child_pml4 parent k) c.
Proof.
  set (k1 := new_proc child (fork_fields child_pml4 parent) k). set (k2 := fork_child child child_pml4 parent k).
  set (p := fork_fields child_pml4 parent (set_pid (u32 (next_pid k)) zero_proc)).
  assert (Hp : pstore k1 !! child = Some p) by (unfold k1, new_proc; simpl; by rewrite lookup_insert_eq).
  destruct (snapshots_all child p k1 Hp) as (P1 & Hc1 & l & Hl & Hlen & _ & _ & Hmem & Hsnap).
  unfold fork_child in k2. fold k1 in k2. set (ks := for_range (Z.to_nat PROC_MAX_VMAS) 0 (copy_buf child) k1) in *.
  destruct (share_fds_all parent child _ ks Hl) as (P2 & Hk & Hcs & fi & fh & fo & Hc & Hfd & _).
  fold k2 in P2, Hk, Hcs, Hc. split; [by eapply prepared_trans|]. eexists. constructor; [exact Hc|done|done|done|done|done| | | |].
  - split; [exact Hlen|]. rewrite Hk. exact Hsnap.
  - intros i Hi. destruct (Hfd i Hi) as [E1 E2]. simpl. rewrite E1. split; [by destruct (inherits parent i)|done].
  - by rewrite Hcs, Hc1.
  - intros x Hx. rewrite Hk. by apply Hmem.
Qed.

Lemma prepared_rest child f v k k2 :
  k2 = set_calls (calls k2) (set_kvm (kvm k2) (set_pstore (pstore k2) (new_proc child f (set_kvm v k)))) ->
  k2 = set_kvm (kvm k2) (set_next_pid (u64 (next_pid k + 1)) (set_calls (calls k2) (set_pstore (pstore k2) k))).
Proof. intros E. etrans; [exact E|]. generalize (kvm k2) (calls k2) (pstore k2). intros vm cs ps. unfold new_proc. by destruct k. Qed.

Lemma publish_fields self child w k c :
  pstore k !! child = Some c -> self <> child ->
  let k' := publish self child w k in
  process_table k' = process_table k ++ [child] /\
  pstore k' !! child = Some (on_sched (fun s => set_sched_weight w (set_sched_managed 1 s)) c) /\
  pstore k' !! self = (on_sched (set_sched_managed 1) <$> pstore k !! self) /\ kvm k' = kvm k /\ calls k' = calls k /\
  (forall b, b <> child -> b <> self -> pstore k' !! b = pstore k !! b).
Proof.
  intros Hc Hne. unfold publish, append_proc. split; [done|].
  split; [|split; [|split; [done|split; [done|]]]]; simpl.
  - by rewrite lookup_alter_eq, lookup_alter_ne, Hc.
  - by rewrite lookup_alter_ne, lookup_alter_eq.
  - intros b H1 H2. by rewrite !lookup_alter_ne.
Qed.

(** A call of fork that fails adds nothing: no process, no pid in the table and no field of
    another process changes; the clone of the address space is released, and if the failure
    came last the descriptors already counted stay counted. *)
Record fork_failed (parent : proc) (cl : Z * vm) (k k' : kst) : Prop := {
  ff_rest : k' = set_kvm (kvm k') (set_next_pid (next_pid k') (set_calls (calls k') k));
  ff_space : cl.1 = 0 /\ kvm k' = cl.2 /\ calls k' = calls k \/
    cl.1 <> 0 /\ (exists n k1, (kmalloc n k1).1 = 0) /\
    exists v l, kvm k' = free_page_directory cl.1 v /\ (forall x, outside_bufs l x -> pm v x = pm cl.2 x) /\
      (l = [] /\ calls k' = calls k \/
       exists child c, child <> 0 /\ pstore k !! child = None /\ calls k' = calls k ++ fork_increfs parent ++ [CallKfree child] /\
         l = take (Z.to_nat PROC_MAX_VMAS) (mmap_vmas (p_mm c)) /\ exists kc k2, pm (kvm kc) = pm cl.2 /\ forked child cl.1 parent kc k2 c)
}.

(** A call that succeeds: [c] is the new process, [stack] memory that is not its kernel stack. *)
Record fork_made (parent : proc) (frame : Z -> Z) (cl : Z * vm) (a child : Z) (k k' : kst) (c : proc) : Prop := {
  fm_new : cl.1 <> 0 /\ child <> 0 /\ pstore k !! child = None;
  fm_table : process_table k' = process_table k ++ [child] /\ pstore k' !! child = Some c;
  fm_parent : pstore k' !! a = Some (on_sched (set_sched_managed 1) parent);
  fm_others : forall b, b <> child -> b <> a -> pstore k' !! b = pstore k !! b;
  fm_pid : pid c = u32 (next_pid k) /\ ppid c = pid parent /\ tgid c = 0 /\ page_directory c = cl.1;
  fm_sched : state (p_sched c) = PROC_RUN /\ sched_managed (p_sched c) = 1 /\ sched_weight (p_sched c) = sched_weight (p_sched parent);
  fm_signals : sig_pending (p_sig c) = 0 /\ sig_active (p_sig c) = 0 /\ sig_mask (p_sig c) = sig_mask (p_sig parent) /\
    sig_trampoline (p_sig c) = sig_trampoline (p_sig parent) /\
    forall i, 0 <= i < NSIG -> sig_handlers (p_sig c) i = sig_handlers (p_sig parent) i;
  fm_text : cwd (p_text c) = strncpy (MAX_PATH - 1) (cwd (p_text parent)) /\ comm (p_text c) = strncpy 31 (comm (p_text parent));
  fm_heap : heap_start (p_mm c) = heap_start (p_mm parent) /\ program_break (p_mm c) = program_break (p_mm parent) /\
    mmap_next (p_mm c) = mmap_next (p_mm parent);
  fm_regions : length (mmap_vmas (p_mm c)) = length (mmap_vmas (p_mm parent)) /\
    forall j v w, Z.of_nat j < PROC_MAX_VMAS -> mmap_vmas (p_mm parent) !! j = Some v -> mmap_vmas (p_mm c) !! j = Some w ->
      snapshot_of (fun x => x < kernel_stack c - 4096 \/ kernel_stack c <= x) (pm cl.2) (pm (kvm k')) (mmap_vmas (p_mm c)) j v w;
  fm_fds : forall i, 0 <= i < PROC_MAX_FDS -> ufd_inuse (p_mm c) i = b2z (inherits parent i) /\
    (inherits parent i = true -> ufd_handle (p_mm c) i = ufd_handle (p_mm parent) i);
  fm_calls : calls k' = calls k ++ fork_increfs parent;
  fm_resumes : resumes_as k' (stack c) (fun i => if i =? 14 then 0 else frame i) (frame 16) (frame 15 .| 0x202) (user_rsp k);
  fm_memory : forall x, x < kernel_stack c - 4096 \/ kernel_stack c <= x -> outside_bufs (mmap_vmas (p_mm c)) x -> pm (kvm k') x = pm cl.2 x
}.

(** C18: fork.  From a ring-3 process with a free table slot it fails only when some
    allocation fails.  Then the table and every process are as they were and the clone of the
    address space is released; the pipe descriptors already counted for the child, if it came
    to that, stay counted.  Otherwise the child is appended to the table: a runnable process
    with the next pid, the caller as parent and the copy-on-write clone as its address space;
    it has the parent's heap window, regions, next mapping address, signal handlers, trampoline
    and mask, no pending signal, its directory and name, exactly the parent's pipe descriptors
    (each counted once more), and a kernel stack from which it resumes in ring 3 with the
    parent's registers, instruction and stack pointer and with 0 in rax.  A region with a
    snapshot of a file has a block of the child's own with the same bytes, provided the heap
    gives out blocks that do not overlap, or no snapshot if the heap had no block.  No other
    process changes, and memory outside the new stack and the child's snapshots is as the
    clone left it. *)
Theorem fork_correct k a parent frame r k' :
  get_current_process k = a -> pstore k !! a = Some parent -> page_directory parent <> 0 ->
  process_count k < MAX_PROCESSES -> syscall_frame k = Some frame -> (forall i, 0 <= frame i < 2 ^ 64) ->
  0 <= user_rsp k < 2 ^ 64 ->
  do_fork k = (r, k') ->
  let cl := clone_page_directory_cow (page_directory parent) (kvm k) in
  (r = -1 /\ fork_failed parent cl k k') \/
  (exists child c, r = s32 (pid c) /\ fork_made parent frame cl a child k k' c).
Proof.
  intros Ha Hpar Hpd Hroom Hfr Hf Hu E. unfold do_fork in E. rewrite Ha, Hpar, Hfr in E. unfold truthy in E.
  rewrite (proj2 (Z.eqb_neq _ _) Hpd), (proj2 (Z.leb_gt _ _)) in E by done. simpl negb in E. cbv iota in E.
  destruct (clone_page_directory_cow (page_directory parent) (kvm k)) as [pml4 v] eqn:Ecl.
  destruct (Z.eqb_spec pml4 0) as [->|Hpm]; simpl negb in E; cbv iota in E.
  { injection E as <- <-. left. split; [done|]. constructor; [by destruct k|]. by left. }
  destruct (kmalloc SIZEOF_PROCESS (set_kvm v k)) as [child k1] eqn:Em.
  pose proof (kmalloc_keeps SIZEOF_PROCESS (set_kvm v k)) as (v1 & Ev1 & Epm1).
  pose proof (kmalloc_fresh SIZEOF_PROCESS (set_kvm v k)) as Hfresh. rewrite Em in Ev1, Hfresh. simpl in Ev1, Hfresh.
  destruct (Z.eqb_spec child 0) as [->|Hch]; simpl negb in E; cbv iota in E.
  { injection E as <- <-. subst k1. left. split; [done|]. constructor; [by destruct k|]. right. split; [done|].
    split; [exists SIZEOF_PROCESS, (set_kvm v k); by rewrite Em|]. exists v1, []. split; [done|]. split; [|by left]. intros x _. by rewrite Epm1. }
  specialize (Hfresh Hch). assert (Hne : a <> child) by congruence.
  fold (fork_child child pml4 parent k1) in E. destruct (fork_child_spec child pml4 parent k1) as ((E2 & Hother) & c & Hc).
  assert (Hk1 : k1 = set_kvm v1 k) by (by subst k1). clear Ev1 Em.
  assert (Hst : forall b, b <> child -> pstore (fork_child child pml4 parent k1) !! b = pstore k !! b).
  { intros b Hb. rewrite Hother by done. unfold new_proc. simpl. rewrite lookup_insert_ne by done. by subst k1. }
  assert (Hrest : fork_child child pml4 parent k1 = set_kvm (kvm (fork_child child pml4 parent k1)) (set_next_pid (u64 (next_pid k + 1))
    (set_calls (calls (fork_child child pml4 parent k1)) (set_pstore (pstore (fork_child child pml4 parent k1)) k)))).
  { subst k1. exact (prepared_rest _ _ _ _ _ E2). }
  assert (Hm1 : pm (kvm k1) = pm v) by (by subst k1).
  assert (Hn1 : next_pid k1 = next_pid k /\ calls k1 = calls k) by (by subst k1). clear Hk1 E2 Hother.
  generalize dependent (fork_child child pml4 parent k1). intros k2 E Hc Hst Hrest.
  assert (Hu2 : user_rsp k2 = user_rsp k) by (by rewrite Hrest). rewrite Hu2 in E. unfold init_forked_task_stack in E.
  destruct (build_stack_spec child KERNEL_BASE
    (fun _ => task_frame USER_DS (user_rsp k) (frame 15 .| 0x202) USER_CS (frame 16) (forked_regs frame)) k2)
    as [(v3 & k3 & Eb & -> & Em3 & E0)|(mem & k3 & Eb & B)]; [by right|intros; by apply forked_frame_words| |]; rewrite Eb in E.
  - left. simpl in E. injection E as <- <-. split; [done|]. constructor.
    + assert (Hdel : delete child (pstore k2) = pstore k).
      { apply map_eq. intros b. destruct (decide (b = child)) as [->|Hb]; [by rewrite lookup_delete_eq|rewrite lookup_delete_ne by done; by apply Hst]. }
      unfold kfree_proc, log_call. cbn. rewrite Hdel, Hrest. by destruct k.
    + right. split; [done|]. split; [by exists 4096, k2|]. exists v3, (take (Z.to_nat PROC_MAX_VMAS) (mmap_vmas (p_mm c))). split; [done|]. split.
      * intros x Hx. rewrite Em3, (fk_memory _ _ _ _ _ _ Hc) by done. cbn. by rewrite Hm1.
      * right. exists child, c. split; [done|]. split; [done|]. split; [cbn; rewrite (fk_calls _ _ _ _ _ _ Hc), (proj2 Hn1); by rewrite <- app_assoc|].
        split; [done|]. by exists k1, k2.
  - right. exists child.
    change ((match pstore (publish a child (sched_weight (p_sched parent)) k3) !! child with Some c => s32 (pid c) | None => -1 end,
             publish a child (sched_weight (p_sched parent)) k3) = (r, k')) in E.
    destruct (bu_frame _ _ _ _ _ _ B) as (v3 & E3 & Hm3). pose proof (built_resumes _ _ _ _ _ _ _ B) as RA.
    set (stk := u64 (mem + 4096 - 176 + KERNEL_BASE)) in *.
    set (g := fun p => set_kernel_stack (mem + 4096) (set_stack stk p)) in *.
    destruct Hc as [Hc (C1 & C2 & C3 & C4) C5 C6 C7 (C8 & C9 & C10) [C11 C12] C13 C14 C15].
    assert (Hc3 : pstore k3 !! child = Some (g c)) by (rewrite E3, lookup_upd, decide_True by done; simpl; by rewrite Hc).
    assert (Hst3 : forall b, b <> child -> pstore k3 !! b = pstore k !! b) by (intros b Hb; rewrite E3, lookup_upd, decide_False by done; by apply Hst).
    destruct (publish_fields a child (sched_weight (p_sched parent)) k3 (g c) Hc3 Hne) as (F1 & F2 & F3 & F4 & F5 & F6).
    assert (Ht3 : process_table k3 = process_table k) by (by rewrite E3, Hrest).
    assert (Hcalls : calls k3 = calls k2) by (by rewrite E3).
    assert (Hpm3 : pm (kvm k3) = pm v3) by (by rewrite E3).
    generalize dependent (publish a child (sched_weight (p_sched parent)) k3). intros k4 E F1 F2 F3 F4 F5 F6.
    rewrite F2 in E. injection E as <- <-.
    exists (on_sched (fun s => set_sched_weight (sched_weight (p_sched parent)) (set_sched_managed 1 s)) (g c)). split; [reflexivity|].
    assert (Hsub : forall x, outside_bufs (mmap_vmas (p_mm c)) x -> outside_bufs (take (Z.to_nat PROC_MAX_VMAS) (mmap_vmas (p_mm c))) x).
    { intros x. apply outside_bufs_sub. intros u Hin. apply elem_of_take in Hin as (i & Hi & _). by eapply list_elem_of_lookup_2. }
    constructor.
    + done.
    + split; [by rewrite F1, Ht3|exact F2].
    + rewrite F3, Hst3, Hpar by done. done.
    + intros b Hb1 Hb2. rewrite F6 by done. by apply Hst3.
    + simpl. rewrite (proj1 Hn1) in C1. done.
    + simpl. by rewrite C5.
    + simpl. rewrite C6. simpl. do 4 (split; [done|]). intros i Hi. by rewrite (proj2 (Z.leb_le _ _)), (proj2 (Z.ltb_lt _ _)) by lia.
    + simpl. by rewrite C7.
    + done.
    + split; [exact C11|]. intros j v0 w Hj Hv Hw. specialize (C12 j v0 w Hj Hv Hw). rewrite Hm1 in C12. rewrite F4, Hpm3.
      apply (snapshot_of_mono _ _ _ _ _ _ _ _ _ _ C12); [done| | |].
      * intros u Hin. apply elem_of_take in Hin as (i & Hi & _). by eapply list_elem_of_lookup_2.
      * intros x Hx i z Hi. apply lookup_take_Some in Hi as [Hi _]. by apply Hx.
      * intros x Hx _. apply Hm3. cbn in Hx. lia.
    + exact C13.
    + by rewrite F5, Hcalls, C14, (proj2 Hn1).
    + destruct RA as [R1 R2 R3 R4 R5 R6]. unfold saved_word in *. constructor; unfold saved_word; by rewrite F4.
    + intros x Hx Hout. cbn in Hx. rewrite F4, Hpm3, Hm3 by lia. rewrite C15 by (by apply Hsub). by rewrite Hm1.
Qed.
End ForkTheorem.

(** * clone *)

Lemma thread_frame_words fn stk arg :
  0 <= fn < 2 ^ 64 -> 0 <= stk < 2 ^ 64 -> 0 <= arg < 2 ^ 64 ->
  frame_words (task_frame USER_DS stk 0x202 USER_CS fn (thread_regs arg)).
Proof.
  intros Hf Hs Ha. split; [done|]. intros w Hw. apply list_elem_of_In in Hw. simpl in Hw. unfold USER_DS, USER_CS in Hw.
  repeat (destruct Hw as [<-|Hw]; [lia|]). done.
Qed.

Section CloneTheorem.
Context {KH : KernelHeap}.

Lemma built_thread a fn stk arg k k' mem s :
  built a (task_frame USER_DS stk 0x202 USER_CS fn (thread_regs arg)) k k' mem s ->
  resumes_as k' s (fun i => if i =? 9 then arg else 0) fn 0x202 stk.
Proof.
  intros B. pose proof (bu_words _ _ _ _ _ _ B) as H. constructor.
  - intros i Hi. assert (Hc : exists n, (n < 15)%nat /\ i = 21 - Z.of_nat (7 + n)) by (exists (Z.to_nat (14 - i)); lia).
    destruct Hc as (n & Hn & ->). rewrite (H (7 + n)%nat (if 21 - Z.of_nat (7 + n) =? 9 then arg else 0)); [done|].
    do 15 (destruct n as [|n]; [reflexivity|]). lia.
  - exact (H 4%nat _ eq_refl).
  - exact (H 3%nat _ eq_refl).
  - exact (H 2%nat _ eq_refl).
  - exact (H 1%nat _ eq_refl).
  - exact (H 0%nat _ eq_refl).
Qed.

(** C19: clone with CLONE_VM.  From a ring-3 process with a free slot, a function and a stack
    it fails only when an allocation fails, leaving the table alone; otherwise it appends a
    runnable thread that shares the caller's page tables, belongs to the group of the
    caller's leader and runs on the leader's CPU, has no descriptor and owns no file
    snapshot, and starts in ring 3 at [fn] on [stk] with [arg] in rdi. *)
Theorem clone_correct k a self leader fn stk arg flags r k' :
  get_current_process k = a -> pstore k !! a = Some self -> page_directory self <> 0 ->
  pstore k !! tg_leader a k = Some leader -> flags .& CLONE_VM <> 0 -> process_count k < MAX_PROCESSES ->
  0 < fn < 2 ^ 64 -> 0 < stk < 2 ^ 64 -> 0 <= arg < 2 ^ 64 -> do_clone fn stk arg flags k = (r, k') ->
  (r = -1 /\ process_table k' = process_table k /\ pstore k' !! a = Some self /\ exists n k1, (kmalloc n k1).1 = 0) \/
  (exists t c, t <> 0 /\ pstore k !! t = None /\ process_table k' = process_table k ++ [t] /\ pstore k' !! t = Some c /\
     r = s32 (pid c) /\ pid c = u32 (next_pid k) /\ ppid c = pid self /\ tgid c = pid leader /\
     page_directory c = page_directory self /\ state (p_sched c) = PROC_RUN /\ sched_managed (p_sched c) = 1 /\
     sched_cpu (p_sched c) = sched_cpu (p_sched leader) /\
     (forall i, ufd_inuse (p_mm c) i = 0) /\ (forall w, w ∈ mmap_vmas (p_mm c) -> v_file_buf w = 0) /\
     resumes_as k' (stack c) (fun i => if i =? 9 then arg else 0) fn 0x202 stk).
Proof.
  intros Ha Hs Hpd Hl Hfl Hroom Hfn Hst Harg E. unfold do_clone in E. rewrite Ha, Hs in E. unfold truthy in E.
  rewrite (proj2 (Z.eqb_neq _ _) Hpd), (proj2 (Z.eqb_neq _ _) Hfl), (proj2 (Z.eqb_neq fn 0)), (proj2 (Z.eqb_neq stk 0)),
    (proj2 (Z.leb_gt _ _)) in E by (done || lia). simpl negb in E. simpl orb in E. cbv iota in E.
  destruct (kmalloc SIZEOF_PROCESS k) as [t k1] eqn:Em.
  pose proof (kmalloc_keeps SIZEOF_PROCESS k) as (v & Ev & Epm).
  pose proof (kmalloc_fresh SIZEOF_PROCESS k) as Hfresh. rewrite Em in Ev, Hfresh. simpl in Ev, Hfresh.
  destruct (Z.eqb_spec t 0) as [->|Ht]; simpl negb in E; cbv iota in E.
  { injection E as <- <-. left. subst k1. split; [done|]. split; [done|]. split; [done|]. exists SIZEOF_PROCESS, k. by rewrite Em. }
  specialize (Hfresh Ht). assert (Hne : a <> t) by congruence.
  assert (El : default self (pstore k1 !! tg_leader a k1) = leader).
  { subst k1. change (tg_leader a (set_kvm v k)) with (tg_leader a k). simpl. by rewrite Hl. }
  rewrite El in E. set (f := clone_fields (pid leader) (sched_cpu (p_sched leader)) self) in *.
  set (k2 := new_proc t f k1) in *.
  assert (Hc : pstore k2 !! t = Some (f (set_pid (u32 (next_pid k)) zero_proc))).
  { unfold k2, new_proc. simpl. subst k1. by rewrite lookup_insert_eq. }
  assert (Hs2 : pstore k2 !! a = Some self) by (unfold k2, new_proc; simpl; subst k1; by rewrite lookup_insert_ne by done).
  assert (Ht2 : process_table k2 = process_table k) by (by subst k1). clearbody k2.
  unfold init_thread_task_stack in E.
  destruct (build_stack_spec t KERNEL_BASE (fun _ => task_frame USER_DS stk 0x202 USER_CS fn (thread_regs arg)) k2)
    as [(v3 & k3 & Eb & -> & _ & E0)|(mem & k3 & Eb & B)]; [by right|intros; apply thread_frame_words; lia| |]; rewrite Eb in E.
  - left. simpl in E. injection E as <- <-. split; [done|]. split; [exact Ht2|]. split; [|by exists 4096, k2].
    simpl. by rewrite lookup_delete_ne.
  - right. exists t. change ((match pstore (publish a t (sched_weight (p_sched self)) k3) !! t with Some c => s32 (pid c) | None => -1 end,
             publish a t (sched_weight (p_sched self)) k3) = (r, k')) in E.
    destruct (bu_frame _ _ _ _ _ _ B) as (v3 & E3 & _). pose proof (built_thread _ _ _ _ _ _ _ _ B) as RA.
    set (s := u64 (mem + 4096 - 176 + KERNEL_BASE)) in *. set (g := fun p => set_kernel_stack (mem + 4096) (set_stack s p)) in *.
    set (c0 := f (set_pid (u32 (next_pid k)) zero_proc)) in *.
    assert (Hc3 : pstore k3 !! t = Some (g c0)) by (rewrite E3, lookup_upd, decide_True by done; simpl; by rewrite Hc).
    destruct (publish_fields a t (sched_weight (p_sched self)) k3 (g c0) Hc3 Hne) as (F1 & F2 & F3 & F4 & F5 & _).
    assert (Ht3 : process_table k3 = process_table k) by (by rewrite E3).
    generalize dependent (publish a t (sched_weight (p_sched self)) k3). intros k4 E F1 F2 F3 F4 F5.
    rewrite F2 in E. injection E as <- <-. eexists. split; [done|]. split; [done|].
    split; [by rewrite F1, Ht3|]. split; [exact F2|]. repeat (split; [done|]). split.
    { intros w Hw. simpl in Hw. apply list_elem_of_In, in_map_iff in Hw as (w' & <- & _). done. }
    destruct RA as [R1 R2 R3 R4 R5 R6]. unfold saved_word in *. constructor; unfold saved_word; by rewrite F4.
Qed.
End CloneTheorem.

(** * A concrete heap and a fork *)

Definition demo_kmalloc (n : Z) (k : kst) : Z * kst :=
  let r := 0x200000 + 0x2000 * Z.of_nat (size (pstore k)) in
  (if bool_decide (pstore k !! r = None) && (r + n <? 2 ^ 39) then r else 0, k).

Lemma demo_kmalloc_some n k :
  (demo_kmalloc n k).1 <> 0 ->
  pstore k !! (demo_kmalloc n k).1 = None /\ 0 < (demo_kmalloc n k).1 /\ (demo_kmalloc n k).1 + n < 2 ^ 39.
Proof.
  unfold demo_kmalloc. cbv zeta. cbn [fst]. destruct (bool_decide _) eqn:E; [|done]. apply bool_decide_eq_true in E.
  destruct (Z.ltb_spec (0x200000 + 0x2000 * Z.of_nat (size (pstore k)) + n) (2 ^ 39)); [|done]. simpl andb. cbv iota.
  intros _. split; [done|lia].
Qed.

Definition demo_kheap : KernelHeap.
Proof.
  refine {| kmalloc := demo_kmalloc |}.
  - intros n k. exists (kvm k). split; [by destruct k|done].
  - intros n k H. by apply demo_kmalloc_some.
  - intros n k H. by apply demo_kmalloc_some.
Defined.

(** A shell at pid 2 with one mapped page and a pipe, in a system call. *)
Definition demo_frame (i : Z) : Z := if (0 <=? i) && (i <? 17) then 100 + i else 0.
Definition demo_shell : proc :=
  on_mm (fun m => set_ufd_handle (<[3 := UFD_PIPE_FLAG .| 5]> (ufd_handle m)) (set_ufd_inuse (<[3 := 1]> (ufd_inuse m)) m))
    (on_sched (set_state PROC_RUN) (set_page_directory demo_root (set_ppid 1 (set_pid 2 zero_proc)))).
Definition demo_forking : kst :=
  set_next_pid 3 (set_user_rsp 0x7FFFFFF0 (set_syscall_frame (Some demo_frame) (set_current_idx 1
    (start_kst {[ 16 := on_sched (set_state PROC_RUN) (set_pid 1 zero_proc); 32 := demo_shell ]} [16; 32] demo_vm3)))).

Lemma demo_fork_result : (@do_fork demo_kheap demo_forking).1 = 3.
Proof. by vm_compute. Qed.

#[local] Opaque clone_page_directory_cow.

Lemma fork_correct_witness :
  exists child c, child ∈ process_table (@do_fork demo_kheap demo_forking).2 /\
    pstore (@do_fork demo_kheap demo_forking).2 !! child = Some c /\ pid c = 3 /\ ppid c = 2 /\
    saved_word (@do_fork demo_kheap demo_forking).2 (stack c) 17 = 116 /\
    saved_word (@do_fork demo_kheap demo_forking).2 (stack c) 14 = 0 /\
    calls (@do_fork demo_kheap demo_forking).2 = [CallPipeIncref 2 1].
Proof.
  assert (Hf : forall i, 0 <= demo_frame i < 2 ^ 64).
  { intros i. unfold demo_frame. destruct (Z.leb_spec 0 i), (Z.ltb_spec i 17); simpl; lia. }
  destruct (@fork_correct demo_kheap demo_forking 32 demo_shell demo_frame _ _ eq_refl eq_refl ltac:(done) ltac:(done) eq_refl
    Hf ltac:(done) (surjective_pairing (@do_fork demo_kheap demo_forking)))
    as [(E & _)|(child & c & Er & [_ [Ht Hc] _ _ (Ep & Epp & _) _ _ _ _ _ _ Hcalls R _])].
  - rewrite demo_fork_result in E. done.
  - exists child, c. rewrite Ht. split; [apply elem_of_app; right; by apply list_elem_of_singleton|].
    split; [exact Hc|]. split; [rewrite Ep; reflexivity|]. split; [rewrite Epp; reflexivity|].
    split; [rewrite (ra_rip _ _ _ _ _ _ R); reflexivity|]. split; [rewrite (ra_regs _ _ _ _ _ _ R 14 ltac:(lia)); reflexivity|]. rewrite Hcalls. reflexivity.
Defined.

#[local] Transparent clone_page_directory_cow.
(** A shell with a mapped file of 16 bytes, and a heap whose blocks do not overlap here: the child
    has a block of its own with the bytes of the parent's. *)
Definition wide_kmalloc (n : Z) (k : kst) : Z * kst :=
  let r := 0x200000 + 0x2000 * Z.of_nat (size (pstore k)) + 0x10000 * n in
  (if bool_decide (pstore k !! r = None) && (r + n <? 2 ^ 39) && (0 <=? n) then r else 0, k).

Lemma wide_kmalloc_some n k :
  (wide_kmalloc n k).1 <> 0 -> pstore k !! (wide_kmalloc n k).1 = None /\ 0 < (wide_kmalloc n k).1 /\ (wide_kmalloc n k).1 + n < 2 ^ 39.
Proof.
  unfold wide_kmalloc. cbv zeta. cbn [fst]. destruct (bool_decide _) eqn:E; [|done]. apply bool_decide_eq_true in E.
  destruct (Z.ltb_spec (0x200000 + 0x2000 * Z.of_nat (size (pstore k)) + 0x10000 * n + n) (2 ^ 39)), (Z.leb_spec 0 n); cbn [andb]; try done.
  intros _. split; [done|lia].
Qed.

Definition wide_kheap : KernelHeap.
Proof.
  refine {| kmalloc := wide_kmalloc |}.
  - intros n k. exists (kvm k). split; [by destruct k|done].
  - intros n k H. by apply wide_kmalloc_some.
  - intros n k H. by apply wide_kmalloc_some.
Defined.

Definition mapped_shell : proc := on_mm (set_mmap_vmas [Vma 0x600000 0x601000 3 1 0x700000 16]) demo_shell.
Definition mapped_forking : kst :=
  let k := set_pstore (<[32 := mapped_shell]> (pstore demo_forking)) demo_forking in
  set_kvm (set_pm (st64 (pm (kvm k)) 0x700000 0x1122334455667788) (kvm k)) k.

Lemma fork_copies_snapshot :
  let k' := (@do_fork wide_kheap mapped_forking).2 in
  match list.last (process_table k') with
  | Some child => option_map (fun c => map (fun w => (v_file_size w, ld64 (pm (kvm k')) (v_file_buf w), v_file_buf w =? 0x700000)) (mmap_vmas (p_mm c))) (pstore k' !! child)
  | None => None
  end = Some [(16, 0x1122334455667788, false)].
Proof. vm_compute. reflexivity. Qed.
#[local] Opaque clone_page_directory_cow.

Definition demo_threads : kst := set_current_idx 1 demo_forking.

Lemma clone_correct_witness :
  exists t c, t ∈ process_table (@do_clone demo_kheap 0x400100 0x500000 7 CLONE_VM demo_threads).2 /\
    pstore (@do_clone demo_kheap 0x400100 0x500000 7 CLONE_VM demo_threads).2 !! t = Some c /\ tgid c = 2 /\
    page_directory c = demo_root /\ saved_word (@do_clone demo_kheap 0x400100 0x500000 7 CLONE_VM demo_threads).2 (stack c) 9 = 7.
Proof.
  assert (Er : (@do_clone demo_kheap 0x400100 0x500000 7 CLONE_VM demo_threads).1 = 3) by (by vm_compute).
  destruct (@clone_correct demo_kheap demo_threads 32 demo_shell demo_shell 0x400100 0x500000 7 CLONE_VM _ _
    eq_refl eq_refl ltac:(done) eq_refl ltac:(done) ltac:(done) ltac:(lia) ltac:(lia) ltac:(lia)
    (surjective_pairing (@do_clone demo_kheap 0x400100 0x500000 7 CLONE_VM demo_threads)))
    as [(E & _)|(t & c & _ & _ & Ht & Hc & _ & _ & _ & Etg & Epd & _ & _ & _ & _ & _ & R)].
  - rewrite Er in E. done.
  - exists t, c. rewrite Ht. split; [apply elem_of_app; right; by apply list_elem_of_singleton|].
    split; [exact Hc|]. split; [rewrite Etg; reflexivity|]. split; [rewrite Epd; reflexivity|].
    rewrite (ra_regs _ _ _ _ _ _ R 9 ltac:(lia)). reflexivity.
Defined.

(** A fork that runs out of memory at the kernel stack has already counted the pipe ends it
    would share, and does not take them back. *)
Definition short_kmalloc (n : Z) (k : kst) : Z * kst := if n =? 4096 then (0, k) else demo_kmalloc n k.

Definition short_kheap : KernelHeap.
Proof.
  refine {| kmalloc := short_kmalloc |}; unfold short_kmalloc.
  - intros n k. exists (kvm k). split; [destruct (n =? 4096); by destruct k|done].
  - intros n k. destruct (n =? 4096); [done|]. intros H. by apply demo_kmalloc_some.
  - intros n k. destruct (n =? 4096); [done|]. intros H. by apply demo_kmalloc_some.
Defined.

Lemma fork_failure_keeps_pipe_refs :
  (@do_fork short_kheap demo_forking).1 = -1 /\
  calls (@do_fork short_kheap demo_forking).2 = [CallPipeIncref 2 1; CallKfree 0x204000].
Proof. by vm_compute. Qed.
