(* ===== verification/Futex.v ===== *)
(** The futex system call (src/kernel/process.c: do_futex), the sleep/wake primitive of
    threads.  A waiter is a process blocked with the physical address of the word as its
    key.  FUTEX_WAIT parks in a loop: [futex_check] is the compare-and-block at the top of
    it, [futex_resume] what the process does when the scheduler runs it again. *)
From Stdlib Require Import ZArith Lia.
From S2P Require Import Prelude Phys PageAlloc Paging PageTables Process Signal Sched Reap.

Definition FUTEX_WAIT : Z := 0.
Definition FUTEX_WAKE : Z := 1.

Definition waits_on (k : kst) (key a : Z) : bool :=
  entry_is k (fun p => (state (p_sched p) =? PROC_BLOCKED) && (futex_key (p_sched p) =? key)) a.

Definition release_waiter (p : proc) : proc := on_sched (fun s => set_state PROC_RUN (set_futex_key 0 s)) p.

(** [for (i = 0; i < process_count && woken < (int)val; i++)]. *)
Fixpoint wake_loop (l : list Z) (key limit woken : Z) (k : kst) : Z * kst :=
  match l with
  | [] => (woken, k)
  | a :: l' =>
      if negb (woken <? limit) then (woken, k)
      else if waits_on k key a then wake_loop l' key limit (woken + 1) (upd a release_waiter k)
      else wake_loop l' key limit woken k
  end.

(** The end of the wait: the caller is runnable and its return path restored. *)
Definition futex_done (self cr3 rsp : Z) (k : kst) : wait_res :=
  wait_return cr3 rsp 0 None (upd self release_waiter k).

Definition futex_park (key : Z) (p : proc) : proc :=
  on_sched (fun s => set_futex_key key (set_state PROC_BLOCKED (set_blocked_in_kernel 1 s))) p.

Definition futex_check (self key val cr3 rsp : Z) (k : kst) : wait_res :=
  if negb (ld32 (pm (kvm k)) key =? val) then futex_done self cr3 rsp k
  else WPark (upd self (futex_park key) k).

Definition futex_resume (self key val cr3 rsp : Z) (k : kst) : wait_res :=
  let k := upd self (mark_in_kernel 0) k in
  match pstore k !! self with
  | Some me => if futex_key (p_sched me) =? 0 then futex_done self cr3 rsp k else futex_check self key val cr3 rsp k
  | None => futex_check self key val cr3 rsp k
  end.

Definition do_futex (uaddr op val : Z) (k : kst) : wait_res :=
  let self := get_current_process k in
  match pstore k !! self with
  | None => WReturn (-1) None k
  | Some me =>
      if negb (truthy (page_directory me)) then WReturn (-1) None k
      else if truthy (uaddr .& 3) then WReturn (-1) None k
      else
        let key := user_v2p (user_cr3 k) uaddr (pm (kvm k)) in
        if negb (truthy key) then WReturn (-1) None k
        else if op =? FUTEX_WAKE then
          let '(woken, k) := wake_loop (process_table k) key (s32 val) 0 k in WReturn woken None k
        else if negb (op =? FUTEX_WAIT) then WReturn (-1) None k
        else futex_check self key val (user_cr3 k) (user_rsp k) k
  end.

(** * Waking *)

(** The waiters the loop releases: the first ones in table order, up to the limit. *)
Definition released (key limit : Z) (k : kst) : list Z :=
  take (Z.to_nat limit) (filter (fun a => waits_on k key a = true) (process_table k)).

Lemma waits_on_upd k key a b f : a <> b -> waits_on (upd a f k) key b = waits_on k key b.
Proof. intros Hne. unfold waits_on, entry_is. by rewrite lookup_upd, decide_False. Qed.

Lemma filter_waits_upd k key a f (l : list Z) :
  a ∉ l -> filter (fun b => waits_on (upd a f k) key b = true) l = filter (fun b => waits_on k key b = true) l.
Proof.
  induction l as [|b l IH]; intros Ha; [done|]. rewrite !filter_cons.
  assert (a <> b) by (intros ->; apply Ha; by left).
  rewrite waits_on_upd by done. rewrite IH; [done|]. intros H'. apply Ha. by right.
Qed.

Lemma wake_loop_spec (l : list Z) key limit woken k :
  NoDup l ->
  let ws := take (Z.to_nat (limit - woken)) (filter (fun a => waits_on k key a = true) l) in
  wake_loop l key limit woken k = (woken + Z.of_nat (length ws), foldl (fun k a => upd a release_waiter k) k ws).
Proof.
  revert woken k. induction l as [|a l IH]; intros woken k Hnd; simpl.
  - destruct (Z.to_nat (limit - woken)); simpl; f_equal; lia.
  - inversion Hnd as [|? ? Ha Hnd']; subst. destruct (Z.ltb_spec woken limit) as [Hlt|Hge]; simpl negb; cbv iota.
    + rewrite filter_cons. destruct (waits_on k key a) eqn:Ew.
      * rewrite decide_True by done. rewrite IH by done. rewrite filter_waits_upd by done.
        replace (Z.to_nat (limit - woken)) with (Datatypes.S (Z.to_nat (limit - (woken + 1)))) by lia. simpl. f_equal. lia.
      * rewrite decide_False by done. by apply IH.
    + replace (Z.to_nat (limit - woken)) with 0%nat by lia. simpl. f_equal. lia.
Qed.

Lemma released_elem key limit k b :
  b ∈ released key limit k -> b ∈ process_table k /\ waits_on k key b = true.
Proof.
  unfold released. intros Hb. apply elem_of_take in Hb as (i & Hi & _). apply list_elem_of_lookup_2 in Hi.
  by apply list_elem_of_filter in Hi as [Hw Hin].
Qed.

Lemma released_nodup key limit k : NoDup (process_table k) -> NoDup (released key limit k).
Proof.
  intros Hnd. unfold released. apply NoDup_alt. intros i j x Hi Hj.
  apply lookup_take_Some in Hi as [Hi _], Hj as [Hj _].
  assert (Hf : NoDup (filter (fun a => waits_on k key a = true) (process_table k))) by (by apply list.NoDup_filter).
  by apply (NoDup_lookup _ i j x Hf).
Qed.

(** C20: the futex.  FUTEX_WAIT returns at once, without sleeping, when the word no longer
    has the expected value, and otherwise leaves the caller blocked on the word's physical
    address.  FUTEX_WAKE makes runnable exactly the first waiters of that word in table
    order, at most [val] of them, returns how many, and touches no other process.  A waiter
    it released returns 0 from its wait with its own return path restored; one that runs
    for another reason, a signal for one, while the word still has the value goes back to
    sleep. *)
Theorem futex_correct uaddr val k me :
  let self := get_current_process k in
  let key := user_v2p (user_cr3 k) uaddr (pm (kvm k)) in
  table_wf k -> pstore k !! self = Some me -> page_directory me <> 0 -> uaddr .& 3 = 0 -> key <> 0 ->
  (ld32 (pm (kvm k)) key <> val ->
     exists k', do_futex uaddr FUTEX_WAIT val k = WReturn 0 None k' /\
       exists me', pstore k' !! self = Some me' /\ state (p_sched me') = PROC_RUN /\ futex_key (p_sched me') = 0) /\
  (ld32 (pm (kvm k)) key = val ->
     exists k' me', do_futex uaddr FUTEX_WAIT val k = WPark k' /\ pstore k' !! self = Some me' /\
       state (p_sched me') = PROC_BLOCKED /\ futex_key (p_sched me') = key /\
       forall b, b <> self -> pstore k' !! b = pstore k !! b) /\
  (exists k', do_futex uaddr FUTEX_WAKE val k = WReturn (Z.of_nat (length (released key (s32 val) k))) None k' /\
     (forall b, pstore k' !! b = if decide (b ∈ released key (s32 val) k) then release_waiter <$> pstore k !! b else pstore k !! b) /\
     (forall w p cr3 rsp v, w ∈ released key (s32 val) k -> pstore k !! w = Some p ->
        exists k2 p2, futex_resume w key v cr3 rsp k' = WReturn 0 None k2 /\ user_cr3 k2 = cr3 /\ user_rsp k2 = rsp /\
          pstore k2 !! w = Some p2 /\ state (p_sched p2) = PROC_RUN)) /\
  (forall w p cr3 rsp, pstore k !! w = Some p -> futex_key (p_sched p) <> 0 -> ld32 (pm (kvm k)) key = val ->
     exists k2 p2, futex_resume w key val cr3 rsp k = WPark k2 /\ pstore k2 !! w = Some p2 /\ state (p_sched p2) = PROC_BLOCKED).
Proof.
  intros self key Hwf Hme Hpd Hal Hkey.
  assert (Hguard : forall op, do_futex uaddr op val k =
    if op =? FUTEX_WAKE then let '(woken, k') := wake_loop (process_table k) key (s32 val) 0 k in WReturn woken None k'
    else if negb (op =? FUTEX_WAIT) then WReturn (-1) None k else futex_check self key val (user_cr3 k) (user_rsp k) k).
  { intros op. unfold do_futex. fold self. rewrite Hme. unfold truthy. rewrite (proj2 (Z.eqb_neq _ _) Hpd), Hal.
    fold key. by rewrite (proj2 (Z.eqb_neq _ _) Hkey). }
  split; [|split; [|split]].
  - intros Hv. rewrite Hguard. simpl. unfold futex_check. rewrite (proj2 (Z.eqb_neq _ _) Hv). simpl. eexists. split; [done|].
    eexists. simpl. rewrite lookup_alter_eq, Hme. done.
  - intros Hv. rewrite Hguard. simpl. unfold futex_check. rewrite Hv, Z.eqb_refl. simpl. eexists _, _. split; [done|].
    split; [by rewrite lookup_upd, decide_True, Hme|]. split; [done|]. split; [done|]. intros b Hb. by rewrite lookup_upd, decide_False.
  - rewrite Hguard. simpl. rewrite wake_loop_spec by apply Hwf. rewrite Z.sub_0_r, Z.add_0_l.
    fold (released key (s32 val) k). eexists. split; [done|].
    assert (Hl : forall b, pstore (foldl (fun k a => upd a release_waiter k) k (released key (s32 val) k)) !! b =
      if decide (b ∈ released key (s32 val) k) then release_waiter <$> pstore k !! b else pstore k !! b).
    { intros b. apply foldl_upd_lookup, released_nodup, Hwf. }
    split; [exact Hl|]. intros w p cr3 rsp v Hw Hp. specialize (Hl w). rewrite decide_True, Hp in Hl by done. simpl in Hl.
    unfold futex_resume. rewrite lookup_upd, decide_True, Hl by done. simpl. eexists _, _. split; [done|]. split; [done|].
    split; [done|]. split; [simpl; rewrite !lookup_alter_eq, Hl; done|]. done.
  - intros w p cr3 rsp Hp Hk Hv. unfold futex_resume. rewrite lookup_upd, decide_True, Hp by done. simpl.
    rewrite (proj2 (Z.eqb_neq _ _) Hk). unfold futex_check. simpl. rewrite Hv, Z.eqb_refl. simpl. eexists _, _. split; [done|].
    split; [simpl; rewrite !lookup_alter_eq, Hp; done|]. done.
Qed.

(** Thread 3 sleeps on the word at [demo_va]; thread 2 runs. *)
Definition demo_thread (id : Z) (f : sched_part -> sched_part) : proc :=
  on_sched f (set_page_directory demo_root (set_pid id zero_proc)).
Definition demo_waiter : proc := demo_thread 3 (fun s => set_futex_key 0x2000 (set_state PROC_BLOCKED s)).
Definition demo_futex : kst :=
  set_user_cr3 demo_root
    (start_kst {[ 32 := demo_thread 2 (set_state PROC_RUN); 48 := demo_waiter ]} [32; 48] demo_vm3).

Lemma futex_correct_witness :
  exists k', do_futex demo_va FUTEX_WAKE 1 demo_futex = WReturn (Z.of_nat 1) None k' /\
    exists k2 p2, futex_resume 48 0x2000 0 11 12 k' = WReturn 0 None k2 /\ user_cr3 k2 = 11 /\ user_rsp k2 = 12 /\
      pstore k2 !! 48 = Some p2 /\ state (p_sched p2) = PROC_RUN.
Proof.
  assert (Ekey : user_v2p (user_cr3 demo_futex) demo_va (pm (kvm demo_futex)) = 0x2000) by (by vm_compute).
  assert (Er : released 0x2000 (s32 1) demo_futex = [48]) by (by vm_compute).
  assert (Hwf : table_wf demo_futex) by (by apply table_wfb_spec; vm_compute).
  pose proof (futex_correct demo_va 1 demo_futex (demo_thread 2 (set_state PROC_RUN)) Hwf eq_refl ltac:(done) eq_refl) as H.
  rewrite Ekey in H. destruct (H ltac:(done)) as (_ & _ & (k' & E & _ & Hres) & _). rewrite Er in E, Hres.
  exists k'. split; [exact E|]. apply (Hres 48 demo_waiter 11 12 0); [by apply list_elem_of_singleton|reflexivity].
Defined.
