(* ===== verification/Mmap.v ===== *)
(** Memory mappings of a process (src/kernel/mmap.c): the table of regions an address space
    reserves, and the system calls that change it.  The table belongs to the leader of the
    thread group.  Pages are not allocated here but on the first touch (Fault.v). *)
From Stdlib Require Import ZArith Lia.
From S2P Require Import Prelude Phys PageAlloc Paging PageTables Process Signal Sched Reap Spawn.

#[local] Arguments Z.testbit : simpl never.

Definition MMAP_BASE : Z := 0x100000000.
Definition MMAP_MAX : Z := 0x700000000000.
Definition MAP_FAILED : Z := 2 ^ 64 - 1.

(** [(length + 0xFFF) & ~0xFFFULL]. *)
Definition round_up (length : Z) : Z := u64 (length + 0xFFF) .& not64 0xFFF.

(** What the mapping code relies on of vfs_pread: it writes only into the buffer. *)
Class FileReader := {
  vfs_pread : Z -> Z -> Z -> Z -> kst -> Z * kst;
  vfs_pread_keeps : forall h buf n off k, exists m,
    (vfs_pread h buf n off k).2 = set_kvm (set_pm m (kvm k)) k /\
    (forall x, x < buf \/ buf + n <= x -> m x = pm (kvm k) x)
}.

Definition in_region (addr : Z) (v : vma) : bool :=
  truthy (v_used v) && (v_start v <=? addr) && (addr <? v_end v).

(** First region of a table that contains [addr]. *)
Definition region_find (l : list vma) (addr : Z) : option vma := snd <$> list_find (fun v => Is_true (in_region addr v)) l.

Definition vma_find (a addr : Z) (k : kst) : option vma :=
  match pstore k !! tg_leader a k with
  | Some p => region_find (mmap_vmas (p_mm p)) addr
  | None => None
  end.

(** First unused slot. *)
Definition free_slot (l : list vma) : option nat := fst <$> list_find (fun v => Is_true (negb (truthy (v_used v)))) l.

Section Mmap.
Context {KH : KernelHeap} {FR : FileReader}.

(** The file snapshot: [None] when it cannot be made. *)
Definition snapshot (file_handle file_size file_off : Z) (k : kst) : option (Z * Z) * kst :=
  if truthy file_handle && (file_off <? file_size) then
    let snap := u32 (file_size - file_off) in
    let '(fb, k) := kmalloc snap k in
    if negb (truthy fb) then (None, k)
    else
      let '(n, k) := vfs_pread file_handle fb snap file_off k in
      if n <? 0 then (None, log_call (CallKfree fb) k) else (Some (fb, snap), k)
  else (Some (0, 0), k).

Definition do_mmap (length prot file_handle file_size file_off : Z) (k : kst) : Z * kst :=
  let a := tg_leader (get_current_process k) k in
  match pstore k !! a with
  | None => (MAP_FAILED, k)
  | Some p =>
      if length =? 0 then (MAP_FAILED, k)
      else
        let length := round_up length in
        let next := if mmap_next (p_mm p) <? MMAP_BASE then MMAP_BASE else mmap_next (p_mm p) in
        let k := upd a (on_mm (set_mmap_next next)) k in
        match free_slot (mmap_vmas (p_mm p)) with
        | None => (MAP_FAILED, k)
        | Some slot =>
            let base := next in
            if (MMAP_MAX <? u64 (base + length)) || (u64 (base + length) <? base) then (MAP_FAILED, k)
            else
              match snapshot file_handle file_size file_off k with
              | (None, k) => (MAP_FAILED, k)
              | (Some (fb, snap), k) =>
                  (base, upd a (on_mm (fun m => set_mmap_vmas (<[slot := Vma base (u64 (base + length)) (u32 prot) 1 fb snap]> (mmap_vmas m))
                                                  (set_mmap_next (u64 (base + length)) m))) k)
              end
        end
  end.
End Mmap.

(** The range check mprotect and munmap share: the rounded range, if acceptable. *)
Definition user_span (addr length : Z) : option (Z * Z) :=
  let addr := addr .& not64 0xFFF in
  let e := u64 (addr + round_up length) in
  if (e <=? addr) || (addr <? USER_SPACE_MIN) || (USER_SPACE_END <? e) then None else Some (addr, e).

Definition overlaps (lo hi : Z) (v : vma) : bool := truthy (v_used v) && (v_start v <? hi) && (lo <? v_end v).
Definition covered (lo hi : Z) (v : vma) : bool := truthy (v_used v) && (lo <=? v_start v) && (v_end v <=? hi).

Definition do_mprotect (addr length prot : Z) (k : kst) : Z * kst :=
  let a := tg_leader (get_current_process k) k in
  match pstore k !! a with
  | None => (-1, k)
  | Some p =>
      if negb (truthy (page_directory p)) || (length =? 0) then (-1, k)
      else
        match user_span addr length with
        | None => (-1, k)
        | Some (lo, hi) =>
            let k := upd a (on_mm (fun m => set_mmap_vmas
                       (map (fun v => if overlaps lo hi v then set_v_prot (u32 prot) v else v) (mmap_vmas m)) m)) k in
            (0, set_kvm (vm_protect_range (page_directory p) lo hi prot (kvm k)) k)
        end
  end.

(** One region at the end of munmap. *)
Definition drop_region (a lo hi i : Z) (k : kst) : kst :=
  match pstore k !! a ≫= (fun p => mmap_vmas (p_mm p) !! Z.to_nat i) with
  | Some v =>
      if covered lo hi v then
        let k := if truthy (v_file_buf v) then log_call (CallKfree (v_file_buf v)) k else k in
        upd a (set_vma (Z.to_nat i) (fun v => set_v_used 0 (if truthy (v_file_buf v) then drop_buf v else v))) k
      else k
  | None => k
  end.

Definition do_munmap (addr length : Z) (k : kst) : Z * kst :=
  let a := tg_leader (get_current_process k) k in
  match pstore k !! a with
  | None => (-1, k)
  | Some p =>
      if negb (truthy (page_directory p)) || (length =? 0) then (-1, k)
      else
        match user_span addr length with
        | None => (-1, k)
        | Some (lo, hi) =>
            let k := set_kvm (vm_free_range (page_directory p) lo hi (kvm k)) k in
            (0, for_range (Z.to_nat PROC_MAX_VMAS) 0 (drop_region a lo hi) k)
        end
  end.

(** * The region table *)

Record regions_ok (m : mm_part) : Prop := {
  ro_next : 0 <= mmap_next m <= MMAP_MAX /\ mmap_next m mod 4096 = 0;
  ro_used : forall v, v ∈ mmap_vmas m -> v_used v <> 0 ->
    MMAP_BASE <= v_start v <= v_end v /\ v_end v <= mmap_next m /\ v_start v mod 4096 = 0 /\ v_end v mod 4096 = 0;
  ro_disj : forall i j v w, mmap_vmas m !! i = Some v -> mmap_vmas m !! j = Some w -> i <> j ->
    v_used v <> 0 -> v_used w <> 0 -> v_end v <= v_start w \/ v_end w <= v_start v
}.

Lemma not_true_false b : ~ Is_true b -> b = false.
Proof. destruct b; [|done]. intros H. by destruct H. Qed.

Lemma region_find_cons v l addr :
  region_find (v :: l) addr = if in_region addr v then Some v else region_find l addr.
Proof.
  unfold region_find. simpl. destruct (decide (Is_true (in_region addr v))) as [H|H].
  - by rewrite (proj1 (Is_true_true _) H).
  - rewrite (not_true_false _ H). by destruct (list_find _ l) as [[]|].
Qed.

Lemma region_find_insert_other l slot v0 n addr :
  l !! slot = Some v0 -> in_region addr v0 = false -> in_region addr n = false ->
  region_find (<[slot := n]> l) addr = region_find l addr.
Proof.
  revert slot. induction l as [|v l IH]; intros [|slot] Hs H0 Hn; simpl in *; try done.
  - injection Hs as ->. by rewrite !region_find_cons, H0, Hn.
  - rewrite !region_find_cons. by rewrite (IH slot).
Qed.

Lemma region_find_insert_new l slot n addr :
  (slot < length l)%nat -> (forall v, v ∈ l -> in_region addr v = false) -> in_region addr n = true ->
  region_find (<[slot := n]> l) addr = Some n.
Proof.
  revert slot. induction l as [|v l IH]; intros [|slot] Hs Hall Hn; simpl in *; try lia.
  - by rewrite region_find_cons, Hn.
  - rewrite region_find_cons, (Hall v) by (by left). apply IH; [lia| |done]. intros w Hw. apply Hall. by right.
Qed.

Lemma free_slot_Some l s : free_slot l = Some s -> exists v, l !! s = Some v /\ v_used v = 0.
Proof.
  unfold free_slot. destruct (list_find _ l) as [[i v]|] eqn:E; [|done]. intros [= <-].
  apply list_find_Some in E as (Hi & Hu & _). exists v. split; [done|]. apply Is_true_true in Hu.
  unfold truthy in Hu. by bool_prop.
Qed.

Lemma free_slot_None l : free_slot l = None -> forall v, v ∈ l -> v_used v <> 0.
Proof.
  unfold free_slot. destruct (list_find _ l) as [[i v]|] eqn:E; [done|]. intros _ v Hv.
  apply list_find_None in E. rewrite Forall_forall in E. apply list_elem_of_In in Hv. specialize (E v Hv).
  apply not_true_false in E. unfold truthy in E. by bool_prop.
Qed.

Lemma round_up_div n : round_up n = u64 (n + 0xFFF) / 4096 * 4096.
Proof. apply (land_not64_pow2 (u64 (n + 0xFFF)) 12); [lia|apply u64_range]. Qed.

Lemma round_up_spec n :
  0 <= n < 2 ^ 64 ->
  round_up n mod 4096 = 0 /\ 0 <= round_up n < 2 ^ 64 /\
  (n + 0xFFF < 2 ^ 64 -> n <= round_up n < n + 4096) /\ (2 ^ 64 <= n + 0xFFF -> round_up n = 0).
Proof.
  intros Hn. rewrite round_up_div. pose proof (u64_range (n + 0xFFF)) as Hr.
  pose proof (Z.div_mod (u64 (n + 0xFFF)) 4096 ltac:(lia)) as Hd. pose proof (Z.mod_pos_bound (u64 (n + 0xFFF)) 4096 ltac:(lia)) as Hm.
  split; [apply Z.mod_mul; lia|]. split; [lia|]. split.
  - intros Hs. rewrite (u64_small (n + 0xFFF)) in * by lia. lia.
  - intros Hb. assert (Ew : u64 (n + 0xFFF) = n + 0xFFF - 2 ^ 64).
    { unfold u64. rewrite <- (Z.mod_small (n + 0xFFF - 2 ^ 64) (2 ^ 64)) by lia.
      rewrite <- (Z.mod_add (n + 0xFFF - 2 ^ 64) 1 (2 ^ 64)) by lia. f_equal. lia. }
    rewrite Ew. rewrite Z.div_small by lia. done.
Qed.

Section MmapCorrect.
Context {KH : KernelHeap} {FR : FileReader}.

(** Taking a snapshot changes no process. *)
Lemma snapshot_pstore fh fs fo k : pstore (snapshot fh fs fo k).2 = pstore k.
Proof.
  unfold snapshot. destruct (_ && _); [|done].
  destruct (kmalloc_keeps (u32 (fs - fo)) k) as (v & E & _). destruct (kmalloc (u32 (fs - fo)) k) as [fb k1] eqn:Ek.
  simpl in E. subst k1. destruct (negb (truthy fb)); [done|].
  destruct (vfs_pread_keeps fh fb (u32 (fs - fo)) fo (set_kvm v k)) as (m & E & _).
  destruct (vfs_pread fh fb (u32 (fs - fo)) fo (set_kvm v k)) as [n k2]. simpl in E. subst k2.
  by destruct (n <? 0).
Qed.

(** A snapshot that is made holds the file from the offset to its end; there is one
    exactly when a file is mapped at an offset inside it. *)
Lemma snapshot_some fh fs fo k fb n k' :
  snapshot fh fs fo k = (Some (fb, n), k') ->
  (truthy fh = true /\ fo < fs /\ fb <> 0 /\ n = u32 (fs - fo)) \/ (~ (truthy fh = true /\ fo < fs) /\ fb = 0 /\ n = 0).
Proof.
  unfold snapshot. destruct (truthy fh) eqn:Et; simpl andb; cbv iota.
  2:{ intros [= <- <- _]. right. split; [by intros []|done]. }
  destruct (Z.ltb_spec fo fs).
  2:{ intros [= <- <- _]. right. split; [intros []; lia|done]. }
  destruct (kmalloc _ k) as [b k1]. destruct (truthy b) eqn:Eb; simpl negb; cbv iota; [|done].
  destruct (vfs_pread _ _ _ _ k1) as [c k2]. destruct (c <? 0); [done|]. intros [= <- <- _].
  left. unfold truthy in Eb. bool_prop. done.
Qed.
End MmapCorrect.

(** A region table one region richer, the new region lying past every other. *)
Lemma regions_ok_insert m slot v0 v n :
  regions_ok m -> mmap_vmas m !! slot = Some v0 -> v_used v0 = 0 ->
  mmap_next m <= v_start v -> MMAP_BASE <= v_start v <= v_end v -> v_end v = n ->
  v_start v mod 4096 = 0 -> n mod 4096 = 0 -> n <= MMAP_MAX ->
  regions_ok (set_mmap_vmas (<[slot := v]> (mmap_vmas m)) (set_mmap_next n m)).
Proof.
  intros [Hn Hu Hd] Hs Hv0 Hle Hb <- Ha1 Ha2 Hmax. split; cbn [mmap_vmas mmap_next set_mmap_vmas set_mmap_next]; unfold MMAP_BASE in *.
  - lia.
  - intros w Hw Huw. apply list_elem_of_lookup in Hw as [j Hj].
    destruct (decide (slot = j)) as [<-|Hne].
    + rewrite list_lookup_insert_eq in Hj by (by eapply lookup_lt_Some). injection Hj as <-. lia.
    + rewrite list_lookup_insert_ne in Hj by done. apply list_elem_of_lookup_2 in Hj. specialize (Hu w Hj Huw). lia.
  - assert (Hins : forall i w, <[slot:=v]> (mmap_vmas m) !! i = Some w -> v_used w <> 0 ->
        (i = slot /\ w = v) \/ (i <> slot /\ mmap_vmas m !! i = Some w /\ v_end w <= mmap_next m)).
    { intros i w Hi Huw. destruct (decide (slot = i)) as [<-|Hne].
      - rewrite list_lookup_insert_eq in Hi by (by eapply lookup_lt_Some). injection Hi as <-. by left.
      - rewrite list_lookup_insert_ne in Hi by done. right. split; [done|]. split; [done|].
        by apply (Hu w (list_elem_of_lookup_2 _ _ _ Hi) Huw). }
    intros i j x y Hi Hj Hij Hux Huy.
    destruct (Hins _ _ Hi Hux) as [[-> ->]|(? & Hi' & ?)], (Hins _ _ Hj Huy) as [[-> ->]|(? & Hj' & ?)]; [done|lia|lia|].
    by apply (Hd i j).
Qed.

(** A region table in which regions were only dropped or re-protected. *)
Lemma regions_ok_map m f :
  (forall v, v_used (f v) <> 0 -> v_used v <> 0 /\ v_start (f v) = v_start v /\ v_end (f v) = v_end v) ->
  regions_ok m -> regions_ok (set_mmap_vmas (map f (mmap_vmas m)) m).
Proof.
  intros Hf [Hn Hu Hd]. split; simpl; [done| |].
  - intros v Hv Huv. apply list_elem_of_fmap in Hv as (w & -> & Hw). destruct (Hf w Huv) as (? & -> & ->). by apply Hu.
  - intros i j v w Hi Hj Hij Huv Huw. apply list_lookup_fmap_Some in Hi as (v0 & -> & Hi).
    apply list_lookup_fmap_Some in Hj as (w0 & -> & Hj).
    destruct (Hf v0 Huv) as (? & -> & ->), (Hf w0 Huw) as (? & -> & ->). by apply (Hd i j).
Qed.

Lemma in_region_empty v addr : v_used v = 0 -> in_region addr v = false.
Proof. unfold in_region, truthy. by intros ->. Qed.

Lemma in_region_true v addr : in_region addr v = true <-> v_used v <> 0 /\ v_start v <= addr < v_end v.
Proof. unfold in_region, truthy. rewrite !andb_true_iff, negb_true_iff, Z.eqb_neq, Z.leb_le, Z.ltb_lt. tauto. Qed.

Lemma region_find_in l addr v : region_find l addr = Some v -> v ∈ l /\ v_used v <> 0 /\ v_start v <= addr < v_end v.
Proof.
  unfold region_find. destruct (list_find _ l) as [[i w]|] eqn:El; [|done]. simpl. intros [= ->].
  apply list_find_Some in El as (Hi & Hin & _). split; [by eapply list_elem_of_lookup_2|].
  by apply in_region_true, Is_true_true.
Qed.

(** Looking an address up after a region past every other was added. *)
Lemma region_find_fresh m slot v0 v x :
  regions_ok m -> mmap_vmas m !! slot = Some v0 -> v_used v0 = 0 -> v_used v = 1 -> mmap_next m <= v_start v ->
  region_find (<[slot := v]> (mmap_vmas m)) x =
    if (v_start v <=? x) && (x <? v_end v) then Some v else region_find (mmap_vmas m) x.
Proof.
  intros Hok Hs Hv0 Hv Hle. destruct ((v_start v <=? x) && (x <? v_end v)) eqn:E.
  - apply region_find_insert_new; [by eapply lookup_lt_Some| |unfold in_region; by rewrite Hv].
    intros w Hw. destruct (in_region x w) eqn:Ew; [|done]. apply in_region_true in Ew as [Hu Hx].
    apply andb_true_iff in E as [E _]. apply Z.leb_le in E. pose proof (ro_used _ Hok w Hw Hu). lia.
  - apply (region_find_insert_other _ _ v0); [done|by apply in_region_empty|]. unfold in_region. by rewrite Hv.
Qed.

Lemma regions_ok_next m n : regions_ok m -> mmap_next m <= n <= MMAP_MAX -> n mod 4096 = 0 -> regions_ok (set_mmap_next n m).
Proof.
  intros [H1 H2 H3] Hn Ha. split; simpl; [lia| |done]. intros v Hv Hu. specialize (H2 v Hv Hu). lia.
Qed.

Section MmapCorrect2.
Context {KH : KernelHeap} {FR : FileReader}.

(** C17: mmap reserves a fresh range of the caller's address space.  When the region table of
    the caller's thread group is well formed (page aligned, disjoint regions inside the mmap
    window, all below the allocation cursor), SYS_MMAP either fails and leaves every region
    as it was, or returns a page-aligned base in the window whose range of the rounded-up
    length is exactly one new region with the requested protection and, for a file mapped
    inside its size, a snapshot buffer of the rest of the file: addresses in the range resolve
    to the new region and every other address resolves as before.  The table stays well
    formed.  The length is rounded up by less than a page, except that lengths within a page of
    2^64 round to nothing. *)
Theorem mmap_correct k p length prot fh fs fo r k' :
  pstore k !! tg_leader (get_current_process k) k = Some p -> regions_ok (p_mm p) -> 0 <= length < 2 ^ 64 ->
  do_mmap length prot fh fs fo k = (r, k') ->
  exists p', pstore k' !! tg_leader (get_current_process k) k = Some p' /\ regions_ok (p_mm p') /\
    ((r = MAP_FAILED /\ mmap_vmas (p_mm p') = mmap_vmas (p_mm p)) \/
     exists v, v ∈ mmap_vmas (p_mm p') /\ v_used v = 1 /\ v_start v = r /\ v_end v = r + round_up length /\ v_prot v = u32 prot /\
       ((truthy fh = true /\ fo < fs /\ v_file_buf v <> 0 /\ v_file_size v = u32 (fs - fo)) \/
        (~ (truthy fh = true /\ fo < fs) /\ v_file_buf v = 0 /\ v_file_size v = 0)) /\
       MMAP_BASE <= r /\ mmap_next (p_mm p) <= r /\ r mod 4096 = 0 /\ r + round_up length <= MMAP_MAX /\
       (length + 0xFFF < 2 ^ 64 -> length <= round_up length < length + 4096) /\
       (2 ^ 64 <= length + 0xFFF -> round_up length = 0) /\
       forall x, region_find (mmap_vmas (p_mm p')) x =
                 if (r <=? x) && (x <? r + round_up length) then Some v else region_find (mmap_vmas (p_mm p)) x).
Proof.
  set (a := tg_leader _ _). intros Hp Hok Hl. unfold do_mmap. fold a. rewrite Hp.
  destruct (Z.eqb_spec length 0); [intros [= <- <-]; exists p; split; [done|]; split; [done|by left]|].
  set (next := if _ <? _ then _ else _).
  assert (Hnx : MMAP_BASE <= next /\ mmap_next (p_mm p) <= next <= MMAP_MAX /\ next mod 4096 = 0).
  { destruct (ro_next _ Hok) as [[]]. subst next. destruct (Z.ltb_spec (mmap_next (p_mm p)) MMAP_BASE); [|done].
    unfold MMAP_BASE, MMAP_MAX in *. repeat split; lia. }
  clearbody next. destruct Hnx as (Hn1 & Hn2 & Hn3). set (k0 := upd a _ k).
  pose proof (regions_ok_next _ next Hok Hn2 Hn3) as Hok0.
  assert (Hk0 : pstore k0 !! a = Some (on_mm (set_mmap_next next) p)) by (unfold k0; by rewrite lookup_upd, decide_True, Hp).
  clearbody k0. pose proof (round_up_spec length Hl) as (Hr1 & Hr2 & Hr3 & Hr4).
  assert (Hfail : forall k1, pstore k1 = pstore k0 -> (MAP_FAILED, k1) = (r, k') -> exists p', pstore k' !! a = Some p' /\
     regions_ok (p_mm p') /\ (r = MAP_FAILED /\ mmap_vmas (p_mm p') = mmap_vmas (p_mm p))).
  { intros k1 H1 [= <- <-]. exists (on_mm (set_mmap_next next) p). by rewrite H1. }
  destruct (free_slot _) as [slot|] eqn:Es; [|intros E; destruct (Hfail k0 eq_refl E) as (q & ? & ? & ?); exists q; auto].
  destruct (_ || _) eqn:Eb; [intros E; destruct (Hfail k0 eq_refl E) as (q & ? & ? & ?); exists q; auto|].
  apply orb_false_iff in Eb as [Eb1 Eb2]. apply Z.ltb_ge in Eb1, Eb2.
  pose proof (snapshot_pstore fh fs fo k0) as Hps.
  destruct (snapshot fh fs fo k0) as [[[fb snap]|] k1] eqn:Esn; simpl in Hps;
    [|intros E; destruct (Hfail k1 Hps E) as (q & ? & ? & ?); exists q; auto].
  clear Hfail. intros [= <- <-]. apply snapshot_some in Esn. apply free_slot_Some in Es as (v0 & Hs & Hu0).
  assert (Ew : u64 (next + round_up length) = next + round_up length).
  { apply u64_small. unfold u64, MMAP_MAX, MMAP_BASE in *. pose proof (Z.mod_pos_bound (next + round_up length) (2 ^ 64) ltac:(lia)).
    destruct (Z.lt_ge_cases (next + round_up length) (2 ^ 64)); [lia|]. exfalso.
    rewrite <- (Z.mod_add _ (-1)) in Eb2 by lia. rewrite Z.mod_small in Eb2 by lia. lia. }
  rewrite Ew in *. set (v := Vma _ _ _ _ _ _). rewrite lookup_upd, decide_True, Hps, Hk0 by done. simpl.
  eexists. split; [reflexivity|]. cbn [p_mm on_mm set_p_mm mmap_vmas set_mmap_vmas set_mmap_next].
  assert (Hlen : (slot < Datatypes.length (mmap_vmas (p_mm p)))%nat) by (by eapply lookup_lt_Some).
  split.
  - apply (regions_ok_insert (set_mmap_next next (p_mm p)) slot v0); simpl; try done; try lia. rewrite Z.add_mod, Hn3, Hr1 by lia. done.
  - right. exists v. split; [by apply list_elem_of_insert|]. do 4 (split; [done|]). split; [exact Esn|].
    split; [exact Hn1|]. split; [lia|]. split; [exact Hn3|]. split; [exact Eb1|]. split; [exact Hr3|]. split; [exact Hr4|].
    intros x. by rewrite (region_find_fresh (p_mm p) slot v0) by (done || simpl; lia).
Qed.
End MmapCorrect2.

(** What munmap of the range leaves of a region, and the buffer it releases. *)
Definition cut (lo hi : Z) (v : vma) : vma :=
  if covered lo hi v then set_v_used 0 (if truthy (v_file_buf v) then drop_buf v else v) else v.
Definition cut_frees (lo hi : Z) (v : vma) : list kcall :=
  if covered lo hi v && truthy (v_file_buf v) then [CallKfree (v_file_buf v)] else [].

(** The state after [n] regions were examined. *)
Definition cut_upto (a lo hi n : Z) (p : proc) (k k' : kst) : Prop :=
  let l := mmap_vmas (p_mm p) in
  pstore k' = <[a := on_mm (set_mmap_vmas (map (cut lo hi) (take (Z.to_nat n) l) ++ drop (Z.to_nat n) l)) p]> (pstore k) /\
  calls k' = calls k ++ (take (Z.to_nat n) l ≫= cut_frees lo hi) /\ kvm k' = kvm k.

Lemma drop_region_step a lo hi n p k k' :
  0 <= n < Z.of_nat (length (mmap_vmas (p_mm p))) ->
  cut_upto a lo hi n p k k' -> cut_upto a lo hi (n + 1) p k (drop_region a lo hi n k').
Proof.
  intros Hn (Hs & Hc & Hv). set (l := mmap_vmas (p_mm p)) in *.
  destruct (lookup_lt_is_Some_2 l (Z.to_nat n) ltac:(lia)) as [v Hl].
  assert (Ht : take (Z.to_nat (n + 1)) l = take (Z.to_nat n) l ++ [v]).
  { replace (Z.to_nat (n + 1)) with (S (Z.to_nat n)) by lia. by apply take_S_r. }
  assert (Hd : drop (Z.to_nat n) l = v :: drop (Z.to_nat (n + 1)) l).
  { replace (Z.to_nat (n + 1)) with (S (Z.to_nat n)) by lia. by apply drop_S. }
  assert (Hlen : length (map (cut lo hi) (take (Z.to_nat n) l)) = Z.to_nat n) by (rewrite length_map, length_take; lia).
  unfold drop_region. rewrite Hs, lookup_insert_eq. cbn [mbind option_bind p_mm on_mm set_p_mm mmap_vmas set_mmap_vmas].
  rewrite lookup_app_r, Hlen, Nat.sub_diag, Hd by lia. cbn [lookup list_lookup]. unfold cut_upto. fold l. rewrite Ht, map_app, bind_app.
  cbn [map mbind list_bind]. rewrite app_nil_r, <- !app_assoc. cbn [app].
  destruct (covered lo hi v) eqn:Ecov; unfold cut at 2, cut_frees at 2; rewrite Ecov; simpl andb.
  2:{ split; [by rewrite Hs, Hd|]. split; [by rewrite app_nil_r|done]. }
  destruct (truthy (v_file_buf v)) eqn:Eb; unfold upd; simpl; rewrite Hs, alter_insert_eq, Hc;
    (split; [|split; [by rewrite <- ?app_assoc, ?app_nil_r|done]]); f_equal; unfold set_vma, on_mm; simpl;
    rewrite Hd; unfold set_p_mm, set_mmap_vmas; simpl; do 2 f_equal; rewrite <- Hlen at 1;
    rewrite <- (Nat.add_0_r (length _)) at 1; rewrite alter_app_r; simpl; by rewrite Eb.
Qed.

Lemma munmap_regions a lo hi p k :
  pstore k !! a = Some p -> length (mmap_vmas (p_mm p)) = Z.to_nat PROC_MAX_VMAS ->
  let k' := for_range (Z.to_nat PROC_MAX_VMAS) 0 (drop_region a lo hi) k in
  pstore k' = <[a := on_mm (set_mmap_vmas (map (cut lo hi) (mmap_vmas (p_mm p)))) p]> (pstore k) /\
  calls k' = calls k ++ (mmap_vmas (p_mm p) ≫= cut_frees lo hi) /\ kvm k' = kvm k.
Proof.
  intros Hp Hlen. cbv zeta.
  assert (cut_upto a lo hi (0 + Z.of_nat (Z.to_nat PROC_MAX_VMAS)) p k
            (for_range (Z.to_nat PROC_MAX_VMAS) 0 (drop_region a lo hi) k)) as (H1 & H2 & H3).
  { apply (for_range_ind (fun n => cut_upto a lo hi n p k)).
    - split; [|by rewrite app_nil_r]. symmetry. apply insert_id. rewrite Hp. f_equal.
      by destruct p as [? ? ? ? ? ? ? ? []].
    - intros i s Hi. apply drop_region_step. lia. }
  set (k' := for_range _ _ _ _) in *. clearbody k'. rewrite <- Hlen, Z.add_0_l, Nat2Z.id, firstn_all in H1, H2. rewrite drop_ge, app_nil_r in H1 by done. done.
Qed.

(** Looking an address up in a table of disjoint regions after a range was cut out. *)
Lemma region_find_cut l lo hi x :
  (forall i j v w, l !! i = Some v -> l !! j = Some w -> in_region x v = true -> in_region x w = true -> i = j) ->
  region_find (map (cut lo hi) l) x = match region_find l x with
                                      | Some v => if covered lo hi v then None else Some v
                                      | None => None
                                      end.
Proof.
  assert (Hc : forall v, in_region x (cut lo hi v) = in_region x v && negb (covered lo hi v)).
  { intros v. unfold cut. destruct (covered lo hi v); [|by rewrite andb_true_r].
    rewrite andb_false_r. by apply in_region_empty. }
  assert (Hnone : forall l, (forall v, v ∈ l -> in_region x v = false) -> region_find (map (cut lo hi) l) x = None).
  { intros l0. induction l0 as [|w l' IH]; [done|]. intros Hw. simpl. rewrite region_find_cons, Hc, (Hw w) by (by left). simpl.
    apply IH. intros v Hv. apply Hw. by right. }
  induction l as [|w l IH]; [done|]. intros Hu. simpl. rewrite !region_find_cons, Hc.
  destruct (in_region x w) eqn:Ew; simpl.
  - destruct (covered lo hi w) eqn:Ecov; simpl; [|unfold cut; by rewrite Ecov].
    apply Hnone. intros v Hv. apply list_elem_of_lookup in Hv as [i Hi]. destruct (in_region x v) eqn:Ev; [|done].
    by specialize (Hu 0%nat (S i) w v eq_refl Hi Ew Ev).
  - apply IH. intros i j v v' Hi Hj Hv Hv'. specialize (Hu (S i) (S j) v v' Hi Hj Hv Hv'). by injection Hu.
Qed.

Lemma region_unique m x i j v w :
  regions_ok m -> mmap_vmas m !! i = Some v -> mmap_vmas m !! j = Some w -> in_region x v = true -> in_region x w = true -> i = j.
Proof.
  intros Hok Hi Hj Hv Hw. apply in_region_true in Hv as [Uv Hv], Hw as [Uw Hw]. destruct (decide (i = j)) as [|Hne]; [done|].
  destruct (ro_disj _ Hok i j v w Hi Hj Hne Uv Uw); lia.
Qed.

(** A range mprotect and munmap accept is page aligned, not empty and inside user space. *)
Lemma user_span_spec addr len lo hi :
  user_span addr len = Some (lo, hi) ->
  lo = addr .& not64 0xFFF /\ hi = u64 (lo + round_up len) /\ USER_SPACE_MIN <= lo < hi /\ hi <= USER_SPACE_END.
Proof.
  unfold user_span. destruct (_ || _) eqn:E; [done|]. intros [= <- <-].
  apply orb_false_iff in E as [E E3]. apply orb_false_iff in E as [E1 E2].
  apply Z.leb_gt in E1. apply Z.ltb_ge in E2, E3. done.
Qed.

(** Munmap releases exactly what the range covers.  For a process whose region table is
    well formed, SYS_MUNMAP refuses (and changes nothing) unless the process has an address
    space and the page-rounded range is a non-empty range of user space; otherwise it
    frees the pages of the range, drops every region lying inside the range and no other
    (an address resolves as before unless its region was dropped), frees the file snapshot
    of each dropped region once, touches no other process and keeps the table well formed. *)
Theorem munmap_correct k p addr len r k' :
  let a := tg_leader (get_current_process k) k in
  pstore k !! a = Some p -> regions_ok (p_mm p) -> length (mmap_vmas (p_mm p)) = Z.to_nat PROC_MAX_VMAS ->
  do_munmap addr len k = (r, k') ->
  (r = -1 /\ k' = k /\ (page_directory p = 0 \/ len = 0 \/ user_span addr len = None)) \/
  exists lo hi p', r = 0 /\ user_span addr len = Some (lo, hi) /\ pstore k' = <[a := p']> (pstore k) /\
    kvm k' = vm_free_range (page_directory p) lo hi (kvm k) /\
    regions_ok (p_mm p') /\ p' = on_mm (set_mmap_vmas (mmap_vmas (p_mm p'))) p /\
    (forall x, region_find (mmap_vmas (p_mm p')) x =
       match region_find (mmap_vmas (p_mm p)) x with
       | Some v => if (lo <=? v_start v) && (v_end v <=? hi) then None else Some v
       | None => None
       end) /\
    calls k' = calls k ++ (mmap_vmas (p_mm p) ≫= cut_frees lo hi).
Proof.
  intros a Hp Hok Hlen. unfold do_munmap. fold a. rewrite Hp.
  destruct (negb (truthy (page_directory p)) || (len =? 0)) eqn:Eg.
  { intros [= <- <-]. left. split; [done|]. split; [done|]. unfold truthy in Eg. rewrite negb_involutive in Eg.
    apply orb_true_iff in Eg as [Eg|Eg]; apply Z.eqb_eq in Eg; auto. }
  destruct (user_span addr len) as [[lo hi]|] eqn:Es; [|intros [= <- <-]; left; auto].
  set (k1 := set_kvm _ k). pose proof (munmap_regions a lo hi p k1 Hp Hlen) as H. cbv zeta in H |- *.
  set (k2 := for_range _ _ _ _) in *. clearbody k2. destruct H as (H1 & H2 & H3). intros [= <- <-]. right.
  exists lo, hi, (on_mm (set_mmap_vmas (map (cut lo hi) (mmap_vmas (p_mm p)))) p).
  split; [done|]. split; [done|]. split; [exact H1|]. split; [exact H3|]. split.
  { apply regions_ok_map; [|done]. intros v. unfold cut. destruct (covered lo hi v); [done|tauto]. }
  split; [done|]. split; [|exact H2]. intros x. simpl mmap_vmas. rewrite region_find_cut.
  2:{ intros i j v w Hi Hj. by apply (region_unique (p_mm p)). }
  destruct (region_find (mmap_vmas (p_mm p)) x) as [v|] eqn:Ef; [|done].
  destruct (region_find_in _ _ _ Ef) as (_ & Hu & _). unfold covered, truthy. by rewrite (proj2 (Z.eqb_neq _ _) Hu).
Qed.

Lemma mprotect_regions k p addr len prot r k' :
  let a := tg_leader (get_current_process k) k in
  pstore k !! a = Some p -> regions_ok (p_mm p) -> do_mprotect addr len prot k = (r, k') ->
  (r = -1 /\ k' = k) \/
  exists lo hi p', r = 0 /\ user_span addr len = Some (lo, hi) /\ pstore k' !! a = Some p' /\ regions_ok (p_mm p') /\
    kvm k' = vm_protect_range (page_directory p) lo hi prot (kvm k) /\
    forall i v, mmap_vmas (p_mm p) !! i = Some v -> overlaps lo hi v = true ->
      mmap_vmas (p_mm p') !! i = Some (set_v_prot (u32 prot) v).
Proof.
  intros a Hp Hok. unfold do_mprotect. fold a. rewrite Hp. destruct (_ || _); [intros [= <- <-]; by left|].
  destruct (user_span addr len) as [[lo hi]|]; [|intros [= <- <-]; by left]. intros [= <- <-]. right.
  do 2 eexists. eexists. split; [done|]. split; [done|]. split; [simpl; rewrite lookup_alter_eq, Hp; reflexivity|].
  split; [|split; [done|]].
  - apply (regions_ok_map (p_mm p)); [|done]. intros v. destruct (overlaps lo hi v); done.
  - intros i v Hi Ho. simpl. apply list_lookup_fmap_Some. exists v. rewrite Ho. done.
Qed.

(** A mapping of a page within a page of 2^64 is handed out empty. *)
Lemma mmap_length_wraps : round_up (2 ^ 64 - 1) = 0.
Proof. done. Qed.

(** * A process mapping and unmapping memory *)

Definition demo_reader : FileReader.
Proof.
  refine {| vfs_pread := fun h buf n off k => (n, k) |}.
  intros h buf n off k. exists (pm (kvm k)). split; [|done]. by destruct k as [? ? ? ? ? ? ? ? ? ? ? ? ? ? ? ? ? ? ? ? []].
Defined.

Lemma fresh_regions_ok p : p_mm p = zero_mm -> regions_ok (p_mm p).
Proof.
  intros ->. split; simpl; [done| |].
  - intros v Hv. assert (v = zero_vma) as -> by (by apply (elem_of_replicate_inv v 16 zero_vma)). done.
  - intros i j v w Hi _ _ Hu. apply (lookup_replicate_1 16) in Hi as [-> _]. done.
Qed.

Definition demo_mapper : proc := on_sched (set_state PROC_RUN) (set_page_directory demo_root (set_pid 1 zero_proc)).
Definition demo_mapping : kst := start_kst {[ 16 := demo_mapper ]} [16] demo_vm3.

Lemma mmap_correct_witness :
  exists p', pstore (@do_mmap demo_kheap demo_reader 5000 3 0 0 0 demo_mapping).2 !! 16 = Some p' /\ regions_ok (p_mm p') /\
    exists v, region_find (mmap_vmas (p_mm p')) (MMAP_BASE + 8191) = Some v /\ v_prot v = 3.
Proof.
  destruct (@mmap_correct demo_kheap demo_reader demo_mapping demo_mapper 5000 3 0 0 0 _ _ eq_refl
    (fresh_regions_ok demo_mapper eq_refl) ltac:(lia) (surjective_pairing (@do_mmap demo_kheap demo_reader 5000 3 0 0 0 demo_mapping)))
    as (p' & Hp & Hok & [[E _]|(v & _ & _ & _ & _ & Hprot & _ & _ & _ & _ & _ & _ & _ & Hfind)]).
  - vm_compute in E. done.
  - exists p'. split; [exact Hp|]. split; [exact Hok|]. exists v. rewrite Hfind. split; [reflexivity|exact Hprot].
Defined.

Lemma demo_mapping_leader : tg_leader (get_current_process demo_mapping) demo_mapping = 16.
Proof. done. Qed.
Lemma demo_mapping_lookup : pstore demo_mapping !! 16 = Some demo_mapper.
Proof. done. Qed.
Lemma demo_mapping_vm : kvm demo_mapping = demo_vm3.
Proof. done. Qed.

#[local] Opaque do_munmap vm_free_range demo_mapping.

Lemma munmap_correct_witness :
  exists p', pstore (do_munmap 0x400000 4096 demo_mapping).2 !! 16 = Some p' /\ regions_ok (p_mm p') /\
    kvm (do_munmap 0x400000 4096 demo_mapping).2 = vm_free_range demo_root 0x400000 0x401000 demo_vm3.
Proof.
  destruct (do_munmap 0x400000 4096 demo_mapping) as [r k'] eqn:E.
  pose proof (munmap_correct demo_mapping demo_mapper 0x400000 4096 r k') as H. cbv zeta in H.
  rewrite demo_mapping_leader in H.
  specialize (H demo_mapping_lookup (fresh_regions_ok demo_mapper eq_refl) eq_refl E). rewrite demo_mapping_vm in H.
  destruct H as [(_ & _ & [Hf|[Hf|Hf]])|(lo & hi & p' & _ & Es & H)].
  1-3: vm_compute in Hf; done.
  change (user_span 0x400000 4096) with (Some (0x400000, 0x401000)) in Es. injection Es as <- <-.
  exists p'. cbn [snd]. destruct H as (Hp & Hv & Hok & _).
  split; [rewrite Hp; by rewrite lookup_insert_eq|]. split; [exact Hok|exact Hv].
Defined.
