(* ===== verification/Fault.v ===== *)
(** Page faults (vm_handle_fault and the fault-path helpers of src/kernel/paging.c): demand
    allocation of heap, mapped and stack pages, and copy-on-write.  A fault is given by the
    faulting address and the error code the processor pushed (bit 0 the page was present,
    bit 1 a write, bit 2 from user mode); the result is 1 when the instruction can be
    retried and 0 when the fault is genuine, [None] when the page-table code panics. *)
From Stdlib Require Import ZArith Lia.
From S2P Require Import Prelude Phys PageAlloc Paging PageTables CowClone Process Signal Sched Reap Spawn Mmap.

#[local] Arguments Z.testbit : simpl never.
#[local] Arguments Z.mul : simpl never.

Definition USER_STACK_MAX_PAGES : Z := 128.
Definition USER_STACK_LOW : Z := USER_STACK_TOP - (USER_STACK_MAX_PAGES - 1) * PAGE_SIZE.

Definition err_present (err : Z) : bool := truthy (err .& 0x1).
Definition err_write (err : Z) : bool := truthy (err .& 0x2).
Definition err_user (err : Z) : bool := truthy (err .& 0x4).

(** The page-table root the fault is resolved in. *)
Definition fault_space (err : Z) (k : kst) : Z :=
  match pstore k !! get_current_process k with
  | Some p => if err_user err && truthy (page_directory p) then page_directory p else current_pml4 (kvm k)
  | None => current_pml4 (kvm k)
  end.

(** A fresh zeroed page, mapped user, writable and not executable (heap and stack). *)
Definition fault_zero_page (pml4 cr2 : Z) (s : vm) : option (Z * vm) :=
  let '(page, s) := page_alloc s in
  if negb (truthy page) then Some (0, s)
  else
    match map_page_dir pml4 page (cr2 .& not64 0xFFF) (0x7 .| PAGE_NX) (zero_page page s) with
    | Some s => Some (1, count_demand (invlpg cr2 s))
    | None => None
    end.

(** The part of the file snapshot that belongs to a page. *)
Definition copy_slice (v : vma) (page cr2 : Z) (s : vm) : vm :=
  if truthy (v_file_buf v) then
    let off := u64 ((cr2 .& not64 0xFFF) - v_start v) in
    if off <? v_file_size v then
      let n := if v_file_size v <? off + PAGE_SIZE then u32 (v_file_size v - u32 off) else PAGE_SIZE in
      set_pm (copy (pm s) page (v_file_buf v + off) n) s
    else s
  else s.

Definition vma_flags (prot : Z) : Z :=
  let f := PAGE_PRESENT .| PAGE_USER in
  let f := if truthy (prot .& PROT_WRITE) then f .| PAGE_WRITABLE else f in
  if negb (truthy (prot .& PROT_EXEC)) then f .| PAGE_NX else f.

Definition fault_vma (v : vma) (pml4 cr2 : Z) (s : vm) : Z * vm :=
  let '(mpte, s) := pte_ptr pml4 cr2 true s in
  if negb (truthy mpte) then (0, s)
  else
    let '(page, s) := page_alloc s in
    if negb (truthy page) then (0, s)
    else
      let s := copy_slice v page cr2 (zero_page page s) in
      (1, count_demand (invlpg cr2 (pte_set mpte ((page .& PTE_ADDR_MASK) .| vma_flags (v_prot v)) s))).

(** The entry a resolved fault installs for [page] in place of [e]. *)
Definition private_entry (page e : Z) : Z :=
  page .| PAGE_PRESENT .| PAGE_WRITABLE .| (e .& PAGE_USER) .| (e .& PAGE_NX).

Definition fault_demand (pte e cr2 : Z) (s : vm) : Z * vm :=
  let '(page, s) := page_alloc s in
  if negb (truthy page) then (0, s)
  else (1, count_demand (invlpg cr2 (pte_set pte (private_entry (page .& PTE_ADDR_MASK) e) (zero_page page s)))).

Definition fault_cow (pte e cr2 : Z) (s : vm) : Z * vm :=
  let old := e .& PTE_ADDR_MASK in
  if page_get_refcount old (pa s) <=? 1 then
    (1, count_cow (tlb_shootdown cr2 (pte_set pte (private_entry old e) s)))
  else
    let '(newp, s) := page_alloc s in
    if negb (truthy newp) then (0, s)
    else
      let s := page_release old (set_pm (copy (pm s) newp old PAGE_SIZE) s) in
      (1, count_cow (tlb_shootdown cr2 (pte_set pte (private_entry (newp .& PTE_ADDR_MASK) e) s))).

(** The entry of an existing table: demand-zero, copy-on-write or a genuine fault. *)
Definition fault_leaf (pml4 cr2 err : Z) (s : vm) : Z * vm :=
  let '(pte, s) := pte_ptr pml4 cr2 false s in
  if negb (truthy pte) then (0, s)
  else
    let e := pte_get pte s in
    if negb (err_present err) && truthy (e .& PTE_DEMAND) then fault_demand pte e cr2 s
    else if err_present err && err_write err && present e && truthy (e .& PTE_COW) then fault_cow pte e cr2 s
    else (0, s).

Definition heap_window (cr2 : Z) (mm : proc) : bool :=
  (USER_SPACE_MIN <=? heap_start (p_mm mm)) && (heap_start (p_mm mm) <? program_break (p_mm mm)) &&
  (heap_start (p_mm mm) <=? cr2) && (cr2 <? program_break (p_mm mm)).

Definition in_stack_window (cr2 : Z) : bool := (USER_STACK_LOW <=? cr2) && (cr2 <? USER_STACK_TOP + PAGE_SIZE).
Definition in_stack_guard (cr2 : Z) : bool := (USER_STACK_LOW - PAGE_SIZE <=? cr2) && (cr2 <? USER_STACK_LOW).

(** The blocks for a user fault on a page that is not present, in order: the thread group's
    heap, its mapped regions, the stack.  [None]: none of them applies. *)
Definition fault_absent (pml4 cr2 cur : Z) (k : kst) : option (option (Z * vm)) :=
  let in_heap := match pstore k !! tg_leader cur k with Some mm => heap_window cr2 mm | None => false end in
  if in_heap then Some (fault_zero_page pml4 cr2 (kvm k))
  else
    match vma_find cur cr2 k with
    | Some v => Some (Some (fault_vma v pml4 cr2 (kvm k)))
    | None => if in_stack_window cr2 then Some (fault_zero_page pml4 cr2 (kvm k)) else None
    end.

Definition vm_handle_fault (cr2 err : Z) (k : kst) : option (Z * kst) :=
  let cur := get_current_process k in
  let pml4 := fault_space err k in
  let lift (r : option (Z * vm)) := match r with Some (r, v) => Some (r, set_kvm v k) | None => None end in
  if negb (truthy pml4) then Some (0, k)
  else
    let leaf_part :=
      match pstore k !! cur with
      | Some _ => if err_user err && in_stack_guard cr2 then Some (0, k) else lift (Some (fault_leaf pml4 cr2 err (kvm k)))
      | None => lift (Some (fault_leaf pml4 cr2 err (kvm k)))
      end in
    match pstore k !! cur with
    | Some p =>
        if err_user err && negb (err_present err) && truthy (page_directory p) then
          match fault_absent pml4 cr2 cur k with
          | Some r => lift r
          | None => leaf_part
          end
        else leaf_part
    | None => leaf_part
    end.

(** The helpers the copy-on-write self test uses on the current address space. *)
Definition vm_map_demand (virt : Z) (s : vm) : Z * vm :=
  let '(pte, s) := pte_ptr (current_pml4 s) virt true s in
  if negb (truthy pte) then (-1, s) else (0, invlpg virt (pte_set pte PTE_DEMAND s)).

Definition vm_map_cow (virt phys : Z) (s : vm) : Z * vm :=
  let '(pte, s) := pte_ptr (current_pml4 s) virt true s in
  if negb (truthy pte) then (-1, s)
  else
    let s := pte_set pte ((phys .& PTE_ADDR_MASK) .| PAGE_PRESENT .| PTE_COW) s in
    (0, invlpg virt (set_pa (page_incref (phys .& PTE_ADDR_MASK) (pa s)) s)).

Definition vm_unmap (virt : Z) (s : vm) : vm :=
  let '(pte, s) := pte_ptr (current_pml4 s) virt false s in
  if truthy pte then tlb_shootdown virt (pte_set pte 0 s) else s.

(** * Entries *)

(** Bits of an entry made of a frame and flags outside the frame field. *)
Lemma frame_bit n f j :
  0 <= n < 2 ^ 40 -> 0 <= j < 12 \/ 52 <= j -> Z.testbit (n * 4096 .| f) j = Z.testbit f j.
Proof.
  intros Hn Hj. rewrite Z.lor_spec. change 4096 with (2 ^ 12).
  replace (Z.testbit (n * 2 ^ 12) j) with false; [done|]. symmetry. destruct Hj as [Hj|Hj].
  - apply Z.mul_pow2_bits_low. lia.
  - apply (proj1 (Z.bounded_iff_bits_nonneg 52 (n * 2 ^ 12) ltac:(lia) ltac:(lia)) ltac:(lia) j). lia.
Qed.

Lemma frame_pfn n f : 0 <= n < 2 ^ 40 -> f .& PTE_ADDR_MASK = 0 -> pfn (n * 4096 .| f) = n.
Proof.
  intros Hn Hf. assert (H : (n * 4096 .| f) .& PTE_ADDR_MASK = n * 4096).
  { rewrite Z.land_lor_distr_l, Hf, Z.lor_0_r, addr_mask. unfold pfn.
    rewrite Z.div_mul, Z.mod_small by lia. done. }
  rewrite addr_mask in H. lia.
Qed.

Lemma frame_range n f : 0 <= n < 2 ^ 40 -> 0 <= f < 2 ^ 64 -> 0 <= n * 4096 .| f < 2 ^ 64.
Proof. intros Hn Hf. apply (lor_range _ _ 64); lia. Qed.

(** The flags [private_entry] keeps from [e]. *)
Definition keep_flags (e : Z) : Z := PAGE_PRESENT .| PAGE_WRITABLE .| (e .& PAGE_USER) .| (e .& PAGE_NX).

Lemma private_entry_flags n e : private_entry (n * 4096) e = n * 4096 .| keep_flags e.
Proof. unfold private_entry, keep_flags. by rewrite !Z.lor_assoc. Qed.

(** What a resolved fault leaves in the entry: a frame [n], present, writable and not
    copy-on-write, with the user and no-execute bits of [e]. *)
Record private_leaf (n e e' : Z) : Prop := {
  pl_pfn : pfn e' = n;
  pl_present : present e' = true;
  pl_writable : truthy (e' .& PAGE_WRITABLE) = true;
  pl_cow : truthy (e' .& PTE_COW) = false;
  pl_user : Z.testbit e' 2 = Z.testbit e 2;
  pl_nx : Z.testbit e' 63 = Z.testbit e 63
}.

Lemma land_bit_bit e b j : 0 <= b -> 0 <= j -> Z.testbit (e .& (1 << b)) j = if j =? b then Z.testbit e b else false.
Proof.
  intros Hb Hj. rewrite Z.land_spec, Z.shiftl_spec by done. destruct (Z.eqb_spec j b) as [->|Hne].
  - rewrite Z.sub_diag. by rewrite andb_true_r.
  - destruct (Z.ltb_spec j b); [by rewrite (Z.testbit_neg_r 1), andb_false_r by lia|].
    rewrite (Z.bits_above_log2 1 (j - b)), andb_false_r by (simpl; lia). done.
Qed.

Lemma keep_flags_bit e j : 0 <= j -> Z.testbit (keep_flags e) j =
  (j =? 0) || (j =? 1) || (if j =? 2 then Z.testbit e 2 else false) || (if j =? 63 then Z.testbit e 63 else false).
Proof.
  intros Hj. unfold keep_flags. rewrite !Z.lor_spec.
  change PAGE_PRESENT with (-1 .& (1 << 0)). change PAGE_WRITABLE with (-1 .& (1 << 1)).
  unfold PAGE_USER, PAGE_NX. rewrite !land_bit_bit by lia. by destruct (j =? 0), (j =? 1).
Qed.

Lemma keep_flags_range e : 0 <= e -> 0 <= keep_flags e < 2 ^ 64.
Proof.
  intros He. unfold keep_flags. apply lor_range; [lia| |].
  - apply lor_range; [lia|by vm_compute|]. rewrite Z.land_comm. apply land_range_l; [by vm_compute|done].
  - rewrite Z.land_comm. apply land_range_l; [by vm_compute|done].
Qed.

Lemma keep_flags_frame e : keep_flags e .& PTE_ADDR_MASK = 0.
Proof.
  unfold keep_flags. rewrite !Z.land_lor_distr_l, <- !Z.land_assoc.
  change (PAGE_USER .& PTE_ADDR_MASK) with 0. change (PAGE_NX .& PTE_ADDR_MASK) with 0. by rewrite !Z.land_0_r.
Qed.

Lemma private_entry_leaf n e : 0 <= n < 2 ^ 40 -> 0 <= e -> private_leaf n e (u64 (private_entry (n * 4096) e)).
Proof.
  intros Hn He. rewrite private_entry_flags.
  rewrite u64_small by (apply frame_range; [done|by apply keep_flags_range]).
  split.
  - apply frame_pfn; [done|apply keep_flags_frame].
  - rewrite present_bit, frame_bit, keep_flags_bit by lia. done.
  - unfold PAGE_WRITABLE. rewrite truthy_land_bit, frame_bit, keep_flags_bit by lia. done.
  - unfold PTE_COW. rewrite truthy_land_bit, frame_bit, keep_flags_bit by lia. done.
  - rewrite frame_bit, keep_flags_bit by lia. simpl. by rewrite orb_false_r.
  - rewrite frame_bit, keep_flags_bit by lia. done.
Qed.

(** * Copy-on-write *)

(** A frame of the allocator is in the range the frame field of an entry holds. *)
Lemma frame_field n : 0 < n < MAX_PAGES -> n * 4096 .& PTE_ADDR_MASK = n * 4096.
Proof. rewrite max_pages_val. intros Hn. rewrite addr_mask. unfold pfn. rewrite Z.div_mul, Z.mod_small by lia. done. Qed.

Lemma owned_frame s n : fs_inv (pa s) -> fs_owned (pa s) n -> 0 < n < MAX_PAGES.
Proof. intros Hi [Hn _]. pose proof (wf_total _ Hi). lia. Qed.

(** A frame nobody owned is filled: no table and no owned frame changes. *)
Lemma fresh_frame_grows s root n a m :
  pt_wf s root -> 0 < n < MAX_PAGES -> ~ fs_owned (pa s) n -> fs_inv a ->
  (forall q, fs_owned a q <-> fs_owned (pa s) q \/ q = n) -> (forall q, q <> n -> fs_frame a q = fs_frame (pa s) q) ->
  (forall x, x < n * 4096 \/ n * 4096 + 4096 <= x -> m x = pm s x) ->
  grows root s (set_pm m (set_pa a s)) /\ other_root root s (set_pm m (set_pa a s)).
Proof.
  intros Hwf Hn Hno Hi Ho Hfr Hm.
  assert (O : other_root root s (set_pm m (set_pa a s))).
  { apply other_root_intro; [done|done| |].
    - intros k Hk. apply Ho. left. by eapply table_owned.
    - intros k x Hk Hx. apply Hm. assert (k <> n) by (intros ->; by apply Hno, (table_owned s root)). lia. }
  split; [|done]. split; simpl.
  - apply O.
  - intros p t Hu Hl Hw. by rewrite (or_walk _ _ _ O).
  - apply O.
  - intros k Hk. apply Ho. by left.
  - intros k Hk _. by apply (or_table _ _ _ O).
  - intros k x Hk _ Hx. apply Hm. assert (k <> n) by (intros ->; done). lia.
  - intros k Hk. apply Hfr. intros ->. done.
  - done.
Qed.

Lemma page_refcount_owned s n :
  fs_inv (pa s) -> fs_owned (pa s) n -> page_get_refcount (n * 4096) (pa s) = page_refcount (pa s) n.
Proof.
  intros Hi Ho. unfold page_get_refcount. rewrite (held_idx _ _ Hi Ho : page_idx_of (n * 4096) = n).
  destruct (Z.leb_spec (total_pages (pa s)) n); [destruct Ho; lia|done].
Qed.

Lemma copy_frame_in m a b i : 0 <= i < PAGE_SIZE -> copy m a b PAGE_SIZE (a + i) = m (b + i).
Proof. intros Hi. by apply copy_in. Qed.

(** What a resolved copy-on-write fault does to an address space. *)
Record cow_resolved (root cr2 : Z) (s s' : vm) (n n' : Z) : Prop := {
  cr_leaf : private_leaf n' (leaf (pm s) root cr2) (leaf (pm s') root cr2);
  cr_others : forall w, user_va w -> ~ same_page cr2 w -> leaf (pm s') root w = leaf (pm s) root w;
  cr_bytes : forall o, 0 <= o < PAGE_SIZE -> pm s' (n' * 4096 + o) = pm s (n * 4096 + o);
  cr_data : forall k x, fs_owned (pa s) k -> ~ is_table s root k -> k * 4096 <= x < k * 4096 + 4096 -> pm s' x = pm s x;
  cr_tlb : tlb s' = tlb s ++ [TlbShootdown cr2]
}.

Section cow.
Context (s : vm) (root cr2 t : Z).
Context (Hwf : pt_wf s root) (Hlw : leaves_wf s root) (Hv : user_va cr2).
Context (Ht : walk (pm s) root (vpath cr2) = Some t) (Hp : present (leaf (pm s) root cr2) = true).
Notation e := (leaf (pm s) root cr2).
Notation n := (pfn (leaf (pm s) root cr2)).

Lemma cow_old : fs_owned (pa s) n /\ ~ is_table s root n /\ 0 < n < MAX_PAGES.
Proof.
  destruct (proj1 Hlw cr2 Hv Hp) as [Ho Hnt]. split; [done|]. split; [done|].
  apply (owned_frame s); [apply Hwf|done].
Qed.

(** The sole owner writes in place. *)
Lemma cow_in_place :
  let s' := count_cow (tlb_shootdown cr2 (pte_set (t + 8 * pt_index cr2) (private_entry (n * 4096) e) s)) in
  pt_wf s' root /\ cow_resolved root cr2 s s' n n /\ pa s' = pa s.
Proof.
  cbv zeta. destruct cow_old as (Ho & Hnt & Hn). rewrite max_pages_val in Hn.
  pose proof (pte_set_leaf s root cr2 t (private_entry (n * 4096) e) Hwf Hv Ht) as L.
  set (s1 := pte_set _ _ s) in *. pose proof (ls_wf _ _ _ _ _ L) as W. split; [destruct W; by constructor|]. split; [|done].
  split; simpl.
  - rewrite (ls_leaf _ _ _ _ _ L), decide_True by (done || by split). apply private_entry_leaf; [lia|]. apply leaf_range.
  - intros w Hw Hns. by rewrite (ls_leaf _ _ _ _ _ L), decide_False.
  - intros o Ho'. apply (ls_data _ _ _ _ _ L n); [done|]. unfold PAGE_SIZE in *. lia.
  - intros k x Hk Hnk Hx. by apply (ls_data _ _ _ _ _ L k).
  - done.
Qed.

(** One of several owners gets a copy and gives its reference up. *)
Lemma cow_copied n' a :
  0 < n' < MAX_PAGES -> ~ fs_owned (pa s) n' -> fs_inv a ->
  (forall q, fs_owned a q <-> fs_owned (pa s) q \/ q = n') -> (forall q, q <> n' -> fs_frame a q = fs_frame (pa s) q) ->
  let s1 := page_release (n * 4096) (set_pm (copy (pm s) (n' * 4096) (n * 4096) PAGE_SIZE) (set_pa a s)) in
  let s' := count_cow (tlb_shootdown cr2 (pte_set (t + 8 * pt_index cr2) (private_entry (n' * 4096) e) s1)) in
  pt_wf s' root /\ cow_resolved root cr2 s s' n n' /\
  fs_frame (pa s') n = drop_ref (fs_frame (pa s) n) /\
  (forall q, q <> n -> q <> n' -> fs_frame (pa s') q = fs_frame (pa s) q) /\ pa s' = free_page (n * PAGE_SIZE) a.
Proof.
  intros Hn' Hno Hi Ho Hfr. destruct cow_old as (Hno' & Hnt & Hn). cbv zeta.
  assert (Hne : n <> n') by (intros E; rewrite E in Hno'; done).
  pose proof (fresh_frame_grows s root n' a (copy (pm s) (n' * 4096) (n * 4096) PAGE_SIZE) Hwf Hn' Hno Hi Ho Hfr) as G.
  destruct (G ltac:(intros x Hx; apply copy_other; unfold PAGE_SIZE; lia)) as [G' O]. clear G.
  set (s0 := set_pm _ (set_pa a s)) in *. set (s1 := page_release _ s0).
  assert (Hoa : fs_owned a n) by (apply Ho; by left).
  destruct (free_page_frames a n Hi Hoa) as (Hi1 & _ & Hf1). destruct (free_page_source a n Hi Hoa) as (_ & Ho1).
  assert (Hpa : pa s1 = free_page (n * PAGE_SIZE) a) by done.
  assert (L : leaf_set root cr2 (private_entry (n' * 4096) e) s0 (pte_set (t + 8 * pt_index cr2) (private_entry (n' * 4096) e) s1)).
  { apply (set_leaf_ok s0 _ root cr2 t); try done.
    - apply O.
    - rewrite (or_walk _ _ _ O); [done|by apply vpath_upath|]. destruct (vpath_upath cr2 Hv) as [_ ->]. lia.
    - intros k Hk _. apply (or_table _ _ _ O) in Hk. apply Ho1; [intros ->; done|]. apply Ho. left.
      by apply (table_owned s root). }
  rewrite max_pages_val in Hn'. set (s2 := pte_set _ _ s1) in *. pose proof (ls_wf _ _ _ _ _ L) as W.
  assert (Hsame : forall k x, fs_owned (pa s) k -> ~ is_table s root k -> k * 4096 <= x < k * 4096 + 4096 -> pm s2 x = pm s x).
  { intros k x Hk Hnk Hx. rewrite (ls_data _ _ _ _ _ L k), (g_data _ _ _ G' k) by (done || by rewrite (or_table _ _ _ O)). done. }
  split; [destruct W; by constructor|]. split; [split; simpl|split; [|split]].
  - rewrite (ls_leaf _ _ _ _ _ L), decide_True by (done || by split). apply private_entry_leaf; [lia|]. apply leaf_range.
  - intros w Hw Hns. rewrite (ls_leaf _ _ _ _ _ L), decide_False by done. by apply (or_leaf _ _ _ O).
  - intros o Ho'. change (pm s2 (n' * 4096 + o) = pm s (n * 4096 + o)).
    rewrite (ls_data _ _ _ _ _ L n') by (unfold PAGE_SIZE in *; lia || (rewrite (or_table _ _ _ O); intros Hk; by apply Hno, (table_owned s root))).
    simpl. by apply copy_frame_in.
  - exact Hsame.
  - done.
  - change (frame_state (free_page (n * PAGE_SIZE) a) n = drop_ref (frame_state (pa s) n)).
    rewrite Hf1, decide_True by done. f_equal. by apply Hfr.
  - intros q Hq Hq'. change (frame_state (free_page (n * PAGE_SIZE) a) q = frame_state (pa s) q).
    rewrite Hf1, decide_False by done. by apply Hfr.
  - exact Hpa.
Qed.

Lemma fault_cow_spec :
  let '(r, s') := fault_cow (t + 8 * pt_index cr2) e cr2 s in
  pt_wf s' root /\
  (if page_refcount (pa s) n <=? 1 then r = 1 /\ cow_resolved root cr2 s s' n n /\ pa s' = pa s
   else (r = 0 /\ s' = s /\ page_alloc s = (0, s)) \/
        (r = 1 /\ exists n', cow_resolved root cr2 s s' n n' /\ ~ fs_owned (pa s) n' /\
           fs_frame (pa s') n = drop_ref (fs_frame (pa s) n) /\
           (forall q, q <> n -> q <> n' -> fs_frame (pa s') q = fs_frame (pa s) q))).
Proof.
  destruct cow_old as (Ho & Hnt & Hn). unfold fault_cow. rewrite addr_mask, page_refcount_owned by (apply Hwf || done).
  destruct (_ <=? 1).
  - destruct cow_in_place as (W & R & P). done.
  - destruct (page_alloc_cases s (tw_inv _ _ Hwf)) as [(n' & a & E & Hn' & Hno & Hi & Ho' & Hfr)|E]; rewrite E.
    + rewrite truthy_frame by lia. simpl negb. cbv iota. rewrite frame_field by done.
      destruct (cow_copied n' a Hn' Hno Hi Ho' Hfr) as (W & R & F1 & F2 & _). split; [exact W|]. right. split; [done|].
      exists n'. done.
    + simpl. split; [done|]. by left.
Qed.
End cow.

(** A protection fault reaches the leaf entry: the blocks for absent pages do not apply. *)
Lemma protection_fault cr2 err k :
  err_present err = true -> truthy (fault_space err k) = true -> err_user err && in_stack_guard cr2 = false ->
  vm_handle_fault cr2 err k =
    let '(r, v) := fault_leaf (fault_space err k) cr2 err (kvm k) in Some (r, set_kvm v k).
Proof.
  intros He Hs Hg. unfold vm_handle_fault. rewrite Hs. simpl negb. cbv iota.
  destruct (pstore k !! get_current_process k) as [p|]; [|done].
  rewrite He, Hg, andb_false_r. simpl. done.
Qed.

(** C5: a write to a copy-on-write page gets the writer a private copy.  On a write fault on a
    present copy-on-write page of a well-formed address space (outside the stack guard page),
    the handler returns 1 with the page present, writable, no longer copy-on-write and with
    its user and no-execute bits kept; the bytes the writer sees are the bytes it saw before,
    no other page of the space is remapped, no owned frame that is not a page table has
    changed (so the other sharers keep their data) and every core is told to drop the old
    translation.  A sole owner keeps its frame and the allocator is untouched; otherwise the
    new frame was free before and the shared frame loses exactly one reference.  Only when a
    shared page cannot be copied for lack of frames does it return 0, with nothing changed. *)
Theorem cow_fault_correct k cr2 err :
  let root := fault_space err k in let s := kvm k in let e := leaf (pm s) root cr2 in
  pt_wf s root -> leaves_wf s root -> user_va cr2 ->
  err_present err = true -> err_write err = true -> err_user err && in_stack_guard cr2 = false ->
  present e = true -> truthy (e .& PTE_COW) = true ->
  exists r s', vm_handle_fault cr2 err k = Some (r, set_kvm s' k) /\ pt_wf s' root /\
    if page_refcount (pa s) (pfn e) <=? 1 then r = 1 /\ cow_resolved root cr2 s s' (pfn e) (pfn e) /\ pa s' = pa s
    else (r = 0 /\ s' = s /\ page_alloc s = (0, s)) \/
         (r = 1 /\ exists n', cow_resolved root cr2 s s' (pfn e) n' /\ ~ fs_owned (pa s) n' /\
            fs_frame (pa s') (pfn e) = drop_ref (fs_frame (pa s) (pfn e)) /\
            (forall q, q <> pfn e -> q <> n' -> fs_frame (pa s') q = fs_frame (pa s) q)).
Proof.
  intros root s e Hwf Hlw Hv He Hw Hg Hp Hc.
  rewrite protection_fault by (done || apply (root_truthy s), Hwf). fold root s.
  unfold fault_leaf. rewrite pte_ptr_lookup by done.
  destruct (walk (pm s) root (vpath cr2)) as [t|] eqn:Ew; [|unfold e, leaf in Hp; by rewrite Ew in Hp].
  assert (Htr : truthy (t + 8 * pt_index cr2) = true).
  { destruct (vpath_upath cr2 Hv) as [Hu Hl]. destruct (tw_owned _ _ Hwf _ _ Hu ltac:(lia) Ew) as (j & -> & Hj & _).
    destruct (index_range cr2) as (_ & _ & _ & Hi). unfold idx in Hi. unfold truthy.
    destruct (Z.eqb_spec (j * 4096 + 8 * pt_index cr2) 0); [lia|done]. }
  rewrite Htr, (pte_get_leaf s root cr2 t Ew). fold e. rewrite He, Hw, Hp, Hc. simpl negb. cbn [andb]. cbv iota.
  pose proof (fault_cow_spec s root cr2 t Hwf Hlw Hv Ew Hp) as H. fold e in H.
  destruct (fault_cow _ _ _ _) as [r s']. exists r, s'. split; [done|exact H].
Qed.

(** * Pages on first touch *)

Lemma page_base_user cr2 : user_va cr2 -> user_va (cr2 .& not64 0xFFF) /\ same_page (cr2 .& not64 0xFFF) cr2 /\
  cr2 .& not64 0xFFF = cr2 / 4096 * 4096.
Proof.
  intros [H1 H2]. assert (E : cr2 .& not64 0xFFF = cr2 / 4096 * 4096) by (apply (land_not64_pow2 cr2 12); lia).
  rewrite E. assert (cr2 / 4096 * 4096 <= cr2) by (Z.to_euclidean_division_equations; lia).
  assert (0 <= cr2 / 4096 * 4096) by (Z.to_euclidean_division_equations; lia).
  split; [split; lia|]. split; [|done]. apply same_page_iff; [lia..|]. by rewrite Z.div_mul by lia.
Qed.

Lemma same_page_trans v w x : same_page v w -> same_page v x <-> same_page w x.
Proof. intros [E1 E2]. unfold same_page. rewrite E1, E2. done. Qed.

(** [s'] is [s] with the page of [cr2] mapped by the entry [f n] of a frame [n] that was free. *)
Record page_added (root cr2 n e : Z) (s s' : vm) : Prop := {
  pg_fresh : ~ fs_owned (pa s) n /\ fs_owned (pa s') n;
  pg_leaf : leaf (pm s') root cr2 = e;
  pg_others : forall w, user_va w -> ~ same_page cr2 w -> leaf (pm s') root w = leaf (pm s) root w;
  pg_data : forall k x, fs_owned (pa s) k -> ~ is_table s root k -> k * 4096 <= x < k * 4096 + 4096 -> pm s' x = pm s x
}.

Definition user_rw : Z := PAGE_PRESENT .| PAGE_WRITABLE .| PAGE_USER .| PAGE_NX.

Lemma mapped_user_rw n : 0 < n < MAX_PAGES -> u64 (mapped_leaf n (0x7 .| PAGE_NX)) = n * 4096 .| user_rw.
Proof.
  rewrite max_pages_val. intros Hn. unfold mapped_leaf, user_rw. change (user_bit (0x7 .| PAGE_NX)) with PAGE_USER.
  change ((0x7 .| PAGE_NX) .& PAGE_NX) with PAGE_NX. rewrite <- !Z.lor_assoc.
  apply u64_small. apply frame_range; [lia|by vm_compute].
Qed.

Lemma page_alloc_result s s' : pa s = pa s' -> (page_alloc s).1 = (page_alloc s').1.
Proof. unfold page_alloc. intros ->. by destruct (alloc_page (pa s')). Qed.

Lemma fault_zero_page_spec s root cr2 :
  pt_wf s root -> user_va cr2 ->
  exists r s', fault_zero_page root cr2 s = Some (r, s') /\ pt_wf s' root /\
    ((r = 0 /\ s' = s /\ page_alloc s = (0, s)) \/
     (r = 1 /\ (exists n, page_added root cr2 n (n * 4096 .| user_rw) s s' /\
        forall o, 0 <= o < PAGE_SIZE -> pm s' (n * 4096 + o) = 0)) \/
     (r = 1 /\ (forall w, user_va w -> leaf (pm s') root w = leaf (pm s) root w) /\ (page_alloc s').1 = 0)).
Proof.
  intros Hwf Hv. unfold fault_zero_page.
  destruct (page_alloc_cases s (tw_inv _ _ Hwf)) as [(n & a & E & Hn & Hno & Hi & Ho & Hfr)|E]; rewrite E.
  2:{ exists 0, s. split; [done|]. split; [done|]. by left. }
  rewrite truthy_frame by lia. simpl negb. cbv iota.
  pose proof (fresh_frame_grows s root n a (fill (pm s) (n * 4096) PAGE_SIZE 0) Hwf Hn Hno Hi Ho Hfr) as G.
  destruct (G ltac:(intros x Hx; apply fill_other; unfold PAGE_SIZE; lia)) as [G' O]. clear G.
  change (zero_page (n * 4096) (set_pa a s)) with (set_pm (fill (pm s) (n * 4096) PAGE_SIZE 0) (set_pa a s)).
  set (s0 := set_pm _ (set_pa a s)) in *. destruct (page_base_user cr2 Hv) as (Hv' & Hsp & _).
  destruct (map_page_dir_spec s0 root n (cr2 .& not64 0xFFF) (0x7 .| PAGE_NX) (or_wf _ _ _ O) Hv')
    as (s1 & -> & W & Hown & Htab & Hdata & Hcase).
  exists 1, (count_demand (invlpg cr2 s1)). split; [done|]. split; [destruct W; by constructor|]. right.
  assert (Hnot : ~ is_table s0 root n) by (rewrite (or_table _ _ _ O); intros Hk; by apply Hno, (table_owned s root)).
  assert (Hon : fs_owned (pa s0) n) by (apply Ho; by right).
  destruct Hcase as [[Hl _]|(Hl & _ & Ha)].
  - left. split; [done|]. exists n. split; [split; simpl|].
    + split; [done|by apply Hown].
    + rewrite Hl, decide_True by done. by apply mapped_user_rw.
    + intros w Hw Hns. rewrite Hl, decide_False by (done || by rewrite (same_page_trans _ _ _ Hsp)). by apply (or_leaf _ _ _ O).
    + intros k x Hk Hnk Hx. rewrite (Hdata k), (g_data _ _ _ G' k) by
        (done || (by apply Ho; left) || by rewrite (or_table _ _ _ O)). done.
    + intros o Hoo. change (pm s1 (n * 4096 + o) = 0). rewrite (Hdata n) by (done || unfold PAGE_SIZE in *; lia).
      simpl. unfold fill. rewrite (proj2 (Z.leb_le _ _)), (proj2 (Z.ltb_lt _ _)) by lia. done.
  - right. split; [done|]. split; [intros w Hw; simpl; rewrite Hl by done; by apply (or_leaf _ _ _ O)|].
    rewrite (page_alloc_result _ s1) by done. by rewrite Ha.
Qed.

Lemma vma_flags_range prot : 0 <= vma_flags prot < 2 ^ 64.
Proof. unfold vma_flags. destruct (truthy (prot .& PROT_WRITE)), (truthy (prot .& PROT_EXEC)); by vm_compute. Qed.

(** Offset into the file snapshot of byte [o] of the page of [cr2]. *)
Definition snap_off (v : vma) (cr2 o : Z) : Z := cr2 / 4096 * 4096 - v_start v + o.

(** The bytes of the new page of a region: the file's, as far as the snapshot goes, then zeros. *)
Definition region_byte (v : vma) (cr2 : Z) (m : pmem) (o : Z) : Z :=
  if truthy (v_file_buf v) && (snap_off v cr2 o <? v_file_size v) then m (v_file_buf v + snap_off v cr2 o) else 0.

(** The snapshot of a region lies in frames the allocator has handed out for data. *)
Definition snapshot_held (root : Z) (v : vma) (s : vm) : Prop :=
  v_file_buf v <> 0 -> 0 <= v_file_size v < 2 ^ 32 /\
  forall i, 0 <= i < v_file_size v -> exists k, fs_owned (pa s) k /\ ~ is_table s root k /\ k * 4096 <= v_file_buf v + i < k * 4096 + 4096.

Lemma copy_slice_bytes v n cr2 s0 s :
  user_va cr2 -> 0 <= v_start v <= cr2 -> v_start v mod 4096 = 0 ->
  (v_file_buf v <> 0 -> 0 <= v_file_size v < 2 ^ 32 /\
   forall i, 0 <= i < v_file_size v -> pm s (v_file_buf v + i) = pm s0 (v_file_buf v + i)) ->
  (forall o, 0 <= o < PAGE_SIZE -> pm s (n * 4096 + o) = 0) ->
  exists m, copy_slice v (n * 4096) cr2 s = set_pm m s /\
    (forall x, x < n * 4096 \/ n * 4096 + 4096 <= x -> m x = pm s x) /\
    (forall o, 0 <= o < PAGE_SIZE -> m (n * 4096 + o) = region_byte v cr2 (pm s0) o).
Proof.
  intros Hu Hs Ha Hb Hz. destruct (page_base_user cr2 Hu) as (_ & _ & Eb). unfold copy_slice, region_byte, snap_off. rewrite Eb.
  assert (Hle : v_start v <= cr2 / 4096 * 4096) by (Z.to_euclidean_division_equations; lia).
  assert (cr2 / 4096 * 4096 <= cr2) by (Z.to_euclidean_division_equations; lia).
  unfold user_va in Hu. rewrite u64_small by lia. set (off := cr2 / 4096 * 4096 - v_start v).
  assert (0 <= off) by lia. unfold PAGE_SIZE in *.
  assert (Hid : exists m, s = set_pm m s /\ m = pm s) by (exists (pm s); by destruct s).
  unfold truthy. destruct (Z.eqb_spec (v_file_buf v) 0) as [E0|E0]; simpl negb; simpl andb; cbv iota.
  { destruct Hid as (m & Es & ->). exists (pm s). split; [done|]. split; [done|]. intros o Ho. by apply Hz. }
  destruct (Hb E0) as (Hf & Hbuf). destruct (Z.ltb_spec off (v_file_size v)) as [Hoff|Hoff].
  2:{ destruct Hid as (m & Es & ->). exists (pm s). split; [done|]. split; [done|]. intros o Ho.
      destruct (Z.ltb_spec (off + o) (v_file_size v)); [lia|]. by apply Hz. }
  set (cnt := if v_file_size v <? off + 4096 then _ else _).
  assert (Hcnt : cnt = Z.min 4096 (v_file_size v - off)).
  { subst cnt. rewrite (u32_small off), u32_small by lia. destruct (Z.ltb_spec (v_file_size v) (off + 4096)); lia. }
  eexists. split; [reflexivity|]. split.
  - intros x Hx. apply copy_other. lia.
  - intros o Ho. destruct (Z.ltb_spec (off + o) (v_file_size v)).
    + rewrite copy_in by lia. rewrite <- Z.add_assoc. apply Hbuf. lia.
    + rewrite copy_other by lia. by apply Hz.
Qed.

Lemma fault_vma_spec s root cr2 v :
  pt_wf s root -> user_va cr2 -> 0 <= v_start v <= cr2 -> v_start v mod 4096 = 0 -> snapshot_held root v s ->
  exists r s', fault_vma v root cr2 s = (r, s') /\ pt_wf s' root /\
    ((r = 0 /\ (forall w, user_va w -> leaf (pm s') root w = leaf (pm s) root w)) \/
     (r = 1 /\ exists n, page_added root cr2 n (n * 4096 .| vma_flags (v_prot v)) s s' /\
        forall o, 0 <= o < PAGE_SIZE -> pm s' (n * 4096 + o) = region_byte v cr2 (pm s) o)).
Proof.
  intros Hwf Hv Hs Ha Hsnap. unfold fault_vma. pose proof (pte_ptr_create s root cr2 Hwf Hv) as Hpt.
  destruct (pte_ptr root cr2 true s) as [pte s1]. destruct Hpt as [G Hpte].
  destruct Hpte as [-> |(t & Ht & -> & Htr)].
  { exists 0, s1. split; [done|]. split; [apply G|]. left. split; [done|apply G]. }
  rewrite Htr. simpl negb. cbv iota.
  destruct (page_alloc_cases s1 (tw_inv _ _ (g_wf _ _ _ G))) as [(n & a & E & Hn & Hno & Hi & Ho & Hfr)|E]; rewrite E.
  2:{ exists 0, s1. split; [done|]. split; [apply G|]. left. split; [done|apply G]. }
  rewrite truthy_frame by lia. simpl negb. cbv iota. rewrite frame_field by done.
  assert (Hno0 : ~ fs_owned (pa s) n) by (intros Hk; apply Hno; by apply (g_owned _ _ _ G)).
  destruct (copy_slice_bytes v n cr2 s (zero_page (n * 4096) (set_pa a s1)) Hv Hs Ha) as (m & -> & Hm1 & Hm2).
  { intros Hb. destruct (Hsnap Hb) as [Hfs Hk]. split; [done|]. intros i Hii. destruct (Hk i Hii) as (k & Hko & Hkn & Hkx).
    simpl. rewrite fill_other, (g_data _ _ _ G k) by (done || (assert (k <> n) by (intros ->; done); unfold PAGE_SIZE; lia)). done. }
  { intros o Hoo. simpl. unfold fill. rewrite (proj2 (Z.leb_le _ _)), (proj2 (Z.ltb_lt _ _)) by lia. done. }
  change (set_pm m (zero_page (n * 4096) (set_pa a s1))) with (set_pm m (set_pa a s1)).
  assert (Hm : forall x, x < n * 4096 \/ n * 4096 + 4096 <= x -> m x = pm s1 x).
  { intros x Hx. rewrite Hm1 by done. simpl. apply fill_other. unfold PAGE_SIZE. lia. }
  destruct (fresh_frame_grows s1 root n a m (g_wf _ _ _ G) Hn Hno Hi Ho Hfr Hm) as [G' O]. set (s2 := set_pm m (set_pa a s1)) in *.
  assert (Ht2 : walk (pm s2) root (vpath cr2) = Some t).
  { rewrite (or_walk _ _ _ O); [done|by apply vpath_upath|]. destruct (vpath_upath cr2 Hv) as [_ ->]. lia. }
  pose proof (pte_set_leaf s2 root cr2 t (n * 4096 .| vma_flags (v_prot v)) (or_wf _ _ _ O) Hv Ht2) as L.
  set (s3 := pte_set _ _ s2) in *. exists 1, (count_demand (invlpg cr2 s3)). split; [done|].
  pose proof (ls_wf _ _ _ _ _ L) as W. split; [destruct W; by constructor|]. right. split; [done|].
  assert (Hnt : ~ is_table s2 root n) by (rewrite (or_table _ _ _ O); intros Hk; apply Hno; apply (table_owned s1 root); [apply G|done]).
  rewrite max_pages_val in Hn. exists n. split; [split; simpl|].
  - split; [done|]. apply Ho. by right.
  - rewrite (ls_leaf _ _ _ _ _ L), decide_True by (done || by split). apply u64_small, frame_range; [lia|apply vma_flags_range].
  - intros w Hw Hns. rewrite (ls_leaf _ _ _ _ _ L), decide_False by done. rewrite (or_leaf _ _ _ O), (g_leaf _ _ _ G) by done. done.
  - intros k x Hk Hnk Hx. assert (Hk1 : fs_owned (pa s1) k) by (by apply (g_owned _ _ _ G)).
    assert (Hnk1 : ~ is_table s1 root k) by (intros Hc; apply Hnk; by apply (g_new _ _ _ G)).
    change (pm s3 x = pm s x). rewrite (ls_data _ _ _ _ _ L k), (g_data _ _ _ G' k), (g_data _ _ _ G k) by (done || by rewrite (or_table _ _ _ O)). done.
  - intros o Hoo. change (pm s3 (n * 4096 + o) = region_byte v cr2 (pm s) o).
    rewrite (ls_data _ _ _ _ _ L n) by (done || unfold PAGE_SIZE in *; lia). by apply Hm2.
Qed.

(** The user-fault blocks for an absent page, when one applies. *)
Lemma absent_fault cr2 err k p r :
  err_present err = false -> err_user err = true -> pstore k !! get_current_process k = Some p ->
  truthy (page_directory p) = true -> fault_absent (page_directory p) cr2 (get_current_process k) k = Some r ->
  vm_handle_fault cr2 err k = match r with Some (r, v) => Some (r, set_kvm v k) | None => None end.
Proof.
  intros He Hu Hp Hd Ha. unfold vm_handle_fault, fault_space. rewrite Hp, Hu, Hd. simpl andb. cbv iota. rewrite Hd.
  rewrite He. simpl. by rewrite Ha.
Qed.

(** first touches are backed by the right bytes.  When a user access faults on an absent
    page of a process with a well-formed address space, the heap window of its thread group,
    then its mapped regions, then the stack window decide: a heap or stack page gets a frame
    that was free, all zeros, mapped user, writable and not executable; a page of a mapped region
    gets one with the region's protection, holding the file snapshot's bytes up to its end and
    zeros after.  No other page is remapped and no data frame changes.  With no frame left the
    fault is not resolved and no page is remapped; the one exception is a heap or stack page whose
    page tables cannot be allocated, where the handler reports success with nothing mapped. *)
Theorem demand_fault_correct k cr2 err p mm :
  let cur := get_current_process k in let root := page_directory p in let s := kvm k in
  pstore k !! cur = Some p -> truthy root = true -> pstore k !! tg_leader cur k = Some mm -> regions_ok (p_mm mm) ->
  pt_wf s root -> user_va cr2 -> err_present err = false -> err_user err = true ->
  (forall v, region_find (mmap_vmas (p_mm mm)) cr2 = Some v -> snapshot_held root v s) ->
  heap_window cr2 mm = true \/ (exists v, region_find (mmap_vmas (p_mm mm)) cr2 = Some v) \/ in_stack_window cr2 = true ->
  let content := if heap_window cr2 mm then (fun _ => 0, user_rw)
                 else match region_find (mmap_vmas (p_mm mm)) cr2 with
                      | Some v => (region_byte v cr2 (pm s), vma_flags (v_prot v))
                      | None => (fun _ => 0, user_rw)
                      end in
  exists r s', vm_handle_fault cr2 err k = Some (r, set_kvm s' k) /\ pt_wf s' root /\
    ((r = 1 /\ exists n, page_added root cr2 n (n * 4096 .| content.2) s s' /\
        forall o, 0 <= o < PAGE_SIZE -> pm s' (n * 4096 + o) = content.1 o) \/
     ((forall w, user_va w -> leaf (pm s') root w = leaf (pm s) root w) /\
      (r = 0 \/ r = 1 /\ (page_alloc s').1 = 0 /\ (heap_window cr2 mm = true \/ region_find (mmap_vmas (p_mm mm)) cr2 = None)))).
Proof.
  intros cur root s Hp Hd Hmm Hok Hwf Hv He Hu Hsn Hcase. cbv zeta.
  assert (Hfind : vma_find cur cr2 k = region_find (mmap_vmas (p_mm mm)) cr2) by (unfold vma_find; by rewrite Hmm).
  assert (Hzero : fault_absent root cr2 cur k = Some (fault_zero_page root cr2 s) ->
    (heap_window cr2 mm = true \/ region_find (mmap_vmas (p_mm mm)) cr2 = None) -> exists r s',
    vm_handle_fault cr2 err k = Some (r, set_kvm s' k) /\ pt_wf s' root /\
    ((r = 1 /\ exists n, page_added root cr2 n (n * 4096 .| user_rw) s s' /\ forall o, 0 <= o < PAGE_SIZE -> pm s' (n * 4096 + o) = 0) \/
     ((forall w, user_va w -> leaf (pm s') root w = leaf (pm s) root w) /\
      (r = 0 \/ r = 1 /\ (page_alloc s').1 = 0 /\ (heap_window cr2 mm = true \/ region_find (mmap_vmas (p_mm mm)) cr2 = None))))).
  { intros Ha Hz. rewrite (absent_fault cr2 err k p _ He Hu Hp Hd Ha).
    destruct (fault_zero_page_spec s root cr2 Hwf Hv) as (r & s' & -> & W & Hr). exists r, s'. split; [done|]. split; [done|].
    destruct Hr as [(-> & -> & _)|[(-> & Hn)|(-> & Hl & Hal)]]; [right; split; [done|by left]|by left|].
    right. split; [done|]. right. auto. }
  destruct (heap_window cr2 mm) eqn:Eh.
  { apply Hzero; [|by left]. unfold fault_absent. by rewrite Hmm, Eh. }
  destruct (region_find (mmap_vmas (p_mm mm)) cr2) as [v|] eqn:Ef; simpl.
  - destruct (fault_vma_spec s root cr2 v Hwf Hv) as (r & s' & Er & W & Hr).
    + destruct (region_find_in _ _ _ Ef) as (Hin & Hus & Hrg). pose proof (ro_used _ Hok v Hin Hus). unfold MMAP_BASE in *. lia.
    + destruct (region_find_in _ _ _ Ef) as (Hin & Hus & Hrg). by apply (ro_used _ Hok v Hin Hus).
    + by apply Hsn.
    + exists r, s'. rewrite (absent_fault cr2 err k p (Some (r, s')) He Hu Hp Hd).
      2:{ unfold fault_absent. fold cur. rewrite Hmm, Eh, Hfind. fold root s. by rewrite Er. }
      split; [done|]. split; [done|]. destruct Hr as [(-> & Hl)|(-> & Hn)]; [right; split; [done|by left]|by left].
  - apply Hzero; [|by right]. unfold fault_absent. rewrite Hmm, Eh, Hfind.
    destruct Hcase as [?|[[v ?]|Hst]]; [done|done|]. by rewrite Hst.
Qed.

(** * A forked page is written, a stack grows *)

(** The parent's mappings are still well formed after a copy-on-write clone. *)
Lemma cloned_leaves P C s s' : leaves_wf s P -> cloned P C s (511 * 2 ^ 27) s' -> leaves_wf s' P.
Proof.
  intros [H1 H2] Hc.
  assert (Hl : forall v, user_va v -> present (leaf (pm s') P v) = true ->
    present (leaf (pm s) P v) = true /\ pfn (leaf (pm s') P v) = pfn (leaf (pm s) P v)).
  { intros v Hv. rewrite (c_leafP _ _ _ _ _ Hc), shared_all by done.
    destruct (present (leaf (pm s) P v)) eqn:Ep; [|by rewrite Ep]. intros _. split; [done|].
    by apply cow_of_facts, leaf_range. }
  assert (Ht : forall n, is_table s' P n -> is_table s P n).
  { intros n (p & Hu & Hlen & Hw). exists p. rewrite (c_walkP _ _ _ _ _ Hc) in Hw by done. done. }
  split.
  - intros v Hv Hp. destruct (Hl v Hv Hp) as [Hp' ->]. destruct (H1 v Hv Hp') as [Ho Hn].
    split; [by apply (c_owned _ _ _ _ _ Hc)|]. intros Hk. by apply Hn, Ht.
  - intros v w Hv Hw Hpv Hpw. destruct (Hl v Hv Hpv) as [Hp1 ->], (Hl w Hw Hpw) as [Hp2 ->]. by apply H2.
Qed.

Definition demo_writing : kst := start_kst {[ 16 := demo_mapper ]} [16] demo_fork.2.

Lemma demo_writing_result : (fst <$> vm_handle_fault demo_va 7 demo_writing) = Some 1.
Proof. by vm_compute. Qed.
Lemma demo_writing_space : fault_space 7 demo_writing = demo_root.
Proof. done. Qed.
Lemma demo_writing_vm : kvm demo_writing = demo_fork.2.
Proof. done. Qed.
Lemma demo_writing_refs : (page_refcount (pa demo_fork.2) 2 <=? 1) = false.
Proof. by vm_compute. Qed.

#[local] Opaque demo_writing vm_handle_fault demo_vm3 demo_mapping clone_page_directory_cow.

Lemma demo_fork_cloned : cloned demo_root demo_fork.1 demo_vm3 (511 * 2 ^ 27) demo_fork.2.
Proof.
  destruct demo_vm3_wf as (W & LW & _).
  apply (clone_cloned demo_vm3 demo_root demo_fork.1 demo_fork.2 W LW (surjective_pairing demo_fork)).
  rewrite demo_fork_child. lia.
Qed.

#[local] Opaque demo_fork.

Lemma same_page_refl v : same_page v v.
Proof. by split. Qed.

Lemma demo_vm3_leaf : leaf (pm demo_vm3) demo_root demo_va = 0x2007.
Proof.
  destruct demo_vm3_wf as (_ & _ & L & _). rewrite (L demo_va demo_va_user), decide_True by apply same_page_refl. exact eq_refl.
Qed.

Lemma demo_fork_leaf : leaf (pm demo_fork.2) demo_root demo_va = 0x2405.
Proof.
  rewrite (c_leafP _ _ _ _ _ demo_fork_cloned), shared_all, demo_vm3_leaf by apply demo_va_user. exact eq_refl.
Qed.

Lemma cow_fault_correct_witness :
  exists s' n', vm_handle_fault demo_va 7 demo_writing = Some (1, set_kvm s' demo_writing) /\ n' <> 2 /\
    cow_resolved demo_root demo_va demo_fork.2 s' 2 n' /\ fs_frame (pa s') 2 = drop_ref (fs_frame (pa demo_fork.2) 2).
Proof.
  pose proof demo_fork_cloned as Hc. destruct demo_vm3_wf as (W & LW & _).
  pose proof (cow_fault_correct demo_writing demo_va 7) as H. cbv zeta in H.
  rewrite demo_writing_space, demo_writing_vm, demo_fork_leaf in H.
  destruct (H (c_wfP _ _ _ _ _ Hc) (cloned_leaves _ _ _ _ LW Hc) demo_va_user eq_refl eq_refl eq_refl eq_refl eq_refl)
    as (r & s' & Er & W' & Hr).
  pose proof demo_writing_result as Hd. rewrite Er in Hd. cbn [fmap option_fmap option_map fst] in Hd. injection Hd as Hr1.
  change (pfn 0x2405) with 2 in Hr. rewrite demo_writing_refs in Hr.
  destruct Hr as [(E0 & _)|(_ & n' & R & Hno & Hf & _)]; [lia|].
  exists s', n'. rewrite <- Hr1. split; [exact Er|]. split; [|split; [exact R|exact Hf]].
  intros ->. apply Hno. apply (c_owned _ _ _ _ _ Hc).
  pose proof (proj1 LW demo_va demo_va_user) as Ho. rewrite demo_vm3_leaf in Ho. exact (proj1 (Ho eq_refl)).
Defined.

Lemma demand_fault_correct_witness :
  exists r s', vm_handle_fault 0x7FFFFFFFD010 6 demo_mapping = Some (r, set_kvm s' demo_mapping) /\ pt_wf s' demo_root.
Proof.
  destruct demo_vm3_wf as (W & _).
  pose proof (demand_fault_correct demo_mapping 0x7FFFFFFFD010 6 demo_mapper demo_mapper) as H. cbv zeta in H.
  rewrite demo_mapping_leader, demo_mapping_vm in H. change (page_directory demo_mapper) with demo_root in H.
  destruct (H demo_mapping_lookup eq_refl demo_mapping_lookup (fresh_regions_ok demo_mapper eq_refl) W ltac:(unfold user_va; lia)
    eq_refl eq_refl ltac:(done) ltac:(by right; right)) as (r & s' & Er & W' & _).
  exists r, s'. split; [exact Er|exact W'].
Defined.

(** mprotect that takes write access from a page shared copy-on-write keeps the copy-on-write
    mark, so the next write is granted by the fault handler. *)
Lemma mprotect_read_keeps_cow :
  truthy (protected_leaf 1 0x2405 .& PTE_COW) = true /\ truthy (protected_leaf 1 0x2405 .& PAGE_WRITABLE) = false /\
  private_leaf 9 (protected_leaf 1 0x2405) (private_entry (9 * 4096) (protected_leaf 1 0x2405)).
Proof. split; [done|]. split; [done|]. by split. Qed.
