(* ===== verification/FreeSpace.v ===== *)
(** Releasing an address space (src/kernel/paging.c, free_page_directory): the frames of its
    pages and of its tables, each once, and nothing else.

    The tables are not written while they are released, so the four nested loops come to
    releasing a list of frames, [space_frames]. *)
From Stdlib Require Import ZArith Lia.
From S2P Require Import Prelude Phys PageAlloc Paging PageTables CowClone.

(** * Releasing a list of frames *)

Definition released (l : list Z) (a : mem) : mem := foldl (fun a n => free_page (n * 4096) a) a l.

Lemma released_frames_app l1 l2 a : released (l1 ++ l2) a = released l2 (released l1 a).
Proof. apply foldl_app. Qed.

Lemma set_pa_pa s : set_pa (pa s) s = s.
Proof. by destruct s. Qed.

Lemma set_pa_set_pa a b s : set_pa a (set_pa b s) = set_pa a s.
Proof. by destruct s. Qed.

(** Each frame of the list loses one reference; the others are left alone. *)
Lemma released_spec l a :
  mem_wf a -> NoDup l -> Forall (held a) l ->
  mem_wf (released l a) /\ total_pages (released l a) = total_pages a /\
  (forall q, q ∈ l -> frame_state (released l a) q = drop_ref (frame_state a q)) /\
  (forall q, q ∉ l -> frame_state (released l a) q = frame_state a q).
Proof.
  revert a. induction l as [|n l IH]; intros a Hwf Hnd Hh.
  { split; [done|]. split; [done|]. split; [by intros q ?%not_elem_of_nil|done]. }
  apply list.NoDup_cons in Hnd as [Hn Hnd]. apply list.Forall_cons in Hh as [Hh Hl].
  destruct (free_page_frames a n Hwf Hh) as (W & T & F). destruct (free_page_source a n Hwf Hh) as [_ Ho].
  change (released (n :: l) a) with (released l (free_page (n * PAGE_SIZE) a)).
  destruct (IH _ W Hnd) as (W' & T' & I & O).
  { apply list.Forall_forall. intros q Hq. apply Ho; [by intros ->|]. rewrite list.Forall_forall in Hl. by apply Hl. }
  split; [done|]. split; [congruence|]. split.
  - intros q [->|Hq]%elem_of_cons.
    + rewrite O by done. by rewrite F, decide_True.
    + rewrite I by done. rewrite F, decide_False; [done|]. by intros ->.
  - intros q Hq. apply not_elem_of_cons in Hq as [? ?]. rewrite O by done. by rewrite F, decide_False.
Qed.

(** A loop whose passes release lists of frames, releases their concatenation. *)
Lemma for_range_released (g : Z -> list Z) n lo body s a :
  (forall i a, lo <= i < lo + Z.of_nat n -> body i (set_pa a s) = set_pa (released (g i) a) s) ->
  for_range n lo body (set_pa a s) = set_pa (released (seqZ lo (Z.of_nat n) ≫= g) a) s.
Proof.
  revert lo a. induction n as [|n IH]; intros lo a H; cbn [for_range]; [done|].
  rewrite (seqZ_cons lo) by lia. rewrite H by lia. rewrite bind_cons, released_frames_app.
  rewrite IH by (intros; apply H; lia). do 4 f_equal; lia.
Qed.

(** * The frames of an address space *)

(** The frames of a leaf table's pages, and the frames below a table with [d] levels of
    tables below it, itself included. *)
Definition page_frames (m : pmem) (pt : Z) : list Z :=
  seqZ 0 512 ≫= fun l => let e := entry m pt l in if present e then [pfn e] else [].

Fixpoint tree_frames (m : pmem) (d : nat) (t : Z) : list Z :=
  match d with
  | O => page_frames m t
  | S d' => seqZ 0 512 ≫= fun j => match step m t j with Some t' => tree_frames m d' t' | None => [] end
  end ++ [t / 4096].

Definition space_frames (m : pmem) (root : Z) : list Z :=
  (seqZ 0 511 ≫= fun i => match step m root i with Some t => tree_frames m 2 t | None => [] end) ++ [root / 4096].

Lemma release_table s n l a :
  page_release (n * 4096) (set_pa (released l a) s) = set_pa (released (l ++ [n * 4096 / 4096]) a) s.
Proof. rewrite released_frames_app, Z.div_mul by lia. by destruct s. Qed.

Lemma free_pt_frames s n a : free_pt (n * 4096) (set_pa a s) = set_pa (released (tree_frames (pm s) 0 (n * 4096)) a) s.
Proof.
  unfold free_pt. rewrite (for_range_released (fun l => let e := entry (pm s) (n * 4096) l in if present e then [pfn e] else [])).
  - apply release_table.
  - intros i b _. destruct s; cbn. destruct (present _); [|done]. by rewrite addr_mask.
Qed.

(** A loop over the tables a table names. *)
Lemma each_table_frames s n d a body :
  (forall k a, body (k * 4096) (set_pa a s) = set_pa (released (tree_frames (pm s) d (k * 4096)) a) s) ->
  page_release (n * 4096) (each_table (n * 4096) body (set_pa a s)) = set_pa (released (tree_frames (pm s) (S d) (n * 4096)) a) s.
Proof.
  intros H. unfold each_table.
  rewrite (for_range_released (fun j => match step (pm s) (n * 4096) j with Some t' => tree_frames (pm s) d t' | None => [] end)).
  - apply release_table.
  - intros i b _. unfold step. change (pm (set_pa b s)) with (pm s). cbv zeta.
    destruct (present _); cbn [negb orb andb]; [|by destruct s]. destruct (huge _); cbn [negb]; [by destruct s|]. rewrite addr_mask. apply H.
Qed.

Lemma free_pdpt_frames s n a : free_pdpt (n * 4096) (set_pa a s) = set_pa (released (tree_frames (pm s) 2 (n * 4096)) a) s.
Proof.
  unfold free_pdpt. apply each_table_frames. intros k b. unfold free_pd. apply each_table_frames. intros j c. apply free_pt_frames.
Qed.

Lemma free_space_frames s root :
  pt_wf s root -> free_page_directory root s = set_pa (released (space_frames (pm s) root) (pa s)) s.
Proof.
  intros Hwf. unfold free_page_directory. rewrite (root_truthy _ _ Hwf). cbn [negb].
  destruct (tw_owned _ _ Hwf [] root) as (n & -> & Hn & _); [by split|simpl; lia|done|].
  change (Z.to_nat PML4_HIGHER) with 511%nat.
  match goal with |- page_release _ (for_range _ _ ?b s) = _ => replace (for_range 511 0 b s) with (for_range 511 0 b (set_pa (pa s) s)) by (by rewrite set_pa_pa) end.
  rewrite (for_range_released (fun i => match step (pm s) (n * 4096) i with Some t => tree_frames (pm s) 2 t | None => [] end)).
  - apply release_table.
  - intros i a Hi. change (pm (set_pa a s)) with (pm s). cbv zeta. unfold step.
    assert (Hu : upath ([] ++ [i])) by (split; [constructor; [unfold idx; lia|constructor]|cbn; unfold PML4_HIGHER; intros [=]; lia]).
    pose proof (upper_next s (n * 4096) [] (n * 4096) i Hwf Hu ltac:(simpl; lia) eq_refl) as N. cbv zeta in N.
    destruct (present _); cbn [negb andb]; [|by destruct s]. destruct N as (_ & -> & _). cbn [negb]. rewrite addr_mask. apply free_pdpt_frames.
Qed.

(** * Each frame sits at one place *)

Section places.
  Context (s : vm) (root : Z) (Hwf : pt_wf s root) (Hlw : leaves_wf s root).

  (** Frame [x] is the table at path [p], or holds the page at path [p]. *)
Definition place (p : list Z) (x : Z) : Prop :=
    (upath p /\ (length p <= 3)%nat /\ walk (pm s) root p = Some (x * 4096)) \/
    (exists v, user_va v /\ present (leaf (pm s) root v) = true /\ pfn (leaf (pm s) root v) = x /\ p = vpath v ++ [pt_index v]).

Lemma place_unique p q x : place p x -> place q x -> p = q.
  Proof.
    destruct Hlw as [Hl Hi]. intros [(A1 & A2 & A3)|(v & Hv & Pv & Ev & ->)] [(B1 & B2 & B3)|(w & Hw & Pw & Ew & ->)].
    - by apply (tw_inj _ _ Hwf p q (x * 4096)).
    - destruct (Hl w Hw Pw) as [_ []]. rewrite Ew. by exists p.
    - destruct (Hl v Hv Pv) as [_ []]. rewrite Ev. by exists q.
    - destruct (Hi v w Hv Hw Pv Pw) as [-> ->]; [congruence|done].
  Qed.

Lemma place_page p pt l :
    upath p -> length p = 3%nat -> walk (pm s) root p = Some pt -> idx l -> present (entry (pm s) pt l) = true ->
    place (p ++ [l]) (pfn (entry (pm s) pt l)).
  Proof.
    intros [Hp Hh] Hlen Hw Hl Hpr. destruct p as [|i [|j [|k [|]]]]; try done.
    apply idx_cons in Hp as [Hi Hp]. apply idx_cons in Hp as [Hj Hp]. apply idx_cons in Hp as [Hk _].
    destruct (page_indices i j k l Hi Hj Hk Hl) as [Ev Ep]. right. exists ((block [i; j; k] + l) * 4096). unfold leaf. rewrite Ev, Ep, Hw.
    split_and!; try done. unfold user_va, block. unfold idx in *. assert (i <> 511) by (intros ->; by apply Hh). lia.
  Qed.

Lemma step_frame t j t' : step (pm s) t j = Some t' -> exists k, t' = k * 4096.
  Proof. unfold step. destruct (_ && _); [|done]. intros [= <-]. by eexists. Qed.

Lemma upath_more p q : upath p -> p <> [] -> Forall idx q -> upath (p ++ q).
  Proof. intros [A B] Hp Hq. split; [by apply list.Forall_app|]. by destruct p. Qed.

Lemma in_indices j n : j ∈ seqZ 0 n -> n <= 512 -> idx j.
  Proof. rewrite elem_of_seqZ. unfold idx. lia. Qed.

  (** What is listed below the table at [p] sits there. *)
Lemma tree_places d p k x :
    upath p -> p <> [] -> (length p + d = 3)%nat -> walk (pm s) root p = Some (k * 4096) ->
    x ∈ tree_frames (pm s) d (k * 4096) -> exists q, Forall idx q /\ place (p ++ q) x.
  Proof.
    revert p k. induction d as [|d IH]; intros p k Hu Hne Hlen Hw; cbn [tree_frames]; rewrite elem_of_app; intros [Hx|Hx].
    2, 4: apply list_elem_of_singleton in Hx as ->; exists []; split; [constructor|]; rewrite app_nil_r, Z.div_mul by lia; left; split_and!; [done|lia|done].
    - apply list_elem_of_bind in Hx as (l & Hx & Hl). cbv zeta in Hx. destruct (present _) eqn:Ep; [|by apply not_elem_of_nil in Hx].
      apply list_elem_of_singleton in Hx as ->. pose proof (in_indices _ _ Hl ltac:(lia)) as Hi. exists [l]. split; [by constructor|].
      apply place_page; try done. lia.
    - apply list_elem_of_bind in Hx as (j & Hx & Hj). pose proof (in_indices _ _ Hj ltac:(lia)) as Hi.
      destruct (step _ _ j) as [t'|] eqn:Es; [|by apply not_elem_of_nil in Hx]. destruct (step_frame _ _ _ Es) as [k' ->].
      destruct (IH (p ++ [j]) k') as (q & Hq & Hp); [apply upath_more; [done|done|by constructor]|by destruct p|rewrite length_app; simpl; lia| |done|].
      + by rewrite walk_snoc, Hw.
      + exists (j :: q). split; [by constructor|]. by rewrite <- app_assoc in Hp.
  Qed.

Lemma tree_nodup d p k :
    upath p -> p <> [] -> (length p + d = 3)%nat -> walk (pm s) root p = Some (k * 4096) -> NoDup (tree_frames (pm s) d (k * 4096)).
  Proof.
    revert p k. induction d as [|d IH]; intros p k Hu Hne Hlen Hw; cbn [tree_frames].
    - apply list.NoDup_app. split_and!.
      + apply NoDup_bind; [|intros l Hl; cbv zeta; destruct (present _); [apply NoDup_singleton|constructor]|apply NoDup_seqZ].
        intros a b y Ha Hb. cbv zeta. destruct (present (entry _ _ a)) eqn:Pa; [|by intros ?%not_elem_of_nil].
        destruct (present (entry _ _ b)) eqn:Pb; [|by intros _ ?%not_elem_of_nil]. intros Ea%list_elem_of_singleton Eb%list_elem_of_singleton.
        pose proof (place_page p _ a Hu ltac:(lia) Hw (in_indices _ _ Ha ltac:(lia)) Pa) as Qa.
        pose proof (place_page p _ b Hu ltac:(lia) Hw (in_indices _ _ Hb ltac:(lia)) Pb) as Qb. rewrite <- Ea in Qa. rewrite <- Eb in Qb.
        pose proof (place_unique _ _ _ Qa Qb) as E. by apply app_inv_head in E as [= ->].
      + intros x Hx ->%list_elem_of_singleton. apply list_elem_of_bind in Hx as (l & Hx & Hl). cbv zeta in Hx. destruct (present _) eqn:Ep; [|by apply not_elem_of_nil in Hx].
        apply list_elem_of_singleton in Hx. pose proof (place_page p _ l Hu ltac:(lia) Hw (in_indices _ _ Hl ltac:(lia)) Ep) as Q.
        rewrite <- Hx, Z.div_mul in Q by lia. assert (Qk : place p k) by (left; split_and!; [done|lia|done]).
        pose proof (place_unique _ _ _ Q Qk) as E. apply (f_equal length) in E. rewrite length_app in E. simpl in E. lia.
      + apply NoDup_singleton.
    - assert (Sub : forall j x, j ∈ seqZ 0 512 -> x ∈ match step (pm s) (k * 4096) j with Some t' => tree_frames (pm s) d t' | None => [] end ->
        exists q, place (p ++ j :: q) x).
      { intros j x Hj Hx. pose proof (in_indices _ _ Hj ltac:(lia)) as Hi. destruct (step _ _ j) as [t'|] eqn:Es; [|by apply not_elem_of_nil in Hx].
        destruct (step_frame _ _ _ Es) as [k' ->]. destruct (tree_places d (p ++ [j]) k' x) as (q & _ & Hp);
          [apply upath_more; [done|done|by constructor]|by destruct p|rewrite length_app; simpl; lia|by rewrite walk_snoc, Hw|done|].
        exists q. by rewrite <- app_assoc in Hp. }
      apply list.NoDup_app. split_and!.
      + apply NoDup_bind; [| |apply NoDup_seqZ].
        * intros a b y Ha Hb Ya Yb. destruct (Sub a y Ha Ya) as [qa Qa], (Sub b y Hb Yb) as [qb Qb]. pose proof (place_unique _ _ _ Qa Qb) as E. by apply app_inv_head in E as [= -> _].
        * intros j Hj. destruct (step _ _ j) as [t'|] eqn:Es; [|constructor]. destruct (step_frame _ _ _ Es) as [k' ->].
          apply (IH (p ++ [j])); [apply upath_more; [done|done|constructor; [by eapply in_indices|constructor]]|by destruct p|rewrite length_app; simpl; lia|by rewrite walk_snoc, Hw].
      + intros x Hx ->%list_elem_of_singleton. apply list_elem_of_bind in Hx as (j & Hx & Hj). destruct (Sub j _ Hj Hx) as [q Q]. rewrite Z.div_mul in Q by lia.
        assert (Qk : place p k) by (left; split_and!; [done|lia|done]).
        pose proof (place_unique _ _ _ Q Qk) as E. apply (f_equal length) in E. rewrite length_app in E. simpl in E. lia.
      + apply NoDup_singleton.
  Qed.

  (** The whole space: below the root only the entries under the kernel mirror are looked at. *)
Lemma root_entry i x :
    i ∈ seqZ 0 511 -> x ∈ match step (pm s) root i with Some t' => tree_frames (pm s) 2 t' | None => [] end ->
    exists q, place (i :: q) x.
  Proof.
    intros Hi%elem_of_seqZ Hx. destruct (step _ _ i) as [t'|] eqn:Es; [|by apply not_elem_of_nil in Hx]. destruct (step_frame _ _ _ Es) as [k ->].
    destruct (tree_places 2 [i] k x) as (q & _ & Q); [split; [constructor; [unfold idx; lia|constructor]|cbn; unfold PML4_HIGHER; intros [=]; lia]|done|done|by cbn; rewrite Es|done|by exists q].
  Qed.

Lemma root_place : exists n, root = n * 4096 /\ place [] n.
  Proof.
    destruct (tw_owned _ _ Hwf [] root) as (n & E & _ & _); [by split|simpl; lia|done|]. exists n. split; [done|].
    left. split; [by split|]. split; [simpl; lia|]. by rewrite <- E.
  Qed.

Lemma space_nodup : NoDup (space_frames (pm s) root).
  Proof.
    destruct root_place as (n & En & Pn). unfold space_frames. apply list.NoDup_app. split_and!.
    - apply NoDup_bind; [| |apply NoDup_seqZ].
      + intros a b y Ha Hb Ya Yb. destruct (root_entry a y Ha Ya) as [qa Qa], (root_entry b y Hb Yb) as [qb Qb]. by pose proof (place_unique _ _ _ Qa Qb) as [= -> _].
      + intros i Hi%elem_of_seqZ. destruct (step _ _ i) as [t'|] eqn:Es; [|constructor]. destruct (step_frame _ _ _ Es) as [k ->].
        apply (tree_nodup 2 [i]); [split; [constructor; [unfold idx; lia|constructor]|cbn; unfold PML4_HIGHER; intros [=]; lia]|done|done|by cbn; rewrite Es].
    - intros x Hx ->%list_elem_of_singleton. apply list_elem_of_bind in Hx as (i & Hx & Hi). destruct (root_entry i _ Hi Hx) as [q Q].
      rewrite En, Z.div_mul in Q by lia. by pose proof (place_unique _ _ _ Q Pn).
    - apply NoDup_singleton.
  Qed.

Lemma tree_tables d k q x :
    Forall idx q -> (length q <= d)%nat -> walk (pm s) (k * 4096) q = Some (x * 4096) -> x ∈ tree_frames (pm s) d (k * 4096).
  Proof.
    revert k q. induction d as [|d IH]; intros k q Hq Hl Hw; cbn [tree_frames]; rewrite elem_of_app.
    - destruct q; [|simpl in Hl; lia]. injection Hw as Hw. right. apply list_elem_of_singleton. rewrite Z.div_mul; lia.
    - destruct q as [|j q]; [injection Hw as Hw; right; apply list_elem_of_singleton; rewrite Z.div_mul; lia|]. apply idx_cons in Hq as [Hj Hq]. left.
      apply list_elem_of_bind. exists j. split; [|apply elem_of_seqZ; unfold idx in Hj; lia]. cbn [walk] in Hw.
      destruct (step _ _ j) as [t'|] eqn:Es; [|done]. destruct (step_frame _ _ _ Es) as [k' ->]. apply (IH k' q); [done|simpl in Hl; lia|done].
  Qed.

Lemma tree_pages d k q l pt :
    Forall idx q -> length q = d -> walk (pm s) (k * 4096) q = Some pt -> idx l -> present (entry (pm s) pt l) = true ->
    pfn (entry (pm s) pt l) ∈ tree_frames (pm s) d (k * 4096).
  Proof.
    intros Hq Hl Hw Hi Hp. revert k q Hq Hl Hw. induction d as [|d IH]; intros k q Hq Hl Hw; cbn [tree_frames]; rewrite elem_of_app; left; apply list_elem_of_bind.
    - destruct q; [|done]. injection Hw as Hw. exists l. cbv zeta. rewrite Hw, Hp. split; [by apply list_elem_of_singleton|apply elem_of_seqZ; unfold idx in Hi; lia].
    - destruct q as [|j q]; [done|]. apply idx_cons in Hq as [Hj Hq]. exists j. split; [|apply elem_of_seqZ; unfold idx in Hj; lia]. cbn [walk] in Hw.
      destruct (step _ _ j) as [t'|] eqn:Es; [|done]. destruct (step_frame _ _ _ Es) as [k' ->]. apply (IH k' q); [done|simpl in Hl; lia|done].
  Qed.

  (** The frames an address space has: those of its tables and those of its pages. *)
Definition in_space (x : Z) : Prop :=
    is_table s root x \/ exists v, user_va v /\ present (leaf (pm s) root v) = true /\ pfn (leaf (pm s) root v) = x.

Lemma place_in_space p x : place p x -> in_space x.
  Proof. intros [(A & B & C)|(v & A & B & C & _)]; [left; by exists p|right; by exists v]. Qed.

Lemma space_frames_in x : x ∈ space_frames (pm s) root <-> in_space x.
  Proof.
    destruct root_place as (n & En & Pn). unfold space_frames. rewrite elem_of_app. split.
    - intros [Hx|Hx].
      + apply list_elem_of_bind in Hx as (i & Hx & Hi). destruct (root_entry i x Hi Hx) as [q Q]. by eapply place_in_space.
      + apply list_elem_of_singleton in Hx as ->. rewrite En, Z.div_mul by lia. by eapply place_in_space.
    - assert (Below : forall i q t, upath (i :: q) -> walk (pm s) root (i :: q) = Some t -> i ∈ seqZ 0 511 /\ exists k, step (pm s) root i = Some (k * 4096) /\ walk (pm s) (k * 4096) q = Some t).
      { intros i q t [Hq Hh] Hw. apply idx_cons in Hq as [Hi _]. assert (i <> 511) by (intros ->; by apply Hh). split; [apply elem_of_seqZ; unfold idx in Hi; lia|].
        cbn [walk] in Hw. destruct (step _ _ i) as [t'|] eqn:Es; [|done]. destruct (step_frame _ _ _ Es) as [k ->]. by exists k. }
      intros [(p & Hu & Hl & Hw)|(v & Hv & Hp & <-)].
      + destruct p as [|i q].
        * right. injection Hw as ->. apply list_elem_of_singleton. rewrite Z.div_mul; lia.
        * left. destruct (Below i q _ Hu Hw) as (Hi & k & Es & Hw'). apply list_elem_of_bind. exists i. rewrite Es. split; [|done].
          apply (tree_tables 2 k q); [by destruct Hu as [[_ ?]%idx_cons _]|simpl in Hl; lia|done].
      + left. destruct (vpath_upath v Hv) as [Hu Hlen]. destruct (index_range v) as (_ & _ & _ & Hi4). unfold leaf in *.
        destruct (walk (pm s) root (vpath v)) as [pt|] eqn:Ew; [|done]. unfold vpath in *.
        destruct (Below _ _ _ Hu Ew) as (Hi & k & Es & Hw'). apply list_elem_of_bind. exists (pml4_index v). rewrite Es. split; [|done].
        apply (tree_pages 2 k [pdpt_index v; pd_index v] (pt_index v) pt); [|reflexivity|exact Hw'|done|done]. by destruct Hu as [[_ ?]%idx_cons _].
  Qed.
End places.

(** Releasing an address space takes one reference from the frame of every page and of every
    table in it, once however many levels lie above, and leaves all other frames and all of
    memory as they were. *)
Lemma free_page_directory_spec s root :
  pt_wf s root -> leaves_wf s root ->
  let s' := free_page_directory root s in
  fs_inv (pa s') /\ pm s' = pm s /\ total_pages (pa s') = total_pages (pa s) /\
  (forall k, in_space s root k -> frame_state (pa s') k = drop_ref (frame_state (pa s) k)) /\
  (forall k, ~ in_space s root k -> frame_state (pa s') k = frame_state (pa s) k) /\
  (forall k, ~ in_space s root k -> fs_owned (pa s') k <-> fs_owned (pa s) k).
Proof.
  intros Hwf Hlw. cbv zeta. rewrite free_space_frames by done.
  destruct (released_spec (space_frames (pm s) root) (pa s) (tw_inv _ _ Hwf) (space_nodup s root Hwf Hlw)) as (W & T & I & O).
  { apply list.Forall_forall. intros x Hx. apply space_frames_in in Hx as [Ht|(v & Hv & Hp & <-)]; [by eapply table_owned|by apply (proj1 Hlw)|done..]. }
  assert (E : forall k, ~ in_space s root k -> frame_state (released (space_frames (pm s) root) (pa s)) k = frame_state (pa s) k).
  { intros k Hk. apply O. intros Hin. apply Hk. by apply space_frames_in. }
  split_and!; [exact W|by destruct s|exact T| |exact E|].
  - intros k Hk. apply I. by apply space_frames_in.
  - intros k Hk. specialize (E k Hk). injection E as E _ _. destruct s; cbn in *. unfold held. by rewrite E, T.
Qed.
