(* ===== verification/UserTree.v ===== *)
(** Page tables user mode can walk: every upper entry of a space built by map_page_dir with the
    user flag, or by the walker, has the user bit, so a mapped user page is reached by the
    kernel's own translation of user addresses (kernel/syscall.c, user_v2p). *)
From Stdlib Require Import ZArith Lia.
From S2P Require Import Prelude Phys PageAlloc Paging PageTables CowClone UserMem.

Definition user_tree (s : vm) (root : Z) : Prop :=
  forall p t i, upath (p ++ [i]) -> (length p <= 2)%nat -> walk (pm s) root p = Some t ->
  present (entry (pm s) t i) = true -> Z.testbit (entry (pm s) t i) 2 = true.

Lemma upath_last p i : upath (p ++ [i]) -> idx i.
Proof. intros [H _]. apply list.Forall_app in H as [_ H]. by inversion H. Qed.

(** Nothing but the tables counts. *)
Lemma other_user s s' root :
  pt_wf s root -> other_root root s s' ->
  (forall n x, is_table s root n -> n * 4096 <= x < n * 4096 + 4096 -> pm s' x = pm s x) -> user_tree s root -> user_tree s' root.
Proof.
  intros Hwf OR Hm U p t i Hu Hl. assert (Hup : upath p) by (by eapply upath_prefix). rewrite (or_walk _ _ _ OR) by (done || lia). intros Hw.
  assert (E : entry (pm s') t i = entry (pm s) t i).
  { destruct (tw_owned _ _ Hwf p t Hup ltac:(lia) Hw) as (k & -> & _). pose proof (upath_last p i Hu) as Hi. unfold idx in Hi. apply ld64_ext. intros x Hx. apply (Hm k); [exists p; split; [done|split; [lia|done]]|lia]. }
  rewrite E. by apply (U p).
Qed.

Lemma pa_user s a root : user_tree s root -> user_tree (set_pa a s) root.
Proof. intros U. exact U. Qed.

Lemma new_table_user s root p t i n a :
  pt_wf s root -> user_tree s root -> upath (p ++ [i]) -> (length p <= 2)%nat ->
  walk (pm s) root p = Some t -> present (entry (pm s) t i) = false ->
  0 < n < MAX_PAGES -> ~ fs_owned (pa s) n -> fs_inv a ->
  (forall q, fs_owned a q <-> fs_owned (pa s) q \/ q = n) -> (forall q, q <> n -> fs_frame a q = fs_frame (pa s) q) ->
  user_tree (set_entry t i (n * 4096 .| PAGE_PRESENT .| PAGE_WRITABLE .| PAGE_USER) (zero_page (n * 4096) (set_pa a s))) root.
Proof.
  intros Hwf U Hu Hl Hw Hnp Hn Hf Hi Ho Hfr. set (e := _ .| PAGE_USER). set (s' := set_entry _ _ _ _).
  assert (He0 : entry (pm s) t i = 0) by (destruct (tw_upper _ _ Hwf p t i Hu Hl Hw) as [?|(E & _)]; [done|congruence]).
  destruct (table_entry n PAGE_USER Hn ltac:(by right)) as (H1 & H2 & H3 & H4). fold e in H1, H2, H3, H4.
  intros q t' j Hq Hlq. assert (Huq : upath q) by (by eapply upath_prefix). pose proof (upath_last q j Hq) as Hj.
  rewrite (add_walk s s' root p t i n e) by (done || lia). destruct (decide (_ `prefix_of` q)).
  - destruct (decide (q = p ++ [i])); [|done]. intros [= <-]. rewrite (add_entry_new s s' root p t i n e) by done. done.
  - intros Hwq. destruct (tw_owned _ _ Hwf q t' Huq ltac:(lia) Hwq) as (k & -> & _ & Hk). destruct (decide ((k * 4096, j) = (t, i))) as [[= -> ->]|Hne].
    + intros _. rewrite (add_entry_at s s' p t i n e) by done. unfold e. rewrite Z.lor_spec. by rewrite orb_true_r.
    + rewrite (add_entry_old s s' root p t i n e) by done. by apply (U q).
Qed.

Lemma map_level_user s root p t i flags t' s' :
  pt_wf s root -> user_tree s root -> upath (p ++ [i]) -> (length p <= 2)%nat -> walk (pm s) root p = Some t -> Z.testbit flags 2 = true ->
  map_level t i flags s = Go t' s' -> user_tree s' root.
Proof.
  intros Hwf U Hu Hl Hw Hfl. unfold map_level. destruct (present (entry (pm s) t i)) eqn:Ep; cbn [negb].
  - destruct (pt_next _); [|done]. by intros [= _ <-].
  - destruct (page_alloc_cases s (tw_inv _ _ Hwf)) as [(n & a & -> & Hn & Hf & Hi & Ho & Hfr)|Ea]; [|by rewrite Ea].
    rewrite truthy_frame by lia. cbn [negb]. intros [= _ <-]. assert (user_bit flags = PAGE_USER) as -> by (unfold user_bit, PAGE_USER; rewrite truthy_land_bit by lia; by rewrite Hfl). by apply (new_table_user s root p).
Qed.

Lemma pte_walk_user idxs s root p t r s' :
  pt_wf s root -> user_tree s root -> upath (p ++ idxs) -> (length p + length idxs <= 3)%nat -> walk (pm s) root p = Some t ->
  pte_walk idxs t true s = (r, s') -> user_tree s' root.
Proof.
  revert s p t. induction idxs as [|i rest IH]; intros s p t Hwf U Hu Hl Hw; cbn [pte_walk]; [by intros [= _ <-]|].
  simpl in Hl. assert (Hui : upath (p ++ [i])).
  { replace (p ++ i :: rest) with ((p ++ [i]) ++ rest) in Hu by (by rewrite <- app_assoc). by eapply upath_prefix. }
  replace (p ++ i :: rest) with ((p ++ [i]) ++ rest) in Hu by (by rewrite <- app_assoc).
  pose proof (upper_next s root p t i Hwf Hui ltac:(lia) Hw) as H. cbv zeta in H.
  destruct (present (entry (pm s) t i)) eqn:Ep.
  - destruct H as (_ & -> & -> & Hw'). cbn [negb]. apply IH with (p ++ [i]); try done. rewrite length_app; simpl; lia.
  - destruct H as [E Hw']. rewrite E. cbn.
    destruct (page_alloc_cases s (tw_inv _ _ Hwf)) as [(n & a & -> & Hn & Hf & Hi & Ho & Hfr)|Ea]; [|rewrite Ea; by intros [= _ <-]].
    rewrite truthy_frame by lia. cbn.
    destruct (new_table_grows s root p t i n a PAGE_USER) as (Hg & Hw2 & _); try done; [lia|by right|].
    apply IH with (p ++ [i]); try done; [apply Hg|apply (new_table_user s root p); (done || lia)|rewrite length_app; simpl; lia].
Qed.

Lemma leaf_set_user s s' root v t e :
  pt_wf s root -> user_va v -> walk (pm s) root (vpath v) = Some t -> pm s' = st64 (pm s) (t + 8 * pt_index v) e ->
  leaf_set root v e s s' -> user_tree s root -> user_tree s' root.
Proof.
  intros Hwf Hv Ht Hpm LS U p u i Hu Hl. assert (Hup : upath p) by (by eapply upath_prefix). destruct (vpath_upath v Hv) as [Huv Hlv].
  rewrite (ls_walk _ _ _ _ _ LS) by (done || lia). intros Hw. destruct (tw_owned _ _ Hwf p u Hup ltac:(lia) Hw) as (k & -> & _).
  rewrite (set_leaf_entry s s' root v t e Hwf Hv Ht Hpm k i (upath_last p i Hu)). rewrite decide_False; [by apply (U p)|].
  intros [E _]. assert (Ep : p = vpath v) by (eapply (tw_inj _ _ Hwf); [done|done|lia|lia|done|by rewrite E]). rewrite Ep, Hlv in Hl. lia.
Qed.

Lemma map_leaf_pm s t phys v flags : pm (map_leaf t phys v flags s) = st64 (pm s) (t + 8 * pt_index v) (phys .| PAGE_PRESENT .| PAGE_WRITABLE .| user_bit flags .| (flags .& PAGE_NX)).
Proof. unfold map_leaf. by destruct (present _). Qed.

Lemma map_page_dir_user s root n v flags s' :
  pt_wf s root -> user_tree s root -> user_va v -> Z.testbit flags 2 = true ->
  map_page_dir root (n * 4096) v flags s = Some s' -> user_tree s' root.
Proof.
  intros Hwf U Hv Hfl. destruct (vpath_upath v Hv) as [Hu _].
  assert (Hu1 : upath ([] ++ [pml4_index v])) by (by apply (upath_prefix _ [pdpt_index v; pd_index v])).
  assert (Hu2 : upath ([pml4_index v] ++ [pdpt_index v])) by (by apply (upath_prefix _ [pd_index v])).
  unfold map_page_dir, map_pml4.
  destruct (map_level_spec s root [] root _ flags Hwf Hu1 ltac:(simpl; lia) eq_refl) as [(t1 & s1 & E1 & G1 & W1 & _)|[E1 _]]; rewrite E1; cbn [fbind run_void]; [|by intros [= <-]].
  pose proof (map_level_user s root [] root _ flags t1 s1 Hwf U Hu1 ltac:(simpl; lia) eq_refl Hfl E1) as U1.
  destruct (map_level_spec s1 root [pml4_index v] t1 _ flags (g_wf _ _ _ G1) Hu2 ltac:(simpl; lia) W1) as [(t2 & s2 & E2 & G2 & W2 & _)|[E2 _]]; rewrite E2; cbn [fbind run_void]; [|by intros [= <-]].
  pose proof (map_level_user s1 root [pml4_index v] t1 _ flags t2 s2 (g_wf _ _ _ G1) U1 Hu2 ltac:(simpl; lia) W1 Hfl E2) as U2.
  destruct (map_level_spec s2 root [pml4_index v; pdpt_index v] t2 (pd_index v) flags (g_wf _ _ _ G2) Hu ltac:(simpl; lia) W2) as [(t3 & s3 & E3 & G3 & W3 & _)|[E3 _]]; rewrite E3; cbn [fbind run_void]; [|by intros [= <-]].
  pose proof (map_level_user s2 root [pml4_index v; pdpt_index v] t2 (pd_index v) flags t3 s3 (g_wf _ _ _ G2) U2 Hu ltac:(simpl; lia) W2 Hfl E3) as U3.
  intros [= <-]. eapply (leaf_set_user s3); [apply G3|exact Hv|exact W3|apply map_leaf_pm|apply (map_leaf_sets s3 root n v flags t3); [apply G3|done|exact W3]|exact U3].
Qed.

(** * The kernel reaches what user mode reaches *)

Lemma land5 e : Z.testbit e 0 = true -> Z.testbit e 2 = true -> e .& 5 = 5.
Proof.
  intros H0 H2. apply Z.bits_inj'. intros j Hj. rewrite Z.land_spec. destruct (decide (j = 0)) as [->|]; [by rewrite H0|]. destruct (decide (j = 2)) as [->|]; [by rewrite H2|].
  assert (Z.testbit 5 j = false) as ->; [|apply andb_false_r]. destruct (decide (j = 1)) as [->|]; [done|]. apply (Z.bits_above_log2 5); simpl; lia.
Qed.

Lemma user_v2p_mapped s root v :
  pt_wf s root -> user_tree s root -> USER_SPACE_MIN <= v < USER_SPACE_END ->
  present (leaf (pm s) root v) = true -> Z.testbit (leaf (pm s) root v) 2 = true ->
  user_v2p root v (pm s) = pfn (leaf (pm s) root v) * 4096 + v mod 4096.
Proof.
  intros Hwf U Hr Hp H2. assert (Hv : user_va v) by (by apply user_range_va). destruct (vpath_upath v Hv) as [Hu _].
  assert (Hu1 : upath ([] ++ [pml4_index v])) by (by apply (upath_prefix _ [pdpt_index v; pd_index v])).
  assert (Hu2 : upath ([pml4_index v] ++ [pdpt_index v])) by (by apply (upath_prefix _ [pd_index v])).
  unfold user_v2p. rewrite (root_truthy _ _ Hwf), (root_mask _ _ Hwf). cbn [negb].
  destruct (Z.ltb_spec v USER_SPACE_MIN); [lia|]. destruct (Z.leb_spec USER_SPACE_END v); [lia|]. cbn [orb].
  assert (Lf : exists t3, walk (pm s) root (vpath v) = Some t3 /\ leaf (pm s) root v = entry (pm s) t3 (pt_index v)).
  { unfold leaf in *. destruct (walk (pm s) root (vpath v)) as [t3|]; [by exists t3|done]. }
  destruct Lf as (t3 & W3 & El). unfold vpath in W3.
  assert (Lv : forall p t i, upath (p ++ [i]) -> (length p <= 2)%nat -> walk (pm s) root p = Some t -> walk (pm s) root (p ++ [i]) <> None ->
    (entry (pm s) t i .& 5 =? 5) = true /\ walk (pm s) root (p ++ [i]) = Some (entry (pm s) t i .& PTE_ADDR_MASK) /\ huge (entry (pm s) t i) = false).
  { intros p t i Hui Hl Hw Hne. pose proof (upper_next s root p t i Hwf Hui Hl Hw) as N. cbv zeta in N. destruct (present (entry (pm s) t i)) eqn:Ep; [|by destruct N].
    assert (E5 : entry (pm s) t i .& 5 = 5) by (apply land5; [by rewrite <- present_bit|by apply (U p)]). split; [by apply Z.eqb_eq|]. by apply user_level. }
  assert (N1 : walk (pm s) root [pml4_index v] <> None) by (intros E; change [pml4_index v; pdpt_index v; pd_index v] with ([pml4_index v] ++ [pdpt_index v; pd_index v]) in W3; by rewrite walk_app, E in W3).
  assert (N2 : walk (pm s) root [pml4_index v; pdpt_index v] <> None) by (intros E; change [pml4_index v; pdpt_index v; pd_index v] with ([pml4_index v; pdpt_index v] ++ [pd_index v]) in W3; by rewrite walk_app, E in W3).
  destruct (Lv [] root _ Hu1 ltac:(simpl; lia) eq_refl N1) as (-> & W1 & _). simpl app in W1. cbn [negb].
  destruct (Lv [pml4_index v] _ (pdpt_index v) Hu2 ltac:(simpl; lia) W1 N2) as (-> & W2 & Hh2). simpl app in W2. rewrite huge_0x80, Hh2. cbn [negb].
  destruct (Lv [pml4_index v; pdpt_index v] _ (pd_index v) Hu ltac:(simpl; lia) W2 ltac:(cbn [app]; congruence)) as (-> & W3' & Hh3). simpl app in W3'. rewrite huge_0x80, Hh3. cbn [negb].
  rewrite W3' in W3. injection W3 as ->. rewrite <- El. rewrite (land5 (leaf (pm s) root v)) by (done || by rewrite <- present_bit). rewrite Z.eqb_refl. cbn [negb].
  rewrite addr_mask. f_equal. change 0xFFF with (Z.ones 12). rewrite Z.land_ones by lia. done.
Qed.
