(* ===== verification/NewSpace.v ===== *)
(** An address space that is being built (the loader, kernel/elf.c, and the libraries,
    kernel/shared_libc.c): what installing a page and writing into it do to the space, and that
    no frame that was in use before is touched.

    [kept s0 pd L s]: from [s0] to [s] only the space of [pd] has changed; of the frames in use
    in [s0] it has at most those in [L], which are shared with it. *)
From Stdlib Require Import ZArith Lia.
From S2P Require Import Prelude Phys PageAlloc Paging PageTables CowClone Process Fault FreeSpace UserTree.

(** What a computation with early returns leaves. *)
Definition fpost {A} (c : flow A) (Q : A -> vm -> Prop) (R : vm -> Prop) : Prop :=
  match c with Go a s => Q a s | Ret s => R s | Panic => False end.

Lemma fpost_bind {A B} (c : flow A) (f : A -> vm -> flow B) Q R :
  fpost c (fun a s => fpost (f a s) Q R) R -> fpost (fbind c f) Q R.
Proof. by destruct c. Qed.

Lemma fpost_mono {A} (c : flow A) (Q Q' : A -> vm -> Prop) (R : vm -> Prop) :
  fpost c Q R -> (forall a s, Q a s -> Q' a s) -> fpost c Q' R.
Proof. destruct c; cbn; auto. Qed.

Lemma fpost_impl {A} (c : flow A) (Q Q' : A -> vm -> Prop) (R R' : vm -> Prop) :
  fpost c Q R -> (forall a s, Q a s -> Q' a s) -> (forall s, R s -> R' s) -> fpost c Q' R'.
Proof. destruct c; cbn; auto. Qed.

Lemma fpost_for (I : Z -> vm -> Prop) (R : vm -> Prop) n lo body s :
  I lo s -> (forall i s, lo <= i < lo + Z.of_nat n -> I i s -> fpost (body i s) (fun _ s' => I (i + 1) s') R) ->
  fpost (for_flow n lo body s) (fun _ s' => I (lo + Z.of_nat n) s') R.
Proof.
  revert lo s. induction n as [|n IH]; intros lo s H0 Hstep; cbn [for_flow].
  - by rewrite Z.add_0_r.
  - apply fpost_bind. eapply fpost_mono; [apply Hstep; [lia|done]|]. intros [] s1 H1.
    replace (lo + Z.of_nat (S n)) with (lo + 1 + Z.of_nat n) by lia. apply IH; [done|]. intros i s2 Hi. apply Hstep. lia.
Qed.

(** No frame is left. *)
Definition exhausted (s : vm) : Prop := page_alloc s = (0, s).

Lemma exhausted_pa s s' : pa s' = pa s -> exhausted s -> exhausted s'.
Proof.
  unfold exhausted, page_alloc. intros Ep. rewrite Ep. destruct (alloc_page (pa s)) as [p a]. intros [= -> H].
  assert (a = pa s') as -> by (rewrite Ep; by apply (f_equal pa) in H). by rewrite set_pa_pa.
Qed.

Definition in_frame (n x : Z) : Prop := n * 4096 <= x < n * 4096 + 4096.

Record kept (s0 : vm) (pd : Z) (L : list Z) (s : vm) : Prop := {
  k_wf : pt_wf s pd;
  k_leaves : leaves_wf s pd;
  k_tables : forall n, fs_owned (pa s0) n -> ~ is_table s pd n;
  k_new : forall n, fs_owned (pa s0) n -> in_space s pd n -> n ∈ L;
  k_owned : forall n, fs_owned (pa s0) n -> fs_owned (pa s) n;
  k_frames : forall n, fs_owned (pa s0) n -> n ∉ L -> fs_frame (pa s) n = fs_frame (pa s0) n;
  k_data : forall n x, fs_owned (pa s0) n -> in_frame n x -> pm s x = pm s0 x;
  k_user : user_tree s pd;
  k_one : forall n, fs_owned (pa s) n -> ~ fs_owned (pa s0) n -> fs_frame (pa s) n = fresh_frame
}.

(** The books: a frame in use was in use before, or is in the space, or is one of [X]. *)
Definition acct (s0 : vm) (pd : Z) (X : list Z) (s : vm) : Prop :=
  forall n, fs_owned (pa s) n -> fs_owned (pa s0) n \/ in_space s pd n \/ n ∈ X.

(** Every frame that was taken is in the space, except for one when memory has run out. *)
Definition tight (s0 : vm) (pd : Z) (s : vm) : Prop := acct s0 pd [] s \/ exhausted s /\ exists l, acct s0 pd [l] s.

(** A frame the builder may write: its own, and no table. *)
Definition own (s0 : vm) (pd : Z) (s : vm) (n : Z) : Prop :=
  0 < n < MAX_PAGES /\ fs_owned (pa s) n /\ ~ is_table s pd n /\ ~ fs_owned (pa s0) n.

(** The byte a program sees at [x]. *)
Definition ubyte (s : vm) (pd x : Z) : Z := u8 (pm s (pfn (leaf (pm s) pd x) * 4096 + x mod 4096)).

(** [x] is mapped and reads as before. *)
Definition same_at (s s' : vm) (pd x : Z) : Prop :=
  leaf (pm s') pd x = leaf (pm s) pd x /\ (present (leaf (pm s) pd x) = true -> ubyte s' pd x = ubyte s pd x).

Lemma same_at_refl s pd x : same_at s s pd x.
Proof. by split. Qed.
Lemma same_at_trans s1 s2 s3 pd x : same_at s1 s2 pd x -> same_at s2 s3 pd x -> same_at s1 s3 pd x.
Proof. intros [A B] [C D]. split; [congruence|]. intros H. rewrite D, B; [done|done|congruence]. Qed.
#[export] Hint Resolve same_at_refl : nyx.

Lemma in_space_leaf s pd x : user_va x -> present (leaf (pm s) pd x) = true -> in_space s pd (pfn (leaf (pm s) pd x)).
Proof. intros Hx Hp. right. by exists x. Qed.

Lemma ubyte_frame s pd x : in_frame (pfn (leaf (pm s) pd x)) (pfn (leaf (pm s) pd x) * 4096 + x mod 4096).
Proof. unfold in_frame. pose proof (Z.mod_pos_bound x 4096). lia. Qed.

Lemma in_frame_unique n k x : in_frame n x -> in_frame k x -> n = k.
Proof. unfold in_frame. lia. Qed.

(** The entry of a page the loader installs: present, writable, and as asked for otherwise. *)
Lemma mapped_leaf_facts n flags : 0 < n < MAX_PAGES -> 0 <= flags -> private_leaf n flags (u64 (mapped_leaf n flags)).
Proof.
  rewrite max_pages_val. intros Hn Hf. replace (mapped_leaf n flags) with (private_entry (n * 4096) flags); [apply private_entry_leaf; lia|].
  unfold private_entry, mapped_leaf. f_equal. f_equal. unfold user_bit, truthy. destruct (Z.eqb_spec (flags .& PAGE_USER) 0) as [->|Hne]; [done|]. cbn [negb].
  apply Z.bits_inj'. intros j Hj. unfold PAGE_USER in *. rewrite land_bit_bit by lia. destruct (Z.eqb_spec j 2) as [->|Hj2].
  - destruct (Z.testbit flags 2) eqn:E; [done|]. destruct Hne. apply Z.bits_inj'. intros i Hi. rewrite land_bit_bit, Z.bits_0 by lia. destruct (i =? 2); [done|done].
  - rewrite Z.shiftl_spec by done. symmetry. destruct (Z.ltb_spec j 2); [apply Z.testbit_neg_r; lia|apply (Z.bits_above_log2 1); simpl; lia].
Qed.

Section build.
  Context (s0 : vm) (pd : Z) (L : list Z).

Lemma leaves_owned s a :
    leaves_wf s pd -> (forall n, fs_owned (pa s) n -> fs_owned a n) -> leaves_wf (set_pa a s) pd.
  Proof.
    intros [A B] Ho. split; [|exact B]. intros v Hv Hp. destruct (A v Hv Hp) as [C D]. split; [by apply Ho|exact D].
  Qed.

  (** Taking a frame. *)
Lemma kept_alloc s :
    kept s0 pd L s ->
    (exists n a, page_alloc s = (n * 4096, set_pa a s) /\ truthy (n * 4096) = true /\ kept s0 pd L (set_pa a s) /\
       own s0 pd (set_pa a s) n /\ ~ in_space s pd n /\ (forall k, own s0 pd s k -> own s0 pd (set_pa a s) k) /\
       (forall X, acct s0 pd X s -> acct s0 pd (n :: X) (set_pa a s))) \/
    page_alloc s = (0, s).
  Proof.
    intros [W Lw T N O F D U One]. destruct (page_alloc_cases s (tw_inv _ _ W)) as [(n & a & E & Hn & Hf & Hi & Ho & Hfr)|E]; [left|by right].
    exists n, a. split; [done|]. split; [apply truthy_frame; lia|].
    assert (Om : forall k, fs_owned (pa s) k -> fs_owned a k) by (intros k Hk; apply Ho; by left).
    split_and!.
    - constructor; [by apply same_memory_wf|by apply leaves_owned|exact T|exact N| | |exact D|exact U|].
      + intros k Hk. by apply Om, O.
      + intros k Hk Hl. rewrite Hfr; [by apply F|]. intros ->. by apply Hf, O.
      + intros k Hk Hk0. destruct (decide (k = n)) as [->|Hne]; [by apply (page_alloc_fresh s n a (tw_inv _ _ W)); [lia|]|].
        change (pa (set_pa a s)) with a. rewrite Hfr by done. apply One; [|done]. by apply Ho in Hk as [Hk|Hk].
    - split_and!; [lia|lia|apply Ho; by right| |]; [|intros H; by apply Hf, O]. intros Ht. apply Hf. by eapply table_owned.
    - intros [Ht|(v & Hv & Hp & <-)]; [apply Hf; by eapply table_owned|]. apply Hf. by apply (proj1 Lw).
    - intros k (A & B & C & E'). split_and!; try done; [lia|lia|by apply Om].
    - intros X HX k Hk. apply Ho in Hk as [Hk| ->]; [|right; right; apply list_elem_of_here].
      destruct (HX k Hk) as [?|[Hin|?]]; [by left|right; left|right; right; by apply list_elem_of_further].
      destruct Hin as [Ht|Hp]; [by left|by right].
  Qed.

  (** Writing into an own frame: the tables stand, and only that frame's bytes change. *)
Lemma kept_write s n m' :
    kept s0 pd L s -> own s0 pd s n -> (forall x, ~ in_frame n x -> m' x = pm s x) ->
    kept s0 pd L (set_pm m' s) /\ own s0 pd (set_pm m' s) n /\
    (forall x, user_va x -> leaf m' pd x = leaf (pm s) pd x) /\
    (forall x, user_va x -> pfn (leaf (pm s) pd x) <> n -> same_at s (set_pm m' s) pd x) /\
    (forall X, acct s0 pd X s -> acct s0 pd X (set_pm m' s)).
  Proof.
    intros [W Lw T N O F D U One] (Hn & Hon & Hnt & Hn0) Hm.
    assert (OR : other_root pd s (set_pm m' s)).
    { apply other_root_intro; [done|apply W|intros k Hk; by apply (table_owned s pd)|]. intros k x Hk Hx. apply Hm. intros Hx'.
      apply Hnt. by rewrite (in_frame_unique n k x). }
    pose proof (or_table _ _ _ OR) as OT. pose proof (or_leaf _ _ _ OR) as OL.
    split_and!.
    - constructor; [apply OR| | | |exact O|exact F| | |exact One].
      + destruct Lw as [A B]. split.
        * intros v Hv. rewrite OL by done. intros Hp. destruct (A v Hv Hp). split; [done|]. by rewrite OT.
        * intros v w Hv Hw. rewrite !OL by done. by apply B.
      + intros k Hk. rewrite OT. by apply T.
      + intros k Hk [Ht|(v & Hv & Hp & E)]; apply N; try done; [left; by apply OT|right; exists v]. rewrite OL in Hp, E by done. done.
      + intros k x Hk Hx. cbn. rewrite Hm; [by eapply D|]. intros Hx'. apply Hn0. by rewrite (in_frame_unique n k x).
      + apply (other_user s _ pd W OR); [|exact U]. intros k x Hk Hx. apply Hm. intros Hx'. apply Hnt. by rewrite (in_frame_unique n k x).
    - split_and!; try done; [lia|lia|]. by rewrite OT.
    - exact OL.
    - intros x Hx Hne. split; [by apply OL|]. intros _. unfold ubyte. rewrite OL by done. f_equal. cbn. apply Hm. intros Hf.
      apply Hne. by apply (in_frame_unique _ n _ (ubyte_frame s pd x)).
    - intros X HX k Hk. destruct (HX k Hk) as [?|[Hin|?]]; [by left|right; left|by right; right].
      destruct Hin as [Ht|(v & Hv & Hp & E)]; [left; by apply OT|right; exists v]. by rewrite !OL.
  Qed.

  (** Installing an own frame that is not in the space yet. *)
Lemma kept_map s n v flags :
    kept s0 pd L s -> own s0 pd s n -> ~ in_space s pd n -> user_va v -> 0 <= flags -> Z.testbit flags 2 = true ->
    exists s', map_page_dir pd (n * 4096) v flags s = Some s' /\ kept s0 pd L s' /\ own s0 pd s' n /\
      (forall x, user_va x -> ~ same_page v x -> same_at s s' pd x) /\
      (exhausted s' \/ forall x, user_va x -> same_page v x -> leaf (pm s') pd x = u64 (mapped_leaf n flags)) /\
      (forall k x, fs_owned (pa s) k -> ~ is_table s pd k -> in_frame k x -> pm s' x = pm s x) /\
      (forall k, own s0 pd s k -> own s0 pd s' k) /\
      (present (leaf (pm s) pd v) = false -> forall X, acct s0 pd (n :: X) s -> acct s0 pd X s' \/ exhausted s' /\ acct s0 pd (n :: X) s').
  Proof.
    intros K (Hn & Hon & Hnt & Hn0) Hni Hv Hfl Hf2. pose proof K as [W Lw T N O F D U One].
    destruct (map_page_dir_full s pd n v flags W Hv) as (s' & E & W' & (Owi & Fr & Fresh & Tb) & Tn & Dt & Lf).
    assert (Ow : forall k, fs_owned (pa s) k -> fs_owned (pa s') k) by (intros k Hk; apply Owi; by left).
    destruct (mapped_leaf_facts n flags ltac:(lia) Hfl) as [Hpfn Hpres _ _ _ _].
    assert (Lw' : leaves_wf s' pd /\ (forall k, fs_owned (pa s0) k -> in_space s' pd k -> k ∈ L)).
    { destruct Lw as [A B]. destruct Lf as [[Lf _]|[Lf _]].
      - split; [split|].
        + intros w Hw. rewrite Lf by done. destruct (decide _) as [Es|Es]; [rewrite Hpfn|]; intros Hp.
          * split; [by apply Ow|]. intros Ht. by apply Hnt, Tn.
          * destruct (A w Hw Hp) as [C C']. split; [by apply Ow|]. intros Ht. by apply C', Tn.
        + intros w1 w2 Hw1 Hw2. rewrite !Lf by done. destruct (decide (same_page v w1)) as [[E1 E2]|E1], (decide (same_page v w2)) as [[E3 E4]|E3].
          * intros _ _ _. split; congruence.
          * rewrite Hpfn. intros _ Hp Eq. destruct Hni. right. by exists w2.
          * rewrite Hpfn. intros Hp _ Eq. destruct Hni. right. by exists w1.
          * by apply B.
        + intros k Hk [Ht|(w & Hw & Hp & Eq)]; [by destruct (T k Hk (Tn k Ht (O k Hk)))|]. rewrite Lf in Hp, Eq by done.
          destruct (decide _); [|apply N; [done|right; by exists w]]. rewrite Hpfn in Eq. by subst k.
      - split; [split|].
        + intros w Hw. rewrite Lf by done. intros Hp. destruct (A w Hw Hp) as [C C']. split; [by apply Ow|]. intros Ht. by apply C', Tn.
        + intros w1 w2 Hw1 Hw2. rewrite !Lf by done. by apply B.
        + intros k Hk [Ht|(w & Hw & Hp & Eq)]; [by destruct (T k Hk (Tn k Ht (O k Hk)))|]. rewrite Lf in Hp, Eq by done. apply N; [done|right; by exists w]. }
    destruct Lw' as [Lw' N']. exists s'. split; [done|]. split_and!.
    - constructor; [done|done| |done| | | |exact (map_page_dir_user s pd n v flags s' W U Hv Hf2 E)|].
      + intros k Hk Ht. by apply (T k Hk), Tn; [|apply O].
      + intros k Hk. by apply Ow, O.
      + intros k Hk Hl. rewrite Fr by (by apply O). by apply F.
      + intros k x Hk Hx. rewrite (Dt k x); [by eapply D|by apply O|by apply T|done].
      + intros k Hk Hk0. destruct (is_free (pa s) k) eqn:Ef.
        * apply Fresh; [done|]. intros [_ H]. congruence.
        * destruct (decide (0 < k < total_pages (pa s))); [assert (Hko : fs_owned (pa s) k) by (by split); transitivity (fs_frame (pa s) k); [by apply Fr|by apply One]|].
          apply Fresh; [done|]. by intros [H _].
    - split_and!; try done; [lia|lia|by apply Ow|]. intros Ht. by apply Hnt, Tn.
    - intros x Hx Hs. assert (El : leaf (pm s') pd x = leaf (pm s) pd x) by (destruct Lf as [[Lf _]|[Lf _]]; rewrite Lf by done; [by rewrite decide_False|done]).
      split; [done|]. intros Hp. unfold ubyte. rewrite El. f_equal. destruct (proj1 Lw x Hx Hp) as [C C']. apply (Dt _ _ C C'). apply ubyte_frame.
    - destruct Lf as [[Lf _]|(_ & _ & Ha)]; [right|by left]. intros x Hx Hs. rewrite Lf by done. by rewrite decide_True.
    - exact Dt.
    - intros k (A & B & C & E'). split_and!; try done; [lia|lia|by apply Ow|]. intros Ht. by apply C, Tn.
    - intros Hab X HX. assert (Old : forall k, in_space s pd k -> in_space s' pd k).
      { intros k [Ht|(w & Hw & Hp & Eq)]; [left; by apply Tb|right; exists w]. split; [done|]. destruct Lf as [[Lf _]|[Lf _]]; rewrite Lf by done; [|done].
        destruct (decide (same_page v w)) as [[E1 E2]|]; [|done]. unfold leaf in Hp, Hab. rewrite <- E1, <- E2 in Hp. congruence. }
      assert (Keep : acct s0 pd (n :: X) s').
      { intros k Hk. apply Owi in Hk as [Hk|Ht]; [|right; left; by left]. destruct (HX k Hk) as [?|[Hin|?]]; [by left|right; left; by apply Old|by right; right]. }
      destruct Lf as [[Lf _]|(_ & _ & Ha)]; [left|by right]. intros k Hk. destruct (Keep k Hk) as [?|[?|[->|?]%elem_of_cons]]; [by left|by right; left| |by right; right].
      right; left; right. exists v. rewrite Lf, decide_True by done. by rewrite Hpres.
  Qed.

  (** Tables are added below the root. *)
Lemma kept_grows s s' : kept s0 pd L s -> grows pd s s' -> tables_only pd s s' -> user_tree s' pd -> kept s0 pd L s' /\ (forall x, user_va x -> same_at s s' pd x).
  Proof.
    intros [W [A B] T N O F D U One] G TO U'. split.
    - constructor; [apply G| | | | | | |exact U'|].
      + split.
        * intros v Hv. rewrite (g_leaf _ _ _ G) by done. intros Hp. destruct (A v Hv Hp) as [C C']. split; [by apply G|]. intros Ht. by apply C', (g_new _ _ _ G).
        * intros v w Hv Hw. rewrite !(g_leaf _ _ _ G) by done. by apply B.
      + intros k Hk Ht. by apply (T k Hk), (g_new _ _ _ G); [|apply O].
      + intros k Hk [Ht|(w & Hw & Hp & Eq)]; [by destruct (T k Hk (g_new _ _ _ G k Ht (O k Hk)))|]. rewrite (g_leaf _ _ _ G) in Hp, Eq by done. apply N; [done|right; by exists w].
      + intros k Hk. by apply G, O.
      + intros k Hk Hl. rewrite (g_frames _ _ _ G) by (by apply O). by apply F.
      + intros k x Hk Hx. rewrite (g_data _ _ _ G k x); [by eapply D|by apply O|by apply T|done].
      + intros k Hk Hk0. destruct (TO k Hk) as [Hk1|[_ ?]]; [|done]. rewrite (g_frames _ _ _ G) by done. by apply One.
    - intros x Hx. split; [by apply (g_leaf _ _ _ G)|]. intros Hp. unfold ubyte. rewrite (g_leaf _ _ _ G) by done. f_equal.
      destruct (A x Hx Hp) as [C C']. apply (g_data _ _ _ G _ _ C C'). apply ubyte_frame.
  Qed.

  (** A frame that is shared with the space is mapped: its count is adjusted by its sharer. *)
Lemma kept_share s s' v n e :
    kept s0 pd L s -> leaf_set pd v e s s' -> pa s' = pa s -> user_va v -> fs_owned (pa s0) n -> n ∉ L -> pfn (u64 e) = n -> user_tree s' pd ->
    kept s0 pd (n :: L) s' /\ (forall x, user_va x -> ~ same_page v x -> same_at s s' pd x).
  Proof.
    intros [W [A B] T N O F D U One] LS Epa Hv Hn Hl He U'.
    assert (Tb : forall k, is_table s' pd k <-> is_table s pd k) by (intros k; by apply (leaf_set_tables pd v e)).
    assert (Hni : forall w, user_va w -> present (leaf (pm s) pd w) = true -> pfn (leaf (pm s) pd w) <> n) by (intros w Hw Hp E; apply Hl, N; [done|right; by exists w]).
    split.
    - constructor; [apply LS| | | | | | |exact U'|].
      + split.
        * intros w Hw. rewrite (ls_leaf _ _ _ _ _ LS) by done. destruct (decide _); intros Hp; rewrite Epa, Tb.
          -- rewrite He. split; [by apply O|by apply T].
          -- by apply A.
        * intros w1 w2 H1 H2. rewrite !(ls_leaf _ _ _ _ _ LS) by done. destruct (decide (same_page v w1)) as [[E1 E2]|E1], (decide (same_page v w2)) as [[E3 E4]|E3].
          -- intros _ _ _. split; congruence.
          -- rewrite He. intros _ Hp E. by destruct (Hni w2 H2 Hp).
          -- rewrite He. intros Hp _ E. by destruct (Hni w1 H1 Hp).
          -- by apply B.
      + intros k Hk. rewrite Tb. by apply T.
      + intros k Hk [Ht|(w & Hw & Hp & Eq)]; [by destruct (T k Hk (proj1 (Tb k) Ht))|]. rewrite (ls_leaf _ _ _ _ _ LS) in Hp, Eq by done.
        destruct (decide _); [rewrite He in Eq; subst k; apply list_elem_of_here|]. apply list_elem_of_further, N; [done|right; by exists w].
      + intros k Hk. rewrite Epa. by apply O.
      + intros k Hk Hkl. rewrite Epa. apply F; [done|]. intros H. apply Hkl. by apply list_elem_of_further.
      + intros k x Hk Hx. rewrite (ls_data _ _ _ _ _ LS k x); [by eapply D|by apply T|done].
      + rewrite Epa. exact One.
    - intros x Hx Hne. assert (El : leaf (pm s') pd x = leaf (pm s) pd x) by (rewrite (ls_leaf _ _ _ _ _ LS) by done; by rewrite decide_False).
      split; [done|]. intros Hp. unfold ubyte. rewrite El. f_equal. apply (ls_data _ _ _ _ _ LS (pfn (leaf (pm s) pd x))); [by apply A|apply ubyte_frame].
  Qed.

Lemma kept_incref s n : kept s0 pd L s -> n ∈ L -> fs_owned (pa s0) n -> kept s0 pd L (set_pa (page_incref (n * 4096) (pa s)) s).
  Proof.
    intros [W Lw T N O F D U One] Hn Ho. pose proof (tw_inv _ _ W) as Hi.
    destruct (page_incref_frames (pa s) n Hi (O n Ho)) as (W' & Tt & Fr). unfold PAGE_SIZE in W', Tt, Fr.
    assert (Om : forall k, fs_owned (pa s) k -> fs_owned (page_incref (n * 4096) (pa s)) k).
    { intros k [A B]. split; [by rewrite Tt|]. specialize (Fr k). unfold frame_state, bump_ref in Fr. destruct (decide (k = n)) as [->|]; congruence. }
    constructor; [by apply same_memory_wf|by apply leaves_owned|exact T|exact N| | |exact D|exact U|].
    - intros k Hk. by apply Om, O.
    - intros k Hk Hl. cbn. rewrite Fr, decide_False; [by apply F|]. by intros ->.
    - intros k [Hk1 Hk2] Hk0. assert (Hne : k <> n) by (by intros ->). specialize (Fr k). rewrite decide_False in Fr by done.
      transitivity (fs_frame (pa s) k); [exact Fr|]. apply One; [|done]. split; [by rewrite <- Tt|]. change (is_free (page_incref (n * 4096) (pa s)) k = false) in Hk2. unfold frame_state in Fr. congruence.
  Qed.

  (** Taking a frame and mapping it keeps the books; so does writing into one. *)
Lemma tight_mapped s sa s' n :
    tight s0 pd s -> ~ exhausted s -> (forall X, acct s0 pd X s -> acct s0 pd (n :: X) sa) ->
    (forall X, acct s0 pd (n :: X) sa -> acct s0 pd X s' \/ exhausted s' /\ acct s0 pd (n :: X) s') -> tight s0 pd s'.
  Proof.
    intros [H|[? _]] Hne Ha Hm; [|done]. destruct (Hm [] (Ha [] H)) as [?|[? ?]]; [by left|right]. split; [done|by exists n].
  Qed.

Lemma tight_write s s' : tight s0 pd s -> pa s' = pa s -> (forall X, acct s0 pd X s -> acct s0 pd X s') -> tight s0 pd s'.
  Proof.
    intros [H|[He [l H]]] Ep Hw; [left; by apply Hw|right]. split; [by apply (exhausted_pa s)|]. exists l. by apply Hw.
  Qed.
End build.
