(* ===== verification/Elf.v ===== *)
(** The ELF loader (src/kernel/elf.c) and the libraries mapped into programs
    (src/kernel/shared_libc.c).

    The file is the list of its bytes, [size] its length.  A read of the file outside it has no
    result, as a kernel panic has none: a theorem that the loader returns is a theorem that it
    stays inside the file.  [flow] is the loader's control flow, [Ret] standing for the
    [return -1] after which the address space is released. *)
From Stdlib Require Import ZArith Lia.
From S2P Require Import Prelude Packed Phys PageAlloc Paging PageTables CowClone FreeSpace Process Spawn.

(** * The file format (kernel/elf.h) *)

Definition SIZEOF_EHDR : Z := 64.
Definition SIZEOF_PHDR : Z := 56.
Definition SIZEOF_SHDR : Z := 64.
Definition SIZEOF_SYM : Z := 24.
Definition ELF_MAGIC : Z := 0x464C457F.
Definition ELF_64BIT : Z := 2.
Definition ELF_LITTLE_ENDIAN : Z := 1.
Definition EM_X86_64 : Z := 62.
Definition ELF_EXEC : Z := 2.
Definition PT_LOAD : Z := 1.
Definition PF_X : Z := 1.
Definition PF_W : Z := 2.
Definition SHT_SYMTAB : Z := 2.
Definition ELF_MAX_SEGMENT : Z := 256 * 1024 * 1024.

Definition e_type : list Z -> Z := fld 2 16.
Definition e_machine : list Z -> Z := fld 2 18.
Definition e_entry : list Z -> Z := fld 8 24.
Definition e_phoff : list Z -> Z := fld 8 32.
Definition e_shoff : list Z -> Z := fld 8 40.
Definition e_phentsize : list Z -> Z := fld 2 54.
Definition e_phnum : list Z -> Z := fld 2 56.
Definition e_shnum : list Z -> Z := fld 2 60.

(** A read of [w] bytes at offset [o] of the file. *)
Definition rd (w : nat) (o : Z) (data : list Z) : option Z :=
  if (0 <=? o) && (o + Z.of_nat w <=? len data) then Some (fld w o data) else None.

Record phdr := Phdr { p_type : Z; p_flags : Z; p_offset : Z; p_vaddr : Z; p_filesz : Z; p_memsz : Z }.

(** [phdr[i]], the program headers starting at [e_phoff]. *)
Definition program_header (data : list Z) (i : Z) : option phdr :=
  let o := u64 (e_phoff data + SIZEOF_PHDR * i) in
  match rd 4 o data, rd 4 (o + 4) data, rd 8 (o + 8) data, rd 8 (o + 16) data, rd 8 (o + 32) data, rd 8 (o + 40) data with
  | Some ty, Some fl, Some off, Some va, Some fsz, Some msz => Some (Phdr ty fl off va fsz msz)
  | _, _, _, _, _, _ => None
  end.

(** Callers pass a buffer, never NULL. *)
Definition elf_validate (data : list Z) : bool :=
  if len data <? SIZEOF_EHDR then false
  else if negb (fld 4 0 data =? ELF_MAGIC) then false
  else if negb (fld 1 4 data =? ELF_64BIT) then false
  else if negb (fld 1 5 data =? ELF_LITTLE_ENDIAN) then false
  else if negb (e_machine data =? EM_X86_64) then false
  else if negb (e_type data =? ELF_EXEC) then false
  else if e_phnum data =? 0 then false
  else true.

(** * Loading *)

Definition need {A B} (o : option A) (k : A -> flow B) : flow B := match o with Some a => k a | None => Panic end.

Definition map_go (pd phys virt flags : Z) (s : vm) : flow unit :=
  match map_page_dir pd phys virt flags s with Some s' => Go tt s' | None => Panic end.

(** [memcpy_asm] from the file. *)
Definition st_bytes (m : pmem) (a : Z) (l : list Z) : pmem :=
  fun x => if (a <=? x) && (x <? a + len l) then nth (Z.to_nat (x - a)) l 0 else m x.

(** The initial stack: the top page, and the pages below it. *)
Definition load_stack (pd : Z) (s : vm) : flow Z :=
  let '(stack_phys, s) := page_alloc s in
  if negb (truthy stack_phys) then Ret s
  else
    fbind (map_go pd stack_phys USER_STACK_TOP (0x7 .| PAGE_NX) s) (fun _ s =>
    fbind (for_flow (Z.to_nat (USER_STACK_INIT_PAGES - 1)) 1 (fun sp s =>
      let '(pg, s) := page_alloc s in
      if negb (truthy pg) then Ret s
      else map_go pd pg (USER_STACK_TOP - sp * 4096) (0x7 .| PAGE_NX) s) s) (fun _ s =>
    Go stack_phys (set_pm (store_words (stack_phys + 4096 - 32) [0; 0; 0; 0] (pm s)) s))).

Definition segment_flags (ph : phdr) : Z :=
  let flags := if negb (truthy (p_flags ph .& PF_W)) then 0x5 else 0x7 in
  if negb (truthy (p_flags ph .& PF_X)) then flags .| PAGE_NX else flags.

(** The bytes of the file that belong on the page, put into its frame. *)
Definition copy_part (data : list Z) (ph : phdr) (phys page : Z) (s : vm) : flow unit :=
  let data_end := u64 (p_vaddr ph + p_filesz ph) in
  let copy_start := if p_vaddr ph <? page then page else p_vaddr ph in
  let copy_end := if u64 (page + 4096) <? data_end then u64 (page + 4096) else data_end in
  if copy_start <? copy_end then
    let copy_sz := copy_end - copy_start in
    let file_off := u64 (p_offset ph + (copy_start - p_vaddr ph)) in
    if file_off + copy_sz <=? len data
    then Go tt (set_pm (st_bytes (pm s) (phys + (copy_start - page)) (slice file_off copy_sz data)) s)
    else Panic
  else Go tt s.

(** The part of the page behind the file's bytes and inside the segment, cleared. *)
Definition zero_part (ph : phdr) (phys page : Z) (s : vm) : vm :=
  let page_end := u64 (page + 4096) in
  let data_end := u64 (p_vaddr ph + p_filesz ph) in
  let mem_end := u64 (p_vaddr ph + p_memsz ph) in
  if (data_end <? page_end) && (page <? mem_end) then
    let zero_start := if page <? data_end then data_end - page else 0 in
    let zero_end := if mem_end <? page_end then mem_end - page else 4096 in
    if zero_start <? zero_end then set_pm (fill (pm s) (phys + zero_start) (zero_end - zero_start) 0) s else s
  else s.

Definition load_page (pd : Z) (data : list Z) (ph : phdr) (page : Z) (s : vm) : flow unit :=
  let '(phys, s) := page_alloc s in
  if negb (truthy phys) then Ret s
  else
    fbind (map_go pd phys page (segment_flags ph) s) (fun _ s =>
    fbind (copy_part data ph phys page s) (fun _ s => Go tt (zero_part ph phys page s))).

(** The bounds every segment is held against. *)
Definition segment_ok (size : Z) (ph : phdr) : bool :=
  if (size <? p_offset ph) || (size - p_offset ph <? p_filesz ph) then false
  else if (USER_SPACE_END <? p_memsz ph) || (p_vaddr ph <? USER_SPACE_MIN) || (USER_SPACE_END - p_memsz ph <? p_vaddr ph) then false
  else negb (ELF_MAX_SEGMENT <? p_memsz ph).

Definition load_segment (pd : Z) (data : list Z) (i : Z) (s : vm) : flow unit :=
  need (program_header data i) (fun ph =>
  if negb (p_type ph =? PT_LOAD) then Go tt s
  else if negb (segment_ok (len data) ph) then Ret s
  else
    let start_page := p_vaddr ph .& not64 0xFFF in
    let end_page := u64 (p_vaddr ph + p_memsz ph + 0xFFF) .& not64 0xFFF in
    for_flow (pages_between start_page end_page) 0 (fun k s => load_page pd data ph (start_page + k * 4096) s) s).

(** The end of the highest segment. *)
Definition max_addr (data : list Z) : Z :=
  for_range (Z.to_nat (e_phnum data)) 0 (fun i max =>
    match program_header data i with
    | Some ph =>
        if negb (p_type ph =? PT_LOAD) then max
        else let e := u64 (p_vaddr ph + p_memsz ph) in if max <? e then e else max
    | None => max
    end) 0.

(** * Libraries *)

(** A segment of a library ([npages] is the number of its frames). *)
Record libseg := Libseg { sg_vaddr : Z; sg_writable : bool; sg_exec : bool; sg_frames : list Z }.

Definition MAX_SEG_PAGES : Z := 32.
Definition MAX_SEGS : Z := 8.

Fixpoint map_seg_pages (pml4 : Z) (sg : libseg) (va : Z) (frames : list Z) (s : vm) : flow unit :=
  match frames with
  | [] => Go tt s
  | f :: frames' =>
      if sg_writable sg then
        let '(fresh, s) := page_alloc s in
        if negb (truthy fresh) then Ret s
        else
          fbind (map_go pml4 fresh va (0x7 .| PAGE_NX) (set_pm (copy (pm s) fresh f 4096) s)) (fun _ s =>
          map_seg_pages pml4 sg (u64 (va + 4096)) frames' s)
      else
        let s := map_page_ro pml4 f va (sg_exec sg) s in
        map_seg_pages pml4 sg (u64 (va + 4096)) frames' (set_pa (page_incref f (pa s)) s)
  end.

Fixpoint map_segs (pml4 : Z) (segs : list libseg) (s : vm) : flow unit :=
  match segs with
  | [] => Go tt s
  | sg :: segs' => fbind (map_seg_pages pml4 sg (sg_vaddr sg) (sg_frames sg) s) (fun _ s => map_segs pml4 segs' s)
  end.
Definition libseg_map (pml4 : Z) (segs : list libseg) (s : vm) : option vm := run_void (map_segs pml4 segs s).

(** [libc]: the segments of the C library, once it is loaded. *)
Definition shared_libc_map (libc : option (list libseg)) (pml4 : Z) (s : vm) : option vm :=
  match libc with
  | Some segs => if truthy pml4 then libseg_map pml4 segs s else Some s
  | None => Some s
  end.

(** What elf_load_image hands back. *)
Record image := Image { im_pd : Z; im_entry : Z; im_stack_top : Z; im_brk : Z }.

Definition elf_load_image (libc : option (list libseg)) (data : list Z) (s : vm) : option (option image * vm) :=
  if negb (elf_validate data) then Some (None, s)
  else if negb (e_phentsize data =? SIZEOF_PHDR) then Some (None, s)
  else if len data <? e_phoff data then Some (None, s)
  else if len data - e_phoff data <? e_phnum data * SIZEOF_PHDR then Some (None, s)
  else
    let '(pd, s) := alloc_page_directory s in
    if negb (truthy pd) then Some (None, s)
    else
      match fbind (load_stack pd s) (fun _ s =>
            if (e_entry data <? USER_SPACE_MIN) || (USER_SPACE_END <=? e_entry data) then Ret s
            else for_flow (Z.to_nat (e_phnum data)) 0 (load_segment pd data) s) with
      | Panic => None
      | Ret s => Some (None, free_page_directory pd s)
      | Go _ s =>
          match shared_libc_map libc pd s with
          | None => None
          | Some s => Some (Some (Image pd (e_entry data) (USER_STACK_TOP + 4096 - 32) (u64 (max_addr data + 0xFFF) .& not64 0xFFF)), s)
          end
      end.
