(* ===== verification/ElfLoad.v ===== *)
(** The ELF loader stays inside the file and puts every byte where the program headers say
    (src/kernel/elf.c). *)
From Stdlib Require Import ZArith Lia.
From S2P Require Import Prelude Packed Phys PageAlloc Paging PageTables CowClone Process Fault FreeSpace NewSpace Spawn Elf.

#[local] Arguments Z.testbit : simpl never.

(** * A page of a segment *)

(** The byte a segment has at address [x]: the file's, or zero behind the file's part. *)
Definition seg_byte (data : list Z) (ph : phdr) (x : Z) : Z :=
  if x <? p_vaddr ph + p_filesz ph then u8 (nth (Z.to_nat (p_offset ph + (x - p_vaddr ph))) data 0) else 0.

(** [x] is on a page of the segment. *)
Definition on_pages (ph : phdr) (x : Z) : Prop := p_vaddr ph / 4096 <= x / 4096 < (p_vaddr ph + p_memsz ph + 4095) / 4096.
#[export] Instance on_pages_dec ph x : Decision (on_pages ph x) := _.

Lemma program_header_range data i ph :
  program_header data i = Some ph ->
  0 <= p_flags ph < 2 ^ 32 /\ 0 <= p_offset ph < 2 ^ 64 /\ 0 <= p_vaddr ph < 2 ^ 64 /\ 0 <= p_filesz ph < 2 ^ 64 /\ 0 <= p_memsz ph < 2 ^ 64.
Proof.
  unfold program_header, rd. repeat match goal with |- context [if ?b then _ else _] => destruct b end; try done.
  intros [= <-]. cbn. repeat match goal with |- context [fld ?w ?o ?l] => lazymatch goal with H : 0 <= fld w o l < _ |- _ => fail | _ => pose proof (fld_range w o l) end end. lia.
Qed.

Lemma segment_ok_iff size ph :
  0 <= p_memsz ph -> segment_ok size ph = true <->
  p_offset ph <= size /\ p_filesz ph <= size - p_offset ph /\
  USER_SPACE_MIN <= p_vaddr ph /\ p_vaddr ph + p_memsz ph <= USER_SPACE_END /\ p_memsz ph <= ELF_MAX_SEGMENT.
Proof.
  intros H. unfold segment_ok, USER_SPACE_END, USER_SPACE_MIN, ELF_MAX_SEGMENT.
  destruct (Z.ltb_spec size (p_offset ph)); cbn [orb]; [split; [done|lia]|].
  destruct (Z.ltb_spec (size - p_offset ph) (p_filesz ph)); cbn [orb]; [split; [done|lia]|].
  repeat (case_cmp; cbn [orb negb]; try (split; [done|lia])). split; [lia|done].
Qed.

Lemma nth_slice o n (l : list Z) i : 0 <= o -> (i < Z.to_nat n)%nat -> nth i (slice o n l) 0 = nth (Z.to_nat o + i) l 0.
Proof. intros Ho Hi. rewrite !nth_lookup. by rewrite lookup_slice. Qed.

(** What copying leaves in the page's frame: the file's bytes at their place, the rest as it was. *)
Lemma copy_part_spec data ph n k s :
  len data < 2 ^ 32 -> 0 <= p_offset ph -> p_filesz ph <= len data - p_offset ph -> 0 <= p_filesz ph ->
  0 <= p_vaddr ph -> p_vaddr ph + p_filesz ph <= 2 ^ 48 -> 0 <= k * 4096 <= 2 ^ 47 ->
  exists m1, copy_part data ph (n * 4096) (k * 4096) s = Go tt (set_pm m1 s) /\
    (forall x, ~ in_frame n x -> m1 x = pm s x) /\
    (forall o, 0 <= o < 4096 -> if decide (p_vaddr ph <= k * 4096 + o < p_vaddr ph + p_filesz ph)
       then m1 (n * 4096 + o) = nth (Z.to_nat (p_offset ph + (k * 4096 + o - p_vaddr ph))) data 0 else m1 (n * 4096 + o) = pm s (n * 4096 + o)).
Proof.
  intros Hlen Ho Hfs Hf0 Hv Hvf Hk. unfold copy_part. set (va := p_vaddr ph) in *. set (fs := p_filesz ph) in *. rewrite !(u64_small (va + fs)), !(u64_small (k * 4096 + 4096)) by lia.
  set (cs := if va <? k * 4096 then k * 4096 else va). set (ce := if k * 4096 + 4096 <? va + fs then k * 4096 + 4096 else va + fs).
  assert (Ecs : cs = Z.max (k * 4096) va) by (unfold cs; case_cmp; lia). assert (Ece : ce = Z.min (k * 4096 + 4096) (va + fs)) by (unfold ce; case_cmp; lia).
  destruct (Z.ltb_spec cs ce) as [Hc|Hc].
  - rewrite u64_small by lia. destruct (Z.leb_spec (p_offset ph + (cs - va) + (ce - cs)) (len data)); [|lia]. eexists. split; [reflexivity|].
    assert (Ls : len (slice (p_offset ph + (cs - va)) (ce - cs) data) = ce - cs) by (apply length_slice; lia). unfold st_bytes. rewrite Ls. split.
    + intros x Hx. unfold in_frame in Hx. destruct (Z.leb_spec (n * 4096 + (cs - k * 4096)) x); [|done]. destruct (Z.ltb_spec x (n * 4096 + (cs - k * 4096) + (ce - cs))); [lia|done].
    + intros o Hr. destruct (Z.leb_spec (n * 4096 + (cs - k * 4096)) (n * 4096 + o)); cbn [andb]; [|destruct (decide _); [lia|done]].
      destruct (Z.ltb_spec (n * 4096 + o) (n * 4096 + (cs - k * 4096) + (ce - cs))); cbn [andb]; (destruct (decide _); [|try lia; done]); [|lia].
      rewrite nth_slice by lia. f_equal. lia.
  - exists (pm s). split; [by destruct s|]. split; [done|]. intros o Hr. destruct (decide _); [lia|done].
Qed.

(** Then the part behind the file's bytes is cleared. *)
Lemma page_contents data ph n k s :
  len data < 2 ^ 32 -> segment_ok (len data) ph = true ->
  0 <= p_offset ph -> 0 <= p_filesz ph -> 0 <= p_memsz ph ->
  p_vaddr ph / 4096 <= k < (p_vaddr ph + p_memsz ph + 4095) / 4096 ->
  exists m', fbind (copy_part data ph (n * 4096) (k * 4096) s) (fun _ s => Go tt (zero_part ph (n * 4096) (k * 4096) s)) = Go tt (set_pm m' s) /\
    (forall x, ~ in_frame n x -> m' x = pm s x) /\
    (forall o, 0 <= o < 4096 -> p_vaddr ph <= k * 4096 + o < p_vaddr ph + p_memsz ph -> u8 (m' (n * 4096 + o)) = seg_byte data ph (k * 4096 + o)).
Proof.
  intros Hlen Hok Ho Hfs Hms Hk. apply segment_ok_iff in Hok as (A & B & C & D & _); [|done]. unfold USER_SPACE_MIN, USER_SPACE_END in *.
  assert (Hv : 0 <= p_vaddr ph <= 2 ^ 47) by lia. set (va := p_vaddr ph) in *. set (fs := p_filesz ph) in *. set (ms := p_memsz ph) in *.
  assert (Hp1 : va < k * 4096 + 4096) by (pose proof (Z.mul_succ_div_gt va 4096); lia).
  assert (Hp2 : k * 4096 < va + ms) by (pose proof (Z.mul_div_le (va + ms + 4095) 4096); lia).
  assert (Hk0 : 0 <= k * 4096) by (pose proof (Z.div_pos va 4096); lia).
  destruct (copy_part_spec data ph n k s Hlen Ho B Hfs) as (m1 & -> & M1 & M2); [fold va fs; lia..|]. cbn [fbind].
  fold va fs in M2. unfold zero_part. fold va fs ms. rewrite !u64_small by lia.
  set (zs := if k * 4096 <? va + fs then va + fs - k * 4096 else 0). set (ze := if va + ms <? k * 4096 + 4096 then va + ms - k * 4096 else 4096).
  assert (Ezs : zs = Z.max 0 (va + fs - k * 4096)) by (unfold zs; case_cmp; lia). assert (Eze : ze = Z.min 4096 (va + ms - k * 4096)) by (unfold ze; case_cmp; lia).
  set (m2 := if (va + fs <? k * 4096 + 4096) && (k * 4096 <? va + ms) && (zs <? ze) then fill m1 (n * 4096 + zs) (ze - zs) 0 else m1).
  exists m2. split_and!.
  - unfold m2. destruct (_ && (k * 4096 <? va + ms)); cbn [andb]; [|by destruct s]. by destruct (zs <? ze); destruct s.
  - intros x Hx. unfold m2. destruct (_ && _ && _); [|by apply M1]. rewrite fill_other by (unfold in_frame in Hx; lia). by apply M1.
  - intros o Hr Hx. unfold seg_byte. fold va fs. unfold m2. destruct (Z.ltb_spec (k * 4096 + o) (va + fs)) as [Hf|Hf].
    + specialize (M2 o Hr). rewrite decide_True in M2 by lia. destruct (_ && _ && _); [rewrite fill_other by lia|]; by rewrite M2.
    + destruct (Z.ltb_spec (va + fs) (k * 4096 + 4096)); [|lia]. destruct (Z.ltb_spec (k * 4096) (va + ms)); [|lia]. destruct (Z.ltb_spec zs ze); [|lia]. cbn [andb].
      unfold fill. destruct (Z.leb_spec (n * 4096 + zs) (n * 4096 + o)); [|lia]. destruct (Z.ltb_spec (n * 4096 + o) (n * 4096 + zs + (ze - zs))); [|lia]. done.
Qed.

(** Address [x] holds the segment's byte, for user mode to read and, whatever the segment's
    flags say, to write; it can be executed if the segment can. *)
Record loaded_at (data : list Z) (ph : phdr) (pd : Z) (s : vm) (x : Z) : Prop := {
  la_present : present (leaf (pm s) pd x) = true;
  la_user : Z.testbit (leaf (pm s) pd x) 2 = true;
  la_write : Z.testbit (leaf (pm s) pd x) 1 = true;
  la_nx : Z.testbit (leaf (pm s) pd x) 63 = negb (truthy (p_flags ph .& PF_X));
  la_byte : p_vaddr ph <= x < p_vaddr ph + p_memsz ph -> ubyte s pd x = seg_byte data ph x
}.

Lemma same_loaded data ph pd s s' x : same_at s s' pd x -> loaded_at data ph pd s x -> loaded_at data ph pd s' x.
Proof. intros [E B] [P U W N Y]. constructor; rewrite ?E; try done. intros Hx. rewrite B by done. by apply Y. Qed.

Lemma segment_flags_facts ph :
  0 <= p_flags ph -> 0 <= segment_flags ph /\ Z.testbit (segment_flags ph) 2 = true /\
  Z.testbit (segment_flags ph) 63 = negb (truthy (p_flags ph .& PF_X)).
Proof. intros H. unfold segment_flags. by destruct (truthy (p_flags ph .& PF_W)), (truthy (p_flags ph .& PF_X)). Qed.

Section load.
  Context (s0 : vm) (pd : Z) (data : list Z) (Hlen : len data < 2 ^ 32).
  Notation kept := (kept s0 pd []).

Lemma load_page_spec ph k s :
    kept s -> segment_ok (len data) ph = true -> 0 <= p_flags ph -> 0 <= p_offset ph -> 0 <= p_filesz ph -> 0 <= p_memsz ph ->
    p_vaddr ph / 4096 <= k < (p_vaddr ph + p_memsz ph + 4095) / 4096 ->
    fpost (load_page pd data ph (k * 4096) s)
      (fun _ s' => kept s' /\ ~ exhausted s /\ (forall x, user_va x -> x / 4096 <> k -> same_at s s' pd x) /\
         (exhausted s' \/ forall x, user_va x -> x / 4096 = k -> loaded_at data ph pd s' x) /\
         (tight s0 pd s -> present (leaf (pm s) pd (k * 4096)) = false -> tight s0 pd s'))
      (fun s' => s' = s /\ exhausted s).
  Proof.
    intros K Hok Hfl Ho Hf Hm Hk. pose proof (proj1 (segment_ok_iff _ _ Hm) Hok) as (_ & _ & A & B & _). unfold USER_SPACE_MIN, USER_SPACE_END in *.
    assert (Hp : 0 <= k * 4096 < 2 ^ 47).
    { pose proof (Z.mul_div_le (p_vaddr ph + p_memsz ph + 4095) 4096). pose proof (Z.div_pos (p_vaddr ph) 4096). lia. }
    assert (Huv : user_va (k * 4096)) by (unfold user_va; lia).
    unfold load_page. destruct (kept_alloc s0 pd [] s K) as [(n & a & E & Ht & K1 & O1 & Nin & _ & Bk)|E].
    2: { rewrite E. by split. }
    rewrite E, Ht. cbn [negb]. destruct (segment_flags_facts ph Hfl) as (F0 & F2 & F63).
    destruct (kept_map s0 pd [] (set_pa a s) n (k * 4096) (segment_flags ph) K1 O1 Nin Huv F0 F2) as (s2 & E2 & K2 & O2 & Oth & Lf & _ & _ & Bm).
    unfold map_go. rewrite E2. cbn [fbind].
    destruct (page_contents data ph n k s2 Hlen Hok Ho Hf Hm Hk) as (m' & -> & Mo & Mb). cbn [fpost].
    destruct (kept_write s0 pd [] s2 n m' K2 O2 Mo) as (K3 & _ & L3 & Same3 & Bw). split; [exact K3|].
    assert (Hsame : forall x, user_va x -> same_page (k * 4096) x <-> x / 4096 = k) by (intros x Hx; by apply same_page_page).
    assert (Hnex : ~ exhausted s) by (intros Ex; rewrite Ex in E; injection E as E _; by rewrite <- E in Ht). split; [done|]. split_and!.
    - intros x Hx Hne. assert (S2 : same_at s s2 pd x) by (destruct (Oth x Hx) as [C D]; [by rewrite Hsame|by split]).
      split; [change (pm (set_pm m' s2)) with m'; rewrite L3 by done; apply S2|]. intros Hpr. eapply same_at_trans; [exact S2| |exact Hpr].
      apply Same3; [done|]. rewrite (proj1 S2). intros En. apply Nin. right. by exists x.
    - destruct Lf as [Ex|Lf]; [left; by apply (exhausted_pa s2)|].
      right. intros x Hx Ek. pose proof (Lf x Hx (proj2 (Hsame x Hx) Ek)) as El. destruct (mapped_leaf_facts n (segment_flags ph) (proj1 O1) F0) as [Pn Pp Pw _ Pu Pnx]. unfold PAGE_WRITABLE in Pw. rewrite truthy_land_bit in Pw by lia.
      assert (El' : leaf (pm (set_pm m' s2)) pd x = u64 (mapped_leaf n (segment_flags ph))) by (change (pm (set_pm m' s2)) with m'; by rewrite L3).
      constructor; rewrite ?El'; [done|congruence|done|congruence|]. intros Hr. unfold ubyte. rewrite El', Pn. change (pm (set_pm m' s2)) with m'.
      assert (Ex : x = k * 4096 + x mod 4096) by (rewrite <- Ek; pose proof (Z.div_mod x 4096); lia). rewrite Ex at 2. apply Mb; [apply Z.mod_pos_bound; lia|lia].
    - intros Ti Ab. apply (tight_write s0 pd s2); [|done|exact Bw]. apply (tight_mapped s0 pd s (set_pa a s) s2 n Ti Hnex Bk). by apply Bm.
  Qed.

  (** Nothing is mapped where the segment goes. *)
Definition unmapped_on (ph : phdr) (s : vm) : Prop := forall x, user_va x -> on_pages ph x -> present (leaf (pm s) pd x) = false.

  (** All pages of a segment. *)
Lemma load_segment_spec i s :
    kept s -> program_header data i <> None ->
    fpost (load_segment pd data i s)
      (fun _ s' => kept s' /\ exists ph, program_header data i = Some ph /\
         (p_type ph <> PT_LOAD /\ s' = s \/
          p_type ph = PT_LOAD /\ segment_ok (len data) ph = true /\ (exhausted s -> s' = s) /\
          (forall x, user_va x -> ~ on_pages ph x -> same_at s s' pd x) /\
          (exhausted s' \/ forall x, user_va x -> on_pages ph x -> loaded_at data ph pd s' x) /\
          (tight s0 pd s -> unmapped_on ph s -> tight s0 pd s')))
      (fun s' => kept s' /\ exists ph, program_header data i = Some ph /\ p_type ph = PT_LOAD /\
         (segment_ok (len data) ph = false /\ s' = s \/ exhausted s' /\ (exhausted s -> s' = s) /\ (tight s0 pd s -> unmapped_on ph s -> tight s0 pd s'))).
  Proof.
    intros K Hph. unfold load_segment. destruct (program_header data i) as [ph|] eqn:Ep; [|done]. cbn [need].
    destruct (program_header_range _ _ _ Ep) as (R1 & R2 & R3 & R4 & R5).
    destruct (Z.eqb_spec (p_type ph) PT_LOAD) as [Et|Et]; cbn [negb]; [|cbn [fpost]; split; [done|]; exists ph; auto].
    destruct (segment_ok (len data) ph) eqn:Hok; cbn [negb]; [|split; [exact K|]; exists ph; auto].
    pose proof (proj1 (segment_ok_iff _ _ (proj1 R5)) Hok) as (_ & _ & A & B & _). unfold USER_SPACE_MIN, USER_SPACE_END in *.
    change 0xFFF with (2 ^ 12 - 1). rewrite !land_not64_pow2 by (lia || apply u64_range). rewrite u64_small by lia. change (2 ^ 12) with 4096. change (4096 - 1) with 4095.
    set (a := p_vaddr ph / 4096). set (b := (p_vaddr ph + p_memsz ph + 4095) / 4096).
    assert (Hab : a <= b) by (apply Z.div_le_mono; lia).
    assert (Hn : Z.of_nat (pages_between (a * 4096) (b * 4096)) = b - a).
    { unfold pages_between, PAGE_SIZE. replace ((b * 4096 - a * 4096 + 4096 - 1) / 4096) with (b - a) by (apply (Z.div_unique _ _ _ 4095); lia). lia. }
    set (I := fun m s' => kept s' /\ (m = 0 -> s' = s) /\ (0 < m -> ~ exhausted s) /\ (forall x, user_va x -> ~ a <= x / 4096 < a + m -> same_at s s' pd x) /\
      (exhausted s' \/ forall x, user_va x -> a <= x / 4096 < a + m -> loaded_at data ph pd s' x) /\
      (tight s0 pd s -> unmapped_on ph s -> tight s0 pd s')).
    eapply fpost_mono; [apply (fpost_for I)|].
    - split; [done|]. split; [done|]. split; [lia|]. split; [intros; apply same_at_refl|]. split; [right; lia|done].
    - intros m s1 Hm (K1 & Z1 & E1 & O1 & L1 & T1). assert (Hpg : forall k, a <= k < b -> user_va (k * 4096)).
      { intros k Hk. unfold user_va. split; [pose proof (Z.div_pos (p_vaddr ph) 4096); lia|]. pose proof (Z.mul_div_le (p_vaddr ph + p_memsz ph + 4095) 4096). lia. }
      replace (a * 4096 + m * 4096) with ((a + m) * 4096) by lia. eapply fpost_impl; [apply (load_page_spec ph (a + m) s1); (done || lia)| |].
      2: { intros s' [-> Hex]. split; [done|]. exists ph. split; [done|]. split; [done|]. right. split; [done|]. split; [|done].
        intros Hs. destruct (decide (m = 0)) as [->|]; [by apply Z1|]. destruct E1; [lia|done]. }
      intros [] s2 (K2 & Ex & O2 & L2 & T2). split; [done|]. split; [lia|]. split_and!; cycle 3.
      { intros Ti Un. apply T2; [by apply T1|]. destruct (O1 ((a + m) * 4096)) as [-> _]; [apply Hpg; lia|rewrite Z.div_mul; lia|].
        apply Un; [apply Hpg; lia|]. unfold on_pages. rewrite Z.div_mul by lia. fold a b. lia. }
      + intros _. destruct (decide (m = 0)) as [->|]; [by rewrite <- (Z1 eq_refl)|apply E1; lia].
      + intros x Hx Hr. eapply same_at_trans; [apply O1|apply O2]; (done || lia).
      + destruct L2 as [?|L2]; [by left|right]. destruct L1 as [?|L1]; [done|]. intros x Hx Hr.
        destruct (decide (x / 4096 = a + m)); [by apply L2|]. eapply same_loaded; [apply O2; [done|lia]|]. apply L1; [done|lia].
    - intros [] s' (K' & Z' & E' & O' & L' & T'). split; [done|]. exists ph. split; [done|]. right. rewrite Z.add_0_l, Hn in *. replace (a + (b - a)) with b in * by lia.
      split; [done|]. split; [done|]. unfold on_pages. fold a b. split; [|split].
      + intros Ex. destruct (decide (b - a = 0)) as [Hz|]; [by apply Z'|]. destruct E'; [lia|done].
      + intros x Hx Hr. by apply O'.
      + split; [|done]. destruct L' as [?|L']; [by left|right]. intros x Hx Hr. by apply L'.
  Qed.
End load.

Section segments.
  Context (s0 : vm) (pd : Z) (data : list Z) (Hlen : len data < 2 ^ 32).
  Notation kept := (kept s0 pd []).

  (** The loadable segments. *)
Definition segment (i : Z) (ph : phdr) : Prop := 0 <= i < e_phnum data /\ program_header data i = Some ph /\ p_type ph = PT_LOAD.

  (** What the first [m] headers ask for is in place: an address is as the last segment that has
      its page wants it, and as it was where no segment has its page. *)
Definition in_place (s1 : vm) (m : Z) (s : vm) : Prop :=
    (forall x, user_va x -> (forall i ph, segment i ph -> i < m -> ~ on_pages ph x) -> same_at s1 s pd x) /\
    (forall i ph x, segment i ph -> i < m -> user_va x -> on_pages ph x ->
       (forall j ph', segment j ph' -> i < j < m -> ~ on_pages ph' x) -> loaded_at data ph pd s x).

  (** No two segments share a page. *)
Definition segments_apart : Prop :=
    forall i j ph ph' x, segment i ph -> segment j ph' -> i < j -> on_pages ph x -> ~ on_pages ph' x.
  (** Nothing is mapped where the segments from the [m]-th on go, or no frame is left. *)
Definition ahead (m : Z) (s : vm) : Prop := exhausted s \/ forall i ph, segment i ph -> m <= i -> unmapped_on pd ph s.

Lemma ahead_step m ph s s' :
    segments_apart -> segment m ph -> (exhausted s -> s' = s) -> (forall x, user_va x -> ~ on_pages ph x -> same_at s s' pd x) ->
    ahead m s -> ahead (m + 1) s'.
  Proof.
    intros Ap Hm Ex Oth [He|Ha]; [left; by rewrite Ex|right]. intros i q Hi Hl x Hx Hon.
    destruct (Oth x Hx) as [-> _]; [intros Hp; by apply (Ap m i ph q x Hm Hi ltac:(lia))|]. apply (Ha i q Hi ltac:(lia) x Hx Hon).
  Qed.

Lemma load_segments_spec s1 :
    kept s1 -> (forall i, 0 <= i < e_phnum data -> program_header data i <> None) ->
    fpost (for_flow (Z.to_nat (e_phnum data)) 0 (load_segment pd data) s1)
      (fun _ s' => kept s' /\ (exhausted s1 -> exhausted s') /\ (forall i ph, segment i ph -> segment_ok (len data) ph = true) /\
         (exhausted s' \/ in_place s1 (e_phnum data) s') /\ (segments_apart -> tight s0 pd s1 -> ahead 0 s1 -> tight s0 pd s'))
      (fun s' => kept s' /\ (exhausted s' \/ exists i ph, segment i ph /\ segment_ok (len data) ph = false) /\
         (segments_apart -> tight s0 pd s1 -> ahead 0 s1 -> tight s0 pd s')).
  Proof.
    intros K Hall. pose proof (fld2_range 56 data) as Hn. change (fld 2 56 data) with (e_phnum data) in Hn.
    set (I := fun m s' => kept s' /\ (exhausted s1 -> exhausted s') /\ (forall i ph, segment i ph -> i < m -> segment_ok (len data) ph = true) /\
      (exhausted s' \/ in_place s1 m s') /\ (segments_apart -> tight s0 pd s1 -> ahead 0 s1 -> tight s0 pd s' /\ ahead m s')).
    eapply fpost_mono; [apply (fpost_for I)|].
    - split; [done|]. split; [done|]. split; [intros i ph (? & _); lia|]. split; [|by intros _ ? ?]. right. split; [intros; apply same_at_refl|]. intros i ph x (? & _). lia.
    - intros m s Hm (K1 & E1 & S1 & L1 & T1). eapply fpost_impl; [apply (load_segment_spec s0 pd data Hlen m s K1), Hall; lia| |].
      2: { intros s' (K2 & ph & Ep & Et & Case). assert (Hseg : segment m ph) by (split; [lia|done]). split; [done|]. destruct Case as [[Hbad ->]|(Hex & Hsame & Ti)].
           - split; [right; by exists m, ph|]. intros Ap H1 H2. by apply T1.
           - split; [by left|]. intros Ap H1 H2. destruct (T1 Ap H1 H2) as [Hs [He|Ha]]; [by rewrite Hsame|]. apply Ti; [done|]. apply (Ha m ph Hseg). lia. }
      intros [] s' (K2 & ph & Ep & Case). split; [done|].
      assert (Last : forall i ph', segment i ph' -> i < m + 1 -> i < m \/ i = m /\ ph' = ph) by (intros i ph' (_ & E' & _) Hi; destruct (decide (i < m)); [by left|right]; assert (i = m) as -> by lia; split; congruence).
      destruct Case as [[Et ->]|(Et & Hok & Ex & Oth & Ld & Ti)].
      + assert (Skip : forall i ph', segment i ph' -> i < m + 1 -> i < m) by (intros i ph' Hs Hi; destruct (Last i ph' Hs Hi) as [|[-> ->]]; [done|by destruct Hs as (_ & _ & ?)]).
        split; [done|]. split; [intros i ph' Hs Hi; apply (S1 i ph' Hs); by eapply Skip|]. split.
        2: { intros Ap H1 H2. destruct (T1 Ap H1 H2) as [? [?|Ha]]; split; [done|by left|done|right]. intros i q Hi Hl. apply (Ha i q Hi). lia. }
        destruct L1 as [?|[A B]]; [by left|right]. split.
        * intros x Hx Hno. apply A; [done|]. intros i ph' Hs Hi. apply (Hno i ph' Hs). lia.
        * intros i ph' x Hs Hi Hx Hon Hlater. apply (B i ph' x Hs); [by eapply Skip|done|done|]. intros j q Hq Hj. apply (Hlater j q Hq). lia.
      + assert (Hseg : segment m ph) by (split; [lia|done]). split; [intros H; by rewrite Ex; [|apply E1]; [apply E1|]|]. split.
        { intros i ph' Hs Hi. destruct (Last i ph' Hs Hi) as [H|[-> ->]]; [by apply (S1 i ph' Hs)|done]. }
        split.
        2: { intros Ap H1 H2. destruct (T1 Ap H1 H2) as [Hs Ha]. split; [|by eapply ahead_step]. destruct Ha as [He|Ha]; [by rewrite Ex|]. apply Ti; [done|]. apply (Ha m ph Hseg). lia. }
        destruct L1 as [He|[A B]]; [left; by rewrite Ex|]. destruct Ld as [?|Ld]; [by left|right]. split.
        * intros x Hx Hno. eapply same_at_trans; [apply A|apply Oth]; [done| |done|by apply (Hno m ph Hseg); lia]. intros i ph' Hs Hi. apply (Hno i ph' Hs). lia.
        * intros i ph' x Hs Hi Hx Hon Hlater. destruct (Last i ph' Hs Hi) as [H|[-> ->]]; [|by apply Ld]. eapply same_loaded; [apply Oth; [done|]|].
          -- apply (Hlater m ph Hseg). lia.
          -- apply (B i ph' x Hs H Hx Hon). intros j q Hq Hj. apply (Hlater j q Hq). lia.
    - intros [] s' (K' & E' & S' & L' & T'). rewrite Z.add_0_l, Z2Nat.id in * by lia. split; [done|]. split; [done|]. split; [|split; [done|intros Ap H1 H2; by apply T']]. intros i ph Hs. apply (S' i ph Hs). apply Hs.
  Qed.
End segments.

(** * The initial stack *)

Definition on_stack (x : Z) : Prop := USER_STACK_TOP - 3 * 4096 <= x < USER_STACK_TOP + 4096.
#[export] Instance on_stack_dec x : Decision (on_stack x) := _.

(** A writable page of the program that holds no code. *)
Definition data_page (pd : Z) (s : vm) (x : Z) : Prop :=
  present (leaf (pm s) pd x) = true /\ Z.testbit (leaf (pm s) pd x) 1 = true /\ Z.testbit (leaf (pm s) pd x) 2 = true /\ Z.testbit (leaf (pm s) pd x) 63 = true.

Lemma same_data_page pd s s' x : same_at s s' pd x -> data_page pd s x -> data_page pd s' x.
Proof. intros [E _]. unfold data_page. by rewrite E. Qed.

Lemma data_leaf pd s x n : 0 < n < MAX_PAGES -> leaf (pm s) pd x = u64 (mapped_leaf n (0x7 .| PAGE_NX)) -> data_page pd s x.
Proof.
  intros Hn E. destruct (mapped_leaf_facts n (0x7 .| PAGE_NX) Hn) as [_ P W _ U N]; [by vm_compute|]. unfold data_page. rewrite E. split_and!; [done| |done|done].
  unfold PAGE_WRITABLE in W. by rewrite truthy_land_bit in W.
Qed.

Lemma store_zeros m a x : (~ (a <= x < a + 32) -> store_words a [0; 0; 0; 0] m x = m x) /\ (a <= x < a + 32 -> store_words a [0; 0; 0; 0] m x = 0).
Proof.
  assert (H : forall m b y, st64 m b 0 y = if (b <=? y) && (y <? b + 8) then 0 else m y).
  { intros m' b y. unfold st64, stn. destruct (_ && _); [|done]. unfold byte_of. by rewrite Z.shiftr_0_l. }
  unfold store_words. cbn [foldl fst]. rewrite !H. split; intros Hx; repeat case_cmp; cbn [andb]; (done || lia).
Qed.

Section stack.
  Context (s0 : vm) (pd : Z).
  Notation kept := (kept s0 pd []).

  (** One page of the stack. *)
Lemma stack_page_spec s v :
    kept s -> user_va v ->
    match (let '(pg, s) := page_alloc s in if negb (truthy pg) then Ret s else fbind (map_go pd pg v (0x7 .| PAGE_NX) s) (fun _ s => Go pg s)) with
    | Panic => False
    | Ret s' => s' = s /\ exhausted s
    | Go pg s' => kept s' /\ (tight s0 pd s -> present (leaf (pm s) pd v) = false -> tight s0 pd s') /\ (exists n, pg = n * 4096 /\ own s0 pd s' n /\ (exhausted s' \/ forall x, user_va x -> same_page v x -> leaf (pm s') pd x = u64 (mapped_leaf n (0x7 .| PAGE_NX)))) /\
        ~ exhausted s /\ (forall x, user_va x -> ~ same_page v x -> same_at s s' pd x) /\ (forall k, own s0 pd s k -> own s0 pd s' k)
    end.
  Proof.
    intros K Hv. destruct (kept_alloc s0 pd [] s K) as [(n & a & E & Ht & K1 & O1 & Nin & Ok1 & Bk)|E]; rewrite E; [|by split]. rewrite Ht. cbn [negb].
    destruct (kept_map s0 pd [] (set_pa a s) n v (0x7 .| PAGE_NX) K1 O1 Nin Hv ltac:(by vm_compute) eq_refl) as (s2 & E2 & K2 & O2 & Oth & Lf & _ & Ok2 & Bm).
    assert (Hnex : ~ exhausted s) by (intros Ex; rewrite Ex in E; injection E as E _; by rewrite <- E in Ht).
    unfold map_go. rewrite E2. cbn [fbind]. split; [done|].
    split; [intros Ti Ab; apply (tight_mapped s0 pd s (set_pa a s) s2 n Ti Hnex Bk); by apply Bm|]. split; [exists n; split; [done|]; split; [done|]; destruct Lf as [?|Lf]; [by left|by right]|].
    split; [done|]. split; [|intros k Hk; by apply Ok2, Ok1].
    intros x Hx Hne. by destruct (Oth x Hx Hne).
  Qed.

Definition stack_ready (s : vm) : Prop :=
    (forall x, on_stack x -> data_page pd s x) /\ (forall x, USER_STACK_TOP + 4096 - 32 <= x < USER_STACK_TOP + 4096 -> ubyte s pd x = 0).

Lemma stack_user x : on_stack x -> user_va x.
  Proof. unfold on_stack, USER_STACK_TOP, user_va. lia. Qed.

  (** Nothing is mapped where the stack goes. *)
Definition stack_free (s : vm) : Prop := forall x, on_stack x -> present (leaf (pm s) pd x) = false.

Lemma load_stack_spec s :
    kept s ->
    fpost (load_stack pd s)
      (fun _ s' => kept s' /\ (exhausted s' \/ stack_ready s' /\ forall x, user_va x -> ~ on_stack x -> same_at s s' pd x) /\
         (tight s0 pd s -> stack_free s -> tight s0 pd s'))
      (fun s' => kept s' /\ exhausted s' /\ (tight s0 pd s -> stack_free s -> tight s0 pd s')).
  Proof.
    intros K. assert (Top : user_va USER_STACK_TOP) by (unfold user_va, USER_STACK_TOP; lia).
    pose proof (stack_page_spec s USER_STACK_TOP K Top) as H. unfold load_stack. destruct (page_alloc s) as [pg sa]. destruct (negb (truthy pg)); [destruct H as [-> Ex]; cbn [fpost]; auto|].
    destruct (map_go pd pg USER_STACK_TOP _ sa) as [[] s1|sr|]; cbn [fbind] in H; [|destruct H as [-> Ex]; cbn [fbind fpost]; auto|done].
    destruct H as (K1 & Ti1 & (n & -> & O1 & Lf1) & _ & Oth1 & _). cbn [fbind].
    set (I := fun m s' => kept s' /\ own s0 pd s' n /\ (exhausted s' \/
      (forall x, user_va x -> same_page USER_STACK_TOP x -> leaf (pm s') pd x = u64 (mapped_leaf n (0x7 .| PAGE_NX))) /\
      (forall x, USER_STACK_TOP - (m - 1) * 4096 <= x < USER_STACK_TOP -> data_page pd s' x) /\
      (forall x, user_va x -> ~ (USER_STACK_TOP - (m - 1) * 4096 <= x < USER_STACK_TOP + 4096) -> same_at s s' pd x)) /\
      (tight s0 pd s -> stack_free s -> tight s0 pd s')).
    assert (Page : forall m x, 0 <= m < 4 -> user_va x -> same_page (USER_STACK_TOP - m * 4096) x <-> USER_STACK_TOP - m * 4096 <= x < USER_STACK_TOP - m * 4096 + 4096).
    { intros m x Hm Hx. replace (USER_STACK_TOP - m * 4096) with ((0x7FFFFFFFE - m) * 4096) by (unfold USER_STACK_TOP; lia).
      rewrite same_page_page by (done || (unfold user_va; lia)). split; intros; Z.to_euclidean_division_equations; lia. }
    apply fpost_bind. eapply fpost_mono.
    { apply (fpost_for I).
      - split; [done|]. split; [done|]. split; [|intros Ti Sf; apply Ti1, Sf; [done|unfold on_stack, USER_STACK_TOP; lia]]. destruct Lf1 as [?|Lf1]; [by left|right]. split; [exact Lf1|]. split; [lia|].
        intros x Hx Hn. apply Oth1; [done|]. replace USER_STACK_TOP with (USER_STACK_TOP - 0 * 4096) by lia. rewrite Page by (done || lia). lia.
      - intros m s2 Hm (K2 & O2 & C2 & T2). change (Z.to_nat (USER_STACK_INIT_PAGES - 1)) with 3%nat in Hm.
        assert (Uv : user_va (USER_STACK_TOP - m * 4096)) by (unfold user_va, USER_STACK_TOP; lia).
        pose proof (stack_page_spec s2 _ K2 Uv) as H. destruct (page_alloc s2) as [pg sb]. destruct (negb (truthy pg)); [destruct H as [-> Ex]; by split|].
        destruct (map_go pd pg _ _ sb) as [[] s3|sr|]; cbn [fbind] in H; [|destruct H as [-> Ex]; by split|done].
        destruct H as (K3 & Ti3 & (k & -> & O3 & Lf3) & Ne & Oth3 & Own3). cbn [fpost].
        split; [done|]. split; [by apply Own3|]. split.
        2: { intros Ti Sf. apply Ti3; [by apply T2|]. destruct C2 as [?|(_ & _ & C)]; [done|]. destruct (C (USER_STACK_TOP - m * 4096)) as [-> _]; [done|lia|].
             apply Sf. unfold on_stack. lia. }
        destruct C2 as [?|(A & B & C)]; [done|]. destruct Lf3 as [?|Lf3]; [by left|right]. split_and!.
        + intros x Hx Hs. destruct (Oth3 x Hx) as [-> _]; [|by apply A]. rewrite Page by (done || lia). replace USER_STACK_TOP with (USER_STACK_TOP - 0 * 4096) in Hs by lia. rewrite Page in Hs by (done || lia). lia.
        + intros x Hx. assert (Hxu : user_va x) by (apply stack_user; unfold on_stack; lia). destruct (decide (USER_STACK_TOP - m * 4096 <= x < USER_STACK_TOP - m * 4096 + 4096)) as [Hin|Hout].
          * apply (data_leaf pd s3 x k); [apply O3|]. apply Lf3; [done|]. by rewrite Page by (done || lia).
          * eapply same_data_page; [apply Oth3; [done|]|apply B; lia]. by rewrite Page by (done || lia).
        + intros x Hx Hn. eapply same_at_trans; [apply C; [done|lia]|]. apply Oth3; [done|]. rewrite Page by (done || lia). lia. }
    intros [] s2 (K2 & O2 & C2 & T2). change (1 + Z.of_nat (Z.to_nat (USER_STACK_INIT_PAGES - 1))) with 4 in *. cbn [fpost].
    set (m' := store_words _ _ _).
    assert (Hm : forall x, ~ in_frame n x -> m' x = pm s2 x) by (intros x Hx; unfold in_frame in Hx; apply (store_zeros (pm s2) (n * 4096 + 4096 - 32)); lia).
    destruct (kept_write s0 pd [] s2 n m' K2 O2 Hm) as (K3 & _ & L3 & Same3 & Bw). split; [exact K3|].
    split; [|intros Ti Sf; apply (tight_write s0 pd s2); [by apply T2|done|exact Bw]].
    destruct C2 as [Ex|(A & B & C)]; [left; by apply (exhausted_pa s2)|right].
    assert (Tp : forall x, user_va x -> USER_STACK_TOP <= x < USER_STACK_TOP + 4096 -> leaf (pm (set_pm m' s2)) pd x = u64 (mapped_leaf n (0x7 .| PAGE_NX))).
    { intros x Hx Hr. change (pm (set_pm m' s2)) with m'. rewrite L3 by done. apply A; [done|]. replace USER_STACK_TOP with (USER_STACK_TOP - 0 * 4096) by lia. rewrite Page by (done || lia). lia. }
    split; [split|].
    - intros x Hx. pose proof (stack_user x Hx) as Hxu. unfold on_stack in Hx. destruct (decide (USER_STACK_TOP <= x)).
      + apply (data_leaf pd _ x n); [apply O1|]. apply Tp; [done|lia].
      + destruct (B x ltac:(lia)) as (? & ? & ? & ?). unfold data_page. change (pm (set_pm m' s2)) with m'. by rewrite L3.
    - intros x Hx. assert (Hxu : user_va x) by (apply stack_user; unfold on_stack; lia). unfold ubyte. rewrite (Tp x Hxu ltac:(lia)).
      rewrite (pl_pfn _ _ _ (mapped_leaf_facts n (0x7 .| PAGE_NX) (proj1 O1) ltac:(by vm_compute))). change (pm (set_pm m' s2)) with m'. unfold m'.
      assert (x mod 4096 = x - USER_STACK_TOP) as -> by (clear -Hx; unfold USER_STACK_TOP in *; Z.to_euclidean_division_equations; lia).
      rewrite (proj2 (store_zeros _ _ _)); [done|lia].
    - intros x Hx Hn. assert (S2 : same_at s s2 pd x) by (apply C; [done|unfold on_stack in Hn; lia]).
      split; [change (pm (set_pm m' s2)) with m'; rewrite L3 by done; apply S2|]. intros Hpr. eapply same_at_trans; [exact S2| |exact Hpr].
      apply Same3; [done|]. intros En. assert (Hp2 : present (leaf (pm s2) pd x) = true) by (by rewrite (proj1 S2)).
      assert (Et : pfn (leaf (pm s2) pd USER_STACK_TOP) = n) by (rewrite A; [apply (pl_pfn _ _ _ (mapped_leaf_facts n (0x7 .| PAGE_NX) (proj1 O1) ltac:(by vm_compute)))|done|by split]).
      assert (Pt : present (leaf (pm s2) pd USER_STACK_TOP) = true) by (rewrite A; [apply (pl_present _ _ _ (mapped_leaf_facts n (0x7 .| PAGE_NX) (proj1 O1) ltac:(by vm_compute)))|done|by split]).
      destruct (k_leaves _ _ _ _ K2) as [_ Inj]. pose proof (Inj USER_STACK_TOP x Top Hx Pt Hp2 ltac:(congruence)) as Sp.
      replace USER_STACK_TOP with (USER_STACK_TOP - 0 * 4096) in Sp by lia. apply Page in Sp; [|lia|done]. apply Hn. unfold on_stack. lia.
  Qed.
End stack.
