(* ===== verification/ElfLib.v ===== *)
(** Mapping a library into a program (src/kernel/shared_libc.c, libseg_map): the read-only pages
    are the library's own frames, shared and write-protected; the writable ones are copies. *)
From Stdlib Require Import ZArith Lia.
From S2P Require Import Prelude Packed Phys PageAlloc Paging PageTables CowClone Process Fault FreeSpace UserTree NewSpace Spawn Elf ElfLoad.

#[local] Arguments Z.testbit : simpl never.

(** * The pages of a library, in the order they are mapped *)

Fixpoint seg_pages (sg : libseg) (va : Z) (frames : list Z) : list (libseg * Z * Z) :=
  match frames with [] => [] | f :: frames' => (sg, va, f) :: seg_pages sg (u64 (va + 4096)) frames' end.
Definition lib_pages (segs : list libseg) : list (libseg * Z * Z) := segs ≫= fun sg => seg_pages sg (sg_vaddr sg) (sg_frames sg).

Definition map_lib_page (pml4 : Z) (pg : libseg * Z * Z) (s : vm) : flow unit :=
  let '(sg, va, f) := pg in
  if sg_writable sg then
    let '(fresh, s) := page_alloc s in
    if negb (truthy fresh) then Ret s else map_go pml4 fresh va (0x7 .| PAGE_NX) (set_pm (copy (pm s) fresh f 4096) s)
  else let s := map_page_ro pml4 f va (sg_exec sg) s in Go tt (set_pa (page_incref f (pa s)) s).

Fixpoint map_lib_pages (pml4 : Z) (l : list (libseg * Z * Z)) (s : vm) : flow unit :=
  match l with [] => Go tt s | pg :: l' => fbind (map_lib_page pml4 pg s) (fun _ s => map_lib_pages pml4 l' s) end.

Lemma map_lib_pages_app pml4 l1 l2 s : map_lib_pages pml4 (l1 ++ l2) s = fbind (map_lib_pages pml4 l1 s) (fun _ s => map_lib_pages pml4 l2 s).
Proof. revert s. induction l1 as [|pg l1 IH]; intros s; cbn [app map_lib_pages]; [done|]. destruct (map_lib_page pml4 pg s) as [[] s1| |]; cbn [fbind]; [apply IH|done|done]. Qed.

Lemma map_seg_pages_list pml4 sg va frames s : map_seg_pages pml4 sg va frames s = map_lib_pages pml4 (seg_pages sg va frames) s.
Proof.
  revert va s. induction frames as [|f frames IH]; intros va s; cbn [map_seg_pages seg_pages map_lib_pages]; [done|]. unfold map_lib_page.
  destruct (sg_writable sg).
  - destruct (page_alloc s) as [fresh s1]. destruct (negb (truthy fresh)); [done|]. destruct (map_go _ _ _ _ _) as [[] s2| |]; cbn [fbind]; [apply IH|done|done].
  - cbn [fbind]. apply IH.
Qed.

Lemma map_segs_list pml4 segs s : map_segs pml4 segs s = map_lib_pages pml4 (lib_pages segs) s.
Proof.
  unfold lib_pages. revert s. induction segs as [|sg segs IH]; intros s; cbn [map_segs]; [done|]. rewrite bind_cons, map_lib_pages_app, map_seg_pages_list.
  destruct (map_lib_pages pml4 _ s) as [[] s1| |]; cbn [fbind]; [apply IH|done|done].
Qed.

(** The library is loaded: its pages are user pages, different ones, and its frames are in use
    and different. *)
Definition page_in_use (s : vm) (pg : libseg * Z * Z) : Prop :=
  exists n, pg.2 = n * 4096 /\ fs_owned (pa s) n /\ user_va pg.1.2 /\ (pg.1.2) mod 4096 = 0.
Record lib_ready (s : vm) (segs : list libseg) : Prop := {
  lr_pages : Forall (page_in_use s) (lib_pages segs);
  lr_places : NoDup (map (fun pg => pg.1.2) (lib_pages segs));
  lr_frames : NoDup (map snd (lib_pages segs))
}.

(** * One page *)

(** A page of the library at [x]. *)
Record lib_at (s0 : vm) (pd : Z) (sg : libseg) (f : Z) (s : vm) (x : Z) : Prop := {
  lb_present : present (leaf (pm s) pd x) = true;
  lb_user : Z.testbit (leaf (pm s) pd x) 2 = true;
  lb_write : Z.testbit (leaf (pm s) pd x) 1 = sg_writable sg;
  lb_nx : Z.testbit (leaf (pm s) pd x) 63 = sg_writable sg || negb (sg_exec sg);
  lb_byte : ubyte s pd x = u8 (pm s0 (f + x mod 4096));
  lb_shared : sg_writable sg = false -> pfn (leaf (pm s) pd x) * 4096 = f;
  lb_private : sg_writable sg = true -> ~ fs_owned (pa s0) (pfn (leaf (pm s) pd x))
}.

Lemma same_lib s0 pd sg f s s' x : same_at s s' pd x -> lib_at s0 pd sg f s x -> lib_at s0 pd sg f s' x.
Proof. intros [E B] [P U W N Y F V]. constructor; rewrite ?E; try done. by rewrite B. Qed.

Lemma ro_leaf_facts n (exec : bool) :
  0 < n < MAX_PAGES ->
  let e := u64 ((n * 4096 .& PTE_ADDR_MASK) .| (if negb exec then PAGE_PRESENT .| PAGE_USER .| PAGE_NX else PAGE_PRESENT .| PAGE_USER)) in
  pfn e = n /\ present e = true /\ Z.testbit e 1 = false /\ Z.testbit e 2 = true /\ Z.testbit e 63 = negb exec.
Proof.
  intros Hn. pose proof Hn as Hn'. rewrite max_pages_val in Hn'. rewrite frame_field by done. cbv zeta.
  set (f := if negb exec then _ else _).
  assert (Hf : (0 <=? f) && (f <? 2 ^ 64) && (f .& PTE_ADDR_MASK =? 0) && Z.testbit f 0 && negb (Z.testbit f 1) && Z.testbit f 2 && Bool.eqb (Z.testbit f 63) (negb exec) = true)
    by (unfold f; destruct exec; vm_compute; reflexivity).
  clearbody f. rewrite !andb_true_iff, negb_true_iff, eqb_true_iff, Z.leb_le, Z.ltb_lt, Z.eqb_eq in Hf. destruct Hf as ((((((F1 & F2) & F3) & F4) & F5) & F6) & F7).
  rewrite u64_small by (apply frame_range; lia). split; [by apply frame_pfn; [lia|]|]. rewrite present_bit, !frame_bit by lia. by rewrite F4, F5, F6, F7.
Qed.

Lemma exhausted_walk idxs t s r s' : exhausted s -> pte_walk idxs t true s = (r, s') -> s' = s.
Proof.
  intros Ex. revert t. induction idxs as [|i idxs IH]; intros t; cbn [pte_walk]; [by intros [= _ <-]|].
  destruct (huge _); [by intros [= _ <-]|]. destruct (negb (present _)); cbn [negb]; [|apply IH]. rewrite Ex. by intros [= _ <-].
Qed.

Lemma set_pa_exhausted s a : alloc_page a = (0, a) -> exhausted (set_pa a s).
Proof. intros E. unfold exhausted, page_alloc. destruct s. cbn. by rewrite E. Qed.

Lemma exhausted_alloc s : exhausted s -> alloc_page (pa s) = (0, pa s).
Proof. unfold exhausted, page_alloc. destruct (alloc_page (pa s)) as [p a]. intros [= -> H]. f_equal. by apply (f_equal pa) in H. Qed.

Lemma full_incref m n : mem_wf m -> held m n -> alloc_page m = (0, m) -> alloc_page (page_incref (n * PAGE_SIZE) m) = (0, page_incref (n * PAGE_SIZE) m).
Proof.
  intros Hi Ho Ex. destruct (page_incref_frames m n Hi Ho) as (W & T & F). revert W T F. generalize (page_incref (n * PAGE_SIZE) m) as m'. intros m' W T F.
  destruct (alloc_page_cases m' W) as [(p & Hp & Hf & _)|[_ E]]; [exfalso|done].
  assert (Hfp : is_free m p = true) by (specialize (F p); unfold frame_state, bump_ref in F; destruct (decide (p = n)) as [->|]; congruence).
  destruct (alloc_page_cases m Hi) as [(q & Hq & _ & _ & Eq)|[Hno _]]; [|rewrite T in Hp; rewrite Hno in Hfp; [done|lia]].
  rewrite Eq in Ex. apply (f_equal fst) in Ex. cbn [fst] in Ex. unfold PAGE_SIZE in Ex. lia.
Qed.

Lemma exhausted_incref s n : fs_inv (pa s) -> fs_owned (pa s) n -> exhausted s -> exhausted (set_pa (page_incref (n * 4096) (pa s)) s).
Proof.
  intros Hi Ho Ex%exhausted_alloc. apply set_pa_exhausted. exact (full_incref (pa s) n Hi Ho Ex).
Qed.

Section lib.
  Context (s0 : vm) (pd : Z).

  (** A read-only page: the library's frame gets one more reference and is mapped without the
      right to write. *)
Lemma map_ro_spec L s sg va f n :
    kept s0 pd L s -> page_in_use s0 (sg, va, f) -> f = n * 4096 -> n ∉ L -> sg_writable sg = false ->
    let s1 := map_page_ro pd f va (sg_exec sg) s in
    let s' := set_pa (page_incref f (pa s1)) s1 in
    kept s0 pd (n :: L) s' /\ (exhausted s -> exhausted s') /\
    (forall x, user_va x -> ~ same_page va x -> same_at s s' pd x) /\
    (exhausted s' \/ forall x, user_va x -> same_page va x -> lib_at s0 pd sg f s' x).
  Proof.
    intros K (n' & Ef & Ho0 & Hva & _) En Hl Hw. cbn in Ef, Hva. assert (n' = n) as -> by lia. clear Ef. cbv zeta. subst f.
    pose proof K as [W Lw T N O F D U One]. pose proof (owned_frame s n (tw_inv _ _ W) (O n Ho0)) as Hn.
    assert (Hnl : n ∈ n :: L) by apply list_elem_of_here. unfold map_page_ro.
    pose proof (pte_ptr_create_or_full s pd va W Hva) as H. destruct (pte_ptr pd va true s) as [pte s2] eqn:Ept. destruct H as (G & TO & H).
    assert (U2 : user_tree s2 pd).
    { unfold pte_ptr in Ept. destruct (pte_walk _ _ _ _) as [r s3] eqn:Ew. destruct (vpath_upath va Hva) as [Hup _].
      assert (s2 = s3) as -> by (destruct (truthy r); by injection Ept as _ <-). by apply (pte_walk_user _ s pd [] pd r s3 W U Hup ltac:(simpl; lia) eq_refl). }
    destruct (kept_grows s0 pd L s s2 K G TO U2) as [K2 Same2].
    assert (Ex2 : exhausted s -> exhausted s2).
    { intros Ex. unfold pte_ptr in Ept. destruct (pte_walk _ _ _ _) as [r s3] eqn:Ew. apply (exhausted_walk _ _ _ _ _ Ex) in Ew as ->. destruct (truthy r); by injection Ept as _ <-. }
    destruct H as [[-> Ex]|(t & Wt & Ep & Ht)].
    - cbn [truthy negb Z.eqb]. assert (Kn : kept s0 pd (n :: L) s2).
      { destruct K2 as [W2 L2 T2 N2 O2 F2 D2 _ One2]. constructor; try done; [intros k Hk Hs; by apply list_elem_of_further, N2|intros k Hk Hkl; apply F2; [done|]; intros H; apply Hkl; by apply list_elem_of_further]. }
      split; [by apply kept_incref|]. assert (Ex' : exhausted (set_pa (page_incref (n * 4096) (pa s2)) s2)) by (apply exhausted_incref; [apply K2|by apply K2|exact Ex]).
      split; [done|]. split; [intros x Hx _; by apply Same2|by left].
    - rewrite Ht. cbn [negb]. set (e := _ .| _). set (s3 := pte_set pte e s2). destruct (ro_leaf_facts n (sg_exec sg) Hn) as (Fp & Fr & Fw & Fu & Fx). fold e in Fp, Fr, Fw, Fu, Fx.
      assert (LS : leaf_set pd va e s2 s3) by (unfold s3; rewrite Ep; by apply pte_set_leaf; [apply K2|..]).
      assert (U3 : user_tree s3 pd) by (apply (leaf_set_user s2 s3 pd va t e); [apply K2|done|done|unfold s3; by rewrite Ep|done|done]).
      destruct (kept_share s0 pd L s2 s3 va n e K2 LS eq_refl Hva Ho0 Hl Fp U3) as [K3 Same3].
      pose proof (kept_incref s0 pd (n :: L) s3 n K3 Hnl Ho0) as K4. split; [done|]. split; [|split].
      + intros Ex. apply exhausted_incref; [apply K3|by apply K3|]. apply (exhausted_pa s2); [done|by apply Ex2].
      + intros x Hx Hne. exact (same_at_trans _ _ _ _ _ (Same2 x Hx) (Same3 x Hx Hne)).
      + right. intros x Hx Hs. assert (El : leaf (pm s3) pd x = u64 e) by (rewrite (ls_leaf _ _ _ _ _ LS) by done; by rewrite decide_True).
        set (s4 := set_pa _ s3). assert (El4 : leaf (pm s4) pd x = u64 e) by exact El. constructor; rewrite ?El4, ?Hw; try done; [|by rewrite Fp]. unfold ubyte. rewrite El4, Fp. change (pm s4) with (pm s3). f_equal. apply (k_data _ _ _ _ K3 n); [done|].
        unfold in_frame. pose proof (Z.mod_pos_bound x 4096). lia.
  Qed.

  (** A writable page: a copy of its own. *)
Lemma map_rw_spec L s sg va f :
    kept s0 pd L s -> page_in_use s0 (sg, va, f) -> sg_writable sg = true ->
    fpost (map_lib_page pd (sg, va, f) s)
      (fun _ s' => kept s0 pd L s' /\ ~ exhausted s /\ (forall x, user_va x -> ~ same_page va x -> same_at s s' pd x) /\
         (exhausted s' \/ forall x, user_va x -> same_page va x -> lib_at s0 pd sg f s' x))
      (fun s' => s' = s /\ exhausted s).
  Proof.
    intros K (n & Ef & Ho0 & Hva & _) Hw. cbn in Ef, Hva. subst f. unfold map_lib_page. rewrite Hw.
    destruct (kept_alloc s0 pd L s K) as [(k & a & E & Ht & K1 & O1 & Nin & _)|E]; rewrite E; [|by split]. rewrite Ht. cbn [negb].
    assert (Hk0 : k <> n) by (intros ->; by apply (proj2 (proj2 (proj2 O1)))).
    set (m' := copy (pm (set_pa a s)) (k * 4096) (n * 4096) 4096).
    assert (Hm : forall x, ~ in_frame k x -> m' x = pm (set_pa a s) x) by (intros x Hx; unfold in_frame in Hx; apply copy_other; lia).
    destruct (kept_write s0 pd L (set_pa a s) k m' K1 O1 Hm) as (K2 & O2 & L2 & Same2 & _). set (s2 := set_pm m' (set_pa a s)) in *.
    assert (Nin2 : ~ in_space s2 pd k).
    { intros [Hti|(v & Hv & Hp & Eq)]; [by destruct O2 as (_ & _ & ? & _)|]. change (pm s2) with m' in Hp, Eq. rewrite L2 in Hp, Eq by done. apply Nin. right. by exists v. }
    destruct (kept_map s0 pd L s2 k va (0x7 .| PAGE_NX) K2 O2 Nin2 Hva ltac:(by vm_compute) eq_refl) as (s3 & E3 & K3 & O3 & Oth & Lf & Dt & _).
    unfold map_go. rewrite E3. cbn [fpost]. split; [done|]. split; [intros Ex; rewrite Ex in E; injection E as E _; by rewrite <- E in Ht|]. split.
    - intros x Hx Hne. refine (same_at_trans _ _ _ _ _ _ (Oth x Hx Hne)). split; [by apply L2|]. intros Hp. apply Same2; [done| |exact Hp]. intros En. apply Nin. right. by exists x.
    - destruct Lf as [?|Lf]; [by left|right]. intros x Hx Hs. pose proof (Lf x Hx Hs) as El.
      destruct (mapped_leaf_facts k (0x7 .| PAGE_NX) (proj1 O1) ltac:(by vm_compute)) as [Pn Pp Pw _ Pu Pnx]. unfold PAGE_WRITABLE in Pw. rewrite truthy_land_bit in Pw by lia.
      constructor; rewrite ?El, ?Hw; [done|by rewrite Pu|done|by rewrite Pnx| |done|intros _; rewrite Pn; apply O1]. unfold ubyte. rewrite El, Pn. f_equal.
      rewrite (Dt k) by (first [apply O2|unfold in_frame; pose proof (Z.mod_pos_bound x 4096); lia]).
      change (pm s2) with m'. unfold m'. rewrite copy_in by (apply Z.mod_pos_bound; lia). apply (k_data _ _ _ _ K1 n); [done|]. unfold in_frame. pose proof (Z.mod_pos_bound x 4096). lia.
  Qed.

  (** All pages: what lies on none of them stays; a page that is there is the library's. *)
Definition mapped_lib (l : list (libseg * Z * Z)) (s s' : vm) : Prop :=
    (exhausted s -> exhausted s') /\
    (forall x, user_va x -> Forall (fun pg => ~ same_page pg.1.2 x) l -> same_at s s' pd x) /\
    (exhausted s' \/ forall pg x, pg ∈ l -> user_va x -> same_page pg.1.2 x -> lib_at s0 pd pg.1.1 pg.2 s' x).

Lemma map_lib_pages_spec l L s :
    kept s0 pd L s -> Forall (page_in_use s0) l -> NoDup (map (fun pg => pg.1.2) l) -> NoDup (map snd l) -> (forall pg, pg ∈ l -> pg.2 / 4096 ∉ L) ->
    exists s' L', run_void (map_lib_pages pd l s) = Some s' /\ kept s0 pd L' s' /\ mapped_lib l s s' /\
      forall n, n ∈ L' -> n ∈ L \/ exists pg, pg ∈ l /\ pg.2 = n * 4096.
  Proof.
    revert L s. induction l as [|[[sg va] f] l IH]; intros L s K Hu Hnv Hnf HL; cbn [map_lib_pages].
    { exists s, L. split; [done|]. split; [done|]. split; [|by left]. split; [done|]. split; [intros; apply same_at_refl|right]. by intros pg x ?%not_elem_of_nil. }
    apply list.Forall_cons in Hu as [Hpg Hu]. cbn [map] in Hnv, Hnf. apply list.NoDup_cons in Hnv as [Nv Hnv]. apply list.NoDup_cons in Hnf as [Nf Hnf].
    assert (Apart : forall pg x, pg ∈ l -> user_va x -> same_page pg.1.2 x -> ~ same_page va x).
    { intros pg x Hin Hx S1 S2. apply Nv. apply list_elem_of_fmap. exists pg. split; [|done]. rewrite list.Forall_forall in Hu.
      destruct (Hu pg Hin) as (n1 & _ & _ & U1 & A1), Hpg as (n2 & _ & _ & U2 & A2). cbn in *.
      assert (E : va / 4096 = pg.1.2 / 4096).
      { rewrite (Z.div_mod va 4096), A2, Z.add_0_r, (Z.mul_comm 4096) in S2 by lia. rewrite (Z.div_mod pg.1.2 4096), A1, Z.add_0_r, (Z.mul_comm 4096) in S1 by lia.
        rewrite same_page_page in S1, S2; try done; [lia|unfold user_va in *; Z.to_euclidean_division_equations; lia|unfold user_va in *; Z.to_euclidean_division_equations; lia]. }
      rewrite (Z.div_mod va 4096), (Z.div_mod pg.1.2 4096) by lia. lia. }
    assert (Next : forall s1 L1, kept s0 pd L1 s1 -> (forall n, n ∈ L1 -> n ∈ L \/ f = n * 4096) -> (forall pg, pg ∈ l -> pg.2 / 4096 ∉ L1) -> (exhausted s -> exhausted s1) ->
      (forall x, user_va x -> ~ same_page va x -> same_at s s1 pd x) -> (exhausted s1 \/ forall x, user_va x -> same_page va x -> lib_at s0 pd sg f s1 x) ->
      exists s' L', run_void (map_lib_pages pd l s1) = Some s' /\ kept s0 pd L' s' /\ mapped_lib ((sg, va, f) :: l) s s' /\
        forall n, n ∈ L' -> n ∈ L \/ exists pg, pg ∈ (sg, va, f) :: l /\ pg.2 = n * 4096).
    { intros s1 L1 K1 HLL HL1 Ex1 Same1 At1. destruct (IH L1 s1 K1 Hu Hnv Hnf HL1) as (s' & L' & E & K' & (Ex' & Same' & At') & Sub). exists s', L'. split; [done|]. split; [done|]. split.
      2: { intros n Hn. destruct (Sub n Hn) as [H|(pg & Hin & Ef)]; [|right; exists pg; split; [by apply list_elem_of_further|done]].
           destruct (HLL n H) as [?|Ef]; [by left|right]. exists (sg, va, f). split; [apply list_elem_of_here|done]. }
      split; [auto|]. split.
      - intros x Hx Hf. apply list.Forall_cons in Hf as [Hf1 Hf2]. exact (same_at_trans _ _ _ _ _ (Same1 x Hx Hf1) (Same' x Hx Hf2)).
      - destruct At' as [?|At']; [by left|]. destruct At1 as [?|At1]; [left; auto|right]. intros pg x [->|Hin]%elem_of_cons Hx Hs; [|by apply At'].
        cbn in *. apply (same_lib _ _ _ _ s1); [|by apply At1]. apply Same'; [done|]. apply list.Forall_forall. intros pg Hin Hs'. by apply (Apart pg x). }
    destruct (sg_writable sg) eqn:Hw.
    - pose proof (map_rw_spec L s sg va f K Hpg Hw) as H. destruct (map_lib_page pd (sg, va, f) s) as [[] s1|s1|]; cbn [fpost fbind run_void] in *; [| |done].
      + destruct H as (K1 & Nx & Same1 & At1). apply (Next s1 L K1); [by left| |done|done|done]. intros pg Hin. apply HL. by apply list_elem_of_further.
      + destruct H as [-> Ex]. exists s, L. split; [done|]. split; [done|]. split; [|by left]. split; [done|]. split; [intros; apply same_at_refl|by left].
    - destruct Hpg as (n & Ef & Hpg'). cbn in Ef. pose proof (HL _ (list_elem_of_here _ _)) as Hn. cbn in Hn. rewrite Ef, Z.div_mul in Hn by lia.
      pose proof (map_ro_spec L s sg va f n K ltac:(by exists n) Ef Hn Hw) as (K1 & Ex1 & Same1 & At1). unfold map_lib_page at 1. rewrite Hw. cbn [fbind].
      apply (Next _ (n :: L) K1); [intros k [->|?]%elem_of_cons; [by right|by left]| |done..]. intros pg Hin. apply not_elem_of_cons. split; [|apply HL; by apply list_elem_of_further].
      intros E. apply Nf. apply list_elem_of_fmap. exists pg. split; [|done]. rewrite list.Forall_forall in Hu. destruct (Hu pg Hin) as (n1 & E1 & _). cbn. rewrite E1, Z.div_mul in E by lia. lia.
  Qed.
End lib.
