(* ===== verification/ElfImage.v ===== *)
(** A program in memory: elf_load_image (src/kernel/elf.c) as a whole. *)
From Stdlib Require Import ZArith Lia.
From S2P Require Import Prelude Packed Phys PageAlloc Paging PageTables CowClone Process Fault FreeSpace UserTree NewSpace Spawn Elf ElfLoad ElfLib.

#[local] Arguments Z.testbit : simpl never.

Lemma alloc_page_directory_fresh s n s1 :
  fs_inv (pa s) -> 0 < n -> alloc_page_directory s = (n * 4096, s1) -> fs_frame (pa s1) n = fresh_frame.
Proof.
  intros Hi Hn. unfold alloc_page_directory. destruct (page_alloc_cases s Hi) as [(p & a & E & Hp & _)|E]; rewrite E; cbn [truthy negb Z.eqb].
  2: { intros H. apply (f_equal fst) in H. cbn [fst] in H. lia. }
  rewrite truthy_frame by lia. cbn [negb]. change (Z.to_nat (512 - PML4_HIGHER)) with 1%nat. cbn [for_range].
  intros H. apply pair_equal_spec in H as [H1 <-]. assert (p = n) as -> by lia.
  assert (Ep : pa (set_pa a s) = a) by done. destruct (present _); cbn; (eapply page_alloc_fresh; [exact Hi|lia|exact E]).
Qed.

(** A page directory nothing has been mapped in. *)
Lemma kept_fresh s :
  fs_inv (pa s) ->
  (exists n s1, alloc_page_directory s = (n * 4096, s1) /\ truthy (n * 4096) = true /\ kept s (n * 4096) [] s1 /\
     (forall v, user_va v -> leaf (pm s1) (n * 4096) v = 0) /\ tight s (n * 4096) s1) \/
  alloc_page_directory s = (0, s).
Proof.
  intros Hi. destruct (alloc_page_directory_spec s Hi) as [(n & s1 & E & Hn & Hf & Hi1 & Ho & Hfr & He & Hm)|E]; [left|by right].
  destruct (empty_root_wf s1 n Hi1 Hn) as (W & L & T); [apply Ho; by right|done|]. exists n, s1. split; [done|]. split; [apply truthy_frame; lia|].
  split; [|split; [done|left; intros k Hk; apply Ho in Hk as [?| ->]; [by left|right; left; left; by apply T]]].
  constructor.
  - done.
  - split; intros v; intros; by rewrite L in *.
  - intros k Hk Ht. apply T in Ht as ->. done.
  - intros k Hk [Ht|(v & Hv & Hp & _)]; [apply T in Ht as ->; done|by rewrite L in Hp].
  - intros k Hk. apply Ho. by left.
  - intros k Hk _. apply Hfr. by intros ->.
  - intros k x Hk Hx. apply Hm. assert (k <> n) by (by intros ->). unfold in_frame in Hx. lia.
  - intros p t i Hu Hl Hw. destruct p as [|j p].
    + injection Hw as <-. destruct Hu as [Hq Hh]. apply idx_cons in Hq as [Hi' _]. rewrite He; [done|done|]. intros ->. by apply Hh.
    + rewrite empty_walk in Hw; [done|done|by eapply upath_prefix|done].
  - intros k Hk Hk0. apply Ho in Hk as [?| ->]; [done|]. by apply (alloc_page_directory_fresh s n s1 Hi); [lia|].
Qed.

(** Giving up: the space goes, what was in use stays. *)
Lemma kept_free s0 pd s :
  kept s0 pd [] s ->
  let s' := free_page_directory pd s in
  fs_inv (pa s') /\ forall n, fs_owned (pa s0) n ->
    fs_owned (pa s') n /\ fs_frame (pa s') n = fs_frame (pa s0) n /\ forall x, in_frame n x -> pm s' x = pm s0 x.
Proof.
  intros [W L T N O F D _ _]. destruct (free_page_directory_spec s pd W L) as (Hi & Hm & _ & _ & Hf & Ho). split; [done|]. intros n Hn.
  assert (Hni : ~ in_space s pd n) by (intros H; by apply (not_elem_of_nil n), N). split; [by apply Ho, O|]. split; [|intros x Hx; rewrite Hm; by eapply D].
  transitivity (fs_frame (pa s) n); [by apply Hf|]. apply F; [done|apply not_elem_of_nil].
Qed.

(** With the books kept, all that was taken is free again; one frame may be lost, if memory had
    run out. *)
Lemma kept_free_all s0 pd s :
  kept s0 pd [] s -> tight s0 pd s ->
  exists l, forall n, fs_owned (pa (free_page_directory pd s)) n -> fs_owned (pa s0) n \/ n = l /\ exhausted s.
Proof.
  intros [W L T N O F D _ One] Ti. destruct (free_page_directory_spec s pd W L) as (_ & _ & _ & Hin & _ & Ho).
  assert (Hl : exists l, forall n, fs_owned (pa s) n -> fs_owned (pa s0) n \/ in_space s pd n \/ n = l /\ exhausted s).
  { destruct Ti as [H|[He [l H]]]; [exists 0|exists l]; intros n Hn; (destruct (H n Hn) as [?|[?|Hx]]; [by left|by right; left|]).
    - by apply not_elem_of_nil in Hx.
    - apply list_elem_of_singleton in Hx. auto. }
  destruct Hl as [l Hl]. exists l. intros n Hn.
  assert (Dec : Decision (fs_owned (pa s0) n)) by (unfold Decision; cbn; unfold held; apply (_ : Decision (0 < n < total_pages (pa s0) /\ is_free (pa s0) n = false))).
  destruct (decide (fs_owned (pa s0) n)) as [|Hn0]; [by left|right].
  destruct (decide (n ∈ space_frames (pm s) pd)) as [Hs|Hs].
  - apply space_frames_in in Hs; [|done|done]. exfalso. specialize (Hin n Hs).
    assert (Hon : fs_owned (pa s) n) by (destruct Hs as [Ht|(v & Hv & Hp & <-)]; [by eapply table_owned|by apply L]).
    rewrite (One n Hon Hn0 : frame_state (pa s) n = _) in Hin. destruct Hn as [_ Hfree]. unfold frame_state, drop_ref, fresh_frame in Hin. cbn in Hin. congruence.
  - assert (Hns : ~ in_space s pd n) by (intros H; apply Hs; by apply space_frames_in). destruct (Hl n) as [?|[?|?]]; [by apply Ho|done..].
Qed.

(** * The end of the program *)

Section image.
  Context (libc : option (list libseg)) (data : list Z).

Definition libc_pages : list (libseg * Z * Z) := match libc with Some segs => lib_pages segs | None => [] end.
Definition libc_ok (s : vm) : Prop := match libc with Some segs => lib_ready s segs | None => True end.
Definition off_libc (x : Z) : Prop := Forall (fun pg => ~ same_page pg.1.2 x) libc_pages.
  (** No segment has the page of [x]. *)
Definition off_segments (x : Z) : Prop := forall i ph, segment data i ph -> ~ on_pages ph x.

Lemma headers_inside i :
    e_phoff data <= len data -> e_phnum data * SIZEOF_PHDR <= len data - e_phoff data -> len data < 2 ^ 32 ->
    0 <= i < e_phnum data -> program_header data i <> None.
  Proof.
    intros A B C Hi. pose proof (fld_range 8 32 data) as Hp. change (fld 8 32 data) with (e_phoff data) in Hp. unfold SIZEOF_PHDR in B.
    unfold program_header, rd, SIZEOF_PHDR. rewrite u64_small by lia. set (o := e_phoff data + 56 * i).
    repeat match goal with |- context [(0 <=? ?a) && (?b <=? ?c)] => replace ((0 <=? a) && (b <=? c)) with true by (symmetry; apply andb_true_iff; split; apply Z.leb_le; lia) end. done.
  Qed.

Lemma max_addr_spec :
    (forall i ph, segment data i ph -> segment_ok (len data) ph = true) ->
    0 <= max_addr data <= USER_SPACE_END /\ forall i ph, segment data i ph -> p_vaddr ph + p_memsz ph <= max_addr data.
  Proof.
    intros Hok. pose proof (fld2_range 56 data) as Hn. change (fld 2 56 data) with (e_phnum data) in Hn. unfold max_addr.
    set (body := fun i max => _). set (I := fun m v => 0 <= v <= USER_SPACE_END /\ forall i ph, segment data i ph -> i < m -> p_vaddr ph + p_memsz ph <= v).
    assert (H : I (0 + Z.of_nat (Z.to_nat (e_phnum data))) (for_range (Z.to_nat (e_phnum data)) 0 body 0)).
    { apply for_range_ind; [split; [unfold USER_SPACE_END; lia|intros i ph (? & _); lia]|]. intros m v Hm (Hv & Hs). unfold body.
      assert (Step : forall i ph, segment data i ph -> i < m + 1 -> i < m \/ i = m /\ program_header data m = Some ph /\ p_type ph = PT_LOAD)
        by (intros i ph (? & ? & ?) Hi; destruct (decide (i < m)); [by left|right]; assert (i = m) as -> by lia; done).
      destruct (program_header data m) as [ph|] eqn:Ep.
      2: { split; [done|]. intros i q Hq Hi. destruct (Step i q Hq Hi) as [|(_ & ? & _)]; [by eapply Hs|done]. }
      destruct (Z.eqb_spec (p_type ph) PT_LOAD) as [Et|Et]; cbn [negb].
      2: { split; [done|]. intros i q Hq Hi. destruct (Step i q Hq Hi) as [|(_ & [= ->] & ?)]; [by eapply Hs|done]. }
      assert (Hseg : segment data m ph) by (split; [lia|done]). destruct (program_header_range _ _ _ Ep) as (_ & _ & R3 & _ & R5).
      destruct (proj1 (segment_ok_iff _ _ (proj1 R5)) (Hok _ _ Hseg)) as (_ & _ & A & B & _). unfold USER_SPACE_MIN, USER_SPACE_END in *. rewrite u64_small by lia.
      split; [case_cmp; lia|]. intros i q Hq Hi. destruct (Step i q Hq Hi) as [H|(_ & [= ->] & _)]; [specialize (Hs i q Hq H)|]; case_cmp; lia. }
    destruct H as [H1 H2]. split; [done|]. intros i ph Hs. apply (H2 i ph Hs). destruct Hs as (? & _). lia.
  Qed.

  (** A file the loader accepts: its headers and its program headers are in order, the entry point
      is in user space, and every segment passes the checks. *)
Record passes_checks : Prop := {
    ac_valid : elf_validate data = true;
    ac_entsize : e_phentsize data = SIZEOF_PHDR;
    ac_offset : e_phoff data <= len data;
    ac_table : e_phnum data * SIZEOF_PHDR <= len data - e_phoff data;
    ac_entry : USER_SPACE_MIN <= e_entry data < USER_SPACE_END;
    ac_segments : forall i ph, segment data i ph -> segment_ok (len data) ph = true
  }.

  (** The load from [s0] ended in [s'] because no frame was left. *)
Definition ran_out (s0 s' : vm) : Prop :=
    alloc_page_directory s0 = (0, s0) /\ s' = s0 \/ exists pd s3, kept s0 pd [] s3 /\ exhausted s3 /\ s' = free_page_directory pd s3.

  (** The segments share no page with each other and none with the stack. *)
Definition pages_apart : Prop := segments_apart data /\ forall i ph x, segment data i ph -> on_pages ph x -> ~ on_stack x.

  (** A load that ended without a program: frames that were in use keep their counts, and those
      that were taken are free again, up to one that is lost when memory ran out; and that is the
      only thing that can go wrong with a file that passes the checks. *)
Record refused (s0 s' : vm) : Prop := {
    rf_inv : fs_inv (pa s');
    rf_frames : forall n, fs_owned (pa s0) n -> fs_frame (pa s') n = fs_frame (pa s0) n;
    rf_back : pages_apart -> exists l, forall n, fs_owned (pa s') n -> fs_owned (pa s0) n \/ n = l /\ ran_out s0 s';
    rf_reason : passes_checks -> ran_out s0 s'
  }.

  (** * The program as it was meant *)

  (** Where everything is: an address is as the last segment on its page wants it; the stack is
      where no segment is; the rest of the space is empty.  The C library lies over all of it. *)
Record laid_out (s0 : vm) (pd : Z) (s : vm) : Prop := {
    lo_segment : forall i ph x, segment data i ph -> user_va x -> on_pages ph x ->
      (forall j ph', segment data j ph' -> i < j -> ~ on_pages ph' x) -> off_libc x -> loaded_at data ph pd s x;
    lo_stack : forall x, on_stack x -> off_segments x -> off_libc x ->
      data_page pd s x /\ (USER_STACK_TOP + 4096 - 32 <= x -> ubyte s pd x = 0);
    lo_empty : forall x, user_va x -> ~ on_stack x -> off_segments x -> off_libc x -> leaf (pm s) pd x = 0;
    lo_libc : forall pg x, pg ∈ libc_pages -> user_va x -> same_page pg.1.2 x -> lib_at s0 pd pg.1.1 pg.2 s x
  }.

Record program_image (s0 : vm) (im : image) (s : vm) : Prop := {
    pi_wf : pt_wf s (im_pd im);
    pi_leaves : leaves_wf s (im_pd im);
    pi_user : user_tree s (im_pd im);
    pi_tables : forall n, fs_owned (pa s0) n -> ~ is_table s (im_pd im) n;
    pi_frames : forall n, fs_owned (pa s0) n -> (forall pg, pg ∈ libc_pages -> pg.2 <> n * 4096) -> fs_frame (pa s) n = fs_frame (pa s0) n;
    pi_acceptable : passes_checks;
    pi_entry : im_entry im = e_entry data /\ USER_SPACE_MIN <= im_entry im < USER_SPACE_END;
    pi_checked : forall i ph, segment data i ph -> segment_ok (len data) ph = true;
    pi_stack_top : im_stack_top im = USER_STACK_TOP + 4096 - 32;
    pi_brk : im_brk im mod 4096 = 0 /\ 0 <= im_brk im <= USER_SPACE_END /\
      forall i ph, segment data i ph -> p_vaddr ph + p_memsz ph <= im_brk im;
    pi_place : exhausted s \/ laid_out s0 (im_pd im) s
  }.

Lemma libc_map_spec s0 pd s :
    kept s0 pd [] s -> libc_ok s0 -> truthy pd = true ->
    exists s' L, shared_libc_map libc pd s = Some s' /\ kept s0 pd L s' /\ mapped_lib s0 pd libc_pages s s' /\ forall n, n ∈ L -> exists pg, pg ∈ libc_pages /\ pg.2 = n * 4096.
  Proof.
    intros K Hl Hpd. unfold shared_libc_map, libc_ok, libc_pages in *. destruct libc as [segs|].
    - rewrite Hpd. destruct Hl as [A B C]. unfold libseg_map. rewrite map_segs_list.
      destruct (map_lib_pages_spec s0 pd (lib_pages segs) [] s K A B C) as (s' & L & E & K' & Ml & Sub); [intros pg _; apply not_elem_of_nil|].
      exists s', L. split; [done|]. split; [done|]. split; [done|]. intros n Hn. destruct (Sub n Hn) as [?%not_elem_of_nil|?]; done.
    - exists s, []. split; [done|]. split; [done|]. split; [|by intros n ?%not_elem_of_nil]. split; [done|]. split; [intros; apply same_at_refl|right]. by intros pg x ?%not_elem_of_nil.
  Qed.

Lemma stack_or_not s1 pd s2 s3 :
    (forall v, user_va v -> leaf (pm s1) pd v = 0) -> stack_ready pd s2 -> (forall x, user_va x -> ~ on_stack x -> same_at s1 s2 pd x) ->
    in_place pd data s2 (e_phnum data) s3 ->
    (forall x, on_stack x -> off_segments x -> data_page pd s3 x /\ (USER_STACK_TOP + 4096 - 32 <= x -> ubyte s3 pd x = 0)) /\
    (forall x, user_va x -> ~ on_stack x -> off_segments x -> leaf (pm s3) pd x = 0).
  Proof.
    intros L1 [R1 R2] Same2 [Keep _]. split.
    - intros x Hx Ho. pose proof (stack_user x Hx) as Hu. assert (S3 : same_at s2 s3 pd x) by (apply Keep; [done|]; intros i ph Hs _; by apply (Ho i ph)).
      split; [by eapply same_data_page, R1|]. intros Ht. rewrite (proj2 S3); [apply R2; unfold on_stack in Hx; lia|apply (R1 x Hx)].
    - intros x Hx Hn Ho. rewrite <- (L1 x Hx). transitivity (leaf (pm s2) pd x); [|by apply Same2]. apply Keep; [done|]. intros i ph Hs _. by apply (Ho i ph).
  Qed.

Lemma elf_load_image_spec s :
    fs_inv (pa s) -> libc_ok s -> len data < 2 ^ 32 ->
    exists r s', elf_load_image libc data s = Some (r, s') /\
      (forall n, fs_owned (pa s) n -> fs_owned (pa s') n /\ forall x, in_frame n x -> pm s' x = pm s x) /\
      match r with
      | None => refused s s'
      | Some im => program_image s im s'
      end.
  Proof.
    intros Hi Hl Hlen. unfold elf_load_image.
    assert (Fail : (passes_checks -> ran_out s s) -> exists r s', Some (@None image, s) = Some (r, s') /\
      (forall n, fs_owned (pa s) n -> fs_owned (pa s') n /\ forall x, in_frame n x -> pm s' x = pm s x) /\
      match r with None => refused s s' | Some im => program_image s im s' end)
      by (intros Hwhy; exists None, s; split; [done|]; split; [done|]; constructor; [done|done|intros _; exists 0; by left|done]).
    destruct (elf_validate data) eqn:Ev; cbn [negb]; [|apply Fail; intros []; congruence].
    destruct (Z.eqb_spec (e_phentsize data) SIZEOF_PHDR) as [Esz|]; cbn [negb]; [|apply Fail; by intros []].
    destruct (Z.ltb_spec (len data) (e_phoff data)) as [|Hoff]; [apply Fail; intros []; lia|]. destruct (Z.ltb_spec (len data - e_phoff data) (e_phnum data * SIZEOF_PHDR)) as [|Htab]; [apply Fail; intros []; lia|].
    destruct (kept_fresh s Hi) as [(n & s1 & -> & Ht & K1 & L1 & Ti1)|Ea]; [|rewrite Ea; apply Fail; by left]. rewrite Ht. cbn [negb]. clear Fail. set (pd := n * 4096) in *.
    set (steps := fbind (load_stack pd s1) _).
    assert (H : fpost steps (fun _ s3 => kept s pd [] s3 /\ USER_SPACE_MIN <= e_entry data < USER_SPACE_END /\
        (forall i ph, segment data i ph -> segment_ok (len data) ph = true) /\
        (exhausted s3 \/ exists s2, stack_ready pd s2 /\ (forall x, user_va x -> ~ on_stack x -> same_at s1 s2 pd x) /\ in_place pd data s2 (e_phnum data) s3))
      (fun s3 => kept s pd [] s3 /\ (passes_checks -> exhausted s3) /\ (pages_apart -> tight s pd s3))).
    { assert (Sf : stack_free pd s1) by (intros x Hx; by rewrite L1 by (by apply stack_user)).
      apply fpost_bind. eapply fpost_impl; [by apply (load_stack_spec s)| |]. 2: { intros s2 (K2 & Ex & Ti2). split; [done|]. split; [done|]. intros _. by apply Ti2. }
      intros stk s2 (K2 & C2 & Ti2). specialize (Ti2 Ti1 Sf).
      destruct (Z.ltb_spec (e_entry data) USER_SPACE_MIN); cbn [orb]; [split; [done|split; [|done]]; intros []; lia|]. destruct (Z.leb_spec USER_SPACE_END (e_entry data)); cbn [orb]; [split; [done|split; [|done]]; intros []; lia|].
      eapply fpost_impl; [apply (load_segments_spec s pd data Hlen s2 K2); intros i Hin; by apply headers_inside| |].
      - intros [] s3 (K3 & E3 & S3 & C3 & _). split; [done|]. split; [lia|]. split; [done|]. destruct C2 as [?|[A B]]; [left; auto|]. destruct C3 as [?|C3]; [by left|right]. by exists s2.
      - intros s3 (K3 & Why & Ti3). split; [done|]. split.
        + intros Ac. destruct Why as [?|(i & ph & Hs & Hbad)]; [done|]. by rewrite (ac_segments Ac i ph Hs) in Hbad.
        + intros [Ap Off]. apply Ti3; [done|done|]. destruct C2 as [?|[_ Same]]; [by left|right]. intros i ph Hs _ x Hx Hon.
          destruct (Same x Hx (Off i ph x Hs Hon)) as [-> _]. by rewrite L1. }
    destruct steps as [[] s3|s3|]; cbn [fpost] in H; [| |done].
    - destruct H as (K3 & He & Hs & C3). destruct (libc_map_spec s pd s3 K3 Hl Ht) as (s4 & Ls & -> & K4 & (Ex4 & Same4 & Lib4) & HLs).
      eexists _, s4. split; [done|]. split; [intros k Hk; split; [by apply (k_owned _ _ _ _ K4)|intros x Hx; by apply (k_data _ _ _ _ K4 k)]|].
      destruct (max_addr_spec Hs) as [Hm Hmax]. unfold USER_SPACE_END in Hm.
      constructor; cbn [im_pd im_entry im_stack_top im_brk]; [apply K4|apply K4|apply K4|apply K4| |by constructor|done|exact Hs|done| |].
      + intros k Hk Hno. apply (k_frames _ _ _ _ K4); [done|]. intros Hin. destruct (HLs k Hin) as (pg & Hpg & Ef). by apply (Hno pg).
      + change 0xFFF with (2 ^ 12 - 1). rewrite land_not64_pow2 by (lia || apply u64_range). rewrite u64_small by lia. change (2 ^ 12) with 4096.
        split; [apply Z.mod_mul; lia|]. unfold USER_SPACE_END. split; [Z.to_euclidean_division_equations; lia|]. intros i ph Hseg. specialize (Hmax i ph Hseg). Z.to_euclidean_division_equations; lia.
      + destruct C3 as [?|(s2 & R2 & Same2 & P3)]; [left; auto|]. destruct Lib4 as [?|Lib4]; [by left|right].
        destruct (stack_or_not s1 pd s2 s3 L1 R2 Same2 P3) as [Stk Emp]. constructor.
        * intros i ph x Hseg Hx Hon Hlast Hoffl. eapply same_loaded; [by apply Same4|]. apply (proj2 P3 i ph x Hseg); [apply Hseg|done|done|]. intros j q Hq Hj. apply (Hlast j q Hq). lia.
        * intros x Hx Ho Hoffl. destruct (Stk x Hx Ho) as [A B]. assert (S4 : same_at s3 s4 pd x) by (by apply Same4; [apply stack_user|]).
          split; [by eapply same_data_page|]. intros Htop. rewrite (proj2 S4); [by apply B|apply A].
        * intros x Hx Hn Ho Hoffl. rewrite <- (Emp x Hx Hn Ho). by apply Same4.
        * exact Lib4.
    - destruct H as (K3 & Why & Ti3). exists None, (free_page_directory pd s3). destruct (kept_free s pd s3 K3) as (Hi' & Hk). split; [done|]. split; [intros k Hn; by destruct (Hk k Hn) as (? & _ & ?)|].
      assert (Out : exhausted s3 -> ran_out s (free_page_directory pd s3)) by (intros Ex; right; by exists pd, s3).
      constructor; [done|intros k Hn; by destruct (Hk k Hn) as (_ & ? & _)| |auto].
      intros Ap. destruct (kept_free_all s pd s3 K3 (Ti3 Ap)) as [l Hback]. exists l. intros k Hn. destruct (Hback k Hn) as [?|[? ?]]; [by left|right; auto].
  Qed.

  (** C26: whatever bytes a file holds, the loader returns without reading outside the file and
      without touching a frame that was in use.  It refuses the file only if its headers, its
      entry point or a segment fail the checks, or if memory ran out; then every frame in use
      before keeps its references, and, unless segments share a page with each other or with the
      stack, every frame that was taken is free again, up to one that is lost when memory ran
      out.  Otherwise the file passed all checks and the program is laid out in a new address
      space: entry point and segments are inside user space, every byte of every segment reads as
      the file has it, zero behind the file's part, except where a later segment or the C library
      has the page; pages are executable only if the segment is, but always writable, whatever
      its flags say; the stack starts with an empty argument frame; the break lies behind all
      segments; and the library's read-only pages are its own frames, write-protected.  The one
      exception to the layout is a load that uses up the last frame. *)
Theorem elf_load_image_correct s :
    fs_inv (pa s) -> libc_ok s -> len data < 2 ^ 32 ->
    exists r s', elf_load_image libc data s = Some (r, s') /\
      (forall n, fs_owned (pa s) n -> fs_owned (pa s') n /\ forall x, in_frame n x -> pm s' x = pm s x) /\
      match r with
      | None => refused s s'
      | Some im => program_image s im s'
      end.
  Proof. apply elf_load_image_spec. Qed.
End image.

(** * A program of three bytes *)

Definition demo_header (phnum : Z) : list Z :=
  [0x7F; 0x45; 0x4C; 0x46; 2; 1] ++ zero_bytes 10 ++ le_bytes 2 2 ++ le_bytes 2 62 ++ le_bytes 4 1 ++ le_bytes 8 0x10000 ++
  le_bytes 8 64 ++ le_bytes 8 0 ++ le_bytes 4 0 ++ le_bytes 2 64 ++ le_bytes 2 56 ++ le_bytes 2 phnum ++ le_bytes 2 64 ++ le_bytes 2 0 ++ le_bytes 2 0.
Definition demo_phdr (flags off va filesz memsz : Z) : list Z :=
  le_bytes 4 1 ++ le_bytes 4 flags ++ le_bytes 8 off ++ le_bytes 8 va ++ le_bytes 8 0 ++ le_bytes 8 filesz ++ le_bytes 8 memsz ++ le_bytes 8 4096.

(** One segment of code, with room behind it. *)
Definition demo_elf : list Z := demo_header 1 ++ demo_phdr 5 120 0x10000 3 16 ++ [0x90; 0x91; 0xC3].
(** The same, and a segment of data on the same page. *)
Definition demo_elf2 : list Z := demo_header 2 ++ demo_phdr 5 176 0x10000 3 16 ++ demo_phdr 6 179 0x10010 1 1 ++ [0x90; 0x91; 0xC3; 0x55].

(** A machine whose free frames are full of old data; with all its 31 frames, and with 9. *)
Definition demo_machine (a : mem) : vm := Vm (fun _ => 0xAA) a 0 0 [] 0 0.
Definition few_frames : mem := Mem (fun i => if i =? 0 then 0x3FE else 0) 32 9 (fun _ => 0) (fun _ => 0) 131072 0.

Definition loaded (r : option (option image * vm)) : option (image * vm) :=
  match r with Some (Some im, s) => Some (im, s) | _ => None end.
(** What is seen of address [x] in the program: its page-table entry and its byte. *)
Definition seen (data : list Z) (a : mem) (x : Z) : option (Z * Z) :=
  match loaded (elf_load_image None data (demo_machine a)) with Some (im, s) => Some (leaf (pm s) (im_pd im) x, ubyte s (im_pd im) x) | None => None end.

Lemma demo_elf_loads :
  match elf_load_image None demo_elf (demo_machine demo_frames) with Some (Some _, s) => negb ((page_alloc s).1 =? 0) | _ => false end = true.
Proof. vm_compute. reflexivity. Qed.

Lemma demo_elf_segment : segment demo_elf 0 (Phdr 1 5 120 0x10000 3 16).
Proof. unfold segment. split; [by vm_compute|]. split; [vm_compute; reflexivity|reflexivity]. Qed.

Lemma elf_load_image_correct_witness :
  exists im s', elf_load_image None demo_elf (demo_machine demo_frames) = Some (Some im, s') /\
    im_entry im = 0x10000 /\ ubyte s' (im_pd im) 0x10001 = 0x91 /\ ubyte s' (im_pd im) 0x10003 = 0.
Proof.
  pose proof demo_elf_loads as H. destruct (elf_load_image_correct None demo_elf (demo_machine demo_frames) demo_frames_wf I ltac:(vm_compute; reflexivity)) as (r & s' & E & _ & P).
  rewrite E in H. destruct r as [im|]; [|discriminate H]. exists im, s'. split; [exact E|]. clear E. destruct P as [_ _ _ _ _ _ [He _] _ _ _ [Ex|P]].
  - unfold exhausted in Ex. rewrite Ex in H. discriminate H.
  - split; [rewrite He; vm_compute; reflexivity|].
    assert (At : forall x, 0x10000 <= x < 0x10010 -> loaded_at demo_elf (Phdr 1 5 120 0x10000 3 16) (im_pd im) s' x).
    { intros x Hx. apply (lo_segment _ _ _ _ _ P 0); [exact demo_elf_segment|unfold user_va; lia| | |constructor].
      - unfold on_pages. cbn. Z.to_euclidean_division_equations; lia.
      - intros j ph' (Hj & _) Hlt. change (e_phnum demo_elf) with 1 in Hj. lia. }
    rewrite (la_byte _ _ _ _ _ (At 0x10001 ltac:(lia)) ltac:(cbn; lia)), (la_byte _ _ _ _ _ (At 0x10003 ltac:(lia)) ltac:(cbn; lia)). split; vm_compute; reflexivity.
Defined.

(** The loader asks for read-only pages where a segment is not writable, but the mapping it uses
    makes every page writable: the code of a program can be written. *)
Lemma elf_code_is_writable : option_map (fun v => (truthy (p_flags (Phdr 1 5 120 0x10000 3 16) .& PF_W), Z.testbit v.1 1)) (seen demo_elf demo_frames 0x10000) = Some (false, true).
Proof. vm_compute. reflexivity. Qed.

(** Frames are not cleared: what lies outside the segments on their pages is old data. *)
Lemma elf_shows_old_data : option_map snd (seen demo_elf demo_frames 0x10010) = Some 0xAA.
Proof. vm_compute. reflexivity. Qed.

(** Two segments on one page: the second gets a frame of its own and the bytes of the first are
    gone. *)
Lemma elf_second_segment_wins : map (fun x => option_map snd (seen demo_elf2 demo_frames x)) [0x10000; 0x10010] = [Some 0xAA; Some 0x55].
Proof. vm_compute. reflexivity. Qed.

(** When the last frame goes to the page and none is left for its table, the loader succeeds and
    the page is missing. *)
Lemma elf_missing_page : option_map (fun v => present v.1) (seen demo_elf few_frames 0x10000) = Some false.
Proof. vm_compute. reflexivity. Qed.
