(* ===== verification/Exec.v ===== *)
(** Running a program: proc_set_comm, build_argv_stack and do_execve of src/kernel/process.c, and
    elf_load_args of src/kernel/elf.c.

    A C string is the list of its characters without the terminator.  [libc] is the C library's
    segments once it is loaded. *)
From Stdlib Require Import ZArith Lia.
From S2P Require Import Prelude Packed Phys PageAlloc Paging PageTables CowClone UserMem Process Signal Sched Reap Fault FreeSpace UserTree NewSpace Spawn Elf ElfLoad ElfLib ElfImage.

#[local] Arguments Z.testbit : simpl never.

(** * Names *)

(** The part behind the last slash. *)
Fixpoint base_name (path base : list Z) : list Z :=
  match path with [] => base | c :: r => base_name r (if c =? 47 then r else base) end.

(** ".elf" *)
Definition elf_suffix : list Z := [46; 101; 108; 102].

Definition proc_set_comm (path : list Z) (t : text_part) : text_part :=
  let tmp := take 31 (base_name path path) in
  let i := length tmp in
  let tmp := if (4 <=? i)%nat && bool_decide (drop (i - 4) tmp = elf_suffix) then take (i - 4) tmp else tmp in
  match tmp with [] => t | _ => set_comm (strncpy 31 tmp) t end.

(** The arguments with a blank between them, as far as there is room. *)
Definition CMDLINE_MAX : nat := 255.
Fixpoint add_words (first : bool) (argv : list (list Z)) (c : list Z) : list Z :=
  match argv with
  | [] => c
  | a :: argv' =>
      if (length c <? CMDLINE_MAX)%nat then
        let c := if first then c else c ++ [32] in
        add_words false argv' (c ++ take (CMDLINE_MAX - length c) a)
      else c
  end.
Definition make_cmdline (argv : list (list Z)) (path : list Z) : list Z :=
  match add_words true argv [] with [] => take CMDLINE_MAX path | c => c end.

(** * The entry stack *)

(** The strings, the last one highest; what is returned is their addresses, the new stack pointer
    and memory.  What copy_to_user returns is not looked at. *)
Fixpoint push_strings (cr3 : Z) (strs : list (list Z)) (sp : Z) (m : pmem) : list Z * Z * pmem :=
  match strs with
  | [] => ([], sp, m)
  | s :: rest =>
      let '(ptrs, sp, m) := push_strings cr3 rest sp m in
      let sp := u64 (sp - (len s + 1)) in
      (sp :: ptrs, sp, (copy_to_user cr3 sp (s ++ [0]) m).2)
  end.

Definition user_words (ws : list Z) : list Z := ws ≫= le_bytes 8.

(** [sp &= ~0xF], then room for [n] words, one more if that is odd. *)
Definition frame_at (sp n : Z) : Z :=
  let n := if truthy (n .& 1) then n + 1 else n in u64 ((sp .& not64 0xF) - n * 8).

Definition store_frame (cr3 sp argc : Z) (arrays : list (list Z)) (m : pmem) : pmem :=
  fst (foldl (fun '(m, a) ws => ((copy_to_user cr3 a (user_words ws) m).2, u64 (a + len ws * 8))) ((copy_to_user cr3 sp (user_words [argc]) m).2, u64 (sp + 8)) arrays).

(** [argc <= 0 || !kargv] leaves the empty frame. *)
Definition build_argv_stack (pd stack_top : Z) (argv : list (list Z)) (m : pmem) : Z * pmem :=
  match argv with
  | [] => (stack_top, m)
  | _ =>
      let argv := take 32 argv in
      let '(uargv, sp, m) := push_strings pd argv (u64 (stack_top + 0xFFF) .& not64 0xFFF) m in
      let sp := frame_at sp (1 + (len argv + 1) + 1) in
      (sp, store_frame pd sp (len argv) [uargv ++ [0]; [0]] m)
  end.

(** The frame of do_execve: the arguments and the environment. *)
Definition build_entry_stack (pd stack_top : Z) (argv envv : list (list Z)) (m : pmem) : Z * pmem :=
  let argv := take 32 argv in
  let envv := take 16 envv in
  let '(uargv, sp, m) := push_strings pd argv (u64 (stack_top + 0xFFF) .& not64 0xFFF) m in
  let '(uenvp, sp, m) := push_strings pd envv sp m in
  let sp := frame_at sp (1 + (len argv + 1) + (len envv + 1)) in
  (sp, store_frame pd sp (len argv) [uargv ++ [0]; uenvp ++ [0]] m).

(** * do_execve *)

(** The new image: its space and heap window, no caught or pending signals, no regions, lines
    from the terminal. *)
Definition reset_signals (g : sig_part) : sig_part :=
  set_sig_trampoline 0 (set_sig_mask 0 (set_sig_active 0 (set_sig_pending 0
    (set_sig_handlers (fun i => if (0 <=? i) && (i <? NSIG) then SIG_DFL else sig_handlers g i) g)))).
Definition new_image (im : image) (p : proc) : proc :=
  on_sig reset_signals (on_mm (fun m => set_program_break (im_brk im) (set_heap_start (im_brk im) m)) (set_page_directory (im_pd im) p)).

Definition forget_vma (v : vma) : vma := set_v_used 0 (if truthy (v_file_buf v) then set_v_file_buf 0 v else v).
Definition exec_vma (a i : Z) (k : kst) : kst :=
  match pstore k !! a ≫= (fun p => mmap_vmas (p_mm p) !! Z.to_nat i) with
  | Some v => upd a (set_vma (Z.to_nat i) forget_vma) (if truthy (v_file_buf v) then log_call (CallKfree (v_file_buf v)) k else k)
  | None => k
  end.

(** The registers the program starts with. *)
Definition entry_frame (f : Z -> Z) (argc sp entry : Z) : Z -> Z :=
  <[16 := entry]> (<[15 := 0x202]> (<[10 := u64 (sp + 8)]> (<[9 := argc]> (fun i => if (0 <=? i) && (i <? 15) then 0 else f i)))).

(** [None]: the kernel panics, or there is no system call frame. *)
Definition do_execve (libc : option (list libseg)) (data : list Z) (argv envv : list (list Z)) (path : list Z) (k : kst) : option (Z * kst) :=
  let self := get_current_process k in
  match pstore k !! self with
  | None => Some (-1, k)
  | Some p =>
      if negb (truthy (page_directory p)) then Some (-1, k)
      else
        match elf_load_image libc data (kvm k) with
        | None => None
        | Some (None, v) => Some (-1, set_kvm v k)
        | Some (Some im, v) =>
            let k := set_kvm v k in
            let k := upd self (on_text (fun t => set_cmdline (make_cmdline argv path) (proc_set_comm path t))) k in
            let old_pd := page_directory p in
            let k := upd self (new_image im) k in
            let k := for_range (Z.to_nat PROC_MAX_VMAS) 0 (exec_vma self) k in
            let k := upd self (fun p => on_text (set_tty_raw 0) (on_mm (set_mmap_next 0) p)) k in
            let k := if truthy old_pd && negb (addr_space_shared old_pd self k) then set_kvm (free_page_directory old_pd (kvm k)) k else k in
            let '(sp, m) := build_entry_stack (im_pd im) (im_stack_top im) argv envv (pm (kvm k)) in
            match syscall_frame k with
            | None => None
            | Some f =>
                Some (0, set_user_rsp sp (set_syscall_frame (Some (entry_frame f (len (take 32 argv)) sp (im_entry im)))
                  (set_user_cr3 (im_pd im) (set_kvm (set_pm m (kvm k)) k))))
            end
        end
  end.

(** "elf" *)
Definition elf_name : list Z := [101; 108; 102].

Section Exec.
Context {KH : KernelHeap}.

(** A new process from a file; 0 stands for the failure. *)
Definition elf_load_args (libc : option (list libseg)) (data : list Z) (argv : list (list Z)) (cpu : Z) (cwd0 : list Z) (k : kst) : option (Z * kst) :=
  match elf_load_image libc data (kvm k) with
  | None => None
  | Some (None, v) => Some (0, set_kvm v k)
  | Some (Some im, v) =>
      let '(rsp, m) := build_argv_stack (im_pd im) (im_stack_top im) argv (pm v) in
      match create_user_process elf_name (im_entry im) rsp (im_pd im) cpu cwd0 (set_kvm (set_pm m v) k) with
      | None => None
      | Some (proc, k) =>
          if negb (truthy proc) then Some (0, set_kvm (free_page_directory (im_pd im) (kvm k)) k)
          else Some (proc, upd proc (on_mm (fun m => set_program_break (im_brk im) (set_heap_start (im_brk im) m))) k)
      end
  end.

Definition elf_load (libc : option (list libseg)) (data : list Z) (cpu : Z) (cwd0 : list Z) (k : kst) : option (Z * kst) :=
  elf_load_args libc data [] cpu cwd0 k.
End Exec.
