(* ===== verification/ExecArgs.v ===== *)
(** What a program finds on its stack: the arguments and the environment that do_execve
    (src/kernel/process.c) was given. *)
From Stdlib Require Import ZArith Lia.
From S2P Require Import Prelude Packed Phys PageAlloc Paging PageTables CowClone UserMem Process Signal Sched Reap Fault FreeSpace UserTree NewSpace Spawn Elf ElfLoad ElfLib ElfImage Exec.

#[local] Arguments Z.testbit : simpl never.

Definition byte (b : Z) : Prop := 0 <= b < 256.

(** Bytes a program reads at an address. *)
Definition reads (cr3 a : Z) (l : list Z) (m : pmem) : Prop := copy_from_user cr3 a (length l) m = (0, l).

Lemma le_bytes_byte w v : Forall byte (le_bytes w v).
Proof. revert v. induction w as [|w IH]; intros v; cbn; constructor; [unfold byte, u8; apply Z.mod_pos_bound; lia|apply IH]. Qed.
Lemma words_byte ws : Forall byte (user_words ws).
Proof. unfold user_words. induction ws as [|w ws IH]; [constructor|]. rewrite bind_cons. apply list.Forall_app. split; [apply le_bytes_byte|done]. Qed.
Lemma length_words ws : len (user_words ws) = 8 * len ws.
Proof. unfold user_words. induction ws as [|w ws IH]; [done|]. rewrite bind_cons, length_app, length_le_bytes. cbn [length]. lia. Qed.
Lemma map_u8_bytes l : Forall byte l -> map u8 l = l.
Proof. induction 1 as [|b l Hb _ IH]; cbn; [done|]. rewrite IH, u8_small; [done|exact Hb]. Qed.

(** Room for the strings. *)
Fixpoint strings_size (l : list (list Z)) : Z := match l with [] => 0 | s :: l' => len s + 1 + strings_size l' end.
Lemma strings_size_nonneg l : 0 <= strings_size l.
Proof. induction l as [|s l IH]; cbn; lia. Qed.

Section entry.
  Context (s : vm) (pd : Z) (Hwf : pt_wf s pd) (Hlw : leaves_wf s pd) (Hus : user_tree s pd) (Hst : forall x, on_stack x -> data_page pd s x).
  Notation v2p x := (user_v2p pd x (pm s)).

Lemma stack_v2p x : on_stack x -> v2p x <> 0.
  Proof.
    intros Hx. destruct (Hst x Hx) as (Hp & _ & H2 & _). pose proof (stack_user x Hx) as Hu.
    rewrite (user_v2p_mapped s pd x Hwf Hus); [|unfold on_stack, USER_STACK_TOP, USER_SPACE_MIN, USER_SPACE_END in *; lia|done|done].
    destruct (proj1 Hlw x Hu Hp) as [Ho _]. pose proof (owned_frame s _ (tw_inv _ _ Hwf) Ho). pose proof (Z.mod_pos_bound x 4096). lia.
  Qed.

  (** The bytes [l] are at [a] on the stack. *)
Definition holds (a : Z) (l : list Z) (m : pmem) : Prop :=
    forall i b, l !! i = Some b -> on_stack (a + Z.of_nat i) /\ m (v2p (a + Z.of_nat i)) = u8 b.
  (** Only bytes of the stack in [a, b) differ. *)
Definition stack_diff (a b : Z) (m m' : pmem) : Prop :=
    agree s pd m' /\ forall y, (forall x, a <= x < b -> on_stack x -> v2p x <> y) -> m' y = m y.

Lemma holds_reads a l m : agree s pd m -> Forall byte l -> holds a l m -> reads pd a l m.
  Proof.
    intros Ha Hb Hh. unfold reads. rewrite <- (map_u8_bytes l Hb) at 2. apply (copy_from_user_ok s pd Hwf); [done|]. intros i b Hi.
    destruct (Hh i b Hi) as [Hs E]. split; [by apply stack_v2p|done].
  Qed.

Lemma holds_diff a l lo hi m m' : holds a l m -> stack_diff lo hi m m' -> a + len l <= lo \/ hi <= a -> holds a l m'.
  Proof.
    intros Hh [_ Hd] Hr i b Hi. destruct (Hh i b Hi) as [Hs E]. split; [done|]. rewrite Hd; [done|]. intros x Hx Hxs Ex.
    apply user_byte_inj in Ex; [|done|done|by apply stack_v2p]. apply lookup_lt_Some in Hi. lia.
  Qed.

Lemma stack_diff_refl a b m : agree s pd m -> stack_diff a b m m.
  Proof. by split. Qed.
Lemma stack_diff_trans a b m1 m2 m3 : stack_diff a b m1 m2 -> stack_diff a b m2 m3 -> stack_diff a b m1 m3.
  Proof. intros [_ A] [B C]. split; [done|]. intros y Hy. rewrite C by done. by apply A. Qed.
Lemma stack_diff_wider a b a' b' m m' : a' <= a -> b <= b' -> stack_diff a b m m' -> stack_diff a' b' m m'.
  Proof. intros Ha Hb [A B]. split; [done|]. intros y Hy. apply B. intros x Hx. apply Hy. lia. Qed.

Lemma copy_to_user_total bs v m : agree s pd m -> (forall i, (i < length bs)%nat -> on_stack (v + Z.of_nat i)) -> (copy_to_user pd v bs m).1 = 0.
  Proof.
    revert v m. induction bs as [|b bs IH]; intros v m Ha Hs; cbn [copy_to_user]; [done|]. rewrite (user_v2p_ext s pd v m Hwf Ha).
    assert (Hv : on_stack v) by (rewrite <- (Z.add_0_r v); apply (Hs 0%nat); cbn; lia). pose proof (stack_v2p v Hv) as Hne. unfold truthy. destruct (Z.eqb_spec (v2p v) 0); [done|]. cbn [negb].
    rewrite u64_small by (unfold on_stack, USER_STACK_TOP in Hv; lia). apply IH; [by apply agree_st8|]. intros i Hi. replace (v + 1 + Z.of_nat i) with (v + Z.of_nat (S i)) by lia. apply Hs. cbn. lia.
  Qed.

  (** A copy onto the stack. *)
Lemma put_stack v bs m :
    agree s pd m -> (bs <> [] -> on_stack v /\ on_stack (v + len bs - 1)) ->
    let m' := (copy_to_user pd v bs m).2 in holds v bs m' /\ stack_diff v (v + len bs) m m'.
  Proof.
    intros Ha Hr. cbv zeta. assert (Hin : forall i, (i < length bs)%nat -> on_stack (v + Z.of_nat i)).
    { intros i Hi. destruct bs as [|b bs']; [cbn in Hi; lia|]. destruct Hr as [A B]; [done|]. unfold on_stack in *. lia. }
    pose proof (copy_to_user_total bs v m Ha Hin) as E. destruct (copy_to_user pd v bs m) as [r m'] eqn:Ec. cbn in E. subst r. cbn.
    destruct (copy_to_user_ok s pd Hwf Hlw bs v m m' Ha Ec) as (A & B & C). split; [|split; [done|]].
    - intros i b Hi. split; [apply Hin; by eapply lookup_lt_Some|]. by apply B.
    - intros y Hy. apply C. intros i Hi. apply Hy; [lia|by apply Hin].
  Qed.

  (** All strings. *)
Lemma push_strings_spec strs sp m :
    agree s pd m -> USER_STACK_TOP - 3 * 4096 <= sp - strings_size strs -> sp <= USER_STACK_TOP + 4096 ->
    let '(ptrs, sp', m') := push_strings pd strs sp m in
    sp' = sp - strings_size strs /\ length ptrs = length strs /\ stack_diff sp' sp m m' /\
    (forall i x p, strs !! i = Some x -> ptrs !! i = Some p -> holds p (x ++ [0]) m' /\ sp' <= p /\ p + len x + 1 <= sp).
  Proof.
    revert m. induction strs as [|x strs IH]; intros m Ha Hlo Hhi; cbn [push_strings strings_size] in *.
    { split; [lia|]. split; [done|]. split; [by apply stack_diff_refl|]. by intros i x p. }
    specialize (IH m Ha ltac:(lia) Hhi). destruct (push_strings pd strs sp m) as [[ptrs sp1] m1]. destruct IH as (E1 & El & D1 & H1).
    pose proof (strings_size_nonneg strs). rewrite u64_small by (unfold USER_STACK_TOP in *; lia).
    assert (Lx : len (x ++ [0]) = len x + 1) by (rewrite length_app; cbn; lia).
    destruct (put_stack (sp1 - (len x + 1)) (x ++ [0]) m1) as [Hx D2]; [apply D1|intros _; unfold on_stack; rewrite Lx; lia|].
    set (m2 := (copy_to_user _ _ _ _).2) in *. rewrite Lx in D2. replace (sp1 - (len x + 1) + (len x + 1)) with sp1 in D2 by lia.
    split; [lia|]. split; [cbn; lia|]. split.
    - eapply stack_diff_trans; [eapply stack_diff_wider; [| |exact D1]; lia|]. eapply stack_diff_wider; [| |exact D2]; lia.
    - intros [|i] y p Hy Hp; cbn in Hy, Hp.
      + injection Hy as <-. injection Hp as <-. split; [done|]. lia.
      + destruct (H1 i y p Hy Hp) as (A & B & C). split; [|lia]. eapply holds_diff; [exact A|exact D2|]. lia.
  Qed.

  (** The user_words of the frame, one array behind the other. *)
Lemma store_arrays arrays a m :
    agree s pd m -> USER_STACK_TOP - 3 * 4096 <= a -> a + 8 * len (concat arrays) <= USER_STACK_TOP + 4096 ->
    let m' := (foldl (fun '(m, a) ws => ((copy_to_user pd a (user_words ws) m).2, u64 (a + len ws * 8))) (m, a) arrays).1 in
    stack_diff a (a + 8 * len (concat arrays)) m m' /\
    forall i ws, arrays !! i = Some ws -> holds (a + 8 * len (concat (take i arrays))) (user_words ws) m'.
  Proof.
    revert a m. induction arrays as [|ws arrays IH]; intros a m Ha Hlo Hhi; cbn [foldl concat] in *; rewrite ?length_app in *.
    { split; [by apply stack_diff_refl|]. by intros i ws. }
    pose proof (length_words ws) as Lw. destruct (put_stack a (user_words ws) m Ha) as [H1 D1]; [intros Hne; destruct ws; [done|]; cbn [length] in *; unfold on_stack; lia|].
    set (m1 := (copy_to_user _ _ _ _).2) in *. rewrite u64_small by (unfold USER_STACK_TOP in *; lia).
    destruct (IH (a + len ws * 8) m1) as [D2 H2]; [apply D1|lia|lia|]. set (m2 := (foldl _ _ _).1) in *. rewrite Lw in D1.
    split.
    - eapply stack_diff_trans; [eapply stack_diff_wider; [| |exact D1]; lia|]. eapply stack_diff_wider; [| |exact D2]; lia.
    - intros [|i] ws' Hi; cbn [take concat] in *.
      + injection Hi as <-. cbn [length]. rewrite Z.mul_0_r, Z.add_0_r. eapply holds_diff; [exact H1|exact D2|]. lia.
      + rewrite length_app. replace (a + 8 * Z.of_nat (length ws + length (concat (take i arrays)))) with (a + len ws * 8 + 8 * len (concat (take i arrays))) by lia. by apply H2.
  Qed.

  (** An array of pointers to the strings, ended by a null pointer. *)
Definition string_array (a : Z) (strs : list (list Z)) (m : pmem) : Prop :=
    exists ptrs, length ptrs = length strs /\ reads pd a (user_words (ptrs ++ [0])) m /\
      forall i x p, strs !! i = Some x -> ptrs !! i = Some p -> reads pd p (x ++ [0]) m.

Definition fits (argv envv : list (list Z)) : Prop :=
    strings_size argv + strings_size envv + 8 * (len argv + len envv + 4) + 15 <= 4 * 4096.

Lemma stack_base : u64 (USER_STACK_TOP + 4096 - 32 + 0xFFF) .& not64 0xFFF = USER_STACK_TOP + 4096.
  Proof. vm_compute. reflexivity. Qed.

Lemma frame_at_spec sp n :
    0 <= n -> 8 * n + 23 <= sp < 2 ^ 64 -> let f := frame_at sp n in f mod 16 = 0 /\ sp - 8 * n - 23 <= f <= sp - 8 * n.
  Proof.
    intros Hn Hsp. cbv zeta. unfold frame_at. change 0xF with (2 ^ 4 - 1). rewrite land_not64_pow2 by lia. change (2 ^ 4) with 16.
    set (n' := if truthy (n .& 1) then n + 1 else n).
    assert (Hp : n' mod 2 = 0 /\ n <= n' <= n + 1).
    { unfold n', truthy. change (n .& 1) with (n .& Z.ones 1). rewrite Z.land_ones by lia. change (2 ^ 1) with 2. destruct (Z.eqb_spec (n mod 2) 0); cbn [negb]; [lia|]. pose proof (Z.mod_pos_bound n 2 ltac:(lia)). split; [|lia].
      rewrite Z.add_mod by lia. replace (n mod 2) with 1 by lia. done. }
    rewrite u64_small by (Z.to_euclidean_division_equations; lia). split; Z.to_euclidean_division_equations; lia.
  Qed.

Lemma entry_stack_spec argv envv :
    (length argv <= 32)%nat -> (length envv <= 16)%nat -> Forall (Forall byte) argv -> Forall (Forall byte) envv -> fits argv envv ->
    let '(sp, m') := build_entry_stack pd (USER_STACK_TOP + 4096 - 32) argv envv (pm s) in
    sp mod 16 = 0 /\ on_stack sp /\ reads pd sp (user_words [len argv]) m' /\
    string_array (sp + 8) argv m' /\ string_array (sp + 8 + 8 * (len argv + 1)) envv m' /\
    agree s pd m' /\ forall y, (forall x, on_stack x -> v2p x <> y) -> m' y = pm s y.
  Proof.
    intros Ha He Hba Hbe Hfit. unfold fits in Hfit. unfold build_entry_stack. rewrite (take_ge argv), (take_ge envv), stack_base by done.
    pose proof (strings_size_nonneg argv) as Na. pose proof (strings_size_nonneg envv) as Ne. set (top := USER_STACK_TOP + 4096) in *.
    assert (Htop : top = 0x00007FFFFFFFF000) by reflexivity.
    pose proof (push_strings_spec argv top (pm s) ltac:(done) ltac:(lia) ltac:(lia)) as HA. destruct (push_strings pd argv top (pm s)) as [[uargv sp1] m1]. destruct HA as (E1 & L1 & D1 & H1).
    pose proof (push_strings_spec envv sp1 m1 (proj1 D1) ltac:(lia) ltac:(lia)) as HE. destruct (push_strings pd envv sp1 m1) as [[uenvp sp2] m2]. destruct HE as (E2 & L2 & D2 & H2).
    destruct (frame_at_spec sp2 (1 + (len argv + 1) + (len envv + 1)) ltac:(lia) ltac:(lia)) as [Hal Hf]. set (sp := frame_at _ _) in *.
    set (arrays := [[len argv]; uargv ++ [0]; uenvp ++ [0]]).
    assert (La : len (concat arrays) = len argv + len envv + 3) by (unfold arrays; cbn [concat]; rewrite !length_app; cbn [length]; lia).
    assert (Es : store_frame pd sp (len argv) [uargv ++ [0]; uenvp ++ [0]] m2 =
      (foldl (fun '(m, a) ws => ((copy_to_user pd a (user_words ws) m).2, u64 (a + len ws * 8))) (m2, sp) arrays).1) by reflexivity.
    pose proof (store_arrays arrays sp m2 (proj1 D2) ltac:(lia) ltac:(lia)) as H. cbv zeta in H. rewrite <- Es in H. clear Es.
    set (m3 := store_frame _ _ _ _ _) in *. destruct H as [D3 H3]. rewrite La in D3.
    assert (Bw : forall i ws, arrays !! i = Some ws -> reads pd (sp + 8 * len (concat (take i arrays))) (user_words ws) m3).
    { intros i ws Hi. apply (holds_reads _ _ _ (proj1 D3)); [apply words_byte|]. by apply H3. }
    split; [done|]. split; [unfold on_stack; lia|]. split; [rewrite <- (Z.add_0_r sp); exact (Bw 0%nat _ eq_refl)|]. split; [|split; [|split; [apply D3|]]].
    - exists uargv. split; [done|]. split; [exact (Bw 1%nat _ eq_refl)|]. intros i x p Hx Hp. destruct (H1 i x p Hx Hp) as (A & B & C).
      apply (holds_reads _ _ _ (proj1 D3)); [apply list.Forall_app; split; [by eapply list.Forall_lookup_1 in Hba|repeat constructor; unfold byte; lia]|].
      assert (Lx : len (x ++ [0]) = len x + 1) by (rewrite length_app; cbn; lia). eapply holds_diff; [eapply holds_diff; [exact A|exact D2|lia]|exact D3|lia].
    - exists uenvp. split; [done|]. split.
      + replace (sp + 8 + 8 * (len argv + 1)) with (sp + 8 * len (concat (take 2 arrays))) by (unfold arrays; cbn [take concat]; rewrite !length_app; cbn [length]; lia). exact (Bw 2%nat _ eq_refl).
      + intros i x p Hx Hp. destruct (H2 i x p Hx Hp) as (A & B & C).
        apply (holds_reads _ _ _ (proj1 D3)); [apply list.Forall_app; split; [by eapply list.Forall_lookup_1 in Hbe|repeat constructor; unfold byte; lia]|].
        assert (Lx : len (x ++ [0]) = len x + 1) by (rewrite length_app; cbn; lia). eapply holds_diff; [exact A|exact D3|lia].
    - intros y Hy. rewrite (proj2 D3), (proj2 D2), (proj2 D1); [done|intros x _; by apply Hy..].
  Qed.
End entry.
