(* ===== verification/ExecRun.v ===== *)
(** A process runs another program: do_execve (src/kernel/process.c) as a whole. *)
From Stdlib Require Import ZArith Lia.
From S2P Require Import Prelude Packed Phys PageAlloc Paging PageTables CowClone UserMem Process Signal Sched Reap Mmap Fault FreeSpace UserTree NewSpace Spawn Elf ElfLoad ElfLib ElfImage Exec ExecArgs.

#[local] Arguments Z.testbit : simpl never.

(** The regions of the process are forgotten, one by one. *)
Lemma exec_vmas_spec self p k :
  pstore k !! self = Some p -> (length (mmap_vmas (p_mm p)) <= 16)%nat ->
  exists c vm, for_range (Z.to_nat PROC_MAX_VMAS) 0 (exec_vma self) k = set_calls c (set_pstore (<[self := on_mm (set_mmap_vmas vm) p]> (pstore k)) k) /\
    length vm = length (mmap_vmas (p_mm p)) /\ Forall (fun v => v_used v = 0 /\ v_file_buf v = 0) vm.
Proof.
  intros Hp Hl. set (I := fun m k' => exists c vm, k' = set_calls c (set_pstore (<[self := on_mm (set_mmap_vmas vm) p]> (pstore k)) k) /\
    length vm = length (mmap_vmas (p_mm p)) /\ forall j v, vm !! j = Some v -> Z.of_nat j < m -> v_used v = 0 /\ v_file_buf v = 0).
  assert (H : I (0 + Z.of_nat (Z.to_nat PROC_MAX_VMAS)) (for_range (Z.to_nat PROC_MAX_VMAS) 0 (exec_vma self) k)).
  { apply for_range_ind.
    - exists (calls k), (mmap_vmas (p_mm p)). split; [|split; [done|lia]].
      assert (on_mm (set_mmap_vmas (mmap_vmas (p_mm p))) p = p) as -> by (by destruct p as [? ? ? ? ? ? ? ? [] ?]). rewrite insert_id by done. by destruct k.
    - intros m k' Hm (c & vm & -> & El & Hv). unfold exec_vma. cbn [pstore set_calls set_pstore]. rewrite lookup_insert_eq. cbn.
      destruct (vm !! Z.to_nat m) as [v|] eqn:Ev.
      2: { exists c, vm. split; [done|]. split; [done|]. intros j v Hj Hjm. destruct (decide (j = Z.to_nat m)) as [->|]; [congruence|]. apply (Hv j v Hj). lia. }
      exists (if truthy (v_file_buf v) then c ++ [CallKfree (v_file_buf v)] else c), (alter forget_vma (Z.to_nat m) vm). split; [|split].
      + destruct (truthy _); unfold upd, log_call; destruct k; cbn; f_equal; rewrite alter_insert_eq; f_equal; unfold set_vma, on_mm; by destruct p as [? ? ? ? ? ? ? ? [] ?].
      + by rewrite length_alter.
      + intros j w Hj Hjm. destruct (decide (j = Z.to_nat m)) as [->|Hne].
        * rewrite list_lookup_alter_eq, Ev in Hj. injection Hj as <-. unfold forget_vma, truthy. destruct (Z.eqb_spec (v_file_buf v) 0); by destruct v.
        * rewrite list_lookup_alter_ne in Hj by done. apply (Hv j w Hj). lia. }
  destruct H as (c & vm & E & El & Hv). exists c, vm. split; [exact E|]. split; [done|]. apply list.Forall_forall. intros v Hin. apply list_elem_of_lookup in Hin as [j Hj].
  apply (Hv j v Hj). apply lookup_lt_Some in Hj. change (Z.of_nat (Z.to_nat PROC_MAX_VMAS)) with 16. lia.
Qed.

Lemma table_find_ext k k' test test' :
  process_table k' = process_table k -> (forall a, test' a = test a) -> table_find k' test' = table_find k test.
Proof.
  intros Et H. unfold table_find. rewrite Et.
  assert (E : list_find (fun a => Is_true (test' a)) (process_table k) = list_find (fun a => Is_true (test a)) (process_table k)); [|by rewrite E].
  clear Et. induction (process_table k) as [|a l IH]; [done|]. simpl. rewrite IH, H. done.
Qed.

Lemma shared_other k k' self q pml4 :
  process_table k' = process_table k -> pstore k' = <[self := q]> (pstore k) -> addr_space_shared pml4 self k' = addr_space_shared pml4 self k.
Proof.
  intros Et Ep. unfold addr_space_shared. do 2 f_equal. apply table_find_ext; [done|]. intros a. destruct (Z.eqb_spec a self) as [->|Hne]; [done|]. cbn [negb andb].
  unfold entry_is. rewrite Ep. by rewrite lookup_insert_ne.
Qed.

(** The process after the change: the same one, with the new image. *)
Record replaced (im : image) (argv : list (list Z)) (path : list Z) (p p' : proc) : Prop := {
  rp_same : pid p' = pid p /\ ppid p' = ppid p /\ tgid p' = tgid p /\ stack p' = stack p /\ kernel_stack p' = kernel_stack p /\ p_sched p' = p_sched p /\ cwd (p_text p') = cwd (p_text p);
  rp_fds : ufd_inuse (p_mm p') = ufd_inuse (p_mm p) /\ ufd_handle (p_mm p') = ufd_handle (p_mm p) /\ ufd_offset (p_mm p') = ufd_offset (p_mm p);
  rp_space : page_directory p' = im_pd im /\ heap_start (p_mm p') = im_brk im /\ program_break (p_mm p') = im_brk im;
  rp_regions : Forall (fun v => v_used v = 0 /\ v_file_buf v = 0) (mmap_vmas (p_mm p')) /\ mmap_next (p_mm p') = 0;
  rp_signals : sig_pending (p_sig p') = 0 /\ sig_mask (p_sig p') = 0 /\ sig_active (p_sig p') = 0 /\ forall i, 0 <= i < NSIG -> sig_handlers (p_sig p') i = SIG_DFL;
  rp_text : tty_raw (p_text p') = 0 /\ cmdline (p_text p') = make_cmdline argv path /\ comm (p_text p') = comm (proc_set_comm path (p_text p))
}.

Definition freed_old (old self : Z) (k : kst) (v : vm) : vm :=
  if truthy old && negb (addr_space_shared old self k) then free_page_directory old v else v.

Lemma upd_insert a f k p : pstore k !! a = Some p -> pstore (upd a f k) = <[a := f p]> (pstore k).
Proof. intros Hp. unfold upd. cbn [pstore set_pstore]. apply map_eq. intros b. destruct (decide (b = a)) as [->|Hn]; [rewrite lookup_alter_eq, lookup_insert_eq, Hp|rewrite lookup_alter_ne, lookup_insert_ne by done]; done. Qed.

Lemma set_comm_only path t : exists c, proc_set_comm path t = set_comm c t.
Proof. unfold proc_set_comm. cbv zeta. generalize (base_name path path). intros b. set (l := if _ : bool then _ else _). destruct l; [exists (comm t); by destruct t|by eexists]. Qed.

(** The code as one step: the image is loaded, the process replaced, the old space released and
    the entry stack built. *)
Lemma do_execve_shape libc data argv envv path k self p f im v :
  get_current_process k = self -> pstore k !! self = Some p -> syscall_frame k = Some f -> truthy (page_directory p) = true ->
  (length (mmap_vmas (p_mm p)) <= 16)%nat -> elf_load_image libc data (kvm k) = Some (Some im, v) ->
  exists k' p', let v' := freed_old (page_directory p) self k v in
    let '(sp, m) := build_entry_stack (im_pd im) (im_stack_top im) argv envv (pm v') in
    do_execve libc data argv envv path k = Some (0, k') /\ pstore k' = <[self := p']> (pstore k) /\ replaced im argv path p p' /\
    kvm k' = set_pm m v' /\ user_cr3 k' = im_pd im /\ user_rsp k' = sp /\ process_table k' = process_table k /\
    syscall_frame k' = Some (entry_frame f (len (take 32 argv)) sp (im_entry im)).
Proof.
  intros Hc Hp Hf Hpd Hl He. unfold do_execve. rewrite Hc, Hp, Hpd, He. cbn [negb].
  set (p1 := on_text (fun t => set_cmdline (make_cmdline argv path) (proc_set_comm path t)) p). set (p2 := new_image im p1).
  set (k1 := upd self (new_image im) (upd self _ (set_kvm v k))).
  assert (E1 : pstore k1 = <[self := p2]> (pstore k)).
  { unfold k1. rewrite (upd_insert _ _ _ p1); rewrite (upd_insert _ _ _ p) by done; cbn [pstore set_kvm]; [by rewrite insert_insert_eq|apply lookup_insert_eq]. }
  assert (Hp1 : pstore k1 !! self = Some p2) by (rewrite E1; apply lookup_insert_eq).
  destruct (exec_vmas_spec self p2 k1 Hp1 Hl) as (c & vm & Ek2 & Elv & Hvm). rewrite Ek2. clear Ek2.
  set (p4 := on_text (set_tty_raw 0) (on_mm (set_mmap_next 0) (on_mm (set_mmap_vmas vm) p2))).
  set (k3 := upd self _ (set_calls _ _)).
  assert (E3 : pstore k3 = <[self := p4]> (pstore k)).
  { unfold k3. rewrite (upd_insert _ _ _ (on_mm (set_mmap_vmas vm) p2)); cbn [pstore set_calls set_pstore]; [by rewrite E1, !insert_insert_eq|apply lookup_insert_eq]. }
  assert (F3 : kvm k3 = v /\ process_table k3 = process_table k /\ syscall_frame k3 = Some f) by done.
  clearbody k3. clear k1 E1 Hp1. destruct F3 as (V3 & T3 & F3). rewrite (shared_other k k3 self p4), V3 by done.
  assert (R : replaced im argv path p p4).
  { constructor; try done; cbn.
    - destruct (set_comm_only path (p_text p)) as [c' ->]. by repeat split.
    - split; [done|]. split; [done|]. split; [done|]. intros i Hi. destruct (Z.leb_spec 0 i); [|lia]. destruct (Z.ltb_spec i NSIG); [done|lia]. }
  unfold freed_old. rewrite Hpd. destruct (true && negb _); cbn [kvm set_kvm]; rewrite ?V3; destruct (build_entry_stack (im_pd im) _ argv envv _) as [sp m].
  all: cbn [syscall_frame set_kvm]; rewrite F3; eexists _, p4; by split_and!.
Qed.

(** * The old address space *)

(** Loading left the space alone. *)
Lemma old_space s v root :
  pt_wf s root -> leaves_wf s root -> fs_inv (pa v) ->
  (forall n, fs_owned (pa s) n -> fs_owned (pa v) n /\ forall x, in_frame n x -> pm v x = pm s x) ->
  pt_wf v root /\ leaves_wf v root /\ forall n, in_space v root n <-> in_space s root n.
Proof.
  intros Hwf Hlw Hi Hk.
  assert (OR : other_root root s v).
  { apply other_root_intro; [done|done| |]; intros n; [intros Ht|intros x Ht]; apply Hk; by eapply table_owned. }
  split; [apply OR|]. split.
  - split.
    + intros x Hx. rewrite (or_leaf _ _ _ OR x Hx), (or_table _ _ _ OR). intros Hp. destruct (proj1 Hlw x Hx Hp) as [Ho Hn]. split; [by apply Hk|done].
    + intros x y Hx Hy. rewrite (or_leaf _ _ _ OR x Hx), (or_leaf _ _ _ OR y Hy). by apply Hlw.
  - intros n. unfold in_space. rewrite (or_table _ _ _ OR). split; (intros [Ht|(x & Hx & Hp & E)]; [by left|right; exists x]); [rewrite <- (or_leaf _ _ _ OR x Hx)|rewrite (or_leaf _ _ _ OR x Hx)]; done.
Qed.

(** The arguments are written where nothing else is. *)
Lemma stack_only s pd m' :
  pt_wf s pd -> leaves_wf s pd -> user_tree s pd -> (forall x, on_stack x -> data_page pd s x) ->
  agree s pd m' -> (forall y, (forall x, on_stack x -> user_v2p pd x (pm s) <> y) -> m' y = pm s y) ->
  forall s' x, pm s' = m' -> user_va x -> ~ on_stack x -> leaf m' pd x = leaf (pm s) pd x /\ (present (leaf (pm s) pd x) = true -> ubyte s' pd x = ubyte s pd x).
Proof.
  intros Hwf Hlw Hus Hst Ha Hm s' x Es' Hx Hn.
  assert (El : leaf m' pd x = leaf (pm s) pd x).
  { destruct (vpath_upath x Hx) as [Hu Hl]. destruct (index_range x) as (_ & _ & _ & Hi). unfold leaf.
    assert (Ew : walk m' pd (vpath x) = walk (pm s) pd (vpath x)) by (apply (other_walk s (set_pm m' s) pd Hwf Ha); [done|lia]). rewrite Ew.
    destruct (walk (pm s) pd (vpath x)) as [t|] eqn:E; [|done]. apply (agree_entry s pd m' (vpath x) t _ Hwf Ha Hu ltac:(lia) E). exact Hi. }
  split; [done|]. intros Hp. unfold ubyte. rewrite Es', El. f_equal. apply Hm. intros y Hy E.
  destruct (Hst y Hy) as (Hp' & _ & H2 & _). pose proof (stack_user y Hy) as Huy.
  rewrite (user_v2p_mapped s pd y Hwf Hus) in E; [|unfold on_stack, USER_STACK_TOP, USER_SPACE_MIN, USER_SPACE_END in *; lia|done|done].
  pose proof (Z.mod_pos_bound y 4096 ltac:(lia)). pose proof (Z.mod_pos_bound x 4096 ltac:(lia)).
  assert (Hf : pfn (leaf (pm s) pd y) = pfn (leaf (pm s) pd x)) by lia.
  pose proof (proj2 Hlw y x Huy Hx Hp' Hp Hf) as Hs. apply same_page_iff in Hs; [|unfold user_va in *; lia..].
  apply Hn. unfold on_stack, USER_STACK_TOP in *. Z.to_euclidean_division_equations; lia.
Qed.

(** * The program runs *)

(** The calling process, in its system call. *)
Record execs (k : kst) (self : Z) (p : proc) (f : Z -> Z) : Prop := {
  ex_self : get_current_process k = self;
  ex_proc : pstore k !! self = Some p;
  ex_frame : syscall_frame k = Some f;
  ex_regions : (length (mmap_vmas (p_mm p)) <= 16)%nat;
  ex_space : pt_wf (kvm k) (page_directory p) /\ leaves_wf (kvm k) (page_directory p)
}.

(** What the arguments must be for the stack to hold them. *)
Record arguments (argv envv : list (list Z)) : Prop := {
  ar_count : (length argv <= 32)%nat /\ (length envv <= 16)%nat;
  ar_bytes : Forall (Forall byte) argv /\ Forall (Forall byte) envv;
  ar_fits : fits argv envv
}.

(** The entry stack of the program, and the rest of it as the loader left it. *)
Record entered (im : image) (argv envv : list (list Z)) (v s : vm) (sp : Z) : Prop := {
  en_sp : sp mod 16 = 0 /\ on_stack sp;
  en_argc : reads (im_pd im) sp (user_words [len argv]) (pm s);
  en_argv : string_array (im_pd im) (sp + 8) argv (pm s);
  en_envv : string_array (im_pd im) (sp + 8 + 8 * (len argv + 1)) envv (pm s);
  en_rest : forall x, user_va x -> ~ on_stack x -> leaf (pm s) (im_pd im) x = leaf (pm v) (im_pd im) x /\
    (present (leaf (pm v) (im_pd im) x) = true -> ubyte s (im_pd im) x = ubyte v (im_pd im) x)
}.

(** Which frames the old space gives up. *)
Definition gives_up (shared : bool) (root : Z) (s v s' : vm) : Prop :=
  forall n, (shared = false -> in_space s root n -> frame_state (pa s') n = drop_ref (frame_state (pa v) n)) /\
    (shared = true \/ ~ in_space s root n -> frame_state (pa s') n = frame_state (pa v) n).

Lemma gives_up_freed root s v self k m :
  pt_wf v root -> leaves_wf v root -> (forall n, in_space v root n <-> in_space s root n) ->
  gives_up (addr_space_shared root self k) root s v (set_pm m (freed_old root self k v)).
Proof.
  intros Hwf Hlw Hin n. unfold freed_old. rewrite (root_truthy _ _ Hwf). destruct (addr_space_shared root self k); cbn [andb negb].
  - split; [done|]. by destruct v.
  - destruct (free_page_directory_spec v root Hwf Hlw) as (_ & _ & _ & A & B & _). cbv zeta in *.
    assert (E : pa (set_pm m (free_page_directory root v)) = pa (free_page_directory root v)) by (by destruct (free_page_directory root v)). rewrite E.
    split; [intros _ Hn; apply A; by apply Hin|]. intros [?|Hn]; [done|]. apply B. by rewrite Hin.
Qed.

Lemma freed_old_pm root self k v : pt_wf v root -> leaves_wf v root -> pm (freed_old root self k v) = pm v.
Proof. intros Hwf Hlw. unfold freed_old. destruct (_ && _); [|done]. by destruct (free_page_directory_spec v root Hwf Hlw) as (_ & ? & _). Qed.

(** C27: whatever file a process runs, the call ends.  It fails with -1 exactly if the loader
    hands back no image, so only if the file does not pass its checks or memory ran out; then
    nothing but the allocator has changed, every frame in use keeps its references and contents,
    and the frames the load had taken are free again (up to one when memory ran out, and unless
    segments share a page with each other or with the stack).  Otherwise the process goes on as
    the new program with its number, parent and descriptors: the file's image is laid out in its
    new address space, no region, pending or caught signal is left, the old space has given up
    one reference per frame unless a thread is still in it, and the saved registers lead to the
    entry point with argument count and vector.  If the load did not use up the last frame and
    neither a segment nor the library has one of the stack's pages, the program also reads its
    arguments and its environment on the new stack, aligned to 16, while the rest of its memory
    is what the loader laid out.  There are at most 32 arguments and 16 variables, short enough
    together for the four pages of the stack. *)
Theorem do_execve_correct libc data argv envv path k self p f :
  execs k self p f -> arguments argv envv -> libc_ok libc (kvm k) -> len data < 2 ^ 32 ->
  exists r k', do_execve libc data argv envv path k = Some (r, k') /\
    ((r = -1 /\ elf_load_image libc data (kvm k) = Some (None, kvm k') /\ k' = set_kvm (kvm k') k /\ refused data (kvm k) (kvm k') /\
      forall n, fs_owned (pa (kvm k)) n -> fs_frame (pa (kvm k')) n = fs_frame (pa (kvm k)) n /\ forall x, in_frame n x -> pm (kvm k') x = pm (kvm k) x) \/
     (r = 0 /\ exists im v p' sp, elf_load_image libc data (kvm k) = Some (Some im, v) /\ program_image libc data (kvm k) im v /\
      pstore k' = <[self := p']> (pstore k) /\ replaced im argv path p p' /\
      gives_up (addr_space_shared (page_directory p) self k) (page_directory p) (kvm k) v (kvm k') /\
      syscall_frame k' = Some (entry_frame f (len argv) sp (e_entry data)) /\ user_rsp k' = sp /\ user_cr3 k' = im_pd im /\
      (exhausted v \/ ((forall x, on_stack x -> off_segments data x /\ off_libc libc x) -> entered im argv envv v (kvm k') sp)))).
Proof.
  intros [Hc Hp Hf Hr [Hwf Hlw]] [[Na Ne] [Ba Be] Hfit] Hlib Hlen.
  destruct (elf_load_image_spec libc data (kvm k) (tw_inv _ _ Hwf) Hlib Hlen) as (r & v & El & Hk & Hres). destruct r as [im|].
  2: { pose proof (rf_frames _ _ _ Hres) as Hfr. exists (-1), (set_kvm v k). split; [unfold do_execve; rewrite Hc, Hp, (root_truthy _ _ Hwf), El; done|left]. split; [done|]. split; [rewrite El; by destruct k|]. split; [done|]. split; [done|]. intros n Hn. split; [by apply Hfr|by apply Hk]. }
  pose proof Hres as [Wn Ln Un _ _ _ [Ee _] _ Et _ Place].
  destruct (old_space (kvm k) v _ Hwf Hlw (tw_inv _ _ Wn) Hk) as (Wo & Lo & Hin).
  destruct (do_execve_shape libc data argv envv path k self p f im v Hc Hp Hf (root_truthy _ _ Hwf) Hr El) as (k' & p' & H). cbv zeta in H.
  rewrite Et, (freed_old_pm _ _ _ _ Wo Lo) in H. pose proof (entry_stack_spec v (im_pd im) Wn Ln Un) as Stk.
  specialize (fun S => Stk S argv envv Na Ne Ba Be Hfit). destruct (build_entry_stack (im_pd im) _ argv envv (pm v)) as [sp m]. rewrite (take_ge argv) in H by done.
  destruct H as (Er & Ep & Rp & Ev & Ecr & Esp & _ & Efr). exists 0, k'. split; [done|right]. split; [done|]. exists im, v, p', sp.
  split; [done|]. split; [done|]. split; [done|]. split; [done|]. rewrite Ev. split; [by apply gives_up_freed|]. rewrite <- Ee. split; [done|]. split; [done|]. split; [done|].
  destruct Place as [?|Lay]; [by left|right]. intros Clear. specialize (Stk (fun x Hx => proj1 (lo_stack _ _ _ _ _ Lay x Hx (proj1 (Clear x Hx)) (proj2 (Clear x Hx))))).
  destruct Stk as (A & B & C & D & E & Ag & Ot). constructor; cbn [pm set_pm]; [done..|].
  intros x Hx Hn. apply (stack_only v (im_pd im) m Wn Ln Un); [|done..].
  intros y Hy. by apply (lo_stack _ _ _ _ _ Lay y Hy); apply Clear.
Qed.

(** A process with one page runs the program of three bytes with an argument. *)
Definition demo_execing : kst := set_syscall_frame (Some (fun _ => 0)) demo_mapping.
Definition demo_argv : list (list Z) := [[108; 115]; [45; 97]].

Lemma demo_execing_ok : execs demo_execing 16 demo_mapper (fun _ => 0).
Proof. destruct demo_vm3_wf as (W & L & _). by constructor; [..|vm_compute; lia|]. Qed.
Lemma demo_arguments : arguments demo_argv [].
Proof. constructor; [split; cbn; lia| |unfold fits; cbn; lia]. split; [|constructor]. unfold demo_argv, byte. repeat constructor; cbn; lia. Qed.
Lemma demo_execing_result : option_map fst (do_execve None demo_elf demo_argv [] [47; 108; 115] demo_execing) = Some 0.
Proof. vm_compute. reflexivity. Qed.
Lemma demo_execing_room : match elf_load_image None demo_elf (kvm demo_execing) with Some (Some _, v) => negb ((page_alloc v).1 =? 0) | _ => false end = true.
Proof. vm_compute. reflexivity. Qed.
Lemma demo_elf_low x : on_stack x -> off_segments demo_elf x.
Proof.
  intros Hx i ph (Hi & Hp & _) Hon. change (e_phnum demo_elf) with 1 in Hi. assert (i = 0) as -> by lia.
  assert (ph = Phdr 1 5 120 0x10000 3 16) as -> by (vm_compute in Hp; congruence).
  unfold on_pages in Hon. cbn in Hon. unfold on_stack, USER_STACK_TOP in Hx. Z.to_euclidean_division_equations; lia.
Qed.

Lemma do_execve_correct_witness :
  exists k' pd sp, do_execve None demo_elf demo_argv [] [47; 108; 115] demo_execing = Some (0, k') /\
    user_rsp k' = sp /\ user_cr3 k' = pd /\ reads pd sp (user_words [2]) (pm (kvm k')) /\ string_array pd (sp + 8) demo_argv (pm (kvm k')).
Proof.
  pose proof demo_execing_result as R. pose proof demo_execing_room as Room.
  destruct (do_execve_correct None demo_elf demo_argv [] [47; 108; 115] demo_execing 16 demo_mapper (fun _ => 0) demo_execing_ok demo_arguments I ltac:(vm_compute; reflexivity)) as (r & k' & E & H).
  rewrite E in R. injection R as ->. destruct H as [[Hm _]|[_ H]]; [discriminate Hm|].
  destruct H as (im & v & p' & sp & El & H). do 5 destruct H as [_ H].
  destruct H as (Es & Ec & Fin).
  rewrite El in Room. exists k', (im_pd im), sp. split; [exact E|]. split; [exact Es|]. split; [exact Ec|]. destruct Fin as [Ex|En].
  - unfold exhausted in Ex. rewrite Ex in Room. discriminate Room.
  - destruct (En (fun x Hx => conj (demo_elf_low x Hx) (Forall_nil _))) as [_ A B _ _]. by split.
Defined.
