(* ===== verification/Dynlib.v ===== *)
(** Libraries (src/kernel/shared_libc.c): libseg_load puts the segments of a file into frames of
    the kernel's, libseg_map (in Elf.v) maps them into a program, do_dlsym finds a symbol.

    The part of a page the file fills is computed as in elf.c, by [copy_part]; here the frame is
    cleared before.  [flow] is the control flow, [Ret] standing for [return -1]. *)
From Stdlib Require Import ZArith Lia.
From S2P Require Import Prelude Packed Phys PageAlloc Paging PageTables CowClone FreeSpace NewSpace Process Spawn Elf ElfLoad ElfLib ElfImage.

#[local] Arguments Z.testbit : simpl never.

(** * Loading a library *)

Definition load_frame (data : list Z) (ph : phdr) (page : Z) (s : vm) : flow Z :=
  let '(frame, s) := page_alloc s in
  if negb (truthy frame) then Ret s
  else
    let s := set_pa (page_pin frame (pa s)) s in
    let s := set_pm (fill (pm s) frame 4096 0) s in
    fbind (copy_part data ph frame page s) (fun _ s => Go frame s).

Fixpoint load_frames (data : list Z) (ph : phdr) (page : Z) (n : nat) (s : vm) : flow (list Z) :=
  match n with
  | O => Go [] s
  | S n => fbind (load_frame data ph page s) (fun f s => fbind (load_frames data ph (u64 (page + 4096)) n s) (fun fs s => Go (f :: fs) s))
  end.

Definition lib_segment_ok (size : Z) (ph : phdr) : bool :=
  if p_memsz ph <? p_filesz ph then false
  else if (size <? p_offset ph) || (size - p_offset ph <? p_filesz ph) then false
  else negb ((USER_SPACE_END <? p_memsz ph) || (p_vaddr ph <? USER_SPACE_MIN) || (USER_SPACE_END - p_memsz ph <? p_vaddr ph)).

(** The pages of a segment, no more than there is room for. *)
Definition lib_npages (ph : phdr) : Z :=
  let start := p_vaddr ph .& not64 0xFFF in
  let end_ := u64 (p_vaddr ph + p_memsz ph + 0xFFF) .& not64 0xFFF in
  let np := u32 (u64 (end_ - start) / 4096) in
  if MAX_SEG_PAGES <? np then MAX_SEG_PAGES else np.

(** From the [i]-th header on, [todo] headers; [n] segments are there already. *)
Fixpoint load_libsegs (data : list Z) (i : Z) (todo : nat) (n : Z) (s : vm) : flow (list libseg) :=
  match todo with
  | O => Go [] s
  | S todo =>
      if negb (n <? MAX_SEGS) then Go [] s
      else
        need (program_header data i) (fun ph =>
        if negb (p_type ph =? PT_LOAD) then load_libsegs data (i + 1) todo n s
        else if negb (lib_segment_ok (len data) ph) then Ret s
        else
          let start := p_vaddr ph .& not64 0xFFF in
          fbind (load_frames data ph start (Z.to_nat (lib_npages ph)) s) (fun fs s =>
          fbind (load_libsegs data (i + 1) todo (n + 1) s) (fun rest s =>
          Go (Libseg start (truthy (p_flags ph .& PF_W)) (truthy (p_flags ph .& PF_X)) fs :: rest) s)))
  end.

(** [None]: a panic; the segments are [None] where the code returns -1. *)
Definition libseg_load (data : list Z) (s : vm) : option (option (list libseg) * vm) :=
  if negb (elf_validate data) then Some (None, s)
  else if negb (e_phentsize data =? SIZEOF_PHDR) then Some (None, s)
  else if len data <? e_phoff data then Some (None, s)
  else if len data - e_phoff data <? e_phnum data * SIZEOF_PHDR then Some (None, s)
  else
    match load_libsegs data 0 (Z.to_nat (e_phnum data)) 0 s with
    | Go segs s => Some (Some segs, s)
    | Ret s => Some (None, s)
    | Panic => None
    end.

(** * Symbols *)

(** [lib->elf] is the copy of the file, [lib->elf_size] its length. *)
Record dynlib := Dynlib { d_path : list Z; d_segs : list libseg; d_elf : list Z }.
Definition MAX_DYNLIBS : nat := 4.

Record shdr := Shdr { sh_type : Z; sh_offset : Z; sh_size : Z; sh_link : Z; sh_entsize : Z }.

(** [sh[i]], the section headers starting at [e_shoff]. *)
Definition section_header (elf : list Z) (i : Z) : option shdr :=
  let o := u64 (e_shoff elf + SIZEOF_SHDR * i) in
  match rd 4 (o + 4) elf, rd 8 (o + 24) elf, rd 8 (o + 32) elf, rd 4 (o + 40) elf, rd 8 (o + 56) elf with
  | Some ty, Some off, Some sz, Some lk, Some es => Some (Shdr ty off sz lk es)
  | _, _, _, _, _ => None
  end.

(** [strcmp(elf + o, name) == 0]; [name] has no zero in it. *)
Fixpoint str_is (elf : list Z) (o : Z) (name : list Z) : option bool :=
  match rd 1 o elf with
  | None => None
  | Some c =>
      match name with
      | [] => Some (c =? 0)
      | x :: name' => if c =? x then str_is elf (o + 1) name' else Some false
      end
  end.

(** The symbols of one table, from the [i]-th on: the value of the first one with the name.  The
    outer [None]: a read outside the file. *)
Fixpoint sym_scan (elf : list Z) (tab str strsz : Z) (name : list Z) (i : Z) (todo : nat) : option (option Z) :=
  match todo with
  | O => Some None
  | S todo =>
      let o := u64 (tab + SIZEOF_SYM * i) in
      match rd 8 (o + 8) elf with
      | None => None
      | Some v =>
          if negb (truthy v) then sym_scan elf tab str strsz name (i + 1) todo
          else
            match rd 4 o elf with
            | None => None
            | Some nm =>
                if strsz <=? nm then sym_scan elf tab str strsz name (i + 1) todo
                else
                  match str_is elf (u64 (str + nm)) name with
                  | None => None
                  | Some true => Some (Some v)
                  | Some false => sym_scan elf tab str strsz name (i + 1) todo
                  end
            end
      end
  end.

(** The part of a section that is looked at, if it is: offset of the symbols, offset and size of
    the names, number of symbols. *)
Definition symtab (elf : list Z) (sh : shdr) : option (option (Z * Z * Z * Z)) :=
  if negb (sh_type sh =? SHT_SYMTAB) || (sh_entsize sh =? 0) then Some None
  else if e_shnum elf <=? sh_link sh then Some None
  else
    match section_header elf (sh_link sh) with
    | None => None
    | Some strsh =>
        if (len elf <? sh_offset strsh) || (len elf - sh_offset strsh <? sh_size strsh) then Some None
        else if (len elf <? sh_offset sh) || (len elf - sh_offset sh <? sh_size sh) then Some None
        else if sh_size strsh =? 0 then Some None
        else
          match rd 1 (sh_offset strsh + sh_size strsh - 1) elf with
          | None => None
          | Some c =>
              if negb (c =? 0) then Some None
              else Some (Some (sh_offset sh, sh_offset strsh, sh_size strsh, s32 (sh_size sh / sh_entsize sh)))
          end
    end.

Fixpoint dlsym_scan (elf name : list Z) (i : Z) (todo : nat) : option Z :=
  match todo with
  | O => Some 0
  | S todo =>
      match section_header elf i with
      | None => None
      | Some sh =>
          match symtab elf sh with
          | None => None
          | Some None => dlsym_scan elf name (i + 1) todo
          | Some (Some (tab, str, strsz, nsyms)) =>
              match sym_scan elf tab str strsz name 0 (Z.to_nat nsyms) with
              | None => None
              | Some (Some v) => Some v
              | Some None => dlsym_scan elf name (i + 1) todo
              end
          end
      end
  end.

(** [libs]: the slots of the registry in use or not. *)
Definition do_dlsym (libs : list (option dynlib)) (handle : Z) (name : list Z) : option Z :=
  if (handle <? 1) || (Z.of_nat MAX_DYNLIBS <? handle) then Some 0
  else
    match libs !! Z.to_nat (handle - 1) with
    | Some (Some lib) =>
        let elf := d_elf lib in
        if len elf <? u64 (e_shoff elf + e_shnum elf * SIZEOF_SHDR) then Some 0
        else dlsym_scan elf name 0 (Z.to_nat (e_shnum elf))
    | _ => Some 0
    end.
