(* ===== verification/LibLoad.v ===== *)
(** What libseg_load (src/kernel/shared_libc.c) leaves: a library that can be mapped into
    programs, whatever bytes the file holds. *)
From Stdlib Require Import ZArith Lia.
From S2P Require Import Prelude Packed Phys PageAlloc Paging PageTables CowClone FreeSpace NewSpace UserMem Process Spawn Elf ElfLoad ElfLib ElfImage Dynlib.

#[local] Arguments Z.testbit : simpl never.

(** * Pinned frames *)

Lemma page_pin_frames m p :
  mem_wf m -> held m p ->
  mem_wf (page_pin (p * PAGE_SIZE) m) /\ total_pages (page_pin (p * PAGE_SIZE) m) = total_pages m /\
  truthy (page_pinned (page_pin (p * PAGE_SIZE) m) p) = true /\
  (forall q, is_free (page_pin (p * PAGE_SIZE) m) q = is_free m q) /\
  (forall q, q <> p -> frame_state (page_pin (p * PAGE_SIZE) m) q = frame_state m q).
Proof.
  intros Hwf Hh. unfold page_pin. rewrite (held_idx m p Hwf Hh). pose proof (wf_total _ Hwf) as Ht. destruct Hh as [Hp Hf].
  destruct (Z.ltb_spec p MAX_PAGES); [|lia]. split; [|split; [done|split; [|split]]].
  - destruct Hwf as [A B C D E F G]. constructor; cbn [total_pages page_bitmap free_pages page_refcount page_pinned]; [exact A|exact B|exact C|exact D|exact E|exact F|].
    intros q Hq. destruct (decide (q = p)) as [->|Hn]; [by intros _|rewrite fn_lookup_insert_ne by done; by apply G].
  - cbn [page_pinned]. by rewrite fn_lookup_insert.
  - done.
  - intros q Hq. unfold frame_state, is_free; cbn [page_bitmap page_refcount page_pinned]. by rewrite fn_lookup_insert_ne.
Qed.

(** * The frames of a library *)

(** Since [s0] only the frames [fs] have been taken: they are in use, pinned and different, and
    hold what was written; everything else is as it was. *)
Record taken_frames (s0 : vm) (fs : list Z) (s : vm) : Prop := {
  tf_inv : fs_inv (pa s);
  tf_kept : forall n, fs_owned (pa s0) n -> fs_owned (pa s) n /\ fs_frame (pa s) n = fs_frame (pa s0) n;
  tf_new : forall n, n ∈ fs -> 0 < n < MAX_PAGES /\ fs_owned (pa s) n /\ ~ fs_owned (pa s0) n /\ truthy (page_pinned (pa s) n) = true;
  tf_apart : NoDup fs;
  tf_memory : forall x, (forall n, n ∈ fs -> ~ in_frame n x) -> pm s x = pm s0 x
}.

Lemma taken_perm s0 fs fs' s : fs ≡ₚ fs' -> taken_frames s0 fs s -> taken_frames s0 fs' s.
Proof.
  intros Pm [A B C D E]. constructor; [done|done| |by rewrite <- Pm|].
  - intros q Hq. apply C. by rewrite Pm.
  - intros x Hx. apply E. intros q Hq. apply Hx. by rewrite <- Pm.
Qed.

(** The byte of a segment at [x]; the rest of its pages is zero. *)
Definition lib_byte (data : list Z) (ph : phdr) (x : Z) : Z :=
  if decide (p_vaddr ph <= x < p_vaddr ph + p_filesz ph) then u8 (nth (Z.to_nat (p_offset ph + (x - p_vaddr ph))) data 0) else 0.

(** Frame [n] has the page [k] of the segment. *)
Definition page_filled (data : list Z) (ph : phdr) (k n : Z) (m : pmem) : Prop :=
  forall o, 0 <= o < 4096 -> u8 (m (n * 4096 + o)) = lib_byte data ph (k * 4096 + o).

Lemma page_filled_same data ph k n m m' : (forall x, in_frame n x -> m' x = m x) -> page_filled data ph k n m -> page_filled data ph k n m'.
Proof. intros E H o Ho. rewrite E by (unfold in_frame; lia). by apply H. Qed.

Section load.
  Context (s0 : vm) (data : list Z) (Hlen : len data < 2 ^ 32).

(** What is known of a header that passed the checks. *)
Record lib_header (ph : phdr) : Prop := {
    lh_offset : 0 <= p_offset ph;
    lh_file : 0 <= p_filesz ph <= len data - p_offset ph;
    lh_size : p_filesz ph <= p_memsz ph;
    lh_place : USER_SPACE_MIN <= p_vaddr ph /\ p_vaddr ph + p_memsz ph <= USER_SPACE_END;
    lh_flags : 0 <= p_flags ph
  }.

Lemma lib_segment_checked i ph : program_header data i = Some ph -> lib_segment_ok (len data) ph = true -> lib_header ph.
  Proof.
    intros Hp Hok. destruct (program_header_range _ _ _ Hp) as (R1 & R2 & R3 & R4 & R5). unfold lib_segment_ok in Hok.
    destruct (Z.ltb_spec (p_memsz ph) (p_filesz ph)); [done|]. destruct (Z.ltb_spec (len data) (p_offset ph)); cbn [orb] in Hok; [done|].
    destruct (Z.ltb_spec (len data - p_offset ph) (p_filesz ph)); cbn [orb] in Hok; [done|].
    destruct (Z.ltb_spec USER_SPACE_END (p_memsz ph)); cbn [orb negb] in Hok; [done|]. destruct (Z.ltb_spec (p_vaddr ph) USER_SPACE_MIN); cbn [orb negb] in Hok; [done|].
    destruct (Z.ltb_spec (USER_SPACE_END - p_memsz ph) (p_vaddr ph)); [done|]. constructor; lia.
  Qed.

Lemma load_frame_spec fs ph k s :
    taken_frames s0 fs s -> lib_header ph -> 0 <= k * 4096 <= 2 ^ 47 ->
    fpost (load_frame data ph (k * 4096) s)
      (fun f s' => exists n, f = n * 4096 /\ taken_frames s0 (n :: fs) s' /\ page_filled data ph k n (pm s') /\
         forall x, ~ in_frame n x -> pm s' x = pm s x) (fun s' => exists fs', taken_frames s0 fs' s').
  Proof.
    intros T [Ho [Hf0 Hf] Hs [Hv1 Hv2] _] Hk. unfold USER_SPACE_MIN, USER_SPACE_END in *. unfold load_frame. destruct T as [I K N A M].
    destruct (page_alloc_cases s I) as [(n & a & E & Hn & Hfr & Hi & Own & Fr)|E]; rewrite E; [|exists fs; by constructor].
    rewrite truthy_frame by lia. cbn [negb].
    assert (Hh : held a n) by (apply Own; by right). destruct (page_pin_frames a n Hi Hh) as (P1 & P2 & P3 & P4 & P5). unfold PAGE_SIZE in *.
    assert (Hheld : forall q, held (page_pin (n * 4096) a) q <-> held a q) by (intros q; unfold held; by rewrite P2, P4).
    set (s1 := set_pm _ _). destruct (copy_part_spec data ph n k s1) as (m1 & -> & M1 & M2); [done|lia..|]. cbn [fbind fpost].
    assert (M0 : forall x, ~ in_frame n x -> m1 x = pm s x).
    { intros x Hx. rewrite M1 by done. unfold s1. cbn [pm set_pm set_pa]. apply fill_other. unfold in_frame in Hx. lia. }
    exists n. split; [done|]. split; [|split; [|exact M0]].
    - constructor; cbn [pa pm set_pm set_pa s1]; [exact P1| | | |].
      + intros q Hq. destruct (K q Hq) as [Kq Kf]. assert (q <> n) by (intros ->; by apply Hfr). split; [apply Hheld, Own; by left|].
        transitivity (fs_frame a q); [by apply P5|]. by rewrite Fr.
      + intros q [->|Hq]%elem_of_cons.
        * split; [lia|]. split; [by apply Hheld|]. split; [|done]. intros H. by apply Hfr, K.
        * destruct (N q Hq) as (B & C & D & P). assert (q <> n) by (intros ->; by apply Hfr). split; [lia|]. split; [apply Hheld, Own; by left|]. split; [done|].
          assert (Ep : frame_state (page_pin (n * 4096) a) q = frame_state (pa s) q) by (rewrite P5 by done; by apply Fr). injection Ep as _ _ ->. done.
      + apply list.NoDup_cons. split; [|done]. intros Hin. by apply Hfr, N.
      + intros x Hx. rewrite M0; [apply M|]; [intros q Hq|]; apply Hx; [by apply list_elem_of_further|apply list_elem_of_here].
    - intros o Hor. cbn [pm set_pm]. specialize (M2 o Hor). unfold lib_byte. destruct (decide _) as [Hd|Hd]; rewrite M2; [done|].
      unfold s1. cbn [pm set_pm set_pa]. unfold fill. destruct (Z.leb_spec (n * 4096) (n * 4096 + o)); [|lia]. destruct (Z.ltb_spec (n * 4096 + o) (n * 4096 + 4096)); [done|lia].
  Qed.

  (** The frames [ns] have the pages from [k] on. *)
Definition pages_filled (ph : phdr) (k : Z) (ns : list Z) (m : pmem) : Prop :=
    forall i n, ns !! i = Some n -> page_filled data ph (k + Z.of_nat i) n m.

Lemma load_frames_spec ph n : forall fs k s,
    taken_frames s0 fs s -> lib_header ph -> 0 <= k -> (k + Z.of_nat n) * 4096 <= 2 ^ 47 ->
    fpost (load_frames data ph (k * 4096) n s)
      (fun l s' => exists ns, l = map (fun n => n * 4096) ns /\ length ns = n /\ taken_frames s0 (ns ++ fs) s' /\ pages_filled ph k ns (pm s') /\
         forall x, (forall n, n ∈ ns -> ~ in_frame n x) -> pm s' x = pm s x)
      (fun s' => exists fs', taken_frames s0 fs' s').
  Proof.
    induction n as [|n IH]; intros fs k s T Hh Hk Hb; cbn [load_frames].
    { exists []. split; [done|]. split; [done|]. split; [done|]. split; [intros i n Hi; by rewrite lookup_nil in Hi|done]. }
    apply fpost_bind. assert (Hk0 : 0 <= k * 4096 <= 2 ^ 47) by lia.
    eapply fpost_mono; [exact (load_frame_spec fs ph k s T Hh Hk0)|].
    intros f s1 (p & -> & T1 & P1 & M1). rewrite u64_small by lia. replace (k * 4096 + 4096) with ((k + 1) * 4096) by lia.
    apply fpost_bind. eapply fpost_mono; [apply (IH (p :: fs) (k + 1) s1 T1 Hh); lia|].
    intros l s2 (ns & -> & Hl & T2 & P2 & M2). cbn [fpost]. exists (p :: ns). split; [done|]. split; [by rewrite <- Hl|].
    assert (Hp : p ∉ ns).
    { intros Hin. pose proof (tf_apart _ _ _ T2) as Nd. apply list.NoDup_app in Nd as (_ & Nd & _). apply (Nd p Hin). apply list_elem_of_here. }
    split; [|split].
    - apply (taken_perm s0 (ns ++ p :: fs)); [by rewrite <- Permutation_middle|done].
    - intros [|i] q Hq; cbn in Hq.
      + injection Hq as <-. rewrite Z.add_0_r. eapply page_filled_same; [|exact P1]. intros x Hx. apply M2. intros q Hq Hx'. apply Hp. by rewrite (in_frame_unique p q x).
      + replace (k + Z.of_nat (S i)) with (k + 1 + Z.of_nat i) by lia. by apply P2.
    - intros x Hx. rewrite M2; [apply M1|]; [apply Hx; apply list_elem_of_here|intros q Hq; apply Hx; by apply list_elem_of_further].
  Qed.
End load.

(** * The segments *)

Definition header_list (data : list Z) (i : Z) (n : nat) : list phdr :=
  seqZ i (Z.of_nat n) ≫= fun i => match program_header data i with Some ph => if p_type ph =? PT_LOAD then [ph] else [] | None => [] end.

(** The headers the code goes by: the first eight that are to be loaded. *)
Definition lib_headers (data : list Z) : list phdr := take 8 (header_list data 0 (Z.to_nat (e_phnum data))).

(** The pages (by number) a segment has, and those of the library. *)
Definition seg_places (ph : phdr) : list Z := seqZ (p_vaddr ph / 4096) (lib_npages ph).
Definition lib_places (data : list Z) : list Z := lib_headers data ≫= seg_places.

Definition seg_of (e : phdr * list Z) : libseg :=
  Libseg (p_vaddr e.1 .& not64 0xFFF) (truthy (p_flags e.1 .& PF_W)) (truthy (p_flags e.1 .& PF_X)) (map (fun n => n * 4096) e.2).

(** [e]: a header and the frames its segment got. *)
Record seg_loaded (data : list Z) (m : pmem) (e : phdr * list Z) : Prop := {
  sl_header : lib_header data e.1;
  sl_pages : len e.2 = lib_npages e.1;
  sl_bytes : pages_filled data e.1 (p_vaddr e.1 / 4096) e.2 m
}.

Lemma header_list_step data i n :
  header_list data i (S n) = (match program_header data i with Some ph => if p_type ph =? PT_LOAD then [ph] else [] | None => [] end) ++ header_list data (i + 1) n.
Proof. unfold header_list. rewrite Nat2Z.inj_succ, seqZ_cons by lia. cbn [mbind list_bind]. do 3 f_equal; lia. Qed.

Lemma page_down va : 0 <= va < 2 ^ 64 -> va .& not64 0xFFF = va / 4096 * 4096.
Proof. intros H. change 0xFFF with (2 ^ 12 - 1). rewrite land_not64_pow2 by lia. done. Qed.

Lemma npages_bound data ph :
  lib_header data ph -> 0 <= lib_npages ph <= 32 /\ (p_vaddr ph / 4096 + lib_npages ph) * 4096 <= USER_SPACE_END.
Proof.
  intros [_ Hf Hs [Hv1 Hv2] _]. unfold USER_SPACE_MIN, USER_SPACE_END in *. unfold lib_npages. rewrite !page_down by (apply u64_range || lia). rewrite (u64_small (p_vaddr ph + _ + _)) by lia.
  set (b := p_vaddr ph / 4096). set (e := (p_vaddr ph + p_memsz ph + 0xFFF) / 4096).
  assert (Hbe : 0 <= b <= e /\ e * 4096 <= 2 ^ 47) by (unfold b, e; Z.to_euclidean_division_equations; lia).
  rewrite u64_small by lia. replace (e * 4096 - b * 4096) with ((e - b) * 4096) by lia. rewrite Z.div_mul by lia.
  assert (Hu : 0 <= u32 (e - b) <= e - b) by (unfold u32; split; [apply Z.mod_pos_bound; lia|apply Z.mod_le; lia]). unfold MAX_SEG_PAGES. case_cmp; lia.
Qed.

Lemma load_libsegs_spec s0 data todo :
  len data < 2 ^ 32 -> forall i n fs s,
  taken_frames s0 fs s -> (forall j, i <= j < i + Z.of_nat todo -> program_header data j <> None) -> 0 <= n ->
  fpost (load_libsegs data i todo n s)
    (fun segs s' => exists l, map fst l = take (8 - Z.to_nat n) (header_list data i todo) /\ segs = map seg_of l /\
       (forall e, e ∈ l -> seg_loaded data (pm s') e) /\ taken_frames s0 ((l ≫= snd) ++ fs) s' /\
       forall x, (forall n, n ∈ l ≫= snd -> ~ in_frame n x) -> pm s' x = pm s x)
    (fun s' => exists fs', taken_frames s0 fs' s').
Proof.
  intros Hlen. induction todo as [|todo IH]; intros i n fs s T Hin Hn; cbn [load_libsegs].
  { exists []. split; [change (header_list data i 0) with (@nil phdr); by rewrite take_nil|]. split; [done|]. split; [by intros e ?%not_elem_of_nil|]. by split. }
  destruct (Z.ltb_spec n MAX_SEGS) as [Hn8|Hn8]; unfold MAX_SEGS in Hn8; cbn [negb].
  2: { exists []. split; [replace (8 - Z.to_nat n)%nat with 0%nat by lia; done|]. split; [done|]. split; [by intros e ?%not_elem_of_nil|]. by split. }
  rewrite header_list_step. destruct (program_header data i) as [ph|] eqn:Ep; [|by destruct (Hin i ltac:(lia))]. cbn [need].
  assert (Hin' : forall j, i + 1 <= j < i + 1 + Z.of_nat todo -> program_header data j <> None) by (intros j Hj; apply Hin; lia).
  destruct (p_type ph =? PT_LOAD); cbn [negb app]; [|by apply IH].
  destruct (lib_segment_ok (len data) ph) eqn:Eok; cbn [negb]; [|by exists fs].
  pose proof (lib_segment_checked data i ph Ep Eok) as Hh. destruct (npages_bound data ph Hh) as [Hnp Hend]. pose proof (lh_place _ _ Hh) as [Hv1 Hv2]. pose proof (lh_file _ _ Hh). pose proof (lh_size _ _ Hh).
  unfold USER_SPACE_MIN, USER_SPACE_END in *. rewrite page_down by lia.
  apply fpost_bind. eapply fpost_mono; [apply (load_frames_spec s0 data Hlen ph _ fs _ s T Hh); [apply Z.div_pos; lia|lia]|].
  intros fl s1 (ns & -> & Hl & T1 & P1 & M1). apply fpost_bind.
  eapply fpost_mono; [apply (IH (i + 1) (n + 1) (ns ++ fs) s1 T1 Hin'); lia|].
  intros segs s2 (l & Hfst & -> & Hl2 & T2 & M2). cbn [fpost]. exists ((ph, ns) :: l). cbn [map]. rewrite Hfst.
  replace (8 - Z.to_nat n)%nat with (S (8 - Z.to_nat (n + 1))) by lia. split; [done|]. split; [unfold seg_of at 2; cbn [fst snd]; by rewrite page_down by lia|].
  pose proof (tf_apart _ _ _ T2) as Nd. rewrite app_assoc in Nd. apply list.NoDup_app in Nd as (Nd & _ & _). apply list.NoDup_app in Nd as (_ & Nd & _).
  split; [|split].
  - intros e [->|He]%elem_of_cons; [|by apply Hl2]. constructor; cbn [fst snd]; [done|lia|]. intros j q Hq. eapply page_filled_same; [|by apply P1].
    intros x Hx. apply M2. intros q' Hq' Hx'. rewrite (in_frame_unique q q' x Hx Hx') in Hq. apply (Nd q' Hq'). by eapply list_elem_of_lookup_2.
  - cbn [mbind list_bind snd]. assert (Pm : (l ≫= snd) ++ ns ++ fs ≡ₚ (ns ++ (l ≫= snd)) ++ fs) by (rewrite (app_assoc (l ≫= snd)), (Permutation_app_comm ns); done).
    by apply (taken_perm s0 ((l ≫= snd) ++ ns ++ fs)).
  - intros x Hx. cbn [mbind list_bind snd] in Hx. rewrite M2, M1; [done| |]; intros q Hq; apply Hx, elem_of_app; auto.
Qed.

(** * The library *)

Lemma seg_pages_of sg n : forall k frames,
  length frames = n -> 0 <= k -> (k + Z.of_nat n) * 4096 < 2 ^ 64 ->
  map (fun pg => pg.1.2) (seg_pages sg (k * 4096) frames) = map (fun p => p * 4096) (seqZ k (Z.of_nat n)) /\ map snd (seg_pages sg (k * 4096) frames) = frames /\
  (forall pg, pg ∈ seg_pages sg (k * 4096) frames -> pg.1.1 = sg /\ exists i, pg.1.2 = (k + Z.of_nat i) * 4096 /\ frames !! i = Some pg.2) /\
  (forall i f, frames !! i = Some f -> (sg, (k + Z.of_nat i) * 4096, f) ∈ seg_pages sg (k * 4096) frames).
Proof.
  induction n as [|n IH]; intros k frames Hl Hk Hb; destruct frames as [|f frames]; try done.
  - split; [done|]. split; [done|]. split; [by intros pg ?%not_elem_of_nil|]. intros i f Hf. by rewrite lookup_nil in Hf.
  - cbn [length] in Hl. destruct (IH (k + 1) frames ltac:(lia) ltac:(lia) ltac:(lia)) as (A & B & C & D). cbn [seg_pages map].
    rewrite Nat2Z.inj_succ, seqZ_cons by lia. cbn [map]. rewrite u64_small by lia. replace (k * 4096 + 4096) with ((k + 1) * 4096) by lia.
    rewrite A, B. split; [cbn; do 3 f_equal; lia|]. split; [done|]. split.
    + intros pg [->|Hin]%elem_of_cons.
      * split; [done|]. exists 0%nat. cbn. split; [lia|done].
      * destruct (C pg Hin) as (E & i & Ev & Ef). split; [done|]. exists (S i). split; [lia|done].
    + intros [|i] g Hg; cbn in Hg.
      * injection Hg as ->. replace ((k + Z.of_nat 0) * 4096) with (k * 4096) by lia. apply list_elem_of_here.
      * apply list_elem_of_further. replace (k + Z.of_nat (S i)) with (k + 1 + Z.of_nat i) by lia. by apply D.
Qed.

Lemma seg_vaddr_of e : 0 <= p_vaddr e.1 < 2 ^ 64 -> sg_vaddr (seg_of e) = p_vaddr e.1 / 4096 * 4096.
Proof. apply page_down. Qed.

Lemma in_lib_pages l pg data m :
  (forall e, e ∈ l -> seg_loaded data m e) -> pg ∈ lib_pages (map seg_of l) ->
  exists e i n, e ∈ l /\ pg.1.1 = seg_of e /\ e.2 !! i = Some n /\ pg.1.2 = (p_vaddr e.1 / 4096 + Z.of_nat i) * 4096 /\ pg.2 = n * 4096.
Proof.
  intros Hl Hin. unfold lib_pages in Hin. apply list_elem_of_bind in Hin as (sg & Hpg & Hsg). apply list_elem_of_fmap in Hsg as (e & -> & He).
  destruct (Hl e He) as [Hh Hn _]. destruct (npages_bound data e.1 Hh) as [Hnp Hend]. pose proof (lh_place _ _ Hh) as [Hv _]. unfold USER_SPACE_MIN, USER_SPACE_END in *.
  pose proof (Z.div_pos (p_vaddr e.1) 4096). pose proof (lh_file _ _ Hh). pose proof (lh_size _ _ Hh). pose proof (lh_place _ _ Hh) as [_ Hv2]. unfold USER_SPACE_END in *.
  rewrite seg_vaddr_of in Hpg by lia.
  destruct (seg_pages_of (seg_of e) (length e.2) (p_vaddr e.1 / 4096) (map (fun n => n * 4096) e.2) ltac:(by rewrite length_map)) as (_ & _ & C & _); [lia|lia|].
  destruct (C pg Hpg) as (Es & i & Ev & Ef). rewrite list_lookup_fmap in Ef. destruct (e.2 !! i) as [n|] eqn:En; [|done]. injection Ef as Ef.
  exists e, i, n. split; [done|]. by split.
Qed.

Lemma lib_page_in l data m e i n :
  (forall e, e ∈ l -> seg_loaded data m e) -> e ∈ l -> e.2 !! i = Some n ->
  (seg_of e, (p_vaddr e.1 / 4096 + Z.of_nat i) * 4096, n * 4096) ∈ lib_pages (map seg_of l).
Proof.
  intros Hl He Hn. destruct (Hl e He) as [Hh Hln _]. destruct (npages_bound data e.1 Hh) as [Hnp Hend]. destruct (lh_place _ _ Hh) as [Hv Hv2]. pose proof (lh_file _ _ Hh). pose proof (lh_size _ _ Hh).
  unfold USER_SPACE_MIN, USER_SPACE_END in *. pose proof (Z.div_pos (p_vaddr e.1) 4096).
  destruct (seg_pages_of (seg_of e) (length e.2) (p_vaddr e.1 / 4096) (map (fun n => n * 4096) e.2) ltac:(by rewrite length_map)) as (_ & _ & _ & D); [lia|lia|].
  unfold lib_pages. apply list_elem_of_bind. exists (seg_of e). split; [|apply list_elem_of_fmap; by exists e].
  rewrite seg_vaddr_of by lia. apply D. by rewrite list_lookup_fmap, Hn.
Qed.

Lemma lib_pages_lists l data m :
  (forall e, e ∈ l -> seg_loaded data m e) ->
  map (fun pg => pg.1.2) (lib_pages (map seg_of l)) = map (fun p => p * 4096) (map fst l ≫= seg_places) /\
  map snd (lib_pages (map seg_of l)) = map (fun n => n * 4096) (l ≫= snd).
Proof.
  induction l as [|e l IH]; intros Hl; [done|]. destruct IH as [A B]; [intros e' He; by apply Hl, list_elem_of_further|].
  destruct (Hl e (list_elem_of_here _ _)) as [Hh Hn _]. destruct (npages_bound data e.1 Hh) as [Hnp Hend]. destruct (lh_place _ _ Hh) as [Hv Hv2]. pose proof (lh_file _ _ Hh). pose proof (lh_size _ _ Hh).
  unfold USER_SPACE_MIN, USER_SPACE_END in *. pose proof (Z.div_pos (p_vaddr e.1) 4096).
  unfold lib_pages in *. cbn [map]. rewrite bind_cons, !map_app, A, B. cbn [mbind list_bind]. rewrite !map_app.
  rewrite !seg_vaddr_of by lia.
  destruct (seg_pages_of (seg_of e) (length e.2) (p_vaddr e.1 / 4096) (map (fun n => n * 4096) e.2) ltac:(by rewrite length_map)) as (P & F & _ & _); [lia|lia|].
  change (sg_frames (seg_of e)) with (map (fun n => n * 4096) e.2). rewrite P, F, Hn. done.
Qed.

Lemma lib_is_ready s0 data l fs s :
  taken_frames s0 ((l ≫= snd) ++ fs) s -> (forall e, e ∈ l -> seg_loaded data (pm s) e) -> NoDup (map fst l ≫= seg_places) -> lib_ready s (map seg_of l).
Proof.
  intros T Hl Nd. destruct (lib_pages_lists l data _ Hl) as [A B]. constructor.
  - apply list.Forall_forall. intros pg Hpg. destruct (in_lib_pages l pg data _ Hl Hpg) as (e & i & n & He & _ & Hn & Ev & Ef).
    assert (Hin : n ∈ (l ≫= snd) ++ fs) by (apply elem_of_app; left; apply list_elem_of_bind; exists e; split; [by eapply list_elem_of_lookup_2|done]).
    destruct (tf_new _ _ _ T n Hin) as (_ & Ho & _). exists n. split; [done|]. split; [done|].
    destruct (Hl e He) as [Hh Hln _]. destruct (npages_bound data e.1 Hh) as [_ Hend]. destruct (lh_place _ _ Hh) as [Hv _]. unfold USER_SPACE_MIN, USER_SPACE_END in *.
    pose proof (Z.div_pos (p_vaddr e.1) 4096). apply lookup_lt_Some in Hn. rewrite Ev. split; [unfold user_va; lia|by apply Z.mod_mul].
  - rewrite A. apply list.NoDup_fmap_2; [intros x y E; lia|done].
  - rewrite B. apply list.NoDup_fmap_2; [intros x y E; lia|]. pose proof (tf_apart _ _ _ T) as N. by apply list.NoDup_app in N as (N & _).
Qed.

(** Whatever bytes the file holds, loading it ends without a read outside it and changes
    nothing but frames that were free.  On success there is a segment for each of the first eight
    headers of that kind, of up to 32 pages; the frames are different, in use and pinned, so that
    no release gives them away; every byte of every page is the file's, or zero where the file has
    none.  If no two segments share a page the library can be mapped into programs. *)
Lemma libseg_load_spec data s :
  fs_inv (pa s) -> len data < 2 ^ 32 ->
  exists r s' fs, libseg_load data s = Some (r, s') /\ taken_frames s fs s' /\
    match r with
    | None => True
    | Some segs => exists l, map fst l = lib_headers data /\ segs = map seg_of l /\ fs = (l ≫= snd) /\
        (forall e, e ∈ l -> seg_loaded data (pm s') e) /\ (NoDup (lib_places data) -> lib_ready s' segs)
    end.
Proof.
  intros Hi Hlen. assert (T0 : taken_frames s [] s) by (constructor; [done|done|by intros n ?%not_elem_of_nil|constructor|done]). unfold libseg_load.
  assert (Fail : exists r s' fs, Some (@None (list libseg), s) = Some (r, s') /\ taken_frames s fs s' /\
    match r with None => True | Some segs => exists l, map fst l = lib_headers data /\ segs = map seg_of l /\ fs = (l ≫= snd) /\ (forall e, e ∈ l -> seg_loaded data (pm s') e) /\ (NoDup (lib_places data) -> lib_ready s' segs) end)
    by (by exists None, s, []).
  destruct (elf_validate data); cbn [negb]; [|exact Fail]. destruct (Z.eqb_spec (e_phentsize data) SIZEOF_PHDR); cbn [negb]; [|exact Fail].
  destruct (Z.ltb_spec (len data) (e_phoff data)) as [|Hoff]; [exact Fail|]. destruct (Z.ltb_spec (len data - e_phoff data) (e_phnum data * SIZEOF_PHDR)) as [|Htab]; [exact Fail|]. clear Fail.
  pose proof (fld2_range 56 data) as Hn. change (fld 2 56 data) with (e_phnum data) in Hn.
  pose proof (load_libsegs_spec s data (Z.to_nat (e_phnum data)) Hlen 0 0 [] s T0 ltac:(intros j Hj; apply headers_inside; lia) ltac:(lia)) as H.
  destruct (load_libsegs data 0 _ 0 s) as [segs s'|s'|]; cbn [fpost] in H; [| |done].
  - destruct H as (l & Hfst & -> & Hl & T & _). exists (Some (map seg_of l)), s', (l ≫= snd). split; [done|]. rewrite app_nil_r in T. split; [done|]. exists l. split; [done|]. split; [done|]. split; [done|]. split; [done|].
    intros Nd. apply (lib_is_ready s data l []); [by rewrite app_nil_r|done|]. rewrite Hfst. exact Nd.
  - destruct H as [fs T]. by exists None, s', fs.
Qed.

(** * The library in a program *)

(** Address [x] is on a page of the library's segment. *)
Record lib_page (data : list Z) (ph : phdr) (pd : Z) (s : vm) (x : Z) : Prop := {
  lp_present : present (leaf (pm s) pd x) = true;
  lp_user : Z.testbit (leaf (pm s) pd x) 2 = true;
  lp_write : Z.testbit (leaf (pm s) pd x) 1 = truthy (p_flags ph .& PF_W);
  lp_nx : Z.testbit (leaf (pm s) pd x) 63 = truthy (p_flags ph .& PF_W) || negb (truthy (p_flags ph .& PF_X));
  lp_byte : ubyte s pd x = lib_byte data ph x
}.

(** The frames of the library are in use and hold in [s2] what they held in [s1]. *)
Definition lib_kept (segs : list libseg) (s1 s2 : vm) : Prop :=
  fs_inv (pa s2) /\ forall sg n, sg ∈ segs -> n * 4096 ∈ sg_frames sg -> fs_owned (pa s2) n /\ forall x, in_frame n x -> pm s2 x = pm s1 x.

(** The page at [x] is a private one of the program, made when it was loaded in [s2], if the
    segment is writable; otherwise it is one of the library's frames. *)
Definition lib_frame (segs : list libseg) (ph : phdr) (pd : Z) (s2 s : vm) (x : Z) : Prop :=
  let n := pfn (leaf (pm s) pd x) in
  if truthy (p_flags ph .& PF_W) then ~ fs_owned (pa s2) n else exists sg, sg ∈ segs /\ n * 4096 ∈ sg_frames sg.

Lemma lib_frames_in l e i n : e ∈ l -> e.2 !! i = Some n -> seg_of e ∈ map seg_of l /\ n * 4096 ∈ sg_frames (seg_of e).
Proof.
  intros He Hn. split; [apply list_elem_of_fmap; by exists e|]. cbn. apply list_elem_of_fmap. exists n. split; [done|]. by eapply list_elem_of_lookup_2.
Qed.

Lemma lib_frames_of l sg n : sg ∈ map seg_of l -> n * 4096 ∈ sg_frames sg -> n ∈ l ≫= snd.
Proof.
  intros Hsg Hn. apply list_elem_of_fmap in Hsg as (e & -> & He). cbn in Hn. apply list_elem_of_fmap in Hn as (m & Em & Hm).
  apply list_elem_of_bind. exists e. split; [|done]. by replace n with m by lia.
Qed.

(** As long as its frames are kept the library stays as it was loaded. *)
Lemma lib_kept_loaded data l s1 s2 :
  (forall e, e ∈ l -> seg_loaded data (pm s1) e) -> lib_kept (map seg_of l) s1 s2 -> forall e, e ∈ l -> seg_loaded data (pm s2) e.
Proof.
  intros Hl [_ Hk] e He. destruct (Hl e He) as [Hh Hn Hb]. constructor; [done|done|]. intros i n Hi. eapply page_filled_same; [|by apply Hb].
  destruct (lib_frames_in l e i n He Hi) as [A B]. by apply (Hk (seg_of e) n A B).
Qed.

Lemma lib_kept_ready data l s1 s2 :
  (forall e, e ∈ l -> seg_loaded data (pm s1) e) -> lib_kept (map seg_of l) s1 s2 -> lib_ready s1 (map seg_of l) -> lib_ready s2 (map seg_of l).
Proof.
  intros Hl [_ Hk] [A B C]. constructor; [|done|done]. apply list.Forall_forall. intros pg Hpg. rewrite list.Forall_forall in A.
  destruct (A pg Hpg) as (n & En & _ & Hu & Hm). exists n. split; [done|]. split; [|done].
  destruct (in_lib_pages l pg data (pm s1) Hl Hpg) as (e & i & n' & He & _ & Hi & _ & Ef). assert (n' = n) as -> by lia.
  destruct (lib_frames_in l e i n He Hi) as [D E]. by apply (Hk (seg_of e) n D E).
Qed.

(** C24: once the C library is loaded its frames are in use and pinned, and in any later state that
    has not given them away or written to them, every program that is loaded finds the library:
    at each address of a page of a segment it reads the library file's byte, zero where the file
    has none.  If the segment is writable, the page is a frame of the program's own, which
    nobody used before, writable and not executable, even if the segment asks for both; if not,
    it is the library's frame, not writable, and executable exactly if the segment is.  The
    segments are the first eight of the file, each with its first 32 pages, and share no page;
    the exception is a load that uses up the last frame. *)
Theorem library_in_programs lib s :
  fs_inv (pa s) -> len lib < 2 ^ 32 -> NoDup (lib_places lib) ->
  exists r s1, libseg_load lib s = Some (r, s1) /\ forall segs, r = Some segs ->
    lib_kept segs s1 s1 /\ (forall sg n, sg ∈ segs -> n * 4096 ∈ sg_frames sg -> truthy (page_pinned (pa s1) n) = true) /\
    forall s2 data, lib_kept segs s1 s2 -> len data < 2 ^ 32 ->
      exists r2 s3, elf_load_image (Some segs) data s2 = Some (r2, s3) /\ lib_kept segs s1 s3 /\ forall im, r2 = Some im ->
        exhausted s3 \/ forall ph x, ph ∈ lib_headers lib -> user_va x -> x / 4096 ∈ seg_places ph ->
          lib_page lib ph (im_pd im) s3 x /\ lib_frame segs ph (im_pd im) s2 s3 x.
Proof.
  intros Hi Hll Nd. destruct (libseg_load_spec lib s Hi Hll) as (r & s1 & fs & E & T & Hr). exists r, s1. split; [done|]. intros segs ->. destruct Hr as (l & Hfst & -> & Efs & Hl & Hready). subst fs.
  split; [split; [apply T|]; intros sg n Hsg Hn; split; [|done]; by apply (tf_new _ _ _ T n (lib_frames_of l sg n Hsg Hn))|].
  split; [intros sg n Hsg Hn; by apply (tf_new _ _ _ T n (lib_frames_of l sg n Hsg Hn))|].
  intros s2 data Hkept Hld. pose proof (lib_kept_loaded lib l s1 s2 Hl Hkept) as Hl2. pose proof (lib_kept_ready lib l s1 s2 Hl Hkept (Hready Nd)) as Hready2.
  destruct (elf_load_image_spec (Some (map seg_of l)) data s2 (proj1 Hkept) Hready2 Hld) as (r2 & s3 & E2 & Hk2 & Hp). exists r2, s3. split; [done|]. split.
  { split; [destruct r2; [apply (pi_wf _ _ _ _ _ Hp)|apply Hp]|]. intros sg n Hsg Hn. destruct (proj2 Hkept sg n Hsg Hn) as [Ho Hm]. destruct (Hk2 n Ho) as [Ho3 Hm3].
    split; [done|]. intros x Hx. rewrite Hm3 by done. by apply Hm. }
  intros im ->. destruct (pi_place _ _ _ _ _ Hp) as [?|Lay]; [by left|right]. intros ph x Hph Hx Hpl. rewrite <- Hfst in Hph. apply list_elem_of_fmap in Hph as (e & -> & He).
  pose proof (Hl2 e He) as [Hh Hln Hb]. apply elem_of_seqZ in Hpl. destruct (e.2 !! Z.to_nat (x / 4096 - p_vaddr e.1 / 4096)) as [n|] eqn:En.
  2: { apply lookup_ge_None in En. lia. }
  pose proof (lib_page_in l lib _ e _ n Hl2 He En) as Hpg. replace (p_vaddr e.1 / 4096 + Z.of_nat (Z.to_nat (x / 4096 - p_vaddr e.1 / 4096))) with (x / 4096) in Hpg by lia.
  destruct (lo_libc _ _ _ _ _ Lay _ x Hpg Hx) as [Lp Lu Lw Lx Lb Lsh Lpr].
  { cbn [fst snd]. apply same_page_iff; unfold user_va in *; [Z.to_euclidean_division_equations; lia|lia|]. by rewrite Z.div_mul. }
  split.
  - constructor; [done..|]. cbn [fst snd] in Lb. rewrite Lb. specialize (Hb _ n En (x mod 4096) (Z.mod_pos_bound x 4096 ltac:(lia))). rewrite Hb. f_equal. pose proof (Z.div_mod x 4096). lia.
  - unfold lib_frame. cbn [fst snd] in Lsh, Lpr. change (sg_writable (seg_of e)) with (truthy (p_flags e.1 .& PF_W)) in Lsh, Lpr.
    destruct (truthy (p_flags e.1 .& PF_W)); [by apply Lpr|]. destruct (lib_frames_in l e _ n He En) as [A B]. exists (seg_of e). split; [done|]. by rewrite Lsh.
Qed.

(** The file of three bytes as a library. *)
Lemma demo_lib_places : lib_places demo_elf = [16].
Proof. vm_compute. reflexivity. Qed.

(** The library is loaded, then two programs, one after the other. *)
Definition second_program : option (list libseg * vm * image * vm) :=
  match libseg_load demo_elf (demo_machine demo_frames) with
  | Some (Some segs, s1) =>
      match elf_load_image (Some segs) demo_elf s1 with
      | Some (Some _, s2) => match elf_load_image (Some segs) demo_elf s2 with Some (Some im, s3) => Some (segs, s2, im, s3) | _ => None end
      | _ => None
      end
  | _ => None
  end.
Lemma second_program_loads : match second_program with Some (_, _, _, s3) => negb ((page_alloc s3).1 =? 0) | None => false end = true.
Proof. vm_compute. reflexivity. Qed.

Lemma demo_lib_header : Phdr 1 5 120 0x10000 3 16 ∈ lib_headers demo_elf.
Proof.
  assert (E : lib_headers demo_elf = [Phdr 1 5 120 0x10000 3 16]) by (vm_compute; reflexivity). rewrite E. apply list_elem_of_here.
Qed.
Lemma demo_lib_page : 0x10001 / 4096 ∈ seg_places (Phdr 1 5 120 0x10000 3 16).
Proof. apply elem_of_seqZ. vm_compute. split; done. Qed.

Lemma library_in_programs_witness :
  exists segs s2 im s3, second_program = Some (segs, s2, im, s3) /\
    lib_page demo_elf (Phdr 1 5 120 0x10000 3 16) (im_pd im) s3 0x10001 /\ lib_frame segs (Phdr 1 5 120 0x10000 3 16) (im_pd im) s2 s3 0x10001.
Proof.
  pose proof second_program_loads as H. unfold second_program in *.
  destruct (library_in_programs demo_elf (demo_machine demo_frames) demo_frames_wf ltac:(vm_compute; reflexivity)) as (r & s1 & E & Hr).
  { rewrite demo_lib_places. apply list.NoDup_singleton. }
  rewrite E in *. destruct r as [segs|]; [|discriminate H]. destruct (Hr segs eq_refl) as (K1 & _ & Load). assert (Hlen : len demo_elf < 2 ^ 32) by (vm_compute; reflexivity).
  destruct (Load s1 demo_elf K1 Hlen) as (r2 & s2 & E2 & K2 & _). rewrite E2 in *. destruct r2 as [im2|]; [|discriminate H].
  destruct (Load s2 demo_elf K2 Hlen) as (r3 & s3 & E3 & _ & Hp). rewrite E3 in *. destruct r3 as [im|]; [|discriminate H].
  exists segs, s2, im, s3. split; [reflexivity|]. destruct (Hp im eq_refl) as [Ex|P].
  - unfold exhausted in Ex. rewrite Ex in H. discriminate H.
  - apply P; [exact demo_lib_header|unfold user_va; lia|exact demo_lib_page].
Defined.

(** A file whose second segment is refused keeps the frames of the first, pinned for good. *)
Definition half_lib : list Z := demo_header 2 ++ demo_phdr 5 176 0x10000 3 16 ++ demo_phdr 6 1000 0x20000 1 1 ++ [0x90; 0x91; 0xC3; 0x55].
Lemma libseg_load_leaks :
  match libseg_load half_lib (demo_machine demo_frames) with
  | Some (None, s) => (free_pages demo_frames, free_pages (pa s), page_pinned (pa s) 1)
  | _ => (0, 0, 0)
  end = (31, 30, 1).
Proof. vm_compute. reflexivity. Qed.

(** A library with a writable segment, mapped a second time, as by a second dlopen: what the
    program had written there is gone, and so is the frame it was in. *)
Definition data_lib : list Z := demo_header 1 ++ demo_phdr 6 120 0x20000 1 1 ++ [0x55].
Definition mapped_again : option (Z * Z * Z) :=
  match libseg_load data_lib (demo_machine demo_frames) with
  | Some (Some segs, s) =>
      match elf_load_image (Some segs) demo_elf s with
      | Some (Some im, s) =>
          let s := set_pm (copy_to_user (im_pd im) 0x20000 [0x77] (pm s)).2 s in
          match libseg_map (im_pd im) segs s with
          | Some s' => Some (ubyte s (im_pd im) 0x20000, ubyte s' (im_pd im) 0x20000, free_pages (pa s) - free_pages (pa s'))
          | None => None
          end
      | _ => None
      end
  | _ => None
  end.
Lemma mapped_twice_loses_data : mapped_again = Some (0x77, 0x55, 1).
Proof. vm_compute. reflexivity. Qed.
