(* ===== verification/DlSym.v ===== *)
(** What do_dlsym (src/kernel/shared_libc.c) finds: the first symbol of the name among those the
    symbol tables of the file list. *)
From Stdlib Require Import ZArith Lia.
From S2P Require Import Prelude Packed Phys PageAlloc Paging PageTables Spawn Elf ElfLoad ElfLib ElfImage Dynlib LibLoad.

(** * Names *)

(** The string at offset [o], up to the zero. *)
Fixpoint c_string (elf : list Z) (o : Z) (n : nat) : list Z :=
  match n with
  | O => []
  | S n => let c := fld 1 o elf in if c =? 0 then [] else c :: c_string elf (o + 1) n
  end.
Definition string_at (elf : list Z) (o : Z) : list Z := c_string elf o (Z.to_nat (len elf - o)).

Lemma rd_inside w o elf : 0 <= o -> o + Z.of_nat w <= len elf -> rd w o elf = Some (fld w o elf).
Proof. intros A B. unfold rd. destruct (Z.leb_spec 0 o); [|lia]. destruct (Z.leb_spec (o + Z.of_nat w) (len elf)); [done|lia]. Qed.

Lemma str_is_spec elf z name : forall o,
  0 <= o <= z -> z < len elf -> fld 1 z elf = 0 -> Forall (fun c => c <> 0) name ->
  str_is elf o name = Some (bool_decide (string_at elf o = name)).
Proof.
  induction name as [|x name IH]; intros o Ho Hz Ez Hn; cbn [str_is]; rewrite rd_inside by lia; unfold string_at;
    replace (Z.to_nat (len elf - o)) with (S (Z.to_nat (len elf - (o + 1)))) by lia; cbn [c_string].
  - destruct (Z.eqb_spec (fld 1 o elf) 0) as [E|E]; [done|]. by rewrite bool_decide_eq_false_2.
  - apply list.Forall_cons in Hn as [Hx Hn]. destruct (Z.eqb_spec (fld 1 o elf) x) as [E|E].
    + assert (o <> z) by congruence. rewrite (IH (o + 1)) by (done || lia). destruct (Z.eqb_spec (fld 1 o elf) 0) as [|_]; [congruence|].
      f_equal. unfold string_at. apply bool_decide_ext. rewrite E. split; [by intros ->|by intros [= ->]].
    + rewrite bool_decide_eq_false_2; [done|]. destruct (Z.eqb_spec (fld 1 o elf) 0); [done|]. by intros [= ? ?].
Qed.

(** * The symbols of a file *)

Definition sym_value (elf : list Z) (tab i : Z) : Z := fld 8 (tab + SIZEOF_SYM * i + 8) elf.
Definition sym_name (elf : list Z) (tab i : Z) : Z := fld 4 (tab + SIZEOF_SYM * i) elf.

(** Symbol [i] of a table with its name, if it has a value and a name. *)
Definition symbol (elf : list Z) (tab str strsz i : Z) : option (list Z * Z) :=
  if (sym_value elf tab i =? 0) || (strsz <=? sym_name elf tab i) then None
  else Some (string_at elf (str + sym_name elf tab i), sym_value elf tab i).
Definition table_symbols (elf : list Z) (t : Z * Z * Z * Z) : list (list Z * Z) :=
  let '(tab, str, strsz, n) := t in omap (symbol elf tab str strsz) (seqZ 0 n).
Definition section_symbols (elf : list Z) (i : Z) : list (list Z * Z) :=
  match section_header elf i ≫= symtab elf with Some (Some t) => table_symbols elf t | _ => [] end.
Definition exports (elf : list Z) : list (list Z * Z) := seqZ 0 (e_shnum elf) ≫= section_symbols elf.

Fixpoint find_symbol (name : list Z) (l : list (list Z * Z)) : option Z :=
  match l with [] => None | (n, v) :: l' => if decide (n = name) then Some v else find_symbol name l' end.

Lemma find_symbol_app name l1 l2 : find_symbol name (l1 ++ l2) = match find_symbol name l1 with Some v => Some v | None => find_symbol name l2 end.
Proof. induction l1 as [|[n v] l1 IH]; cbn; [done|]. by destruct (decide _). Qed.

(** The section headers lie in the file, and an entry of a symbol table has at least the size of
    a symbol. *)
Record sections_ok (elf : list Z) : Prop := {
  so_size : len elf < 2 ^ 32;
  so_table : e_shoff elf + e_shnum elf * SIZEOF_SHDR <= len elf;
  so_entry : forall i sh, 0 <= i < e_shnum elf -> section_header elf i = Some sh -> sh_type sh = SHT_SYMTAB -> sh_entsize sh = 0 \/ SIZEOF_SYM <= sh_entsize sh
}.

Section dlsym.
  Context (elf name : list Z) (Hok : sections_ok elf) (Hname : Forall (fun c => c <> 0) name).

Lemma sym_scan_spec tab str strsz n : forall i,
    0 <= tab -> 0 <= i -> tab + SIZEOF_SYM * (i + Z.of_nat n) <= len elf -> 0 <= str -> 0 < strsz -> str + strsz <= len elf -> fld 1 (str + strsz - 1) elf = 0 ->
    sym_scan elf tab str strsz name i n = Some (find_symbol name (omap (symbol elf tab str strsz) (seqZ i (Z.of_nat n)))).
  Proof.
    pose proof (so_size _ Hok) as Hl. unfold SIZEOF_SYM in *. induction n as [|n IH]; intros i Ht Hi Hin Hs Hz Hsz Hnul; [done|]. cbn [sym_scan]. unfold SIZEOF_SYM.
    rewrite !u64_small by lia. rewrite (rd_inside 8), (rd_inside 4) by lia. rewrite Nat2Z.inj_succ, seqZ_cons, Z.pred_succ by lia. cbn [omap list_omap].
    assert (Next : sym_scan elf tab str strsz name (i + 1) n = Some (find_symbol name (omap (symbol elf tab str strsz) (seqZ (Z.succ i) (Z.of_nat n))))).
    { rewrite <- Z.add_1_r. apply IH; lia || done. }
    unfold symbol at 1, sym_value, sym_name, SIZEOF_SYM, truthy. destruct (Z.eqb_spec (fld 8 (tab + 24 * i + 8) elf) 0) as [|Hv]; cbn [negb orb]; [exact Next|].
    destruct (Z.leb_spec strsz (fld 4 (tab + 24 * i) elf)) as [|Hn]; [exact Next|]. pose proof (fld_range 4 (tab + 24 * i) elf) as Hr.
    rewrite u64_small by lia. rewrite (str_is_spec elf (str + strsz - 1)) by (done || lia). cbn [find_symbol].
    case_bool_decide as Hd; [by rewrite decide_True|]. by rewrite decide_False.
  Qed.

Lemma section_header_in i : 0 <= i < e_shnum elf -> exists sh, section_header elf i = Some sh.
  Proof.
    intros Hi. pose proof (so_size _ Hok). pose proof (so_table _ Hok) as Ht. pose proof (fld_range 8 40 elf) as Hp. change (fld 8 40 elf) with (e_shoff elf) in Hp. unfold SIZEOF_SHDR in Ht.
    unfold section_header, SIZEOF_SHDR. rewrite u64_small by lia. rewrite !rd_inside by lia. by eexists.
  Qed.

Lemma section_header_range i sh : section_header elf i = Some sh -> 0 <= sh_offset sh /\ 0 <= sh_size sh /\ 0 <= sh_link sh /\ 0 <= sh_entsize sh.
  Proof.
    unfold section_header, rd. repeat match goal with |- context [if ?b then _ else _] => destruct b end; try done.
    intros [= <-]. cbn. repeat match goal with |- context [fld ?w ?o ?l] => lazymatch goal with H : 0 <= fld w o l < _ |- _ => fail | _ => pose proof (fld_range w o l) end end. lia.
  Qed.

  (** The table the code goes through lies in the file, and its names end in the file. *)
Lemma symtab_spec i sh :
    0 <= i < e_shnum elf -> section_header elf i = Some sh ->
    symtab elf sh = Some None \/ exists tab str strsz n, symtab elf sh = Some (Some (tab, str, strsz, n)) /\ 0 <= n /\
      0 <= tab /\ tab + SIZEOF_SYM * n <= len elf /\ 0 <= str /\ 0 < strsz /\ str + strsz <= len elf /\ fld 1 (str + strsz - 1) elf = 0.
  Proof.
    intros Hi Hs. destruct (section_header_range i sh Hs) as (R1 & R2 & R3 & R4). pose proof (so_size _ Hok) as Hl. unfold symtab.
    destruct (Z.eqb_spec (sh_type sh) SHT_SYMTAB) as [Et|]; cbn [negb orb]; [|by left]. destruct (Z.eqb_spec (sh_entsize sh) 0) as [|Hes]; [by left|].
    destruct (so_entry _ Hok i sh Hi Hs Et) as [|He]; [done|]. destruct (Z.leb_spec (e_shnum elf) (sh_link sh)); [by left|].
    destruct (section_header_in (sh_link sh)) as [strsh Hstr]; [lia|]. rewrite Hstr. destruct (section_header_range _ _ Hstr) as (S1 & S2 & _ & _).
    destruct (Z.ltb_spec (len elf) (sh_offset strsh)); cbn [orb]; [by left|]. destruct (Z.ltb_spec (len elf - sh_offset strsh) (sh_size strsh)); [by left|].
    destruct (Z.ltb_spec (len elf) (sh_offset sh)); cbn [orb]; [by left|]. destruct (Z.ltb_spec (len elf - sh_offset sh) (sh_size sh)); [by left|].
    destruct (Z.eqb_spec (sh_size strsh) 0); [by left|]. rewrite rd_inside by lia. destruct (Z.eqb_spec (fld 1 (sh_offset strsh + sh_size strsh - 1) elf) 0) as [E0|]; cbn [negb]; [|by left].
    right. unfold SIZEOF_SYM in *. set (q := sh_size sh / sh_entsize sh).
    assert (Hq : 0 <= q /\ 24 * q <= sh_size sh) by (unfold q; split; [apply Z.div_pos; lia|]; pose proof (Z.mul_div_le (sh_size sh) (sh_entsize sh)); nia).
    exists (sh_offset sh), (sh_offset strsh), (sh_size strsh), q. split; [|split_and!; lia || done].
    do 3 f_equal. unfold s32. rewrite u32_small by lia. case_cmp; lia.
  Qed.

Lemma dlsym_scan_spec n : forall i,
    0 <= i -> i + Z.of_nat n <= e_shnum elf ->
    dlsym_scan elf name i n = Some (default 0 (find_symbol name (seqZ i (Z.of_nat n) ≫= section_symbols elf))).
  Proof.
    induction n as [|n IH]; intros i Hi Hn; [done|]. cbn [dlsym_scan]. rewrite Nat2Z.inj_succ, seqZ_cons, Z.pred_succ, bind_cons, find_symbol_app by lia. unfold section_symbols at 1.
    destruct (section_header_in i) as [sh Hs]; [lia|]. rewrite Hs. cbn [mbind option_bind].
    assert (Next : dlsym_scan elf name (i + 1) n = Some (default 0 (find_symbol name (seqZ (Z.succ i) (Z.of_nat n) ≫= section_symbols elf)))) by (rewrite <- Z.add_1_r; apply IH; lia).
    destruct (symtab_spec i sh ltac:(lia) Hs) as [-> |(tab & str & strsz & k & -> & Hk & A & B & C & D & E & G)]; [exact Next|].
    rewrite sym_scan_spec by (rewrite ?Z2Nat.id; done || lia). rewrite Z2Nat.id by done. unfold table_symbols. by destruct (find_symbol name (omap _ _)).
  Qed.
End dlsym.

(** The library of a handle. *)
Definition library_of (libs : list (option dynlib)) (handle : Z) : option dynlib :=
  if (1 <=? handle) && (handle <=? 4) then mjoin (libs !! Z.to_nat (handle - 1)) else None.

(** C25: in a library whose section headers lie inside the file and whose symbol tables have
    entries of at least a symbol's size, looking up a name never reads outside the file, and the
    answer is the value of the first symbol of that name in the order of the tables, or 0; a
    handle that is none gives 0. *)
Theorem dlsym_correct libs handle name :
  Forall (fun c => c <> 0) name -> (forall lib, library_of libs handle = Some lib -> sections_ok (d_elf lib)) ->
  do_dlsym libs handle name = Some (match library_of libs handle with Some lib => default 0 (find_symbol name (exports (d_elf lib))) | None => 0 end).
Proof.
  intros Hn Hl. unfold do_dlsym, library_of, MAX_DYNLIBS in *.
  destruct (Z.leb_spec 1 handle), (Z.ltb_spec handle 1); cbn [orb andb]; try done; try lia. destruct (Z.leb_spec handle 4), (Z.ltb_spec (Z.of_nat 4) handle); cbn [andb] in *; try done; try lia.
  destruct (libs !! _) as [[lib|]|]; cbn in *; try done. pose proof (Hl lib eq_refl) as Hok.
  pose proof (so_size _ Hok). pose proof (so_table _ Hok) as Ht. pose proof (fld_range 8 40 (d_elf lib)) as Hp. change (fld 8 40 (d_elf lib)) with (e_shoff (d_elf lib)) in Hp.
  pose proof (fld2_range 60 (d_elf lib)) as Hs. change (fld 2 60 (d_elf lib)) with (e_shnum (d_elf lib)) in Hs. unfold SIZEOF_SHDR in *.
  rewrite u64_small by lia. destruct (Z.ltb_spec (len (d_elf lib)) (e_shoff (d_elf lib) + e_shnum (d_elf lib) * 64)); [lia|].
  rewrite dlsym_scan_spec by (done || lia). unfold exports. by rewrite Z2Nat.id by lia.
Qed.

(** * A library with one symbol *)

Definition demo_shdr (ty off size link entsize : Z) : list Z :=
  le_bytes 4 0 ++ le_bytes 4 ty ++ le_bytes 8 0 ++ le_bytes 8 0 ++ le_bytes 8 off ++ le_bytes 8 size ++ le_bytes 4 link ++ le_bytes 4 0 ++ le_bytes 8 0 ++ le_bytes 8 entsize.
(** [entsize], [shoff] and [shnum] as given; the symbol "f" at 0x12345. *)
Definition sym_file (shoff shnum entsize : Z) : list Z :=
  [0x7F; 0x45; 0x4C; 0x46; 2; 1] ++ zero_bytes 34 ++ le_bytes 8 shoff ++ zero_bytes 12 ++ le_bytes 2 shnum ++ zero_bytes 2 ++
  demo_shdr SHT_SYMTAB 192 24 1 entsize ++ demo_shdr 3 216 3 0 0 ++ le_bytes 4 1 ++ zero_bytes 4 ++ le_bytes 8 0x12345 ++ zero_bytes 8 ++ [0; 102; 0].
Definition sym_libs (elf : list Z) : list (option dynlib) := [Some (Dynlib [] [] elf); None; None; None].

Lemma sym_file_ok : sections_ok (sym_file 64 2 24).
Proof.
  constructor; [vm_compute; reflexivity|vm_compute; discriminate|]. intros i sh Hi Hs _. change (e_shnum (sym_file 64 2 24)) with 2 in Hi.
  assert (i = 0 \/ i = 1) as [-> | ->] by lia; vm_compute in Hs; injection Hs as <-; [right; vm_compute; discriminate|left; reflexivity].
Qed.

Lemma dlsym_correct_witness : do_dlsym (sym_libs (sym_file 64 2 24)) 1 [102] = Some 0x12345.
Proof.
  rewrite (dlsym_correct (sym_libs (sym_file 64 2 24)) 1 [102]).
  - vm_compute. reflexivity.
  - repeat constructor. discriminate.
  - intros lib [= <-]. exact sym_file_ok.
Defined.

(** With entries that are said to be of one byte, the code still goes from symbol to symbol by 24
    bytes and leaves the file. *)
Lemma dlsym_small_entries_read_outside : do_dlsym (sym_libs (sym_file 64 2 1)) 1 [103] = None.
Proof. vm_compute. reflexivity. Qed.

(** The end of the section headers is computed modulo 2^64: an offset just below passes. *)
Lemma dlsym_offset_wraps : do_dlsym (sym_libs (sym_file (2 ^ 64 - 64) 1 24)) 1 [102] = None.
Proof. vm_compute. reflexivity. Qed.
