(* ===== verification/Format.v ===== *)
(** Formatted output: the number conversions of kernel/screen.c, vsnprintf of
    kernel/kernel.c and vprintf of kernel/screen.c.  A buffer that is filled is the list of
    bytes stored from its start; the screen is the list of characters put. *)
From Stdlib Require Import ZArith Lia String Ascii.
From S2P Require Import Prelude Packed.

(** * Characters *)

Definition chars (s : string) : list Z := map (fun a => Z.of_nat (nat_of_ascii a)) (list_ascii_of_string s).
Definition char (s : string) : Z := match chars s with c :: _ => c | [] => 0 end.

Definition PERCENT : Z := Eval compute in char "%".
Definition MINUS : Z := Eval compute in char "-".
Definition ZERO : Z := Eval compute in char "0".

Definition s64 (x : Z) : Z := if u64 x <? 2 ^ 63 then u64 x else u64 x - 2 ^ 64.
Definition is_digit (c : Z) : bool := (48 <=? c) && (c <=? 57).
(** ["0123456789abcdefghijklmnopqrstuvwxyz"[d]] *)
Definition digit (d : Z) : Z := if d <? 10 then 48 + d else 87 + d.

(** * Numbers *)

(** The do-while loop: digits from the lowest, at most [fuel] of them. *)
Fixpoint low_digits (fuel : nat) (base v : Z) : list Z :=
  match fuel with
  | O => []
  | S fuel' => digit (v mod base) :: if v / base =? 0 then [] else low_digits fuel' base (v / base)
  end.
(** The digits after the swap loop. *)
Definition digits (bits : nat) (base v : Z) : list Z := rev (low_digits bits base v).

Definition itoa (value base : Z) : list Z :=
  if (base <? 2) || (36 <? base) then [] else
  if (value <? 0) && (base =? 10) then MINUS :: digits 32 base (u32 (- value))
  else digits 32 base (u32 value).

Definition lltoa (value base : Z) : list Z :=
  if (base <? 2) || (36 <? base) then [] else
  if (value <? 0) && (base =? 10) then MINUS :: digits 64 base (u64 (- value))
  else digits 64 base (u64 value).

Definition u64_to_str (v base : Z) : list Z := digits 64 base (u64 v).

(** * Arguments

    What va_arg delivers: the machine word, or the string a pointer leads to (none for NULL). *)
Record arg := Arg { a_word : Z; a_text : option (list Z) }.
Definition W (v : Z) : arg := Arg v (Some []).
Definition T (s : list Z) : arg := Arg 0 (Some s).
Definition va_of (l : list arg) (i : nat) : arg := nth i l (W 0).

Definition string_of (a : arg) : list Z := match a_text a with Some s => s | None => chars "(null)" end.

(** * vsnprintf *)

(** A decimal number in the format. *)
Fixpoint read_num (p : list Z) (n : Z) : Z * list Z :=
  match p with
  | c :: p' => if is_digit c then read_num p' (s32 (n * 10 + (c - 48))) else (n, p)
  | [] => (n, p)
  end.

(** The length modifiers; [true] when there is an l. *)
Fixpoint read_mods (p : list Z) (long : bool) : bool * list Z :=
  match p with
  | c :: p' =>
      if (c =? char "l") || (c =? char "h") || (c =? char "z") || (c =? char "t")
      then read_mods p' (long || (c =? char "l")) else (long, p)
  | [] => (long, p)
  end.

Definition zeros (n : Z) : list Z := replicate (Z.to_nat n) ZERO.

Definition fmt_d (long : bool) (precision w : Z) : list Z :=
  let val := if long then s64 w else s32 w in
  let neg := val <? 0 in
  let val := if neg then s64 (- val) else val in
  let tmp := if long then lltoa val 10 else itoa (s32 val) 10 in
  (if neg then [MINUS] else []) ++ zeros (precision - len tmp) ++ tmp.
Definition fmt_u (long : bool) (width w : Z) : list Z :=
  let tmp := itoa (s32 (if long then u64 w else u32 w)) 10 in zeros (width - len tmp) ++ tmp.
Definition fmt_x (long : bool) (width w : Z) : list Z :=
  let tmp := u64_to_str (if long then w else u32 w) 16 in zeros (width - len tmp) ++ tmp.
Definition fmt_p (w : Z) : list Z := chars "0x" ++ itoa (s32 w) 16.

(** The text of a conversion; [None] for a character that is none. *)
Definition conv (long : bool) (width precision c : Z) (a : arg) : option (list Z) :=
  if c =? char "c" then Some [u8 (a_word a)]
  else if c =? char "s" then Some (string_of a)
  else if (c =? char "d") || (c =? char "i") then Some (fmt_d long precision (a_word a))
  else if c =? char "u" then Some (fmt_u long width (a_word a))
  else if (c =? char "x") || (c =? char "X") then Some (fmt_x long width (a_word a))
  else if c =? char "p" then Some (fmt_p (a_word a))
  else None.

(** Width, precision and modifiers after a percent sign, and what follows them. *)
Definition read_spec (p : list Z) : Z * Z * bool * list Z :=
  let '(width, p) := read_num p 0 in
  let '(precision, p) :=
    match p with c :: p' => if c =? char "." then read_num p' 0 else (-1, p) | [] => (-1, p) end in
  let '(long, p) := read_mods p false in
  (width, precision, long, p).

(** [room] is [(int)size - 1]: a character is stored only below it. *)
Definition put (room : Z) (out s : list Z) : list Z := out ++ take (Z.to_nat (room - len out)) s.

(** The loop; [out] is what was stored so far, [i] the next argument. *)
Fixpoint vsn_loop (fuel : nat) (room : Z) (fmt : list Z) (va : nat -> arg) (i : nat) (out : list Z) : option (list Z) :=
  match fuel with
  | O => None
  | S fuel' =>
      match fmt with
      | [] => Some out
      | c :: p =>
          if room <=? len out then Some out else
          if negb (c =? PERCENT) then vsn_loop fuel' room p va i (out ++ [c]) else
          match p with
          | c1 :: p1 => if c1 =? PERCENT then vsn_loop fuel' room p1 va i (out ++ [PERCENT]) else
              let '(width, precision, long, q) := read_spec p in
              match q with
              | c2 :: q' =>
                  match conv long width precision c2 (va i) with
                  | Some s => vsn_loop fuel' room q' va (S i) (put room out s)
                  | None =>
                      let out := put room out [PERCENT] in
                      if len out <? room then vsn_loop fuel' room q' va i (out ++ [c2])
                      else vsn_loop fuel' room q va i out
                  end
              | [] => vsn_loop fuel' room [] va i (put room out [PERCENT])
              end
          | [] => vsn_loop fuel' room [] va i (put room out [PERCENT])
          end
      end
  end.

(** The characters written; the NUL goes behind them. *)
Definition vsnprintf (size : Z) (fmt : list Z) (va : nat -> arg) : option (list Z) :=
  vsn_loop (S (length fmt)) (s32 size - 1) fmt va 0 [].
Definition snprintf (size : Z) (fmt : string) (args : list arg) : option (list Z) :=
  vsnprintf size (chars fmt) (va_of args).

(** * vprintf *)

(** The flags: left-aligned, zero-padded. *)
Fixpoint read_flags (p : list Z) (lft zero : bool) : bool * bool * list Z :=
  match p with
  | c :: p' => if c =? MINUS then read_flags p' true zero else if c =? ZERO then read_flags p' lft true else (lft, zero, p)
  | [] => (lft, zero, p)
  end.
Fixpoint read_longs (p : list Z) (n : Z) : Z * list Z :=
  match p with
  | c :: p' => if c =? char "l" then read_longs p' (n + 1) else (n, p)
  | [] => (n, p)
  end.

Definition emit_padded (s : list Z) (width : Z) (lft : bool) (pad : Z) : list Z :=
  let npad := Z.to_nat (width - len s) in
  if lft then s ++ replicate npad 32 else replicate npad pad ++ s.

Definition print_u64 (v base : Z) : list Z := digits 64 base (u64 v).

(** What the switch puts, and whether it took an argument. *)
Definition vp_conv (lft zero : bool) (width longs c : Z) (a : arg) : list Z * bool :=
  let pad := if zero && negb lft then ZERO else 32 in
  if c =? char "s" then (emit_padded (string_of a) width lft 32, true)
  else if (c =? char "d") || (c =? char "i") then
    let v := if 2 <=? longs then s64 (a_word a) else s32 (a_word a) in
    let neg := v <? 0 in
    (emit_padded ((if neg then [MINUS] else []) ++ u64_to_str (if neg then u64 (- v) else v) 10) width lft pad, true)
  else if c =? char "u" then
    (emit_padded (u64_to_str (if 2 <=? longs then u64 (a_word a) else u32 (a_word a)) 10) width lft pad, true)
  else if (c =? char "x") || (c =? char "X") then
    (emit_padded (u64_to_str (if 1 <=? longs then u64 (a_word a) else u32 (a_word a)) 16) width lft pad, true)
  else if c =? char "p" then (chars "0x" ++ print_u64 (a_word a) 16, true)
  else if c =? char "c" then ([u8 (a_word a)], true)
  else if c =? PERCENT then ([PERCENT], false)
  else ([PERCENT; c], false).

(** The characters put; [None] when the loop steps over the NUL at the end of the format. *)
Fixpoint vp_loop (fuel : nat) (fmt : list Z) (va : nat -> arg) (i : nat) : option (list Z) :=
  match fuel with
  | O => None
  | S fuel' =>
      match fmt with
      | [] => Some []
      | c :: p =>
          if (c =? PERCENT) && negb (Nat.eqb (length p) 0) then
            let '(lft, zero, p) := read_flags p false false in
            let '(width, p) := read_num p 0 in
            let '(longs, p) := read_longs p 0 in
            match p with
            | [] => None
            | c2 :: p' =>
                let '(s, took) := vp_conv lft zero width longs c2 (va i) in
                option_map (app s) (vp_loop fuel' p' va (if took then S i else i))
            end
          else option_map (cons c) (vp_loop fuel' p va i)
      end
  end.
Definition vprintf (fmt : list Z) (va : nat -> arg) : option (list Z) := vp_loop (S (length fmt)) fmt va 0.
Definition printf (fmt : string) (args : list arg) : option (list Z) := vprintf (chars fmt) (va_of args).

(** * 64-bit division without hardware support (kernel/umoddi3.c) *)

Fixpoint sub_loop (fuel : nat) (rem quot b : Z) : option (Z * Z) :=
  match fuel with
  | O => None
  | S fuel' => if rem <? b then Some (quot, rem) else sub_loop fuel' (rem - b) (u64 (quot + 1)) b
  end.
Definition __umoddi3 (a b : Z) : option Z :=
  if b =? 0 then Some 0 else option_map snd (sub_loop (S (Z.to_nat a)) a 0 b).
Definition __udivdi3 (a b : Z) : option Z :=
  if b =? 0 then Some 0 else option_map fst (sub_loop (S (Z.to_nat a)) a 0 b).
Definition __divdi3 (a b : Z) : option Z :=
  if b =? 0 then Some 0 else
  let sign := (if a <? 0 then -1 else 1) * (if b <? 0 then -1 else 1) in
  let ua := u64 (if a <? 0 then s64 (- a) else a) in
  let ub := u64 (if b <? 0 then s64 (- b) else b) in
  option_map (fun q => s64 (sign * s64 q.1)) (sub_loop (S (Z.to_nat ua)) ua 0 ub).

(** * Numerals and their values *)

Definition digit_val (c : Z) : Z := if c <? 58 then c - 48 else c - 87.
Definition numeral (base : Z) (l : list Z) : Z := foldl (fun n c => n * base + digit_val c) 0 l.
Definition parse_int (l : list Z) : Z :=
  match l with c :: l' => if c =? MINUS then - numeral 10 l' else numeral 10 l | [] => 0 end.

Lemma digit_val_digit d : 0 <= d < 36 -> digit_val (digit d) = d.
Proof. intros. unfold digit_val, digit. repeat case_match; bool_prop; lia. Qed.

Lemma low_digits_value fuel base v :
  2 <= base <= 36 -> 0 <= v < base ^ Z.of_nat fuel ->
  fold_right (fun c n => n * base + digit_val c) 0 (low_digits fuel base v) = v.
Proof.
  intros Hb. revert v. induction fuel as [|fuel IH]; intros v Hv; cbn [low_digits fold_right]; [simpl in Hv; lia|].
  pose proof (Z.mod_pos_bound v base). pose proof (Z.div_mod v base). rewrite digit_val_digit by lia.
  destruct (Z.eqb_spec (v / base) 0) as [E|E]; cbn [fold_right]; [lia|]. rewrite IH; [lia|].
  split; [apply Z.div_pos; lia|]. apply Z.div_lt_upper_bound; [lia|]. rewrite Nat2Z.inj_succ, Z.pow_succ_r in Hv by lia. lia.
Qed.

Lemma foldl_rev {A B} (f : A -> B -> A) a l : foldl f a (rev l) = fold_right (fun x y => f y x) a l.
Proof. induction l as [|x l IH]; simpl; [done|]. by rewrite foldl_app, IH. Qed.

Lemma numeral_digits bits base v : 2 <= base <= 36 -> 0 <= v < 2 ^ Z.of_nat bits -> numeral base (digits bits base v) = v.
Proof.
  intros Hb Hv. unfold numeral, digits. rewrite foldl_rev. apply low_digits_value; [done|].
  pose proof (Z.pow_le_mono_l 2 base (Z.of_nat bits)). lia.
Qed.

Lemma length_digits bits base v : (length (digits bits base v) <= bits)%nat.
Proof.
  unfold digits. rewrite length_rev. revert v. induction bits as [|n IH]; intros v; cbn [low_digits]; [done|].
  destruct (v / base =? 0); simpl; [lia|]. specialize (IH (v / base)). lia.
Qed.

Lemma digits_chars bits base v c : 2 <= base -> In c (digits bits base v) -> 48 <= c.
Proof.
  intros Hb. unfold digits. rewrite <- in_rev. revert v. induction bits as [|n IH]; intros v; cbn [low_digits]; [done|].
  intros [<-|Hc].
  - pose proof (Z.mod_pos_bound v base). unfold digit. case_match; bool_prop; lia.
  - destruct (v / base =? 0); [done|]. by eapply IH.
Qed.

Lemma parse_digits bits v : 0 <= v < 2 ^ Z.of_nat bits -> parse_int (digits bits 10 v) = v.
Proof.
  intros Hv. pose proof (numeral_digits bits 10 v) as Hn. pose proof (digits_chars bits 10 v) as Hc. unfold parse_int.
  destruct (digits bits 10 v) as [|c l]; [rewrite <- Hn by lia; done|].
  assert (48 <= c) by (apply Hc; [lia|by left]). rewrite (proj2 (Z.eqb_neq c MINUS)) by (unfold MINUS; lia). apply Hn; lia.
Qed.

(** * The bound of the buffer *)

Lemma read_num_suffix p n : (length (read_num p n).2 <= length p)%nat.
Proof. revert n. induction p as [|c p IH]; intros n; simpl; [done|]. destruct (is_digit c); [|simpl; lia]. specialize (IH (s32 (n * 10 + (c - 48)))). lia. Qed.

Lemma read_mods_suffix p b : (length (read_mods p b).2 <= length p)%nat.
Proof. revert b. induction p as [|c p IH]; intros b; simpl; [done|]. case_match; [|simpl; lia]. specialize (IH (b || (c =? char "l"))). lia. Qed.

Lemma read_spec_suffix p width precision long q : read_spec p = (width, precision, long, q) -> (length q <= length p)%nat.
Proof.
  unfold read_spec. pose proof (read_num_suffix p 0) as H1. destruct (read_num p 0) as [w p1]. simpl in H1.
  assert (exists pr p2, (match p1 with c :: p' => if c =? char "." then read_num p' 0 else (-1, p1) | [] => (-1, p1) end) = (pr, p2) /\
    (length p2 <= length p1)%nat) as (pr & p2 & -> & H2).
  { destruct p1 as [|c p']; [by eexists _, _|]. destruct (c =? char "."); [|by eexists _, _].
    pose proof (read_num_suffix p' 0). destruct (read_num p' 0) as [x y]. exists x, y. simpl in *. split; [done|lia]. }
  pose proof (read_mods_suffix p2 false) as H3. destruct (read_mods p2 false) as [l p3]. simpl in H3. intros [= <- <- <- <-]. lia.
Qed.

Lemma put_bound room out s : len out <= len (put room out s) <= Z.max room (len out).
Proof. unfold put. rewrite length_app, length_take. lia. Qed.

Lemma vsn_loop_bounded fuel room fmt va i out :
  (length fmt < fuel)%nat -> exists out', vsn_loop fuel room fmt va i out = Some out' /\ len out' <= Z.max room (len out).
Proof.
  revert fmt i out. induction fuel as [|fuel IH]; intros fmt i out Hf; [lia|]. cbn [vsn_loop].
  destruct fmt as [|c p]; [exists out; split; [done|lia]|]. simpl in Hf.
  destruct (Z.leb_spec room (len out)); [exists out; split; [done|lia]|].
  assert (forall q j o, (length q <= length p)%nat -> len o <= room ->
    exists out', vsn_loop fuel room q va j o = Some out' /\ len out' <= Z.max room (len out)) as Hgo.
  { intros q j o Hq Ho. destruct (IH q j o) as (o' & E & Hl); [lia|]. exists o'. split; [done|lia]. }
  assert (forall x, len (out ++ [x]) <= room) as Hone by (intros; rewrite length_app; simpl; lia).
  assert (forall s, len (put room out s) <= room) as Hput by (intros s; pose proof (put_bound room out s); lia).
  destruct (c =? PERCENT); cbn [negb]; [|by apply Hgo]. destruct p as [|c1 p1]; [by apply Hgo|].
  destruct (c1 =? PERCENT); [apply Hgo; [simpl; lia|done]|].
  destruct (read_spec (c1 :: p1)) as [[[w pr] l] q] eqn:Es. apply read_spec_suffix in Es. simpl in Es.
  destruct q as [|c2 q']; [apply Hgo; [simpl; lia|done]|]. simpl in Es.
  destruct (conv l w pr c2 (va i)) as [s|]; [apply Hgo; [simpl; lia|done]|].
  destruct (Z.ltb_spec (len (put room out [PERCENT])) room); apply Hgo; simpl; try lia; try done.
  rewrite length_app. simpl. lia.
Qed.

(** * Properties *)

(** ** A smaller buffer gets the beginning of what a larger one gets *)

Lemma vsn_loop_extends fuel room fmt va i out o : vsn_loop fuel room fmt va i out = Some o -> exists t, o = out ++ t.
Proof.
  revert fmt i out. induction fuel as [|fuel IH]; intros fmt i out; cbn [vsn_loop]; [done|].
  assert (Hgo : forall q j t, vsn_loop fuel room q va j (out ++ t) = Some o -> exists t', o = out ++ t').
  { intros q j t E. apply IH in E as [t' ->]. exists (t ++ t'). by rewrite app_assoc. }
  destruct fmt as [|c p]; [intros [= <-]; exists []; by rewrite app_nil_r|]. destruct (room <=? len out); [intros [= <-]; exists []; by rewrite app_nil_r|].
  destruct (negb _); [apply Hgo|]. destruct p as [|c1 p1]; [apply Hgo|]. destruct (c1 =? PERCENT); [apply Hgo|].
  destruct (read_spec (c1 :: p1)) as [[[w pr] l] q]. destruct q as [|c2 q']; [apply Hgo|]. destruct (conv l w pr c2 (va i)); [apply Hgo|].
  unfold put. destruct (_ <? _); [rewrite <- app_assoc|]; apply Hgo.
Qed.

(** The same text so far, or the smaller buffer is full. *)
Definition begins (room : Z) (out out' : list Z) : Prop := out' = out /\ len out <= room \/ len out = room /\ exists t, out' = out ++ t.

Lemma begins_put room room' out s : room <= room' -> len out <= room -> begins room (put room out s) (put room' out s).
Proof.
  intros Hr Ho. unfold put. destruct (Z.leb_spec (len s) (room - len out)).
  - left. rewrite !take_ge by lia. split; [done|]. rewrite length_app. lia.
  - right. rewrite length_app, length_take. split; [lia|]. exists (take (Z.to_nat (room' - room)) (drop (Z.to_nat (room - len out)) s)).
    rewrite <- app_assoc. f_equal. rewrite take_take_drop. f_equal. lia.
Qed.

Lemma vsn_loop_begins fuel room room' fmt va i out out' o o' :
  room <= room' -> begins room out out' -> vsn_loop fuel room fmt va i out = Some o -> vsn_loop fuel room' fmt va i out' = Some o' -> begins room o o'.
Proof.
  intros Hr. revert fmt i out out'. induction fuel as [|fuel IH]; intros fmt i out out' Hb; [done|]. destruct Hb as [[-> Ho]|[Ho [t ->]]].
  2: { intros E E'. apply vsn_loop_extends in E' as [t' ->]. assert (o = out) as ->; [|right; split; [done|exists (t ++ t'); by rewrite app_assoc]].
       revert E. cbn [vsn_loop]. destruct fmt; [by intros [= <-]|]. rewrite (proj2 (Z.leb_le room (len out))) by lia. by intros [= <-]. }
  cbn [vsn_loop]. destruct fmt as [|c p]; [intros [= <-] [= <-]; by left|].
  destruct (Z.leb_spec room (len out)) as [Hf|Hf].
  { intros [= <-] E'. assert (E2 : vsn_loop (S fuel) room' (c :: p) va i out = Some o') by exact E'. apply vsn_loop_extends in E2 as [t ->]. right. split; [lia|by exists t]. }
  rewrite (proj2 (Z.leb_gt room' (len out))) by lia.
  assert (Hone : forall x, begins room (out ++ [x]) (out ++ [x])) by (intros x; left; split; [done|rewrite length_app; cbn; lia]).
  assert (Hput : forall x, begins room (put room out x) (put room' out x)) by (intros x; by apply begins_put; [|lia]).
  destruct (negb _); [by apply IH|]. destruct p as [|c1 p1]; [by apply IH|]. destruct (c1 =? PERCENT); [by apply IH|].
  destruct (read_spec (c1 :: p1)) as [[[w pr] l] q]. destruct q as [|c2 q']; [by apply IH|]. destruct (conv l w pr c2 (va i)); [by apply IH|].
  assert (E1 : forall r, room <= r -> put r out [PERCENT] = out ++ [PERCENT]) by (intros r Hr'; unfold put; rewrite take_ge by (cbn [length]; lia); done).
  rewrite !E1 by lia. destruct (Z.ltb_spec (len (out ++ [PERCENT])) room) as [Hl|Hl].
  - rewrite (proj2 (Z.ltb_lt (len (out ++ [PERCENT])) room')) by lia. apply IH. left. split; [done|]. rewrite !length_app in *. cbn in *. lia.
  - intros E E'. destruct fuel as [|fuel']; [done|]. assert (o = out ++ [PERCENT]) as ->.
    { revert E. cbn [vsn_loop]. rewrite (proj2 (Z.leb_le room (len (out ++ [PERCENT])))) by lia. by intros [= <-]. }
    right. split; [rewrite length_app in *; cbn in *; lia|]. destruct (_ <? room'); apply vsn_loop_extends in E' as [t ->]; [rewrite <- app_assoc|]; by eexists.
Qed.

(** C34: vsnprintf stays inside its buffer and cuts only what does not fit: for every buffer size
    from 1 below 2^31, every format and all arguments it returns, the characters it stored, with
    the NUL behind them, take at most [size] bytes, and they are the first [size - 1] characters
    of what any larger buffer gets. *)
Theorem vsnprintf_bounded size fmt va :
  1 <= size < 2 ^ 31 -> exists out, vsnprintf size fmt va = Some out /\ len out + 1 <= size /\
    forall size', size <= size' < 2 ^ 31 -> exists out', vsnprintf size' fmt va = Some out' /\ out = take (Z.to_nat (size - 1)) out'.
Proof.
  intros Hs. assert (Hret : forall z, 1 <= z < 2 ^ 31 -> exists out, vsnprintf z fmt va = Some out /\ len out + 1 <= z).
  { intros z Hz. unfold vsnprintf. destruct (vsn_loop_bounded (S (length fmt)) (s32 z - 1) fmt va 0 []) as (out & E & Hl); [lia|].
    exists out. split; [done|]. unfold s32 in Hl. rewrite u32_small in Hl by lia. simpl in Hl. case_match; bool_prop; lia. }
  destruct (Hret size Hs) as (out & E & Hl). exists out. split; [done|]. split; [done|]. intros size' Hs'. destruct (Hret size' ltac:(lia)) as (out' & E' & _). exists out'. split; [done|].
  unfold vsnprintf in E, E'. assert (Es : forall z, 1 <= z < 2 ^ 31 -> s32 z = z) by (intros z Hz; unfold s32; rewrite u32_small by lia; case_match; bool_prop; lia).
  rewrite Es in E, E' by lia. destruct (vsn_loop_begins _ (size - 1) (size' - 1) _ _ _ [] [] _ _ ltac:(lia) ltac:(left; split; [done|cbn; lia]) E E') as [[-> _]|[Ho [t ->]]].
  - by rewrite take_ge by lia.
  - rewrite take_app_le, take_ge by lia. done.
Qed.

Lemma vsnprintf_bounded_witness :
  exists out out', vsnprintf 8 (chars "pid %d: %s") (va_of [W (-12); T (chars "init")]) = Some out /\ len out + 1 <= 8 /\
    vsnprintf 100 (chars "pid %d: %s") (va_of [W (-12); T (chars "init")]) = Some out' /\ out = take 7 out'.
Proof.
  destruct (vsnprintf_bounded 8 (chars "pid %d: %s") (va_of [W (-12); T (chars "init")])) as (out & E & Hl & H); [lia|].
  destruct (H 100) as (out' & E' & Ho); [lia|]. exists out, out'. by repeat split.
Defined.

(** A buffer of no bytes gets the NUL all the same. *)
Lemma vsnprintf_empty_buffer fmt va : vsnprintf 0 fmt va = Some [].
Proof. unfold vsnprintf. destruct fmt; [done|]. cbn [vsn_loop length]. done. Qed.

(** One conversion that is the whole format. *)
Lemma snprintf_single size fmt s c long width precision a q :
  66 <= size < 2 ^ 31 -> fmt = PERCENT :: q -> (exists c1 q', q = c1 :: q' /\ c1 <> PERCENT) ->
  read_spec q = (width, precision, long, [c]) -> conv long width precision c a = Some s -> len s <= 65 ->
  vsnprintf size fmt (va_of [a]) = Some s.
Proof.
  intros Hsz -> (c1 & q' & -> & Hc1) Hspec Hconv Hl. unfold vsnprintf.
  assert (s32 size - 1 = size - 1) as -> by (unfold s32; rewrite u32_small by lia; case_match; bool_prop; lia).
  cbn [length vsn_loop]. change (Z.of_nat 0) with 0. rewrite (proj2 (Z.leb_gt (size - 1) 0)) by lia. rewrite Z.eqb_refl. cbn [negb].
  rewrite (proj2 (Z.eqb_neq c1 PERCENT)) by done. rewrite Hspec. unfold va_of. cbn [nth]. rewrite Hconv. unfold put. simpl app.
  rewrite take_ge by lia. done.
Qed.

(** C35: Numbers printed by snprintf read back as the number: %d for every int and %ld for every
    long but the least, %u below 2^31, %x for every 32-bit and %lx for every 64-bit value,
    whenever the buffer has room for 65 characters. *)
Theorem snprintf_numbers_roundtrip size v :
  66 <= size < 2 ^ 31 ->
  (- 2 ^ 31 < v < 2 ^ 31 -> exists t, snprintf size "%d" [W v] = Some t /\ parse_int t = v) /\
  (0 <= v < 2 ^ 31 -> exists t, snprintf size "%u" [W v] = Some t /\ parse_int t = v) /\
  (0 <= v < 2 ^ 64 -> exists t, snprintf size "%lx" [W v] = Some t /\ numeral 16 t = v) /\
  (0 <= v < 2 ^ 32 -> exists t, snprintf size "%x" [W v] = Some t /\ numeral 16 t = v) /\
  (- 2 ^ 63 < v < 2 ^ 63 -> exists t, snprintf size "%ld" [W v] = Some t /\ parse_int t = v).
Proof.
  intros Hs. assert (forall x, 0 <= x < 2 ^ 31 -> s32 x = x) as Hs32.
  { intros x Hx. unfold s32. rewrite u32_small by lia. case_match; bool_prop; lia. }
  assert (forall x, 0 <= x < 2 ^ 31 -> itoa x 10 = digits 32 10 x) as Hitoa.
  { intros x Hx. unfold itoa. simpl. rewrite (proj2 (Z.ltb_ge x 0)) by lia. simpl. by rewrite u32_small by lia. }
  assert (forall b n x, (b <= 64)%nat -> len (digits b n x) <= 64) as Hlen by (intros b n x Hb; pose proof (length_digits b n x); lia).
  assert (forall b n x, zeros (-1 - len (digits b n x)) = [] /\ zeros (0 - len (digits b n x)) = []) as Hz0.
  { intros b n x. unfold zeros. split; (replace (Z.to_nat _) with O by lia; done). }
  assert (forall x, - 2 ^ 31 < x < 0 -> s32 x = x) as Hneg.
  { intros x Hx. unfold s32, u32. rewrite <- (Z_mod_plus_full x 1), Z.mod_small by lia. case_match; bool_prop; lia. }
  assert (forall x, 0 <= x < 2 ^ 31 -> s64 x = x) as Hs64.
  { intros x Hx. unfold s64. rewrite u64_small by lia. case_match; bool_prop; lia. }
  split_and!; intros Hv.
  - destruct (Z.leb_spec 0 v).
    + exists (digits 32 10 v). split; [|apply parse_digits; change (2 ^ Z.of_nat 32) with 4294967296; lia].
      apply (snprintf_single _ _ _ (char "d") false 0 (-1) _ (chars "d")); try done; [exists (char "d"), []; done| |etrans; [apply Hlen; lia|lia]].
      change (conv false 0 (-1) (char "d") (W v)) with (Some (fmt_d false (-1) v)). unfold fmt_d. rewrite !Hs32 by lia.
      rewrite (proj2 (Z.ltb_ge v 0)) by lia. rewrite Hs32, Hitoa by lia; rewrite ?(proj1 (Hz0 _ _ _)), ?(proj2 (Hz0 _ _ _)). done.
    + exists (MINUS :: digits 32 10 (- v)). split; [|simpl; rewrite numeral_digits by (change (2 ^ Z.of_nat 32) with 4294967296; lia); lia].
      apply (snprintf_single _ _ _ (char "d") false 0 (-1) _ (chars "d")); try done; [exists (char "d"), []; done| |].
      2:{ specialize (Hlen 32%nat 10 (- v)). cbn [length]. lia. }
      change (conv false 0 (-1) (char "d") (W v)) with (Some (fmt_d false (-1) v)). unfold fmt_d.
      rewrite Hneg by lia. rewrite (proj2 (Z.ltb_lt v 0)) by lia. rewrite Hs64, Hs32, Hitoa by lia; rewrite ?(proj1 (Hz0 _ _ _)), ?(proj2 (Hz0 _ _ _)). done.
  - exists (digits 32 10 v). split; [|apply parse_digits; change (2 ^ Z.of_nat 32) with 4294967296; lia].
    apply (snprintf_single _ _ _ (char "u") false 0 (-1) _ (chars "u")); try done; [exists (char "u"), []; done| |etrans; [apply Hlen; lia|lia]].
    change (conv false 0 (-1) (char "u") (W v)) with (Some (fmt_u false 0 v)). unfold fmt_u.
    rewrite u32_small, Hs32, Hitoa by lia; rewrite ?(proj1 (Hz0 _ _ _)), ?(proj2 (Hz0 _ _ _)). done.
  - exists (digits 64 16 v). split; [|apply numeral_digits; change (2 ^ Z.of_nat 64) with (2 ^ 64); lia].
    apply (snprintf_single _ _ _ (char "x") true 0 (-1) _ (chars "lx")); try done; [exists (char "l"), (chars "x"); done| |etrans; [apply Hlen; lia|lia]].
    change (conv true 0 (-1) (char "x") (W v)) with (Some (fmt_x true 0 v)). unfold fmt_x, u64_to_str.
    rewrite u64_small by lia; rewrite (proj2 (Hz0 _ _ _)). done.
  - exists (digits 64 16 v). split; [|apply numeral_digits; change (2 ^ Z.of_nat 64) with (2 ^ 64); lia].
    apply (snprintf_single _ _ _ (char "x") false 0 (-1) _ (chars "x")); try done; [exists (char "x"), []; done| |etrans; [apply Hlen; lia|lia]].
    change (conv false 0 (-1) (char "x") (W v)) with (Some (fmt_x false 0 v)). unfold fmt_x, u64_to_str.
    rewrite u32_small, u64_small by lia; rewrite (proj2 (Hz0 _ _ _)). done.
  - assert (forall x, 0 <= x < 2 ^ 63 -> s64 x = x /\ lltoa x 10 = digits 64 10 x) as Hl64.
    { intros x Hx. unfold s64, lltoa. rewrite !u64_small by lia. rewrite (proj2 (Z.ltb_ge x 0)), (proj2 (Z.ltb_lt x (2 ^ 63))) by lia. done. }
    destruct (Z.leb_spec 0 v).
    + exists (digits 64 10 v). split; [|apply parse_digits; change (2 ^ Z.of_nat 64) with (2 ^ 64); lia].
      apply (snprintf_single _ _ _ (char "d") true 0 (-1) _ (chars "ld")); try done; [exists (char "l"), (chars "d"); done| |etrans; [apply Hlen; lia|lia]].
      change (conv true 0 (-1) (char "d") (W v)) with (Some (fmt_d true (-1) v)). unfold fmt_d. destruct (Hl64 v ltac:(lia)) as [-> El].
      rewrite (proj2 (Z.ltb_ge v 0)) by lia. rewrite El, (proj1 (Hz0 _ _ _)). done.
    + exists (MINUS :: digits 64 10 (- v)). split; [|simpl; rewrite numeral_digits by (change (2 ^ Z.of_nat 64) with (2 ^ 64); lia); lia].
      apply (snprintf_single _ _ _ (char "d") true 0 (-1) _ (chars "ld")); try done; [exists (char "l"), (chars "d"); done| |].
      2:{ specialize (Hlen 64%nat 10 (- v)). cbn [length]. lia. }
      change (conv true 0 (-1) (char "d") (W v)) with (Some (fmt_d true (-1) v)). unfold fmt_d. destruct (Hl64 (- v) ltac:(lia)) as [E1 E2].
      assert (s64 v = v) as -> by (unfold s64, u64; rewrite <- (Z_mod_plus_full v 1), Z.mod_small by lia; case_match; bool_prop; lia).
      rewrite (proj2 (Z.ltb_lt v 0)) by lia. rewrite E1, E2, (proj1 (Hz0 _ _ _)). done.
Qed.

Lemma snprintf_numbers_roundtrip_witness :
  66 <= 100 < 2 ^ 31 /\ exists t, snprintf 100 "%d" [W (-2147483647)] = Some t /\ parse_int t = -2147483647.
Proof. split; [lia|]. destruct (snprintf_numbers_roundtrip 100 (-2147483647)) as [Hd _]; [lia|]. apply Hd. lia. Defined.

(** Outside that range: the least int gets two signs, an unsigned value above it a sign. *)
Lemma snprintf_int_min : snprintf 64 "%d" [W (- 2 ^ 31)] = Some (chars "--2147483648").
Proof. vm_compute. reflexivity. Qed.
Lemma snprintf_unsigned_high : snprintf 64 "%u" [W (2 ^ 31)] = Some (chars "-2147483648").
Proof. vm_compute. reflexivity. Qed.

(** A format that ends inside a conversion makes vprintf read past its end. *)
Lemma vprintf_runs_past_end : printf "%5" [] = None.
Proof. vm_compute. reflexivity. Qed.

(** * Division by repeated subtraction *)

Lemma sub_loop_spec fuel rem quot b :
  0 <= rem -> 0 < b -> 0 <= quot -> quot + rem < 2 ^ 64 -> rem < Z.of_nat fuel ->
  sub_loop fuel rem quot b = Some (quot + rem / b, rem mod b).
Proof.
  revert rem quot. induction fuel as [|fuel IH]; intros rem quot Hr Hb Hq Hs Hf; [lia|]. cbn [sub_loop].
  destruct (Z.ltb_spec rem b).
  - rewrite Z.div_small, Z.mod_small by lia. by rewrite Z.add_0_r.
  - rewrite u64_small, IH by lia. f_equal. replace rem with (rem - b + 1 * b) at 3 4 by lia.
    rewrite Z.div_add, Z_mod_plus_full by lia. f_equal. lia.
Qed.

Lemma udivmod_correct a b : 0 <= a < 2 ^ 64 -> 0 < b -> __udivdi3 a b = Some (a / b) /\ __umoddi3 a b = Some (a mod b).
Proof.
  intros Ha Hb. unfold __udivdi3, __umoddi3. rewrite (proj2 (Z.eqb_neq b 0)) by lia. rewrite sub_loop_spec by lia. done.
Qed.
