(* ===== verification/Keyboard.v ===== *)
(** The keyboard driver (kernel/keyboard.c): the scan code state machine, the two rings between
    the interrupt handler and the readers, and the readers.

    What the controller and the serial port have ready is part of the state: a byte of the
    controller comes with the bit that marks it as the mouse's.  A [char] is its byte. *)
From Stdlib Require Import ZArith Lia String.
From S2P Require Import Prelude Packed Format Process Signal.
From S2P Require PageTables.

Definition KBD_BUFFER_SIZE : Z := 256.
Definition KEY_UP : Z := 0x80.
Definition KEY_DOWN : Z := 0x81.
Definition KEY_LEFT : Z := 0x82.
Definition KEY_RIGHT : Z := 0x83.
Definition KEY_HOME : Z := 0x84.
Definition KEY_END : Z := 0x85.
Definition KEY_PGUP : Z := 0x86.
Definition KEY_PGDN : Z := 0x87.
Definition KEY_INSERT : Z := 0x88.
Definition KEY_DEL : Z := 0x89.
Definition KEY_F1 : Z := 0x90.

Definition SIGINT : Z := 2.

(** A ring: [KBD_BUFFER_SIZE] cells, the place of the next entry and of the oldest. *)
Record ring := Ring { cells : Z -> Z; r_head : Z; r_tail : Z }.
Definition empty_ring : ring := Ring (fun _ => 0) 0 0.

Record kbd := Kbd {
  shift_pressed : bool; altgr_pressed : bool; caps_lock : bool; ctrl_pressed : bool; alt_pressed : bool; e0_prefix : bool;
  kbd_buffer : ring; kbd_keycodes : ring; keyboard_layout : Z;
  i8042 : list (bool * Z); serial_in : list Z }.

Definition set_shift v k := Kbd v (altgr_pressed k) (caps_lock k) (ctrl_pressed k) (alt_pressed k) (e0_prefix k) (kbd_buffer k) (kbd_keycodes k) (keyboard_layout k) (i8042 k) (serial_in k).
Definition set_altgr v k := Kbd (shift_pressed k) v (caps_lock k) (ctrl_pressed k) (alt_pressed k) (e0_prefix k) (kbd_buffer k) (kbd_keycodes k) (keyboard_layout k) (i8042 k) (serial_in k).
Definition set_caps v k := Kbd (shift_pressed k) (altgr_pressed k) v (ctrl_pressed k) (alt_pressed k) (e0_prefix k) (kbd_buffer k) (kbd_keycodes k) (keyboard_layout k) (i8042 k) (serial_in k).
Definition set_ctrl v k := Kbd (shift_pressed k) (altgr_pressed k) (caps_lock k) v (alt_pressed k) (e0_prefix k) (kbd_buffer k) (kbd_keycodes k) (keyboard_layout k) (i8042 k) (serial_in k).
Definition set_alt v k := Kbd (shift_pressed k) (altgr_pressed k) (caps_lock k) (ctrl_pressed k) v (e0_prefix k) (kbd_buffer k) (kbd_keycodes k) (keyboard_layout k) (i8042 k) (serial_in k).
Definition set_e0 v k := Kbd (shift_pressed k) (altgr_pressed k) (caps_lock k) (ctrl_pressed k) (alt_pressed k) v (kbd_buffer k) (kbd_keycodes k) (keyboard_layout k) (i8042 k) (serial_in k).
Definition set_buffer v k := Kbd (shift_pressed k) (altgr_pressed k) (caps_lock k) (ctrl_pressed k) (alt_pressed k) (e0_prefix k) v (kbd_keycodes k) (keyboard_layout k) (i8042 k) (serial_in k).
Definition set_keycodes v k := Kbd (shift_pressed k) (altgr_pressed k) (caps_lock k) (ctrl_pressed k) (alt_pressed k) (e0_prefix k) (kbd_buffer k) v (keyboard_layout k) (i8042 k) (serial_in k).
Definition set_layout v k := Kbd (shift_pressed k) (altgr_pressed k) (caps_lock k) (ctrl_pressed k) (alt_pressed k) (e0_prefix k) (kbd_buffer k) (kbd_keycodes k) v (i8042 k) (serial_in k).
Definition set_i8042 v k := Kbd (shift_pressed k) (altgr_pressed k) (caps_lock k) (ctrl_pressed k) (alt_pressed k) (e0_prefix k) (kbd_buffer k) (kbd_keycodes k) (keyboard_layout k) v (serial_in k).
Definition set_serial v k := Kbd (shift_pressed k) (altgr_pressed k) (caps_lock k) (ctrl_pressed k) (alt_pressed k) (e0_prefix k) (kbd_buffer k) (kbd_keycodes k) (keyboard_layout k) (i8042 k) v.

(** * Rings *)

(** An entry is dropped when the ring is full. *)
Definition ring_put (c : Z) (r : ring) : ring :=
  let next := (r_head r + 1) mod KBD_BUFFER_SIZE in
  if next =? r_tail r then r else Ring (<[r_head r := c]> (cells r)) next (r_tail r).
Definition ring_get (r : ring) : option (Z * ring) :=
  if r_tail r =? r_head r then None
  else Some (cells r (r_tail r), Ring (cells r) (r_head r) ((r_tail r + 1) mod KBD_BUFFER_SIZE)).

(** * Layouts *)

Definition BACKSPACE : Z := 8.
Definition TAB : Z := 9.
Definition ENTER : Z := 10.

Definition es_normal : list Z :=
  [0; 0] ++ chars "1234567890'" ++ [0xA1; BACKSPACE; TAB] ++ chars "qwertyuiop`+" ++ [ENTER; 0] ++
  chars "asdfghjkl" ++ [0xF1; 0xB4; 0xBA; 0] ++ chars "<zxcvbnm,.-" ++ [0; char "*"; 0; 32].
Definition es_shift : list Z :=
  [0; 0; char "!"; 34; 0xB7] ++ chars "$%&/()=?" ++ [0xBF; BACKSPACE; TAB] ++ chars "QWERTYUIOP^*" ++ [ENTER; 0] ++
  chars "ASDFGHJKL" ++ [0xD1; 0xA8; 0xAA; 0] ++ chars ">ZXCVBNM;:_" ++ [0; char "*"; 0; 32].
Definition es_altgr : list Z := [0; 0] ++ chars "|@#~" ++ [0x80; 0xAC].
Definition us_normal : list Z :=
  [0; 0] ++ chars "1234567890-=" ++ [BACKSPACE; TAB] ++ chars "qwertyuiop[]" ++ [ENTER; 0] ++
  chars "asdfghjkl;'`" ++ [0; 92] ++ chars "zxcvbnm,./" ++ [0; char "*"; 0; 32].
Definition us_shift : list Z :=
  [0; 0] ++ chars "!@#$%^&*()_+" ++ [BACKSPACE; TAB] ++ chars "QWERTYUIOP{}" ++ [ENTER; 0] ++
  chars "ASDFGHJKL:" ++ [34] ++ chars "~" ++ [0] ++ chars "|ZXCVBNM<>?" ++ [0; char "*"; 0; 32].
(** The rest of each table is zero. *)
Definition key (t : list Z) (sc : Z) : Z := nth (Z.to_nat sc) t 0.

(** * Scan codes *)

Definition init_keyboard (k : kbd) : kbd := Kbd false false false false false false (kbd_buffer k) (kbd_keycodes k) (keyboard_layout k) [] (serial_in k).

Definition extended_key (sc : Z) : Z :=
  if sc =? 0x48 then KEY_UP else if sc =? 0x50 then KEY_DOWN else if sc =? 0x4B then KEY_LEFT else if sc =? 0x4D then KEY_RIGHT
  else if sc =? 0x47 then KEY_HOME else if sc =? 0x4F then KEY_END else if sc =? 0x49 then KEY_PGUP else if sc =? 0x51 then KEY_PGDN
  else if sc =? 0x52 then KEY_INSERT else if sc =? 0x53 then KEY_DEL else 0.
Definition function_key (sc : Z) : Z :=
  if (0x3B <=? sc) && (sc <=? 0x44) then KEY_F1 + (sc - 0x3B) else if sc =? 0x57 then KEY_F1 + 10 else if sc =? 0x58 then KEY_F1 + 11 else 0.

Definition put_keycode (kc : Z) (k : kbd) : kbd := set_keycodes (ring_put kc (kbd_keycodes k)) k.

Definition scancode_to_ascii (sc : Z) (k : kbd) : Z * kbd :=
  if sc =? 0xE0 then (0, set_e0 true k) else
  let pressed := negb (truthy (sc .& 0x80)) in
  let sc := sc .& 0x7F in
  if e0_prefix k then
    let k := set_e0 false k in
    if sc =? 0x38 then (0, set_altgr pressed k) else
    if sc =? 0x1D then (0, set_ctrl pressed k) else
    let keycode := extended_key sc in
    (0, if truthy keycode && pressed then put_keycode keycode k else k)
  else
    if (sc =? 0x2A) || (sc =? 0x36) then (0, set_shift pressed k) else
    if sc =? 0x3A then (0, if pressed then set_caps (negb (caps_lock k)) k else k) else
    if sc =? 0x38 then (0, set_alt pressed k) else
    if sc =? 0x1D then (0, set_ctrl pressed k) else
    let fkey := function_key sc in
    if truthy fkey then (0, if pressed then put_keycode fkey k else k) else
    if negb pressed then (0, k) else
    (if keyboard_layout k =? 0 then
       if shift_pressed k || caps_lock k then key us_shift sc else key us_normal sc
     else
       if altgr_pressed k then key es_altgr sc else if shift_pressed k || caps_lock k then key es_shift sc else key es_normal sc, k).

Definition is_lower (c : Z) : bool := (97 <=? c) && (c <=? 122).
Definition is_upper (c : Z) : bool := (65 <=? c) && (c <=? 90).
(** [(char)((c | 0x20) - 'a' + 1)] *)
Definition control_char (c : Z) : Z := u8 ((c .| 0x20) - 97 + 1).

Definition keyboard_irq_handler (k : kbd) (s : kst) : kbd * kst :=
  match i8042 k with
  | (false, sc) :: rest =>
      let '(c, k) := scancode_to_ascii sc (set_i8042 rest k) in
      if negb (truthy c) then (k, s) else
      if ctrl_pressed k && ((c =? 99) || (c =? 67)) then (k, signal_send_foreground SIGINT s) else
      if ctrl_pressed k && ((c =? 122) || (c =? 90)) then (k, signal_send_foreground SIGTSTP s) else
      let c := if ctrl_pressed k && (is_lower c || is_upper c) then control_char c else c in
      (set_buffer (ring_put c (kbd_buffer k)) k, s)
  | _ => (k, s)
  end.

(** * Readers *)

(** The byte is read whoever it is from. *)
Definition kbd_poll_direct (k : kbd) : Z * kbd :=
  match i8042 k with (_, sc) :: rest => scancode_to_ascii sc (set_i8042 rest k) | [] => (0, k) end.
Definition serial_getchar_nonblock (k : kbd) : Z * kbd :=
  match serial_in k with c :: rest => (c, set_serial rest k) | [] => (0, k) end.

Definition keyboard_has_input (k : kbd) : bool :=
  negb (r_tail (kbd_buffer k) =? r_head (kbd_buffer k)) || match i8042 k with [] => false | _ => true end || match serial_in k with [] => false | _ => true end.

Definition getchar_poll (k : kbd) : Z * kbd :=
  match ring_get (kbd_buffer k) with
  | Some (c, r) => (c, set_buffer r k)
  | None =>
      let '(c, k) := kbd_poll_direct k in
      if truthy c then (c, k) else
      let '(c, k) := serial_getchar_nonblock k in
      if c =? 0x7F then (BACKSPACE, k) else (c, k)
  end.

Definition s8 (x : Z) : Z := if u8 x <? 128 then u8 x else u8 x - 256.

Definition getkey_poll (k : kbd) : Z * kbd :=
  match ring_get (kbd_keycodes k) with
  | Some (kc, r) => (kc, set_keycodes r k)
  | None => let '(c, k) := getchar_poll k in (s8 c, k)
  end.

Definition set_keyboard_layout (layout : Z) (k : kbd) : kbd :=
  if (layout =? 0) || (layout =? 1) then set_layout layout k else k.

(** * Rings are queues *)

(** The entries, oldest first. *)
Definition pending (r : ring) : list Z :=
  (fun i => cells r ((r_tail r + i) mod KBD_BUFFER_SIZE)) <$> seqZ 0 ((r_head r - r_tail r) mod KBD_BUFFER_SIZE).
Definition ring_ok (r : ring) : Prop := 0 <= r_head r < KBD_BUFFER_SIZE /\ 0 <= r_tail r < KBD_BUFFER_SIZE.

Lemma length_pending r : len (pending r) = (r_head r - r_tail r) mod KBD_BUFFER_SIZE.
Proof. unfold pending. rewrite length_fmap, length_seqZ. pose proof (Z.mod_pos_bound (r_head r - r_tail r) KBD_BUFFER_SIZE). unfold KBD_BUFFER_SIZE in *. lia. Qed.

Lemma ring_put_spec c r : ring_ok r ->
  ring_ok (ring_put c r) /\ pending (ring_put c r) = if len (pending r) <? KBD_BUFFER_SIZE - 1 then pending r ++ [c] else pending r.
Proof.
  rewrite length_pending. unfold ring_ok, ring_put, KBD_BUFFER_SIZE. intros [Hh Ht].
  destruct (Z.eqb_spec ((r_head r + 1) mod 256) (r_tail r)) as [E|E].
  - split; [done|]. destruct (Z.ltb_spec ((r_head r - r_tail r) mod 256) (256 - 1)); [|done]. exfalso. Z.div_mod_to_equations. lia.
  - split; [cbn; Z.div_mod_to_equations; lia|].
    destruct (Z.ltb_spec ((r_head r - r_tail r) mod 256) (256 - 1)); [|exfalso; Z.div_mod_to_equations; lia].
    unfold pending, KBD_BUFFER_SIZE. cbn [r_head r_tail cells]. set (n := (r_head r - r_tail r) mod 256) in *.
    assert (0 <= n) by (unfold n; Z.div_mod_to_equations; lia).
    replace (((r_head r + 1) mod 256 - r_tail r) mod 256) with (n + 1) by (unfold n in *; Z.div_mod_to_equations; lia).
    rewrite (seqZ_app 0 n 1) by lia. rewrite fmap_app. f_equal.
    + apply list_fmap_ext. intros i x Hx. apply lookup_seqZ in Hx as [-> Hi]. rewrite fn_lookup_insert_ne; [done|]. unfold n in *. Z.div_mod_to_equations. lia.
    + rewrite seqZ_cons by lia. replace (Z.pred 1) with 0 by lia. cbn [seqZ fmap list_fmap]. change (seqZ (Z.succ (0 + n)) 0) with (@nil Z). cbn [fmap list_fmap].
      replace ((r_tail r + (0 + n)) mod 256) with (r_head r) by (unfold n; Z.div_mod_to_equations; lia). by rewrite fn_lookup_insert.
Qed.

Lemma ring_get_spec r : ring_ok r ->
  match ring_get r with
  | Some (c, r') => pending r = c :: pending r' /\ ring_ok r'
  | None => pending r = []
  end.
Proof.
  unfold ring_ok, ring_get, KBD_BUFFER_SIZE. intros [Hh Ht]. destruct (Z.eqb_spec (r_tail r) (r_head r)) as [E|E].
  - unfold pending. rewrite E, Z.sub_diag. done.
  - split; [|cbn; Z.div_mod_to_equations; lia]. unfold pending, KBD_BUFFER_SIZE. cbn [r_head r_tail cells].
    set (n := (r_head r - r_tail r) mod 256). assert (0 < n) by (unfold n; Z.div_mod_to_equations; lia).
    replace ((r_head r - (r_tail r + 1) mod 256) mod 256) with (Z.pred n) by (unfold n; Z.div_mod_to_equations; lia).
    rewrite seqZ_cons by lia. rewrite fmap_cons. f_equal; [rewrite Z.add_0_r, Z.mod_small by lia; done|].
    replace (Z.succ 0) with (1 + 0) by lia. rewrite <- fmap_add_seqZ, <- list_fmap_compose. apply list_fmap_ext. intros i x _. cbn.
    f_equal. rewrite Zplus_mod_idemp_l. f_equal. lia.
Qed.

(** * Typing and reading *)

(** A byte arrives from the keyboard and its interrupt is handled. *)
Definition irq (b : Z) (ks : kbd * kst) : kbd * kst := keyboard_irq_handler (set_i8042 [(false, b)] (fst ks)) (snd ks).
Fixpoint irqs (l : list Z) (ks : kbd * kst) : kbd * kst := match l with [] => ks | b :: l' => irqs l' (irq b ks) end.
Fixpoint polls (n : nat) (k : kbd) : list Z * kbd :=
  match n with O => ([], k) | S n' => let '(c, k1) := getchar_poll k in let '(l, k2) := polls n' k1 in (c :: l, k2) end.

(** Nothing is ready but what the ring holds. *)
Definition quiet_devices (k : kbd) : Prop := i8042 k = [] /\ serial_in k = [].
(** The character a byte adds to the ring, if any. *)
Definition typed (b : Z) (k : kbd) : option Z :=
  let '(c, k) := scancode_to_ascii b k in
  if negb (truthy c) then None
  else if ctrl_pressed k && ((c =? 99) || (c =? 67) || (c =? 122) || (c =? 90)) then None
  else Some (if ctrl_pressed k && (is_lower c || is_upper c) then control_char c else c).

Lemma scancode_frame sc k :
  let k' := (scancode_to_ascii sc k).2 in
  kbd_buffer k' = kbd_buffer k /\ i8042 k' = i8042 k /\ serial_in k' = serial_in k /\ keyboard_layout k' = keyboard_layout k.
Proof. unfold scancode_to_ascii, put_keycode. repeat case_match; done. Qed.

(** The scan code machine does not look at the devices. *)
Lemma scancode_device sc k l : scancode_to_ascii sc (set_i8042 l k) = ((scancode_to_ascii sc k).1, set_i8042 l (scancode_to_ascii sc k).2).
Proof. unfold scancode_to_ascii, put_keycode. cbn. repeat case_match; done. Qed.

Lemma irq_spec b k s : quiet_devices k ->
  let k' := (irq b (k, s)).1 in
  quiet_devices k' /\ kbd_buffer k' = (match typed b k with Some c => ring_put c (kbd_buffer k) | None => kbd_buffer k end).
Proof.
  intros [Hd Hs]. unfold irq, keyboard_irq_handler, typed. cbn [fst snd]. cbn [i8042 set_i8042].
  change (set_i8042 [] (set_i8042 [(false, b)] k)) with (set_i8042 [] k). rewrite scancode_device.
  pose proof (scancode_frame b k) as (F1 & F2 & F3 & _). destruct (scancode_to_ascii b k) as [c k1]. cbn [fst snd] in *.
  assert (quiet_devices (set_i8042 [] k1)) as Hq by (split; [done|cbn; congruence]).
  destruct (negb (truthy c)); [by split|]. cbn [ctrl_pressed set_i8042].
  destruct (ctrl_pressed k1); cbn [andb].
  - destruct (c =? 99), (c =? 67), (c =? 122), (c =? 90); cbn [orb]; try (by split); cbn; (split; [exact Hq|by rewrite F1]).
  - cbn. split; [exact Hq|by rewrite F1].
Qed.

Lemma poll_spec k : quiet_devices k -> ring_ok (kbd_buffer k) ->
  let '(c, k') := getchar_poll k in
  quiet_devices k' /\ ring_ok (kbd_buffer k') /\
  match pending (kbd_buffer k) with [] => c = 0 /\ k' = k | x :: l => c = x /\ pending (kbd_buffer k') = l end.
Proof.
  intros [Hd Hs] Hr. unfold getchar_poll. pose proof (ring_get_spec _ Hr) as Hg. destruct (ring_get (kbd_buffer k)) as [[c r]|].
  - destruct Hg as [E Hr']. rewrite E. done.
  - unfold kbd_poll_direct, serial_getchar_nonblock. rewrite Hd, Hs, Hg. done.
Qed.

(** What happens at the keyboard and in the kernel. *)
Inductive kbd_event := Arrives (b : Z) | Read.

(** Events run on the driver: the characters read, and the state after. *)
Fixpoint run_kbd (l : list kbd_event) (k : kbd) (s : kst) : list Z * kbd :=
  match l with
  | [] => ([], k)
  | Arrives b :: l' => let '(k', s') := irq b (k, s) in run_kbd l' k' s'
  | Read :: l' => let '(c, k') := getchar_poll k in let '(out, k2) := run_kbd l' k' s in ((if truthy c then [c] else []) ++ out, k2)
  end.

(** The characters that are queued: typed while fewer than 255 wait. *)
Fixpoint accepted (l : list kbd_event) (k : kbd) (s : kst) : list Z :=
  match l with
  | [] => []
  | Arrives b :: l' =>
      let '(k', s') := irq b (k, s) in
      match typed b k with
      | Some c => if len (pending (kbd_buffer k)) <? KBD_BUFFER_SIZE - 1 then c :: accepted l' k' s' else accepted l' k' s'
      | None => accepted l' k' s'
      end
  | Read :: l' => accepted l' (getchar_poll k).2 s
  end.

Lemma typed_nonzero b k c : typed b k = Some c -> truthy c = true.
Proof.
  unfold typed. destruct (scancode_to_ascii b k) as [c' k']. destruct (truthy c') eqn:E; [|done]. cbn [negb]. destruct (_ && _); [done|].
  intros [= <-]. destruct (ctrl_pressed k'); cbn [andb]; [|done]. destruct (is_lower c' || is_upper c') eqn:El; [|done]. cbn.
  assert (exists n, c' = Z.of_nat n /\ (65 <= n <= 122)%nat) as (n & -> & Hn).
  { exists (Z.to_nat c'). unfold is_lower, is_upper in El. apply orb_prop in El as [El|El]; bool_prop; lia. }
  clear E. do 123 (destruct n as [|n]; [try lia; try (vm_compute; reflexivity); vm_compute in El; done|]). lia.
Qed.

(** The keyboard's characters are read in the order in which they were typed.  Whatever
    bytes arrive between whatever reads, what the reader has got, followed by what still
    waits, is what waited before, followed by the characters that were queued; and a character
    is left out only when 255 are waiting. *)
Theorem keyboard_fifo l k s :
  quiet_devices k -> ring_ok (kbd_buffer k) -> Forall (fun c => truthy c = true) (pending (kbd_buffer k)) ->
  let '(out, k') := run_kbd l k s in out ++ pending (kbd_buffer k') = pending (kbd_buffer k) ++ accepted l k s /\ len (pending (kbd_buffer k')) <= KBD_BUFFER_SIZE - 1.
Proof.
  revert k s. induction l as [|e l IH]; intros k s Hq Hr Hnz; cbn [run_kbd accepted].
  - split; [by rewrite app_nil_r|]. rewrite length_pending. unfold KBD_BUFFER_SIZE. Z.div_mod_to_equations. lia.
  - destruct e as [b|].
    + pose proof (irq_spec b k s Hq) as [Hq' Hb]. destruct (irq b (k, s)) as [k' s']. cbn [fst] in *.
      destruct (typed b k) as [c|] eqn:Et.
      * destruct (ring_put_spec c (kbd_buffer k) Hr) as [Hr' Hp]. rewrite <- Hb in Hr', Hp.
        specialize (IH k' s' Hq' Hr'). rewrite Hp in IH. destruct (len (pending (kbd_buffer k)) <? KBD_BUFFER_SIZE - 1).
        -- destruct (run_kbd l k' s') as [out k2]. destruct IH as [E Hl].
           { apply Forall_app. split; [done|]. constructor; [by eapply typed_nonzero|constructor]. }
           split; [|done]. rewrite E. by rewrite <- app_assoc.
        -- destruct (run_kbd l k' s') as [out k2]. by apply IH.
      * specialize (IH k' s' Hq'). rewrite Hb in IH. destruct (run_kbd l k' s') as [out k2]. by apply IH.
    + pose proof (poll_spec k Hq Hr) as Hp. destruct (getchar_poll k) as [c k'] eqn:Eg. destruct Hp as (Hq' & Hr' & Hp). cbn [snd].
      specialize (IH k' s Hq' Hr'). destruct (pending (kbd_buffer k)) as [|x q] eqn:Eq.
      * destruct Hp as [-> ->]. rewrite Eq in IH. destruct (run_kbd l k s) as [out k2]. by apply IH.
      * destruct Hp as [-> Hp]. apply Forall_cons_iff in Hnz as [Hx Hnz]. rewrite Hp in IH. destruct (run_kbd l k' s) as [out k2].
        destruct (IH Hnz) as [E Hl]. rewrite Hx. split; [|done]. cbn [app]. by rewrite E.
Qed.

(** ** Every character of a layout can be typed *)

Definition layout_table (layout : Z) (shift : bool) : list Z :=
  if layout =? 0 then if shift then us_shift else us_normal else if shift then es_shift else es_normal.

(** The key of a character: its scan code, and whether Shift is held. *)
Definition find_key (layout c : Z) : option (bool * Z) :=
  match first_index (fun x => x =? c) (layout_table layout false) with
  | Some i => Some (false, Z.of_nat i)
  | None => match first_index (fun x => x =? c) (layout_table layout true) with Some i => Some (true, Z.of_nat i) | None => None end
  end.
Definition typeable (layout c : Z) : Prop := truthy c = true /\ is_Some (find_key layout c).

(** The bytes the keyboard sends when a character is typed: press and release, in Shift if need be. *)
Definition keystrokes (layout c : Z) : list Z :=
  match find_key layout c with
  | Some (false, sc) => [sc; sc + 0x80]
  | Some (true, sc) => [0x2A] ++ [sc; sc + 0x80] ++ [0xAA]
  | None => []
  end.

(** No key is held. *)
Definition at_rest (k : kbd) : Prop :=
  (shift_pressed k, altgr_pressed k, caps_lock k, ctrl_pressed k, e0_prefix k) = (false, false, false, false, false) /\ quiet_devices k.

(** Scan codes that are keys of the tables. *)
Definition plain (sc : Z) : bool :=
  (0 <? sc) && (sc <? 0x3A) && negb ((sc =? 0x2A) || (sc =? 0x36) || (sc =? 0x38) || (sc =? 0x1D)).

Lemma tables_plain t i : In t [us_normal; us_shift; es_normal; es_shift] -> truthy (nth i t 0) = true -> plain (Z.of_nat i) = true.
Proof.
  assert (forallb (fun t => forallb (fun i => implb (truthy (nth i t 0)) (plain (Z.of_nat i))) (seq 0 64)) [us_normal; us_shift; es_normal; es_shift] = true) as Hc
    by (vm_compute; reflexivity).
  assert (forallb (fun t : list Z => Nat.leb (length t) 64) [us_normal; us_shift; es_normal; es_shift] = true) as Hl by (vm_compute; reflexivity).
  rewrite forallb_forall in Hc, Hl. intros Ht Hi. specialize (Hc t Ht). specialize (Hl t Ht). rewrite forallb_forall in Hc. apply Nat.leb_le in Hl.
  destruct (Nat.lt_ge_cases i 64) as [Hlt|Hge]; [|by rewrite nth_overflow in Hi by lia].
  specialize (Hc i ltac:(apply in_seq; lia)). by rewrite Hi in Hc.
Qed.

Lemma plain_bits sc : plain sc = true -> sc .& 0x7F = sc /\ sc .& 0x80 = 0 /\ (sc + 0x80) .& 0x7F = sc /\ truthy ((sc + 0x80) .& 0x80) = true /\
  sc =? 0xE0 = false /\ sc + 0x80 =? 0xE0 = false /\ function_key sc = 0 /\ sc =? 0x2A = false /\ sc =? 0x36 = false /\ sc =? 0x3A = false /\ sc =? 0x38 = false /\ sc =? 0x1D = false.
Proof.
  intros H. assert (exists n, sc = Z.of_nat n /\ (n < 58)%nat) as (n & -> & Hn).
  { exists (Z.to_nat sc). unfold plain in H. bool_prop. lia. }
  do 58 (destruct n as [|n]; [try (vm_compute in H; discriminate); vm_compute; by repeat split|]). lia.
Qed.

Lemma scancode_plain sc k : plain sc = true -> e0_prefix k = false -> altgr_pressed k = false -> caps_lock k = false ->
  scancode_to_ascii sc k = (key (layout_table (keyboard_layout k) (shift_pressed k)) sc, k) /\ scancode_to_ascii (sc + 0x80) k = (0, k).
Proof.
  intros H He Ha Hc. destruct (plain_bits sc H) as (B1 & B2 & B3 & B4 & N1 & N2 & Nf & N3 & N4 & N5 & N6 & N7).
  unfold scancode_to_ascii. rewrite N1, N2, B1, B2, B3, B4, He, N3, N4, N5, N6, N7, Nf, Ha, Hc. unfold layout_table. cbn.
  by destruct (keyboard_layout k =? 0), (shift_pressed k).
Qed.

(** A key pressed and released types its character. *)
Lemma key_stroke sc c k s :
  quiet_devices k -> plain sc = true -> (altgr_pressed k, caps_lock k, ctrl_pressed k, e0_prefix k) = (false, false, false, false) ->
  key (layout_table (keyboard_layout k) (shift_pressed k)) sc = c -> truthy c = true ->
  exists s', irqs [sc; sc + 0x80] (k, s) = (set_buffer (ring_put c (kbd_buffer k)) k, s').
Proof.
  intros [Hd Hs] Hp [= Ha Hc Hctrl He] Hk Ht. destruct (scancode_plain sc k Hp He Ha Hc) as [E1 E2]. rewrite Hk in E1.
  unfold irqs, irq, keyboard_irq_handler. cbn [fst snd i8042 set_i8042].
  change (set_i8042 [] (set_i8042 [(false, sc)] k)) with (set_i8042 [] k). rewrite (scancode_device sc k), E1. cbn [fst snd]. rewrite Ht. cbn [negb ctrl_pressed set_i8042]. rewrite Hctrl. cbn [andb].
  cbn [fst snd i8042 set_i8042]. set (k1 := set_buffer _ _).
  assert (scancode_to_ascii (sc + 128) (set_i8042 [] (set_i8042 [(false, sc + 128)] k1)) = (0, set_i8042 [] k1)) as ->.
  { change (set_i8042 [] (set_i8042 [(false, sc + 128)] k1)) with (set_i8042 [] k1). rewrite scancode_device.
    destruct (scancode_plain sc k1 Hp He Ha Hc) as [_ ->]. done. }
  exists s. cbn [truthy Z.eqb negb]. f_equal. unfold k1, set_buffer, set_i8042. cbn. by rewrite Hd.
Qed.

Lemma shift_stroke b (v : bool) k s : quiet_devices k -> e0_prefix k = false -> (b, v) = (0x2A, true) \/ (b, v) = (0xAA, false) ->
  irq b (k, s) = (set_shift v k, s).
Proof.
  intros [Hd Hs] He Hb. unfold irq, keyboard_irq_handler. cbn [fst snd i8042 set_i8042].
  change (set_i8042 [] (set_i8042 [(false, b)] k)) with (set_i8042 [] k). unfold scancode_to_ascii. cbn [e0_prefix set_i8042]. rewrite He.
  destruct Hb as [[= -> ->]|[= -> ->]]; cbn; f_equal; unfold set_shift, set_i8042; cbn; by rewrite Hd.
Qed.

Lemma first_index_key c t i : first_index (fun x => x =? c) t = Some i -> nth i t 0 = c.
Proof.
  revert i. induction t as [|x t IH]; intros i; cbn [first_index]; [done|]. destruct (Z.eqb_spec x c) as [->|]; [by intros [= <-]|].
  destruct (first_index _ t) as [j|]; [|done]. intros [= <-]. by apply IH.
Qed.

Lemma find_key_spec layout c shift sc : find_key layout c = Some (shift, sc) -> truthy c = true ->
  plain sc = true /\ key (layout_table layout shift) sc = c.
Proof.
  intros H Ht. assert (In (layout_table layout shift) [us_normal; us_shift; es_normal; es_shift]) as Hin
    by (unfold layout_table; destruct (layout =? 0), shift; cbn; tauto).
  assert (exists i, sc = Z.of_nat i /\ nth i (layout_table layout shift) 0 = c) as (i & -> & E).
  { unfold find_key in H. destruct (first_index _ (layout_table layout false)) as [i|] eqn:E1.
    - injection H as <- <-. exists i. split; [done|by apply first_index_key].
    - destruct (first_index _ (layout_table layout true)) as [i|] eqn:E2; [|done]. injection H as <- <-. exists i. split; [done|by apply first_index_key]. }
  split; [eapply tables_plain; [exact Hin|by rewrite E]|]. unfold key. by rewrite Nat2Z.id.
Qed.

Lemma irqs_app a b x : irqs (a ++ b) x = irqs b (irqs a x).
Proof. revert x. induction a as [|y a IH]; intros x; cbn; [done|apply IH]. Qed.

Lemma irqs_one b x : irqs [b] x = irq b x.
Proof. done. Qed.

(** Typing a character leaves the keyboard at rest and queues the character. *)
Lemma type_character layout c k s : at_rest k -> keyboard_layout k = layout -> typeable layout c ->
  exists s', irqs (keystrokes layout c) (k, s) = (set_buffer (ring_put c (kbd_buffer k)) k, s').
Proof.
  intros [[= R1 R2 R3 R4 R5] Hq] Hl [Ht [[shift sc] Hf]]. unfold keystrokes. rewrite Hf. destruct (find_key_spec _ _ _ _ Hf Ht) as [Hp Hk]. destruct shift.
  - rewrite !irqs_app, !irqs_one, (shift_stroke _ true) by auto.
    destruct (key_stroke sc c (set_shift true k) s) as [s' ->]; [done|done|cbn [set_shift altgr_pressed caps_lock ctrl_pressed e0_prefix]; congruence|cbn [set_shift keyboard_layout shift_pressed]; by rewrite Hl|done|].
    exists s'. rewrite (shift_stroke _ false) by auto. f_equal. unfold set_shift, set_buffer. cbn [shift_pressed altgr_pressed caps_lock ctrl_pressed alt_pressed e0_prefix kbd_buffer kbd_keycodes keyboard_layout i8042 serial_in]. by rewrite R1.
  - apply key_stroke; [done|done|congruence|by rewrite Hl, R1|done].
Qed.

(** The bytes of a text typed on the keyboard. *)
Definition typing (layout : Z) (s : list Z) : list Z := concat (map (keystrokes layout) s).

Lemma type_text layout t : forall k s, at_rest k -> keyboard_layout k = layout -> Forall (typeable layout) t -> ring_ok (kbd_buffer k) ->
  len (pending (kbd_buffer k)) + len t <= KBD_BUFFER_SIZE - 1 ->
  let k' := (irqs (typing layout t) (k, s)).1 in at_rest k' /\ ring_ok (kbd_buffer k') /\ pending (kbd_buffer k') = pending (kbd_buffer k) ++ t.
Proof.
  induction t as [|c t IH]; intros k s Hr Hl Ht Hok Hroom; [by rewrite app_nil_r|]. apply Forall_cons_iff in Ht as [Hc Ht]. cbn [length] in Hroom.
  unfold typing. cbn [map concat]. rewrite irqs_app. destruct (type_character layout c k s Hr Hl Hc) as [s' ->].
  destruct (ring_put_spec c (kbd_buffer k) Hok) as [Hok' Hp]. destruct (Z.ltb_spec (len (pending (kbd_buffer k))) (KBD_BUFFER_SIZE - 1)); [|lia].
  destruct (IH (set_buffer (ring_put c (kbd_buffer k)) k) s') as (A & B & Hpend).
  - exact Hr.
  - done.
  - done.
  - exact Hok'.
  - cbn [kbd_buffer set_buffer]. rewrite Hp, length_app. cbn [length]. lia.
  - split_and!; [done|done|]. unfold typing in *. rewrite Hpend. cbn [kbd_buffer set_buffer]. by rewrite Hp, <- app_assoc.
Qed.

Lemma polls_spec n : forall k, quiet_devices k -> ring_ok (kbd_buffer k) -> (n <= length (pending (kbd_buffer k)))%nat ->
  (polls n k).1 = take n (pending (kbd_buffer k)).
Proof.
  induction n as [|n IH]; intros k Hq Hr Hn; cbn [polls]; [done|]. pose proof (poll_spec k Hq Hr) as Hp. destruct (getchar_poll k) as [c k1].
  destruct Hp as (Hq1 & Hr1 & Hp). destruct (pending (kbd_buffer k)) as [|x l]; cbn [length] in Hn; [lia|]. destruct Hp as [-> Hp].
  specialize (IH k1 Hq1 Hr1). rewrite Hp in IH. destruct (polls n k1) as [l' k2]. cbn in *. f_equal. apply IH. lia.
Qed.

(** What is typed is what is read.  In either layout, the bytes a keyboard sends for a text
    of the layout's characters — each key pressed and released, with Shift held around the
    characters of the shifted table — make the driver queue exactly that text, and the reader
    gets it back; nothing of the driver but the ring changes. *)
Theorem keyboard_types_back t k s :
  at_rest k -> ring_ok (kbd_buffer k) -> pending (kbd_buffer k) = [] -> Forall (typeable (keyboard_layout k)) t -> len t <= KBD_BUFFER_SIZE - 1 ->
  let k' := (irqs (typing (keyboard_layout k) t) (k, s)).1 in (polls (length t) k').1 = t /\ at_rest k'.
Proof.
  intros Hr Hok Hp Ht Hl. destruct (type_text (keyboard_layout k) t k s Hr eq_refl Ht Hok) as (A & B & E); [rewrite Hp; cbn; lia|].
  rewrite Hp in E. cbn [app] in E. split; [|done]. rewrite polls_spec; [|apply A|done|by rewrite E]. rewrite E. by apply firstn_all.
Qed.

(** * What the driver does not do *)

(** Caps Lock is a second Shift: it gives a digit the shifted key and does not undo Shift. *)
Lemma caps_lock_shifts_digits k : e0_prefix k = false -> keyboard_layout k = 0 -> caps_lock k = true ->
  (scancode_to_ascii 2 k).1 = char "!" /\ forall v, (scancode_to_ascii 0x1E (set_shift v k)).1 = char "A".
Proof.
  intros He Hl Hc. unfold scancode_to_ascii. cbn [e0_prefix set_shift]. rewrite He. cbn. rewrite Hl, Hc, orb_true_r. split; [done|]. intros v. cbn. by rewrite orb_true_r.
Qed.

(** A byte of the mouse is decoded as a scan code by a reader. *)
Lemma mouse_byte_is_a_key k : e0_prefix k = false -> keyboard_layout k = 0 -> shift_pressed k = false -> caps_lock k = false ->
  ring_get (kbd_buffer k) = None -> i8042 k = [(true, 0x1E)] -> (getchar_poll k).1 = char "a".
Proof.
  intros He Hl Hs Hc Hr Hd. unfold getchar_poll, kbd_poll_direct. rewrite Hr, Hd. unfold scancode_to_ascii. cbn. rewrite He. cbn. by rewrite Hl, Hs, Hc.
Qed.

(** A reader that takes the scan code before the interrupt handler gets the letter: no SIGINT is sent. *)
Lemma polled_ctrl_c_is_a_letter k : e0_prefix k = false -> keyboard_layout k = 0 -> shift_pressed k = false -> caps_lock k = false ->
  ctrl_pressed k = true -> ring_get (kbd_buffer k) = None -> i8042 k = [(false, 0x2E)] ->
  (getchar_poll k).1 = char "c" /\ forall s, (keyboard_irq_handler (getchar_poll k).2 s).2 = s.
Proof.
  intros He Hl Hs Hc Hctrl Hr Hd. unfold getchar_poll, kbd_poll_direct, keyboard_irq_handler. rewrite Hr, Hd. unfold scancode_to_ascii. cbn. rewrite He. cbn. rewrite Hl, Hs, Hc.
  split; done.
Qed.

(** * Witnesses *)

Definition demo_kst : kst := start_kst ∅ [] PageTables.demo_vm0.
Definition demo_kbd : kbd := Kbd false false false false false false empty_ring empty_ring 1 [] [].

Lemma keyboard_fifo_witness :
  let l := [Arrives 0x1E; Arrives 0x9E; Read; Arrives 0x1D; Arrives 0x18; Read; Read] in
  let '(out, k') := run_kbd l demo_kbd demo_kst in out ++ pending (kbd_buffer k') = pending empty_ring ++ accepted l demo_kbd demo_kst /\ len (pending (kbd_buffer k')) <= KBD_BUFFER_SIZE - 1.
Proof. apply (keyboard_fifo _ demo_kbd); [by split|by vm_compute|constructor]. Defined.

Lemma keyboard_types_back_witness :
  let t := chars "Nyx/OS: 3 < 4" in let k' := (irqs (typing 1 t) (demo_kbd, demo_kst)).1 in (polls (length t) k').1 = t /\ at_rest k'.
Proof.
  apply (keyboard_types_back (chars "Nyx/OS: 3 < 4") demo_kbd demo_kst); [by split|by vm_compute|done| |by vm_compute].
  cbn [demo_kbd keyboard_layout]. unfold chars. cbn. repeat constructor; try (vm_compute; reflexivity); vm_compute; eauto.
Defined.
