(* ===== verification/Ext2.v ===== *)
(** The ext2 driver, kernel/ext2.c: data and operations.

    The disk is a finite map from sectors to their 512 bytes, reached through
    ata_read_sectors and ata_write_sectors of kernel/ata.c with the 28-bit address the
    driver programs.  The five block buffers of the driver are part of the state and are
    named by their number, so that two uses of one buffer alias as they do in the code.
    A load or store outside a buffer, or through a buffer that could not be allocated,
    has no result ([None]), and so has a loop that would run out of its bound: a theorem
    that an operation returns is a theorem that it stays inside its memory and ends.
    Packed structures are lists of bytes (see Packed.v). *)
From Stdlib Require Import ZArith Lia.
From S2P Require Import Prelude Packed.

(** * State *)

Definition EXT2_SUPER_MAGIC : Z := 0xEF53.
Definition EXT2_ROOT_INO : Z := 2.
Definition EXT2_S_IFREG : Z := 0x8000.
Definition EXT2_S_IFDIR : Z := 0x4000.
Definition EXT2_FT_REG_FILE : Z := 1.
Definition EXT2_FT_DIR : Z := 2.
Definition EXT2_DIRENT_HDR : Z := 8.
Definition MAX_FILENAME : Z := 128.
Definition MAX_PATH : Z := 256.

Record ext2_fs_t := Ext2Fs {
  drive : Z; part_start_lba : Z; sb : list Z; block_size : Z; inodes_per_group : Z;
  blocks_per_group : Z; bgd_blocks : Z; bgd_block : Z; inode_size : Z }.

Record rtc_time_t := RtcTime {
  t_year : Z; t_month : Z; t_day : Z; t_hour : Z; t_minute : Z; t_second : Z }.

Record est := Est {
  fs : ext2_fs_t;
  bufs : list (option (list Z));     (* ext2_bufs[5]; ext2_buf_sizes[n] is the length *)
  kallocs : nat;                     (* calls of kmalloc so far *)
  dsk : gmap (Z * Z) (list Z);       (* drive, sector -> 512 bytes *)
  rtc : rtc_time_t }.

Definition with_fs (f : ext2_fs_t) (s : est) : est := Est f (bufs s) (kallocs s) (dsk s) (rtc s).
Definition with_bufs (b : list (option (list Z))) (s : est) : est := Est (fs s) b (kallocs s) (dsk s) (rtc s).
Definition with_dsk (d : gmap (Z * Z) (list Z)) (s : est) : est := Est (fs s) (bufs s) (kallocs s) d (rtc s).
Definition with_sb (b : list Z) (s : est) : est :=
  let f := fs s in
  with_fs (Ext2Fs (drive f) (part_start_lba f) b (block_size f) (inodes_per_group f) (blocks_per_group f)
             (bgd_blocks f) (bgd_block f) (inode_size f)) s.

(** Fields of the packed structures of ext2.h. *)
Definition sb_total_blocks := fld 4 4.
Definition sb_free_blocks := fld 4 12.
Definition sb_free_inodes := fld 4 16.
Definition sb_first_data_block := fld 4 20.
Definition sb_log_block_size := fld 4 24.
Definition sb_blocks_per_group := fld 4 32.
Definition sb_inodes_per_group := fld 4 40.
Definition sb_magic := fld 2 56.
Definition sb_inode_size := fld 2 88.
Definition set_sb_free_blocks := set_fld 4 12.
Definition set_sb_free_inodes := set_fld 4 16.

Definition SIZEOF_BGD : Z := 32.
Definition b_block_bitmap := fld 4 0.
Definition b_inode_bitmap := fld 4 4.
Definition b_inode_table := fld 4 8.
Definition b_free_blocks_count := fld 2 12.
Definition b_free_inodes_count := fld 2 14.
Definition b_used_dirs_count := fld 2 16.
Definition set_b_free_blocks_count := set_fld 2 12.
Definition set_b_free_inodes_count := set_fld 2 14.
Definition set_b_used_dirs_count := set_fld 2 16.

Definition SIZEOF_INODE : Z := 128.
Definition i_mode := fld 2 0.
Definition i_size := fld 4 4.
Definition i_links_count := fld 2 26.
Definition i_block (i : Z) := fld 4 (40 + 4 * i).
Definition set_i_mode := set_fld 2 0.
Definition set_i_size := set_fld 4 4.
Definition set_i_atime := set_fld 4 8.
Definition set_i_ctime := set_fld 4 12.
Definition set_i_mtime := set_fld 4 16.
Definition set_i_dtime := set_fld 4 20.
Definition set_i_links_count := set_fld 2 26.
Definition set_i_blocks_512 := set_fld 4 28.
Definition set_i_block (i : Z) := set_fld 4 (40 + 4 * i).

(** * Effects *)

Definition M (A : Type) : Type := est -> option (A * est).
Definition ret {A} (x : A) : M A := fun s => Some (x, s).
Definition bind {A B} (m : M A) (k : A -> M B) : M B :=
  fun s => match m s with Some (x, s') => k x s' | None => None end.
Definition crash {A} : M A := fun _ => None.
Definition get : M est := fun s => Some (s, s).
Definition modify (f : est -> est) : M unit := fun s => Some (tt, f s).

Declare Scope ext2_scope.
Delimit Scope ext2_scope with ext2.
Notation "'let*' x := m 'in' k" := (bind m (fun x => k)) (at level 200, x name, right associativity) : ext2_scope.
Notation "m ;; k" := (bind m (fun _ => k)) (at level 100, k at level 200, right associativity) : ext2_scope.
Open Scope ext2_scope.

(** ** Disk sectors *)

Definition SECTOR : Z := 512.
Definition sector (s : est) (lba : Z) : list Z :=
  match dsk s !! (drive (fs s), lba mod 2 ^ 28) with Some b => b | None => zero_bytes SECTOR end.

(** [ata_read_sectors] and [ata_write_sectors] of one sector on a drive that answers. *)
Definition ata_read_sector (lba : Z) (s : est) : list Z := sector s lba.
Definition ata_write_sector (lba : Z) (b : list Z) (s : est) : est :=
  with_dsk (<[(drive (fs s), lba mod 2 ^ 28) := b]> (dsk s)) s.

Definition read_sectors (lba : Z) (s : est) : list Z := ata_read_sector (u32 (part_start_lba (fs s) + lba)) s.
Definition write_sectors (lba : Z) (b : list Z) (s : est) : est :=
  ata_write_sector (u32 (part_start_lba (fs s) + lba)) b s.

Definition block_to_lba (f : ext2_fs_t) (block : Z) : Z := u32 (block * (block_size f / 512)).

(** ** Buffers *)

(** The kernel heap as the driver sees it: the contents of the [k]-th allocation, of [n]
    bytes, or no memory. *)
Class BlockHeap := {
  fresh_buf : nat -> Z -> option (list Z);
  fresh_buf_len : forall k n b, fresh_buf k n = Some b -> len b = n }.

Section Ext2.
Context `{BlockHeap}.

Definition get_buf_n (n : nat) : M bool := fun s =>
  let grow := let b := fresh_buf (kallocs s) (block_size (fs s)) in
              Some (bool_decide (is_Some b),
                    Est (fs s) (<[n := b]> (bufs s)) (S (kallocs s)) (dsk s) (rtc s)) in
  match bufs s !! n with
  | Some (Some b) => if block_size (fs s) <=? len b then Some (true, s) else grow
  | _ => grow
  end.

Definition get_block_buf : M bool := get_buf_n 0.
Definition get_bitmap_buf : M bool := get_buf_n 1.
Definition get_aux_buf : M bool := get_buf_n 2.
Definition get_aux2_buf : M bool := get_buf_n 3.
Definition get_meta_buf : M bool := get_buf_n 4.

(** Bytes [o, o + k) of buffer [n]; a little-endian field there; a store. *)
Definition load_bytes (n : nat) (o k : Z) : M (list Z) := fun s =>
  match bufs s !! n with
  | Some (Some b) => if (0 <=? o) && (0 <=? k) && (o + k <=? len b) then Some (slice o k b, s) else None
  | _ => None
  end.
Definition load (w : nat) (n : nat) (o : Z) : M Z :=
  let* b := load_bytes n o (Z.of_nat w) in ret (le_val b).
Definition store_bytes (n : nat) (o : Z) (v : list Z) : M unit := fun s =>
  match bufs s !! n with
  | Some (Some b) =>
      if (0 <=? o) && (o + len v <=? len b) then Some (tt, with_bufs (<[n := Some (splice o v b)]> (bufs s)) s) else None
  | _ => None
  end.
Definition store (w : nat) (n : nat) (o v : Z) : M unit := store_bytes n o (le_bytes w v).

(** ** Blocks *)

Definition sectors_of (f : ext2_fs_t) : list nat := seq 0 (Z.to_nat (block_size f / 512)).

(** The bytes the sector loop of ext2_read_block delivers, in order. *)
Definition block_bytes (s : est) (block : Z) : list Z :=
  concat (map (fun i => read_sectors (u32 (block_to_lba (fs s) block + Z.of_nat i)) s) (sectors_of (fs s))).

Definition ext2_read_block (block : Z) (n : nat) : M unit :=
  let* s := get in store_bytes n 0 (block_bytes s block).

Definition ext2_write_block (block : Z) (n : nat) : M unit :=
  let* s := get in
  let* b := load_bytes n 0 (block_size (fs s)) in
  modify (fun s => foldl (fun s i =>
            write_sectors (u32 (block_to_lba (fs s) block + Z.of_nat i)) (slice (Z.of_nat i * 512) 512 b) s)
          s (sectors_of (fs s))).

(** ** Time *)

Definition ext2_now (t : rtc_time_t) : Z :=
  if (t_year t <? 1970) || (t_month t <? 1) || (12 <? t_month t) then 0 else
  let m := t_month t in
  let d := if truthy (t_day t) then t_day t else 1 in
  let y := t_year t - b2z (m <=? 2) in
  let era := Z.quot (if 0 <=? y then y else y - 399) 400 in
  let yoe := u32 (y - era * 400) in
  let doy := u32 (u32 (153 * u32 (m + (if 2 <? m then u32 (-3) else 9)) + 2) / 5 + d - 1) in
  let doe := u32 (yoe * 365 + yoe / 4 - yoe / 100 + doy) in
  let days := era * 146097 + doe - 719468 in
  u32 (days * 86400 + t_hour t * 3600 + t_minute t * 60 + t_second t).

Definition now : M Z := let* s := get in ret (ext2_now (rtc s)).

(** ** Descriptors and inodes *)

Definition bgd_place (f : ext2_fs_t) (group : Z) : Z * Z :=
  let per := block_size f / SIZEOF_BGD in
  (u32 (bgd_block f + group / per), group mod per * SIZEOF_BGD).

Definition read_block_group_bgd (group : Z) : M (option (list Z)) :=
  let* s := get in
  let '(block, o) := bgd_place (fs s) group in
  let* ok := get_meta_buf in
  if negb ok then ret None else
  ext2_read_block block 4 ;;
  let* b := load_bytes 4 o SIZEOF_BGD in ret (Some b).

Definition write_bgd (group : Z) (bgd : list Z) : M unit :=
  let* s := get in
  let '(block, o) := bgd_place (fs s) group in
  let* ok := get_meta_buf in
  if negb ok then ret tt else
  ext2_read_block block 4 ;; store_bytes 4 o bgd ;; ext2_write_block block 4.

(** Where inode [ino] lies, given the descriptor of its group. *)
Definition inode_place (f : ext2_fs_t) (bgd : list Z) (ino : Z) : Z * Z :=
  let index := (ino - 1) mod inodes_per_group f in
  let per := block_size f / inode_size f in
  (u32 (b_inode_table bgd + index / per), index mod per * inode_size f).

Definition ext2_read_inode (ino : Z) : M (option (list Z)) :=
  if ino =? 0 then ret None else
  let* s := get in
  let* bgd := read_block_group_bgd ((ino - 1) / inodes_per_group (fs s)) in
  match bgd with
  | None => ret None
  | Some bgd =>
      let '(block, o) := inode_place (fs s) bgd ino in
      let* ok := get_meta_buf in
      if negb ok then ret None else
      ext2_read_block block 4 ;;
      let* b := load_bytes 4 o SIZEOF_INODE in ret (Some b)
  end.

Definition ext2_write_inode (ino : Z) (inode : list Z) : M Z :=
  if ino =? 0 then ret (-1) else
  let* s := get in
  let* bgd := read_block_group_bgd ((ino - 1) / inodes_per_group (fs s)) in
  match bgd with
  | None => ret (-1)
  | Some bgd =>
      let '(block, o) := inode_place (fs s) bgd ino in
      let* ok := get_block_buf in
      if negb ok then ret (-1) else
      ext2_read_block block 0 ;; store_bytes 0 o inode ;; ext2_write_block block 0 ;; ret 0
  end.

Definition bgd_adjust_dir_count (delta : Z) : M unit :=
  let* bgd := read_block_group_bgd 0 in
  match bgd with
  | None => ret tt
  | Some bgd =>
      let n := b_used_dirs_count bgd in
      write_bgd 0 (if 0 <? delta then set_b_used_dirs_count (u16 (n + 1)) bgd
                   else if 0 <? n then set_b_used_dirs_count (n - 1) bgd else bgd)
  end.

Definition ext2_sync_bgd (group : Z) : M Z :=
  let* bgd := read_block_group_bgd group in
  match bgd with
  | None => ret (-1)
  | Some bgd => write_bgd group bgd ;; ret 0
  end.

Definition ext2_sync_superblock : M Z :=
  modify (fun s => write_sectors 3 (slice 512 512 (sb (fs s))) (write_sectors 2 (slice 0 512 (sb (fs s))) s)) ;; ret 0.

(** ** Mounting *)

Definition init_ext2 : M unit := modify (with_bufs (replicate 5 None)).

(** The assignments of ext2_mount happen in order, and stay when a later check fails. *)
Definition ext2_mount (drv part_lba : Z) : M Z :=
  modify (fun s => let f := fs s in
    with_fs (Ext2Fs drv part_lba (sb f) (block_size f) (inodes_per_group f) (blocks_per_group f)
               (bgd_blocks f) (bgd_block f) (inode_size f)) s) ;;
  modify (fun s => with_sb (read_sectors 2 s ++ read_sectors 3 s) s) ;;
  let* s := get in
  let b := sb (fs s) in
  if negb (sb_magic b =? EXT2_SUPER_MAGIC) then ret (-1) else
  if 2 <? sb_log_block_size b then ret (-1) else
  let bs := 1024 << sb_log_block_size b in
  let isz := if truthy (sb_inode_size b) then sb_inode_size b else 128 in
  let ipg := sb_inodes_per_group b in
  let bpg := sb_blocks_per_group b in
  modify (fun s => let f := fs s in
    with_fs (Ext2Fs (drive f) (part_start_lba f) b bs ipg bpg (bgd_blocks f) (bgd_block f) isz) s) ;;
  if (ipg =? 0) || (bpg =? 0) then ret (-1) else
  if (isz <? SIZEOF_INODE) || (bs <? isz) then ret (-1) else
  if bs * 8 <? bpg then ret (-1) else
  if bs * 8 <? ipg then ret (-1) else
  let groups := u32 (sb_total_blocks b + bpg - 1) / bpg in
  let bgd_size := u32 (groups * SIZEOF_BGD) in
  modify (fun s => let f := fs s in
    with_fs (Ext2Fs (drive f) (part_start_lba f) b bs ipg bpg (u32 (bgd_size + bs - 1) / bs)
               (if bs =? 1024 then 2 else 1) isz) s) ;;
  ret 0.

(** ** Data blocks of an inode *)

Definition ext2_read_inode_block (inode : list Z) (iblock : Z) (n : nat) : M bool :=
  let* s := get in
  let ptrs := block_size (fs s) / 4 in
  if iblock <? 12 then
    if i_block iblock inode =? 0 then ret false else ext2_read_block (i_block iblock inode) n ;; ret true
  else if iblock - 12 <? ptrs then
    if i_block 12 inode =? 0 then ret false else
    get_aux_buf ;;
    ext2_read_block (i_block 12 inode) 2 ;;
    let* target := load 4 2 (4 * (iblock - 12)) in
    if target =? 0 then ret false else ext2_read_block target n ;; ret true
  else
    let ib := iblock - 12 - ptrs in
    if ib <? ptrs * ptrs then
      if i_block 13 inode =? 0 then ret false else
      get_aux_buf ;;
      ext2_read_block (i_block 13 inode) 2 ;;
      let* block_idx := load 4 2 (4 * (ib / ptrs)) in
      if block_idx =? 0 then ret false else
      get_aux2_buf ;;
      ext2_read_block block_idx 3 ;;
      let* target := load 4 3 (4 * (ib mod ptrs)) in
      if target =? 0 then ret false else ext2_read_block target n ;; ret true
    else ret false.

(** Bounds of the loops: one step per entry of a block, one per block a file can have. *)
Definition entry_fuel (f : ext2_fs_t) : nat := S (Z.to_nat (block_size f / 8)).
Definition block_fuel (f : ext2_fs_t) : nat :=
  let ptrs := block_size f / 4 in S (Z.to_nat (12 + ptrs + ptrs * ptrs)).

(** ** Path resolution *)

(** The part of a buffer up to its first NUL, as the string functions see it. *)
Fixpoint cstr (l : list Z) : list Z :=
  match l with [] => [] | x :: l' => if x =? 0 then [] else x :: cstr l' end.

Definition SLASH : Z := 47.
Definition DOT : Z := 46.

(** Characters up to the next slash: the component and the rest of the path; [None] when
    the component would not fit. *)
Fixpoint take_component (room : nat) (p : list Z) {struct p} : option (list Z * list Z) :=
  match p with
  | [] => Some ([], [])
  | c :: p' =>
      if c =? SLASH then Some ([], p) else
      match room with
      | O => None
      | S r => match take_component r p' with
               | Some (w, q) => Some (c :: w, q)
               | None => None
               end
      end
  end.

(** One block of a directory, from [off] on: the inode of the entry called [name]. *)
Fixpoint find_entry (fuel : nat) (off bytes_left : Z) (name : list Z) : M (option Z) :=
  match fuel with
  | O => crash
  | S fuel' =>
      let* s := get in
      let bs := block_size (fs s) in
      if negb ((off + EXT2_DIRENT_HDR <=? bs) && (off <? bytes_left)) then ret None else
      let* rec_len := load 2 0 (off + 4) in
      if rec_len <? EXT2_DIRENT_HDR then ret None else
      if bs <? off + rec_len then ret None else
      let* de_inode := load 4 0 off in
      if de_inode =? 0 then find_entry fuel' (off + rec_len) bytes_left name else
      let* name_len := load 1 0 (off + 6) in
      if bs <? off + EXT2_DIRENT_HDR + name_len then ret None else
      if MAX_FILENAME <=? name_len then find_entry fuel' (off + rec_len) bytes_left name else
      let* dname := load_bytes 0 (off + 8) name_len in
      if decide (cstr dname = name) then ret (Some de_inode)
      else find_entry fuel' (off + rec_len) bytes_left name
  end.

Fixpoint find_in_dir (fuel : nat) (dir_inode : list Z) (bytes_left iblock : Z) (name : list Z) : M (option Z) :=
  match fuel with
  | O => crash
  | S fuel' =>
      if bytes_left =? 0 then ret None else
      get_block_buf ;;
      let* ok := ext2_read_inode_block dir_inode iblock 0 in
      if negb ok then ret None else
      let* s := get in
      let* r := find_entry (entry_fuel (fs s)) 0 bytes_left name in
      match r with
      | Some i => ret (Some i)
      | None => find_in_dir fuel' dir_inode (u32 (bytes_left - block_size (fs s))) (iblock + 1) name
      end
  end.

(** The walk: [p] is what is left of the path, [cur_ino] where it stands; 0 is not found. *)
Fixpoint resolve_from (fuel : nat) (p : list Z) (cur_ino : Z) : M Z :=
  match fuel with
  | O => crash
  | S fuel' =>
      match p with
      | [] => ret cur_ino
      | _ =>
          match take_component (Z.to_nat (MAX_FILENAME - 1)) p with
          | None => ret 0
          | Some (component, q) =>
              let q := match q with c :: q' => if c =? SLASH then q' else q | [] => [] end in
              if decide (component = []) then resolve_from fuel' q cur_ino else
              let* dir_inode := ext2_read_inode cur_ino in
              match dir_inode with
              | None => ret 0
              | Some dir_inode =>
                  let* s := get in
                  let* found := find_in_dir (block_fuel (fs s)) dir_inode (i_size dir_inode) 0 component in
                  match found with
                  | None => ret 0
                  | Some ino => resolve_from fuel' q ino
                  end
              end
          end
      end
  end.

Definition resolve_path (path : list Z) : M Z :=
  match path with
  | c :: p =>
      if negb (c =? SLASH) then ret 0 else
      if decide (p = []) then ret EXT2_ROOT_INO else resolve_from (S (length p)) p EXT2_ROOT_INO
  | [] => ret 0
  end.

Definition ext2_resolve (path : list Z) : M Z := resolve_path path.

Definition ext2_get_size (path : list Z) : M Z :=
  let* ino := resolve_path path in
  if ino =? 0 then ret 0 else
  let* inode := ext2_read_inode ino in
  match inode with None => ret 0 | Some inode => ret (i_size inode) end.

(** ** Reading a file *)

(** The copy loop; [acc] is what the caller's buffer holds so far. *)
Fixpoint read_loop (fuel : nat) (inode : list Z) (remaining iblock : Z) (acc : list Z) : M (list Z) :=
  match fuel with
  | O => crash
  | S fuel' =>
      if remaining =? 0 then ret acc else
      get_block_buf ;;
      let* ok := ext2_read_inode_block inode iblock 0 in
      if negb ok then ret acc else
      let* s := get in
      let chunk := Z.min remaining (block_size (fs s)) in
      let* b := load_bytes 0 0 chunk in
      read_loop fuel' inode (remaining - chunk) (iblock + 1) (acc ++ b)
  end.

(** The bytes put into the caller's buffer, or [None] for -1. *)
Definition ext2_read_file (path : list Z) (maxlen : Z) : M (option (list Z)) :=
  let* ino := resolve_path path in
  if ino =? 0 then ret None else
  let* inode := ext2_read_inode ino in
  match inode with
  | None => ret None
  | Some inode =>
      if negb (truthy (i_mode inode .& EXT2_S_IFREG)) then ret None else
      let* s := get in
      let* data := read_loop (block_fuel (fs s)) inode (Z.min (i_size inode) maxlen) 0 [] in
      ret (Some data)
  end.

(** ** Allocation *)

Definition bit_of (b : list Z) (i : Z) : bool := truthy (fld 1 (i / 8) b .& (1 << (i mod 8))).

Definition find_free_bit (n : nat) (size_bits : Z) : M (option Z) :=
  let* b := load_bytes n 0 ((size_bits + 7) / 8) in
  ret (find_idx (Z.to_nat size_bits) 0 (fun i => negb (bit_of b i))).

Definition bit_to_block (f : ext2_fs_t) (bit : Z) : Z := u32 (sb_first_data_block (sb f) + bit).
Definition block_to_bit (f : ext2_fs_t) (block : Z) : Z := u32 (block - sb_first_data_block (sb f)).

(** [buf[bit / 8] |= 1 << (bit % 8)] and [buf[bit / 8] &= ~(1 << (bit % 8))]. *)
Definition mark_bit (n : nat) (bit : Z) : M unit :=
  let* b := load 1 n (bit / 8) in store 1 n (bit / 8) (b .| (1 << (bit mod 8))).
Definition clear_bit (n : nat) (bit : Z) : M unit :=
  let* b := load 1 n (bit / 8) in store 1 n (bit / 8) (b .& not32 (1 << (bit mod 8))).

Definition ext2_alloc_block : M Z :=
  let* bgd := read_block_group_bgd 0 in
  match bgd with
  | None => ret 0
  | Some bgd =>
      let* ok := get_bitmap_buf in
      if negb ok then ret 0 else
      ext2_read_block (b_block_bitmap bgd) 1 ;;
      let* s := get in
      let bs := block_size (fs s) in
      let* bit := find_free_bit 1 (Z.min (blocks_per_group (fs s)) (bs * 8)) in
      match bit with
      | None => ret 0
      | Some bit =>
          let block_num := bit_to_block (fs s) bit in
          if sb_total_blocks (sb (fs s)) <=? block_num then ret 0 else
          mark_bit 1 bit ;;
          ext2_write_block (b_block_bitmap bgd) 1 ;;
          write_bgd 0 (if 0 <? b_free_blocks_count bgd
                       then set_b_free_blocks_count (b_free_blocks_count bgd - 1) bgd else bgd) ;;
          modify (fun s => let b := sb (fs s) in
            if 0 <? sb_free_blocks b then with_sb (set_sb_free_blocks (sb_free_blocks b - 1) b) s else s) ;;
          store_bytes 1 0 (zero_bytes bs) ;;
          ext2_write_block block_num 1 ;;
          ret block_num
      end
  end.

Definition ext2_alloc_inode : M Z :=
  let* bgd := read_block_group_bgd 0 in
  match bgd with
  | None => ret 0
  | Some bgd =>
      let* ok := get_block_buf in
      if negb ok then ret 0 else
      ext2_read_block (b_inode_bitmap bgd) 0 ;;
      let* s := get in
      let* bit := find_free_bit 0 (Z.min (inodes_per_group (fs s)) (block_size (fs s) * 8)) in
      match bit with
      | None => ret 0
      | Some bit =>
          mark_bit 0 bit ;;
          ext2_write_block (b_inode_bitmap bgd) 0 ;;
          write_bgd 0 (if 0 <? b_free_inodes_count bgd
                       then set_b_free_inodes_count (b_free_inodes_count bgd - 1) bgd else bgd) ;;
          modify (fun s => let b := sb (fs s) in
            if 0 <? sb_free_inodes b then with_sb (set_sb_free_inodes (sb_free_inodes b - 1) b) s else s) ;;
          ret (bit + 1)
      end
  end.

(** ** Freeing *)

Definition ext2_free_block (block_num : Z) : M unit :=
  let* s := get in
  if block_num <? sb_first_data_block (sb (fs s)) then ret tt else
  let bit := block_to_bit (fs s) block_num in
  if block_size (fs s) * 8 <=? bit then ret tt else
  let* bgd := read_block_group_bgd 0 in
  match bgd with
  | None => ret tt
  | Some bgd =>
      let* ok := get_bitmap_buf in
      if negb ok then ret tt else
      ext2_read_block (b_block_bitmap bgd) 1 ;;
      let* byte := load 1 1 (bit / 8) in
      if truthy (byte .& (1 << (bit mod 8))) then
        clear_bit 1 bit ;;
        ext2_write_block (b_block_bitmap bgd) 1 ;;
        write_bgd 0 (set_b_free_blocks_count (u16 (b_free_blocks_count bgd + 1)) bgd) ;;
        modify (fun s => let b := sb (fs s) in with_sb (set_sb_free_blocks (u32 (sb_free_blocks b + 1)) b) s)
      else ret tt
  end.

(** [for (i = 0; i < n; i++) if (p[i]) body(p[i])], the array [p] lying in buffer [m] and
    read again at each step. *)
Fixpoint each_pointer (k : nat) (i : Z) (m : nat) (body : Z -> M unit) : M unit :=
  match k with
  | O => ret tt
  | S k' =>
      let* p := load 4 m (4 * i) in
      (if p =? 0 then ret tt else body p) ;;
      each_pointer k' (i + 1) m body
  end.

Fixpoint free_direct (k : nat) (i : Z) (inode : list Z) : M (list Z) :=
  match k with
  | O => ret inode
  | S k' =>
      if i_block i inode =? 0 then free_direct k' (i + 1) inode
      else ext2_free_block (i_block i inode) ;; free_direct k' (i + 1) (set_i_block i 0 inode)
  end.

Definition free_inode_blocks (inode : list Z) : M (list Z) :=
  let* s := get in
  let ptrs := Z.to_nat (block_size (fs s) / 4) in
  let* inode := free_direct 12 0 inode in
  let* inode :=
    (if i_block 12 inode =? 0 then ret inode else
     get_block_buf ;;
     ext2_read_block (i_block 12 inode) 0 ;;
     each_pointer ptrs 0 0 ext2_free_block ;;
     ext2_free_block (i_block 12 inode) ;;
     ret (set_i_block 12 0 inode)) in
  if i_block 13 inode =? 0 then ret inode else
  get_block_buf ;;
  ext2_read_block (i_block 13 inode) 0 ;;
  each_pointer ptrs 0 0 (fun d =>
    get_aux_buf ;;
    ext2_read_block d 2 ;;
    each_pointer ptrs 0 2 ext2_free_block ;;
    ext2_free_block d) ;;
  ext2_free_block (i_block 13 inode) ;;
  ret (set_i_block 13 0 inode).

(** The descriptor is read from the group of the inode and written to group 0. *)
Definition ext2_free_inode (ino : Z) : M unit :=
  if ino <? EXT2_ROOT_INO then ret tt else
  let* s := get in
  let index := (ino - 1) mod inodes_per_group (fs s) in
  let* bgd := read_block_group_bgd ((ino - 1) / inodes_per_group (fs s)) in
  match bgd with
  | None => ret tt
  | Some bgd =>
      let* ok := get_block_buf in
      if negb ok then ret tt else
      ext2_read_block (b_inode_bitmap bgd) 0 ;;
      let* byte := load 1 0 (index / 8) in
      if truthy (byte .& (1 << (index mod 8))) then
        clear_bit 0 index ;;
        ext2_write_block (b_inode_bitmap bgd) 0 ;;
        write_bgd 0 (set_b_free_inodes_count (u16 (b_free_inodes_count bgd + 1)) bgd) ;;
        modify (fun s => let b := sb (fs s) in with_sb (set_sb_free_inodes (u32 (sb_free_inodes b + 1)) b) s)
      else ret tt
  end.

(** ** Directory entries *)

Definition align4 (n : Z) : Z := u32 (n + 3) .& not32 3.

(** The stores that make the entry at [off], [room] bytes long in all, name [name]. *)
Definition put_entry (off room new_ino file_type : Z) (name : list Z) : M unit :=
  store 4 0 off new_ino ;;
  store 1 0 (off + 6) (len name) ;;
  store 1 0 (off + 7) file_type ;;
  store_bytes 0 (off + 8) (zero_bytes (room - EXT2_DIRENT_HDR)) ;;
  store_bytes 0 (off + 8) name.

(** One block: is there room for an entry?  If so it is made and the block written. *)
Fixpoint add_in_block (fuel : nat) (off block new_ino file_type : Z) (name : list Z) : M bool :=
  match fuel with
  | O => crash
  | S fuel' =>
      let entry_size := align4 (EXT2_DIRENT_HDR + len name) in
      let* s := get in
      let bs := block_size (fs s) in
      if negb (off + EXT2_DIRENT_HDR <=? bs) then ret false else
      let* rec_len := load 2 0 (off + 4) in
      if rec_len <? EXT2_DIRENT_HDR then ret false else
      if bs <? off + rec_len then ret false else
      let* de_name_len := load 1 0 (off + 6) in
      let* de_inode := load 4 0 off in
      if de_inode =? 0 then
        if entry_size <=? rec_len then
          put_entry off rec_len new_ino file_type name ;;
          ext2_write_block block 0 ;; ret true
        else add_in_block fuel' (off + rec_len) block new_ino file_type name
      else
        let min_size := align4 (EXT2_DIRENT_HDR + de_name_len) in
        if min_size + entry_size <=? rec_len then
          store 2 0 (off + 4) min_size ;;
          store 2 0 (off + min_size + 4) (rec_len - min_size) ;;
          put_entry (off + min_size) (rec_len - min_size) new_ino file_type name ;;
          ext2_write_block block 0 ;; ret true
        else add_in_block fuel' (off + rec_len) block new_ino file_type name
  end.

(** The block loop of add_dirent_to_parent: whether a place was found, and [iblock]. *)
Fixpoint add_in_blocks (fuel : nat) (iblock : Z) (parent_inode : list Z) (new_ino file_type : Z) (name : list Z)
  : M (bool * Z) :=
  match fuel with
  | O => crash
  | S fuel' =>
      let* s := get in
      if negb ((iblock <? 12) && (iblock * block_size (fs s) <? i_size parent_inode)) then ret (false, iblock) else
      if i_block iblock parent_inode =? 0 then ret (false, iblock) else
      ext2_read_block (i_block iblock parent_inode) 0 ;;
      let* found := add_in_block (entry_fuel (fs s)) 0 (i_block iblock parent_inode) new_ino file_type name in
      if found then ret (true, iblock)
      else add_in_blocks fuel' (iblock + 1) parent_inode new_ino file_type name
  end.

Definition add_dirent_to_parent (parent_ino : Z) (name : list Z) (new_ino file_type : Z) : M Z :=
  let* pi := ext2_read_inode parent_ino in
  match pi with
  | None => ret (-1)
  | Some parent_inode =>
      if negb (truthy (i_mode parent_inode .& EXT2_S_IFDIR)) then ret (-1) else
      if (len name =? 0) || (MAX_FILENAME <=? len name) then ret (-1) else
      let* ok := get_block_buf in
      if negb ok then ret (-1) else
      let* r := add_in_blocks 13 0 parent_inode new_ino file_type name in
      let '(found, iblock) := r in
      if found then ext2_write_inode parent_ino parent_inode ;; ret 0 else
      if 12 <=? iblock then ret (-1) else
      let* new_block := ext2_alloc_block in
      if new_block =? 0 then ret (-1) else
      let* s := get in
      let bs := block_size (fs s) in
      store_bytes 0 0 (zero_bytes bs) ;;
      store 4 0 0 new_ino ;;
      store 2 0 4 bs ;;
      store 1 0 6 (len name) ;;
      store 1 0 7 file_type ;;
      store_bytes 0 8 name ;;
      ext2_write_block new_block 0 ;;
      ext2_write_inode parent_ino
        (set_i_size (u32 (i_size parent_inode + bs)) (set_i_block iblock new_block parent_inode)) ;;
      ret 0
  end.

(** Position of the last slash, and the split of a path into parent and child. *)
Fixpoint last_slash (i : Z) (p : list Z) (found : Z) : Z :=
  match p with
  | [] => found
  | c :: p' => last_slash (i + 1) p' (if c =? SLASH then i else found)
  end.

Definition split_parent_child (path : list Z) (parent_sz child_sz : Z) : option (list Z * list Z) :=
  match path with
  | c :: _ =>
      if negb (c =? SLASH) then None else
      let ls := last_slash 0 path (-1) in
      if ls <? 0 then None else
      let clen := len path - ls - 1 in
      if (clen =? 0) || (child_sz <=? clen) then None else
      let child := slice (ls + 1) clen path in
      if ls =? 0 then Some ([SLASH], child) else
      if parent_sz <=? ls then None else Some (slice 0 ls path, child)
  | [] => None
  end.

Definition starts_with_slash (path : list Z) : bool :=
  match path with c :: _ => c =? SLASH | [] => false end.

(** ** Creating, writing *)

Definition ext2_create_file (path : list Z) : M Z :=
  if negb (starts_with_slash path) then ret (-1) else
  let* there := ext2_resolve path in
  if negb (there =? 0) then ret (-1) else
  match split_parent_child path MAX_PATH MAX_FILENAME with
  | None => ret (-1)
  | Some (parent_path, filename) =>
      let* parent_ino := ext2_resolve parent_path in
      if parent_ino =? 0 then ret (-1) else
      let* new_ino := ext2_alloc_inode in
      if new_ino =? 0 then ret (-1) else
      let* t := now in
      let new_inode := set_i_mtime t (set_i_ctime t (set_i_atime t (set_i_links_count 1
                         (set_i_mode (EXT2_S_IFREG .| 0x1A4) (zero_bytes SIZEOF_INODE))))) in
      let* r := ext2_write_inode new_ino new_inode in
      if r <? 0 then ext2_free_inode new_ino ;; ret (-1) else
      let* r := add_dirent_to_parent parent_ino filename new_ino EXT2_FT_REG_FILE in
      if r <? 0 then ext2_free_inode new_ino ;; ret (-1) else
      ext2_sync_superblock ;; ret 0
  end.

(** The block that holds data block [iblock], allocated when missing: the block number and
    the inode with the new pointer; [None] for the error returns. *)
Definition data_block (iblock : Z) (inode : list Z) : M (option (Z * list Z)) :=
  let* s := get in
  if iblock <? 12 then
    if i_block iblock inode =? 0 then
      let* b := ext2_alloc_block in
      if b =? 0 then ret None else ret (Some (b, set_i_block iblock b inode))
    else ret (Some (i_block iblock inode, inode))
  else
    let sind := iblock - 12 in
    if sind <? block_size (fs s) / 4 then
      let* inode :=
        (if i_block 12 inode =? 0 then
           let* b := ext2_alloc_block in
           if b =? 0 then ret None else ret (Some (set_i_block 12 b inode))
         else ret (Some inode)) in
      match inode with
      | None => ret None
      | Some inode =>
          get_aux_buf ;;
          ext2_read_block (i_block 12 inode) 2 ;;
          let* p := load 4 2 (4 * sind) in
          if p =? 0 then
            let* b := ext2_alloc_block in
            store 4 2 (4 * sind) b ;;
            if b =? 0 then ret None else
            ext2_write_block (i_block 12 inode) 2 ;;
            ret (Some (b, inode))
          else ret (Some (p, inode))
      end
    else ret None.

(** The write loop: the inode with its new pointers, or [None] for -1. *)
Fixpoint write_loop (fuel : nat) (data : list Z) (iblock : Z) (inode : list Z) : M (option (list Z)) :=
  match fuel with
  | O => crash
  | S fuel' =>
      if decide (data = []) then ret (Some inode) else
      let* s := get in
      let bs := block_size (fs s) in
      let chunk := Z.to_nat (Z.min (len data) bs) in
      let* ok := get_block_buf in
      if negb ok then ret None else
      store_bytes 0 0 (zero_bytes bs) ;;
      store_bytes 0 0 (take chunk data) ;;
      let* r := data_block iblock inode in
      match r with
      | None => ret None
      | Some (block_num, inode) =>
          ext2_write_block block_num 0 ;;
          write_loop fuel' (drop chunk data) (iblock + 1) inode
      end
  end.

Definition ext2_write_file (path : list Z) (data : list Z) : M Z :=
  let* ino := ext2_resolve path in
  let* ino :=
    (if ino =? 0 then
       let* r := ext2_create_file path in
       if r <? 0 then ret 0 else ext2_resolve path
     else ret ino) in
  if ino =? 0 then ret (-1) else
  let* inode := ext2_read_inode ino in
  match inode with
  | None => ret (-1)
  | Some inode =>
      if negb (truthy (i_mode inode .& EXT2_S_IFREG)) then ret (-1) else
      let* s := get in
      let bs := block_size (fs s) in
      let blocks_needed := u32 (len data + bs - 1) / bs in
      let* r := write_loop (S (length data)) data 0 inode in
      match r with
      | None => ret (-1)
      | Some inode =>
          let meta_blocks := if truthy (i_block 12 inode) then 1 else 0 in
          let* t := now in
          ext2_write_inode ino
            (set_i_mtime t (set_i_ctime t
              (set_i_blocks_512 (u32 ((blocks_needed + meta_blocks) * (bs / 512))) (set_i_size (len data) inode)))) ;;
          ext2_sync_superblock ;;
          ret (len data)
      end
  end.

(** ** Listing *)

Record dirent := Dirent { d_ino : Z; d_name : list Z; d_type : Z }.

Fixpoint list_block (fuel : nat) (off bytes_left max_entries : Z) (acc : list dirent) : M (list dirent) :=
  match fuel with
  | O => crash
  | S fuel' =>
      let* s := get in
      let bs := block_size (fs s) in
      if negb ((off + EXT2_DIRENT_HDR <=? bs) && (off <? bytes_left) && (len acc <? max_entries)) then ret acc else
      let* rec_len := load 2 0 (off + 4) in
      if rec_len <? EXT2_DIRENT_HDR then ret acc else
      if bs <? off + rec_len then ret acc else
      let* de_inode := load 4 0 off in
      if de_inode =? 0 then list_block fuel' (off + rec_len) bytes_left max_entries acc else
      let* nl := load 1 0 (off + 6) in
      let name_len := if MAX_FILENAME <=? nl then MAX_FILENAME - 1 else nl in
      if bs <? off + EXT2_DIRENT_HDR + name_len then ret acc else
      let* acc :=
        (if 0 <? name_len then
           let* name := load_bytes 0 (off + 8) name_len in
           let* ft := load 1 0 (off + 7) in
           ret (acc ++ [Dirent de_inode name (if ft =? EXT2_FT_DIR then 1 else 0)])
         else ret acc) in
      list_block fuel' (off + rec_len) bytes_left max_entries acc
  end.

Fixpoint list_blocks (fuel : nat) (inode : list Z) (bytes_left iblock max_entries : Z) (acc : list dirent)
  : M (list dirent) :=
  match fuel with
  | O => crash
  | S fuel' =>
      if negb (negb (bytes_left =? 0) && (len acc <? max_entries)) then ret acc else
      get_block_buf ;;
      let* ok := ext2_read_inode_block inode iblock 0 in
      if negb ok then ret acc else
      let* s := get in
      let* acc := list_block (entry_fuel (fs s)) 0 bytes_left max_entries acc in
      list_blocks fuel' inode (u32 (bytes_left - block_size (fs s))) (iblock + 1) max_entries acc
  end.

Definition ext2_readdir (path : list Z) (max_entries : Z) : M (option (list dirent)) :=
  let* ino := resolve_path path in
  if ino =? 0 then ret None else
  let* inode := ext2_read_inode ino in
  match inode with
  | None => ret None
  | Some inode =>
      if negb (truthy (i_mode inode .& EXT2_S_IFDIR)) then ret None else
      let* s := get in
      let* l := list_blocks (block_fuel (fs s)) inode (i_size inode) 0 max_entries [] in
      ret (Some l)
  end.

(** ** Directories *)

Definition ext2_mkdir (path : list Z) : M Z :=
  if negb (starts_with_slash path) then ret (-1) else
  let* there := ext2_resolve path in
  if negb (there =? 0) then ret (-1) else
  match split_parent_child path MAX_PATH MAX_FILENAME with
  | None => ret (-1)
  | Some (parent_path, dirname) =>
      let* parent_ino := ext2_resolve parent_path in
      if parent_ino =? 0 then ret (-1) else
      let* new_ino := ext2_alloc_inode in
      if new_ino =? 0 then ret (-1) else
      let* s := get in
      let bs := block_size (fs s) in
      let* t := now in
      let new_inode := set_i_mtime t (set_i_ctime t (set_i_atime t (set_i_blocks_512 (bs / 512)
                         (set_i_links_count 2 (set_i_size bs
                         (set_i_mode (EXT2_S_IFDIR .| 0x1FF) (zero_bytes SIZEOF_INODE))))))) in
      let* first_block := ext2_alloc_block in
      if first_block =? 0 then ext2_free_inode new_ino ;; ret (-1) else
      let new_inode := set_i_block 0 first_block new_inode in
      let* ok := get_block_buf in
      if negb ok then ext2_free_block first_block ;; ext2_free_inode new_ino ;; ret (-1) else
      store_bytes 0 0 (zero_bytes bs) ;;
      store 4 0 0 new_ino ;; store 2 0 4 12 ;; store 1 0 6 1 ;; store 1 0 7 EXT2_FT_DIR ;; store 1 0 8 DOT ;;
      store 4 0 12 parent_ino ;; store 2 0 16 (bs - 12) ;; store 1 0 18 2 ;; store 1 0 19 EXT2_FT_DIR ;;
      store 1 0 20 DOT ;; store 1 0 21 DOT ;;
      ext2_write_block first_block 0 ;;
      let* r := ext2_write_inode new_ino new_inode in
      if r <? 0 then ext2_free_block first_block ;; ext2_free_inode new_ino ;; ret (-1) else
      let* r := add_dirent_to_parent parent_ino dirname new_ino EXT2_FT_DIR in
      if r <? 0 then free_inode_blocks new_inode ;; ext2_free_inode new_ino ;; ret (-1) else
      let* pinode := ext2_read_inode parent_ino in
      (match pinode with
       | Some pinode =>
           ext2_write_inode parent_ino (set_i_links_count (u16 (i_links_count pinode + 1)) pinode) ;; ret tt
       | None => ret tt
       end) ;;
      bgd_adjust_dir_count 1 ;;
      ext2_sync_superblock ;;
      ret 0
  end.

(** ** Removal *)

(** Whether a block of a directory has an entry other than "." and "..". *)
Fixpoint busy_block (fuel : nat) (off bytes_left : Z) : M bool :=
  match fuel with
  | O => crash
  | S fuel' =>
      let* s := get in
      let bs := block_size (fs s) in
      if negb ((off + EXT2_DIRENT_HDR <=? bs) && (off <? bytes_left)) then ret false else
      let* rec_len := load 2 0 (off + 4) in
      if rec_len <? EXT2_DIRENT_HDR then ret false else
      if bs <? off + rec_len then ret false else
      let* nl := load 1 0 (off + 6) in
      if bs <? off + EXT2_DIRENT_HDR + nl then ret false else
      let* de_inode := load 4 0 off in
      let* name := load_bytes 0 (off + 8) nl in
      if negb (de_inode =? 0) && negb (bool_decide (name = [DOT])) && negb (bool_decide (name = [DOT; DOT]))
      then ret true
      else busy_block fuel' (off + rec_len) bytes_left
  end.

Fixpoint dir_busy (fuel : nat) (dir_inode : list Z) (bytes_left iblock : Z) : M bool :=
  match fuel with
  | O => crash
  | S fuel' =>
      if bytes_left =? 0 then ret false else
      get_block_buf ;;
      let* ok := ext2_read_inode_block dir_inode iblock 0 in
      if negb ok then ret false else
      let* s := get in
      let* busy := busy_block (entry_fuel (fs s)) 0 bytes_left in
      if bytes_left <? block_size (fs s) then ret busy else
      if busy then ret true else dir_busy fuel' dir_inode (bytes_left - block_size (fs s)) (iblock + 1)
  end.

(** One block of the parent: the entry called [name] is cleared and the block written. *)
Fixpoint remove_in_block (fuel : nat) (off bytes_left block : Z) (name : list Z) : M bool :=
  match fuel with
  | O => crash
  | S fuel' =>
      let* s := get in
      let bs := block_size (fs s) in
      if negb ((off + EXT2_DIRENT_HDR <=? bs) && (off <? bytes_left)) then ret false else
      let* rec_len := load 2 0 (off + 4) in
      if rec_len <? EXT2_DIRENT_HDR then ret false else
      if bs <? off + rec_len then ret false else
      let* de_name_len := load 1 0 (off + 6) in
      if bs <? off + EXT2_DIRENT_HDR + de_name_len then ret false else
      let* de_inode := load 4 0 off in
      if negb (de_inode =? 0) && (de_name_len =? len name) && (de_name_len <? MAX_FILENAME) then
        let* dname := load_bytes 0 (off + 8) de_name_len in
        if decide (cstr dname = name) then
          store 4 0 off 0 ;; ext2_write_block block 0 ;; ret true
        else remove_in_block fuel' (off + rec_len) bytes_left block name
      else remove_in_block fuel' (off + rec_len) bytes_left block name
  end.

Fixpoint remove_in_dir (fuel : nat) (parent_inode : list Z) (pbytes_left piblock : Z) (name : list Z) : M bool :=
  match fuel with
  | O => crash
  | S fuel' =>
      if negb ((negb (pbytes_left =? 0)) && (piblock <? 12)) then ret false else
      if i_block piblock parent_inode =? 0 then ret false else
      get_block_buf ;;
      let* ok := ext2_read_inode_block parent_inode piblock 0 in
      if negb ok then ret false else
      let* s := get in
      let* removed := remove_in_block (entry_fuel (fs s)) 0 pbytes_left (i_block piblock parent_inode) name in
      if pbytes_left <? block_size (fs s) then ret removed else
      if removed then ret true
      else remove_in_dir fuel' parent_inode (pbytes_left - block_size (fs s)) (piblock + 1) name
  end.

(** What unlink does with the inode once its name is gone. *)
Definition drop_link (ino : Z) (inode : list Z) : M unit :=
  if 0 <? i_links_count inode then
    let inode := set_i_links_count (i_links_count inode - 1) inode in
    if i_links_count inode =? 0 then
      let* inode := free_inode_blocks inode in
      let* t := now in
      ext2_write_inode ino (set_i_size 0 (set_i_dtime t inode)) ;;
      ext2_free_inode ino
    else ext2_write_inode ino inode ;; ret tt
  else ret tt.

Definition ext2_unlink (path : list Z) : M Z :=
  if negb (starts_with_slash path) then ret (-1) else
  let* ino := ext2_resolve path in
  if (ino =? 0) || (ino <? EXT2_ROOT_INO) then ret (-1) else
  let* inode := ext2_read_inode ino in
  match inode with
  | None => ret (-1)
  | Some inode =>
      let isdir := truthy (i_mode inode .& EXT2_S_IFDIR) in
      let* s := get in
      let* busy := (if isdir then dir_busy (block_fuel (fs s)) inode (i_size inode) 0 else ret false) in
      if busy then ret (-1) else
      match split_parent_child path MAX_PATH MAX_FILENAME with
      | None => ret (-1)
      | Some (parent_path, child_name) =>
          let* parent_ino := ext2_resolve parent_path in
          if parent_ino =? 0 then ret (-1) else
          let* parent_inode := ext2_read_inode parent_ino in
          match parent_inode with
          | None => ret (-1)
          | Some parent_inode =>
              let* removed := remove_in_dir 13 parent_inode (i_size parent_inode) 0 child_name in
              if negb removed then ret (-1) else
              let parent_inode := if isdir then set_i_links_count (u16 (i_links_count parent_inode - 1)) parent_inode
                                  else parent_inode in
              drop_link ino inode ;;
              ext2_write_inode parent_ino parent_inode ;;
              (if isdir then bgd_adjust_dir_count (-1) else ret tt) ;;
              ext2_sync_superblock ;;
              ret 0
          end
      end
  end.

End Ext2.

Arguments entry_fuel : simpl never.
Arguments block_fuel : simpl never.
Arguments fld : simpl never.
Arguments set_fld : simpl never.
