(* ===== verification/Ext2Safe.v ===== *)
(** The ext2 driver stays inside its buffers and ends, on any disk contents.

    [wp m Q s]: operation [m] from state [s] returns, and its result satisfies [Q].
    [ready g s]: the driver is mounted with geometry [g] and its five buffers are a block long;
    [lready g D s]: the buffers in [D] are there, the others may be missing or short. *)
From Stdlib Require Import ZArith Lia.
From S2P Require Import Prelude Packed Ext2.

Definition wp {A} (m : M A) (Q : A -> est -> Prop) (s : est) : Prop :=
  match m s with Some (r, s') => Q r s' | None => False end.

Lemma wp_bind {A B} (m : M A) (k : A -> M B) Q s :
  wp m (fun x s' => wp (k x) Q s') s -> wp (bind m k) Q s.
Proof. unfold wp, bind. by destruct (m s) as [[x s']|]. Qed.

Lemma wp_mono {A} (m : M A) (P Q : A -> est -> Prop) s :
  wp m P s -> (forall r s', P r s' -> Q r s') -> wp m Q s.
Proof. unfold wp. destruct (m s) as [[x s']|]; [|done]. intros HP HQ. by apply HQ. Qed.

Lemma wp_returns {A} (m : M A) Q s : wp m Q s -> exists r s', m s = Some (r, s') /\ Q r s'.
Proof. unfold wp. destruct (m s) as [[x s']|]; [|done]. by exists x, s'. Qed.

(** The geometry a mount accepts. *)
Record geometry (f : ext2_fs_t) : Prop := {
  geo_bs : block_size f = 1024 \/ block_size f = 2048 \/ block_size f = 4096;
  geo_ipg : 0 < inodes_per_group f <= block_size f * 8;
  geo_bpg : 0 < blocks_per_group f <= block_size f * 8;
  geo_isz : 128 <= inode_size f <= block_size f;
  geo_sb : length (sb f) = 1024%nat }.

(** Everything of the mounted file system but the superblock's contents. *)
Definition same_geo (f g : ext2_fs_t) : Prop :=
  drive f = drive g /\ part_start_lba f = part_start_lba g /\ block_size f = block_size g /\
  inodes_per_group f = inodes_per_group g /\ blocks_per_group f = blocks_per_group g /\
  bgd_block f = bgd_block g /\ inode_size f = inode_size g.

Definition disk_ok (d : gmap (Z * Z) (list Z)) : Prop := map_Forall (fun _ b => length b = 512%nat) d.

Definition sized (g : ext2_fs_t) (o : option (list Z)) : Prop := exists b, o = Some b /\ len b = block_size g.

Record ready (g : ext2_fs_t) (s : est) : Prop := {
  r_geo : geometry (fs s);
  r_same : same_geo (fs s) g;
  r_bufs : length (bufs s) = 5%nat;
  r_sized : Forall (sized g) (bufs s);
  r_disk : disk_ok (dsk s) }.

Lemma ready_bs g s : ready g s -> block_size (fs s) = block_size g.
Proof. intros H. by destruct (r_same _ _ H) as (_ & _ & H' & _). Qed.

Lemma ready_geo g s : ready g s -> block_size g = 1024 \/ block_size g = 2048 \/ block_size g = 4096.
Proof. intros H. rewrite <- (ready_bs g s H). apply (r_geo _ _ H). Qed.

Lemma ready_buf g s n : ready g s -> (n < 5)%nat -> exists b, bufs s !! n = Some (Some b) /\ len b = block_size g.
Proof.
  intros H Hn. destruct (lookup_lt_is_Some_2 (bufs s) n) as [o Ho]; [rewrite (r_bufs _ _ H); lia|].
  destruct (proj1 (Forall_lookup _ _) (r_sized _ _ H) n o Ho) as (b & -> & Hb). by exists b.
Qed.

Lemma ready_with_buf g s n b :
  ready g s -> len b = block_size g -> ready g (with_bufs (<[n := Some b]> (bufs s)) s).
Proof.
  intros H Hb. split; simpl; [apply H..| | |apply H].
  - rewrite length_insert. apply H.
  - apply Forall_insert; [apply H|]. by exists b.
Qed.

Lemma ready_with_dsk g s d : ready g s -> disk_ok d -> ready g (with_dsk d s).
Proof. intros H Hd. by split; simpl; try apply H. Qed.

Lemma ready_with_sb g s b : ready g s -> length b = 1024%nat -> ready g (with_sb b s).
Proof.
  intros H Hb. destruct (r_geo _ _ H). split; simpl; [|apply H..]. by split.
Qed.

Lemma disk_ok_insert d k b : disk_ok d -> length b = 512%nat -> disk_ok (<[k := b]> d).
Proof. intros. by apply map_Forall_insert_2. Qed.

Lemma length_sector s lba : disk_ok (dsk s) -> length (sector s lba) = 512%nat.
Proof.
  intros H. unfold sector. destruct (dsk s !! _) eqn:E; [|done]. by apply (H _ _ E).
Qed.

Lemma length_concat_map {A} (f : A -> list Z) l n :
  (forall x, length (f x) = n) -> length (concat (map f l)) = (length l * n)%nat.
Proof. intros H. induction l; simpl; [done|]. rewrite length_app, H, IHl. lia. Qed.

Lemma sectors_of_bs f : geometry f -> len (sectors_of f) * 512 = block_size f.
Proof.
  intros H. unfold sectors_of. rewrite length_seq.
  destruct (geo_bs f H) as [-> | [-> | ->]]; reflexivity.
Qed.

Lemma length_block_bytes g s b : ready g s -> len (block_bytes s b) = block_size g.
Proof.
  intros H. unfold block_bytes. rewrite (length_concat_map _ _ 512).
  - rewrite <- (ready_bs g s H), <- (sectors_of_bs (fs s)) by apply H. lia.
  - intros. apply length_sector, H.
Qed.

Section Safe.
Context `{BlockHeap}.
Implicit Types (g : ext2_fs_t) (s : est).

(** ** Rules for the primitive operations *)

Lemma wp_ret {A} (x : A) Q s : Q x s -> wp (ret x) Q s.
Proof. done. Qed.
Lemma wp_get Q s : Q s s -> wp get Q s.
Proof. done. Qed.
Lemma wp_modify f Q s : Q tt (f s) -> wp (modify f) Q s.
Proof. done. Qed.

Lemma wp_get_buf g n Q s : ready g s -> (n < 5)%nat -> Q true s -> wp (get_buf_n n) Q s.
Proof.
  intros Hr Hn HQ. unfold wp, get_buf_n. destruct (ready_buf g s n Hr Hn) as (b & -> & Hb).
  by rewrite (ready_bs g s Hr), Hb, Z.leb_refl.
Qed.

Lemma wp_load_bytes g n o k Q s :
  ready g s -> (n < 5)%nat -> 0 <= o -> 0 <= k -> o + k <= block_size g ->
  (forall b, bufs s !! n = Some (Some b) -> len b = block_size g -> Q (slice o k b) s) ->
  wp (load_bytes n o k) Q s.
Proof.
  intros Hr Hn Ho Hk Hb HQ. unfold wp, load_bytes. destruct (ready_buf g s n Hr Hn) as (b & Hl & Hlen).
  rewrite Hl. rewrite (proj2 (Z.leb_le 0 o)), (proj2 (Z.leb_le 0 k)), (proj2 (Z.leb_le (o + k) _)) by lia.
  simpl. by apply HQ.
Qed.

Lemma wp_load g w n o Q s :
  ready g s -> (n < 5)%nat -> 0 <= o -> o + Z.of_nat w <= block_size g ->
  (forall b, bufs s !! n = Some (Some b) -> len b = block_size g -> Q (fld w o b) s) ->
  wp (load w n o) Q s.
Proof.
  intros Hr Hn Ho Hb HQ. apply wp_bind, (wp_load_bytes g); done || lia.
Qed.

Lemma wp_store_bytes g n o v Q s :
  ready g s -> (n < 5)%nat -> 0 <= o -> o + len v <= block_size g ->
  (forall b, bufs s !! n = Some (Some b) -> len b = block_size g ->
     Q tt (with_bufs (<[n := Some (splice o v b)]> (bufs s)) s)) ->
  wp (store_bytes n o v) Q s.
Proof.
  intros Hr Hn Ho Hb HQ. unfold wp, store_bytes. destruct (ready_buf g s n Hr Hn) as (b & Hl & Hlen).
  rewrite Hl. rewrite (proj2 (Z.leb_le 0 o)), (proj2 (Z.leb_le (o + len v) _)) by lia.
  simpl. by apply HQ.
Qed.

Lemma ready_splice g s n o v b :
  ready g s -> 0 <= o -> o + len v <= block_size g -> len b = block_size g ->
  ready g (with_bufs (<[n := Some (splice o v b)]> (bufs s)) s).
Proof. intros. apply ready_with_buf; [done|]. rewrite length_splice; lia. Qed.

(** A whole block into a buffer. *)
Lemma wp_read_block g b n Q s :
  ready g s -> (n < 5)%nat ->
  Q tt (with_bufs (<[n := Some (block_bytes s b)]> (bufs s)) s) ->
  wp (ext2_read_block b n) Q s.
Proof.
  intros Hr Hn HQ. unfold ext2_read_block. apply wp_bind, wp_get.
  pose proof (length_block_bytes g s b Hr). pose proof (ready_geo g s Hr).
  apply (wp_store_bytes g); [done..|lia|lia|]. intros b0 _ Hb0. rewrite splice_full; [done|lia].
Qed.

Lemma ready_read g s n b : ready g s -> ready g (with_bufs (<[n := Some (block_bytes s b)]> (bufs s)) s).
Proof. intros Hr. apply ready_with_buf; [done|]. by apply length_block_bytes. Qed.

(** The sectors a write of a whole block stores. *)
Definition put_block (s : est) (block : Z) (b : list Z) : est :=
  foldl (fun s i => write_sectors (u32 (block_to_lba (fs s) block + Z.of_nat i)) (slice (Z.of_nat i * 512) 512 b) s)
    s (sectors_of (fs s)).

Lemma write_sectors_fields lba b s :
  fs (write_sectors lba b s) = fs s /\ bufs (write_sectors lba b s) = bufs s /\ rtc (write_sectors lba b s) = rtc s.
Proof. done. Qed.

Lemma ready_write_sector g s lba b : ready g s -> length b = 512%nat -> ready g (write_sectors lba b s).
Proof. intros Hr Hb. apply ready_with_dsk; [done|]. apply disk_ok_insert; [apply Hr|done]. Qed.

Lemma put_block_fold g l s block b :
  ready g s -> len b = block_size g -> Forall (fun i => Z.of_nat i * 512 + 512 <= block_size g) l ->
  let s' := foldl (fun s i => write_sectors (u32 (block_to_lba (fs s) block + Z.of_nat i))
                                (slice (Z.of_nat i * 512) 512 b) s) s l in
  ready g s' /\ fs s' = fs s /\ bufs s' = bufs s /\ rtc s' = rtc s.
Proof.
  intros Hr Hb Hl. revert s Hr. induction Hl as [|i l Hi Hl IH]; intros s Hr; simpl; [done|].
  destruct (IH (write_sectors (u32 (block_to_lba (fs s) block + Z.of_nat i)) (slice (Z.of_nat i * 512) 512 b) s))
    as (H1 & H2 & H3 & H4); [|done].
  apply ready_write_sector; [done|]. apply Nat2Z.inj. rewrite length_slice; lia.
Qed.

Lemma sectors_in_block g s : ready g s -> Forall (fun i => Z.of_nat i * 512 + 512 <= block_size g) (sectors_of (fs s)).
Proof.
  intros Hr. apply Forall_forall. intros i Hi. unfold sectors_of in Hi. apply in_seq in Hi.
  rewrite (ready_bs g s Hr) in Hi. pose proof (Z.mul_div_le (block_size g) 512). lia.
Qed.

Lemma put_block_frame g s block b :
  ready g s -> len b = block_size g ->
  ready g (put_block s block b) /\ fs (put_block s block b) = fs s /\ bufs (put_block s block b) = bufs s /\
  rtc (put_block s block b) = rtc s.
Proof. intros Hr Hb. apply (put_block_fold g); [done..|]. by apply sectors_in_block. Qed.

Lemma wp_write_block g block n Q s :
  ready g s -> (n < 5)%nat ->
  (forall b, bufs s !! n = Some (Some b) -> len b = block_size g -> Q tt (put_block s block b)) ->
  wp (ext2_write_block block n) Q s.
Proof.
  intros Hr Hn HQ. unfold ext2_write_block. apply wp_bind, wp_get, wp_bind.
  pose proof (ready_geo g s Hr). rewrite (ready_bs g s Hr).
  apply (wp_load_bytes g); [done..|lia|lia|lia|]. intros b Hb Hl.
  rewrite <- Hl, slice_full. apply wp_modify. by apply HQ.
Qed.

(** ** Safety

    Right after a mount no buffer need exist: each is allocated, or replaced by a longer
    one, when it is first asked for.  [lready g D s]: the driver is mounted with geometry
    [g], the buffers in [D] are at least a block long, and the heap has the others. *)
Record lready (g : ext2_fs_t) (D : list nat) (s : est) : Prop := {
  q_geo : geometry (fs s);
  q_same : same_geo (fs s) g;
  q_bufs : length (bufs s) = 5%nat;
  q_in : forall n, n ∈ D -> exists b, bufs s !! n = Some (Some b) /\ block_size g <= len b;
  q_more : (forall n, (n < 5)%nat -> n ∈ D) \/ (forall k, is_Some (fresh_buf k (block_size g)));
  q_disk : disk_ok (dsk s) }.

Definition all_bufs : list nat := [0; 1; 2; 3; 4]%nat.

Lemma ready_lready g s : ready g s -> lready g all_bufs s.
Proof.
  intros Hr. split; try apply Hr.
  - intros n Hn. destruct (ready_buf g s n Hr) as (b & E & Hb); [|exists b; split; [done|lia]].
    unfold all_bufs in Hn. repeat (apply elem_of_cons in Hn as [-> | Hn]; [lia|]). by apply elem_of_nil in Hn.
  - left. intros n Hn. unfold all_bufs. do 5 (destruct n as [|n]; [set_solver|]). lia.
Qed.

Lemma lready_bs g D s : lready g D s -> block_size (fs s) = block_size g.
Proof. intros Hs. by destruct (q_same _ _ _ Hs) as (_ & _ & Hs' & _). Qed.

Lemma lready_geo g D s : lready g D s -> block_size g = 1024 \/ block_size g = 2048 \/ block_size g = 4096.
Proof. intros Hs. rewrite <- (lready_bs g D s Hs). apply (q_geo _ _ _ Hs). Qed.

Lemma lready_put g D s n b :
  lready g D s -> block_size g <= len b -> lready g D (with_bufs (<[n := Some b]> (bufs s)) s).
Proof.
  intros Hs Hb. split; simpl; try apply Hs; [rewrite length_insert; apply Hs|].
  intros m Hm. destruct (q_in _ _ _ Hs m Hm) as (b' & E & Hb'). destruct (decide (m = n)) as [->|Hne].
  - exists b. rewrite list_lookup_insert_eq; [done|]. by apply lookup_lt_Some in E.
  - exists b'. by rewrite list_lookup_insert_ne.
Qed.

Lemma lready_write_sector g D s lba b : lready g D s -> length b = 512%nat -> lready g D (write_sectors lba b s).
Proof. intros Hs Hb. split; simpl; try apply Hs. apply disk_ok_insert; [apply Hs|done]. Qed.

Lemma lready_put_block g D s block b :
  lready g D s -> len b = block_size g -> lready g D (put_block s block b).
Proof.
  intros Hs Hb. unfold put_block.
  assert (Forall (fun i => Z.of_nat i * 512 + 512 <= block_size g) (sectors_of (fs s))) as Hl.
  { apply Forall_forall. intros i Hi. unfold sectors_of in Hi. apply in_seq in Hi.
    rewrite (lready_bs g D s Hs) in Hi. pose proof (Z.mul_div_le (block_size g) 512). lia. }
  revert Hl. generalize (sectors_of (fs s)). intros l Hl. revert s Hs.
  induction Hl as [|i l Hi Hl IH]; intros s Hs; simpl; [done|]. apply IH, lready_write_sector; [done|].
  apply Nat2Z.inj. rewrite length_slice; lia.
Qed.

(** [m] returns from every such state, in such a state, with a result in [Q]. *)
Definition safe {A} (g : ext2_fs_t) (D : list nat) (m : M A) (Q : A -> Prop) : Prop :=
  forall s, lready g D s -> wp m (fun r s' => lready g D s' /\ Q r) s.

Definition any {A} : A -> Prop := fun _ => True.

Lemma safe_bind {A B} g D (m : M A) (k : A -> M B) P Q :
  safe g D m P -> (forall x, P x -> safe g D (k x) Q) -> safe g D (bind m k) Q.
Proof.
  intros Hm Hk s Hr. apply wp_bind. eapply wp_mono; [by apply Hm|]. intros x s' [Hr' HP]. by apply Hk.
Qed.

(** After a buffer has been asked for it is there. *)
Lemma safe_bind_get {B} g D n (k : bool -> M B) Q :
  (n < 5)%nat -> safe g (n :: D) (k true) Q -> safe g D (bind (get_buf_n n) k) Q.
Proof.
  intros Hn Hk s Hs. apply wp_bind. unfold wp at 1, get_buf_n.
  assert (forall s', lready g (n :: D) s' -> wp (k true) (fun r s'' => lready g D s'' /\ Q r) s') as Hk'.
  { intros s' Hs'. eapply wp_mono; [by apply Hk|]. intros r s'' [H2 HQ]. split; [|done].
    split; try apply H2; [|apply Hs]. intros m Hm. apply H2. by apply elem_of_cons; right. }
  assert (forall b k', lready g D (Est (fs s) (<[n := Some b]> (bufs s)) k' (dsk s) (rtc s)) -> block_size g <= len b ->
            lready g (n :: D) (Est (fs s) (<[n := Some b]> (bufs s)) k' (dsk s) (rtc s))) as Hadd.
  { intros b k' Hs' Hb. split; try apply Hs'.
    - intros m [-> | Hm]%elem_of_cons; [|by apply Hs']. exists b. simpl. rewrite list_lookup_insert_eq; [done|]. rewrite (q_bufs _ _ _ Hs). lia.
    - destruct (q_more _ _ _ Hs) as [Hm|Hm]; [left|by right]. intros m Hm'. apply elem_of_cons. right. by apply Hm. }
  assert (forall k', (n ∉ D) -> match fresh_buf k' (block_size (fs s)) with
            Some b => lready g (n :: D) (Est (fs s) (<[n := Some b]> (bufs s)) (S k') (dsk s) (rtc s)) | None => False end) as Hnew.
  { intros k' Hnd. rewrite (lready_bs g D s Hs). destruct (q_more _ _ _ Hs) as [Hm|Hm]; [by specialize (Hm n Hn)|].
    destruct (Hm k') as [b E]. rewrite E. apply fresh_buf_len in E. apply Hadd; [|lia].
    pose proof (lready_put g D s n b Hs ltac:(lia)) as H2. split; apply H2. }
  destruct (lookup_lt_is_Some_2 (bufs s) n) as [o Ho]; [rewrite (q_bufs _ _ _ Hs); lia|]. rewrite Ho.
  assert (forall b, o = Some b -> block_size (fs s) <= len b -> lready g (n :: D) s) as Hold.
  { intros b -> Hb. rewrite (lready_bs g D s Hs) in Hb. split; try apply Hs.
    - intros m [-> | Hm]%elem_of_cons; [by exists b|]. by apply Hs.
    - destruct (q_more _ _ _ Hs) as [Hm|Hm]; [left|by right]. intros m Hm'. apply elem_of_cons. right. by apply Hm. }
  destruct (decide (n ∈ D)) as [Hin|Hnd].
  - destruct (q_in _ _ _ Hs n Hin) as (b & E & Hb). rewrite Ho in E. injection E as ->.
    rewrite <- (lready_bs g D s Hs) in Hb. rewrite (proj2 (Z.leb_le _ _) Hb). apply Hk'. by apply (Hold b).
  - specialize (Hnew (kallocs s) Hnd). destruct (fresh_buf (kallocs s) _) as [b'|]; [|done].
    destruct o as [b|]; [destruct (Z.leb_spec (block_size (fs s)) (len b))|]; apply Hk'; try done. by apply (Hold b).
Qed.

Lemma safe_ret {A} g D (x : A) (Q : A -> Prop) : Q x -> safe g D (ret x) Q.
Proof. intros HQ s Hr. by apply wp_ret. Qed.

Lemma safe_get g D : safe g D get (lready g D).
Proof. intros s Hr. by apply wp_get. Qed.

Lemma safe_load_bytes g D n o k :
  n ∈ D -> 0 <= o -> 0 <= k -> o + k <= block_size g -> safe g D (load_bytes n o k) (fun b => len b = k).
Proof.
  intros Hn Ho Hk Hb s Hs. unfold wp, load_bytes. destruct (q_in _ _ _ Hs n Hn) as (b & -> & Hl).
  rewrite (proj2 (Z.leb_le 0 o)), (proj2 (Z.leb_le 0 k)), (proj2 (Z.leb_le (o + k) _)) by lia.
  split; [done|]. apply length_slice; lia.
Qed.

Lemma safe_load g D w n o :
  n ∈ D -> 0 <= o -> o + Z.of_nat w <= block_size g ->
  safe g D (load w n o) (fun v => 0 <= v < 256 ^ Z.of_nat w).
Proof.
  intros Hn Ho Hb s Hs. unfold wp, load, bind, load_bytes. destruct (q_in _ _ _ Hs n Hn) as (b & -> & Hl).
  rewrite (proj2 (Z.leb_le 0 o)), (proj2 (Z.leb_le 0 _)), (proj2 (Z.leb_le (o + _) _)) by lia.
  split; [done|]. apply (fld_range w o b).
Qed.

Lemma safe_store_bytes g D n o v :
  n ∈ D -> 0 <= o -> o + len v <= block_size g -> safe g D (store_bytes n o v) any.
Proof.
  intros Hn Ho Hb s Hs. unfold wp, store_bytes. destruct (q_in _ _ _ Hs n Hn) as (b & -> & Hl).
  rewrite (proj2 (Z.leb_le 0 o)), (proj2 (Z.leb_le (o + len v) _)) by lia.
  split; [|done]. apply lready_put; [done|]. rewrite length_splice; lia.
Qed.

Lemma safe_store g D w n o v :
  n ∈ D -> 0 <= o -> o + Z.of_nat w <= block_size g -> safe g D (store w n o v) any.
Proof. intros. apply safe_store_bytes; rewrite ?length_le_bytes; done. Qed.

Lemma len_block_bytes s b : geometry (fs s) -> disk_ok (dsk s) -> len (block_bytes s b) = block_size (fs s).
Proof.
  intros Hg Hd. unfold block_bytes. rewrite (length_concat_map _ _ 512).
  - rewrite <- (sectors_of_bs (fs s)) by done. lia.
  - intros. by apply length_sector.
Qed.

Lemma safe_read_block g D b n : n ∈ D -> safe g D (ext2_read_block b n) any.
Proof.
  intros Hn s Hs. unfold ext2_read_block. apply wp_bind, wp_get.
  pose proof (lready_geo g D s Hs). pose proof (len_block_bytes s b (q_geo _ _ _ Hs) (q_disk _ _ _ Hs)) as Hl. rewrite (lready_bs g D s Hs) in Hl.
  apply (safe_store_bytes g D); [done|lia|lia|done].
Qed.

Lemma safe_write_block g D b n : n ∈ D -> safe g D (ext2_write_block b n) any.
Proof.
  intros Hn s Hs. unfold ext2_write_block. apply wp_bind, wp_get, wp_bind. pose proof (lready_geo g D s Hs). rewrite (lready_bs g D s Hs).
  eapply wp_mono; [apply (safe_load_bytes g D n 0 (block_size g)); done || lia|]. intros c s' [Hs' Hl].
  apply wp_modify. split; [|done]. by apply lready_put_block.
Qed.

Lemma safe_modify_sb g D (f : list Z -> list Z) :
  (forall b, length b = 1024%nat -> length (f b) = 1024%nat) ->
  safe g D (modify (fun s => with_sb (f (sb (fs s))) s)) any.
Proof.
  intros Hf s Hs. apply wp_modify. split; [|done]. destruct (q_geo _ _ _ Hs). split; simpl; try apply Hs. split; try done. simpl. by apply Hf.
Qed.

Lemma safe_sync g D : safe g D ext2_sync_superblock any.
Proof.
  intros s Hs. unfold ext2_sync_superblock. apply wp_bind, wp_modify, wp_ret. split; [|done].
  destruct (q_geo _ _ _ Hs). repeat apply lready_write_sector; [done|..]; apply Nat2Z.inj; rewrite length_slice; lia.
Qed.

(** From a state whose five buffers are a block long, the superblock's write leaves such a state. *)
Lemma ready_sync g s : ready g s -> wp ext2_sync_superblock (fun _ s' => ready g s') s.
Proof.
  intros Hr. unfold ext2_sync_superblock. apply wp_bind, wp_modify, wp_ret.
  destruct (r_geo _ _ Hr). repeat apply ready_write_sector; [done|..]; apply Nat2Z.inj; rewrite length_slice; lia.
Qed.

Lemma safe_now g D : safe g D now any.
Proof. intros s Hr. by apply wp_bind, wp_get, wp_ret. Qed.
End Safe.

(** ** Automation: a step of the code, and the lengths of assigned structures *)

(** A buffer asked for before. *)
Ltac in_bufs := repeat first [assumption | apply list_elem_of_here | apply list_elem_of_further].

Ltac slia := first [solve [in_bufs] | lia].

#[export] Hint Resolve safe_get safe_sync safe_now : ext2.
#[export] Hint Extern 1 (safe _ _ (ext2_read_block _ _) _) => apply safe_read_block; solve [in_bufs] : ext2.
#[export] Hint Extern 1 (safe _ _ (ext2_write_block _ _) _) => apply safe_write_block; solve [in_bufs] : ext2.
#[export] Hint Extern 1 (safe _ _ (load _ _ _) _) => apply safe_load; [solve [in_bufs]|lia|simpl Z.of_nat; lia] : ext2.
#[export] Hint Extern 1 (safe _ _ (load_bytes _ _ _) _) => apply safe_load_bytes; [solve [in_bufs]|lia..] : ext2.
#[export] Hint Extern 1 (safe _ _ (store _ _ _ _) _) => apply safe_store; [solve [in_bufs]|lia|simpl Z.of_nat; lia] : ext2.

(** What is known of the state a [get] returns. *)
Ltac ready_facts :=
  repeat match goal with
  | H : lready ?g _ ?s |- _ =>
      lazymatch goal with
      | _ : block_size (fs s) = block_size g |- _ => fail
      | _ => pose proof (lready_bs g _ s H); pose proof (lready_geo g _ s H);
           pose proof (geo_bpg _ (q_geo _ _ _ H)); pose proof (geo_ipg _ (q_geo _ _ _ H))
      end
  end;
  repeat match goal with H : block_size (fs ?s) = _ |- context [block_size (fs ?s)] => rewrite H end.

Ltac after_step :=
  intros ? ?; cbv beta in *;
  try match goal with H : ?x = true |- _ => is_var x; subst x; cbn [negb] end;
  ready_facts.

Ltac safe_step :=
  match goal with
  | |- safe _ _ (bind ?m _) _ =>
      lazymatch m with
      | get_block_buf => idtac | get_bitmap_buf => idtac | get_aux_buf => idtac | get_aux2_buf => idtac
      | get_meta_buf => idtac | get_buf_n _ => idtac
      end; eapply safe_bind_get; [lia|cbn [negb]]
  | |- safe _ _ (bind _ _) _ => eapply safe_bind; [solve [eauto with ext2] | after_step]
  | |- safe _ _ (ret _) any => apply safe_ret; exact I
  | |- safe _ _ (if ?b then _ else _) _ => destruct b eqn:?; subst; bool_prop; try done
  end.

Ltac set_length := unfold set_i_mode, set_i_size, set_i_atime, set_i_ctime, set_i_mtime, set_i_dtime,
  set_i_links_count, set_i_blocks_512, set_i_block, set_b_free_blocks_count, set_b_free_inodes_count,
  set_b_used_dirs_count, set_sb_free_blocks, set_sb_free_inodes;
  repeat (rewrite length_set_fld; [| lia | repeat (rewrite length_set_fld; [|lia|]); lia]).

Section SafeOps.
Context `{BlockHeap}.
Implicit Types (g : ext2_fs_t) (s : est).

(** Places inside a block, from the geometry alone. *)
Lemma bgd_place_geo f group block o :
  geometry f -> 0 <= group -> bgd_place f group = (block, o) -> 0 <= o /\ o + 32 <= block_size f.
Proof.
  intros Hr Hg. unfold bgd_place. intros [= <- <-]. set (per := block_size f / SIZEOF_BGD).
  assert (per * 32 = block_size f) by (unfold per, SIZEOF_BGD; destruct (geo_bs f Hr) as [-> | [-> | ->]]; done).
  pose proof (geo_bs f Hr).
  pose proof (Z.mod_pos_bound group per). unfold SIZEOF_BGD. nia.
Qed.

Lemma bgd_place_bound g s group block o :
  ready g s -> 0 <= group -> bgd_place (fs s) group = (block, o) -> 0 <= o /\ o + 32 <= block_size g.
Proof. intros Hr. rewrite <- (ready_bs g s Hr). apply bgd_place_geo, Hr. Qed.

Lemma bgd_place_in g D s group block o :
  lready g D s -> 0 <= group -> bgd_place (fs s) group = (block, o) -> 0 <= o /\ o + 32 <= block_size g.
Proof. intros Hr. rewrite <- (lready_bs g D s Hr). apply bgd_place_geo, Hr. Qed.

Lemma inode_place_geo f bgd ino block o :
  geometry f -> inode_place f bgd ino = (block, o) -> 0 <= o /\ o + 128 <= block_size f.
Proof.
  intros [Hb _ _ Hi _]. unfold inode_place. intros [= <- <-].
  set (per := block_size f / inode_size f).
  assert (0 < per) by (unfold per; apply Z.div_str_pos; lia).
  assert (inode_size f * per <= block_size f) by (unfold per; apply Z.mul_div_le; lia).
  pose proof (Z.mod_pos_bound ((ino - 1) mod inodes_per_group f) per). nia.
Qed.

Lemma inode_place_in g D s bgd ino block o :
  lready g D s -> inode_place (fs s) bgd ino = (block, o) -> 0 <= o /\ o + 128 <= block_size g.
Proof. intros Hr. rewrite <- (lready_bs g D s Hr). apply inode_place_geo, Hr. Qed.

Lemma inode_place_bound g s bgd ino block o :
  ready g s -> inode_place (fs s) bgd ino = (block, o) -> 0 <= o /\ o + 128 <= block_size g.
Proof. intros Hr. rewrite <- (ready_bs g s Hr). apply inode_place_geo, Hr. Qed.

Definition some_len (n : Z) (o : option (list Z)) : Prop := exists b, o = Some b /\ len b = n.
Definition opt_len (n : Z) (o : option (list Z)) : Prop := forall b, o = Some b -> len b = n.

Lemma safe_read_bgd g D group : 0 <= group -> safe g D (read_block_group_bgd group) (some_len 32).
Proof.
  intros Hg. unfold read_block_group_bgd. safe_step. destruct (bgd_place (fs x) group) as [block o] eqn:E.
  destruct (bgd_place_in g D x group block o H0 Hg E). repeat safe_step.
  eapply safe_bind; [apply safe_load_bytes; unfold SIZEOF_BGD; slia|]. intros b Hb. apply safe_ret. by exists b.
Qed.

Lemma safe_write_bgd g D group bgd : 0 <= group -> len bgd = 32 -> safe g D (write_bgd group bgd) any.
Proof.
  intros Hg Hb. unfold write_bgd. safe_step. destruct (bgd_place (fs x) group) as [block o] eqn:E.
  destruct (bgd_place_in g D x group block o H0 Hg E). repeat safe_step.
  eapply safe_bind; [apply safe_store_bytes; slia|]. intros _ _. eauto with ext2.
Qed.

Lemma safe_read_inode g D ino : 0 <= ino -> safe g D (ext2_read_inode ino) (opt_len 128).
Proof.
  intros Hi. unfold ext2_read_inode. destruct (Z.eqb_spec ino 0); [by apply safe_ret|]. safe_step.
  eapply safe_bind; [apply safe_read_bgd, Z.div_pos; [lia|apply (q_geo _ _ _ H0)]|].
  intros ? (bgd & -> & Hb). destruct (inode_place (fs x) bgd ino) as [block o] eqn:E.
  destruct (inode_place_in g D x bgd ino block o H0 E). repeat safe_step.
  eapply safe_bind; [apply safe_load_bytes; unfold SIZEOF_INODE; slia|]. intros b Hl. apply safe_ret.
  by intros ? [= <-].
Qed.

Lemma safe_write_inode g D ino inode : 0 <= ino -> len inode = 128 -> safe g D (ext2_write_inode ino inode) any.
Proof.
  intros Hi Hl. unfold ext2_write_inode. destruct (Z.eqb_spec ino 0); [by apply safe_ret|]. safe_step.
  eapply safe_bind; [apply safe_read_bgd, Z.div_pos; [lia|apply (q_geo _ _ _ H0)]|].
  intros ? (bgd & -> & Hb). destruct (inode_place (fs x) bgd ino) as [block o] eqn:E.
  destruct (inode_place_in g D x bgd ino block o H0 E). repeat safe_step.
  eapply safe_bind; [apply safe_store_bytes; slia|]. intros _ _. repeat safe_step.
Qed.

Lemma safe_adjust g D d : safe g D (bgd_adjust_dir_count d) any.
Proof.
  unfold bgd_adjust_dir_count. eapply safe_bind; [by apply safe_read_bgd|]. intros ? (bgd & -> & Hb).
  apply safe_write_bgd; [done|]. repeat case_match; set_length; done.
Qed.
End SafeOps.
#[export] Hint Resolve safe_adjust : ext2.

Section SafeAlloc.
Context `{BlockHeap}.
Implicit Types (g : ext2_fs_t) (s : est).

Lemma safe_find_free_bit g D n size :
  n ∈ D -> 0 <= size <= block_size g * 8 ->
  safe g D (find_free_bit n size) (fun o => forall i, o = Some i -> 0 <= i < size).
Proof.
  intros Hn Hs. unfold find_free_bit.
  assert ((size + 7) / 8 <= block_size g /\ 0 <= (size + 7) / 8).
  { split; [apply Z.lt_succ_r, Z.div_lt_upper_bound; lia|apply Z.div_pos; lia]. }
  eapply safe_bind; [apply safe_load_bytes; slia|]. intros b Hb. apply safe_ret. intros i Hi.
  apply find_idx_Some in Hi. lia.
Qed.

Lemma bit_byte_bound g i : 0 <= i < block_size g * 8 -> 0 <= i / 8 /\ i / 8 + 1 <= block_size g.
Proof. intros Hi. split; [apply Z.div_pos; lia|]. assert (i / 8 < block_size g) by (apply Z.div_lt_upper_bound; lia). lia. Qed.

Lemma safe_mark_bit g D n i : n ∈ D -> 0 <= i < block_size g * 8 -> safe g D (mark_bit n i) any.
Proof. intros Hn Hi. destruct (bit_byte_bound g i Hi). unfold mark_bit. repeat safe_step. eauto with ext2. Qed.

Lemma safe_clear_bit g D n i : n ∈ D -> 0 <= i < block_size g * 8 -> safe g D (clear_bit n i) any.
Proof. intros Hn Hi. destruct (bit_byte_bound g i Hi). unfold clear_bit. repeat safe_step. eauto with ext2. Qed.

Lemma safe_modify_counter g D w o (c : list Z -> bool) (v : list Z -> Z) :
  0 <= o -> o + Z.of_nat w <= 1024 ->
  safe g D (modify (fun s => if c (sb (fs s)) then with_sb (set_fld w o (v (sb (fs s))) (sb (fs s))) s else s)) any.
Proof.
  intros Ho Hw s Hr. apply wp_modify. split; [|done]. destruct (c _); [|done].
  destruct (q_geo _ _ _ Hr). split; simpl; try apply Hr. split; try done. simpl. rewrite length_set_fld; lia.
Qed.

Lemma safe_alloc_block g D : safe g D ext2_alloc_block (fun b => 0 <= b).
Proof.
  unfold ext2_alloc_block. eapply safe_bind; [by apply safe_read_bgd|]. intros ? (bgd & -> & Hb).
  do 3 safe_step.
  eapply safe_bind; [apply safe_find_free_bit; slia|]. intros [bit|] Hbit; [|by apply safe_ret].
  specialize (Hbit bit eq_refl). safe_step; try (by apply safe_ret).
  eapply safe_bind; [apply safe_mark_bit; slia|]. intros _ _. safe_step.
  eapply safe_bind; [apply safe_write_bgd; [done|repeat case_match; set_length; done]|]. intros _ _.
  eapply safe_bind; [apply (safe_modify_counter g _ 4 12 (fun b => 0 <? sb_free_blocks b) (fun b => sb_free_blocks b - 1)); simpl; lia|].
  intros _ _. eapply safe_bind; [apply safe_store_bytes; rewrite ?length_zero_bytes; slia|]. intros _ _.
  safe_step. apply safe_ret. unfold bit_to_block. apply u32_range.
Qed.

Lemma safe_alloc_inode g D : safe g D ext2_alloc_inode (fun b => 0 <= b).
Proof.
  unfold ext2_alloc_inode. eapply safe_bind; [by apply safe_read_bgd|]. intros ? (bgd & -> & Hb).
  do 3 safe_step.
  eapply safe_bind; [apply safe_find_free_bit; slia|]. intros [bit|] Hbit; [|by apply safe_ret].
  specialize (Hbit bit eq_refl).
  eapply safe_bind; [apply safe_mark_bit; slia|]. intros _ _. safe_step.
  eapply safe_bind; [apply safe_write_bgd; [done|repeat case_match; set_length; done]|]. intros _ _.
  eapply safe_bind; [apply (safe_modify_counter g _ 4 16 (fun b => 0 <? sb_free_inodes b) (fun b => sb_free_inodes b - 1)); simpl; lia|].
  intros _ _. apply safe_ret. lia.
Qed.

Lemma safe_free_block g D b : safe g D (ext2_free_block b) any.
Proof.
  unfold ext2_free_block. safe_step. safe_step. safe_step; try (by apply safe_ret).
  assert (0 <= block_to_bit (fs x) b < block_size g * 8) as Hbit by (pose proof (u32_range (b - sb_first_data_block (sb (fs x)))); unfold block_to_bit in *; lia).
  destruct (bit_byte_bound g _ Hbit).
  eapply safe_bind; [by apply safe_read_bgd|]. intros ? (bgd & -> & Hb). repeat safe_step.
  eapply safe_bind; [apply safe_clear_bit; slia|]. intros _ _. safe_step.
  eapply safe_bind; [apply safe_write_bgd; [done|set_length; done]|]. intros _ _.
  apply (safe_modify_counter g _ 4 12 (fun b => true) (fun b => u32 (sb_free_blocks b + 1))); simpl; lia.
Qed.
Hint Resolve safe_free_block : ext2.

Lemma safe_free_inode g D ino : 0 <= ino -> safe g D (ext2_free_inode ino) any.
Proof.
  intros Hi. unfold ext2_free_inode. destruct (Z.ltb_spec ino EXT2_ROOT_INO); [by apply safe_ret|].
  unfold EXT2_ROOT_INO in *. safe_step.
  pose proof (Z.mod_pos_bound (ino - 1) (inodes_per_group (fs x))).
  assert (0 <= (ino - 1) mod inodes_per_group (fs x) < block_size g * 8) as Hbit by lia.
  destruct (bit_byte_bound g _ Hbit).
  eapply safe_bind; [apply safe_read_bgd, Z.div_pos; lia|]. intros ? (bgd & -> & Hb). repeat safe_step.
  eapply safe_bind; [apply safe_clear_bit; slia|]. intros _ _. safe_step.
  eapply safe_bind; [apply safe_write_bgd; [done|set_length; done]|]. intros _ _.
  apply (safe_modify_counter g _ 4 16 (fun b => true) (fun b => u32 (sb_free_inodes b + 1))); simpl; lia.
Qed.

Lemma safe_each_pointer g D k i m body :
  m ∈ D -> 0 <= i -> 4 * (i + Z.of_nat k) <= block_size g ->
  (forall p, safe g D (body p) any) -> safe g D (each_pointer k i m body) any.
Proof.
  intros Hm Hi Hk Hbody. revert i Hi Hk. induction k as [|k IH]; intros i Hi Hk; simpl each_pointer; [by apply safe_ret|].
  eapply safe_bind; [apply safe_load; slia|]. intros p _.
  eapply safe_bind with (P := any); [destruct (p =? 0); [by apply safe_ret|apply Hbody]|]. intros _ _. apply IH; lia.
Qed.

Lemma safe_free_direct g D k i inode :
  0 <= i -> i + Z.of_nat k <= 15 -> len inode = 128 ->
  safe g D (free_direct k i inode) (fun b => len b = 128).
Proof.
  revert i inode. induction k as [|k IH]; intros i inode Hi Hk Hl; simpl free_direct; [by apply safe_ret|].
  case_match; [apply IH; lia|]. safe_step. apply IH; [lia|lia|]. set_length; lia.
Qed.

Lemma ptrs_geo f : geometry f -> 4 * (block_size f / 4) = block_size f /\ 0 <= block_size f / 4.
Proof. intros Hg. destruct (geo_bs f Hg) as [-> | [-> | ->]]; done. Qed.

Lemma ptrs_in g D s : lready g D s -> 4 * (block_size (fs s) / 4) = block_size g /\ 0 <= block_size (fs s) / 4.
Proof. intros Hr. rewrite <- (lready_bs g D s Hr). apply ptrs_geo, Hr. Qed.

Lemma ptrs_bound g s : ready g s -> 4 * (block_size (fs s) / 4) = block_size g /\ 0 <= block_size (fs s) / 4.
Proof. intros Hr. rewrite <- (ready_bs g s Hr). apply ptrs_geo, Hr. Qed.

Lemma safe_free_inode_blocks g D inode :
  len inode = 128 -> safe g D (free_inode_blocks inode) (fun b => len b = 128).
Proof.
  intros Hl. unfold free_inode_blocks. eapply safe_bind; [apply safe_get|]. intros s Hr.
  destruct (ptrs_in g D s Hr). set (ptrs := Z.to_nat (block_size (fs s) / 4)).
  assert (4 * (0 + Z.of_nat ptrs) <= block_size g) by lia.
  eapply safe_bind; [by apply safe_free_direct|]. intros i1 Hi1.
  eapply safe_bind with (P := fun b => len b = 128).
  { case_match; [by apply safe_ret|]. do 2 safe_step.
    eapply safe_bind; [apply safe_each_pointer; [slia..|apply safe_free_block]|]. intros _ _. safe_step.
    apply safe_ret. set_length; lia. }
  intros i2 Hi2. case_match; [by apply safe_ret|]. do 2 safe_step.
  eapply safe_bind.
  { apply safe_each_pointer; [slia..|]. intros p. do 2 safe_step.
    eapply safe_bind; [apply safe_each_pointer; [slia..|apply safe_free_block]|]. intros _ _. apply safe_free_block. }
  intros _ _. safe_step. apply safe_ret. set_length; lia.
Qed.
End SafeAlloc.
#[export] Hint Resolve safe_alloc_block safe_alloc_inode safe_free_block : ext2.
