(* ===== verification/Ext2Demo.v ===== *)
(** A small ext2 image: 64 blocks of 1024 bytes, one group, an empty root directory.
    The witnesses of the file-system theorems run on it. *)
From Stdlib Require Import ZArith Lia.
From S2P Require Import Prelude Packed Ext2 Ext2Safe.

#[export] Instance demo_heap : BlockHeap.
Proof.
  refine {| fresh_buf := fun _ n => if 0 <=? n then Some (zero_bytes n) else None |}.
  intros k n b. destruct (Z.leb_spec 0 n); [|done]. intros [= <-]. by apply length_zero_bytes.
Defined.

Definition demo_sb : list Z :=
  foldl (fun l '(w, o, v) => set_fld w o v l) (zero_bytes 1024)
    [(4%nat, 0, 16); (4%nat, 4, 64); (4%nat, 12, 56); (4%nat, 16, 14); (4%nat, 20, 1); (4%nat, 24, 0);
     (4%nat, 32, 8192); (4%nat, 40, 16); (2%nat, 56, 0xEF53); (2%nat, 88, 128)].

(** Descriptor: bitmaps in blocks 3 and 4, inode table from block 5. *)
Definition demo_bgd : list Z :=
  foldl (fun l '(w, o, v) => set_fld w o v l) (zero_bytes 32)
    [(4%nat, 0, 3); (4%nat, 4, 4); (4%nat, 8, 5); (2%nat, 12, 56); (2%nat, 14, 14); (2%nat, 16, 1)].

(** Blocks 1 to 7 are used; inodes 1 and 2 are used. *)
Definition demo_block_bitmap : list Z := [127] ++ zero_bytes 1023.
Definition demo_inode_bitmap : list Z := [3] ++ zero_bytes 1023.

Definition demo_root_inode : list Z :=
  set_i_block 0 7 (set_i_links_count 2 (set_i_size 1024 (set_i_mode (EXT2_S_IFDIR .| 0x1FF) (zero_bytes 128)))).
Definition demo_root_dir : list Z :=
  [2; 0; 0; 0; 12; 0; 1; 2; 46; 0; 0; 0; 2; 0; 0; 0; 0xF4; 3; 2; 2; 46; 46] ++ zero_bytes 1002.

Definition demo_blocks : list (Z * list Z) :=
  [(1, demo_sb); (2, demo_bgd ++ zero_bytes 992); (3, demo_block_bitmap); (4, demo_inode_bitmap);
   (5, zero_bytes 128 ++ demo_root_inode ++ zero_bytes 768); (7, demo_root_dir)].

Definition demo_disk : gmap (Z * Z) (list Z) :=
  list_to_map (concat (map (fun '(b, l) => [((0, 2 * b), slice 0 512 l); ((0, 2 * b + 1), slice 512 512 l)]) demo_blocks)).

Definition demo_rtc : rtc_time_t := RtcTime 2024 3 1 12 30 0.

Definition demo_start : est :=
  Est (Ext2Fs 0 0 [] 0 0 0 0 0 0) (replicate 5 (Some (zero_bytes 1024))) 0 demo_disk demo_rtc.

(** The image, mounted. *)
Definition demo_fs : est :=
  Eval vm_compute in match ext2_mount 0 0 demo_start with Some (_, s) => s | None => demo_start end.

Lemma demo_mounts : ext2_mount 0 0 demo_start = Some (0, demo_fs).
Proof. vm_compute. reflexivity. Qed.

Definition readyb (s : est) : bool :=
  let f := fs s in let bs := block_size f in
  (bool_decide (bs = 1024) || bool_decide (bs = 2048) || bool_decide (bs = 4096)) &&
  (0 <? inodes_per_group f) && (inodes_per_group f <=? bs * 8) &&
  (0 <? blocks_per_group f) && (blocks_per_group f <=? bs * 8) &&
  (128 <=? inode_size f) && (inode_size f <=? bs) && Nat.eqb (length (sb f)) 1024 &&
  Nat.eqb (length (bufs s)) 5 &&
  forallb (fun o => match o with Some b => len b =? bs | None => false end) (bufs s) &&
  forallb (fun kb => Nat.eqb (length kb.2) 512) (map_to_list (dsk s)).

Lemma readyb_ok s : readyb s = true -> ready (fs s) s.
Proof.
  unfold readyb. intros Hb. bool_prop.
  repeat match goal with H : Nat.eqb _ _ = true |- _ => apply Nat.eqb_eq in H end.
  split.
  - split; try lia; try done.
    match goal with H : _ || _ = true |- _ => rewrite !orb_true_iff, !bool_decide_eq_true in H end. tauto.
  - repeat split.
  - done.
  - apply Forall_forall. intros o Ho.
    match goal with H : forallb _ (bufs s) = true |- _ => rewrite forallb_forall in H; specialize (H o Ho) end.
    destruct o as [b|]; [|done]. exists b. bool_prop. done.
  - intros k b Hk. apply elem_of_map_to_list, list_elem_of_In in Hk.
    match goal with H : forallb _ (map_to_list _) = true |- _ => rewrite forallb_forall in H; specialize (H _ Hk) end.
    by apply Nat.eqb_eq.
Qed.

Lemma demo_ready : ready (fs demo_fs) demo_fs.
Proof. apply readyb_ok. vm_compute. reflexivity. Qed.
