(* ===== verification/Ext2Blocks.v ===== *)
(** The ext2 driver on a disk of blocks: what reading and writing a block, a descriptor
    and an inode do.

    [blk s b] is block [b] of the mounted disk.  Blocks inside the 28-bit address range
    ([addressable]) do not overlap; every statement below about the rest of the disk is
    about those. *)
From Stdlib Require Import ZArith Lia.
From S2P Require Import Prelude Packed Ext2 Ext2Safe.

Notation blk := block_bytes.

Definition addressable (g : ext2_fs_t) (b : Z) : Prop :=
  0 <= b /\ 0 <= part_start_lba g /\ part_start_lba g + (b + 1) * (block_size g / 512) <= 2 ^ 28.

(** First sector of a block. *)
Definition base (g : ext2_fs_t) (b : Z) : Z := part_start_lba g + b * (block_size g / 512).

(** Sector [a] of the mounted drive. *)
Definition sec (s : est) (a : Z) : list Z :=
  match dsk s !! (drive (fs s), a) with Some b => b | None => zero_bytes SECTOR end.

Definition mounted (g : ext2_fs_t) (s : est) : Prop :=
  same_geo (fs s) g /\ (block_size g = 1024 \/ block_size g = 2048 \/ block_size g = 4096).

Lemma ready_mounted g s : ready g s -> mounted g s.
Proof. intros Hr. split; [apply Hr|by apply (ready_geo g s)]. Qed.

Section Blocks.
Implicit Types (g : ext2_fs_t) (s : est).

Lemma spb_pos g s : mounted g s -> 1 < block_size g / 512 <= 8 /\ block_size g = 512 * (block_size g / 512).
Proof.
  intros [_ Hb]. assert (block_size g = 512 * (block_size g / 512)); [|lia].
  destruct Hb as [-> | [-> | ->]]; reflexivity.
Qed.

Lemma sector_addr g s b i :
  mounted g s -> addressable g b -> 0 <= i < block_size g / 512 ->
  u32 (part_start_lba (fs s) + u32 (block_to_lba (fs s) b + i)) mod 2 ^ 28 = base g b + i.
Proof.
  intros Hm (Hb & Hp & Ha) Hi. destruct (spb_pos g s Hm). destruct Hm as [(_ & Hpart & Hbs & _) _].
  unfold block_to_lba, base. rewrite Hpart, Hbs. set (n := block_size g / 512) in *.
  assert (0 <= b * n) by nia. assert (part_start_lba g + (b * n + n) <= 2 ^ 28) by nia.
  change (2 ^ 28) with 268435456 in *.
  rewrite (u32_small (b * n)), (u32_small (b * n + i)), (u32_small (part_start_lba g + (b * n + i))) by lia.
  rewrite Z.mod_small by lia. lia.
Qed.

Lemma blk_secs g s b :
  mounted g s -> addressable g b ->
  blk s b = concat (map (fun i => sec s (base g b + Z.of_nat i)) (seq 0 (Z.to_nat (block_size g / 512)))).
Proof.
  intros Hm Ha. unfold block_bytes, sectors_of. pose proof Hm as [(_ & _ & -> & _) _]. f_equal.
  apply map_ext_in. intros i Hi. apply in_seq in Hi. unfold read_sectors, ata_read_sector, sector, sec.
  by rewrite (sector_addr g s b (Z.of_nat i)) by (done || lia).
Qed.

Definition put_sector (b : Z) (c : list Z) (s : est) (i : nat) : est :=
  write_sectors (u32 (block_to_lba (fs s) b + Z.of_nat i)) (slice (Z.of_nat i * 512) 512 c) s.

Lemma put_sectors_fs b c l s : fs (foldl (put_sector b c) s l) = fs s.
Proof. revert s. induction l as [|i l IH]; intros s; simpl; [done|]. by rewrite IH. Qed.

(** The sectors after the write loop. *)
Lemma put_sectors_sec g s b c l a :
  mounted g s -> addressable g b -> Forall (fun i => Z.of_nat i < block_size g / 512) l ->
  sec (foldl (put_sector b c) s l) a =
  if decide (base g b <= a /\ Z.to_nat (a - base g b) ∈ l) then slice ((a - base g b) * 512) 512 c else sec s a.
Proof.
  intros Hm Ha Hl. revert s Hm. induction Hl as [|i l Hi Hl IH]; intros s Hm; simpl foldl.
  { case_decide as Hd; [|done]. destruct Hd as [_ Hd]. by apply elem_of_nil in Hd. }
  rewrite IH by done. clear IH. unfold sec at 1, put_sector, write_sectors, ata_write_sector. simpl.
  rewrite (sector_addr g s b (Z.of_nat i)) by (done || lia).
  destruct (decide (a = base g b + Z.of_nat i)) as [->|Hne].
  - rewrite lookup_insert_eq. replace (base g b + Z.of_nat i - base g b) with (Z.of_nat i) by lia. rewrite Nat2Z.id.
    do 2 case_decide; rewrite ?elem_of_cons in *; try done; lia.
  - rewrite lookup_insert_ne by congruence. fold (sec s a).
    do 2 case_decide; try done; rewrite elem_of_cons in *; naive_solver lia.
Qed.

Lemma put_block_sec g s b c a :
  mounted g s -> addressable g b ->
  sec (put_block s b c) a =
  if decide (base g b <= a < base g b + block_size g / 512) then slice ((a - base g b) * 512) 512 c else sec s a.
Proof.
  intros Hm Ha. change (put_block s b c) with (foldl (put_sector b c) s (sectors_of (fs s))).
  unfold sectors_of. pose proof Hm as [(_ & _ & -> & _) _]. pose proof (spb_pos g s Hm).
  rewrite (put_sectors_sec g); [|done|done|].
  - do 2 case_decide; try done; exfalso; rewrite elem_of_seq in *; lia.
  - apply Forall_forall. intros i Hi. apply in_seq in Hi. lia.
Qed.

Lemma concat_slices (c : list Z) k n :
  len c = (Z.of_nat k + Z.of_nat n) * 512 ->
  concat (map (fun i => slice (Z.of_nat i * 512) 512 c) (seq k n)) = drop (k * 512) c.
Proof.
  revert k. induction n as [|n IH]; intros k Hl; simpl.
  - rewrite drop_ge; [done|]. lia.
  - rewrite IH by lia. unfold slice.
    replace (drop (S k * 512) c) with (drop 512 (drop (k * 512) c)) by (rewrite drop_drop; f_equal; lia).
    replace (Z.to_nat (Z.of_nat k * 512)) with (k * 512)%nat by lia. change (Z.to_nat 512) with 512%nat. apply take_drop.
Qed.

Lemma blk_put_same g s b c :
  mounted g s -> addressable g b -> len c = block_size g -> blk (put_block s b c) b = c.
Proof.
  intros Hm Ha Hc. pose proof (spb_pos g s Hm) as [Hn Hbs].
  assert (mounted g (put_block s b c)) as Hm'.
  { split; [|apply Hm]. change (put_block s b c) with (foldl (put_sector b c) s (sectors_of (fs s))).
    rewrite put_sectors_fs. apply Hm. }
  rewrite (blk_secs g) by done.
  rewrite (map_ext_in _ (fun i => slice (Z.of_nat i * 512) 512 c)).
  - rewrite concat_slices by lia. by rewrite drop_0.
  - intros i Hi. apply in_seq in Hi. rewrite (put_block_sec g) by done. rewrite decide_True by lia. f_equal. lia.
Qed.

Lemma put_mounted g s b c : mounted g s -> mounted g (put_block s b c).
Proof.
  intros Hm. split; [|apply Hm]. change (put_block s b c) with (foldl (put_sector b c) s (sectors_of (fs s))).
  rewrite put_sectors_fs. apply Hm.
Qed.

Lemma blk_put_other g s b b' c :
  mounted g s -> addressable g b -> addressable g b' -> b' <> b -> blk (put_block s b c) b' = blk s b'.
Proof.
  intros Hm Ha Ha' Hne. pose proof (spb_pos g s Hm) as [Hn Hbs].
  rewrite !(blk_secs g) by (done || by apply put_mounted). f_equal. apply map_ext_in. intros i Hi. apply in_seq in Hi.
  rewrite (put_block_sec g) by done. rewrite decide_False; [done|]. unfold base. nia.
Qed.

Lemma blk_bufs s b l : blk (with_bufs l s) b = blk s b.
Proof. done. Qed.
End Blocks.

(** * Effects of the small operations *)

(** Only buffers in [N] may differ. *)
Definition keeps (N : list nat) (s s' : est) : Prop := forall n, n ∉ N -> bufs s' !! n = bufs s !! n.

(** [s'] is [s] after reads into the buffers [N]. *)
Definition reads (N : list nat) (s s' : est) : Prop :=
  fs s' = fs s /\ dsk s' = dsk s /\ rtc s' = rtc s /\ keeps N s s'.

(** [s'] is [s] with block [b] holding [c], buffers [N] used on the way. *)
Definition stores (g : ext2_fs_t) (N : list nat) (b : Z) (c : list Z) (s s' : est) : Prop :=
  fs s' = fs s /\ rtc s' = rtc s /\ keeps N s s' /\
  forall b', addressable g b' -> blk s' b' = if decide (b' = b) then c else blk s b'.

Lemma keeps_refl N s : keeps N s s.
Proof. done. Qed.
Lemma keeps_trans N s1 s2 s3 : keeps N s1 s2 -> keeps N s2 s3 -> keeps N s1 s3.
Proof. intros H1 H2 n Hn. rewrite H2, H1; done. Qed.
Lemma keeps_weaken N N' s s' : (forall n, n ∈ N -> n ∈ N') -> keeps N s s' -> keeps N' s s'.
Proof. intros Hs Hk n Hn. apply Hk. naive_solver. Qed.
Lemma keeps_insert N n o s : n ∈ N -> keeps N s (with_bufs (<[n := o]> (bufs s)) s).
Proof. intros Hn m Hm. simpl. apply list_lookup_insert_ne. naive_solver. Qed.

Lemma reads_refl N s : reads N s s.
Proof. done. Qed.
Lemma reads_trans N s1 s2 s3 : reads N s1 s2 -> reads N s2 s3 -> reads N s1 s3.
Proof.
  intros (A1 & B1 & C1 & D1) (A2 & B2 & C2 & D2). repeat split; try congruence. by eapply keeps_trans.
Qed.
Lemma reads_insert N n o s : n ∈ N -> reads N s (with_bufs (<[n := o]> (bufs s)) s).
Proof. intros Hn. repeat split. by apply keeps_insert. Qed.
Lemma reads_weaken N N' s s' : (forall n, n ∈ N -> n ∈ N') -> reads N s s' -> reads N' s s'.
Proof. intros Hs (A & B & C & D). repeat split; try done. by eapply keeps_weaken. Qed.

Lemma reads_blk N s s' b : reads N s s' -> blk s' b = blk s b.
Proof.
  intros (Hf & Hd & _ & _). unfold block_bytes. rewrite Hf. f_equal. apply map_ext. intros i.
  unfold read_sectors, ata_read_sector, sector. by rewrite Hf, Hd.
Qed.

Lemma stores_after_reads g N b c s s1 s' : reads N s s1 -> stores g N b c s1 s' -> stores g N b c s s'.
Proof.
  intros Hr (A & B & C & D). pose proof Hr as (A1 & _ & C1 & D1). repeat split; try congruence; [by eapply keeps_trans|].
  intros b' Ha. rewrite D by done. case_decide; [done|]. by eapply reads_blk.
Qed.

Lemma stores_put g N b c s s1 :
  ready g s -> addressable g b -> len c = block_size g -> reads N s s1 -> stores g N b c s (put_block s1 b c).
Proof.
  intros Hr Ha Hc Hs. pose proof Hs as (A & B & C & D).
  assert (mounted g s1) as Hm by (split; [rewrite A; apply Hr|by apply (ready_geo g s)]).
  assert (bufs (put_block s1 b c) = bufs s1 /\ rtc (put_block s1 b c) = rtc s1) as [Hb Ht].
  { unfold put_block. generalize (sectors_of (fs s1)). intros l. generalize s1. induction l as [|i l IH]; intros st; simpl; [done|].
    destruct (IH (write_sectors (u32 (block_to_lba (fs st) b + Z.of_nat i)) (slice (Z.of_nat i * 512) 512 c) st)). done. }
  repeat split.
  - change (put_block s1 b c) with (foldl (put_sector b c) s1 (sectors_of (fs s1))). by rewrite put_sectors_fs.
  - by rewrite Ht.
  - intros n Hn. rewrite Hb. by apply D.
  - intros b' Ha'. case_decide as Hd.
    + subst b'. by apply (blk_put_same g).
    + rewrite (blk_put_other g) by done. by eapply reads_blk.
Qed.

(** The descriptor of a group and an inode as they are on the disk. *)
Definition bgd_of (s : est) (group : Z) : list Z :=
  let '(block, o) := bgd_place (fs s) group in slice o SIZEOF_BGD (blk s block).
Definition iplace (s : est) (ino : Z) : Z * Z :=
  inode_place (fs s) (bgd_of s ((ino - 1) / inodes_per_group (fs s))) ino.
Definition inode_of (s : est) (ino : Z) : list Z := let '(block, o) := iplace s ino in slice o SIZEOF_INODE (blk s block).

Lemma len_bgd_of g s group : ready g s -> 0 <= group -> len (bgd_of s group) = 32.
Proof.
  intros Hr Hg. unfold bgd_of. destruct (bgd_place (fs s) group) as [b o] eqn:E.
  destruct (bgd_place_bound g s group b o Hr Hg E). pose proof (length_block_bytes g s b Hr).
  apply length_slice; unfold SIZEOF_BGD; lia.
Qed.

Lemma len_inode_of g s ino : ready g s -> len (inode_of s ino) = 128.
Proof.
  intros Hr. unfold inode_of, iplace.
  destruct (inode_place (fs s) (bgd_of s ((ino - 1) / inodes_per_group (fs s))) ino) as [b o] eqn:E.
  destruct (inode_place_bound g s _ ino b o Hr E). pose proof (length_block_bytes g s b Hr).
  apply length_slice; unfold SIZEOF_INODE; lia.
Qed.

Lemma set_buf_twice s n x y :
  with_bufs (<[n := x]> (bufs (with_bufs (<[n := y]> (bufs s)) s))) (with_bufs (<[n := y]> (bufs s)) s) =
  with_bufs (<[n := x]> (bufs s)) s.
Proof. unfold with_bufs. simpl. by rewrite list_insert_insert_eq. Qed.

Section Ops.
Context `{BlockHeap}.
Implicit Types (g : ext2_fs_t) (s : est).

Lemma wp_read_bgd g group s :
  ready g s -> 0 <= group ->
  wp (read_block_group_bgd group) (fun r s' => r = Some (bgd_of s group) /\ ready g s' /\ reads [4%nat] s s') s.
Proof.
  intros Hr Hg. unfold read_block_group_bgd, bgd_of. apply wp_bind, wp_get.
  destruct (bgd_place (fs s) group) as [b o] eqn:E. destruct (bgd_place_bound g s group b o Hr Hg E).
  apply wp_bind, (wp_get_buf g); [done|lia|]. cbn [negb]. apply wp_bind, (wp_read_block g); [done|lia|].
  apply wp_bind, (wp_load_bytes g); [by apply ready_read|lia|lia|done|unfold SIZEOF_BGD; lia|].
  intros c Hc Hl. simpl in Hc. rewrite list_lookup_insert_eq in Hc by (rewrite (r_bufs _ _ Hr); lia). injection Hc as <-.
  apply wp_ret. split; [done|]. split; [by apply ready_read|]. apply reads_insert. set_solver.
Qed.

(** Read a block, change it in the buffer, write it back. *)
Lemma wp_update_block g n block o v s (Q : unit -> est -> Prop) :
  ready g s -> (n < 5)%nat -> addressable g block -> 0 <= o -> o + len v <= block_size g ->
  (forall s', ready g s' -> stores g [n] block (splice o v (blk s block)) s s' -> Q tt s') ->
  wp (ext2_read_block block n ;; store_bytes n o v ;; ext2_write_block block n) Q s.
Proof.
  intros Hr Hn Ha Ho Hv HQ. apply wp_bind, (wp_read_block g); [done|lia|].
  pose proof (ready_read g s n block Hr) as Hr1. apply wp_bind, (wp_store_bytes g); [done|lia|done|done|].
  intros c Hc Hl. simpl in Hc. rewrite list_lookup_insert_eq in Hc by (rewrite (r_bufs _ _ Hr); lia). injection Hc as <-.
  rewrite set_buf_twice. pose proof (length_block_bytes g s block Hr) as Hlb.
  set (s2 := with_bufs _ _). assert (ready g s2) as Hr2 by (apply ready_with_buf; [done|rewrite length_splice; lia]).
  assert (len (splice o v (blk s block)) = block_size g) as Hlen by (rewrite length_splice; lia).
  apply (wp_write_block g); [done|lia|]. intros d Hd Hld. simpl in Hd.
  rewrite list_lookup_insert_eq in Hd by (rewrite (r_bufs _ _ Hr); lia). injection Hd as <-.
  apply HQ; [by apply (put_block_frame g)|]. apply stores_put; [done..|]. apply reads_insert. set_solver.
Qed.

Lemma wp_write_bgd g group bgd s :
  ready g s -> 0 <= group -> len bgd = 32 -> addressable g (bgd_place (fs s) group).1 ->
  wp (write_bgd group bgd) (fun _ s' => ready g s' /\
    stores g [4%nat] (bgd_place (fs s) group).1
      (splice (bgd_place (fs s) group).2 bgd (blk s (bgd_place (fs s) group).1)) s s') s.
Proof.
  intros Hr Hg Hb Ha. unfold write_bgd. apply wp_bind, wp_get.
  destruct (bgd_place (fs s) group) as [b o] eqn:E. simpl in Ha. destruct (bgd_place_bound g s group b o Hr Hg E).
  apply wp_bind, (wp_get_buf g); [done|lia|]. cbn [negb]. apply (wp_update_block g); [done|lia|done|done|lia|]. done.
Qed.

Lemma wp_read_inode g ino s :
  ready g s -> 0 < ino ->
  wp (ext2_read_inode ino) (fun r s' => r = Some (inode_of s ino) /\ ready g s' /\ reads [4%nat] s s') s.
Proof.
  intros Hr Hi. unfold ext2_read_inode. rewrite (proj2 (Z.eqb_neq ino 0)) by lia. apply wp_bind, wp_get, wp_bind.
  eapply wp_mono; [apply wp_read_bgd; [done|apply Z.div_pos; [lia|apply (r_geo _ _ Hr)]]|].
  intros r s1 (-> & Hr1 & Hs1). unfold inode_of, iplace.
  destruct (inode_place (fs s) (bgd_of s ((ino - 1) / inodes_per_group (fs s))) ino) as [b o] eqn:E.
  destruct (inode_place_bound g s _ ino b o Hr E).
  apply wp_bind, (wp_get_buf g); [done|lia|]. cbn [negb]. apply wp_bind, (wp_read_block g); [done|lia|].
  apply wp_bind, (wp_load_bytes g); [by apply ready_read|lia|lia|done|unfold SIZEOF_INODE; lia|].
  intros c Hc Hl. simpl in Hc. rewrite list_lookup_insert_eq in Hc by (rewrite (r_bufs _ _ Hr1); lia). injection Hc as <-.
  apply wp_ret. rewrite (reads_blk _ _ _ b Hs1). split; [done|]. split; [rewrite <- (reads_blk _ _ _ b Hs1); by apply ready_read|].
  eapply reads_trans; [done|]. rewrite <- (reads_blk _ _ _ b Hs1). apply reads_insert. set_solver.
Qed.

Lemma wp_write_inode g ino inode s :
  ready g s -> 0 < ino -> len inode = 128 -> addressable g (iplace s ino).1 ->
  wp (ext2_write_inode ino inode) (fun r s' => r = 0 /\ ready g s' /\
    stores g [0%nat; 4%nat] (iplace s ino).1 (splice (iplace s ino).2 inode (blk s (iplace s ino).1)) s s') s.
Proof.
  intros Hr Hi Hl Ha. unfold ext2_write_inode. rewrite (proj2 (Z.eqb_neq ino 0)) by lia. apply wp_bind, wp_get, wp_bind.
  eapply wp_mono; [apply wp_read_bgd; [done|apply Z.div_pos; [lia|apply (r_geo _ _ Hr)]]|].
  intros r s1 (-> & Hr1 & Hs1). unfold iplace in *.
  destruct (inode_place (fs s) (bgd_of s ((ino - 1) / inodes_per_group (fs s))) ino) as [b o] eqn:E. simpl in Ha.
  destruct (inode_place_bound g s _ ino b o Hr E).
  apply wp_bind, (wp_get_buf g); [done|lia|]. cbn [negb].
  assert (forall (Q : Z -> est -> Prop),
    wp (ext2_read_block b 0 ;; store_bytes 0 o inode ;; ext2_write_block b 0) (fun _ s' => Q 0 s') s1 ->
    wp (ext2_read_block b 0 ;; store_bytes 0 o inode ;; ext2_write_block b 0 ;; ret 0) Q s1) as Hassoc.
  { intros Q. unfold wp, bind, ret. destruct (ext2_read_block b 0 s1) as [[? ?]|]; [|done].
    destruct (store_bytes 0 o inode _) as [[? ?]|]; [|done]. by destruct (ext2_write_block b 0 _) as [[? ?]|]. }
  apply Hassoc, (wp_update_block g); [done|lia|done|done|lia|]. intros s' Hr' Hst. split; [done|]. split; [done|].
  rewrite (reads_blk _ _ _ b Hs1) in Hst. simpl fst. simpl snd.
  eapply stores_after_reads; [eapply reads_weaken; [|done]; set_solver|].
  destruct Hst as (A & B & C & D). repeat split; try done. eapply keeps_weaken; [|done]. set_solver.
Qed.
End Ops.
