(* ===== verification/Ext2Alloc.v ===== *)
(** Allocation and release of blocks in the ext2 driver.

    [used s b]: block [b] is marked in the bitmap of group 0.  [layout g s]: the mounted
    image keeps its superblock, descriptors and bitmap in marked blocks of their own. *)
From Stdlib Require Import ZArith Lia.
From S2P Require Import Prelude Packed Ext2 Ext2Safe Ext2Demo Ext2Blocks.

Definition fdb (s : est) : Z := sb_first_data_block (sb (fs s)).
Definition total (s : est) : Z := sb_total_blocks (sb (fs s)).
Definition bmap (s : est) : Z := b_block_bitmap (bgd_of s 0).
Definition used (s : est) (b : Z) : bool := bit_of (blk s (bmap s)) (b - fdb s).
(** The block the superblock lies in. *)
Definition sb_block (g : ext2_fs_t) : Z := 1024 / block_size g.

(** What no operation on blocks changes: the places of the tables and the extent. *)
Definition meta (s : est) : Z * Z * Z * Z * Z :=
  (bmap s, b_inode_bitmap (bgd_of s 0), b_inode_table (bgd_of s 0), fdb s, total s).

(** A block of group 0's bitmap. *)
Definition inside (s : est) (b : Z) : Prop := fdb s <= b < total s /\ b - fdb s < blocks_per_group (fs s).

Record layout (g : ext2_fs_t) (s : est) : Prop := {
  l_ready : ready g s;
  l_part : 0 <= part_start_lba g /\ part_start_lba g + total s * (block_size g / 512) <= 2 ^ 28;
  l_zero : fdb s = 0 -> used s 0 = true;
  l_bgd : inside s (bgd_block g) /\ used s (bgd_block g) = true;
  l_bmap : inside s (bmap s) /\ used s (bmap s) = true /\ bmap s <> bgd_block g;
  l_sb : inside s (sb_block g) /\ used s (sb_block g) = true /\ sb_block g <> bmap s /\ sb_block g <> bgd_block g }.

(** * Bits *)

Lemma bit_of_testbit B i : 0 <= i -> bit_of B i = Z.testbit (fld 1 (i / 8) B) (i mod 8).
Proof. intros Hi. unfold bit_of. apply truthy_land_bit. apply Z.mod_pos_bound. lia. Qed.

Lemma bit_of_update B i j v :
  0 <= i < 8 * len B -> 0 <= j -> 0 <= v < 256 ->
  bit_of (set_fld 1 (i / 8) v B) j = if j / 8 =? i / 8 then Z.testbit v (j mod 8) else bit_of B j.
Proof.
  intros Hi Hj Hv. assert (0 <= i / 8) by (apply Z.div_pos; lia).
  assert (i / 8 < len B) by (apply Z.div_lt_upper_bound; lia). assert (0 <= j / 8) by (apply Z.div_pos; lia).
  rewrite !bit_of_testbit by done. destruct (Z.eqb_spec (j / 8) (i / 8)) as [->|Hne].
  - rewrite fld_set_same by lia. by rewrite Z.mod_small by (change (256 ^ Z.of_nat 1) with 256; lia).
  - rewrite fld_set_other by lia. done.
Qed.

Lemma same_bit i j : 0 <= i -> 0 <= j -> (j / 8 =? i / 8) && (i mod 8 =? j mod 8) = (j =? i).
Proof.
  intros. pose proof (Z.div_mod i 8). pose proof (Z.div_mod j 8).
  destruct (Z.eqb_spec (j / 8) (i / 8)), (Z.eqb_spec (i mod 8) (j mod 8)), (Z.eqb_spec j i); simpl; try done; subst; lia.
Qed.

Lemma bit_of_mark B i j :
  0 <= i < 8 * len B -> 0 <= j ->
  bit_of (set_fld 1 (i / 8) (fld 1 (i / 8) B .| (1 << (i mod 8))) B) j = bit_of B j || (j =? i).
Proof.
  intros Hi Hj. pose proof (fld1_range (i / 8) B). pose proof (Z.mod_pos_bound i 8). pose proof (Z.mod_pos_bound j 8).
  rewrite bit_of_update; [|done|done|].
  - rewrite testbit_lor_bit by lia. rewrite <- (same_bit i j) by lia.
    destruct (Z.eqb_spec (j / 8) (i / 8)) as [E|]; simpl; [|by rewrite orb_false_r]. rewrite bit_of_testbit, E by lia. done.
  - apply (lor_range _ _ 8); [lia|done|]. rewrite Z.shiftl_1_l. split; [lia|]. apply Z.pow_lt_mono_r; lia.
Qed.

Lemma bit_of_clear B i j :
  0 <= i < 8 * len B -> 0 <= j ->
  bit_of (set_fld 1 (i / 8) (fld 1 (i / 8) B .& not32 (1 << (i mod 8))) B) j = bit_of B j && negb (j =? i).
Proof.
  intros Hi Hj. pose proof (fld1_range (i / 8) B). pose proof (Z.mod_pos_bound i 8). pose proof (Z.mod_pos_bound j 8).
  rewrite bit_of_update; [|done|done|].
  - rewrite testbit_clear_bit by lia. rewrite <- (same_bit i j) by lia.
    destruct (Z.eqb_spec (j / 8) (i / 8)) as [E|]; simpl; [|by rewrite andb_true_r]. rewrite bit_of_testbit, E by lia. done.
  - apply (land_range_l _ _ 8); [done|]. apply u32_range.
Qed.

(** * Addresses *)

Section Alloc.
Context `{BlockHeap}.
Implicit Types (g : ext2_fs_t) (s : est).

Lemma layout_addr g s b : layout g s -> 0 <= b < total s -> addressable g b.
Proof.
  intros L Hb. destruct (l_part _ _ L). pose proof (spb_pos g s (ready_mounted _ _ (l_ready _ _ L))).
  split; [lia|]. split; [done|]. nia.
Qed.

Lemma fdb_range s : 0 <= fdb s < 2 ^ 32.
Proof. apply (fld4_range 20). Qed.

Lemma inside_addr g s b : layout g s -> inside s b -> addressable g b.
Proof. intros L [? ?]. apply (layout_addr g s); [done|]. pose proof (fdb_range s). lia. Qed.

Lemma layout_bgd_place g s : layout g s -> bgd_place (fs s) 0 = (bgd_block g, 0).
Proof.
  intros L. pose proof (inside_addr g s _ L (proj1 (l_bgd _ _ L))) as (Ha & Hp & Hb).
  pose proof (spb_pos g s (ready_mounted _ _ (l_ready _ _ L))).
  destruct (r_same _ _ (l_ready _ _ L)) as (_ & _ & Hbs & _ & _ & Hbgd & _).
  unfold bgd_place. rewrite Hbgd, Hbs, Z.div_0_l, Z.mod_0_l, Z.add_0_r by (unfold SIZEOF_BGD; destruct (ready_geo g s (l_ready _ _ L)) as [-> | [-> | ->]]; done).
  f_equal. apply u32_small. nia.
Qed.

Lemma bgd_of_0 g s : layout g s -> bgd_of s 0 = slice 0 32 (blk s (bgd_block g)).
Proof. intros L. unfold bgd_of. by rewrite (layout_bgd_place g s L). Qed.

Lemma inside_bit g s b : layout g s -> inside s b -> 0 <= b - fdb s < 8 * block_size g.
Proof.
  intros L [? ?]. pose proof (geo_bpg _ (r_geo _ _ (l_ready _ _ L))). rewrite (ready_bs g s (l_ready _ _ L)) in *. lia.
Qed.

Lemma meta_eq s s' : meta s' = meta s ->
  bmap s' = bmap s /\ b_inode_bitmap (bgd_of s' 0) = b_inode_bitmap (bgd_of s 0) /\
  b_inode_table (bgd_of s' 0) = b_inode_table (bgd_of s 0) /\ fdb s' = fdb s /\ total s' = total s.
Proof. unfold meta. intros E. by simplify_eq. Qed.

Lemma inside_transfer g s s' b : layout g s -> ready g s' -> meta s' = meta s -> inside s' b <-> inside s b.
Proof.
  intros L Hr Hm. apply meta_eq in Hm as (_ & _ & _ & Hf & Ht). unfold inside. rewrite Hf, Ht.
  destruct (r_same _ _ (l_ready _ _ L)) as (_ & _ & _ & _ & -> & _). by destruct (r_same _ _ Hr) as (_ & _ & _ & _ & -> & _).
Qed.

Lemma layout_transfer g s s' :
  layout g s -> ready g s' -> meta s' = meta s ->
  (forall b, inside s b -> used s b = true -> used s' b = true) -> layout g s'.
Proof.
  intros L Hr Hm Hu. pose proof (meta_eq _ _ Hm) as (Hb & _ & _ & Hf & Ht).
  pose proof (inside_transfer g s s' (bgd_block g) L Hr Hm). pose proof (inside_transfer g s s' (bmap s) L Hr Hm).
  pose proof (inside_transfer g s s' (sb_block g) L Hr Hm).
  destruct (l_bgd _ _ L), (l_bmap _ _ L) as (? & ? & ?), (l_sb _ _ L) as (? & ? & ? & ?).
  split; rewrite ?Hb, ?Hf, ?Ht.
  - done.
  - apply (l_part _ _ L).
  - intros E. apply Hu; [|by apply (l_zero _ _ L)]. pose proof (geo_bpg _ (r_geo _ _ (l_ready _ _ L))). unfold inside in *. lia.
  - split; [tauto|auto].
  - split; [tauto|auto].
  - split; [tauto|auto].
Qed.

Lemma blk_with_sb s b l : blk (with_sb l s) b = blk s b.
Proof. done. Qed.

(** The buffer a bitmap was read into tells which bit is free first. *)
Lemma wp_find_free_bit g n B size s (Q : option Z -> est -> Prop) :
  ready g s -> (n < 5)%nat -> bufs s !! n = Some (Some B) -> 0 <= size <= block_size g * 8 ->
  Q (find_idx (Z.to_nat size) 0 (fun i => negb (bit_of B i))) s -> wp (find_free_bit n size) Q s.
Proof.
  intros Hr Hn HB Hs HQ. unfold find_free_bit.
  assert ((size + 7) / 8 <= block_size g /\ 0 <= (size + 7) / 8).
  { split; [apply Z.lt_succ_r, Z.div_lt_upper_bound; lia|apply Z.div_pos; lia]. }
  apply wp_bind, (wp_load_bytes g); [done..|lia|lia|lia|]. intros c Hc Hl. rewrite HB in Hc. injection Hc as <-.
  apply wp_ret. assert (find_idx (Z.to_nat size) 0 (fun i => negb (bit_of (slice 0 ((size + 7) / 8) B) i)) =
    find_idx (Z.to_nat size) 0 (fun i => negb (bit_of B i))) as ->; [|done].
  assert (forall k lo, 0 <= lo -> lo + Z.of_nat k <= size ->
    find_idx k lo (fun i => negb (bit_of (slice 0 ((size + 7) / 8) B) i)) = find_idx k lo (fun i => negb (bit_of B i))) as Hf.
  { induction k as [|k IH]; intros lo Hlo Hk; simpl; [done|]. rewrite IH by lia. unfold bit_of.
    assert (lo / 8 + 1 <= (size + 7) / 8).
    { replace (lo / 8 + 1) with ((lo + 1 * 8) / 8) by (rewrite Z.div_add; lia). apply Z.div_le_mono; lia. }
    assert (0 <= lo / 8) by (apply Z.div_pos; lia). rewrite fld_slice by lia. by rewrite Z.add_0_l. }
  apply Hf; lia.
Qed.

Lemma wp_mark_bit g n B i s (Q : unit -> est -> Prop) :
  ready g s -> (n < 5)%nat -> bufs s !! n = Some (Some B) -> len B = block_size g -> 0 <= i < block_size g * 8 ->
  Q tt (with_bufs (<[n := Some (set_fld 1 (i / 8) (fld 1 (i / 8) B .| (1 << (i mod 8))) B)]> (bufs s)) s) ->
  wp (mark_bit n i) Q s.
Proof.
  intros Hr Hn HB Hl Hi HQ. destruct (bit_byte_bound g i Hi). unfold mark_bit.
  apply wp_bind, (wp_load g); [done..|lia|]. intros c Hc _. rewrite HB in Hc. injection Hc as <-.
  apply (wp_store_bytes g); [done..|rewrite length_le_bytes; lia|]. intros c Hc _. rewrite HB in Hc. by injection Hc as <-.
Qed.

Lemma wp_clear_bit g n B i s (Q : unit -> est -> Prop) :
  ready g s -> (n < 5)%nat -> bufs s !! n = Some (Some B) -> len B = block_size g -> 0 <= i < block_size g * 8 ->
  Q tt (with_bufs (<[n := Some (set_fld 1 (i / 8) (fld 1 (i / 8) B .& not32 (1 << (i mod 8))) B)]> (bufs s)) s) ->
  wp (clear_bit n i) Q s.
Proof.
  intros Hr Hn HB Hl Hi HQ. destruct (bit_byte_bound g i Hi). unfold clear_bit.
  apply wp_bind, (wp_load g); [done..|lia|]. intros c Hc _. rewrite HB in Hc. injection Hc as <-.
  apply (wp_store_bytes g); [done..|rewrite length_le_bytes; lia|]. intros c Hc _. rewrite HB in Hc. by injection Hc as <-.
Qed.
End Alloc.

(** * Counting free blocks *)

(** Blocks group 0 has, and how many are free. *)
Definition nblocks (s : est) : nat := Z.to_nat (Z.min (blocks_per_group (fs s)) (total s - fdb s)).
Definition free_count (s : est) : Z := count_range (fun i => negb (bit_of (blk s (bmap s)) i)) (nblocks s).
(** The counters of the superblock and of the descriptor agree with the bitmap. *)
Definition counted (s : est) : Prop :=
  sb_free_blocks (sb (fs s)) = free_count s /\ b_free_blocks_count (bgd_of s 0) = free_count s.

(** * The state after a bitmap, a descriptor and a superblock update

    [B] and [bgd] are the new bitmap and descriptor, [n] the superblock's new count. *)
Record remapped (g : ext2_fs_t) (B bgd : list Z) (n : Z) (D : Z -> Prop) (s s' : est) : Prop := {
  rm_ready : ready g s';
  rm_rtc : rtc s' = rtc s;
  rm_keeps : keeps [1%nat; 4%nat] s s';
  rm_sb : sb_free_blocks (sb (fs s')) = n;
  rm_extent : fdb s' = fdb s /\ total s' = total s;
  rm_bmap : blk s' (bmap s) = B;
  rm_bgd : blk s' (bgd_block g) = splice 0 bgd (blk s (bgd_block g));
  rm_rest : forall b, addressable g b -> b <> bmap s -> b <> bgd_block g -> ~ D b -> blk s' b = blk s b }.

Section Remap.
Implicit Types (g : ext2_fs_t) (s : est).

Lemma remapped_meta g B bgd n D s s' :
  layout g s -> remapped g B bgd n D s s' -> len bgd = 32 -> (forall o, 0 <= o -> o + 4 <= 12 -> fld 4 o bgd = fld 4 o (bgd_of s 0)) ->
  ready g s' -> meta s' = meta s /\ bgd_of s' 0 = bgd.
Proof.
  intros L R Hl Hf Hr'. pose proof (length_block_bytes g s (bgd_block g) (l_ready _ _ L)) as Hlb.
  pose proof (ready_geo g s (l_ready _ _ L)).
  assert (bgd_of s' 0 = bgd) as Hb.
  { unfold bgd_of.
    assert (bgd_place (fs s') 0 = (bgd_block g, 0)) as ->.
    { rewrite <- (layout_bgd_place g s L). unfold bgd_place. rewrite (ready_bs g s' Hr'), (ready_bs g s (l_ready _ _ L)).
      destruct (r_same _ _ Hr') as (_ & _ & _ & _ & _ & -> & _). by destruct (r_same _ _ (l_ready _ _ L)) as (_ & _ & _ & _ & _ & -> & _). }
    rewrite (rm_bgd _ _ _ _ _ _ _ R). unfold SIZEOF_BGD. rewrite <- Hl. apply slice_splice_same; lia. }
  split; [|done]. unfold meta, bmap, b_block_bitmap, b_inode_bitmap, b_inode_table.
  destruct (rm_extent _ _ _ _ _ _ _ R) as [-> ->]. by rewrite Hb, !Hf by lia.
Qed.

(** The superblock counter when a block is taken. *)
Definition take_count (n : Z) : Z := if 0 <? n then n - 1 else n.

Lemma extent_sb_free s v :
  length (sb (fs s)) = 1024%nat ->
  fdb (with_sb (set_sb_free_blocks v (sb (fs s))) s) = fdb s /\
  total (with_sb (set_sb_free_blocks v (sb (fs s))) s) = total s /\
  sb_free_blocks (sb (fs (with_sb (set_sb_free_blocks v (sb (fs s))) s))) = u32 v.
Proof.
  intros Hl. unfold fdb, total, sb_first_data_block, sb_total_blocks, sb_free_blocks, set_sb_free_blocks. simpl.
  rewrite !fld_set_other, fld_set_same by lia. done.
Qed.

Lemma mark_byte_len B i v g : len B = block_size g -> 0 <= i < block_size g * 8 -> len (set_fld 1 (i / 8) v B) = block_size g.
Proof. intros Hl Hi. destruct (bit_byte_bound g i Hi). rewrite length_set_fld; lia. Qed.
End Remap.

Section AllocSpec.
Context `{BlockHeap}.
Implicit Types (g : ext2_fs_t) (s : est).

(** Bitmap and descriptor after block [r] is taken. *)
Definition marked (s : est) (r : Z) : list Z :=
  let B := blk s (bmap s) in let i := r - fdb s in set_fld 1 (i / 8) (fld 1 (i / 8) B .| (1 << (i mod 8))) B.
Definition taken_bgd (s : est) : list Z :=
  let bgd := bgd_of s 0 in
  if 0 <? b_free_blocks_count bgd then set_b_free_blocks_count (b_free_blocks_count bgd - 1) bgd else bgd.

(** The bitmap is written, then the descriptor. *)
Lemma remap_two g N s s1 s2 B bgd :
  layout g s -> stores g N (bmap s) B s s1 ->
  stores g [4%nat] (bgd_block g) (splice 0 bgd (blk s1 (bgd_block g))) s1 s2 ->
  fs s2 = fs s /\ rtc s2 = rtc s /\ blk s2 (bmap s) = B /\ blk s2 (bgd_block g) = splice 0 bgd (blk s (bgd_block g)) /\
  (forall b, addressable g b -> b <> bmap s -> b <> bgd_block g -> blk s2 b = blk s b).
Proof.
  intros L (F1 & T1 & _ & B1) (F2 & T2 & _ & B2). destruct (l_bmap _ _ L) as (Hbi & _ & Hne). destruct (l_bgd _ _ L) as [Hgi _].
  pose proof (inside_addr g s _ L Hbi). pose proof (inside_addr g s _ L Hgi).
  split; [congruence|]. split; [congruence|]. rewrite !B2, !B1 by done.
  split; [by rewrite decide_False, decide_True by done|].
  split; [rewrite decide_True, decide_False by done; done|].
  intros b Hb Hb1 Hb2. by rewrite B2, decide_False, B1, decide_False by done.
Qed.

(** The superblock's counter, updated by [f] when it says so. *)
Definition count_sb (f : Z -> option Z) (s : est) : est :=
  match f (sb_free_blocks (sb (fs s))) with
  | Some v => with_sb (set_sb_free_blocks v (sb (fs s))) s
  | None => s
  end.

Lemma count_sb_spec g f s :
  ready g s -> (forall n v, 0 <= n < 2 ^ 32 -> f n = Some v -> 0 <= v < 2 ^ 32) ->
  ready g (count_sb f s) /\ fdb (count_sb f s) = fdb s /\ total (count_sb f s) = total s /\
  bufs (count_sb f s) = bufs s /\ rtc (count_sb f s) = rtc s /\ (forall b, blk (count_sb f s) b = blk s b) /\
  sb_free_blocks (sb (fs (count_sb f s))) = from_option id (sb_free_blocks (sb (fs s))) (f (sb_free_blocks (sb (fs s)))).
Proof.
  intros Hr Hf. pose proof (geo_sb _ (r_geo _ _ Hr)) as Hl. unfold count_sb.
  destruct (f (sb_free_blocks (sb (fs s)))) as [v|] eqn:E; [|by split_and!].
  destruct (extent_sb_free s v Hl) as (E1 & E2 & E3). rewrite E1, E2, E3, u32_small by (apply (Hf _ _ (fld4_range 12 _) E)).
  split_and!; try done. apply ready_with_sb; [done|]. unfold set_sb_free_blocks. rewrite length_set_fld; lia.
Qed.

(** The bitmap in buffer 1 goes to the disk, then the descriptor, then the count: the
    common end of allocation and release. *)
Lemma wp_commit g s s3 B bgd f h (Q : unit -> est -> Prop) :
  (forall st, h st = count_sb f st) -> layout g s -> ready g s3 -> reads [1%nat; 4%nat] s s3 -> bufs s3 !! 1%nat = Some (Some B) ->
  len bgd = 32 -> (forall n v, 0 <= n < 2 ^ 32 -> f n = Some v -> 0 <= v < 2 ^ 32) ->
  (forall s', remapped g B bgd (from_option id (sb_free_blocks (sb (fs s))) (f (sb_free_blocks (sb (fs s))))) (fun _ => False) s s' ->
     Q tt s') ->
  wp (ext2_write_block (bmap s) 1 ;; write_bgd 0 bgd ;; modify h) Q s3.
Proof.
  intros Hh L Hr3 Hs3 HB Hlb Hf HQ. pose proof (l_ready _ _ L) as Hr.
  pose proof (inside_addr g s _ L (proj1 (l_bmap _ _ L))) as Hab. pose proof (inside_addr g s _ L (proj1 (l_bgd _ _ L))) as Hag.
  apply wp_bind, (wp_write_block g); [done|lia|]. intros c Hc Hlc. rewrite HB in Hc. injection Hc as <-.
  destruct (put_block_frame g s3 (bmap s) B Hr3 Hlc) as (Hr4 & _).
  pose proof (stores_put g [1%nat; 4%nat] (bmap s) B s s3 Hr Hab Hlc Hs3) as Hst4. set (s4 := put_block s3 (bmap s) B) in *.
  assert (bgd_place (fs s4) 0 = (bgd_block g, 0)) as Hpl by (destruct Hst4 as (-> & _); by apply layout_bgd_place).
  apply wp_bind. eapply wp_mono; [apply (wp_write_bgd g 0 bgd); [done|done|done|by rewrite Hpl]|].
  rewrite Hpl. simpl fst. simpl snd. intros _ s5 (Hr5 & Hst5).
  destruct (remap_two g _ s s4 s5 B bgd L Hst4 Hst5) as (Hf5 & Ht5 & Hm5 & Hg5 & Ho5).
  apply wp_modify, HQ. rewrite Hh. destruct (count_sb_spec g f s5 Hr5 Hf) as (R1 & R2 & R3 & R4 & R5 & R6 & R7).
  rewrite Hf5 in R7. split; [done|congruence| |done|..].
  - intros n Hn. rewrite R4. destruct Hst5 as (_ & _ & K5 & _), Hst4 as (_ & _ & K4 & _).
    rewrite K5 by set_solver. by apply K4.
  - rewrite R2, R3. unfold fdb, total. by rewrite Hf5.
  - by rewrite R6.
  - by rewrite R6.
  - intros b Hb Hb1 Hb2 _. rewrite R6. by apply Ho5.
Qed.

Lemma wp_assoc3 {A B C D} (a : M A) (b : M B) (c : M C) (k : C -> M D) Q s :
  wp (a ;; b ;; c) (fun x s' => wp (k x) Q s') s -> wp (a ;; b ;; bind c k) Q s.
Proof.
  unfold wp, bind. destruct (a s) as [[x s1]|]; [|done]. destruct (b s1) as [[y s2]|]; [|done].
  by destruct (c s2) as [[z s3]|].
Qed.

(** A remapping followed by the store of one more block. *)
Lemma remapped_store g B bgd n s s1 r z :
  layout g s -> remapped g B bgd n (fun _ => False) s s1 -> inside s r -> r <> bmap s -> r <> bgd_block g ->
  len z = block_size g -> ready g s1 ->
  let s2 := put_block (with_bufs (<[1%nat := Some z]> (bufs s1)) s1) r z in
  blk s2 r = z /\ remapped g B bgd n (fun b => b = r) s s2.
Proof.
  intros L R Hin Hn1 Hn2 Hlz Hr1 s2. pose proof (inside_addr g s r L Hin) as Har.
  pose proof (inside_addr g s _ L (proj1 (l_bmap _ _ L))) as Hab. pose proof (inside_addr g s _ L (proj1 (l_bgd _ _ L))) as Hag.
  pose proof (ready_with_buf g s1 1 z Hr1 Hlz) as Hr1'. destruct (put_block_frame g _ r z Hr1' Hlz) as (Hr2 & _).
  destruct (stores_put g [1%nat] r z s1 _ Hr1 Har Hlz (reads_insert [1%nat] 1 (Some z) s1 ltac:(set_solver))) as (F & T & K & Bk).
  fold s2 in F, T, K, Bk, Hr2. split; [by rewrite Bk, decide_True by done|]. destruct R as [_ Rt Rk Rs [Rf Rto] Rb Rg Ro]. split; try done.
  - congruence.
  - eapply keeps_trans; [done|]. eapply keeps_weaken; [|done]. set_solver.
  - by rewrite F.
  - unfold fdb, total in *. by rewrite F.
  - by rewrite Bk, decide_False by done.
  - by rewrite Bk, decide_False by done.
  - intros b Hb Hb1 Hb2 Hb3. rewrite Bk, decide_False by done. by apply Ro; [..|intros []].
Qed.

(** The search for a free block, up to the marked bitmap in buffer 1. *)
Lemma wp_alloc_block g s :
  layout g s ->
  wp ext2_alloc_block (fun r s' =>
    (r = 0 /\ ready g s' /\ reads [1%nat; 4%nat] s s' /\ (forall b, inside s b -> used s b = true)) \/
    (inside s r /\ r <> 0 /\ used s r = false /\ blk s' r = zero_bytes (block_size g) /\
     remapped g (marked s r) (taken_bgd s) (take_count (sb_free_blocks (sb (fs s)))) (fun b => b = r) s s')) s.
Proof.
  intros L. pose proof (l_ready _ _ L) as Hr. pose proof (ready_geo g s Hr) as Hgeo. unfold ext2_alloc_block.
  apply wp_bind. eapply wp_mono; [by apply wp_read_bgd|]. intros ? s1 (-> & Hr1 & Hs1).
  apply wp_bind, (wp_get_buf g); [done|lia|]. cbn [negb]. fold (bmap s).
  apply wp_bind, (wp_read_block g); [done|lia|]. pose proof (ready_read g s1 1 (bmap s) Hr1) as Hr2.
  rewrite (reads_blk _ _ _ (bmap s) Hs1) in *. set (B := blk s (bmap s)) in *. set (s2 := with_bufs _ s1) in *.
  assert (len B = block_size g) as HlB by (by apply length_block_bytes).
  assert (bufs s2 !! 1%nat = Some (Some B)) as Hb2 by (apply list_lookup_insert_eq; rewrite (r_bufs _ _ Hr1); lia).
  assert (reads [1%nat; 4%nat] s s2) as Hs2.
  { eapply reads_trans; [eapply reads_weaken; [|exact Hs1]; set_solver|]. apply reads_insert. set_solver. }
  apply wp_bind, wp_get. destruct Hs2 as (Hfs & Hs2'). rewrite Hfs, (ready_bs g s Hr).
  pose proof (geo_bpg _ (r_geo _ _ Hr)) as Hbpg. rewrite (ready_bs g s Hr) in Hbpg.
  rewrite Z.min_l by lia. apply wp_bind, (wp_find_free_bit g 1 B); [done|lia|done|lia|].
  pose proof (fdb_range s) as Hfdb. pose proof (l_part _ _ L) as [Hp0 Hp1]. pose proof (spb_pos g s (ready_mounted _ _ Hr)) as [Hspb _].
  assert (Hsmall : fdb s < 2 ^ 28) by (destruct (l_bgd _ _ L) as [[? ?] _]; nia).
  destruct (find_idx _ 0 _) as [bit|] eqn:Ef.
  2:{ apply wp_ret. left. do 3 (split; [done|]). intros b Hb. unfold used. fold B.
      rewrite find_idx_None in Ef. specialize (Ef (b - fdb s)). unfold inside in Hb. rewrite Z2Nat.id in Ef by lia.
      apply negb_false_iff, Ef. lia. }
  apply find_idx_Some in Ef as (Hbit & Hfree & Hmin). rewrite Z2Nat.id in Hbit by lia. apply negb_true_iff in Hfree.
  unfold bit_to_block. change (sb_first_data_block (sb (fs s))) with (fdb s). change (sb_total_blocks (sb (fs s))) with (total s).
  rewrite (u32_small (fdb s + bit)) by lia.
  destruct (Z.leb_spec (total s) (fdb s + bit)) as [Hfull|Hroom].
  { apply wp_ret. left. do 3 (split; [done|]). intros b Hb. unfold used. fold B.
    apply negb_false_iff, (Hmin (b - fdb s)). unfold inside in Hb. lia. }
  set (r := fdb s + bit) in *. assert (bit = r - fdb s) as Hbr by lia. clearbody r. subst bit.
  assert (inside s r) as Hin by (unfold inside; lia). assert (used s r = false) as Hur by done.
  apply wp_bind, (wp_mark_bit g 1 B); [done|lia|done|done|lia|]. fold (marked s r). fold (taken_bgd s).
  assert (len (marked s r) = block_size g) as Hlm by (apply mark_byte_len; [done|lia]).
  set (f := fun n => if 0 <? n then Some (n - 1) else None).
  assert (len (taken_bgd s) = 32) as Hlt by (unfold taken_bgd; pose proof (len_bgd_of g s 0 Hr ltac:(lia)); case_match; set_length; done).
  assert (r <> bmap s) by (destruct (l_bmap _ _ L) as (_ & ? & _); congruence).
  assert (r <> bgd_block g) by (destruct (l_bgd _ _ L) as (_ & ?); congruence).
  eapply wp_mono with (P := fun r' s' => r' = r /\ blk s' r = zero_bytes (block_size g) /\
     remapped g (marked s r) (taken_bgd s) (take_count (sb_free_blocks (sb (fs s)))) (fun b => b = r) s s').
  2:{ intros r' s' (-> & Hz & R). right. split; [done|]. split; [|done].
      intros ->. assert (fdb s = 0) by lia. rewrite (l_zero _ _ L) in Hur by done. done. }
  set (s3 := with_bufs _ s2). assert (ready g s3) as Hr3 by (by apply ready_with_buf).
  assert (reads [1%nat; 4%nat] s s3) as Hs3 by (eapply reads_trans; [by split|]; apply reads_insert; set_solver).
  apply wp_assoc3, (wp_commit g s s3 (marked s r) (taken_bgd s) f); [|done|done|done| |done| |].
  - intros st. unfold count_sb, f. by case_match.
  - apply list_lookup_insert_eq. rewrite (r_bufs _ _ Hr2). lia.
  - intros n v Hn. unfold f. case_match; [|done]. intros [= <-]. bool_prop. lia.
  - intros s' R. set (z := zero_bytes (block_size g)). assert (len z = block_size g) as Hlz by (apply length_zero_bytes; lia).
    pose proof (rm_ready _ _ _ _ _ _ _ R) as Hr'.
    apply wp_bind, (wp_store_bytes g); [done|lia|lia|lia|]. intros c Hc Hlc. rewrite splice_full by lia.
    apply wp_bind, (wp_write_block g); [by apply ready_with_buf|lia|]. intros c' Hc' _. simpl in Hc'.
    rewrite list_lookup_insert_eq in Hc' by (rewrite (r_bufs _ _ Hr'); lia). injection Hc' as <-.
    apply wp_ret. split; [done|]. apply (remapped_store g); try done.
    unfold take_count. by destruct (0 <? sb_free_blocks (sb (fs s))) eqn:E; unfold f in R; rewrite E in R.
Qed.

(** Bitmap and descriptor after block [b] is released. *)
Definition cleared (s : est) (b : Z) : list Z :=
  let B := blk s (bmap s) in let i := b - fdb s in set_fld 1 (i / 8) (fld 1 (i / 8) B .& not32 (1 << (i mod 8))) B.
Definition freed_bgd (s : est) : list Z :=
  let bgd := bgd_of s 0 in set_b_free_blocks_count (u16 (b_free_blocks_count bgd + 1)) bgd.
Definition in_bitmap (g : ext2_fs_t) (s : est) (b : Z) : bool := (fdb s <=? b) && (b - fdb s <? block_size g * 8).

Lemma wp_free_block g b s :
  layout g s -> 0 <= b < 2 ^ 32 ->
  wp (ext2_free_block b) (fun _ s' =>
    if in_bitmap g s b && used s b
    then remapped g (cleared s b) (freed_bgd s) (u32 (sb_free_blocks (sb (fs s)) + 1)) (fun _ => False) s s'
    else ready g s' /\ reads [1%nat; 4%nat] s s') s.
Proof.
  intros L Hb32. pose proof (l_ready _ _ L) as Hr. pose proof (ready_geo g s Hr) as Hgeo. unfold ext2_free_block, in_bitmap.
  apply wp_bind, wp_get. change (sb_first_data_block (sb (fs s))) with (fdb s). pose proof (fdb_range s) as Hfdb.
  rewrite (ready_bs g s Hr).
  destruct (Z.ltb_spec b (fdb s)) as [Hlt|Hge]; [rewrite (proj2 (Z.leb_gt (fdb s) b)) by lia; apply wp_ret; by split|].
  rewrite (proj2 (Z.leb_le (fdb s) b)) by lia. unfold block_to_bit. change (sb_first_data_block (sb (fs s))) with (fdb s).
  rewrite (u32_small (b - fdb s)) by lia. simpl andb.
  destruct (Z.leb_spec (block_size g * 8) (b - fdb s)) as [Hout|Hin]; [rewrite (proj2 (Z.ltb_ge _ _)) by lia; apply wp_ret; by split|].
  rewrite (proj2 (Z.ltb_lt _ _)) by lia. simpl andb. destruct (bit_byte_bound g (b - fdb s) ltac:(lia)).
  apply wp_bind. eapply wp_mono; [by apply wp_read_bgd|]. intros ? s1 (-> & Hr1 & Hs1).
  apply wp_bind, (wp_get_buf g); [done|lia|]. cbn [negb]. fold (bmap s).
  apply wp_bind, (wp_read_block g); [done|lia|]. pose proof (ready_read g s1 1 (bmap s) Hr1) as Hr2.
  rewrite (reads_blk _ _ _ (bmap s) Hs1) in *. set (B := blk s (bmap s)) in *. set (s2 := with_bufs _ s1) in *.
  assert (len B = block_size g) as HlB by (by apply length_block_bytes).
  assert (bufs s2 !! 1%nat = Some (Some B)) as Hb2 by (apply list_lookup_insert_eq; rewrite (r_bufs _ _ Hr1); lia).
  assert (reads [1%nat; 4%nat] s s2) as Hs2.
  { eapply reads_trans; [eapply reads_weaken; [|exact Hs1]; set_solver|]. apply reads_insert. set_solver. }
  apply wp_bind, (wp_load g); [done|lia|lia|lia|]. intros c Hc _. rewrite Hb2 in Hc. injection Hc as <-.
  change (truthy (fld 1 ((b - fdb s) / 8) B .& (1 << ((b - fdb s) mod 8)))) with (used s b).
  destruct (used s b); [|by apply wp_ret].
  apply wp_bind, (wp_clear_bit g 1 B); [done|lia|done|done|lia|]. fold (cleared s b). fold (freed_bgd s).
  assert (len (cleared s b) = block_size g) as Hlm by (apply mark_byte_len; [done|lia]).
  set (s3 := with_bufs _ s2). assert (ready g s3) as Hr3 by (by apply ready_with_buf).
  apply (wp_commit g s s3 (cleared s b) (freed_bgd s) (fun n => Some (u32 (n + 1)))); try done.
  - eapply reads_trans; [done|]. apply reads_insert. set_solver.
  - apply list_lookup_insert_eq. rewrite (r_bufs _ _ Hr2). lia.
  - unfold freed_bgd. pose proof (len_bgd_of g s 0 Hr ltac:(lia)). set_length; done.
  - intros n v _ [= <-]. apply u32_range.
Qed.
End AllocSpec.

(** * What the remappings mean *)

Section Meaning.
Implicit Types (g : ext2_fs_t) (s : est).

Lemma taken_bgd_fld g s w o : layout g s -> 0 <= o -> o + Z.of_nat w <= 12 -> fld w o (taken_bgd s) = fld w o (bgd_of s 0).
Proof.
  intros L Ho Hw. pose proof (len_bgd_of g s 0 (l_ready _ _ L) ltac:(lia)). unfold taken_bgd. case_match; [|done].
  unfold set_b_free_blocks_count. rewrite fld_set_other; [done|lia..].
Qed.

Lemma freed_bgd_fld g s w o : layout g s -> 0 <= o -> o + Z.of_nat w <= 12 -> fld w o (freed_bgd s) = fld w o (bgd_of s 0).
Proof.
  intros L Ho Hw. pose proof (len_bgd_of g s 0 (l_ready _ _ L) ltac:(lia)). unfold freed_bgd.
  unfold set_b_free_blocks_count. rewrite fld_set_other; [done|lia..].
Qed.

Lemma len_bmap g s : layout g s -> len (blk s (bmap s)) = block_size g.
Proof. intros L. apply length_block_bytes, L. Qed.

(** A remapping with a descriptor that keeps the places of the tables. *)
Lemma remapped_used g B bgd n D s s' :
  layout g s -> remapped g B bgd n D s s' -> len bgd = 32 ->
  (forall o, 0 <= o -> o + 4 <= 12 -> fld 4 o bgd = fld 4 o (bgd_of s 0)) ->
  meta s' = meta s /\ bgd_of s' 0 = bgd /\ (forall b, used s' b = bit_of B (b - fdb s)) /\ nblocks s' = nblocks s.
Proof.
  intros L R Hl Hf. pose proof (rm_ready _ _ _ _ _ _ _ R) as Hr'.
  destruct (remapped_meta g B bgd n D s s' L R Hl Hf Hr') as [Hm Hb]. split; [done|]. split; [done|].
  apply meta_eq in Hm as (Hbm & _ & _ & Hfd & Ht). split.
  - intros b. unfold used. by rewrite Hbm, Hfd, (rm_bmap _ _ _ _ _ _ _ R).
  - unfold nblocks. rewrite Hfd, Ht. destruct (r_same _ _ (l_ready _ _ L)) as (_ & _ & _ & _ & -> & _).
    by destruct (r_same _ _ Hr') as (_ & _ & _ & _ & -> & _).
Qed.

Lemma len_taken g s : layout g s -> len (taken_bgd s) = 32.
Proof. intros L. unfold taken_bgd. pose proof (len_bgd_of g s 0 (l_ready _ _ L) ltac:(lia)). case_match; set_length; done. Qed.
Lemma len_freed g s : layout g s -> len (freed_bgd s) = 32.
Proof. intros L. unfold freed_bgd. pose proof (len_bgd_of g s 0 (l_ready _ _ L) ltac:(lia)). set_length; done. Qed.

Lemma alloc_used g s s' r n :
  layout g s -> inside s r -> remapped g (marked s r) (taken_bgd s) n (fun b => b = r) s s' ->
  layout g s' /\ meta s' = meta s /\ (forall b, inside s b -> used s' b = used s b || (b =? r)).
Proof.
  intros L Hin R. pose proof (len_bmap g s L) as HlB. pose proof (inside_bit g s r L Hin).
  destruct (remapped_used g _ _ _ _ s s' L R (len_taken g s L)) as (Hm & _ & Hu & _).
  { intros. by apply (taken_bgd_fld g). }
  assert (forall b, inside s b -> used s' b = used s b || (b =? r)) as Hus.
  { intros b Hb. pose proof (inside_bit g s b L Hb). rewrite Hu. unfold marked. rewrite bit_of_mark by lia.
    fold (used s b). f_equal. destruct (Z.eqb_spec b r), (Z.eqb_spec (b - fdb s) (r - fdb s)); lia. }
  split; [|done]. apply (layout_transfer g s); [done|apply R|done|]. intros b Hb Hbu. by rewrite Hus, Hbu.
Qed.

Lemma free_used g s s' r n :
  layout g s -> inside s r -> r <> bgd_block g -> r <> bmap s -> r <> sb_block g -> r <> 0 ->
  remapped g (cleared s r) (freed_bgd s) n (fun _ => False) s s' ->
  layout g s' /\ meta s' = meta s /\ (forall b, inside s b -> used s' b = used s b && negb (b =? r)).
Proof.
  intros L Hin H1 H2 H3 H4 R. pose proof (len_bmap g s L) as HlB. pose proof (inside_bit g s r L Hin).
  destruct (remapped_used g _ _ _ _ s s' L R (len_freed g s L)) as (Hm & _ & Hu & _).
  { intros. by apply (freed_bgd_fld g). }
  assert (forall b, inside s b -> used s' b = used s b && negb (b =? r)) as Hus.
  { intros b Hb. pose proof (inside_bit g s b L Hb). rewrite Hu. unfold cleared. rewrite bit_of_clear by lia.
    fold (used s b). f_equal. f_equal. destruct (Z.eqb_spec b r), (Z.eqb_spec (b - fdb s) (r - fdb s)); lia. }
  split; [|done]. pose proof (rm_ready _ _ _ _ _ _ _ R) as Hr'.
  pose proof (meta_eq _ _ Hm) as (Hb & _ & _ & Hf & Ht).
  destruct (l_bgd _ _ L) as [Hg1 Hg2], (l_bmap _ _ L) as (Hb1 & Hb2 & Hb3), (l_sb _ _ L) as (Hs1 & Hs2 & Hs3 & Hs4).
  pose proof (inside_transfer g s s' (bgd_block g) L Hr' Hm). pose proof (inside_transfer g s s' (bmap s) L Hr' Hm).
  pose proof (inside_transfer g s s' (sb_block g) L Hr' Hm).
  assert (forall b, inside s b -> used s b = true -> b <> r -> used s' b = true) as Hkeep.
  { intros b Hi Hbu Hne. rewrite Hus, Hbu by done. by rewrite (proj2 (Z.eqb_neq b r)). }
  split; rewrite ?Hb, ?Hf, ?Ht; [done|apply (l_part _ _ L)| | | |].
  - intros E. apply Hkeep; [|by apply (l_zero _ _ L)|done]. pose proof (geo_bpg _ (r_geo _ _ (l_ready _ _ L))). unfold inside in *. lia.
  - split; [tauto|auto].
  - split; [tauto|auto].
  - split; [tauto|auto].
Qed.

Lemma free_count_range s : 0 <= free_count s <= Z.of_nat (nblocks s).
Proof. apply count_range_bounds. Qed.

Lemma nblocks_small g s : layout g s -> Z.of_nat (nblocks s) <= 32768.
Proof.
  intros L. unfold nblocks. pose proof (geo_bpg _ (r_geo _ _ (l_ready _ _ L))).
  pose proof (ready_geo g s (l_ready _ _ L)). rewrite (ready_bs g s (l_ready _ _ L)) in *. lia.
Qed.

Lemma inside_nblocks s b : inside s b -> 0 <= b - fdb s < Z.of_nat (nblocks s).
Proof. unfold inside, nblocks. lia. Qed.

Lemma free_count_change g B bgd n D s s' k :
  layout g s -> remapped g B bgd n D s s' -> len bgd = 32 ->
  (forall o, 0 <= o -> o + 4 <= 12 -> fld 4 o bgd = fld 4 o (bgd_of s 0)) ->
  k = count_range (fun i => negb (bit_of B i)) (nblocks s) ->
  free_count s' = k /\ sb_free_blocks (sb (fs s')) = n /\ b_free_blocks_count (bgd_of s' 0) = b_free_blocks_count bgd.
Proof.
  intros L R Hl Hf ->. destruct (remapped_used g B bgd n D s s' L R Hl Hf) as (Hm & Hb & _ & Hn).
  apply meta_eq in Hm as (Hbm & _). unfold free_count. rewrite Hn, Hbm, (rm_bmap _ _ _ _ _ _ _ R), Hb.
  split; [done|]. split; [by apply R|done].
Qed.

Lemma alloc_counted g s s' r :
  layout g s -> inside s r -> used s r = false -> counted s ->
  remapped g (marked s r) (taken_bgd s) (take_count (sb_free_blocks (sb (fs s)))) (fun b => b = r) s s' -> counted s'.
Proof.
  intros L Hin Hur [C1 C2] R. pose proof (len_bmap g s L) as HlB. pose proof (inside_bit g s r L Hin).
  pose proof (inside_nblocks s r Hin). pose proof (nblocks_small g s L) as Hsm.
  destruct (free_count_change g _ _ _ _ s s' _ L R (len_taken g s L) ltac:(intros; by apply (taken_bgd_fld g)) eq_refl) as (F & S1 & S2).
  assert (free_count s = free_count s' + 1) as Hf.
  { rewrite F. unfold free_count. apply (count_range_flip _ _ _ (r - fdb s)); [done| | |].
    - intros i Hi Hne. unfold marked. rewrite bit_of_mark by lia. rewrite (proj2 (Z.eqb_neq i (r - fdb s))) by done. by rewrite orb_false_r.
    - unfold used in Hur. by rewrite Hur.
    - unfold marked. rewrite bit_of_mark by lia. by rewrite Z.eqb_refl, orb_true_r. }
  pose proof (free_count_range s'). unfold counted. rewrite S1, S2. unfold take_count, taken_bgd. rewrite C1, C2.
  rewrite (proj2 (Z.ltb_lt 0 (free_count s))) by lia. split; [lia|].
  unfold b_free_blocks_count, set_b_free_blocks_count. pose proof (len_bgd_of g s 0 (l_ready _ _ L) ltac:(lia)).
  pose proof (free_count_range s). rewrite fld_set_same by lia. rewrite Z.mod_small by (change (256 ^ Z.of_nat 2) with 65536; lia). lia.
Qed.

Lemma free_counted g s s' r :
  layout g s -> inside s r -> used s r = true -> counted s ->
  remapped g (cleared s r) (freed_bgd s) (u32 (sb_free_blocks (sb (fs s)) + 1)) (fun _ => False) s s' -> counted s'.
Proof.
  intros L Hin Hur [C1 C2] R. pose proof (len_bmap g s L) as HlB. pose proof (inside_bit g s r L Hin).
  pose proof (inside_nblocks s r Hin). pose proof (nblocks_small g s L) as Hsm.
  destruct (free_count_change g _ _ _ _ s s' _ L R (len_freed g s L) ltac:(intros; by apply (freed_bgd_fld g)) eq_refl) as (F & S1 & S2).
  assert (free_count s' = free_count s + 1) as Hf.
  { rewrite F. unfold free_count. apply (count_range_flip _ _ _ (r - fdb s)); [done| | |].
    - intros i Hi Hne. unfold cleared. rewrite bit_of_clear by lia. rewrite (proj2 (Z.eqb_neq i (r - fdb s))) by done. by rewrite andb_true_r.
    - unfold cleared. rewrite bit_of_clear by lia. by rewrite Z.eqb_refl, andb_false_r.
    - unfold used in Hur. by rewrite Hur. }
  pose proof (free_count_range s). unfold counted. rewrite S1, S2. unfold freed_bgd. rewrite C1, C2.
  split; [rewrite u32_small by lia; lia|].
  unfold b_free_blocks_count, set_b_free_blocks_count. pose proof (len_bgd_of g s 0 (l_ready _ _ L) ltac:(lia)).
  rewrite u16_small by lia. rewrite fld_set_same by lia. rewrite Z.mod_small by (change (256 ^ Z.of_nat 2) with 65536; lia). lia.
Qed.
End Meaning.

(** * Theorems *)

(** C32: the block allocator returns the first free block of the group, zeroed and now marked
    used, or 0 exactly when every block is in use; it changes no other block that is in use
    besides the bitmap and the descriptors, marks no other block, and keeps the free counts of
    the superblock and the descriptor equal to the number of clear bits. *)
Theorem ext2_alloc_block_correct `{BlockHeap} g s :
  layout g s -> counted s ->
  exists r s', ext2_alloc_block s = Some (r, s') /\ layout g s' /\ counted s' /\ keeps [1%nat; 4%nat] s s' /\
    ((r = 0 /\ dsk s' = dsk s /\ (forall b, inside s b -> used s b = true)) \/
     (inside s r /\ r <> 0 /\ used s r = false /\ blk s' r = zero_bytes (block_size g) /\
      (forall b, inside s b -> used s' b = used s b || (b =? r)) /\
      (forall b, inside s b -> used s b = true -> b <> bmap s -> b <> bgd_block g -> blk s' b = blk s b))).
Proof.
  intros L C. destruct (wp_returns _ _ _ (wp_alloc_block g s L)) as (r & s' & E & HP). exists r, s'. split; [done|].
  destruct HP as [(-> & Hr' & Hs & Hall) | (Hin & Hr0 & Hur & Hz & R)].
  - pose proof Hs as (Hf & Hd & _ & Hk).
    assert (bgd_of s' 0 = bgd_of s 0) as Hb by (unfold bgd_of; rewrite Hf; case_match; by rewrite (reads_blk _ _ _ _ Hs)).
    assert (meta s' = meta s) as Hm by (unfold meta, bmap, fdb, total; by rewrite Hb, Hf).
    assert (forall b, used s' b = used s b) as Hu by (intros b; unfold used, bmap, fdb; rewrite Hb, Hf; by rewrite (reads_blk _ _ _ _ Hs)).
    split; [apply (layout_transfer g s); try done; intros; by rewrite Hu|]. split; [|split; [done|left; done]].
    unfold counted, free_count, nblocks, bmap, fdb, total. rewrite Hb, Hf, (reads_blk _ _ _ _ Hs). exact C.
  - destruct (alloc_used g s s' r _ L Hin R) as (L' & Hm & Hu).
    split; [done|]. split; [by apply (alloc_counted g s s' r)|]. split; [apply R|]. right. do 4 (split; [done|]). split; [done|].
    intros b Hb Hbu H1 H2. apply R; [by apply (inside_addr g s)|done|done|]. congruence.
Qed.

Definition layoutb (s : est) : bool :=
  let g := fs s in
  let inb b := (fdb s <=? b) && (b <? total s) && (b - fdb s <? blocks_per_group g) in
  readyb s && (0 <=? part_start_lba g) && (part_start_lba g + total s * (block_size g / 512) <=? 2 ^ 28) &&
  (negb (fdb s =? 0) || used s 0) && inb (bgd_block g) && used s (bgd_block g) && inb (bmap s) && used s (bmap s) &&
  negb (bmap s =? bgd_block g) && inb (sb_block g) && used s (sb_block g) && negb (sb_block g =? bmap s) &&
  negb (sb_block g =? bgd_block g).

Lemma layoutb_ok s : layoutb s = true -> layout (fs s) s.
Proof.
  unfold layoutb. intros Hb. bool_prop. split; unfold inside.
  - by apply readyb_ok.
  - lia.
  - intros E. match goal with H : _ || _ = true |- _ => apply orb_true_iff in H as [H|H]; [|done]; bool_prop; lia end.
  - split; [lia|done].
  - split; [lia|]. split; [done|lia].
  - split; [lia|]. split; [done|]. split; lia.
Qed.

Lemma demo_layout : layout (fs demo_fs) demo_fs.
Proof. apply layoutb_ok. vm_compute. reflexivity. Qed.

Lemma ext2_alloc_block_correct_witness :
  exists s', ext2_alloc_block demo_fs = Some (8, s') /\ layout (fs demo_fs) s' /\ counted s' /\ used s' 8 = true.
Proof.
  destruct (ext2_alloc_block_correct (fs demo_fs) demo_fs demo_layout) as (r & s' & E & L & C & _ & HP).
  { split; vm_compute; reflexivity. }
  assert (exists s1, ext2_alloc_block demo_fs = Some (8, s1)) as [s1 E1] by (eexists; vm_compute; reflexivity).
  rewrite E in E1. injection E1 as -> <-. exists s'. split; [exact E|]. split; [exact L|]. split; [exact C|].
  destruct HP as [(H0 & _) | (Hin & _ & _ & _ & Hu & _)]; [discriminate|]. rewrite (Hu 8 Hin). apply orb_true_r.
Defined.
