(* ===== verification/Ext2Free.v ===== *)
(** Releasing the blocks of an inode: free_inode_blocks against the list of blocks the
    inode reaches, with the pointer arrays lying in the shared buffers while the bitmap is
    updated through other buffers. *)
From Stdlib Require Import ZArith Lia.
From S2P Require Import Prelude Packed Ext2 Ext2Safe Ext2Demo Ext2Blocks Ext2Alloc.

(** * Reference: the blocks an inode reaches *)

(** Non-zero entries [i, i + k) of a pointer block. *)
Fixpoint ptrs_from (k : nat) (i : Z) (P : list Z) : list Z :=
  match k with
  | O => []
  | S k' => let p := fld 4 (4 * i) P in (if p =? 0 then [] else [p]) ++ ptrs_from k' (i + 1) P
  end.
Definition ptrs_of (g : ext2_fs_t) (P : list Z) : list Z := ptrs_from (Z.to_nat (block_size g / 4)) 0 P.

Fixpoint direct_blocks (k : nat) (i : Z) (inode : list Z) : list Z :=
  match k with
  | O => []
  | S k' => (if i_block i inode =? 0 then [] else [i_block i inode]) ++ direct_blocks k' (i + 1) inode
  end.

Definition indirect_blocks (g : ext2_fs_t) (s : est) (inode : list Z) : list Z :=
  let b := i_block 12 inode in if b =? 0 then [] else ptrs_of g (blk s b) ++ [b].
Definition double_blocks (g : ext2_fs_t) (s : est) (inode : list Z) : list Z :=
  let b := i_block 13 inode in
  if b =? 0 then [] else concat (map (fun d => ptrs_of g (blk s d) ++ [d]) (ptrs_of g (blk s b))) ++ [b].

Definition inode_blocks (g : ext2_fs_t) (s : est) (inode : list Z) : list Z :=
  direct_blocks 12 0 inode ++ indirect_blocks g s inode ++ double_blocks g s inode.

(** A block that may hold file data: of the group, in use, not one of the tables. *)
Definition data_blk (g : ext2_fs_t) (s : est) (b : Z) : Prop :=
  inside s b /\ used s b = true /\ b <> bgd_block g /\ b <> bmap s /\ b <> sb_block g /\ b <> 0.

(** [st] is [s] with the blocks [l] released. *)
Record released (g : ext2_fs_t) (s : est) (l : list Z) (st : est) : Prop := {
  rl_layout : layout g st;
  rl_meta : meta st = meta s;
  rl_rtc : rtc st = rtc s;
  rl_counted : counted s -> counted st;
  rl_used : forall b, inside s b -> used st b = used s b && negb (bool_decide (b ∈ l));
  rl_rest : forall b, addressable g b -> b <> bmap s -> b <> bgd_block g -> blk st b = blk s b }.

Section Free.
Context `{BlockHeap}.
Implicit Types (g : ext2_fs_t) (s st : est).

Lemma released_nil g s : layout g s -> released g s [] s.
Proof. intros L. split; try done. intros b Hb. rewrite bool_decide_eq_false_2 by set_solver. by rewrite andb_true_r. Qed.

Lemma used_range g s b : layout g s -> inside s b -> 0 <= b < 2 ^ 32.
Proof. intros L Hb. pose proof (inside_addr g s b L Hb) as (? & ? & ?). pose proof (spb_pos g s (ready_mounted _ _ (l_ready _ _ L))). nia. Qed.

Lemma wp_release g s l st b :
  layout g s -> released g s l st -> data_blk g s b -> b ∉ l ->
  wp (ext2_free_block b) (fun _ st' => released g s (l ++ [b]) st' /\ keeps [1%nat; 4%nat] st st') st.
Proof.
  intros L R (Hin & Hu & H1 & H2 & H3 & H4) Hl. pose proof (rl_layout _ _ _ _ R) as Lt.
  pose proof (rl_meta _ _ _ _ R) as Hm. pose proof (meta_eq _ _ Hm) as (Hbm & _ & _ & Hf & _).
  assert (inside st b) as Hit by (by apply (inside_transfer g s st b L (l_ready _ _ Lt) Hm)).
  assert (used st b = true) as Hut by (rewrite (rl_used _ _ _ _ R) by done; rewrite Hu, bool_decide_eq_false_2; done).
  eapply wp_mono; [apply (wp_free_block g b st Lt); by apply (used_range g s)|]. intros u st' HR. cbv beta in HR.
  pose proof (inside_bit g st b Lt Hit).
  assert (in_bitmap g st b = true) as Hib by (unfold in_bitmap; apply andb_true_iff; split; [apply Z.leb_le|apply Z.ltb_lt]; lia).
  rewrite Hib, Hut in HR. cbn [andb] in HR.
  destruct (free_used g st st' b _ Lt Hit H1 ltac:(congruence) H3 H4 HR) as (L' & Hm' & Hu'). split; [|apply HR].
  split; [done|congruence|rewrite (rm_rtc _ _ _ _ _ _ _ HR); apply R| | |].
  - intros C. apply (free_counted g st st' b); try done. by apply R.
  - intros c Hc. rewrite Hu' by (by apply (inside_transfer g s st c L (l_ready _ _ Lt) Hm)).
    rewrite (rl_used _ _ _ _ R) by done. rewrite <- andb_assoc. f_equal.
    destruct (Z.eqb_spec c b) as [->|Hne].
    + rewrite andb_false_r. symmetry. apply negb_false_iff, bool_decide_eq_true. set_solver.
    + rewrite andb_true_r. f_equal. apply bool_decide_ext. set_solver.
  - intros c Hc Hc1 Hc2. rewrite (rm_rest _ _ _ _ _ _ _ HR) by (done || congruence || tauto). by apply R.
Qed.

(** Walking the pointers of a block that lies in buffer [m] while each is processed with
    other buffers: [c p] is what processing [p] releases, [J] what it keeps. *)
Lemma wp_each_pointer g s P (J : est -> Prop) m c body k i l st :
  (forall st, J st -> bufs st !! m = Some (Some P)) ->
  (m < 5)%nat -> 0 <= i -> 4 * (i + Z.of_nat k) <= block_size g ->
  (forall p l st, In p (ptrs_from k i P) -> released g s l st -> NoDup (l ++ c p) -> J st ->
     wp (body p) (fun _ st' => released g s (l ++ c p) st' /\ J st') st) ->
  released g s l st -> J st -> NoDup (l ++ concat (map c (ptrs_from k i P))) ->
  wp (each_pointer k i m body) (fun _ st' => released g s (l ++ concat (map c (ptrs_from k i P))) st' /\ J st') st.
Proof.
  intros HJ Hm. revert i l st. induction k as [|k IH]; intros i l st Hi Hk Hbody R Hj Hnd; cbn [each_pointer ptrs_from].
  { apply wp_ret. cbn [map concat]. by rewrite app_nil_r. }
  apply wp_bind, (wp_load g); [apply R|done|lia|lia|]. intros Q HQ _. rewrite (HJ st Hj) in HQ. injection HQ as <-.
  cbn [ptrs_from] in Hnd, Hbody. destruct (Z.eqb_spec (fld 4 (4 * i) P) 0) as [E|E]; simpl app in *.
  - apply wp_bind, wp_ret. apply IH; try done; try lia.
  - cbn [map concat] in Hnd |- *. rewrite app_assoc in Hnd |- *. apply wp_bind.
    eapply wp_mono; [apply Hbody; [by left|done|by apply list.NoDup_app in Hnd as [Hnd _]|done]|].
    intros _ st' [R' HP']. apply IH; try done; try lia. intros p l' st'' Hp. apply Hbody. by right.
Qed.

Lemma concat_singletons (l : list Z) : concat (map (fun p => [p]) l) = l.
Proof. induction l as [|x l IH]; simpl; [done|]. by rewrite IH. Qed.

Lemma quarter g st : ready g st -> 4 * (0 + Z.of_nat (Z.to_nat (block_size g / 4))) <= block_size g.
Proof. intros Hr. destruct (ptrs_bound g st Hr) as [E ?]. rewrite (ready_bs g st Hr) in *. lia. Qed.

(** Releasing the entries of a pointer block through buffer [m], then the block itself. *)
Lemma wp_free_pointers g s m b l st :
  layout g s -> (m = 0 \/ m = 2)%nat -> released g s l st -> data_blk g s b ->
  Forall (data_blk g s) (ptrs_of g (blk s b)) -> NoDup (l ++ ptrs_of g (blk s b) ++ [b]) ->
  wp (ext2_read_block b m ;; each_pointer (Z.to_nat (block_size g / 4)) 0 m ext2_free_block ;; ext2_free_block b)
    (fun _ st' => released g s (l ++ ptrs_of g (blk s b) ++ [b]) st' /\ keeps [1%nat; 4%nat; m] st st') st.
Proof.
  intros L Hm R Hb Hp Hnd. pose proof (rl_layout _ _ _ _ R) as Lt. pose proof (l_ready _ _ Lt) as Hrt.
  apply wp_bind, (wp_read_block g); [done|lia|].
  assert (blk st b = blk s b) as Hbs.
  { destruct Hb as (Hin & _ & H1 & H2 & _). apply R; try done. by apply (inside_addr g s). }
  rewrite Hbs. set (P := blk s b) in *. set (st1 := with_bufs _ st).
  assert (released g s l st1) as R1.
  { destruct R as [Ra Rb Rc Rd Re Rf]. split; try done. apply (layout_transfer g st); try done.
    apply ready_with_buf; [done|]. rewrite <- Hbs. by apply length_block_bytes. }
  rewrite app_assoc in Hnd |- *. apply list.NoDup_app in Hnd as (Hnd1 & Hnd2 & _).
  set (J := fun st' => bufs st' !! m = Some (Some P) /\ keeps [1%nat; 4%nat; m] st st').
  assert (J st1) as J1.
  { split; [apply list_lookup_insert_eq; rewrite (r_bufs _ _ Hrt); lia|apply keeps_insert; set_solver]. }
  apply wp_bind. eapply wp_mono.
  - apply (wp_each_pointer g s P J m (fun p => [p]) ext2_free_block _ 0 l st1); try done.
    + by intros ? [? _].
    + lia.
    + by apply (quarter g st).
    + intros p l' st' Hin R' Hnl [HP' HJ']. eapply wp_mono.
      * apply (wp_release g s l' st' p L R'); [by eapply Forall_forall; [exact Hp|]|].
        apply list.NoDup_app in Hnl as (_ & Hnl & _). intros Hpl. apply (Hnl p Hpl). set_solver.
      * intros _ st'' [R'' K'']. split; [done|]. split; [rewrite K''; [done|set_solver by lia]|].
        eapply keeps_trans; [exact HJ'|]. eapply keeps_weaken; [|exact K'']. set_solver.
    + by rewrite concat_singletons.
  - rewrite concat_singletons. intros _ st2 [R2 [_ J2]]. eapply wp_mono; [apply (wp_release g s _ st2 b L R2 Hb)|].
    + intros Hin. apply (Hnd2 b Hin). set_solver.
    + intros _ st3 [R3 K3]. split; [done|]. eapply keeps_trans; [exact J2|]. eapply keeps_weaken; [|exact K3]. set_solver.
Qed.

Lemma i_block_set i j v inode :
  len inode = 128 -> 0 <= i < 15 -> 0 <= j < 15 ->
  i_block j (set_i_block i v inode) = if j =? i then u32 v else i_block j inode.
Proof.
  intros Hl Hi Hj. unfold i_block, set_i_block. destruct (Z.eqb_spec j i) as [->|].
  - rewrite fld_set_same by lia. done.
  - rewrite fld_set_other by lia. done.
Qed.

Lemma len_set_i_block i v inode : len inode = 128 -> 0 <= i < 15 -> len (set_i_block i v inode) = 128.
Proof. intros. set_length; lia. Qed.

Lemma direct_blocks_ext k i a b :
  (forall j, i <= j < i + Z.of_nat k -> i_block j a = i_block j b) -> direct_blocks k i a = direct_blocks k i b.
Proof.
  revert i. induction k as [|k IH]; intros i He; simpl; [done|]. rewrite (He i) by lia. f_equal. apply IH. intros. apply He. lia.
Qed.

Lemma wp_free_direct g s k i inode l st :
  layout g s -> 0 <= i -> i + Z.of_nat k <= 12 -> len inode = 128 -> released g s l st ->
  Forall (data_blk g s) (direct_blocks k i inode) -> NoDup (l ++ direct_blocks k i inode) ->
  wp (free_direct k i inode) (fun inode' st' =>
    released g s (l ++ direct_blocks k i inode) st' /\ len inode' = 128 /\
    (forall j, 0 <= j < 15 -> i_block j inode' = if (i <=? j) && (j <? i + Z.of_nat k) then 0 else i_block j inode)) st.
Proof.
  intros L. revert i inode l st. induction k as [|k IH]; intros i inode l st Hi Hk Hl R Hd Hnd; cbn [free_direct direct_blocks].
  { apply wp_ret. rewrite app_nil_r. split; [done|]. split; [done|]. intros j Hj. by destruct (Z.leb_spec i j), (Z.ltb_spec j (i + Z.of_nat 0)); simpl; try lia. }
  cbn [direct_blocks] in Hd, Hnd. destruct (Z.eqb_spec (i_block i inode) 0) as [E|E]; simpl app in *.
  - eapply wp_mono; [by apply IH; [lia|lia|..]|]. intros inode' st' (R' & Hl' & Hb'). split; [done|]. split; [done|].
    intros j Hj. rewrite Hb' by done. destruct (Z.leb_spec (i + 1) j), (Z.ltb_spec j (i + 1 + Z.of_nat k)), (Z.leb_spec i j), (Z.ltb_spec j (i + Z.of_nat (S k)));
      simpl; try lia; try done. replace j with i by lia. done.
  - apply Forall_cons_iff in Hd as [Hdi Hd]. replace (l ++ i_block i inode :: direct_blocks k (i + 1) inode)
      with ((l ++ [i_block i inode]) ++ direct_blocks k (i + 1) inode) in * by (by rewrite <- app_assoc).
    apply wp_bind. eapply wp_mono.
    { apply (wp_release g s l st _ L R Hdi). apply list.NoDup_app in Hnd as [Hnd _]. apply list.NoDup_app in Hnd as (_ & Hn & _).
      intros Hin. apply (Hn _ Hin). set_solver. }
    intros _ st1 [R1 _].
    assert (direct_blocks k (i + 1) (set_i_block i 0 inode) = direct_blocks k (i + 1) inode) as He.
    { apply direct_blocks_ext. intros j Hj. rewrite i_block_set by lia. by rewrite (proj2 (Z.eqb_neq j i)) by lia. }
    eapply wp_mono; [apply (IH (i + 1) (set_i_block i 0 inode)); [lia|lia|by apply len_set_i_block; [|lia]|done|by rewrite He|by rewrite He]|].
    rewrite He. intros inode' st' (R' & Hl' & Hb'). split; [done|]. split; [done|].
    intros j Hj. rewrite Hb', i_block_set by lia.
    destruct (Z.leb_spec (i + 1) j), (Z.ltb_spec j (i + 1 + Z.of_nat k)), (Z.leb_spec i j), (Z.ltb_spec j (i + Z.of_nat (S k))), (Z.eqb_spec j i);
      simpl; try lia; try done.
Qed.

(** What the code relies on: every block the inode reaches is a data block in use, and no
    block is reached twice. *)
Definition owns (g : ext2_fs_t) (s : est) (inode : list Z) : Prop :=
  len inode = 128 /\ Forall (data_blk g s) (inode_blocks g s inode) /\ NoDup (inode_blocks g s inode).

Lemma released_app g s l l' st : released g s l st -> l = l' -> released g s l' st.
Proof. by intros R ->. Qed.

Lemma wp_free_indirect g s inode l st :
  layout g s -> len inode = 128 -> released g s l st -> Forall (data_blk g s) (indirect_blocks g s inode) ->
  NoDup (l ++ indirect_blocks g s inode) ->
  wp (if i_block 12 inode =? 0 then ret inode else
      get_block_buf ;; ext2_read_block (i_block 12 inode) 0 ;;
      each_pointer (Z.to_nat (block_size g / 4)) 0 0 ext2_free_block ;; ext2_free_block (i_block 12 inode) ;;
      ret (set_i_block 12 0 inode))
    (fun inode' st' => released g s (l ++ indirect_blocks g s inode) st' /\ len inode' = 128 /\
       (forall j, 0 <= j < 15 -> i_block j inode' = if j =? 12 then 0 else i_block j inode)) st.
Proof.
  intros L Hl R Hd Hnd. unfold indirect_blocks in *. destruct (Z.eqb_spec (i_block 12 inode) 0) as [E|E].
  { apply wp_ret. rewrite app_nil_r. split; [done|]. split; [done|]. intros j Hj. by destruct (Z.eqb_spec j 12) as [->|]. }
  set (b := i_block 12 inode) in *. apply list.Forall_app in Hd as [Hp Hb]. apply Forall_cons_iff in Hb as [Hb _].
  apply wp_bind, (wp_get_buf g); [apply R|lia|]. apply wp_assoc3. eapply wp_mono.
  - apply (wp_free_pointers g s 0 b l st L ltac:(lia) R Hb Hp Hnd).
  - intros _ st' [R' _]. apply wp_ret. split; [done|]. split; [by apply len_set_i_block|]. intros j Hj. by rewrite i_block_set by lia.
Qed.

Lemma ptrs_from_map_incl g s k i P (c : Z -> list Z) p x :
  In p (ptrs_from k i P) -> In x (c p) -> In x (concat (map c (ptrs_from k i P))).
Proof. intros Hp Hx. apply in_concat. exists (c p). split; [by apply in_map|done]. Qed.

Lemma wp_free_double g s inode l st :
  layout g s -> len inode = 128 -> released g s l st -> Forall (data_blk g s) (double_blocks g s inode) ->
  NoDup (l ++ double_blocks g s inode) -> i_block 13 inode <> 0 ->
  wp (ext2_read_block (i_block 13 inode) 0 ;;
      each_pointer (Z.to_nat (block_size g / 4)) 0 0 (fun d => get_aux_buf ;; ext2_read_block d 2 ;;
        each_pointer (Z.to_nat (block_size g / 4)) 0 2 ext2_free_block ;; ext2_free_block d) ;;
      ext2_free_block (i_block 13 inode))
    (fun _ st' => released g s (l ++ double_blocks g s inode) st') st.
Proof.
  intros L Hl R Hd Hnd E. unfold double_blocks in *. rewrite (proj2 (Z.eqb_neq _ _) E) in *. set (b := i_block 13 inode) in *.
  apply list.Forall_app in Hd as [Hp Hb]. apply Forall_cons_iff in Hb as [Hb _].
  pose proof (rl_layout _ _ _ _ R) as Lt. pose proof (l_ready _ _ Lt) as Hrt.
  apply wp_bind, (wp_read_block g); [done|lia|].
  assert (blk st b = blk s b) as Hbs.
  { destruct Hb as (Hin & _ & H1 & H2 & _). apply R; try done. by apply (inside_addr g s). }
  rewrite Hbs. set (P := blk s b) in *. set (st1 := with_bufs _ st).
  assert (released g s l st1) as R1.
  { destruct R as [Ra Rb Rc Rd Re Rf]. split; try done. apply (layout_transfer g st); try done.
    apply ready_with_buf; [done|]. rewrite <- Hbs. by apply length_block_bytes. }
  rewrite app_assoc in Hnd |- *. apply list.NoDup_app in Hnd as (Hnd1 & Hnd2 & _).
  apply wp_bind. eapply wp_mono.
  - apply (wp_each_pointer g s P (fun st' => bufs st' !! 0%nat = Some (Some P)) 0 (fun d => ptrs_of g (blk s d) ++ [d]) _ _ 0 l st1); try done.
    + lia.
    + by apply (quarter g st).
    + intros d l' st' Hin R' Hnl HP'. apply wp_bind, (wp_get_buf g); [apply R'|lia|].
      assert (Forall (data_blk g s) (ptrs_of g (blk s d) ++ [d])) as Hdd.
      { apply Forall_forall. intros x Hx. eapply Forall_forall; [exact Hp|]. by eapply (ptrs_from_map_incl g s). }
      apply list.Forall_app in Hdd as [Hd1 Hd2]. apply Forall_cons_iff in Hd2 as [Hd2 _].
      eapply wp_mono; [apply (wp_free_pointers g s 2 d l' st' L ltac:(lia) R' Hd2 Hd1 Hnl)|].
      intros _ st'' [R'' K'']. split; [done|]. rewrite K''; [done|]. set_solver by lia.
    + apply list_lookup_insert_eq. rewrite (r_bufs _ _ Hrt). lia.
  - intros _ st2 [R2 _]. eapply wp_mono; [apply (wp_release g s _ st2 b L R2 Hb)|by intros _ ? [? _]].
    intros Hin. apply (Hnd2 b Hin). set_solver.
Qed.
End Free.

(** * Theorems *)

(** C31: free_inode_blocks releases exactly the blocks the inode reaches, directly and through
    its indirect and doubly indirect blocks: afterwards a block of the group is in use if and
    only if it was and the inode did not reach it; no other block of the disk changes but the
    bitmap and the descriptors; the free counts stay exact; and the inode's pointers are zero.
    The pointer arrays are walked in buffers 0 and 2 while every release goes through buffers
    1 and 4. *)
Theorem free_inode_blocks_correct `{BlockHeap} g s inode :
  layout g s -> owns g s inode ->
  exists inode' s', free_inode_blocks inode s = Some (inode', s') /\
    released g s (inode_blocks g s inode) s' /\
    (forall j, 0 <= j < 14 -> i_block j inode' = 0) /\ i_block 14 inode' = i_block 14 inode.
Proof.
  intros L (Hl & Hd & Hnd). pose proof (l_ready _ _ L) as Hr.
  apply (wp_returns (free_inode_blocks inode)). unfold free_inode_blocks, inode_blocks in *.
  apply list.Forall_app in Hd as [Hd1 Hd]. apply list.Forall_app in Hd as [Hd2 Hd3].
  rewrite app_assoc in Hnd |- *. pose proof Hnd as Hnd3. apply list.NoDup_app in Hnd as [Hnd2 _].
  pose proof Hnd2 as Hnd1. apply list.NoDup_app in Hnd1 as [Hnd1 _].
  apply wp_bind, wp_get. rewrite (ready_bs g s Hr). apply wp_bind.
  eapply wp_mono; [apply (wp_free_direct g s 12 0 inode [] s L); try done; by apply released_nil|].
  intros i1 st1 (R1 & Hl1 & Hb1). simpl app in R1.
  assert (indirect_blocks g s i1 = indirect_blocks g s inode) as E1 by (unfold indirect_blocks; by rewrite Hb1 by lia).
  assert (i_block 13 i1 = i_block 13 inode) as E13 by (by rewrite Hb1 by lia).
  apply wp_bind. eapply wp_mono; [apply (wp_free_indirect g s i1 _ st1 L Hl1 R1); by rewrite E1|].
  rewrite E1. intros i2 st2 (R2 & Hl2 & Hb2). pose proof (rl_layout _ _ _ _ R2) as L2.
  assert (i_block 13 i2 = i_block 13 inode) as F13 by (by rewrite Hb2 by lia).
  assert (double_blocks g s i2 = double_blocks g s inode) as E2 by (unfold double_blocks; by rewrite F13).
  assert (forall j, 0 <= j < 15 -> i_block j i2 = if j <? 13 then 0 else i_block j inode) as Hb.
  { intros j Hj. rewrite Hb2, Hb1 by lia. destruct (Z.eqb_spec j 12), (Z.leb_spec 0 j), (Z.ltb_spec j (0 + Z.of_nat 12)), (Z.ltb_spec j 13); simpl; lia || done. }
  destruct (Z.eqb_spec (i_block 13 i2) 0) as [E|E].
  - apply wp_ret. rewrite <- E2. unfold double_blocks at 1. rewrite (proj2 (Z.eqb_eq _ _) E), app_nil_r. split; [done|].
    split; [|by rewrite Hb by lia]. intros j Hj. destruct (Z.eqb_spec j 13) as [->|]; [done|]. rewrite Hb by lia.
    by rewrite (proj2 (Z.ltb_lt j 13)) by lia.
  - apply wp_bind, (wp_get_buf g); [apply L2|lia|]. apply wp_assoc3. rewrite <- E2 in *.
    eapply wp_mono; [by apply (wp_free_double g s i2 _ st2 L Hl2 R2)|]. intros u st3 R3. cbv beta in R3. apply wp_ret. split; [done|].
    split; [|rewrite i_block_set by lia; by rewrite Hb by lia]. intros j Hj. rewrite i_block_set by lia. destruct (Z.eqb_spec j 13); [done|].
    rewrite Hb by lia. by rewrite (proj2 (Z.ltb_lt j 13)) by lia.
Qed.

(** A file of 14 blocks on the sample image: twelve direct blocks, an indirect block and two
    blocks behind it. *)
Definition file_fs : est :=
  Eval vm_compute in match ext2_write_file [47; 97] (replicate 14000 7) demo_fs with Some (_, s) => s | None => demo_fs end.

Definition data_blkb (s : est) (b : Z) : bool :=
  let g := fs s in (fdb s <=? b) && (b <? total s) && (b - fdb s <? blocks_per_group g) && used s b &&
  negb (b =? bgd_block g) && negb (b =? bmap s) && negb (b =? sb_block g) && negb (b =? 0).

Lemma data_blkb_ok s l : forallb (data_blkb s) l = true -> Forall (data_blk (fs s) s) l.
Proof.
  intros H. apply Forall_forall. intros b Hb. rewrite forallb_forall in H. specialize (H b Hb). unfold data_blkb in H.
  bool_prop. unfold data_blk, inside. split; [lia|]. split; [done|]. lia.
Qed.

Lemma free_inode_blocks_correct_witness :
  exists inode' s', free_inode_blocks (inode_of file_fs 3) file_fs = Some (inode', s') /\
    used file_fs 21 = true /\ used s' 21 = false /\ used s' 7 = true /\ i_block 12 inode' = 0.
Proof.
  assert (layout (fs file_fs) file_fs) as L by (apply layoutb_ok; vm_compute; reflexivity).
  destruct (free_inode_blocks_correct (fs file_fs) file_fs (inode_of file_fs 3)) as (inode' & s' & E & R & Hz & _).
  - exact L.
  - split; [vm_compute; reflexivity|]. split.
    + apply data_blkb_ok. vm_compute. reflexivity.
    + apply (bool_decide_unpack _). vm_compute. exact I.
  - exists inode', s'. split; [exact E|]. split; [vm_compute; reflexivity|].
    split; [rewrite (rl_used _ _ _ _ R); [vm_compute; reflexivity|split; vm_compute; intuition congruence]|].
    split; [rewrite (rl_used _ _ _ _ R); [vm_compute; reflexivity|split; vm_compute; intuition congruence]|].
    apply Hz. lia.
Defined.
