(* ===== verification/Ext2Total.v ===== *)
(** Every operation of the ext2 driver returns, on any disk contents: it never reads or
    writes outside a buffer and its loops end. *)
From Stdlib Require Import ZArith Lia.
From S2P Require Import Prelude Packed Ext2 Ext2Safe Ext2Demo.

Lemma align4_bounds n : 0 <= n < 512 -> n <= align4 n <= n + 3 /\ align4 n mod 4 = 0.
Proof.
  intros Hn.
  assert (forallb (fun k => let n := Z.of_nat k in
            (n <=? align4 n) && (align4 n <=? n + 3) && (align4 n mod 4 =? 0)) (seq 0 512) = true) as Hall
    by (vm_compute; reflexivity).
  rewrite forallb_forall in Hall. specialize (Hall (Z.to_nat n)). rewrite in_seq, Z2Nat.id in Hall by lia.
  specialize (Hall ltac:(lia)). cbv zeta in Hall. bool_prop. lia.
Qed.

Section Total.
Context `{BlockHeap}.
Implicit Types (g : ext2_fs_t) (s : est).

(** How many data blocks an inode can reach. *)
Definition max_blocks (g : ext2_fs_t) : Z := let p := block_size g / 4 in 12 + p + p * p.

Lemma safe_read_inode_block g D inode iblock n :
  n ∈ D -> 0 <= iblock ->
  safe g D (ext2_read_inode_block inode iblock n) (fun ok => ok = true -> iblock < max_blocks g).
Proof.
  intros Hn Hi. unfold ext2_read_inode_block, max_blocks.
  eapply safe_bind; [apply safe_get|]. intros s Hr. rewrite (lready_bs g D s Hr).
  destruct (ptrs_in g D s Hr) as [Ep Hp]. rewrite (lready_bs g D s Hr) in Ep, Hp. set (p := block_size g / 4) in *.
  pose proof (lready_geo g D s Hr).
  case_cmp; [case_match; [by apply safe_ret|]; safe_step; apply safe_ret; nia|].
  case_cmp.
  { case_match; [by apply safe_ret|]. do 2 safe_step.
    eapply safe_bind; [apply safe_load; slia|]. intros t _. case_match; [by apply safe_ret|]. safe_step. apply safe_ret. nia. }
  case_cmp; [|by apply safe_ret].
  assert (0 < p) by lia.
  assert (0 <= (iblock - 12 - p) / p < p) by (split; [apply Z.div_pos; lia|apply Z.div_lt_upper_bound; lia]).
  pose proof (Z.mod_pos_bound (iblock - 12 - p) p).
  case_match; [by apply safe_ret|]. do 2 safe_step.
  eapply safe_bind; [apply safe_load; slia|]. intros b _. case_match; [by apply safe_ret|]. do 2 safe_step.
  eapply safe_bind; [apply safe_load; slia|]. intros t _. case_match; [by apply safe_ret|]. safe_step. apply safe_ret. lia.
Qed.

(** A walk over the entries of a block: it is at most at the end of the block, and enough
    steps are left for the rest. *)
Definition entry_inv (g : ext2_fs_t) (fuel : nat) (off : Z) : Prop :=
  0 <= off <= block_size g /\ block_size g < off + 8 * Z.of_nat fuel.

Lemma entry_inv_geo f g : geometry f -> block_size f = block_size g -> entry_inv g (entry_fuel f) 0.
Proof.
  intros Hg E. unfold entry_inv, entry_fuel. rewrite <- E. destruct (geo_bs f Hg) as [-> | [-> | ->]]; vm_compute; split; done.
Qed.

Lemma entry_inv_in g D s : lready g D s -> entry_inv g (entry_fuel (fs s)) 0.
Proof. intros Hr. apply entry_inv_geo; [apply Hr|by eapply lready_bs]. Qed.

Lemma entry_inv_start g s : ready g s -> entry_inv g (entry_fuel (fs s)) 0.
Proof. intros Hr. apply entry_inv_geo; [apply Hr|by apply ready_bs]. Qed.

Lemma entry_inv_step g fuel off rec_len :
  entry_inv g (S fuel) off -> 8 <= rec_len -> off + rec_len <= block_size g -> entry_inv g fuel (off + rec_len).
Proof. unfold entry_inv. lia. Qed.

Lemma entry_inv_fuel g off : entry_inv g 0 off -> False.
Proof. unfold entry_inv. lia. Qed.

Ltac entry_loop IH :=
  repeat first
    [ solve [apply IH; [eapply entry_inv_step; [eassumption|lia|lia]|assumption..]]
    | safe_step
    | solve [apply safe_ret; (done || lia)] ].

Lemma safe_find_entry g D fuel off bytes_left name :
  0%nat ∈ D -> entry_inv g fuel off -> safe g D (find_entry fuel off bytes_left name) (fun o => forall i, o = Some i -> 0 <= i).
Proof.
  intros HD. revert off. induction fuel as [|fuel IH]; intros off Hinv; [by apply entry_inv_fuel in Hinv|].
  cbn [find_entry]. pose proof Hinv as [Ho _]. unfold EXT2_DIRENT_HDR, MAX_FILENAME in *. entry_loop IH.
  apply safe_ret. intros i [= <-]. lia.
Qed.

Lemma safe_find_in_dir g D fuel inode bytes_left iblock name :
  0 <= iblock -> max_blocks g < iblock + Z.of_nat fuel -> iblock <= max_blocks g ->
  safe g D (find_in_dir fuel inode bytes_left iblock name) (fun o => forall i, o = Some i -> 0 <= i).
Proof.
  revert D bytes_left iblock. induction fuel as [|fuel IH]; intros D bl ib Hi Hf Hm; [lia|]. cbn [find_in_dir].
  case_match; [by apply safe_ret|]. safe_step.
  eapply safe_bind; [by apply safe_read_inode_block; [slia|]|]. intros ok Hok.
  destruct ok; cbn [negb]; [|by apply safe_ret]. specialize (Hok eq_refl). safe_step.
  eapply safe_bind; [by apply safe_find_entry; [slia|eapply entry_inv_in]|]. intros [i|] Hfound.
  - by apply safe_ret.
  - apply IH; lia.
Qed.

Lemma block_fuel_geo f g :
  geometry f -> block_size f = block_size g -> max_blocks g < 0 + Z.of_nat (block_fuel f) /\ 0 <= max_blocks g.
Proof.
  intros Hg E. unfold max_blocks, block_fuel. rewrite <- E.
  set (p := block_size f / 4). assert (0 <= p) by (apply Z.div_pos; pose proof (geo_bs f Hg); lia).
  split; nia.
Qed.

Lemma block_fuel_in g D s : lready g D s -> max_blocks g < 0 + Z.of_nat (block_fuel (fs s)) /\ 0 <= max_blocks g.
Proof. intros Hr. apply block_fuel_geo; [apply Hr|by eapply lready_bs]. Qed.

Lemma block_fuel_enough g s : ready g s -> max_blocks g < 0 + Z.of_nat (block_fuel (fs s)) /\ 0 <= max_blocks g.
Proof. intros Hr. apply block_fuel_geo; [apply Hr|by apply ready_bs]. Qed.

Lemma take_component_shorter room p w q :
  take_component room p = Some (w, q) -> length p = (length w + length q)%nat.
Proof.
  revert room w q. induction p as [|c p IH]; intros room w q; simpl.
  { intros E. by simplify_eq. }
  destruct (c =? SLASH); [intros E; by simplify_eq|]. destruct room as [|room]; [done|].
  destruct (take_component room p) as [[w' q']|] eqn:E; [|done]. intros E'. simplify_eq. simpl.
  by rewrite (IH _ _ _ E).
Qed.

Definition skip_slash (q : list Z) : list Z := match q with c :: q' => if c =? SLASH then q' else q | [] => [] end.

Lemma take_component_slash room c p w q :
  take_component room (c :: p) = Some (w, q) -> (length (skip_slash q) <= length p)%nat.
Proof.
  intros E. pose proof (take_component_shorter _ _ _ _ E) as Hl. simpl in Hl, E.
  destruct (c =? SLASH) eqn:Ec.
  - simplify_eq. simpl. by rewrite Ec.
  - destruct room; [done|]. destruct (take_component room p) as [[w' q']|]; [|done]. simplify_eq.
    simpl in Hl. unfold skip_slash. destruct q as [|x q'']; simpl in *; [lia|]. destruct (x =? SLASH); simpl; lia.
Qed.

Lemma safe_resolve_from g D fuel p cur :
  0 <= cur -> (length p < fuel)%nat -> safe g D (resolve_from fuel p cur) (fun i => 0 <= i).
Proof.
  revert p cur. induction fuel as [|fuel IH]; intros p cur Hc Hl; [lia|]. cbn [resolve_from].
  destruct p as [|c p]; [by apply safe_ret|].
  destruct (take_component _ (c :: p)) as [[w q]|] eqn:E; [|by apply safe_ret].
  apply take_component_slash in E. fold (skip_slash q). simpl in Hl.
  case_decide; [apply IH; lia|].
  eapply safe_bind; [by apply safe_read_inode|]. intros [inode|] _; [|by apply safe_ret]. safe_step.
  match goal with Hr : lready g D ?s |- _ => destruct (block_fuel_in g D s Hr) end.
  eapply safe_bind; [by apply safe_find_in_dir|]. intros [i|] Hi; [|by apply safe_ret]. apply IH; [by apply Hi|lia].
Qed.

Lemma safe_resolve g D path : safe g D (ext2_resolve path) (fun i => 0 <= i).
Proof.
  unfold ext2_resolve, resolve_path. destruct path as [|c p]; [by apply safe_ret|].
  case_match; [by apply safe_ret|]. case_decide; [by apply safe_ret|]. apply safe_resolve_from; [done|lia].
Qed.

Lemma safe_mono {A} g D (m : M A) (P Q : A -> Prop) : safe g D m P -> (forall x, P x -> Q x) -> safe g D m Q.
Proof. intros Hm HQ s Hr. eapply wp_mono; [by apply Hm|]. intros x s' [Hs HP]. split; [done|by apply HQ]. Qed.

Lemma safe_get_size g D path : safe g D (ext2_get_size path) (fun r => 0 <= r < 2 ^ 32).
Proof.
  unfold ext2_get_size. eapply safe_bind; [apply (safe_resolve g D path)|]. intros ino Hi. case_match; [by apply safe_ret|].
  eapply safe_bind; [by apply safe_read_inode|]. intros [inode|] _; [|by apply safe_ret]. apply safe_ret. apply (fld4_range 4 inode).
Qed.

Lemma safe_read_loop g D fuel inode remaining iblock acc :
  0 <= iblock -> max_blocks g < iblock + Z.of_nat fuel -> iblock <= max_blocks g -> 0 <= remaining ->
  safe g D (read_loop fuel inode remaining iblock acc) (fun d => len d <= len acc + remaining).
Proof.
  revert D remaining iblock acc. induction fuel as [|fuel IH]; intros D rem ib acc Hi Hf Hm Hr; [lia|]. cbn [read_loop].
  case_match; [apply safe_ret; lia|]. safe_step.
  eapply safe_bind; [by apply safe_read_inode_block; [slia|]|]. intros ok Hok.
  destruct ok; cbn [negb]; [|apply safe_ret; lia]. specialize (Hok eq_refl). do 2 safe_step.
  eapply safe_mono; [apply IH; lia|]. intros d Hd. cbv beta in Hd. rewrite length_app in Hd. lia.
Qed.

(** At most [n] items are delivered. *)
Definition at_most {A} (n : Z) (o : option (list A)) : Prop := forall l, o = Some l -> len l <= n.

Lemma safe_read_file g D path maxlen : 0 <= maxlen -> safe g D (ext2_read_file path maxlen) (at_most maxlen).
Proof.
  intros Hm. unfold ext2_read_file. eapply safe_bind; [apply (safe_resolve g D path)|]. intros ino Hi. case_match; [by apply safe_ret|].
  eapply safe_bind; [by apply safe_read_inode|]. intros [inode|] _; [|by apply safe_ret]. case_match; [by apply safe_ret|].
  safe_step. match goal with Hr : lready g D ?s |- _ => destruct (block_fuel_in g D s Hr) end.
  eapply safe_bind; [apply safe_read_loop; try done; pose proof (fld4_range 4 inode); unfold i_size; lia|]. intros d Hd. apply safe_ret.
  intros l [= <-]. simpl in Hd. lia.
Qed.

(** An entry of a listing: its name fits the 128 bytes of the caller's record, with its NUL. *)
Definition name_fits (e : dirent) : Prop := 0 < len (d_name e) <= MAX_FILENAME - 1.

Definition listing (maxe : Z) (l : list dirent) : Prop := len l <= maxe /\ Forall name_fits l.

Lemma safe_list_block g D fuel off bytes_left maxe acc :
  0%nat ∈ D -> entry_inv g fuel off -> listing (Z.max maxe 0) acc -> safe g D (list_block fuel off bytes_left maxe acc) (listing (Z.max maxe 0)).
Proof.
  intros HD. revert off acc. induction fuel as [|fuel IH]; intros off acc Hinv Ha; [by apply entry_inv_fuel in Hinv|].
  cbn [list_block]. pose proof Hinv as [Ho _]. pose proof Ha as [Hl Hn]. unfold EXT2_DIRENT_HDR in *. entry_loop IH.
  eapply safe_bind with (P := listing (Z.max maxe 0)).
  - set (n := if MAX_FILENAME <=? x2 then _ else x2) in *.
    assert (n <= MAX_FILENAME - 1) by (unfold n; case_match; bool_prop; lia).
    destruct (Z.ltb_spec 0 n); [|by apply safe_ret]. eapply safe_bind; [apply safe_load_bytes; slia|]. intros name Hname. safe_step.
    apply safe_ret. split; [rewrite length_app; simpl; lia|]. apply Forall_app_2; [done|]. apply Forall_singleton. unfold name_fits. simpl. lia.
  - intros acc' Ha'. apply IH; [eapply entry_inv_step; [eassumption|lia|lia]|done].
Qed.

Lemma safe_list_blocks g D fuel inode bytes_left iblock maxe acc :
  0 <= iblock -> max_blocks g < iblock + Z.of_nat fuel -> iblock <= max_blocks g -> listing (Z.max maxe 0) acc ->
  safe g D (list_blocks fuel inode bytes_left iblock maxe acc) (listing (Z.max maxe 0)).
Proof.
  revert D bytes_left iblock acc. induction fuel as [|fuel IH]; intros D bl ib acc Hi Hf Hm Ha; [lia|]. cbn [list_blocks].
  case_match; [by apply safe_ret|]. safe_step.
  eapply safe_bind; [by apply safe_read_inode_block; [slia|]|]. intros ok Hok.
  destruct ok; cbn [negb]; [|by apply safe_ret]. specialize (Hok eq_refl). safe_step.
  eapply safe_bind; [by apply safe_list_block; [slia|eapply entry_inv_in|]|]. intros acc' Ha'. apply IH; (done || lia).
Qed.

Lemma safe_readdir g D path maxe :
  safe g D (ext2_readdir path maxe) (fun o => forall l, o = Some l -> listing (Z.max maxe 0) l).
Proof.
  unfold ext2_readdir. eapply safe_bind; [apply (safe_resolve g D path)|]. intros ino Hi. case_match; [by apply safe_ret|].
  eapply safe_bind; [by apply safe_read_inode|]. intros [inode|] _; [|by apply safe_ret]. case_match; [by apply safe_ret|].
  safe_step. match goal with Hr : lready g D ?s |- _ => destruct (block_fuel_in g D s Hr) end.
  eapply safe_bind; [apply (safe_list_blocks g D _ _ _ _ maxe); try done; split; [simpl; lia|done]|].
  intros d Hd. apply safe_ret. by intros l [= <-].
Qed.

(** ** Operations that write *)

Lemma safe_put_entry g D off room ino ft name :
  0%nat ∈ D -> 0 <= off -> off + room <= block_size g -> 8 + len name <= room -> safe g D (put_entry off room ino ft name) any.
Proof.
  intros HD Ho Hb Hn. unfold put_entry, EXT2_DIRENT_HDR. do 3 safe_step.
  eapply safe_bind; [apply safe_store_bytes; rewrite ?length_zero_bytes; slia|]. intros _ _. apply safe_store_bytes; slia.
Qed.

Lemma safe_add_in_block g D fuel off block ino ft name :
  0%nat ∈ D -> entry_inv g fuel off -> len name < 128 -> safe g D (add_in_block fuel off block ino ft name) any.
Proof.
  intros HD Hinv Hn. revert off Hinv. induction fuel as [|fuel IH]; intros off Hinv; [by apply entry_inv_fuel in Hinv|].
  cbn [add_in_block]. pose proof Hinv as [Ho _]. unfold EXT2_DIRENT_HDR in *.
  pose proof (align4_bounds (8 + len name)) as He.
  safe_step. safe_step; try (by apply safe_ret). safe_step. do 2 (safe_step; try (by apply safe_ret)). do 3 safe_step.
  - safe_step.
    + eapply safe_bind; [apply safe_put_entry; slia|]. intros _ _. entry_loop IH.
    + entry_loop IH.
  - match goal with |- context [align4 (8 + ?n)] => pose proof (align4_bounds (8 + n)) as Hm end.
    change (256 ^ Z.of_nat 1) with 256 in *. safe_step.
    + do 2 safe_step. eapply safe_bind; [apply safe_put_entry; slia|]. intros _ _. entry_loop IH.
    + entry_loop IH.
Qed.

Lemma safe_add_in_blocks g D fuel iblock pinode ino ft name :
  0%nat ∈ D -> 0 <= iblock <= 12 -> 12 < iblock + Z.of_nat fuel -> len name < 128 ->
  safe g D (add_in_blocks fuel iblock pinode ino ft name) (fun r => 0 <= r.2).
Proof.
  intros HD Hi Hf Hn. revert iblock Hi Hf. induction fuel as [|fuel IH]; intros ib Hi Hf; [lia|]. cbn [add_in_blocks].
  safe_step. case_match; [by apply safe_ret; simpl; lia|]. bool_prop. case_match; [by apply safe_ret; simpl; lia|]. safe_step.
  eapply safe_bind; [apply safe_add_in_block; [done|by eapply entry_inv_in|done]|]. intros [|] _; [apply safe_ret; simpl; lia|].
  apply IH; lia.
Qed.

Lemma safe_add_dirent g D pino name ino ft : 0 <= pino -> safe g D (add_dirent_to_parent pino name ino ft) any.
Proof.
  intros Hp. unfold add_dirent_to_parent, MAX_FILENAME. eapply safe_bind; [by apply safe_read_inode|].
  intros [pi|] Hl; [|by apply safe_ret]. specialize (Hl pi eq_refl).
  case_match; [by apply safe_ret|]. case_match; [by apply safe_ret|]. bool_prop. safe_step.
  eapply safe_bind; [by apply safe_add_in_blocks; [slia|lia|..]|]. intros [[|] ib] Hib; simpl in Hib.
  { eapply safe_bind; [by apply safe_write_inode|]. intros. by apply safe_ret. }
  case_match; [by apply safe_ret|]. bool_prop. safe_step. case_match; [by apply safe_ret|]. safe_step.
  eapply safe_bind; [apply safe_store_bytes; rewrite ?length_zero_bytes; slia|]. intros _ _. do 4 safe_step.
  eapply safe_bind; [apply safe_store_bytes; slia|]. intros _ _. safe_step.
  eapply safe_bind; [apply safe_write_inode; [done|set_length; lia]|]. intros. by apply safe_ret.
Qed.

Ltac drop_step := eapply safe_bind; [by eauto with ext2|]; intros.

(** The status an operation returns. *)
Definition code (r : Z) : Prop := r = 0 \/ r = -1.
Lemma code_ok : code 0. Proof. by left. Qed.
Lemma code_err : code (-1). Proof. by right. Qed.
Hint Resolve code_ok code_err : core.

Lemma safe_create g D path : safe g D (ext2_create_file path) code.
Proof.
  unfold ext2_create_file. case_match; [by apply safe_ret|]. eapply safe_bind; [apply safe_resolve|]. intros.
  case_match; [by apply safe_ret|]. destruct (split_parent_child _ _ _) as [[pp fname]|]; [|by apply safe_ret].
  eapply safe_bind; [apply safe_resolve|]. intros pino Hp. case_match; [by apply safe_ret|].
  eapply safe_bind; [apply safe_alloc_inode|]. intros ino Hi. case_match; [by apply safe_ret|]. safe_step.
  eapply safe_bind; [apply safe_write_inode; [done|set_length; reflexivity]|]. intros.
  case_match; [eapply safe_bind; [by apply safe_free_inode|]; intros; by apply safe_ret|].
  eapply safe_bind; [by apply safe_add_dirent|]. intros.
  case_match; [eapply safe_bind; [by apply safe_free_inode|]; intros; by apply safe_ret|].
  drop_step. by apply safe_ret.
Qed.

Definition opt_inode (o : option (Z * list Z)) : Prop := forall b i, o = Some (b, i) -> len i = 128.

Lemma safe_data_block g D iblock inode :
  0 <= iblock -> len inode = 128 -> safe g D (data_block iblock inode) opt_inode.
Proof.
  intros Hi Hl. unfold data_block. eapply safe_bind; [apply safe_get|]. intros s Hr.
  destruct (ptrs_in g D s Hr) as [Ep Hp]. pose proof (lready_geo g D s Hr).
  case_cmp.
  { case_match; [|apply safe_ret; intros ? ? E; by simplify_eq]. safe_step.
    case_match; [by apply safe_ret|]. apply safe_ret. intros ? ? E. simplify_eq. set_length; lia. }
  case_cmp; [|by apply safe_ret].
  eapply safe_bind with (P := opt_len 128).
  { case_match; [|by apply safe_ret; intros ? [= <-]]. safe_step.
    case_match; [by apply safe_ret|]. apply safe_ret. intros ? [= <-]. set_length; lia. }
  intros [inode'|] Hl'; [|by apply safe_ret]. specialize (Hl' inode' eq_refl). do 3 safe_step.
  case_match; [|apply safe_ret; intros ? ? E; by simplify_eq]. safe_step. safe_step.
  case_match; [by apply safe_ret|]. safe_step. apply safe_ret. intros ? ? E. by simplify_eq.
Qed.

Lemma safe_write_loop g D fuel data iblock inode :
  0 <= iblock -> (length data < fuel)%nat -> len inode = 128 ->
  safe g D (write_loop fuel data iblock inode) (opt_len 128).
Proof.
  revert D data iblock inode. induction fuel as [|fuel IH]; intros D data ib inode Hi Hf Hl; [lia|]. cbn [write_loop].
  case_decide as Hd; [by apply safe_ret; intros ? [= <-]|].
  assert (0 < length data)%nat by (destruct data; simpl; [done|lia]). do 2 safe_step.
  eapply safe_bind; [apply safe_store_bytes; rewrite ?length_zero_bytes; slia|]. intros _ _.
  eapply safe_bind; [apply safe_store_bytes; rewrite ?length_take; slia|]. intros _ _.
  eapply safe_bind; [by apply safe_data_block|]. intros [[b i]|] Hb; [|by apply safe_ret]. safe_step.
  apply IH; [lia|rewrite length_drop; lia|by eapply Hb].
Qed.

Lemma safe_write_file g D path data : safe g D (ext2_write_file path data) (fun r => r = -1 \/ r = len data).
Proof.
  unfold ext2_write_file. eapply safe_bind; [apply safe_resolve|]. intros ino Hi.
  eapply safe_bind with (P := fun i => 0 <= i).
  { case_match; [|by apply safe_ret]. eapply safe_bind; [apply safe_create|]. intros.
    case_match; [by apply safe_ret|]. apply safe_resolve. }
  intros ino' Hi'. case_match; [by apply safe_ret; left|]. eapply safe_bind; [by apply safe_read_inode|].
  intros [inode|] Hl; [|by apply safe_ret; left]. specialize (Hl inode eq_refl). case_match; [by apply safe_ret; left|]. safe_step.
  eapply safe_bind; [apply safe_write_loop; [done|lia|done]|]. intros [inode'|] Hl'; [|by apply safe_ret; left].
  specialize (Hl' inode' eq_refl). safe_step.
  eapply safe_bind; [apply safe_write_inode; [done|set_length; lia]|]. intros. drop_step. apply safe_ret. by right.
Qed.

Lemma safe_mkdir g D path : safe g D (ext2_mkdir path) code.
Proof.
  unfold ext2_mkdir. case_match; [by apply safe_ret|]. eapply safe_bind; [apply safe_resolve|]. intros.
  case_match; [by apply safe_ret|]. destruct (split_parent_child _ _ _) as [[pp fname]|]; [|by apply safe_ret].
  eapply safe_bind; [apply safe_resolve|]. intros pino Hp. case_match; [by apply safe_ret|].
  eapply safe_bind; [apply safe_alloc_inode|]. intros ino Hi. case_match; [by apply safe_ret|]. do 3 safe_step.
  case_match; [eapply safe_bind; [by apply safe_free_inode|]; intros; by apply safe_ret|].
  safe_step.
  eapply safe_bind; [apply safe_store_bytes; rewrite ?length_zero_bytes; slia|]. intros _ _. do 12 safe_step.
  eapply safe_bind; [apply safe_write_inode; [done|set_length; reflexivity]|]. intros.
  case_match; [drop_step; eapply safe_bind; [by apply safe_free_inode|]; intros; by apply safe_ret|].
  eapply safe_bind; [by apply safe_add_dirent|]. intros.
  case_match.
  { eapply safe_bind; [apply safe_free_inode_blocks; set_length; reflexivity|]. intros.
    eapply safe_bind; [by apply safe_free_inode|]; intros; by apply safe_ret. }
  eapply safe_bind; [by apply safe_read_inode|]. intros pi Hpi.
  eapply safe_bind with (P := any).
  { destruct pi as [pi|]; [|by apply safe_ret]. specialize (Hpi pi eq_refl).
    eapply safe_bind; [apply safe_write_inode; [done|set_length; done]|]. intros. by apply safe_ret. }
  intros. drop_step. drop_step. by apply safe_ret.
Qed.

Lemma safe_busy_block g D fuel off bytes_left : 0%nat ∈ D -> entry_inv g fuel off -> safe g D (busy_block fuel off bytes_left) any.
Proof.
  intros HD. revert off. induction fuel as [|fuel IH]; intros off Hinv; [by apply entry_inv_fuel in Hinv|].
  cbn [busy_block]. pose proof Hinv as [Ho _]. unfold EXT2_DIRENT_HDR in *. entry_loop IH.
Qed.

Lemma safe_dir_busy g D fuel inode bytes_left iblock :
  0 <= iblock -> max_blocks g < iblock + Z.of_nat fuel -> iblock <= max_blocks g ->
  safe g D (dir_busy fuel inode bytes_left iblock) any.
Proof.
  revert D bytes_left iblock. induction fuel as [|fuel IH]; intros D bl ib Hi Hf Hm; [lia|]. cbn [dir_busy].
  case_match; [by apply safe_ret|]. safe_step.
  eapply safe_bind; [by apply safe_read_inode_block; [slia|]|]. intros ok Hok.
  destruct ok; cbn [negb]; [|by apply safe_ret]. specialize (Hok eq_refl). safe_step.
  eapply safe_bind; [by apply safe_busy_block; [slia|eapply entry_inv_in]|]. intros b _.
  case_match; [by apply safe_ret|]. destruct b; [by apply safe_ret|]. apply IH; lia.
Qed.

Lemma safe_remove_in_block g D fuel off bytes_left block name :
  0%nat ∈ D -> entry_inv g fuel off -> safe g D (remove_in_block fuel off bytes_left block name) any.
Proof.
  intros HD. revert off. induction fuel as [|fuel IH]; intros off Hinv; [by apply entry_inv_fuel in Hinv|].
  cbn [remove_in_block]. pose proof Hinv as [Ho _]. unfold EXT2_DIRENT_HDR in *. entry_loop IH.
Qed.

Lemma safe_remove_in_dir g D fuel inode bytes_left iblock name :
  0 <= iblock <= 12 -> 12 < iblock + Z.of_nat fuel ->
  safe g D (remove_in_dir fuel inode bytes_left iblock name) any.
Proof.
  revert D bytes_left iblock. induction fuel as [|fuel IH]; intros D bl ib Hi Hf; [lia|]. cbn [remove_in_dir].
  case_match; [by apply safe_ret|]. bool_prop. case_match; [by apply safe_ret|]. safe_step.
  eapply safe_bind; [apply safe_read_inode_block; slia|]. intros ok _.
  destruct ok; cbn [negb]; [|by apply safe_ret]. safe_step.
  eapply safe_bind; [by apply safe_remove_in_block; [slia|eapply entry_inv_in]|]. intros b _.
  case_match; [by apply safe_ret|]. destruct b; [by apply safe_ret|]. apply IH; lia.
Qed.

Lemma safe_drop_link g D ino inode : 0 <= ino -> len inode = 128 -> safe g D (drop_link ino inode) any.
Proof.
  intros Hi Hl. unfold drop_link. case_match; [|by apply safe_ret].
  assert (len (set_i_links_count (i_links_count inode - 1) inode) = 128) by (set_length; done).
  case_match.
  - eapply safe_bind; [by apply safe_free_inode_blocks|]. intros i' Hi'. safe_step.
    eapply safe_bind; [apply safe_write_inode; [done|set_length; done]|]. intros. by apply safe_free_inode.
  - eapply safe_bind; [by apply safe_write_inode|]. intros. by apply safe_ret.
Qed.

Lemma safe_unlink g D path : safe g D (ext2_unlink path) code.
Proof.
  unfold ext2_unlink. case_match; [by apply safe_ret|]. eapply safe_bind; [apply safe_resolve|]. intros ino Hi.
  case_match; [by apply safe_ret|]. eapply safe_bind; [by apply safe_read_inode|]. intros [inode|] Hl; [|by apply safe_ret].
  specialize (Hl inode eq_refl). safe_step.
  match goal with Hr : lready g D ?s |- _ => destruct (block_fuel_in g D s Hr) end.
  eapply safe_bind with (P := any); [case_match; [by apply safe_dir_busy|by apply safe_ret]|]. intros [|] _; [by apply safe_ret|].
  destruct (split_parent_child _ _ _) as [[pp fname]|]; [|by apply safe_ret].
  eapply safe_bind; [apply safe_resolve|]. intros pino Hp. case_match; [by apply safe_ret|].
  eapply safe_bind; [by apply safe_read_inode|]. intros [pi|] Hpi; [|by apply safe_ret]. specialize (Hpi pi eq_refl).
  eapply safe_bind; [by apply safe_remove_in_dir; [lia|]|]. intros [|] _; [|by apply safe_ret]. cbn [negb].
  eapply safe_bind; [by apply safe_drop_link|]. intros.
  eapply safe_bind; [apply safe_write_inode; [done|case_match; set_length; done]|]. intros.
  eapply safe_bind with (P := any); [case_match; [apply safe_adjust|by apply safe_ret]|]. intros. drop_step. by apply safe_ret.
Qed.
End Total.

(** * Mounting *)

(** What the superblock must say for an image to be accepted. *)
Definition sb_valid (b : list Z) : bool :=
  let bs := 1024 << sb_log_block_size b in
  let isz := if truthy (sb_inode_size b) then sb_inode_size b else 128 in
  (sb_magic b =? EXT2_SUPER_MAGIC) && (sb_log_block_size b <=? 2) &&
  negb (sb_inodes_per_group b =? 0) && negb (sb_blocks_per_group b =? 0) &&
  (SIZEOF_INODE <=? isz) && (isz <=? bs) &&
  (sb_blocks_per_group b <=? bs * 8) && (sb_inodes_per_group b <=? bs * 8).

(** The superblock a mount of [drv] at [part_lba] reads. *)
Definition disk_sb (drv part_lba : Z) (s : est) : list Z :=
  let at_lba k := match dsk s !! (drv, u32 (part_lba + k) mod 2 ^ 28) with Some b => b | None => zero_bytes SECTOR end in
  at_lba 2 ++ at_lba 3.

Lemma mount_geometry f :
  sb_valid (sb f) = true -> length (sb f) = 1024%nat ->
  block_size f = 1024 << sb_log_block_size (sb f) ->
  inode_size f = (if truthy (sb_inode_size (sb f)) then sb_inode_size (sb f) else 128) ->
  inodes_per_group f = sb_inodes_per_group (sb f) -> blocks_per_group f = sb_blocks_per_group (sb f) -> geometry f.
Proof.
  unfold sb_valid, SIZEOF_INODE. intros Hv Hl Hbs His Hip Hbp. cbv zeta in Hv. rewrite <- Hbs, <- His, <- Hip, <- Hbp in Hv.
  bool_prop. pose proof (fld4_range 24 (sb f)). pose proof (fld4_range 40 (sb f)). pose proof (fld4_range 32 (sb f)).
  unfold sb_log_block_size, sb_inodes_per_group, sb_blocks_per_group in *.
  split; try lia; try done.
  assert (fld 4 24 (sb f) = 0 \/ fld 4 24 (sb f) = 1 \/ fld 4 24 (sb f) = 2) as [E | [E | E]] by lia;
    rewrite E in Hbs; rewrite Hbs; vm_compute; auto.
Qed.

Lemma length_disk_sb drv lba s : disk_ok (dsk s) -> length (disk_sb drv lba s) = 1024%nat.
Proof.
  intros Hd. unfold disk_sb. rewrite length_app.
  assert (forall k, length (match dsk s !! (drv, u32 (lba + k) mod 2 ^ 28) with Some b => b | None => zero_bytes SECTOR end) = 512%nat)
    as Hk; [|by rewrite !Hk].
  intros k. destruct (dsk s !! _) eqn:E; [|done]. by apply (Hd _ _ E).
Qed.

Lemma ext2_mount_ok drv part_lba s :
  disk_ok (dsk s) ->
  exists r s', ext2_mount drv part_lba s = Some (r, s') /\ dsk s' = dsk s /\ bufs s' = bufs s /\
    r = (if sb_valid (disk_sb drv part_lba s) then 0 else -1) /\
    (r = 0 -> sb (fs s') = disk_sb drv part_lba s /\ drive (fs s') = drv /\ part_start_lba (fs s') = part_lba /\
              block_size (fs s') = 1024 << sb_log_block_size (sb (fs s')) /\ geometry (fs s')).
Proof.
  intros Hd. pose proof (length_disk_sb drv part_lba s Hd) as Hl.
  apply (wp_returns (ext2_mount drv part_lba)). unfold ext2_mount. do 2 apply wp_bind, wp_modify. apply wp_bind, wp_get.
  set (s2 := with_sb _ _).
  assert (sb (fs s2) = disk_sb drv part_lba s /\ dsk s2 = dsk s /\ bufs s2 = bufs s /\ drive (fs s2) = drv /\
          part_start_lba (fs s2) = part_lba) as (Hsb & Hdsk & Hbufs & Hdrv & Hpart) by done. clearbody s2.
  rewrite Hsb. set (b := disk_sb drv part_lba s) in *. cbv zeta.
  destruct (sb_valid b) eqn:Hv; pose proof Hv as Hv'; unfold sb_valid in Hv; cbv zeta in Hv.
  - bool_prop.
    rewrite (proj2 (Z.eqb_eq (sb_magic b) EXT2_SUPER_MAGIC)), (proj2 (Z.ltb_ge 2 (sb_log_block_size b))) by done.
    cbn [negb]. apply wp_bind, wp_modify.
    rewrite (proj2 (Z.eqb_neq (sb_inodes_per_group b) 0)), (proj2 (Z.eqb_neq (sb_blocks_per_group b) 0)) by done.
    rewrite (proj2 (Z.ltb_ge _ SIZEOF_INODE)), (proj2 (Z.ltb_ge (1024 << _) _)), (proj2 (Z.ltb_ge _ (sb_blocks_per_group b))),
      (proj2 (Z.ltb_ge _ (sb_inodes_per_group b))) by done.
    cbn [orb]. apply wp_bind, wp_modify, wp_ret. do 3 (split; [done|]). intros _. do 4 (split; [done|]).
    apply mount_geometry; [exact Hv'|exact Hl|reflexivity..].
  - assert (forall s', dsk s' = dsk s2 -> bufs s' = bufs s2 ->
              wp (ret (-1)) (fun r s' => dsk s' = dsk s /\ bufs s' = bufs s /\ r = -1 /\ (r = 0 -> sb (fs s') = b /\
                drive (fs s') = drv /\ part_start_lba (fs s') = part_lba /\
                block_size (fs s') = 1024 << sb_log_block_size (sb (fs s')) /\ geometry (fs s'))) s') as Hfail.
    { intros s' H1 H2. apply wp_ret. split; [congruence|]. split; [congruence|]. split; done. }
    destruct (Z.eqb_spec (sb_magic b) EXT2_SUPER_MAGIC); [|by apply Hfail]. cbn [negb andb] in *.
    destruct (Z.ltb_spec 2 (sb_log_block_size b)) as [?|Hlog]; [by apply Hfail|].
    rewrite (proj2 (Z.leb_le _ _) Hlog) in Hv. cbn [andb] in Hv. apply wp_bind, wp_modify.
    destruct (sb_inodes_per_group b =? 0); [by apply Hfail|]. destruct (sb_blocks_per_group b =? 0); [by apply Hfail|].
    cbn [orb negb andb] in *. rewrite !Z.leb_antisym in Hv.
    repeat match goal with |- context [if ?c then _ else _] => lazymatch c with context [_ <? _] => destruct c eqn:?; [by apply Hfail|] end end.
    repeat match goal with H : _ || _ = false |- _ => apply orb_false_iff in H as [? ?] end.
    repeat match goal with H : (_ <? _) = false |- _ => rewrite H in Hv; clear H end. done.
Qed.

(** ext2_mount returns 0 exactly when the superblock on the disk is acceptable and -1
    otherwise, changes nothing on the disk, and on success leaves the driver with the
    geometry the superblock gives, which satisfies the bounds every other operation divides
    by and sizes its buffers with. *)
Theorem ext2_mount_correct drv part_lba s :
  disk_ok (dsk s) ->
  exists r s', ext2_mount drv part_lba s = Some (r, s') /\ dsk s' = dsk s /\ bufs s' = bufs s /\
    r = (if sb_valid (disk_sb drv part_lba s) then 0 else -1) /\
    (r = 0 -> sb (fs s') = disk_sb drv part_lba s /\ drive (fs s') = drv /\ part_start_lba (fs s') = part_lba /\
              block_size (fs s') = 1024 << sb_log_block_size (sb (fs s')) /\ geometry (fs s')).
Proof. apply ext2_mount_ok. Qed.

Lemma ext2_mount_correct_witness :
  ext2_mount 0 0 demo_start = Some (0, demo_fs) /\ geometry (fs demo_fs) /\ block_size (fs demo_fs) = 1024.
Proof.
  destruct (ext2_mount_correct 0 0 demo_start (r_disk _ _ demo_ready)) as (r & s' & E & _ & _ & _ & H).
  rewrite demo_mounts in E. injection E as <- <-. destruct (H eq_refl) as (_ & _ & _ & _ & Hg).
  split; [exact demo_mounts|]. split; [exact Hg|reflexivity].
Defined.

(** A rejected image leaves its block size behind: kernel/auth.c takes a block size other
    than 0 for a mounted disk. *)
Definition bad_start : est :=
  Est (fs demo_start) (bufs demo_start) 0
    (<[(0, 2) := set_fld 4 40 0 (slice 0 512 demo_sb)]> demo_disk) demo_rtc.

Lemma rejected_mount_leaves_block_size :
  exists s', ext2_mount 0 0 bad_start = Some (-1, s') /\ block_size (fs bad_start) = 0 /\ block_size (fs s') = 1024.
Proof. eexists. split; [vm_compute; reflexivity|]. split; reflexivity. Qed.

(** * Any sequence of operations *)

Inductive ext2_op :=
  | OpGetSize (path : list Z)
  | OpRead (path : list Z) (maxlen : Z)
  | OpReaddir (path : list Z) (max_entries : Z)
  | OpWrite (path data : list Z)
  | OpCreate (path : list Z)
  | OpMkdir (path : list Z)
  | OpUnlink (path : list Z)
  | OpSync (group : Z).

(** What an operation hands back: a number, the bytes put into the caller's buffer, the
    entries put into the caller's array; [None] is -1. *)
Inductive ext2_result :=
  | RCode (r : Z)
  | RBytes (d : option (list Z))
  | REntries (l : option (list dirent)).

(** The result fits what the caller gave: at most [maxlen] bytes, at most [max_entries]
    entries, each name short enough for the 128 bytes of its record. *)
Definition fits (o : ext2_op) (r : ext2_result) : Prop :=
  match o, r with
  | OpGetSize _, RCode n => 0 <= n < 2 ^ 32
  | OpRead _ n, RBytes d => at_most (u32 n) d
  | OpReaddir _ n, REntries l => forall es, l = Some es -> listing (Z.max n 0) es
  | OpWrite _ d, RCode r => r = -1 \/ r = len d
  | (OpCreate _ | OpMkdir _ | OpUnlink _ | OpSync _), RCode r => code r
  | _, _ => False
  end.

Section Run.
Context `{BlockHeap}.

Definition ext2_exec (o : ext2_op) : M ext2_result :=
  match o with
  | OpGetSize p => let* r := ext2_get_size p in ret (RCode r)
  | OpRead p n => let* d := ext2_read_file p (u32 n) in ret (RBytes d)
  | OpReaddir p n => let* l := ext2_readdir p n in ret (REntries l)
  | OpWrite p d => let* r := ext2_write_file p d in ret (RCode r)
  | OpCreate p => let* r := ext2_create_file p in ret (RCode r)
  | OpMkdir p => let* r := ext2_mkdir p in ret (RCode r)
  | OpUnlink p => let* r := ext2_unlink p in ret (RCode r)
  | OpSync gr => let* r := ext2_sync_bgd (u32 gr) in ret (RCode r)
  end.

Fixpoint ext2_run (ops : list ext2_op) : M (list ext2_result) :=
  match ops with
  | [] => ret []
  | o :: ops' => let* r := ext2_exec o in let* rs := ext2_run ops' in ret (r :: rs)
  end.

Lemma safe_sync_bgd g D group : 0 <= group -> safe g D (ext2_sync_bgd group) code.
Proof.
  intros Hg. unfold ext2_sync_bgd. eapply safe_bind; [by apply safe_read_bgd|]. intros ? (b & -> & Hb).
  eapply safe_bind; [by apply safe_write_bgd|]. intros. apply safe_ret, code_ok.
Qed.

Lemma safe_exec g D o : safe g D (ext2_exec o) (fits o).
Proof.
  destruct o; simpl.
  - eapply safe_bind; [apply safe_get_size|]. intros r Hr. by apply safe_ret.
  - eapply safe_bind; [apply safe_read_file, u32_range|]. intros r Hr. by apply safe_ret.
  - eapply safe_bind; [apply safe_readdir|]. intros r Hr. by apply safe_ret.
  - eapply safe_bind; [apply safe_write_file|]. intros r Hr. by apply safe_ret.
  - eapply safe_bind; [apply safe_create|]. intros r Hr. by apply safe_ret.
  - eapply safe_bind; [apply safe_mkdir|]. intros r Hr. by apply safe_ret.
  - eapply safe_bind; [apply safe_unlink|]. intros r Hr. by apply safe_ret.
  - eapply safe_bind; [apply safe_sync_bgd, u32_range|]. intros r Hr. by apply safe_ret.
Qed.

Lemma safe_run g D ops : safe g D (ext2_run ops) (Forall2 fits ops).
Proof.
  induction ops as [|o ops IH]; simpl; [apply safe_ret; by constructor|]. eapply safe_bind; [apply safe_exec|]. intros r Hr.
  eapply safe_bind; [exact IH|]. intros rs Hrs. apply safe_ret. by constructor.
Qed.

(** C33: once an image is mounted, whatever the five buffers of the driver are then - not
    allocated yet, or left from another image - every sequence of reads, writes, listings,
    creations and removals, with any paths and data and on any disk contents, returns: no
    operation reads or writes outside one of the driver's buffers, and every loop over
    entries, blocks and path components ends, however corrupt the image.  Nor does it
    write outside what the caller gave: a read delivers at most [maxlen] bytes, a listing
    at most [max_entries] entries with names of 1 to 127 characters; a write returns -1 or
    the length, the others 0 or -1.  The one condition is that the kernel heap has the
    buffers when the driver asks (see [missing_buffer_is_not_checked]). *)
Theorem ext2_memory_safe drv part_lba s0 s ops :
  disk_ok (dsk s0) -> length (bufs s0) = 5%nat ->
  ext2_mount drv part_lba s0 = Some (0, s) ->
  (forall k, is_Some (fresh_buf k (block_size (fs s)))) ->
  exists rs s', ext2_run ops s = Some (rs, s') /\ Forall2 fits ops rs /\ lready (fs s) [] s'.
Proof.
  intros Hd Hb Hm Hh.
  destruct (ext2_mount_ok drv part_lba s0 Hd) as (r & s1 & E & Hdsk & Hbufs & _ & Hok).
  rewrite Hm in E. injection E as <- <-. destruct (Hok eq_refl) as (_ & _ & _ & _ & Hg).
  assert (lready (fs s) [] s) as Hr.
  { split; [done|repeat split|by rewrite Hbufs| |by right|by rewrite Hdsk]. by intros n Hn%elem_of_nil. }
  destruct (wp_returns _ _ _ (safe_run (fs s) [] ops s Hr)) as (rs & s' & E' & Hr' & Hf). by exists rs, s'.
Qed.
End Run.

(** The image with its root directory and the inodes 1 to 4 overwritten by bytes 255: right
    after init_ext2 and the mount, with no buffer allocated, a write, a listing and a removal;
    then, on the good image, a file is made, listed and read back in part. *)
Definition unbuffered (d : gmap (Z * Z) (list Z)) : est := Est (fs demo_start) (replicate 5 None) 0 d demo_rtc.
Definition hostile_start : est :=
  unbuffered (<[(0, 14) := replicate 512 255]> (<[(0, 10) := replicate 512 255]> demo_disk)).
Definition hostile_ops : list ext2_op := [OpWrite [47; 97] [1; 2; 3]; OpReaddir [47] 10; OpUnlink [47; 97]].
Definition good_ops : list ext2_op := [OpWrite [47; 97] [1; 2; 3]; OpReaddir [47] 10; OpRead [47; 97] 2].

Definition disk_okb (d : gmap (Z * Z) (list Z)) : bool :=
  forallb (fun kb : (Z * Z) * list Z => Nat.eqb (length kb.2) 512) (map_to_list d).
Lemma disk_okb_ok d : disk_okb d = true -> disk_ok d.
Proof.
  unfold disk_okb. rewrite forallb_forall. intros Hf k b Hk. apply Nat.eqb_eq.
  apply (Hf (k, b)), list_elem_of_In, elem_of_map_to_list, Hk.
Qed.

Lemma demo_heap_gives n : 0 <= n -> forall k, is_Some (fresh_buf k n).
Proof. intros Hn k. exists (zero_bytes n). simpl. by rewrite (proj2 (Z.leb_le 0 n) Hn). Qed.

Lemma ext2_memory_safe_witness :
  (exists s rs s', ext2_mount 0 0 hostile_start = Some (0, s) /\ ext2_run hostile_ops s = Some (rs, s') /\ lready (fs s) [] s') /\
  exists s s', ext2_mount 0 0 (unbuffered demo_disk) = Some (0, s) /\
    ext2_run good_ops s = Some ([RCode 3; REntries (Some [Dirent 2 [46] 1; Dirent 2 [46; 46] 1; Dirent 3 [97] 0]);
                                 RBytes (Some [1; 2])], s') /\ lready (fs s) [] s'.
Proof.
  assert (forall d ops, disk_okb d = true ->
    match ext2_mount 0 0 (unbuffered d) with Some (r, s) => (r =? 0) && (0 <=? block_size (fs s)) | None => false end = true ->
    exists s rs s', ext2_mount 0 0 (unbuffered d) = Some (0, s) /\ ext2_run ops s = Some (rs, s') /\ lready (fs s) [] s') as Hall.
  { intros d ops Hd Hm. destruct (ext2_mount 0 0 (unbuffered d)) as [[r s]|] eqn:E; [|discriminate].
    apply andb_prop in Hm as [->%Z.eqb_eq Hbs%Z.leb_le].
    destruct (ext2_memory_safe 0 0 (unbuffered d) s ops (disk_okb_ok d Hd) eq_refl E (demo_heap_gives _ Hbs)) as (rs & s' & E' & _ & Hr).
    exists s, rs, s'. split; [reflexivity|]. split; [exact E'|exact Hr]. }
  split; [apply Hall; vm_compute; reflexivity|].
  destruct (Hall demo_disk good_ops) as (s & rs & s' & Em & Er & Hr); [vm_compute; reflexivity..|].
  exists s, s'. split; [exact Em|]. split; [|exact Hr].
  assert (match ext2_mount 0 0 (unbuffered demo_disk) with Some (_, s) => option_map fst (ext2_run good_ops s) | None => None end =
    Some [RCode 3; REntries (Some [Dirent 2 [46] 1; Dirent 2 [46; 46] 1; Dirent 3 [97] 0]); RBytes (Some [1; 2])]) as Hv
    by (vm_compute; reflexivity).
  rewrite Em, Er in Hv. simpl in Hv. injection Hv as ->. exact Er.
Defined.

(** A heap that has one buffer and no more: the path walk then reads the directory through
    the pointer it was given for the second, which is NULL. *)
Definition one_buffer_heap : BlockHeap.
Proof.
  refine {| fresh_buf := fun k n => if (0 <=? n) && Nat.eqb k 0 then Some (zero_bytes n) else None |}.
  intros k n b. destruct (Z.leb_spec 0 n); [|done]. simpl. destruct (Nat.eqb k 0); [|done]. intros [= <-]. by apply length_zero_bytes.
Defined.

Lemma missing_buffer_is_not_checked :
  exists s, ext2_mount 0 0 (unbuffered demo_disk) = Some (0, s) /\
    match @ext2_read_inode one_buffer_heap 2 s with Some (Some _, _) => True | _ => False end /\
    @ext2_resolve one_buffer_heap [47; 97] s = None.
Proof. eexists. split; [vm_compute; reflexivity|]. split; vm_compute; [exact I|reflexivity]. Qed.
