(* ===== verification/Ext2File.v ===== *)
(** Files of the ext2 driver: what is written is read back. *)
From Stdlib Require Import ZArith Lia.
From S2P Require Import Prelude Packed Ext2 Ext2Safe Ext2Demo Ext2Blocks Ext2Alloc Ext2Free Ext2Total.

(** * Data blocks of an inode *)

Definition nptrs (g : ext2_fs_t) : Z := block_size g / 4.
Definition ptr_at (s : est) (b i : Z) : Z := fld 4 (4 * i) (blk s b).

(** The block that holds data block [i] of an inode; 0 for none. *)
Definition iblk (g : ext2_fs_t) (s : est) (inode : list Z) (i : Z) : Z :=
  if i <? 12 then i_block i inode
  else if i - 12 <? nptrs g then
    if i_block 12 inode =? 0 then 0 else ptr_at s (i_block 12 inode) (i - 12)
  else let j := i - 12 - nptrs g in
    if j <? nptrs g * nptrs g then
      if i_block 13 inode =? 0 then 0 else
      let d := ptr_at s (i_block 13 inode) (j / nptrs g) in
      if d =? 0 then 0 else ptr_at s d (j mod nptrs g)
    else 0.

Section Data.
Context `{BlockHeap}.
Implicit Types (g : ext2_fs_t) (s : est).

Lemma nptrs_bs g s : ready g s -> 4 * nptrs g = block_size g /\ 0 < nptrs g.
Proof.
  intros Hr. unfold nptrs. destruct (ptrs_bound g s Hr) as [E ?]. rewrite (ready_bs g s Hr) in *.
  pose proof (ready_geo g s Hr). lia.
Qed.

Lemma buf_after_read g s n c : ready g s -> (n < 5)%nat -> bufs (with_bufs (<[n := c]> (bufs s)) s) !! n = Some c.
Proof. intros Hr Hn. simpl. apply list_lookup_insert_eq. rewrite (r_bufs _ _ Hr). lia. Qed.

(** A block read through the data buffer at the end of a pointer walk. *)
Lemma wp_read_target g s s1 n t (Q : bool -> est -> Prop) :
  ready g s1 -> n = 0%nat -> reads [0; 2; 3]%nat s s1 ->
  (forall s', ready g s' -> reads [0; 2; 3]%nat s s' -> bufs s' !! n = Some (Some (blk s t)) -> Q true s') ->
  wp (ext2_read_block t n ;; ret true) Q s1.
Proof.
  intros Hr -> Hs HQ. apply wp_bind, (wp_read_block g); [done|lia|]. apply wp_ret, HQ.
  - by apply ready_read.
  - eapply reads_trans; [done|]. apply reads_insert. set_solver.
  - rewrite (buf_after_read g) by (done || lia). by rewrite (reads_blk _ _ _ _ Hs).
Qed.

Lemma wp_read_inode_block g inode i s :
  ready g s -> 0 <= i ->
  wp (ext2_read_inode_block inode i 0) (fun ok s' =>
    ready g s' /\ reads [0; 2; 3]%nat s s' /\ ok = negb (iblk g s inode i =? 0) /\
    (iblk g s inode i <> 0 -> bufs s' !! 0%nat = Some (Some (blk s (iblk g s inode i))))) s.
Proof.
  intros Hr Hi. destruct (nptrs_bs g s Hr) as [Hp Hp0]. unfold ext2_read_inode_block, iblk.
  apply wp_bind, wp_get. rewrite (ready_bs g s Hr). fold (nptrs g).
  assert (forall t s1, ready g s1 -> reads [0; 2; 3]%nat s s1 -> t <> 0 ->
    wp (ext2_read_block t 0 ;; ret true) (fun ok s' => ready g s' /\ reads [0; 2; 3]%nat s s' /\ ok = negb false /\
      (t <> 0 -> bufs s' !! 0%nat = Some (Some (blk s t)))) s1) as Hread.
  { intros t s1 Hr1 Hs1 Ht. apply (wp_read_target g s s1); [done..|]. intros s' Hr' Hs' Hb. done. }
  assert (forall s1, ready g s1 -> reads [0; 2; 3]%nat s s1 ->
    wp (ret false) (fun ok s' => ready g s' /\ reads [0; 2; 3]%nat s s' /\ ok = negb (0 =? 0) /\
      (0 <> 0 -> bufs s' !! 0%nat = Some (Some (blk s 0)))) s1) as Hnone by (intros; by apply wp_ret).
  destruct (Z.ltb_spec i 12).
  { destruct (Z.eqb_spec (i_block i inode) 0) as [E|E]; [rewrite E; by apply Hnone|by apply Hread]. }
  destruct (Z.ltb_spec (i - 12) (nptrs g)).
  { destruct (Z.eqb_spec (i_block 12 inode) 0) as [E|E]; [by apply Hnone|].
    apply wp_bind, (wp_get_buf g); [done|lia|]. apply wp_bind, (wp_read_block g); [done|lia|].
    pose proof (ready_read g s 2 (i_block 12 inode) Hr) as Hr1.
    apply wp_bind, (wp_load g); [done|lia|lia|lia|]. intros b Hb _. rewrite (buf_after_read g) in Hb by (done || lia). injection Hb as <-.
    fold (ptr_at s (i_block 12 inode) (i - 12)). assert (reads [0; 2; 3]%nat s (with_bufs (<[2%nat := Some (blk s (i_block 12 inode))]> (bufs s)) s)) by (apply reads_insert; set_solver).
    destruct (Z.eqb_spec (ptr_at s (i_block 12 inode) (i - 12)) 0) as [E'|E']; [rewrite E'; by apply Hnone|by apply Hread]. }
  destruct (Z.ltb_spec (i - 12 - nptrs g) (nptrs g * nptrs g)); [|by apply Hnone]. set (j := i - 12 - nptrs g) in *.
  assert (0 <= j / nptrs g < nptrs g) by (split; [apply Z.div_pos; lia|apply Z.div_lt_upper_bound; lia]).
  pose proof (Z.mod_pos_bound j (nptrs g)).
  destruct (Z.eqb_spec (i_block 13 inode) 0) as [E|E]; [by apply Hnone|].
  apply wp_bind, (wp_get_buf g); [done|lia|]. apply wp_bind, (wp_read_block g); [done|lia|].
  pose proof (ready_read g s 2 (i_block 13 inode) Hr) as Hr1.
  apply wp_bind, (wp_load g); [done|lia|lia|lia|]. intros b Hb _. rewrite (buf_after_read g) in Hb by (done || lia). injection Hb as <-.
  fold (ptr_at s (i_block 13 inode) (j / nptrs g)). set (d := ptr_at s (i_block 13 inode) (j / nptrs g)).
  set (s1 := with_bufs _ s) in *. assert (reads [0; 2; 3]%nat s s1) as Hs1 by (apply reads_insert; set_solver).
  destruct (Z.eqb_spec d 0) as [E'|E']; [by apply Hnone|].
  apply wp_bind, (wp_get_buf g); [done|lia|]. apply wp_bind, (wp_read_block g); [done|lia|].
  pose proof (ready_read g s1 3 d Hr1) as Hr2. set (s2 := with_bufs _ s1) in *.
  assert (reads [0; 2; 3]%nat s s2) as Hs2 by (eapply reads_trans; [done|]; apply reads_insert; set_solver).
  apply wp_bind, (wp_load g); [done|lia|lia|lia|]. intros b Hb _. unfold s2 in Hb. rewrite (buf_after_read g) in Hb by (done || lia). injection Hb as <-.
  rewrite (reads_blk _ _ _ _ Hs1). fold (ptr_at s d (j mod nptrs g)).
  destruct (Z.eqb_spec (ptr_at s d (j mod nptrs g)) 0) as [E''|E'']; [rewrite E''; by apply Hnone|by apply Hread].
Qed.

(** [data] lies in the data blocks of [inode] from block [k] on, each block filled with
    zeros at the end. *)
Definition pad (g : ext2_fs_t) (c : list Z) : list Z := c ++ zero_bytes (block_size g - len c).
Definition holds (g : ext2_fs_t) (s : est) (inode : list Z) (k : Z) (data : list Z) : Prop :=
  forall m, 0 <= m -> m * block_size g < len data ->
    iblk g s inode (k + m) <> 0 /\ blk s (iblk g s inode (k + m)) = pad g (slice (m * block_size g) (block_size g) data).

Lemma len_pad g c : len c <= block_size g -> len (pad g c) = block_size g.
Proof. intros. unfold pad. rewrite length_app, Nat2Z.inj_add, length_zero_bytes; lia. Qed.

Lemma holds_drop g s inode k data :
  0 < block_size g -> holds g s inode k data -> holds g s inode (k + 1) (drop (Z.to_nat (block_size g)) data).
Proof.
  intros Hb Hh m Hm Hl. rewrite length_drop in Hl. destruct (Hh (m + 1)) as [H1 H2]; [lia|lia|].
  replace (k + (m + 1)) with (k + 1 + m) in * by lia. split; [done|]. rewrite H2. f_equal. unfold slice. rewrite drop_drop. f_equal. f_equal. lia.
Qed.

Lemma slice_pad g c n : 0 <= n <= len c -> slice 0 n (pad g c) = take (Z.to_nat n) c.
Proof. intros. unfold slice, pad. simpl. rewrite drop_0. apply take_app_le. lia. Qed.

(** The read loop delivers what the blocks hold. *)
Lemma wp_read_loop g fuel inode data r k acc s :
  ready g s -> holds g s inode k data -> 0 <= r <= len data -> 0 <= k -> r <= (Z.of_nat fuel - 1) * block_size g ->
  wp (read_loop fuel inode r k acc) (fun out s' => out = acc ++ take (Z.to_nat r) data /\ ready g s' /\ reads [0; 2; 3]%nat s s') s.
Proof.
  revert data r k acc s. induction fuel as [|fuel IH]; intros data r k acc s Hr Hh Hrr Hk Hf.
  { pose proof (ready_geo g s Hr). lia. }
  pose proof (ready_geo g s Hr) as Hg. cbn [read_loop]. destruct (Z.eqb_spec r 0) as [->|Hne].
  { apply wp_ret. rewrite take_0, app_nil_r. done. }
  apply wp_bind, (wp_get_buf g); [done|lia|]. apply wp_bind. eapply wp_mono; [by apply (wp_read_inode_block g)|].
  intros ok s1 (Hr1 & Hs1 & -> & Hb). destruct (Hh 0) as [Hnz Hblk]; [lia|lia|]. rewrite Z.add_0_r in *.
  rewrite (proj2 (Z.eqb_neq _ _) Hnz). cbn [negb]. apply wp_bind, wp_get. rewrite (ready_bs g s1 Hr1).
  set (chunk := Z.min r (block_size g)). apply wp_bind, (wp_load_bytes g); [done|lia|lia|lia|lia|].
  intros b Hb' _. rewrite (Hb Hnz) in Hb'. injection Hb' as <-. rewrite Hblk. rewrite Z.mul_0_l.
  assert (slice 0 (block_size g) data = take (Z.to_nat (block_size g)) data) as Hsl by (unfold slice; by rewrite drop_0).
  rewrite Hsl, slice_pad by (rewrite length_take; lia). rewrite take_take.
  eapply wp_mono; [apply (IH (drop (Z.to_nat (block_size g)) data)); [done| |rewrite length_drop; lia|lia|lia]|].
  - intros m Hm Hl. destruct (holds_drop g s inode k data ltac:(lia) Hh m Hm Hl) as [H1 H2].
    assert (forall i, iblk g s1 inode i = iblk g s inode i) as Hib.
    { intros i. unfold iblk, ptr_at. by rewrite !(reads_blk _ _ _ _ Hs1). }
    rewrite Hib, (reads_blk _ _ _ _ Hs1). done.
  - intros out s' (-> & Hr' & Hs'). split; [|split; [done|by eapply reads_trans]]. rewrite <- app_assoc. f_equal.
    destruct (Z.leb_spec r (block_size g)).
    + replace (Z.to_nat (r - chunk)) with O by lia. rewrite take_0, app_nil_r. f_equal. lia.
    + replace (Z.to_nat chunk `min` Z.to_nat (block_size g))%nat with (Z.to_nat (block_size g)) by lia.
      replace (Z.to_nat r) with (Z.to_nat (block_size g) + Z.to_nat (r - chunk))%nat by lia.
      by rewrite take_take_drop.
Qed.
End Data.

(** * Writing *)

(** Blocks the writer can give a file. *)
Definition max_file (g : ext2_fs_t) : Z := 12 + nptrs g.

(** The blocks of a file within reach of the writer are data blocks of their own. *)
Record wfile (g : ext2_fs_t) (s : est) (inode : list Z) : Prop := {
  wf_len : len inode = 128;
  wf_data : forall i, 0 <= i < max_file g -> iblk g s inode i <> 0 -> data_blk g s (iblk g s inode i);
  wf_ind : i_block 12 inode <> 0 -> data_blk g s (i_block 12 inode);
  wf_inj : forall i j, 0 <= i < max_file g -> 0 <= j < max_file g -> i <> j ->
    iblk g s inode i <> 0 -> iblk g s inode i <> iblk g s inode j;
  wf_sep : forall i, 0 <= i < max_file g -> iblk g s inode i <> 0 -> iblk g s inode i <> i_block 12 inode }.

(** A block that is none of the file's. *)
Definition foreign (g : ext2_fs_t) (s : est) (inode : list Z) (x : Z) : Prop :=
  x <> i_block 12 inode /\ forall i, 0 <= i < max_file g -> iblk g s inode i <> x.

(** What a step of the writer leaves alone: the places of the tables, every mark, and every
    block in use outside [X] and the two tables. *)
Record evolves (g : ext2_fs_t) (X : Z -> Prop) (s s' : est) : Prop := {
  ev_layout : layout g s';
  ev_meta : meta s' = meta s;
  ev_rtc : rtc s' = rtc s;
  ev_used : forall b, inside s b -> used s b = true -> used s' b = true;
  ev_blk : forall b, inside s b -> used s b = true -> b <> bmap s -> b <> bgd_block g -> ~ X b -> blk s' b = blk s b }.

Lemma evolves_id g X s : layout g s -> evolves g X s s.
Proof. by split. Qed.

Lemma evolves_comp g X s1 s2 s3 : layout g s1 -> evolves g X s1 s2 -> evolves g X s2 s3 -> evolves g X s1 s3.
Proof.
  intros L [L2 M2 T2 U2 B2] [L3 M3 T3 U3 B3].
  assert (forall b, inside s1 b -> inside s2 b) as Hi by (intros b; apply (inside_transfer g s1 s2 b L (l_ready _ _ L2) M2)).
  pose proof (meta_eq _ _ M2) as (Hb & _). split; [done|congruence|congruence| |].
  - intros b H1 H2. apply U3; auto.
  - intros b H1 H2 H3 H4 H5. rewrite B3; auto. congruence.
Qed.

Lemma evolves_weaken g (X Y : Z -> Prop) s s' :
  (forall b, inside s b -> used s b = true -> X b -> Y b) -> evolves g X s s' -> evolves g Y s s'.
Proof. intros HXY [? ? ? ? B]. split; try done. intros b ? ? ? ? ?. apply B; auto. Qed.

Lemma evolves_data g X s s' b : layout g s -> evolves g X s s' -> data_blk g s b -> data_blk g s' b.
Proof.
  intros L [L' M T U B] (Hin & Hu & H1 & H2 & H3 & H4). pose proof (meta_eq _ _ M) as (Hb & _).
  split; [by apply (inside_transfer g s s' b L (l_ready _ _ L') M)|]. split; [by apply U|]. rewrite Hb. done.
Qed.

Lemma evolves_reads g N s s1 :
  layout g s -> reads N s s1 -> ready g s1 -> evolves g (fun _ => False) s s1.
Proof.
  intros L Hs Hr1. pose proof Hs as (Hf & _ & Ht & _).
  assert (bgd_of s1 0 = bgd_of s 0) as Hb by (unfold bgd_of; rewrite Hf; case_match; by rewrite (reads_blk _ _ _ _ Hs)).
  assert (meta s1 = meta s) as Hm by (unfold meta, bmap, fdb, total; by rewrite Hb, Hf).
  assert (forall b, used s1 b = used s b) as Hu by (intros b; unfold used, bmap, fdb; rewrite Hb, Hf; by rewrite (reads_blk _ _ _ _ Hs)).
  split; try done.
  - apply (layout_transfer g s); try done. intros; by rewrite Hu.
  - intros; by rewrite Hu.
  - intros b _ _ _ _ _. by apply (reads_blk _ _ _ _ Hs).
Qed.

(** A store into a block that is not one of the tables. *)
Lemma evolves_stores g N b c s s' :
  layout g s -> ready g s' -> inside s b -> b <> bmap s -> b <> bgd_block g -> stores g N b c s s' ->
  evolves g (fun x => x = b) s s'.
Proof.
  intros L Hr' Hin Hb1 Hb2 (Hf & Ht & _ & HB).
  pose proof (inside_addr g s _ L (proj1 (l_bmap _ _ L))) as Ha1. pose proof (inside_addr g s _ L (proj1 (l_bgd _ _ L))) as Ha2.
  assert (bgd_of s' 0 = bgd_of s 0) as Hb.
  { unfold bgd_of. rewrite Hf, (layout_bgd_place g s L). by rewrite HB, decide_False by done. }
  assert (meta s' = meta s) as Hm by (unfold meta, bmap, fdb, total; by rewrite Hb, Hf).
  assert (forall x, used s' x = used s x) as Hu.
  { intros x. unfold used, fdb. unfold bmap at 1. rewrite Hb, Hf. fold (bmap s). by rewrite HB, decide_False by done. }
  split; try done.
  - apply (layout_transfer g s); try done. intros; by rewrite Hu.
  - intros; by rewrite Hu.
  - intros x Hx _ _ _ Hne. rewrite HB by (by apply (inside_addr g s)). by rewrite decide_False.
Qed.

Section Write.
Context `{BlockHeap}.
Implicit Types (g : ext2_fs_t) (s : est).

(** No block of the group is free. *)
Definition full (s : est) : Prop := forall b, inside s b -> used s b = true.

(** [r] was free in [s] and is a zeroed data block in [s']. *)
Record fresh (g : ext2_fs_t) (s : est) (r : Z) (s' : est) : Prop := {
  fr_evolves : evolves g (fun _ => False) s s';
  fr_inside : inside s r;
  fr_free : used s r = false;
  fr_data : data_blk g s' r;
  fr_zero : blk s' r = zero_bytes (block_size g) }.

(** The allocator as a step of the writer. *)
Lemma wp_alloc_evolves g s :
  layout g s ->
  wp ext2_alloc_block (fun r s' => keeps [1%nat; 4%nat] s s' /\ evolves g (fun _ => False) s s' /\
    if r =? 0 then full s' else fresh g s r s') s.
Proof.
  intros L. eapply wp_mono; [by apply wp_alloc_block|].
  intros r s' [(-> & Hr & Hs & Hall) | (Hin & Hr0 & Hur & Hz & R)].
  - pose proof (evolves_reads g _ s s' L Hs Hr) as E. split; [apply Hs|]. split; [done|]. simpl. intros b Hb.
    assert (inside s b) as Hb' by (by apply (inside_transfer g s s' b L Hr (ev_meta _ _ _ _ E))). apply E; auto.
  - rewrite (proj2 (Z.eqb_neq r 0) Hr0). destruct (alloc_used g s s' r _ L Hin R) as (L' & Hm & Hu).
    pose proof (meta_eq _ _ Hm) as (Hb & _).
    assert (evolves g (fun _ => False) s s') as E.
    { split; try done; [apply R| |].
      - intros b Hb1 Hb2. by rewrite Hu, Hb2.
      - intros b Hb1 Hb2 Hb3 Hb4 _. apply R; try done; [by apply (inside_addr g s)|congruence]. }
    split; [apply R|]. split; [done|]. split; try done.
    split; [by apply (inside_transfer g s s' r L (rm_ready _ _ _ _ _ _ _ R) Hm)|].
    split; [by rewrite Hu, Z.eqb_refl, orb_true_r|].
    destruct (l_bgd _ _ L) as [_ ?], (l_bmap _ _ L) as (_ & ? & _), (l_sb _ _ L) as (_ & ? & _).
    rewrite Hb. repeat split; congruence.
Qed.

(** Blocks of the file keep their contents while others change. *)
Lemma iblk_evolves g X s s' inode i :
  layout g s -> wfile g s inode -> evolves g X s s' -> 0 <= i < max_file g ->
  (i_block 12 inode <> 0 -> ~ X (i_block 12 inode)) -> iblk g s' inode i = iblk g s inode i.
Proof.
  intros L W E Hi HX. unfold iblk. destruct (Z.ltb_spec i 12); [done|].
  unfold max_file in Hi. rewrite (proj2 (Z.ltb_lt (i - 12) (nptrs g))) by lia.
  destruct (Z.eqb_spec (i_block 12 inode) 0) as [|Hne]; [done|]. unfold ptr_at.
  destruct (wf_ind _ _ _ W Hne) as (H1 & H2 & H3 & H4 & _). rewrite (ev_blk _ _ _ _ E); auto.
Qed.

Lemma wfile_evolves g X s s' inode :
  layout g s -> wfile g s inode -> evolves g X s s' -> (i_block 12 inode <> 0 -> ~ X (i_block 12 inode)) -> wfile g s' inode.
Proof.
  intros L W E HX. assert (forall i, 0 <= i < max_file g -> iblk g s' inode i = iblk g s inode i) as Hi.
  { intros i Hi. by apply (iblk_evolves g X). }
  split.
  - apply W.
  - intros i H1 H2. rewrite Hi in * by done. apply (evolves_data g X s); try done. by apply W.
  - intros H1. apply (evolves_data g X s); try done. by apply W.
  - intros i j H1 H2 H3 H4. rewrite !Hi in * by done. by apply W.
  - intros i H1 H2. rewrite Hi in * by done. by apply W.
Qed.

(** Fields of an inode outside its block pointers. *)
Definition same_attrs (a b : list Z) : Prop := forall w o, 0 <= o -> o + Z.of_nat w <= 40 -> fld w o a = fld w o b.

Lemma same_attrs_set i v inode : len inode = 128 -> 0 <= i < 15 -> same_attrs (set_i_block i v inode) inode.
Proof. intros Hl Hi w o Ho Hw. unfold set_i_block. apply fld_set_other; lia. Qed.

Lemma data_blk_u32 g s b : layout g s -> data_blk g s b -> u32 b = b.
Proof. intros L (Hin & _). apply u32_small. by apply (used_range g s b L). Qed.

(** What one step of the writer gives: block [b] for data block [k]. *)
Record got_block (g : ext2_fs_t) (s : est) (inode : list Z) (k : Z) (s' : est) (b : Z) (inode' : list Z) : Prop := {
  gb_evolves : evolves g (fun x => x = i_block 12 inode) s s';
  gb_wfile : wfile g s' inode';
  gb_attrs : same_attrs inode' inode;
  gb_block : b <> 0 /\ iblk g s' inode' k = b;
  gb_others : forall j, 0 <= j < max_file g -> j <> k -> iblk g s' inode' j = iblk g s inode j;
  gb_new : b <> iblk g s inode k -> used s b = false;
  gb_ind : i_block 12 inode' <> i_block 12 inode -> used s (i_block 12 inode') = false }.

Lemma iblk_direct g s inode i : i < 12 -> iblk g s inode i = i_block i inode.
Proof. intros Hi. unfold iblk. by rewrite (proj2 (Z.ltb_lt i 12)). Qed.

Lemma iblk_indirect g s inode i :
  12 <= i < max_file g -> iblk g s inode i = if i_block 12 inode =? 0 then 0 else ptr_at s (i_block 12 inode) (i - 12).
Proof.
  intros Hi. unfold iblk, max_file in *. rewrite (proj2 (Z.ltb_ge i 12)) by lia. by rewrite (proj2 (Z.ltb_lt (i - 12) (nptrs g))) by lia.
Qed.

(** A block the file has is not one that was free. *)
Lemma not_fresh g s inode i r : wfile g s inode -> 0 <= i < max_file g -> used s r = false -> r <> 0 -> iblk g s inode i <> r.
Proof.
  intros W Hi Hu Hr E. destruct (wf_data _ _ _ W i Hi) as (_ & Hu' & _); congruence.
Qed.

(** A fresh block becomes data block [k]; all other data blocks are as before. *)
Lemma wfile_extend g s s' inode inode' k b :
  layout g s -> wfile g s inode -> evolves g (fun x => x = i_block 12 inode) s s' -> len inode' = 128 ->
  0 <= k < max_file g -> data_blk g s' b -> used s b = false -> iblk g s' inode' k = b ->
  (forall j, 0 <= j < max_file g -> j <> k -> iblk g s' inode' j = iblk g s inode j) ->
  i_block 12 inode' = i_block 12 inode -> wfile g s' inode'.
Proof.
  intros L W E Hl Hk Hb Hu Hkb Hj H12. assert (b <> 0) as Hb0 by apply Hb. split.
  - done.
  - intros i Hi Hn. destruct (Z.eq_dec i k) as [->|Hne]; [by rewrite Hkb|]. rewrite Hj in * by done.
    apply (evolves_data g _ s s'  _ L E). by apply W.
  - intros Hn. rewrite H12 in *. apply (evolves_data g _ s s' _ L E). by apply W.
  - intros i j Hi Hj' Hij Hn. destruct (Z.eq_dec i k) as [->|Hik].
    + rewrite Hkb, Hj by done. intros Ec. by apply (not_fresh g s inode j b).
    + rewrite Hj in Hn |- * by done. destruct (Z.eq_dec j k) as [->|Hjk].
      * rewrite Hkb. by apply (not_fresh g s).
      * rewrite Hj by done. by apply W.
  - intros i Hi Hn. rewrite H12. destruct (Z.eq_dec i k) as [->|Hik].
    + rewrite Hkb. intros Ec. destruct (wf_ind _ _ _ W) as (_ & Hu' & _); congruence.
    + rewrite Hj in Hn |- * by done. by apply W.
Qed.

(** A direct block is added. *)
Lemma got_direct g s s' inode k b :
  layout g s -> wfile g s inode -> 0 <= k < 12 -> i_block k inode = 0 -> fresh g s b s' ->
  got_block g s inode k s' b (set_i_block k b inode).
Proof.
  intros L W Hk E0 F. destruct F as [E Hin Hu Hd Hz]. pose proof (wf_len _ _ _ W) as Hl.
  pose proof (data_blk_u32 g s' b (ev_layout _ _ _ _ E) Hd) as Hb32.
  assert (Hmx : 0 <= k < max_file g) by (unfold max_file; pose proof (nptrs_bs g s (l_ready _ _ L)); lia).
  assert (i_block 12 (set_i_block k b inode) = i_block 12 inode) as H12.
  { rewrite i_block_set by lia. by rewrite (proj2 (Z.eqb_neq 12 k)) by lia. }
  assert (iblk g s' (set_i_block k b inode) k = b) as Hkb.
  { rewrite iblk_direct by lia. rewrite i_block_set by lia. by rewrite Z.eqb_refl. }
  assert (forall j, 0 <= j < max_file g -> j <> k -> iblk g s' (set_i_block k b inode) j = iblk g s inode j) as Hj.
  { intros j Hj Hne. rewrite <- (iblk_evolves g _ s s' inode j L W E Hj) by (intros ? []).
    destruct (Z.ltb_spec j 12).
    - rewrite !iblk_direct by lia. rewrite i_block_set by lia. by rewrite (proj2 (Z.eqb_neq j k)).
    - rewrite !iblk_indirect by lia. by rewrite H12. }
  assert (evolves g (fun x => x = i_block 12 inode) s s') as E' by (by eapply evolves_weaken; [|exact E]; intros ? ? ? []).
  split; try done.
  - apply (wfile_extend g s s' inode _ k b); try done. by apply len_set_i_block; [|lia].
  - apply same_attrs_set; [done|lia].
  - split; [apply Hd|done].
Qed.

(** The indirect block is added, empty. *)
Lemma add_indirect g s s' inode b :
  layout g s -> wfile g s inode -> i_block 12 inode = 0 -> fresh g s b s' ->
  wfile g s' (set_i_block 12 b inode) /\ i_block 12 (set_i_block 12 b inode) = b /\
  (forall j, 0 <= j < max_file g -> iblk g s' (set_i_block 12 b inode) j = iblk g s inode j).
Proof.
  intros L W E0 F. destruct F as [E Hin Hu Hd Hz]. pose proof (wf_len _ _ _ W) as Hl.
  pose proof (data_blk_u32 g s' b (ev_layout _ _ _ _ E) Hd) as Hb32. assert (b <> 0) as Hb0 by apply Hd.
  assert (i_block 12 (set_i_block 12 b inode) = b) as H12 by (rewrite i_block_set by lia; done).
  assert (forall j, 0 <= j < max_file g -> iblk g s' (set_i_block 12 b inode) j = iblk g s inode j) as Hj.
  { intros j Hj. destruct (Z.ltb_spec j 12).
    - rewrite !iblk_direct by lia. rewrite i_block_set by lia. by rewrite (proj2 (Z.eqb_neq j 12)) by lia.
    - rewrite !iblk_indirect by lia. rewrite H12, E0. rewrite (proj2 (Z.eqb_neq b 0)) by done. unfold ptr_at. rewrite Hz. apply fld_zero. }
  split; [|done]. split.
  - by apply len_set_i_block.
  - intros i Hi Hn. rewrite Hj in * by done. apply (evolves_data g _ s s' _ L E). by apply W.
  - intros _. by rewrite H12.
  - intros i j Hi Hj' Hij Hn. rewrite !Hj in * by done. by apply W.
  - intros i Hi Hn. rewrite Hj in * by done. rewrite H12. by apply (not_fresh g s).
Qed.

(** A pointer of the indirect block is set to a fresh block. *)
Lemma got_indirect g s s1 s' inode k b N :
  layout g s -> wfile g s inode -> 12 <= k < max_file g -> i_block 12 inode <> 0 -> iblk g s inode k = 0 -> fresh g s b s1 ->
  ready g s' -> stores g N (i_block 12 inode) (set_fld 4 (4 * (k - 12)) b (blk s (i_block 12 inode))) s1 s' ->
  got_block g s inode k s' b inode.
Proof.
  intros L W Hk Hn12 E0 F Hr' St. destruct F as [E Hin Hu Hd Hz].
  pose proof (ev_layout _ _ _ _ E) as L1. pose proof (wf_ind _ _ _ W Hn12) as D12.
  pose proof (evolves_data g _ s s1 _ L E D12) as D12'. pose proof D12' as (Hi12 & _ & Hg & Hb & _).
  pose proof (evolves_stores g N _ _ s1 s' L1 Hr' Hi12 Hb Hg St) as E1.
  assert (evolves g (fun x => x = i_block 12 inode) s s') as E'.
  { eapply evolves_comp; [done| |exact E1]. by eapply evolves_weaken; [|exact E]; intros ? ? ? []. }
  pose proof (data_blk_u32 g s1 b L1 Hd) as Hb32. assert (b <> 0) as Hb0 by apply Hd.
  destruct (nptrs_bs g s (l_ready _ _ L)) as [Hp4 Hp0]. unfold max_file in Hk.
  pose proof (length_block_bytes g s (i_block 12 inode) (l_ready _ _ L)) as Hlb.
  assert (blk s' (i_block 12 inode) = set_fld 4 (4 * (k - 12)) b (blk s (i_block 12 inode))) as HB.
  { destruct St as (_ & _ & _ & HB). rewrite HB, decide_True; [done..|]. by apply (inside_addr g s1). }
  assert (forall j, 12 <= j < max_file g -> ptr_at s' (i_block 12 inode) (j - 12) = if j =? k then b else ptr_at s (i_block 12 inode) (j - 12)) as Hptr.
  { intros j Hj. unfold max_file in Hj. unfold ptr_at. rewrite HB. destruct (Z.eqb_spec j k) as [->|].
    - rewrite fld_set_same by lia. exact Hb32.
    - apply fld_set_other; lia. }
  assert (forall j, 0 <= j < max_file g -> iblk g s' inode j = if j =? k then b else iblk g s inode j) as Hj.
  { intros j Hj. destruct (Z.ltb_spec j 12).
    - rewrite !iblk_direct by lia. by rewrite (proj2 (Z.eqb_neq j k)) by lia.
    - rewrite !iblk_indirect by lia. rewrite (proj2 (Z.eqb_neq _ _) Hn12). apply Hptr; lia. }
  assert (Hmx : 0 <= k < max_file g) by (unfold max_file; lia).
  assert (iblk g s' inode k = b) as Hkb by (rewrite Hj, Z.eqb_refl by done; done).
  assert (forall j, 0 <= j < max_file g -> j <> k -> iblk g s' inode j = iblk g s inode j) as Hjo.
  { intros j Hj1 Hj2. rewrite Hj by done. by rewrite (proj2 (Z.eqb_neq j k)). }
  split; try done.
  apply (wfile_extend g s s' inode _ k b); try done; [apply W|]. apply (evolves_data g _ s1 s' b L1 E1 Hd).
Qed.

Lemma got_same g s s' inode k :
  layout g s -> wfile g s inode -> evolves g (fun _ => False) s s' -> 0 <= k < max_file g -> iblk g s inode k <> 0 ->
  got_block g s inode k s' (iblk g s inode k) inode.
Proof.
  intros L W E Hk Hn.
  assert (forall j, 0 <= j < max_file g -> iblk g s' inode j = iblk g s inode j) as Hj by (intros j Hj; apply (iblk_evolves g _ s s' inode j L W E Hj); by intros ? []).
  split; try done.
  - by eapply evolves_weaken; [|exact E]; intros ? ? ? [].
  - apply (wfile_evolves g _ s s' inode L W E). by intros ? [].
  - split; [done|by apply Hj].
  - intros j Hj1 _. by apply Hj.
Qed.

Lemma unused_back g X s s1 b : layout g s -> evolves g X s s1 -> inside s b -> used s1 b = false -> used s b = false.
Proof. intros L E Hin Hu. destruct (used s b) eqn:Eu; [|done]. rewrite (ev_used _ _ _ _ E b Hin Eu) in Hu. done. Qed.

(** After the indirect block was added. *)
Lemma got_after_indirect g s s1 s' inode k b b12 :
  layout g s -> wfile g s inode -> i_block 12 inode = 0 -> fresh g s b12 s1 -> 0 <= k < max_file g ->
  got_block g s1 (set_i_block 12 b12 inode) k s' b (set_i_block 12 b12 inode) ->
  got_block g s inode k s' b (set_i_block 12 b12 inode).
Proof.
  intros L W E0 F Hk G. destruct (add_indirect g s s1 inode b12 L W E0 F) as (W1 & H12 & Hj).
  destruct F as [E1 Hin Hu Hd Hz]. destruct G as [Ge Gw Ga Gb Go Gn _]. rewrite H12 in Ge.
  assert (evolves g (fun x => x = b12) s s') as E.
  { eapply evolves_comp; [done| |exact Ge]. by eapply evolves_weaken; [|exact E1]; intros ? ? ? []. }
  split; try done.
  - eapply evolves_weaken; [|exact E]. intros x _ Hx ->. congruence.
  - apply same_attrs_set; [apply W|lia].
  - intros j Hj1 Hj2. rewrite Go, Hj by done. done.
  - intros Hb. rewrite <- Hj in Hb by done. apply (unused_back g _ s s1 b L E1); [|by apply Gn].
    destruct Gb as [Gb1 Gb2]. destruct (wf_data _ _ _ Gw k Hk) as (Hi & _); [congruence|]. rewrite Gb2 in Hi.
    apply (inside_transfer g s s' b L (l_ready _ _ (ev_layout _ _ _ _ E)) (ev_meta _ _ _ _ E)). done.
  - intros _. by rewrite H12.
Qed.

(** The slot of the indirect block, with the pointer array in buffer 2. *)
Lemma wp_indirect_slot g s inode k (Q : option (Z * list Z) -> est -> Prop) :
  layout g s -> wfile g s inode -> 12 <= k < max_file g -> i_block 12 inode <> 0 ->
  (forall s', keeps [1; 2; 4]%nat s s' -> ready g s' -> full s' -> Q None s') ->
  (forall s' b, keeps [1; 2; 4]%nat s s' -> got_block g s inode k s' b inode -> Q (Some (b, inode)) s') ->
  wp (get_aux_buf ;; ext2_read_block (i_block 12 inode) 2 ;;
      let* p := load 4 2 (4 * (k - 12)) in
      if p =? 0 then
        let* b := ext2_alloc_block in
        store 4 2 (4 * (k - 12)) b ;;
        if b =? 0 then ret None else
        ext2_write_block (i_block 12 inode) 2 ;; ret (Some (b, inode))
      else ret (Some (p, inode))) Q s.
Proof.
  intros L W Hk Hn HN HS. pose proof (l_ready _ _ L) as Hr. destruct (nptrs_bs g s Hr) as [Hp4 Hp0].
  assert (Hmx : 0 <= k < max_file g) by lia. unfold max_file in Hk. set (i12 := i_block 12 inode) in *. set (P := blk s i12).
  apply wp_bind, (wp_get_buf g); [done|lia|]. apply wp_bind, (wp_read_block g); [done|lia|]. fold P.
  pose proof (ready_read g s 2 i12 Hr) as Hr1. fold P in Hr1. set (s1 := with_bufs _ s) in *.
  assert (bufs s1 !! 2%nat = Some (Some P)) as HP1 by (by apply (buf_after_read g); [|lia]).
  assert (reads [1; 2; 4]%nat s s1) as Hs1 by (apply reads_insert; set_solver).
  pose proof (evolves_reads g _ s s1 L Hs1 Hr1) as E1. pose proof (ev_layout _ _ _ _ E1) as L1.
  apply wp_bind, (wp_load g); [done|lia|lia|lia|]. intros P' HP' _. rewrite HP1 in HP'. injection HP' as <-.
  assert (iblk g s inode k = fld 4 (4 * (k - 12)) P) as Hp.
  { rewrite iblk_indirect by (unfold max_file; lia). fold i12. by rewrite (proj2 (Z.eqb_neq i12 0)). }
  destruct (Z.eqb_spec (fld 4 (4 * (k - 12)) P) 0) as [E0|E0].
  2:{ apply wp_ret, HS; [apply Hs1|]. rewrite <- Hp. apply got_same; try done. congruence. }
  apply wp_bind. eapply wp_mono; [by apply wp_alloc_evolves|]. intros b s2 (K2 & E2 & HF).
  pose proof (ev_layout _ _ _ _ E2) as L2. pose proof (l_ready _ _ L2) as Hr2.
  apply wp_bind, (wp_store_bytes g); [done|lia|lia|rewrite length_le_bytes; lia|]. intros P' HP' HlP.
  rewrite K2 in HP' by set_solver. rewrite HP1 in HP'. injection HP' as <-.
  fold (set_fld 4 (4 * (k - 12)) b P). set (P2 := set_fld 4 (4 * (k - 12)) b P). set (s3 := with_bufs _ s2).
  assert (len P2 = block_size g) as HlP2 by (unfold P2; rewrite length_set_fld; lia).
  assert (ready g s3) as Hr3 by (by apply ready_with_buf).
  assert (reads [2%nat] s2 s3) as Hs3 by (apply reads_insert; set_solver).
  assert (keeps [1; 2; 4]%nat s s3) as K3.
  { eapply keeps_trans; [apply Hs1|]. eapply keeps_trans; [eapply keeps_weaken; [|exact K2]; set_solver|].
    eapply keeps_weaken; [|apply Hs3]. set_solver. }
  destruct (b =? 0).
  { apply wp_ret, HN; [done..|]. intros x Hx. pose proof (evolves_reads g _ s2 s3 L2 Hs3 Hr3) as E3.
    apply E3; [|apply HF]; by apply (inside_transfer g s2 s3 x L2 Hr3 (ev_meta _ _ _ _ E3)). }
  apply wp_bind, (wp_write_block g); [done|lia|]. intros P' HP' _. unfold s3 in HP'. rewrite (buf_after_read g) in HP' by (done || lia).
  injection HP' as <-. destruct HF as [F1 F2 F3 F4 F5].
  assert (fresh g s b s2) as F.
  { split; [eapply evolves_comp; [done|exact E1|exact F1]|exact F2|exact F3|done..]. }
  assert (addressable g i12) as Ha.
  { destruct (wf_ind _ _ _ W Hn) as (Hi & _). by apply (inside_addr g s). }
  pose proof (stores_put g [2%nat] i12 P2 s2 s3 Hr2 Ha HlP2 Hs3) as St.
  destruct (put_block_frame g s3 i12 P2 Hr3 HlP2) as (Hr4 & _).
  apply wp_ret, HS.
  - eapply keeps_trans; [|eapply keeps_weaken; [|apply St]; set_solver].
    eapply keeps_trans; [apply Hs1|eapply keeps_weaken; [|exact K2]; set_solver].
  - apply (got_indirect g s s2 _ inode k b [2%nat]); try done; congruence.
Qed.

Lemma wp_data_block g s inode k :
  layout g s -> wfile g s inode -> 0 <= k ->
  wp (data_block k inode) (fun r s' => keeps [1; 2; 4]%nat s s' /\
    match r with
    | None => max_file g <= k \/ full s'
    | Some (b, inode') => 0 <= k < max_file g /\ got_block g s inode k s' b inode'
    end) s.
Proof.
  intros L W Hk. pose proof (l_ready _ _ L) as Hr. destruct (nptrs_bs g s Hr) as [Hp4 Hp0]. unfold data_block.
  apply wp_bind, wp_get. rewrite (ready_bs g s Hr). fold (nptrs g).
  destruct (Z.ltb_spec k 12) as [Hk12|Hk12].
  { assert (Hmx : 0 <= k < max_file g) by (unfold max_file; lia).
    destruct (Z.eqb_spec (i_block k inode) 0) as [E0|E0].
    - apply wp_bind. eapply wp_mono; [by apply wp_alloc_evolves|]. intros b s1 (K1 & E1 & HF).
      assert (keeps [1; 2; 4]%nat s s1) as K by (eapply keeps_weaken; [|exact K1]; set_solver).
      destruct (b =? 0); apply wp_ret; (split; [done|]); [by right|]. split; [done|]. apply got_direct; try done; lia.
    - apply wp_ret. split; [done|]. split; [done|]. rewrite <- (iblk_direct g s inode k) by lia.
      apply got_same; [done|done|by apply evolves_id|done|by rewrite iblk_direct by lia]. }
  destruct (Z.ltb_spec (k - 12) (nptrs g)) as [Hkp|Hkp]; [|apply wp_ret; split; [done|]; left; unfold max_file; lia].
  assert (Hmx : 12 <= k < max_file g) by (unfold max_file; lia).
  destruct (Z.eqb_spec (i_block 12 inode) 0) as [E0|E0].
  - apply wp_bind, wp_bind. eapply wp_mono; [by apply wp_alloc_evolves|]. intros b12 s1 (K1 & E1 & HF).
    assert (keeps [1; 2; 4]%nat s s1) as K by (eapply keeps_weaken; [|exact K1]; set_solver).
    destruct (b12 =? 0); apply wp_ret; [apply wp_ret; split; [done|by right]|].
    destruct (add_indirect g s s1 inode b12 L W E0 HF) as (W1 & H12 & _).
    apply (wp_indirect_slot g s1); [apply E1|done|done|rewrite H12; apply HF| |].
    + intros s' K' _ Hf. split; [by eapply keeps_trans|by right].
    + intros s' b K' G. split; [by eapply keeps_trans|]. split; [lia|]. apply (got_after_indirect g s s1); try done; lia.
  - apply wp_bind, wp_ret. apply (wp_indirect_slot g s); try done.
    + intros s' K' _ Hf. split; [done|by right].
    + intros s' b K' G. split; [done|]. split; [lia|done].
Qed.

(** The state after data blocks from [k] on were written. *)
Record wrote (g : ext2_fs_t) (s : est) (inode : list Z) (k : Z) (data : list Z) (s' : est) (inode' : list Z) : Prop := {
  wr_wfile : wfile g s' inode';
  wr_attrs : same_attrs inode' inode;
  wr_holds : holds g s' inode' k data;
  wr_fit : forall m, 0 <= m -> m * block_size g < len data -> k + m < max_file g;
  wr_before : forall j, 0 <= j < k -> j < max_file g ->
    iblk g s' inode' j = iblk g s inode j /\ (iblk g s inode j <> 0 -> blk s' (iblk g s inode j) = blk s (iblk g s inode j));
  wr_evolves : evolves g (fun x => ~ foreign g s inode x) s s';
  wr_foreign : forall x, inside s x -> used s x = true -> x <> 0 -> foreign g s inode x -> foreign g s' inode' x }.

Lemma foreign_got g s inode k s' b inode' x :
  layout g s -> got_block g s inode k s' b inode' -> 0 <= k < max_file g -> used s x = true -> foreign g s inode x -> foreign g s' inode' x.
Proof.
  intros L G Hk Hu [F1 F2]. split.
  - intros ->. destruct (Z.eq_dec (i_block 12 inode') (i_block 12 inode)) as [E|E]; [congruence|].
    rewrite (gb_ind _ _ _ _ _ _ _ G E) in Hu. done.
  - intros i Hi E. destruct (Z.eq_dec i k) as [->|Hne].
    + destruct (gb_block _ _ _ _ _ _ _ G) as [_ Eb]. destruct (Z.eq_dec b (iblk g s inode k)) as [E'|E'].
      * apply (F2 k Hi). congruence.
      * pose proof (gb_new _ _ _ _ _ _ _ G E'). congruence.
    + rewrite (gb_others _ _ _ _ _ _ _ G) in E by done. by apply (F2 i).
Qed.

(** One block of data goes to the block that was found for it. *)
Lemma wrote_step g s inode k data s1 b inode1 s2 N s' inode' :
  layout g s -> wfile g s inode -> 0 <= k < max_file g -> 0 < len data ->
  got_block g s inode k s1 b inode1 -> ready g s2 ->
  stores g N b (pad g (slice 0 (block_size g) data)) s1 s2 ->
  wrote g s2 inode1 (k + 1) (drop (Z.to_nat (block_size g)) data) s' inode' ->
  wrote g s inode k data s' inode'.
Proof.
  intros L W Hk Hd G Hr2 St Wr. destruct G as [Ge Gw Ga [Gb0 Gb] Go Gn Gi] eqn:EG. clear EG.
  pose proof (ev_layout _ _ _ _ Ge) as L1. pose proof (wf_data _ _ _ Gw k Hk) as Db. rewrite Gb in Db. specialize (Db Gb0).
  pose proof Db as (Dbi & _ & Dbg & Dbm & _). pose proof (evolves_stores g N b _ s1 s2 L1 Hr2 Dbi Dbm Dbg St) as E2.
  pose proof (ready_geo g s (l_ready _ _ L)) as Hgeo.
  assert (i_block 12 inode1 <> 0 -> i_block 12 inode1 <> b) as H12 by (intros _ E; apply (wf_sep _ _ _ Gw k Hk); congruence).
  assert (forall j, 0 <= j < max_file g -> iblk g s2 inode1 j = iblk g s1 inode1 j) as Hj2 by (intros j Hj; by apply (iblk_evolves g _ s1 s2 inode1 j L1 Gw E2)).
  assert (forall x, inside s x -> used s x = true -> foreign g s inode x -> x <> b) as Hxb.
  { intros x Hx Hu Hf E. destruct (foreign_got g s inode k s1 b inode1 x L) as [_ Hf']; try done. apply (Hf' k Hk). congruence. }
  assert (forall x, inside s x -> used s x = true -> foreign g s inode x -> foreign g s2 inode1 x) as Hf2.
  { intros x Hx Hu Hf. destruct (foreign_got g s inode k s1 b inode1 x L) as [F1 F2]; try done.
    split; [done|]. intros i Hi. rewrite Hj2 by done. by apply F2. }
  assert (forall x, inside s x -> inside s1 x) as Hin1 by (intros x; apply (inside_transfer g s s1 x L (l_ready _ _ L1) (ev_meta _ _ _ _ Ge))).
  assert (forall x, inside s1 x -> inside s2 x) as Hin2 by (intros x; apply (inside_transfer g s1 s2 x L1 Hr2 (ev_meta _ _ _ _ E2))).
  destruct Wr as [Ww Wa Wh Wfit Wb We Wf].
  assert (iblk g s' inode' k = b /\ blk s' b = pad g (slice 0 (block_size g) data)) as [Hk1 Hk2].
  { destruct (Wb k ltac:(lia) ltac:(lia)) as [E1 E3]. rewrite Hj2, Gb in E1, E3 by done. split; [done|]. rewrite E3 by done.
    destruct St as (_ & _ & _ & HB). rewrite HB by (by apply (inside_addr g s1)). by rewrite decide_True. }
  split; try done.
  - intros w o Ho Hw. rewrite Wa by done. by apply Ga.
  - intros m Hm Hl. destruct (Z.eq_dec m 0) as [->|Hm0]; [rewrite Z.add_0_r, Hk1, Z.mul_0_l; done|].
    destruct (Wh (m - 1)) as [H1 H2]; [lia|rewrite length_drop; lia|]. replace (k + 1 + (m - 1)) with (k + m) in * by lia.
    split; [done|]. rewrite H2. f_equal. unfold slice. rewrite drop_drop. f_equal. f_equal. lia.
  - intros m Hm Hl. destruct (Z.eq_dec m 0) as [->|Hm0]; [lia|].
    assert (k + 1 + (m - 1) < max_file g); [|lia]. apply Wfit; [lia|]. rewrite length_drop. lia.
  - intros j Hj Hjm. destruct (Wb j ltac:(lia) Hjm) as [E1 E3]. rewrite Hj2, Go in E1, E3 by lia. split; [done|].
    intros Hn. rewrite E3 by done. destruct (wf_data _ _ _ W j ltac:(lia) Hn) as (D1 & D2 & D3 & D4 & _).
    pose proof (meta_eq _ _ (ev_meta _ _ _ _ Ge)) as (Hbm & _).
    rewrite (ev_blk _ _ _ _ E2); [| auto | by apply Ge | congruence | done |].
    + apply Ge; try done. intros E. apply (wf_sep _ _ _ W j); try done; lia.
    + intros E. apply (wf_inj _ _ _ Gw k j); [done|lia|lia|congruence|]. rewrite Gb, Go by lia. congruence.
  - assert (evolves g (fun x => ~ foreign g s inode x) s s1) as E1'.
    { eapply evolves_weaken; [|exact Ge]. intros x _ _ -> [F _]. done. }
    assert (evolves g (fun x => ~ foreign g s inode x) s s2) as E2'.
    { destruct E1' as [A1 B1 C1 D1 F1], E2 as [A2 B2 C2 D2 F2]. pose proof (meta_eq _ _ B1) as (Hbm & _).
      split; [done|congruence|congruence|auto|]. intros x X1 X2 X3 X4 X5. rewrite F2; auto; [congruence|].
      intros ->. apply X5. intros Hf. by apply (Hxb b). }
    destruct E2' as [A2 B2 C2 D2 F2], We as [A3 B3 C3 D3 F3]. pose proof (meta_eq _ _ B2) as (Hbm & _).
    split; [done|congruence|congruence|auto|]. intros x X1 X2 X3 X4 X5. rewrite F3; auto; [congruence|].
    intros Hn. apply X5. intros Hf. apply Hn. by apply Hf2.
  - intros x X1 X2 X3 X4. apply Wf; auto. apply E2; auto. by apply Ge.
Qed.

Lemma stage_block g (data : list Z) :
  0 < block_size g ->
  splice 0 (take (Z.to_nat (Z.min (len data) (block_size g))) data) (zero_bytes (block_size g)) = pad g (slice 0 (block_size g) data).
Proof.
  intros Hb. unfold splice, pad, slice, zero_bytes. rewrite take_0, drop_0. simpl.
  assert (take (Z.to_nat (Z.min (len data) (block_size g))) data = take (Z.to_nat (block_size g)) data) as ->.
  { destruct (Z.leb_spec (len data) (block_size g)); [rewrite !take_ge by lia; done|f_equal; lia]. }
  rewrite drop_replicate. f_equal. f_equal. rewrite length_take. lia.
Qed.

Lemma wp_write_loop g fuel data k inode s :
  layout g s -> wfile g s inode -> 0 <= k -> (length data < fuel)%nat ->
  wp (write_loop fuel data k inode) (fun r s' =>
    match r with
    | None => max_file g * block_size g < k * block_size g + len data \/ full s'
    | Some inode' => wrote g s inode k data s' inode'
    end) s.
Proof.
  revert data k inode s. induction fuel as [|fuel IH]; intros data k inode s L W Hk Hf; [lia|]. cbn [write_loop].
  pose proof (l_ready _ _ L) as Hr. pose proof (ready_geo g s Hr) as Hg. case_decide as Hd.
  { subst data. apply wp_ret. split; try done.
    all: intros m Hm Hl; simpl in Hl; nia. }
  assert (0 < len data) as Hlen by (destruct data; [done|simpl; lia]).
  apply wp_bind, wp_get. rewrite (ready_bs g s Hr). apply wp_bind, (wp_get_buf g); [done|lia|]. cbn [negb].
  set (z := zero_bytes (block_size g)). assert (len z = block_size g) as Hlz by (apply length_zero_bytes; lia).
  apply wp_bind, (wp_store_bytes g); [done|lia|lia|lia|]. intros b0 _ Hl0. rewrite splice_full by lia.
  pose proof (ready_with_buf g s 0 z Hr Hlz) as Hr0.
  apply wp_bind, (wp_store_bytes g); [done|lia|lia|rewrite length_take; lia|]. intros b1 Hb1 _.
  rewrite (buf_after_read g) in Hb1 by (done || lia). injection Hb1 as <-. rewrite set_buf_twice, stage_block by lia.
  set (c := pad g (slice 0 (block_size g) data)). set (s1 := with_bufs _ s).
  assert (len c = block_size g) as Hlc by (apply len_pad; unfold slice; rewrite length_take; lia).
  assert (ready g s1) as Hr1 by (by apply ready_with_buf). assert (reads [0%nat] s s1) as Hs1 by (apply reads_insert; set_solver).
  pose proof (evolves_reads g _ s s1 L Hs1 Hr1) as E1. pose proof (ev_layout _ _ _ _ E1) as L1.
  assert (wfile g s1 inode) as W1 by (by apply (wfile_evolves g _ s s1 inode L W E1); intros ? []).
  apply wp_bind. eapply wp_mono; [by apply wp_data_block|]. intros [[b inode1]|] s2 (K2 & HG).
  2:{ apply wp_ret. destruct HG as [HG|HG]; [left; nia|by right]. }
  destruct HG as [Hkm G]. pose proof (ev_layout _ _ _ _ (gb_evolves _ _ _ _ _ _ _ G)) as L2. pose proof (l_ready _ _ L2) as Hr2.
  apply wp_bind, (wp_write_block g); [done|lia|]. intros c' Hc' _. rewrite K2 in Hc' by set_solver.
  unfold s1 in Hc'. rewrite (buf_after_read g) in Hc' by (done || lia). injection Hc' as <-.
  destruct (gb_block _ _ _ _ _ _ _ G) as [Gb0 Gb]. pose proof (wf_data _ _ _ (gb_wfile _ _ _ _ _ _ _ G) k Hkm) as Db.
  rewrite Gb in Db. specialize (Db Gb0). pose proof Db as (Dbi & _ & Dbg & Dbm & _).
  pose proof (stores_put g [] b c s2 s2 Hr2 (inside_addr g s2 b L2 Dbi) Hlc (reads_refl _ _)) as St.
  destruct (put_block_frame g s2 b c Hr2 Hlc) as (Hr3 & _). set (s3 := put_block s2 b c) in *.
  pose proof (evolves_stores g _ b c s2 s3 L2 Hr3 Dbi Dbm Dbg St) as E3.
  assert (wfile g s3 inode1) as W3.
  { apply (wfile_evolves g _ s2 s3 inode1 L2 (gb_wfile _ _ _ _ _ _ _ G) E3). intros _ E.
    apply (wf_sep _ _ _ (gb_wfile _ _ _ _ _ _ _ G) k Hkm); congruence. }
  assert (drop (Z.to_nat (Z.min (len data) (block_size g))) data = drop (Z.to_nat (block_size g)) data) as ->.
  { destruct (Z.leb_spec (len data) (block_size g)); [rewrite !drop_ge by lia; done|f_equal; lia]. }
  eapply wp_mono; [apply IH; [apply E3|done|lia|rewrite length_drop; lia]|].
  intros [inode'|] s' HR.
  - assert (wrote g s1 inode k data s' inode') as HW by (by apply (wrote_step g s1 inode k data s2 b inode1 s3 [])).
    destruct HW as [A B C D' D [E F G' H' I'] J]. split; try done.
  - destruct HR as [HR|HR]; [left|by right]. rewrite length_drop in HR. nia.
Qed.
End Write.
