(* ===== verification/Ext2Path.v ===== *)
(** Path names of the ext2 driver: resolve_path against a lookup on the tree the disk holds,
    and what of the disk a lookup depends on. *)
From Stdlib Require Import ZArith Lia.
From S2P Require Import Prelude Packed Ext2 Ext2Safe Ext2Demo Ext2Blocks Ext2Alloc Ext2Free Ext2Total Ext2File.

(** * Reference: looking a name up *)

(** The inode of the entry called [name] in a directory block, from offset [off] on. *)
Fixpoint entry_in (bs : Z) (fuel : nat) (off left : Z) (name B : list Z) : option Z :=
  match fuel with
  | O => None
  | S fuel' =>
      let rec_len := fld 2 (off + 4) B in
      let name_len := fld 1 (off + 6) B in
      let next := entry_in bs fuel' (off + rec_len) left name B in
      if negb ((off + 8 <=? bs) && (off <? left)) || (rec_len <? 8) || (bs <? off + rec_len) then None
      else if fld 4 off B =? 0 then next
      else if bs <? off + 8 + name_len then None
      else if negb (name_len <? MAX_FILENAME) then next
      else if decide (cstr (slice (off + 8) name_len B) = name) then Some (fld 4 off B)
      else next
  end.

(** The blocks of a directory in order, up to the first that is missing. *)
Fixpoint dir_find (g : ext2_fs_t) (s : est) (fuel : nat) (inode : list Z) (left k : Z) (name : list Z) : option Z :=
  match fuel with
  | O => None
  | S fuel' =>
      if (left =? 0) || (iblk g s inode k =? 0) then None else
      match entry_in (block_size g) (entry_fuel g) 0 left name (blk s (iblk g s inode k)) with
      | Some i => Some i
      | None => dir_find g s fuel' inode (u32 (left - block_size g)) (k + 1) name
      end
  end.

(** The directories a path goes through, and the inode it names (0 for none). *)
Fixpoint walk (g : ext2_fs_t) (s : est) (fuel : nat) (p : list Z) (cur : Z) : list Z * Z :=
  match fuel with
  | O => ([], 0)
  | S fuel' =>
      match p with
      | [] => ([], cur)
      | _ =>
          match take_component (Z.to_nat (MAX_FILENAME - 1)) p with
          | None => ([], 0)
          | Some (w, q) =>
              if decide (w = []) then walk g s fuel' (skip_slash q) cur else
              if cur =? 0 then ([], 0) else
              match dir_find g s (block_fuel g) (inode_of s cur) (i_size (inode_of s cur)) 0 w with
              | None => ([cur], 0)
              | Some i => let '(ds, r) := walk g s fuel' (skip_slash q) i in (cur :: ds, r)
              end
          end
      end
  end.

Definition lookup (g : ext2_fs_t) (s : est) (path : list Z) : list Z * Z :=
  match path with
  | c :: p => if c =? SLASH then walk g s (S (length p)) p EXT2_ROOT_INO else ([], 0)
  | [] => ([], 0)
  end.

Section Path.
Context `{BlockHeap}.
Implicit Types (g : ext2_fs_t) (s : est).

Lemma wp_find_entry g B fuel off left name s :
  ready g s -> bufs s !! 0%nat = Some (Some B) -> entry_inv g fuel off ->
  wp (find_entry fuel off left name) (fun r s' => s' = s /\ r = entry_in (block_size g) fuel off left name B) s.
Proof.
  intros Hr HB. revert off. induction fuel as [|fuel IH]; intros off Hinv; [by apply entry_inv_fuel in Hinv|].
  cbn [find_entry entry_in]. apply wp_bind, wp_get. rewrite (ready_bs g s Hr). pose proof Hinv as [Ho _].
  unfold EXT2_DIRENT_HDR in *.
  destruct (negb _) eqn:E1; cbn [orb]; [by apply wp_ret|]. bool_prop.
  apply wp_bind, (wp_load g); [done|lia|lia|lia|]. intros B' HB' _. rewrite HB in HB'. injection HB' as <-.
  destruct (Z.ltb_spec (fld 2 (off + 4) B) 8); cbn [orb]; [by apply wp_ret|].
  destruct (Z.ltb_spec (block_size g) (off + fld 2 (off + 4) B)); [by apply wp_ret|].
  assert (wp (find_entry fuel (off + fld 2 (off + 4) B) left name)
    (fun r s' => s' = s /\ r = entry_in (block_size g) fuel (off + fld 2 (off + 4) B) left name B) s) as Hnext.
  { apply IH. eapply entry_inv_step; [eassumption|lia|lia]. }
  apply wp_bind, (wp_load g); [done|lia|lia|lia|]. intros B' HB' _. rewrite HB in HB'. injection HB' as <-.
  case_match; [done|].
  apply wp_bind, (wp_load g); [done|lia|lia|lia|]. intros B' HB' _. rewrite HB in HB'. injection HB' as <-.
  pose proof (fld1_range (off + 6) B).
  destruct (Z.ltb_spec (block_size g) (off + 8 + fld 1 (off + 6) B)); [by apply wp_ret|].
  rewrite Z.leb_antisym. case_match; [done|].
  apply wp_bind, (wp_load_bytes g); [done|lia|lia|lia|lia|]. intros B' HB' _. rewrite HB in HB'. injection HB' as <-.
  case_decide; [by apply wp_ret|done].
Qed.

Lemma iblk_reads g N s s' inode i : reads N s s' -> iblk g s' inode i = iblk g s inode i.
Proof. intros Hs. unfold iblk, ptr_at. by rewrite !(reads_blk _ _ _ _ Hs). Qed.

Lemma iblk_bound g s inode i : 0 <= i -> iblk g s inode i <> 0 -> i < max_blocks g.
Proof.
  intros Hi Hn. unfold iblk in Hn. unfold max_blocks. fold (nptrs g).
  destruct (Z.ltb_spec i 12); [|destruct (Z.ltb_spec (i - 12) (nptrs g)); [|destruct (Z.ltb_spec (i - 12 - nptrs g) (nptrs g * nptrs g)); [|done]]].
  all: unfold nptrs in *; nia.
Qed.

Lemma entry_fuel_ready g s : ready g s -> entry_fuel (fs s) = entry_fuel g.
Proof. intros Hr. unfold entry_fuel. by rewrite (ready_bs g s Hr). Qed.
Lemma block_fuel_ready g s : ready g s -> block_fuel (fs s) = block_fuel g.
Proof. intros Hr. unfold block_fuel. by rewrite (ready_bs g s Hr). Qed.

(** ** What a lookup depends on *)

(** The blocks of [inode] lie in the same places in both states, and hold the same. *)
Definition same_blocks g s s' (inode : list Z) : Prop :=
  forall i, 0 <= i -> iblk g s' inode i = iblk g s inode i /\
    (iblk g s inode i <> 0 -> blk s' (iblk g s inode i) = blk s (iblk g s inode i)).

Lemma dir_find_same g s s' inode name fuel left k :
  same_blocks g s s' inode -> 0 <= k -> dir_find g s' fuel inode left k name = dir_find g s fuel inode left k name.
Proof.
  intros Hs. revert left k. induction fuel as [|fuel IH]; intros left k Hk; [done|]. cbn [dir_find].
  destruct (Hs k Hk) as [-> Hb]. destruct (left =? 0); [done|]. destruct (Z.eqb_spec (iblk g s inode k) 0) as [|E]; [done|].
  cbn [orb]. rewrite (Hb E), IH by lia. done.
Qed.

Lemma walk_same g s s' fuel p cur :
  Forall (fun d => inode_of s' d = inode_of s d /\ same_blocks g s s' (inode_of s d)) (walk g s fuel p cur).1 ->
  walk g s' fuel p cur = walk g s fuel p cur.
Proof.
  revert p cur. induction fuel as [|fuel IH]; intros p cur; [done|]. cbn [walk]. destruct p as [|c p]; [done|].
  destruct (take_component _ _) as [[w q]|]; [|done]. case_decide; [apply IH|]. destruct (cur =? 0); [done|].
  intros Hd. assert (inode_of s' cur = inode_of s cur /\ same_blocks g s s' (inode_of s cur)) as [Hi Hb].
  { revert Hd. destruct (dir_find _ _ _ _ _ _ _) as [i|]; [destruct (walk g s fuel _ i) as [ds r]|]; simpl; rewrite Forall_cons_iff; tauto. }
  rewrite Hi, (dir_find_same g s s') by done. destruct (dir_find _ _ _ _ _ _ _) as [i|]; [|done].
  specialize (IH (skip_slash q) i). destruct (walk g s fuel (skip_slash q) i) as [ds r]. simpl in Hd, IH.
  rewrite IH; [done|]. by apply Forall_cons_iff in Hd as [_ Hd].
Qed.

Lemma lookup_same g s s' path :
  Forall (fun d => inode_of s' d = inode_of s d /\ same_blocks g s s' (inode_of s d)) (lookup g s path).1 ->
  lookup g s' path = lookup g s path.
Proof. unfold lookup. destruct path as [|c p]; [done|]. destruct (c =? SLASH); [|done]. apply walk_same. Qed.

Lemma inode_of_reads N s s' ino : reads N s s' -> inode_of s' ino = inode_of s ino.
Proof.
  intros Hs. pose proof Hs as (Hf & _).
  assert (forall n, bgd_of s' n = bgd_of s n) as Hb.
  { intros n. unfold bgd_of. rewrite Hf. destruct (bgd_place _ _). by rewrite (reads_blk _ _ _ _ Hs). }
  unfold inode_of, iplace. rewrite Hf, Hb. destruct (inode_place _ _ _). by rewrite (reads_blk _ _ _ _ Hs).
Qed.

Lemma same_blocks_reads g N s s' inode : reads N s s' -> same_blocks g s s' inode.
Proof. intros Hs i _. split; [by eapply iblk_reads|]. intros _. by apply (reads_blk _ _ _ _ Hs). Qed.

Lemma walk_reads g N s s' fuel p cur : reads N s s' -> walk g s' fuel p cur = walk g s fuel p cur.
Proof.
  intros Hs. apply walk_same. apply list.Forall_forall. intros d _. split; [by eapply inode_of_reads|by eapply same_blocks_reads].
Qed.

Lemma entry_in_nonneg bs fuel off left name B i : entry_in bs fuel off left name B = Some i -> 0 <= i.
Proof.
  revert off. induction fuel as [|fuel IH]; intros off; [done|]. cbn [entry_in].
  repeat case_match; try done; try apply IH. intros [= <-]. apply fld_range.
Qed.

Lemma dir_find_nonneg g s fuel inode left k name i : dir_find g s fuel inode left k name = Some i -> 0 <= i.
Proof.
  revert left k. induction fuel as [|fuel IH]; intros left k; [done|]. cbn [dir_find]. case_match; [done|].
  destruct (entry_in _ _ _ _ _ _) as [j|] eqn:E; [|apply IH]. intros [= <-]. by eapply entry_in_nonneg.
Qed.

(** ** The driver's walk *)

Lemma wp_find_in_dir g inode name fuel left k s :
  ready g s -> 0 <= k -> max_blocks g < k + Z.of_nat fuel -> k <= max_blocks g ->
  wp (find_in_dir fuel inode left k name) (fun r s' =>
    r = dir_find g s fuel inode left k name /\ ready g s' /\ reads [0; 2; 3]%nat s s') s.
Proof.
  revert left k s. induction fuel as [|fuel IH]; intros left k s Hr Hk Hf Hm; [lia|]. cbn [find_in_dir dir_find].
  destruct (left =? 0); cbn [orb]; [by apply wp_ret|]. apply wp_bind, (wp_get_buf g); [done|lia|].
  apply wp_bind. eapply wp_mono; [by apply (wp_read_inode_block g)|]. intros ok s1 (Hr1 & Hs1 & -> & HB).
  destruct (Z.eqb_spec (iblk g s inode k) 0) as [E|E]; cbn [negb]; [by apply wp_ret|].
  pose proof (iblk_bound g s inode k Hk E). apply wp_bind, wp_get. rewrite (ready_bs g s1 Hr1), (entry_fuel_ready g s1 Hr1).
  pose proof (entry_inv_start g s1 Hr1) as Hinv. rewrite (entry_fuel_ready g s1 Hr1) in Hinv.
  apply wp_bind. eapply wp_mono; [by apply (wp_find_entry g _ _ _ _ _ s1 Hr1 (HB E))|].
  intros r s2 (-> & ->). destruct (entry_in _ _ _ _ _ _) as [i|]; [by apply wp_ret|].
  eapply wp_mono; [apply IH; [done|lia|lia|lia]|]. intros r s3 (-> & Hr3 & Hs3).
  split; [|split; [done|by eapply reads_trans]]. apply dir_find_same; [by eapply same_blocks_reads|lia].
Qed.

Lemma wp_resolve_from g fuel p cur s :
  ready g s -> 0 <= cur -> (length p < fuel)%nat ->
  wp (resolve_from fuel p cur) (fun r s' => r = (walk g s fuel p cur).2 /\ ready g s' /\ reads [0; 2; 3; 4]%nat s s') s.
Proof.
  revert p cur s. induction fuel as [|fuel IH]; intros p cur s Hr Hc Hl; [lia|]. cbn [resolve_from walk].
  destruct p as [|c p]; [by apply wp_ret|].
  destruct (take_component _ (c :: p)) as [[w q]|] eqn:E; [|by apply wp_ret].
  apply take_component_slash in E. fold (skip_slash q). simpl in Hl. case_decide; [apply IH; [done|done|lia]|].
  destruct (Z.eqb_spec cur 0) as [->|Hc0]; [by apply wp_bind, wp_ret, wp_ret|].
  apply wp_bind. eapply wp_mono; [by apply (wp_read_inode g); [|lia]|]. intros r s1 (-> & Hr1 & Hs1).
  apply wp_bind, wp_get. rewrite (block_fuel_ready g s1 Hr1). destruct (block_fuel_enough g s1 Hr1) as [Hbf ?].
  rewrite (block_fuel_ready g s1 Hr1) in Hbf.
  apply wp_bind. eapply wp_mono; [by apply (wp_find_in_dir g)|]. intros r s2 (-> & Hr2 & Hs2).
  rewrite (dir_find_same g s s1) by (try done; by eapply same_blocks_reads).
  assert (reads [0; 2; 3; 4]%nat s s2) as Hs.
  { eapply reads_trans; eapply reads_weaken; [|eassumption| |eassumption]; set_solver. }
  destruct (dir_find _ _ _ _ _ _ _) as [i|] eqn:Ei; [|by apply wp_ret].
  assert (0 <= i) as Hi0 by (by eapply dir_find_nonneg).
  eapply wp_mono; [apply IH; [done|done|lia]|]. intros r s3 (-> & Hr3 & Hs3).
  rewrite (walk_reads g _ s s2 _ _ _ Hs). destruct (walk g s fuel (skip_slash q) i) as [ds r]. simpl.
  split; [done|]. split; [done|]. by eapply reads_trans.
Qed.

Lemma wp_resolve g path s :
  ready g s ->
  wp (ext2_resolve path) (fun r s' => r = (lookup g s path).2 /\ ready g s' /\ reads [0; 2; 3; 4]%nat s s') s.
Proof.
  intros Hr. unfold ext2_resolve, resolve_path, lookup. destruct path as [|c p]; [by apply wp_ret|].
  destruct (c =? SLASH); cbn [negb]; [|by apply wp_ret].
  case_decide as E; [subst p; by apply wp_ret|]. apply wp_resolve_from; [done|done|lia].
Qed.
End Path.
