(* ===== verification/Ext2Save.v ===== *)
(** Saving a file: ext2_write_file followed by ext2_read_file of the same path, and what the
    rest of the file system keeps. *)
From Stdlib Require Import ZArith Lia.
From S2P Require Import Prelude Packed Ext2 Ext2Safe Ext2Demo Ext2Blocks Ext2Alloc Ext2Free Ext2Total Ext2File Ext2Path.

Section Save.
Context `{BlockHeap}.
Implicit Types (g : ext2_fs_t) (s : est).

(** * Steps that leave the tables alone *)

Lemma evolves_frame g (X : Z -> Prop) s s' :
  layout g s -> ready g s' -> fs s' = fs s -> rtc s' = rtc s -> ~ X (bmap s) -> ~ X (bgd_block g) ->
  (forall x, addressable g x -> ~ X x -> blk s' x = blk s x) -> evolves g X s s'.
Proof.
  intros L Hr' Hf Ht Hb1 Hb2 HB.
  pose proof (inside_addr g s _ L (proj1 (l_bmap _ _ L))) as Ha1. pose proof (inside_addr g s _ L (proj1 (l_bgd _ _ L))) as Ha2.
  assert (bgd_of s' 0 = bgd_of s 0) as Hb by (unfold bgd_of; rewrite Hf, (layout_bgd_place g s L), HB; done).
  assert (meta s' = meta s) as Hm by (unfold meta, bmap, fdb, total; by rewrite Hb, Hf).
  assert (forall x, used s' x = used s x) as Hu.
  { intros x. unfold used, fdb. unfold bmap at 1. rewrite Hb, Hf. fold (bmap s). by rewrite HB. }
  split; try done.
  - apply (layout_transfer g s); try done. intros; by rewrite Hu.
  - intros; by rewrite Hu.
  - intros x Hx _ _ _ Hne. apply HB; [by apply (inside_addr g s)|done].
Qed.

(** The superblock goes to its own block. *)
Lemma sync_sector g s st lba b x :
  layout g s -> mounted g st -> 2 <= lba < 4 -> addressable g x -> x <> sb_block g -> blk (write_sectors lba b st) x = blk st x.
Proof.
  intros L Hm Hl Ha Hx. pose proof (inside_addr g s _ L (proj1 (l_sb _ _ L))) as (Hs0 & Hp & Hsb).
  destruct (spb_pos g st Hm) as [Hn Hbs].
  assert (mounted g (write_sectors lba b st)) as Hm' by done.
  rewrite !(blk_secs g) by done. f_equal. apply map_ext_in. intros i Hi. apply in_seq in Hi.
  unfold sec, write_sectors, ata_write_sector. cbn [fs dsk with_dsk]. rewrite lookup_insert_ne; [done|].
  intros E. injection E as E. revert E. destruct Hm as [(_ & -> & _) _].
  assert (block_size g / 512 = 2 /\ sb_block g = 1 \/ (block_size g / 512 = 4 \/ block_size g / 512 = 8) /\ sb_block g = 0) as Hcase.
  { unfold sb_block. destruct (ready_geo g s (l_ready _ _ L)) as [-> | [-> | ->]]; vm_compute; tauto. }
  set (n := block_size g / 512) in *. set (p := part_start_lba g) in *. set (k := sb_block g) in *.
  unfold base. fold n p. destruct Hi as [_ Hi]. apply Nat2Z.inj_lt in Hi. rewrite Nat2Z.inj_add, Z2Nat.id in Hi by lia.
  clearbody n p k. destruct Hcase as [[-> ->] | [[-> | ->] ->]]; rewrite u32_small, Z.mod_small by lia; destruct Ha; lia.
Qed.

Lemma wp_sync_superblock g s :
  layout g s -> wp ext2_sync_superblock (fun _ s' => evolves g (fun x => x = sb_block g) s s') s.
Proof.
  intros L. pose proof (ready_sync g s (l_ready _ _ L)) as Hsafe. revert Hsafe.
  unfold ext2_sync_superblock. unfold wp, bind, modify, ret. cbv beta iota. intros Hr'.
  set (b1 := slice 0 512 _) in *. set (b2 := slice 512 512 _) in *.
  set (s1 := write_sectors 2 b1 s) in *.
  destruct (l_sb _ _ L) as (_ & _ & ? & ?).
  apply evolves_frame; try done; [congruence..|]. intros x Ha Hx. pose proof (ready_mounted g s (l_ready _ _ L)) as Hm.
  rewrite (sync_sector g s) by (done || lia). by apply (sync_sector g s).
Qed.

(** * Inodes of the first group *)

(** [d] is an inode of the first group, its slot in a block of the inode table. *)
Definition slot g s (d : Z) : Prop := 0 < d <= inodes_per_group g /\ data_blk g s (iplace s d).1.

Lemma iplace_group0 g s d :
  ready g s -> 0 < d <= inodes_per_group g ->
  let per := block_size g / inode_size g in
  iplace s d = (u32 (b_inode_table (bgd_of s 0) + (d - 1) / per), (d - 1) mod per * inode_size g).
Proof.
  intros Hr Hd. destruct (r_same _ _ Hr) as (_ & _ & Hbs & Hipg & _ & _ & Hisz).
  unfold iplace, inode_place. rewrite Hbs, Hipg, Hisz. by rewrite Z.div_small, Z.mod_small by lia.
Qed.

Lemma iplace_same g s s' d :
  ready g s -> ready g s' -> meta s' = meta s -> 0 < d <= inodes_per_group g -> iplace s' d = iplace s d.
Proof.
  intros Hr Hr' Hm Hd. apply meta_eq in Hm as (_ & _ & Ht & _). rewrite !(iplace_group0 g) by done. by rewrite Ht.
Qed.

(** The slots of two inodes do not overlap. *)
Lemma iplace_apart g s d e :
  ready g s -> 0 < d <= inodes_per_group g -> 0 < e <= inodes_per_group g -> d <> e ->
  (iplace s d).1 = (iplace s e).1 -> (iplace s d).2 + 128 <= (iplace s e).2 \/ (iplace s e).2 + 128 <= (iplace s d).2.
Proof.
  intros Hr Hd He Hne. rewrite !(iplace_group0 g) by done. cbn [fst snd]. intros Eb.
  destruct (r_geo _ _ Hr) as [_ Hipg _ Hisz _]. destruct (r_same _ _ Hr) as (_ & _ & Hbs & Hig & _ & _ & His).
  rewrite Hbs, ?Hig, ?His in *. pose proof (ready_geo g s Hr). set (per := block_size g / inode_size g) in *.
  assert (0 < per) by (apply Z.div_str_pos; lia).
  assert ((d - 1) / per = (e - 1) / per) as Ed.
  { set (t := b_inode_table (bgd_of s 0)) in *. pose proof (Z.mul_div_le (d - 1) per). pose proof (Z.mul_div_le (e - 1) per).
    assert (0 <= (d - 1) / per) by (apply Z.div_pos; lia). assert (0 <= (e - 1) / per) by (apply Z.div_pos; lia).
    assert ((d - 1) / per <= d - 1 /\ (e - 1) / per <= e - 1) by nia.
    unfold u32 in Eb. pose proof (Z.div_mod (t + (d - 1) / per) (2 ^ 32)). pose proof (Z.div_mod (t + (e - 1) / per) (2 ^ 32)). nia. }
  pose proof (Z.div_mod (d - 1) per). pose proof (Z.div_mod (e - 1) per).
  assert ((d - 1) mod per <> (e - 1) mod per) as Hm by (intros Em; rewrite Ed, Em in *; lia).
  destruct (Z.lt_total ((d - 1) mod per) ((e - 1) mod per)) as [Hlt|[Heq|Hlt]]; [left; nia|done|right; nia].
Qed.

Lemma iplace_bound g s d : ready g s -> 0 <= (iplace s d).2 /\ (iplace s d).2 + 128 <= block_size g.
Proof. intros Hr. unfold iplace. destruct (inode_place _ _ d) as [b o] eqn:E. by eapply (inode_place_bound g s). Qed.

Lemma inode_of_evolves g X s s' d :
  layout g s -> evolves g X s s' -> slot g s d -> ~ X (iplace s d).1 -> inode_of s' d = inode_of s d.
Proof.
  intros L E [Hd (H1 & H2 & H3 & H4 & _)] HX. unfold inode_of.
  rewrite (iplace_same g s s' d (l_ready _ _ L) (l_ready _ _ (ev_layout _ _ _ _ E)) (ev_meta _ _ _ _ E) Hd).
  destruct (iplace s d) as [b o]. by rewrite (ev_blk _ _ _ _ E).
Qed.

(** The inode goes to its slot, all others are as before. *)
Lemma wp_save_inode g s ino inode :
  layout g s -> slot g s ino -> len inode = 128 ->
  wp (ext2_write_inode ino inode) (fun _ s' =>
    evolves g (fun x => x = (iplace s ino).1) s s' /\ inode_of s' ino = inode /\
    forall d, slot g s d -> d <> ino -> inode_of s' d = inode_of s d) s.
Proof.
  intros L [Hi Hd] Hl. pose proof (l_ready _ _ L) as Hr. pose proof Hd as (H1 & H2 & H3 & H4 & _).
  pose proof (inside_addr g s _ L H1) as Ha.
  eapply wp_mono; [by apply wp_write_inode; [|lia| |]|]. intros r s' (_ & Hr' & St).
  pose proof (evolves_stores g _ _ _ s s' L Hr' H1 H4 H3 St) as E. split; [done|].
  destruct St as (_ & _ & _ & HB). pose proof (iplace_bound g s ino Hr) as Hb.
  pose proof (length_block_bytes g s (iplace s ino).1 Hr) as Hlb.
  split.
  - unfold inode_of at 1. rewrite (iplace_same g s s' ino Hr Hr' (ev_meta _ _ _ _ E) Hi).
    destruct (iplace s ino) as [b o] eqn:Ep. cbn [fst snd] in *. rewrite HB, decide_True by done.
    unfold SIZEOF_INODE. rewrite <- Hl. apply slice_splice_same; lia.
  - intros d [Hd1 Hd2] Hne. destruct (Z.eq_dec (iplace s d).1 (iplace s ino).1) as [Eb|Eb]; [|by apply (inode_of_evolves g _ s s' d L E)].
    pose proof (iplace_apart g s d ino Hr Hd1 Hi Hne Eb) as Hap. pose proof (iplace_bound g s d Hr).
    unfold inode_of. rewrite (iplace_same g s s' d Hr Hr' (ev_meta _ _ _ _ E) Hd1).
    destruct (iplace s d) as [b o], (iplace s ino) as [b' o']. cbn [fst snd] in *. subst b'. rewrite HB, decide_True by done.
    apply slice_splice_other; unfold SIZEOF_INODE; lia.
Qed.

(** * Blocks an inode reaches *)

Lemma ptrs_from_elem k i P j : i <= j < i + Z.of_nat k -> fld 4 (4 * j) P <> 0 -> fld 4 (4 * j) P ∈ ptrs_from k i P.
Proof.
  revert i. induction k as [|k IH]; intros i Hj Hn; [lia|]. cbn [ptrs_from]. apply elem_of_app.
  destruct (Z.eq_dec j i) as [->|]; [left|right; apply IH; [lia|done]]. rewrite (proj2 (Z.eqb_neq _ _) Hn). set_solver.
Qed.

Lemma direct_blocks_elem k i inode j : i <= j < i + Z.of_nat k -> i_block j inode <> 0 -> i_block j inode ∈ direct_blocks k i inode.
Proof.
  revert i. induction k as [|k IH]; intros i Hj Hn; [lia|]. cbn [direct_blocks]. apply elem_of_app.
  destruct (Z.eq_dec j i) as [->|]; [left|right; apply IH; [lia|done]]. rewrite (proj2 (Z.eqb_neq _ _) Hn). set_solver.
Qed.

Lemma ptrs_of_elem g s b j : ready g s -> 0 <= j < nptrs g -> ptr_at s b j <> 0 -> ptr_at s b j ∈ ptrs_of g (blk s b).
Proof. intros Hr Hj Hn. apply ptrs_from_elem; [|done]. fold (nptrs g). lia. Qed.

(** Two states that agree on the blocks an inode reaches have its data in the same blocks. *)
Lemma same_blocks_reach g s s' inode :
  ready g s -> (forall x, x ∈ inode_blocks g s inode -> blk s' x = blk s x) -> same_blocks g s s' inode.
Proof.
  intros Hr Hb i Hi. destruct (nptrs_bs g s Hr) as [Hp4 Hp0].
  assert (iblk g s' inode i = iblk g s inode i /\ (iblk g s inode i <> 0 -> iblk g s inode i ∈ inode_blocks g s inode)) as [E Hin].
  2:{ split; [done|]. intros Hn. by apply Hb, Hin. }
  unfold iblk. destruct (Z.ltb_spec i 12).
  { split; [done|]. intros Hn. apply elem_of_app. left. apply direct_blocks_elem; [lia|done]. }
  destruct (Z.ltb_spec (i - 12) (nptrs g)).
  { destruct (Z.eqb_spec (i_block 12 inode) 0) as [|H12]; [done|].
    assert (indirect_blocks g s inode = ptrs_of g (blk s (i_block 12 inode)) ++ [i_block 12 inode]) as Hib
      by (unfold indirect_blocks; by rewrite (proj2 (Z.eqb_neq _ _) H12)).
    split.
    - unfold ptr_at. rewrite Hb; [done|]. unfold inode_blocks. rewrite Hib. set_solver.
    - intros Hn. unfold inode_blocks. rewrite Hib, !elem_of_app. right; left; left. apply ptrs_of_elem; [done|lia|done]. }
  destruct (Z.ltb_spec (i - 12 - nptrs g) (nptrs g * nptrs g)); [|done]. set (j := i - 12 - nptrs g) in *.
  assert (0 <= j / nptrs g < nptrs g) by (split; [apply Z.div_pos; lia|apply Z.div_lt_upper_bound; lia]).
  pose proof (Z.mod_pos_bound j (nptrs g)).
  destruct (Z.eqb_spec (i_block 13 inode) 0) as [|H13]; [done|].
  assert (double_blocks g s inode = concat (map (fun d => ptrs_of g (blk s d) ++ [d]) (ptrs_of g (blk s (i_block 13 inode)))) ++ [i_block 13 inode]) as Hdb
    by (unfold double_blocks; by rewrite (proj2 (Z.eqb_neq _ _) H13)).
  assert (ptr_at s' (i_block 13 inode) (j / nptrs g) = ptr_at s (i_block 13 inode) (j / nptrs g)) as ->.
  { unfold ptr_at. rewrite Hb; [done|]. unfold inode_blocks. rewrite Hdb. set_solver. }
  set (d := ptr_at s (i_block 13 inode) (j / nptrs g)). destruct (Z.eqb_spec d 0) as [|Hd]; [done|].
  assert (forall x, x ∈ ptrs_of g (blk s d) ++ [d] -> x ∈ inode_blocks g s inode) as Hx.
  { intros x Hx. unfold inode_blocks. rewrite Hdb, !elem_of_app. right; right; left. apply list_elem_of_In, in_concat.
    exists (ptrs_of g (blk s d) ++ [d]). split; [|by apply list_elem_of_In]. apply in_map_iff. exists d. split; [done|].
    apply list_elem_of_In. by apply ptrs_of_elem. }
  split.
  - unfold ptr_at. rewrite Hb; [done|]. apply Hx. set_solver.
  - intros Hn. apply Hx, elem_of_app. left. apply ptrs_of_elem; [done|lia|done].
Qed.

(** * Writing and reading back *)

Definition stamped (n t blocks : Z) (inode : list Z) : list Z :=
  set_i_mtime t (set_i_ctime t (set_i_blocks_512 blocks (set_i_size n inode))).

Lemma stamped_fields n t blocks inode :
  len inode = 128 -> let i := stamped n t blocks inode in
  len i = 128 /\ i_mode i = i_mode inode /\ i_size i = u32 n /\ (forall j, 0 <= j < 15 -> i_block j i = i_block j inode).
Proof.
  intros Hl i. unfold i, stamped, set_i_mtime, set_i_ctime, set_i_blocks_512, set_i_size.
  assert (len (set_fld 4 4 n inode) = 128) as L1 by (set_length; lia).
  assert (len (set_fld 4 28 blocks (set_fld 4 4 n inode)) = 128) as L2 by (set_length; lia).
  assert (len (set_fld 4 12 t (set_fld 4 28 blocks (set_fld 4 4 n inode))) = 128) as L3 by (set_length; lia).
  unfold i_mode, i_size, i_block.
  split; [set_length; lia|]. split; [rewrite !fld_set_other by lia; done|].
  split; [rewrite !(fld_set_other 4 4) by lia; rewrite fld_set_same by lia; done|].
  intros j Hj. rewrite !fld_set_other by lia. done.
Qed.

Lemma iblk_ext g s a b i : (forall j, 0 <= j < 15 -> i_block j a = i_block j b) -> 0 <= i -> iblk g s a i = iblk g s b i.
Proof. intros Hj Hi. unfold iblk. destruct (Z.ltb_spec i 12); rewrite !Hj by lia; done. Qed.

(** A file the writer can be used on: its slot and its blocks are its own. *)
Record savable g s (ino : Z) : Prop := {
  sv_slot : slot g s ino;
  sv_wfile : wfile g s (inode_of s ino);
  sv_apart : foreign g s (inode_of s ino) (iplace s ino).1 }.

(** An inode that shares nothing with file [ino]. *)
Record bystander g s (ino d : Z) : Prop := {
  by_slot : slot g s d;
  by_other : d <> ino;
  by_apart : foreign g s (inode_of s ino) (iplace s d).1;
  by_blocks : Forall (fun x => data_blk g s x /\ foreign g s (inode_of s ino) x /\ x <> (iplace s ino).1)
                (inode_blocks g s (inode_of s d)) }.

(** [s'] is [s] with [data] in file [ino]. *)
Record saved g s (ino : Z) (data : list Z) (s' : est) : Prop := {
  sd_layout : layout g s';
  sd_size : i_size (inode_of s' ino) = len data;
  sd_mode : i_mode (inode_of s' ino) = i_mode (inode_of s ino);
  sd_holds : holds g s' (inode_of s' ino) 0 data;
  sd_others : forall d, bystander g s ino d -> inode_of s' d = inode_of s d /\ same_blocks g s s' (inode_of s d) }.

Lemma savable_reads g N s s' ino : reads N s s' -> savable g s ino -> savable g s' ino.
Proof.
  intros (Hf & Hd & Ht & _) [A [B1 B2 B3 B4 B5] C]. destruct s, s'. simpl in *. subst. split; [exact A|split; done|exact C].
Qed.

Lemma bystander_reads g N s s' ino d : reads N s s' -> bystander g s ino d -> bystander g s' ino d.
Proof. intros (Hf & Hd & Ht & _) [A B C D]. destruct s, s'. simpl in *. subst. split; done. Qed.

Lemma saved_from_reads g N s s1 ino data s' : reads N s s1 -> saved g s1 ino data s' -> saved g s ino data s'.
Proof.
  intros Hs [A B C D E]. split; try done.
  - rewrite C. f_equal. by eapply inode_of_reads.
  - intros d Hd. apply (bystander_reads g N s s1) in Hd; [|done]. destruct (E d Hd) as [E1 E2].
    rewrite (inode_of_reads N s s1 d Hs) in *. split; [done|]. intros i Hi. destruct (E2 i Hi) as [F1 F2].
    rewrite (iblk_reads g N s s1 _ _ Hs) in *. split; [done|]. intros Hn. rewrite F2 by done. by apply (reads_blk _ _ _ _ Hs).
Qed.

(** What the write loop, the inode and the superblock together do. *)
Lemma saved_after g s ino data s1 inode1 s2 s3 n t blocks :
  layout g s -> savable g s ino -> len data < 2 ^ 31 -> n = len data ->
  wrote g s (inode_of s ino) 0 data s1 inode1 ->
  evolves g (fun x => x = (iplace s1 ino).1) s1 s2 -> inode_of s2 ino = stamped n t blocks inode1 ->
  (forall d, slot g s1 d -> d <> ino -> inode_of s2 d = inode_of s1 d) ->
  evolves g (fun x => x = sb_block g) s2 s3 -> saved g s ino data s3.
Proof.
  intros L [Sslot Swf Sap] Hlen -> W E12 Hi2 Ho2 E23. destruct W as [Ww Wa Wh Wfit _ We Wf].
  pose proof (ev_layout _ _ _ _ We) as L1. pose proof (ev_layout _ _ _ _ E12) as L2. pose proof (ev_layout _ _ _ _ E23) as L3.
  pose proof (l_ready _ _ L) as Hr. pose proof (l_ready _ _ L1) as Hr1. pose proof (l_ready _ _ L2) as Hr2. pose proof (l_ready _ _ L3) as Hr3.
  assert (forall d, 0 < d <= inodes_per_group g -> iplace s1 d = iplace s d) as Hp1.
  { intros d Hd. apply (iplace_same g s s1 d Hr Hr1 (ev_meta _ _ _ _ We) Hd). }
  assert (forall d, 0 < d <= inodes_per_group g -> iplace s2 d = iplace s d) as Hp2.
  { intros d Hd. rewrite <- Hp1 by done. apply (iplace_same g s1 s2 d Hr1 Hr2 (ev_meta _ _ _ _ E12) Hd). }
  assert (forall d, slot g s d -> slot g s1 d) as Hs1.
  { intros d [Hd Hdb]. split; [done|]. rewrite Hp1 by done. by apply (evolves_data g _ s s1 _ L We). }
  assert (forall d, slot g s d -> slot g s2 d) as Hs2.
  { intros d Hd. destruct (Hs1 d Hd) as [Hd1 Hd2]. split; [done|]. rewrite Hp2, <- Hp1 by done. by apply (evolves_data g _ s1 s2 _ L1 E12). }
  assert (forall d, slot g s d -> inode_of s3 d = inode_of s2 d) as Hi3.
  { intros d Hd. apply (inode_of_evolves g _ s2 s3 d L2 E23 (Hs2 d Hd)). destruct (Hs2 d Hd) as (_ & Hx). apply Hx. }
  destruct Sslot as [Hino Hidb]. pose proof (Hp1 ino Hino) as Hpi.
  assert (foreign g s1 inode1 (iplace s ino).1) as Hf1 by (destruct Hidb as (? & ? & ? & ? & ? & ?); by apply Wf).
  destruct (stamped_fields (len data) t blocks inode1 (wf_len _ _ _ Ww)) as (_ & Hm & Hsz & Hblk).
  assert (inode_of s3 ino = stamped (len data) t blocks inode1) as Hi by (rewrite Hi3, Hi2 by (split; done); done).
  assert (forall x, data_blk g s1 x -> x <> (iplace s ino).1 -> blk s3 x = blk s1 x) as Hkeep.
  { intros x Dx Hx. pose proof (evolves_data g _ s1 s2 x L1 E12 Dx) as (D1 & D2 & D3 & D4 & D5 & _).
    rewrite (ev_blk _ _ _ _ E23) by done. destruct Dx as (D1' & D2' & D3' & D4' & _).
    apply (ev_blk _ _ _ _ E12); try done. by rewrite Hpi. }
  split.
  - done.
  - rewrite Hi, Hsz. apply u32_small. lia.
  - rewrite Hi, Hm. apply Wa; lia.
  - rewrite Hi. intros m Hm0 Hml. destruct (Wh m Hm0 Hml) as [Hn Hb]. specialize (Wfit m Hm0 Hml). rewrite Z.add_0_l in *.
    assert (iblk g s3 (stamped (len data) t blocks inode1) m = iblk g s1 inode1 m) as ->.
    { rewrite (iblk_ext g s3 _ inode1 m Hblk Hm0). destruct (Z.ltb_spec m 12); [rewrite !iblk_direct by lia; done|].
      rewrite !iblk_indirect by lia. destruct (Z.eqb_spec (i_block 12 inode1) 0) as [|Hn12]; [done|].
      unfold ptr_at. rewrite Hkeep; [done|by apply Ww|]. destruct Hf1 as [Hf1 _]. done. }
    split; [done|]. rewrite Hkeep; [done|by apply Ww; [lia|]|]. destruct Hf1 as [_ Hf1]. apply Hf1. lia.
  - intros d [Bs Bo Ba Bb]. assert (inode_of s3 d = inode_of s d) as Hd.
    { rewrite Hi3, Ho2 by auto. apply (inode_of_evolves g _ s s1 d L We Bs). tauto. }
    split; [done|]. apply same_blocks_reach; [done|]. intros x Hx. rewrite list.Forall_forall in Bb.
    destruct (Bb x Hx) as (Dx & Fx & Nx). rewrite Hkeep; [|by apply (evolves_data g _ s s1 x L We)|done].
    destruct Dx as (? & ? & ? & ? & _). apply (ev_blk _ _ _ _ We); tauto.
Qed.


Lemma wp_write_file g s path data :
  layout g s -> savable g s (lookup g s path).2 ->
  truthy (i_mode (inode_of s (lookup g s path).2) .& EXT2_S_IFREG) = true -> len data < 2 ^ 31 ->
  wp (ext2_write_file path data) (fun r s' =>
    r = -1 /\ (max_file g * block_size g < len data \/ full s') \/
    r = len data /\ saved g s (lookup g s path).2 data s') s.
Proof.
  intros L Sv Hreg Hlen. pose proof (l_ready _ _ L) as Hr. set (ino := (lookup g s path).2) in *.
  assert (0 < ino) as Hino by (destruct (sv_slot _ _ _ Sv); lia). unfold ext2_write_file.
  apply wp_bind. eapply wp_mono; [by apply (wp_resolve g)|]. intros r s1 (-> & Hr1 & Hs1). fold ino.
  rewrite (proj2 (Z.eqb_neq ino 0)) by lia. apply wp_bind, wp_ret. rewrite (proj2 (Z.eqb_neq ino 0)) by lia.
  apply wp_bind. eapply wp_mono; [by apply (wp_read_inode g)|]. intros r s2 (-> & Hr2 & Hs2).
  assert (reads [0; 2; 3; 4]%nat s s2) as Hs by (eapply reads_trans; [done|]; eapply reads_weaken; [|done]; set_solver).
  rewrite (inode_of_reads _ s s1 ino Hs1), Hreg. cbn [negb]. rewrite <- (inode_of_reads _ s s2 ino Hs).
  apply wp_bind, wp_get. pose proof (ev_layout _ _ _ _ (evolves_reads g _ s s2 L Hs Hr2)) as L2.
  pose proof (savable_reads g _ s s2 ino Hs Sv) as Sv2.
  apply wp_bind. eapply wp_mono; [apply (wp_write_loop g); [done|apply Sv2|lia|lia]|].
  intros [inode1|] s3 HW; [|apply wp_ret; left; split; [done|]; by rewrite Z.mul_0_l, Z.add_0_l in HW].
  apply wp_bind, wp_bind, wp_get, wp_ret. pose proof (ev_layout _ _ _ _ (wr_evolves _ _ _ _ _ _ _ HW)) as L3.
  pose proof (wf_len _ _ _ (wr_wfile _ _ _ _ _ _ _ HW)) as Hl1.
  set (bl := u32 _). set (t := ext2_now _). change (set_i_mtime t _) with (stamped (len data) t bl inode1).
  destruct (stamped_fields (len data) t bl inode1 Hl1) as [Hls _].
  destruct (sv_slot _ _ _ Sv2) as [Hino2 Hidb].
  assert (slot g s3 ino) as Hslot.
  { split; [done|]. rewrite (iplace_same g s2 s3 ino Hr2 (l_ready _ _ L3) (ev_meta _ _ _ _ (wr_evolves _ _ _ _ _ _ _ HW)) Hino2).
    by apply (evolves_data g _ s2 s3 _ L2 (wr_evolves _ _ _ _ _ _ _ HW)). }
  apply wp_bind. eapply wp_mono; [by apply (wp_save_inode g)|]. intros r4 s4 (E34 & Hi4 & Ho4).
  apply wp_bind. eapply wp_mono; [apply (wp_sync_superblock g), E34|]. intros r5 s5 E45. apply wp_ret. right. split; [done|].
  apply (saved_from_reads g _ s s2 ino data s5 Hs). by eapply (saved_after g s2 ino data s3 inode1 s4 s5).
Qed.

Lemma wp_read_saved g s path ino data maxlen :
  layout g s -> (lookup g s path).2 = ino -> 0 < ino -> truthy (i_mode (inode_of s ino) .& EXT2_S_IFREG) = true ->
  i_size (inode_of s ino) = len data -> holds g s (inode_of s ino) 0 data -> 0 <= maxlen ->
  wp (ext2_read_file path maxlen) (fun out _ => out = Some (take (Z.to_nat maxlen) data)) s.
Proof.
  intros L <- Hino Hreg Hsz Hh Hm. set (ino := (lookup g s path).2) in *. pose proof (l_ready _ _ L) as Hr. unfold ext2_read_file.
  apply wp_bind. eapply wp_mono; [by apply (wp_resolve g)|]. intros r s1 (-> & Hr1 & Hs1). fold ino.
  rewrite (proj2 (Z.eqb_neq ino 0)) by lia. apply wp_bind. eapply wp_mono; [by apply (wp_read_inode g)|]. intros r s2 (-> & Hr2 & Hs2).
  rewrite (inode_of_reads _ s s1 ino Hs1), Hreg. cbn [negb]. apply wp_bind, wp_get. rewrite Hsz.
  assert (reads [0; 2; 3; 4]%nat s s2) as Hs by (eapply reads_trans; [done|]; eapply reads_weaken; [|done]; set_solver).
  assert (holds g s2 (inode_of s ino) 0 data) as Hh2.
  { intros m Hm0 Hl. rewrite (iblk_reads g _ s s2 _ _ Hs), (reads_blk _ _ _ _ Hs). by apply Hh. }
  apply wp_bind. eapply wp_mono; [apply (wp_read_loop g _ _ data); [done|done|lia|lia|]|].
  - destruct (block_fuel_enough g s2 Hr2) as [Hbf Hmb]. pose proof (ready_geo g s Hr) as Hgeo.
    destruct (Z.leb_spec (len data) (max_blocks g * block_size g)); [nia|].
    destruct (Hh (max_blocks g)) as [Hn _]; [lia|lia|]. apply iblk_bound in Hn; lia.
  - intros out s3 (-> & _). apply wp_ret. simpl. f_equal.
    destruct (Z.leb_spec (len data) maxlen); [rewrite !take_ge by lia; done|f_equal; lia].
Qed.

(** C30: Writing a file by its path and reading it back.  Let the path lead to a regular file
    whose slot and blocks are its own, through directories that share nothing with it.  Then
    ext2_write_file returns: it fails only when the data exceeds what direct and singly
    indirect blocks can hold or no block is left, and otherwise ext2_read_file of the same
    path delivers the data written, cut at the size of the caller's buffer, the path leads
    where it led, and every inode apart from the file keeps its contents and its blocks. *)
Theorem ext2_write_read_roundtrip g s path data :
  layout g s -> savable g s (lookup g s path).2 ->
  truthy (i_mode (inode_of s (lookup g s path).2) .& EXT2_S_IFREG) = true ->
  Forall (bystander g s (lookup g s path).2) (lookup g s path).1 -> len data < 2 ^ 31 ->
  exists r s', ext2_write_file path data s = Some (r, s') /\
    (r = -1 /\ (max_file g * block_size g < len data \/ full s') \/
     r = len data /\ lookup g s' path = lookup g s path /\
     (forall maxlen, 0 <= maxlen -> exists s'',
        ext2_read_file path maxlen s' = Some (Some (take (Z.to_nat maxlen) data), s'')) /\
     (forall d, bystander g s (lookup g s path).2 d -> inode_of s' d = inode_of s d /\ same_blocks g s s' (inode_of s d))).
Proof.
  intros L Sv Hreg Hdirs Hlen. pose proof (wp_write_file g s path data L Sv Hreg Hlen) as HW. unfold wp in HW.
  destruct (ext2_write_file path data s) as [[r s']|]; [|done]. exists r, s'. split; [done|].
  destruct HW as [HW|[-> [S1 S2 S3 S4 S5]]]; [by left|right]. split; [done|].
  assert (lookup g s' path = lookup g s path) as Hlk.
  { apply lookup_same. eapply list.Forall_impl; [exact Hdirs|]. intros d. apply S5. }
  split; [done|]. split; [|done]. intros maxlen Hm.
  pose proof (wp_read_saved g s' path (lookup g s path).2 data maxlen S1) as HR.
  rewrite Hlk, S3 in HR. specialize (HR eq_refl ltac:(destruct (sv_slot _ _ _ Sv); lia) Hreg S2 S4 Hm). unfold wp in HR.
  destruct (ext2_read_file path maxlen s') as [[out s'']|]; [|done]. exists s''. by rewrite HR.
Qed.
End Save.

(** * A file to write to *)

(** The sample image with a directory /d and an empty file /d/f in it. *)
Definition save_fs : est :=
  Eval vm_compute in
  match (ext2_mkdir [47; 100] ;; ext2_create_file [47; 100; 47; 102]) demo_fs with Some (_, s) => s | None => demo_fs end.

Definition emptyb (inode : list Z) : bool := (len inode =? 128) && forallb (fun j => i_block (Z.of_nat j) inode =? 0) (seq 0 15).

Lemma empty_blocks g s inode : emptyb inode = true ->
  len inode = 128 /\ i_block 12 inode = 0 /\ forall i, 0 <= i < max_file g -> iblk g s inode i = 0.
Proof.
  unfold emptyb. intros He. bool_prop. rewrite forallb_forall in *.
  assert (forall j, 0 <= j < 15 -> i_block j inode = 0) as Hz.
  { intros j Hj. rewrite <- (Z2Nat.id j) by lia. apply Z.eqb_eq. match goal with H : forall x, _ -> _ |- _ => apply H end. apply in_seq. lia. }
  split; [done|]. split; [by apply Hz|]. intros i Hi. destruct (Z.ltb_spec i 12); [rewrite iblk_direct by lia; apply Hz; lia|].
  rewrite iblk_indirect by lia. by rewrite Hz by lia.
Qed.

Lemma empty_foreign g s inode x : emptyb inode = true -> x <> 0 -> foreign g s inode x.
Proof.
  intros He Hx. destruct (empty_blocks g s inode He) as (_ & H12 & Hi). split; [congruence|]. intros i Hi'. rewrite Hi by done. congruence.
Qed.

Lemma empty_savable g s ino : emptyb (inode_of s ino) = true -> slot g s ino -> savable g s ino.
Proof.
  intros He Hs. destruct (empty_blocks g s _ He) as (Hl & H12 & Hi). split; [done| |].
  - split; [done|..]; intros; rewrite ?Hi in * by done; done.
  - apply empty_foreign; [done|]. apply Hs.
Qed.

Definition slotb (s : est) (d : Z) : bool := (0 <? d) && (d <=? inodes_per_group (fs s)) && data_blkb s (iplace s d).1.

Lemma slotb_ok s d : slotb s d = true -> slot (fs s) s d.
Proof.
  unfold slotb. intros Hb. bool_prop. split; [lia|]. assert (forallb (data_blkb s) [(iplace s d).1] = true) as Hf by (simpl; by rewrite andb_true_r).
  apply data_blkb_ok in Hf. by apply Forall_cons_iff in Hf as [Hf _].
Qed.

Definition bystanderb (s : est) (ino d : Z) : bool :=
  slotb s d && negb (d =? ino) && forallb (data_blkb s) (inode_blocks (fs s) s (inode_of s d)) &&
  forallb (fun x => negb (x =? (iplace s ino).1)) (inode_blocks (fs s) s (inode_of s d)).

Lemma bystanderb_ok s ino d : emptyb (inode_of s ino) = true -> bystanderb s ino d = true -> bystander (fs s) s ino d.
Proof.
  intros He Hb. unfold bystanderb in Hb. bool_prop.
  match goal with H : slotb _ _ = true |- _ => apply slotb_ok in H as Hs end. split; [done|done| |].
  - apply empty_foreign; [done|]. apply Hs.
  - apply list.Forall_forall. intros x Hx. match goal with H : forallb (data_blkb s) _ = true |- _ => apply data_blkb_ok in H as Hd end.
    rewrite list.Forall_forall in Hd. specialize (Hd x Hx). split; [done|]. split; [apply empty_foreign; [done|]; apply Hd|].
    match goal with H : forallb (fun _ => _) _ = true |- _ => rewrite forallb_forall in H; specialize (H x (proj1 (list_elem_of_In _ _) Hx)) end.
    by bool_prop.
Qed.

Lemma ext2_write_read_roundtrip_witness :
  exists s' s'', ext2_write_file [47; 100; 47; 102] (replicate 13000 5) save_fs = Some (13000, s') /\
    ext2_read_file [47; 100; 47; 102] 20000 s' = Some (Some (replicate 13000 5), s'').
Proof.
  assert (lookup (fs save_fs) save_fs [47; 100; 47; 102] = ([2; 3], 4)) as Hlk by (vm_compute; reflexivity).
  destruct (ext2_write_read_roundtrip (fs save_fs) save_fs [47; 100; 47; 102] (replicate 13000 5)) as (r & s' & E & HR).
  - apply layoutb_ok. vm_compute. reflexivity.
  - rewrite Hlk. apply empty_savable; [vm_compute; reflexivity|]. apply slotb_ok. vm_compute. reflexivity.
  - rewrite Hlk. vm_compute. reflexivity.
  - rewrite Hlk. apply Forall_cons_iff; split; [|apply Forall_cons_iff; split; [|constructor]];
      (apply bystanderb_ok; [vm_compute; reflexivity|vm_compute; reflexivity]).
  - vm_compute. reflexivity.
  - destruct HR as [[-> _]|(-> & _ & HR & _)].
    + exfalso. revert E. vm_compute. discriminate.
    + destruct (HR 20000 ltac:(lia)) as [s'' HR']. exists s', s''. split; [rewrite E; f_equal; f_equal; vm_compute; reflexivity|].
      rewrite HR', take_ge by (apply Nat.leb_le; vm_compute; reflexivity). reflexivity.
Defined.
