(* ===== verification/Vfs.v ===== *)
(** The virtual file system (kernel/vfs.c): the pool of nodes, path names, file handles,
    generated /proc files and mounted file systems.

    A node pointer is the index of the node in [nodes]; a file handle is the node's address,
    here the index plus one.  What a mount entry points to is the interface [FsOps].  The
    functions run as steps of the monad [M]; [None] is an access outside an object. *)
From Stdlib Require Import ZArith Lia String.
From S2P Require Import Prelude Packed Format.
From S2P Require Ext2.

Definition MAX_INODES : nat := 256.
Definition MAX_NAME : nat := 64.
Definition MAX_CHILDREN : nat := 128.
Definition MAX_PATH : nat := 256.
Definition MAX_FILENAME : nat := 128.
Definition BLOCK_SIZE : Z := 512.
Definition VFS_MOUNT_DIRENTS : Z := 64.
Definition MAX_MOUNT_POINTS : nat := 8.
Definition FS_TYPE_EXT2 : Z := 1.

Definition DEV_NULL : Z := 1.
Definition DEV_ZERO : Z := 2.
Definition DEV_RANDOM : Z := 3.

Definition PROC_MEMINFO : Z := 1.
Definition PROC_UPTIME : Z := 2.
Definition PROC_VERSION : Z := 3.
Definition PROC_CPUINFO : Z := 4.
Definition PROC_PID_DIR : Z := 5.
Definition PROC_PID_STATUS : Z := 6.
Definition PROC_PID_CMDLINE : Z := 7.
Definition PROC_PID_MAPS : Z := 8.

Definition KERNEL_VERSION : string := "5.9.17".
Definition MMAP_BASE : Z := 0x100000000.
Definition SHARED_LIBC_BASE : Z := 0x30000000.

Notation dirent := Ext2.dirent.
Notation BlockHeap := Ext2.BlockHeap.

(** A mounted file system with state [F], as the function pointers of a mount entry offer
    it: every operation runs on the state and returns; [None] is for -1 where there is data. *)
Class FsOps (F : Type) := {
  fs_resolve : list Z -> F -> option (Z * F);
  fs_get_size : list Z -> F -> option (Z * F);
  fs_read_file : list Z -> Z -> F -> option (option (list Z) * F);
  fs_write_file : list Z -> list Z -> F -> option (Z * F);
  fs_readdir : list Z -> Z -> F -> option (option (list dirent) * F);
  fs_mkdir : list Z -> F -> option (Z * F);
  fs_unlink : list Z -> F -> option (Z * F) }.

(** * State *)

(** What the data pointer of a node leads to: nothing, a block of bytes, or the entries of a
    mounted directory. *)
Inductive node_data := DNull | DBytes (b : list Z) | DDents (l : list dirent).

Record vfs_node := VfsNode {
  n_name : list Z; n_type : Z; n_size : Z; n_data : node_data; n_id : Z; n_parent : option nat; children : list nat;
  readdir_idx : Z; mount_backed : bool; open_refs : Z; orphaned : bool; on_free_list : bool;
  mpath : list Z; mount_ent : option nat; dev_type : Z; proc_type : Z; proc_pid : Z }.

(** A node after memset. *)
Definition zero_node : vfs_node := VfsNode [] 0 0 DNull 0 None [] 0 false 0 false false [] None 0 0 0.

Definition set_name v n := VfsNode v (n_type n) (n_size n) (n_data n) (n_id n) (n_parent n) (children n) (readdir_idx n) (mount_backed n) (open_refs n) (orphaned n) (on_free_list n) (mpath n) (mount_ent n) (dev_type n) (proc_type n) (proc_pid n).
Definition set_type v n := VfsNode (n_name n) v (n_size n) (n_data n) (n_id n) (n_parent n) (children n) (readdir_idx n) (mount_backed n) (open_refs n) (orphaned n) (on_free_list n) (mpath n) (mount_ent n) (dev_type n) (proc_type n) (proc_pid n).
Definition set_content d v n := VfsNode (n_name n) (n_type n) v d (n_id n) (n_parent n) (children n) (readdir_idx n) (mount_backed n) (open_refs n) (orphaned n) (on_free_list n) (mpath n) (mount_ent n) (dev_type n) (proc_type n) (proc_pid n).
Definition set_id v n := VfsNode (n_name n) (n_type n) (n_size n) (n_data n) v (n_parent n) (children n) (readdir_idx n) (mount_backed n) (open_refs n) (orphaned n) (on_free_list n) (mpath n) (mount_ent n) (dev_type n) (proc_type n) (proc_pid n).
Definition set_parent v n := VfsNode (n_name n) (n_type n) (n_size n) (n_data n) (n_id n) v (children n) (readdir_idx n) (mount_backed n) (open_refs n) (orphaned n) (on_free_list n) (mpath n) (mount_ent n) (dev_type n) (proc_type n) (proc_pid n).
Definition set_children v n := VfsNode (n_name n) (n_type n) (n_size n) (n_data n) (n_id n) (n_parent n) v (readdir_idx n) (mount_backed n) (open_refs n) (orphaned n) (on_free_list n) (mpath n) (mount_ent n) (dev_type n) (proc_type n) (proc_pid n).
Definition set_readdir_idx v n := VfsNode (n_name n) (n_type n) (n_size n) (n_data n) (n_id n) (n_parent n) (children n) v (mount_backed n) (open_refs n) (orphaned n) (on_free_list n) (mpath n) (mount_ent n) (dev_type n) (proc_type n) (proc_pid n).
Definition set_open_refs v n := VfsNode (n_name n) (n_type n) (n_size n) (n_data n) (n_id n) (n_parent n) (children n) (readdir_idx n) (mount_backed n) v (orphaned n) (on_free_list n) (mpath n) (mount_ent n) (dev_type n) (proc_type n) (proc_pid n).
Definition set_orphaned v n := VfsNode (n_name n) (n_type n) (n_size n) (n_data n) (n_id n) (n_parent n) (children n) (readdir_idx n) (mount_backed n) (open_refs n) v (on_free_list n) (mpath n) (mount_ent n) (dev_type n) (proc_type n) (proc_pid n).
Definition set_on_free_list v n := VfsNode (n_name n) (n_type n) (n_size n) (n_data n) (n_id n) (n_parent n) (children n) (readdir_idx n) (mount_backed n) (open_refs n) (orphaned n) v (mpath n) (mount_ent n) (dev_type n) (proc_type n) (proc_pid n).
Definition set_mount (me : nat) (sub : list Z) n := VfsNode (n_name n) (n_type n) (n_size n) (n_data n) (n_id n) (n_parent n) (children n) (readdir_idx n) true (open_refs n) (orphaned n) (on_free_list n) sub (Some me) (dev_type n) (proc_type n) (proc_pid n).
Definition set_dev_type v n := VfsNode (n_name n) (n_type n) (n_size n) (n_data n) (n_id n) (n_parent n) (children n) (readdir_idx n) (mount_backed n) (open_refs n) (orphaned n) (on_free_list n) (mpath n) (mount_ent n) v (proc_type n) (proc_pid n).
Definition set_proc pt pid n := VfsNode (n_name n) (n_type n) (n_size n) (n_data n) (n_id n) (n_parent n) (children n) (readdir_idx n) (mount_backed n) (open_refs n) (orphaned n) (on_free_list n) (mpath n) (mount_ent n) (dev_type n) pt pid.

(** A mount entry; [me_ops] tells whether its function pointers were set. *)
Record mount_entry_t := MountEntry { me_type : Z; mount_point : list Z; me_ops : bool }.

(** What /proc shows of the kernel: the process table's entries in order, the counters. *)
Record vm_region_t := VmRegion { r_start : Z; r_end : Z; r_writable : bool; r_exec : bool }.
Record proc_info := ProcInfo { pid : Z; ppid : Z; pstate : Z; comm : list Z; cmdline : list Z; regions : option (list vm_region_t) }.
Record kernel_info := KernelInfo { memory_total : Z; memory_used : Z; tick_count : Z; process_table : list proc_info }.

Record vfs {F : Type} := Vfs {
  nodes : list vfs_node; node_count : nat; free_nodes : list nat; current_dir : nat; proc_node : option nat;
  mount_table : list mount_entry_t; dev_rng_state : Z; kallocs : nat; kinfo : kernel_info; mfs : F }.
Arguments vfs : clear implicits.

Definition NULLFD : Z := 0.
Definition fd_of (i : nat) : Z := Z.of_nat i + 1.

(** * Monad *)

Section Vfs.
Context {F : Type}.

Definition M (A : Type) : Type := vfs F -> option (A * vfs F).
Definition ret {A} (x : A) : M A := fun s => Some (x, s).
Definition bind {A B} (m : M A) (k : A -> M B) : M B :=
  fun s => match m s with Some (x, s') => k x s' | None => None end.
Definition crash {A} : M A := fun _ => None.
Definition get : M (vfs F) := fun s => Some (s, s).
Definition gets {A} (f : vfs F -> A) : M A := fun s => Some (f s, s).
Definition modify (f : vfs F -> vfs F) : M unit := fun s => Some (tt, f s).
End Vfs.
Arguments M : clear implicits.

Declare Scope vfs_scope.
Notation "'let*' x := m 'in' k" := (bind m (fun x => k)) (at level 200, x name, right associativity) : vfs_scope.
Notation "m ;; k" := (bind m (fun _ => k)) (at level 100, k at level 200, right associativity) : vfs_scope.
Open Scope vfs_scope.

Section Ops.
Context {F : Type} `{FsOps F} `{BlockHeap}.
Implicit Types (v : vfs F).

Definition with_nodes l v : vfs F := Vfs F l (node_count v) (free_nodes v) (current_dir v) (proc_node v) (mount_table v) (dev_rng_state v) (kallocs v) (kinfo v) (mfs v).
Definition with_count c v : vfs F := Vfs F (nodes v) c (free_nodes v) (current_dir v) (proc_node v) (mount_table v) (dev_rng_state v) (kallocs v) (kinfo v) (mfs v).
Definition with_free l v : vfs F := Vfs F (nodes v) (node_count v) l (current_dir v) (proc_node v) (mount_table v) (dev_rng_state v) (kallocs v) (kinfo v) (mfs v).
Definition with_cwd d v : vfs F := Vfs F (nodes v) (node_count v) (free_nodes v) d (proc_node v) (mount_table v) (dev_rng_state v) (kallocs v) (kinfo v) (mfs v).
Definition with_proc_node d v : vfs F := Vfs F (nodes v) (node_count v) (free_nodes v) (current_dir v) d (mount_table v) (dev_rng_state v) (kallocs v) (kinfo v) (mfs v).
Definition with_mounts l v : vfs F := Vfs F (nodes v) (node_count v) (free_nodes v) (current_dir v) (proc_node v) l (dev_rng_state v) (kallocs v) (kinfo v) (mfs v).
Definition with_rng r v : vfs F := Vfs F (nodes v) (node_count v) (free_nodes v) (current_dir v) (proc_node v) (mount_table v) r (kallocs v) (kinfo v) (mfs v).
Definition with_kallocs k v : vfs F := Vfs F (nodes v) (node_count v) (free_nodes v) (current_dir v) (proc_node v) (mount_table v) (dev_rng_state v) k (kinfo v) (mfs v).
Definition with_mfs f v : vfs F := Vfs F (nodes v) (node_count v) (free_nodes v) (current_dir v) (proc_node v) (mount_table v) (dev_rng_state v) (kallocs v) (kinfo v) f.

Definition node v (i : nat) : vfs_node := nth i (nodes v) zero_node.
Definition on_node (i : nat) (f : vfs_node -> vfs_node) v : vfs F := with_nodes (<[i := f (node v i)]> (nodes v)) v.
Definition update (i : nat) (f : vfs_node -> vfs_node) : M F unit := modify (on_node i f).

(** A call through a mount entry; a block from the kernel heap. *)
Definition mount_call {A} (f : F -> option (A * F)) : M F A :=
  fun v => match f (mfs v) with Some (r, s) => Some (r, with_mfs s v) | None => None end.
Definition kmalloc (n : Z) : M F (option (list Z)) :=
  fun v => Some (Ext2.fresh_buf (kallocs v) n, with_kallocs (S (kallocs v)) v).

(** memcpy of [d] to offset [o] of a block. *)
Definition memcpy (o : Z) (d b : list Z) : M F (list Z) :=
  if (0 <=? o) && (o + len d <=? len b) then ret (splice o d b) else crash.

(** ** The pool *)

Definition alloc_node : M F (option nat) := fun v =>
  let reset i v := Some (Some i, on_node i (fun _ => set_id (Z.of_nat i) zero_node) v) in
  match free_nodes v with
  | i :: l => reset i (with_free l v)
  | [] => if Nat.ltb (node_count v) MAX_INODES then reset (node_count v) (with_count (S (node_count v)) v) else Some (None, v)
  end.

Definition free_node (i : nat) : M F unit :=
  let* v := get in
  if negb (on_free_list (node v i)) && Nat.ltb (length (free_nodes v)) MAX_INODES then
    update i (set_on_free_list true) ;; modify (fun v => with_free (i :: free_nodes v) v)
  else ret tt.

Definition release_node (i : nat) : M F unit :=
  let* n := gets (fun v => node v i) in
  if 0 <? open_refs n then update i (set_orphaned true) else
  update i (set_content DNull 0) ;; update i (set_children []) ;; free_node i.

Definition vfs_append_child (parent child : nat) : M F Z :=
  let* p := gets (fun v => node v parent) in
  if Nat.leb MAX_CHILDREN (length (children p)) then ret (-1) else
  update parent (set_children (children p ++ [child])) ;; ret 0.

Definition find_child v (dir : nat) (name : list Z) : option nat :=
  find (fun c => bool_decide (n_name (node v c) = name)) (children (node v dir)).

(** ** Path names *)

Definition SLASH : Z := 47.
Fixpoint skip_slashes (p : list Z) : list Z :=
  match p with c :: p' => if c =? SLASH then skip_slashes p' else p | [] => [] end.
Fixpoint take_token (room : nat) (p : list Z) : list Z * list Z :=
  match p, room with
  | c :: p', S r => if c =? SLASH then ([], p) else let '(w, q) := take_token r p' in (c :: w, q)
  | _, _ => ([], p)
  end.
(** The next token and the rest of the path. *)
Definition path_token (p : list Z) : option (list Z * list Z) :=
  match skip_slashes p with [] => None | p => Some (take_token (MAX_NAME - 1) p) end.

(** [strncpy(buf, path, 255)], the directory the walk starts from, the place it starts at. *)
Definition walk_start v (path : list Z) : nat * list Z :=
  match take 255 path with
  | c :: p => if c =? SLASH then (0%nat, p) else (current_dir v, c :: p)
  | [] => (current_dir v, [])
  end.

Fixpoint resolve_loop (fuel : nat) v (dir : nat) (p : list Z) (result : nat) : option nat :=
  match fuel with
  | O => None
  | S fuel' =>
      match path_token p with
      | None => Some result
      | Some (token, next) =>
          match next with
          | [] => find_child v dir token
          | _ => match find_child v dir token with
                 | Some c => if n_type (node v c) =? 1 then resolve_loop fuel' v c next c else None
                 | None => None
                 end
          end
      end
  end.

Definition resolve_path v (path : list Z) : option nat :=
  let '(dir, p) := walk_start v path in
  match path with [] => Some (current_dir v) | _ => resolve_loop (S (length p)) v dir p dir end.

(** The directory of the last component, and that component. *)
Fixpoint parent_loop (fuel : nat) v (dir : nat) (p : list Z) (result : nat) (prev : list Z) : nat * list Z :=
  match fuel with
  | O => (result, prev)
  | S fuel' =>
      match path_token p with
      | None => (result, prev)
      | Some (token, p) =>
          match find_child v dir token with
          | None => (dir, token)
          | Some next => if n_type (node v next) =? 1 then parent_loop fuel' v next p dir token else (dir, token)
          end
      end
  end.

Definition resolve_parent v (path : list Z) : option (nat * list Z) :=
  let '(dir, p) := walk_start v path in
  match path with [] => None | _ => Some (parent_loop (S (length p)) v dir p dir []) end.

(** A fresh node of type [ty] called [name] in [parent]: the steps every creating function takes. *)
Definition new_child (parent : nat) (name : list Z) (ty : Z) (prep : vfs_node -> vfs_node) : M F (option nat) :=
  let* i := alloc_node in
  match i with
  | None => ret None
  | Some i =>
      update i (fun n => prep (set_parent (Some parent) (set_type ty (set_name (take (MAX_NAME - 1) name) n)))) ;;
      let* r := vfs_append_child parent i in
      if negb (r =? 0) then free_node i ;; ret None else ret (Some i)
  end.

(** A new node called by the last component of [path], unless [excl] and the name is taken. *)
Definition create_at (path : list Z) (ty : Z) (excl : bool) (prep : vfs_node -> vfs_node) : M F (option nat) :=
  let* v := get in
  match resolve_parent v path with
  | None => ret None
  | Some (parent, name) =>
      if negb (n_type (node v parent) =? 1) then ret None else
      if excl && bool_decide (is_Some (find_child v parent name)) then ret None else new_child parent name ty prep
  end.

(** ** Mount table *)

Fixpoint starts_with (m p : list Z) : option (list Z) :=
  match m, p with
  | [], _ => Some p
  | c :: m', d :: p' => if c =? d then starts_with m' p' else None
  | _, [] => None
  end.
(** The first entry that is a prefix of [path] up to a slash or the end: its index and the
    rest of the path. *)
Fixpoint find_mount (i : nat) (l : list mount_entry_t) (path : list Z) : option (nat * mount_entry_t * list Z) :=
  match l with
  | [] => None
  | me :: l' =>
      match starts_with (mount_point me) path with
      | Some [] => Some (i, me, [])
      | Some (c :: q) => if c =? SLASH then Some (i, me, c :: q) else find_mount (S i) l' path
      | None => find_mount (S i) l' path
      end
  end.
Definition vfs_find_mount v (path : list Z) := find_mount 0 (mount_table v) path.
Definition or_root (sub : list Z) : list Z := match sub with [] => [SLASH] | _ => sub end.

Definition ensure_mount_stub (mpoint : list Z) : M F unit :=
  let* v := get in
  match resolve_path v mpoint with
  | Some _ => ret tt
  | None =>
      match resolve_parent v mpoint with
      | Some (parent, name) =>
          if negb (n_type (node v parent) =? 1) then ret tt else
          if Nat.leb MAX_CHILDREN (length (children (node v parent))) then ret tt else
          match find_child v parent name with
          | Some _ => ret tt
          | None => let* _ := new_child parent name 1 id in ret tt
          end
      | None => ret tt
      end
  end.

Definition vfs_mount (mpoint : list Z) (fs_type : Z) : M F Z :=
  let* v := get in
  if Nat.leb MAX_MOUNT_POINTS (length (mount_table v)) then ret (-1) else
  modify (fun v => with_mounts (mount_table v ++ [MountEntry fs_type (take (MAX_PATH - 1) mpoint) (fs_type =? FS_TYPE_EXT2)]) v) ;;
  ensure_mount_stub mpoint ;; ret 0.

(** ** /proc *)

Definition proc_make (parent : nat) (name : list Z) (ty ptype pd : Z) : M F (option nat) :=
  let* p := gets (fun v => node v parent) in
  if Nat.leb MAX_CHILDREN (length (children p)) then ret None else
  new_child parent name ty (set_proc ptype pd).

(** [proc_utoa]: the digits come lowest first into [tmp], and are turned round. *)
Definition proc_utoa (n : Z) : list Z := digits 32 10 (u32 n).

Definition find_process (k : kernel_info) (n : Z) : option proc_info := find (fun p => pid p =? n) (process_table k).

Definition out (o : option (list Z)) : list Z := match o with Some l => l | None => [] end.

Definition maps_label (r : vm_region_t) : list Z := chars
  (if 0x7FFF00000000 <=? r_start r then "[stack]"
   else if MMAP_BASE <=? r_start r then "[mmap]"
   else if 0x31000000 <=? r_start r then "[dynlib]"
   else if SHARED_LIBC_BASE - 0x1000 <=? r_start r then "[libc]"
   else if r_start r <? 0x100000 then "[program]" else "[heap]").

(** The lines of /proc/<pid>/maps; [off] bytes of [bufsz] are filled. *)
Fixpoint maps_lines (bufsz off : Z) (l : list vm_region_t) : list Z :=
  match l with
  | [] => []
  | r :: l' =>
      if bufsz - 64 <=? off then [] else
      let line := out (snprintf (bufsz - off) "%012llx-%012llx r%c%c  %s
"
        [W (r_start r); W (r_end r); W (if r_writable r then char "w" else MINUS); W (if r_exec r then char "x" else MINUS); T (maps_label r)]) in
      line ++ maps_lines bufsz (off + len line) l'
  end.

Definition proc_generate (k : kernel_info) (n : vfs_node) (bufsz : Z) : list Z :=
  Ext2.cstr
  (if proc_type n =? PROC_MEMINFO then
     let tot := u32 (memory_total k / 1024) in
     let used := u32 (memory_used k / 1024) in
     let freeb := u32 ((if memory_used k <? memory_total k then memory_total k - memory_used k else 0) / 1024) in
     out (snprintf bufsz "MemTotal: %u kB
MemUsed:  %u kB
MemFree:  %u kB
" [W tot; W used; W freeb])
   else if proc_type n =? PROC_UPTIME then
     let ms := tick_count k in out (snprintf bufsz "%u.%02u
" [W (ms / 1000); W (ms mod 1000 / 10)])
   else if proc_type n =? PROC_VERSION then out (snprintf bufsz "NyxOS version %s (x86_64)
" [T (chars KERNEL_VERSION)])
   else if proc_type n =? PROC_CPUINFO then
     out (vsnprintf bufsz (chars "arch" ++ [9] ++ chars ": x86_64" ++ [10] ++ chars "vendor" ++ [9] ++ chars ": NyxOS" ++ [10]) (va_of []))
   else if proc_type n =? PROC_PID_STATUS then
     match find_process k (proc_pid n) with
     | None => []
     | Some p =>
         let st := if pstate p =? 1 then "R (running)"%string else if pstate p =? 2 then "Z (zombie)"%string
                   else if pstate p =? 3 then "S (sleeping)"%string else "P (parked)"%string in
         out (vsnprintf bufsz (chars "Name:" ++ [9] ++ chars "%s" ++ [10] ++ chars "Pid:" ++ [9] ++ chars "%u" ++ [10] ++
                               chars "PPid:" ++ [9] ++ chars "%u" ++ [10] ++ chars "State:" ++ [9] ++ chars "%s" ++ [10])
                (va_of [T (comm p); W (pid p); W (ppid p); T (chars st)]))
     end
   else if proc_type n =? PROC_PID_CMDLINE then
     match find_process k (proc_pid n) with
     | None => []
     | Some p => out (snprintf bufsz "%s
" [T (match cmdline p with [] => comm p | c => c end)])
     end
   else if proc_type n =? PROC_PID_MAPS then
     match find_process k (proc_pid n) with
     | Some p => match regions p with Some l => maps_lines bufsz 0 (take 24 l) | None => [] end
     | None => []
     end
   else []).

Fixpoint for_each {A} (l : list A) (f : A -> M F unit) : M F unit :=
  match l with [] => ret tt | x :: l' => f x ;; for_each l' f end.

(** [a[i] = a[--n]]; there is no last entry when [n] is 0. *)
Definition swap_remove (i : nat) (l : list nat) : option (list nat) :=
  let k := (length l - 1)%nat in match l !! k with Some x => Some (take k (<[i := x]> l)) | None => None end.

(** Directories of processes that are gone are taken out, from child [i] on. *)
Fixpoint proc_reap (fuel : nat) (pn i : nat) : M F unit :=
  match fuel with
  | O => ret tt
  | S fuel' =>
      let* v := get in
      match children (node v pn) !! i with
      | None => ret tt
      | Some c =>
          if (proc_type (node v c) =? PROC_PID_DIR) && negb (bool_decide (is_Some (find_process (kinfo v) (proc_pid (node v c))))) then
            for_each (children (node v c)) release_node ;;
            update c (set_children []) ;;
            release_node c ;;
            let* l := gets (fun v => children (node v pn)) in
            match swap_remove i l with
            | Some l => update pn (set_children l) ;; proc_reap fuel' pn i
            | None => crash
            end
          else proc_reap fuel' pn (S i)
      end
  end.

Definition proc_add (pn : nat) (p : proc_info) : M F unit :=
  if pid p =? 0 then ret tt else
  let* v := get in
  if existsb (fun c => (proc_type (node v c) =? PROC_PID_DIR) && (proc_pid (node v c) =? pid p)) (children (node v pn)) then ret tt else
  let* d := proc_make pn (proc_utoa (pid p)) 1 PROC_PID_DIR (pid p) in
  match d with
  | None => ret tt
  | Some d =>
      let* _ := proc_make d (chars "status") 0 PROC_PID_STATUS (pid p) in
      let* _ := proc_make d (chars "cmdline") 0 PROC_PID_CMDLINE (pid p) in
      let* _ := proc_make d (chars "maps") 0 PROC_PID_MAPS (pid p) in
      ret tt
  end.

Definition proc_sync : M F unit :=
  let* v := get in
  match proc_node v with
  | None => ret tt
  | Some pn =>
      proc_reap (S (length (children (node v pn)))) pn 0 ;;
      for_each (process_table (kinfo v)) (proc_add pn)
  end.

(** ** Handles *)

(** The node a handle is the address of. *)
Definition node_of (fd : Z) : M F nat :=
  if (1 <=? fd) && (fd <=? Z.of_nat MAX_INODES) then ret (Z.to_nat (fd - 1)) else crash.

(** A handle on a mounted directory with the entries [l]. *)
Definition open_mounted_dir (mi : nat) (sub : list Z) (l : list dirent) : M F Z :=
  let* dn := alloc_node in
  match dn with
  | None => ret (-1)
  | Some dn =>
      update dn (fun n => set_open_refs 1 (set_content (DDents l) (len l) (set_mount mi (take (MAX_NAME - 1) sub) (set_type 1 n)))) ;;
      ret (fd_of dn)
  end.

(** The contents of a mounted file are read into its node. *)
Definition load_mounted (sub : list Z) (n : nat) : M F unit :=
  let* sz := mount_call (fs_get_size sub) in
  if 0 <? sz then
    let* b := kmalloc sz in
    match b with
    | None => ret tt
    | Some b =>
        let* r := mount_call (fs_read_file sub sz) in
        match r with
        | Some d => let* b := memcpy 0 d b in update n (set_content (DBytes b) (len d))
        | None => update n (set_content (DBytes b) 0)
        end
    end
  else ret tt.

Definition open_mounted_file (mi : nat) (me : mount_entry_t) (sub : list Z) (flags : Z) : M F Z :=
  let* exists_ := (if me_ops me then mount_call (fs_resolve sub) else ret 0) in
  if (exists_ =? 0) && negb (truthy (flags .& 1)) then ret (-1) else
  let* n := alloc_node in
  match n with
  | None => ret (-1)
  | Some n =>
      update n (fun n => set_mount mi (take (MAX_NAME - 1) sub) (set_type 0 n)) ;;
      (if negb (me_ops me) then ret tt
       else if exists_ =? 0 then let* _ := mount_call (fs_write_file sub []) in ret tt
       else load_mounted sub n) ;;
      update n (set_open_refs 1) ;; ret (fd_of n)
  end.

Definition open_mounted (mi : nat) (me : mount_entry_t) (sub : list Z) (flags : Z) : M F Z :=
  let* dents := kmalloc (136 * VFS_MOUNT_DIRENTS) in
  let* nd := (if me_ops me && bool_decide (is_Some dents) then mount_call (fs_readdir sub VFS_MOUNT_DIRENTS) else ret None) in
  match nd with
  | Some l => open_mounted_dir mi sub l
  | None => open_mounted_file mi me sub flags
  end.

Definition vfs_open (path : list Z) (flags : Z) : M F Z :=
  proc_sync ;;
  let* v := get in
  match vfs_find_mount v path with
  | Some (mi, me, sub) => open_mounted mi me (or_root sub) flags
  | None =>
      let opened i := update i (fun n => set_open_refs (u32 (open_refs n + 1)) n) ;; ret (fd_of i) in
      if truthy (flags .& 1) then
        let* ino :=
          (match resolve_path v path with
           | Some i => ret (Some i)
           | None => create_at path 0 false id
           end) in
        match ino with
        | None => ret (-1)
        | Some i =>
            (if truthy (flags .& 2) then update i (set_content DNull 0) else ret tt) ;; opened i
        end
      else
        match resolve_path v path with
        | None => ret (-1)
        | Some i => update i (set_readdir_idx 0) ;; opened i
        end
  end.

(** The bytes a node's data pointer leads to; a null pointer has none. *)
Definition data_bytes (n : vfs_node) : option (list Z) :=
  match n_data n with DBytes b => Some b | DDents _ | DNull => None end.
Definition has_data (n : vfs_node) : bool := match n_data n with DNull => false | _ => true end.

(** [k] bytes from offset [o] of the data; outside the block the access is an error. *)
Definition load_data (n : vfs_node) (o k : Z) : M F (list Z) :=
  match data_bytes n with
  | Some b => if (0 <=? o) && (0 <=? k) && (o + k <=? len b) then ret (slice o k b) else crash
  | None => crash
  end.

(** What is copied to the caller's buffer comes with the result. *)
Definition vfs_read (fd count : Z) : M F (Z * list Z) :=
  if fd =? NULLFD then ret (-1, []) else
  let* i := node_of fd in
  let* n := gets (fun v => node v i) in
  if negb (n_type n =? 0) then ret (-1, []) else
  let count := if n_size n <? count then n_size n else count in
  if has_data n then let* b := load_data n 0 count in ret (s32 count, b) else ret (s32 count, []).

Definition flush_mount_node (i : nat) : M F unit :=
  let* n := gets (fun v => node v i) in
  match mount_ent n with
  | Some mi =>
      if negb (mount_backed n) then ret tt else
      let* me := gets (fun v => nth mi (mount_table v) (MountEntry 0 [] false)) in
      if me_ops me then
        let* b := (if has_data n then load_data n 0 (n_size n)
                   else if n_size n =? 0 then ret [] else crash) in
        let* _ := mount_call (fs_write_file (mpath n) b) in ret tt
      else ret tt
  | None => ret tt
  end.

Definition vfs_write (fd : Z) (buf : list Z) : M F Z :=
  if fd =? NULLFD then ret (-1) else
  let* i := node_of fd in
  let* n := gets (fun v => node v i) in
  if negb (n_type n =? 0) then ret (-1) else
  let count := len buf in
  let* b :=
    (if negb (has_data n) || (n_size n <? count) then
       let* nd := kmalloc (count + BLOCK_SIZE) in
       match nd with
       | None => ret None
       | Some nd =>
           if has_data n then
             let* old := load_data n 0 (n_size n) in let* nd := memcpy 0 old nd in ret (Some nd)
           else ret (Some nd)
       end
     else ret (data_bytes n)) in
  match b with
  | None => ret (-1)
  | Some b =>
      let* b := memcpy 0 buf b in
      update i (set_content (DBytes b) (u32 count)) ;;
      flush_mount_node i ;; ret (s32 count)
  end.

Definition dev_rand_step (x : Z) : Z :=
  let x := x .^ u64 (x << 13) in let x := x .^ (x >> 7) in x .^ u64 (x << 17).
Definition dev_rand_byte : M F Z :=
  let* v := get in
  let seed :=
    if dev_rng_state v =? 0 then
      let s := u64 (tick_count (kinfo v) << 16) .^ 0x9E3779B97F4A7C15 in if s =? 0 then 0x1234567ABCDEF else s
    else dev_rng_state v in
  let x := dev_rand_step seed in
  modify (with_rng x) ;; ret (u8 (x >> 33)).
Fixpoint dev_rand_bytes (k : nat) : M F (list Z) :=
  match k with O => ret [] | S k' => let* c := dev_rand_byte in let* l := dev_rand_bytes k' in ret (c :: l) end.

(** [offset] bytes of [size] are passed over; at most [count] of the rest are delivered. *)
Definition clip (count offset size : Z) : Z := Z.min count (size - offset).

Definition vfs_pread (fd count offset : Z) : M F (Z * list Z) :=
  if fd =? NULLFD then ret (-1, []) else
  let* i := node_of fd in
  let* v := get in
  let n := node v i in
  if negb (n_type n =? 0) then ret (-1, []) else
  if dev_type n =? DEV_NULL then ret (0, []) else
  if dev_type n =? DEV_ZERO then ret (s32 count, zero_bytes count) else
  if dev_type n =? DEV_RANDOM then let* b := dev_rand_bytes (Z.to_nat count) in ret (s32 count, b) else
  if truthy (proc_type n) then
    let g := proc_generate (kinfo v) n 1024 in
    if len g <=? offset then ret (0, []) else
    let c := clip count offset (len g) in ret (s32 c, slice offset c g)
  else
    if n_size n <=? offset then ret (0, []) else
    let c := clip count offset (n_size n) in
    if has_data n && truthy c then let* b := load_data n offset c in ret (s32 c, b) else ret (s32 c, []).

Definition vfs_pwrite (fd : Z) (buf : list Z) (offset : Z) : M F Z :=
  if fd =? NULLFD then ret (-1) else
  let* i := node_of fd in
  let* n := gets (fun v => node v i) in
  let count := len buf in
  if negb (n_type n =? 0) then ret (-1) else
  if truthy (dev_type n) then ret (s32 count) else
  let end_ := u32 (offset + count) in
  if end_ <? offset then ret (-1) else
  let* b :=
    (if negb (has_data n) || (n_size n <? end_) then
       let* nd := kmalloc (u32 (end_ + BLOCK_SIZE)) in
       match nd with
       | None => ret None
       | Some nd =>
           let* nd := memcpy 0 (zero_bytes (u32 (end_ + BLOCK_SIZE))) nd in
           if has_data n then
             let* old := load_data n 0 (n_size n) in let* nd := memcpy 0 old nd in ret (Some nd)
           else ret (Some nd)
       end
     else ret (data_bytes n)) in
  match b with
  | None => ret (-1)
  | Some b =>
      let* b := (if truthy count then memcpy offset buf b else ret b) in
      update i (set_content (DBytes b) (if n_size n <? end_ then end_ else n_size n)) ;;
      flush_mount_node i ;; ret (s32 count)
  end.

Definition vfs_dup (fd : Z) : M F unit :=
  if fd <=? 0 then ret tt else
  let* i := node_of fd in update i (fun n => set_open_refs (u32 (open_refs n + 1)) n).

Definition vfs_close (fd : Z) : M F Z :=
  if fd <=? 0 then ret 0 else
  let* i := node_of fd in
  let* n := gets (fun v => node v i) in
  let refs := if 0 <? open_refs n then open_refs n - 1 else open_refs n in
  update i (set_open_refs refs) ;;
  if 0 <? refs then ret 0 else
  if mount_backed n || orphaned n then update i (set_content DNull 0) ;; free_node i ;; ret 0 else ret 0.

Definition vfs_isdir (path : list Z) : M F Z :=
  let* v := get in
  match vfs_find_mount v path with
  | Some _ => ret 1
  | None =>
      proc_sync ;;
      let* v := get in
      match resolve_path v path with Some i => ret (b2z (n_type (node v i) =? 1)) | None => ret 0 end
  end.

Definition vfs_fsize (fd : Z) : M F Z :=
  if fd =? NULLFD then ret 0 else
  let* i := node_of fd in
  let* n := gets (fun v => node v i) in
  ret (if n_type n =? 0 then n_size n else 0).

Definition vfs_fdata (fd : Z) : M F (option (list Z)) :=
  if fd =? NULLFD then ret None else
  let* i := node_of fd in
  let* n := gets (fun v => node v i) in
  ret (if n_type n =? 0 then data_bytes n else None).

(** The size (0 unless positive as an int) and whether it is a directory. *)
Definition vfs_stat (path : list Z) : M F (Z * Z * Z) :=
  let* d := vfs_isdir path in
  if truthy d then ret (0, 0, 1) else
  let* fd := vfs_open path 0 in
  if fd <? 0 then ret (-1, 0, 0) else
  let* sz := vfs_fsize fd in
  let* _ := vfs_close fd in
  ret (0, (if 0 <? s32 sz then s32 sz else 0), 0).

Definition vfs_fstat (fd : Z) : M F (Z * Z * Z) :=
  if fd =? NULLFD then ret (-1, 0, 0) else
  let* i := node_of fd in
  let* n := gets (fun v => node v i) in
  let* sz := vfs_fsize fd in
  ret (0, (if 0 <? s32 sz then s32 sz else 0), b2z (n_type n =? 1)).

Definition vfs_create_from_mem (path data : list Z) (size : Z) : M F Z :=
  let* i := create_at path 0 false (set_content (DBytes data) size) in
  match i with Some i => ret (fd_of i) | None => ret (-1) end.

Definition vfs_mkdir (path : list Z) : M F Z :=
  let* v := get in
  match vfs_find_mount v path with
  | Some (_, MountEntry _ _ true, sub) => mount_call (fs_mkdir sub)
  | _ => let* i := create_at path 1 true id in match i with Some _ => ret 0 | None => ret (-1) end
  end.

Definition remove_at (k : nat) (l : list nat) : list nat := take k l ++ drop (S k) l.

Definition vfs_unlink (path : list Z) : M F Z :=
  let* v := get in
  match vfs_find_mount v path with
  | Some (_, MountEntry _ _ true, sub) => mount_call (fs_unlink sub)
  | _ =>
      match resolve_parent v path with
      | None => ret (-1)
      | Some (parent, name) =>
          if negb (n_type (node v parent) =? 1) then ret (-1) else
          match first_index (fun c => bool_decide (n_name (node v c) = name)) (children (node v parent)) with
          | None => ret (-1)
          | Some k =>
              let victim := nth k (children (node v parent)) O in
              if (n_type (node v victim) =? 1) && Nat.ltb 0 (length (children (node v victim))) then ret (-1) else
              update parent (fun n => set_children (remove_at k (children n)) n) ;;
              update victim (set_parent None) ;;
              release_node victim ;; ret 0
          end
      end
  end.

(** Loading the source of a copy: its bytes, or [None] for failure. *)
Definition cp_load (src : list Z) : M F (option (list Z)) :=
  let* v := get in
  match vfs_find_mount v src with
  | Some (_, MountEntry _ _ true, sub) =>
      let sub := or_root sub in
      let* probe := mount_call (fs_readdir sub 1) in
      match probe with
      | Some _ => ret None
      | None =>
          let* i := mount_call (fs_resolve sub) in
          if i =? 0 then ret None else
          let* ssize := mount_call (fs_get_size sub) in
          let* sbuf := kmalloc (if truthy ssize then ssize else 1) in
          match sbuf with
          | None => ret None
          | Some _ => if truthy ssize then mount_call (fs_read_file sub ssize) else ret (Some [])
          end
      end
  | _ =>
      match resolve_path v src with
      | None => ret None
      | Some i =>
          let n := node v i in
          if negb (n_type n =? 0) then ret None else
          let ssize := n_size n in
          let* sbuf := kmalloc (if truthy ssize then ssize else 1) in
          match sbuf with
          | None => ret None
          | Some b =>
              if truthy ssize && has_data n then
                let* d := load_data n 0 ssize in let* b := memcpy 0 d b in ret (Some (take (Z.to_nat ssize) b))
              else ret (Some (take (Z.to_nat ssize) b))
          end
      end
  end.

Definition vfs_cp (src dst : list Z) : M F Z :=
  let* sbuf := cp_load src in
  match sbuf with
  | None => ret (-1)
  | Some sbuf =>
      let* v := get in
      match vfs_find_mount v dst with
      | Some (_, MountEntry _ _ true, sub) =>
          let* r := mount_call (fs_write_file (or_root sub) sbuf) in ret (if 0 <=? r then 0 else -1)
      | _ =>
          match resolve_parent v dst with
          | None => ret (-1)
          | Some (parent, name) =>
              if negb (n_type (node v parent) =? 1) || bool_decide (is_Some (find_child v parent name)) then ret (-1) else
              let* i := alloc_node in
              match i with
              | None => ret (-1)
              | Some i =>
                  update i (fun n => set_content DNull (len sbuf) (set_parent (Some parent) (set_type 0 (set_name (take (MAX_NAME - 1) name) n)))) ;;
                  (if truthy (len sbuf) then
                     let* d := kmalloc (len sbuf) in
                     match d with
                     | Some d => let* d := memcpy 0 sbuf d in update i (set_content (DBytes d) (len sbuf))
                     | None => update i (set_content DNull 0)
                     end
                   else ret tt) ;;
                  let* r := vfs_append_child parent i in
                  if r =? 0 then ret 0 else free_node i ;; ret (-1)
              end
          end
      end
  end.

Definition vfs_rename (old new : list Z) : M F unit :=
  let* v := get in
  if bool_decide (is_Some (vfs_find_mount v old)) || bool_decide (is_Some (vfs_find_mount v new)) then
    let* r := vfs_cp old new in
    if r =? 0 then let* _ := vfs_unlink old in ret tt else ret tt
  else
    match resolve_parent v old with
    | None => ret tt
    | Some (parent, name) =>
        match find_child v parent name with
        | None => ret tt
        | Some ino =>
            match resolve_parent v new with
            | None => update ino (set_name (take (MAX_NAME - 1) new))
            | Some (new_parent, new_name) =>
                update ino (set_name (take (MAX_NAME - 1) new_name)) ;;
                if Nat.eqb new_parent parent then ret tt else
                let* r := vfs_append_child new_parent ino in
                if negb (r =? 0) then ret tt else
                update parent (fun n => match first_index (Nat.eqb ino) (children n) with
                                        | Some k => set_children (remove_at k (children n)) n
                                        | None => n
                                        end) ;;
                update ino (set_parent (Some new_parent))
            end
        end
    end.

Definition vfs_readdir (fd : Z) : M F (option dirent) :=
  if fd =? NULLFD then ret None else
  let* i := node_of fd in
  let* v := get in
  let n := node v i in
  if negb (n_type n =? 1) then ret None else
  if mount_backed n then
    match n_data n with
    | DDents l =>
        if n_size n <=? readdir_idx n then ret None else
        match l !! Z.to_nat (readdir_idx n) with
        | Some e => update i (set_readdir_idx (u32 (readdir_idx n + 1))) ;; ret (Some e)
        | None => crash
        end
    | _ => ret None
    end
  else
    match children n !! Z.to_nat (readdir_idx n) with
    | None => ret None
    | Some c =>
        update i (set_readdir_idx (u32 (readdir_idx n + 1))) ;;
        ret (Some (Ext2.Dirent (n_id (node v c)) (take (MAX_FILENAME - 1) (n_name (node v c))) (n_type (node v c))))
    end.

(** Names from the current directory up to the root, at most [k]. *)
Fixpoint cwd_parts (k : nat) v (d : option nat) : list (list Z) :=
  match k, d with
  | S k', Some (S j) => n_name (node v (S j)) :: cwd_parts k' v (n_parent (node v (S j)))
  | _, _ => []
  end.
(** The parts are copied in [path], which [pos] characters are used of. *)
Fixpoint cwd_join (parts : list (list Z)) (path : list Z) : list Z :=
  match parts with
  | [] => path
  | p :: l => if 250 <=? len path then path else cwd_join l (put 255 (path ++ [SLASH]) p)
  end.
Definition vfs_getcwd v : list Z :=
  if Nat.eqb (current_dir v) 0 then [SLASH] else cwd_join (rev (cwd_parts 32 v (Some (current_dir v)))) [].

Definition vfs_setcwd_node (n : option nat) : M F unit :=
  match n with Some d => modify (with_cwd d) | None => ret tt end.
Definition vfs_path_node v (path : list Z) : option nat :=
  match resolve_path v path with Some i => if n_type (node v i) =? 1 then Some i else None | None => None end.

Definition vfs_chdir (path : list Z) : M F Z :=
  let* v := get in
  match vfs_find_mount v path with
  | Some _ =>
      let* dir := (match resolve_path v path with Some i => ret (Some i) | None => create_at path 1 false id end) in
      match dir with None => ret (-1) | Some d => modify (with_cwd d) ;; ret 0 end
  | None =>
      match vfs_path_node v path with None => ret (-1) | Some d => modify (with_cwd d) ;; ret 0 end
  end.

Definition vfs_touch (path : list Z) : M F Z :=
  let* v := get in
  match vfs_find_mount v path with
  | Some (_, MountEntry _ _ true, sub) =>
      let* r := mount_call (fs_write_file (or_root sub) []) in ret (if 0 <=? r then 0 else -1)
  | _ =>
      match resolve_path v path with
      | Some _ => ret 0
      | None => let* i := create_at path 0 false id in match i with Some _ => ret 0 | None => ret (-1) end
      end
  end.

Definition vfs_write_file (path buf : list Z) : M F Z :=
  let* v := get in
  match vfs_find_mount v path with
  | Some (_, MountEntry _ _ true, sub) => mount_call (fs_write_file (or_root sub) buf)
  | _ =>
      let* ino := (match resolve_path v path with Some i => ret (Some i) | None => create_at path 0 false id end) in
      match ino with
      | None => ret (-1)
      | Some i =>
          let* n := gets (fun v => node v i) in
          if negb (n_type n =? 0) then ret (-1) else
          let* d := kmalloc (len buf) in
          match d with
          | None => update i (set_content DNull (n_size n)) ;;
                    if 0 <? len buf then ret (-1) else update i (set_content DNull 0) ;; ret 0
          | Some d =>
              let* d := memcpy 0 buf d in
              update i (set_content (DBytes d) (len buf)) ;; ret (s32 (len buf))
          end
      end
  end.

(** ** Start-up *)

Definition init_vfs : M F unit :=
  modify (with_count 0) ;;
  let* root := alloc_node in
  match root with
  | None => crash
  | Some r =>
      update r (fun n => set_parent (Some r) (set_type 1 (set_name [SLASH] n))) ;;
      modify (with_cwd r) ;;
      for_each ["/home"; "/home/user"; "/tmp"; "/etc"; "/var"; "/opt"; "/dev"; "/bin"; "/proc"; "/sys"]%string
        (fun d => let* _ := vfs_mkdir (chars d) in ret tt) ;;
      let* fd := vfs_open (chars "/home/user/welcome.txt") 1 in
      let* _ := vfs_write fd (chars "Welcome to NyxOS v1.0.0
") in
      let* _ := vfs_write fd (chars "Type 'help' for commands.
") in
      let* _ := vfs_close fd in
      for_each [("/dev/null", DEV_NULL); ("/dev/zero", DEV_ZERO); ("/dev/random", DEV_RANDOM); ("/dev/urandom", DEV_RANDOM)]%string
        (fun '(d, dt) =>
           let* fd := vfs_open (chars d) 1 in
           if 0 <=? fd then let* i := node_of fd in update i (set_dev_type dt) else ret tt) ;;
      let* v := get in
      modify (with_proc_node (resolve_path v (chars "/proc"))) ;;
      for_each [("meminfo", PROC_MEMINFO); ("uptime", PROC_UPTIME); ("version", PROC_VERSION); ("cpuinfo", PROC_CPUINFO)]%string
        (fun '(nm, pt) =>
           let* v := get in
           match proc_node v with
           | Some pn => let* _ := proc_make pn (chars nm) 0 pt 0 in ret tt
           | None => ret tt
           end)
  end.
End Ops.
