(* ===== verification/VfsPool.v ===== *)
(** The node pool of the virtual file system: a node is recycled only when no handle leads to
    it and no directory lists it. *)
From Stdlib Require Import ZArith Lia.
From S2P Require Import Prelude Packed Format Vfs.

(** * Total correctness of a step *)

Section Wp.
Context {F : Type}.

Definition vwp {A} (m : M F A) (Q : A -> vfs F -> Prop) (v : vfs F) : Prop :=
  match m v with Some (r, v') => Q r v' | None => False end.

Lemma vwp_bind {A B} (m : M F A) (k : A -> M F B) Q v : vwp m (fun x v' => vwp (k x) Q v') v -> vwp (bind m k) Q v.
Proof. unfold vwp, bind. by destruct (m v) as [[x v']|]. Qed.
Lemma vwp_mono {A} (m : M F A) (P Q : A -> vfs F -> Prop) v : vwp m P v -> (forall r v', P r v' -> Q r v') -> vwp m Q v.
Proof. unfold vwp. destruct (m v) as [[x v']|]; [|done]. intros HP HQ. by apply HQ. Qed.
Lemma vwp_ret {A} (x : A) (Q : A -> vfs F -> Prop) v : Q x v -> vwp (ret x) Q v.
Proof. done. Qed.
Lemma vwp_get (Q : vfs F -> vfs F -> Prop) v : Q v v -> vwp get Q v.
Proof. done. Qed.
Lemma vwp_gets {A} (f : vfs F -> A) (Q : A -> vfs F -> Prop) v : Q (f v) v -> vwp (gets f) Q v.
Proof. done. Qed.
Lemma vwp_modify (f : vfs F -> vfs F) (Q : unit -> vfs F -> Prop) v : Q tt (f v) -> vwp (modify f) Q v.
Proof. done. Qed.
Lemma vwp_update i f (Q : unit -> vfs F -> Prop) v : Q tt (on_node i f v) -> vwp (update i f) Q v.
Proof. done. Qed.
End Wp.

(** * The invariant *)

Section Pool.
Context {F : Type}.
Implicit Types (v : vfs F) (H : list nat).

(** The entries of all directories. *)
Definition edges v : list nat := concat (map children (nodes v)).
(** How many of the handles lead to node [i]. *)
Definition holders (i : nat) H : nat := count_occ Nat.eq_dec H i.

(** The data pointer of a node agrees with its size and type. *)
Definition data_ok (n : vfs_node) : Prop :=
  match n_data n with
  | DNull => n_size n = 0
  | DBytes b => n_type n = 0 /\ n_size n <= len b
  | DDents l => n_type n = 1 /\ n_size n = len l
  end /\ 0 <= n_size n < 2 ^ 32 /\ 0 <= readdir_idx n.

(** A node that a directory may list. *)
Definition listed v (c : nat) : Prop :=
  (0 < c < node_count v)%nat /\ c ∉ free_nodes v /\ orphaned (node v c) = false /\ mount_backed (node v c) = false.

(** [X] are nodes that are being taken out of the tree. *)
Record pool_ok (X : list nat) v H : Prop := {
  p_len : length (nodes v) = MAX_INODES;
  p_count : (1 <= node_count v <= MAX_INODES)%nat;
  p_nodup : NoDup (free_nodes v);
  p_free : forall i, i ∈ free_nodes v -> (0 < i < node_count v)%nat /\ on_free_list (node v i) = true;
  p_flag : forall i, on_free_list (node v i) = true -> i ∈ free_nodes v;
  p_refs : forall i, open_refs (node v i) = Z.of_nat (holders i H);
  p_held : forall i, i ∈ H -> (i < node_count v)%nat /\ i ∉ free_nodes v;
  p_edges : NoDup (edges v);
  p_tree : forall c, c ∈ edges v -> c ∉ X -> listed v c;
  p_range : forall c, c ∈ edges v -> (0 < c < node_count v)%nat;
  p_root : orphaned (node v 0) = false /\ mount_backed (node v 0) = false;
  p_unused : forall i, (node_count v <= i)%nat -> node v i = zero_node;
  p_data : forall i, data_ok (node v i);
  p_proc : forall p, proc_node v = Some p ->
    listed v p /\ n_type (node v p) = 1 /\ proc_type (node v p) = 0 /\ forall j, p ∈ children (node v j) -> j = 0%nat }.

(** ** Nodes and edges after an update *)

Lemma node_on_node v i j f :
  length (nodes v) = MAX_INODES -> (i < MAX_INODES)%nat -> node (on_node i f v) j = if decide (j = i) then f (node v i) else node v j.
Proof.
  intros Hl Hi. unfold on_node, with_nodes, node. cbn [nodes]. rewrite !nth_lookup. case_decide as E.
  - subst j. rewrite list_lookup_insert_eq by lia. done.
  - by rewrite list_lookup_insert_ne.
Qed.

Lemma edges_split v i :
  length (nodes v) = MAX_INODES -> (i < MAX_INODES)%nat ->
  exists A B, edges v = A ++ children (node v i) ++ B /\ forall f, edges (on_node i f v) = A ++ children (f (node v i)) ++ B.
Proof.
  intros Hl Hi. exists (concat (map children (take i (nodes v)))), (concat (map children (drop (S i) (nodes v)))).
  assert (forall x, concat (map children (<[i := x]> (nodes v))) =
    concat (map children (take i (nodes v))) ++ children x ++ concat (map children (drop (S i) (nodes v)))) as E.
  { intros x. rewrite insert_take_drop by lia. rewrite map_app, concat_app. done. }
  split; [|intros f; apply E].
  unfold edges, node. rewrite <- E. rewrite list_insert_id; [done|]. rewrite nth_lookup.
  destruct (nodes v !! i) eqn:Ei; [done|]. apply lookup_ge_None in Ei. lia.
Qed.

Lemma edges_same v i f :
  length (nodes v) = MAX_INODES -> (i < MAX_INODES)%nat -> children (f (node v i)) = children (node v i) -> edges (on_node i f v) = edges v.
Proof. intros Hl Hi E. destruct (edges_split v i Hl Hi) as (A & B & -> & ->). by rewrite E. Qed.

Lemma elem_edges v c : c ∈ edges v -> exists i, (i < length (nodes v))%nat /\ c ∈ children (node v i).
Proof.
  unfold edges. intros Hc. apply list_elem_of_In, in_concat in Hc as (l & Hl & Hc). apply in_map_iff in Hl as (n & <- & Hn).
  apply list_elem_of_In, list_elem_of_lookup in Hn as [i Hi]. exists i. split; [by eapply lookup_lt_Some|].
  unfold node. rewrite nth_lookup, Hi. by apply list_elem_of_In.
Qed.

Lemma edges_elem v c i : c ∈ children (node v i) -> c ∈ edges v.
Proof.
  intros Hc. unfold edges. apply list_elem_of_In, in_concat. exists (children (node v i)). split; [|by apply list_elem_of_In].
  unfold node in *. rewrite nth_lookup in *. destruct (nodes v !! i) as [n|] eqn:E; [|by apply elem_of_nil in Hc].
  apply in_map_iff. exists n. split; [done|]. apply list_elem_of_In. by eapply list_elem_of_lookup_2.
Qed.

(** A node is in one directory, once. *)
Lemma one_parent v i j c : NoDup (edges v) -> c ∈ children (node v i) -> c ∈ children (node v j) -> i = j.
Proof.
  unfold edges, node. intros Hnd Hi Hj. rewrite nth_lookup in *.
  destruct (nodes v !! i) as [a|] eqn:Ea; [|by apply elem_of_nil in Hi]. destruct (nodes v !! j) as [b|] eqn:Eb; [|by apply elem_of_nil in Hj].
  simpl in Hi, Hj. revert i j Ea Eb. induction (nodes v) as [|n l IH]; intros i j Ea Eb; [done|].
  simpl in Hnd. apply list.NoDup_app in Hnd as (_ & Hd & Hnd).
  assert (forall k x, l !! k = Some x -> c ∈ children x -> c ∈ concat (map children l)) as Hin.
  { intros k x Ek Hx. apply list_elem_of_In, in_concat. exists (children x). split; [|by apply list_elem_of_In].
    apply in_map, list_elem_of_In. by eapply list_elem_of_lookup_2. }
  destruct i as [|i], j as [|j]; simpl in Ea, Eb; simplify_eq.
  - done.
  - exfalso. by apply (Hd c Hi), (Hin j b).
  - exfalso. by apply (Hd c Hj), (Hin i a).
  - f_equal. by apply IH.
Qed.

(** ** Changes of one node *)

(** What the invariant reads of a node besides its data. *)
Definition book (n : vfs_node) := (open_refs n, orphaned n, on_free_list n, mount_backed n).

Lemma in_bounds X v H i : pool_ok X v H -> (i < node_count v)%nat -> (i < MAX_INODES)%nat.
Proof. intros P Hi. pose proof (p_count _ _ _ P). lia. Qed.

(** A node changes its data and loses the entries [l]. *)
Lemma ok_change X v H i f l :
  pool_ok X v H -> (i < node_count v)%nat -> book (f (node v i)) = book (node v i) -> data_ok (f (node v i)) ->
  children (node v i) ≡ₚ l ++ children (f (node v i)) ->
  (proc_node v = Some i -> n_type (f (node v i)) = n_type (node v i) /\ proc_type (f (node v i)) = proc_type (node v i)) ->
  pool_ok X (on_node i f v) H /\ edges v ≡ₚ l ++ edges (on_node i f v).
Proof.
  intros P Hi Hb Hd Hc Hp. destruct P as [P1 P2 P3 P4 P5 P6 P7 P8 P9 P10 P11 P12 P13 P14].
  assert (i < MAX_INODES)%nat as Hi' by lia. unfold book in Hb. injection Hb as B1 B2 B3 B4.
  assert (edges v ≡ₚ l ++ edges (on_node i f v)) as He.
  { destruct (edges_split v i P1 Hi') as (A & B & -> & ->). rewrite Hc. rewrite <- !app_assoc. apply Permutation_app_swap_app. }
  split; [|done].
  assert (forall j, node (on_node i f v) j = if decide (j = i) then f (node v i) else node v j) as Hn by (intros j; by apply node_on_node).
  assert (forall c, c ∈ edges (on_node i f v) -> c ∈ edges v) as Hsub by (intros c Hc'; rewrite He; set_solver).
  assert (forall c, c ∈ children (node (on_node i f v) c) \/ True) as _ by tauto.
  assert (forall j c, c ∈ children (node (on_node i f v) j) -> c ∈ children (node v j)) as Hch.
  { intros j c. rewrite Hn. case_decide as Ej; [subst j|done]. rewrite Hc. set_solver. }
  assert (forall c, listed v c -> listed (on_node i f v) c) as Hl.
  { intros c (L1 & L2 & L3 & L4). split; [done|]. split; [done|]. rewrite !Hn. case_decide as Ec; [subst c; split; congruence|done]. }
  split; try done.
  - unfold on_node, with_nodes. cbn [nodes]. by rewrite length_insert.
  - intros j Hj. destruct (P4 j Hj) as [? ?]. split; [done|]. rewrite Hn. case_decide as Ej; [subst j; congruence|done].
  - intros j. rewrite Hn. case_decide as Ej; [subst j; rewrite B3|]; apply P5.
  - intros j. rewrite Hn. case_decide as Ej; [subst j; rewrite B1|]; apply P6.
  - rewrite He in P8. by apply list.NoDup_app in P8 as (_ & _ & P8).
  - intros c Hc' HX. by apply Hl, P9; [apply Hsub|].
  - intros c Hc'. by apply P10, Hsub.
  - rewrite Hn. case_decide as E0; [subst i; split; [rewrite B2|rewrite B4]; apply P11|done].
  - intros j Hj. rewrite Hn. case_decide as Ej; [subst j; exfalso; change (node_count (on_node i f v)) with (node_count v) in Hj; lia|by apply P12].
  - intros j. rewrite Hn. case_decide as Ej; [subst j; done|apply P13].
  - intros p Ep. destruct (P14 p Ep) as (A & B & C & D). split; [by apply Hl|]. rewrite Hn.
    split_and!; [..|intros j Hj; by apply D, Hch]; case_decide as Ej; try done; subst p; destruct (Hp Ep); congruence.
Qed.

(** A node's data changes. *)
Lemma ok_update X v H i f :
  pool_ok X v H -> (i < node_count v)%nat -> book (f (node v i)) = book (node v i) -> data_ok (f (node v i)) ->
  children (f (node v i)) = children (node v i) ->
  (proc_node v = Some i -> n_type (f (node v i)) = n_type (node v i) /\ proc_type (f (node v i)) = proc_type (node v i)) ->
  pool_ok X (on_node i f v) H /\ edges (on_node i f v) = edges v.
Proof.
  intros P Hi Hb Hd Hc Hp. destruct (ok_change X v H i f [] P Hi Hb Hd ltac:(by rewrite Hc) Hp) as [P' _]. split; [done|].
  apply edges_same; [apply P|by eapply in_bounds|done].
Qed.

(** A new entry: a node that no directory lists. *)
Lemma ok_append v H d c :
  pool_ok [] v H -> (d < node_count v)%nat -> listed v c -> c ∉ edges v -> (proc_node v <> Some c) ->
  pool_ok [] (on_node d (fun n => set_children (children n ++ [c]) n) v) H.
Proof.
  intros P Hd Hc Hn Hp. destruct P as [P1 P2 P3 P4 P5 P6 P7 P8 P9 P10 P11 P12 P13 P14].
  assert (d < MAX_INODES)%nat as Hd' by lia. set (f := fun n => _). set (v' := on_node d f v).
  assert (forall j, node v' j = if decide (j = d) then f (node v d) else node v j) as Hnode by (intros j; by apply node_on_node).
  assert (edges v' ≡ₚ c :: edges v) as He.
  { destruct (edges_split v d P1 Hd') as (A & B & Ev & Ev'). unfold v'. rewrite Ev', Ev. unfold f. cbn [children set_children].
    rewrite <- (app_assoc (children (node v d))). cbn [app]. by rewrite <- !Permutation_middle. }
  assert (forall x, listed v x -> listed v' x) as Hl.
  { intros x (L1 & L2 & L3 & L4). split; [done|]. split; [done|]. rewrite !Hnode. case_decide as Ex; [subst x|]; done. }
  split; try done.
  - unfold v', on_node, with_nodes. cbn [nodes]. by rewrite length_insert.
  - intros j Hj. destruct (P4 j Hj) as [? ?]. split; [done|]. rewrite Hnode. case_decide as Ej; [by subst j|done].
  - intros j. rewrite Hnode. case_decide as Ej; [subst j|]; apply P5.
  - intros j. rewrite Hnode. case_decide as Ej; [subst j|]; apply P6.
  - rewrite He. by constructor.
  - intros x Hx _. rewrite He in Hx. apply elem_of_cons in Hx as [->|Hx]; [by apply Hl|]. apply Hl, P9; [done|]. apply not_elem_of_nil.
  - intros x Hx. rewrite He in Hx. apply elem_of_cons in Hx as [->|Hx]; [apply Hc|by apply P10].
  - rewrite Hnode. case_decide as E0; [subst d|]; done.
  - intros j Hj. rewrite Hnode. case_decide as Ej; [subst j; exfalso; change (node_count v') with (node_count v) in Hj; lia|by apply P12].
  - intros j. rewrite Hnode. case_decide as Ej; [subst j; apply (P13 d)|apply P13].
  - intros p Ep. destruct (P14 p Ep) as (A & B & C & D). split; [by apply Hl|]. rewrite Hnode. split_and!.
    + case_decide as Ej; [by subst p|done].
    + case_decide as Ej; [by subst p|done].
    + intros j. rewrite Hnode. case_decide as Ej; [subst j|by apply D]. unfold f. cbn [children set_children]. rewrite elem_of_app.
      intros [Hj|Hj]; [by apply D|]. apply list_elem_of_singleton in Hj. change (proc_node v') with (proc_node v) in Ep. congruence.
Qed.

(** ** The pool's operations *)

(** What no operation of the pool changes. *)
Definition env v := (current_dir v, proc_node v, mount_table v, kinfo v, mfs v).

(** A node just taken: empty, in no directory, behind no handle. *)
Record taken v H (i : nat) : Prop := {
  t_range : (0 < i < node_count v)%nat;
  t_node : node v i = set_id (Z.of_nat i) zero_node;
  t_free : i ∉ free_nodes v;
  t_edges : i ∉ edges v;
  t_held : i ∉ H;
  t_proc : proc_node v <> Some i }.

Lemma holders_0 i H : i ∉ H -> holders i H = 0%nat.
Proof. intros Hi. apply count_occ_not_In. by rewrite <- list_elem_of_In. Qed.

Lemma holders_held i H : (0 < holders i H)%nat -> i ∈ H.
Proof. intros Hi. apply list_elem_of_In. by apply (count_occ_In Nat.eq_dec). Qed.

(** Node [i] is reset; [v'] has it off the free list, or has it counted for the first time. *)
Lemma ok_reset v v' H i :
  pool_ok [] v H -> nodes v' = nodes v -> proc_node v' = proc_node v -> (0 < i < node_count v')%nat ->
  (node_count v <= node_count v' <= MAX_INODES)%nat -> (forall j, j ∈ free_nodes v' <-> j ∈ free_nodes v /\ j <> i) -> NoDup (free_nodes v') ->
  (forall j, (node_count v' <= j)%nat -> (node_count v <= j)%nat) -> i ∉ H -> i ∉ edges v -> proc_node v <> Some i ->
  let w := on_node i (fun _ => set_id (Z.of_nat i) zero_node) v' in pool_ok [] w H /\ taken w H i.
Proof.
  intros P En Ep Hi Hc Hf Hnd Hun Hh He Hp w. destruct P as [P1 P2 P3 P4 P5 P6 P7 P8 P9 P10 P11 P12 P13 P14].
  assert (i < MAX_INODES)%nat as Hi' by lia. assert (length (nodes v') = MAX_INODES) as Hl' by (by rewrite En).
  assert (forall j, node v' j = node v j) as Hsame by (intros j; unfold node; by rewrite En).
  assert (forall j, node w j = if decide (j = i) then set_id (Z.of_nat i) zero_node else node v j) as Hn.
  { intros j. unfold w. rewrite (node_on_node v' i j) by done. by rewrite Hsame. }
  assert (edges v' = edges v) as Ee by (unfold edges; by rewrite En).
  assert (exists A B, edges v = A ++ children (node v i) ++ B /\ edges w = A ++ B) as (A & B & EA & EB).
  { destruct (edges_split v' i Hl' Hi') as (A & B & E1 & E2). exists A, B. rewrite <- Ee, E1, Hsame. split; [done|]. unfold w. by rewrite E2. }
  assert (forall c, c ∈ edges w -> c ∈ edges v) as Hsub by (intros c; rewrite EA, EB; set_solver).
  assert (forall c, listed v c -> c <> i -> listed w c) as Hlist.
  { intros c (L1 & L2 & L3 & L4) Hne. split; [change (node_count w) with (node_count v'); lia|]. split.
    - change (free_nodes w) with (free_nodes v'). rewrite Hf. tauto.
    - rewrite Hn, decide_False by done. done. }
  split.
  - split.
    + unfold w, on_node, with_nodes. cbn [nodes]. by rewrite length_insert.
    + change (node_count w) with (node_count v'). lia.
    + done.
    + intros j Hj. change (free_nodes w) with (free_nodes v') in Hj. apply Hf in Hj as [Hj Hne]. destruct (P4 j Hj).
      split; [change (node_count w) with (node_count v'); lia|]. by rewrite Hn, decide_False.
    + intros j. rewrite Hn. case_decide as Ej; [done|]. intros Hj. change (free_nodes w) with (free_nodes v'). apply Hf. split; [by apply P5|done].
    + intros j. rewrite Hn. case_decide as Ej; [|apply P6]. subst j. by rewrite holders_0.
    + intros j Hj. destruct (P7 j Hj). split; [change (node_count w) with (node_count v'); lia|]. change (free_nodes w) with (free_nodes v'). rewrite Hf. tauto.
    + rewrite EB. rewrite EA in P8. apply list.NoDup_app in P8 as (N1 & N2 & N3). apply list.NoDup_app in N3 as (N4 & N5 & N6).
      apply list.NoDup_app. split; [done|]. split; [|done]. intros x Hx HxB. apply (N2 x Hx). set_solver.
    + intros c Hc' _. apply Hlist; [apply P9; [by apply Hsub|apply not_elem_of_nil]|]. intros ->. by apply He, Hsub.
    + intros c Hc'. pose proof (P10 c (Hsub c Hc')). change (node_count w) with (node_count v'). lia.
    + rewrite Hn, decide_False by lia. done.
    + intros j Hj. change (node_count w) with (node_count v') in Hj. rewrite Hn, decide_False by lia. apply P12. by apply Hun.
    + intros j. rewrite Hn. case_decide as Ej; [|apply P13]. split; [done|simpl; lia].
    + intros p Hp'. change (proc_node w) with (proc_node v') in Hp'. rewrite Ep in Hp'. destruct (P14 p Hp') as (L & T1 & T2 & D).
      assert (p <> i) by congruence. split; [by apply Hlist|]. rewrite Hn, decide_False by done. split; [done|]. split; [done|].
      intros j. rewrite Hn. case_decide as Ej; [|apply D]. simpl. intros Hx. by apply elem_of_nil in Hx.
  - split; try done.
    + rewrite Hn. by rewrite decide_True.
    + change (free_nodes w) with (free_nodes v'). rewrite Hf. tauto.
    + intros Hx. by apply He, Hsub.
    + change (proc_node w) with (proc_node v'). congruence.
Qed.

(** alloc_node hands out a node that no handle leads to and no directory lists; the pool is
    full when it hands out none. *)
Lemma vwp_alloc v H (Q : option nat -> vfs F -> Prop) :
  pool_ok [] v H ->
  Q None v ->
  (forall i v', pool_ok [] v' H -> taken v' H i -> (forall j, j <> i -> node v' j = node v j) -> (node_count v <= node_count v')%nat ->
     env v' = env v -> Q (Some i) v') ->
  vwp alloc_node Q v.
Proof.
  intros P HN HS. unfold vwp, alloc_node. destruct (free_nodes v) as [|i l] eqn:Ef.
  - destruct (Nat.ltb_spec (node_count v) MAX_INODES) as [Hlt|]; [|done].
    destruct (ok_reset v (with_count (S (node_count v)) v) H (node_count v) P) as [P' T]; try done.
    + simpl. pose proof (p_count _ _ _ P). lia.
    + simpl. lia.
    + intros j. cbn [with_count free_nodes]. rewrite Ef. split; [intros Hj; by apply elem_of_nil in Hj|tauto].
    + cbn [with_count free_nodes]. rewrite Ef. constructor.
    + simpl. lia.
    + intros Hh. apply (p_held _ _ _ P) in Hh. lia.
    + intros He. apply (p_range _ _ _ P) in He. lia.
    + intros Hp. apply (p_proc _ _ _ P) in Hp as ((? & _) & _). lia.
    + apply HS; [exact P'|exact T| |simpl; lia|].
      * intros j Hj. rewrite node_on_node; [by rewrite decide_False|apply P|lia].
      * done.
  - assert (i ∈ free_nodes v) as Hin by (rewrite Ef; by left). pose proof (p_free _ _ _ P i Hin) as [Hi _].
    pose proof (p_nodup _ _ _ P) as Hnd. rewrite Ef in Hnd. apply list.NoDup_cons in Hnd as [Hnl Hnd].
    destruct (ok_reset v (with_free l v) H i P) as [P' T]; try done.
    + pose proof (p_count _ _ _ P). simpl. lia.
    + intros j. cbn [with_free free_nodes]. rewrite Ef, elem_of_cons. split; [|tauto]. intros Hj. split; [by right|congruence].
    + intros Hh. by apply (p_held _ _ _ P) in Hh as [_ ?].
    + intros He. by apply (p_tree _ _ _ P) in He as (_ & ? & _); [|apply not_elem_of_nil].
    + intros Hp. by apply (p_proc _ _ _ P) in Hp as ((_ & ? & _) & _).
    + apply HS; [exact P'|exact T| |simpl; lia|].
      * intros j Hj. rewrite node_on_node; [by rewrite decide_False|apply P|]. pose proof (p_count _ _ _ P). lia.
      * done.
Qed.

(** What taking node [i] out leaves alone. *)
Record quiet (i : nat) v v' : Prop := {
  q_count : node_count v' = node_count v;
  q_env : env v' = env v;
  q_other : forall j, j <> i -> node v' j = node v j;
  q_static : forall j, n_type (node v' j) = n_type (node v j) /\ proc_type (node v' j) = proc_type (node v j);
  q_sub : forall j c, c ∈ children (node v' j) -> c ∈ children (node v j);
  q_edges : forall c, c ∈ edges v' -> c ∈ edges v }.

Lemma quiet_trans i v1 v2 v3 : quiet i v1 v2 -> quiet i v2 v3 -> quiet i v1 v3.
Proof.
  intros [A B C E D G] [A' B' C' E' D' G']. split; try congruence; auto.
  - intros j Hj. by rewrite C', C.
  - intros j. destruct (E j), (E' j). split; congruence.
Qed.

Lemma quiet_update X v H i f :
  pool_ok X v H -> (i < node_count v)%nat -> n_type (f (node v i)) = n_type (node v i) -> proc_type (f (node v i)) = proc_type (node v i) ->
  (forall c, c ∈ children (f (node v i)) -> c ∈ children (node v i)) -> quiet i v (on_node i f v).
Proof.
  intros P Hi H1 H2 H3. pose proof (in_bounds _ _ _ _ P Hi) as Hi'. pose proof (p_len _ _ _ P) as Hl. split; try done.
  - intros j Hj. by rewrite node_on_node, decide_False.
  - intros j. rewrite node_on_node by done. case_decide as Ej; [subst j|]; done.
  - intros j c. rewrite node_on_node by done. case_decide as Ej; [subst j; apply H3|done].
  - intros c. destruct (edges_split v i Hl Hi') as (A & B & -> & ->). set_solver.
Qed.

(** A node that leaves the tree: [i] is in no directory, or in one it is being taken out of. *)
Definition leaving (X : list nat) v (i : nat) : Prop :=
  (0 < i < node_count v)%nat /\ (i ∈ edges v -> i ∈ X) /\ proc_node v <> Some i.

Lemma ok_orphan X v H i :
  pool_ok X v H -> leaving X v i -> pool_ok X (on_node i (set_orphaned true) v) H.
Proof.
  intros P (Hi & He & Hp). pose proof (in_bounds _ _ _ i P ltac:(lia)) as Hi'. destruct P as [P1 P2 P3 P4 P5 P6 P7 P8 P9 P10 P11 P12 P13 P14].
  set (w := on_node i _ v). assert (forall j, node w j = if decide (j = i) then set_orphaned true (node v i) else node v j) as Hn by (intros j; by apply node_on_node).
  assert (edges w = edges v) as Ee by (by apply edges_same).
  assert (forall c, listed v c -> c <> i -> listed w c) as Hlist.
  { intros c (L1 & L2 & L3 & L4) Hne. split; [done|]. split; [done|]. by rewrite Hn, decide_False. }
  split; try done.
  - unfold w, on_node, with_nodes. cbn [nodes]. by rewrite length_insert.
  - intros j Hj. destruct (P4 j Hj). split; [done|]. rewrite Hn. case_decide as Ej; [by subst j|done].
  - intros j. rewrite Hn. case_decide as Ej; [subst j|]; apply P5.
  - intros j. rewrite Hn. case_decide as Ej; [subst j|]; apply P6.
  - by rewrite Ee.
  - intros c Hc HX. rewrite Ee in Hc. apply Hlist; [by apply P9|]. intros ->. by apply HX, He.
  - intros c Hc. rewrite Ee in Hc. by apply P10.
  - rewrite Hn, decide_False by lia. done.
  - intros j Hj. rewrite Hn, decide_False; [by apply P12|]. change (node_count w) with (node_count v) in Hj. lia.
  - intros j. rewrite Hn. case_decide as Ej; [subst j; apply (P13 i)|apply P13].
  - intros p Ep. change (proc_node w) with (proc_node v) in Ep. destruct (P14 p Ep) as (L & T1 & T2 & D). assert (p <> i) by congruence.
    split; [by apply Hlist|]. rewrite Hn, decide_False by done. split; [done|]. split; [done|]. intros j. rewrite Hn. case_decide as Ej; [subst j|]; apply D.
Qed.

Lemma vwp_free X v H i (Q : unit -> vfs F -> Prop) :
  pool_ok X v H -> leaving X v i -> i ∉ H -> (forall v', pool_ok X v' H -> quiet i v v' -> Q tt v') -> vwp (free_node i) Q v.
Proof.
  intros P (Hi & He & Hp) Hh HQ. pose proof (in_bounds _ _ _ i P ltac:(lia)) as Hi'. unfold free_node. apply vwp_bind, vwp_get.
  destruct (negb (on_free_list (node v i)) && Nat.ltb (length (free_nodes v)) MAX_INODES) eqn:Ec; [|apply vwp_ret, HQ; [done|by split]].
  bool_prop. apply vwp_bind, vwp_update, vwp_modify. set (w := with_free _ _). apply HQ.
  2:{ pose proof (quiet_update X v H i (set_on_free_list true) P ltac:(lia) eq_refl eq_refl ltac:(done)) as [A B C E D G]. by split. }
  destruct P as [P1 P2 P3 P4 P5 P6 P7 P8 P9 P10 P11 P12 P13 P14].
  assert (forall j, node w j = if decide (j = i) then set_on_free_list true (node v i) else node v j) as Hn.
  { intros j. change (node w j) with (node (on_node i (set_on_free_list true) v) j). by apply node_on_node. }
  assert (edges w = edges v) as Ee by (change (edges w) with (edges (on_node i (set_on_free_list true) v)); by apply edges_same).
  assert (free_nodes w = i :: free_nodes v) as Ef by done. assert (i ∉ free_nodes v) as Hni by (intros Hx; apply P4 in Hx as [_ Hx]; congruence).
  assert (forall c, listed v c -> c <> i -> listed w c) as Hlist.
  { intros c (L1 & L2 & L3 & L4) Hne. split; [done|]. split; [rewrite Ef; set_solver|]. by rewrite Hn, decide_False. }
  split; try done.
  - unfold w, with_free, on_node, with_nodes. cbn [nodes]. by rewrite length_insert.
  - rewrite Ef. by constructor.
  - intros j Hj. rewrite Ef in Hj. apply elem_of_cons in Hj as [->|Hj]; [split; [done|]; by rewrite Hn, decide_True|].
    destruct (P4 j Hj). split; [done|]. rewrite Hn. by case_decide.
  - intros j. rewrite Hn, Ef. case_decide as Ej; [subst j; intros _; by left|]. intros Hj. right. by apply P5.
  - intros j. rewrite Hn. case_decide as Ej; [subst j|]; apply P6.
  - intros j Hj. destruct (P7 j Hj). split; [done|]. rewrite Ef. intros Hx. apply elem_of_cons in Hx as [->|]; done.
  - by rewrite Ee.
  - intros c Hc HX. rewrite Ee in Hc. apply Hlist; [by apply P9|]. intros ->. by apply HX, He.
  - intros c Hc. rewrite Ee in Hc. by apply P10.
  - rewrite Hn, decide_False by lia. done.
  - intros j Hj. rewrite Hn, decide_False; [by apply P12|]. change (node_count w) with (node_count v) in Hj. lia.
  - intros j. rewrite Hn. case_decide as Ej; [subst j; apply (P13 i)|apply P13].
  - intros p Ep. change (proc_node w) with (proc_node v) in Ep. destruct (P14 p Ep) as (L & T1 & T2 & D). assert (p <> i) by congruence.
    split; [by apply Hlist|]. rewrite Hn, decide_False by done. split; [done|]. split; [done|]. intros j. rewrite Hn. case_decide as Ej; [subst j|]; apply D.
Qed.

Lemma open_refs_held X v H i : pool_ok X v H -> (0 <? open_refs (node v i)) = false -> i ∉ H.
Proof.
  intros P Hr Hi. rewrite (p_refs _ _ _ P) in Hr. apply list_elem_of_In, (count_occ_In Nat.eq_dec) in Hi. unfold holders in Hr. lia.
Qed.

Lemma data_ok_empty n : data_ok n -> data_ok (set_content DNull 0 n).
Proof. intros (_ & _ & Hr). split; [done|]. simpl. lia. Qed.

Lemma data_ok_readdir n k : data_ok n -> 0 <= k -> data_ok (set_readdir_idx k n).
Proof. intros (Hd & Hs & _) Hk. split; [exact Hd|]. split; [exact Hs|exact Hk]. Qed.

Lemma data_ok_bytes n b k : data_ok n -> n_type n = 0 -> 0 <= k < 2 ^ 32 -> k <= len b -> data_ok (set_content (DBytes b) k n).
Proof. intros (_ & _ & Hr) Ht Hk Hb. split; [split; [done|exact Hb]|]. split; [exact Hk|exact Hr]. Qed.

Lemma vwp_release X v H i (Q : unit -> vfs F -> Prop) :
  pool_ok X v H -> leaving X v i -> (forall v', pool_ok X v' H -> quiet i v v' -> Q tt v') -> vwp (release_node i) Q v.
Proof.
  intros P L HQ. pose proof L as (Hi & He & Hp). unfold release_node. apply vwp_bind, vwp_gets.
  destruct (0 <? open_refs (node v i)) eqn:Er.
  { apply vwp_update, HQ; [by apply ok_orphan|]. by apply (quiet_update X v H); [|lia|..]. }
  pose proof (open_refs_held _ _ _ _ P Er) as Hh. apply vwp_bind, vwp_update.
  destruct (ok_update X v H i (set_content DNull 0) P ltac:(lia) eq_refl (data_ok_empty _ (p_data _ _ _ P i)) eq_refl ltac:(done)) as [P1 E1].
  pose proof (quiet_update X v H i (set_content DNull 0) P ltac:(lia) eq_refl eq_refl ltac:(done)) as Q1.
  set (v1 := on_node i _ v) in *. apply vwp_bind, vwp_update.
  destruct (ok_change X v1 H i (set_children []) (children (node v1 i)) P1 ltac:(change (node_count v1) with (node_count v); lia) eq_refl) as [P2 E2].
  { apply (p_data _ _ _ P1 i). }
  { by rewrite app_nil_r. }
  { done. }
  pose proof (quiet_update X v1 H i (set_children []) P1 ltac:(change (node_count v1) with (node_count v); lia) eq_refl eq_refl ltac:(intros c Hc; by apply elem_of_nil in Hc)) as Q2.
  set (v2 := on_node i _ v1) in *. pose proof (quiet_trans _ _ _ _ Q1 Q2) as Q12.
  apply (vwp_free X v2 H); [done| |done|].
  - split; [done|]. split; [|done]. intros Hx. by apply He, Q12.
  - intros v3 P3 Q3. apply HQ; [done|by eapply quiet_trans].
Qed.
End Pool.
