(* ===== verification/VfsSafe.v ===== *)
(** Every operation of the virtual file system returns and keeps the node pool in order, on
    top of any mounted file system whose operations return. *)
From Stdlib Require Import ZArith Lia.
From S2P Require Import Prelude Packed Format Vfs VfsPool.
From S2P Require Ext2.

(** What a mounted file system promises: from a state that satisfies [I] every operation
    returns to one, and no more data is delivered than was asked for. *)
Class FsTotal (F : Type) `{FsOps F} (I : F -> Prop) := {
  ft_resolve : forall p s, I s -> exists r s', fs_resolve p s = Some (r, s') /\ I s';
  ft_get_size : forall p s, I s -> exists r s', fs_get_size p s = Some (r, s') /\ I s' /\ 0 <= r < 2 ^ 32;
  ft_read_file : forall p n s, I s -> 0 <= n -> exists r s', fs_read_file p n s = Some (r, s') /\ I s' /\ (forall d, r = Some d -> len d <= n);
  ft_write_file : forall p d s, I s -> len d < 2 ^ 32 -> exists r s', fs_write_file p d s = Some (r, s') /\ I s';
  ft_readdir : forall p n s, I s -> 0 <= n -> exists r s', fs_readdir p n s = Some (r, s') /\ I s' /\ (forall l, r = Some l -> len l <= n);
  ft_mkdir : forall p s, I s -> exists r s', fs_mkdir p s = Some (r, s') /\ I s';
  ft_unlink : forall p s, I s -> exists r s', fs_unlink p s = Some (r, s') /\ I s' }.

Section Safe.
Context {F : Type} `{FO : FsOps F} {I : F -> Prop} `{!FsTotal F I} `{BH : Ext2.BlockHeap}.
Implicit Types (v : vfs F) (H : list nat).

Definition outside v : Prop := I (mfs v) /\ (current_dir v < node_count v)%nat.
Definition inv v H : Prop := pool_ok [] v H /\ outside v.

Lemma pool_ok_ext X v v' H :
  nodes v' = nodes v -> node_count v' = node_count v -> free_nodes v' = free_nodes v -> proc_node v' = proc_node v ->
  pool_ok X v H -> pool_ok X v' H.
Proof. destruct v, v'. simpl. intros -> -> -> -> []. split; done. Qed.

(** ** Steps outside the pool *)

Lemma vwp_kmalloc_buf n v H (Q : option (list Z) -> vfs F -> Prop) :
  inv v H -> (forall v', inv v' H -> nodes v' = nodes v -> node_count v' = node_count v -> free_nodes v' = free_nodes v ->
    proc_node v' = proc_node v -> mount_table v' = mount_table v -> Q (Ext2.fresh_buf (kallocs v) n) v') -> vwp (kmalloc n) Q v.
Proof. intros [P Hm] HQ. unfold vwp, kmalloc. apply HQ; try done. split; [by apply (pool_ok_ext [] v)|done]. Qed.

Lemma vwp_kmalloc n v H (Q : option (list Z) -> vfs F -> Prop) :
  inv v H -> (forall b v', inv v' H -> nodes v' = nodes v -> node_count v' = node_count v -> free_nodes v' = free_nodes v ->
    proc_node v' = proc_node v -> mount_table v' = mount_table v -> (forall l, b = Some l -> len l = n) -> Q b v') -> vwp (kmalloc n) Q v.
Proof.
  intros P HQ. apply (vwp_kmalloc_buf n v H); [done|]. intros v' P' E1 E2 E3 E4 E5. apply HQ; try done. intros l E. by eapply Ext2.fresh_buf_len.
Qed.

Lemma vwp_mount {A} (f : F -> option (A * F)) (R : A -> Prop) v H (Q : A -> vfs F -> Prop) :
  inv v H -> (exists r s', f (mfs v) = Some (r, s') /\ I s' /\ R r) ->
  (forall r s, R r -> inv (with_mfs s v) H -> Q r (with_mfs s v)) -> vwp (mount_call f) Q v.
Proof.
  intros [P [Hm Hc]] (r & s' & E & Hs & HR) HQ. unfold vwp, mount_call. rewrite E. apply HQ; [done|].
  split; [by apply (pool_ok_ext [] v)|by split].
Qed.

Lemma vwp_memcpy o d b v (Q : list Z -> vfs F -> Prop) :
  0 <= o -> o + len d <= len b -> Q (splice o d b) v -> vwp (memcpy o d b) Q v.
Proof.
  intros H1 H2 HQ. unfold memcpy. rewrite (proj2 (Z.leb_le 0 o)), (proj2 (Z.leb_le (o + len d) _)) by lia. by apply vwp_ret.
Qed.

Lemma vwp_load_data n b o k v (Q : list Z -> vfs F -> Prop) :
  n_data n = DBytes b -> 0 <= o -> 0 <= k -> o + k <= len b -> Q (slice o k b) v -> vwp (load_data n o k) Q v.
Proof.
  intros E H1 H2 H3 HQ. unfold load_data, data_bytes. rewrite E.
  rewrite (proj2 (Z.leb_le 0 o)), (proj2 (Z.leb_le 0 k)), (proj2 (Z.leb_le (o + k) _)) by lia. by apply vwp_ret.
Qed.

(** ** Steps of the pool *)

Lemma env_mfs v v' : env v' = env v -> mfs v' = mfs v.
Proof. intros E. exact (f_equal snd E). Qed.
Lemma env_proc v v' : env v' = env v -> proc_node v' = proc_node v.
Proof. intros E. exact (f_equal (fun e => e.1.1.1.2) E). Qed.
Lemma outside_env v v' : outside v -> env v' = env v -> (node_count v <= node_count v')%nat -> outside v'.
Proof.
  intros [Hm Hc] E Hn. split; [by rewrite (env_mfs _ _ E)|]. pose proof (f_equal (fun e => e.1.1.1.1) E) as Ec. simpl in Ec. rewrite Ec. lia.
Qed.
Lemma env_kinfo v v' : env v' = env v -> kinfo v' = kinfo v.
Proof. intros E. exact (f_equal (fun e => e.1.2) E). Qed.

Lemma inv_update v H i f :
  inv v H -> (i < node_count v)%nat -> book (f (node v i)) = book (node v i) -> data_ok (f (node v i)) ->
  children (f (node v i)) = children (node v i) ->
  (proc_node v = Some i -> n_type (f (node v i)) = n_type (node v i) /\ proc_type (f (node v i)) = proc_type (node v i)) ->
  inv (on_node i f v) H.
Proof. intros [P Hm] H1 H2 H3 H4 H5. split; [by apply ok_update|done]. Qed.

Lemma dir_range v H d : inv v H -> n_type (node v d) = 1 -> (d < node_count v)%nat.
Proof.
  intros [P _] Ht. destruct (Nat.ltb_spec d (node_count v)) as [|Hge]; [done|]. rewrite (p_unused _ _ _ P) in Ht by done. done.
Qed.

(** Nothing outside the pool changes, and no node leaves it. *)
Definition pool_grows v v' : Prop := env v' = env v /\ (node_count v <= node_count v')%nat.
Lemma pool_grows_refl v : pool_grows v v.
Proof. by split. Qed.
Lemma pool_grows_trans v1 v2 v3 : pool_grows v1 v2 -> pool_grows v2 v3 -> pool_grows v1 v3.
Proof. intros [? ?] [? ?]. split; [congruence|lia]. Qed.

(** A node in use: a handle may lead to it. *)
Definition live v (i : nat) : Prop := (i < node_count v)%nat /\ i ∉ free_nodes v.

(** [prep] fills in a new node without touching what the pool keeps in it. *)
Definition fills (prep : vfs_node -> vfs_node) (ty : Z) : Prop :=
  forall n, book (prep n) = book n /\ children (prep n) = children n /\ (n_type n = ty -> data_ok n -> data_ok (prep n)).

Lemma vwp_new_child parent name ty prep v H (Q : option nat -> vfs F -> Prop) :
  inv v H -> (parent < node_count v)%nat -> fills prep ty ->
  (forall v', inv v' H -> pool_grows v v' -> Q None v') ->
  (forall i v', inv v' H -> live v' i -> pool_grows v v' -> proc_node v <> Some i -> i ∉ H -> Q (Some i) v') ->
  vwp (new_child parent name ty prep) Q v.
Proof.
  intros [P Hm] Hp Hf HN HS. unfold new_child. apply vwp_bind, (vwp_alloc v H); [done|apply vwp_ret, HN; [by split|apply pool_grows_refl]|].
  intros i v1 P1 T Hsame Hcount Henv. destruct T as [T1 T2 T3 T4 T5 T6].
  apply vwp_bind, vwp_update. set (f := fun n => prep _). pose proof (in_bounds _ _ _ i P1 ltac:(lia)) as Hi'.
  destruct (Hf (set_parent (Some parent) (set_type ty (set_name (take (MAX_NAME - 1) name) (node v1 i))))) as (F1 & F2 & F3).
  rewrite T2 in F1, F2, F3. specialize (F3 eq_refl ltac:(split; simpl; [done|lia])).
  destruct (ok_update [] v1 H i f P1) as [P2 Ee]; [lia|unfold f; rewrite T2; done|unfold f; rewrite T2; done|unfold f; rewrite T2; done|done|].
  set (v2 := on_node i f v1) in *.
  assert (listed v2 i) as Hl.
  { split; [done|]. split; [done|]. unfold v2. rewrite node_on_node, decide_True by (done || apply P1).
    unfold f. rewrite T2. split; [exact (f_equal (fun x => x.1.1.2) F1)|exact (f_equal snd F1)]. }
  assert (i ∉ edges v2) as Hne by (by rewrite Ee).
  unfold vfs_append_child. apply vwp_bind, vwp_bind, vwp_gets. destruct (Nat.leb MAX_CHILDREN _).
  - apply vwp_ret, vwp_bind. apply (vwp_free [] v2 H); [done|split; [done|split; done]|done|]. intros v3 P3 Q3. apply vwp_ret, HN.
    + split; [done|]. apply (outside_env v); [done|by rewrite (q_env _ _ _ Q3)|by rewrite (q_count _ _ _ Q3)].
    + split; [rewrite (q_env _ _ _ Q3); exact Henv|]. rewrite (q_count _ _ _ Q3). exact Hcount.
  - apply vwp_bind, vwp_update, vwp_ret, vwp_ret. apply HS; try done.
    + split; [|by apply (outside_env v)].
      apply (ok_append v2 H parent i P2); [change (node_count v2) with (node_count v1); lia|done|done|done].
    + split; [apply T1|done].
    + rewrite <- (env_proc _ _ Henv). done.
Qed.

Lemma vwp_create_at path ty excl prep v H (Q : option nat -> vfs F -> Prop) :
  inv v H -> fills prep ty ->
  (forall v', inv v' H -> pool_grows v v' -> Q None v') ->
  (forall i v', inv v' H -> live v' i -> pool_grows v v' -> Q (Some i) v') ->
  vwp (create_at path ty excl prep) Q v.
Proof.
  intros P Hf HN HS. unfold create_at. apply vwp_bind, vwp_get. destruct (resolve_parent v path) as [[parent name]|]; [|apply vwp_ret, HN; auto using pool_grows_refl].
  destruct (Z.eqb_spec (n_type (node v parent)) 1) as [Et|]; cbn [negb]; [|apply vwp_ret, HN; auto using pool_grows_refl].
  case_match; [apply vwp_ret, HN; auto using pool_grows_refl|]. apply (vwp_new_child _ _ _ _ v H); try done; [by eapply dir_range|]. intros. by apply HS.
Qed.

Lemma vwp_for_each {A} (R : vfs F -> Prop) (l : list A) f (Q : unit -> vfs F -> Prop) v :
  R v -> (forall x v, x ∈ l -> R v -> vwp (f x) (fun _ v' => R v') v) -> (forall v', R v' -> Q tt v') -> vwp (for_each l f) Q v.
Proof.
  revert v. induction l as [|x l IH]; intros v HR Hf HQ; cbn [for_each]; [apply vwp_ret, HQ; auto using pool_grows_refl|].
  apply vwp_bind. eapply vwp_mono; [apply Hf; [by left|done]|]. intros u v' HR'. cbv beta in HR'. apply IH; [done| |done].
  intros y w Hy. apply Hf. by right.
Qed.

(** ** /proc *)

Lemma fills_id ty : fills id ty.
Proof. intros n. by split_and!. Qed.
Lemma fills_proc pt pd ty : fills (set_proc pt pd) ty.
Proof. intros n. by split_and!. Qed.

Lemma vwp_proc_make parent name ty pt pd v H (Q : option nat -> vfs F -> Prop) :
  inv v H -> (parent < node_count v)%nat ->
  (forall r v', inv v' H -> pool_grows v v' -> (forall i, r = Some i -> live v' i) -> Q r v') ->
  vwp (proc_make parent name ty pt pd) Q v.
Proof.
  intros P Hp HQ. unfold proc_make. apply vwp_bind, vwp_gets. case_match; [by apply vwp_ret, HQ; [|apply pool_grows_refl|]|].
  apply (vwp_new_child _ _ _ _ v H); [done|done|apply fills_proc|intros; by apply HQ|]. intros i v' ? ? ? ? ?. apply HQ; [done|done|]. by intros j [= <-].
Qed.

Lemma vwp_proc_add pn p v H (Q : unit -> vfs F -> Prop) :
  inv v H -> proc_node v = Some pn -> (forall v', inv v' H -> pool_grows v v' -> Q tt v') -> vwp (proc_add pn p) Q v.
Proof.
  intros P Hp HQ. unfold proc_add. case_match; [apply vwp_ret, HQ; auto using pool_grows_refl|]. apply vwp_bind, vwp_get. case_match; [apply vwp_ret, HQ; auto using pool_grows_refl|].
  destruct (p_proc _ _ _ (proj1 P) pn Hp) as (((_ & Hr) & _) & _).
  apply vwp_bind, (vwp_proc_make _ _ _ _ _ v H); [done|done|]. intros [d|] v1 P1 G1 Hd; [|by apply vwp_ret, HQ].
  destruct (Hd d eq_refl) as [Hd1 _]. clear Hd.
  apply vwp_bind, (vwp_proc_make _ _ _ _ _ v1 H); [done|done|]. intros _ v2 P2 G2 _.
  apply vwp_bind, (vwp_proc_make _ _ _ _ _ v2 H); [done|destruct G2; lia|]. intros _ v3 P3 G3 _.
  apply vwp_bind, (vwp_proc_make _ _ _ _ _ v3 H); [done|destruct G2, G3; lia|]. intros _ v4 P4 G4 _.
  apply vwp_ret, HQ; [done|]. repeat (eapply pool_grows_trans; [eassumption|]). done.
Qed.

(** Entries that were taken out can be forgotten. *)
Lemma ok_forget X v H : pool_ok X v H -> (forall x, x ∈ X -> x ∉ edges v) -> pool_ok [] v H.
Proof. intros [P1 P2 P3 P4 P5 P6 P7 P8 P9 P10 P11 P12 P13 P14] HX. split; try done. intros c Hc _. apply P9; [done|]. intros Hx. by apply (HX c Hx). Qed.

Lemma ok_mark X v H : pool_ok [] v H -> pool_ok X v H.
Proof. intros [P1 P2 P3 P4 P5 P6 P7 P8 P9 P10 P11 P12 P13 P14]. split; try done. intros c Hc _. apply P9; [done|]. apply not_elem_of_nil. Qed.

(** What happens to the rest of the pool while nodes are released. *)
Record quiets (keep : nat) v v' : Prop := {
  qs_count : node_count v' = node_count v;
  qs_env : env v' = env v;
  qs_keep : children (node v' keep) = children (node v keep);
  qs_static : forall j, n_type (node v' j) = n_type (node v j) /\ proc_type (node v' j) = proc_type (node v j);
  qs_sub : forall j c, c ∈ children (node v' j) -> c ∈ children (node v j) }.

Lemma quiets_step k i v1 v2 v3 : i <> k -> quiets k v1 v2 -> quiet i v2 v3 -> quiets k v1 v3.
Proof.
  intros Hk [A B C D E] [A' B' C' D' E' _]. split; try congruence; auto.
  - by rewrite C'.
  - intros j. destruct (D j), (D' j). split; congruence.
Qed.

Lemma vwp_release_all X l k v0 v H (Q : unit -> vfs F -> Prop) :
  pool_ok X v H -> quiets k v0 v -> (forall i, i ∈ l -> i ∈ X /\ i <> k /\ (0 < i < node_count v)%nat /\ proc_node v <> Some i) ->
  (forall v', pool_ok X v' H -> quiets k v0 v' -> Q tt v') -> vwp (for_each l release_node) Q v.
Proof.
  intros P Hq Hl HQ. apply (vwp_for_each (fun w => pool_ok X w H /\ quiets k v0 w)); [done| |intros w []; by apply HQ].
  intros i w Hi [Pw Qw]. destruct (Hl i Hi) as (HX & Hk & Hr & Hp).
  apply (vwp_release X w H); [done| |intros w' Pw' Q'; split; [done|by eapply quiets_step]].
  split; [|split; [done|]].
  - rewrite (qs_count _ _ _ Qw). by rewrite (qs_count _ _ _ Hq) in Hr.
  - rewrite (env_proc _ _ (qs_env _ _ _ Qw)). by rewrite (env_proc _ _ (qs_env _ _ _ Hq)) in Hp.
Qed.

Lemma swap_remove_spec i l c : l !! i = Some c -> exists l', swap_remove i l = Some l' /\ l ≡ₚ c :: l'.
Proof.
  intros Hi. pose proof (lookup_lt_Some _ _ _ Hi) as Hlt. unfold swap_remove.
  destruct (lookup_lt_is_Some_2 l (length l - 1)%nat) as [x Hx]; [lia|]. rewrite Hx. eexists. split; [done|].
  destruct (Nat.eq_dec i (length l - 1)%nat) as [->|Hne].
  - rewrite take_insert_ge by done. rewrite <- (take_drop (length l - 1)%nat l) at 1. rewrite (drop_S l x) by done.
    rewrite drop_ge by lia. rewrite Hx in Hi. injection Hi as ->. by rewrite Permutation_app_comm.
  - assert (i < length l - 1)%nat as Hi' by lia.
    rewrite <- (take_drop (length l - 1)%nat l) at 1. rewrite (drop_S l x _ Hx), drop_ge by lia.
    rewrite take_insert_lt by lia. set (t := take (length l - 1)%nat l).
    assert (t !! i = Some c) as Ht by (unfold t; by rewrite lookup_take_lt).
    rewrite insert_take_drop by (eapply lookup_lt_Some; exact Ht).
    assert (t ≡ₚ c :: take i t ++ drop (S i) t) as E1 by (rewrite <- (take_drop_middle t i c Ht) at 1; by rewrite <- Permutation_middle).
    transitivity (x :: c :: take i t ++ drop (S i) t); [rewrite E1 at 1; by rewrite Permutation_app_comm|].
    rewrite <- Permutation_middle. apply perm_swap.
Qed.

Lemma vwp_proc_reap fuel pn i v H (Q : unit -> vfs F -> Prop) :
  inv v H -> proc_node v = Some pn -> (forall v', inv v' H -> pool_grows v v' -> Q tt v') -> vwp (proc_reap fuel pn i) Q v.
Proof.
  revert i v. induction fuel as [|fuel IH]; intros i v P Hp HQ; [by apply HQ; [|apply pool_grows_refl]|]. cbn [proc_reap].
  apply vwp_bind, vwp_get. destruct (children (node v pn) !! i) as [c|] eqn:Ei; [|by apply vwp_ret, HQ; [|apply pool_grows_refl]].
  destruct (_ && _) eqn:Ec; [|by apply IH]. bool_prop. pose proof P as [P0 Hm].
  destruct (p_proc _ _ _ P0 pn Hp) as (Lp & Tp & Rp & Dp). pose proof (list_elem_of_lookup_2 _ _ _ Ei) as Hcin.
  pose proof (edges_elem v c pn Hcin) as Hce. pose proof (p_range _ _ _ P0 c Hce) as Hcr.
  assert (c <> pn) as Hcpn by (intros ->; rewrite Rp in *; done).
  assert (pn ∉ children (node v c)) as Hpnc by (intros Hx; apply Dp in Hx; lia).
  assert (pn <> 0%nat) as Hpn0 by (destruct Lp as (? & _); lia).
  set (L := children (node v c)) in *. set (X := c :: L).
  assert (quiets pn v v) as Q0 by by split.
  apply vwp_bind, (vwp_release_all X L pn v v H); [by apply ok_mark|done| |].
  { intros j Hj. split; [by right|]. split; [intros ->; done|]. split; [apply (p_range _ _ _ P0); by apply (edges_elem v j c)|].
    rewrite Hp. intros [= ->]. done. }
  intros v1 P1 Q1. apply vwp_bind, vwp_update.
  destruct (ok_change X v1 H c (set_children []) (children (node v1 c)) P1 ltac:(rewrite (qs_count _ _ _ Q1); lia) eq_refl) as [P2 _].
  { apply (p_data _ _ _ P1 c). }
  { by rewrite app_nil_r. }
  { done. }
  pose proof (quiet_update X v1 H c (set_children []) P1 ltac:(rewrite (qs_count _ _ _ Q1); lia) eq_refl eq_refl ltac:(intros x Hx; by apply elem_of_nil in Hx)) as Q12.
  assert (children (node (on_node c (set_children []) v1) c) = []) as Hc2.
  { rewrite node_on_node, decide_True; [done|done|apply P1|]. pose proof (p_count _ _ _ P0). lia. }
  set (v2 := on_node c _ v1) in *. pose proof (quiets_step _ _ _ _ _ Hcpn Q1 Q12) as Q2.
  apply vwp_bind, (vwp_release X v2 H); [done| |].
  { split; [rewrite (qs_count _ _ _ Q2); lia|]. split; [by left|]. rewrite (env_proc _ _ (qs_env _ _ _ Q2)), Hp. congruence. }
  intros v3 P3 Q23. pose proof (quiets_step _ _ _ _ _ Hcpn Q2 Q23) as Q3. apply vwp_bind, vwp_gets.
  rewrite (qs_keep _ _ _ Q3). destruct (swap_remove_spec _ _ _ Ei) as (l' & -> & Hperm).
  assert (pn < node_count v3)%nat as Hpr by (rewrite (qs_count _ _ _ Q3); apply Lp).
  apply vwp_bind, vwp_update.
  destruct (ok_change X v3 H pn (set_children l') [c] P3 Hpr eq_refl (p_data _ _ _ P3 pn)) as [P4 _].
  { rewrite (qs_keep _ _ _ Q3). exact Hperm. }
  { done. }
  assert (forall j, node (on_node pn (set_children l') v3) j = if decide (j = pn) then set_children l' (node v3 pn) else node v3 j) as Hn4.
  { intros j. apply node_on_node; [apply P3|]. by eapply in_bounds. }
  set (v4 := on_node pn _ v3) in *.
  assert (forall j x, x ∈ children (node v4 j) -> x ∈ children (node v j)) as Hsub.
  { intros j x. rewrite Hn4. case_decide as Ej; [subst j; cbn [set_children children]; intros Hx; rewrite Hperm; by right|apply Q3]. }
  assert (pool_ok [] v4 H) as P5.
  { apply (ok_forget X); [done|]. intros x Hx He. apply elem_edges in He as (j & _ & Hj).
    apply elem_of_cons in Hx as [->|Hx].
    - pose proof (one_parent v pn j c (p_edges _ _ _ P0) Hcin (Hsub j c Hj)) as <-. rewrite Hn4, decide_True in Hj by done.
      cbn [set_children children] in Hj. assert (NoDup (children (node v pn))) as Hnd.
      { destruct (edges_split v pn (p_len _ _ _ P0) ltac:(by apply (in_bounds _ _ _ _ P0), Lp)) as (A & B & E & _).
        pose proof (p_edges _ _ _ P0) as Hne. rewrite E in Hne. apply list.NoDup_app in Hne as (_ & _ & Hne). by apply list.NoDup_app in Hne as (Hne & _). }
      rewrite Hperm in Hnd. by apply list.NoDup_cons in Hnd as [Hnd _].
    - pose proof (one_parent v c j x (p_edges _ _ _ P0) Hx (Hsub j x Hj)) as <-. rewrite Hn4, decide_False in Hj by done.
      apply (q_sub _ _ _ Q23) in Hj. rewrite Hc2 in Hj. by apply elem_of_nil in Hj. }
  assert (env v4 = env v) as E4 by (change (env v4) with (env v3); apply Q3).
  apply IH.
  - split; [done|]. apply (outside_env v); [done|done|]. change (node_count v4) with (node_count v3). by rewrite (qs_count _ _ _ Q3).
  - by rewrite (env_proc _ _ E4).
  - intros w Pw Gw. apply HQ; [done|]. eapply pool_grows_trans; [|exact Gw]. split; [done|].
    change (node_count v4) with (node_count v3). rewrite (qs_count _ _ _ Q3). done.
Qed.

Lemma vwp_proc_sync v H (Q : unit -> vfs F -> Prop) :
  inv v H -> (forall v', inv v' H -> pool_grows v v' -> Q tt v') -> vwp proc_sync Q v.
Proof.
  intros P HQ. unfold proc_sync. apply vwp_bind, vwp_get. destruct (proc_node v) as [pn|] eqn:Ep; [|by apply vwp_ret, HQ; [|apply pool_grows_refl]].
  apply vwp_bind, (vwp_proc_reap _ _ _ v H); [done|done|]. intros v1 P1 G1.
  apply (vwp_for_each (fun w => inv w H /\ pool_grows v w)); [done| |intros w []; by apply HQ].
  intros p w _ [Pw Gw]. apply (vwp_proc_add _ _ _ H); [done|by rewrite (env_proc _ _ (proj1 Gw))|].
  intros w' Pw' Gw'. split; [done|by eapply pool_grows_trans].
Qed.

(** ** Handles *)

Lemma ok_refs X v H H' i f :
  pool_ok X v H -> live v i -> (orphaned (f (node v i)), on_free_list (f (node v i)), mount_backed (f (node v i))) =
    (orphaned (node v i), on_free_list (node v i), mount_backed (node v i)) ->
  children (f (node v i)) = children (node v i) -> data_ok (f (node v i)) ->
  (n_type (f (node v i)), proc_type (f (node v i))) = (n_type (node v i), proc_type (node v i)) ->
  open_refs (f (node v i)) = Z.of_nat (holders i H') -> (forall j, j <> i -> holders j H' = holders j H) -> (forall j, j ∈ H' -> j = i \/ j ∈ H) ->
  pool_ok X (on_node i f v) H'.
Proof.
  intros P [Hi Hfr] Hb Hc Hd Ht Hr Hs Hin. injection Hb as B1 B2 B3. injection Ht as T1 T2. pose proof (in_bounds _ _ _ i P Hi) as Hi'.
  pose proof (edges_same v i f (p_len _ _ _ P) Hi' Hc) as Ee. destruct P as [P1 P2 P3 P4 P5 P6 P7 P8 P9 P10 P11 P12 P13 P14].
  assert (forall j, node (on_node i f v) j = if decide (j = i) then f (node v i) else node v j) as Hn by (intros j; by apply node_on_node).
  assert (forall c, listed v c -> listed (on_node i f v) c) as Hl.
  { intros c (L1 & L2 & L3 & L4). split; [done|]. split; [done|]. rewrite !Hn. case_decide as Ec; [subst c; split; congruence|done]. }
  split; try done.
  - unfold on_node, with_nodes. cbn [nodes]. by rewrite length_insert.
  - intros j Hj. destruct (P4 j Hj). split; [done|]. rewrite Hn. case_decide as Ej; [subst j; congruence|done].
  - intros j. rewrite Hn. case_decide as Ej; [subst j; rewrite B2|]; apply P5.
  - intros j. rewrite Hn. case_decide as Ej; [by subst j|]. rewrite Hs by done. apply P6.
  - intros j Hj. destruct (Hin j Hj) as [->|Hj']; [by split|by apply P7].
  - by rewrite Ee.
  - intros c Hc' HX. rewrite Ee in Hc'. by apply Hl, P9.
  - intros c Hc'. rewrite Ee in Hc'. by apply P10.
  - rewrite Hn. case_decide as E0; [subst i; split; [rewrite B1|rewrite B3]; apply P11|done].
  - intros j Hj. rewrite Hn. case_decide as Ej; [subst j; exfalso; change (node_count (on_node i f v)) with (node_count v) in Hj; lia|by apply P12].
  - intros j. rewrite Hn. case_decide as Ej; [subst j; done|apply P13].
  - intros p Ep. destruct (P14 p Ep) as (A & B & C & D). split; [by apply Hl|]. rewrite Hn.
    split_and!; [case_decide as Ej; [subst p; congruence|done]..|]. intros j. rewrite Hn. case_decide as Ej; [subst j; rewrite Hc|]; apply D.
Qed.

Lemma holders_cons i j H : holders j (i :: H) = if decide (j = i) then S (holders j H) else holders j H.
Proof. unfold holders. simpl. destruct (Nat.eq_dec i j), (decide (j = i)); congruence. Qed.

(** A handle is handed out: one more reference. *)
Lemma inv_opened v H i :
  inv v H -> live v i -> len H < 2 ^ 31 ->
  inv (on_node i (fun n => set_open_refs (u32 (open_refs n + 1)) n) v) (i :: H).
Proof.
  intros [P Hm] Hi Hlen. split; [|done]. apply (ok_refs [] v H); try done.
  - apply (p_data _ _ _ P).
  - cbn [set_open_refs open_refs]. rewrite (p_refs _ _ _ P), holders_cons, decide_True by done.
    pose proof (count_occ_bound Nat.eq_dec i H). unfold holders. rewrite u32_small; lia.
  - intros j Hj. by rewrite holders_cons, decide_False.
  - intros j Hj. by apply elem_of_cons in Hj.
Qed.

Lemma inv_fresh_handle v H i f :
  inv v H -> live v i -> i ∉ H -> (orphaned (f (node v i)), on_free_list (f (node v i)), mount_backed (f (node v i))) =
    (orphaned (node v i), on_free_list (node v i), mount_backed (node v i)) ->
  children (f (node v i)) = children (node v i) -> data_ok (f (node v i)) ->
  (n_type (f (node v i)), proc_type (f (node v i))) = (n_type (node v i), proc_type (node v i)) -> open_refs (f (node v i)) = 1 ->
  inv (on_node i f v) (i :: H).
Proof.
  intros [P Hm] Hi Hh Hb Hc Hd Ht Hr. split; [|done]. apply (ok_refs [] v H); try done.
  - rewrite Hr, holders_cons, decide_True, holders_0 by done. done.
  - intros j Hj. by rewrite holders_cons, decide_False.
  - intros j Hj. by apply elem_of_cons in Hj.
Qed.

Lemma vwp_node_of fd v (Q : nat -> vfs F -> Prop) i : fd = fd_of i -> (i < MAX_INODES)%nat -> Q i v -> vwp (node_of fd) Q v.
Proof.
  intros -> Hi HQ. unfold node_of, fd_of. rewrite (proj2 (Z.leb_le 1 _)), (proj2 (Z.leb_le (Z.of_nat i + 1) _)) by lia.
  cbn [andb]. apply vwp_ret. replace (Z.to_nat (Z.of_nat i + 1 - 1)) with i by lia. done.
Qed.

Lemma held_live v H i : inv v H -> i ∈ H -> live v i.
Proof. intros [P _] Hi. by apply (p_held _ _ _ P). Qed.

Lemma live_bound v H i : inv v H -> live v i -> (i < MAX_INODES)%nat.
Proof. intros [P _] [Hi _]. by eapply in_bounds. Qed.

Lemma fd_nonnull i : fd_of i =? NULLFD = false /\ fd_of i <=? 0 = false /\ fd_of i <? 0 = false.
Proof. unfold fd_of, NULLFD. split_and!; [apply Z.eqb_neq|apply Z.leb_gt|apply Z.ltb_ge]; lia. Qed.

Lemma vwp_dup v H i (Q : unit -> vfs F -> Prop) :
  inv v H -> i ∈ H -> len H < 2 ^ 31 -> (forall v', inv v' (i :: H) -> env v' = env v -> Q tt v') -> vwp (vfs_dup (fd_of i)) Q v.
Proof.
  intros P Hi Hl HQ. pose proof (held_live _ _ _ P Hi) as Li. unfold vfs_dup. destruct (fd_nonnull i) as (_ & -> & _).
  apply vwp_bind, (vwp_node_of _ _ _ i eq_refl); [by eapply live_bound|]. apply vwp_update, HQ; [by apply inv_opened|done].
Qed.

Lemma vwp_close v H H' i (Q : Z -> vfs F -> Prop) :
  inv v H -> H ≡ₚ i :: H' -> (forall r v', inv v' H' -> Q r v') -> vwp (vfs_close (fd_of i)) Q v.
Proof.
  intros P Hp HQ. assert (i ∈ H) as Hi by (rewrite Hp; by left). pose proof (held_live _ _ _ P Hi) as Li.
  unfold vfs_close. destruct (fd_nonnull i) as (_ & -> & _). apply vwp_bind, (vwp_node_of _ _ _ i eq_refl); [by eapply live_bound|].
  apply vwp_bind, vwp_gets. destruct P as [P Hm].
  assert (forall j, holders j H = holders j (i :: H')) as Hcount by (intros j; unfold holders; by apply Permutation_count_occ).
  assert (open_refs (node v i) = Z.of_nat (holders i H') + 1) as Er by (rewrite (p_refs _ _ _ P), Hcount, holders_cons, decide_True by done; lia).
  rewrite (proj2 (Z.ltb_lt 0 (open_refs (node v i)))) by lia. replace (open_refs (node v i) - 1) with (Z.of_nat (holders i H')) by lia.
  set (refs := Z.of_nat (holders i H')). apply vwp_bind, vwp_update. set (v1 := on_node i (set_open_refs refs) v).
  assert (pool_ok [] v1 H') as P1.
  { apply (ok_refs [] v H); try done; [apply (p_data _ _ _ P)| |].
    - intros j Hj. by rewrite Hcount, holders_cons, decide_False.
    - intros j Hj. right. rewrite Hp. by right. }
  destruct (Z.ltb_spec 0 refs); [by apply vwp_ret, HQ|]. assert (i ∉ H') as Hn.
  { intros Hx. apply list_elem_of_In, (count_occ_In Nat.eq_dec) in Hx. unfold refs, holders in *. lia. }
  destruct (mount_backed (node v i) || orphaned (node v i)) eqn:Eb; [|by apply vwp_ret, HQ].
  assert (i ∉ edges v) as He.
  { intros Hx. apply (p_tree _ _ _ P) in Hx as (_ & _ & E1 & E2); [|apply not_elem_of_nil]. by rewrite E1, E2 in Eb. }
  assert (0 < i < node_count v)%nat as Hr.
  { split; [|apply Li]. destruct (Nat.eq_dec i 0%nat) as [->|]; [|lia]. destruct (p_root _ _ _ P) as [E1 E2]. by rewrite E1, E2 in Eb. }
  assert (proc_node v <> Some i) as Hpn.
  { intros Ep. destruct (p_proc _ _ _ P i Ep) as ((_ & _ & E1 & E2) & _). by rewrite E1, E2 in Eb. }
  apply vwp_bind, vwp_update. destruct (ok_update [] v1 H' i (set_content DNull 0) P1 ltac:(apply Hr) eq_refl (data_ok_empty _ (p_data _ _ _ P1 i)) eq_refl ltac:(done)) as [P2 E2].
  apply vwp_bind, (vwp_free [] _ H' i _ P2); [|done|].
  - split; [done|]. split; [|done]. rewrite E2. unfold v1. rewrite edges_same; [done|apply P|by eapply (in_bounds _ _ _ _ P), Hr|done].
  - intros v3 P3 Q3. apply vwp_ret, HQ. split; [done|]. apply (outside_env v); [done|by rewrite (q_env _ _ _ Q3)|by rewrite (q_count _ _ _ Q3)].
Qed.
End Safe.
