(* ===== verification/VfsOps.v ===== *)
(** The calls of the virtual file system keep the node pool in order: opening, reading and
    writing, creating, removing and renaming, and any sequence of them. *)
From Stdlib Require Import ZArith Lia String.
From S2P Require Import Prelude Packed Format Vfs VfsPool VfsSafe.
From S2P Require Ext2.

Section Ops.
Context {F : Type} `{FO : FsOps F} {I : F -> Prop} `{!FsTotal F I} `{BH : Ext2.BlockHeap}.
Implicit Types (v : vfs F) (H : list nat).
Local Notation inv := (@inv F I).
Local Notation vwp_mount := (VfsSafe.vwp_mount (I := I)).
Local Notation vwp_kmalloc := (VfsSafe.vwp_kmalloc (I := I)).
Local Notation vwp_create_at := (VfsSafe.vwp_create_at (I := I)).
Local Notation vwp_proc_sync := (VfsSafe.vwp_proc_sync (I := I)).

(** * Names *)

Lemma find_child_in v d nm c : find_child v d nm = Some c -> c ∈ children (node v d) /\ n_name (node v c) = nm.
Proof. unfold find_child. intros E. apply find_some in E as [Hin E]. split; [by apply list_elem_of_In|by apply bool_decide_eq_true in E]. Qed.

Lemma edge_live v H c : inv v H -> c ∈ edges v -> live v c.
Proof. intros [P _] Hc. destruct (p_tree _ _ _ P c Hc) as (? & ? & _); [apply not_elem_of_nil|]. split; [lia|done]. Qed.

Lemma resolve_loop_live v H fuel dir p result i :
  inv v H -> (live v result \/ path_token p <> None) -> resolve_loop fuel v dir p result = Some i -> live v i.
Proof.
  intros P. revert dir p result. induction fuel as [|fuel IH]; intros dir p result Hr; [done|]. cbn [resolve_loop].
  destruct (path_token p) as [[tok next]|] eqn:Et; [|destruct Hr as [Hr|]; [intros [= <-]|]; done].
  assert (forall c, find_child v dir tok = Some c -> live v c) as Hc.
  { intros c E. apply find_child_in in E as [E _]. apply (edge_live v H c P). by eapply edges_elem. }
  destruct next as [|x next]; [apply Hc|]. destruct (find_child v dir tok) as [c|]; [|done].
  destruct (n_type (node v c) =? 1); [|done]. apply IH. left. by apply Hc.
Qed.

Lemma root_live v H : inv v H -> live v 0.
Proof.
  intros [P _]. pose proof (p_count _ _ _ P). split; [lia|]. intros Hf. apply (p_free _ _ _ P) in Hf. lia.
Qed.

Lemma path_token_relative c p : (c =? SLASH) = false -> path_token (c :: p) <> None.
Proof. intros Hc. unfold path_token. cbn [skip_slashes]. rewrite Hc. done. Qed.

(** Only the empty path resolves to the current directory itself, which may have been removed. *)
Lemma resolve_live v H path i : inv v H -> path <> [] -> resolve_path v path = Some i -> live v i.
Proof.
  intros P Hp. unfold resolve_path, walk_start. destruct path as [|c q]; [done|].
  change (take 255 (c :: q)) with (c :: take 254 q). destruct (c =? SLASH) eqn:Ec.
  - rewrite Ec. apply (resolve_loop_live v H); [done|]. left. by eapply root_live.
  - rewrite Ec. apply (resolve_loop_live v H); [done|]. right. by apply path_token_relative.
Qed.

Lemma parent_loop_bound v H fuel dir p result prev d nm :
  inv v H -> (dir < node_count v)%nat -> (result < node_count v)%nat -> parent_loop fuel v dir p result prev = (d, nm) -> (d < node_count v)%nat.
Proof.
  intros P. revert dir p result prev. induction fuel as [|fuel IH]; intros dir p result prev Hd Hr; cbn [parent_loop]; [by intros [= <- _]|].
  destruct (path_token p) as [[tok p']|]; [|by intros [= <- _]].
  destruct (find_child v dir tok) as [c|] eqn:Ef; [|by intros [= <- _]]. apply find_child_in in Ef as [Ef _].
  destruct (edge_live v H c P (edges_elem _ _ _ Ef)) as [Hc _]. destruct (n_type (node v c) =? 1); [|by intros [= <- _]]. by apply IH.
Qed.

Lemma parent_bound v H path d nm : inv v H -> resolve_parent v path = Some (d, nm) -> (d < node_count v)%nat.
Proof.
  intros P. unfold resolve_parent, walk_start. destruct path as [|c q]; [done|]. change (take 255 (c :: q)) with (c :: take 254 q).
  pose proof (root_live v H P) as [Hr _]. pose proof P as [_ [_ Hc]].
  destruct (c =? SLASH); intros E%(inj Some); by apply (parent_loop_bound v H) in E.
Qed.

(** * Opening *)

(** What opening gives: -1, or a handle to node [i], counted among the holders. *)
Definition opened H (Q : Z -> vfs F -> Prop) : Prop :=
  (forall v', inv v' H -> Q (-1) v') /\ (forall i v', inv v' (i :: H) -> live v' i -> Q (fd_of i) v').

(** A node that no directory lists may change in any way that keeps its count. *)
Lemma ok_unlisted v H H' i f :
  pool_ok [] v H -> (0 < i < node_count v)%nat -> i ∉ free_nodes v -> i ∉ edges v -> proc_node v <> Some i ->
  on_free_list (f (node v i)) = on_free_list (node v i) -> children (f (node v i)) = children (node v i) -> data_ok (f (node v i)) ->
  open_refs (f (node v i)) = Z.of_nat (holders i H') -> (forall j, j <> i -> holders j H' = holders j H) -> (forall j, j ∈ H' -> j = i \/ j ∈ H) ->
  pool_ok [] (on_node i f v) H'.
Proof.
  intros P Hi Hfr He Hpn Hb Hc Hd Hr Hs Hin. pose proof (in_bounds _ _ _ i P ltac:(lia)) as Hi'.
  pose proof (edges_same v i f (p_len _ _ _ P) Hi' Hc) as Ee. destruct P as [P1 P2 P3 P4 P5 P6 P7 P8 P9 P10 P11 P12 P13 P14].
  assert (forall j, node (on_node i f v) j = if decide (j = i) then f (node v i) else node v j) as Hn by (intros j; by apply node_on_node).
  assert (forall c, listed v c -> c <> i -> listed (on_node i f v) c) as Hl.
  { intros c (L1 & L2 & L3 & L4) Hne. split; [done|]. split; [done|]. by rewrite !Hn, decide_False. }
  split; try done.
  - unfold on_node, with_nodes. cbn [nodes]. by rewrite length_insert.
  - intros j Hj. destruct (P4 j Hj). split; [done|]. rewrite Hn. case_decide as Ej; [subst j; done|done].
  - intros j. rewrite Hn. case_decide as Ej; [subst j; rewrite Hb|]; apply P5.
  - intros j. rewrite Hn. case_decide as Ej; [by subst j|]. rewrite Hs by done. apply P6.
  - intros j Hj. destruct (Hin j Hj) as [->|Hj']; [split; [apply Hi|done]|by apply P7].
  - by rewrite Ee.
  - intros c Hc' HX. rewrite Ee in Hc'. apply Hl; [by apply P9|]. intros ->. done.
  - intros c Hc'. rewrite Ee in Hc'. by apply P10.
  - rewrite Hn, decide_False by lia. done.
  - intros j Hj. rewrite Hn, decide_False; [by apply P12|]. change (node_count (on_node i f v)) with (node_count v) in Hj. lia.
  - intros j. rewrite Hn. case_decide as Ej; [subst j; done|apply P13].
  - intros p Ep. change (proc_node (on_node i f v)) with (proc_node v) in Ep. destruct (P14 p Ep) as (A & B & C & D).
    assert (p <> i) by congruence. split; [by apply Hl|].
    rewrite Hn, decide_False by done. split; [done|]. split; [done|]. intros j. rewrite Hn. case_decide as Ej; [subst j; rewrite Hc|]; apply D.
Qed.

Lemma taken_on_node v H i f : pool_ok [] v H -> taken v H i -> children (f (node v i)) = [] ->
  node (on_node i f v) i = f (node v i) /\ (forall j, j <> i -> node (on_node i f v) j = node v j) /\ edges (on_node i f v) = edges v.
Proof.
  intros P T Hc. pose proof (in_bounds _ _ _ i P ltac:(apply T)) as Hi. pose proof (p_len _ _ _ P) as Hl.
  split; [by rewrite node_on_node, decide_True|]. split; [intros j Hj; by rewrite node_on_node, decide_False|].
  apply edges_same; [done|done|]. rewrite Hc, (t_node _ _ _ T). done.
Qed.

(** A node being set up for a handle: still in no directory and behind no handle. *)
Record setup v H (i : nat) : Prop := {
  s_inv : inv v H;
  s_range : (0 < i < node_count v)%nat;
  s_free : i ∉ free_nodes v;
  s_edges : i ∉ edges v;
  s_held : i ∉ H;
  s_proc : proc_node v <> Some i;
  s_children : children (node v i) = [] }.

Lemma setup_update v H i f :
  setup v H i -> on_free_list (f (node v i)) = on_free_list (node v i) -> children (f (node v i)) = children (node v i) ->
  data_ok (f (node v i)) -> open_refs (f (node v i)) = open_refs (node v i) -> setup (on_node i f v) H i /\ node (on_node i f v) i = f (node v i).
Proof.
  intros [[P O] S1 S2 S3 S4 S5 S6] E1 E2 E3 E4. pose proof (in_bounds _ _ _ i P ltac:(lia)) as Hi. pose proof (p_len _ _ _ P) as Hl.
  assert (node (on_node i f v) i = f (node v i)) as Hn by (by rewrite node_on_node, decide_True). split; [|done].
  split; try done.
  - split; [|done]. apply (ok_unlisted v H H); try done; [|auto]. rewrite E4. apply (p_refs _ _ _ P).
  - rewrite edges_same; [done|done|done|]. by rewrite E2.
  - by rewrite Hn, E2.
Qed.

Lemma setup_open v H i f :
  setup v H i -> on_free_list (f (node v i)) = on_free_list (node v i) -> children (f (node v i)) = children (node v i) ->
  data_ok (f (node v i)) -> open_refs (f (node v i)) = 1 -> inv (on_node i f v) (i :: H) /\ live (on_node i f v) i.
Proof.
  intros [[P O] S1 S2 S3 S4 S5 S6] E1 E2 E3 E4. split; [|split; [apply S1|done]]. split; [|done].
  apply (ok_unlisted v H (i :: H)); try done.
  - rewrite E4, holders_cons, decide_True, holders_0 by done. done.
  - intros j Hj. by rewrite holders_cons, decide_False.
  - intros j Hj. by apply elem_of_cons in Hj.
Qed.

Lemma setup_taken v v' H i : inv v H -> pool_ok [] v' H -> taken v' H i -> env v' = env v -> (node_count v <= node_count v')%nat -> setup v' H i.
Proof.
  intros [_ O] P [T1 T2 T3 T4 T5 T6] E Hc. split; try done; [split; [done|by apply (outside_env v)]|by rewrite T2].
Qed.

Lemma setup_env v v' H i :
  setup v H i -> inv v' H -> nodes v' = nodes v -> node_count v' = node_count v -> free_nodes v' = free_nodes v -> proc_node v' = proc_node v -> setup v' H i.
Proof.
  intros [S0 S1 S2 S3 S4 S5 S6] P E1 E2 E3 E4.
  split; [done|by rewrite E2|by rewrite E3|unfold edges; by rewrite E1|done|by rewrite E4|unfold node; by rewrite E1].
Qed.

Lemma vwp_setup_mount {A} (f : F -> option (A * F)) (R : A -> Prop) v H i (Q : A -> vfs F -> Prop) :
  setup v H i -> (exists r s', f (mfs v) = Some (r, s') /\ I s' /\ R r) ->
  (forall r v', R r -> setup v' H i -> node v' i = node v i -> Q r v') -> vwp (mount_call f) Q v.
Proof.
  intros S Hf HQ. apply (vwp_mount f R v H); [apply S|done|]. intros r s HR P. apply HQ; [done| |done]. by apply (setup_env v).
Qed.

Lemma vwp_load_mounted sub v H i (Q : unit -> vfs F -> Prop) :
  setup v H i -> n_data (node v i) = DNull -> n_size (node v i) = 0 -> n_type (node v i) = 0 ->
  (forall v', setup v' H i -> data_ok (node v' i) -> Q tt v') -> vwp (load_mounted sub i) Q v.
Proof.
  intros S Ed Es Et HQ. pose proof (p_data _ _ _ (proj1 (s_inv _ _ _ S)) i) as Hd0. unfold load_mounted.
  pose proof (s_inv _ _ _ S) as [_ [Hm _]].
  apply vwp_bind, (vwp_setup_mount _ (fun r => 0 <= r < 2 ^ 32) v H i); [done|by apply ft_get_size|]. intros sz v1 Hsz S1 E1.
  destruct (Z.ltb_spec 0 sz); [|apply vwp_ret, HQ; [done|by rewrite E1]].
  apply vwp_bind, (vwp_kmalloc _ v1 H); [apply S1|]. intros b v2 P2 N1 N2 N3 N4 _ Hb.
  assert (setup v2 H i) as S2 by (by apply (setup_env v1)). assert (node v2 i = node v i) as E2 by (rewrite <- E1; unfold node; by rewrite N1).
  destruct b as [b|]; [|apply vwp_ret, HQ; [done|by rewrite E2]]. specialize (Hb b eq_refl). pose proof (s_inv _ _ _ S2) as [_ [Hm2 _]].
  apply vwp_bind, (vwp_setup_mount _ (fun r => forall d, r = Some d -> len d <= sz) v2 H i); [done|by apply ft_read_file; [|lia]|].
  intros r v3 Hr S3 E3. assert (node v3 i = node v i) as E3' by congruence.
  assert (forall b' n, 0 <= n <= len b' -> len b' = sz -> vwp (update i (set_content (DBytes b') n)) Q v3) as Hset.
  { intros b' n Hn Hb'. apply vwp_update.
    destruct (setup_update v3 H i (set_content (DBytes b') n) S3) as [S4 E4]; try done.
    - rewrite E3'. apply data_ok_bytes; [done|done|lia|lia].
    - apply HQ; [done|]. rewrite E4, E3'. apply data_ok_bytes; [done|done|lia|lia]. }
  destruct r as [d|]; [|apply Hset; lia]. specialize (Hr d eq_refl).
  apply vwp_bind, vwp_memcpy; [lia|lia|]. apply Hset; rewrite length_splice by lia; lia.
Qed.

Lemma vwp_open_mounted_file mi me sub flags v H (Q : Z -> vfs F -> Prop) :
  inv v H -> opened H Q -> vwp (open_mounted_file mi me sub flags) Q v.
Proof.
  intros P [QN QS]. unfold open_mounted_file. apply vwp_bind. apply (vwp_mono _ (fun _ v' => inv v' H)).
  { case_match; [|by apply vwp_ret]. apply (vwp_mount _ (fun _ => True) v H); [done| |by intros].
    destruct (ft_resolve sub (mfs v)) as (r & s & E & Hs); [apply P|]. by exists r, s. }
  intros ex v1 P1. cbv beta in P1. case_match; [by apply vwp_ret, QN|].
  apply vwp_bind, (vwp_alloc v1 H); [apply P1|by apply vwp_ret, QN|]. intros i v2 P2 T _ Hc He.
  pose proof (setup_taken v1 v2 H i P1 P2 T He Hc) as S2. pose proof (t_node _ _ _ T) as Tn.
  apply vwp_bind, vwp_update.
  destruct (setup_update v2 H i (fun n => set_mount mi (take (MAX_NAME - 1) sub) (set_type 0 n)) S2) as [S3 E3]; try (rewrite Tn; done).
  set (v3 := on_node i _ v2) in *. rewrite Tn in E3.
  assert (forall v', setup v' H i -> data_ok (node v' i) -> vwp (update i (set_open_refs 1) ;; ret (fd_of i)) Q v') as Hend.
  { intros v' S' D'. apply vwp_bind, vwp_update, vwp_ret. apply QS; by apply (setup_open v' H i). }
  apply vwp_bind. case_match; [apply vwp_ret, Hend; [done|rewrite E3; split; simpl; [done|lia]]|]. case_match.
  - apply vwp_bind, (vwp_setup_mount _ (fun _ => True) v3 H i); [done| |].
    + pose proof (s_inv _ _ _ S3) as [_ [Hm _]]. destruct (ft_write_file sub [] (mfs v3) Hm) as (r & s & E & Hs); [simpl; lia|]. by exists r, s.
    + intros _ v4 _ S4 E4. apply vwp_ret, Hend; [done|]. rewrite E4, E3. split; simpl; [done|lia].
  - apply (vwp_load_mounted _ _ H); try (rewrite E3; done); [done|]. intros v4 S4 D4. by apply Hend.
Qed.

Lemma vwp_open_mounted mi me sub flags v H (Q : Z -> vfs F -> Prop) :
  inv v H -> opened H Q -> vwp (open_mounted mi me sub flags) Q v.
Proof.
  intros P HQ. unfold open_mounted. apply vwp_bind, (vwp_kmalloc _ v H); [done|]. intros dents v1 P1 _ _ _ _ _ _. apply vwp_bind.
  apply (vwp_mono _ (fun r v' => inv v' H /\ forall l, r = Some l -> len l <= 64)).
  { case_match; [|by apply vwp_ret]. apply (vwp_mount _ (fun r => forall l, r = Some l -> len l <= 64) v1 H); [done| |by intros].
    apply ft_readdir; [apply P1|done]. }
  intros [l|] v2 [P2 Hl]; [|by apply (vwp_open_mounted_file _ _ _ _ _ H)]. specialize (Hl l eq_refl). destruct HQ as [QN QS].
  unfold open_mounted_dir. apply vwp_bind, (vwp_alloc v2 H); [apply P2|by apply vwp_ret, QN|]. intros i v3 P3 T Hs Hc He.
  pose proof (setup_taken v2 v3 H i P2 P3 T He Hc) as S3. apply vwp_bind, vwp_update, vwp_ret. pose proof (t_node _ _ _ T) as Tn.
  apply QS; apply (setup_open v3 H i); try done; rewrite Tn; try done; (split; simpl; [done|lia]).
Qed.

Lemma vwp_open path flags v H (Q : Z -> vfs F -> Prop) :
  inv v H -> path <> [] -> len H < 2 ^ 31 -> opened H Q -> vwp (vfs_open path flags) Q v.
Proof.
  intros P Hp Hl HQ. unfold vfs_open. apply vwp_bind, (vwp_proc_sync v H); [done|]. intros v1 P1 _. apply vwp_bind, vwp_get.
  destruct (vfs_find_mount v1 path) as [[[mi me] sub]|]; [by apply (vwp_open_mounted _ _ _ _ _ H)|].
  destruct HQ as [QN QS].
  assert (forall i v2, inv v2 H -> live v2 i -> vwp (update i (fun n => set_open_refs (u32 (open_refs n + 1)) n) ;; ret (fd_of i)) Q v2) as Hopen.
  { intros i v2 P2 L2. apply vwp_bind, vwp_update, vwp_ret. apply QS; [by apply inv_opened|done]. }
  destruct (truthy (flags .& 1)).
  - apply vwp_bind. apply (vwp_mono _ (fun r v' => inv v' H /\ forall i, r = Some i -> live v' i)).
    { destruct (resolve_path v1 path) as [i|] eqn:Ei.
      - apply vwp_ret. split; [done|]. intros j [= <-]. by apply (resolve_live v1 H path).
      - apply (vwp_create_at _ _ _ _ v1 H); [done|apply fills_id|by intros|]. intros i v' P' L' _. split; [done|]. by intros j [= <-]. }
    intros [i|] v2 [P2 L2]; [|by apply vwp_ret, QN]. specialize (L2 i eq_refl). apply vwp_bind. case_match; [|by apply vwp_ret, Hopen].
    apply vwp_update. apply Hopen; [|done]. apply inv_update; try done; [apply L2|]. apply data_ok_empty, (p_data _ _ _ (proj1 P2)).
  - destruct (resolve_path v1 path) as [i|] eqn:Ei; [|by apply vwp_ret, QN]. pose proof (resolve_live v1 H path i P1 Hp Ei) as Li.
    apply vwp_bind, vwp_update. apply Hopen; [|done]. apply inv_update; try done; [apply Li|]. apply data_ok_readdir; [apply (p_data _ _ _ (proj1 P1))|done].
Qed.

(** * Reading and writing *)

Lemma file_data v H i : inv v H -> n_type (node v i) = 0 ->
  0 <= n_size (node v i) < 2 ^ 32 /\
  ((exists b, n_data (node v i) = DBytes b /\ n_size (node v i) <= len b) \/
   n_data (node v i) = DNull /\ n_size (node v i) = 0).
Proof.
  intros [P _] Ht. destruct (p_data _ _ _ P i) as (Hd & Hs & _). split; [done|].
  destruct (n_data (node v i)) as [|b|l]; [by right|left; exists b; tauto|]. destruct Hd. congruence.
Qed.

Lemma vwp_flush v H i (Q : unit -> vfs F -> Prop) :
  inv v H -> n_type (node v i) = 0 -> (forall v', inv v' H -> nodes v' = nodes v -> Q tt v') -> vwp (flush_mount_node i) Q v.
Proof.
  intros P Ht HQ. destruct (file_data v H i P Ht) as [Hs Hd]. unfold flush_mount_node. apply vwp_bind, vwp_gets.
  destruct (mount_ent (node v i)) as [mi|]; [|by apply vwp_ret, HQ]. destruct (mount_backed (node v i)) eqn:Em; cbn [negb]; [|by apply vwp_ret, HQ].
  apply vwp_bind, vwp_gets. case_match; [|by apply vwp_ret, HQ].
  assert (forall d, len d < 2 ^ 32 -> vwp (let* _ := mount_call (fs_write_file (mpath (node v i)) d) in ret tt) Q v) as Hw.
  { intros d Hl. apply vwp_bind, (vwp_mount _ (fun _ => True) v H); [done| |].
    - destruct (ft_write_file (mpath (node v i)) d (mfs v)) as (r & s & E & Hi); [apply P|done|]. by exists r, s.
    - intros r s _ P'. by apply vwp_ret, HQ. }
  apply vwp_bind. unfold has_data. destruct Hd as [(b & Eb & Hb)|[Eb Hb]]; rewrite Eb.
  - apply (vwp_load_data _ b); [done|lia|lia|lia|]. apply Hw. rewrite length_slice by lia. lia.
  - rewrite (proj2 (Z.eqb_eq _ _) Hb). apply vwp_ret, Hw. simpl. lia.
Qed.

(** A step on a file: it ends with the data in place and the mounted file written. *)
Lemma vwp_store_flush v H i b n r (Q : Z -> vfs F -> Prop) :
  inv v H -> live v i -> n_type (node v i) = 0 -> 0 <= n < 2 ^ 32 -> n <= len b ->
  (forall v', inv v' H -> node v' i = set_content (DBytes b) n (node v i) -> (forall j, j <> i -> node v' j = node v j) -> Q r v') ->
  vwp (update i (set_content (DBytes b) n) ;; flush_mount_node i ;; ret r) Q v.
Proof.
  intros P L Ht Hn Hb HQ. apply vwp_bind, vwp_update. pose proof (live_bound v H i P L) as Hi. pose proof (p_len _ _ _ (proj1 P)) as Hl.
  set (v1 := on_node i _ v). assert (node v1 i = set_content (DBytes b) n (node v i)) as E1 by (unfold v1; by rewrite node_on_node, decide_True).
  apply vwp_bind, (vwp_flush v1 H).
  - apply inv_update; try done; [apply L|]. apply data_ok_bytes; [apply (p_data _ _ _ (proj1 P))|done..].
  - by rewrite E1.
  - intros v2 P2 E2. apply vwp_ret, HQ; [done|unfold node; rewrite E2; exact E1|]. intros j Hj. unfold node. rewrite E2.
    change (node v1 j = node v j). unfold v1. by rewrite node_on_node, decide_False.
Qed.

Lemma vwp_read v H i count (Q : Z * list Z -> vfs F -> Prop) :
  inv v H -> i ∈ H -> 0 <= count -> (forall r, Q r v) -> vwp (vfs_read (fd_of i) count) Q v.
Proof.
  intros P Hi Hc HQ. pose proof (held_live _ _ _ P Hi) as Li. unfold vfs_read. destruct (fd_nonnull i) as (-> & _).
  apply vwp_bind, (vwp_node_of _ _ _ i eq_refl); [by eapply live_bound|]. apply vwp_bind, vwp_gets.
  destruct (Z.eqb_spec (n_type (node v i)) 0) as [Et|]; cbn [negb]; [|by apply vwp_ret].
  destruct (file_data v H i P Et) as [Hs [(b & Eb & Hb)|[Eb Hb]]]; unfold has_data; rewrite Eb; [|by apply vwp_ret].
  apply vwp_bind, (vwp_load_data _ b); [done|lia| | |by apply vwp_ret]; case_match; bool_prop; lia.
Qed.

Lemma vwp_write v H i buf (Q : Z -> vfs F -> Prop) :
  inv v H -> i ∈ H -> len buf < 2 ^ 31 -> (forall r v', inv v' H -> Q r v') -> vwp (vfs_write (fd_of i) buf) Q v.
Proof.
  intros P Hi Hc HQ. pose proof (held_live _ _ _ P Hi) as Li. unfold vfs_write. destruct (fd_nonnull i) as (-> & _).
  apply vwp_bind, (vwp_node_of _ _ _ i eq_refl); [by eapply live_bound|]. apply vwp_bind, vwp_gets.
  destruct (Z.eqb_spec (n_type (node v i)) 0) as [Et|]; cbn [negb]; [|by apply vwp_ret, HQ].
  destruct (file_data v H i P Et) as [Hs Hd].
  assert (forall b v', inv v' H -> live v' i -> node v' i = node v i -> len buf <= len b ->
    vwp (let* b := memcpy 0 buf b in update i (set_content (DBytes b) (u32 (len buf))) ;; flush_mount_node i ;; ret (s32 (len buf))) Q v') as Hst.
  { intros b v' P' L' E' Hb. apply vwp_bind, vwp_memcpy; [lia|lia|]. rewrite u32_small by lia.
    apply (vwp_store_flush v' H); [done|done|by rewrite E'|lia|rewrite length_splice by lia; lia|]. intros. by apply HQ. }
  unfold has_data. apply vwp_bind. destruct (_ || _) eqn:Ec.
  - apply vwp_bind, (vwp_kmalloc _ v H); [done|]. intros nd v1 P1 N1 N2 N3 _ _ Hn. destruct nd as [nd|]; [|by apply vwp_ret, vwp_ret, HQ].
    specialize (Hn nd eq_refl). assert (node v1 i = node v i) as E1 by (unfold node; by rewrite N1).
    assert (live v1 i) as L1 by (split; [rewrite N2; apply Li|rewrite N3; apply Li]).
    destruct Hd as [(b & Eb & Hb)|[Eb Hb]]; rewrite Eb in *.
    + simpl in Ec. bool_prop. apply vwp_bind, (vwp_load_data _ b); [done|lia|lia|lia|].
      assert (len (slice 0 (n_size (node v i)) b) = n_size (node v i)) as Hls by (rewrite length_slice; lia).
      apply vwp_bind, vwp_memcpy; [lia|unfold BLOCK_SIZE in *; lia|]. apply vwp_ret, Hst; try done.
      rewrite length_splice; unfold BLOCK_SIZE in *; lia.
    + apply vwp_ret, Hst; try done. unfold BLOCK_SIZE in *. lia.
  - apply vwp_ret. unfold data_bytes. destruct Hd as [(b & Eb & Hb)|[Eb Hb]]; rewrite Eb in *; [|done]. simpl in Ec. bool_prop. apply Hst; try done. lia.
Qed.

Lemma vwp_rand k v H (Q : list Z -> vfs F -> Prop) : inv v H -> (forall b v', inv v' H -> Q b v') -> vwp (dev_rand_bytes k) Q v.
Proof.
  revert v Q. induction k as [|k IH]; intros v Q P HQ; cbn [dev_rand_bytes]; [by apply vwp_ret, HQ|].
  apply vwp_bind. unfold dev_rand_byte. apply vwp_bind, vwp_get, vwp_bind, vwp_modify, vwp_ret. apply vwp_bind, IH.
  - destruct P as [P O]. split; [by apply (pool_ok_ext [] v)|done].
  - intros b v' P'. by apply vwp_ret, HQ.
Qed.

Lemma vwp_pread v H i count offset (Q : Z * list Z -> vfs F -> Prop) :
  inv v H -> i ∈ H -> 0 <= count -> 0 <= offset -> (forall r v', inv v' H -> Q r v') -> vwp (vfs_pread (fd_of i) count offset) Q v.
Proof.
  intros P Hi Hc Ho HQ. pose proof (held_live _ _ _ P Hi) as Li. unfold vfs_pread. destruct (fd_nonnull i) as (-> & _).
  apply vwp_bind, (vwp_node_of _ _ _ i eq_refl); [by eapply live_bound|]. apply vwp_bind, vwp_get.
  destruct (Z.eqb_spec (n_type (node v i)) 0) as [Et|]; cbn [negb]; [|by apply vwp_ret, HQ].
  do 2 (case_match; [by apply vwp_ret, HQ|]).
  case_match; [apply vwp_bind, (vwp_rand _ _ H); [done|]; intros; by apply vwp_ret, HQ|].
  case_match; [case_match; by apply vwp_ret, HQ|]. case_match; [by apply vwp_ret, HQ|]. bool_prop.
  destruct (file_data v H i P Et) as [Hs [(b & Eb & Hb)|[Eb Hb]]]; unfold has_data; rewrite Eb; [|by apply vwp_ret, HQ].
  case_match; [|by apply vwp_ret, HQ]. apply vwp_bind, (vwp_load_data _ b); unfold clip; [done|lia|lia|lia|]. by apply vwp_ret, HQ.
Qed.
End Ops.
