(* ===== verification/VfsFile.v ===== *)
(** Writing a file at an offset and reading it back: what vfs_pwrite leaves is what vfs_pread
    delivers, gaps are zero, and a failed allocation leaves the file as it was. *)
From Stdlib Require Import ZArith Lia String.
From S2P Require Import Prelude Packed Format Vfs VfsPool VfsSafe VfsOps.
From S2P Require Ext2.

(** * The contents of a file *)

(** The bytes of a file, and a file whose bytes are not generated. *)
Definition contents (n : vfs_node) : list Z :=
  match n_data n with DBytes b => take (Z.to_nat (n_size n)) b | _ => [] end.
Definition regular (n : vfs_node) : Prop := n_type n = 0 /\ dev_type n = 0 /\ proc_type n = 0.

(** Writing [d] at offset [o] of [old]: bytes up to the offset that were not there are zero. *)
Definition written (old : list Z) (o : Z) (d : list Z) : list Z :=
  take (Z.to_nat o) (old ++ zero_bytes (o - len old)) ++ d ++ drop (Z.to_nat (o + len d)) old.

(** The part of [l] that a read of [c] bytes at offset [o] delivers. *)
Definition window (o c : Z) (l : list Z) : list Z := take (Z.to_nat c) (drop (Z.to_nat o) l).

Lemma length_written old o d : 0 <= o -> len (written old o d) = Z.max (len old) (o + len d).
Proof.
  intros Ho. unfold written. rewrite !length_app, length_take, length_drop, length_app. unfold zero_bytes. rewrite length_replicate. lia.
Qed.

Lemma zero_bytes_nil n : n <= 0 -> zero_bytes n = [].
Proof. intros Hn. unfold zero_bytes. by replace (Z.to_nat n) with O by lia. Qed.

Lemma take_zeros (l : list Z) (o k : nat) : (o - length l <= k)%nat -> take o (l ++ replicate k 0) = take o (l ++ replicate (o - length l) 0).
Proof. intros Hk. rewrite !take_app, !take_replicate. do 2 f_equal. lia. Qed.

(** In place: the file is long enough. *)
Lemma written_inside b size o d :
  0 <= o -> o + len d <= size <= len b -> take (Z.to_nat size) (splice o d b) = written (take (Z.to_nat size) b) o d.
Proof.
  intros Ho Hs. unfold written, splice. rewrite zero_bytes_nil by (rewrite length_take; lia). rewrite app_nil_r.
  rewrite take_app_ge by (rewrite length_take; lia). rewrite take_app_ge by (rewrite length_take; lia).
  rewrite !length_take, take_take, skipn_firstn_comm. f_equal; [f_equal; lia|]. f_equal. f_equal; [lia|f_equal; lia].
Qed.

(** In a new block: the old bytes, zeros, the new bytes. *)
Lemma written_grown old z o d :
  0 <= o -> len old < o + len d -> o + len d <= z ->
  take (Z.to_nat (o + len d)) (splice o d (splice 0 old (zero_bytes z))) = written old o d.
Proof.
  intros Ho Hs Hz. unfold written, splice, zero_bytes. rewrite (drop_ge old) by lia. rewrite app_nil_r. rewrite take_0. cbn [app].
  rewrite drop_replicate. set (pre := take (Z.to_nat o) (old ++ _)).
  assert (pre = take (Z.to_nat o) (old ++ replicate (Z.to_nat (o - len old)) 0)) as <-.
  { unfold pre. rewrite take_zeros by lia. do 3 f_equal. lia. }
  assert (length pre = Z.to_nat o) as Hp by (unfold pre; rewrite length_take, length_app, length_replicate; lia).
  rewrite app_assoc, take_app_le, take_ge by (rewrite length_app; lia). done.
Qed.

Lemma written_empty z o d :
  0 <= o -> o + len d <= z -> take (Z.to_nat (o + len d)) (splice o d (zero_bytes z)) = written [] o d.
Proof.
  intros Ho Hz. unfold written, splice, zero_bytes. rewrite drop_nil, app_nil_r. cbn [app]. rewrite Z.sub_0_r, !take_replicate, drop_replicate.
  rewrite app_assoc, take_app_le, take_ge by (rewrite !length_app, length_replicate; lia). do 2 f_equal. lia.
Qed.

Section File.
Context {F : Type} `{FO : FsOps F} {I : F -> Prop} `{!FsTotal F I} `{BH : Ext2.BlockHeap}.
Implicit Types (v : vfs F) (H : list nat).
Local Notation inv := (@inv F I).
Local Notation vwp_kmalloc_buf := (VfsSafe.vwp_kmalloc_buf (I := I)).

(** What a write of [buf] at [offset] does to the nodes: nothing when it fails or the file is
    a device, and otherwise node [i] has the new contents. *)
Definition pwrote v (i : nat) (buf : list Z) (offset r : Z) v' : Prop :=
  (forall j, j <> i -> node v' j = node v j) /\
  (r = -1 /\ node v' i = node v i /\ (n_type (node v i) = 0 -> Ext2.fresh_buf (kallocs v) (offset + len buf + BLOCK_SIZE) = None) \/
   r = s32 (len buf) /\ n_type (node v i) = 0 /\
   (dev_type (node v i) <> 0 /\ node v' i = node v i \/
    exists b n, node v' i = set_content (DBytes b) n (node v i) /\ contents (node v' i) = written (contents (node v i)) offset buf /\
      n = len (contents (node v' i)) /\ n <= len b)).

Lemma vwp_pwrite v H i buf offset (Q : Z -> vfs F -> Prop) :
  inv v H -> i ∈ H -> 0 <= offset -> offset + len buf + BLOCK_SIZE < 2 ^ 32 ->
  (forall r v', inv v' H -> pwrote v i buf offset r v' -> Q r v') -> vwp (vfs_pwrite (fd_of i) buf offset) Q v.
Proof.
  unfold BLOCK_SIZE. intros P Hi Ho Hc HQ. pose proof (held_live _ _ _ P Hi) as Li. unfold vfs_pwrite. destruct (fd_nonnull i) as (-> & _).
  apply vwp_bind, (vwp_node_of _ _ _ i eq_refl); [by eapply live_bound|]. apply vwp_bind, vwp_gets.
  destruct (Z.eqb_spec (n_type (node v i)) 0) as [Et|]; cbn [negb]; [|apply vwp_ret, HQ; [done|split; [done|by left]]].
  unfold truthy at 1. destruct (Z.eqb_spec (dev_type (node v i)) 0) as [Ed|]; cbn [negb]; [|apply vwp_ret, HQ; [done|split; [done|right; auto]]].
  rewrite (u32_small (offset + len buf)), (proj2 (Z.ltb_ge (offset + len buf) offset)) by lia.
  rewrite (u32_small (offset + len buf + BLOCK_SIZE)) by (unfold BLOCK_SIZE; lia).
  destruct (file_data v H i P Et) as [Hs Hd]. set (e := offset + len buf) in *.
  set (size := if n_size (node v i) <? e then e else n_size (node v i)).
  assert (forall b v', inv v' H -> live v' i -> nodes v' = nodes v -> e <= size <= len b ->
    take (Z.to_nat size) (splice offset buf b) = written (contents (node v i)) offset buf ->
    vwp (let* b := (if truthy (len buf) then memcpy offset buf b else ret b) in update i (set_content (DBytes b) size) ;; flush_mount_node i ;; ret (s32 (len buf))) Q v') as Hst.
  { intros b v' P' L' E' Hb Hw. assert (node v' i = node v i) as En by (unfold node; by rewrite E').
    apply vwp_bind. apply (vwp_mono _ (fun b' w => w = v' /\ b' = splice offset buf b)).
    { unfold truthy. destruct (Z.eqb_spec (len buf) 0) as [E0|]; cbn [negb]; [|by apply vwp_memcpy; [lia|unfold e in *; lia|]].
      apply vwp_ret. split; [done|]. destruct buf; [|simpl in E0; lia]. unfold splice. cbn [length app]. by rewrite Nat.add_0_r, take_drop. }
    intros b' w [-> ->]. assert (len (splice offset buf b) = len b) as El by (rewrite length_splice; unfold e in *; lia).
    apply (vwp_store_flush v' H); [done|done|by rewrite En|unfold size, e in *; case_match; lia|lia|].
    intros w Pw E1 E2. apply HQ; [done|]. split; [intros j Hj; rewrite E2 by done; unfold node; by rewrite E'|]. right. do 2 (split; [done|]). right.
    exists (splice offset buf b), size. rewrite E1, En. split; [done|]. unfold contents at 1 3. cbn [n_data n_size set_content].
    rewrite Hw. split; [done|]. rewrite <- Hw, length_take. lia. }
  assert (forall v', nodes v' = nodes v -> node_count v' = node_count v -> free_nodes v' = free_nodes v -> live v' i) as Hlive.
  { intros v' _ N2 N3. split; [rewrite N2; apply Li|rewrite N3; apply Li]. }
  unfold has_data. apply vwp_bind. destruct (_ || _) eqn:Ec.
  - apply vwp_bind, (vwp_kmalloc_buf _ v H); [done|]. intros v1 P1 N1 N2 N3 _ _. destruct (Ext2.fresh_buf _ _) as [nd|] eqn:En.
    2:{ apply vwp_ret, vwp_ret, HQ; [done|]. split; [intros; unfold node; by rewrite N1|left]. split_and!; [done|unfold node; by rewrite N1|done]. }
    apply Ext2.fresh_buf_len in En. assert (0 <= e + BLOCK_SIZE) as He by (unfold e, BLOCK_SIZE; lia). pose proof (length_zero_bytes _ He) as Hz.
    apply vwp_bind, vwp_memcpy; [lia|lia|]. replace (splice 0 (zero_bytes (e + BLOCK_SIZE)) nd) with (zero_bytes (e + BLOCK_SIZE)).
    2:{ unfold splice. rewrite take_0, drop_ge, app_nil_r by lia. done. }
    destruct Hd as [(b & Eb & Hb)|[Eb Hb]]; rewrite Eb in *.
    + simpl in Ec. bool_prop. assert (size = e) as Es by (unfold size; rewrite (proj2 (Z.ltb_lt _ _)); lia).
      apply vwp_bind, (vwp_load_data _ b); [done|lia|lia|lia|].
      assert (slice 0 (n_size (node v i)) b = contents (node v i)) as -> by (unfold contents, slice; by rewrite Eb).
      assert (len (contents (node v i)) = n_size (node v i)) as Hlc by (unfold contents; rewrite Eb, length_take; lia).
      unfold BLOCK_SIZE in *. apply vwp_bind, vwp_memcpy; [lia|lia|]. apply vwp_ret, Hst; [done|by apply Hlive|done|rewrite length_splice by lia; lia|].
      rewrite Es. apply written_grown; unfold e in *; lia.
    + assert (size = e) as Es by (unfold size, e in *; case_match; bool_prop; lia). unfold BLOCK_SIZE in *.
      apply vwp_ret, Hst; [done|by apply Hlive|done|lia|]. rewrite Es. unfold contents. rewrite Eb. apply written_empty; unfold e; lia.
  - apply vwp_ret. unfold data_bytes. destruct Hd as [(b & Eb & Hb)|[Eb Hb]]; rewrite Eb in *; [|done]. simpl in Ec. bool_prop.
    assert (size = n_size (node v i)) as Es by (unfold size; rewrite (proj2 (Z.ltb_ge _ _)); lia).
    apply Hst; [done|done|done|lia|]. rewrite Es. unfold contents. rewrite Eb. apply written_inside; unfold e in *; lia.
Qed.

Lemma pread_regular v H i count offset :
  inv v H -> i ∈ H -> regular (node v i) -> 0 <= count -> 0 <= offset ->
  let w := window offset count (contents (node v i)) in vfs_pread (fd_of i) count offset v = Some ((s32 (len w), w), v).
Proof.
  intros P Hi (Et & Ed & Ep) Hc Ho w. pose proof (held_live _ _ _ P Hi) as Li. pose proof (live_bound v H i P Li) as Hb.
  enough (vwp (vfs_pread (fd_of i) count offset) (fun r v' => r = (s32 (len w), w) /\ v' = v) v) as E.
  { unfold vwp in E. destruct (vfs_pread _ _ _ v) as [[r v']|]; [|done]. by destruct E as [-> ->]. }
  unfold vfs_pread. destruct (fd_nonnull i) as (-> & _). apply vwp_bind, (vwp_node_of _ _ _ i eq_refl); [done|]. apply vwp_bind, vwp_get.
  rewrite Et, Ed, Ep. cbn [Z.eqb negb DEV_NULL DEV_ZERO DEV_RANDOM truthy]. destruct (file_data v H i P Et) as [Hs Hd].
  assert (len (contents (node v i)) = n_size (node v i)) as Hl.
  { unfold contents. destruct Hd as [(b & -> & Hb')|[-> ->]]; [rewrite length_take; lia|done]. }
  destruct (Z.leb_spec (n_size (node v i)) offset).
  { apply vwp_ret. assert (w = []) as -> by (unfold w, window; rewrite drop_ge by lia; apply take_nil). done. }
  assert (len w = clip count offset (n_size (node v i))) as Ew by (unfold w, window, clip; rewrite length_take, length_drop; lia).
  destruct Hd as [(b & Eb & Hb')|[_ E0]]; [|lia]. unfold has_data at 1. rewrite Eb. cbn [andb]. unfold truthy.
  destruct (Z.eqb_spec (clip count offset (n_size (node v i))) 0) as [E0|]; cbn [negb].
  { apply vwp_ret. rewrite E0. assert (w = []) as -> by (apply nil_length_inv; lia). done. }
  apply vwp_bind, (vwp_load_data _ b); unfold clip in *; [done|lia|lia|lia|]. apply vwp_ret. rewrite <- Ew. split; [|done].
  enough (slice offset (len w) b = w) as -> by done. rewrite Ew. unfold slice, w, window, contents. rewrite Eb, skipn_firstn_comm, take_take. f_equal. lia.
Qed.

(** C37: a write through a handle of a regular file, at any offset within reach, returns; if it
    returns -1 the kernel heap had no block for it and no node has changed; otherwise it returns
    the count, the file has the bytes written at the offset, zeros where there was a gap and its
    old bytes elsewhere, no other node changes, every later read delivers exactly the bytes the
    file then has in its range, and the pool of nodes is in order. *)
Theorem vfs_pwrite_pread_roundtrip v H i buf offset :
  inv v H -> i ∈ H -> regular (node v i) -> 0 <= offset -> offset + len buf + BLOCK_SIZE < 2 ^ 32 ->
  exists r v', vfs_pwrite (fd_of i) buf offset v = Some (r, v') /\ inv v' H /\ (forall j, j <> i -> node v' j = node v j) /\
    (r = -1 /\ node v' i = node v i /\ Ext2.fresh_buf (kallocs v) (offset + len buf + BLOCK_SIZE) = None \/
     r = s32 (len buf) /\ contents (node v' i) = written (contents (node v i)) offset buf /\
     forall o c, 0 <= o -> 0 <= c ->
       let w := window o c (written (contents (node v i)) offset buf) in vfs_pread (fd_of i) c o v' = Some ((s32 (len w), w), v')).
Proof.
  intros P Hi R Ho Hc. pose proof (vwp_pwrite v H i buf offset (fun r v' => inv v' H /\ pwrote v i buf offset r v') P Hi Ho Hc ltac:(done)) as E.
  unfold vwp in E. destruct (vfs_pwrite _ _ _ v) as [[r v']|]; [|done]. exists r, v'. split; [done|]. destruct E as (P' & Hj & E). destruct R as (Et & Ed & Ep).
  split; [done|]. split; [done|]. destruct E as [(-> & E1 & E2)|(-> & _ & [[? _]|(b & n & E1 & E2 & _)])]; [left; auto|done|]. right.
  split; [done|]. split; [done|]. intros o c Ho' Hc'. rewrite <- E2. apply (pread_regular v' H); [done|done| |done|done]. by rewrite E1.
Qed.
End File.
