(* ===== verification/VfsTree.v ===== *)
(** Creating, removing, renaming and copying: the directory tree and the pool of nodes stay in
    order, whatever the paths. *)
From Stdlib Require Import ZArith Lia String.
From S2P Require Import Prelude Packed Format Vfs VfsPool VfsSafe VfsOps.
From S2P Require Ext2.

Section Tree.
Context {F : Type} `{FO : FsOps F} {I : F -> Prop} `{!FsTotal F I} `{BH : Ext2.BlockHeap}.
Implicit Types (v : vfs F) (H : list nat).
Local Notation inv := (@inv F I).
Local Notation outside := (@outside F I).
Local Notation vwp_mount := (VfsSafe.vwp_mount (I := I)).
Local Notation vwp_kmalloc := (VfsSafe.vwp_kmalloc (I := I)).
Local Notation vwp_create_at := (VfsSafe.vwp_create_at (I := I)).
Local Notation vwp_proc_sync := (VfsSafe.vwp_proc_sync (I := I)).
Local Notation setup := (@VfsOps.setup F I).
Local Notation vwp_close := (VfsSafe.vwp_close (I := I)).
Local Notation vwp_new_child := (VfsSafe.vwp_new_child (I := I)).
Local Notation resolve_live := (VfsOps.resolve_live (I := I)).
Local Notation parent_bound := (VfsOps.parent_bound (I := I)).

(** * Calls of the mounted file system *)

Lemma vwp_fs {A} (f : F -> option (A * F)) v H (Q : A -> vfs F -> Prop) :
  inv v H -> (exists r s', f (mfs v) = Some (r, s') /\ I s') ->
  (forall r s, inv (with_mfs s v) H -> Q r (with_mfs s v)) -> vwp (mount_call f) Q v.
Proof. intros P (r & s & E & Hs) HQ. apply (vwp_mount f (fun _ => True) v H); [done|by exists r, s|]. intros. by apply HQ. Qed.

Lemma vwp_fs_write p d v H (Q : Z -> vfs F -> Prop) :
  inv v H -> len d < 2 ^ 32 -> (forall r s, inv (with_mfs s v) H -> Q r (with_mfs s v)) -> vwp (mount_call (fs_write_file p d)) Q v.
Proof. intros P Hd. apply (vwp_fs _ v H); [done|]. apply ft_write_file; [apply P|done]. Qed.

(** * Reading *)

Lemma vwp_readdir v H i (Q : option dirent -> vfs F -> Prop) :
  inv v H -> i ∈ H -> (forall r v', inv v' H -> Q r v') -> vwp (vfs_readdir (fd_of i)) Q v.
Proof.
  intros P Hi HQ. pose proof (held_live _ _ _ P Hi) as Li. unfold vfs_readdir. destruct (fd_nonnull i) as (-> & _).
  apply vwp_bind, (vwp_node_of _ _ _ i eq_refl); [by eapply live_bound|]. apply vwp_bind, vwp_get.
  destruct (negb _); [by apply vwp_ret, HQ|]. destruct (p_data _ _ _ (proj1 P) i) as (Hd & Hs & Hr).
  assert (inv (on_node i (set_readdir_idx (u32 (readdir_idx (node v i) + 1))) v) H) as P'.
  { apply inv_update; try done; [apply Li|]. apply data_ok_readdir; [by split|apply u32_range]. }
  destruct (mount_backed (node v i)).
  - destruct (n_data (node v i)) as [|b|l]; [by apply vwp_ret, HQ..|]. destruct (Z.leb_spec (n_size (node v i)) (readdir_idx (node v i))); [by apply vwp_ret, HQ|].
    destruct (lookup_lt_is_Some_2 l (Z.to_nat (readdir_idx (node v i)))) as [e ->]; [lia|]. apply vwp_bind, vwp_update, vwp_ret. by apply HQ.
  - destruct (children (node v i) !! _); [|by apply vwp_ret, HQ]. apply vwp_bind, vwp_update, vwp_ret. by apply HQ.
Qed.

Lemma vwp_fsize v H i (Q : Z -> vfs F -> Prop) :
  inv v H -> i ∈ H -> (forall r, Q r v) -> vwp (vfs_fsize (fd_of i)) Q v.
Proof.
  intros P Hi HQ. pose proof (held_live _ _ _ P Hi) as Li. unfold vfs_fsize. destruct (fd_nonnull i) as (-> & _).
  apply vwp_bind, (vwp_node_of _ _ _ i eq_refl); [by eapply live_bound|]. by apply vwp_bind, vwp_gets, vwp_ret.
Qed.

Lemma vwp_fdata v H i (Q : option (list Z) -> vfs F -> Prop) :
  inv v H -> i ∈ H -> (forall r, Q r v) -> vwp (vfs_fdata (fd_of i)) Q v.
Proof.
  intros P Hi HQ. pose proof (held_live _ _ _ P Hi) as Li. unfold vfs_fdata. destruct (fd_nonnull i) as (-> & _).
  apply vwp_bind, (vwp_node_of _ _ _ i eq_refl); [by eapply live_bound|]. by apply vwp_bind, vwp_gets, vwp_ret.
Qed.

Lemma vwp_fstat v H i (Q : Z * Z * Z -> vfs F -> Prop) :
  inv v H -> i ∈ H -> (forall r, Q r v) -> vwp (vfs_fstat (fd_of i)) Q v.
Proof.
  intros P Hi HQ. pose proof (held_live _ _ _ P Hi) as Li. unfold vfs_fstat. destruct (fd_nonnull i) as (-> & _).
  apply vwp_bind, (vwp_node_of _ _ _ i eq_refl); [by eapply live_bound|]. apply vwp_bind, vwp_gets, vwp_bind, (vwp_fsize v H i); [done|done|].
  intros. by apply vwp_ret.
Qed.

Lemma vwp_isdir path v H (Q : Z -> vfs F -> Prop) :
  inv v H -> (forall r v', inv v' H -> Q r v') -> vwp (vfs_isdir path) Q v.
Proof.
  intros P HQ. unfold vfs_isdir. apply vwp_bind, vwp_get. case_match; [by apply vwp_ret, HQ|].
  apply vwp_bind, (vwp_proc_sync v H); [done|]. intros v1 P1 _. apply vwp_bind, vwp_get. case_match; by apply vwp_ret, HQ.
Qed.

Lemma vwp_stat path v H (Q : Z * Z * Z -> vfs F -> Prop) :
  inv v H -> path <> [] -> len H < 2 ^ 31 -> (forall r v', inv v' H -> Q r v') -> vwp (vfs_stat path) Q v.
Proof.
  intros P Hp Hl HQ. unfold vfs_stat. apply vwp_bind, (vwp_isdir path v H); [done|]. intros d v1 P1. case_match; [by apply vwp_ret, HQ|].
  apply vwp_bind, (vwp_open _ _ v1 H); [done|done|done|]. split; [intros v2 P2; by apply vwp_ret, HQ|]. intros i v2 P2 L2.
  destruct (fd_nonnull i) as (_ & _ & ->). apply vwp_bind, (vwp_fsize v2 (i :: H)); [done|by left|]. intros sz.
  apply vwp_bind, (vwp_close v2 (i :: H) H); [done|done|]. intros r v3 P3. by apply vwp_ret, HQ.
Qed.

(** * Creating *)

Lemma fills_data b k : 0 <= k < 2 ^ 32 -> k <= len b -> fills (set_content (DBytes b) k) 0.
Proof. intros Hk Hb n. split_and!; [done|done|]. intros Ht Hd. by apply data_ok_bytes. Qed.

Lemma vwp_create_from_mem path data size v H (Q : Z -> vfs F -> Prop) :
  inv v H -> 0 <= size < 2 ^ 32 -> size <= len data -> (forall r v', inv v' H -> Q r v') -> vwp (vfs_create_from_mem path data size) Q v.
Proof.
  intros P Hs Hd HQ. unfold vfs_create_from_mem.
  apply vwp_bind, (vwp_create_at _ _ _ _ v H); [done|by apply fills_data|intros; by apply vwp_ret, HQ|intros; by apply vwp_ret, HQ].
Qed.

Lemma vwp_mkdir path v H (Q : Z -> vfs F -> Prop) :
  inv v H -> (forall r v', inv v' H -> Q r v') -> vwp (vfs_mkdir path) Q v.
Proof.
  intros P HQ. unfold vfs_mkdir. apply vwp_bind, vwp_get.
  assert (vwp (let* i := create_at path 1 true id in match i with Some _ => ret 0 | None => ret (-1) end) Q v) as Hc.
  { apply vwp_bind, (vwp_create_at _ _ _ _ v H); [done|apply fills_id|intros; by apply vwp_ret, HQ|intros; by apply vwp_ret, HQ]. }
  destruct (vfs_find_mount v path) as [[[mi [ty mp []]] sub]|]; [|done..].
  apply (vwp_fs _ v H); [done| |intros; by apply HQ]. apply ft_mkdir, P.
Qed.

Lemma vwp_touch path v H (Q : Z -> vfs F -> Prop) :
  inv v H -> (forall r v', inv v' H -> Q r v') -> vwp (vfs_touch path) Q v.
Proof.
  intros P HQ. unfold vfs_touch. apply vwp_bind, vwp_get.
  assert (vwp (match resolve_path v path with
      | Some _ => ret 0
      | None => let* i := create_at path 0 false id in match i with Some _ => ret 0 | None => ret (-1) end
      end) Q v) as Hc.
  { case_match; [by apply vwp_ret, HQ|].
    apply vwp_bind, (vwp_create_at _ _ _ _ v H); [done|apply fills_id|intros; by apply vwp_ret, HQ|intros; by apply vwp_ret, HQ]. }
  destruct (vfs_find_mount v path) as [[[mi [ty mp []]] sub]|]; [|done..].
  apply vwp_bind, (vwp_fs_write _ _ v H); [done|simpl; lia|intros]. by apply vwp_ret, HQ.
Qed.

Lemma vwp_chdir path v H (Q : Z -> vfs F -> Prop) :
  inv v H -> (forall r v', inv v' H -> Q r v') -> vwp (vfs_chdir path) Q v.
Proof.
  intros P HQ. assert (forall v1 p d, inv v1 H -> resolve_path v1 p = Some d -> (d < node_count v1)%nat) as Hres.
  { intros v1 p d P1 E. destruct p as [|c p]; [|by apply (resolve_live v1 H (c :: p))]. cbn in E. injection E as <-. apply P1. }
  assert (forall v1 d, inv v1 H -> (d < node_count v1)%nat -> vwp (modify (with_cwd d) ;; ret 0) Q v1) as Hset.
  { intros v1 d [P1 [Hm _]] Hd. apply vwp_bind, vwp_modify, vwp_ret, HQ. split; [by apply (pool_ok_ext [] v1)|by split]. }
  unfold vfs_chdir. apply vwp_bind, vwp_get. case_match.
  - apply vwp_bind. apply (vwp_mono _ (fun r v' => inv v' H /\ forall d, r = Some d -> (d < node_count v')%nat)).
    + case_match eqn:E; [apply vwp_ret; split; [done|]; intros d [= <-]; by eapply Hres|].
      apply (vwp_create_at _ _ _ _ v H); [done|apply fills_id|by intros|]. intros i v' P' [L' _] _. split; [done|]. by intros d [= <-].
    + intros [d|] v' [P' Hd]; [by apply Hset; [|apply Hd]|by apply vwp_ret, HQ].
  - unfold vfs_path_node. destruct (resolve_path v path) as [d|] eqn:E; [|by apply vwp_ret, HQ].
    destruct (n_type (node v d) =? 1); [|by apply vwp_ret, HQ]. apply Hset; [done|]. by eapply Hres.
Qed.

(** * Mounting *)

Lemma vwp_ensure_mount_stub mp v H (Q : unit -> vfs F -> Prop) :
  inv v H -> (forall v', inv v' H -> Q tt v') -> vwp (ensure_mount_stub mp) Q v.
Proof.
  intros P HQ. unfold ensure_mount_stub. apply vwp_bind, vwp_get. destruct (resolve_path v mp); [by apply vwp_ret, HQ|].
  destruct (resolve_parent v mp) as [[parent name]|] eqn:Ep; [|by apply vwp_ret, HQ]. destruct (negb _); [by apply vwp_ret, HQ|].
  destruct (Nat.leb _ _); [by apply vwp_ret, HQ|]. destruct (find_child _ _ _); [by apply vwp_ret, HQ|].
  apply vwp_bind, (vwp_new_child _ _ _ _ v H); [done|by eapply parent_bound|apply fills_id|intros; by apply vwp_ret, HQ|intros; by apply vwp_ret, HQ].
Qed.

Lemma vwp_vfs_mount mp ty v H (Q : Z -> vfs F -> Prop) :
  inv v H -> (forall r v', inv v' H -> Q r v') -> vwp (vfs_mount mp ty) Q v.
Proof.
  intros P HQ. unfold vfs_mount. apply vwp_bind, vwp_get. destruct (Nat.leb _ _); [by apply vwp_ret, HQ|].
  apply vwp_bind, vwp_modify, vwp_bind, (vwp_ensure_mount_stub _ _ H).
  - destruct P as [P O]. split; [by apply (pool_ok_ext [] v)|done].
  - intros. by apply vwp_ret, HQ.
Qed.

(** * Writing a whole file *)

(** The kernel heap has a block of [n] bytes whenever it is asked. *)
Definition plenty (n : Z) : Prop := forall k, Ext2.fresh_buf k n <> None.

Lemma vwp_write_file path buf v H (Q : Z -> vfs F -> Prop) :
  inv v H -> path <> [] -> len buf < 2 ^ 32 -> plenty (len buf) -> (forall r v', inv v' H -> Q r v') -> vwp (vfs_write_file path buf) Q v.
Proof.
  intros P Hp Hl Hb HQ. unfold vfs_write_file. apply vwp_bind, vwp_get.
  match goal with |- vwp (match _ with Some _ => _ | None => ?m end) Q v => assert (vwp m Q v) as Hc end.
  2:{ destruct (vfs_find_mount v path) as [[[mi [ty mp []]] sub]|]; [|done..]. by apply (vwp_fs_write _ _ v H); [| |intros; apply HQ]. }
  apply vwp_bind. apply (vwp_mono _ (fun r v' => inv v' H /\ forall i, r = Some i -> live v' i)).
  { destruct (resolve_path v path) as [i|] eqn:E; [apply vwp_ret; split; [done|]; intros j [= <-]; by apply (resolve_live v H path)|].
    apply (vwp_create_at _ _ _ _ v H); [done|apply fills_id|by intros|]. intros i v' P' L' _. split; [done|]. by intros j [= <-]. }
  intros [i|] v1 [P1 L1]; [|by apply vwp_ret, HQ]. specialize (L1 i eq_refl). apply vwp_bind, vwp_gets.
  destruct (Z.eqb_spec (n_type (node v1 i)) 0) as [Et|]; cbn [negb]; [|by apply vwp_ret, HQ].
  apply vwp_bind, (vwp_kmalloc_buf (I := I) _ v1 H); [done|]. intros v2 P2 N1 N2 N3 _ _. specialize (Hb (kallocs v1)).
  destruct (Ext2.fresh_buf _ _) as [d|] eqn:Ed; [|done]. apply Ext2.fresh_buf_len in Ed. apply vwp_bind, vwp_memcpy; [lia|lia|].
  assert (node v2 i = node v1 i) as En by (unfold node; by rewrite N1).
  apply vwp_bind, vwp_update, vwp_ret, HQ, inv_update; try done; [rewrite N2; apply L1|]. rewrite En.
  apply data_ok_bytes; [apply (p_data _ _ _ (proj1 P1))|done|lia|]. rewrite length_splice by lia. lia.
Qed.

(** * Removing *)

(** The entry [k] of directory [d] is taken out. *)
Lemma ok_take_out v H d k c :
  pool_ok [] v H -> (d < node_count v)%nat -> children (node v d) !! k = Some c ->
  let w := on_node d (fun n => set_children (remove_at k (children n)) n) v in pool_ok [] w H /\ c ∉ edges w.
Proof.
  intros P Hd Hk w. destruct (ok_change [] v H d (fun n => set_children (remove_at k (children n)) n) [c] P Hd eq_refl) as [P' E].
  - apply (p_data _ _ _ P d).
  - cbn [children set_children]. unfold remove_at. rewrite <- (take_drop_middle _ k c Hk) at 1. by rewrite <- Permutation_middle.
  - done.
  - split; [done|]. pose proof (p_edges _ _ _ P) as Hn. rewrite E in Hn. simpl in Hn. by apply list.NoDup_cons in Hn as [Hn _].
Qed.

(** What [path] names is not the directory /proc. *)
Definition spares_proc v (path : list Z) : Prop :=
  forall parent name c, resolve_parent v path = Some (parent, name) -> find_child v parent name = Some c -> proc_node v <> Some c.

Lemma first_index_find {A} (f : A -> bool) l k : first_index f l = Some k -> exists x, l !! k = Some x /\ find f l = Some x.
Proof.
  revert k. induction l as [|x l IH]; intros k; simpl; [done|]. destruct (f x) eqn:E; [intros [= <-]; by exists x|].
  destruct (first_index f l) as [j|]; [|done]. intros [= <-]. by apply IH.
Qed.

(** The path is on a mounted file system. *)
Definition mounted v (path : list Z) : Prop := exists mi ty mp sub, vfs_find_mount v path = Some (mi, MountEntry ty mp true, sub).

(** What a reader of a file sees of its node. *)
Definition file_view (n : vfs_node) := (n_type n, n_data n, n_size n, dev_type n, proc_type n).

(** The files behind handles are as they were. *)
Definition keeps_held H v v' : Prop := forall i, i ∈ H -> file_view (node v' i) = file_view (node v i).

Lemma vwp_release_view v H i (Q : unit -> vfs F -> Prop) :
  pool_ok [] v H -> leaving [] v i -> (forall v', pool_ok [] v' H -> quiet i v v' -> keeps_held H v v' -> Q tt v') -> vwp (release_node i) Q v.
Proof.
  intros P L HQ. destruct (0 <? open_refs (node v i)) eqn:Er.
  - pose proof L as (Hi & _ & _). unfold release_node. apply vwp_bind, vwp_gets. rewrite Er. apply vwp_update, HQ; [by apply ok_orphan|by apply (quiet_update [] v H); [|lia|..]|].
    intros j _. rewrite node_on_node by (apply P || apply (in_bounds _ _ _ _ P); lia). by case_decide as E; [subst j|].
  - pose proof (open_refs_held _ _ _ _ P Er) as Hn. apply (vwp_release [] v H i); [done|done|]. intros v' P' Q'. apply HQ; [done|done|].
    intros j Hj. rewrite (q_other _ _ _ Q'); [done|]. by intros ->.
Qed.

Lemma vwp_unlink_view path v H (Q : Z -> vfs F -> Prop) :
  inv v H -> mounted v path \/ spares_proc v path -> (forall r v', inv v' H -> keeps_held H v v' -> Q r v') -> vwp (vfs_unlink path) Q v.
Proof.
  intros P Hs HQ. assert (forall r, Q r v) as HN by (intros r; by apply HQ). unfold vfs_unlink. apply vwp_bind, vwp_get.
  match goal with |- vwp (match _ with Some _ => _ | None => ?m end) Q v => assert (spares_proc v path -> vwp m Q v) as Hc end.
  2:{ destruct (vfs_find_mount v path) as [[[mi [ty mp []]] sub]|] eqn:Em.
      - apply (vwp_fs _ v H); [done|apply ft_unlink, P|intros; by apply HQ].
      - apply Hc. destruct Hs as [(? & ? & ? & ? & E)|]; [by rewrite Em in E|done].
      - apply Hc. destruct Hs as [(? & ? & ? & ? & E)|]; [by rewrite Em in E|done]. }
  clear Hs. intros Hs. destruct (resolve_parent v path) as [[parent name]|] eqn:Ep; [|by apply vwp_ret]. destruct (negb _); [by apply vwp_ret|].
  destruct (first_index _ _) as [k|] eqn:Ek; [|by apply vwp_ret]. apply first_index_find in Ek as (c & Hk & Hf).
  rewrite nth_lookup, Hk. cbn [default]. destruct (_ && _); [by apply vwp_ret|].
  pose proof (Hs parent name c Ep Hf) as Hpn. destruct P as [P O]. pose proof (parent_bound v H path parent name ltac:(by split) Ep) as Hpb.
  pose proof (p_range _ _ _ P c (edges_elem _ _ _ (list_elem_of_lookup_2 _ _ _ Hk))) as Hc.
  destruct (ok_take_out v H parent k c P Hpb Hk) as [P1 He].
  assert (forall i, file_view (node (on_node parent (fun n => set_children (remove_at k (children n)) n) v) i) = file_view (node v i)) as V1.
  { intros i. rewrite node_on_node by (apply P || by eapply in_bounds). by case_decide as E; [subst i|]. }
  set (v1 := on_node parent _ v) in *.
  apply vwp_bind, vwp_update, vwp_bind, vwp_update. destruct (ok_update [] v1 H c (set_parent None) P1) as [P2 E2]; try done; [apply Hc|apply (p_data _ _ _ P1)|].
  apply vwp_bind, (vwp_release_view _ H c _ P2); [split; [done|]; split; [by rewrite E2|done]|]. intros v3 P3 Q3 K3. apply vwp_ret, HQ.
  - split; [done|]. apply (outside_env v); [done|by rewrite (q_env _ _ _ Q3)|by rewrite (q_count _ _ _ Q3)].
  - intros i Hi. rewrite (K3 i Hi), <- V1. rewrite node_on_node by (apply P1 || by eapply (in_bounds _ _ _ _ P1), Hc). by case_decide as E; [subst i|].
Qed.

Lemma vwp_unlink path v H (Q : Z -> vfs F -> Prop) :
  inv v H -> mounted v path \/ spares_proc v path -> (forall r v', inv v' H -> Q r v') -> vwp (vfs_unlink path) Q v.
Proof. intros P Hs HQ. apply (vwp_unlink_view path v H); [done|done|]. intros r v' P' _. by apply HQ. Qed.

(** * Copying *)

(** Only the mounted file system and the heap have changed. *)
Definition same_tree v v' : Prop :=
  nodes v' = nodes v /\ node_count v' = node_count v /\ free_nodes v' = free_nodes v /\ current_dir v' = current_dir v /\
  proc_node v' = proc_node v /\ mount_table v' = mount_table v.

Lemma same_tree_node v v' i : same_tree v v' -> node v' i = node v i.
Proof. intros (E & _). unfold node. by rewrite E. Qed.
Lemma same_tree_mount v v' p : same_tree v v' -> vfs_find_mount v' p = vfs_find_mount v p.
Proof. intros (_ & _ & _ & _ & _ & E). unfold vfs_find_mount. by rewrite E. Qed.

Lemma vwp_kmalloc_eq n v H (Q : option (list Z) -> vfs F -> Prop) :
  inv v H -> (inv (with_kallocs (S (kallocs v)) v) H -> Q (Ext2.fresh_buf (kallocs v) n) (with_kallocs (S (kallocs v)) v)) -> vwp (kmalloc n) Q v.
Proof. intros [P Hm] HQ. unfold vwp, kmalloc. apply HQ. split; [by apply (pool_ok_ext [] v)|done]. Qed.

Lemma vwp_cp_load src v H (Q : option (list Z) -> vfs F -> Prop) :
  inv v H -> (forall r v', inv v' H -> same_tree v v' -> (forall d, r = Some d -> len d < 2 ^ 32) -> Q r v') -> vwp (cp_load src) Q v.
Proof.
  intros P HQ. assert (forall v', inv v' H -> same_tree v v' -> Q None v') as HN by (intros v' P' S'; by apply HQ).
  assert (same_tree v v) as S0 by done. unfold cp_load. apply vwp_bind, vwp_get.
  match goal with |- vwp (match _ with Some _ => _ | None => ?m end) Q v => assert (vwp m Q v) as Hc end.
  - destruct (resolve_path v src) as [i|]; [|by apply vwp_ret, HN].
    destruct (Z.eqb_spec (n_type (node v i)) 0) as [Et|]; cbn [negb]; [|by apply vwp_ret, HN]. destruct (file_data v H i P Et) as [Hs Hd].
    set (n := n_size (node v i)) in *. assert (0 <= (if truthy n then n else 1) < 2 ^ 32) as Hn by (case_match; lia).
    apply vwp_bind, (vwp_kmalloc_eq _ v H); [done|]. intros P1. destruct (Ext2.fresh_buf _ _) as [b|] eqn:Eb; [|by apply vwp_ret, HN].
    apply Ext2.fresh_buf_len in Eb. assert (forall b' : list Z, len b' = len b -> len (take (Z.to_nat n) b') < 2 ^ 32) as Hl by (intros b' E; rewrite length_take; lia).
    destruct (truthy n && has_data (node v i)) eqn:Ec.
    + apply andb_prop in Ec as [Et' Eh]. rewrite Et' in *. destruct Hd as [(d & Ed & Hd)|[Ed _]]; unfold has_data in Eh; rewrite Ed in Eh; [|done].
      apply vwp_bind, (vwp_load_data _ d); [done|lia|lia|lia|]. assert (len (slice 0 n d) = n) as Hsl by (apply length_slice; lia).
      apply vwp_bind, vwp_memcpy; [lia|lia|]. apply vwp_ret, HQ; [done|done|]. intros x [= <-]. apply Hl. rewrite length_splice; lia.
    + apply vwp_ret, HQ; [done|done|]. intros x [= <-]. by apply Hl.
  - destruct (vfs_find_mount v src) as [[[mi [ty mp []]] sub]|]; [|done..].
    apply vwp_bind, (vwp_fs _ v H); [done|destruct (ft_readdir (or_root sub) 1 (mfs v)) as (r & s & E & Hs & _); [apply P|done|by exists r, s]|]. intros probe s1 P1.
    destruct probe; [by apply vwp_ret, HN|]. apply vwp_bind, (vwp_fs _ _ H); [done|apply ft_resolve, P1|]. intros i s2 P2. destruct (i =? 0); [by apply vwp_ret, HN|].
    apply vwp_bind, (vwp_mount _ (fun r => 0 <= r < 2 ^ 32) _ H); [done|apply ft_get_size, P2|]. intros n s3 Hn P3.
    apply vwp_bind, (vwp_kmalloc_eq _ _ H); [done|]. intros P4. destruct (Ext2.fresh_buf _ _); [|by apply vwp_ret, HN].
    destruct (truthy n); [|apply vwp_ret, HQ; [done|done|]; intros d [= <-]; simpl; lia].
    apply (vwp_mount _ (fun r => forall d, r = Some d -> len d <= n) _ H); [done|apply ft_read_file; [apply P4|lia]|].
    intros r s5 Hr P5. apply HQ; [done|done|]. intros d Ed. specialize (Hr d Ed). lia.
Qed.

Lemma vwp_append v H d c (Q : Z -> vfs F -> Prop) :
  inv v H -> (d < node_count v)%nat -> listed v c -> c ∉ edges v -> proc_node v <> Some c ->
  (inv (on_node d (fun n => set_children (children n ++ [c]) n) v) H -> Q 0 (on_node d (fun n => set_children (children n ++ [c]) n) v)) ->
  Q (-1) v -> vwp (vfs_append_child d c) Q v.
Proof.
  intros [P O] Hd Hc He Hp HQ HN. unfold vfs_append_child. apply vwp_bind, vwp_gets. destruct (Nat.leb _ _); [by apply vwp_ret|].
  apply vwp_bind, vwp_update, vwp_ret, HQ. split; [|done]. by apply ok_append.
Qed.

Lemma on_node_again i f g k v :
  (i < length (nodes v))%nat -> on_node i g (with_kallocs k (on_node i f v)) = with_kallocs k (on_node i (fun n => g (f n)) v).
Proof.
  intros Hi. unfold on_node, with_nodes, with_kallocs, node. cbn. f_equal. rewrite list_insert_insert_eq. f_equal. f_equal.
  rewrite nth_lookup. by rewrite list_lookup_insert_eq.
Qed.

Lemma vwp_cp src dst v H (Q : Z -> vfs F -> Prop) :
  inv v H -> (forall r v', inv v' H -> mount_table v' = mount_table v ->
    (forall mi ty mp sub, vfs_find_mount v dst = Some (mi, MountEntry ty mp true, sub) -> same_tree v v') -> Q r v') -> vwp (vfs_cp src dst) Q v.
Proof.
  intros P HQ. unfold vfs_cp. apply vwp_bind, (vwp_cp_load src v H); [done|]. intros [sbuf|] v1 P1 S1 Hl.
  2:{ apply vwp_ret, HQ; [done|apply S1|done]. }
  specialize (Hl sbuf eq_refl). apply vwp_bind, vwp_get. rewrite (same_tree_mount _ _ _ S1).
  match goal with |- vwp (match _ with Some _ => _ | None => ?m end) Q v1 => 
    assert ((forall mi ty mp sub, vfs_find_mount v dst <> Some (mi, MountEntry ty mp true, sub)) -> vwp m Q v1) as Hc end.
  2:{ destruct (vfs_find_mount v dst) as [[[mi [ty mp []]] sub]|]; [|by apply Hc..].
      apply vwp_bind, (vwp_fs_write _ _ v1 H); [done|done|]. intros r s P2. apply vwp_ret, HQ; [done|apply S1|by intros]. }
  intros Hno. assert (forall r v', inv v' H -> mount_table v' = mount_table v1 -> Q r v') as HQ'.
  { intros r v' P' E'. apply HQ; [done|rewrite E'; apply S1|]. intros mi ty mp sub E. by apply Hno in E. }
  destruct (resolve_parent v1 dst) as [[parent name]|] eqn:Ep; [|by apply vwp_ret, HQ']. destruct (negb _ || _); [by apply vwp_ret, HQ'|].
  pose proof (parent_bound v1 H dst parent name P1 Ep) as Hpb.
  apply vwp_bind, (vwp_alloc v1 H); [apply P1|by apply vwp_ret, HQ'|]. intros i v2 P2 T Hsame Hcount Henv. apply vwp_bind, vwp_update.
  pose proof (setup_taken v1 v2 H i P1 P2 T Henv Hcount) as S2. pose proof (in_bounds _ _ _ i P2 ltac:(apply T)) as Hib.
  set (g := fun n => set_parent (Some parent) (set_type 0 (set_name (take (MAX_NAME - 1) name) n))).
  change (fun n => set_content DNull (len sbuf) _) with (fun n => set_content DNull (len sbuf) (g n)).
  set (v3 := on_node i _ v2).
  assert (forall k d n, n <= match d with DBytes b => len b | _ => 0 end -> 0 <= n < 2 ^ 32 -> (d = DNull \/ exists b, d = DBytes b) ->
    vwp (let* r := vfs_append_child parent i in if r =? 0 then ret 0 else free_node i ;; ret (-1)) Q (with_kallocs k (on_node i (fun n' => set_content d n (g n')) v2))) as Hend.
  { intros k d n Hd Hn Hcase. destruct (setup_update v2 H i (fun n' => set_content d n (g n')) S2) as [S4 E4]; try done.
    { rewrite (t_node _ _ _ T). destruct Hcase as [->|[b ->]]; split; simpl in *; [lia|lia|split; [done|lia]|lia]. }
    set (v4 := on_node i (fun n' => set_content d n (g n')) v2) in *. rewrite (t_node _ _ _ T) in E4.
    assert (setup (with_kallocs k v4) H i) as S5.
    { apply (setup_env v4); [exact S4| |done..].
      destruct (s_inv _ _ _ S4) as [P4 O4]; split; [by apply (pool_ok_ext [] v4)|done]. }
    set (v5 := with_kallocs k v4) in *. destruct S5 as [P5 R5 F5 E5 H5 N5 C5]. assert (node v5 i = node v4 i) as En5 by done.
    assert (mount_table v5 = mount_table v1) as Em by (exact (f_equal (fun e => e.1.1.2) Henv)).
    apply vwp_bind, (vwp_append v5 H); [done| |split_and!; [apply R5|apply R5|done|rewrite En5, E4; done|rewrite En5, E4; done]|done|done| |].
    - change (node_count v5) with (node_count v2). lia.
    - intros P6. by apply vwp_ret, HQ'.
    - apply vwp_bind, (vwp_free [] _ H i _ (proj1 P5)); [split; [done|split; done]|done|]. intros v6 P6 Q6. apply vwp_ret, HQ'.
      + split; [done|]. apply (outside_env v5); [apply P5|apply (q_env _ _ _ Q6)|by rewrite (q_count _ _ _ Q6)].
      + rewrite <- Em. exact (f_equal (fun e => e.1.1.2) (q_env _ _ _ Q6)). }
  apply vwp_bind. unfold truthy. destruct (Z.eqb_spec (len sbuf) 0) as [E0|]; cbn [negb].
  { apply vwp_ret. change v3 with (with_kallocs (kallocs v2) v3). rewrite E0 in *. apply Hend; [lia|lia|by left]. }
  apply vwp_bind. unfold vwp at 1, kmalloc. destruct (Ext2.fresh_buf _ _) as [b|] eqn:Eb.
  - apply Ext2.fresh_buf_len in Eb. change (match memcpy _ _ _ _ with Some _ => _ | None => _ end) with
      (vwp (let* d := memcpy 0 sbuf b in update i (set_content (DBytes d) (len sbuf))) (fun _ => vwp (let* r := vfs_append_child parent i in if r =? 0 then ret 0 else free_node i ;; ret (-1)) Q)
        (with_kallocs (S (kallocs v3)) v3)).
    apply vwp_bind, vwp_memcpy; [lia|lia|]. apply vwp_update. unfold v3. rewrite on_node_again by (rewrite (p_len _ _ _ P2); done).
    apply Hend; [rewrite length_splice; lia|lia|by right; eexists].
  - apply vwp_update. unfold v3. rewrite on_node_again by (rewrite (p_len _ _ _ P2); done). apply Hend; [lia|lia|by left].
Qed.

(** * Renaming *)

Lemma same_tree_find v v' d nm : same_tree v v' -> find_child v' d nm = find_child v d nm.
Proof. intros (E & _). unfold find_child, node. by rewrite E. Qed.

Lemma same_tree_parent v v' p : same_tree v v' -> resolve_parent v' p = resolve_parent v p.
Proof.
  intros S. assert (forall fuel d q r pr, parent_loop fuel v' d q r pr = parent_loop fuel v d q r pr) as Hp.
  { induction fuel as [|fuel IH]; intros d q r pr; cbn [parent_loop]; [done|]. destruct (path_token q) as [[t q']|]; [|done].
    rewrite (same_tree_find v v') by done. destruct (find_child v d t); [|done]. rewrite (same_tree_node v v') by done. case_match; [apply IH|done]. }
  unfold resolve_parent, walk_start. destruct S as (_ & _ & _ & -> & _). destruct (take 255 p) as [|c l]; [by destruct p; rewrite ?Hp|].
  destruct (c =? SLASH), p; by rewrite ?Hp.
Qed.

Lemma same_tree_spares v v' p : same_tree v v' -> spares_proc v p -> spares_proc v' p.
Proof.
  intros S Hs parent name c. rewrite (same_tree_parent v v'), (same_tree_find v v') by done. destruct S as (_ & _ & _ & _ & -> & _). apply Hs.
Qed.

(** Every mount entry has its operations. *)
Definition mounts_served v : Prop := Forall (fun me => me_ops me = true) (mount_table v).

Lemma find_mount_mounted v path : mounts_served v -> is_Some (vfs_find_mount v path) -> mounted v path.
Proof.
  intros Hm [[[mi me] sub] E]. exists mi, (me_type me), (mount_point me), sub. rewrite E. do 3 f_equal. enough (me_ops me = true) by (destruct me; simpl in *; congruence).
  unfold mounts_served, vfs_find_mount in *. revert E. generalize 0%nat as i. induction Hm as [|m l Hm _ IH]; intros i; cbn [find_mount]; [done|].
  destruct (starts_with _ _) as [[|c q]|]; [by intros [= _ <- _]| |apply IH]. destruct (c =? SLASH); [by intros [= _ <- _]|apply IH].
Qed.

(** Two directories are changed in either order. *)
Lemma on_node_comm i j f g v : i <> j -> on_node i f (on_node j g v) = on_node j g (on_node i f v).
Proof.
  intros Hij. unfold on_node, with_nodes, node. cbn. f_equal. rewrite list_insert_insert_ne by done. rewrite !nth_lookup. by rewrite !list_lookup_insert_ne by done.
Qed.

(** Entry [c] moves from directory [d] to directory [e]. *)
Lemma inv_move v H d e c :
  inv v H -> (e < node_count v)%nat -> d <> e -> c ∈ children (node v d) -> proc_node v <> Some c ->
  inv (on_node d (fun n => match first_index (Nat.eqb c) (children n) with Some k => set_children (remove_at k (children n)) n | None => n end)
         (on_node e (fun n => set_children (children n ++ [c]) n) v)) H.
Proof.
  intros [P O] He Hde Hc Hp. rewrite on_node_comm by done. pose proof (edges_elem _ _ _ Hc) as Hce.
  destruct (Nat.lt_ge_cases d (node_count v)) as [Hd|Hge].
  2:{ rewrite (p_unused _ _ _ P) in Hc by done. by apply elem_of_nil in Hc. }
  destruct (first_index (Nat.eqb c) (children (node v d))) as [k|] eqn:Ek.
  2:{ exfalso. apply list_elem_of_lookup in Hc as [k Hk]. apply (proj1 (first_index_None _ _) Ek) in Hk. by rewrite Nat.eqb_refl in Hk. }
  pose proof Ek as Ek'. apply first_index_Some in Ek' as [(x & Hk & Hx) _]. apply Nat.eqb_eq in Hx as <-.
  destruct (ok_take_out v H d k c P Hd Hk) as [P1 Hn].
  assert (on_node d (fun n => match first_index (Nat.eqb c) (children n) with Some k => set_children (remove_at k (children n)) n | None => n end) v
    = on_node d (fun n => set_children (remove_at k (children n)) n) v) as ->.
  { unfold on_node. by rewrite Ek. }
  split; [|done]. apply ok_append; [done|done| |done|done].
  destruct (p_tree _ _ _ P c Hce ltac:(apply not_elem_of_nil)) as (L1 & L2 & L3 & L4). split; [done|]. split; [done|].
  rewrite node_on_node by (apply P || by eapply in_bounds). case_decide as E; [by subst c|done].
Qed.

Lemma vwp_rename old new v H (Q : unit -> vfs F -> Prop) :
  inv v H -> mounts_served v -> spares_proc v old -> (forall v', inv v' H -> Q tt v') -> vwp (vfs_rename old new) Q v.
Proof.
  intros P Hm Hs HQ. unfold vfs_rename. apply vwp_bind, vwp_get. destruct (_ || _) eqn:Ec.
  - apply vwp_bind, (vwp_cp old new v H); [done|]. intros r v1 P1 E1 S1. case_match; [|by apply vwp_ret, HQ].
    apply vwp_bind, (vwp_unlink old v1 H); [done| |intros; by apply vwp_ret, HQ].
    apply orb_prop in Ec as [Ec|Ec]; apply bool_decide_eq_true in Ec; apply (find_mount_mounted v _ Hm) in Ec as (mi & ty & mp & sub & E).
    + left. exists mi, ty, mp, sub. rewrite <- E. unfold vfs_find_mount. by rewrite E1.
    + right. apply (same_tree_spares v); [by eapply S1|done].
  - destruct (resolve_parent v old) as [[parent name]|] eqn:Ep; [|by apply vwp_ret, HQ].
    destruct (find_child v parent name) as [c|] eqn:Ef; [|by apply vwp_ret, HQ]. pose proof (Hs _ _ _ Ep Ef) as Hpn.
    apply find_child_in in Ef as [Hin _]. destruct (edge_live v H c P (edges_elem _ _ _ Hin)) as [Hc _].
    assert (forall v1 f, inv v1 H -> node_count v1 = node_count v -> (forall n, book (f n) = book n /\ (n_data (f n), n_size (f n), n_type (f n), readdir_idx (f n)) = (n_data n, n_size n, n_type n, readdir_idx n) /\
      children (f n) = children n /\ proc_type (f n) = proc_type n) -> inv (on_node c f v1) H) as Hu.
    { intros v1 f P1 En Hf. destruct (Hf (node v1 c)) as (F1 & F2 & F3 & F4). injection F2 as D1 D2 D3 D4. apply inv_update; try done; [by rewrite En|].
      unfold data_ok. rewrite D1, D2, D3, D4. apply (p_data _ _ _ (proj1 P1)). }
    destruct (resolve_parent v new) as [[np nname]|] eqn:En; [|by apply vwp_update, HQ, Hu].
    apply vwp_bind, vwp_update. set (v1 := on_node c _ v). assert (inv v1 H) as P1 by (by apply Hu).
    destruct (Nat.eqb_spec np parent) as [|Hne]; [by apply vwp_ret, HQ|]. pose proof (parent_bound v H new np nname P En) as Hnp.
    assert (forall j, children (node v1 j) = children (node v j)) as Hch.
    { intros j. unfold v1. rewrite node_on_node by (apply P || by eapply in_bounds; [apply P|]). by case_decide as E; [subst j|]. }
    unfold vfs_append_child. apply vwp_bind, vwp_bind, vwp_gets. destruct (Nat.leb _ _); [by apply vwp_ret, vwp_ret, HQ|].
    apply vwp_bind, vwp_update, vwp_ret. cbn [Z.eqb negb]. apply vwp_bind, vwp_update, vwp_update, HQ, Hu; [|done|done].
    apply (inv_move v1 H parent np c P1); [done|done|by rewrite Hch|done].
Qed.
End Tree.
