(* ===== verification/VfsRun.v ===== *)
(** Any sequence of calls of the virtual file system: every call returns, and a handle leads to
    the same node until it is closed. *)
From Stdlib Require Import ZArith Lia String.
From S2P Require Import Prelude Packed Format Vfs VfsPool VfsSafe VfsOps VfsFile VfsTree.
From S2P Require Ext2.

(** * Calls *)

(** The calls of the virtual file system; [h] is the node a handle leads to. *)
Inductive call :=
  | COpen (p : list Z) (flags : Z) | CRead (h : nat) (n : Z) | CWrite (h : nat) (b : list Z)
  | CPread (h : nat) (n o : Z) | CPwrite (h : nat) (b : list Z) (o : Z) | CDup (h : nat) | CClose (h : nat)
  | CReaddir (h : nat) | CFsize (h : nat) | CFdata (h : nat) | CFstat (h : nat)
  | CIsdir (p : list Z) | CStat (p : list Z) | CCreate (p d : list Z) (size : Z) | CMkdir (p : list Z)
  | CUnlink (p : list Z) | CCp (p q : list Z) | CRename (p q : list Z) | CChdir (p : list Z)
  | CTouch (p : list Z) | CWriteFile (p b : list Z) | CMount (p : list Z) (ty : Z).

Section Run.
Context {F : Type} `{FO : FsOps F} {I : F -> Prop} `{!FsTotal F I} `{BH : Ext2.BlockHeap}.
Implicit Types (v : vfs F) (H : list nat).
Local Notation inv := (@inv F I).

Definition exec (c : call) : M F Z :=
  match c with
  | COpen p f => vfs_open p f
  | CRead h n => let* r := vfs_read (fd_of h) n in ret (fst r)
  | CWrite h b => vfs_write (fd_of h) b
  | CPread h n o => let* r := vfs_pread (fd_of h) n o in ret (fst r)
  | CPwrite h b o => vfs_pwrite (fd_of h) b o
  | CDup h => let* _ := vfs_dup (fd_of h) in ret 0
  | CClose h => vfs_close (fd_of h)
  | CReaddir h => let* r := vfs_readdir (fd_of h) in ret 0
  | CFsize h => vfs_fsize (fd_of h)
  | CFdata h => let* r := vfs_fdata (fd_of h) in ret 0
  | CFstat h => let* r := vfs_fstat (fd_of h) in ret 0
  | CIsdir p => vfs_isdir p
  | CStat p => let* r := vfs_stat p in ret 0
  | CCreate p d n => let* r := vfs_create_from_mem p d n in ret 0
  | CMkdir p => vfs_mkdir p
  | CUnlink p => vfs_unlink p
  | CCp p q => vfs_cp p q
  | CRename p q => let* r := vfs_rename p q in ret 0
  | CChdir p => vfs_chdir p
  | CTouch p => vfs_touch p
  | CWriteFile p b => vfs_write_file p b
  | CMount p ty => vfs_mount p ty
  end.

Definition drop_one (i : nat) H : list nat := match first_index (Nat.eqb i) H with Some k => remove_at k H | None => H end.

(** The handles that are open after a call that returned [r]. *)
Definition held (c : call) (r : Z) H : list nat :=
  match c with
  | COpen _ _ => if r <? 0 then H else Z.to_nat (r - 1) :: H
  | CDup h => h :: H
  | CClose h => drop_one h H
  | _ => H
  end.

(** What the caller sees to: handles that are open, paths that are not empty, offsets and
    sizes whose sum fits in 32 bits with a block to spare, and not removing /proc itself. *)
Definition legal v H (c : call) : Prop :=
  match c with
  | COpen p _ | CStat p => p <> [] /\ len H < 2 ^ 31
  | CRead h n => h ∈ H /\ 0 <= n
  | CWrite h b => h ∈ H /\ len b < 2 ^ 31
  | CPread h n o => h ∈ H /\ 0 <= n /\ 0 <= o
  | CPwrite h b o => h ∈ H /\ 0 <= o /\ o + len b + BLOCK_SIZE < 2 ^ 32
  | CDup h => h ∈ H /\ len H < 2 ^ 31
  | CClose h | CReaddir h | CFsize h | CFdata h | CFstat h => h ∈ H
  | CCreate _ d n => 0 <= n < 2 ^ 32 /\ n <= len d
  | CUnlink p => mounted v p \/ spares_proc v p
  | CRename p _ => mounts_served v /\ spares_proc v p
  | CWriteFile p b => p <> [] /\ len b < 2 ^ 32 /\ plenty (len b)
  | _ => True
  end.

Fixpoint run (l : list call) v H : option (vfs F * list nat) :=
  match l with
  | [] => Some (v, H)
  | c :: l' => match exec c v with Some (r, v') => run l' v' (held c r H) | None => None end
  end.

Fixpoint legal_run (l : list call) v H : Prop :=
  match l with
  | [] => True
  | c :: l' => legal v H c /\ forall r v', exec c v = Some (r, v') -> legal_run l' v' (held c r H)
  end.

(** * Safety *)

Lemma drop_one_perm i H : i ∈ H -> H ≡ₚ i :: drop_one i H.
Proof.
  intros Hi. unfold drop_one. destruct (first_index (Nat.eqb i) H) as [k|] eqn:Ek.
  - apply first_index_Some in Ek as [(x & Hk & Hx) _]. apply Nat.eqb_eq in Hx as <-. unfold remove_at.
    rewrite <- (take_drop_middle _ k i Hk) at 1. by rewrite <- Permutation_middle.
  - apply list_elem_of_lookup in Hi as [k Hk]. apply (proj1 (first_index_None _ _) Ek) in Hk. by rewrite Nat.eqb_refl in Hk.
Qed.

(** The answer of a call that hands out no handle is dropped. *)
Lemma vwp_drop {A} (m : M F A) (f : A -> Z) v H :
  vwp m (fun _ v' => inv v' H) v -> vwp (let* r := m in ret (f r)) (fun _ v' => inv v' H) v.
Proof. intros Hm. apply vwp_bind. eapply vwp_mono; [exact Hm|]. intros r v' P'. by apply vwp_ret. Qed.

Lemma exec_safe c v H : inv v H -> legal v H c -> vwp (exec c) (fun r v' => inv v' (held c r H)) v.
Proof.
  intros P L. destruct c; cbn [exec held legal] in *.
  - destruct L. apply (vwp_open (I := I) _ _ v H); [done..|]. split; [done|]. intros i v' P' _. destruct (fd_nonnull i) as (_ & _ & ->).
    unfold fd_of. by replace (Z.to_nat (Z.of_nat i + 1 - 1)) with i by lia.
  - destruct L. by apply vwp_drop, (vwp_read (I := I) v H).
  - destruct L. by apply (vwp_write (I := I) v H).
  - destruct L as (? & ? & ?). by apply vwp_drop, (vwp_pread (I := I) v H).
  - destruct L as (? & ? & ?). apply (vwp_pwrite (I := I) v H); [done..|]. by intros.
  - destruct L. apply vwp_bind, (vwp_dup (I := I) v H); [done..|]. intros. by apply vwp_ret.
  - apply (vwp_close (I := I) v H (drop_one h H)); [done|by apply drop_one_perm|by intros].
  - by apply vwp_drop, (vwp_readdir (I := I) v H).
  - by apply (vwp_fsize (I := I) v H).
  - by apply vwp_drop, (vwp_fdata (I := I) v H).
  - by apply vwp_drop, (vwp_fstat (I := I) v H).
  - by apply (vwp_isdir (I := I) _ v H).
  - destruct L. by apply vwp_drop, (vwp_stat (I := I) _ v H).
  - destruct L. by apply vwp_drop, (vwp_create_from_mem (I := I) _ _ _ v H).
  - by apply (vwp_mkdir (I := I) _ v H).
  - by apply (vwp_unlink (I := I) _ v H).
  - by apply (vwp_cp (I := I) _ _ v H).
  - destruct L. by apply vwp_drop, (vwp_rename (I := I) _ _ v H).
  - by apply (vwp_chdir (I := I) _ v H).
  - by apply (vwp_touch (I := I) _ v H).
  - destruct L as (? & ? & ?). by apply (vwp_write_file (I := I) _ _ v H).
  - by apply (vwp_vfs_mount (I := I) _ _ v H).
Qed.

Lemma run_inv l v H : inv v H -> legal_run l v H -> exists v' H', run l v H = Some (v', H') /\ inv v' H'.
Proof.
  revert v H. induction l as [|c l IH]; intros v H P L; cbn [run legal_run] in *; [by exists v, H|]. destruct L as [L1 L2].
  pose proof (exec_safe c v H P L1) as E. unfold vwp in E. destruct (exec c v) as [[r v']|]; [|done]. by apply IH, L2.
Qed.

(** C36: whatever calls a client makes, every one of them returns, none touches memory outside
    its objects, and afterwards: every open handle leads to a node that is in use, whose
    reference count is the number of open handles to it; every entry of every directory is a
    node in use that stands in that directory alone; the free nodes are distinct, in the pool,
    and neither open nor listed.  The client keeps to [legal_run]: handles that are open, paths
    that are not empty for open, stat and write_file, offsets whose end with a block to spare is
    below 2^32, write_file with memory for its data, no removal or renaming of /proc, fewer
    than 2^31 handles. *)
Theorem vfs_handles_safe l v H :
  inv v H -> legal_run l v H ->
  exists v' H', run l v H = Some (v', H') /\ inv v' H' /\
    (forall i, i ∈ H' -> (i < node_count v')%nat /\ i ∉ free_nodes v' /\ open_refs (node v' i) = Z.of_nat (holders i H')) /\
    (forall d c, c ∈ children (node v' d) -> (c < node_count v')%nat /\ c ∉ free_nodes v' /\ forall e, c ∈ children (node v' e) -> e = d) /\
    NoDup (free_nodes v') /\ (forall i, i ∈ free_nodes v' -> i ∉ H' /\ i ∉ edges v').
Proof.
  intros P L. destruct (run_inv l v H P L) as (v' & H' & E & P'). exists v', H'. split; [done|]. split; [done|]. pose proof P' as [Q _]. split_and!.
  - intros i Hi. destruct (p_held _ _ _ Q i Hi). split; [done|]. split; [done|]. apply (p_refs _ _ _ Q).
  - intros d c Hc. destruct (edge_live (I := I) v' H' c P' (edges_elem _ _ _ Hc)). split; [done|]. split; [done|]. intros e He. by eapply one_parent; [apply Q|..].
  - apply Q.
  - intros i Hi. split; [intros Hx; by apply (p_held _ _ _ Q) in Hx as [_ ?]|]. intros Hx. by apply (edge_live (I := I) v' H' i P') in Hx as [_ ?].
Qed.

(** C38: removing a file does not disturb the handles that are open on it, or on any other
    regular file: the removal returns, and a read through the handle delivers the bytes the
    file had before. *)
Theorem vfs_unlink_keeps_open_files v H path i :
  inv v H -> mounted v path \/ spares_proc v path -> i ∈ H -> regular (node v i) ->
  exists r v', vfs_unlink path v = Some (r, v') /\ inv v' H /\
    forall o c, 0 <= o -> 0 <= c -> let w := window o c (contents (node v i)) in vfs_pread (fd_of i) c o v' = Some ((s32 (len w), w), v').
Proof.
  intros P Hs Hi (R1 & R2 & R3). pose proof (vwp_unlink_view (I := I) path v H (fun _ v' => inv v' H /\ keeps_held H v v') P Hs ltac:(done)) as E. unfold vwp in E.
  destruct (vfs_unlink path v) as [[r v']|]; [|done]. destruct E as [P' K]. exists r, v'. split; [done|]. split; [done|]. intros o c Ho Hc.
  specialize (K i Hi). injection K as K1 K2 K3 K4 K5. assert (contents (node v' i) = contents (node v i)) as <- by (unfold contents; by rewrite K2, K3).
  apply (pread_regular (I := I) v' H); [done|done| |done|done]. by rewrite <- K1, <- K4, <- K5 in *.
Qed.
End Run.
