(* ===== verification/VfsExt2.v ===== *)
(** The virtual file system over ext2: the mount entry's functions are the driver's, so the
    theorems about handles hold on top of any mounted image, however damaged.  The kernel's
    own start-up, run on the demonstration image, gives the state the examples start from. *)
From Stdlib Require Import ZArith Lia String.
From S2P Require Import Prelude Packed Format Vfs VfsPool VfsSafe VfsOps VfsFile VfsTree VfsRun.
From S2P Require Ext2 Ext2Safe Ext2Demo Ext2Total.

(** * The mounted file system *)

Section Mount.
Context `{Ext2.BlockHeap}.

(** The functions of the mount entry; each runs the driver with preemption off. *)
Definition fs_resolve_ext2 (p : list Z) : Ext2.est -> option (Z * Ext2.est) := Ext2.ext2_resolve p.
Definition fs_get_size_ext2 (p : list Z) : Ext2.est -> option (Z * Ext2.est) := Ext2.ext2_get_size p.
Definition fs_read_file_ext2 (p : list Z) (n : Z) : Ext2.est -> option (option (list Z) * Ext2.est) := Ext2.ext2_read_file p n.
Definition fs_write_file_ext2 (p d : list Z) : Ext2.est -> option (Z * Ext2.est) := Ext2.ext2_write_file p d.
Definition fs_readdir_ext2 (p : list Z) (n : Z) : Ext2.est -> option (option (list Ext2.dirent) * Ext2.est) := Ext2.ext2_readdir p n.
Definition fs_mkdir_ext2 (p : list Z) : Ext2.est -> option (Z * Ext2.est) := Ext2.ext2_mkdir p.
Definition fs_unlink_ext2 (p : list Z) : Ext2.est -> option (Z * Ext2.est) := Ext2.ext2_unlink p.

#[export] Instance ext2_ops : FsOps Ext2.est := {
  fs_resolve := fs_resolve_ext2; fs_get_size := fs_get_size_ext2; fs_read_file := fs_read_file_ext2;
  fs_write_file := fs_write_file_ext2; fs_readdir := fs_readdir_ext2; fs_mkdir := fs_mkdir_ext2; fs_unlink := fs_unlink_ext2 }.

Lemma safe_returns {A} g D (m : Ext2.M A) (Q : A -> Prop) s :
  Ext2Safe.safe g D m Q -> Ext2Safe.lready g D s -> exists r s', m s = Some (r, s') /\ Ext2Safe.lready g D s' /\ Q r.
Proof.
  intros Hm Hs. specialize (Hm s Hs). unfold Ext2Safe.wp in Hm. destruct (m s) as [[r s']|]; [|done]. destruct Hm. by exists r, s'.
Qed.

Lemma safe_returns_any {A} g D (m : Ext2.M A) (Q : A -> Prop) s :
  Ext2Safe.safe g D m Q -> Ext2Safe.lready g D s -> exists r s', m s = Some (r, s') /\ Ext2Safe.lready g D s'.
Proof. intros Hm Hs. destruct (safe_returns g D m Q s Hm Hs) as (r & s' & E & Hr & _). by exists r, s'. Qed.

(** A mounted image keeps its geometry and its buffers: every call of the driver returns. *)
#[export] Instance ext2_total g D : FsTotal Ext2.est (Ext2Safe.lready g D).
Proof.
  split.
  - intros p s. exact (safe_returns_any g D _ _ s (Ext2Total.safe_resolve g D p)).
  - intros p s. exact (safe_returns g D _ _ s (Ext2Total.safe_get_size g D p)).
  - intros p n s Hs Hn. exact (safe_returns g D _ _ s (Ext2Total.safe_read_file g D p n Hn) Hs).
  - intros p d s Hs _. exact (safe_returns_any g D _ _ s (Ext2Total.safe_write_file g D p d) Hs).
  - intros p n s Hs Hn. destruct (safe_returns g D _ _ s (Ext2Total.safe_readdir g D p n) Hs) as (r & s' & E & Hr & Hl). exists r, s'.
    split; [done|]. split; [done|]. intros l E'. destruct (Hl l E'). lia.
  - intros p s. exact (safe_returns_any g D _ _ s (Ext2Total.safe_mkdir g D p)).
  - intros p s. exact (safe_returns_any g D _ _ s (Ext2Total.safe_unlink g D p)).
Qed.
End Mount.

(** * Start-up *)

(** The kernel's data before init_vfs, with one process, and the demonstration image's driver. *)
Definition demo_kinfo : kernel_info :=
  KernelInfo 0x4000000 0x1000000 12345 [ProcInfo 1 0 1 (chars "init") (chars "/bin/init") (Some [VmRegion 0x400000 0x401000 false true])].
Definition blank : vfs Ext2.est :=
  Vfs Ext2.est (replicate MAX_INODES zero_node) 0 [] 0 None [] 0 0 demo_kinfo Ext2Demo.demo_fs.
Existing Instance Ext2Demo.demo_heap.

(** init_vfs, and the image mounted on /mnt. *)
Definition boot : M Ext2.est Z := init_vfs ;; vfs_mount (chars "/mnt") FS_TYPE_EXT2.
Definition booted : vfs Ext2.est := Eval vm_compute in match boot blank with Some (_, v) => v | None => blank end.
Lemma boot_returns : boot blank = Some (0, booted).
Proof. vm_compute. reflexivity. Qed.

(** The four device files stay open for ever. *)
Definition boot_handles : list nat := Eval vm_compute in filter (fun i => open_refs (node booted i) = 1) (seq 0 MAX_INODES).

(** ** Checking a state *)

#[export] Instance data_ok_dec n : Decision (data_ok n).
Proof. unfold data_ok. destruct (n_data n); apply _. Defined.
#[export] Instance listed_dec {F} (v : vfs F) c : Decision (listed v c).
Proof. unfold listed. apply _. Defined.

Definition pool_okb {F} (v : vfs F) (H : list nat) : bool :=
  Nat.eqb (length (nodes v)) MAX_INODES && Nat.leb 1 (node_count v) && Nat.leb (node_count v) MAX_INODES &&
  bool_decide (NoDup (free_nodes v)) && bool_decide (NoDup (edges v)) &&
  forallb (fun i => Nat.ltb 0 i && Nat.ltb i (node_count v) && on_free_list (node v i)) (free_nodes v) &&
  forallb (fun i => implb (on_free_list (node v i)) (bool_decide (i ∈ free_nodes v)) && (open_refs (node v i) =? Z.of_nat (holders i H)) &&
                    bool_decide (data_ok (node v i))) (seq 0 (node_count v)) &&
  forallb (fun i => Nat.ltb i (node_count v) && bool_decide (i ∉ free_nodes v)) H &&
  forallb (fun c => bool_decide (listed v c)) (edges v) &&
  negb (orphaned (node v 0)) && negb (mount_backed (node v 0)) &&
  match proc_node v with
  | None => true
  | Some p => bool_decide (listed v p) && (n_type (node v p) =? 1) && (proc_type (node v p) =? 0) &&
              forallb (fun j => Nat.eqb j 0 || bool_decide (p ∉ children (node v j))) (seq 0 (node_count v))
  end.

Lemma pool_okb_ok {F} (v : vfs F) H :
  pool_okb v H = true -> drop (node_count v) (nodes v) = replicate (MAX_INODES - node_count v) zero_node -> pool_ok [] v H.
Proof.
  unfold pool_okb. intros Hb Hz.
  repeat match goal with E : _ && _ = true |- _ => apply andb_prop in E as [? E] end.
  repeat match goal with E : forallb _ _ = true |- _ => rewrite forallb_forall in E end. bool_prop.
  repeat match goal with E : bool_decide _ = true |- _ => apply bool_decide_eq_true in E end.
  assert (forall i, (node_count v <= i)%nat -> node v i = zero_node) as Hun.
  { intros i Hi. unfold node. rewrite nth_lookup. replace i with (node_count v + (i - node_count v))%nat by lia.
    rewrite <- lookup_drop, Hz. destruct (replicate _ _ !! _) as [x|] eqn:E; [|done]. by apply lookup_replicate in E as [-> _]. }
  assert (forall i, In i (seq 0 (node_count v)) <-> (i < node_count v)%nat) as Hseq by (intros i; rewrite in_seq; lia).
  apply Nat.eqb_eq in H10. apply Nat.leb_le in H9, H8.
  assert (forall i, i ∈ H -> (i < node_count v)%nat /\ i ∉ free_nodes v) as Hheld.
  { intros i Hi%list_elem_of_In%H3. apply andb_prop in Hi as [E1 E2]. apply Nat.ltb_lt in E1. by apply bool_decide_eq_true in E2. }
  assert (forall i, (i < node_count v)%nat -> (on_free_list (node v i) = true -> i ∈ free_nodes v) /\ open_refs (node v i) = Z.of_nat (holders i H) /\ data_ok (node v i)) as Hn.
  { intros i Hi%Hseq%H4. apply andb_prop in Hi as [[E1 E2]%andb_prop E3]. apply Z.eqb_eq in E2. apply bool_decide_eq_true in E3.
    split; [|done]. intros Eo. rewrite Eo in E1. simpl in E1. by apply bool_decide_eq_true in E1. }
  assert (forall c, c ∈ edges v -> listed v c) as Hl by (intros c Hc%list_elem_of_In%H2; by apply bool_decide_eq_true in Hc).
  split; try done.
  - intros i Hi%list_elem_of_In%H5. apply andb_prop in Hi as [[E1 E2]%andb_prop E3]. apply Nat.ltb_lt in E1, E2. done.
  - intros i. destruct (Nat.lt_ge_cases i (node_count v)) as [Hi|Hi]; [apply Hn, Hi|]. by rewrite (Hun i Hi).
  - intros i. destruct (Nat.lt_ge_cases i (node_count v)) as [Hi|Hi]; [apply Hn, Hi|]. rewrite (Hun i Hi), holders_0; [done|]. intros [? _]%Hheld. lia.
  - intros c Hc _. by apply Hl.
  - intros c Hc. apply Hl, Hc.
  - intros i. destruct (Nat.lt_ge_cases i (node_count v)) as [Hi|Hi]; [apply Hn, Hi|]. rewrite (Hun i Hi). split; simpl; [done|lia].
  - intros p Ep. rewrite Ep in Hb. apply andb_prop in Hb as [[[E1 E2]%andb_prop E3]%andb_prop E4]. apply bool_decide_eq_true in E1. apply Z.eqb_eq in E2, E3.
    rewrite forallb_forall in E4. split; [done|]. split; [done|]. split; [done|]. intros j Hj. destruct (Nat.lt_ge_cases j (node_count v)) as [Hlt%Hseq%E4|Hi].
    + apply orb_prop in Hlt as [Hlt|Hlt]; [by apply Nat.eqb_eq|]. by apply bool_decide_eq_true in Hlt.
    + rewrite (Hun j Hi) in Hj. by apply elem_of_nil in Hj.
Qed.

(** What a client may do, checked. *)
Definition sparesb {F} (v : vfs F) (p : list Z) : bool :=
  match resolve_parent v p with
  | Some (d, nm) => match find_child v d nm with Some c => bool_decide (proc_node v <> Some c) | None => true end
  | None => true
  end.
Definition mountedb {F} (v : vfs F) (p : list Z) : bool :=
  match vfs_find_mount v p with Some (_, MountEntry _ _ true, _) => true | _ => false end.

Definition legalb {F} (v : vfs F) (H : list nat) (c : call) : bool :=
  let known h := bool_decide (h ∈ H) in
  let few := len H <? 2 ^ 31 in
  match c with
  | COpen p _ | CStat p => negb (bool_decide (p = [])) && few
  | CRead h n => known h && (0 <=? n)
  | CWrite h b => known h && (len b <? 2 ^ 31)
  | CPread h n o => known h && (0 <=? n) && (0 <=? o)
  | CPwrite h b o => known h && (0 <=? o) && (o + len b + BLOCK_SIZE <? 2 ^ 32)
  | CDup h => known h && few
  | CClose h | CReaddir h | CFsize h | CFdata h | CFstat h => known h
  | CCreate _ d n => (0 <=? n) && (n <? 2 ^ 32) && (n <=? len d)
  | CUnlink p => mountedb v p || sparesb v p
  | CRename p _ => forallb me_ops (mount_table v) && sparesb v p
  | CWriteFile p b => false
  | _ => true
  end.

Lemma sparesb_ok {F} (v : vfs F) p : sparesb v p = true -> spares_proc v p.
Proof. unfold sparesb. intros E d nm c E1 E2. rewrite E1, E2 in E. by apply bool_decide_eq_true in E. Qed.

Lemma legalb_ok {F} (v : vfs F) H {BH : Ext2.BlockHeap} c : legalb v H c = true -> legal v H c.
Proof.
  destruct c; cbn [legalb legal]; intros E; try done;
    repeat match goal with X : _ && _ = true |- _ => apply andb_prop in X as [X ?] end; bool_prop;
    repeat match goal with X : bool_decide _ = true |- _ => apply bool_decide_eq_true in X | X : bool_decide _ = false |- _ => apply bool_decide_eq_false in X end;
    repeat split; try done; try lia.
  - apply orb_prop in E as [E|E]; [left|right; by apply sparesb_ok]. unfold mountedb in E.
    destruct (vfs_find_mount v p) as [[[mi [ty mp []]] sub]|] eqn:Em; [|done..]. by exists mi, ty, mp, sub.
  - unfold mounts_served. apply Forall_forall. intros me Hme. rewrite forallb_forall in E. by apply E.
  - by apply sparesb_ok.
Qed.

Fixpoint legal_runb {F} `{FO : FsOps F} {BH : Ext2.BlockHeap} (l : list call) (v : vfs F) (H : list nat) : bool :=
  match l with
  | [] => true
  | c :: l' => legalb v H c && match exec c v with Some (r, v') => legal_runb l' v' (held c r H) | None => true end
  end.

Lemma legal_runb_ok {F} `{FO : FsOps F} {BH : Ext2.BlockHeap} l (v : vfs F) H : legal_runb l v H = true -> legal_run l v H.
Proof.
  revert v H. induction l as [|c l IH]; intros v H; cbn [legal_runb legal_run]; [done|]. intros [E1 E2]%andb_prop. split; [by apply legalb_ok|].
  intros r v' E. rewrite E in E2. by apply IH.
Qed.

(** The kernel starts in order. *)
Lemma booted_ok : VfsSafe.inv (I := Ext2Safe.lready (Ext2.fs Ext2Demo.demo_fs) Ext2Safe.all_bufs) booted boot_handles.
Proof.
  split; [apply pool_okb_ok; vm_compute; reflexivity|]. split; [apply Ext2Safe.ready_lready, Ext2Demo.demo_ready|]. vm_compute. lia.
Qed.

(** A session: a file is removed while two handles are open on it, and read on; a file and the
    directory of the mounted image are opened. *)
Definition session : list call :=
  let a := chars "/tmp/d/a" in
  [CMkdir (chars "/tmp/d"); COpen a 1; CPwrite 26 (chars "hello") 600; CDup 26; CUnlink a; CClose 26; CPread 26 10 598;
   CUnlink (chars "/tmp/d"); CClose 26; COpen (chars "/mnt/f") 1; CWrite 26 (chars "data"); CClose 26; COpen (chars "/mnt") 0; CReaddir 26; CClose 26;
   COpen (chars "/tmp/b") 1; CRename (chars "/tmp/b") (chars "/home/c"); CCp (chars "/home/c") (chars "/mnt/g"); CStat (chars "/home/c"); CChdir (chars "/home")].

Lemma vfs_handles_safe_witness :
  exists v' H', run session booted boot_handles = Some (v', H') /\ (forall i, i ∈ H' -> i ∉ free_nodes v') /\ NoDup (free_nodes v').
Proof.
  destruct (vfs_handles_safe session booted boot_handles booted_ok) as (v' & H' & E & _ & Hh & _ & Hf & _); [apply legal_runb_ok; vm_compute; reflexivity|].
  exists v', H'. split; [exact E|]. split; [intros i Hi; apply (Hh i Hi)|exact Hf].
Defined.

(** The session up to the handle on the new file, which is node 26. *)
Definition open_state : vfs Ext2.est :=
  Eval vm_compute in match run (take 2 session) booted boot_handles with Some (v, _) => v | None => blank end.
Definition open_handles : list nat := 26%nat :: boot_handles.

Lemma open_state_ok : VfsSafe.inv (I := Ext2Safe.lready (Ext2.fs Ext2Demo.demo_fs) Ext2Safe.all_bufs) open_state open_handles.
Proof.
  split; [apply pool_okb_ok; vm_compute; reflexivity|]. split; [apply Ext2Safe.ready_lready, Ext2Demo.demo_ready|]. vm_compute. lia.
Qed.

Lemma vfs_pwrite_pread_roundtrip_witness :
  exists v', vfs_pwrite (fd_of 26) (chars "hello") 3 open_state = Some (5, v') /\
    vfs_pread (fd_of 26) 100 1 v' = Some ((7, [0; 0] ++ chars "hello"), v').
Proof.
  destruct (vfs_pwrite_pread_roundtrip open_state open_handles 26 (chars "hello") 3 open_state_ok) as (r & v' & E & _ & _ & [(_ & _ & Hf)|(-> & _ & Hr)]).
  - by left.
  - by vm_compute.
  - done.
  - vm_compute. reflexivity.
  - vm_compute in Hf. discriminate.
  - exists v'. split; [exact E|]. rewrite (Hr 1 100) by done. vm_compute. reflexivity.
Defined.

(** The file after it was written. *)
Definition written_state : vfs Ext2.est :=
  Eval vm_compute in match run (take 3 session) booted boot_handles with Some (v, _) => v | None => blank end.

Lemma written_state_ok : VfsSafe.inv (I := Ext2Safe.lready (Ext2.fs Ext2Demo.demo_fs) Ext2Safe.all_bufs) written_state open_handles.
Proof.
  split; [apply pool_okb_ok; vm_compute; reflexivity|]. split; [apply Ext2Safe.ready_lready, Ext2Demo.demo_ready|]. vm_compute. lia.
Qed.

Lemma vfs_unlink_keeps_open_files_witness :
  exists v', vfs_unlink (chars "/tmp/d/a") written_state = Some (0, v') /\ resolve_path v' (chars "/tmp/d/a") = None /\
    vfs_pread (fd_of 26) 10 598 v' = Some ((7, [0; 0] ++ chars "hello"), v').
Proof.
  destruct (vfs_unlink_keeps_open_files written_state open_handles (chars "/tmp/d/a") 26 written_state_ok) as (r & v' & E & _ & Hr).
  - right. apply sparesb_ok. vm_compute. reflexivity.
  - by left.
  - by vm_compute.
  - exists v'. rewrite (Hr 598 10) by done. split_and!; [|..].
    + rewrite E. vm_compute in E. by injection E as <- _.
    + vm_compute in E. injection E as _ <-. vm_compute. reflexivity.
    + vm_compute. reflexivity.
Defined.
