(* ===== verification/VfsEdge.v ===== *)
(** What the virtual file system does at the edges, on the state after start-up: paths that
    lead nowhere, names that are taken, directories that are in use. *)
From Stdlib Require Import ZArith Lia String.
From S2P Require Import Prelude Packed Format Vfs VfsPool VfsSafe VfsOps VfsFile VfsTree VfsRun VfsExt2.
From S2P Require Ext2 Ext2Safe Ext2Demo.
#[local] Existing Instance Ext2Demo.demo_heap.

(** The answer of [m] from the booted state, and what [f] sees of the state it leaves. *)
Definition after {A B} (m : M Ext2.est A) (f : vfs Ext2.est -> B) : option (A * B) :=
  match m booted with Some (r, v) => Some (r, f v) | None => None end.
Definition names (v : vfs Ext2.est) (dir : string) : list (list Z) :=
  match resolve_path v (chars dir) with Some d => map (fun c => n_name (node v c)) (children (node v d)) | None => [] end.
Definition sees (path : string) (v : vfs Ext2.est) : option (Z * list Z) :=
  match resolve_path v (chars path) with Some i => Some (n_type (node v i), contents (node v i)) | None => None end.

(** The second line of the welcome file replaces the first. *)
Lemma welcome_overwritten :
  sees "/home/user/welcome.txt" booted = Some (0, chars "Type 'help' for commands.
").
Proof. vm_compute. reflexivity. Qed.

(** A file in a directory that does not exist is created under the directory's name, in its parent. *)
Lemma create_in_missing_directory :
  after (vfs_open (chars "/missing/f") 1) (fun v => (sees "/missing" v, sees "/missing/f" v)) = Some (26, (Some (0, []), None)).
Proof. vm_compute. reflexivity. Qed.

(** A path that goes on below a file removes the file. *)
Lemma unlink_below_a_file :
  after (vfs_touch (chars "/a.txt") ;; vfs_unlink (chars "/a.txt/b")) (fun v => sees "/a.txt" v) = Some (0, None).
Proof. vm_compute. reflexivity. Qed.

(** Making the directory / succeeds and adds an entry without a name. *)
Lemma mkdir_root : after (vfs_mkdir (chars "/")) (fun v => names v "/" !! 10%nat) = Some (0, Some []).
Proof. vm_compute. reflexivity. Qed.

(** Every path below a mount is a directory of size 0 for stat, existing file or not. *)
Lemma stat_below_a_mount :
  after (vfs_write_file (chars "/mnt/f") (chars "data") ;; vfs_stat (chars "/mnt/f")) (fun _ => tt) = Some ((0, 0, 1), tt) /\
  after (vfs_stat (chars "/mnt/nothing")) (fun _ => tt) = Some ((0, 0, 1), tt).
Proof. split; vm_compute; reflexivity. Qed.

(** Changing to a directory that does not exist below a mount succeeds, in a node made up for it. *)
Lemma chdir_below_a_mount :
  after (vfs_chdir (chars "/mnt/nowhere")) vfs_getcwd = Some (0, chars "/mnt/nowhere").
Proof. vm_compute. reflexivity. Qed.

(** Truncation is ignored for a file on a mount. *)
Lemma truncate_below_a_mount :
  after (vfs_write_file (chars "/mnt/f") (chars "data") ;; let* fd := vfs_open (chars "/mnt/f") 3 in vfs_pread fd 10 0) (fun _ => tt) =
  Some ((4, chars "data"), tt).
Proof. vm_compute. reflexivity. Qed.

(** A long name below a mount is cut in the node, and writing through the handle writes the
    file with the shorter name. *)
Definition long_name : string := "abcdefghijklmnopqrstuvwxyzabcdefghijklmnopqrstuvwxyzabcdefghijklmnopqrstuvwxyz".
Lemma long_name_below_a_mount :
  after (let* fd := vfs_open (chars "/mnt/" ++ chars long_name) 1 in vfs_write fd (chars "data"))
    (fun v => match mount_call (Ext2.ext2_readdir [SLASH] 10) v with Some (Some l, _) => map (fun d => len (Ext2.d_name d)) l | _ => [] end) =
  Some (4, [1; 2; 78; 62]).
Proof. vm_compute. reflexivity. Qed.

(** Renaming to a name that is taken leaves two entries of that name; the old file is the one
    that is found. *)
Lemma rename_over_existing :
  after (vfs_write_file (chars "/tmp/a") (chars "new") ;; vfs_write_file (chars "/tmp/b") (chars "old") ;;
         vfs_write_file (chars "/home/b") (chars "old") ;; vfs_rename (chars "/tmp/a") (chars "/home/b"))
    (fun v => (names v "/home", sees "/home/b" v)) = Some (tt, ([chars "user"; chars "b"; chars "b"], Some (0, chars "old"))).
Proof. vm_compute. reflexivity. Qed.

(** A directory can be renamed into itself: it leaves the tree, and lists itself. *)
Lemma rename_into_itself :
  after (vfs_mkdir (chars "/tmp/d") ;; vfs_rename (chars "/tmp/d") (chars "/tmp/d/e"))
    (fun v => (names v "/tmp", children (node v 21))) = Some (tt, ([], [21%nat])).
Proof. vm_compute. reflexivity. Qed.

(** The current directory can be removed; it is then a free node, which the empty path opens. *)
Lemma remove_current_directory :
  after (vfs_mkdir (chars "/tmp/d") ;; vfs_chdir (chars "/tmp/d") ;; vfs_unlink (chars "/tmp/d"))
    (fun v => bool_decide (current_dir v ∈ free_nodes v)) = Some (0, true).
Proof. vm_compute. reflexivity. Qed.

(** So can /proc, once its files are gone; the pointer to it stays. *)
Lemma remove_proc :
  after (vfs_unlink (chars "/proc/meminfo") ;; vfs_unlink (chars "/proc/uptime") ;; vfs_unlink (chars "/proc/version") ;;
         vfs_unlink (chars "/proc/cpuinfo") ;; vfs_unlink (chars "/proc"))
    (fun v => (proc_node v, free_nodes v)) = Some (0, (Some 9%nat, [9; 19; 18; 17; 16]%nat)).
Proof. vm_compute. reflexivity. Qed.

(** Two handles on one directory share the position of its reader. *)
Lemma readdir_position_shared :
  after (let* a := vfs_open (chars "/home") 0 in let* b := vfs_open (chars "/home") 0 in
         let* x := vfs_readdir a in let* y := vfs_readdir b in ret (option_map Ext2.d_name x, y)) (fun _ => tt) = Some ((Some (chars "user"), None), tt).
Proof. vm_compute. reflexivity. Qed.

(** A write near the end of the offset range: the size of the block wraps round and the bytes
    go outside it. *)
Lemma pwrite_size_wraps :
  after (let* fd := vfs_open (chars "/tmp/a") 1 in vfs_pwrite fd [1] (2 ^ 32 - 100)) (fun _ => tt) = None.
Proof. vm_compute. reflexivity. Qed.

(** When there is no block for the new contents, the file keeps its size without its bytes:
    a read then reports bytes it does not deliver. *)
Section NoHeap.
(** A heap that has no block of 7 bytes. *)
Definition short_heap : Ext2.BlockHeap.
Proof.
  refine {| Ext2.fresh_buf := fun _ n => if n =? 7 then None else if 0 <=? n then Some (zero_bytes n) else None |}.
  intros k n b. destruct (n =? 7); [done|]. destruct (Z.leb_spec 0 n); [|done]. intros [= <-]. by apply length_zero_bytes.
Defined.
#[local] Existing Instance short_heap.

Lemma write_file_without_room :
  after (vfs_write_file (chars "/tmp/a") (chars "data") ;; vfs_write_file (chars "/tmp/a") (chars "1234567") ;;
         let* fd := vfs_open (chars "/tmp/a") 0 in vfs_pread fd 10 0) (fun _ => tt) = Some ((4, []), tt).
Proof. vm_compute. reflexivity. Qed.
End NoHeap.
