(* ===== verification/Sha256.v ===== *)
(** Password hashing (src/kernel/sha256.c): streaming SHA-256, HMAC and PBKDF2.
    Words are integers below 2^32, bytes integers below 2^8; a buffer is the list of its
    bytes.  The specifications the code is compared with are those of FIPS 180-4 (padding and
    iteration over blocks), RFC 2104 and RFC 8018 (one output block). *)
From Stdlib Require Import ZArith Lia.
From S2P Require Import Prelude.

Module Sha256.

Definition SHA256_BLOCK_SIZE : Z := 64.
Definition SHA256_DIGEST_SIZE : Z := 32.

(** Row by row as in the source. *)
Definition K : list Z := concat [
  [0x428a2f98; 0x71374491; 0xb5c0fbcf; 0xe9b5dba5];
  [0x3956c25b; 0x59f111f1; 0x923f82a4; 0xab1c5ed5];
  [0xd807aa98; 0x12835b01; 0x243185be; 0x550c7dc3];
  [0x72be5d74; 0x80deb1fe; 0x9bdc06a7; 0xc19bf174];
  [0xe49b69c1; 0xefbe4786; 0x0fc19dc6; 0x240ca1cc];
  [0x2de92c6f; 0x4a7484aa; 0x5cb0a9dc; 0x76f988da];
  [0x983e5152; 0xa831c66d; 0xb00327c8; 0xbf597fc7];
  [0xc6e00bf3; 0xd5a79147; 0x06ca6351; 0x14292967];
  [0x27b70a85; 0x2e1b2138; 0x4d2c6dfc; 0x53380d13];
  [0x650a7354; 0x766a0abb; 0x81c2c92e; 0x92722c85];
  [0xa2bfe8a1; 0xa81a664b; 0xc24b8b70; 0xc76c51a3];
  [0xd192e819; 0xd6990624; 0xf40e3585; 0x106aa070];
  [0x19a4c116; 0x1e376c08; 0x2748774c; 0x34b0bcb5];
  [0x391c0cb3; 0x4ed8aa4a; 0x5b9cca4f; 0x682e6ff3];
  [0x748f82ee; 0x78a5636f; 0x84c87814; 0x8cc70208];
  [0x90befffa; 0xa4506ceb; 0xbef9a3f7; 0xc67178f2] ].

Definition ROTR (a b : Z) : Z := (a >> b) .| u32 (a << (32 - b)).
Definition CH (x y z : Z) : Z := Z.lxor (x .& y) (not32 x .& z).
Definition MAJ (x y z : Z) : Z := Z.lxor (Z.lxor (x .& y) (x .& z)) (y .& z).
Definition EP0 (x : Z) : Z := Z.lxor (Z.lxor (ROTR x 2) (ROTR x 13)) (ROTR x 22).
Definition EP1 (x : Z) : Z := Z.lxor (Z.lxor (ROTR x 6) (ROTR x 11)) (ROTR x 25).
Definition SIG0 (x : Z) : Z := Z.lxor (Z.lxor (ROTR x 7) (ROTR x 18)) (x >> 3).
Definition SIG1 (x : Z) : Z := Z.lxor (Z.lxor (ROTR x 17) (ROTR x 19)) (x >> 10).

(** Element [i] of a buffer the code reads inside its bounds. *)
Definition at_ (l : list Z) (i : Z) : Z := nth (Z.to_nat i) l 0.

Definition be32 (block : list Z) (i : Z) : Z :=
  (at_ block (i * 4) << 24) .| (at_ block (i * 4 + 1) << 16) .| (at_ block (i * 4 + 2) << 8) .| at_ block (i * 4 + 3).

(** The message schedule: [W[i]] for [i] from the length of [w] on. *)
Fixpoint extend (n : nat) (w : list Z) : list Z :=
  match n with
  | O => w
  | S n' =>
      let i := Z.of_nat (length w) in
      extend n' (w ++ [u32 (SIG1 (at_ w (i - 2)) + at_ w (i - 7) + SIG0 (at_ w (i - 15)) + at_ w (i - 16))])
  end.

Definition schedule (block : list Z) : list Z := extend 48 (map (fun i => be32 block (Z.of_nat i)) (seq 0 16)).

Record regs := Regs { ra : Z; rb : Z; rc : Z; rd : Z; re : Z; rf : Z; rg : Z; rh : Z }.

Definition round (r : regs) (kw : Z * Z) : regs :=
  let T1 := u32 (rh r + EP1 (re r) + CH (re r) (rf r) (rg r) + kw.1 + kw.2) in
  let T2 := u32 (EP0 (ra r) + MAJ (ra r) (rb r) (rc r)) in
  Regs (u32 (T1 + T2)) (ra r) (rb r) (rc r) (u32 (rd r + T1)) (re r) (rf r) (rg r).

Definition add_regs (s r : regs) : regs :=
  Regs (u32 (ra s + ra r)) (u32 (rb s + rb r)) (u32 (rc s + rc r)) (u32 (rd s + rd r))
       (u32 (re s + re r)) (u32 (rf s + rf r)) (u32 (rg s + rg r)) (u32 (rh s + rh r)).

(** [state] after a block. *)
Definition compress (s : regs) (block : list Z) : regs := add_regs s (foldl round s (combine K (schedule block))).

(** [sha256_ctx_t]. *)
Record ctx := Ctx { data : list Z; datalen : Z; bitlen : Z; state : regs }.

Definition sha256_transform (c : ctx) : ctx := Ctx (data c) (datalen c) (bitlen c) (compress (state c) (data c)).

Definition initial : regs :=
  Regs 0x6a09e667 0xbb67ae85 0x3c6ef372 0xa54ff53a 0x510e527f 0x9b05688c 0x1f83d9ab 0x5be0cd19.

Definition sha256_init (c : ctx) : ctx := Ctx (data c) 0 0 initial.

(** [ctx->data[ctx->datalen++] = b]. *)
Definition put (b : Z) (c : ctx) : ctx :=
  Ctx (<[Z.to_nat (datalen c) := b]> (data c)) (u32 (datalen c + 1)) (bitlen c) (state c).

Definition update_byte (c : ctx) (b : Z) : ctx :=
  let c := put b c in
  if datalen c =? SHA256_BLOCK_SIZE then
    let c := sha256_transform c in Ctx (data c) 0 (u64 (bitlen c + SHA256_BLOCK_SIZE * 8)) (state c)
  else c.

Definition sha256_update (c : ctx) (bytes : list Z) : ctx := foldl update_byte c bytes.

(** [while (ctx->datalen < n) ctx->data[ctx->datalen++] = 0]; at most 64 bytes are missing. *)
Fixpoint zero_to (fuel : nat) (n : Z) (c : ctx) : ctx :=
  match fuel with
  | O => c
  | S f => if datalen c <? n then zero_to f n (put 0 c) else c
  end.

Definition be_bytes (n : nat) (v : Z) : list Z := map (fun i => u8 (v >> (8 * (Z.of_nat n - 1 - Z.of_nat i)))) (seq 0 n).

(** [hash[4 j + i] = state[j] >> (24 - 8 i)]. *)
Definition digest (r : regs) : list Z :=
  be_bytes 4 (ra r) ++ be_bytes 4 (rb r) ++ be_bytes 4 (rc r) ++ be_bytes 4 (rd r) ++
  be_bytes 4 (re r) ++ be_bytes 4 (rf r) ++ be_bytes 4 (rg r) ++ be_bytes 4 (rh r).

Definition sha256_final (c : ctx) : list Z * ctx :=
  let bits := u64 (bitlen c + u32 (datalen c * 8)) in
  let c := put 0x80 c in
  let c := if 56 <? datalen c then
             let c := sha256_transform (zero_to 64 SHA256_BLOCK_SIZE c) in Ctx (data c) 0 (bitlen c) (state c)
           else c in
  let c := zero_to 64 56 c in
  let c := Ctx (take 56 (data c) ++ be_bytes 8 bits) (datalen c) (bitlen c) (state c) in
  let c := sha256_transform c in
  (digest (state c), c).

(** A context whose buffer holds whatever the stack held. *)
Definition fresh_ctx (garbage : list Z) : ctx := Ctx garbage 0 0 initial.
Definition zeros (n : Z) : list Z := replicate (Z.to_nat n) 0.

(** One message, in one call, on a context whose buffer starts as [garbage]. *)
Definition hash_buf (garbage msg : list Z) : list Z :=
  (sha256_final (sha256_update (sha256_init (fresh_ctx garbage)) msg)).1.

(** A key as a block: hashed when longer than one, then filled with zeros. *)
Definition hmac_key (garbage key : list Z) : list Z :=
  if SHA256_BLOCK_SIZE <? Z.of_nat (length key)
  then hash_buf garbage key ++ zeros (SHA256_BLOCK_SIZE - SHA256_DIGEST_SIZE)
  else key ++ zeros (SHA256_BLOCK_SIZE - Z.of_nat (length key)).

Definition hmac_sha256 (garbage key msg : list Z) : list Z :=
  let k := hmac_key garbage key in
  let ipad := map (fun b => Z.lxor b 0x36) k in
  let opad := map (fun b => Z.lxor b 0x5c) k in
  let c := sha256_init (fresh_ctx garbage) in
  let c := sha256_update c ipad in
  let c := sha256_update c msg in
  let '(inner, c) := sha256_final c in
  let c := sha256_init c in
  let c := sha256_update c opad in
  let c := sha256_update c inner in
  (sha256_final c).1.

Definition xor_bytes (a b : list Z) : list Z := map (fun '(x, y) => Z.lxor x y) (combine a b).

(** The loop over the iterations from the second on. *)
Fixpoint pbkdf2_loop (n : nat) (garbage password U T : list Z) : list Z :=
  match n with
  | O => T
  | S n' => let U := hmac_sha256 garbage password U in pbkdf2_loop n' garbage password U (xor_bytes T U)
  end.

(** For fewer than 2^32 - 1 iterations, as the counter is 32 bits wide.  [None]: the salt does
    not fit the block buffer, which the code does not check. *)
Definition pbkdf2_hmac_sha256 (garbage password salt : list Z) (iterations : Z) : option (list Z) :=
  if SHA256_DIGEST_SIZE <? Z.of_nat (length salt) then None
  else
    let block := salt ++ [0; 0; 0; 1] in
    let U := hmac_sha256 garbage password block in
    Some (pbkdf2_loop (Z.to_nat (iterations - 1)) garbage password U U).

(** Lower-case hexadecimal digits, as ASCII codes. *)
Definition hexdig (d : Z) : Z := if d <? 10 then 48 + d else 87 + d.
Definition sha256_to_hex (hash : list Z) : list Z :=
  flat_map (fun b => [hexdig ((b >> 4) .& 0xF); hexdig (b .& 0xF)]) hash ++ [0].

(** * The standard *)

(** The message cut into 64-byte blocks; the fuel is the length of the message. *)
Fixpoint blocks (fuel : nat) (l : list Z) : list (list Z) :=
  match fuel with
  | O => []
  | S f => match l with [] => [] | _ => take 64 l :: blocks f (drop 64 l) end
  end.

Definition pad (m : list Z) : list Z :=
  let n := Z.of_nat (length m) in m ++ 0x80 :: zeros ((55 - n) mod 64) ++ be_bytes 8 (u64 (8 * n)).

Definition sha256_std (m : list Z) : list Z := digest (foldl compress initial (blocks (length (pad m)) (pad m))).

(** RFC 2104. *)
Definition hmac_std (key msg : list Z) : list Z :=
  let k0 := (if 64 <? Z.of_nat (length key) then sha256_std key else key) in
  let k := k0 ++ zeros (64 - Z.of_nat (length k0)) in
  sha256_std (map (fun b => Z.lxor b 0x5c) k ++ sha256_std (map (fun b => Z.lxor b 0x36) k ++ msg)).

(** RFC 8018: [U_1 = PRF(P, S || INT(1))], [U_c = PRF(P, U_(c-1))], the block is their sum. *)
Fixpoint U_std (password salt : list Z) (n : nat) : list Z :=
  match n with
  | O => hmac_std password (salt ++ [0; 0; 0; 1])
  | S n' => hmac_std password (U_std password salt n')
  end.
Definition pbkdf2_std (password salt : list Z) (iterations : nat) : list Z :=
  foldl xor_bytes (U_std password salt 0) (map (U_std password salt) (seq 1 (iterations - 1))).

#[local] Arguments zeros : simpl never.
#[local] Arguments be_bytes : simpl never.

(** * Blocks *)

Lemma blocks_concat bs n :
  Forall (fun b => length b = 64%nat) bs -> (length (concat bs) <= n)%nat -> blocks n (concat bs) = bs.
Proof.
  intros Hb. revert n. induction Hb as [|b bs Hlen Hb IH]; intros n Hn; [by destruct n|].
  simpl concat in *. rewrite length_app in Hn. destruct n as [|n]; [lia|]. simpl.
  destruct (b ++ concat bs) as [|x l] eqn:E; [by destruct b|]. rewrite <- E.
  rewrite take_app_length' by done. rewrite drop_app_length' by done. rewrite IH by lia. done.
Qed.

Lemma length_be_bytes n v : length (be_bytes n v) = n.
Proof. unfold be_bytes. by rewrite length_map, length_seq. Qed.

Lemma length_digest r : length (digest r) = 32%nat.
Proof. unfold digest. by rewrite !length_app, !length_be_bytes. Qed.

(** * Streaming *)

(** The context has absorbed [m]: its complete blocks are in [state] and [bitlen], the rest in
    the buffer. *)
Definition absorbed (m : list Z) (c : ctx) : Prop :=
  length (data c) = 64%nat /\
  exists bs rest, m = concat bs ++ rest /\ Forall (fun b => length b = 64%nat) bs /\ (length rest < 64)%nat /\
    datalen c = Z.of_nat (length rest) /\ take (length rest) (data c) = rest /\
    state c = foldl compress initial bs /\ bitlen c = u64 (512 * Z.of_nat (length bs)).

Lemma init_absorbed c : length (data c) = 64%nat -> absorbed [] (sha256_init c).
Proof. intros H. split; [done|]. exists [], []. repeat split; [done|simpl; lia]. Qed.

Lemma put_buffer (l rest : list Z) b :
  (length rest < length l)%nat -> take (length rest) l = rest ->
  take (S (length rest)) (<[length rest := b]> l) = rest ++ [b].
Proof.
  intros Hl Ht. rewrite (take_S_r _ _ b) by (by apply list_lookup_insert_eq). rewrite take_insert_ge by done. by rewrite Ht.
Qed.

Lemma update_byte_absorbed m c b : absorbed m c -> absorbed (m ++ [b]) (update_byte c b).
Proof.
  intros (Hlen & bs & rest & -> & Hbs & Hr & Hd & Ht & Hs & Hb). unfold update_byte, put.
  rewrite Hd, Nat2Z.id. cbn [datalen]. rewrite u32_small by lia.
  pose proof (put_buffer (data c) rest b ltac:(lia) Ht) as Hp.
  change SHA256_BLOCK_SIZE with 64. destruct (Z.eqb_spec (Z.of_nat (length rest) + 1) 64) as [E|E].
  - split; [cbn; by rewrite length_insert|]. exists (bs ++ [rest ++ [b]]), []. cbn [data datalen state bitlen sha256_transform].
    rewrite concat_app, foldl_app, (length_app bs). simpl. rewrite !app_nil_r, <- app_assoc.
    rewrite take_ge in Hp by (rewrite length_insert; lia). rewrite Hp, Hs, Hb.
    split; [done|]. split; [apply Forall_app_2; [done|]; constructor; [rewrite length_app; simpl; lia|done]|].
    split; [lia|]. split; [done|]. split; [done|]. split; [done|].
    unfold u64. rewrite Zplus_mod_idemp_l. f_equal. lia.
  - split; [cbn; by rewrite length_insert|]. exists bs, (rest ++ [b]). cbn [data datalen state bitlen].
    rewrite length_app. simpl length. split; [by rewrite app_assoc|]. split; [done|]. split; [lia|]. split; [lia|].
    rewrite Nat.add_1_r. done.
Qed.

Lemma update_absorbed m c bytes : absorbed m c -> absorbed (m ++ bytes) (sha256_update c bytes).
Proof.
  revert m c. induction bytes as [|b l IH]; intros m c Hc; simpl; [by rewrite app_nil_r|].
  replace (m ++ b :: l) with ((m ++ [b]) ++ l) by (by rewrite <- app_assoc). apply IH. by apply update_byte_absorbed.
Qed.

(** The buffer holds [p] and then whatever it held. *)
Definition holds (p : list Z) (c : ctx) : Prop :=
  length (data c) = 64%nat /\ datalen c = Z.of_nat (length p) /\ take (length p) (data c) = p.

Lemma put_holds p b c : holds p c -> (length p < 64)%nat ->
  holds (p ++ [b]) (put b c) /\ state (put b c) = state c /\ bitlen (put b c) = bitlen c.
Proof.
  intros (Hl & Hd & Ht) Hp. split; [|done]. unfold put, holds; cbn. rewrite Hd, Nat2Z.id, length_insert, length_app.
  split; [done|]. split; [rewrite u32_small; simpl; lia|]. simpl. rewrite Nat.add_1_r. apply put_buffer; [lia|done].
Qed.

Lemma zeros_app a b : 0 <= a -> 0 <= b -> zeros a ++ zeros b = zeros (a + b).
Proof. intros. unfold zeros. rewrite <- replicate_add. f_equal. lia. Qed.

Lemma length_zeros n : 0 <= n -> Z.of_nat (length (zeros n)) = n.
Proof. intros. unfold zeros. rewrite length_replicate. lia. Qed.

Lemma zero_to_holds fuel n p c :
  holds p c -> Z.of_nat (length p) <= n <= 64 -> n - Z.of_nat (length p) <= Z.of_nat fuel ->
  holds (p ++ zeros (n - Z.of_nat (length p))) (zero_to fuel n c) /\ state (zero_to fuel n c) = state c /\
  bitlen (zero_to fuel n c) = bitlen c.
Proof.
  revert p c. induction fuel as [|fuel IH]; intros p c Hc Hn Hf; cbn [zero_to].
  - replace (n - Z.of_nat (length p)) with 0 by lia. by rewrite app_nil_r.
  - destruct Hc as (Hl & Hd & Ht). rewrite Hd. destruct (Z.ltb_spec (Z.of_nat (length p)) n).
    + destruct (put_holds p 0 c) as (Hc' & Hs & Hb); [done|lia|]. rewrite <- Hs, <- Hb.
      destruct (IH (p ++ [0]) (put 0 c) Hc') as (H1 & H2 & H3); [rewrite length_app; simpl; lia..|].
      split; [|done]. rewrite length_app in H1. simpl length in H1. rewrite <- app_assoc in H1. simpl app in H1.
      replace (zeros (n - Z.of_nat (length p))) with (0 :: zeros (n - Z.of_nat (length p + 1))); [done|].
      unfold zeros. replace (Z.to_nat (n - Z.of_nat (length p))) with (S (Z.to_nat (n - Z.of_nat (length p + 1)))) by lia. done.
    + replace (n - Z.of_nat (length p)) with 0 by lia. by rewrite app_nil_r.
Qed.

Lemma holds_full p c : holds p c -> length p = 64%nat -> data c = p.
Proof. intros (Hl & _ & Ht) Hp. by rewrite take_ge in Ht by lia. Qed.

(** The last one or two blocks of a message whose incomplete block is [rest]. *)
Definition tail_blocks (rest : list Z) (bits : Z) : list (list Z) :=
  let r := Z.of_nat (length rest) in
  if r <? 56 then [rest ++ 0x80 :: zeros (55 - r) ++ be_bytes 8 bits]
  else [rest ++ 0x80 :: zeros (63 - r); zeros 56 ++ be_bytes 8 bits].

Lemma tail_blocks_length rest bits : (length rest < 64)%nat -> Forall (fun b => length b = 64%nat) (tail_blocks rest bits).
Proof.
  intros Hr. unfold tail_blocks. destruct (Z.ltb_spec (Z.of_nat (length rest)) 56); repeat constructor;
    rewrite ?length_app; simpl length; rewrite ?length_app, ?length_be_bytes; unfold zeros; rewrite ?length_replicate; lia.
Qed.

Lemma tail_blocks_pad bs rest :
  Forall (fun b => length b = 64%nat) bs -> (length rest < 64)%nat ->
  pad (concat bs ++ rest) = concat (bs ++ tail_blocks rest (u64 (8 * Z.of_nat (length (concat bs ++ rest))))).
Proof.
  intros Hb Hr. assert (Hn : Z.of_nat (length (concat bs)) = 64 * Z.of_nat (length bs)).
  { induction Hb as [|b l Hlb Hl IH]; [done|]. simpl concat. rewrite length_app. simpl length. lia. }
  unfold pad, tail_blocks. set (bits := u64 _). rewrite length_app, Nat2Z.inj_add, Hn, concat_app, <- app_assoc. f_equal.
  replace ((55 - (64 * Z.of_nat (length bs) + Z.of_nat (length rest))) mod 64) with ((55 - Z.of_nat (length rest)) mod 64).
  2:{ rewrite <- (Z.mod_add _ (- Z.of_nat (length bs)) 64) by lia. f_equal. lia. }
  destruct (Z.ltb_spec (Z.of_nat (length rest)) 56); cbn [concat]; rewrite app_nil_r.
  - rewrite Z.mod_small by lia. done.
  - rewrite <- (Z.mod_add _ 1), Z.mod_small by lia.
    rewrite <- !app_assoc. cbn [app]. f_equal. f_equal. rewrite (app_assoc (zeros (63 - _))), zeros_app by lia. do 2 f_equal. lia.
Qed.

Lemma final_state rest c :
  holds rest c -> (length rest < 64)%nat ->
  (sha256_final c).1 = digest (foldl compress (state c) (tail_blocks rest (u64 (bitlen c + u32 (datalen c * 8))))) /\
  length (data (sha256_final c).2) = 64%nat.
Proof.
  intros Hc Hr. unfold sha256_final. set (bits := u64 _). destruct (put_holds rest 0x80 c Hc Hr) as (H1 & Es1 & _).
  rewrite <- Es1. set (c1 := put 0x80 c) in *. clearbody c1 bits. unfold tail_blocks.
  assert (Hd1 : datalen c1 = Z.of_nat (length rest) + 1) by (destruct H1 as (_ & -> & _); rewrite length_app; simpl; lia).
  rewrite Hd1. destruct (Z.ltb_spec 56 (Z.of_nat (length rest) + 1)), (Z.ltb_spec (Z.of_nat (length rest)) 56); try lia.
  - destruct (zero_to_holds 64 64 (rest ++ [0x80]) c1 H1) as (H2 & Es2 & _); [rewrite length_app; simpl; lia..|].
    change SHA256_BLOCK_SIZE with 64. set (c2 := zero_to 64 64 c1) in *. clearbody c2.
    rewrite length_app in H2. simpl length in H2. rewrite <- app_assoc in H2. simpl app in H2.
    replace (64 - Z.of_nat (length rest + 1)) with (63 - Z.of_nat (length rest)) in H2 by lia.
    pose proof (holds_full _ _ H2 ltac:(rewrite length_app; simpl; unfold zeros; rewrite length_replicate; lia)) as Ef.
    set (c3 := Ctx (data (sha256_transform c2)) 0 (bitlen (sha256_transform c2)) (state (sha256_transform c2))).
    assert (H3 : holds [] c3) by (split; [apply H2|done]).
    destruct (zero_to_holds 64 56 [] c3 H3) as ((L4 & _ & T4) & Es4 & _); [simpl; lia..|]. change (Z.of_nat (length [])) with 0 in T4. cbn [app] in T4.
    set (c4 := zero_to 64 56 c3) in *. clearbody c4. cbn [state data sha256_transform fst snd].
    rewrite Es4. unfold c3. cbn [state sha256_transform data]. rewrite Es2, Ef.
    change (length (zeros (56 - 0))) with 56%nat in T4. change (zeros (56 - 0)) with (zeros 56) in T4. rewrite T4. split; [done|].
    rewrite length_app, length_be_bytes. done.
  - destruct (zero_to_holds 64 56 (rest ++ [0x80]) c1 H1) as ((L2 & _ & T2) & Es2 & _); [rewrite length_app; simpl; lia..|].
    set (c2 := zero_to 64 56 c1) in *. clearbody c2. cbn [state data sha256_transform fst snd].
    assert (Hpre : (rest ++ [128]) ++ zeros (56 - Z.of_nat (length (rest ++ [128]))) = rest ++ 128 :: zeros (55 - Z.of_nat (length rest))).
    { rewrite <- app_assoc, length_app. simpl. do 3 f_equal. lia. }
    rewrite Hpre in T2.
    replace (length (rest ++ 128 :: zeros (55 - Z.of_nat (length rest)))) with 56%nat in T2
      by (rewrite length_app; simpl; unfold zeros; rewrite length_replicate; lia).
    rewrite Es2, T2, <- app_assoc. split; [done|].
    rewrite !length_app, length_be_bytes. simpl. unfold zeros. rewrite length_replicate. lia.
Qed.

Lemma final_std m c : absorbed m c -> (sha256_final c).1 = sha256_std m /\ length (data (sha256_final c).2) = 64%nat.
Proof.
  intros (Hlen & bs & rest & -> & Hbs & Hr & Hd & Ht & Hs & Hb).
  destruct (final_state rest c) as (-> & Hl); [done|done|]. split; [|done]. unfold sha256_std. f_equal.
  rewrite tail_blocks_pad by done.
  rewrite blocks_concat by (done || (apply Forall_app_2; [done|by apply tail_blocks_length])).
  rewrite foldl_app, Hs. f_equal. f_equal. rewrite Hb, Hd, u32_small by lia. unfold u64. rewrite Zplus_mod_idemp_l. f_equal.
  assert (Hn : Z.of_nat (length (concat bs)) = 64 * Z.of_nat (length bs)).
  { clear -Hbs. induction Hbs as [|b l Hlb Hl IH]; [done|]. simpl concat. rewrite length_app. simpl length. lia. }
  rewrite length_app. lia.
Qed.

Lemma foldl_update_absorbed chunks m c : absorbed m c -> absorbed (m ++ concat chunks) (foldl sha256_update c chunks).
Proof.
  revert m c. induction chunks as [|l ls IH]; intros m c Hc; simpl; [by rewrite app_nil_r|].
  rewrite app_assoc. apply IH. by apply update_absorbed.
Qed.

(** C12: streaming SHA-256 is SHA-256.  However a message is cut into pieces and fed to
    sha256_update, and whatever the context's buffer held before sha256_init, sha256_final
    returns the FIPS 180-4 digest of the concatenation: the compression function folded over
    the 64-byte blocks of the message padded with 0x80, zeros and its bit length as a big-endian
    64-bit number. *)
Theorem sha256_stream_correct garbage chunks :
  length garbage = 64%nat ->
  (sha256_final (foldl sha256_update (sha256_init (fresh_ctx garbage)) chunks)).1 = sha256_std (concat chunks).
Proof. intros Hg. apply final_std, (foldl_update_absorbed chunks []), init_absorbed, Hg. Qed.

Lemma hash_buf_std garbage m : length garbage = 64%nat -> hash_buf garbage m = sha256_std m.
Proof. intros Hg. apply final_std. apply (update_absorbed [] _ m). by apply init_absorbed. Qed.

Lemma length_std m : length (sha256_std m) = 32%nat.
Proof. apply length_digest. Qed.

Lemma hmac_sha256_std garbage key msg : length garbage = 64%nat -> hmac_sha256 garbage key msg = hmac_std key msg.
Proof.
  intros Hg. unfold hmac_sha256, hmac_std.
  assert (Ek : hmac_key garbage key = (let k0 := if 64 <? Z.of_nat (length key) then sha256_std key else key in
                                       k0 ++ zeros (64 - Z.of_nat (length k0)))).
  { unfold hmac_key. change SHA256_BLOCK_SIZE with 64. cbv zeta. destruct (64 <? _); [|done].
    rewrite hash_buf_std by done. by rewrite length_std. }
  rewrite Ek. cbv zeta. set (k := _ ++ zeros _). clearbody k.
  pose proof (update_absorbed _ _ msg (update_absorbed [] _ (map (fun b => Z.lxor b 0x36) k) (init_absorbed (fresh_ctx garbage) Hg))) as H1.
  destruct (final_std _ _ H1) as [E1 L1]. destruct (sha256_final (sha256_update (sha256_update _ _) msg)) as [inner c].
  cbn [fst snd] in *. rewrite E1. simpl app. apply final_std.
  apply (update_absorbed _ _ _ (update_absorbed [] _ _ (init_absorbed c L1))).
Qed.

Lemma pbkdf2_loop_std n garbage password salt i T :
  length garbage = 64%nat ->
  pbkdf2_loop n garbage password (U_std password salt i) T = foldl xor_bytes T (map (U_std password salt) (seq (S i) n)).
Proof.
  intros Hg. revert i T. induction n as [|n IH]; intros i T; [done|]. simpl.
  rewrite hmac_sha256_std by done. apply (IH (S i)).
Qed.

(** C21: the password hash is PBKDF2-HMAC-SHA256.  hmac_sha256 is the RFC 2104 construction for
    every key length, and with a salt that fits the block buffer pbkdf2_hmac_sha256 returns the
    first output block of RFC 8018 for the given iteration count, whatever the stack held; a
    longer salt overruns the buffer. *)
Theorem pbkdf2_correct garbage password salt iterations :
  length garbage = 64%nat -> 0 <= iterations < 2 ^ 32 - 1 ->
  (forall msg, hmac_sha256 garbage password msg = hmac_std password msg) /\
  pbkdf2_hmac_sha256 garbage password salt iterations =
    if 32 <? Z.of_nat (length salt) then None else Some (pbkdf2_std password salt (Z.to_nat iterations)).
Proof.
  intros Hg Hi. split; [intros; by apply hmac_sha256_std|].
  unfold pbkdf2_hmac_sha256. change SHA256_DIGEST_SIZE with 32. destruct (32 <? _); [done|]. f_equal.
  rewrite hmac_sha256_std by done. change (hmac_std password (salt ++ [0; 0; 0; 1])) with (U_std password salt 0).
  rewrite pbkdf2_loop_std by done. unfold pbkdf2_std. do 3 f_equal. lia.
Qed.

Lemma sha256_stream_correct_witness :
  hash_buf (zeros 64) [97; 98; 99] = sha256_std [97; 98; 99] /\
  (sha256_final (foldl sha256_update (sha256_init (fresh_ctx (zeros 64))) [[97]; []; [98; 99]])).1 = sha256_std [97; 98; 99].
Proof. split; [by vm_compute|]. by apply (sha256_stream_correct (zeros 64) [[97]; []; [98; 99]]). Defined.

Lemma pbkdf2_correct_witness :
  pbkdf2_hmac_sha256 (zeros 64) [112] [115] 2 = Some (pbkdf2_std [112] [115] 2).
Proof. apply (pbkdf2_correct (zeros 64) [112] [115] 2); [done|lia]. Defined.

(** FIPS 180-4 and RFC 4231 test vectors. *)
Example abc_digest : sha256_std [97; 98; 99] =
  [0xba;0x78;0x16;0xbf;0x8f;0x01;0xcf;0xea;0x41;0x41;0x40;0xde;0x5d;0xae;0x22;0x23;
   0xb0;0x03;0x61;0xa3;0x96;0x17;0x7a;0x9c;0xb4;0x10;0xff;0x61;0xf2;0x00;0x15;0xad].
Proof. by vm_compute. Qed.

Example hmac_vector : hmac_std (replicate 20 0x0b) [0x48; 0x69; 0x20; 0x54; 0x68; 0x65; 0x72; 0x65] =
  [0xb0;0x34;0x4c;0x61;0xd8;0xdb;0x38;0x53;0x5c;0xa8;0xaf;0xce;0xaf;0x0b;0xf1;0x2b;
   0x88;0x1d;0xc2;0x00;0xc9;0x83;0x3d;0xa7;0x26;0xe9;0x37;0x6c;0x2e;0x32;0xcf;0xf7].
Proof. by vm_compute. Qed.

End Sha256.
