(* ===== verification/NetBase.v ===== *)
(** Network stack: the wire formats and the state (src/kernel/kernel.h, arp.c, ip.c, udp.c,
    tcp.h, net.c, dns.c, dhcp.c).

    A packet is the list of its bytes.  IPv4 addresses are kept as the code keeps them, as
    integers whose low byte is the first octet.  The state holds every static table of the
    stack; frames handed to the driver are appended to [wire_tx] and frames it will deliver
    are taken from [wire_rx].  The kernel heap may fail at any allocation: [can_alloc] says
    whether the [i]-th one succeeds. *)
From Stdlib Require Import ZArith Lia.
From S2P Require Import Prelude.

(** * Bytes *)

(** A 16-bit field after htons, and an address or counter as stored. *)
Definition be16 (v : Z) : list Z := [u8 (v >> 8); u8 v].
Definition be32b (v : Z) : list Z := [u8 (v >> 24); u8 (v >> 16); u8 (v >> 8); u8 v].
Definition le32 (v : Z) : list Z := [u8 v; u8 (v >> 8); u8 (v >> 16); u8 (v >> 24)].

(** Byte [i] of a packet the code reads inside its bounds. *)
Definition byte_at (p : list Z) (i : Z) : Z := nth (Z.to_nat i) p 0.
Definition get_be16 (p : list Z) (i : Z) : Z := (byte_at p i << 8) .| byte_at p (i + 1).
Definition get_be32 (p : list Z) (i : Z) : Z :=
  (byte_at p i << 24) .| (byte_at p (i + 1) << 16) .| (byte_at p (i + 2) << 8) .| byte_at p (i + 3).
Definition get_le32 (p : list Z) (i : Z) : Z :=
  byte_at p i .| (byte_at p (i + 1) << 8) .| (byte_at p (i + 2) << 16) .| (byte_at p (i + 3) << 24).

(** A read the code does not check: [None] is outside the buffer. *)
Definition rd (p : list Z) (i : Z) : option Z := if i <? 0 then None else p !! Z.to_nat i.

Definition plen (p : list Z) : Z := Z.of_nat (length p).

(** * State *)

Record iface := Iface {
  if_name : list Z;  (* empty: the slot is unused *)
  if_mac : list Z;
  if_ip : Z;
  if_netmask : Z;
  if_gateway : Z
}.

Definition set_if_name (v : list Z) (r : iface) : iface :=
  Iface v (if_mac r) (if_ip r) (if_netmask r) (if_gateway r).
Definition set_if_mac (v : list Z) (r : iface) : iface :=
  Iface (if_name r) v (if_ip r) (if_netmask r) (if_gateway r).
Definition set_if_ip (v : Z) (r : iface) : iface :=
  Iface (if_name r) (if_mac r) v (if_netmask r) (if_gateway r).
Definition set_if_netmask (v : Z) (r : iface) : iface :=
  Iface (if_name r) (if_mac r) (if_ip r) v (if_gateway r).
Definition set_if_gateway (v : Z) (r : iface) : iface :=
  Iface (if_name r) (if_mac r) (if_ip r) (if_netmask r) v.

Record arp_entry := ArpEntry {
  ae_ip : Z;
  ae_mac : list Z;
  ae_valid : Z
}.

Definition set_ae_ip (v : Z) (r : arp_entry) : arp_entry :=
  ArpEntry v (ae_mac r) (ae_valid r).
Definition set_ae_mac (v : list Z) (r : arp_entry) : arp_entry :=
  ArpEntry (ae_ip r) v (ae_valid r).
Definition set_ae_valid (v : Z) (r : arp_entry) : arp_entry :=
  ArpEntry (ae_ip r) (ae_mac r) v.

(** Kernel functions registered for UDP ports. *)
Inductive handler := UdpEcho | DnsResponse | DhcpRx.
#[export] Instance handler_eq_dec : EqDecision handler.
Proof. solve_decision. Defined.

Record udp_listener := UdpListener {
  ul_port : Z;
  ul_handler : option handler;
  ul_active : Z
}.

Definition set_ul_port (v : Z) (r : udp_listener) : udp_listener :=
  UdpListener v (ul_handler r) (ul_active r).
Definition set_ul_handler (v : option handler) (r : udp_listener) : udp_listener :=
  UdpListener (ul_port r) v (ul_active r).
Definition set_ul_active (v : Z) (r : udp_listener) : udp_listener :=
  UdpListener (ul_port r) (ul_handler r) v.

Record dgram := Dgram { dg_src_ip : Z; dg_src_port : Z; dg_data : list Z }.

Record nsock := Nsock {
  in_use : Z;
  sock_type : Z;
  tcp_conn : Z;
  local_port : Z;
  listening : Z;
  dq : option (list dgram);  (* UDP receive ring, UDP_QUEUE entries *)
  dq_head : Z;
  dq_tail : Z
}.

Definition set_in_use (v : Z) (r : nsock) : nsock :=
  Nsock v (sock_type r) (tcp_conn r) (local_port r) (listening r) (dq r) (dq_head r) (dq_tail r).
Definition set_sock_type (v : Z) (r : nsock) : nsock :=
  Nsock (in_use r) v (tcp_conn r) (local_port r) (listening r) (dq r) (dq_head r) (dq_tail r).
Definition set_tcp_conn (v : Z) (r : nsock) : nsock :=
  Nsock (in_use r) (sock_type r) v (local_port r) (listening r) (dq r) (dq_head r) (dq_tail r).
Definition set_local_port (v : Z) (r : nsock) : nsock :=
  Nsock (in_use r) (sock_type r) (tcp_conn r) v (listening r) (dq r) (dq_head r) (dq_tail r).
Definition set_listening (v : Z) (r : nsock) : nsock :=
  Nsock (in_use r) (sock_type r) (tcp_conn r) (local_port r) v (dq r) (dq_head r) (dq_tail r).
Definition set_dq (v : option (list dgram)) (r : nsock) : nsock :=
  Nsock (in_use r) (sock_type r) (tcp_conn r) (local_port r) (listening r) v (dq_head r) (dq_tail
    r).
Definition set_dq_head (v : Z) (r : nsock) : nsock :=
  Nsock (in_use r) (sock_type r) (tcp_conn r) (local_port r) (listening r) (dq r) v (dq_tail r).
Definition set_dq_tail (v : Z) (r : nsock) : nsock :=
  Nsock (in_use r) (sock_type r) (tcp_conn r) (local_port r) (listening r) (dq r) (dq_head r) v.

Record conn := Conn {
  c_active : Z;
  c_state : Z;
  accepted : Z;
  src_ip : Z;
  dst_ip : Z;
  src_port : Z;
  dst_port : Z;
  seq_no : Z;
  ack_no : Z;
  recv_buf : option (list Z);  (* the first recv_len bytes *)
  recv_cap : Z;
  sent_unacked : Z;
  rt_seg : option (list Z);  (* the first rt_len bytes *)
  rt_ack_seq : Z;
  rt_sent_tick : Z;
  rt_rto : Z;
  rt_retries : Z
}.

Definition set_c_active (v : Z) (r : conn) : conn :=
  Conn v (c_state r) (accepted r) (src_ip r) (dst_ip r) (src_port r) (dst_port r) (seq_no r)
    (ack_no r) (recv_buf r) (recv_cap r) (sent_unacked r) (rt_seg r) (rt_ack_seq r) (rt_sent_tick
    r) (rt_rto r) (rt_retries r).
Definition set_c_state (v : Z) (r : conn) : conn :=
  Conn (c_active r) v (accepted r) (src_ip r) (dst_ip r) (src_port r) (dst_port r) (seq_no r)
    (ack_no r) (recv_buf r) (recv_cap r) (sent_unacked r) (rt_seg r) (rt_ack_seq r) (rt_sent_tick
    r) (rt_rto r) (rt_retries r).
Definition set_accepted (v : Z) (r : conn) : conn :=
  Conn (c_active r) (c_state r) v (src_ip r) (dst_ip r) (src_port r) (dst_port r) (seq_no r)
    (ack_no r) (recv_buf r) (recv_cap r) (sent_unacked r) (rt_seg r) (rt_ack_seq r) (rt_sent_tick
    r) (rt_rto r) (rt_retries r).
Definition set_src_ip (v : Z) (r : conn) : conn :=
  Conn (c_active r) (c_state r) (accepted r) v (dst_ip r) (src_port r) (dst_port r) (seq_no r)
    (ack_no r) (recv_buf r) (recv_cap r) (sent_unacked r) (rt_seg r) (rt_ack_seq r) (rt_sent_tick
    r) (rt_rto r) (rt_retries r).
Definition set_dst_ip (v : Z) (r : conn) : conn :=
  Conn (c_active r) (c_state r) (accepted r) (src_ip r) v (src_port r) (dst_port r) (seq_no r)
    (ack_no r) (recv_buf r) (recv_cap r) (sent_unacked r) (rt_seg r) (rt_ack_seq r) (rt_sent_tick
    r) (rt_rto r) (rt_retries r).
Definition set_src_port (v : Z) (r : conn) : conn :=
  Conn (c_active r) (c_state r) (accepted r) (src_ip r) (dst_ip r) v (dst_port r) (seq_no r)
    (ack_no r) (recv_buf r) (recv_cap r) (sent_unacked r) (rt_seg r) (rt_ack_seq r) (rt_sent_tick
    r) (rt_rto r) (rt_retries r).
Definition set_dst_port (v : Z) (r : conn) : conn :=
  Conn (c_active r) (c_state r) (accepted r) (src_ip r) (dst_ip r) (src_port r) v (seq_no r)
    (ack_no r) (recv_buf r) (recv_cap r) (sent_unacked r) (rt_seg r) (rt_ack_seq r) (rt_sent_tick
    r) (rt_rto r) (rt_retries r).
Definition set_seq_no (v : Z) (r : conn) : conn :=
  Conn (c_active r) (c_state r) (accepted r) (src_ip r) (dst_ip r) (src_port r) (dst_port r) v
    (ack_no r) (recv_buf r) (recv_cap r) (sent_unacked r) (rt_seg r) (rt_ack_seq r) (rt_sent_tick
    r) (rt_rto r) (rt_retries r).
Definition set_ack_no (v : Z) (r : conn) : conn :=
  Conn (c_active r) (c_state r) (accepted r) (src_ip r) (dst_ip r) (src_port r) (dst_port r)
    (seq_no r) v (recv_buf r) (recv_cap r) (sent_unacked r) (rt_seg r) (rt_ack_seq r) (rt_sent_tick
    r) (rt_rto r) (rt_retries r).
Definition set_recv_buf (v : option (list Z)) (r : conn) : conn :=
  Conn (c_active r) (c_state r) (accepted r) (src_ip r) (dst_ip r) (src_port r) (dst_port r)
    (seq_no r) (ack_no r) v (recv_cap r) (sent_unacked r) (rt_seg r) (rt_ack_seq r) (rt_sent_tick
    r) (rt_rto r) (rt_retries r).
Definition set_recv_cap (v : Z) (r : conn) : conn :=
  Conn (c_active r) (c_state r) (accepted r) (src_ip r) (dst_ip r) (src_port r) (dst_port r)
    (seq_no r) (ack_no r) (recv_buf r) v (sent_unacked r) (rt_seg r) (rt_ack_seq r) (rt_sent_tick
    r) (rt_rto r) (rt_retries r).
Definition set_sent_unacked (v : Z) (r : conn) : conn :=
  Conn (c_active r) (c_state r) (accepted r) (src_ip r) (dst_ip r) (src_port r) (dst_port r)
    (seq_no r) (ack_no r) (recv_buf r) (recv_cap r) v (rt_seg r) (rt_ack_seq r) (rt_sent_tick r)
    (rt_rto r) (rt_retries r).
Definition set_rt_seg (v : option (list Z)) (r : conn) : conn :=
  Conn (c_active r) (c_state r) (accepted r) (src_ip r) (dst_ip r) (src_port r) (dst_port r)
    (seq_no r) (ack_no r) (recv_buf r) (recv_cap r) (sent_unacked r) v (rt_ack_seq r) (rt_sent_tick
    r) (rt_rto r) (rt_retries r).
Definition set_rt_ack_seq (v : Z) (r : conn) : conn :=
  Conn (c_active r) (c_state r) (accepted r) (src_ip r) (dst_ip r) (src_port r) (dst_port r)
    (seq_no r) (ack_no r) (recv_buf r) (recv_cap r) (sent_unacked r) (rt_seg r) v (rt_sent_tick r)
    (rt_rto r) (rt_retries r).
Definition set_rt_sent_tick (v : Z) (r : conn) : conn :=
  Conn (c_active r) (c_state r) (accepted r) (src_ip r) (dst_ip r) (src_port r) (dst_port r)
    (seq_no r) (ack_no r) (recv_buf r) (recv_cap r) (sent_unacked r) (rt_seg r) (rt_ack_seq r) v
    (rt_rto r) (rt_retries r).
Definition set_rt_rto (v : Z) (r : conn) : conn :=
  Conn (c_active r) (c_state r) (accepted r) (src_ip r) (dst_ip r) (src_port r) (dst_port r)
    (seq_no r) (ack_no r) (recv_buf r) (recv_cap r) (sent_unacked r) (rt_seg r) (rt_ack_seq r)
    (rt_sent_tick r) v (rt_retries r).
Definition set_rt_retries (v : Z) (r : conn) : conn :=
  Conn (c_active r) (c_state r) (accepted r) (src_ip r) (dst_ip r) (src_port r) (dst_port r)
    (seq_no r) (ack_no r) (recv_buf r) (recv_cap r) (sent_unacked r) (rt_seg r) (rt_ack_seq r)
    (rt_sent_tick r) (rt_rto r) v.

Record ping_part := PingPart {
  ping_ident : Z;
  ping_wait_seq : Z;
  ping_got_reply : Z;
  ping_reply_tick : Z;
  ping_reply_ttl : Z;
  ping_reply_len : Z
}.

Definition set_ping_ident (v : Z) (r : ping_part) : ping_part :=
  PingPart v (ping_wait_seq r) (ping_got_reply r) (ping_reply_tick r) (ping_reply_ttl r)
    (ping_reply_len r).
Definition set_ping_wait_seq (v : Z) (r : ping_part) : ping_part :=
  PingPart (ping_ident r) v (ping_got_reply r) (ping_reply_tick r) (ping_reply_ttl r)
    (ping_reply_len r).
Definition set_ping_got_reply (v : Z) (r : ping_part) : ping_part :=
  PingPart (ping_ident r) (ping_wait_seq r) v (ping_reply_tick r) (ping_reply_ttl r)
    (ping_reply_len r).
Definition set_ping_reply_tick (v : Z) (r : ping_part) : ping_part :=
  PingPart (ping_ident r) (ping_wait_seq r) (ping_got_reply r) v (ping_reply_ttl r) (ping_reply_len
    r).
Definition set_ping_reply_ttl (v : Z) (r : ping_part) : ping_part :=
  PingPart (ping_ident r) (ping_wait_seq r) (ping_got_reply r) (ping_reply_tick r) v
    (ping_reply_len r).
Definition set_ping_reply_len (v : Z) (r : ping_part) : ping_part :=
  PingPart (ping_ident r) (ping_wait_seq r) (ping_got_reply r) (ping_reply_tick r) (ping_reply_ttl
    r) v.

Record dhcp_part := DhcpPart {
  dhcp_xid : Z;
  dhcp_state : Z;
  dhcp_offered_ip : Z;
  dhcp_server_ip : Z;
  dhcp_rx_buf : list Z;  (* 1024 bytes *)
  dhcp_rx_len : Z;
  dhcp_rx_src : Z
}.

Definition set_dhcp_xid (v : Z) (r : dhcp_part) : dhcp_part :=
  DhcpPart v (dhcp_state r) (dhcp_offered_ip r) (dhcp_server_ip r) (dhcp_rx_buf r) (dhcp_rx_len r)
    (dhcp_rx_src r).
Definition set_dhcp_state (v : Z) (r : dhcp_part) : dhcp_part :=
  DhcpPart (dhcp_xid r) v (dhcp_offered_ip r) (dhcp_server_ip r) (dhcp_rx_buf r) (dhcp_rx_len r)
    (dhcp_rx_src r).
Definition set_dhcp_offered_ip (v : Z) (r : dhcp_part) : dhcp_part :=
  DhcpPart (dhcp_xid r) (dhcp_state r) v (dhcp_server_ip r) (dhcp_rx_buf r) (dhcp_rx_len r)
    (dhcp_rx_src r).
Definition set_dhcp_server_ip (v : Z) (r : dhcp_part) : dhcp_part :=
  DhcpPart (dhcp_xid r) (dhcp_state r) (dhcp_offered_ip r) v (dhcp_rx_buf r) (dhcp_rx_len r)
    (dhcp_rx_src r).
Definition set_dhcp_rx_buf (v : list Z) (r : dhcp_part) : dhcp_part :=
  DhcpPart (dhcp_xid r) (dhcp_state r) (dhcp_offered_ip r) (dhcp_server_ip r) v (dhcp_rx_len r)
    (dhcp_rx_src r).
Definition set_dhcp_rx_len (v : Z) (r : dhcp_part) : dhcp_part :=
  DhcpPart (dhcp_xid r) (dhcp_state r) (dhcp_offered_ip r) (dhcp_server_ip r) (dhcp_rx_buf r) v
    (dhcp_rx_src r).
Definition set_dhcp_rx_src (v : Z) (r : dhcp_part) : dhcp_part :=
  DhcpPart (dhcp_xid r) (dhcp_state r) (dhcp_offered_ip r) (dhcp_server_ip r) (dhcp_rx_buf r)
    (dhcp_rx_len r) v.

Record dns_part := DnsPart {
  dns_server_ip : Z;
  dns_response_ready : Z;
  dns_response_ip : Z;
  dns_sport : Z
}.

Definition set_dns_server_ip (v : Z) (r : dns_part) : dns_part :=
  DnsPart v (dns_response_ready r) (dns_response_ip r) (dns_sport r).
Definition set_dns_response_ready (v : Z) (r : dns_part) : dns_part :=
  DnsPart (dns_server_ip r) v (dns_response_ip r) (dns_sport r).
Definition set_dns_response_ip (v : Z) (r : dns_part) : dns_part :=
  DnsPart (dns_server_ip r) (dns_response_ready r) v (dns_sport r).
Definition set_dns_sport (v : Z) (r : dns_part) : dns_part :=
  DnsPart (dns_server_ip r) (dns_response_ready r) (dns_response_ip r) v.

Record net := Net {
  net_interfaces : list iface;  (* 8 *)
  arp_cache : list arp_entry;  (* ARP_CACHE_SIZE *)
  lo_ring : Z -> list Z;
  lo_head : Z;
  lo_tail : Z;
  g_last_rx_ttl : Z;
  udp_listeners : list udp_listener;  (* 16 *)
  nsocks : list nsock;  (* MAX_SOCKETS *)
  ephemeral : Z;
  eph : Z;
  conns : list conn;  (* TCP_MAX_CONNS *)
  next_isn : Z;
  g_tcp_drop_tx : Z;
  echo_listen : Z;
  echo_conns : list Z;  (* ECHO_MAX *)
  ping : ping_part;
  dhcp : dhcp_part;
  dns : dns_part;
  ticks : Z;  (* tick_count *)
  allocs : nat;  (* allocations made so far *)
  nic_up : bool;  (* rtl_initialized *)
  wire_tx : list (list Z);
  wire_rx : list (list Z);
  null_write : bool  (* a NULL buffer was written through; the state means nothing after *)
}.

Definition set_net_interfaces (v : list iface) (r : net) : net :=
  Net v (arp_cache r) (lo_ring r) (lo_head r) (lo_tail r) (g_last_rx_ttl r) (udp_listeners r)
    (nsocks r) (ephemeral r) (eph r) (conns r) (next_isn r) (g_tcp_drop_tx r) (echo_listen r)
    (echo_conns r) (ping r) (dhcp r) (dns r) (ticks r) (allocs r) (nic_up r) (wire_tx r) (wire_rx
    r) (null_write r).
Definition set_arp_cache (v : list arp_entry) (r : net) : net :=
  Net (net_interfaces r) v (lo_ring r) (lo_head r) (lo_tail r) (g_last_rx_ttl r) (udp_listeners r)
    (nsocks r) (ephemeral r) (eph r) (conns r) (next_isn r) (g_tcp_drop_tx r) (echo_listen r)
    (echo_conns r) (ping r) (dhcp r) (dns r) (ticks r) (allocs r) (nic_up r) (wire_tx r) (wire_rx
    r) (null_write r).
Definition set_lo_ring (v : Z -> list Z) (r : net) : net :=
  Net (net_interfaces r) (arp_cache r) v (lo_head r) (lo_tail r) (g_last_rx_ttl r) (udp_listeners
    r) (nsocks r) (ephemeral r) (eph r) (conns r) (next_isn r) (g_tcp_drop_tx r) (echo_listen r)
    (echo_conns r) (ping r) (dhcp r) (dns r) (ticks r) (allocs r) (nic_up r) (wire_tx r) (wire_rx
    r) (null_write r).
Definition set_lo_head (v : Z) (r : net) : net :=
  Net (net_interfaces r) (arp_cache r) (lo_ring r) v (lo_tail r) (g_last_rx_ttl r) (udp_listeners
    r) (nsocks r) (ephemeral r) (eph r) (conns r) (next_isn r) (g_tcp_drop_tx r) (echo_listen r)
    (echo_conns r) (ping r) (dhcp r) (dns r) (ticks r) (allocs r) (nic_up r) (wire_tx r) (wire_rx
    r) (null_write r).
Definition set_lo_tail (v : Z) (r : net) : net :=
  Net (net_interfaces r) (arp_cache r) (lo_ring r) (lo_head r) v (g_last_rx_ttl r) (udp_listeners
    r) (nsocks r) (ephemeral r) (eph r) (conns r) (next_isn r) (g_tcp_drop_tx r) (echo_listen r)
    (echo_conns r) (ping r) (dhcp r) (dns r) (ticks r) (allocs r) (nic_up r) (wire_tx r) (wire_rx
    r) (null_write r).
Definition set_g_last_rx_ttl (v : Z) (r : net) : net :=
  Net (net_interfaces r) (arp_cache r) (lo_ring r) (lo_head r) (lo_tail r) v (udp_listeners r)
    (nsocks r) (ephemeral r) (eph r) (conns r) (next_isn r) (g_tcp_drop_tx r) (echo_listen r)
    (echo_conns r) (ping r) (dhcp r) (dns r) (ticks r) (allocs r) (nic_up r) (wire_tx r) (wire_rx
    r) (null_write r).
Definition set_udp_listeners (v : list udp_listener) (r : net) : net :=
  Net (net_interfaces r) (arp_cache r) (lo_ring r) (lo_head r) (lo_tail r) (g_last_rx_ttl r) v
    (nsocks r) (ephemeral r) (eph r) (conns r) (next_isn r) (g_tcp_drop_tx r) (echo_listen r)
    (echo_conns r) (ping r) (dhcp r) (dns r) (ticks r) (allocs r) (nic_up r) (wire_tx r) (wire_rx
    r) (null_write r).
Definition set_nsocks (v : list nsock) (r : net) : net :=
  Net (net_interfaces r) (arp_cache r) (lo_ring r) (lo_head r) (lo_tail r) (g_last_rx_ttl r)
    (udp_listeners r) v (ephemeral r) (eph r) (conns r) (next_isn r) (g_tcp_drop_tx r) (echo_listen
    r) (echo_conns r) (ping r) (dhcp r) (dns r) (ticks r) (allocs r) (nic_up r) (wire_tx r)
    (wire_rx r) (null_write r).
Definition set_ephemeral (v : Z) (r : net) : net :=
  Net (net_interfaces r) (arp_cache r) (lo_ring r) (lo_head r) (lo_tail r) (g_last_rx_ttl r)
    (udp_listeners r) (nsocks r) v (eph r) (conns r) (next_isn r) (g_tcp_drop_tx r) (echo_listen r)
    (echo_conns r) (ping r) (dhcp r) (dns r) (ticks r) (allocs r) (nic_up r) (wire_tx r) (wire_rx
    r) (null_write r).
Definition set_eph (v : Z) (r : net) : net :=
  Net (net_interfaces r) (arp_cache r) (lo_ring r) (lo_head r) (lo_tail r) (g_last_rx_ttl r)
    (udp_listeners r) (nsocks r) (ephemeral r) v (conns r) (next_isn r) (g_tcp_drop_tx r)
    (echo_listen r) (echo_conns r) (ping r) (dhcp r) (dns r) (ticks r) (allocs r) (nic_up r)
    (wire_tx r) (wire_rx r) (null_write r).
Definition set_conns (v : list conn) (r : net) : net :=
  Net (net_interfaces r) (arp_cache r) (lo_ring r) (lo_head r) (lo_tail r) (g_last_rx_ttl r)
    (udp_listeners r) (nsocks r) (ephemeral r) (eph r) v (next_isn r) (g_tcp_drop_tx r)
    (echo_listen r) (echo_conns r) (ping r) (dhcp r) (dns r) (ticks r) (allocs r) (nic_up r)
    (wire_tx r) (wire_rx r) (null_write r).
Definition set_next_isn (v : Z) (r : net) : net :=
  Net (net_interfaces r) (arp_cache r) (lo_ring r) (lo_head r) (lo_tail r) (g_last_rx_ttl r)
    (udp_listeners r) (nsocks r) (ephemeral r) (eph r) (conns r) v (g_tcp_drop_tx r) (echo_listen
    r) (echo_conns r) (ping r) (dhcp r) (dns r) (ticks r) (allocs r) (nic_up r) (wire_tx r)
    (wire_rx r) (null_write r).
Definition set_g_tcp_drop_tx (v : Z) (r : net) : net :=
  Net (net_interfaces r) (arp_cache r) (lo_ring r) (lo_head r) (lo_tail r) (g_last_rx_ttl r)
    (udp_listeners r) (nsocks r) (ephemeral r) (eph r) (conns r) (next_isn r) v (echo_listen r)
    (echo_conns r) (ping r) (dhcp r) (dns r) (ticks r) (allocs r) (nic_up r) (wire_tx r) (wire_rx
    r) (null_write r).
Definition set_echo_listen (v : Z) (r : net) : net :=
  Net (net_interfaces r) (arp_cache r) (lo_ring r) (lo_head r) (lo_tail r) (g_last_rx_ttl r)
    (udp_listeners r) (nsocks r) (ephemeral r) (eph r) (conns r) (next_isn r) (g_tcp_drop_tx r) v
    (echo_conns r) (ping r) (dhcp r) (dns r) (ticks r) (allocs r) (nic_up r) (wire_tx r) (wire_rx
    r) (null_write r).
Definition set_echo_conns (v : list Z) (r : net) : net :=
  Net (net_interfaces r) (arp_cache r) (lo_ring r) (lo_head r) (lo_tail r) (g_last_rx_ttl r)
    (udp_listeners r) (nsocks r) (ephemeral r) (eph r) (conns r) (next_isn r) (g_tcp_drop_tx r)
    (echo_listen r) v (ping r) (dhcp r) (dns r) (ticks r) (allocs r) (nic_up r) (wire_tx r)
    (wire_rx r) (null_write r).
Definition set_ping (v : ping_part) (r : net) : net :=
  Net (net_interfaces r) (arp_cache r) (lo_ring r) (lo_head r) (lo_tail r) (g_last_rx_ttl r)
    (udp_listeners r) (nsocks r) (ephemeral r) (eph r) (conns r) (next_isn r) (g_tcp_drop_tx r)
    (echo_listen r) (echo_conns r) v (dhcp r) (dns r) (ticks r) (allocs r) (nic_up r) (wire_tx r)
    (wire_rx r) (null_write r).
Definition set_dhcp (v : dhcp_part) (r : net) : net :=
  Net (net_interfaces r) (arp_cache r) (lo_ring r) (lo_head r) (lo_tail r) (g_last_rx_ttl r)
    (udp_listeners r) (nsocks r) (ephemeral r) (eph r) (conns r) (next_isn r) (g_tcp_drop_tx r)
    (echo_listen r) (echo_conns r) (ping r) v (dns r) (ticks r) (allocs r) (nic_up r) (wire_tx r)
    (wire_rx r) (null_write r).
Definition set_dns (v : dns_part) (r : net) : net :=
  Net (net_interfaces r) (arp_cache r) (lo_ring r) (lo_head r) (lo_tail r) (g_last_rx_ttl r)
    (udp_listeners r) (nsocks r) (ephemeral r) (eph r) (conns r) (next_isn r) (g_tcp_drop_tx r)
    (echo_listen r) (echo_conns r) (ping r) (dhcp r) v (ticks r) (allocs r) (nic_up r) (wire_tx r)
    (wire_rx r) (null_write r).
Definition set_ticks (v : Z) (r : net) : net :=
  Net (net_interfaces r) (arp_cache r) (lo_ring r) (lo_head r) (lo_tail r) (g_last_rx_ttl r)
    (udp_listeners r) (nsocks r) (ephemeral r) (eph r) (conns r) (next_isn r) (g_tcp_drop_tx r)
    (echo_listen r) (echo_conns r) (ping r) (dhcp r) (dns r) v (allocs r) (nic_up r) (wire_tx r)
    (wire_rx r) (null_write r).
Definition set_allocs (v : nat) (r : net) : net :=
  Net (net_interfaces r) (arp_cache r) (lo_ring r) (lo_head r) (lo_tail r) (g_last_rx_ttl r)
    (udp_listeners r) (nsocks r) (ephemeral r) (eph r) (conns r) (next_isn r) (g_tcp_drop_tx r)
    (echo_listen r) (echo_conns r) (ping r) (dhcp r) (dns r) (ticks r) v (nic_up r) (wire_tx r)
    (wire_rx r) (null_write r).
Definition set_nic_up (v : bool) (r : net) : net :=
  Net (net_interfaces r) (arp_cache r) (lo_ring r) (lo_head r) (lo_tail r) (g_last_rx_ttl r)
    (udp_listeners r) (nsocks r) (ephemeral r) (eph r) (conns r) (next_isn r) (g_tcp_drop_tx r)
    (echo_listen r) (echo_conns r) (ping r) (dhcp r) (dns r) (ticks r) (allocs r) v (wire_tx r)
    (wire_rx r) (null_write r).
Definition set_wire_tx (v : list (list Z)) (r : net) : net :=
  Net (net_interfaces r) (arp_cache r) (lo_ring r) (lo_head r) (lo_tail r) (g_last_rx_ttl r)
    (udp_listeners r) (nsocks r) (ephemeral r) (eph r) (conns r) (next_isn r) (g_tcp_drop_tx r)
    (echo_listen r) (echo_conns r) (ping r) (dhcp r) (dns r) (ticks r) (allocs r) (nic_up r) v
    (wire_rx r) (null_write r).
Definition set_wire_rx (v : list (list Z)) (r : net) : net :=
  Net (net_interfaces r) (arp_cache r) (lo_ring r) (lo_head r) (lo_tail r) (g_last_rx_ttl r)
    (udp_listeners r) (nsocks r) (ephemeral r) (eph r) (conns r) (next_isn r) (g_tcp_drop_tx r)
    (echo_listen r) (echo_conns r) (ping r) (dhcp r) (dns r) (ticks r) (allocs r) (nic_up r)
    (wire_tx r) v (null_write r).
Definition set_null_write (v : bool) (r : net) : net :=
  Net (net_interfaces r) (arp_cache r) (lo_ring r) (lo_head r) (lo_tail r) (g_last_rx_ttl r)
    (udp_listeners r) (nsocks r) (ephemeral r) (eph r) (conns r) (next_isn r) (g_tcp_drop_tx r)
    (echo_listen r) (echo_conns r) (ping r) (dhcp r) (dns r) (ticks r) (allocs r) (nic_up r)
    (wire_tx r) (wire_rx r) v.

Definition on_ping (f : ping_part -> ping_part) (s : net) : net := set_ping (f (ping s)) s.
Definition on_dhcp (f : dhcp_part -> dhcp_part) (s : net) : net := set_dhcp (f (dhcp s)) s.
Definition on_dns (f : dns_part -> dns_part) (s : net) : net := set_dns (f (dns s)) s.

(** [conns[i].field = v], and the other tables updated by index. *)
Definition on_conn (i : Z) (f : conn -> conn) (s : net) : net := set_conns (alter f (Z.to_nat i) (conns s)) s.
Definition on_nsock (i : Z) (f : nsock -> nsock) (s : net) : net := set_nsocks (alter f (Z.to_nat i) (nsocks s)) s.
Definition on_listener (i : nat) (f : udp_listener -> udp_listener) (s : net) : net :=
  set_udp_listeners (alter f i (udp_listeners s)) s.
Definition on_iface (i : Z) (f : iface -> iface) (s : net) : net :=
  set_net_interfaces (alter f (Z.to_nat i) (net_interfaces s)) s.

Definition no_iface : iface := Iface [] [] 0 0 0.
Definition iface_at (s : net) (i : Z) : iface := nth (Z.to_nat i) (net_interfaces s) no_iface.

(** * Outside the stack *)

(** Whether the [i]-th allocation, of [n] bytes, succeeds. *)
Class NetHeap := { can_alloc : nat -> Z -> bool }.

(** [kernel_poll_net()] as seen by a call that waits for a reply. *)
Class Poll := { poll_net : net -> net }.

Definition net_kmalloc `{NetHeap} (n : Z) (s : net) : bool * net :=
  (can_alloc (allocs s) n, set_allocs (S (allocs s)) s).

Definition TX_BUF_SIZE : Z := 1536.

Definition rtl8139_send_packet (p : list Z) (s : net) : Z * net :=
  if negb (nic_up s) || (TX_BUF_SIZE <? plen p) then (-1, s) else (plen p, set_wire_tx (wire_tx s ++ [p]) s).

(** The next frame, [[]] when there is none. *)
Definition rtl8139_receive_packet (s : net) : list Z * net :=
  if negb (nic_up s) then ([], s)
  else match wire_rx s with [] => ([], s) | p :: rest => (take 2048 p, set_wire_rx rest s) end.

(** * Fields read back *)

Definition bytes_ok (l : list Z) : Prop := Forall (fun b => 0 <= b < 256) l.

Lemma u8_byte v k : 0 <= k -> u8 (v >> k) = (v / 2 ^ k) mod 256.
Proof. intros. unfold u8. by rewrite Z.shiftr_div_pow2. Qed.

Lemma lor_shift a b k : 0 <= k -> 0 <= b < 2 ^ k -> (a << k) .| b = a * 2 ^ k + b.
Proof.
  intros Hk Hb. assert (H : (a << k) .& b = 0).
  { apply Z.bits_inj'. intros j Hj. rewrite Z.land_spec, Z.bits_0, Z.shiftl_spec by lia.
    destruct (Z.ltb_spec j k).
    - by rewrite (Z.testbit_neg_r a) by lia.
    - rewrite (proj1 (Z.bounded_iff_bits_nonneg k b ltac:(lia) ltac:(lia)) ltac:(lia) j) by lia. by rewrite andb_false_r. }
  rewrite <- Z.lxor_lor by done. rewrite <- Z.add_nocarry_lxor by done. by rewrite Z.shiftl_mul_pow2 by lia.
Qed.

Lemma word_bytes a b : 0 <= a < 256 -> 0 <= b < 256 -> (a << 8) .| b = a * 256 + b.
Proof. intros. apply (lor_shift a b 8); lia. Qed.

Lemma u16_split v : 0 <= v < 2 ^ 16 -> (u8 (v >> 8) << 8) .| u8 v = v.
Proof.
  intros Hv. rewrite word_bytes by apply Z.mod_pos_bound, eq_refl. rewrite u8_byte by lia. unfold u8.
  change (2 ^ 8) with 256. rewrite (Z.mod_small (v / 256)) by (split; [apply Z.div_pos; lia|apply Z.div_lt_upper_bound; lia]).
  rewrite Z.mul_comm. symmetry. apply Z.div_mod. lia.
Qed.

Lemma u32_bytes v : 0 <= v < 2 ^ 32 ->
  u8 (v >> 24) * 2 ^ 24 + u8 (v >> 16) * 2 ^ 16 + u8 (v >> 8) * 2 ^ 8 + u8 v = v.
Proof.
  intros Hv. rewrite !u8_byte by lia. unfold u8. change (2 ^ 8) with 256. change (2 ^ 16) with 65536. change (2 ^ 24) with 16777216.
  Z.to_euclidean_division_equations. lia.
Qed.

Lemma u32_split v : 0 <= v < 2 ^ 32 -> (u8 (v >> 24) << 24) .| (u8 (v >> 16) << 16) .| (u8 (v >> 8) << 8) .| u8 v = v.
Proof.
  intros Hv. assert (Hu : forall x, 0 <= u8 x < 256) by (intros; apply Z.mod_pos_bound; lia).
  pose proof (Hu (v >> 24)). pose proof (Hu (v >> 16)). pose proof (Hu (v >> 8)). pose proof (Hu v).
  rewrite <- !Z.lor_assoc. rewrite (lor_shift (u8 (v >> 8)) _ 8) by lia.
  rewrite (lor_shift (u8 (v >> 16)) _ 16) by lia. rewrite (lor_shift (u8 (v >> 24)) _ 24) by lia.
  rewrite <- (u32_bytes v Hv) at 5. lia.
Qed.

Lemma u32_split_le v : 0 <= v < 2 ^ 32 -> u8 v .| (u8 (v >> 8) << 8) .| (u8 (v >> 16) << 16) .| (u8 (v >> 24) << 24) = v.
Proof.
  intros Hv. rewrite <- (u32_split v Hv) at 5.
  rewrite (Z.lor_comm (u8 v)), <- !Z.lor_assoc. rewrite (Z.lor_comm _ (u8 (v >> 24) << 24)).
  rewrite (Z.lor_comm (u8 v)). rewrite !Z.lor_assoc. f_equal. rewrite <- !Z.lor_assoc. rewrite Z.lor_comm. rewrite <- Z.lor_assoc. done.
Qed.

Lemma alter_at {A} (f : A -> A) (l : list A) i x : l !! i = Some x -> alter f i l = <[i := f x]> l.
Proof.
  intros H. apply list_eq. intros j. destruct (decide (i = j)) as [<-|Hne].
  - rewrite list_lookup_alter_eq, H, list_lookup_insert_eq by (by eapply lookup_lt_Some). done.
  - by rewrite list_lookup_alter_ne, list_lookup_insert_ne.
Qed.

Lemma be16_bytes v : bytes_ok (be16 v).
Proof. repeat constructor; apply Z.mod_pos_bound; lia. Qed.
Lemma le32_bytes v : bytes_ok (le32 v).
Proof. repeat constructor; apply Z.mod_pos_bound; lia. Qed.
Lemma be32b_bytes v : bytes_ok (be32b v).
Proof. repeat constructor; apply Z.mod_pos_bound; lia. Qed.
