(* ===== verification/Ip.v ===== *)
(** Ethernet, ARP and IPv4 (src/kernel/ethernet.c, arp.c, ip.c): framing, the address cache,
    the Internet checksum, sending and the loopback ring.  Receiving is in NetPoll.v, as it
    calls into every protocol. *)
From Stdlib Require Import ZArith Lia.
From S2P Require Import Prelude NetBase.

(** * The Internet checksum *)

Definition fold16 (sum : Z) : Z := if truthy (sum .& 0xFFFF0000) then (sum .& 0xFFFF) + (sum >> 16) else sum.

(** The running sum over the big-endian words of a buffer, an odd last byte being padded. *)
Fixpoint csum_loop (l : list Z) (sum : Z) : Z :=
  match l with
  | [] => sum
  | [a] => fold16 (u32 (sum + (a << 8)))
  | a :: b :: r => csum_loop r (fold16 (u32 (sum + ((a << 8) .| b))))
  end.

Definition csum_end (sum : Z) : Z := u16 (Z.lnot (sum .& 0xFFFF)).

(** Both are called on buffers of the given length; ip_checksum only on the 20-byte header. *)
Definition ip_checksum (data : list Z) : Z := csum_end (csum_loop data 0).
Definition icmp_checksum (data : list Z) : Z := csum_end (csum_loop data 0).

Section Ip.
Context {NH : NetHeap} {PL : Poll}.

(** * Ethernet *)

Definition ETH_HEADER_LEN : Z := 14.
Definition ETH_TYPE_ARP : Z := 0x0806.
Definition ETH_TYPE_IP : Z := 0x0800.

Definition eth_send (dst_mac : list Z) (type : Z) (data : list Z) (iface_idx : Z) (s : net) : Z * net :=
  let '(ok, s) := net_kmalloc (ETH_HEADER_LEN + plen data) s in
  if negb ok then (-1, s)
  else rtl8139_send_packet (dst_mac ++ if_mac (iface_at s iface_idx) ++ be16 type ++ data) s.

(** * ARP *)

Definition ARP_PACKET_LEN : Z := 28.
Definition ARP_OP_REQUEST : Z := 1.
Definition ARP_OP_REPLY : Z := 2.
Definition arp_broadcast : list Z := replicate 6 0xFF.

Definition arp_cache_lookup (ip : Z) (cache : list arp_entry) : option (list Z) :=
  ae_mac ∘ snd <$> list_find (fun e => Is_true (truthy (ae_valid e) && (ae_ip e =? ip))) cache.

Definition arp_cache_add (ip : Z) (mac : list Z) (cache : list arp_entry) : list arp_entry :=
  match first_index (fun e => negb (truthy (ae_valid e)) || (ae_ip e =? ip)) cache with
  | Some i => <[i := ArpEntry ip mac 1]> cache
  | None => alter (fun e => ArpEntry ip mac (ae_valid e)) O cache
  end.

Definition arp_bytes (htype ptype : list Z) (oper : Z) (smac sip tmac tip : list Z) : list Z :=
  htype ++ ptype ++ [6; 4] ++ be16 oper ++ smac ++ sip ++ tmac ++ tip.

Definition arp_send_request (target_ip iface_idx : Z) (s : net) : net :=
  (eth_send arp_broadcast ETH_TYPE_ARP
     (arp_bytes (be16 1) (be16 0x0800) ARP_OP_REQUEST (if_mac (iface_at s iface_idx)) (le32 (if_ip (iface_at s iface_idx)))
        (replicate 6 0) (le32 target_ip)) iface_idx s).2.

Definition slice (p : list Z) (off n : nat) : list Z := take n (drop off p).

Definition arp_handle_packet (p : list Z) (s : net) : net :=
  if plen p <? ARP_PACKET_LEN then s
  else
    let oper := get_be16 p 6 in
    let s := set_arp_cache (arp_cache_add (get_le32 p 14) (slice p 8 6) (arp_cache s)) s in
    if oper =? ARP_OP_REQUEST then
      match first_index (fun i => truthy (plen (if_name i)) && (if_ip i =? get_le32 p 24)) (net_interfaces s) with
      | Some i =>
          (eth_send (slice p 8 6) ETH_TYPE_ARP
             (arp_bytes (slice p 0 2) (slice p 2 2) ARP_OP_REPLY (if_mac (iface_at s (Z.of_nat i))) (slice p 24 4)
                (slice p 8 6) (slice p 14 4)) (Z.of_nat i) s).2
      | None => s
      end
    else s.

(** The waiting loop: poll, look again, ask again at the 11th and 51st retry. *)
Fixpoint arp_wait (n : nat) (retry ip iface_idx : Z) (s : net) : option (list Z) * net :=
  match n with
  | O => (None, s)
  | S n' =>
      let s := poll_net s in
      match arp_cache_lookup ip (arp_cache s) with
      | Some mac => (Some mac, s)
      | None =>
          let s := if (retry =? 10) || (retry =? 50) then arp_send_request ip iface_idx s else s in
          arp_wait n' (retry + 1) ip iface_idx s
      end
  end.

Definition arp_resolve (ip iface_idx : Z) (s : net) : option (list Z) * net :=
  match arp_cache_lookup ip (arp_cache s) with
  | Some mac => (Some mac, s)
  | None => arp_wait 120 0 ip iface_idx (arp_send_request ip iface_idx s)
  end.

(** * IPv4 *)

Definition IP_HEADER_LEN : Z := 20.
Definition IP_PROTO_ICMP : Z := 1.
Definition IP_PROTO_UDP : Z := 17.
Definition IP_PROTO_TCP : Z := 6.
Definition LO_QUEUE_LEN : Z := 16.
Definition LO_MAX_PKT : Z := 2048.
Definition lo_name : list Z := [108; 111].

Definition named (i : iface) : bool := truthy (plen (if_name i)).
Definition is_nic (i : iface) : bool := named i && negb (bool_decide (if_name i = lo_name)).

Definition is_local_ip (ip : Z) (s : net) : bool :=
  (ip .& 0xFF =? 0x7F) || existsb (fun i => named i && (if_ip i =? ip)) (net_interfaces s).

Definition loopback_src_iface (dst_ip : Z) (s : net) : Z :=
  match first_index (fun i => named i && (if_ip i =? dst_ip)) (net_interfaces s) with
  | Some i => Z.of_nat i
  | None => 0
  end.

Definition loopback_enqueue (p : list Z) (s : net) : net :=
  if LO_MAX_PKT <? plen p then s
  else
    let next := (lo_head s + 1) mod LO_QUEUE_LEN in
    if next =? lo_tail s then s
    else set_lo_head next (set_lo_ring (<[lo_head s := p]> (lo_ring s)) s).

(** The interface a packet leaves by and the hardware address it goes to, [None] when there is
    no route. *)
Definition ip_route (dst_ip iface_idx : Z) (s : net) : option (Z * list Z) * net :=
  let idx := if iface_idx <? 0 then Z.of_nat <$> first_index is_nic (net_interfaces s) else Some iface_idx in
  match idx with
  | None => (None, s)
  | Some idx =>
      let nm := if_netmask (iface_at s idx) in
      let my_ip := if_ip (iface_at s idx) in
      let subnet_bcast := if truthy nm then my_ip .| not32 nm else 0xFFFFFFFF in
      if (dst_ip =? 0xFFFFFFFF) || (dst_ip =? subnet_bcast) then (Some (idx, arp_broadcast), s)
      else
        let next_hop := if truthy nm && negb (dst_ip .& nm =? my_ip .& nm) && truthy (if_gateway (iface_at s idx))
                        then if_gateway (iface_at s idx) else dst_ip in
        match arp_resolve next_hop idx s with
        | (Some mac, s) => (Some (idx, mac), s)
        | (None, s) => (None, s)
        end
  end.

Definition ip_header (total_len protocol checksum src dst : Z) : list Z :=
  [0x45; 0] ++ be16 (u16 total_len) ++ [0; 0; 0; 0; 64; protocol] ++ be16 checksum ++ le32 src ++ le32 dst.

Definition ip_packet (protocol src dst : Z) (data : list Z) : list Z :=
  let n := IP_HEADER_LEN + plen data in
  ip_header n protocol (ip_checksum (ip_header n protocol 0 src dst)) src dst ++ data.

Definition ip_send (dst_ip protocol : Z) (data : list Z) (iface_idx : Z) (s : net) : Z * net :=
  let is_loopback := is_local_ip dst_ip s in
  let '(route, s) := if is_loopback then (Some (loopback_src_iface dst_ip s, []), s) else ip_route dst_ip iface_idx s in
  match route with
  | None => (-1, s)
  | Some (idx, mac) =>
      let packet_len := u32 (IP_HEADER_LEN + plen data) in
      let '(ok, s) := net_kmalloc packet_len s in
      if negb ok then (-1, s)
      else
        let packet := ip_packet protocol (if_ip (iface_at s idx)) dst_ip data in
        if is_loopback then (packet_len, loopback_enqueue packet s)
        else eth_send mac ETH_TYPE_IP packet idx s
  end.
End Ip.

(** * The tables after [init_net], no network card found *)

Definition lo_iface : iface := Iface lo_name (replicate 6 0) 0x0100007F 0x000000FF 0.

Definition init_net : net :=
  Net (lo_iface :: replicate 7 no_iface) (replicate 16 (ArpEntry 0 (replicate 6 0) 0)) (fun _ => []) 0 0 64
    (replicate 16 (UdpListener 0 None 0)) (replicate 32 (Nsock 0 0 0 0 0 None 0 0)) 40000 48000
    (replicate 32 (Conn 0 0 0 0 0 0 0 0 0 None 0 0 None 0 0 0 0)) 1000 0 (-1) (replicate 16 0)
    (PingPart 0 (-1) 0 0 0 0) (DhcpPart 0x12345678 0 0 0 (replicate (Z.to_nat 1024) 0) 0 0) (DnsPart 0 0 0 0xC000) 0 O false [] [] false.

(** Instances for concrete runs: memory never runs out, waiting brings nothing. *)
Definition ample_heap : NetHeap := {| can_alloc := fun _ _ => true |}.
Definition quiet_poll : Poll := {| poll_net := fun s => s |}.

(** * The checksum is the one's complement sum *)

(** Sum of the big-endian words of a buffer, an odd last byte padded with zero. *)
Fixpoint words (l : list Z) : Z :=
  match l with
  | [] => 0
  | [a] => a * 256
  | a :: b :: r => a * 256 + b + words r
  end.

Lemma fold16_spec x :
  0 <= x <= 0x1FFFE -> fold16 x = if x <? 0x10000 then x else x - 0xFFFF.
Proof.
  intros Hx. unfold fold16, truthy. change 0xFFFF0000 with (Z.ones 16 << 16).
  destruct (Z.ltb_spec x 0x10000) as [H|H].
  - replace (x .& (Z.ones 16 << 16)) with 0; [done|]. symmetry. apply Z.bits_inj'. intros j Hj.
    rewrite Z.land_spec, Z.bits_0, Z.shiftl_spec by lia. destruct (Z.ltb_spec j 16).
    + rewrite (Z.testbit_neg_r _ (j - 16)) by lia. apply andb_false_r.
    + by rewrite (proj1 (Z.bounded_iff_bits_nonneg 16 x ltac:(lia) ltac:(lia)) ltac:(lia) j) by lia.
  - destruct (Z.eqb_spec (x .& (Z.ones 16 << 16)) 0) as [E|E].
    + exfalso. assert (Hb : Z.testbit (x .& (Z.ones 16 << 16)) 16 = true).
      { rewrite Z.land_spec, Z.shiftl_spec by lia. change (Z.testbit (Z.ones 16) (16 - 16)) with true. rewrite andb_true_r.
        replace x with ((x - 0x10000) + 1 * 2 ^ 16) by lia. rewrite Z.add_comm.
        rewrite <- (lor_shift 1 (x - 0x10000) 16) by lia. rewrite Z.lor_spec. by rewrite Z.shiftl_spec by lia. }
      rewrite E in Hb. by rewrite Z.bits_0 in Hb.
    + simpl negb. cbv iota. change 0xFFFF with (Z.ones 16) at 1. rewrite Z.land_ones, Z.shiftr_div_pow2 by lia.
      change (2 ^ 16) with 65536. Z.to_euclidean_division_equations. lia.
Qed.

(** One word added: the sum stays 16 bits wide, congruent modulo 2^16 - 1, and positive once positive. *)
Lemma fold16_add sum w :
  0 <= sum <= 0xFFFF -> 0 <= w <= 0xFFFF ->
  let r := fold16 (u32 (sum + w)) in
  0 <= r <= 0xFFFF /\ r mod 0xFFFF = (sum + w) mod 0xFFFF /\ (0 < sum + w -> 0 < r).
Proof.
  intros Hs Hw. cbv zeta. rewrite u32_small by lia. rewrite fold16_spec by lia.
  destruct (Z.ltb_spec (sum + w) 0x10000); (split; [lia|]); [done|]. split; [|lia].
  replace (sum + w - 65535) with (sum + w + (-1) * 65535) by lia. apply Z.mod_add. lia.
Qed.

Lemma words_nonneg l : bytes_ok l -> 0 <= words l.
Proof.
  enough (H : forall n l, (length l <= n)%nat -> bytes_ok l -> 0 <= words l) by (by apply (H (length l))).
  clear l. induction n as [|n IH]; intros [|a [|b r]] Hl Hb; simpl in *; try lia.
  - inversion Hb; subst. lia.
  - inversion Hb as [|? ? Ha Hb']; subst. inversion Hb' as [|? ? Hbb Hr]; subst. specialize (IH r ltac:(lia) Hr). lia.
Qed.

Lemma csum_loop_spec l sum :
  bytes_ok l -> 0 <= sum <= 0xFFFF ->
  0 <= csum_loop l sum <= 0xFFFF /\ csum_loop l sum mod 0xFFFF = (sum + words l) mod 0xFFFF /\
  (0 < sum + words l -> 0 < csum_loop l sum).
Proof.
  enough (H : forall n l sum, (length l <= n)%nat -> bytes_ok l -> 0 <= sum <= 0xFFFF ->
    0 <= csum_loop l sum <= 0xFFFF /\ csum_loop l sum mod 0xFFFF = (sum + words l) mod 0xFFFF /\
    (0 < sum + words l -> 0 < csum_loop l sum)) by (by apply (H (length l))).
  clear l sum. induction n as [|n IH]; intros [|a [|b r]] sum Hl Hb Hs; cbn [length] in Hl; try lia;
    try (simpl; rewrite Z.add_0_r; split; [lia|]; split; [done|lia]).
  - inversion Hb as [|? ? Ha _]; subst. cbn [csum_loop words]. rewrite Z.shiftl_mul_pow2 by lia. change (2 ^ 8) with 256.
    apply fold16_add; lia.
  - inversion Hb as [|? ? Ha Hb']; subst. inversion Hb' as [|? ? Hbb Hr]; subst. cbn [csum_loop words].
    rewrite word_bytes by done. destruct (fold16_add sum (a * 256 + b) Hs ltac:(lia)) as (H1 & H2 & H3).
    destruct (IH r _ ltac:(lia) Hr H1) as (I1 & I2 & I3). pose proof (words_nonneg r Hr). split; [done|]. split.
    + rewrite I2. rewrite Z.add_mod, H2, <- Z.add_mod by lia. f_equal. lia.
    + intros Hp. apply I3. destruct (Z.eq_dec (sum + (a * 256 + b)) 0); [lia|]. specialize (H3 ltac:(lia)). lia.
Qed.

Lemma words_app l1 l2 : Nat.Even (length l1) -> words (l1 ++ l2) = words l1 + words l2.
Proof.
  enough (H : forall n l1, (length l1 <= n)%nat -> Nat.Even (length l1) -> words (l1 ++ l2) = words l1 + words l2) by (by apply (H (length l1))).
  clear l1. induction n as [|n IH]; intros [|a [|b r]] Hl He; cbn [length] in Hl; try lia; try done.
  - destruct He as [k Hk]. cbn [length] in Hk. lia.
  - cbn [app words]. rewrite IH; [lia|lia|]. destruct He as [k Hk]. cbn [length] in Hk. exists (pred k). lia.
Qed.

Lemma csum_end_spec sum : 0 <= sum <= 0xFFFF -> csum_end sum = 0xFFFF - sum.
Proof.
  intros Hs. unfold csum_end. change 0xFFFF with (Z.ones 16) at 1. rewrite Z.land_ones by lia.
  rewrite (Z.mod_small sum) by lia. unfold Z.lnot, u16. replace (Z.pred (- sum)) with (0xFFFF - sum + (-1) * 2 ^ 16) by lia.
  rewrite Z.mod_add by lia. apply Z.mod_small. lia.
Qed.

Lemma words_be16 v : 0 <= v < 2 ^ 16 -> words (be16 v) = v.
Proof.
  intros Hv. cbn [be16 words]. rewrite Z.add_0_r. rewrite <- (u16_split v Hv) at 3.
  symmetry. apply word_bytes; apply Z.mod_pos_bound; lia.
Qed.

(** Storing the complement of the sum in a word that was zero makes the whole sum verify. *)
Lemma checksum_closes pre post sum0 :
  bytes_ok pre -> bytes_ok post -> Nat.Even (length pre) -> 0 <= sum0 <= 0xFFFF -> 0 < sum0 + words pre ->
  csum_loop (pre ++ be16 (csum_end (csum_loop (pre ++ be16 0 ++ post) sum0)) ++ post) sum0 = 0xFFFF.
Proof.
  intros Hpre Hpost He Hs Hpos.
  assert (Hok : forall v, bytes_ok (pre ++ be16 v ++ post)).
  { intros v. apply Forall_app_2; [done|]. apply Forall_app_2; [apply be16_bytes|done]. }
  assert (Hw : forall v, 0 <= v < 2 ^ 16 -> words (pre ++ be16 v ++ post) = words pre + v + words post).
  { intros v Hv. rewrite words_app by done. rewrite (words_app (be16 v)) by (by exists 1%nat). rewrite words_be16 by done. lia. }
  destruct (csum_loop_spec _ sum0 (Hok 0) Hs) as (H1 & H2 & H3). rewrite Hw in H2, H3 by lia.
  set (S0 := csum_loop (pre ++ be16 0 ++ post) sum0) in *. rewrite csum_end_spec by done.
  destruct (csum_loop_spec _ sum0 (Hok (0xFFFF - S0)) Hs) as (K1 & K2 & K3). rewrite Hw in K2, K3 by lia.
  pose proof (words_nonneg _ Hpost). pose proof (words_nonneg _ Hpre).
  assert (E : (sum0 + (words pre + (0xFFFF - S0) + words post)) mod 0xFFFF = 0).
  { replace (sum0 + (words pre + (65535 - S0) + words post)) with ((sum0 + (words pre + 0 + words post)) - S0 + 1 * 65535) by lia.
    rewrite Z.mod_add by lia. rewrite Zminus_mod, <- H2, <- Zminus_mod, Z.sub_diag. done. }
  clearbody S0. rewrite E in K2. specialize (K3 ltac:(lia)). set (R := csum_loop _ _) in *.
  destruct (Z.eq_dec R 0xFFFF); [done|]. rewrite Z.mod_small in K2 by lia. lia.
Qed.

Lemma ip_header_split n protocol ck src dst :
  ip_header n protocol ck src dst = ([0x45; 0] ++ be16 (u16 n) ++ [0; 0; 0; 0; 64; protocol]) ++ be16 ck ++ (le32 src ++ le32 dst).
Proof. done. Qed.

(** The header [ip_send] puts on the wire passes the check every receiver makes: its words sum to
    0xFFFF in one's complement arithmetic. *)
Lemma ip_header_verifies n protocol src dst :
  0 <= protocol < 256 ->
  csum_loop (ip_header n protocol (ip_checksum (ip_header n protocol 0 src dst)) src dst) 0 = 0xFFFF.
Proof.
  intros Hp. unfold ip_checksum. rewrite !ip_header_split.
  assert (Hb : bytes_ok [0; 0; 0; 0; 64; protocol]) by (repeat constructor; lia).
  apply checksum_closes.
  - apply Forall_app_2; [repeat constructor; lia|]. apply Forall_app_2; [apply be16_bytes|done].
  - apply Forall_app_2; apply le32_bytes.
  - by exists 5%nat.
  - lia.
  - cbn [app be16 words]. pose proof (Z.mod_pos_bound (u16 n >> 8) (2 ^ 8) ltac:(lia)).
    pose proof (Z.mod_pos_bound (u16 n) (2 ^ 8) ltac:(lia)). unfold u8. lia.
Qed.

(** * What sending changes *)

Section Sending.
Context {NH : NetHeap} {PL : Poll}.

(** A destination that needs no address resolution: this machine, or a route whose hardware
    address is known. *)
Definition routed (dst : Z) (s : net) : Prop :=
  is_local_ip dst s = true \/
  forall s', net_interfaces s' = net_interfaces s -> arp_cache s' = arp_cache s ->
  exists idx mac, ip_route dst (-1) s' = (Some (idx, mac), s').

Lemma routed_ext dst s s' :
  net_interfaces s' = net_interfaces s -> arp_cache s' = arp_cache s -> routed dst s -> routed dst s'.
Proof.
  intros Ei Ea [H|H]; [left|right].
  - unfold is_local_ip in *. by rewrite Ei.
  - intros s2 E1 E2. apply H; congruence.
Qed.

(** The tables the protocols above IP keep. *)
Definition upper (s : net) := (net_interfaces s, arp_cache s, nsocks s, conns s, ticks s, g_tcp_drop_tx s).

Lemma loopback_enqueue_upper p s : upper (loopback_enqueue p s) = upper s.
Proof. unfold loopback_enqueue. destruct (_ <? _); [done|]. by destruct (_ =? _). Qed.

Lemma eth_send_upper mac ty data idx s : upper (eth_send mac ty data idx s).2 = upper s.
Proof.
  unfold eth_send, net_kmalloc. destruct (can_alloc _ _); [|done]. simpl. unfold rtl8139_send_packet. by destruct (_ || _).
Qed.

Lemma ip_send_upper dst proto data s : routed dst s -> upper (ip_send dst proto data (-1) s).2 = upper s.
Proof.
  intros Hr. unfold ip_send. destruct (is_local_ip dst s) eqn:El.
  - unfold net_kmalloc. destruct (can_alloc _ _); [|done]. simpl negb. cbv iota. simpl snd. by rewrite loopback_enqueue_upper.
  - destruct Hr as [H|H]; [congruence|]. destruct (H s eq_refl eq_refl) as (idx & mac & E). rewrite E.
    unfold net_kmalloc. destruct (can_alloc _ _); [|done]. simpl negb. cbv iota. by rewrite eth_send_upper.
Qed.

(** To this machine: one packet into the loopback ring. *)
Lemma ip_send_local dst proto data idx s :
  is_local_ip dst s = true -> can_alloc (allocs s) (u32 (IP_HEADER_LEN + plen data)) = true ->
  ip_send dst proto data idx s =
    (u32 (IP_HEADER_LEN + plen data),
     loopback_enqueue (ip_packet proto (if_ip (iface_at s (loopback_src_iface dst s))) dst data) (set_allocs (S (allocs s)) s)).
Proof. intros El Ha. unfold ip_send, net_kmalloc. rewrite El. rewrite Ha. done. Qed.
End Sending.

(** * The address cache *)

(** The used entries come first, no address is in two of them. *)
Record cache_ok (l : list arp_entry) : Prop := {
  co_prefix : forall i j a b, l !! i = Some a -> l !! j = Some b -> (i < j)%nat -> ae_valid b <> 0 -> ae_valid a <> 0;
  co_unique : forall i j a b, l !! i = Some a -> l !! j = Some b -> ae_valid a <> 0 -> ae_valid b <> 0 ->
    ae_ip a = ae_ip b -> i = j
}.

Lemma lookup_at l ip mac :
  cache_ok l -> (exists i e, l !! i = Some e /\ ae_valid e <> 0 /\ ae_ip e = ip /\ ae_mac e = mac) ->
  arp_cache_lookup ip l = Some mac.
Proof.
  intros Hok (i & e & Hi & Hv & He & Hm). unfold arp_cache_lookup.
  destruct (list_find _ l) as [[j x]|] eqn:Ef; simpl.
  - apply list_find_Some in Ef as (Hj & Hx & _). apply Is_true_true, andb_true_iff in Hx as [Hx1 Hx2].
    apply Z.eqb_eq in Hx2. assert (ae_valid x <> 0) by (unfold truthy in Hx1; by bool_prop).
    assert (j = i) as -> by (apply (co_unique _ Hok j i x e); congruence). rewrite Hi in Hj. injection Hj as ->. by rewrite Hm.
  - apply list_find_None in Ef. rewrite Forall_forall in Ef. exfalso. apply (Ef e).
    + apply list_elem_of_In. by eapply list_elem_of_lookup_2.
    + apply Is_true_true, andb_true_iff. split; [|by apply Z.eqb_eq]. unfold truthy. by rewrite (proj2 (Z.eqb_neq _ _) Hv).
Qed.

Lemma lookup_none l ip :
  (forall i e, l !! i = Some e -> ae_valid e <> 0 -> ae_ip e <> ip) -> arp_cache_lookup ip l = None.
Proof.
  intros H. unfold arp_cache_lookup. destruct (list_find _ l) as [[j x]|] eqn:Ef; [|done].
  apply list_find_Some in Ef as (Hj & Hx & _). apply Is_true_true, andb_true_iff in Hx as [Hx1 Hx2].
  apply Z.eqb_eq in Hx2. exfalso. apply (H j x Hj); [unfold truthy in Hx1; by bool_prop|done].
Qed.

Lemma lookup_Some_inv l ip mac :
  arp_cache_lookup ip l = Some mac -> exists i e, l !! i = Some e /\ ae_valid e <> 0 /\ ae_ip e = ip /\ ae_mac e = mac.
Proof.
  unfold arp_cache_lookup. destruct (list_find _ l) as [[j x]|] eqn:Ef; [|done]. simpl. intros [= <-].
  apply list_find_Some in Ef as (Hj & Hx & _). apply Is_true_true, andb_true_iff in Hx as [Hx1 Hx2].
  apply Z.eqb_eq in Hx2. exists j, x. split; [done|]. split; [unfold truthy in Hx1; by bool_prop|done].
Qed.

(** Entry [i] is overwritten by a used one for [ip]. *)
Lemma cache_put l i old e :
  cache_ok l -> l !! i = Some old -> ae_valid e <> 0 ->
  (forall j x, l !! j = Some x -> j <> i -> ae_valid x <> 0 -> ae_ip x <> ae_ip e) ->
  (forall j x, l !! j = Some x -> (j < i)%nat -> ae_valid x <> 0) ->
  let l' := <[i := e]> l in
  cache_ok l' /\ arp_cache_lookup (ae_ip e) l' = Some (ae_mac e) /\
  forall ip', ip' <> ae_ip e -> arp_cache_lookup ip' l' =
    if truthy (ae_valid old) && (ae_ip old =? ip') then None else arp_cache_lookup ip' l.
Proof.
  intros Hok Hi He Hne Hpre. cbv zeta.
  assert (Hl : forall j x, <[i := e]> l !! j = Some x -> (j = i /\ x = e) \/ (j <> i /\ l !! j = Some x)).
  { intros j x Hj. destruct (decide (i = j)) as [<-|Hij].
    - rewrite list_lookup_insert_eq in Hj by (by eapply lookup_lt_Some). injection Hj as <-. by left.
    - rewrite list_lookup_insert_ne in Hj by done. right. split; [congruence|done]. }
  assert (Hok' : cache_ok (<[i := e]> l)).
  { split.
    - intros j k a b Hj Hk Hjk Hb. destruct (Hl _ _ Hj) as [[-> ->]|[Hji Hj']]; [done|].
      destruct (Hl _ _ Hk) as [[-> ->]|[Hki Hk']]; [by apply (Hpre j)|]. by apply (co_prefix _ Hok j k a b).
    - intros j k a b Hj Hk Ha Hb Hip. destruct (Hl _ _ Hj) as [[-> ->]|[Hji Hj']], (Hl _ _ Hk) as [[-> ->]|[Hki Hk']]; [done| | |].
      + exfalso. by apply (Hne k b).
      + exfalso. by apply (Hne j a).
      + by apply (co_unique _ Hok j k a b). }
  split; [done|]. split.
  { apply lookup_at; [done|]. exists i, e. split; [apply list_lookup_insert_eq; by eapply lookup_lt_Some|done]. }
  intros ip' Hip'. unfold truthy. destruct (Z.eqb_spec (ae_valid old) 0) as [Hv|Hv]; simpl; [|destruct (Z.eqb_spec (ae_ip old) ip') as [Eo|Eo]].
  2:{ apply lookup_none. intros j x Hj Hx E. destruct (Hl _ _ Hj) as [[-> ->]|[Hji Hj']]; [congruence|].
      apply Hji. apply (co_unique _ Hok j i x old); congruence. }
  all: destruct (arp_cache_lookup ip' l) as [mac|] eqn:El;
    [apply lookup_Some_inv in El as (j & x & Hj & Hx & E1 & E2); apply lookup_at; [done|]; exists j, x;
     split; [rewrite list_lookup_insert_ne; [done|]; intros <-; rewrite Hi in Hj; injection Hj as ->; congruence|done]
    |apply lookup_none; intros j x Hj Hx E; destruct (Hl _ _ Hj) as [[-> ->]|[Hji Hj']]; [congruence|];
     rewrite (lookup_at l ip' (ae_mac x)) in El; [done|done|by exists j, x]].
Qed.

(** The ARP cache is a bounded map.  Starting from a cache whose used entries come first with
    distinct addresses, adding a binding keeps it so and of the same size; the address just added
    resolves to the hardware address given (a newer one replaces an older one), and every other
    address resolves as before, except that when all entries are used and the address is new,
    the one in entry 0 is forgotten. *)
Theorem arp_cache_correct l ip mac :
  cache_ok l -> l <> [] ->
  let l' := arp_cache_add ip mac l in
  cache_ok l' /\ length l' = length l /\ arp_cache_lookup ip l' = Some mac /\
  forall ip', ip' <> ip -> arp_cache_lookup ip' l' = arp_cache_lookup ip' l \/
    (arp_cache_lookup ip' l' = None /\ arp_cache_lookup ip l = None /\ (forall i e, l !! i = Some e -> ae_valid e <> 0) /\
     exists e, l !! O = Some e /\ ae_ip e = ip').
Proof.
  intros Hok Hne. cbv zeta. unfold arp_cache_add.
  destruct (first_index _ l) as [i|] eqn:Ef.
  - apply first_index_Some in Ef as [(old & Hi & Ht) Hmin].
    assert (Hbefore : forall j x, l !! j = Some x -> (j < i)%nat -> ae_valid x <> 0 /\ ae_ip x <> ip).
    { intros j x Hj Hlt. specialize (Hmin j x Hlt Hj). apply orb_false_iff in Hmin as [H1 H2].
      unfold truthy in H1. rewrite negb_involutive in H1. by bool_prop. }
    assert (Hother : forall j x, l !! j = Some x -> j <> i -> ae_valid x <> 0 -> ae_ip x <> ip).
    { intros j x Hj Hji Hx E. destruct (decide (j < i)%nat) as [Hlt|Hge]; [by destruct (Hbefore j x Hj Hlt)|].
      apply orb_true_iff in Ht as [Ht|Ht].
      - apply (co_prefix _ Hok i j old x Hi Hj ltac:(lia) Hx). unfold truthy in Ht. rewrite negb_involutive in Ht. by bool_prop.
      - apply Z.eqb_eq in Ht. apply Hji. apply (co_unique _ Hok j i x old); try done; [|congruence].
        by apply (co_prefix _ Hok i j old x Hi Hj ltac:(lia)). }
    destruct (cache_put l i old (ArpEntry ip mac 1) Hok Hi) as (H1 & H2 & H3); [done|done|by apply Hbefore|].
    split; [exact H1|]. split; [apply length_insert|]. split; [exact H2|]. intros ip' Hip'. left. rewrite (H3 ip' Hip').
    destruct (truthy (ae_valid old) && (ae_ip old =? ip')) eqn:Eo; [|done]. exfalso.
    apply andb_true_iff in Eo as [Eo1 Eo2]. apply Z.eqb_eq in Eo2. apply orb_true_iff in Ht as [Ht|Ht]; [by rewrite Eo1 in Ht|].
    apply Z.eqb_eq in Ht. congruence.
  - assert (Hall : forall j x, l !! j = Some x -> ae_valid x <> 0 /\ ae_ip x <> ip).
    { intros j x Hj. pose proof (proj1 (first_index_None _ l) Ef j x Hj) as H. apply orb_false_iff in H as [H1 H2].
      unfold truthy in H1. rewrite negb_involutive in H1. by bool_prop. }
    destruct l as [|old l0] eqn:El; [done|]. rewrite <- El in *.
    assert (Hold : l !! O = Some old) by (by rewrite El).
    replace (alter (fun e => ArpEntry ip mac (ae_valid e)) O l) with (<[O := ArpEntry ip mac (ae_valid old)]> l) by (by rewrite El).
    destruct (cache_put l O old (ArpEntry ip mac (ae_valid old)) Hok Hold) as (H1 & H2 & H3).
    + exact (proj1 (Hall O old Hold)).
    + intros j x Hj _ _. exact (proj2 (Hall j x Hj)).
    + lia.
    + split; [exact H1|]. split; [apply length_insert|]. split; [exact H2|]. intros ip' Hip'. rewrite (H3 ip' Hip').
      destruct (truthy (ae_valid old) && (ae_ip old =? ip')) eqn:Eo; [right|by left]. split; [done|].
      split; [apply lookup_none; intros j x Hj _; by apply (Hall j)|]. split; [intros j x Hj; by apply (Hall j x)|].
      exists old. apply andb_true_iff in Eo as [_ Eo]. by apply Z.eqb_eq in Eo.
Qed.

Definition empty_cache : list arp_entry := replicate 16 (ArpEntry 0 [] 0).

Lemma empty_cache_ok : cache_ok empty_cache.
Proof.
  assert (H : forall i e, empty_cache !! i = Some e -> ae_valid e = 0).
  { intros i e Hi. by apply (lookup_replicate_1 16) in Hi as [-> _]. }
  split.
  - intros i j a b _ Hj _ Hb. by rewrite (H j b Hj) in Hb.
  - intros i j a b Hi _ Ha. by rewrite (H i a Hi) in Ha.
Qed.

Lemma arp_cache_correct_witness :
  cache_ok (arp_cache_add 0x0202000A [82; 85; 10; 0; 2; 2] empty_cache) /\
  arp_cache_lookup 0x0202000A (arp_cache_add 0x0202000A [82; 85; 10; 0; 2; 2] empty_cache) = Some [82; 85; 10; 0; 2; 2].
Proof.
  destruct (arp_cache_correct empty_cache 0x0202000A [82; 85; 10; 0; 2; 2] empty_cache_ok ltac:(done)) as (H1 & _ & H2 & _).
  split; [exact H1|exact H2].
Defined.
