(* ===== verification/Udp.v ===== *)
(** UDP, ICMP echo and the datagram side of sockets (src/kernel/udp.c, icmp.c, net.c). *)
From Stdlib Require Import ZArith Lia.
From S2P Require Import Prelude NetBase Ip.

Section Udp.
Context {NH : NetHeap} {PL : Poll}.

(** * UDP *)

Definition UDP_HEADER_LEN : Z := 8.

Definition udp_bytes (src_port dst_port : Z) (data : list Z) : list Z :=
  be16 src_port ++ be16 dst_port ++ be16 (u16 (UDP_HEADER_LEN + plen data)) ++ [0; 0] ++ data.

Definition udp_send (dst_ip dst_port src_port : Z) (data : list Z) (iface_idx : Z) (s : net) : Z * net :=
  let '(ok, s) := net_kmalloc (u32 (UDP_HEADER_LEN + plen data)) s in
  if negb ok then (-1, s) else ip_send dst_ip IP_PROTO_UDP (udp_bytes src_port dst_port data) iface_idx s.

Definition listens_on (port : Z) (l : udp_listener) : bool := truthy (ul_active l) && (ul_port l =? port).

(** A NULL handler unregisters the port. *)
Definition udp_register_listener (port : Z) (h : option handler) (s : net) : net :=
  match h with
  | None => set_udp_listeners (map (fun l => if listens_on port l then set_ul_handler None (set_ul_active 0 l) else l)
                                 (udp_listeners s)) s
  | Some _ =>
      match first_index (listens_on port) (udp_listeners s) with
      | Some i => on_listener i (set_ul_handler h) s
      | None =>
          match first_index (fun l => negb (truthy (ul_active l))) (udp_listeners s) with
          | Some i => on_listener i (fun _ => UdpListener port h 1) s
          | None => s
          end
      end
  end.

(** * Datagram sockets *)

Definition SOCK_STREAM : Z := 1.
Definition SOCK_DGRAM : Z := 2.
Definition MAX_SOCKETS : Z := 32.
Definition UDP_DGRAM_MAX : Z := 1472.
Definition UDP_QUEUE : Z := 4.

Definition bound_dgram (port : Z) (k : nsock) : bool :=
  truthy (in_use k) && (sock_type k =? SOCK_DGRAM) && bool_decide (is_Some (dq k)) && (local_port k =? port).

(** A datagram put into a socket's ring, dropped when the ring is full. *)
Definition enqueue_dgram (d : dgram) (k : nsock) : nsock :=
  let next := (dq_head k + 1) mod UDP_QUEUE in
  if next =? dq_tail k then k
  else set_dq_head next (set_dq (<[Z.to_nat (dq_head k) := d]> <$> dq k) k).

Definition nsock_udp_deliver (dport : Z) (data : list Z) (sip sport : Z) (s : net) : bool * net :=
  match first_index (bound_dgram dport) (nsocks s) with
  | Some i => (true, on_nsock (Z.of_nat i) (enqueue_dgram (Dgram sip sport (take (Z.to_nat UDP_DGRAM_MAX) data))) s)
  | None => (false, s)
  end.

Definition nsock_at (s : net) (k : Z) : option nsock :=
  if (0 <=? k) && (k <? MAX_SOCKETS) then
    match nsocks s !! Z.to_nat k with Some n => if truthy (in_use n) then Some n else None | None => None end
  else None.

(** One round of recvfrom: the datagram at the tail, [None] when the ring is empty. *)
Definition dequeue_dgram (len : Z) (n : nsock) : option (list Z * Z * Z * nsock) :=
  if dq_head n =? dq_tail n then None
  else
    match dq n ≫= (fun l => l !! Z.to_nat (dq_tail n)) with
    | Some d => Some (take (Z.to_nat len) (dg_data d), dg_src_ip d, dg_src_port d, set_dq_tail ((dq_tail n + 1) mod UDP_QUEUE) n)
    | None => None
    end.

(** The polling loop of recvfrom: [None] = timed out (-1). *)
Fixpoint recvfrom_wait (n : nat) (k len : Z) (s : net) : option (list Z * Z * Z) * net :=
  match n with
  | O => (None, s)
  | S n' =>
      match nsocks s !! Z.to_nat k ≫= dequeue_dgram len with
      | Some (data, ip, port, sk) => (Some (data, ip, port), on_nsock k (fun _ => sk) s)
      | None => recvfrom_wait n' k len (poll_net s)
      end
  end.

Definition nsock_recvfrom (k len : Z) (s : net) : option (list Z * Z * Z) * net :=
  match nsock_at s k with
  | Some n =>
      if (sock_type n =? SOCK_DGRAM) && bool_decide (is_Some (dq n)) && (0 <? len)
      then recvfrom_wait 6000 k len s else (None, s)
  | None => (None, s)
  end.

Definition nsock_sendto (k : Z) (data : list Z) (ip port : Z) (s : net) : Z * net :=
  match nsock_at s k with
  | Some n =>
      if negb (sock_type n =? SOCK_DGRAM) then (-1, s)
      else
        let s := if local_port n =? 0 then
                   let s1 := on_nsock k (set_local_port (eph s)) s in
                   set_eph (let e := u16 (eph s + 1) in if 60000 <=? e then 48000 else e) s1
                 else s in
        let lp := match nsocks s !! Z.to_nat k with Some n => local_port n | None => 0 end in
        let '(r, s) := udp_send ip port lp data (-1) s in
        (if r <? 0 then -1 else plen data, s)
  | None => (-1, s)
  end.

(** * ICMP echo *)

Definition ICMP_HEADER_LEN : Z := 8.
Definition ICMP_TYPE_ECHO_REPLY : Z := 0.
Definition ICMP_TYPE_ECHO_REQUEST : Z := 8.

(** [hdr->checksum = v]: the bytes of the integer, low one first. *)
Definition le16 (v : Z) : list Z := [u8 v; u8 (v >> 8)].

(** An echo message: type and code, checksum, the rest as it is. *)
Definition icmp_bytes (type : Z) (rest : list Z) : list Z :=
  [type; 0] ++ le16 (icmp_checksum ([type; 0; 0; 0] ++ rest)) ++ rest.

Definition icmp_send_echo (dst id sq iface_idx : Z) (s : net) : Z * net :=
  let '(ok, s) := net_kmalloc (ICMP_HEADER_LEN + 56) s in
  if negb ok then (-1, s)
  else ip_send dst IP_PROTO_ICMP
         (icmp_bytes ICMP_TYPE_ECHO_REQUEST (be16 id ++ be16 sq ++ map Z.of_nat (seq 0 56))) iface_idx s.

Definition icmp_handle_packet (p : list Z) (sip : Z) (s : net) : net :=
  if plen p <? ICMP_HEADER_LEN then s
  else if byte_at p 0 =? ICMP_TYPE_ECHO_REQUEST then
    let '(ok, s) := net_kmalloc (plen p) s in
    if negb ok then s
    else (ip_send sip IP_PROTO_ICMP (icmp_bytes ICMP_TYPE_ECHO_REPLY (drop 4 p)) (-1) s).2
  else if byte_at p 0 =? ICMP_TYPE_ECHO_REPLY then
    if (get_be16 p 4 =? ping_ident (ping s)) && (get_be16 p 6 =? ping_wait_seq (ping s)) then
      on_ping (fun g => PingPart (ping_ident g) (ping_wait_seq g) 1 (ticks s) (g_last_rx_ttl s) (plen p)) s
    else s
  else s.
End Udp.
