(* ===== verification/Tcp.v ===== *)
(** TCP (src/kernel/tcp.c): the connection table, segments, retransmission, the calls of the
    socket layer and the receive side of the state machine. *)
From Stdlib Require Import ZArith Lia.
From S2P Require Import Prelude NetBase Ip.

Definition TCP_FLAG_FIN : Z := 0x01.
Definition TCP_FLAG_SYN : Z := 0x02.
Definition TCP_FLAG_RST : Z := 0x04.
Definition TCP_FLAG_PSH : Z := 0x08.
Definition TCP_FLAG_ACK : Z := 0x10.

Definition TCP_STATE_CLOSED : Z := 0.
Definition TCP_STATE_SYN_SENT : Z := 1.
Definition TCP_STATE_SYN_RCVD : Z := 2.
Definition TCP_STATE_ESTABLISHED : Z := 3.
Definition TCP_STATE_FIN_WAIT1 : Z := 4.
Definition TCP_STATE_CLOSE_WAIT : Z := 6.
Definition TCP_STATE_LAST_ACK : Z := 7.
Definition TCP_STATE_TIME_WAIT : Z := 8.
Definition TCP_STATE_LISTEN : Z := 9.

Definition TCP_MAX_CONNS : Z := 32.
Definition TCP_RTO_INITIAL : Z := 300.
Definition TCP_RTO_MAX : Z := 2400.
Definition TCP_MAX_RETRIES : Z := 5.
Definition TCP_HEADER_LEN : Z := 20.

Definition has (flags f : Z) : bool := truthy (flags .& f).

Definition blank_conn : conn := Conn 0 0 0 0 0 0 0 0 0 None 0 0 None 0 0 0 0.
Definition conn_at (s : net) (i : Z) : conn := nth (Z.to_nat i) (conns s) blank_conn.
Definition valid_id (i : Z) : bool := (0 <=? i) && (i <? TCP_MAX_CONNS).

Definition find_slot (s : net) : Z :=
  match first_index (fun c => negb (truthy (c_active c))) (conns s) with Some i => Z.of_nat i | None => -1 end.

Definition find_conn_by_tuple (dip sport dport : Z) (s : net) : option Z :=
  Z.of_nat <$> first_index (fun c => truthy (c_active c) && negb (c_state c =? TCP_STATE_LISTEN) &&
    (dst_ip c =? dip) && (src_port c =? sport) && (dst_port c =? dport)) (conns s).

Definition find_listener (port : Z) (s : net) : option Z :=
  Z.of_nat <$> first_index (fun c => truthy (c_active c) && (c_state c =? TCP_STATE_LISTEN) && (src_port c =? port)) (conns s).

(** * Segments *)

Definition pseudo_header (src dst tcp_len : Z) : list Z := le32 src ++ le32 dst ++ [0; 6] ++ be16 (u16 tcp_len).

Definition tcp_checksum (src dst : Z) (seg : list Z) : Z :=
  csum_end (csum_loop seg (csum_loop (pseudo_header src dst (plen seg)) 0)).

Definition tcp_header (sport dport sq ak off_flags window checksum : Z) : list Z :=
  be16 sport ++ be16 dport ++ be32b sq ++ be32b ak ++ be16 off_flags ++ be16 window ++ be16 checksum ++ [0; 0].

Definition tcp_bytes (src dst sport dport sq ak off_flags window : Z) (data : list Z) : list Z :=
  let ck := tcp_checksum src dst (tcp_header sport dport sq ak off_flags window 0 ++ data) in
  tcp_header sport dport sq ak off_flags window ck ++ data.

Section Tcp.
Context {NH : NetHeap} {PL : Poll}.

(** The retransmission fields of a connection whose segment [seg] goes out at tick [now]. *)
Definition armed (now flags data_len : Z) (seg : list Z) (c : conn) : conn :=
  let c := set_rt_seg (Some seg) c in
  let c := set_rt_ack_seq (u32 (seq_no c + b2z (has flags TCP_FLAG_SYN) + b2z (has flags TCP_FLAG_FIN) + data_len)) c in
  set_rt_retries 0 (set_rt_rto TCP_RTO_INITIAL (set_rt_sent_tick now c)).

(** Buffer the segment for retransmission, when memory allows. *)
Definition arm_retransmit (i flags : Z) (seg : list Z) (data_len : Z) (s : net) : net :=
  let '(ok, s) := net_kmalloc (plen seg) s in
  if ok then on_conn i (armed (ticks s) flags data_len seg) s else on_conn i (set_rt_seg None) s.

(** The sequence numbers after a segment went out. *)
Definition advance_seq (flags data_len : Z) (c : conn) : conn :=
  let c := if has flags TCP_FLAG_SYN then set_sent_unacked (u32 (seq_no c + 1)) c
           else if 0 <? data_len then set_sent_unacked (u32 (seq_no c + data_len)) c else c in
  if has flags TCP_FLAG_RST then c
  else set_seq_no (u32 (seq_no c + data_len + b2z (has flags TCP_FLAG_SYN) + b2z (has flags TCP_FLAG_FIN))) c.

Definition send_segment (i flags : Z) (data : list Z) (s : net) : Z * net :=
  let data_len := plen data in
  let tcp_len := u32 (TCP_HEADER_LEN + data_len) in
  let '(ok, s) := net_kmalloc tcp_len s in
  if negb ok then (-1, s)
  else
    let c := conn_at s i in
    let seg := tcp_bytes (src_ip c) (dst_ip c) (src_port c) (dst_port c) (seq_no c) (ack_no c)
                 (0x5000 .| (flags .& 0x3F)) 0x2000 data in
    let seq_consuming := has flags TCP_FLAG_SYN || has flags TCP_FLAG_FIN || (0 <? data_len) in
    let s := if seq_consuming then arm_retransmit i flags seg data_len s else s in
    let '(result, s) :=
      if (0 <? g_tcp_drop_tx s) && seq_consuming then (tcp_len, set_g_tcp_drop_tx (g_tcp_drop_tx s - 1) s)
      else ip_send (dst_ip (conn_at s i)) IP_PROTO_TCP seg (-1) s in
    (result, on_conn i (advance_seq flags data_len) s).

(** * Retransmission *)

Definition rt_due (now : Z) (c : conn) : bool :=
  truthy (c_active c) && bool_decide (is_Some (rt_seg c)) && negb (s32 (now - u32 (rt_sent_tick c + rt_rto c)) <? 0).

Definition reset_conn (c : conn) : conn :=
  set_c_state TCP_STATE_CLOSED (set_c_active 0 (set_recv_buf None (set_rt_seg None c))).

Definition back_off (now : Z) (c : conn) : conn :=
  let rto := u32 (rt_rto c * 2) in
  set_rt_sent_tick now (set_rt_rto (if TCP_RTO_MAX <? rto then TCP_RTO_MAX else rto) (set_rt_retries (rt_retries c + 1) c)).

Definition tick_conn (now i : Z) (s : net) : net :=
  let c := conn_at s i in
  if rt_due now c then
    if TCP_MAX_RETRIES <=? rt_retries c then on_conn i reset_conn s
    else
      let s := on_conn i (back_off now) s in
      (ip_send (dst_ip c) IP_PROTO_TCP (default [] (rt_seg c)) (-1) s).2
  else s.

Definition tcp_tick (s : net) : net := for_range (Z.to_nat TCP_MAX_CONNS) 0 (tick_conn (ticks s)) s.

(** * The calls of the socket layer *)

Definition tcp_init (s : net) : net := set_conns (map (set_c_active 0) (conns s)) s.

Definition tcp_source (dip : Z) (s : net) : option Z :=
  if dip .& 0xFF =? 0x7F then Some 0x0100007F
  else (fun i => if_ip (iface_at s (Z.of_nat i))) <$> first_index is_nic (net_interfaces s).

(** The fields an opened connection starts with; the others keep what the slot held. *)
Definition open_conn (state sip dip sport dport sq ak : Z) (c : conn) : conn :=
  set_rt_retries 0 (set_rt_seg None (set_recv_cap 0 (set_recv_buf None
    (set_ack_no ak (set_seq_no sq (set_dst_port dport (set_src_port sport (set_dst_ip dip (set_src_ip sip
      (set_accepted 0 (set_c_state state (set_c_active 1 c)))))))))))).

Definition tcp_connect (dip dport sport : Z) (s : net) : Z * net :=
  let slot := find_slot s in
  if slot <? 0 then (-1, s)
  else
    match tcp_source dip s with
    | None => (-1, s)
    | Some sip =>
        let s := on_conn slot (fun c => set_sent_unacked 0 (open_conn TCP_STATE_SYN_SENT sip dip sport dport (next_isn s) 0 c)) s in
        let s := set_next_isn (u32 (next_isn s + 1000)) s in
        (slot, (send_segment slot TCP_FLAG_SYN [] s).2)
    end.

Definition tcp_listen (port : Z) (s : net) : Z * net :=
  let slot := find_slot s in
  if slot <? 0 then (-1, s) else (slot, on_conn slot (open_conn TCP_STATE_LISTEN 0 0 port 0 0 0) s).

Definition acceptable (l : conn) (c : conn) : bool :=
  truthy (c_active c) && negb (truthy (accepted c)) && (src_port c =? src_port l) &&
  ((c_state c =? TCP_STATE_ESTABLISHED) || (c_state c =? TCP_STATE_CLOSE_WAIT)).

Definition tcp_accept (id : Z) (s : net) : Z * net :=
  if negb (valid_id id) then (-1, s)
  else
    let l := conn_at s id in
    if negb (truthy (c_active l)) || negb (c_state l =? TCP_STATE_LISTEN) then (-1, s)
    else
      match find_idx (Z.to_nat TCP_MAX_CONNS) 0 (fun i => negb (i =? id) && acceptable l (conn_at s i)) with
      | Some i => (i, on_conn i (set_accepted 1) s)
      | None => (-1, s)
      end.

Definition tcp_send (id : Z) (data : list Z) (s : net) : Z * net :=
  if negb (valid_id id) then (-1, s)
  else
    let c := conn_at s id in
    if negb (truthy (c_active c)) ||
       (negb (c_state c =? TCP_STATE_ESTABLISHED) && negb (c_state c =? TCP_STATE_CLOSE_WAIT)) then (-1, s)
    else send_segment id (TCP_FLAG_ACK .| TCP_FLAG_PSH) data s.

Definition recv_len (c : conn) : Z := match recv_buf c with Some l => plen l | None => 0 end.

(** The bytes handed out and the result; 0 when none are buffered. *)
Definition tcp_recv (id max_len : Z) (s : net) : Z * list Z * net :=
  if negb (valid_id id) then (-1, [], s)
  else
    let c := conn_at s id in
    if negb (truthy (c_active c)) then (-1, [], s)
    else if recv_len c =? 0 then (0, [], s)
    else
      let n := if recv_len c <? max_len then recv_len c else max_len in
      let buf := default [] (recv_buf c) in
      let rest := drop (Z.to_nat n) buf in
      (n, take (Z.to_nat n) buf,
       on_conn id (if plen rest =? 0 then fun c => set_recv_cap 0 (set_recv_buf None c) else set_recv_buf (Some rest)) s).

Definition tcp_state (id : Z) (s : net) : Z :=
  if negb (valid_id id) then -1
  else if truthy (c_active (conn_at s id)) then c_state (conn_at s id) else TCP_STATE_CLOSED.

Definition tcp_recv_ready (id : Z) (s : net) : bool :=
  if negb (valid_id id) then true
  else if negb (truthy (c_active (conn_at s id))) then true
  else (0 <? recv_len (conn_at s id)) || (c_state (conn_at s id) =? TCP_STATE_CLOSED).

Definition tcp_close (id : Z) (s : net) : Z * net :=
  if negb (valid_id id) then (-1, s)
  else
    let c := conn_at s id in
    if negb (truthy (c_active c)) then (-1, s)
    else
      let s :=
        if c_state c =? TCP_STATE_ESTABLISHED then
          (send_segment id (TCP_FLAG_FIN .| TCP_FLAG_ACK) [] (on_conn id (set_c_state TCP_STATE_FIN_WAIT1) s)).2
        else if c_state c =? TCP_STATE_CLOSE_WAIT then
          (send_segment id (TCP_FLAG_FIN .| TCP_FLAG_ACK) [] (on_conn id (set_c_state TCP_STATE_LAST_ACK) s)).2
        else s in
      (0, on_conn id reset_conn s).

(** * Receiving *)

(** The segment a packet that belongs to no connection is answered with. *)
Definition rst_segment (lip rip lport rport ak : Z) : list Z :=
  tcp_bytes lip rip lport rport 0 ak (0x5000 .| (TCP_FLAG_RST .| TCP_FLAG_ACK)) 0 [].

Definition tcp_no_conn (flags lip rip lport rport sq : Z) (s : net) : net :=
  if has flags TCP_FLAG_RST then s
  else
    let slot := match find_listener lport s with Some _ => find_slot s | None => -1 end in
    if has flags TCP_FLAG_SYN && negb (has flags TCP_FLAG_ACK) && (0 <=? slot) then
      let s := on_conn slot (fun c => set_sent_unacked 0 (open_conn TCP_STATE_SYN_RCVD lip rip lport rport (next_isn s) (u32 (sq + 1)) c)) s in
      let s := set_next_isn (u32 (next_isn s + 1000)) s in
      (send_segment slot (TCP_FLAG_SYN .| TCP_FLAG_ACK) [] s).2
    else (ip_send rip IP_PROTO_TCP (rst_segment lip rip lport rport (u32 (sq + 1))) (-1) s).2.

(** Append received bytes to the connection's buffer, growing it when needed. *)
Definition store_payload (i : Z) (payload : list Z) (s : net) : net :=
  let n := plen payload in
  let '(ok1, s) :=
    match recv_buf (conn_at s i) with
    | Some _ => (true, s)
    | None =>
        let cap := if 4096 <? n then n else 4096 in
        let '(ok, s) := net_kmalloc cap s in
        (ok, on_conn i (fun c => set_recv_cap cap (set_recv_buf (if ok then Some [] else None) c)) s)
    end in
  let c := conn_at s i in
  let '(ok2, s) :=
    if recv_cap c <? u32 (recv_len c + n) then
      let cap := u32 (recv_len c + n) in
      let '(ok, s) := net_kmalloc cap s in
      (ok, on_conn i (fun c => set_recv_cap cap (set_recv_buf (if ok then recv_buf c else None) c)) s)
    else (ok1, s) in
  if ok2 then on_conn i (fun c => set_recv_buf (Some (default [] (recv_buf c) ++ payload)) c) s
  else set_null_write true s.

Definition ack_clears (flags ackno : Z) (c : conn) : bool :=
  has flags TCP_FLAG_ACK && bool_decide (is_Some (rt_seg c)) && (0 <=? s32 (ackno - rt_ack_seq c)).

Definition tcp_on_conn (i flags sq ackno : Z) (payload : list Z) (s : net) : net :=
  let s := if ack_clears flags ackno (conn_at s i) then on_conn i (set_rt_seg None) s else s in
  let s := if has flags TCP_FLAG_ACK && (c_state (conn_at s i) =? TCP_STATE_SYN_RCVD)
           then on_conn i (set_c_state TCP_STATE_ESTABLISHED) s else s in
  let ack_with st := (send_segment i TCP_FLAG_ACK [] (on_conn i (fun c => set_c_state st (set_ack_no (u32 (sq + 1)) c)) s)).2 in
  if (0 <? plen payload) && has flags TCP_FLAG_ACK then
    let s := on_conn i (set_ack_no (u32 (sq + plen payload))) s in
    (send_segment i TCP_FLAG_ACK [] (store_payload i payload s)).2
  else if has flags TCP_FLAG_SYN && has flags TCP_FLAG_ACK then
    if c_state (conn_at s i) =? TCP_STATE_SYN_SENT then ack_with TCP_STATE_ESTABLISHED else s
  else if has flags TCP_FLAG_FIN then
    if c_state (conn_at s i) =? TCP_STATE_ESTABLISHED then ack_with TCP_STATE_CLOSE_WAIT
    else if c_state (conn_at s i) =? TCP_STATE_FIN_WAIT1 then ack_with TCP_STATE_TIME_WAIT
    else s
  else s.

Definition tcp_handle_packet (p : list Z) (rip lip : Z) (s : net) : net :=
  if plen p <? TCP_HEADER_LEN then s
  else
    let off_flags := get_be16 p 12 in
    let flags := off_flags .& 0x3F in
    let header_len := ((off_flags >> 12) .& 0xF) * 4 in
    if plen p <? header_len then s
    else
      let payload := drop (Z.to_nat header_len) p in
      match find_conn_by_tuple rip (get_be16 p 2) (get_be16 p 0) s with
      | None => tcp_no_conn flags lip rip (get_be16 p 2) (get_be16 p 0) (get_be32 p 4) s
      | Some i => tcp_on_conn i flags (get_be32 p 4) (get_be32 p 8) payload s
      end.
End Tcp.

(** * Segments read back *)

Lemma flags_field flags :
  0 <= flags < 64 ->
  let ofl := 0x5000 .| (flags .& 0x3F) in
  0 <= ofl < 2 ^ 16 /\ 0x5000 <= ofl /\ ofl .& 0x3F = flags /\ ((ofl >> 12) .& 0xF) * 4 = 20.
Proof.
  intros Hf. cbv zeta.
  assert (H : forallb (fun f => let ofl := 0x5000 .| (f .& 0x3F) in
    (0 <=? ofl) && (ofl <? 2 ^ 16) && (0x5000 <=? ofl) && (ofl .& 0x3F =? f) && (((ofl >> 12) .& 0xF) * 4 =? 20))
    (map Z.of_nat (seq 0 64)) = true) by (vm_compute; reflexivity).
  rewrite forallb_forall in H. specialize (H flags). cbv zeta in H.
  assert (Hin : In flags (map Z.of_nat (seq 0 64))).
  { apply in_map_iff. exists (Z.to_nat flags). split; [lia|]. apply in_seq. lia. }
  specialize (H Hin). repeat (apply andb_true_iff in H as [H ?]). bool_prop. lia.
Qed.

Lemma tcp_bytes_len src dst sport dport sq ak ofl w data :
  plen (tcp_bytes src dst sport dport sq ak ofl w data) = TCP_HEADER_LEN + plen data.
Proof. unfold plen, tcp_bytes. rewrite length_app. cbn [tcp_header be16 be32b app length]. unfold TCP_HEADER_LEN. lia. Qed.

Lemma tcp_bytes_fields src dst sport dport sq ak ofl w data :
  0 <= sport < 2 ^ 16 -> 0 <= dport < 2 ^ 16 -> 0 <= sq < 2 ^ 32 -> 0 <= ak < 2 ^ 32 -> 0 <= ofl < 2 ^ 16 ->
  let p := tcp_bytes src dst sport dport sq ak ofl w data in
  get_be16 p 0 = sport /\ get_be16 p 2 = dport /\ get_be32 p 4 = sq /\ get_be32 p 8 = ak /\ get_be16 p 12 = ofl /\
  drop 20 p = data.
Proof.
  intros H1 H2 H3 H4 H5. cbv zeta. unfold tcp_bytes. set (ck := tcp_checksum _ _ _). clearbody ck.
  split; [exact (u16_split sport H1)|]. split; [exact (u16_split dport H2)|].
  split; [exact (u32_split sq H3)|]. split; [exact (u32_split ak H4)|]. split; [exact (u16_split ofl H5)|]. reflexivity.
Qed.

(** Whatever the addresses, ports, numbers and payload, the checksum field closes the sum over the
    pseudo header and the segment. *)
Lemma tcp_checksum_verifies src dst sport dport sq ak ofl w data :
  bytes_ok data -> 0x5000 <= ofl < 2 ^ 16 ->
  let seg := tcp_bytes src dst sport dport sq ak ofl w data in
  csum_loop seg (csum_loop (pseudo_header src dst (plen seg)) 0) = 0xFFFF.
Proof.
  intros Hd Hof. cbv zeta. rewrite tcp_bytes_len. unfold tcp_bytes, tcp_checksum.
  replace (plen (tcp_header sport dport sq ak ofl w 0 ++ data)) with (TCP_HEADER_LEN + plen data)
    by (unfold plen; rewrite length_app; cbn [tcp_header be16 be32b app length]; unfold TCP_HEADER_LEN; lia).
  assert (Hps : bytes_ok (pseudo_header src dst (TCP_HEADER_LEN + plen data))).
  { repeat apply Forall_app_2; try apply le32_bytes; try apply be16_bytes. repeat constructor; lia. }
  destruct (csum_loop_spec _ 0 Hps ltac:(lia)) as (Hs & _ & _).
  set (sum0 := csum_loop (pseudo_header _ _ _) 0) in *. clearbody sum0.
  set (pre := be16 sport ++ be16 dport ++ be32b sq ++ be32b ak ++ be16 ofl ++ be16 w).
  change (csum_loop (pre ++ be16 (csum_end (csum_loop (pre ++ be16 0 ++ [0; 0] ++ data) sum0)) ++ [0; 0] ++ data) sum0 = 0xFFFF).
  apply checksum_closes; [| |by exists 8%nat|done|].
  - repeat apply Forall_app_2; try apply be16_bytes; apply be32b_bytes.
  - apply Forall_app_2; [repeat constructor; lia|done].
  - assert (E : words pre = words (be16 sport ++ be16 dport ++ be32b sq ++ be32b ak) + words (be16 ofl ++ be16 w)).
    { rewrite <- words_app by (by exists 6%nat). reflexivity. }
    rewrite E, (words_app (be16 ofl)) by (by exists 1%nat). rewrite (words_be16 ofl) by lia.
    pose proof (words_nonneg (be16 w) (be16_bytes w)).
    assert (Hb : bytes_ok (be16 sport ++ be16 dport ++ be32b sq ++ be32b ak)).
    { repeat apply Forall_app_2; try apply be16_bytes; apply be32b_bytes. }
    pose proof (words_nonneg _ Hb). lia.
Qed.

(** * Retransmission is bounded *)

(** What a tick does to one connection. *)
Definition tick_fields (now : Z) (c : conn) : conn :=
  if rt_due now c then if TCP_MAX_RETRIES <=? rt_retries c then reset_conn c else back_off now c else c.

Section Tick.
Context {NH : NetHeap} {PL : Poll}.

Lemma tick_conn_upper now i c s :
  conns s !! Z.to_nat i = Some c -> routed (dst_ip c) s ->
  upper (tick_conn now i s) = upper (on_conn i (tick_fields now) s).
Proof.
  intros Hc Hr. unfold tick_conn, conn_at. rewrite (nth_lookup_Some _ _ _ _ Hc).
  assert (Hid : forall f, f c = tick_fields now c -> on_conn i f s = on_conn i (tick_fields now) s).
  { intros f Hf. unfold on_conn. f_equal. apply list_alter_ext; [|done]. intros x Hx. congruence. }
  destruct (rt_due now c) eqn:Ed.
  - destruct (TCP_MAX_RETRIES <=? rt_retries c) eqn:Er.
    + f_equal. apply Hid. unfold tick_fields. by rewrite Ed, Er.
    + rewrite ip_send_upper; [|by apply (routed_ext _ s)]. f_equal. apply Hid. unfold tick_fields. by rewrite Ed, Er.
  - transitivity (upper (on_conn i (fun c => c) s)).
    + unfold on_conn. rewrite list_alter_id by done. by destruct s.
    + f_equal. apply Hid. unfold tick_fields. by rewrite Ed.
Qed.

Lemma upper_eq s s' :
  upper s = upper s' -> net_interfaces s = net_interfaces s' /\ arp_cache s = arp_cache s' /\ nsocks s = nsocks s' /\
  conns s = conns s' /\ ticks s = ticks s' /\ g_tcp_drop_tx s = g_tcp_drop_tx s'.
Proof. unfold upper. intros H. by injection H as -> -> -> -> -> ->. Qed.

Lemma tick_loop s :
  length (conns s) = Z.to_nat TCP_MAX_CONNS -> (forall i c, conns s !! i = Some c -> routed (dst_ip c) s) ->
  conns (tcp_tick s) = map (tick_fields (ticks s)) (conns s) /\
  net_interfaces (tcp_tick s) = net_interfaces s /\ arp_cache (tcp_tick s) = arp_cache s.
Proof.
  intros Hlen Hr. unfold tcp_tick. set (now := ticks s).
  pose (I := fun i s' => net_interfaces s' = net_interfaces s /\ arp_cache s' = arp_cache s /\
    length (conns s') = length (conns s) /\
    forall k c, conns s !! k = Some c -> conns s' !! k = Some (if Z.of_nat k <? i then tick_fields now c else c)).
  assert (HI : I (0 + Z.of_nat (Z.to_nat TCP_MAX_CONNS)) (for_range (Z.to_nat TCP_MAX_CONNS) 0 (tick_conn now) s)).
  { apply for_range_ind.
    - split; [done|]. split; [done|]. split; [done|]. intros k c Hk. by destruct (Z.ltb_spec (Z.of_nat k) 0); [lia|].
    - intros i s' Hi (E1 & E2 & E3 & E4). destruct (lookup_lt_is_Some_2 (conns s) (Z.to_nat i)) as [c Hc]; [lia|].
      pose proof (E4 _ _ Hc) as Hc'. destruct (Z.ltb_spec (Z.of_nat (Z.to_nat i)) i); [lia|].
      pose proof (tick_conn_upper now i c s' Hc' (routed_ext _ s s' E1 E2 (Hr _ _ Hc))) as Hu.
      destruct (upper_eq _ _ Hu) as (U1 & U2 & _ & U4 & _). split; [by rewrite U1|]. split; [by rewrite U2|].
      rewrite U4. simpl. split; [by rewrite length_alter|]. intros k x Hk.
      destruct (decide (k = Z.to_nat i)) as [->|Hne].
      + rewrite Hc in Hk. injection Hk as <-. rewrite list_lookup_alter_eq, Hc'. simpl. by destruct (Z.ltb_spec (Z.of_nat (Z.to_nat i)) (i + 1)); [|lia].
      + rewrite list_lookup_alter_ne by done. rewrite (E4 _ _ Hk).
        destruct (Z.ltb_spec (Z.of_nat k) i), (Z.ltb_spec (Z.of_nat k) (i + 1)); try lia; done. }
  destruct HI as (E1 & E2 & E3 & E4). split; [|done]. apply list_eq_same_length with (n := length (conns s)); [by rewrite length_map|done|].
  intros k x y Hk Hx Hy. destruct (lookup_lt_is_Some_2 (conns s) k Hk) as [c Hc]. rewrite (E4 _ _ Hc) in Hx.
  rewrite list_lookup_fmap, Hc in Hy. simpl in Hy. destruct (Z.ltb_spec (Z.of_nat k) (0 + Z.of_nat (Z.to_nat TCP_MAX_CONNS))); [congruence|lia].
Qed.

End Tick.

(** The timeout before the [r]-th resend, and the time from there to giving up. *)
Definition rto_at (r : Z) : Z := Z.min (TCP_RTO_INITIAL * 2 ^ r) TCP_RTO_MAX.
Definition patience (r : Z) : Z := nth (Z.to_nat r) [9300; 9000; 8400; 7200; 4800; 2400] 0.

Lemma patience_step r : 0 <= r < 5 -> patience r = rto_at r + patience (r + 1) /\ 300 <= rto_at r <= 2400 /\
  (let x := u32 (rto_at r * 2) in if TCP_RTO_MAX <? x then TCP_RTO_MAX else x) = rto_at (r + 1).
Proof.
  intros Hr. assert (r = 0 \/ r = 1 \/ r = 2 \/ r = 3 \/ r = 4) as [ ->|[ ->|[ ->|[ ->| ->]]]] by lia; vm_compute; repeat split; congruence.
Qed.
Lemma patience_last : patience 5 = rto_at 5 /\ rto_at 5 = 2400.
Proof. done. Qed.

(** A segment waits for its acknowledgement: sent for the [r]-th time at [t]. *)
Record waiting (seg : list Z) (r t : Z) (c : conn) : Prop := {
  w_active : c_active c = 1;
  w_seg : rt_seg c = Some seg;
  w_retries : rt_retries c = r;
  w_sent : rt_sent_tick c = t;
  w_rto : rt_rto c = rto_at r
}.

Lemma rt_due_waiting seg r t c now :
  waiting seg r t c -> 0 <= r <= 5 -> 0 <= t <= now -> now < 2 ^ 31 - 3000 -> rt_due now c = (t + rto_at r <=? now).
Proof.
  intros [H1 H2 H3 H4 H5] Hr Ht Hn. unfold rt_due. rewrite H1, H2, H4, H5. simpl.
  assert (300 <= rto_at r <= 2400).
  { destruct (Z.eq_dec r 5) as [->|]; [by vm_compute|]. by apply patience_step; lia. }
  rewrite u32_small by lia. unfold s32. destruct (Z.leb_spec (t + rto_at r) now).
  - rewrite u32_small by lia. by destruct (Z.ltb_spec (now - (t + rto_at r)) (2 ^ 31)); [destruct (Z.ltb_spec (now - (t + rto_at r)) 0); [lia|done]|lia].
  - unfold u32. replace (now - (t + rto_at r)) with ((now - (t + rto_at r) + 2 ^ 32) + (-1) * 2 ^ 32) by lia.
    rewrite Z.mod_add by lia. rewrite Z.mod_small by lia.
    destruct (Z.ltb_spec (now - (t + rto_at r) + 2 ^ 32) (2 ^ 31)); [lia|]. by destruct (Z.ltb_spec (now - (t + rto_at r) + 2 ^ 32 - 2 ^ 32) 0); [|lia].
Qed.

(** Polling at time [now]: nothing yet, one resend with the timeout doubled, or the end. *)
Lemma tick_waiting seg r t c now :
  waiting seg r t c -> 0 <= r <= 5 -> 0 <= t <= now -> now < 2 ^ 31 - 3000 ->
  if t + rto_at r <=? now then
    if r =? 5 then tick_fields now c = reset_conn c else waiting seg (r + 1) now (tick_fields now c)
  else tick_fields now c = c.
Proof.
  intros Hw Hr Ht Hn. unfold tick_fields. rewrite (rt_due_waiting _ _ _ _ _ Hw Hr Ht Hn).
  destruct (t + rto_at r <=? now); [|done]. destruct Hw as [H1 H2 H3 H4 H5]. rewrite H3.
  destruct (Z.eqb_spec r 5) as [->|Hne]; [done|]. unfold TCP_MAX_RETRIES. destruct (Z.leb_spec 5 r); [lia|].
  split; simpl; [done|done|lia|done|]. rewrite H5. by apply patience_step; lia.
Qed.

(** The connection after polls at the times [ts], no acknowledgement arriving. *)
Definition polled (ts : list Z) (c : conn) : conn := fold_left (fun c now => tick_fields now c) ts c.

(** Poll times: in order from [p] on, no two further apart than [d]. *)
Fixpoint spaced (d p : Z) (ts : list Z) : Prop :=
  match ts with
  | [] => True
  | t :: r => p <= t <= p + d /\ t < 2 ^ 31 - 3000 /\ spaced d t r
  end.

Lemma polled_idle ts c : rt_seg c = None -> polled ts c = c.
Proof.
  intros Hc. induction ts as [|t ts IH]; simpl; [done|]. unfold polled in *. simpl.
  replace (tick_fields t c) with c; [done|]. unfold tick_fields, rt_due. rewrite Hc. by rewrite andb_false_r.
Qed.

(** Before its patience ends the connection keeps the segment. *)
Lemma silent_keeps seg d ts r t p c :
  waiting seg r t c -> 0 <= r <= 5 -> 0 <= t <= p -> spaced d p ts -> Forall (fun x => x < t + patience r) ts ->
  exists r' t', waiting seg r' t' (polled ts c) /\ 0 <= r' <= 5.
Proof.
  revert r t p c. induction ts as [|x ts IH]; intros r t p c Hw Hr Ht Hs Hl; [by exists r, t|].
  destruct Hs as (Hx & Hm & Hs). inversion Hl as [|? ? Hx' Hl']; subst.
  pose proof (tick_waiting seg r t c x Hw Hr ltac:(lia) Hm) as Hk. change (polled (x :: ts) c) with (polled ts (tick_fields x c)).
  destruct (Z.leb_spec (t + rto_at r) x).
  - destruct (Z.eqb_spec r 5) as [->|Hne]; [destruct patience_last; lia|].
    destruct (patience_step r ltac:(lia)) as (Ep & _ & _). apply (IH (r + 1) x x); [done|lia|lia|done|].
    rewrite Forall_forall in Hl' |- *. intros y Hy. specialize (Hl' y Hy). lia.
  - rewrite Hk. apply (IH r t x); [done|done|lia|done|done].
Qed.

(** Polled often enough, it is given up once the patience and the poll delays are over. *)
Lemma silent_gives_up seg d ts r t p c :
  waiting seg r t c -> 0 <= r <= 5 -> 0 <= t <= p -> p < t + rto_at r -> spaced d p ts ->
  (exists x, x ∈ ts /\ t + patience r + (6 - r) * d <= x) ->
  c_active (polled ts c) = 0 /\ c_state (polled ts c) = TCP_STATE_CLOSED /\ rt_seg (polled ts c) = None.
Proof.
  revert r t p c. induction ts as [|x ts IH]; intros r t p c Hw Hr Ht Hp Hs (y & Hy & Hl); [by apply not_elem_of_nil in Hy|].
  destruct Hs as (Hx & Hm & Hs). change (polled (x :: ts) c) with (polled ts (tick_fields x c)).
  pose proof (tick_waiting seg r t c x Hw Hr ltac:(lia) Hm) as Hk.
  destruct (Z.leb_spec (t + rto_at r) x).
  - destruct (Z.eqb_spec r 5) as [->|Hne].
    + rewrite Hk, polled_idle by done. done.
    + destruct (patience_step r ltac:(lia)) as (Ep & Eb & _).
      assert (300 <= rto_at (r + 1)) by (destruct (Z.eq_dec (r + 1) 5) as [->|]; [by vm_compute|apply patience_step; lia]).
      assert (0 < patience (r + 1) /\ 0 <= d) as [? ?].
      { split; [|lia]. destruct (Z.eq_dec (r + 1) 5) as [->|]; [by vm_compute|].
        assert (r = 0 \/ r = 1 \/ r = 2 \/ r = 3) as [ ->|[ ->|[ ->| ->]]] by lia; by vm_compute. }
      apply (IH (r + 1) x x); [done|lia|lia|lia|done|]. exists y.
      apply elem_of_cons in Hy as [->|Hy]; [nia|]. split; [done|nia].
  - rewrite Hk. apply (IH r t x); [done|done|lia|lia|done|]. exists y. apply elem_of_cons in Hy as [->|Hy]; [|done].
    assert (rto_at r <= patience r).
    { destruct (Z.eq_dec r 5) as [->|]; [by vm_compute|]. destruct (patience_step r ltac:(lia)) as (Ep & _ & _).
      enough (0 <= patience (r + 1)) by lia. assert (r = 0 \/ r = 1 \/ r = 2 \/ r = 3 \/ r = 4) as [ ->|[ ->|[ ->|[ ->| ->]]]] by lia; by vm_compute. }
    nia.
Qed.

Section TcpClaims.
Context {NH : NetHeap} {PL : Poll}.

Lemma tcp_handle_bytes src dst sport dport sq ak flags w data rip lip s :
  0 <= sport < 2 ^ 16 -> 0 <= dport < 2 ^ 16 -> 0 <= sq < 2 ^ 32 -> 0 <= ak < 2 ^ 32 -> 0 <= flags < 64 ->
  tcp_handle_packet (tcp_bytes src dst sport dport sq ak (0x5000 .| (flags .& 0x3F)) w data) rip lip s =
  match find_conn_by_tuple rip dport sport s with
  | None => tcp_no_conn flags lip rip dport sport sq s
  | Some i => tcp_on_conn i flags sq ak data s
  end.
Proof.
  intros H1 H2 H3 H4 H5. destruct (flags_field flags H5) as (F1 & _ & F3 & F4).
  set (ofl := 0x5000 .| (flags .& 0x3F)) in *. clearbody ofl.
  destruct (tcp_bytes_fields src dst sport dport sq ak ofl w data H1 H2 H3 H4 F1) as (E1 & E2 & E3 & E4 & E5 & E6).
  pose proof (tcp_bytes_len src dst sport dport sq ak ofl w data) as El.
  set (p := tcp_bytes _ _ _ _ _ _ _ _ _) in *. clearbody p. unfold tcp_handle_packet. rewrite E1, E2, E3, E4, E5, F3, F4, El.
  assert (0 <= plen data) by (unfold plen; lia). unfold TCP_HEADER_LEN.
  destruct (Z.ltb_spec (20 + plen data) 20); [lia|]. change (Z.to_nat 20) with 20%nat. by rewrite E6.
Qed.

(** [seg] is a good segment with these fields: the checksum closes the one's complement sum over
    the pseudo header and the bytes, and the receive side runs the state machine of the connection
    it finds, or the no-connection answer, on exactly these ports, numbers, flags and payload. *)
Definition reads_back (src dst sport dport sq ak flags : Z) (data seg : list Z) : Prop :=
  csum_loop seg (csum_loop (pseudo_header src dst (plen seg)) 0) = 0xFFFF /\
  forall rip lip s, tcp_handle_packet seg rip lip s =
    match find_conn_by_tuple rip dport sport s with
    | None => tcp_no_conn flags lip rip dport sport sq s
    | Some i => tcp_on_conn i flags sq ak data s
    end.

Lemma tcp_bytes_read_back src dst sport dport sq ak flags w data :
  0 <= sport < 2 ^ 16 -> 0 <= dport < 2 ^ 16 -> 0 <= sq < 2 ^ 32 -> 0 <= ak < 2 ^ 32 -> 0 <= flags < 64 -> bytes_ok data ->
  reads_back src dst sport dport sq ak flags data (tcp_bytes src dst sport dport sq ak (0x5000 .| (flags .& 0x3F)) w data).
Proof.
  intros H1 H2 H3 H4 H5 Hd. destruct (flags_field flags H5) as (F1 & F2 & _). split.
  - apply tcp_checksum_verifies; [done|lia].
  - intros. by apply tcp_handle_bytes.
Qed.

(** C22: every segment the stack builds reads back as what was put into it: those of
    send_segment, for any connection, flags and payload, whatever window they announce, and the
    reset that answers a packet without a connection.  The checksum closes the
    one's complement sum over the pseudo header and the bytes, as a receiver verifies it, and the
    receive side recovers exactly the ports, sequence and acknowledgement numbers, flags and
    payload; the window is the one announced, and 0 in a reset. *)
Theorem tcp_segment_roundtrip src dst sport dport sq ak flags w data :
  0 <= sport < 2 ^ 16 -> 0 <= dport < 2 ^ 16 -> 0 <= sq < 2 ^ 32 -> 0 <= ak < 2 ^ 32 -> 0 <= flags < 64 -> 0 <= w < 2 ^ 16 -> bytes_ok data ->
  let seg := tcp_bytes src dst sport dport sq ak (0x5000 .| (flags .& 0x3F)) w data in
  let rst := rst_segment src dst sport dport ak in
  reads_back src dst sport dport sq ak flags data seg /\ get_be16 seg 14 = w /\
  reads_back src dst sport dport 0 ak (TCP_FLAG_RST .| TCP_FLAG_ACK) [] rst /\ get_be16 rst 14 = 0.
Proof.
  intros H1 H2 H3 H4 H5 H6 Hd. cbv zeta. split; [by apply tcp_bytes_read_back|]. split; [exact (u16_split w H6)|]. split; [|done].
  apply (tcp_bytes_read_back src dst sport dport 0 ak (TCP_FLAG_RST .| TCP_FLAG_ACK) 0 []); [lia..|by vm_compute|constructor].
Qed.

(** The stack ticked at one time, and at the times [ts]. *)
Definition tick_at (s : net) (now : Z) : net := tcp_tick (set_ticks now s).
Definition run_ticks (ts : list Z) (s : net) : net := fold_left tick_at ts s.

Lemma tick_at_conns now s :
  length (conns s) = Z.to_nat TCP_MAX_CONNS -> (forall i c, conns s !! i = Some c -> routed (dst_ip c) s) ->
  conns (tick_at s now) = map (tick_fields now) (conns s) /\
  net_interfaces (tick_at s now) = net_interfaces s /\ arp_cache (tick_at s now) = arp_cache s.
Proof.
  intros Hlen Hr. apply (tick_loop (set_ticks now s) Hlen). intros i c Hc. apply (routed_ext _ s); [done|done|by apply (Hr i)].
Qed.

Lemma fold_left_cons {A B} (f : A -> B -> A) x l a : fold_left f (x :: l) a = fold_left f l (f a x).
Proof. done. Qed.

Lemma run_ticks_conns ts s :
  length (conns s) = Z.to_nat TCP_MAX_CONNS -> (forall i c, conns s !! i = Some c -> routed (dst_ip c) s) ->
  conns (run_ticks ts s) = map (polled ts) (conns s).
Proof.
  unfold run_ticks. revert s. induction ts as [|x ts IH]; intros s Hlen Hr; [symmetry; apply map_id|].
  destruct (tick_at_conns x s Hlen Hr) as (E1 & E2 & E3). rewrite fold_left_cons.
  revert E1 E2 E3. generalize (tick_at s x). intros s' E1 E2 E3.
  rewrite IH, E1; [by rewrite map_map|by rewrite E1, length_map|].
  intros i c Hc. rewrite E1 in Hc. apply list_lookup_fmap_Some in Hc as (c0 & -> & Hc0).
  apply (routed_ext _ s); [done|done|]. replace (dst_ip _) with (dst_ip c0); [by apply (Hr i)|].
  unfold tick_fields. destruct (rt_due _ _); [|done]. by destruct (_ <=? _).
Qed.

(** Retransmission is bounded.  A segment of connection [i] sent at tick [t] whose peer stays
    silent, the stack being ticked at the times [ts] at most [d] apart: while the ticks come before
    [t + 9300] the connection lives and keeps the very bytes, resent at most five times with the
    timeout doubled up to 2400 ms; once a tick comes 9300 ms and six polling delays later the
    connection has been closed, its slot and its buffered segment released.  Connections with
    nothing outstanding are left alone. *)
Theorem tcp_retransmit_bounded s i c seg t d ts :
  length (conns s) = Z.to_nat TCP_MAX_CONNS -> (forall i c, conns s !! i = Some c -> routed (dst_ip c) s) ->
  conns s !! i = Some c -> waiting seg 0 t c -> 0 <= t -> spaced d t ts ->
  (exists c', conns (run_ticks ts s) !! i = Some c' /\
    (Forall (fun x => x < t + 9300) ts -> c_active c' = 1 /\ rt_seg c' = Some seg /\ rt_retries c' <= 5 /\ rt_rto c' <= 2400) /\
    ((exists x, x ∈ ts /\ t + 9300 + 6 * d <= x) ->
     c_active c' = 0 /\ c_state c' = TCP_STATE_CLOSED /\ rt_seg c' = None)) /\
  (forall k x, conns s !! k = Some x -> rt_seg x = None -> conns (run_ticks ts s) !! k = Some x).
Proof.
  intros Hlen Hr Hc Hw Ht Hs. rewrite run_ticks_conns by done. split.
  - exists (polled ts c). split; [by rewrite list_lookup_fmap, Hc|]. split.
    + intros Hl. destruct (silent_keeps seg d ts 0 t t c Hw ltac:(lia) ltac:(lia) Hs Hl) as (r & t' & [H1 H2 H3 H4 H5] & Hb).
      rewrite H1, H2, H3, H5. split; [done|]. split; [done|]. split; [lia|]. unfold rto_at, TCP_RTO_MAX. lia.
    + intros Hx. apply (silent_gives_up seg d ts 0 t t c Hw); [lia|lia| |done|done]. change (rto_at 0) with 300. lia.
  - intros k x Hk Hn. rewrite list_lookup_fmap, Hk. simpl. f_equal. by apply polled_idle.
Qed.
End TcpClaims.

(** A request to 127.0.0.1:7 with an established connection waiting for it. *)
Definition demo_conn : conn := Conn 1 TCP_STATE_ESTABLISHED 0 0x0100007F 0x0100007F 7 40000 2001 1001 None 0 0 None 0 0 0 0.
Definition demo_net : net := set_conns (<[1%nat := demo_conn]> (conns init_net)) init_net.

Lemma tcp_segment_roundtrip_witness :
  let seg := tcp_bytes 0x0100007F 0x0100007F 40000 7 1001 2001 (0x5000 .| (0x18 .& 0x3F)) 0x2000 [110; 121; 120] in
  csum_loop seg (csum_loop (pseudo_header 0x0100007F 0x0100007F (plen seg)) 0) = 0xFFFF /\
  tcp_handle_packet (NH := ample_heap) (PL := quiet_poll) seg 0x0100007F 0x0100007F demo_net =
    tcp_on_conn (NH := ample_heap) (PL := quiet_poll) 1 0x18 1001 2001 [110; 121; 120] demo_net.
Proof.
  assert (Hb : bytes_ok [110; 121; 120]) by (repeat constructor; lia).
  assert (E : find_conn_by_tuple 0x0100007F 7 40000 demo_net = Some 1) by (vm_compute; reflexivity).
  destruct (@tcp_segment_roundtrip ample_heap quiet_poll 0x0100007F 0x0100007F 40000 7 1001 2001 0x18 0x2000 [110; 121; 120]
    ltac:(lia) ltac:(lia) ltac:(lia) ltac:(lia) ltac:(lia) ltac:(lia) Hb) as [[H1 H2] _].
  specialize (H2 0x0100007F 0x0100007F demo_net). rewrite E in H2. split; [exact H1|exact H2].
Defined.

(** The same connection with a segment outstanding since tick 1000, ticked every 50 ms. *)
Definition waiting_conn : conn :=
  Conn 1 TCP_STATE_ESTABLISHED 0 0x0100007F 0x0100007F 7 40000 2001 1001 None 0 2001 (Some [1; 2; 3]) 2001 1000 300 0.
Definition waiting_net : net := set_conns (<[1%nat := waiting_conn]> (replicate 32 (set_dst_ip 0x0100007F blank_conn))) init_net.
Definition every_50ms : list Z := map (fun k => 1000 + 50 * Z.of_nat k) (seq 0 200).

Fixpoint spaced_b (d p : Z) (ts : list Z) : bool :=
  match ts with
  | [] => true
  | t :: r => (p <=? t) && (t <=? p + d) && (t <? 2 ^ 31 - 3000) && spaced_b d t r
  end.
Lemma spaced_b_spec d p ts : spaced_b d p ts = true -> spaced d p ts.
Proof. revert p. induction ts as [|t ts IH]; intros p H; simpl in *; [done|]. bool_prop. split; [lia|]. split; [lia|]. by apply IH. Qed.

Lemma tcp_retransmit_bounded_witness :
  exists c', conns (run_ticks (NH := ample_heap) (PL := quiet_poll) every_50ms waiting_net) !! 1%nat = Some c' /\
  c_active c' = 0 /\ c_state c' = TCP_STATE_CLOSED /\ rt_seg c' = None.
Proof.
  assert (Hr : forall i c, conns waiting_net !! i = Some c -> routed (PL := quiet_poll) (NH := ample_heap) (dst_ip c) waiting_net).
  { intros i c Hc. left. assert (E : dst_ip c = 0x0100007F).
    { destruct (decide (i = 1%nat)) as [->|Hi]; [by injection Hc as <-|].
      change (conns waiting_net) with (<[1%nat := waiting_conn]> (replicate 32 (set_dst_ip 0x0100007F blank_conn))) in Hc.
      rewrite list_lookup_insert_ne in Hc by done.
      apply lookup_replicate_1 in Hc as [-> _]. done. }
    by rewrite E. }
  destruct (@tcp_retransmit_bounded ample_heap quiet_poll waiting_net 1 waiting_conn [1; 2; 3] 1000 50 every_50ms) as [(c' & Hc & _ & Hx) _];
    [reflexivity|exact Hr|reflexivity|by split|lia|apply spaced_b_spec; vm_compute; reflexivity|].
  exists c'. split; [exact Hc|]. apply Hx. exists 10950. split; [|lia].
  apply list_elem_of_In, in_map_iff. exists 199%nat. split; [lia|]. apply in_seq. lia.
Defined.
