(* ===== verification/Dns.v ===== *)
(** Name resolution (src/kernel/dns.c): the query, the parser of the response, which runs on
    whatever a peer sends, and literal addresses.  Strings are lists of character codes
    without the terminating zero.  Every read of the response goes through [rd], so a parse
    that leaves the packet is [None]. *)
From Stdlib Require Import ZArith Lia.
From S2P Require Import Prelude NetBase Ip Udp.

Definition DNS_PORT : Z := 53.
Definition DNS_HEADER_LEN : Z := 12.
Definition DNS_FLAG_QR : Z := 1 << 15.

(** * The response *)

Definition rd16 (p : list Z) (off : Z) : option Z :=
  a ← rd p off; b ← rd p (off + 1); Some ((a << 8) .| b).

(** Offset after the question section. *)
Fixpoint skip_question (fuel : nat) (p : list Z) (off : Z) : option Z :=
  match fuel with
  | O => Some off
  | S f =>
      if off <? plen p then
        b ← rd p off;
        if b =? 0 then Some (off + 5)
        else if truthy (b .& 0xC0) then Some (off + 2)
        else skip_question f p (off + b + 1)
      else Some off
  end.

Fixpoint skip_labels (fuel : nat) (p : list Z) (off : Z) : option Z :=
  match fuel with
  | O => Some off
  | S f =>
      if off <? plen p then
        b ← rd p off;
        if b =? 0 then Some off else skip_labels f p (off + b + 1)
      else Some off
  end.

Definition skip_name (p : list Z) (off : Z) : option Z :=
  if off <? plen p then
    b ← rd p off;
    if truthy (b .& 0xC0) then Some (off + 2)
    else o ← skip_labels (length p) p off; Some (if o <? plen p then o + 1 else o)
  else Some off.

(** The answers: [Some (Some ip)] the first A record, [Some None] none. *)
Fixpoint scan_answers (n : nat) (p : list Z) (off : Z) : option (option Z) :=
  match n with
  | O => Some None
  | S n' =>
      if off <? plen p then
        off ← skip_name p off;
        if plen p <? off + 10 then Some None
        else
          type ← rd16 p off;
          rdlength ← rd16 p (off + 8);
          let off := off + 10 in
          if (type =? 1) && (rdlength =? 4) && (off + 4 <=? plen p) then
            a ← rd p off; b ← rd p (off + 1); c ← rd p (off + 2); d ← rd p (off + 3);
            Some (Some (a .| (b << 8) .| (c << 16) .| (d << 24)))
          else scan_answers n' p (off + rdlength)
      else Some None
  end.

(** The address a response carries; the outer [None] is a read outside the packet. *)
Definition dns_parse (p : list Z) : option (option Z) :=
  if plen p <? DNS_HEADER_LEN then Some None
  else
    flags ← rd16 p 2;
    if negb (truthy (flags .& DNS_FLAG_QR)) then Some None
    else
      ancount ← rd16 p 6;
      if ancount =? 0 then Some None
      else off ← skip_question (length p) p DNS_HEADER_LEN; scan_answers (Z.to_nat ancount) p off.

Definition dns_response_handler (p : list Z) (s : net) : net :=
  match dns_parse p with
  | Some (Some ip) => on_dns (fun d => set_dns_response_ready 1 (set_dns_response_ip ip d)) s
  | _ => s
  end.

(** * The query *)

(** Cut at the dots: the label up to the next dot and what follows it. *)
Fixpoint split_dot (name : list Z) : list Z * option (list Z) :=
  match name with
  | [] => ([], None)
  | c :: rest => if c =? 46 then ([], Some rest) else let '(l, r) := split_dot rest in (c :: l, r)
  end.

(** [None]: a label of more than 63 characters. *)
Fixpoint encode_labels (fuel : nat) (name : list Z) : option (list Z) :=
  match fuel with
  | O => Some []
  | S f =>
      match name with
      | [] => Some []
      | _ =>
          let '(label, rest) := split_dot name in
          if 63 <? plen label then None
          else
            tail ← encode_labels f (default [] rest);
            Some (plen label :: label ++ tail)
      end
  end.

Definition encode_dns_name (name : list Z) : option (list Z) :=
  b ← encode_labels (length name) name; Some (b ++ [0]).

(** The code builds it in a 512-byte buffer without checking that the name fits. *)
Definition dns_query (name : list Z) : option (list Z) :=
  qname ← encode_dns_name name;
  Some (be16 0x1234 ++ be16 0x0100 ++ be16 1 ++ [0; 0; 0; 0; 0; 0] ++ qname ++ [0; 1; 0; 1]).

(** * Literal addresses *)

Definition is_digit (c : Z) : bool := (48 <=? c) && (c <=? 57).
Definition is_ip_literal (name : list Z) : bool :=
  forallb (fun c => (c =? 46) || is_digit c) name && (Z.of_nat (length (filter (fun c => Is_true (c =? 46)) name)) =? 3).

(** The decimal number up to the next dot, in a byte. *)
Fixpoint octet (acc : Z) (name : list Z) : Z * list Z :=
  match name with
  | [] => (acc, [])
  | c :: rest => if c =? 46 then (acc, name) else octet (u8 (acc * 10 + (c - 48))) rest
  end.

Definition skip_dot (name : list Z) : list Z := match name with c :: rest => if c =? 46 then rest else name | [] => [] end.

Definition parse_ip (name : list Z) : Z :=
  let '(a, r) := octet 0 name in
  let '(b, r) := octet 0 (skip_dot r) in
  let '(c, r) := octet 0 (skip_dot r) in
  let '(d, _) := octet 0 (skip_dot r) in
  a .| (b << 8) .| (c << 16) .| (d << 24).

Section Dns.
Context {NH : NetHeap} {PL : Poll}.

(** The server to ask: the one configured, else a gateway, else 8.8.8.8. *)
Definition pick_server (s : net) : net :=
  if truthy (dns_server_ip (dns s)) then s
  else
    let g := match list_find (fun i => Is_true (truthy (if_gateway i))) (net_interfaces s) with
             | Some (_, i) => if_gateway i
             | None => 0x08080808
             end in
    on_dns (set_dns_server_ip g) s.

Fixpoint dns_wait (n : nat) (port : Z) (s : net) : Z * net :=
  match n with
  | O => (0, udp_register_listener port None s)
  | S n' =>
      let s := poll_net s in
      if truthy (dns_response_ready (dns s)) then (dns_response_ip (dns s), udp_register_listener port None s)
      else dns_wait n' port s
  end.

Definition dns_resolve (name : list Z) (iface_idx : Z) (s : net) : Z * net :=
  match name with
  | [] => (0, s)
  | _ =>
      if is_ip_literal name then (parse_ip name, s)
      else
        let s := pick_server s in
        match dns_query name with
        | None => (0, s)
        | Some q =>
            let port := dns_sport (dns s) .| 0xC000 in
            let s := on_dns (fun d => DnsPart (dns_server_ip d) 0 0 (u16 (dns_sport d + 1))) s in
            let s := udp_register_listener port (Some DnsResponse) s in
            let s := (udp_send (dns_server_ip (dns s)) DNS_PORT port q iface_idx s).2 in
            dns_wait 400 port s
        end
  end.
End Dns.

(** * The parser stays inside the packet *)

Lemma rd_in p i : bytes_ok p -> 0 <= i < plen p -> exists b, rd p i = Some b /\ 0 <= b < 256 /\ byte_at p i = b.
Proof.
  intros Hp Hi. unfold rd. rewrite (proj2 (Z.ltb_ge _ _)) by lia. unfold plen in Hi.
  destruct (lookup_lt_is_Some_2 p (Z.to_nat i) ltac:(lia)) as [b Hb]. exists b. split; [done|]. split.
  - by apply (Forall_lookup_1 _ _ _ _ Hp Hb).
  - unfold byte_at. apply nth_lookup_Some. done.
Qed.

Lemma rd16_in p i : bytes_ok p -> 0 <= i -> i + 2 <= plen p -> exists v, rd16 p i = Some v /\ 0 <= v.
Proof.
  intros Hp Hi Hl. destruct (rd_in p i Hp ltac:(lia)) as (a & Ea & Ha & _), (rd_in p (i + 1) Hp ltac:(lia)) as (b & Eb & Hb & _).
  unfold rd16. rewrite Ea, Eb. simpl. eexists. split; [done|]. rewrite word_bytes by done. lia.
Qed.

Lemma skip_question_in fuel p off : bytes_ok p -> 0 <= off -> exists o, skip_question fuel p off = Some o /\ off <= o.
Proof.
  intros Hp. revert off. induction fuel as [|f IH]; intros off Ho; simpl; [by exists off|].
  destruct (Z.ltb_spec off (plen p)); [|by exists off].
  destruct (rd_in p off Hp ltac:(lia)) as (b & -> & Hb & _). simpl. destruct (b =? 0); [exists (off + 5); split; [done|lia]|].
  destruct (truthy _); [exists (off + 2); split; [done|lia]|].
  destruct (IH (off + b + 1) ltac:(lia)) as (o & -> & Hle). exists o. split; [done|lia].
Qed.

Lemma skip_labels_in fuel p off : bytes_ok p -> 0 <= off -> exists o, skip_labels fuel p off = Some o /\ off <= o.
Proof.
  intros Hp. revert off. induction fuel as [|f IH]; intros off Ho; simpl; [by exists off|].
  destruct (Z.ltb_spec off (plen p)); [|by exists off].
  destruct (rd_in p off Hp ltac:(lia)) as (b & -> & Hb & _). simpl. destruct (b =? 0); [by exists off|].
  destruct (IH (off + b + 1) ltac:(lia)) as (o & -> & Hle). exists o. split; [done|lia].
Qed.

Lemma skip_name_in p off : bytes_ok p -> 0 <= off -> exists o, skip_name p off = Some o /\ off <= o.
Proof.
  intros Hp Ho. unfold skip_name. destruct (Z.ltb_spec off (plen p)); [|by exists off].
  destruct (rd_in p off Hp ltac:(lia)) as (b & -> & Hb & _). simpl. destruct (truthy _); [exists (off + 2); split; [done|lia]|].
  destruct (skip_labels_in (length p) p off Hp Ho) as (o & -> & Hle). simpl. eexists. split; [done|]. destruct (o <? plen p); lia.
Qed.

Lemma scan_answers_in n p off :
  bytes_ok p -> 0 <= off -> exists r, scan_answers n p off = Some r /\
    forall ip, r = Some ip -> exists o, off <= o /\ o + 4 <= plen p /\ ip = get_le32 p o.
Proof.
  intros Hp. revert off. induction n as [|n IH]; intros off Ho; simpl; [by exists None|].
  destruct (Z.ltb_spec off (plen p)); [|by exists None].
  destruct (skip_name_in p off Hp Ho) as (o & -> & Hle). simpl. destruct (Z.ltb_spec (plen p) (o + 10)); [by exists None|].
  destruct (rd16_in p o Hp ltac:(lia) ltac:(lia)) as (ty & -> & _), (rd16_in p (o + 8) Hp ltac:(lia) ltac:(lia)) as (rl & -> & Hrl).
  simpl. destruct ((ty =? 1) && (rl =? 4) && (o + 10 + 4 <=? plen p)) eqn:E.
  - apply andb_true_iff in E as [_ E]. apply Z.leb_le in E.
    destruct (rd_in p (o + 10) Hp ltac:(lia)) as (a & -> & _ & Ea), (rd_in p (o + 10 + 1) Hp ltac:(lia)) as (b & -> & _ & Eb),
      (rd_in p (o + 10 + 2) Hp ltac:(lia)) as (c & -> & _ & Ec), (rd_in p (o + 10 + 3) Hp ltac:(lia)) as (d & -> & _ & Ed).
    simpl. eexists. split; [done|]. intros ip [= <-]. exists (o + 10). split; [lia|]. split; [lia|].
    unfold get_le32. by rewrite Ea, Eb, Ec, Ed.
  - destruct (IH (o + 10 + rl) ltac:(lia)) as (r & -> & Hr). exists r. split; [done|]. intros ip Hip.
    destruct (Hr ip Hip) as (o' & ? & ? & ?). exists o'. split; [lia|done].
Qed.

(** More fuel than bytes left changes nothing: the loops end by themselves. *)
Lemma skip_question_fuel f1 f2 p off :
  bytes_ok p -> 0 <= off -> plen p - off <= Z.of_nat f1 -> plen p - off <= Z.of_nat f2 ->
  skip_question f1 p off = skip_question f2 p off.
Proof.
  intros Hp. revert f2 off. induction f1 as [|f1 IH]; intros [|f2] off Ho H1 H2; simpl; try done.
  - destruct (Z.ltb_spec off (plen p)); [lia|done].
  - destruct (Z.ltb_spec off (plen p)); [lia|done].
  - destruct (Z.ltb_spec off (plen p)); [|done]. destruct (rd_in p off Hp ltac:(lia)) as (b & -> & Hb & _). simpl.
    destruct (b =? 0); [done|]. destruct (truthy _); [done|]. apply IH; lia.
Qed.

Lemma skip_labels_fuel f1 f2 p off :
  bytes_ok p -> 0 <= off -> plen p - off <= Z.of_nat f1 -> plen p - off <= Z.of_nat f2 ->
  skip_labels f1 p off = skip_labels f2 p off.
Proof.
  intros Hp. revert f2 off. induction f1 as [|f1 IH]; intros [|f2] off Ho H1 H2; simpl; try done.
  - destruct (Z.ltb_spec off (plen p)); [lia|done].
  - destruct (Z.ltb_spec off (plen p)); [lia|done].
  - destruct (Z.ltb_spec off (plen p)); [|done]. destruct (rd_in p off Hp ltac:(lia)) as (b & -> & Hb & _). simpl.
    destruct (b =? 0); [done|]. apply IH; lia.
Qed.

(** C23: parsing a DNS response terminates and never reads outside it, whatever a peer sent.  For
    every packet, dns_response_handler's parser returns, all its reads are inside the packet, its
    two scanning loops end within as many rounds as the packet has bytes (any larger bound gives
    the same offset), and the address it reports is made of four consecutive bytes of the packet
    behind the header. *)
Theorem dns_parse_total p :
  bytes_ok p ->
  (exists r, dns_parse p = Some r /\ forall ip, r = Some ip -> exists o, DNS_HEADER_LEN <= o /\ o + 4 <= plen p /\ ip = get_le32 p o) /\
  (forall fuel off, 0 <= off -> (length p <= fuel)%nat ->
     skip_question fuel p off = skip_question (length p) p off /\ skip_labels fuel p off = skip_labels (length p) p off).
Proof.
  intros Hp. split.
  - unfold dns_parse. destruct (Z.ltb_spec (plen p) DNS_HEADER_LEN) as [|Hl]; [by exists None|]. unfold DNS_HEADER_LEN in *.
    destruct (rd16_in p 2 Hp ltac:(lia) ltac:(lia)) as (fl & -> & _). simpl. destruct (negb _); [by exists None|].
    destruct (rd16_in p 6 Hp ltac:(lia) ltac:(lia)) as (an & -> & _). simpl. destruct (an =? 0); [by exists None|].
    destruct (skip_question_in (length p) p 12 Hp ltac:(lia)) as (o & -> & Hle). simpl.
    destruct (scan_answers_in (Z.to_nat an) p o Hp ltac:(lia)) as (r & -> & Hr). exists r. split; [done|].
    intros ip Hip. destruct (Hr ip Hip) as (o' & ? & ? & ?). exists o'. split; [lia|done].
  - intros fuel off Ho Hf. split; [apply skip_question_fuel|apply skip_labels_fuel]; unfold plen; (done || lia).
Qed.

(** A response with one A record, 10.0.2.15. *)
Definition demo_response : list Z :=
  [0x12; 0x34; 0x81; 0x80; 0; 1; 0; 1; 0; 0; 0; 0; 1; 97; 0; 0; 1; 0; 1; 0xC0; 12; 0; 1; 0; 1; 0; 0; 0; 60; 0; 4; 10; 0; 2; 15].

Lemma dns_parse_total_witness :
  dns_parse demo_response = Some (Some 0x0F02000A) /\
  exists o, DNS_HEADER_LEN <= o /\ o + 4 <= plen demo_response /\ 0x0F02000A = get_le32 demo_response o.
Proof.
  split; [reflexivity|]. assert (Hb : bytes_ok demo_response) by (repeat constructor; lia).
  destruct (dns_parse_total demo_response Hb) as [(r & Er & Hr) _]. apply Hr. vm_compute in Er. by injection Er as <-.
Defined.

(** An octet above 255 wraps: "300.1.1.1" is taken for 44.1.1.1. *)
Lemma octet_wraps : parse_ip [51; 48; 48; 46; 49; 46; 49; 46; 49] = parse_ip [52; 52; 46; 49; 46; 49; 46; 49].
Proof. reflexivity. Qed.
