(* ===== verification/Dhcp.v ===== *)
(** DHCP client (src/kernel/dhcp.c): the two messages it sends and the parser of the replies.
    The receive buffer is a static 1024-byte array the parser reads without a bound of its
    own: [None] is a read outside it. *)
From Stdlib Require Import ZArith Lia.
From S2P Require Import Prelude NetBase Ip Udp.

Definition DHCP_SERVER_PORT : Z := 67.
Definition DHCP_CLIENT_PORT : Z := 68.
Definition DHCP_MAGIC_COOKIE : Z := 0x63538263.
Definition DHCP_DISCOVER : Z := 1.
Definition DHCP_OFFER : Z := 2.
Definition DHCP_REQUEST : Z := 3.
Definition DHCP_ACK : Z := 5.
Definition DHCP_OPT_SUBNET_MASK : Z := 1.
Definition DHCP_OPT_ROUTER : Z := 3.
Definition DHCP_OPT_DNS : Z := 6.
Definition DHCP_OPT_REQUESTED_IP : Z := 50.
Definition DHCP_OPT_MSG_TYPE : Z := 53.
Definition DHCP_OPT_SERVER_ID : Z := 54.
Definition DHCP_OPT_END : Z := 255.
Definition DHCP_RX_SIZE : Z := 1024.

Definition dhcp_rx_handler (p : list Z) (sip : Z) (s : net) : net :=
  let data := take (Z.to_nat DHCP_RX_SIZE) p in
  on_dhcp (fun d => DhcpPart (dhcp_xid d) (dhcp_state d) (dhcp_offered_ip d) (dhcp_server_ip d)
                      (data ++ drop (length data) (dhcp_rx_buf d)) (plen data) sip) s.

(** * Messages *)

(** The fixed part: BOOTREQUEST, Ethernet, the transaction, the broadcast flag, our address,
    the cookie. *)
Definition bootp (xid : Z) (mac : list Z) : list Z :=
  [1; 1; 6; 0] ++ le32 xid ++ [0; 0; 0x80; 0] ++ replicate 16 0 ++ take 6 mac ++ replicate 202 0 ++ le32 DHCP_MAGIC_COOKIE.

Definition discover (xid : Z) (mac : list Z) : list Z :=
  bootp xid mac ++ [DHCP_OPT_MSG_TYPE; 1; DHCP_DISCOVER; DHCP_OPT_END].

Definition request (xid : Z) (mac : list Z) (ip server : Z) : list Z :=
  bootp xid mac ++ [DHCP_OPT_MSG_TYPE; 1; DHCP_REQUEST; DHCP_OPT_REQUESTED_IP; 4] ++ le32 ip ++
  [DHCP_OPT_SERVER_ID; 4] ++ le32 server ++ [DHCP_OPT_END].

(** * Replies *)

Definition rd_le32 (b : list Z) (o : Z) : option Z :=
  w ← rd b o; x ← rd b (o + 1); y ← rd b (o + 2); z ← rd b (o + 3); Some (w .| (x << 8) .| (y << 16) .| (z << 24)).

(** The message type option; 0 when there is none. *)
Fixpoint msg_type (fuel : nat) (b : list Z) (len o : Z) : option Z :=
  match fuel with
  | O => Some 0
  | S f =>
      if o <? len then
        c ← rd b o;
        if c =? DHCP_OPT_END then Some 0
        else
          l ← rd b (o + 1);
          if (c =? DHCP_OPT_MSG_TYPE) && (l =? 1) then rd b (o + 2) else msg_type f b len (o + l + 2)
      else Some 0
  end.

(** The options of an acknowledgement: what it sets of the interface and the name server. *)
Fixpoint ack_options (fuel : nat) (b : list Z) (len o : Z) (acc : Z * Z * option Z) : option (Z * Z * option Z) :=
  match fuel with
  | O => Some acc
  | S f =>
      if o <? len then
        c ← rd b o;
        if c =? DHCP_OPT_END then Some acc
        else
          l ← rd b (o + 1);
          let '(mask, gw, dns) := acc in
          mask ← (if (c =? DHCP_OPT_SUBNET_MASK) && (l =? 4) then rd_le32 b (o + 2) else Some mask);
          gw ← (if (c =? DHCP_OPT_ROUTER) && (4 <=? l) then rd_le32 b (o + 2) else Some gw);
          dns ← (if (c =? DHCP_OPT_DNS) && (4 <=? l) then Some <$> rd_le32 b (o + 2) else Some dns);
          ack_options f b len (o + l + 2) (mask, gw, dns)
      else Some acc
  end.

(** What one received reply does: [Some (true, s)] the address was acknowledged. *)
Definition dhcp_reply (idx : Z) (s : net) : option (bool * net) :=
  let d := dhcp s in
  let b := dhcp_rx_buf d in
  xid ← rd_le32 b 4;
  cookie ← rd_le32 b 236;
  op ← rd b 0;
  if (xid =? dhcp_xid d) && (op =? 2) && (cookie =? DHCP_MAGIC_COOKIE) then
    type ← msg_type (length b) b (dhcp_rx_len d) 240;
    s ← (if (type =? DHCP_OFFER) && (dhcp_state d =? 0) then
           ip ← rd_le32 b 16;
           Some (on_dhcp (fun d => set_dhcp_state 1 (set_dhcp_server_ip (dhcp_rx_src d) (set_dhcp_offered_ip ip d))) s)
         else Some s);
    if (type =? DHCP_ACK) && (dhcp_state (dhcp s) =? 2) then
      opts ← ack_options (length b) b (dhcp_rx_len d) 240 (if_netmask (iface_at s idx), if_gateway (iface_at s idx), None);
      let '(mask, gw, srv) := opts in
      let s := on_iface idx (fun i => Iface (if_name i) (if_mac i) (dhcp_offered_ip d) mask gw) s in
      Some (true, match srv with Some ip => on_dns (set_dns_server_ip ip) s | None => s end)
    else Some (false, s)
  else Some (false, s).

Section Dhcp.
Context {NH : NetHeap} {PL : Poll}.

(** One retry: poll, look at a reply, ask for the offered address. *)
Definition dhcp_round (idx : Z) (s : net) : option (bool * net) :=
  let s := poll_net s in
  match (if 0 <? dhcp_rx_len (dhcp s) then dhcp_reply idx s else Some (false, s)) with
  | None => None
  | Some (true, s) => Some (true, s)
  | Some (false, s) =>
    let s := if 0 <? dhcp_rx_len (dhcp s) then on_dhcp (set_dhcp_rx_len 0) s else s in
    if dhcp_state (dhcp s) =? 1 then
      let q := request (dhcp_xid (dhcp s)) (if_mac (iface_at s idx)) (dhcp_offered_ip (dhcp s)) (dhcp_server_ip (dhcp s)) in
      let s := (udp_send 0xFFFFFFFF DHCP_SERVER_PORT DHCP_CLIENT_PORT q idx s).2 in
      Some (false, on_dhcp (set_dhcp_state 2) s)
    else Some (false, s)
  end.

Fixpoint dhcp_wait (n : nat) (idx : Z) (s : net) : option (Z * net) :=
  match n with
  | O => Some (-1, s)
  | S n' =>
      match dhcp_round idx s with
      | None => None
      | Some (true, s) => Some (0, s)
      | Some (false, s) => dhcp_wait n' idx s
      end
  end.

Definition dhcp_request (idx : Z) (s : net) : option (Z * net) :=
  if (idx <? 0) || (8 <=? idx) then Some (-1, s)
  else if negb (named (iface_at s idx)) then Some (-1, s)
  else
    let s := on_dhcp (fun d => DhcpPart (u32 (dhcp_xid d + 1) .| 0x12340000) 0 0 0 (dhcp_rx_buf d) 0 (dhcp_rx_src d)) s in
    let s := udp_register_listener DHCP_CLIENT_PORT (Some DhcpRx) s in
    let s := (udp_send 0xFFFFFFFF DHCP_SERVER_PORT DHCP_CLIENT_PORT (discover (dhcp_xid (dhcp s)) (if_mac (iface_at s idx))) idx s).2 in
    dhcp_wait 400 idx s.
End Dhcp.

(** * The option parsers end *)

(** An option takes at least two bytes, so the fuel, the size of the buffer, is never used up:
    more fuel changes nothing. *)
Lemma msg_type_fuel f b len o :
  bytes_ok b -> 0 <= o -> len <= plen b -> plen b - o <= Z.of_nat f -> msg_type (S f) b len o = msg_type f b len o.
Proof.
  intros Hb. revert o. induction f as [|f IH]; intros o Ho Hl Hf.
  - simpl. by destruct (Z.ltb_spec o len); [lia|].
  - change (msg_type (S (S f)) b len o) with (if o <? len then
        c ← rd b o; if c =? DHCP_OPT_END then Some 0 else l ← rd b (o + 1);
        if (c =? DHCP_OPT_MSG_TYPE) && (l =? 1) then rd b (o + 2) else msg_type (S f) b len (o + l + 2) else Some 0).
    cbn [msg_type]. destruct (o <? len); [|done]. destruct (rd b o) as [c|]; [|done]. cbn. destruct (c =? DHCP_OPT_END); [done|].
    destruct (rd b (o + 1)) as [l|] eqn:El; [|done]. cbn. destruct (_ && _); [done|].
    assert (0 <= l) by (unfold rd in El; destruct (o + 1 <? 0); [done|]; by apply (Forall_lookup_1 _ _ _ _ Hb El)).
    apply IH; lia.
Qed.

Lemma ack_options_fuel f b len o acc :
  bytes_ok b -> 0 <= o -> len <= plen b -> plen b - o <= Z.of_nat f -> ack_options (S f) b len o acc = ack_options f b len o acc.
Proof.
  intros Hb. revert o acc. induction f as [|f IH]; intros o [[mask gw] dns] Ho Hl Hf.
  - simpl. by destruct (Z.ltb_spec o len); [lia|].
  - remember (S f) as f1 eqn:Ef. rewrite Ef at 2. cbn [ack_options]. destruct (o <? len); [|done]. destruct (rd b o) as [c|]; [|done].
    cbn. destruct (c =? DHCP_OPT_END); [done|].
    destruct (rd b (o + 1)) as [l|] eqn:El; [|done]. cbn.
    assert (0 <= l) by (unfold rd in El; destruct (o + 1 <? 0); [done|]; by apply (Forall_lookup_1 _ _ _ _ Hb El)).
    destruct (if (c =? DHCP_OPT_SUBNET_MASK) && (l =? 4) then _ else _) as [m|]; [|done]. cbn.
    destruct (if (c =? DHCP_OPT_ROUTER) && (4 <=? l) then _ else _) as [g|]; [|done]. cbn.
    destruct (if (c =? DHCP_OPT_DNS) && (4 <=? l) then _ else _) as [n|]; [|done]. cbn. subst f1. apply IH; lia.
Qed.

(** Padding is not skipped: after a PAD byte the parser takes the next option's code for a length,
    here 53 (message type), and misses the option. *)
Lemma pad_option_misread : msg_type 8 ([0; 53; 1; 5; 255] ++ replicate 60 255) 5 0 = Some 0.
Proof. reflexivity. Qed.
