(* ===== verification/NetPoll.v ===== *)
(** The network stack as a whole (src/kernel/ip.c, udp.c, ethernet.c, net.c): dispatch of a
    received packet, the polling loop that drives every protocol, and the socket layer.

    The polling loop calls itself through a send that has to wait for an address; [depth] bounds
    that nesting and [fuel] the packets one drain of the loopback ring handles. *)
From Stdlib Require Import ZArith Lia.
From S2P Require Import Prelude NetBase Ip Udp Tcp Dns Dhcp.

Section Stack.
Context {NH : NetHeap} {PL : Poll}.

Definition ECHO_PORT : Z := 7.
Definition ECHO_MAX : Z := 16.

Definition udp_echo_handler (data : list Z) (sip sport : Z) (s : net) : net :=
  (udp_send sip sport ECHO_PORT data (-1) s).2.

Definition run_handler (h : option handler) (data : list Z) (sip sport : Z) (s : net) : net :=
  match h with
  | Some UdpEcho => udp_echo_handler data sip sport s
  | Some DnsResponse => dns_response_handler data s
  | Some DhcpRx => dhcp_rx_handler data sip s
  | None => s
  end.

Definition udp_handle_packet (p : list Z) (sip : Z) (s : net) : net :=
  if plen p <? UDP_HEADER_LEN then s
  else
    let dport := get_be16 p 2 in
    let sport := get_be16 p 0 in
    let payload := drop (Z.to_nat UDP_HEADER_LEN) p in
    let '(taken, s) := nsock_udp_deliver dport payload sip sport s in
    if taken then s
    else match list_find (fun l => Is_true (listens_on dport l)) (udp_listeners s) with
         | Some (_, l) => run_handler (ul_handler l) payload sip sport s
         | None => s
         end.

Definition ip_dispatch (protocol : Z) (payload : list Z) (sip dip : Z) (s : net) : net :=
  if protocol =? IP_PROTO_UDP then udp_handle_packet payload sip s
  else if protocol =? IP_PROTO_ICMP then icmp_handle_packet payload sip s
  else if protocol =? IP_PROTO_TCP then tcp_handle_packet payload sip dip s
  else s.

Definition for_us (dip : Z) (i : iface) : bool := named i && ((if_ip i =? dip) || (dip =? 0xFFFFFFFF)).

Definition ip_handle_packet (p : list Z) (s : net) : net :=
  if plen p <? IP_HEADER_LEN then s
  else
    let dip := get_le32 p 16 in
    if existsb (for_us dip) (net_interfaces s) then
      let s := set_g_last_rx_ttl (byte_at p 8) s in
      let ip_total := get_be16 p 2 in
      let ip_len := if (IP_HEADER_LEN <=? ip_total) && (ip_total <=? plen p) then ip_total else plen p in
      ip_dispatch (byte_at p 9) (take (Z.to_nat (ip_len - IP_HEADER_LEN)) (drop (Z.to_nat IP_HEADER_LEN) p)) (get_le32 p 12) dip s
    else s.

Fixpoint ip_loopback_poll (fuel : nat) (s : net) : net :=
  match fuel with
  | O => s
  | S f =>
      if lo_tail s =? lo_head s then s
      else
        let i := lo_tail s in
        let s := set_lo_tail ((lo_tail s + 1) mod LO_QUEUE_LEN) s in
        ip_loopback_poll f (ip_handle_packet (lo_ring s i) s)
  end.

Definition eth_poll (s : net) : net :=
  let '(frame, s) := rtl8139_receive_packet s in
  if plen frame <? ETH_HEADER_LEN then s
  else
    let type := get_be16 frame 12 in
    let payload := drop (Z.to_nat ETH_HEADER_LEN) frame in
    if type =? ETH_TYPE_ARP then arp_handle_packet payload s
    else if type =? ETH_TYPE_IP then ip_handle_packet payload s
    else s.

(** * The echo service *)

Definition tcp_echo_init (s : net) : net :=
  let s := set_echo_conns (replicate (Z.to_nat ECHO_MAX) (-1)) s in
  let '(l, s) := tcp_listen ECHO_PORT s in
  udp_register_listener ECHO_PORT (Some UdpEcho) (set_echo_listen l s).

(** At most every connection of the table can be adopted. *)
Fixpoint echo_adopt (fuel : nat) (s : net) : net :=
  match fuel with
  | O => s
  | S f =>
      let '(c, s) := tcp_accept (echo_listen s) s in
      if c <? 0 then s
      else
        echo_adopt f (match first_index (fun e => e <? 0) (echo_conns s) with
                      | Some i => set_echo_conns (<[i := c]> (echo_conns s)) s
                      | None => s
                      end)
  end.

Definition echo_bounce (i : Z) (s : net) : net :=
  let ec := nth (Z.to_nat i) (echo_conns s) (-1) in
  if ec <? 0 then s
  else if tcp_state ec s =? TCP_STATE_CLOSED then set_echo_conns (<[Z.to_nat i := -1]> (echo_conns s)) s
  else
    let '(n, data, s) := tcp_recv ec 512 s in
    if 0 <? n then (tcp_send ec data s).2 else s.

Definition tcp_echo_poll (s : net) : net :=
  if echo_listen s <? 0 then s
  else for_range (Z.to_nat ECHO_MAX) 0 echo_bounce (echo_adopt (S (Z.to_nat TCP_MAX_CONNS)) s).

Definition poll_ifaces (s : net) : net :=
  for_range 8 0 (fun i s => if is_nic (iface_at s i) then eth_poll s else s) s.

Definition poll_body (fuel : nat) (s : net) : net :=
  tcp_echo_poll (tcp_tick (poll_ifaces (ip_loopback_poll fuel s))).

(** * TCP sockets *)

Definition nsock_create (type : Z) (s : net) : Z * net :=
  if negb (type =? SOCK_STREAM) && negb (type =? SOCK_DGRAM) then (-1, s)
  else
    match first_index (fun k => negb (truthy (in_use k))) (nsocks s) with
    | None => (-1, s)
    | Some i =>
        let s := on_nsock (Z.of_nat i) (fun k => Nsock (in_use k) type (-1) 0 0 None 0 0) s in
        if type =? SOCK_DGRAM then
          let '(ok, s) := net_kmalloc (1480 * UDP_QUEUE) s in
          if ok then (Z.of_nat i, on_nsock (Z.of_nat i)
                       (fun k => set_in_use 1 (set_dq (Some (replicate (Z.to_nat UDP_QUEUE) (Dgram 0 0 []))) k)) s)
          else (-1, s)
        else (Z.of_nat i, on_nsock (Z.of_nat i) (set_in_use 1) s)
    end.

(** The handshake is driven by polling until the connection is up or gone. *)
Fixpoint connect_wait (n : nat) (c : Z) (s : net) : Z * net :=
  match n with
  | O => (-1, s)
  | S n' =>
      let s := poll_net s in
      if tcp_state c s =? TCP_STATE_ESTABLISHED then (0, s)
      else if tcp_state c s =? TCP_STATE_CLOSED then (-1, s)
      else connect_wait n' c s
  end.

Definition nsock_connect (k ip port : Z) (s : net) : Z * net :=
  match nsock_at s k with
  | Some n =>
      if negb (sock_type n =? SOCK_STREAM) then (-1, s)
      else
        let sport := ephemeral s in
        let s := set_ephemeral (let e := u16 (sport + 1) in if 60000 <=? e then 40000 else e) s in
        let '(c, s) := tcp_connect ip port sport s in
        if c <? 0 then (-1, s) else connect_wait 3000 c (on_nsock k (set_tcp_conn c) s)
  | None => (-1, s)
  end.

Definition nsock_bind (k port : Z) (s : net) : Z * net :=
  match nsock_at s k with Some _ => (0, on_nsock k (set_local_port port) s) | None => (-1, s) end.

Definition nsock_listen (k : Z) (s : net) : Z * net :=
  match nsock_at s k with
  | Some n =>
      if local_port n =? 0 then (-1, s)
      else
        let '(l, s) := tcp_listen (local_port n) s in
        if l <? 0 then (-1, s) else (0, on_nsock k (fun n => set_listening 1 (set_tcp_conn l n)) s)
  | None => (-1, s)
  end.

Fixpoint accept_wait (n : nat) (k lc : Z) (s : net) : Z * net :=
  match n with
  | O => (-1, s)
  | S n' =>
      let '(child, s) := tcp_accept lc s in
      if 0 <=? child then
        match first_index (fun k => negb (truthy (in_use k))) (nsocks s) with
        | None => (-1, s)
        | Some j =>
            let lp := match nsocks s !! Z.to_nat k with Some n => local_port n | None => 0 end in
            (Z.of_nat j, on_nsock (Z.of_nat j) (fun k => set_listening 0 (set_local_port lp (set_tcp_conn child
                           (set_sock_type SOCK_STREAM (set_in_use 1 k))))) s)
        end
      else accept_wait n' k lc (poll_net s)
  end.

Definition nsock_accept (k : Z) (s : net) : Z * net :=
  match nsock_at s k with
  | Some n => if negb (truthy (listening n)) || (tcp_conn n <? 0) then (-1, s) else accept_wait 6000 k (tcp_conn n) s
  | None => (-1, s)
  end.

Definition nsock_send (k : Z) (data : list Z) (s : net) : Z * net :=
  match nsock_at s k with
  | Some n =>
      if tcp_conn n <? 0 then (-1, s)
      else let '(r, s) := tcp_send (tcp_conn n) data s in (if r <? 0 then -1 else plen data, s)
  | None => (-1, s)
  end.

Fixpoint recv_wait (n : nat) (c len : Z) (s : net) : Z * list Z * net :=
  match n with
  | O => (0, [], s)
  | S n' =>
      let '(r, data, s) := tcp_recv c len s in
      if 0 <? r then (r, data, s)
      else if tcp_state c s =? TCP_STATE_CLOSED then (0, [], s)
      else recv_wait n' c len (poll_net s)
  end.

Definition nsock_recv (k len : Z) (s : net) : Z * list Z * net :=
  match nsock_at s k with
  | Some n => if (tcp_conn n <? 0) || (len <=? 0) then (-1, [], s) else recv_wait 6000 (tcp_conn n) len s
  | None => (-1, [], s)
  end.

Definition nsock_readable (k : Z) (s : net) : bool :=
  match nsock_at s k with
  | Some n =>
      if sock_type n =? SOCK_DGRAM then bool_decide (is_Some (dq n)) && negb (dq_head n =? dq_tail n)
      else if tcp_conn n <? 0 then true else tcp_recv_ready (tcp_conn n) s
  | None => true
  end.

Definition nsock_close (k : Z) (s : net) : Z * net :=
  match nsock_at s k with
  | Some n =>
      let s := if 0 <=? tcp_conn n then (tcp_close (tcp_conn n) s).2 else s in
      (0, on_nsock k (fun n => set_tcp_conn (-1) (set_in_use 0 (set_dq None n))) s)
  | None => (-1, s)
  end.
End Stack.

(** [kernel_poll_net], for sends nested at most [depth] deep. *)
Fixpoint kernel_poll_net {NH : NetHeap} (fuel depth : nat) (s : net) : net :=
  match depth with
  | O => s
  | S d => poll_body (PL := {| poll_net := kernel_poll_net fuel d |}) fuel s
  end.

(** * Packets to this machine *)

(** The interface that owns an address; packets to it are looped back with that same source. *)
Definition owned (ip : Z) (s : net) : Prop := existsb (fun i => named i && (if_ip i =? ip)) (net_interfaces s) = true.

Lemma owned_local ip s : owned ip s -> is_local_ip ip s = true.
Proof. unfold owned, is_local_ip. intros ->. apply orb_true_r. Qed.

Lemma owned_source ip s : owned ip s -> if_ip (iface_at s (loopback_src_iface ip s)) = ip.
Proof.
  intros H. unfold owned in H. apply existsb_exists in H as (i & Hin & Hi). unfold loopback_src_iface.
  destruct (first_index _ _) as [k|] eqn:E.
  - apply first_index_Some in E as [(x & Hx & Hf) _]. unfold iface_at. rewrite Nat2Z.id.
    rewrite (nth_lookup_Some _ _ _ _ Hx). by bool_prop.
  - apply list_elem_of_In, list_elem_of_lookup_1 in Hin as [k Hk]. rewrite (proj1 (first_index_None _ _) E k i Hk) in Hi. done.
Qed.

Lemma owned_for_us ip s : owned ip s -> existsb (for_us ip) (net_interfaces s) = true.
Proof.
  unfold owned. rewrite !existsb_exists. intros (i & Hin & Hi). exists i. split; [done|]. unfold for_us. bool_prop.
  rewrite H, H0, Z.eqb_refl. done.
Qed.

Lemma ip_packet_len proto src dst data : plen (ip_packet proto src dst data) = IP_HEADER_LEN + plen data.
Proof. unfold plen, ip_packet. rewrite length_app. cbn [ip_header be16 le32 app length]. unfold IP_HEADER_LEN. lia. Qed.

Lemma plen_nonneg p : 0 <= plen p.
Proof. unfold plen. lia. Qed.

Section Loopback.
Context {NH : NetHeap} {PL : Poll}.

(** A packet [ip_send] built is taken apart into what it was built from. *)
Lemma ip_handle_own proto src dst data s :
  0 <= proto < 256 -> 0 <= src < 2 ^ 32 -> 0 <= dst < 2 ^ 32 -> plen data <= 0xFFFF - 20 -> owned dst s ->
  ip_handle_packet (ip_packet proto src dst data) s = ip_dispatch proto data src dst (set_g_last_rx_ttl 64 s).
Proof.
  intros Hp Hs Hd Hl Ho. pose proof (plen_nonneg data).
  assert (E1 : get_le32 (ip_packet proto src dst data) 16 = dst) by exact (u32_split_le dst Hd).
  assert (E2 : get_le32 (ip_packet proto src dst data) 12 = src) by exact (u32_split_le src Hs).
  assert (E3 : get_be16 (ip_packet proto src dst data) 2 = 20 + plen data).
  { transitivity (u16 (20 + plen data)); [exact (u16_split _ (u16_range _))|apply u16_small; lia]. }
  assert (E4 : byte_at (ip_packet proto src dst data) 9 = proto) by reflexivity.
  assert (E5 : byte_at (ip_packet proto src dst data) 8 = 64) by reflexivity.
  assert (E6 : drop (Z.to_nat IP_HEADER_LEN) (ip_packet proto src dst data) = data) by reflexivity.
  pose proof (ip_packet_len proto src dst data) as El.
  revert E1 E2 E3 E4 E5 E6 El. generalize (ip_packet proto src dst data). intros p E1 E2 E3 E4 E5 E6 El.
  unfold ip_handle_packet. rewrite E1, E2, E3, E4, E5, E6, El, (owned_for_us dst s Ho). unfold IP_HEADER_LEN.
  destruct (Z.ltb_spec (20 + plen data) 20); [lia|]. destruct (Z.leb_spec 20 (20 + plen data)); [|lia].
  rewrite Z.leb_refl. simpl andb. cbv iota. rewrite take_ge; [done|]. unfold plen. lia.
Qed.

(** The ring is empty. *)
Definition lo_empty (s : net) : Prop := lo_tail s = lo_head s /\ 0 <= lo_head s < LO_QUEUE_LEN.

Lemma poll_empty fuel s : lo_empty s -> ip_loopback_poll fuel s = s.
Proof. intros [E _]. destruct fuel; simpl; [done|]. by rewrite E, Z.eqb_refl. Qed.

(** The state in which the one packet queued on an empty ring is handled. *)
Definition dequeued (p : list Z) (s : net) : net :=
  let h := (lo_head s + 1) mod LO_QUEUE_LEN in set_lo_tail h (set_lo_head h (set_lo_ring (<[lo_head s := p]> (lo_ring s)) s)).

Lemma dequeued_empty p s : lo_empty s -> lo_empty (dequeued p s).
Proof. intros [_ H]. split; [done|]. simpl. apply Z.mod_pos_bound. done. Qed.

Lemma poll_one fuel p s :
  lo_empty s -> plen p <= LO_MAX_PKT ->
  ip_loopback_poll (S fuel) (loopback_enqueue p s) = ip_loopback_poll fuel (ip_handle_packet p (dequeued p s)).
Proof.
  intros [E Hr] Hl. unfold loopback_enqueue. destruct (Z.ltb_spec LO_MAX_PKT (plen p)); [lia|].
  assert (Hne : (lo_head s + 1) mod LO_QUEUE_LEN <> lo_head s).
  { unfold LO_QUEUE_LEN in *. Z.to_euclidean_division_equations. lia. }
  rewrite E, (proj2 (Z.eqb_neq _ _) Hne). cbn [ip_loopback_poll].
  change (lo_tail (set_lo_head ?a (set_lo_ring ?b s))) with (lo_tail s).
  change (lo_head (set_lo_head ?a ?b)) with a. rewrite E. rewrite (proj2 (Z.eqb_neq _ _)) by congruence.
  do 2 f_equal.
  - simpl. apply fn_lookup_insert.
Qed.
(** * A datagram to a local socket *)

Lemma udp_bytes_len sport dport data : plen (udp_bytes sport dport data) = UDP_HEADER_LEN + plen data.
Proof. unfold plen, udp_bytes. cbn [be16 app length]. unfold UDP_HEADER_LEN. lia. Qed.

Lemma udp_handle_own sport dport data sip i s :
  0 <= sport < 2 ^ 16 -> 0 <= dport < 2 ^ 16 -> first_index (bound_dgram dport) (nsocks s) = Some i ->
  udp_handle_packet (udp_bytes sport dport data) sip s =
    on_nsock (Z.of_nat i) (enqueue_dgram (Dgram sip sport (take (Z.to_nat UDP_DGRAM_MAX) data))) s.
Proof.
  intros H1 H2 Hi. pose proof (plen_nonneg data).
  assert (E1 : get_be16 (udp_bytes sport dport data) 0 = sport) by exact (u16_split sport H1).
  assert (E2 : get_be16 (udp_bytes sport dport data) 2 = dport) by exact (u16_split dport H2).
  assert (E3 : drop (Z.to_nat UDP_HEADER_LEN) (udp_bytes sport dport data) = data) by reflexivity.
  pose proof (udp_bytes_len sport dport data) as El. revert E1 E2 E3 El. generalize (udp_bytes sport dport data).
  intros p E1 E2 E3 El. unfold udp_handle_packet. rewrite E1, E2, E3, El. unfold UDP_HEADER_LEN.
  destruct (Z.ltb_spec (8 + plen data) 8); [lia|]. unfold nsock_udp_deliver. by rewrite Hi.
Qed.

Lemma nsock_at_Some s k n :
  nsock_at s k = Some n -> 0 <= k < MAX_SOCKETS /\ nsocks s !! Z.to_nat k = Some n /\ truthy (in_use n) = true.
Proof.
  unfold nsock_at. destruct (Z.leb_spec 0 k), (Z.ltb_spec k MAX_SOCKETS); try done. simpl.
  destruct (nsocks s !! Z.to_nat k) as [m|]; [|done]. destruct (truthy (in_use m)) eqn:E; [|done]. intros [= ->]. done.
Qed.

(** A socket's ring is not full: a datagram goes to the head. *)
Record ring_ok (m : nsock) (q : list dgram) : Prop := {
  ro_dq : dq m = Some q;
  ro_len : length q = Z.to_nat UDP_QUEUE;
  ro_head : 0 <= dq_head m < UDP_QUEUE;
  ro_room : (dq_head m + 1) mod UDP_QUEUE <> dq_tail m
}.

Lemma enqueue_room d m q :
  ring_ok m q -> enqueue_dgram d m = set_dq_head ((dq_head m + 1) mod UDP_QUEUE) (set_dq (Some (<[Z.to_nat (dq_head m) := d]> q)) m).
Proof. intros [H1 H2 H3 H4]. unfold enqueue_dgram. rewrite (proj2 (Z.eqb_neq _ _) H4), H1. done. Qed.

(** Received on a ring that was empty: the datagram that was put in. *)
Lemma dequeue_enqueued d m q len :
  ring_ok m q -> dq_tail m = dq_head m ->
  exists m', dequeue_dgram len (enqueue_dgram d m) = Some (take (Z.to_nat len) (dg_data d), dg_src_ip d, dg_src_port d, m').
Proof.
  intros Hr Et. rewrite (enqueue_room d m q Hr). destruct Hr as [H1 H2 H3 H4]. unfold dequeue_dgram. cbn.
  rewrite (proj2 (Z.eqb_neq _ _)) by congruence. rewrite Et, list_lookup_insert_eq by (rewrite H2; unfold UDP_QUEUE in *; lia). by eexists.
Qed.

Lemma recvfrom_hit n k len s data ip port m' :
  nsocks s !! Z.to_nat k ≫= dequeue_dgram len = Some (data, ip, port, m') ->
  recvfrom_wait (S n) k len s = (Some (data, ip, port), on_nsock k (fun _ => m') s).
Proof. intros H. cbn [recvfrom_wait]. by rewrite H. Qed.

(** A waiting datagram is returned without polling. *)
Lemma recvfrom_ready s i m data ip port m' len :
  (i < Z.to_nat MAX_SOCKETS)%nat -> nsocks s !! i = Some m -> truthy (in_use m) = true -> sock_type m = SOCK_DGRAM ->
  is_Some (dq m) -> 0 < len -> dequeue_dgram len m = Some (data, ip, port, m') ->
  (nsock_recvfrom (Z.of_nat i) len s).1 = Some (data, ip, port).
Proof.
  intros Hi Hm Hu Hs Hq Hl Hd.
  assert (Hat : nsock_at s (Z.of_nat i) = Some m).
  { unfold nsock_at. destruct (Z.leb_spec 0 (Z.of_nat i)); [|lia]. destruct (Z.ltb_spec (Z.of_nat i) MAX_SOCKETS); [|lia].
    rewrite Nat2Z.id, Hm. by rewrite Hu. }
  unfold nsock_recvfrom. rewrite Hat, Hs, (bool_decide_true _ Hq), (proj2 (Z.ltb_lt 0 len) Hl), Z.eqb_refl.
  cbv beta iota delta [andb]. change 6000%nat with (S 5999). rewrite (recvfrom_hit _ _ _ _ data ip port m'); [done|]. by rewrite Nat2Z.id, Hm.
Qed.

(** a datagram sent to an address of this machine arrives.  Socket [k], bound to a port, sends up
    to 1472 bytes to an interface's own address; the send reports their number, the next drain of
    the loopback ring puts exactly them, with the address and the port of the sender, into the
    ring of the socket bound to the destination port and empties the loopback ring; no other
    socket, no connection and no address entry changes and nothing goes on the wire.  A receive on
    that socket, its ring having been empty, then returns at once with the bytes (cut to the
    caller's buffer) and the sender. *)
Theorem udp_loopback_delivers s k n i m q data dip dport fuel :
  nsock_at s k = Some n -> sock_type n = SOCK_DGRAM -> local_port n <> 0 -> 0 <= local_port n < 2 ^ 16 ->
  owned dip s -> 0 <= dip < 2 ^ 32 -> 0 <= dport < 2 ^ 16 -> plen data <= UDP_DGRAM_MAX ->
  first_index (bound_dgram dport) (nsocks s) = Some i -> (i < Z.to_nat MAX_SOCKETS)%nat -> nsocks s !! i = Some m -> ring_ok m q ->
  lo_empty s -> (forall a z, can_alloc a z = true) ->
  let s1 := (nsock_sendto k data dip dport s).2 in
  let s2 := ip_loopback_poll (S fuel) s1 in
  (nsock_sendto k data dip dport s).1 = plen data /\
  nsocks s2 = <[i := enqueue_dgram (Dgram dip (local_port n) data) m]> (nsocks s) /\
  lo_empty s2 /\ conns s2 = conns s /\ arp_cache s2 = arp_cache s /\ wire_tx s2 = wire_tx s /\
  (dq_tail m = dq_head m -> forall len, 0 < len ->
   (nsock_recvfrom (Z.of_nat i) len s2).1 = Some (take (Z.to_nat len) data, dip, local_port n)).
Proof.
  intros Hk Ht Hp Hpr Ho Hd Hdp Hl Hi Hib Hm Hq He Ha.
  pose proof (plen_nonneg data) as Hpos. unfold UDP_DGRAM_MAX in Hl.
  set (pkt := ip_packet IP_PROTO_UDP dip dip (udp_bytes (local_port n) dport data)).
  set (s0 := set_allocs (S (S (allocs s))) s).
  assert (Hsend : nsock_sendto k data dip dport s = (plen data, loopback_enqueue pkt s0)).
  { destruct (nsock_at_Some _ _ _ Hk) as (_ & Hn & _). unfold nsock_sendto. rewrite Hk, Ht. simpl negb. cbv iota.
    rewrite (proj2 (Z.eqb_neq _ _) Hp), Hn. unfold udp_send, net_kmalloc. rewrite Ha. simpl negb. cbv iota.
    rewrite (ip_send_local dip) by (apply owned_local || apply Ha; done). rewrite owned_source by done.
    destruct (Z.ltb_spec (u32 (IP_HEADER_LEN + plen (udp_bytes (local_port n) dport data))) 0); [|done].
    pose proof (u32_range (IP_HEADER_LEN + plen (udp_bytes (local_port n) dport data))). lia. }
  cbv zeta. rewrite Hsend. cbn [fst snd]. split; [done|].
  assert (He0 : lo_empty s0) by exact He.
  set (d0 := Dgram dip (local_port n) data).
  assert (Hpoll : ip_loopback_poll (S fuel) (loopback_enqueue pkt s0) =
                  on_nsock (Z.of_nat i) (enqueue_dgram d0) (set_g_last_rx_ttl 64 (dequeued pkt s0))).
  { rewrite poll_one; [|done|unfold pkt; rewrite ip_packet_len, udp_bytes_len; unfold IP_HEADER_LEN, UDP_HEADER_LEN, LO_MAX_PKT; lia].
    unfold pkt at 1. rewrite ip_handle_own; [|done|done|done|rewrite udp_bytes_len; unfold UDP_HEADER_LEN; lia|done].
    unfold ip_dispatch. rewrite Z.eqb_refl. rewrite (udp_handle_own _ _ _ _ i) by done.
    rewrite take_ge by (unfold plen in Hl; unfold UDP_DGRAM_MAX; lia). apply poll_empty. exact (dequeued_empty pkt s0 He0). }
  rewrite Hpoll. clear Hpoll Hsend.
  assert (Hns : nsocks (on_nsock (Z.of_nat i) (enqueue_dgram d0) (set_g_last_rx_ttl 64 (dequeued pkt s0))) = <[i := enqueue_dgram d0 m]> (nsocks s)).
  { simpl. rewrite Nat2Z.id. by apply alter_at. }
  split; [done|]. split; [exact (dequeued_empty pkt s0 He0)|]. split; [done|]. split; [done|]. split; [done|].
  intros Et len Hlen. destruct (dequeue_enqueued d0 m q len Hq Et) as [m' Hdq].
  revert Hns. generalize (on_nsock (Z.of_nat i) (enqueue_dgram d0) (set_g_last_rx_ttl 64 (dequeued pkt s0))). intros s2 Hns.
  assert (Hlk : nsocks s2 !! i = Some (enqueue_dgram d0 m)) by (rewrite Hns; apply list_lookup_insert_eq; by eapply lookup_lt_Some).
  pose proof (proj1 (first_index_Some _ _ _) Hi) as [(x & Hx & Hb) _]. rewrite Hm in Hx. injection Hx as <-.
  unfold bound_dgram in Hb. apply andb_true_iff in Hb as [Hb _], Hb. destruct Hb as [Hb _]. apply andb_true_iff in Hb as [Hb1 Hb2].
  rewrite (enqueue_room d0 m q Hq) in Hlk, Hdq. apply (recvfrom_ready s2 i _ _ _ _ m' len Hib Hlk); [done|by apply Z.eqb_eq|by eexists|done|done].
Qed.
(** * A TCP stream between two local connections *)

Lemma on_conn_enqueue i f p s : on_conn i f (loopback_enqueue p s) = loopback_enqueue p (on_conn i f s).
Proof. unfold loopback_enqueue. destruct (_ <? _); [done|]. by destruct (_ =? _). Qed.

Definition seq_consuming (flags data_len : Z) : bool := has flags TCP_FLAG_SYN || has flags TCP_FLAG_FIN || (0 <? data_len).

(** What sending a segment does to its own connection. *)
Definition sent (now flags : Z) (data : list Z) (c : conn) : conn :=
  let seg := tcp_bytes (src_ip c) (dst_ip c) (src_port c) (dst_port c) (seq_no c) (ack_no c) (0x5000 .| (flags .& 0x3F)) 0x2000 data in
  advance_seq flags (plen data) (if seq_consuming flags (plen data) then armed now flags (plen data) seg c else c).

Lemma on_conn_at i f g c s : conns s !! Z.to_nat i = Some c -> f c = g c -> on_conn i f s = on_conn i g s.
Proof. intros Hc E. unfold on_conn. f_equal. apply list_alter_ext; [|done]. intros x Hx. congruence. Qed.

Lemma send_segment_local i flags data c s :
  conns s !! Z.to_nat i = Some c -> owned (dst_ip c) s -> g_tcp_drop_tx s <= 0 -> (forall a z, can_alloc a z = true) ->
  exists n,
  send_segment i flags data s =
    (u32 (IP_HEADER_LEN + (TCP_HEADER_LEN + plen data)),
     loopback_enqueue (ip_packet IP_PROTO_TCP (dst_ip c) (dst_ip c)
       (tcp_bytes (src_ip c) (dst_ip c) (src_port c) (dst_port c) (seq_no c) (ack_no c) (0x5000 .| (flags .& 0x3F)) 0x2000 data))
       (set_allocs n (on_conn i (sent (ticks s) flags data) s))).
Proof.
  intros Hc Ho Hd Ha. unfold send_segment, net_kmalloc. rewrite Ha. cbv beta iota delta [negb].
  set (s1 := set_allocs (S (allocs s)) s). assert (Hc1 : conn_at s1 i = c) by exact (nth_lookup_Some _ _ _ _ Hc).
  rewrite Hc1. set (seg := tcp_bytes _ _ _ _ _ _ _ _ data). fold (seq_consuming flags (plen data)).
  assert (Hs2 : exists m g, (if seq_consuming flags (plen data) then arm_retransmit i flags seg (plen data) s1 else s1)
      = set_allocs m (on_conn i g s) /\ g c = (if seq_consuming flags (plen data) then armed (ticks s) flags (plen data) seg c else c)).
  { destruct (seq_consuming flags (plen data)).
    - unfold arm_retransmit, net_kmalloc. rewrite Ha. by eexists _, _.
    - exists (S (allocs s)), (fun c => c). split; [|done]. unfold on_conn. rewrite list_alter_id by done. by destruct s. }
  destruct Hs2 as (m & g & E2 & Hg). rewrite E2. clear E2.
  set (s2 := set_allocs m (on_conn i g s)).
  assert (Hc2 : conns s2 !! Z.to_nat i = Some (g c)) by (simpl; by rewrite list_lookup_alter_eq, Hc).
  change (g_tcp_drop_tx s2) with (g_tcp_drop_tx s). destruct (Z.ltb_spec 0 (g_tcp_drop_tx s)); [lia|]. cbv beta iota delta [andb].
  assert (Hd2 : dst_ip (conn_at s2 i) = dst_ip c).
  { unfold conn_at. rewrite (nth_lookup_Some _ _ _ _ Hc2), Hg. by destruct (seq_consuming _ _). }
  rewrite Hd2. assert (Ho2 : owned (dst_ip c) s2) by exact Ho.
  rewrite (ip_send_local (dst_ip c)) by first [by apply owned_local | apply Ha]. rewrite owned_source by done.
  exists (S (allocs s2)). unfold seg at 1. rewrite tcp_bytes_len. f_equal. rewrite on_conn_enqueue. f_equal.
  assert (E : alter (advance_seq flags (plen data)) (Z.to_nat i) (alter g (Z.to_nat i) (conns s)) =
              alter (sent (ticks s) flags data) (Z.to_nat i) (conns s)).
  { rewrite (alter_at g _ _ _ Hc), (alter_at _ _ _ (g c)), (alter_at (sent _ _ _) _ _ _ Hc), list_insert_insert_eq.
    - unfold sent. by rewrite Hg.
    - apply list_lookup_insert_eq. by eapply lookup_lt_Some. }
  unfold on_conn at 1. change (conns (set_allocs (S (allocs s2)) s2)) with (alter g (Z.to_nat i) (conns s)). rewrite E. reflexivity.
Qed.
(** The connection table replaced, [n] allocations made so far. *)
Definition with_conns (l : list conn) (n : nat) (s : net) : net := set_allocs n (set_conns l s).

Lemma with_conns_on j f c l n s : l !! Z.to_nat j = Some c -> on_conn j f (with_conns l n s) = with_conns (<[Z.to_nat j := f c]> l) n s.
Proof. intros H. rewrite <- (alter_at f l _ c H). reflexivity. Qed.

Lemma with_conns_id s : s = with_conns (conns s) (allocs s) s.
Proof. by destruct s. Qed.

Lemma conn_at_with j c l n s : l !! Z.to_nat j = Some c -> conn_at (with_conns l n s) j = c.
Proof. intros H. exact (nth_lookup_Some _ _ _ _ H). Qed.

Lemma store_payload_ok j payload c l n s :
  l !! Z.to_nat j = Some c -> recv_len c + plen payload < 2 ^ 32 -> (forall a z, can_alloc a z = true) ->
  exists n' cap, store_payload j payload (with_conns l n s) =
    with_conns (<[Z.to_nat j := set_recv_cap cap (set_recv_buf (Some (default [] (recv_buf c) ++ payload)) c)]> l) n' s.
Proof.
  intros Hc Hlen Ha. pose proof (plen_nonneg payload). unfold store_payload. rewrite (conn_at_with _ _ _ _ _ Hc).
  assert (Hlt : (Z.to_nat j < length l)%nat) by (by eapply lookup_lt_Some).
  destruct (recv_buf c) as [buf|] eqn:Eb.
  - rewrite (conn_at_with _ _ _ _ _ Hc).
    assert (Hr : recv_len c = plen buf) by (unfold recv_len; by rewrite Eb).
    pose proof (plen_nonneg buf). destruct (recv_cap c <? u32 (recv_len c + plen payload)).
    + unfold net_kmalloc. rewrite Ha. cbv iota. eexists _, _.
      change (set_allocs (S (allocs (with_conns l n s))) (with_conns l n s)) with (with_conns l (S n) s).
      rewrite (with_conns_on j _ _ _ _ _ Hc). rewrite (with_conns_on j _ _ _ _ _ (list_lookup_insert_eq _ _ _ Hlt)).
      rewrite list_insert_insert_eq. cbn [recv_buf set_recv_buf set_recv_cap]. rewrite Eb. reflexivity.
    + exists n, (recv_cap c). rewrite (with_conns_on j _ _ _ _ _ Hc). cbn [default]. rewrite Eb. cbn [default id].
      by destruct c.
  - unfold net_kmalloc. rewrite Ha. cbv iota. set (cap := if 4096 <? plen payload then plen payload else 4096).
    change (set_allocs (S (allocs (with_conns l n s))) (with_conns l n s)) with (with_conns l (S n) s).
    rewrite (with_conns_on j _ _ _ _ _ Hc). set (c1 := set_recv_cap cap (set_recv_buf (Some []) c)).
    assert (Hc1 : <[Z.to_nat j := c1]> l !! Z.to_nat j = Some c1) by (by apply list_lookup_insert_eq).
    rewrite (conn_at_with _ _ _ _ _ Hc1). assert (Hr1 : recv_len c1 = 0) by done.
    assert (Hcap : plen payload <= cap) by (unfold cap; destruct (Z.ltb_spec 4096 (plen payload)); lia).
    unfold recv_len in Hlen. rewrite Eb in Hlen. rewrite Hr1, Z.add_0_l, u32_small by lia. change (recv_cap c1) with cap.
    destruct (Z.ltb_spec cap (plen payload)); [lia|]. cbv iota. exists (S n), cap.
    rewrite (with_conns_on j _ _ _ _ _ Hc1), list_insert_insert_eq. reflexivity.
Qed.
(** The acknowledgement of an incoming segment applied to a connection. *)
Definition acked (flags ackno : Z) (c : conn) : conn := if ack_clears flags ackno c then set_rt_seg None c else c.

Lemma acked_on j flags ackno c l n s :
  l !! Z.to_nat j = Some c ->
  (if ack_clears flags ackno (conn_at (with_conns l n s) j) then on_conn j (set_rt_seg None) (with_conns l n s) else with_conns l n s) =
  with_conns (<[Z.to_nat j := acked flags ackno c]> l) n s.
Proof.
  intros Hc. rewrite (conn_at_with _ _ _ _ _ Hc). unfold acked. destruct (ack_clears _ _ _).
  - by apply with_conns_on.
  - by rewrite list_insert_id.
Qed.

(** The connection after [payload] arrived at sequence number [sq] and its acknowledgement left. *)
Definition received (now flags sq ackno cap : Z) (payload : list Z) (c : conn) : conn :=
  sent now TCP_FLAG_ACK [] (set_recv_cap cap (set_recv_buf (Some (default [] (recv_buf c) ++ payload))
    (set_ack_no (u32 (sq + plen payload)) (acked flags ackno c)))).

Lemma acked_fields flags ackno c :
  let c' := acked flags ackno c in
  c_active c' = c_active c /\ c_state c' = c_state c /\ src_ip c' = src_ip c /\ dst_ip c' = dst_ip c /\ src_port c' = src_port c /\
  dst_port c' = dst_port c /\ seq_no c' = seq_no c /\ ack_no c' = ack_no c /\ recv_buf c' = recv_buf c.
Proof. cbv zeta. unfold acked. by destruct (ack_clears _ _ _). Qed.

Lemma on_data j flags sq ackno payload c l n s :
  l !! Z.to_nat j = Some c -> has flags TCP_FLAG_ACK = true -> 0 < plen payload -> c_state c <> TCP_STATE_SYN_RCVD ->
  recv_len c + plen payload < 2 ^ 32 -> owned (dst_ip c) s -> g_tcp_drop_tx s <= 0 -> (forall a z, can_alloc a z = true) ->
  exists n' cap, tcp_on_conn j flags sq ackno payload (with_conns l n s) =
    loopback_enqueue (ip_packet IP_PROTO_TCP (dst_ip c) (dst_ip c)
      (tcp_bytes (src_ip c) (dst_ip c) (src_port c) (dst_port c) (seq_no c) (u32 (sq + plen payload)) (0x5000 .| (TCP_FLAG_ACK .& 0x3F)) 0x2000 []))
      (with_conns (<[Z.to_nat j := received (ticks s) flags sq ackno cap payload c]> l) n' s).
Proof.
  intros Hc Hf Hp Hst Hlen Ho Hd Ha. unfold tcp_on_conn. rewrite (acked_on _ _ _ _ _ _ _ Hc).
  assert (Hlt : (Z.to_nat j < length l)%nat) by (by eapply lookup_lt_Some).
  destruct (acked_fields flags ackno c) as (_ & A2 & A3 & A4 & A5 & A6 & A7 & _ & A9). unfold received.
  set (c1 := acked flags ackno c) in *. set (l1 := <[Z.to_nat j := c1]> l).
  assert (Hc1 : l1 !! Z.to_nat j = Some c1) by (by apply list_lookup_insert_eq).
  rewrite (conn_at_with _ _ _ _ _ Hc1), A2, (proj2 (Z.eqb_neq _ _) Hst), andb_false_r, (proj2 (Z.ltb_lt _ _) Hp), Hf.
  cbv beta iota delta [andb]. rewrite (with_conns_on j _ _ _ _ _ Hc1). unfold l1. rewrite list_insert_insert_eq.
  set (c2 := set_ack_no (u32 (sq + plen payload)) c1).
  assert (Hc2 : <[Z.to_nat j := c2]> l !! Z.to_nat j = Some c2) by (by apply list_lookup_insert_eq).
  assert (Hlen2 : recv_len c2 + plen payload < 2 ^ 32).
  { replace (recv_len c2) with (recv_len c); [done|]. unfold recv_len. change (recv_buf c2) with (recv_buf c1). by rewrite A9. }
  destruct (store_payload_ok j payload c2 _ n s Hc2 Hlen2 Ha) as (n1 & cap & Est). rewrite Est, list_insert_insert_eq. clear Est.
  change (recv_buf c2) with (recv_buf c1). rewrite A9.
  set (c3 := set_recv_cap cap _). set (s3 := with_conns _ n1 s).
  assert (Hc3 : conns s3 !! Z.to_nat j = Some c3) by (by apply list_lookup_insert_eq).
  destruct (send_segment_local j TCP_FLAG_ACK [] c3 s3 Hc3) as (n2 & Es); [by change (owned (dst_ip c1) s); rewrite A4|done|done|].
  rewrite Es. cbn [snd]. exists n2, cap.
  change (src_ip c3) with (src_ip c1). change (dst_ip c3) with (dst_ip c1). change (src_port c3) with (src_port c1).
  change (dst_port c3) with (dst_port c1). change (seq_no c3) with (seq_no c1). change (ack_no c3) with (u32 (sq + plen payload)).
  rewrite A3, A4, A5, A6, A7. f_equal. unfold s3. rewrite (with_conns_on j _ c3) by exact Hc3. rewrite list_insert_insert_eq. reflexivity.
Qed.

(** A bare acknowledgement. *)
Lemma on_bare_ack i sq ackno c l n s :
  l !! Z.to_nat i = Some c -> c_state c <> TCP_STATE_SYN_RCVD ->
  tcp_on_conn i TCP_FLAG_ACK sq ackno [] (with_conns l n s) = with_conns (<[Z.to_nat i := acked TCP_FLAG_ACK ackno c]> l) n s.
Proof.
  intros Hc Hst. unfold tcp_on_conn. rewrite (acked_on _ _ _ _ _ _ _ Hc).
  destruct (acked_fields TCP_FLAG_ACK ackno c) as (_ & A2 & _).
  rewrite (conn_at_with _ (acked TCP_FLAG_ACK ackno c)) by (apply list_lookup_insert_eq; by eapply lookup_lt_Some).
  rewrite A2, (proj2 (Z.eqb_neq _ _) Hst), andb_false_r. reflexivity.
Qed.
(** The fields a segment is matched by. *)
Definition conn_key (c : conn) : Z * Z * Z * Z * Z := (c_active c, c_state c, dst_ip c, src_port c, dst_port c).

Lemma first_index_map {A B} (k : A -> B) (f : B -> bool) l : first_index (fun x => f (k x)) l = first_index f (map k l).
Proof. induction l as [|x l IH]; simpl; [done|]. by rewrite IH. Qed.

Lemma find_conn_keys dip sport dport s s' :
  map conn_key (conns s) = map conn_key (conns s') -> find_conn_by_tuple dip sport dport s = find_conn_by_tuple dip sport dport s'.
Proof.
  intros E. unfold find_conn_by_tuple. f_equal.
  pose (f := fun k : Z * Z * Z * Z * Z => let '(act, st, ip, sp, dp) := k in
    truthy act && negb (st =? TCP_STATE_LISTEN) && (ip =? dip) && (sp =? sport) && (dp =? dport)).
  transitivity (first_index f (map conn_key (conns s))); [exact (first_index_map conn_key f (conns s))|].
  rewrite E. symmetry. exact (first_index_map conn_key f (conns s')).
Qed.

Lemma map_key_insert i c c' l : l !! i = Some c -> conn_key c' = conn_key c -> map conn_key (<[i := c']> l) = map conn_key l.
Proof.
  intros Hc E. rewrite list_fmap_insert, E. apply list_insert_id. by rewrite list_lookup_fmap, Hc.
Qed.

Lemma sent_key now flags data c : conn_key (sent now flags data c) = conn_key c.
Proof. unfold sent, advance_seq. destruct (seq_consuming _ _), (has flags TCP_FLAG_SYN), (has flags TCP_FLAG_RST), (0 <? plen data); done. Qed.

Lemma acked_key flags ackno c : conn_key (acked flags ackno c) = conn_key c.
Proof. unfold acked. by destruct (ack_clears _ _ _). Qed.

(** Two established connections of this machine that talk to each other. *)
Record linked (i j : nat) (ip : Z) (a b : conn) (s : net) : Prop := {
  lk_owned : owned ip s;
  lk_ip : 0 <= ip < 2 ^ 32;
  lk_ring : lo_empty s;
  lk_drop : g_tcp_drop_tx s <= 0;
  lk_i : (i < Z.to_nat TCP_MAX_CONNS)%nat /\ (j < Z.to_nat TCP_MAX_CONNS)%nat;
  lk_ne : i <> j;
  lk_a : conns s !! i = Some a;
  lk_b : conns s !! j = Some b;
  lk_active : truthy (c_active a) = true;
  lk_state_a : c_state a = TCP_STATE_ESTABLISHED;
  lk_state_b : c_state b = TCP_STATE_ESTABLISHED;
  lk_dst_a : dst_ip a = ip;
  lk_dst_b : dst_ip b = ip;
  lk_sp : src_port a = dst_port b /\ 0 <= src_port a < 2 ^ 16;
  lk_dp : dst_port a = src_port b /\ 0 <= dst_port a < 2 ^ 16;
  lk_seq : 0 <= seq_no a < 2 ^ 32 /\ 0 <= seq_no b < 2 ^ 32 /\ 0 <= ack_no a < 2 ^ 32;
  lk_find_a : find_conn_by_tuple ip (src_port a) (dst_port a) s = Some (Z.of_nat i);
  lk_find_b : find_conn_by_tuple ip (src_port b) (dst_port b) s = Some (Z.of_nat j)
}.

(** The sender after its segment was acknowledged. *)
Definition delivered (now : Z) (data : list Z) (a : conn) : conn :=
  acked TCP_FLAG_ACK (u32 (seq_no a + plen data)) (sent now 0x18 data a).

Lemma delivered_fields now data a :
  0 < plen data ->
  let a' := delivered now data a in
  conn_key a' = conn_key a /\ rt_seg a' = None /\ seq_no a' = u32 (seq_no a + plen data) /\ ack_no a' = ack_no a /\
  recv_buf a' = recv_buf a.
Proof.
  intros Hp. cbv zeta. unfold delivered. split; [by rewrite acked_key, sent_key|].
  unfold acked, ack_clears, sent, seq_consuming, advance_seq, armed. rewrite (proj2 (Z.ltb_lt _ _) Hp).
  change (has 0x18 TCP_FLAG_SYN) with false. change (has 0x18 TCP_FLAG_FIN) with false. change (has 0x18 TCP_FLAG_RST) with false.
  change (has TCP_FLAG_ACK TCP_FLAG_ACK) with true. cbn [orb b2z].
  set (seg := tcp_bytes _ _ _ _ _ _ _ _ _). clearbody seg. cbn.
  rewrite !Z.add_0_r, Z.sub_diag. done.
Qed.

Lemma received_fields now flags sq ackno cap payload b :
  0 <= seq_no b < 2 ^ 32 ->
  let b' := received now flags sq ackno cap payload b in
  conn_key b' = conn_key b /\ (rt_seg b = None -> rt_seg b' = None) /\ seq_no b' = seq_no b /\ ack_no b' = u32 (sq + plen payload) /\
  recv_buf b' = Some (default [] (recv_buf b) ++ payload).
Proof.
  intros Hs. cbv zeta. unfold received. split; [rewrite sent_key; unfold acked; by destruct (ack_clears _ _ _)|].
  split; [intros E; unfold acked; by destruct (ack_clears _ _ _)|].
  unfold sent. change (seq_consuming TCP_FLAG_ACK (plen [])) with false. cbv iota. unfold advance_seq.
  change (has TCP_FLAG_ACK TCP_FLAG_SYN) with false. change (has TCP_FLAG_ACK TCP_FLAG_RST) with false.
  change (has TCP_FLAG_ACK TCP_FLAG_FIN) with false. change (0 <? plen []) with false. change (plen []) with 0. cbn. rewrite !Z.add_0_r.
  destruct (acked_fields flags ackno b) as (_ & _ & _ & _ & _ & _ & A7 & _). rewrite A7, (u32_small (seq_no b)) by lia. done.
Qed.
Lemma tcp_send_established i a data s :
  (i < Z.to_nat TCP_MAX_CONNS)%nat -> conns s !! i = Some a -> truthy (c_active a) = true -> c_state a = TCP_STATE_ESTABLISHED ->
  tcp_send (Z.of_nat i) data s = send_segment (Z.of_nat i) 0x18 data s.
Proof.
  intros Hi Hc Hact Hst. unfold tcp_send, valid_id.
  destruct (Z.leb_spec 0 (Z.of_nat i)); [|lia]. destruct (Z.ltb_spec (Z.of_nat i) TCP_MAX_CONNS); [|unfold TCP_MAX_CONNS in *; lia]. cbn [andb negb].
  assert (E : conn_at s (Z.of_nat i) = a) by (unfold conn_at; rewrite Nat2Z.id; exact (nth_lookup_Some _ _ _ _ Hc)).
  rewrite E, Hact, Hst. reflexivity.
Qed.

(** A packet queued on an empty ring is dispatched by the next drain. *)
Lemma poll_segment fuel ip seg l n s :
  lo_empty s -> owned ip s -> 0 <= ip < 2 ^ 32 -> plen seg <= LO_MAX_PKT - 20 ->
  ip_loopback_poll (S fuel) (loopback_enqueue (ip_packet IP_PROTO_TCP ip ip seg) (with_conns l n s)) =
  ip_loopback_poll fuel (tcp_handle_packet seg ip ip
    (with_conns l n (set_g_last_rx_ttl 64 (dequeued (ip_packet IP_PROTO_TCP ip ip seg) s)))).
Proof.
  intros Hr Ho Hip Hl. unfold LO_MAX_PKT in *. rewrite poll_one; [|exact Hr|rewrite ip_packet_len; unfold IP_HEADER_LEN, LO_MAX_PKT; lia].
  rewrite ip_handle_own; [reflexivity|done|done|done|lia|exact Ho].
Qed.

(** The data segment of a linked connection reaches the other end, which answers. *)
Lemma data_arrives i j ip a b data s fuel :
  linked i j ip a b s -> 0 < plen data <= LO_MAX_PKT - 40 -> recv_len b + plen data < 2 ^ 32 -> (forall x z, can_alloc x z = true) ->
  exists n cap pkt,
  (tcp_send (Z.of_nat i) data s).1 = 40 + plen data /\
  ip_loopback_poll (S fuel) (tcp_send (Z.of_nat i) data s).2 =
  ip_loopback_poll fuel
    (loopback_enqueue (ip_packet IP_PROTO_TCP ip ip
       (tcp_bytes (src_ip b) ip (src_port b) (dst_port b) (seq_no b) (u32 (seq_no a + plen data)) (0x5000 .| (TCP_FLAG_ACK .& 0x3F)) 0x2000 []))
       (with_conns (<[j := received (ticks s) 0x18 (seq_no a) (ack_no a) cap data b]> (<[i := sent (ticks s) 0x18 data a]> (conns s))) n
          (set_g_last_rx_ttl 64 (dequeued pkt s)))).
Proof.
  intros [Ho Hip Hr Hdr [Hi Hj] Hne Hca Hcb Hact Hsa Hsb Hda Hdb [Hsp Rsp] [Hdp Rdp] (Rsa & Rsb & Raa) Hfa Hfb] Hp Hlen Ha.
  rewrite (tcp_send_established i a) by done.
  destruct (send_segment_local (Z.of_nat i) 0x18 data a s) as (n1 & Es); [by rewrite Nat2Z.id|by rewrite Hda|done|done|].
  rewrite Es, Hda. cbn [fst snd]. clear Es. set (a1 := sent (ticks s) 0x18 data a).
  assert (Hs1 : set_allocs n1 (on_conn (Z.of_nat i) (sent (ticks s) 0x18 data) s) = with_conns (<[i := a1]> (conns s)) n1 s).
  { rewrite (with_conns_id s) at 2. rewrite (with_conns_on _ _ a) by (by rewrite Nat2Z.id). by rewrite Nat2Z.id. }
  rewrite Hs1, poll_segment; [|done|done|done|rewrite tcp_bytes_len; unfold TCP_HEADER_LEN; lia].
  set (sd := set_g_last_rx_ttl 64 _). rewrite tcp_handle_bytes by lia.
  assert (Hf1 : find_conn_by_tuple ip (dst_port a) (src_port a) (with_conns (<[i := a1]> (conns s)) n1 sd) = Some (Z.of_nat j)).
  { rewrite Hsp, Hdp, <- Hfb. apply find_conn_keys. apply (map_key_insert _ a); [done|apply sent_key]. }
  rewrite Hf1. clear Hf1.
  destruct (on_data (Z.of_nat j) 0x18 (seq_no a) (ack_no a) data b (<[i := a1]> (conns s)) n1 sd) as (n2 & cap & Eo);
    [rewrite Nat2Z.id; by rewrite list_lookup_insert_ne|done|lia|by rewrite Hsb|done|by rewrite Hdb|done|done|].
  rewrite Eo, Hdb, Nat2Z.id. eexists n2, cap, _. split; [|reflexivity].
  unfold IP_HEADER_LEN, TCP_HEADER_LEN, LO_MAX_PKT in *. rewrite u32_small; lia.
Qed.

Lemma conn_key_eq c c' :
  conn_key c' = conn_key c -> c_active c' = c_active c /\ c_state c' = c_state c /\ dst_ip c' = dst_ip c /\
  src_port c' = src_port c /\ dst_port c' = dst_port c.
Proof. intros E. by injection E. Qed.

(** The link survives a change of both ends that keeps what they are matched by. *)
Lemma linked_keep i j ip a b a' b' s s' :
  linked i j ip a b s -> conn_key a' = conn_key a -> conn_key b' = conn_key b ->
  conns s' = <[j := b']> (<[i := a']> (conns s)) -> net_interfaces s' = net_interfaces s -> g_tcp_drop_tx s' = g_tcp_drop_tx s ->
  lo_empty s' -> 0 <= seq_no a' < 2 ^ 32 -> 0 <= seq_no b' < 2 ^ 32 -> 0 <= ack_no a' < 2 ^ 32 ->
  linked i j ip a' b' s'.
Proof.
  intros [Ho Hip Hr Hdr [Hi Hj] Hne Hca Hcb Hact Hsa Hsb Hda Hdb Hsp Hdp Hsq Hfa Hfb] Ka Kb Hc Hif Hd He R1 R2 R3.
  assert (Hkeys : map conn_key (conns s') = map conn_key (conns s)).
  { rewrite Hc, (map_key_insert _ b), (map_key_insert _ a); [done|done|done|by rewrite list_lookup_insert_ne|done]. }
  destruct (conn_key_eq _ _ Ka) as (A1 & A2 & A3 & A4 & A5), (conn_key_eq _ _ Kb) as (B1 & B2 & B3 & B4 & B5).
  assert (Hlt : (i < length (conns s))%nat) by (by eapply lookup_lt_Some).
  assert (Hlj : (j < length (conns s))%nat) by (by eapply lookup_lt_Some).
  split; try rewrite A1; try rewrite A2; try rewrite A3; try rewrite A4; try rewrite A5;
    try rewrite B2; try rewrite B3; try rewrite B4; try rewrite B5; try done.
  - unfold owned. by rewrite Hif.
  - lia.
  - rewrite Hc, list_lookup_insert_ne by done. by apply list_lookup_insert_eq.
  - rewrite Hc. apply list_lookup_insert_eq. by rewrite length_insert.
  - by rewrite (find_conn_keys _ _ _ _ s).
  - by rewrite (find_conn_keys _ _ _ _ s).
Qed.

(** One send, drained. *)
Lemma stream_step i j ip a b data s fuel :
  linked i j ip a b s -> 0 < plen data <= LO_MAX_PKT - 40 -> recv_len b + plen data < 2 ^ 32 -> (forall x z, can_alloc x z = true) ->
  exists b',
  let s2 := ip_loopback_poll (S (S fuel)) (tcp_send (Z.of_nat i) data s).2 in
  let a' := delivered (ticks s) data a in
  (tcp_send (Z.of_nat i) data s).1 = 40 + plen data /\ linked i j ip a' b' s2 /\
  (rt_seg b = None -> rt_seg b' = None) /\ seq_no b' = seq_no b /\
  ack_no b' = seq_no a' /\ recv_buf b' = Some (default [] (recv_buf b) ++ data) /\
  conns s2 = <[j := b']> (<[i := a']> (conns s)) /\ nsocks s2 = nsocks s /\ arp_cache s2 = arp_cache s /\ wire_tx s2 = wire_tx s.
Proof.
  intros Hlk Hp Hlen Ha. destruct (data_arrives i j ip a b data s (S fuel) Hlk Hp Hlen Ha) as (n2 & cap & pkt & E1 & E2).
  rewrite E1, E2. clear E1 E2.
  pose proof Hlk as [Ho Hip Hr Hdr [Hi Hj] Hne Hca Hcb Hact Hsa Hsb Hda Hdb [Hsp Rsp] [Hdp Rdp] (Rsa & Rsb & Raa) Hfa Hfb].
  destruct (received_fields (ticks s) 0x18 (seq_no a) (ack_no a) cap data b Rsb) as (Kb & Tb & Sb & Ab & Rb).
  set (b1 := received _ _ _ _ _ _ _) in *. set (a1 := sent (ticks s) 0x18 data a).
  set (sd := set_g_last_rx_ttl 64 (dequeued pkt s)). assert (Hsd : lo_empty sd) by exact (dequeued_empty pkt s Hr).
  rewrite poll_segment; [|done|done|done|rewrite tcp_bytes_len; done].
  set (se := set_g_last_rx_ttl 64 (dequeued _ sd)). assert (Hse : lo_empty se) by exact (dequeued_empty _ sd Hsd).
  pose proof (u32_range (seq_no a + plen data)) as Hu. rewrite tcp_handle_bytes by (unfold TCP_FLAG_ACK; lia).
  set (L2 := <[j := b1]> (<[i := a1]> (conns s))).
  assert (Hf2 : find_conn_by_tuple ip (dst_port b) (src_port b) (with_conns L2 n2 se) = Some (Z.of_nat i)).
  { rewrite <- Hsp, <- Hdp, <- Hfa. apply find_conn_keys. change (map conn_key L2 = map conn_key (conns s)). unfold L2.
    rewrite (map_key_insert _ b), (map_key_insert _ a); [done|done|apply sent_key|by rewrite list_lookup_insert_ne|done]. }
  rewrite Hf2. clear Hf2.
  assert (Hi2 : L2 !! Z.to_nat (Z.of_nat i) = Some a1).
  { rewrite Nat2Z.id. unfold L2. rewrite list_lookup_insert_ne by done. apply list_lookup_insert_eq. by eapply lookup_lt_Some. }
  assert (Ha1 : c_state a1 = TCP_STATE_ESTABLISHED) by (destruct (conn_key_eq _ _ (sent_key (ticks s) 0x18 data a)) as (_ & E & _); by rewrite <- Hsa).
  rewrite (on_bare_ack _ _ _ a1) by (done || by rewrite Ha1). rewrite Nat2Z.id.
  change (acked TCP_FLAG_ACK (u32 (seq_no a + plen data)) a1) with (delivered (ticks s) data a). rewrite poll_empty by exact Hse.
  destruct (delivered_fields (ticks s) data a ltac:(lia)) as (Ka & _ & Sa & Aa & _). set (a2 := delivered (ticks s) data a) in *.
  assert (HL : <[i := a2]> L2 = <[j := b1]> (<[i := a2]> (conns s))).
  { unfold L2. rewrite list_insert_insert_ne by done. by rewrite list_insert_insert_eq. }
  rewrite HL. exists b1. cbv zeta. split; [done|]. split.
  - apply (linked_keep i j ip a b a2 b1 s); [done|done|done|done|done|done|exact Hse|by rewrite Sa|by rewrite Sb|by rewrite Aa].
  - split; [done|]. split; [done|]. split; [by rewrite Ab, Sa|]. done.
Qed.
(** ** Sends and receives at both ends, in any order *)

(** What the link of two connections is: the other way round it is one too. *)
Lemma linked_sym i j ip a b s : linked i j ip a b s -> 0 <= ack_no b < 2 ^ 32 -> linked j i ip b a s.
Proof.
  intros [Ho Hip Hr Hdr [Hi Hj] Hne Hca Hcb Hact Hsa Hsb Hda Hdb [Hsp Rsp] [Hdp Rdp] (Rsa & Rsb & Raa) Hfa Hfb] Rab.
  assert (truthy (c_active b) = true).
  { unfold find_conn_by_tuple in Hfb. destruct (first_index _ _) as [k|] eqn:Ek; [|done]. simpl in Hfb. injection Hfb as Hf.
    apply Nat2Z.inj in Hf. subst k. apply first_index_Some in Ek as [(x & Hx & Hf) _]. rewrite Hcb in Hx. injection Hx as <-. by bool_prop. }
  split; try done.
  - split; [done|by rewrite <- Hdp].
  - split; [done|by rewrite <- Hsp].
Qed.

(** Two connections of this machine, each of which can send to the other. *)
Definition duplex (i j : nat) (ip : Z) (a b : conn) (s : net) : Prop := linked i j ip a b s /\ 0 <= ack_no b < 2 ^ 32.

(** The bytes that wait on a connection. *)
Definition waiting (c : conn) : list Z := default [] (recv_buf c).

Lemma recv_len_waiting c : recv_len c = plen (waiting c).
Proof. unfold recv_len, waiting. by destruct (recv_buf c). Qed.

(** A receive hands out the first bytes that wait and keeps the others. *)
Lemma tcp_recv_waiting j b n s :
  (j < Z.to_nat TCP_MAX_CONNS)%nat -> conns s !! j = Some b -> truthy (c_active b) = true -> 0 <= n ->
  exists b', tcp_recv (Z.of_nat j) n s =
    (plen (take (Z.to_nat n) (waiting b)), take (Z.to_nat n) (waiting b), set_conns (<[j := b']> (conns s)) s) /\
  waiting b' = drop (Z.to_nat n) (waiting b) /\
  conn_key b' = conn_key b /\ rt_seg b' = rt_seg b /\ seq_no b' = seq_no b /\ ack_no b' = ack_no b.
Proof.
  intros Hj Hc Hact Hn. unfold tcp_recv, valid_id.
  destruct (Z.leb_spec 0 (Z.of_nat j)); [|lia]. destruct (Z.ltb_spec (Z.of_nat j) TCP_MAX_CONNS); [|unfold TCP_MAX_CONNS in *; lia]. cbn [andb negb].
  assert (E : conn_at s (Z.of_nat j) = b) by (unfold conn_at; rewrite Nat2Z.id; exact (nth_lookup_Some _ _ _ _ Hc)).
  rewrite E, Hact, recv_len_waiting. fold (waiting b). cbn [negb].
  destruct (Z.eqb_spec (plen (waiting b)) 0) as [E0|E0].
  { assert (waiting b = []) as Ew by (destruct (waiting b); [done|unfold plen in E0; simpl in E0; lia]).
    exists b. rewrite Ew, take_nil, drop_nil, list_insert_id by done. change (plen []) with 0. split; [by destruct s|done]. }
  set (m := if plen (waiting b) <? n then plen (waiting b) else n).
  assert (Hm : take (Z.to_nat m) (waiting b) = take (Z.to_nat n) (waiting b) /\ drop (Z.to_nat m) (waiting b) = drop (Z.to_nat n) (waiting b) /\
    m = plen (take (Z.to_nat n) (waiting b))).
  { unfold m. destruct (Z.ltb_spec (plen (waiting b)) n) as [Hlt|Hge]; unfold plen in *.
    - rewrite !take_ge, !drop_ge by lia. done.
    - rewrite length_take. split; [done|]. split; [done|]. lia. }
  destruct Hm as (-> & -> & Em). rewrite Em. set (rest := drop (Z.to_nat n) (waiting b)).
  unfold on_conn. rewrite Nat2Z.id, (alter_at _ _ _ b) by done.
  destruct (Z.eqb_spec (plen rest) 0) as [Er|Er].
  - exists (set_recv_cap 0 (set_recv_buf None b)). split; [done|]. split; [|done]. destruct rest; [done|]. unfold plen in Er. simpl in Er. lia.
  - by exists (set_recv_buf (Some rest) b).
Qed.

(** The end a call is made at. *)
Inductive side := AtA | AtB.

Inductive tcp_ev :=
  | Send (x : side) (d : list Z)
  | Recv (x : side) (n : Z).

(** The two queues of bytes: what waits at A and what waits at B. *)
Definition queues : Type := list Z * list Z.

(** The specification: a send appends to the queue of the other end, a receive takes from
    the front of its own; the number and the bytes a call returns. *)
Definition spec_ev (e : tcp_ev) (q : queues) : Z * list Z * queues :=
  let '(qa, qb) := q in
  match e with
  | Send AtA d => (40 + plen d, [], (qa, qb ++ d))
  | Send AtB d => (40 + plen d, [], (qa ++ d, qb))
  | Recv AtA n => (plen (take (Z.to_nat n) qa), take (Z.to_nat n) qa, (drop (Z.to_nat n) qa, qb))
  | Recv AtB n => (plen (take (Z.to_nat n) qb), take (Z.to_nat n) qb, (qa, drop (Z.to_nat n) qb))
  end.

Fixpoint spec_run (es : list tcp_ev) (q : queues) : list (Z * list Z) * queues :=
  match es with
  | [] => ([], q)
  | e :: es => let '(r, q1) := spec_ev e q in let '(rs, q2) := spec_run es q1 in (r :: rs, q2)
  end.

(** The calls: a send, after which the loopback ring is drained, and a receive. *)
Definition tcp_do (fuel : nat) (i j : Z) (e : tcp_ev) (s : net) : Z * list Z * net :=
  match e with
  | Send x d => let '(r, s') := tcp_send (match x with AtA => i | AtB => j end) d s in (r, [], ip_loopback_poll fuel s')
  | Recv x n => tcp_recv (match x with AtA => i | AtB => j end) n s
  end.

Fixpoint tcp_run (fuel : nat) (i j : Z) (es : list tcp_ev) (s : net) : list (Z * list Z) * net :=
  match es with
  | [] => ([], s)
  | e :: es => let '(r, s1) := tcp_do fuel i j e s in let '(rs, s2) := tcp_run fuel i j es s1 in (r :: rs, s2)
  end.

(** A chunk fits a packet of the loopback ring; a receive does not ask for fewer than 0 bytes;
    what waits stays below 2^32 bytes. *)
Definition ev_ok (e : tcp_ev) (q : queues) : Prop :=
  match e with
  | Send AtA d => 0 < plen d <= LO_MAX_PKT - 40 /\ plen q.2 + plen d < 2 ^ 32
  | Send AtB d => 0 < plen d <= LO_MAX_PKT - 40 /\ plen q.1 + plen d < 2 ^ 32
  | Recv _ n => 0 <= n
  end.
Fixpoint evs_ok (es : list tcp_ev) (q : queues) : Prop :=
  match es with [] => True | e :: es => ev_ok e q /\ evs_ok es (spec_ev e q).2 end.

(** What one end sent. *)
Definition sent_by (x : side) (e : tcp_ev) : list Z :=
  match e, x with Send AtA d, AtA => d | Send AtB d, AtB => d | _, _ => [] end.
Definition sent_all (x : side) (es : list tcp_ev) : list Z := concat (map (sent_by x) es).

(** How the two ends have moved on: sequence numbers by the bytes sent, each end in step with
    the other once it has received something, nothing left to send again. *)
Record moved (da db : list Z) (a b a' b' : conn) : Prop := {
  mv_seq_a : seq_no a' = u32 (seq_no a + plen da);
  mv_seq_b : seq_no b' = u32 (seq_no b + plen db);
  mv_ack_b : ack_no b = seq_no a \/ da <> [] -> ack_no b' = seq_no a';
  mv_ack_a : ack_no a = seq_no b \/ db <> [] -> ack_no a' = seq_no b';
  mv_rt_a : rt_seg a = None \/ da <> [] -> rt_seg a' = None;
  mv_rt_b : rt_seg b = None \/ db <> [] -> rt_seg b' = None
}.

Lemma moved_refl a b a' b' :
  0 <= seq_no a < 2 ^ 32 -> 0 <= seq_no b < 2 ^ 32 ->
  rt_seg a' = rt_seg a -> seq_no a' = seq_no a -> ack_no a' = ack_no a ->
  rt_seg b' = rt_seg b -> seq_no b' = seq_no b -> ack_no b' = ack_no b -> moved [] [] a b a' b'.
Proof.
  intros Ra Rb A1 A2 A3 B1 B2 B3. split; rewrite ?A1, ?A2, ?A3, ?B1, ?B2, ?B3; change (plen []) with 0;
    rewrite ?Z.add_0_r, ?u32_small by lia; try done; by intros [?|?].
Qed.

Lemma moved_sym da db a b a' b' : moved da db a b a' b' -> moved db da b a b' a'.
Proof. intros []. by split. Qed.

Lemma moved_trans da db da2 db2 a b a1 b1 a2 b2 :
  moved da db a b a1 b1 -> moved da2 db2 a1 b1 a2 b2 -> moved (da ++ da2) (db ++ db2) a b a2 b2.
Proof.
  assert (forall x y z, u32 (u32 (x + plen y) + plen z) = u32 (x + plen (y ++ z))) as Hu.
  { intros x y z. unfold u32. rewrite Zplus_mod_idemp_l. unfold plen. rewrite length_app. f_equal. lia. }
  assert (forall (P Q R : Prop) (y z : list Z), (P \/ y <> [] -> Q) -> (Q \/ z <> [] -> R) -> P \/ y ++ z <> [] -> R) as Hi.
  { intros P Q R y z H1 H2 [HP|Hne]; [apply H2; left; apply H1; by left|]. apply H2. destruct z as [|c z]; [left|by right].
    apply H1. right. by rewrite app_nil_r in Hne. }
  intros [A1 A2 A3 A4 A5 A6] [B1 B2 B3 B4 B5 B6]. split.
  - by rewrite B1, A1, Hu.
  - by rewrite B2, A2, Hu.
  - exact (Hi _ _ _ _ _ A3 B3).
  - exact (Hi _ _ _ _ _ A4 B4).
  - exact (Hi _ _ _ _ _ A5 B5).
  - exact (Hi _ _ _ _ _ A6 B6).
Qed.

(** Nothing but the two connections has changed. *)
Record only_conns (i j : nat) (a' b' : conn) (s s' : net) : Prop := {
  oc_conns : conns s' = <[j := b']> (<[i := a']> (conns s));
  oc_socks : nsocks s' = nsocks s;
  oc_arp : arp_cache s' = arp_cache s;
  oc_wire : wire_tx s' = wire_tx s
}.

Lemma only_conns_sym i j a' b' s s' : i <> j -> only_conns i j a' b' s s' -> only_conns j i b' a' s s'.
Proof. intros Hne [H1 H2 H3 H4]. split; try done. rewrite H1. by apply list_insert_insert_ne. Qed.

Lemma only_conns_trans i j a1 b1 a2 b2 s s1 s2 :
  i <> j -> only_conns i j a1 b1 s s1 -> only_conns i j a2 b2 s1 s2 -> only_conns i j a2 b2 s s2.
Proof.
  intros Hne [H1 H2 H3 H4] [G1 G2 G3 G4]. split; try congruence.
  rewrite G1, H1. rewrite (list_insert_insert_ne _ i j) by done. by rewrite !list_insert_insert_eq.
Qed.

(** One send by A. *)
Lemma send_from_a fuel i j ip a b d s :
  duplex i j ip a b s -> 0 < plen d <= LO_MAX_PKT - 40 -> plen (waiting b) + plen d < 2 ^ 32 -> (forall x z, can_alloc x z = true) ->
  exists a' b' s', tcp_do (S (S fuel)) (Z.of_nat i) (Z.of_nat j) (Send AtA d) s = (40 + plen d, [], s') /\
  duplex i j ip a' b' s' /\ waiting a' = waiting a /\ waiting b' = waiting b ++ d /\
  moved d [] a b a' b' /\ only_conns i j a' b' s s'.
Proof.
  intros [L Rb] Hd Hl Ha. rewrite <- recv_len_waiting in Hl. cbn [tcp_do].
  destruct (stream_step i j ip a b d s fuel L Hd Hl Ha) as (b' & E1 & L' & Tb & Sb & Ab & Wb & C & N & P & W).
  destruct (delivered_fields (ticks s) d a ltac:(lia)) as (_ & Ta & Sa & Aa & Wa).
  destruct (tcp_send (Z.of_nat i) d s) as [r s1]. cbv zeta in *. cbn [fst snd] in *. subst r.
  set (a' := delivered (ticks s) d a) in *. pose proof (lk_seq _ _ _ _ _ _ L) as (Ra & Rsb & _).
  assert (d <> []) as Hne by (intros ->; unfold plen in Hd; simpl in Hd; lia).
  exists a', b', (ip_loopback_poll (S (S fuel)) s1). split; [done|]. split; [split; [done|]; rewrite Ab, Sa; apply u32_range|].
  split; [unfold waiting; by rewrite Wa|]. split; [unfold waiting; by rewrite Wb|]. split; [|by split].
  split; try done.
  - rewrite Sb. change (plen []) with 0. by rewrite Z.add_0_r, u32_small.
  - intros [E|E]; [|done]. by rewrite Aa, Sb.
  - intros [E|E]; [|done]. by apply Tb.
Qed.

(** One receive at B. *)
Lemma recv_at_b fuel i j ip a b n s :
  duplex i j ip a b s -> 0 <= n ->
  exists b' s', tcp_do fuel (Z.of_nat i) (Z.of_nat j) (Recv AtB n) s = (plen (take (Z.to_nat n) (waiting b)), take (Z.to_nat n) (waiting b), s') /\
  duplex i j ip a b' s' /\ waiting b' = drop (Z.to_nat n) (waiting b) /\
  moved [] [] a b a b' /\ only_conns i j a b' s s'.
Proof.
  intros [L Rb] Hn. pose proof (linked_sym _ _ _ _ _ _ L Rb) as L'. cbn [tcp_do].
  destruct (tcp_recv_waiting j b n s (proj2 (lk_i _ _ _ _ _ _ L)) (lk_b _ _ _ _ _ _ L) (lk_active _ _ _ _ _ _ L') Hn)
    as (b' & E & W & K & T & S & A).
  pose proof (lk_seq _ _ _ _ _ _ L) as (Ra & Rsb & Raa). pose proof (lk_a _ _ _ _ _ _ L) as Hca.
  set (s' := set_conns (<[j := b']> (conns s)) s) in *.
  assert (conns s' = <[j := b']> (<[i := a]> (conns s))) as C by (rewrite (list_insert_id (conns s) i) by done; done).
  exists b', s'. split; [done|]. split; [|split; [done|split; [by apply moved_refl|by split]]].
  split; [|by rewrite A]. apply (linked_keep i j ip a b a b' s); try done; [|by rewrite S]. exact (lk_ring _ _ _ _ _ _ L).
Qed.

Lemma duplex_sym i j ip a b s : duplex i j ip a b s -> duplex j i ip b a s.
Proof. intros [L R]. split; [by apply linked_sym|]. apply (lk_seq _ _ _ _ _ _ L). Qed.

(** One call is one step of the queues. *)
Lemma tcp_do_refines fuel i j ip a b e s :
  duplex i j ip a b s -> ev_ok e (waiting a, waiting b) -> (forall x z, can_alloc x z = true) ->
  let '(r, q) := spec_ev e (waiting a, waiting b) in
  exists a' b' s', tcp_do (S (S fuel)) (Z.of_nat i) (Z.of_nat j) e s = (r, s') /\
  duplex i j ip a' b' s' /\ (waiting a', waiting b') = q /\
  moved (sent_by AtA e) (sent_by AtB e) a b a' b' /\ only_conns i j a' b' s s'.
Proof.
  intros D He Ha. pose proof (lk_ne _ _ _ _ _ _ (proj1 D)) as Hne. destruct e as [[|] d|[|] n]; cbn [spec_ev ev_ok sent_by] in *.
  - destruct (send_from_a fuel i j ip a b d s D (proj1 He) (proj2 He) Ha) as (a' & b' & s' & E & D' & Wa & Wb & M & O).
    exists a', b', s'. by rewrite Wa, Wb.
  - destruct (send_from_a fuel j i ip b a d s (duplex_sym _ _ _ _ _ _ D) (proj1 He) (proj2 He) Ha) as (b' & a' & s' & E & D' & Wb & Wa & M & O).
    exists a', b', s'. rewrite Wa, Wb. split; [done|]. split; [by apply duplex_sym|]. split; [done|]. split; [by apply moved_sym|].
    by apply only_conns_sym.
  - destruct (recv_at_b (S (S fuel)) j i ip b a n s (duplex_sym _ _ _ _ _ _ D) He) as (a' & s' & E & D' & Wa & M & O).
    exists a', b, s'. rewrite Wa. split; [done|]. split; [by apply duplex_sym|]. split; [done|]. split; [by apply moved_sym|].
    by apply only_conns_sym.
  - destruct (recv_at_b (S (S fuel)) i j ip a b n s D He) as (b' & s' & E & D' & Wb & M & O).
    exists a, b', s'. by rewrite Wb.
Qed.

(** * The echo service talking to itself *)

(** One datagram from port 7 to port 7 is on the ring, the echo service listens and no socket is
    bound to the port. *)
Record echo_storm (p : list Z) (s0 : net) : Prop := {
  es_ring : lo_empty s0;
  es_lo : owned 0x0100007F s0;
  es_free : first_index (bound_dgram ECHO_PORT) (nsocks s0) = None;
  es_echo : exists k l, list_find (fun l => Is_true (listens_on ECHO_PORT l)) (udp_listeners s0) = Some (k, l) /\ ul_handler l = Some UdpEcho
}.

Lemma echo_step data fuel s0 :
  let p := ip_packet IP_PROTO_UDP 0x0100007F 0x0100007F (udp_bytes ECHO_PORT ECHO_PORT data) in
  plen data <= UDP_DGRAM_MAX -> echo_storm p s0 -> (forall x z, can_alloc x z = true) ->
  exists s1, ip_loopback_poll (S fuel) (loopback_enqueue p s0) = ip_loopback_poll fuel (loopback_enqueue p s1) /\ echo_storm p s1.
Proof.
  intros p Hl [Hr Ho Hf (k & l & Hk & Hh)] Ha. unfold UDP_DGRAM_MAX in Hl. pose proof (plen_nonneg data).
  rewrite poll_one; [|done|unfold p; rewrite ip_packet_len, udp_bytes_len; unfold IP_HEADER_LEN, UDP_HEADER_LEN, LO_MAX_PKT; lia].
  unfold p at 1. rewrite ip_handle_own; [|done|done|done|rewrite udp_bytes_len; unfold UDP_HEADER_LEN; lia|exact Ho]. fold p.
  set (sd := set_g_last_rx_ttl 64 (dequeued p s0)).
  change (ip_dispatch IP_PROTO_UDP ?x ?y ?z sd) with (udp_handle_packet x y sd).
  assert (Hu : udp_handle_packet (udp_bytes ECHO_PORT ECHO_PORT data) 0x0100007F sd = udp_echo_handler data 0x0100007F ECHO_PORT sd).
  { unfold udp_handle_packet. rewrite udp_bytes_len. unfold UDP_HEADER_LEN. destruct (Z.ltb_spec (8 + plen data) 8); [lia|].
    change (get_be16 (udp_bytes ECHO_PORT ECHO_PORT data) 2) with ECHO_PORT. change (get_be16 (udp_bytes ECHO_PORT ECHO_PORT data) 0) with ECHO_PORT.
    change (drop (Z.to_nat 8) (udp_bytes ECHO_PORT ECHO_PORT data)) with data.
    unfold nsock_udp_deliver. change (nsocks sd) with (nsocks s0). rewrite Hf. change (udp_listeners sd) with (udp_listeners s0). rewrite Hk. by rewrite Hh. }
  rewrite Hu. unfold udp_echo_handler, udp_send, net_kmalloc. rewrite Ha. cbn [negb].
  set (se := set_allocs (S (allocs sd)) sd). assert (Hoe : owned 0x0100007F se) by exact Ho.
  rewrite ip_send_local; [|by apply owned_local|apply Ha]. rewrite owned_source by done. cbn [snd].
  eexists. split; [reflexivity|]. split; [exact (dequeued_empty p s0 Hr)|done|done|by exists k, l].
Qed.

(** The drain never ends: however many packets it handles, the ring is not empty. *)
Lemma echo_drain_diverges data fuel s0 :
  let p := ip_packet IP_PROTO_UDP 0x0100007F 0x0100007F (udp_bytes ECHO_PORT ECHO_PORT data) in
  plen data <= UDP_DGRAM_MAX -> echo_storm p s0 -> (forall x z, can_alloc x z = true) ->
  lo_tail (ip_loopback_poll fuel (loopback_enqueue p s0)) <> lo_head (ip_loopback_poll fuel (loopback_enqueue p s0)).
Proof.
  intros p Hl Hs Ha. revert s0 Hs. induction fuel as [|fuel IH]; intros s0 Hs.
  - cbn [ip_loopback_poll]. unfold loopback_enqueue. destruct Hs as [[E Hr] _ _ _]. pose proof (plen_nonneg data).
    assert (Hp : plen p <= LO_MAX_PKT).
    { unfold p. rewrite ip_packet_len, udp_bytes_len. unfold IP_HEADER_LEN, UDP_HEADER_LEN, LO_MAX_PKT, UDP_DGRAM_MAX in *. lia. }
    destruct (Z.ltb_spec LO_MAX_PKT (plen p)); [lia|].
    assert (Hne : (lo_head s0 + 1) mod LO_QUEUE_LEN <> lo_head s0) by (unfold LO_QUEUE_LEN in *; Z.to_euclidean_division_equations; lia).
    rewrite E, (proj2 (Z.eqb_neq _ _) Hne). simpl. congruence.
  - destruct (echo_step data fuel s0 Hl Hs Ha) as (s1 & E & H1). fold p in E, H1. rewrite E. by apply IH.
Qed.
End Loopback.

(** * Concrete runs *)

Definition dgram_sock (port : Z) : nsock := Nsock 1 SOCK_DGRAM (-1) port 0 (Some (replicate (Z.to_nat UDP_QUEUE) (Dgram 0 0 []))) 0 0.
Definition udp_net : net := set_nsocks (<[1%nat := dgram_sock 6000]> (<[0%nat := dgram_sock 5000]> (nsocks init_net))) init_net.

Lemma udp_loopback_delivers_witness :
  let s1 := (nsock_sendto (NH := ample_heap) (PL := quiet_poll) 0 [110; 121; 120] 0x0100007F 6000 udp_net).2 in
  let s2 := ip_loopback_poll (NH := ample_heap) (PL := quiet_poll) 1 s1 in
  (nsock_recvfrom (PL := quiet_poll) 1 2 s2).1 = Some ([110; 121], 0x0100007F, 5000).
Proof.
  cbv zeta.
  destruct (@udp_loopback_delivers ample_heap quiet_poll udp_net 0 (dgram_sock 5000) 1 (dgram_sock 6000)
    (replicate (Z.to_nat UDP_QUEUE) (Dgram 0 0 [])) [110; 121; 120] 0x0100007F 6000 0)
    as (_ & _ & _ & _ & _ & _ & H);
    [reflexivity|reflexivity|done|done|reflexivity|done|done|done|vm_compute; reflexivity|vm_compute; lia|reflexivity|by split|by split|done|].
  apply (H eq_refl 2). lia.
Defined.

Definition est (sport dport sq ak : Z) : conn := Conn 1 TCP_STATE_ESTABLISHED 0 0x0100007F 0x0100007F sport dport sq ak None 0 0 None 0 0 0 0.
Definition tcp_pair : net := set_conns (<[4%nat := est 7 40000 2001 1001]> (<[2%nat := est 40000 7 1001 2001]> (conns init_net))) init_net.

Lemma tcp_pair_linked : linked 2 4 0x0100007F (est 40000 7 1001 2001) (est 7 40000 2001 1001) tcp_pair.
Proof. split; try done; try (vm_compute; reflexivity); split; vm_compute; lia || done. Qed.

(** Both ends send and receive in turn; a receive takes a part, the next the rest. *)
Definition talk : list tcp_ev :=
  [Send AtA [110; 121]; Recv AtB 1; Send AtB [33]; Send AtA [120; 45; 111; 115]; Recv AtA 8; Recv AtB 3; Recv AtB 9; Recv AtB 1].


(** A datagram a process leaves behind: socket bound to port 7, a send to 127.0.0.1:7, then closed. *)
Definition storm_net : net :=
  let s := tcp_echo_init init_net in
  let s := on_nsock 0 (fun _ => dgram_sock ECHO_PORT) s in
  let s := (nsock_sendto (NH := ample_heap) (PL := quiet_poll) 0 [33] 0x0100007F ECHO_PORT s).2 in
  (nsock_close (NH := ample_heap) (PL := quiet_poll) 0 s).2.

Lemma echo_storm_runs : forallb (fun fuel => negb (lo_tail (ip_loopback_poll (NH := ample_heap) (PL := quiet_poll) fuel storm_net) =?
  lo_head (ip_loopback_poll (NH := ample_heap) (PL := quiet_poll) fuel storm_net))) [0; 1; 5; 20; 50]%nat = true.
Proof. vm_compute. reflexivity. Qed.

(** The echo request the kernel sends does not verify: the checksum is stored low byte first. *)
Lemma icmp_checksum_swapped :
  csum_loop (icmp_bytes ICMP_TYPE_ECHO_REQUEST (be16 1 ++ be16 1 ++ map Z.of_nat (seq 0 56))) 0 <> 0xFFFF.
Proof. vm_compute. discriminate. Qed.
