(* ===== verification/Path.v ===== *)
(** What the system call layer does with names and pointers of user space (kernel/syscall.c:
    user_ptr_ok, user_str_ok, copy_str_from_user, path_resolve).

    A C string is the list of its characters without the terminator. *)
From Stdlib Require Import ZArith Lia String.
From S2P Require Import Prelude Packed Format Phys Paging.
From S2P Require Vfs.

Definition MAX_PATH : Z := 256.
Definition SLASH : Z := 47.
Definition DOT : Z := 46.

(** * Pointers *)

Definition user_ptr_ok (ptr len : Z) : bool :=
  if ptr <? USER_SPACE_MIN then false
  else if USER_SPACE_END <? len then false
  else if u64 (ptr + len) <? ptr then false
  else if USER_SPACE_END <? u64 (ptr + len) then false else true.

Definition user_str_ok (ptr : Z) : bool := (USER_SPACE_MIN <=? ptr) && (ptr <? USER_SPACE_END).

(** The loop of copy_str_from_user: whether the terminator was met, [None] for an address
    that is not mapped, and the characters before. *)
Fixpoint copy_str (user_cr3 usrc : Z) (room : nat) (m : pmem) : option bool * list Z :=
  match room with
  | O => (Some false, [])
  | S n =>
      let p := user_v2p user_cr3 usrc m in
      if negb (truthy p) then (None, [])
      else if ld8 m p =? 0 then (Some true, [])
      else let '(r, s) := copy_str user_cr3 (u64 (usrc + 1)) n m in (r, ld8 m p :: s)
  end.

Definition copy_str_from_user (user_cr3 usrc : Z) (maxlen : nat) (m : pmem) : Z * list Z :=
  match copy_str user_cr3 usrc maxlen m with
  | (None, s) => (-1, take (length s - 1) s)
  | (Some true, s) => (0, s)
  | (Some false, s) => (0, take (maxlen - 1) s)
  end.

(** * Paths *)

Definition starts_slash (p : list Z) : bool := match p with c :: _ => c =? SLASH | [] => false end.

(** The name in [buf], 256 bytes with the terminator. *)
Definition joined (cwd path : list Z) : list Z :=
  if starts_slash path then take (Z.to_nat (MAX_PATH - 1)) path
  else default [] (snprintf MAX_PATH "%s/%s" [T (match cwd with [] => [SLASH] | _ => cwd end); T path]).

Fixpoint component (s : list Z) : list Z * list Z :=
  match s with
  | c :: s' => if c =? SLASH then ([], s') else let '(w, q) := component s' in (c :: w, q)
  | [] => ([], [])
  end.

Definition dot (c : list Z) : bool := match c with [a] => a =? DOT | _ => false end.
Definition dotdot (c : list Z) : bool := match c with [a; b] => (a =? DOT) && (b =? DOT) | _ => false end.

(** [comps] with [nc = length comps]. *)
Definition add_comp (comps : list (list Z)) (c : list Z) : list (list Z) :=
  if dot c then comps
  else if dotdot c then take (length comps - 1) comps
  else if len comps <? 32 then comps ++ [c] else comps.

Fixpoint scan_comps (fuel : nat) (s : list Z) (comps : list (list Z)) : list (list Z) :=
  match fuel with
  | O => comps
  | S fuel' =>
      match Vfs.skip_slashes s with
      | [] => comps
      | s => let '(start, s) := component s in scan_comps fuel' s (add_comp comps start)
      end
  end.

Definition emit (outsz : Z) (out : list Z) (c : Z) : list Z := if len out <? outsz - 1 then out ++ [c] else out.
Definition emit_comp (outsz : Z) (out comp : list Z) : list Z := foldl (emit outsz) (emit outsz out SLASH) comp.

Definition path_resolve (cwd path : list Z) (outsz : Z) : list Z :=
  let buf := joined cwd path in
  match scan_comps (S (length buf)) buf [] with
  | [] => if 1 <? outsz then [SLASH] else []
  | comps => foldl (emit_comp outsz) [] comps
  end.

(** * Pointers stay in user space *)

Lemma user_ptr_ok_spec ptr len :
  0 <= ptr < 2 ^ 64 -> 0 <= len -> user_ptr_ok ptr len = true <-> USER_SPACE_MIN <= ptr /\ ptr + len <= USER_SPACE_END.
Proof.
  unfold user_ptr_ok, USER_SPACE_MIN, USER_SPACE_END. intros Hp Hl. destruct (Z.ltb_spec ptr 4096); [split; [done|lia]|].
  destruct (Z.ltb_spec 0x800000000000 len); [split; [done|lia]|].
  destruct (Z.ltb_spec (ptr + len) (2 ^ 64)).
  - rewrite u64_small by lia. destruct (Z.ltb_spec (ptr + len) ptr); [lia|]. destruct (Z.ltb_spec 0x800000000000 (ptr + len)); split; (done || lia).
  - assert (u64 (ptr + len) = ptr + len - 2 ^ 64) as -> by (unfold u64; symmetry; apply (Z.mod_unique _ _ 1); lia).
    destruct (Z.ltb_spec (ptr + len - 2 ^ 64) ptr); split; (done || lia).
Qed.

(** * Reference *)

(** The pieces between slashes, and what walking along them leads to. *)
Fixpoint pieces (s : list Z) : list (list Z) :=
  match s with
  | [] => [[]]
  | c :: s' => if c =? SLASH then [] :: pieces s' else match pieces s' with w :: l => (c :: w) :: l | [] => [[c]] end
  end.
Definition visit (at_ : list (list Z)) (w : list Z) : list (list Z) :=
  match w with
  | [] => at_
  | _ => if dot w then at_ else if dotdot w then take (length at_ - 1) at_ else at_ ++ [w]
  end.
Definition walk (l : list (list Z)) : list (list Z) := foldl visit [] l.
Definition render (l : list (list Z)) : list Z := match l with [] => [SLASH] | _ => concat (map (cons SLASH) l) end.

(** A name that stands for itself: not empty, no slash in it, neither . nor .. *)
Definition proper (w : list Z) : Prop := w <> [] /\ SLASH ∉ w /\ dot w = false /\ dotdot w = false.

(** The whole name a path stands for. *)
Definition full_name (cwd path : list Z) : list Z :=
  if starts_slash path then path else match cwd with [] => [SLASH] | _ => cwd end ++ SLASH :: path.

(** No directory on the way lies deeper than 32 names. *)
Definition shallow (l : list (list Z)) : Prop := forall k, len (walk (take k l)) <= 32.

Lemma vsn_full fuel room fmt va i out : room <= len out -> vsn_loop (S fuel) room fmt va i out = Some out.
Proof. intros H. cbn [vsn_loop]. destruct fmt; [done|]. by rewrite (proj2 (Z.leb_le _ _) H). Qed.
Lemma vsn_string fuel room q va i out :
  len out < room -> vsn_loop (S fuel) room (37 :: 115 :: q) va i out = vsn_loop fuel room q va (S i) (put room out (string_of (va i))).
Proof. intros H. cbn [vsn_loop]. by rewrite (proj2 (Z.leb_gt _ _) H). Qed.
Lemma vsn_char fuel room c q va i out :
  len out < room -> c <> PERCENT -> vsn_loop (S fuel) room (c :: q) va i out = vsn_loop fuel room q va i (out ++ [c]).
Proof. intros H Hc. cbn [vsn_loop]. by rewrite (proj2 (Z.leb_gt _ _) H), (proj2 (Z.eqb_neq _ _) Hc). Qed.

Lemma snprintf_join c p n : 1 <= n < 2 ^ 31 -> snprintf n "%s/%s" [T c; T p] = Some (take (Z.to_nat (n - 1)) (c ++ SLASH :: p)).
Proof.
  intros Hn. unfold snprintf, vsnprintf. change (chars "%s/%s") with [37; 115; SLASH; 37; 115]. set (va := va_of _). cbn [length].
  rewrite s32_small by lia. destruct (Z.ltb_spec 0 (n - 1)) as [H0|]; [|rewrite vsn_full by (cbn; lia); by replace (Z.to_nat (n - 1)) with O by lia].
  rewrite vsn_string by done. change (string_of (va 0%nat)) with c. unfold put at 1. cbn [app length]. change (Z.of_nat 0) with 0. rewrite Z.sub_0_r.
  destruct (Z.le_gt_cases (n - 1) (len c)) as [Hc|Hc].
  { rewrite vsn_full by (rewrite length_take; lia). f_equal. rewrite take_app_le by lia. done. }
  rewrite (take_ge c) by lia. rewrite vsn_char by (done || lia).
  assert (len (c ++ [SLASH]) = len c + 1) as Hl by (rewrite length_app; cbn [length]; lia).
  destruct (Z.le_gt_cases (n - 1) (len c + 1)) as [Hc1|Hc1].
  { rewrite vsn_full by lia. f_equal. rewrite take_app_ge by lia. replace (Z.to_nat (n - 1) - length c)%nat with 1%nat by lia. done. }
  rewrite vsn_string by lia. change (string_of (va 1%nat)) with p. cbn [vsn_loop]. unfold put. f_equal. rewrite Hl.
  replace (c ++ SLASH :: p) with ((c ++ [SLASH]) ++ p) by (by rewrite <- app_assoc). rewrite (take_app_ge (c ++ [SLASH])) by (rewrite length_app; cbn [length]; lia). do 2 f_equal.
  rewrite length_app. cbn [length]. lia.
Qed.

Lemma joined_spec cwd path : joined cwd path = take 255 (full_name cwd path).
Proof. unfold joined, full_name. destruct (starts_slash path); [done|]. by rewrite snprintf_join. Qed.

(** * The components on the stack *)

Definition step (a : list (list Z)) (w : list Z) : list (list Z) := match w with [] => a | _ => add_comp a w end.

Lemma component_pieces s a : let '(w, q) := component s in foldl step a (pieces s) = foldl step (step a w) (pieces q).
Proof.
  assert (let '(w, q) := component s in pieces s = w :: pieces q \/ pieces s = [w] /\ q = []) as H.
  { induction s as [|c s IH]; cbn [component pieces]; [by right|]. destruct (c =? SLASH); [by left|].
    destruct (component s) as [w q]. destruct IH as [->|[-> ->]]; [by left|by right]. }
  destruct (component s) as [w q]. destruct H as [->|[-> ->]]; [done|]. done.
Qed.

Lemma skip_pieces s a : foldl step a (pieces s) = foldl step a (pieces (Vfs.skip_slashes s)).
Proof. induction s as [|c s IH]; cbn [pieces Vfs.skip_slashes]; [done|]. change Vfs.SLASH with SLASH. destruct (c =? SLASH) eqn:E; [exact IH|]. cbn [pieces]. by rewrite E. Qed.

Lemma skip_length s : (length (Vfs.skip_slashes s) <= length s)%nat.
Proof. induction s as [|c s IH]; cbn; [lia|]. destruct (c =? _); cbn; lia. Qed.
Lemma component_length s : s <> [] -> (length (component s).2 < length s)%nat.
Proof.
  induction s as [|c s IH]; [done|]. intros _. cbn [component]. destruct (c =? SLASH); [cbn; lia|].
  destruct (component s) as [w q] eqn:E. cbn [snd length] in *. destruct s as [|c' s]; [injection E as <- <-; cbn; lia|]. specialize (IH ltac:(done)). lia.
Qed.

Lemma scan_comps_pieces fuel s a : (length s < fuel)%nat -> scan_comps fuel s a = foldl step a (pieces s).
Proof.
  revert s a. induction fuel as [|fuel IH]; intros s a Hf; [lia|]. cbn [scan_comps]. rewrite skip_pieces. pose proof (skip_length s) as Hl.
  assert (forall c p, Vfs.skip_slashes s = c :: p -> c =? SLASH = false) as Hc.
  { clear. induction s as [|c s IH]; cbn; [done|]. change Vfs.SLASH with SLASH. destruct (c =? SLASH) eqn:E; [done|]. by intros ? ? [= <- _]. }
  destruct (Vfs.skip_slashes s) as [|c p] eqn:E; [done|]. specialize (Hc _ _ eq_refl). pose proof (component_pieces (c :: p) a) as Hp. pose proof (component_length (c :: p) ltac:(done)) as Hcl.
  destruct (component (c :: p)) as [w q] eqn:Ew. rewrite Hp. cbn [snd] in Hcl. rewrite IH by lia. f_equal.
  cbn [component] in Ew. rewrite Hc in Ew. destruct (component p). injection Ew as <- <-. done.
Qed.

(** The limit of 32 names is not met. *)
Lemma step_walk l : shallow l -> foldl step [] l = walk l.
Proof.
  intros Hs. enough (forall k, foldl step [] (take k l) = walk (take k l)) as H by (specialize (H (length l)); by rewrite firstn_all in H).
  intros k. induction k as [|k IH]; [done|]. destruct (l !! k) as [w|] eqn:E; [|apply lookup_ge_None in E; by rewrite !take_ge in * by lia].
  pose proof (Hs (S k)) as Hk. rewrite (take_S_r _ _ _ E) in *. unfold walk in *. rewrite !foldl_app in *. cbn [foldl] in *. rewrite IH. set (a := foldl visit [] (take k l)) in *.
  unfold step, visit, add_comp in *. destruct w as [|c w]; [done|]. destruct (dot (c :: w)); [done|]. destruct (dotdot (c :: w)); [done|].
  rewrite length_app in Hk. cbn [length] in Hk. destruct (Z.ltb_spec (len a) 32); [done|lia].
Qed.

(** * The result *)

Lemma emit_all n l o : len o <= n - 1 -> foldl (emit n) o l = take (Z.to_nat (n - 1)) (o ++ l).
Proof.
  revert o. induction l as [|c l IH]; intros o Ho; cbn [foldl]; [rewrite app_nil_r, take_ge by lia; done|].
  unfold emit at 2. destruct (Z.ltb_spec (len o) (n - 1)).
  - rewrite IH by (rewrite length_app; cbn [length]; lia). by rewrite <- app_assoc.
  - rewrite IH by done. rewrite !take_app_le by lia. done.
Qed.

Lemma emit_comps n l o : len o <= n - 1 -> foldl (emit_comp n) o l = take (Z.to_nat (n - 1)) (o ++ concat (map (cons SLASH) l)).
Proof.
  revert o. induction l as [|w l IH]; intros o Ho; cbn [foldl map concat]; [rewrite app_nil_r, take_ge by lia; done|].
  unfold emit_comp at 2. change (foldl (emit n) (emit n o SLASH) w) with (foldl (emit n) o (SLASH :: w)). rewrite emit_all by done.
  rewrite IH by (rewrite length_take; lia). rewrite app_assoc. set (x := o ++ SLASH :: w).
  destruct (Nat.le_gt_cases (Z.to_nat (n - 1)) (length x)); [rewrite !take_app_le, take_take by (rewrite ?length_take; lia); f_equal; lia|].
  by rewrite (take_ge x) by lia.
Qed.

Lemma path_resolve_spec cwd path n :
  2 <= n -> shallow (pieces (take 255 (full_name cwd path))) ->
  path_resolve cwd path n = take (Z.to_nat (n - 1)) (render (walk (pieces (take 255 (full_name cwd path))))).
Proof.
  intros Hn Hs. unfold path_resolve. rewrite joined_spec. set (b := take 255 _) in *. rewrite scan_comps_pieces by lia. rewrite step_walk by done.
  unfold render. destruct (walk (pieces b)) as [|w l].
  - destruct (Z.ltb_spec 1 n); [|lia]. symmetry. apply take_ge. cbn. lia.
  - rewrite emit_comps by (cbn; lia). done.
Qed.

(** * Walking *)

Lemma pieces_nonempty a : pieces a <> [].
Proof. destruct a as [|c a]; cbn; [done|]. by destruct (c =? SLASH), (pieces a). Qed.

Lemma pieces_app a b : pieces (a ++ SLASH :: b) = pieces a ++ pieces b.
Proof.
  induction a as [|c a IH]; cbn [app pieces]; [done|]. destruct (c =? SLASH); [by rewrite IH|]. rewrite IH. pose proof (pieces_nonempty a). by destruct (pieces a).
Qed.

Lemma pieces_word w : SLASH ∉ w -> pieces w = [w].
Proof.
  induction w as [|c w IH]; [done|]. intros H. apply not_elem_of_cons in H as [H1 H2]. cbn [pieces]. rewrite (IH H2). by destruct (Z.eqb_spec c SLASH).
Qed.

Lemma pieces_no_slash s : Forall (fun w => SLASH ∉ w) (pieces s).
Proof.
  induction s as [|c s IH]; cbn [pieces]; [by repeat constructor; apply not_elem_of_nil|]. destruct (Z.eqb_spec c SLASH) as [->|Hc]; [constructor; [apply not_elem_of_nil|done]|].
  destruct (pieces s); [constructor; [|done]; apply not_elem_of_cons; split; [done|apply not_elem_of_nil]|].
  apply Forall_cons_iff in IH as [IH1 IH2]. constructor; [|done]. by apply not_elem_of_cons.
Qed.

Lemma visit_proper a w : Forall proper a -> SLASH ∉ w -> Forall proper (visit a w).
Proof.
  intros Ha Hw. unfold visit. destruct w as [|c w]; [done|]. destruct (dot (c :: w)) eqn:E1; [done|]. destruct (dotdot (c :: w)) eqn:E2; [by apply Forall_take|].
  apply Forall_app. split; [done|]. by repeat constructor.
Qed.

Lemma walk_proper_from a l : Forall proper a -> Forall (fun w => SLASH ∉ w) l -> Forall proper (foldl visit a l).
Proof. revert a. induction l as [|w l IH]; intros a Ha Hl; cbn [foldl]; [done|]. apply Forall_cons_iff in Hl as [Hw Hl]. apply IH; [by apply visit_proper|done]. Qed.

Lemma walk_proper s : Forall proper (walk (pieces s)).
Proof. apply walk_proper_from; [done|apply pieces_no_slash]. Qed.

Lemma visit_append a w : proper w -> visit a w = a ++ [w].
Proof. intros (H1 & _ & H2 & H3). unfold visit. destruct w; [done|]. by rewrite H2, H3. Qed.

Lemma walk_append a l : Forall proper l -> foldl visit a l = a ++ l.
Proof. revert a. induction l as [|w l IH]; intros a Hl; cbn [foldl]; [by rewrite app_nil_r|]. apply Forall_cons_iff in Hl as [Hw Hl]. rewrite (visit_append a w Hw), (IH _ Hl). by rewrite <- app_assoc. Qed.

Lemma pieces_names l : l <> [] -> Forall proper l -> pieces (concat (map (cons SLASH) l)) = [] :: l.
Proof.
  induction l as [|w l IH]; [done|]. intros _ Hl. apply Forall_cons_iff in Hl as [(Hw1 & Hw2 & _) Hl]. cbn [map concat].
  change ((SLASH :: w) ++ concat (map (cons SLASH) l)) with ([] ++ SLASH :: (w ++ concat (map (cons SLASH) l))). rewrite pieces_app. cbn [pieces app]. f_equal.
  destruct l as [|w' l]; [by rewrite app_nil_r, pieces_word|]. specialize (IH ltac:(done) Hl). cbn [map concat] in *. set (x := concat (map (cons SLASH) l)) in *.
  change ((SLASH :: w') ++ x) with ([] ++ SLASH :: (w' ++ x)) in IH. rewrite pieces_app in IH. cbn [pieces app] in IH. injection IH as IH.
  change (w ++ (SLASH :: w') ++ x) with (w ++ SLASH :: (w' ++ x)). by rewrite pieces_app, (pieces_word w Hw2), IH.
Qed.

(** Walking along a rendered place leads there, passing only what lies on the way. *)
Lemma walk_render l a : Forall proper l -> foldl visit a (pieces (render l)) = a ++ l.
Proof.
  intros Hl. unfold render. destruct l as [|w l]; [by rewrite app_nil_r|]. rewrite pieces_names by done. change (foldl visit a ([] :: w :: l)) with (foldl visit a (w :: l)). by apply walk_append.
Qed.

Lemma walk_render_prefix l k : Forall proper l -> len (walk (take k (pieces (render l)))) <= len l.
Proof.
  intros Hl. unfold render. destruct l as [|w l]; [destruct k as [|[|[|k]]]; cbn; lia|]. rewrite pieces_names by done. destruct k as [|k]; [cbn; lia|].
  cbn [take]. unfold walk. cbn [foldl visit]. rewrite walk_append by (by apply Forall_take). rewrite app_nil_l, length_take. lia.
Qed.

(** ** A result is no longer than the name *)

Definition weight (l : list (list Z)) : Z := len (concat (map (cons SLASH) l)).

Lemma weight_app l1 l2 : weight (l1 ++ l2) = weight l1 + weight l2.
Proof. unfold weight. rewrite map_app, concat_app, length_app. lia. Qed.
Lemma weight_cons w l : weight (w :: l) = 1 + len w + weight l.
Proof. unfold weight. cbn [map concat]. rewrite length_app. cbn [length]. lia. Qed.

Lemma weight_nonneg l : 0 <= weight l. Proof. unfold weight. lia. Qed.

Lemma weight_walk_from l a : weight (foldl visit a l) <= weight a + weight l.
Proof.
  revert a. induction l as [|w l IH]; intros a; cbn [foldl]; [unfold weight; cbn; lia|]. specialize (IH (visit a w)). rewrite weight_cons.
  assert (weight (visit a w) <= weight a + 1 + len w); [|lia]. unfold visit. destruct w as [|c w]; [lia|]. destruct (dot _); [lia|]. destruct (dotdot _).
  - pose proof (weight_app (take (length a - 1) a) (drop (length a - 1) a)) as E. rewrite take_drop in E. pose proof (weight_nonneg (drop (length a - 1) a)). lia.
  - rewrite weight_app, weight_cons. change (weight []) with 0. lia.
Qed.

Lemma weight_pieces s : weight (pieces s) = len s + 1.
Proof.
  induction s as [|c s IH]; cbn [pieces]; [done|]. destruct (c =? SLASH); [rewrite weight_cons, IH; cbn [length]; lia|].
  destruct (pieces s) as [|w l]; [change (weight []) with 0 in IH; lia|]. rewrite weight_cons in *. cbn [length] in *. lia.
Qed.

Lemma render_length s : starts_slash s = true -> len (render (walk (pieces s))) <= len s.
Proof.
  destruct s as [|c s]; [done|]. cbn [starts_slash]. intros Hc. cbn [pieces]. rewrite Hc. unfold walk. cbn [foldl visit].
  pose proof (weight_walk_from (pieces s) []) as H. rewrite weight_pieces in H. change (weight []) with 0 in H. unfold render. cbn [length].
  destruct (foldl visit [] (pieces s)) as [|w l]; [cbn; lia|]. unfold weight in H. lia.
Qed.

Lemma starts_slash_app a b : a <> [] -> starts_slash (a ++ b) = starts_slash a.
Proof. by destruct a. Qed.
Lemma full_name_absolute cwd path : starts_slash cwd = true \/ cwd = [] -> starts_slash (full_name cwd path) = true.
Proof. intros H. unfold full_name. destruct (starts_slash path) eqn:E; [done|]. destruct H as [H| ->]; [|done]. by destruct cwd. Qed.

(** A name that fits is resolved whole. *)
Lemma path_resolve_exact cwd path :
  starts_slash cwd = true \/ cwd = [] -> len (full_name cwd path) <= 255 -> shallow (pieces (full_name cwd path)) ->
  path_resolve cwd path MAX_PATH = render (walk (pieces (full_name cwd path))).
Proof.
  intros Hc Hl Hs. pose proof (full_name_absolute cwd path Hc) as Ha. rewrite path_resolve_spec; rewrite ?(take_ge (full_name cwd path)) by lia; [|done|done].
  pose proof (render_length _ Ha). apply take_ge. unfold MAX_PATH. lia.
Qed.

Lemma shallow_app_r l1 l2 : shallow (l1 ++ l2) -> shallow l1.
Proof. intros H k. specialize (H (k `min` length l1)%nat). rewrite take_app_le in H by lia. by rewrite <- take_take, (take_ge l1) in H by lia. Qed.

(** C39: relative names, "." and ".." mean what they should: the name that reaches the file system
    is where walking along the working directory and then along the path leads, written
    without empty names, "." or ".."; resolving it again, in any directory, changes nothing;
    and opening q after chdir(p) is opening p/q.  For names of at most 255 characters that
    nowhere lead deeper than 32 directories. *)
Theorem path_resolve_correct cwd path :
  starts_slash cwd = true \/ cwd = [] -> len (full_name cwd path) <= 255 -> shallow (pieces (full_name cwd path)) ->
  let r := path_resolve cwd path MAX_PATH in
  r = render (walk (pieces (full_name cwd path))) /\ Forall proper (walk (pieces (full_name cwd path))) /\
  (forall cwd', path_resolve cwd' r MAX_PATH = r) /\
  (forall p q, path = p ++ SLASH :: q -> p <> [] -> starts_slash q = false ->
     path_resolve (path_resolve cwd p MAX_PATH) q MAX_PATH = r).
Proof.
  intros Hc Hl Hs r. pose proof (full_name_absolute cwd path Hc) as Ha. pose proof (path_resolve_exact cwd path Hc Hl Hs) as Hr. fold r in Hr.
  pose proof (walk_proper (full_name cwd path)) as Hp. split_and!; [done|done| |].
  - intros cwd'. assert (starts_slash r = true) as Hsr by (rewrite Hr; unfold render; by destruct (walk _)). assert (full_name cwd' r = r) as Hf by (unfold full_name; by rewrite Hsr).
    pose proof (render_length _ Ha) as Hrl. rewrite <- Hr in Hrl. rewrite path_resolve_spec; rewrite ?Hf, ?(take_ge r) by lia; [|done|].
    + rewrite Hr at 1. unfold walk at 1. rewrite (walk_render _ [] Hp). cbn [app]. rewrite <- Hr. apply take_ge. unfold MAX_PATH. lia.
    + intros k. rewrite Hr. etrans; [by apply walk_render_prefix|]. specialize (Hs (length (pieces (full_name cwd path)))). by rewrite firstn_all in Hs.
  - intros p q -> Hpn Hq. assert (full_name cwd (p ++ SLASH :: q) = full_name cwd p ++ SLASH :: q) as En.
    { unfold full_name. rewrite starts_slash_app by done. destruct (starts_slash p); [done|]. by rewrite <- app_assoc. }
    rewrite En, pieces_app in *. rewrite length_app in Hl. cbn [length] in Hl. pose proof (shallow_app_r _ _ Hs) as Hs1.
    pose proof (full_name_absolute cwd p Hc) as Hap. pose proof (render_length _ Hap) as Hrl. pose proof (walk_proper (full_name cwd p)) as Hpp.
    rewrite (path_resolve_exact cwd p Hc ltac:(lia) Hs1). set (st := walk (pieces (full_name cwd p))) in *.
    assert (full_name (render st) q = render st ++ SLASH :: q) as Eq by (unfold full_name; rewrite Hq; unfold render; by destruct st).
    rewrite Hr. rewrite path_resolve_exact; rewrite ?Eq, ?pieces_app.
    + f_equal. unfold walk. rewrite !foldl_app, (walk_render _ _ Hpp). done.
    + left. unfold render. by destruct st.
    + rewrite length_app. cbn [length]. lia.
    + intros k. rewrite take_app. destruct (Nat.le_gt_cases k (length (pieces (render st)))) as [Hk|Hk].
      * replace (k - length (pieces (render st)))%nat with O by lia. rewrite take_0, app_nil_r. etrans; [by apply walk_render_prefix|].
        specialize (Hs1 (length (pieces (full_name cwd p)))). by rewrite firstn_all in Hs1.
      * rewrite (take_ge (pieces (render st))) by lia. unfold walk. rewrite foldl_app, (walk_render _ _ Hpp). cbn [app].
        specialize (Hs (length (pieces (full_name cwd p)) + (k - length (pieces (render st))))%nat). rewrite take_app_ge in Hs by lia. unfold walk in Hs. rewrite foldl_app in Hs.
        by replace (length (pieces (full_name cwd p)) + (k - length (pieces (render st))) - length (pieces (full_name cwd p)))%nat with (k - length (pieces (render st)))%nat in Hs by lia.
Qed.

(** Decides [shallow]. *)
Definition shallowb (l : list (list Z)) : bool := forallb (fun k => len (walk (take k l)) <=? 32) (seq 0 (S (length l))).
Lemma shallowb_spec l : shallowb l = true -> shallow l.
Proof.
  unfold shallowb. rewrite forallb_forall. intros H k. destruct (Nat.le_gt_cases k (length l)) as [Hk|Hk].
  - apply Z.leb_le, H. apply in_seq. lia.
  - rewrite take_ge by lia. rewrite <- (firstn_all l). apply Z.leb_le, H. apply in_seq. lia.
Qed.

Lemma path_resolve_correct_witness :
  path_resolve (path_resolve (chars "/home/nyx") (chars "../src") MAX_PATH) (chars ".//lib/../main.c") MAX_PATH = chars "/home/src/main.c".
Proof.
  destruct (path_resolve_correct (chars "/home/nyx") (chars "../src/.//lib/../main.c")) as (E & _ & _ & H); [by left|by vm_compute|apply shallowb_spec; by vm_compute|].
  etrans; [apply (H (chars "../src") (chars ".//lib/../main.c")); done|]. rewrite E. vm_compute. reflexivity.
Defined.

(** * Where names do not mean what they should *)

(** A 33rd name is dropped: the path of a file 33 levels down leads to its directory. *)
Definition deep (n : nat) : list Z := concat (replicate n (chars "/d")).
Lemma deep_path_loses_its_file : path_resolve [] (deep 32 ++ chars "/f") MAX_PATH = deep 32.
Proof. vm_compute. reflexivity. Qed.

(** A name past 255 characters is cut, and the shorter name is what is opened. *)
Lemma long_path_is_cut : path_resolve (SLASH :: replicate 200 97) (replicate 60 98) MAX_PATH = SLASH :: replicate 200 97 ++ SLASH :: replicate 53 98.
Proof. vm_compute. reflexivity. Qed.

(** A string that is longer than the buffer is cut without an error: a user path keeps its first
    127 characters. *)
Lemma long_string_is_cut user_cr3 usrc room m s :
  copy_str user_cr3 usrc room m = (Some false, s) -> copy_str_from_user user_cr3 usrc room m = (0, take (room - 1) s).
Proof. intros E. unfold copy_str_from_user. by rewrite E. Qed.
