(* ===== verification/Descr.v ===== *)
(** The state the system calls work on, and the descriptor table (kernel/syscall.c: fd_owner,
    ufd_alloc, ufd_lookup, ufd_offset_of, ufd_release).

    The parts of the kernel are put together here: the process table with its page tables,
    the virtual file system, the pipes, the sockets and the keyboard.  The parts keep their own
    models; the calls of a part run on its component of the state. *)
From Stdlib Require Import ZArith Lia.
From S2P Require Import Prelude Phys Paging Process.
From S2P Require Ext2 Vfs Pipe Reap NetBase Udp NetPoll Keyboard.

Definition UFD_BASE : Z := 3.
Definition UFD_PIPE_MAKE (id : Z) (w : bool) : Z := (UFD_PIPE_FLAG .| (id << 1)) .| (if w then 1 else 0).
Definition UFD_SOCK_MAKE (id : Z) : Z := UFD_SOCK_FLAG .| (id .& 0xFFFF).

Record sys {F : Type} := Sys {
  sk : kst;                 (* processes, memory *)
  sv : Vfs.vfs F;
  sp : Z -> Pipe.pipe;
  sn : NetBase.net;
  skb : Keyboard.kbd;
  scon : list Z }.          (* characters put on the console *)
Arguments sys : clear implicits.

Section Descr.
Context {F : Type} `{FO : Vfs.FsOps F} `{BH : Ext2.BlockHeap}.
Implicit Types (s : sys F).

Definition with_sk k s : sys F := Sys F k (sv s) (sp s) (sn s) (skb s) (scon s).
Definition with_sv v s : sys F := Sys F (sk s) v (sp s) (sn s) (skb s) (scon s).
Definition with_sp p s : sys F := Sys F (sk s) (sv s) p (sn s) (skb s) (scon s).
Definition with_sn n s : sys F := Sys F (sk s) (sv s) (sp s) n (skb s) (scon s).
Definition with_skb b s : sys F := Sys F (sk s) (sv s) (sp s) (sn s) b (scon s).
Definition with_scon c s : sys F := Sys F (sk s) (sv s) (sp s) (sn s) (skb s) c.

(** * Steps *)

(** [None] is an access outside an object. *)
Definition M (A : Type) : Type := sys F -> option (A * sys F).
Definition ret {A} (x : A) : M A := fun s => Some (x, s).
Definition bind {A B} (m : M A) (k : A -> M B) : M B :=
  fun s => match m s with Some (x, s') => k x s' | None => None end.
Definition get : M (sys F) := fun s => Some (s, s).

Definition on_kst {A} (f : kst -> A * kst) : M A := fun s => let '(r, k) := f (sk s) in Some (r, with_sk k s).
Definition mod_kst (f : kst -> kst) : M unit := fun s => Some (tt, with_sk (f (sk s)) s).
Definition on_net {A} (f : NetBase.net -> A * NetBase.net) : M A := fun s => let '(r, n) := f (sn s) in Some (r, with_sn n s).
Definition on_vfs {A} (m : Vfs.M F A) : M A :=
  fun s => match m (sv s) with Some (r, v) => Some (r, with_sv v s) | None => None end.

(** What the pipe code sees of the processes, and what it leaves in them. *)
Definition park_of (p : proc) : Pipe.proc_park := Pipe.ProcPark (state (p_sched p)) (blocked_in_kernel (p_sched p)).
Definition pipe_view s : Pipe.pipes_st :=
  Pipe.PipesSt (sp s) (fun a => match pstore (sk s) !! a with Some p => park_of p | None => Pipe.ProcPark 0 0 end)
    (user_cr3 (sk s)) (user_rsp (sk s)).
Definition put_park (q : Pipe.proc_park) (p : proc) : proc :=
  on_sched (fun c => set_state (Pipe.state q) (set_blocked_in_kernel (Pipe.blocked_in_kernel q) c)) p.
Definition pipe_absorb (st : Pipe.pipes_st) s : sys F :=
  with_sp (Pipe.pipes st) (with_sk (set_pstore (map_imap (fun a p => Some (put_park (Pipe.procs st a) p)) (pstore (sk s))) (sk s)) s).
Definition on_pipes {A} (f : Pipe.pipes_st -> A * Pipe.pipes_st) : M A :=
  fun s => let '(r, st) := f (pipe_view s) in Some (r, pipe_absorb st s).

Definition close_pipe (id w : Z) : M unit := on_pipes (fun st => (tt, Pipe.pipe_close_end id (truthy w) st)).
Definition incref_pipe (id w : Z) : M unit := on_pipes (fun st => (tt, Pipe.pipe_incref id (truthy w) st)).

(** A call of the process code with the calls it makes into the other parts. *)
Definition run_call {NH : NetBase.NetHeap} {PL : NetBase.Poll} (c : kcall) : M unit :=
  match c with
  | CallPipeClose id w => close_pipe id w
  | CallPipeIncref id w => incref_pipe id w
  | CallSockClose id => bind (on_net (NetPoll.nsock_close id)) (fun _ => ret tt)
  | CallVfsClose h => bind (on_vfs (Vfs.vfs_close h)) (fun _ => ret tt)
  | CallKfree _ => ret tt
  end.
Fixpoint run_calls {NH : NetBase.NetHeap} {PL : NetBase.Poll} (l : list kcall) : M unit :=
  match l with [] => ret tt | c :: l' => bind (run_call c) (fun _ => run_calls l') end.
Definition with_calls {NH : NetBase.NetHeap} {PL : NetBase.Poll} {A} (f : kst -> A * kst) : M A :=
  fun s => let '(r, k) := f (set_calls [] (sk s)) in
           match run_calls (calls k) (with_sk (set_calls (calls (sk s)) k) s) with Some (_, s') => Some (r, s') | None => None end.

(** * User memory *)

Definition user_read (a n : Z) : M (Z * list Z) :=
  fun s => Some (copy_from_user (user_cr3 (sk s)) a (Z.to_nat n) (pm (kvm (sk s))), s).
Definition user_write (a : Z) (b : list Z) : M Z :=
  on_kst (fun k => let '(r, m) := copy_to_user (user_cr3 k) a b (pm (kvm k)) in (r, set_kvm (set_pm m (kvm k)) k)).

(** * The descriptor table *)

Definition get_cur_proc (k : kst) : Z := get_current_process k.
Definition fd_owner (k : kst) : Z := tg_leader (get_cur_proc k) k.

(** [p->ufd_inuse[i] = 1; p->ufd_handle[i] = h; p->ufd_offset[i] = o;] *)
Definition take_fd (i h o : Z) (p : proc) : proc :=
  on_mm (fun m => set_ufd_offset (<[i := o]> (ufd_offset m)) (set_ufd_handle (<[i := h]> (ufd_handle m)) (set_ufd_inuse (<[i := 1]> (ufd_inuse m)) m))) p.
Definition move_offset (i o : Z) (p : proc) : proc := on_mm (fun m => set_ufd_offset (<[i := o]> (ufd_offset m)) m) p.

Definition ufd_alloc (internal : Z) (k : kst) : Z * kst :=
  match pstore k !! fd_owner k with
  | None => (-1, k)
  | Some p =>
      match find_idx (Z.to_nat (PROC_MAX_FDS - UFD_BASE)) UFD_BASE (fun i => negb (truthy (ufd_inuse (p_mm p) i))) with
      | Some i => (i, upd (fd_owner k) (take_fd i internal 0) k)
      | None => (-1, k)
      end
  end.

(** A descriptor in use, its entry's owner. *)
Definition fd_entry (ufd : Z) (k : kst) : option proc :=
  match pstore k !! fd_owner k with
  | Some p => if (ufd <? 0) || (PROC_MAX_FDS <=? ufd) || negb (truthy (ufd_inuse (p_mm p) ufd)) then None else Some p
  | None => None
  end.
Definition ufd_lookup (ufd : Z) (k : kst) : option Z := (fun p => ufd_handle (p_mm p) ufd) <$> fd_entry ufd k.
Definition ufd_offset_of (ufd : Z) (k : kst) : option Z := (fun p => ufd_offset (p_mm p) ufd) <$> fd_entry ufd k.

Definition ufd_release (ufd : Z) (k : kst) : kst :=
  if (0 <=? ufd) && (ufd <? PROC_MAX_FDS) then upd (fd_owner k) (Reap.clear_fd ufd) k else k.

(** Stores through the pointer [ufd_offset_of] gave. *)
Definition set_fd_offset (ufd o : Z) (k : kst) : kst := upd (fd_owner k) (move_offset ufd o) k.
End Descr.
Arguments M : clear implicits.

Declare Scope sys_scope.
Notation "'let*' x := m 'in' k" := (bind m (fun x => k)) (at level 200, x name, right associativity) : sys_scope.
Notation "m ;; k" := (bind m (fun _ => k)) (at level 100, k at level 200, right associativity) : sys_scope.
