(* ===== verification/SysFile.v ===== *)
(** System calls on descriptors and names (the cases of syscall_handler in kernel/syscall.c that
    work on files, pipes, sockets and the console).

    A call ends with a value, or parks its caller in the middle; what it goes on with when it
    is resumed is a [cont].  The value is the one the C expression has; the handler converts
    it to 64 bits. *)
From Stdlib Require Import ZArith Lia String.
From S2P Require Import Prelude Packed Phys Paging Process Descr.
From S2P Require Ext2 Vfs Pipe Signal NetBase Udp NetPoll Keyboard Path Format Spawn.
#[local] Open Scope sys_scope.

Definition EINTR : Z := 4.
Definition O_APPEND : Z := 4.
Definition COPY_MAX : Z := 4096.

Inductive cont :=
| WPipe (ubuf id n cr3 rsp : Z)                        (* in pipe_read *)
| WLine (ubuf max : Z) (kbuf : list Z) (cr3 rsp : Z)   (* in stdin_read_line *)
| WRaw (ubuf max : Z) (kbuf : list Z) (cr3 rsp : Z)    (* in stdin_read_raw *)
| WKey (timeout deadline cr3 rsp : Z)                  (* in stdin_readkey *)
| WSleep (deadline cr3 rsp : Z) (rem : Z)              (* in do_sleep_ms; the caller's rem pointer *)
| WChild (wpid options status cr3 rsp : Z)             (* in do_waitpid *)
| WFutex (key val cr3 rsp : Z)                         (* in do_futex *)
| WPoll (ubuf : Z) (fds : list (Z * Z)) (timeout start cr3 rsp : Z) (* in the loop of SYS_POLL *)
| WStop (self : Z) (c : cont)                          (* stopped in signal_check_stop *)
| WGone.                                               (* never returns *)

Inductive outcome := Ret (r : Z) | Wait (c : cont).

Section SysFile.
Context {F : Type} `{FO : Vfs.FsOps F} `{BH : Ext2.BlockHeap} {NH : NetBase.NetHeap} {PL : NetBase.Poll}.
Implicit Types (s : sys F).

Definition value (r : Z) : M F outcome := ret (Ret r).
Definition fail : M F outcome := value (-1).
Definition gets {A} (f : kst -> A) : M F A := fun s => Some (f (sk s), s).
Definition kmalloc (n : Z) : M F (option (list Z)) := on_vfs (Vfs.kmalloc n).

(** [user_cr3 = saved_cr3; user_rsp = saved_ursp;] *)
Definition restore (cr3 rsp : Z) : M F unit := mod_kst (fun k => set_user_rsp rsp (set_user_cr3 cr3 k)).

(** * Strings and names of the caller *)

Definition user_str (uptr : Z) (room : nat) : M F (Z * list Z) :=
  gets (fun k => Path.copy_str_from_user (user_cr3 k) uptr room (pm (kvm k))).

Definition cwd_of (k : kst) : list Z := match pstore k !! get_cur_proc k with Some p => cwd (p_text p) | None => [47] end.

(** [None] when the string cannot be read. *)
Definition copy_path_from_user (outsz uptr : Z) : M F (option (list Z)) :=
  let* r := user_str uptr 128 in
  if negb (fst r =? 0) then ret None else
  let* dir := gets cwd_of in ret (Some (Path.path_resolve dir (snd r) outsz)).

(** The name argument of a call: its pointer is checked, then it is copied and resolved. *)
Definition with_path (uptr : Z) (k : list Z -> M F outcome) : M F outcome :=
  if negb (Path.user_str_ok uptr) then fail else
  let* path := copy_path_from_user Path.MAX_PATH uptr in
  match path with None => fail | Some p => k p end.

(** * Blocking *)

(** A park in a loop of the kernel: a signal ends the call or stops the caller, otherwise it
    waits for the next interrupt. *)
Definition park_or_interrupt (self : Z) (c : cont) (interrupted : M F outcome) : M F outcome :=
  let* p := gets (fun k => pstore k !! self) in
  match p with
  | None => interrupted
  | Some p =>
      if Signal.signal_pending p then
        let* st := gets (Signal.signal_check_stop self) in
        match st with Some k => mod_kst (fun _ => k) ;; ret (Wait (WStop self c)) | None => interrupted end
      else mod_kst (upd self (Signal.mark_in_kernel 1)) ;; ret (Wait c)
  end.

(** * The keyboard as standard input *)

Definition getchar : M F Z := fun s => let '(c, b) := Keyboard.getchar_poll (skb s) in Some (c, with_skb b s).
Definition getkey : M F Z := fun s => let '(c, b) := Keyboard.getkey_poll (skb s) in Some (c, with_skb b s).
Definition putchars (l : list Z) : M F unit := fun s => Some (tt, with_scon (scon s ++ l) s).

(** Enough iterations to take everything that is ready. *)
Definition ready (b : Keyboard.kbd) : nat :=
  (length (Keyboard.pending (Keyboard.kbd_buffer b)) + length (Keyboard.pending (Keyboard.kbd_keycodes b)) +
   length (Keyboard.i8042 b) + length (Keyboard.serial_in b))%nat.

Definition CR : Z := 13.
Definition LF : Z := 10.
Definition ESC : Z := 27.

(** What the line so far becomes with [c], and what is echoed. *)
Definition line_key (max c : Z) (kbuf : list Z) : list Z * list Z :=
  if (c =? 8) || (c =? 0x7F) then
    if (0 <? len kbuf) then (take (length kbuf - 1) kbuf, [8; 32; 8]) else (kbuf, [])
  else (if len kbuf <? max then kbuf ++ [c] else kbuf, [c]).

(** The copy to the caller at the end of a read. *)
Definition deliver (ubuf n : Z) (b : list Z) : M F outcome :=
  if 0 <? n then let* r := user_write ubuf (take (Z.to_nat n) b) in value (if r =? 0 then n else -1) else value n.

(** [true] when the line is complete. *)
Fixpoint line_loop (fuel : nat) (max : Z) (kbuf : list Z) : M F (bool * list Z) :=
  match fuel with
  | O => fun _ => None
  | S fuel' =>
      let* c := getchar in
      if c =? 0 then ret (false, kbuf) else
      let c := if c =? CR then LF else c in
      let '(kbuf, echo) := line_key max c kbuf in
      putchars echo ;;
      if c =? LF then ret (true, kbuf) else line_loop fuel' max kbuf
  end.

Definition stdin_read_line (ubuf max : Z) (kbuf : list Z) (cr3 rsp : Z) : M F outcome :=
  let* s := get in
  let* r := line_loop (S (ready (skb s))) max kbuf in
  let '(full, kbuf) := r in
  let self := get_cur_proc (sk s) in
  let finish n := restore cr3 rsp ;; deliver ubuf n kbuf in
  if full then finish (len kbuf) else
  if negb (truthy self) then finish (len kbuf) else
  park_or_interrupt self (WLine ubuf max kbuf cr3 rsp) (finish (- EINTR)).

Definition escape_of (k : Z) : option Z :=
  if k =? Keyboard.KEY_UP then Some 65 else if k =? Keyboard.KEY_DOWN then Some 66
  else if k =? Keyboard.KEY_RIGHT then Some 67 else if k =? Keyboard.KEY_LEFT then Some 68
  else if k =? Keyboard.KEY_HOME then Some 72 else if k =? Keyboard.KEY_END then Some 70 else None.

(** [true] when the read is over. *)
Fixpoint raw_loop (fuel : nat) (max : Z) (kbuf : list Z) : M F (bool * list Z) :=
  match fuel with
  | O => fun _ => None
  | S fuel' =>
      let* k := getkey in
      if k =? 0 then ret (0 <? len kbuf, kbuf) else
      if 0x80 <=? k then
        match escape_of k with
        | None => raw_loop fuel' max kbuf
        | Some x => if max <? len kbuf + 3 then ret (true, kbuf) else raw_loop fuel' max (kbuf ++ [ESC; 91; x])
        end
      else
        let c := u8 (if k =? CR then LF else k) in
        let kbuf := if len kbuf <? max then kbuf ++ [c] else kbuf in
        if max <=? len kbuf then ret (true, kbuf) else raw_loop fuel' max kbuf
  end.

Definition stdin_read_raw (ubuf max : Z) (kbuf : list Z) (cr3 rsp : Z) : M F outcome :=
  let* s := get in
  let* r := raw_loop (S (ready (skb s))) max kbuf in
  let '(full, kbuf) := r in
  let self := get_cur_proc (sk s) in
  let finish n := restore cr3 rsp ;; deliver ubuf n kbuf in
  if full then finish (len kbuf) else
  if negb (truthy self) then finish (len kbuf) else
  park_or_interrupt self (WRaw ubuf max kbuf cr3 rsp) (finish (- EINTR)).

Definition stdin_readkey (timeout deadline cr3 rsp : Z) : M F outcome :=
  let* k := getkey in
  let finish r := restore cr3 rsp ;; value r in
  if negb (k =? 0) then finish k else
  let* self := gets get_cur_proc in
  let* p := gets (fun k => pstore k !! self) in
  let* late := gets (fun k => 0 <=? s32 (tick_count k - deadline)) in
  match p with
  | Some q =>
      if Signal.signal_pending q then
        park_or_interrupt self (WKey timeout deadline cr3 rsp) (finish (- EINTR))
      else if negb (timeout =? 0) && late then finish 0
      else park_or_interrupt self (WKey timeout deadline cr3 rsp) (finish (- EINTR))
  | None => if negb (timeout =? 0) && late then finish 0 else ret (Wait (WKey timeout deadline cr3 rsp))
  end.
End SysFile.
