(* ===== verification/Stdin.v ===== *)
(** The keyboard as standard input (kernel/syscall.c: stdin_read_line, stdin_read_raw): the read
    loops end, and what they make of the characters. *)
From Stdlib Require Import ZArith Lia String.
From S2P Require Import Prelude Packed Phys Paging Process Descr SysFile.
From S2P Require Ext2 Vfs Signal Keyboard Path Format.
#[local] Open Scope sys_scope.

(** * What is ready runs out *)

Definition kbd_ok (b : Keyboard.kbd) : Prop := Keyboard.ring_ok (Keyboard.kbd_buffer b) /\ Keyboard.ring_ok (Keyboard.kbd_keycodes b).

Lemma scancode_rings sc b :
  let '(c, b') := Keyboard.scancode_to_ascii sc b in
  Keyboard.kbd_buffer b' = Keyboard.kbd_buffer b /\ Keyboard.i8042 b' = Keyboard.i8042 b /\ Keyboard.serial_in b' = Keyboard.serial_in b /\
  (Keyboard.kbd_keycodes b' = Keyboard.kbd_keycodes b \/ c = 0 /\ exists kc, Keyboard.kbd_keycodes b' = Keyboard.ring_put kc (Keyboard.kbd_keycodes b)).
Proof. unfold Keyboard.scancode_to_ascii, Keyboard.put_keycode. repeat case_match; simplify_eq; cbn; split_and!; try done; try (by left); try (right; split; [done|by eexists]). Qed.

Lemma pending_put c r : Keyboard.ring_ok r -> (length (Keyboard.pending (Keyboard.ring_put c r)) <= S (length (Keyboard.pending r)))%nat.
Proof. intros H. destruct (Keyboard.ring_put_spec c r H) as [_ ->]. destruct (_ <? _); [rewrite length_app; cbn; lia|lia]. Qed.

(** A character that is taken is one less. *)
Definition took (c : Z) : nat := if c =? 0 then O else 1.
Lemma took_0 : took 0 = O. Proof. done. Qed.
Lemma took_le c : (took c <= 1)%nat. Proof. unfold took. destruct (c =? 0); lia. Qed.

Lemma getchar_ready b : kbd_ok b ->
  let '(c, b') := Keyboard.getchar_poll b in kbd_ok b' /\ (ready b' + took c <= ready b)%nat.
Proof.
  intros [Hb Hk]. unfold Keyboard.getchar_poll. pose proof (Keyboard.ring_get_spec _ Hb) as Hg. destruct (Keyboard.ring_get (Keyboard.kbd_buffer b)) as [[c r]|].
  - destruct Hg as [E Hr]. unfold ready. rewrite E. split; [by split|]. pose proof (took_le c). cbn. lia.
  - assert (let '(c, b1) := Keyboard.kbd_poll_direct b in kbd_ok b1 /\ (ready b1 + took c <= ready b)%nat) as Hd.
    { unfold Keyboard.kbd_poll_direct. destruct (Keyboard.i8042 b) as [|[m sc] l] eqn:Ei; [split; [done|cbn; lia]|].
      pose proof (scancode_rings sc (Keyboard.set_i8042 l b)) as Hs. destruct (Keyboard.scancode_to_ascii _ _) as [c b1]. destruct Hs as (E1 & E2 & E3 & E4).
      cbn in E1, E2, E3, E4. unfold kbd_ok, ready. rewrite E1, E2, E3, Ei. destruct E4 as [->|[-> [kc ->]]]; (split; [split; [done|]|]).
      - done.
      - pose proof (took_le c). cbn. lia.
      - by apply Keyboard.ring_put_spec.
      - pose proof (pending_put kc _ Hk). cbn. lia. }
    destruct (Keyboard.kbd_poll_direct b) as [c b1]. destruct Hd as [[Hb1 Hk1] Hl]. unfold truthy. destruct (Z.eqb_spec c 0) as [->|Hc]; cbn [negb].
    2:{ by split. }
    rewrite took_0 in Hl.
    unfold Keyboard.serial_getchar_nonblock. destruct (Keyboard.serial_in b1) as [|d l] eqn:Es; [cbn; split; [done|lia]|].
    assert (ready (Keyboard.set_serial l b1) + 1 <= ready b)%nat as Hd by (unfold ready in *; rewrite Es in Hl; cbn [Keyboard.set_serial Keyboard.kbd_buffer Keyboard.kbd_keycodes Keyboard.i8042 Keyboard.serial_in length] in *; lia).
    pose proof (took_le d). pose proof (took_le Keyboard.BACKSPACE). destruct (d =? 0x7F); (split; [done|]); lia.
Qed.

Lemma s8_0 : Keyboard.s8 0 = 0. Proof. done. Qed.

Lemma getkey_ready b : kbd_ok b ->
  let '(c, b') := Keyboard.getkey_poll b in kbd_ok b' /\ (ready b' + took c <= ready b)%nat.
Proof.
  intros Hok. pose proof Hok as [Hb Hk]. unfold Keyboard.getkey_poll. pose proof (Keyboard.ring_get_spec _ Hk) as Hg. destruct (Keyboard.ring_get (Keyboard.kbd_keycodes b)) as [[c r]|].
  - destruct Hg as [E Hr]. unfold ready. cbn. rewrite E. split; [by split|]. pose proof (took_le c). cbn. lia.
  - pose proof (getchar_ready b Hok) as H. destruct (Keyboard.getchar_poll b) as [c b1]. destruct H as [Hok1 Hl]. split; [done|].
    destruct (Z.eqb_spec c 0) as [->|Hc]; [by rewrite s8_0|]. pose proof (took_le (Keyboard.s8 c)). unfold took in Hl. rewrite (proj2 (Z.eqb_neq c 0) Hc) in Hl. lia.
Qed.

Section Stdin.
Context {F : Type} `{FO : Vfs.FsOps F}.
Implicit Types (s : sys F).

(** Only the keyboard and the console have changed. *)
Definition tty_frame s s' : Prop := exists b c, kbd_ok b /\ s' = with_scon c (with_skb b s).

Lemma line_loop_total fuel max : forall kbuf s, kbd_ok (skb s) -> (ready (skb s) < fuel)%nat ->
  exists r s', line_loop fuel max kbuf s = Some (r, s') /\ tty_frame s s'.
Proof.
  induction fuel as [|fuel IH]; intros kbuf s Hok Hf; [lia|]. cbn [line_loop]. unfold bind at 1, getchar. pose proof (getchar_ready _ Hok) as Hg.
  destruct (Keyboard.getchar_poll (skb s)) as [c b]. destruct Hg as [Hb Hl]. unfold took in Hl. destruct (c =? 0); [eexists _, _; split; [done|by exists b, (scon s)]|].
  set (d := if c =? CR then LF else c). destruct (line_key max d kbuf) as [kbuf' echo]. unfold bind, putchars. set (s1 := with_scon _ (with_skb b s)).
  destruct (d =? LF); [eexists _, _; split; [done|by eexists _, _]|]. destruct (IH kbuf' s1 Hb ltac:(cbn; lia)) as (r & s' & -> & b' & c' & Hb' & ->).
  eexists _, _. split; [done|]. by exists b', c'.
Qed.

Lemma raw_loop_total fuel max : forall kbuf s, kbd_ok (skb s) -> (ready (skb s) < fuel)%nat ->
  exists r s', raw_loop fuel max kbuf s = Some (r, s') /\ tty_frame s s'.
Proof.
  induction fuel as [|fuel IH]; intros kbuf s Hok Hf; [lia|]. cbn [raw_loop]. unfold bind, getkey. pose proof (getkey_ready _ Hok) as Hg.
  destruct (Keyboard.getkey_poll (skb s)) as [c b]. destruct Hg as [Hb Hl]. unfold took in Hl. set (s1 := with_skb b s). assert (tty_frame s s1) as Hs1 by (by exists b, (scon s)).
  assert (forall k r s', raw_loop fuel max k s1 = Some (r, s') /\ tty_frame s1 s' -> exists r s', raw_loop fuel max k s1 = Some (r, s') /\ tty_frame s s') as Hgo.
  { intros k r s' (E & b' & c' & Hb' & ->). eexists _, _. split; [exact E|]. by exists b', c'. }
  assert (forall k, (c =? 0) = false -> exists r s', raw_loop fuel max k s1 = Some (r, s') /\ tty_frame s s') as Hrec.
  { intros k Hc. rewrite Hc in Hl. destruct (IH k s1 Hb ltac:(cbn; lia)) as (r & s' & H). by eapply Hgo. }
  destruct (c =? 0); [by eexists _, _|]. destruct (0x80 <=? c).
  - destruct (escape_of c); [|by apply Hrec]. destruct (_ <? _); [by eexists _, _|by apply Hrec].
  - destruct (max <=? _); [by eexists _, _|by apply Hrec].
Qed.

(** * Lines *)

Definition is_rubout (c : Z) : bool := (c =? 8) || (c =? 0x7F).

(** What is left of a text, read from its end: each rub-out takes the character before it
    that is still there. *)
Fixpoint survivors (l : list Z) (skip : nat) : list Z :=
  match l with
  | [] => []
  | c :: l' => if is_rubout c then survivors l' (S skip) else match skip with O => c :: survivors l' O | S n => survivors l' n end
  end.
Definition edited (t : list Z) : list Z := rev (survivors (rev t) 0).

(** What is echoed while [n] characters stand on the line. *)
Fixpoint echoes (n : Z) (t : list Z) : list Z :=
  match t with
  | [] => []
  | c :: t' => if is_rubout c then (if 0 <? n then [8; 32; 8] ++ echoes (n - 1) t' else echoes n t') else c :: echoes (n + 1) t'
  end.

Definition edit (kbuf : list Z) (c : Z) : list Z := if is_rubout c then take (length kbuf - 1) kbuf else kbuf ++ [c].

Lemma edit_fold t : forall n, take (length (foldl edit [] t) - n) (foldl edit [] t) = rev (survivors (rev t) n).
Proof.
  induction t as [|c t IH] using rev_ind; intros n; [by destruct n|]. rewrite rev_app_distr, foldl_snoc. cbn [rev app survivors]. set (k := foldl edit [] t) in *. unfold edit. destruct (is_rubout c).
  - rewrite <- IH, take_take, length_take. f_equal. lia.
  - rewrite length_app. cbn [length]. destruct n as [|n].
    + rewrite take_ge by (rewrite length_app; cbn; lia). cbn [rev]. rewrite <- IH, Nat.sub_0_r. f_equal. by rewrite take_ge.
    + rewrite <- IH. rewrite take_app_le by lia. f_equal. lia.
Qed.
Lemma edit_edited t : foldl edit [] t = edited t.
Proof. unfold edited. rewrite <- edit_fold, Nat.sub_0_r. by rewrite take_ge. Qed.

Lemma line_key_edit max c kbuf : len kbuf < max -> (line_key max c kbuf).1 = edit kbuf c.
Proof.
  intros H. unfold line_key, edit. change ((c =? 8) || (c =? 0x7F)) with (is_rubout c). destruct (is_rubout c).
  - destruct (Z.ltb_spec 0 (len kbuf)); [done|]. destruct kbuf; [done|cbn in *; lia].
  - by destruct (Z.ltb_spec (len kbuf) max); [|lia].
Qed.
Lemma line_key_echo max c kbuf t : (line_key max c kbuf).2 ++ echoes (len (edit kbuf c)) t = echoes (len kbuf) (c :: t).
Proof.
  unfold line_key, edit. cbn [echoes]. change ((c =? 8) || (c =? 0x7F)) with (is_rubout c). destruct (is_rubout c).
  - destruct (Z.ltb_spec 0 (len kbuf)); cbn [snd].
    + do 2 f_equal. rewrite length_take. lia.
    + destruct kbuf; [done|cbn in *; lia].
  - cbn [snd app]. rewrite length_app. do 2 f_equal. cbn. lia.
Qed.

Lemma getchar_pending b c l : kbd_ok b -> Keyboard.pending (Keyboard.kbd_buffer b) = c :: l ->
  exists b', Keyboard.getchar_poll b = (c, b') /\ kbd_ok b' /\ Keyboard.pending (Keyboard.kbd_buffer b') = l.
Proof.
  intros [Hb Hk] Hp. unfold Keyboard.getchar_poll. pose proof (Keyboard.ring_get_spec _ Hb) as Hg. destruct (Keyboard.ring_get _) as [[x r]|]; [|congruence].
  destruct Hg as [E Hr]. rewrite E in Hp. injection Hp as <- <-. by exists (Keyboard.set_buffer r b).
Qed.

(** A character of a line: not its end, and not a null. *)
Definition in_line (c : Z) : Prop := c <> 0 /\ c <> LF /\ c <> CR.

Lemma line_loop_run max e rest t : e = LF \/ e = CR -> Forall in_line t -> forall fuel kbuf s,
  kbd_ok (skb s) -> Keyboard.pending (Keyboard.kbd_buffer (skb s)) = t ++ e :: rest -> (length t < fuel)%nat -> len kbuf + len t < max ->
  exists b, kbd_ok b /\ Keyboard.pending (Keyboard.kbd_buffer b) = rest /\
    line_loop fuel max kbuf s = Some ((true, foldl edit kbuf t ++ [LF]), with_scon (scon s ++ echoes (len kbuf) t ++ [LF]) (with_skb b s)).
Proof.
  intros He Ht. induction Ht as [|c t Hc Ht IH]; intros [|fuel] kbuf s Hok Hp Hf Hr; cbn [length] in Hf, Hr; try lia; cbn [line_loop app] in *; unfold bind at 1, getchar.
  - destruct (getchar_pending _ _ _ Hok Hp) as (b & -> & Hb & Hpb). exists b. split; [done|]. split; [done|].
    assert ((e =? 0) = false /\ (if e =? CR then LF else e) = LF) as [-> ->] by (by destruct He as [-> | ->]).
    unfold line_key. change ((LF =? 8) || (LF =? 0x7F)) with false. cbn match. destruct (Z.ltb_spec (len kbuf) max); [|lia]. done.
  - destruct (getchar_pending _ _ _ Hok Hp) as (b & -> & Hb & Hpb). destruct Hc as (Hc0 & Hc1 & Hc2). rewrite (proj2 (Z.eqb_neq c 0)), (proj2 (Z.eqb_neq c CR)) by done.
    pose proof (line_key_edit max c kbuf ltac:(lia)) as Ek. pose proof (line_key_echo max c kbuf t) as Ee. destruct (line_key max c kbuf) as [k echo]. cbn [fst snd] in *. subst k.
    unfold bind, putchars. rewrite (proj2 (Z.eqb_neq c LF)) by done. set (s1 := with_scon _ _).
    destruct (IH fuel (edit kbuf c) s1) as (b' & Hb' & Hpb' & E); [done|done|lia| |].
    { unfold edit. destruct (is_rubout c); [rewrite length_take|rewrite length_app; cbn]; lia. }
    exists b'. split; [done|]. split; [done|]. rewrite E. unfold s1. cbn [scon with_scon with_skb foldl]. rewrite <- Ee, <- !app_assoc. done.
Qed.

(** A line is what its typist left of it.  When the keyboard's ring holds a text and then
    Enter, a read of the line ends at once, whatever comes behind stays in the ring, and what
    the reader gets is the text with every rub-out and the character it took out left away,
    and a newline; the characters were echoed as they came. *)
Theorem stdin_line_correct ubuf max cr3 rsp t e rest s :
  kbd_ok (skb s) -> Keyboard.pending (Keyboard.kbd_buffer (skb s)) = t ++ e :: rest -> e = LF \/ e = CR -> Forall in_line t -> len t < max ->
  exists b, kbd_ok b /\ Keyboard.pending (Keyboard.kbd_buffer b) = rest /\
    stdin_read_line ubuf max [] cr3 rsp s =
    (restore cr3 rsp ;; deliver ubuf (len (edited t ++ [LF])) (edited t ++ [LF])) (with_scon (scon s ++ echoes 0 t ++ [LF]) (with_skb b s)).
Proof.
  intros Hok Hp He Ht Hm. assert (length t < S (ready (skb s)))%nat as Hf by (unfold ready; rewrite Hp, length_app; lia).
  destruct (line_loop_run max e rest t He Ht (S (ready (skb s))) [] s Hok Hp Hf ltac:(cbn; lia)) as (b & Hb & Hpb & E). exists b. split; [done|]. split; [done|].
  unfold stdin_read_line, bind at 1, get, bind at 1. rewrite E, edit_edited. done.
Qed.

(** ** From the keys *)

Lemma typeable_line c layout : Keyboard.typeable layout c -> c <> CR.
Proof.
  intros [_ [[sh sc] H]] ->. unfold Keyboard.find_key, Keyboard.layout_table in H. destruct (layout =? 0); vm_compute in H; done.
Qed.

Lemma irq_ok b k (st : kst) : kbd_ok k -> kbd_ok (Keyboard.irq b (k, st)).1.
Proof.
  intros [Hb Hk]. unfold Keyboard.irq, Keyboard.keyboard_irq_handler. cbn [fst snd Keyboard.i8042 Keyboard.set_i8042].
  match goal with |- context [Keyboard.scancode_to_ascii b ?x] => pose proof (scancode_rings b x) as H; destruct (Keyboard.scancode_to_ascii b x) as [c k1] end.
  destruct H as (E1 & _ & _ & E4). cbn in E1, E4.
  assert (kbd_ok k1) as [Hb1 Hk1] by (split; [by rewrite E1|]; destruct E4 as [-> |[_ [kc ->]]]; [done|by apply Keyboard.ring_put_spec]).
  destruct (negb (truthy c)); [done|]. destruct (_ && _); [done|]. destruct (_ && _); [done|]. split; [|done]. by apply Keyboard.ring_put_spec.
Qed.
Lemma irqs_ok l k (st : kst) : kbd_ok k -> kbd_ok (Keyboard.irqs l (k, st)).1.
Proof. revert k st. induction l as [|b l IH]; intros k st H; [done|]. cbn [Keyboard.irqs]. pose proof (irq_ok b k st H) as Hb. destruct (Keyboard.irq b (k, st)) as [k1 st1]. by apply IH. Qed.

(** C40: from the keys to the reader.  A text typed on the keyboard in either layout, with
    whatever rub-outs, and then Enter: the interrupt handler queues it and the next read of a
    line delivers what its typist left of it.  The keyboard is at rest with nothing queued, and
    the text fits the queue and the reader's buffer. *)
Theorem typed_line_is_read ubuf max cr3 rsp t s k0 :
  Keyboard.at_rest (skb s) -> kbd_ok (skb s) -> Keyboard.pending (Keyboard.kbd_buffer (skb s)) = [] ->
  Forall (Keyboard.typeable (Keyboard.keyboard_layout (skb s))) t -> LF ∉ t -> len t + 1 <= Keyboard.KBD_BUFFER_SIZE - 1 -> len t < max ->
  let typed := with_skb (Keyboard.irqs (Keyboard.typing (Keyboard.keyboard_layout (skb s)) (t ++ [LF])) (skb s, k0)).1 s in
  exists b, kbd_ok b /\ Keyboard.pending (Keyboard.kbd_buffer b) = [] /\
    stdin_read_line ubuf max [] cr3 rsp typed =
    (restore cr3 rsp ;; deliver ubuf (len (edited t ++ [LF])) (edited t ++ [LF])) (with_scon (scon s ++ echoes 0 t ++ [LF]) (with_skb b s)).
Proof.
  intros Hr Hok Hp Ht Hn Hl Hm typed. assert (Forall (Keyboard.typeable (Keyboard.keyboard_layout (skb s))) (t ++ [LF])) as Ht'.
  { apply Forall_app. split; [done|]. constructor; [|constructor]. split; [done|]. unfold Keyboard.find_key, Keyboard.layout_table. by destruct (_ =? 0). }
  destruct (Keyboard.type_text _ (t ++ [LF]) (skb s) k0 Hr eq_refl Ht' (proj1 Hok)) as (A & B & E); [rewrite Hp, length_app; cbn; lia|]. rewrite Hp in E. cbn [app] in E.
  assert (kbd_ok (skb typed)) as Hok' by (by apply irqs_ok).
  assert (Forall in_line t) as Hin.
  { apply Forall_forall. intros c Hc. apply (proj1 (Forall_forall _ _) Ht) in Hc as Hty. split_and!.
    - intros ->. by destruct Hty.
    - intros ->. apply Hn. by apply list_elem_of_In.
    - by eapply typeable_line. }
  destruct (stdin_line_correct ubuf max cr3 rsp t LF [] typed Hok' E ltac:(by left) Hin Hm) as (b & Hb & Hpb & Eb). by exists b.
Qed.

Lemma line_loop_step fuel max kbuf s c b : Keyboard.getchar_poll (skb s) = (c, b) -> c <> 0 ->
  line_loop (S fuel) max kbuf s =
  let d := if c =? CR then LF else c in let '(k, e) := line_key max d kbuf in let s1 := with_scon (scon s ++ e) (with_skb b s) in
  if d =? LF then Some ((true, k), s1) else line_loop fuel max k s1.
Proof.
  intros E Hc. cbn [line_loop]. unfold bind at 1, getchar. rewrite E, (proj2 (Z.eqb_neq c 0) Hc). cbn zeta. destruct (line_key _ _ _) as [k e]. unfold bind, putchars. by destruct (_ =? LF).
Qed.

(** A line that does not fit is cut, and its newline with it: the read of a full line does not
    end in one, and the next read starts behind it. *)
Lemma long_line_loses_enter ubuf cr3 rsp s :
  kbd_ok (skb s) -> Keyboard.pending (Keyboard.kbd_buffer (skb s)) = [97; 98; LF] ->
  exists b, Keyboard.pending (Keyboard.kbd_buffer b) = [] /\
  stdin_read_line ubuf 1 [] cr3 rsp s = (restore cr3 rsp ;; deliver ubuf 1 [97]) (with_scon (scon s ++ [97; 98; LF]) (with_skb b s)).
Proof.
  intros Hok Hp. assert (exists n, ready (skb s) = S (S (S n))) as [n Hn] by (exists (ready (skb s) - 3)%nat; unfold ready; rewrite Hp; cbn; lia).
  destruct (getchar_pending _ _ _ Hok Hp) as (b1 & E1 & Hb1 & Hp1). destruct (getchar_pending _ _ _ Hb1 Hp1) as (b2 & E2 & Hb2 & Hp2).
  destruct (getchar_pending _ _ _ Hb2 Hp2) as (b3 & E3 & _ & Hp3). exists b3. split; [done|].
  unfold stdin_read_line, bind at 1, get. rewrite Hn. unfold bind at 1.
  rewrite (line_loop_step _ _ _ _ _ _ E1) by done. cbn -[line_loop]. rewrite (line_loop_step _ _ _ (with_scon _ (with_skb b1 s)) _ _ E2) by done. cbn -[line_loop]. rewrite (line_loop_step _ _ _ (with_scon _ (with_skb b2 _)) _ _ E3) by done. cbn.
  by rewrite <- !app_assoc.
Qed.
End Stdin.
