(* ===== verification/SysIo.v ===== *)
(** The system calls that move data and open, close and duplicate descriptors
    (kernel/syscall.c: SYS_WRITE, SYS_READ, SYS_OPEN, SYS_CLOSE, SYS_LSEEK, SYS_PIPE, SYS_DUP,
    SYS_DUP2, the sockets, SYS_FSIZE, SYS_STAT, SYS_FSTAT, SYS_RENAME, SYS_GETDENTS,
    SYS_CHDIR, SYS_GETCWD, SYS_MKDIR, SYS_UNLINK). *)
From Stdlib Require Import ZArith Lia String.
From S2P Require Import Prelude Packed Phys Paging Process Descr SysFile.
From S2P Require Ext2 Vfs Pipe Signal NetBase Udp NetPoll Keyboard Path Reap Spawn Format.
#[local] Open Scope sys_scope.

Definition is_pipe (h : Z) : bool := truthy (h .& UFD_PIPE_FLAG).
Definition is_sock (h : Z) : bool := truthy (h .& UFD_SOCK_FLAG).

Section SysIo.
Context {F : Type} `{FO : Vfs.FsOps F} `{BH : Ext2.BlockHeap} {NH : NetBase.NetHeap} {PL : NetBase.Poll}.
Implicit Types (s : sys F).
Local Notation fail := (SysFile.fail (F := F)).

(** * Reading and writing *)

(** A buffer of the caller through a block of the kernel heap. *)
Definition from_user (a n : Z) (k : list Z -> M F Z) : M F outcome :=
  let* b := kmalloc n in
  match b with
  | None => fail
  | Some _ =>
      let* r := user_read a n in
      if fst r =? 0 then let* n := k (snd r) in value n else fail
  end.

Definition sys_write (a1 a2 a3 : Z) : M F outcome :=
  let fd := s32 a1 in let len := s32 a3 in
  if (len <? 0) || negb (Path.user_ptr_ok a2 len) then fail else
  let* h := gets (ufd_lookup fd) in
  match h with
  | Some h =>
      let n := Z.min len COPY_MAX in
      if is_pipe h then
        if negb (truthy (UFD_PIPE_IS_WRITE h)) then fail
        else from_user a2 n (fun b => on_pipes (Pipe.pipe_write (UFD_PIPE_ID h) b n))
      else if is_sock h then from_user a2 n (fun b => on_net (NetPoll.nsock_send (UFD_SOCK_ID h) b))
      else
        let* off := gets (ufd_offset_of fd) in
        let o := default 0 off in
        from_user a2 n (fun b =>
          let* r := on_vfs (Vfs.vfs_pwrite h b o) in
          (if 0 <? r then mod_kst (set_fd_offset fd (u32 (o + r))) else ret tt) ;; ret r)
  | None =>
      if (fd =? 1) || (fd =? 2) then
        let* r := user_read a2 len in
        let whole := if fst r =? 0 then len else Z.of_nat (length (snd r)) / 128 * 128 in
        putchars (take (Z.to_nat whole) (snd r)) ;; value whole
      else fail
  end.

Definition sys_print (a1 : Z) : M F outcome :=
  if negb (Path.user_str_ok a1) then fail else
  let* r := user_str a1 512 in
  if fst r =? 0 then putchars (snd r) ;; value 0 else fail.

(** One pass of pipe_read's loop, from the call or after a park. *)
Definition read_pipe (ubuf id n cr3 rsp : Z) : M F outcome :=
  let* self := gets get_cur_proc in
  fun s =>
    match Pipe.pipe_read_iter id n self (pipe_view s) with
    | Pipe.ReadDone got b st => (restore cr3 rsp ;; deliver ubuf got b) (pipe_absorb st s)
    | Pipe.ReadPark st => Some (Wait (WPipe ubuf id n cr3 rsp), pipe_absorb st s)
    end.

Definition sys_read (a1 a2 a3 : Z) : M F outcome :=
  let fd := s32 a1 in let count := s32 a3 in
  if (count <? 0) || negb (Path.user_ptr_ok a2 count) then fail else
  let count := Z.min count COPY_MAX in
  let* s := get in
  let cr3 := user_cr3 (sk s) in let rsp := user_rsp (sk s) in
  match ufd_lookup fd (sk s) with
  | None =>
      if fd =? 0 then
        if count =? 0 then value 0 else
        let* b := kmalloc count in
        match b with
        | None => fail
        | Some _ =>
            let raw := match pstore (sk s) !! get_cur_proc (sk s) with Some p => truthy (tty_raw (p_text p)) | None => false end in
            if raw then stdin_read_raw a2 count [] cr3 rsp else stdin_read_line a2 count [] cr3 rsp
        end
      else fail
  | Some h =>
      if is_pipe h && truthy (UFD_PIPE_IS_WRITE h) then fail else
      let* b := kmalloc count in
      match b with
      | None => fail
      | Some _ =>
          if is_pipe h then
            if Pipe.bad_pipe (UFD_PIPE_ID h) (pipe_view s) || (count <=? 0) then fail
            else read_pipe a2 (UFD_PIPE_ID h) count cr3 rsp
          else if is_sock h then
            let* r := on_net (fun n => let '(got, b, n) := NetPoll.nsock_recv (UFD_SOCK_ID h) count n in ((got, b), n)) in
            deliver a2 (fst r) (snd r)
          else
            let o := default 0 (ufd_offset_of fd (sk s)) in
            let* r := on_vfs (Vfs.vfs_pread h count o) in
            let '(n, b) := r in
            if 0 <? n then
              let* e := user_write a2 (take (Z.to_nat n) b) in
              let n := if e =? 0 then n else -1 in
              (if 0 <? n then mod_kst (set_fd_offset fd (u32 (o + n))) else ret tt) ;; value n
            else value n
      end
  end.

(** * Descriptors *)

Definition sys_open (a1 a2 : Z) : M F outcome :=
  let flags := s32 a2 in
  with_path a1 (fun path =>
    let* internal := on_vfs (Vfs.vfs_open path flags) in
    if internal <? 0 then fail else
    let* ufd := on_kst (ufd_alloc internal) in
    if ufd <? 0 then let* _ := on_vfs (Vfs.vfs_close internal) in fail else
    (if truthy (flags .& O_APPEND) then
       let* sz := on_vfs (Vfs.vfs_fsize internal) in
       mod_kst (set_fd_offset ufd (if 0 <? s32 sz then s32 sz else 0))
     else ret tt) ;;
    value ufd).

(** The end of a descriptor's use of its handle. *)
Definition close_handle (h : Z) : M F Z :=
  if is_pipe h then close_pipe (UFD_PIPE_ID h) (UFD_PIPE_IS_WRITE h) ;; ret 0
  else if is_sock h then let* _ := on_net (NetPoll.nsock_close (UFD_SOCK_ID h)) in ret 0
  else on_vfs (Vfs.vfs_close h).

Definition sys_close (a1 : Z) : M F outcome :=
  let* h := gets (ufd_lookup (s32 a1)) in
  match h with
  | None => fail
  | Some h => mod_kst (ufd_release (s32 a1)) ;; let* r := close_handle h in value r
  end.

Definition sys_lseek (a1 a2 a3 : Z) : M F outcome :=
  let fd := s32 a1 in
  let* h := gets (ufd_lookup fd) in
  let* off := gets (ufd_offset_of fd) in
  match h, off with
  | Some h, Some off =>
      if truthy (h .& (UFD_PIPE_FLAG .| UFD_SOCK_FLAG)) then fail else
      let whence := s32 a3 in
      let store base := let noff := Format.s64 (base + Format.s64 a2) in if noff <? 0 then fail else mod_kst (set_fd_offset fd (u32 noff)) ;; value (u32 noff) in
      if whence =? 0 then store 0
      else if whence =? 1 then store off
      else if whence =? 2 then let* sz := on_vfs (Vfs.vfs_fsize h) in store (if 0 <? s32 sz then s32 sz else 0)
      else fail
  | _, _ => fail
  end.

Definition sys_pipe (a1 : Z) : M F outcome :=
  if negb (Path.user_ptr_ok a1 8) then fail else
  let* id := on_pipes Pipe.pipe_new in
  if id <? 0 then fail else
  let* rfd := on_kst (ufd_alloc (UFD_PIPE_MAKE id false)) in
  let* wfd := on_kst (ufd_alloc (UFD_PIPE_MAKE id true)) in
  let undo :=
    (if 0 <=? rfd then mod_kst (ufd_release rfd) else ret tt) ;;
    (if 0 <=? wfd then mod_kst (ufd_release wfd) else ret tt) ;;
    close_pipe id 0 ;; close_pipe id 1 ;; fail in
  if (rfd <? 0) || (wfd <? 0) then undo else
  let* r := user_write a1 (le_bytes 4 (u32 rfd) ++ le_bytes 4 (u32 wfd)) in
  if r =? 0 then value 0 else undo.

Definition sys_dup2 (a1 a2 : Z) : M F outcome :=
  let oldfd := s32 a1 in let newfd := s32 a2 in
  let* h := gets (ufd_lookup oldfd) in
  match h with
  | None => fail
  | Some internal =>
      if (newfd <? 0) || (PROC_MAX_FDS <=? newfd) then fail else
      if newfd =? oldfd then value newfd else
      let* old := gets (ufd_lookup newfd) in
      (match old with
       | Some old =>
           (if is_pipe old then close_pipe (UFD_PIPE_ID old) (UFD_PIPE_IS_WRITE old)
            else let* _ := on_vfs (Vfs.vfs_close old) in ret tt) ;;
           mod_kst (ufd_release newfd)
       | None => ret tt
       end) ;;
      (if is_pipe internal then
         incref_pipe (UFD_PIPE_ID internal) (UFD_PIPE_IS_WRITE internal) ;;
         mod_kst (fun k => upd (fd_owner k) (take_fd newfd internal 0) k)
       else
         let* off := gets (ufd_offset_of oldfd) in
         mod_kst (fun k => upd (fd_owner k) (fun p => Reap.clear_fd oldfd (take_fd newfd internal (default 0 off) p)) k)) ;;
      value newfd
  end.

Definition sys_dup (a1 : Z) : M F outcome :=
  let oldfd := s32 a1 in
  let* h := gets (ufd_lookup oldfd) in
  match h with
  | None => fail
  | Some internal =>
      let* newfd := on_kst (ufd_alloc internal) in
      if newfd <? 0 then fail else
      (if is_pipe internal then incref_pipe (UFD_PIPE_ID internal) (UFD_PIPE_IS_WRITE internal)
       else if negb (is_sock internal) then on_vfs (Vfs.vfs_dup internal)
       else ret tt) ;;
      let* off := gets (ufd_offset_of oldfd) in
      mod_kst (set_fd_offset newfd (default 0 off)) ;; value newfd
  end.

(** * Sockets *)

Definition with_sock (fd : Z) (k : Z -> M F outcome) : M F outcome :=
  let* h := gets (ufd_lookup (s32 fd)) in
  match h with Some h => if is_sock h then k (UFD_SOCK_ID h) else fail | None => fail end.

(** A descriptor for a socket, which is closed when there is none. *)
Definition install_sock (sk : Z) : M F outcome :=
  if sk <? 0 then fail else
  let* ufd := on_kst (ufd_alloc (UFD_SOCK_MAKE sk)) in
  if ufd <? 0 then let* _ := on_net (NetPoll.nsock_close sk) in fail else value ufd.

Definition sys_socket (a2 : Z) : M F outcome := let* sk := on_net (NetPoll.nsock_create (s32 a2)) in install_sock sk.
Definition sys_connect (a1 a2 a3 : Z) : M F outcome :=
  with_sock a1 (fun k => let* r := on_net (NetPoll.nsock_connect k (u32 a2) (u16 a3)) in value r).
Definition sys_bind (a1 a3 : Z) : M F outcome := with_sock a1 (fun k => let* r := on_net (NetPoll.nsock_bind k (u16 a3)) in value r).
Definition sys_listen (a1 : Z) : M F outcome := with_sock a1 (fun k => let* r := on_net (NetPoll.nsock_listen k) in value r).
Definition sys_accept (a1 : Z) : M F outcome := with_sock a1 (fun k => let* cs := on_net (NetPoll.nsock_accept k) in install_sock cs).

Definition sys_sendto (a1 a2 a3 a5 a6 : Z) : M F outcome :=
  let len := s32 a3 in
  if (len <? 0) || negb (Path.user_ptr_ok a2 len) then fail else
  with_sock a1 (fun k => from_user a2 (Z.min len COPY_MAX) (fun b => on_net (Udp.nsock_sendto k b (u32 a5) (u16 a6)))).

Definition sys_recvfrom (a1 a2 a3 a5 a6 : Z) : M F outcome :=
  let len := s32 a3 in
  if (len <? 0) || negb (Path.user_ptr_ok a2 len) then fail else
  with_sock a1 (fun k =>
    let* b := kmalloc (Z.min len COPY_MAX) in
    match b with
    | None => fail
    | Some _ =>
        let* r := on_net (Udp.nsock_recvfrom k (Z.min len COPY_MAX)) in
        match r with
        | None => fail
        | Some (data, ip, port) =>
            let n := Z.of_nat (length data) in
            let* o := deliver a2 n data in
            match o with
            | Ret n =>
                (if 0 <? n then
                   (if truthy a5 && Path.user_ptr_ok a5 4 then let* _ := user_write a5 (le_bytes 4 ip) in ret tt else ret tt) ;;
                   (if truthy a6 && Path.user_ptr_ok a6 4 then let* _ := user_write a6 (le_bytes 4 port) in ret tt else ret tt)
                 else ret tt) ;; value n
            | w => ret w
            end
        end
    end).

(** * Files and names *)

Definition S_IFDIR : Z := 0x4000 .| 493.
Definition S_IFREG : Z := 0x8000 .| 420.
Definition stat_record (size isdir : Z) : list Z := le_bytes 4 (u32 size) ++ le_bytes 4 (if truthy isdir then S_IFDIR else S_IFREG) ++ le_bytes 4 0.

Definition sys_fsize (a1 : Z) : M F outcome :=
  let* h := gets (ufd_lookup (s32 a1)) in
  match h with None => fail | Some h => let* r := on_vfs (Vfs.vfs_fsize h) in value (s32 r) end.

Definition sys_stat (a1 a2 : Z) : M F outcome :=
  if negb (Path.user_str_ok a1) || negb (Path.user_ptr_ok a2 12) then fail else
  with_path a1 (fun path =>
    let* r := on_vfs (Vfs.vfs_stat path) in
    let '(e, size, isdir) := r in
    if negb (e =? 0) then fail else
    let* w := user_write a2 (stat_record size isdir) in value (if w =? 0 then 0 else -1)).

Definition sys_fstat (a1 a2 : Z) : M F outcome :=
  if negb (Path.user_ptr_ok a2 12) then fail else
  let* h := gets (ufd_lookup (s32 a1)) in
  match h with
  | None => fail
  | Some h =>
      let* r := (if truthy (h .& (UFD_PIPE_FLAG .| UFD_SOCK_FLAG)) then ret (0, 0, 0) else on_vfs (Vfs.vfs_fstat h)) in
      let '(e, size, isdir) := r in
      if negb (e =? 0) then fail else
      let* w := user_write a2 (stat_record size isdir) in value (if w =? 0 then 0 else -1)
  end.

Definition sys_rename (a1 a2 : Z) : M F outcome :=
  if negb (Path.user_str_ok a1) || negb (Path.user_str_ok a2) then fail else
  with_path a1 (fun oldp => with_path a2 (fun newp =>
    let* r := on_vfs (Vfs.vfs_stat oldp) in
    if negb (fst (fst r) =? 0) then fail else
    on_vfs (Vfs.vfs_rename oldp newp) ;;
    let* r := on_vfs (Vfs.vfs_stat newp) in value (if fst (fst r) =? 0 then 0 else -1))).

(** A record of 68 bytes: the name ends with a zero, what is behind it is what was in the
    record before. *)
Definition fill_name (old name : list Z) : list Z := let n := take 63 name ++ [0] in n ++ drop (length n) old.

Fixpoint getdents_loop (fuel : nat) (fd ubuf count : Z) (rec : list Z) : M F Z :=
  match fuel with
  | O => ret count
  | S fuel' =>
      let* de := on_vfs (Vfs.vfs_readdir fd) in
      match de with
      | None => ret count
      | Some e =>
          let rec := fill_name rec (Ext2.d_name e) in
          let* r := user_write (u64 (ubuf + count * 68)) (rec ++ le_bytes 4 (Ext2.d_type e)) in
          if r =? 0 then getdents_loop fuel' fd ubuf (count + 1) rec else ret count
      end
  end.

(** [stale] is what the stack holds where the record lies.  The loop reads one entry more than
    it delivers. *)
Definition sys_getdents (stale : list Z) (a1 a2 a3 : Z) : M F outcome :=
  with_path a1 (fun path =>
    let max := s32 a3 in
    if max <=? 0 then fail else
    let max := Z.min max 256 in
    if negb (Path.user_ptr_ok a2 (max * 68)) then fail else
    let* fd := on_vfs (Vfs.vfs_open path 0) in
    if fd <? 0 then fail else
    let* n := getdents_loop (Z.to_nat max) fd a2 0 stale in
    (if n =? max then let* _ := on_vfs (Vfs.vfs_readdir fd) in ret tt else ret tt) ;;
    let* _ := on_vfs (Vfs.vfs_close fd) in value n).

Definition sys_chdir (a1 : Z) : M F outcome :=
  if negb (Path.user_str_ok a1) then fail else
  let* cur := gets (fun k => pstore k !! get_cur_proc k) in
  match cur with
  | None => fail
  | Some _ =>
      with_path a1 (fun path =>
        let* d := on_vfs (Vfs.vfs_isdir path) in
        if negb (truthy d) then fail else
        mod_kst (fun k => upd (get_cur_proc k) (on_text (set_cwd (Spawn.strncpy (Path.MAX_PATH - 1) path))) k) ;; value 0)
  end.

Definition sys_getcwd (a1 a2 : Z) : M F outcome :=
  let* cur := gets (fun k => pstore k !! get_cur_proc k) in
  match cur with
  | None => fail
  | Some p =>
      let dir := match cwd (p_text p) with [] => [Path.SLASH] | d => d end in
      let len := len dir + 1 in
      if (s32 a2 <? len) || negb (Path.user_ptr_ok a1 len) then fail else
      let* r := user_write a1 (dir ++ [0]) in value (if r =? 0 then len - 1 else -1)
  end.

(** Everything before the last slash, or the root. *)
Definition parent_path (path : list Z) : list Z :=
  match list_find (fun c => c = Path.SLASH) (rev path) with
  | Some (i, _) => if (length path - S i =? 0)%nat then take 1 path else take (length path - S i) path
  | None => take 1 path
  end.

Definition sys_mkdir (a1 : Z) : M F outcome :=
  with_path a1 (fun path =>
    let* d := on_vfs (Vfs.vfs_isdir (parent_path path)) in
    if negb (truthy d) then fail else let* r := on_vfs (Vfs.vfs_mkdir path) in value r).

Definition sys_unlink (a1 : Z) : M F outcome := with_path a1 (fun path => let* r := on_vfs (Vfs.vfs_unlink path) in value r).
End SysIo.
