(* ===== verification/Syscall.v ===== *)
(** The system call dispatcher (kernel/syscall.c: syscall_handler), with the cases that work on
    processes, and what a parked call goes on with.

    SYS_EXEC, SYS_EXECVE, SYS_DLOPEN and SYS_DLSYM (the ELF loader), SYS_TIME and
    SYS_GETTIMEOFDAY (the clock chip) and SYS_GETPROCS are not modelled, nor are the kernel's own messages on
    the console. *)
From Stdlib Require Import ZArith Lia String.
From S2P Require Import Prelude Packed Phys Paging Process Descr SysFile SysIo.
From S2P Require Ext2 Vfs Pipe Signal NetBase Udp NetPoll Keyboard Path Reap Spawn Futex Mmap Format.
#[local] Open Scope sys_scope.

Definition POLLIN : Z := 1.
Definition POLLOUT : Z := 4.
Definition POLLNVAL : Z := 0x20.
Definition TTY_CANON : Z := 0.
Definition TTY_RAW : Z := 1.
Definition MAP_ANONYMOUS : Z := 0x20.
Definition SHARED_LIBC_BASE : Z := 0x30000000.

Section Syscall.
Context {F : Type} `{FO : Vfs.FsOps F} `{BH : Ext2.BlockHeap} {NH : NetBase.NetHeap} {PL : NetBase.Poll}
  {KH : Spawn.KernelHeap} {FR : Mmap.FileReader}.
Implicit Types (s : sys F).
Local Notation fail := (SysFile.fail (F := F)).
Local Notation value := (SysFile.value (F := F)).

Definition with_cur (k : proc -> M F outcome) : M F outcome :=
  let* cur := gets (fun k => pstore k !! get_cur_proc k) in match cur with None => fail | Some p => k p end.
(** A call of the process code. *)
Definition process_call (f : kst -> Z * kst) : M F outcome := let* r := with_calls f in value r.

(** * Processes *)

(** The caller's descriptors are closed before it becomes a zombie; it never returns. *)
Definition sys_exit (a1 : Z) : M F outcome :=
  let* a := gets get_cur_proc in
  (if truthy a then
     mod_kst (upd a (on_sched (set_exit_code (s32 a1)))) ;;
     with_calls (fun k => (tt, Reap.close_proc_fds a k)) ;;
     mod_kst (fun k => wake_waiters a (upd a (on_sched (set_state PROC_ZOMBIE)) k))
   else ret tt) ;;
  ret (Wait WGone).

Definition sys_getpid : M F outcome :=
  let* p := gets (fun k => pstore k !! get_cur_proc k) in value (match p with Some p => pid p | None => 0 end).
Definition sys_getppid : M F outcome :=
  let* p := gets (fun k => pstore k !! get_cur_proc k) in value (match p with Some p => ppid p | None => 0 end).

(** [p->program_break = b] *)
Definition set_brk (b : Z) (k : kst) : kst := upd (fd_owner k) (on_mm (set_program_break b)) k.

Definition sys_sbrk (a1 : Z) : M F outcome :=
  let* cur := gets (fun k => pstore k !! fd_owner k) in
  match cur with
  | None => fail
  | Some p =>
      let inc := Format.s64 a1 in
      let old_brk := program_break (p_mm p) in
      if inc =? 0 then value old_brk else
      if inc <? 0 then
        let dec := u64 (- inc) in
        mod_kst (set_brk (if u64 (old_brk - heap_start (p_mm p)) <? dec then heap_start (p_mm p) else u64 (old_brk - dec))) ;; value old_brk
      else
        let new_brk := u64 (old_brk + u64 inc) in
        if SHARED_LIBC_BASE <? new_brk then fail else mod_kst (set_brk new_brk) ;; value old_brk
  end.

Definition wait_result (ubuf wpid options cr3 rsp : Z) (r : option (Z * option Z)) : M F outcome :=
  match r with
  | None => ret (Wait (WChild wpid options ubuf cr3 rsp))
  | Some (r, code) =>
      if (0 <? r) && truthy ubuf then
        if negb (Path.user_ptr_ok ubuf 4) then fail else
        let* _ := user_write ubuf (le_bytes 4 (u32 (default 0 code))) in value r
      else value r
  end.
Definition waited (w : Reap.wait_res) : option (Z * option Z) * kst :=
  match w with Reap.WReturn r code k => (Some (r, code), k) | Reap.WPark k => (None, k) end.

Definition sys_waitpid (a1 a2 a3 : Z) : M F outcome :=
  let* s := get in
  let* r := with_calls (fun k => waited (Reap.do_waitpid (s32 a1) (s32 a3) k)) in
  wait_result a2 (s32 a1) (s32 a3) (user_cr3 (sk s)) (user_rsp (sk s)) r.

Definition sys_futex (a1 a2 a3 : Z) : M F outcome :=
  let* s := get in
  let k := sk s in
  let* r := with_calls (fun k => waited (Futex.do_futex a1 (s32 a2) (u32 a3) k)) in
  match r with
  | Some (r, _) => value r
  | None => ret (Wait (WFutex (user_v2p (user_cr3 k) a1 (pm (kvm k))) (u32 a3) (user_cr3 k) (user_rsp k)))
  end.

Definition sys_ttymode (a1 : Z) : M F outcome :=
  with_cur (fun p =>
    if (a1 =? TTY_CANON) || (a1 =? TTY_RAW)
    then mod_kst (fun k => upd (get_cur_proc k) (on_text (set_tty_raw (u32 a1))) k) ;; value (tty_raw (p_text p)) else fail).

Definition sys_setfg (a1 : Z) : M F outcome :=
  let* p := gets (find_process (u32 a1)) in
  if negb (a1 =? 0) && negb (truthy p) then fail else mod_kst (set_g_foreground_pid (u32 a1)) ;; value 0.

Definition sys_sigreturn : M F outcome :=
  mod_kst Signal.do_sigreturn ;;
  let* f := gets syscall_frame in value (match f with Some f => f 14 | None => 0 end).

(** The handle and size of the file to map come from the descriptor. *)
Definition sys_mmap (a2 a3 a4 a5 a6 : Z) : M F outcome :=
  if truthy (s32 a4 .& MAP_ANONYMOUS) then process_call (Mmap.do_mmap a2 (s32 a3) 0 0 (u32 a6)) else
  let* h := gets (ufd_lookup (s32 a5)) in
  match h with
  | None => fail
  | Some h =>
      if is_pipe h then fail else
      let* sz := on_vfs (Vfs.vfs_fsize h) in process_call (Mmap.do_mmap a2 (s32 a3) h (u32 sz) (u32 a6))
  end.

(** * Sleeping *)

Definition sleep_result (rem r : Z) : M F outcome :=
  (if truthy rem && Path.user_ptr_ok rem 16 then let* _ := user_write rem (le_bytes 8 0 ++ le_bytes 8 0) in ret tt else ret tt) ;; value r.

(** One pass of the loop; [rem] is nanosleep's second argument, 0 for SYS_SLEEP. *)
Definition do_sleep_ms (deadline cr3 rsp rem : Z) : M F outcome :=
  let* self := gets get_cur_proc in
  let* p := gets (fun k => pstore k !! self) in
  let* late := gets (fun k => 0 <=? s32 (tick_count k - deadline)) in
  if late then restore cr3 rsp ;; sleep_result rem 0 else
  match p with
  | None => ret (Wait (WSleep deadline cr3 rsp rem))
  | Some q =>
      let w := WSleep deadline cr3 rsp rem in
      if Signal.signal_pending q then park_or_interrupt self w (restore cr3 rsp ;; sleep_result rem (- EINTR))
      else mod_kst (upd self (on_sched (fun c => set_state PROC_BLOCKED (set_wake_tick deadline (set_blocked_in_kernel 1 c))))) ;; ret (Wait w)
  end.
(** What the caller does first when the scheduler runs it again. *)
Definition woken : M F unit :=
  mod_kst (fun k => upd (get_cur_proc k) (on_sched (fun c =>
    let c := set_wake_tick 0 (set_blocked_in_kernel 0 c) in if state c =? PROC_BLOCKED then set_state PROC_RUN c else c)) k).

Definition sys_sleep (ms rem : Z) : M F outcome :=
  let* k := gets id in do_sleep_ms (u32 (tick_count k + ms)) (user_cr3 k) (user_rsp k) rem.

Definition sys_nanosleep (a1 a2 : Z) : M F outcome :=
  if negb (Path.user_ptr_ok a1 16) then fail else
  let* r := user_read a1 16 in
  if negb (fst r =? 0) then fail else
  let sec := Format.s64 (fld 8 0 (snd r)) in let nsec := Format.s64 (fld 8 8 (snd r)) in
  if (sec <? 0) || (nsec <? 0) || (1000000000 <=? nsec) then fail else
  let ms := u64 (u64 (sec * 1000) + (nsec + 999999) / 1000000) in
  sys_sleep (if 0xFFFFFFFF <? ms then 0xFFFFFFFF else ms) a2.

(** * Poll *)

Definition poll_bit (b : bool) (ev bit : Z) : Z := if truthy (ev .& bit) && b then bit else 0.
(** What is ready of one entry: the descriptor and the events asked for. *)
Definition revents s (e : Z * Z) : Z :=
  let '(fd, ev) := e in
  if fd <? 0 then 0 else
  match ufd_lookup fd (sk s) with
  | None =>
      if fd =? 0 then poll_bit (Keyboard.keyboard_has_input (skb s)) ev POLLIN
      else if (fd =? 1) || (fd =? 2) then poll_bit true ev POLLOUT
      else POLLNVAL
  | Some h =>
      if is_pipe h then
        let w := truthy (UFD_PIPE_IS_WRITE h) in
        poll_bit (negb w && truthy (Pipe.pipe_readable (UFD_PIPE_ID h) (pipe_view s))) ev POLLIN .| poll_bit w ev POLLOUT
      else if is_sock h then poll_bit (NetPoll.nsock_readable (UFD_SOCK_ID h) (sn s)) ev POLLIN .| poll_bit true ev POLLOUT
      else poll_bit true ev POLLIN .| poll_bit true ev POLLOUT
  end.
Definition pollfd_bytes s (e : Z * Z) : list Z := le_bytes 4 (u32 (fst e)) ++ le_bytes 2 (u16 (snd e)) ++ le_bytes 2 (revents s e).

(** One pass of the loop. *)
Definition poll_pass (ubuf : Z) (fds : list (Z * Z)) (timeout start cr3 rsp : Z) : M F outcome :=
  let* s := get in
  let n := len (filter (fun e => Is_true (truthy (revents s e))) fds) in
  let timed_out := (timeout =? 0) || ((0 <? timeout) && (0 <=? s32 (tick_count (sk s) - u32 (start + timeout)))) in
  if (0 <? n) || timed_out then
    restore cr3 rsp ;;
    (if 0 <? len fds then let* _ := user_write ubuf (concat (map (pollfd_bytes s) fds)) in ret tt else ret tt) ;; value n
  else
    match pstore (sk s) !! get_cur_proc (sk s) with
    | Some p => if Signal.signal_pending p then restore cr3 rsp ;; value (- EINTR)
                else on_net (fun n => (tt, NetBase.poll_net n)) ;; ret (Wait (WPoll ubuf fds timeout start cr3 rsp))
    | None => on_net (fun n => (tt, NetBase.poll_net n)) ;; ret (Wait (WPoll ubuf fds timeout start cr3 rsp))
    end.

Fixpoint parse_pollfds (n : nat) (b : list Z) : list (Z * Z) :=
  match n with O => [] | S n' => (s32 (fld 4 0 b), fld 2 4 b) :: parse_pollfds n' (drop 8 b) end.

Definition sys_poll (a1 a2 a3 : Z) : M F outcome :=
  let nfds := s32 a2 in
  if (nfds <? 0) || (64 <? nfds) then fail else
  if (0 <? nfds) && negb (Path.user_ptr_ok a1 (nfds * 8)) then fail else
  let* r := (if 0 <? nfds then user_read a1 (nfds * 8) else ret (0, [])) in
  if negb (fst r =? 0) then fail else
  let* k := gets id in
  poll_pass a1 (parse_pollfds (Z.to_nat nfds) (snd r)) (s32 a3) (tick_count k) (user_cr3 k) (user_rsp k).

Definition sys_readkey (a1 : Z) : M F outcome :=
  let* k := gets id in stdin_readkey (u32 a1) (u32 (tick_count k + u32 a1)) (user_cr3 k) (user_rsp k).

(** * The dispatcher *)

(** [None]: the call is not modelled. *)
Definition syscall_handler (stale : list Z) (no a1 a2 a3 a4 a5 a6 : Z) : option (M F outcome) :=
  match no with
  | 0 => Some (sys_exit a1)
  | 1 => Some (sys_write a1 a2 a3)
  | 2 => Some (sys_print a1)
  | 3 => Some (sys_open a1 a2)
  | 4 => Some (sys_read a1 a2 a3)
  | 5 => Some (sys_close a1)
  | 6 => Some sys_getpid
  | 7 => Some (sys_sbrk a1)
  | 8 => Some (sys_fsize a1)
  | 10 => Some (process_call Spawn.do_fork)
  | 11 => Some (sys_waitpid a1 a2 a3)
  | 12 => Some (sys_pipe a1)
  | 14 => Some (sys_dup2 a1 a2)
  | 15 => Some (sys_getdents stale a1 a2 a3)
  | 16 => Some (process_call (Signal.do_kill (s32 a1) (s32 a2)))
  | 17 => Some (process_call (Signal.do_signal (s32 a1) a2 a3))
  | 18 => Some sys_sigreturn
  | 19 => Some (sys_mmap a2 a3 a4 a5 a6)
  | 20 => Some (process_call (Mmap.do_munmap a1 a2))
  | 21 => Some (sys_chdir a1)
  | 22 => Some (sys_getcwd a1 a2)
  | 23 => Some (sys_mkdir a1)
  | 24 => Some (sys_unlink a1)
  | 25 => Some (sys_ttymode a1)
  | 26 => Some (process_call (Mmap.do_mprotect a1 a2 (s32 a3)))
  | 28 => Some (sys_readkey a1)
  | 32 => Some (sys_sleep (u32 a1) 0)
  | 33 => Some (sys_setfg a1)
  | 34 => Some (sys_socket a2)
  | 35 => Some (sys_connect a1 a2 a3)
  | 36 => Some (sys_bind a1 a3)
  | 37 => Some (sys_listen a1)
  | 38 => Some (sys_accept a1)
  | 39 => Some (sys_sendto a1 a2 a3 a5 a6)
  | 40 => Some (sys_recvfrom a1 a2 a3 a5 a6)
  | 41 => Some (process_call (Signal.do_sigprocmask (s32 a1) a2 a3))
  | 42 => Some (process_call (Signal.do_alarm (u32 a1)))
  | 43 => Some (sys_poll a1 a2 a3)
  | 44 => Some (sys_stat a1 a2)
  | 45 => Some (sys_fstat a1 a2)
  | 46 => Some (sys_lseek a1 a2 a3)
  | 47 => Some sys_getppid
  | 48 => Some (sys_dup a1)
  | 49 => Some (sys_rename a1 a2)
  | 50 => Some (process_call (Spawn.do_clone a1 a2 a3 a4))
  | 51 => Some (sys_futex a1 a2 a3)
  | 53 => Some (sys_nanosleep a1 a2)
  | _ => if existsb (Z.eqb no) [9; 13; 27; 29; 30; 31; 52] then None else Some fail
  end.

(** A parked call goes on, run by its caller again. *)
Fixpoint resume (c : cont) : M F outcome :=
  let clear := mod_kst (fun k => upd (get_cur_proc k) (Signal.mark_in_kernel 0) k) in
  match c with
  | WPipe ubuf id n cr3 rsp => read_pipe ubuf id n cr3 rsp
  | WLine ubuf max kbuf cr3 rsp => clear ;; stdin_read_line ubuf max kbuf cr3 rsp
  | WRaw ubuf max kbuf cr3 rsp => clear ;; stdin_read_raw ubuf max kbuf cr3 rsp
  | WKey timeout deadline cr3 rsp => clear ;; stdin_readkey timeout deadline cr3 rsp
  | WSleep deadline cr3 rsp rem => woken ;; do_sleep_ms deadline cr3 rsp rem
  | WChild wpid options ubuf cr3 rsp =>
      let* self := gets get_cur_proc in
      let* r := with_calls (fun k => waited (Reap.waitpid_iter self wpid options cr3 rsp k)) in
      wait_result ubuf wpid options cr3 rsp r
  | WFutex key val cr3 rsp =>
      let* self := gets get_cur_proc in
      let* r := with_calls (fun k => waited (Futex.futex_resume self key val cr3 rsp k)) in
      match r with Some (r, _) => value r | None => ret (Wait c) end
  | WPoll ubuf fds timeout start cr3 rsp => poll_pass ubuf fds timeout start cr3 rsp
  | WStop self c' => mod_kst (Signal.check_stop_resume self) ;; resume c'
  | WGone => ret (Wait WGone)
  end.
End Syscall.
