(* ===== verification/SysInv.v ===== *)
(** Who owns what: the descriptor tables and the handles, file nodes and pipe ends they stand
    for.

    [owns X s]: the handles in the descriptor tables of all processes, together with those in
    [X] that the running call has in hand, are exactly the open handles of the virtual file
    system and the counted ends of the pipes. *)
From Stdlib Require Import ZArith Lia.
From S2P Require Import Prelude Phys Paging Process Descr SysFile Stdin SysIo.
From S2P Require Ext2 Vfs VfsPool VfsSafe VfsOps VfsTree Pipe Reap NetBase Udp NetPoll Keyboard.
#[local] Open Scope sys_scope.

(** * Handles *)

Lemma pipe_make_decode id (w : bool) : 0 <= id < Pipe.MAX_PIPES ->
  is_pipe (UFD_PIPE_MAKE id w) = true /\ UFD_PIPE_ID (UFD_PIPE_MAKE id w) = id /\ truthy (UFD_PIPE_IS_WRITE (UFD_PIPE_MAKE id w)) = w.
Proof.
  unfold Pipe.MAX_PIPES. intros H. assert (exists n, id = Z.of_nat n /\ (n < 16)%nat) as (n & -> & Hn) by (exists (Z.to_nat id); lia).
  do 16 (destruct n as [|n]; [destruct w; vm_compute; done|]). lia.
Qed.

Lemma land_flag_low x f : 0 <= x < 2 ^ 29 -> f = 2 ^ 29 \/ f = 2 ^ 30 -> x .& f = 0.
Proof.
  intros Hx Hf. apply Z.bits_inj'. intros j Hj. rewrite Z.land_spec, Z.bits_0.
  assert (Z.testbit f j = (j =? 29) && (f =? 2 ^ 29) || (j =? 30) && (f =? 2 ^ 30)) as ->.
  { destruct Hf as [-> | ->]; rewrite Z.pow2_bits_eqb by lia; cbn [Z.eqb Z.pow Z.pow_pos Pos.iter Z.mul Pos.mul Pos.eqb]; rewrite ?andb_true_r, ?andb_false_r, ?orb_false_r; cbn [orb]; by rewrite Z.eqb_sym. }
  destruct (Z.testbit x j) eqn:E; [|done]. assert (j < 29).
  { destruct (Z.lt_ge_cases j 29); [done|]. rewrite (proj1 (Z.bounded_iff_bits_nonneg 29 x ltac:(lia) ltac:(lia)) (proj2 Hx) j) in E by lia. done. }
  cbn. destruct (Z.eqb_spec j 29); [lia|]. destruct (Z.eqb_spec j 30); [lia|]. done.
Qed.

Lemma vfs_handle_kind h : 0 <= h < 2 ^ 29 -> is_pipe h = false /\ is_sock h = false.
Proof. intros H. unfold is_pipe, is_sock, UFD_PIPE_FLAG, UFD_SOCK_FLAG. rewrite !land_flag_low by (done || by (left + right)). done. Qed.

Lemma sock_make_kind id : is_pipe (UFD_SOCK_MAKE id) = false /\ is_sock (UFD_SOCK_MAKE id) = true.
Proof.
  unfold is_pipe, is_sock, UFD_SOCK_MAKE, UFD_PIPE_FLAG, UFD_SOCK_FLAG. rewrite !Z.land_lor_distr_l.
  assert (0 <= id .& 0xFFFF < 2 ^ 29) as H by (change 0xFFFF with (Z.ones 16); rewrite Z.land_ones by lia; pose proof (Z.mod_pos_bound id (2 ^ 16)); lia).
  rewrite (land_flag_low _ 0x40000000 H) by (by right). rewrite (land_flag_low _ 0x20000000 H) by (by left). done.
Qed.

Lemma is_write_range h : UFD_PIPE_IS_WRITE h = 0 \/ UFD_PIPE_IS_WRITE h = 1.
Proof. unfold UFD_PIPE_IS_WRITE. change (h .& 1) with (h .& Z.ones 1). rewrite Z.land_ones by lia. pose proof (Z.mod_pos_bound h (2 ^ 1)). lia. Qed.

(** The node a handle leads to, if it is one of the virtual file system. *)
Definition vnode (h : Z) : option nat := if is_pipe h || is_sock h then None else Some (Z.to_nat (h - 1)).
Definition vnodes (L : list Z) : list nat := omap vnode L.
(** How many of the handles are the end [w] of pipe [id]. *)
Definition ends (id : Z) (w : bool) (L : list Z) : Z := Z.of_nat (count_occ Z.eq_dec L (UFD_PIPE_MAKE id w)).

Definition handle_ok (h : Z) : Prop :=
  if is_pipe h then exists id w, 0 <= id < Pipe.MAX_PIPES /\ h = UFD_PIPE_MAKE id w
  else if is_sock h then True else 1 <= h <= Z.of_nat Vfs.MAX_INODES.

(** A pipe is in use exactly while one of its ends is held, and counts its ends. *)
Definition refs_ok (p : Pipe.pipe) (r w : Z) : Prop :=
  if truthy (Pipe.used p) then Pipe.read_refs p = r /\ Pipe.write_refs p = w /\ 0 < r + w else r = 0 /\ w = 0.

(** * The tables *)

Definition slot (p : proc) (i : Z) : option Z := if truthy (ufd_inuse (p_mm p) i) then Some (ufd_handle (p_mm p) i) else None.
Definition occupied (p : proc) : list Z := omap (slot p) (seqZ 0 PROC_MAX_FDS).
Definition slots_of (m : gmap Z proc) : list Z := concat (map (fun e => occupied e.2) (map_to_list m)).

(** The handles the kernel opened for itself and keeps: the device files. *)
Class KernelHandles := kernel_handles : list Z.

Section Tables.
Context {KN : KernelHandles}.

(** Every handle that is held: by a descriptor, or by the kernel. *)
Definition slots (k : kst) : list Z := slots_of (pstore k) ++ kernel_handles.
(** Those held outside the table of [a]. *)
Definition rest (a : Z) (k : kst) : list Z := slots_of (delete a (pstore k)) ++ kernel_handles.

Lemma flat_perm {A B} (f : A -> list B) l l' : l ≡ₚ l' -> concat (map f l) ≡ₚ concat (map f l').
Proof. induction 1; cbn; [done|by f_equiv|by rewrite !app_assoc, (Permutation_app_comm (f x))|by etrans]. Qed.
Lemma flat_cons {A B} (f : A -> list B) x l : concat (map f (x :: l)) = f x ++ concat (map f l).
Proof. done. Qed.

Lemma slots_split (m : gmap Z proc) a p : m !! a = Some p -> slots_of m ≡ₚ occupied p ++ slots_of (delete a m).
Proof.
  intros H. unfold slots_of. etrans; [symmetry; apply (flat_perm _ _ _ (map_to_list_delete m a p H))|]. rewrite flat_cons. cbn [snd]. apply Permutation_refl.
Qed.

Lemma slots_at k a p : pstore k !! a = Some p -> slots k ≡ₚ occupied p ++ rest a k.
Proof. intros H. unfold slots, rest. by rewrite (slots_split _ _ _ H), app_assoc. Qed.

Lemma slots_upd k a p f : pstore k !! a = Some p -> slots (upd a f k) ≡ₚ occupied (f p) ++ rest a k.
Proof.
  intros H. assert (alter f a (pstore k) !! a = Some (f p)) as Ha by (by rewrite lookup_alter_eq, H).
  pose proof (slots_split _ _ _ Ha) as E. rewrite delete_alter_eq in E. unfold slots, rest. cbn [upd set_pstore pstore]. by rewrite E, app_assoc.
Qed.

(** The tables alone matter. *)
Lemma slots_of_ext (m m' : gmap Z proc) : (forall a, occupied <$> m' !! a = occupied <$> m !! a) -> slots_of m' ≡ₚ slots_of m.
Proof.
  intros H. assert (forall m : gmap Z proc, concat (map snd (map_to_list (occupied <$> m))) ≡ₚ slots_of m) as E.
  { intros m0. rewrite map_to_list_fmap. unfold slots_of. generalize (map_to_list m0). intros l. induction l as [|[a p] l IH]; cbn; [done|by f_equiv]. }
  rewrite <- (E m), <- (E m'). assert ((occupied <$> m') = (occupied <$> m)) as -> by (apply map_eq; intros a; by rewrite !lookup_fmap). done.
Qed.

Lemma slots_upd_same k a f : (forall p, pstore k !! a = Some p -> occupied (f p) ≡ₚ occupied p) -> slots (upd a f k) ≡ₚ slots k.
Proof.
  intros H. destruct (pstore k !! a) as [p|] eqn:E.
  - rewrite (slots_upd _ _ _ _ E), (H p eq_refl). symmetry. apply (slots_at _ _ _ E).
  - unfold slots, upd. cbn [set_pstore pstore]. by rewrite alter_id by (intros x Hx; congruence).
Qed.

Lemma omap_perm {A B} (f : A -> option B) l l' : l ≡ₚ l' -> omap f l ≡ₚ omap f l'.
Proof.
  induction 1 as [|x l l' _ IH|x y l|l1 l2 l3 _ IH1 _ IH2]; cbn; [done|destruct (f x); [by f_equiv|done]|destruct (f x), (f y); try reflexivity; apply perm_swap|by etrans].
Qed.

Definition other_slots (i : Z) (p : proc) : list Z := omap (slot p) (filter (fun j => j <> i) (seqZ 0 PROC_MAX_FDS)).

Lemma occupied_at i p : 0 <= i < PROC_MAX_FDS -> occupied p ≡ₚ option_list (slot p i) ++ other_slots i p.
Proof.
  intros Hi. unfold occupied, other_slots. assert (seqZ 0 PROC_MAX_FDS ≡ₚ i :: filter (fun j => j <> i) (seqZ 0 PROC_MAX_FDS)) as E.
  { apply NoDup_Permutation; [apply NoDup_seqZ| |].
    - apply list.NoDup_cons. split; [rewrite list_elem_of_filter; by intros [? _]|]. apply list.NoDup_filter, NoDup_seqZ.
    - intros x. rewrite elem_of_cons, list_elem_of_filter, !elem_of_seqZ. destruct (decide (x = i)) as [->|]; [split; [by left|]|]; intuition lia. }
  rewrite (omap_perm _ _ _ E). cbn. by destruct (slot p i).
Qed.

Lemma other_slots_ext i p q : (forall j, j <> i -> slot q j = slot p j) -> other_slots i q = other_slots i p.
Proof.
  intros H. unfold other_slots. induction (seqZ 0 PROC_MAX_FDS) as [|j l IH]; [done|]. rewrite filter_cons. destruct (decide (j <> i)) as [Hj|]; [|done].
  cbn. by rewrite (H j Hj), IH.
Qed.

Lemma occupied_ext p q : (forall j, slot q j = slot p j) -> occupied q = occupied p.
Proof. intros H. unfold occupied. induction (seqZ 0 PROC_MAX_FDS) as [|j l IH]; [done|]. cbn. by rewrite H, IH. Qed.

Lemma slot_take i h o p j : slot (take_fd i h o p) j = if decide (j = i) then Some h else slot p j.
Proof. unfold slot. cbn. destruct (decide (j = i)) as [->|Hj]; [by rewrite !fn_lookup_insert|]. by rewrite !fn_lookup_insert_ne by done. Qed.
Lemma slot_clear i p j : slot (Reap.clear_fd i p) j = if decide (j = i) then None else slot p j.
Proof. unfold slot. cbn. destruct (decide (j = i)) as [->|Hj]; [by rewrite !fn_lookup_insert|]. by rewrite !fn_lookup_insert_ne by done. Qed.

Lemma occupied_take i h o p : 0 <= i < PROC_MAX_FDS -> slot p i = None -> occupied (take_fd i h o p) ≡ₚ h :: occupied p.
Proof.
  intros Hi Hp. rewrite (occupied_at i (take_fd i h o p)), (occupied_at i p) by done. rewrite slot_take, decide_True, Hp by done. cbn. f_equiv.
  rewrite (other_slots_ext i p (take_fd i h o p)); [done|]. intros j Hj. by rewrite slot_take, decide_False.
Qed.
Lemma occupied_clear i h p : 0 <= i < PROC_MAX_FDS -> slot p i = Some h -> occupied p ≡ₚ h :: occupied (Reap.clear_fd i p).
Proof.
  intros Hi Hp. rewrite (occupied_at i (Reap.clear_fd i p)), (occupied_at i p) by done. rewrite slot_clear, decide_True, Hp by done. cbn. f_equiv.
  rewrite (other_slots_ext i p (Reap.clear_fd i p)); [done|]. intros j Hj. by rewrite slot_clear, decide_False.
Qed.

(** ** The caller's table *)

(** The same table is the caller's, with the same entries. *)
Definition same_fds (k k' : kst) : Prop :=
  fd_owner k' = fd_owner k /\ forall a, p_mm <$> pstore k' !! a = p_mm <$> pstore k !! a.

Lemma find_process_ext id k k' :
  process_table k' = process_table k -> (forall a, pid <$> pstore k' !! a = pid <$> pstore k !! a) -> find_process id k' = find_process id k.
Proof.
  intros Ht Hp. unfold find_process, table_find. rewrite Ht. rewrite (list_find_ext _ (fun a => Is_true (entry_is k (fun p => pid p =? id) a))); [done|].
  intros x. unfold entry_is. specialize (Hp x). destruct (pstore k' !! x), (pstore k !! x); cbn in Hp; try done. by injection Hp as ->.
Qed.

Lemma fd_owner_ext k k' :
  process_table k' = process_table k -> current_idx k' = current_idx k -> this_cpu k' = this_cpu k -> sched_cur k' = sched_cur k ->
  (forall a, (fun p => (pid p, tgid p)) <$> pstore k' !! a = (fun p => (pid p, tgid p)) <$> pstore k !! a) -> fd_owner k' = fd_owner k.
Proof.
  intros Ht Hc Hcpu Hs Hp. assert (get_cur_proc k' = get_cur_proc k) as Ecur by (unfold get_cur_proc, get_current_process, process_count; by rewrite Ht, Hc, Hcpu, Hs).
  unfold fd_owner. rewrite Ecur. set (a := get_cur_proc k). unfold tg_leader.
  assert (forall id, find_process id k' = find_process id k) as Ef.
  { intros id. apply find_process_ext; [done|]. intros b. specialize (Hp b). destruct (pstore k' !! b), (pstore k !! b); cbn in Hp |- *; try done. congruence. }
  specialize (Hp a). destruct (pstore k' !! a), (pstore k !! a); cbn in Hp; try done. injection Hp as -> ->. by rewrite Ef.
Qed.

Lemma same_fds_intro k k' :
  process_table k' = process_table k -> current_idx k' = current_idx k -> this_cpu k' = this_cpu k -> sched_cur k' = sched_cur k ->
  (forall a, (fun p => (pid p, tgid p, p_mm p)) <$> pstore k' !! a = (fun p => (pid p, tgid p, p_mm p)) <$> pstore k !! a) -> same_fds k k'.
Proof.
  intros. split.
  - apply fd_owner_ext; try done. intros a. specialize (H3 a). destruct (pstore k' !! a), (pstore k !! a); cbn in *; congruence.
  - intros a. specialize (H3 a). destruct (pstore k' !! a), (pstore k !! a); cbn in *; congruence.
Qed.

Lemma same_fds_entry k k' fd : same_fds k k' -> p_mm <$> fd_entry fd k' = p_mm <$> fd_entry fd k.
Proof.
  intros [Ho Hm]. unfold fd_entry. rewrite Ho. specialize (Hm (fd_owner k)). destruct (pstore k' !! fd_owner k) as [q|], (pstore k !! fd_owner k) as [p|]; cbn in Hm; try done.
  injection Hm as Hm. rewrite Hm. destruct (_ || _); cbn; congruence.
Qed.
Lemma same_fds_lookup k k' fd : same_fds k k' -> ufd_lookup fd k' = ufd_lookup fd k /\ ufd_offset_of fd k' = ufd_offset_of fd k.
Proof.
  intros H. pose proof (same_fds_entry k k' fd H) as E. unfold ufd_lookup, ufd_offset_of. destruct (fd_entry fd k') as [q|], (fd_entry fd k) as [p|]; cbn in *; try done.
  injection E as E. by rewrite E.
Qed.
Lemma same_fds_slots k k' : same_fds k k' -> slots k' ≡ₚ slots k.
Proof.
  intros [_ Hm]. apply Permutation_app_tail, slots_of_ext. intros a. specialize (Hm a). destruct (pstore k' !! a) as [q|], (pstore k !! a) as [p|]; cbn in *; try done.
  injection Hm as Hm. f_equal. apply occupied_ext. intros j. unfold slot. by rewrite Hm.
Qed.
Lemma same_fds_refl k : same_fds k k. Proof. done. Qed.
Lemma same_fds_trans k1 k2 k3 : same_fds k1 k2 -> same_fds k2 k3 -> same_fds k1 k3.
Proof. intros [A B] [A' B']. split; [congruence|]. intros a. by rewrite B', B. Qed.

(** Changes that leave the table of a process. *)
Definition keeps_table (f : proc -> proc) : Prop := forall p j, slot (f p) j = slot p j.
Lemma slots_keeps k a f : keeps_table f -> slots (upd a f k) ≡ₚ slots k.
Proof. intros H. apply slots_upd_same. intros p _. by rewrite (occupied_ext p). Qed.
Lemma keeps_on_sched f : keeps_table (on_sched f). Proof. done. Qed.
Lemma keeps_on_sig f : keeps_table (on_sig f). Proof. done. Qed.
Lemma keeps_on_text f : keeps_table (on_text f). Proof. done. Qed.
Lemma keeps_compose f g : keeps_table f -> keeps_table g -> keeps_table (fun p => f (g p)).
Proof. intros Hf Hg p j. by rewrite Hf, Hg. Qed.
End Tables.
#[export] Hint Resolve keeps_on_sched keeps_on_sig keeps_on_text keeps_compose : nyx.

(** * Ownership *)

#[global] Opaque occupied slots_of.

Section Owns.
Context {F : Type} `{FO : Vfs.FsOps F} {I : F -> Prop} {FT : @VfsSafe.FsTotal F FO I} `{BH : Ext2.BlockHeap} {NH : NetBase.NetHeap} {PL : NetBase.Poll} {KN : KernelHandles}.
Implicit Types (s : sys F) (L X : list Z).
Local Notation vinv := (@VfsSafe.inv F I).

Record accounted L s : Prop := {
  ac_vfs : vinv (sv s) (vnodes L);
  ac_handles : Forall handle_ok L;
  ac_pipes : forall id, 0 <= id < Pipe.MAX_PIPES -> refs_ok (sp s id) (ends id false L) (ends id true L);
  ac_kbd : kbd_ok (skb s) }.
Definition owns X s : Prop := accounted (X ++ slots (sk s)) s.

Lemma inv_perm v G G' : G ≡ₚ G' -> vinv v G -> vinv v G'.
Proof.
  intros E [P O]. split; [|done]. destruct P. constructor; try done.
  - intros i. rewrite p_refs. unfold VfsPool.holders. by rewrite (proj1 (Permutation_count_occ Nat.eq_dec G G') E i).
  - intros i Hi. apply p_held. by rewrite E.
Qed.

Lemma accounted_perm L L' s : L ≡ₚ L' -> accounted L s -> accounted L' s.
Proof.
  intros E [A B C D]. constructor; [|by rewrite <- E| |done].
  - eapply inv_perm; [|exact A]. by apply omap_perm.
  - intros id Hid. specialize (C id Hid). unfold ends in *. by rewrite !(proj1 (Permutation_count_occ Z.eq_dec _ _) E) in C.
Qed.

#[global] Instance accounted_proper : Proper ((≡ₚ) ==> eq ==> iff) accounted.
Proof. intros L L' E s ? <-. split; apply accounted_perm; [done|by symmetry]. Qed.

(** ** What leaves ownership alone *)

Lemma accounted_kst L k s : accounted L s -> accounted L (with_sk k s). Proof. by intros [A B C D]. Qed.
Lemma owns_kst X k s : slots k ≡ₚ slots (sk s) -> owns X s -> owns X (with_sk k s).
Proof. intros E A. unfold owns. cbn [sk with_sk]. apply accounted_kst, (accounted_perm (X ++ slots (sk s))); [by rewrite E|exact A]. Qed.
Lemma owns_net X n s : owns X s -> owns X (with_sn n s). Proof. by intros [A B C D]. Qed.
Lemma owns_kbd X b s : kbd_ok b -> owns X s -> owns X (with_skb b s). Proof. by intros Hb [A B C D]. Qed.
Lemma owns_con X c s : owns X s -> owns X (with_scon c s). Proof. by intros [A B C D]. Qed.
Lemma owns_vfs X v s : vinv v (vnodes (X ++ slots (sk s))) -> owns X s -> owns X (with_sv v s).
Proof. intros V [A B C D]. by constructor. Qed.
Lemma owns_upd X a f s : keeps_table f -> owns X s -> owns X (with_sk (upd a f (sk s)) s).
Proof. intros H. apply owns_kst. by apply slots_keeps. Qed.

(** ** Steps *)

Definition swp {A} (m : M F A) (Q : A -> sys F -> Prop) s : Prop := match m s with Some (r, s') => Q r s' | None => False end.

Lemma swp_bind {A B} (m : M F A) (k : A -> M F B) Q s : swp m (fun x s' => swp (k x) Q s') s -> swp (bind m k) Q s.
Proof. unfold swp, bind. destruct (m s) as [[x s']|]; done. Qed.
Lemma swp_mono {A} (m : M F A) (P Q : A -> sys F -> Prop) s : swp m P s -> (forall r s', P r s' -> Q r s') -> swp m Q s.
Proof. unfold swp. destruct (m s) as [[x s']|]; [auto|done]. Qed.
Lemma swp_ret {A} (x : A) (Q : A -> sys F -> Prop) s : Q x s -> swp (ret x) Q s. Proof. done. Qed.
Lemma swp_get (Q : sys F -> sys F -> Prop) s : Q s s -> swp get Q s. Proof. done. Qed.
Lemma swp_gets {A} (f : kst -> A) (Q : A -> sys F -> Prop) s : Q (f (sk s)) s -> swp (gets f) Q s. Proof. done. Qed.
Lemma swp_value r (Q : outcome -> sys F -> Prop) s : Q (Ret r) s -> swp (value r) Q s. Proof. done. Qed.
Lemma swp_fail (Q : outcome -> sys F -> Prop) s : Q (Ret (-1)) s -> swp fail Q s. Proof. done. Qed.
Lemma swp_mod_kst f (Q : unit -> sys F -> Prop) s : Q tt (with_sk (f (sk s)) s) -> swp (mod_kst f) Q s. Proof. done. Qed.
Lemma swp_vfs {A} (m : Vfs.M F A) (Q : A -> sys F -> Prop) s : VfsPool.vwp m (fun r v => Q r (with_sv v s)) (sv s) -> swp (on_vfs m) Q s.
Proof. unfold swp, on_vfs, VfsPool.vwp. destruct (m (sv s)) as [[r v]|]; done. Qed.

(** A file-system call that leaves the handles as they are. *)
Lemma swp_vfs_owns {A} (m : Vfs.M F A) (Q : A -> sys F -> Prop) X s :
  owns X s ->
  (forall (R : A -> Vfs.vfs F -> Prop), (forall r v, vinv v (vnodes (X ++ slots (sk s))) -> R r v) -> VfsPool.vwp m R (sv s)) ->
  (forall r s', owns X s' -> sk s' = sk s -> Q r s') -> swp (on_vfs m) Q s.
Proof. intros O Hm HQ. apply swp_vfs, Hm. intros r v V. apply HQ; [by apply owns_vfs|done]. Qed.

Lemma swp_net {A} (f : NetBase.net -> A * NetBase.net) (Q : A -> sys F -> Prop) X s :
  owns X s -> (forall r s', owns X s' -> sk s' = sk s -> Q r s') -> swp (on_net f) Q s.
Proof. intros O HQ. unfold swp, on_net. destruct (f (sn s)) as [r n]. apply HQ; [by apply owns_net|done]. Qed.

Lemma swp_user_read a n (Q : Z * list Z -> sys F -> Prop) s : (forall r, Q r s) -> swp (user_read a n) Q s.
Proof. intros HQ. apply HQ. Qed.

Lemma swp_user_write a b (Q : Z -> sys F -> Prop) X s :
  owns X s -> (forall r s', owns X s' -> slots (sk s') = slots (sk s) -> (forall fd, ufd_lookup fd (sk s') = ufd_lookup fd (sk s)) -> Q r s') -> swp (user_write a b) Q s.
Proof.
  intros O HQ. unfold swp, user_write, on_kst. destruct (copy_to_user _ _ _ _) as [r m]. apply HQ; [by apply owns_kst|done|done].
Qed.

Lemma swp_kmalloc n (Q : option (list Z) -> sys F -> Prop) X s :
  owns X s -> (forall r s', owns X s' -> sk s' = sk s -> Q r s') -> swp (kmalloc n) Q s.
Proof.
  intros O HQ. apply (swp_vfs_owns _ _ X); [done| |done]. intros R HR. apply (VfsSafe.vwp_kmalloc (I := I) n _ (vnodes (X ++ slots (sk s)))); [apply O|]. intros. by apply HR.
Qed.

Lemma swp_putchars l (Q : unit -> sys F -> Prop) X s : owns X s -> (forall s', owns X s' -> sk s' = sk s -> Q tt s') -> swp (putchars l) Q s.
Proof. intros O HQ. apply HQ; [by apply owns_con|done]. Qed.

Lemma owns_restore cr3 rsp X s : owns X s -> owns X (with_sk (set_user_rsp rsp (set_user_cr3 cr3 (sk s))) s).
Proof. by apply owns_kst. Qed.

Lemma swp_deliver ubuf n b (Q : outcome -> sys F -> Prop) X s :
  owns X s -> (forall r s', owns X s' -> Q (Ret r) s') -> swp (deliver ubuf n b) Q s.
Proof.
  intros O HQ. unfold deliver. destruct (0 <? n); [|by apply swp_value, HQ]. apply swp_bind, (swp_user_write _ _ _ X); [done|]. intros r s' O' _ _. by apply swp_value, HQ.
Qed.

(** ** Pipes *)

Lemma slots_parks s st : slots (sk (pipe_absorb st s)) ≡ₚ slots (sk s).
Proof.
  apply Permutation_app_tail, slots_of_ext. intros a. cbn. rewrite map_lookup_imap. destruct (pstore (sk s) !! a) as [p|]; cbn; [|reflexivity].
  rewrite (occupied_ext p (put_park (Pipe.procs st a) p)); [reflexivity|]. reflexivity.
Qed.
Lemma same_parks s st : same_fds (sk s) (sk (pipe_absorb st s)).
Proof. apply same_fds_intro; [done..|]. intros a. cbn. rewrite map_lookup_imap. by destruct (pstore (sk s) !! a). Qed.

Lemma refs_ok_same p p' r w : (Pipe.used p', Pipe.read_refs p', Pipe.write_refs p') = (Pipe.used p, Pipe.read_refs p, Pipe.write_refs p) -> refs_ok p r w -> refs_ok p' r w.
Proof. unfold refs_ok. by intros [= -> -> ->]. Qed.

(** The owners after the pipes have changed. *)
Lemma accounted_pipes L L' st s :
  accounted L s -> vnodes L' = vnodes L -> Forall handle_ok L' ->
  (forall id, 0 <= id < Pipe.MAX_PIPES -> refs_ok (Pipe.pipes st id) (ends id false L') (ends id true L')) ->
  accounted L' (pipe_absorb st s).
Proof. intros [A B C D] Hv Hh Hp. constructor; [by rewrite Hv|done|exact Hp|exact D]. Qed.

(** The handles are those of the tables and what is in hand. *)
Lemma owns_intro L X s : L ≡ₚ X ++ slots (sk s) -> accounted L s -> owns X s.
Proof. intros E A. by apply (accounted_perm L). Qed.
Lemma owns_same X s s' : accounted (X ++ slots (sk s)) s' -> same_fds (sk s) (sk s') -> owns X s'.
Proof. intros A E. eapply owns_intro; [|exact A]. apply Permutation_app_head. symmetry. by apply same_fds_slots. Qed.

Lemma ends_app id w L1 L2 : ends id w (L1 ++ L2) = ends id w L1 + ends id w L2.
Proof. unfold ends. rewrite count_occ_app. lia. Qed.
Lemma ends_cons id w h L : ends id w (h :: L) = b2z (h =? UFD_PIPE_MAKE id w) + ends id w L.
Proof. unfold ends. destruct (Z.eqb_spec h (UFD_PIPE_MAKE id w)) as [->|Hn]; [rewrite count_occ_cons_eq by done; cbn; lia|by rewrite count_occ_cons_neq]. Qed.
Lemma ends_nonneg id w L : 0 <= ends id w L. Proof. unfold ends. lia. Qed.

Lemma make_eqb id id' w w' : 0 <= id < Pipe.MAX_PIPES -> 0 <= id' < Pipe.MAX_PIPES ->
  (UFD_PIPE_MAKE id w =? UFD_PIPE_MAKE id' w') = (id =? id') && Bool.eqb w w'.
Proof.
  intros H H'. destruct (pipe_make_decode id w H) as (_ & E1 & E2), (pipe_make_decode id' w' H') as (_ & E1' & E2').
  destruct (Z.eqb_spec (UFD_PIPE_MAKE id w) (UFD_PIPE_MAKE id' w')) as [E|Hn].
  - rewrite E in E1, E2. assert (id = id') as -> by congruence. assert (w = w') as -> by congruence. rewrite Z.eqb_refl. by destruct w'.
  - destruct (Z.eqb_spec id id') as [->|]; [|done]. destruct w, w'; done.
Qed.

Lemma pipe_in_use L s id w : accounted L s -> 0 <= id < Pipe.MAX_PIPES -> UFD_PIPE_MAKE id w ∈ L -> Pipe.bad_pipe id (pipe_view s) = false.
Proof.
  intros [_ _ C _] Hid Hin. specialize (C id Hid). unfold refs_ok in C. unfold Pipe.bad_pipe. cbn [Pipe.pipes pipe_view]. destruct (truthy (Pipe.used (sp s id))).
  - destruct (Z.ltb_spec id 0); [lia|]. destruct (Z.leb_spec Pipe.MAX_PIPES id); [lia|]. done.
  - exfalso. apply list_elem_of_In, (count_occ_In Z.eq_dec) in Hin. unfold ends in C. destruct w; lia.
Qed.

Lemma wake_refs id st j :
  let p' := Pipe.pipes (Pipe.pipe_wake_reader id st) j in let p := Pipe.pipes st j in
  (Pipe.used p', Pipe.read_refs p', Pipe.write_refs p') = (Pipe.used p, Pipe.read_refs p, Pipe.write_refs p).
Proof. destruct (Pipe.wake_pipe id st j) as (_ & _ & _ & E1 & E2 & E3). cbn. by rewrite E1, E2, E3. Qed.

(** The counts after an end is closed: the pipe is released with its last end. *)
Lemma close_end_refs id (w : bool) st :
  Pipe.bad_pipe id st = false -> 0 < (if w then Pipe.write_refs (Pipe.pipes st id) else Pipe.read_refs (Pipe.pipes st id)) ->
  let p := Pipe.pipes st id in
  let r := if w then Pipe.read_refs p else Pipe.read_refs p - 1 in let n := if w then Pipe.write_refs p - 1 else Pipe.write_refs p in
  forall j, let q := Pipe.pipes (Pipe.pipe_close_end id w st) j in
    (Pipe.used q, Pipe.read_refs q, Pipe.write_refs q) =
    if j =? id then (if (r =? 0) && (n =? 0) then 0 else Pipe.used p, r, n)
    else (Pipe.used (Pipe.pipes st j), Pipe.read_refs (Pipe.pipes st j), Pipe.write_refs (Pipe.pipes st j)).
Proof.
  intros Hb H0 p r n j. unfold Pipe.pipe_close_end. rewrite Hb. fold p in H0 |- *.
  match goal with |- context [Pipe.read_refs (Pipe.pipes ?x id) =? 0] => set (st1 := x) end.
  assert (forall i, let q := Pipe.pipes st1 i in (Pipe.used q, Pipe.read_refs q, Pipe.write_refs q) =
    if i =? id then (Pipe.used p, r, n) else (Pipe.used (Pipe.pipes st i), Pipe.read_refs (Pipe.pipes st i), Pipe.write_refs (Pipe.pipes st i))) as H1.
  { intros i. unfold st1. destruct w; rewrite (proj2 (Z.ltb_lt _ _) H0).
    - assert (forall b : bool, let q := Pipe.pipes (if b then Pipe.pipe_wake_reader id (Pipe.set_pipe id (Pipe.set_refs r n p) st) else Pipe.set_pipe id (Pipe.set_refs r n p) st) i in
        (Pipe.used q, Pipe.read_refs q, Pipe.write_refs q) = let q := Pipe.pipes (Pipe.set_pipe id (Pipe.set_refs r n p) st) i in (Pipe.used q, Pipe.read_refs q, Pipe.write_refs q)) as ->.
      { intros []; [apply wake_refs|done]. }
      cbn. destruct (Z.eqb_spec i id) as [->|]; [by rewrite fn_lookup_insert|by rewrite fn_lookup_insert_ne].
    - cbn. destruct (Z.eqb_spec i id) as [->|]; [by rewrite fn_lookup_insert|by rewrite fn_lookup_insert_ne]. }
  pose proof (H1 id) as Hid. cbn zeta in Hid. rewrite Z.eqb_refl in Hid. injection Hid as Hu Hr Hn. rewrite Hr, Hn.
  pose proof (H1 j) as Hj. cbn zeta in Hj. destruct ((r =? 0) && (n =? 0)).
  - cbn. destruct (Z.eqb_spec j id) as [->|]; [rewrite fn_lookup_insert; cbn; congruence|by rewrite fn_lookup_insert_ne].
  - rewrite Hj. by destruct (j =? id).
Qed.

(** An end that is in hand is given back. *)
Lemma swp_close_pipe id w (Q : unit -> sys F -> Prop) L s :
  0 <= id < Pipe.MAX_PIPES -> accounted (UFD_PIPE_MAKE id (truthy w) :: L) s ->
  (forall s', accounted L s' -> same_fds (sk s) (sk s') -> Q tt s') -> swp (close_pipe id w) Q s.
Proof.
  intros Hid O HQ. unfold swp, close_pipe, on_pipes. apply HQ; [|apply same_parks].
  pose proof (pipe_in_use _ _ _ (truthy w) O Hid ltac:(by left)) as Hb. set (b := truthy w) in *.
  assert (forall j, 0 <= j < Pipe.MAX_PIPES -> refs_ok (sp s j) (b2z ((id =? j) && Bool.eqb b false) + ends j false L) (b2z ((id =? j) && Bool.eqb b true) + ends j true L)) as C.
  { intros j Hj. pose proof (ac_pipes _ _ O j Hj) as C. by rewrite !ends_cons, !make_eqb in C. }
  apply (accounted_pipes (UFD_PIPE_MAKE id b :: L)); [done| |by destruct O as [_ [_ B]%Forall_cons_iff _ _]|].
  { unfold vnodes. cbn. unfold vnode. by destruct (pipe_make_decode id b Hid) as (-> & _). }
  assert (truthy (Pipe.used (sp s id)) = true) as Hu by (unfold Pipe.bad_pipe in Hb; cbn in Hb; bool_prop; done).
  pose proof (C id Hid) as Cid. unfold refs_ok in Cid. rewrite Hu, Z.eqb_refl in Cid. destruct Cid as (C1 & C2 & _). cbn [andb] in C1, C2.
  pose proof (ends_nonneg id false L). pose proof (ends_nonneg id true L). intros j Hj.
  pose proof (close_end_refs id b (pipe_view s) Hb) as Hc. cbn [Pipe.pipes pipe_view] in Hc. specialize (Hc ltac:(destruct b; cbn in C1, C2; lia) j).
  cbn zeta in Hc. set (q := Pipe.pipes _ j) in *. clearbody q. unfold refs_ok. specialize (C j Hj). unfold refs_ok in C.
  rewrite Z.eqb_sym in C. destruct (Z.eqb_spec j id) as [E|Hne]; [subst j|]; injection Hc as Hc1 Hc2 Hc3.
  - rewrite Hc1, Hc2, Hc3. rewrite C1, C2. destruct b; cbn [Bool.eqb b2z].
    + replace (0 + ends id false L) with (ends id false L) by lia. replace (1 + ends id true L - 1) with (ends id true L) by lia.
      destruct (Z.eqb_spec (ends id false L) 0), (Z.eqb_spec (ends id true L) 0); cbn [andb]; rewrite ?Hu; cbn; lia.
    + replace (0 + ends id true L) with (ends id true L) by lia. replace (1 + ends id false L - 1) with (ends id false L) by lia.
      destruct (Z.eqb_spec (ends id false L) 0), (Z.eqb_spec (ends id true L) 0); cbn [andb]; rewrite ?Hu; cbn; lia.
  - cbn [andb b2z] in C. by rewrite Hc1, Hc2, Hc3.
Qed.

(** Another end of a pipe that is held. *)
Lemma swp_incref_pipe id w (Q : unit -> sys F -> Prop) L s :
  0 <= id < Pipe.MAX_PIPES -> accounted L s -> UFD_PIPE_MAKE id (truthy w) ∈ L ->
  (forall s', accounted (UFD_PIPE_MAKE id (truthy w) :: L) s' -> same_fds (sk s) (sk s') -> Q tt s') -> swp (incref_pipe id w) Q s.
Proof.
  intros Hid O Hin HQ. unfold swp, incref_pipe, on_pipes. apply HQ; [|apply same_parks].
  pose proof (pipe_in_use _ _ _ (truthy w) O Hid Hin) as Hb. set (b := truthy w) in *.
  apply (accounted_pipes L); [done| | |].
  { unfold vnodes. cbn. unfold vnode. by destruct (pipe_make_decode id b Hid) as (-> & _). }
  { constructor; [|apply O]. unfold handle_ok. destruct (pipe_make_decode id b Hid) as (-> & _). by exists id, b. }
  intros j Hj. rewrite !ends_cons, !make_eqb by done. pose proof (ac_pipes _ _ O j Hj) as C.
  pose proof (ends_nonneg j false L). pose proof (ends_nonneg j true L).
  unfold Pipe.pipe_incref. rewrite Hb. cbn [Pipe.pipes Pipe.set_pipe pipe_view].
  assert (truthy (Pipe.used (sp s id)) = true) as Hu by (unfold Pipe.bad_pipe in Hb; cbn in Hb; bool_prop; done).
  destruct (Z.eqb_spec id j) as [<-|Hne].
  - rewrite fn_lookup_insert. unfold refs_ok in *. rewrite Hu in C. destruct b; cbn; rewrite Hu; lia.
  - rewrite fn_lookup_insert_ne by done. exact C.
Qed.

(** Both ends of a new pipe. *)
Lemma swp_pipe_new (Q : Z -> sys F -> Prop) s L :
  accounted L s -> (forall s', accounted L s' -> same_fds (sk s) (sk s') -> Q (-1) s') ->
  (forall id s', 0 <= id < Pipe.MAX_PIPES -> accounted (UFD_PIPE_MAKE id false :: UFD_PIPE_MAKE id true :: L) s' -> same_fds (sk s) (sk s') -> Q id s') ->
  swp (on_pipes Pipe.pipe_new) Q s.
Proof.
  intros O HN HQ. unfold swp, on_pipes, Pipe.pipe_new. destruct (find_idx 16 0 _) as [id|] eqn:E.
  - apply find_idx_Some in E as (Hid & Hf & _). cbn [Pipe.pipes pipe_view] in Hf. assert (0 <= id < Pipe.MAX_PIPES) as Hid' by (unfold Pipe.MAX_PIPES; lia).
    apply HQ; [done| |apply same_parks]. apply (accounted_pipes L); [done| | |].
    { unfold vnodes. cbn. unfold vnode. destruct (pipe_make_decode id false Hid') as (-> & _), (pipe_make_decode id true Hid') as (-> & _). done. }
    { repeat constructor; [unfold handle_ok; destruct (pipe_make_decode id false Hid') as (-> & _); by exists id, false|
        unfold handle_ok; destruct (pipe_make_decode id true Hid') as (-> & _); by exists id, true|apply O]. }
    intros j Hj. cbn [Pipe.pipes Pipe.set_pipe pipe_view]. rewrite !ends_cons, !make_eqb by done. pose proof (ac_pipes _ _ O j Hj) as C. destruct (Z.eqb_spec id j) as [<-|Hne].
    + rewrite fn_lookup_insert. unfold refs_ok in *. cbn. destruct (truthy (Pipe.used (sp s id))); [done|]. lia.
    + rewrite fn_lookup_insert_ne by done. cbn. exact C.
  - apply HN; [|apply same_parks]. apply (accounted_pipes L); [done|done|apply O|apply O].
Qed.
End Owns.
