(* ===== verification/SysCalls.v ===== *)
(** Every system call on descriptors returns or parks, and keeps the books: the handles in the
    descriptor tables are the open handles of the virtual file system and the counted ends of
    the pipes. *)
From Stdlib Require Import ZArith Lia.
From S2P Require Import Prelude Packed Phys Paging Process Descr SysFile Stdin SysIo SysInv.
From S2P Require Ext2 Vfs VfsPool VfsSafe VfsOps VfsFile VfsTree Pipe Reap Signal NetBase Udp NetPoll Keyboard Path.
#[local] Open Scope sys_scope.

Section Calls.
Context {F : Type} `{FO : Vfs.FsOps F} {I : F -> Prop} {FT : @VfsSafe.FsTotal F FO I} `{BH : Ext2.BlockHeap} {NH : NetBase.NetHeap} {PL : NetBase.Poll} {KN : KernelHandles}.
Implicit Types (s : sys F) (L X : list Z).
Local Notation vinv := (@VfsSafe.inv F I).
Local Notation owns := (@owns F I).
Local Notation accounted := (@accounted F I).

(** * Descriptors *)

Lemma slot_in_table i h p : 0 <= i < PROC_MAX_FDS -> slot p i = Some h -> h ∈ occupied p.
Proof. intros Hi Hs. rewrite (occupied_at i p Hi), Hs. by left. Qed.

Lemma lookup_inv fd k h : ufd_lookup fd k = Some h ->
  0 <= fd < PROC_MAX_FDS /\ exists p, pstore k !! fd_owner k = Some p /\ slot p fd = Some h.
Proof.
  unfold ufd_lookup, fd_entry. destruct (pstore k !! fd_owner k) as [p|]; [|done]. destruct (fd <? 0) eqn:E1; [done|]. destruct (PROC_MAX_FDS <=? fd) eqn:E2; [done|].
  cbn [orb]. destruct (truthy (ufd_inuse (p_mm p) fd)) eqn:E3; [|done]. cbn. intros [= <-]. bool_prop. split; [lia|]. exists p. split; [done|]. unfold slot. by rewrite E3.
Qed.

Lemma lookup_slot fd k h : ufd_lookup fd k = Some h -> h ∈ slots k.
Proof.
  intros E. apply lookup_inv in E as (Hfd & p & Hp & Hs). rewrite (slots_at _ _ _ Hp). apply elem_of_app. left. by eapply slot_in_table.
Qed.

Lemma fd_owner_upd k a f : (forall p, (pid (f p), tgid (f p)) = (pid p, tgid p)) -> fd_owner (upd a f k) = fd_owner k.
Proof.
  intros H. apply fd_owner_ext; try done. intros b. cbn [upd set_pstore pstore]. destruct (decide (a = b)) as [<-|Hne].
  - rewrite lookup_alter_eq. destruct (pstore k !! a) as [p|]; [|done]. cbn. by rewrite H.
  - by rewrite lookup_alter_ne.
Qed.

Lemma lookup_owner k f p : (forall p, (pid (f p), tgid (f p)) = (pid p, tgid p)) -> pstore k !! fd_owner k = Some p ->
  pstore (upd (fd_owner k) f k) !! fd_owner (upd (fd_owner k) f k) = Some (f p).
Proof. intros Hf Hp. rewrite fd_owner_upd by done. cbn [upd set_pstore pstore]. by rewrite lookup_alter_eq, Hp. Qed.

Lemma lookup_of_slot k p fd : pstore k !! fd_owner k = Some p -> 0 <= fd < PROC_MAX_FDS -> ufd_lookup fd k = slot p fd.
Proof.
  intros Hp Hfd. unfold ufd_lookup, fd_entry, slot. rewrite Hp. destruct (Z.ltb_spec fd 0); [lia|]. destruct (Z.leb_spec PROC_MAX_FDS fd); [lia|]. cbn.
  by destruct (truthy _).
Qed.

(** A handle in hand moves into the lowest free descriptor. *)
Lemma alloc_spec h k :
  match ufd_alloc h k with
  | (r, k') => (r = -1 /\ k' = k) \/
      (UFD_BASE <= r < PROC_MAX_FDS /\ ufd_lookup r k = None /\ ufd_lookup r k' = Some h /\ slots k' ≡ₚ h :: slots k /\
       forall j, j <> r -> ufd_lookup j k' = ufd_lookup j k)
  end.
Proof.
  unfold ufd_alloc. destruct (pstore k !! fd_owner k) as [p|] eqn:Hp; [|by left]. destruct (find_idx _ _ _) as [i|] eqn:E; [right|by left].
  apply find_idx_Some in E as (Hi & Hf & _). unfold UFD_BASE in *. assert (0 <= i < PROC_MAX_FDS) as Hr by (unfold PROC_MAX_FDS in *; lia).
  assert (slot p i = None) as Hs by (unfold slot; by apply negb_true_iff in Hf as ->).
  pose proof (lookup_owner k (take_fd i h 0) p ltac:(done) Hp) as Hp'. split; [unfold PROC_MAX_FDS in *; lia|]. split; [by rewrite (lookup_of_slot _ _ _ Hp Hr)|].
  split; [rewrite (lookup_of_slot _ _ _ Hp' Hr), slot_take; by rewrite decide_True|]. split.
  - rewrite (slots_upd _ _ _ _ Hp), (occupied_take i h 0 p Hr Hs). by rewrite (slots_at _ _ _ Hp).
  - intros j Hj. unfold ufd_lookup, fd_entry. rewrite Hp', Hp. cbn [take_fd on_mm p_mm set_p_mm set_ufd_offset set_ufd_handle set_ufd_inuse ufd_inuse ufd_handle].
    rewrite !fn_lookup_insert_ne by done. destruct (_ || _); [done|]. cbn. by rewrite fn_lookup_insert_ne.
Qed.

Lemma swp_alloc h (Q : Z -> sys F -> Prop) X s :
  owns (h :: X) s -> (owns (h :: X) s -> Q (-1) s) ->
  (forall r s', 0 <= r < PROC_MAX_FDS -> owns X s' -> ufd_lookup r (sk s) = None -> ufd_lookup r (sk s') = Some h -> (forall j, j <> r -> ufd_lookup j (sk s') = ufd_lookup j (sk s)) -> Q r s') ->
  swp (on_kst (ufd_alloc h)) Q s.
Proof.
  intros O HN HQ. unfold swp, on_kst. pose proof (alloc_spec h (sk s)) as H. destruct (ufd_alloc h (sk s)) as [r k].
  destruct H as [[-> ->]|(Hr & Hn & Hl & Hs & Hj)].
  - replace (with_sk (sk s) s) with s by (by destruct s). by apply HN.
  - apply HQ; [unfold UFD_BASE in Hr; lia| |done|done|done]. eapply owns_intro; [|apply accounted_kst, O].
    cbn [sk with_sk]. rewrite Hs. cbn [app]. apply Permutation_middle.
Qed.

(** The handle of a descriptor that is released is in hand. *)
Lemma release_spec fd k h : ufd_lookup fd k = Some h ->
  slots k ≡ₚ h :: slots (ufd_release fd k) /\ forall j, j <> fd -> ufd_lookup j (ufd_release fd k) = ufd_lookup j k.
Proof.
  intros E. pose proof (lookup_inv _ _ _ E) as (Hfd & p & Hp & Hs). unfold ufd_release. destruct (Z.leb_spec 0 fd); [|lia]. destruct (Z.ltb_spec fd PROC_MAX_FDS); [|lia]. cbn [andb]. split.
  - rewrite (slots_upd _ _ _ _ Hp). rewrite (slots_at _ _ _ Hp). by rewrite (occupied_clear fd h p Hfd Hs).
  - intros j Hj. unfold ufd_lookup, fd_entry. rewrite (lookup_owner k (Reap.clear_fd fd) p ltac:(done) Hp), Hp. cbn [Reap.clear_fd on_mm p_mm set_p_mm set_ufd_inuse ufd_inuse ufd_handle].
    rewrite fn_lookup_insert_ne by done. by destruct (_ || _).
Qed.

Lemma owns_release fd h X s : ufd_lookup fd (sk s) = Some h -> owns X s -> owns (h :: X) (with_sk (ufd_release fd (sk s)) s).
Proof.
  intros E O. destruct (release_spec _ _ _ E) as [Hs _]. eapply owns_intro; [|apply accounted_kst, O].
  cbn [sk with_sk app]. rewrite Hs. symmetry. apply Permutation_middle.
Qed.

Lemma slots_set_offset fd o k : slots (set_fd_offset fd o k) ≡ₚ slots k.
Proof. apply slots_keeps. intros p j. done. Qed.

Lemma owns_set_offset fd o X s : owns X s -> owns X (with_sk (set_fd_offset fd o (sk s)) s).
Proof. apply owns_kst, slots_set_offset. Qed.

(** ** What a handle is *)

Lemma handle_kind h L s : accounted L s -> h ∈ L ->
  (exists id w, 0 <= id < Pipe.MAX_PIPES /\ h = UFD_PIPE_MAKE id w /\ is_pipe h = true) \/
  (is_pipe h = false /\ is_sock h = true) \/
  (exists i, is_pipe h = false /\ is_sock h = false /\ h = Vfs.fd_of i /\ i ∈ vnodes L).
Proof.
  intros A Hin. pose proof (proj1 (Forall_forall handle_ok L) (ac_handles _ _ A) h ltac:(by apply list_elem_of_In)) as Hk. unfold handle_ok in Hk.
  destruct (is_pipe h) eqn:Ep; [left; destruct Hk as (id & w & Hid & ->); by exists id, w|]. right. destruct (is_sock h) eqn:Es; [by left|]. right.
  exists (Z.to_nat (h - 1)). split; [done|]. split; [done|]. split; [unfold Vfs.fd_of; lia|]. apply list_elem_of_omap. exists h. split; [done|]. unfold vnode. by rewrite Ep, Es.
Qed.

Lemma vnodes_cons_fd i L : (i < Vfs.MAX_INODES)%nat -> vnodes (Vfs.fd_of i :: L) = i :: vnodes L.
Proof.
  intros Hi. unfold vnodes. cbn. unfold vnode. destruct (vfs_handle_kind (Vfs.fd_of i)) as [-> ->]; [unfold Vfs.fd_of, Vfs.MAX_INODES in *; lia|].
  cbn. unfold Vfs.fd_of. by replace (Z.to_nat (Z.of_nat i + 1 - 1)) with i by lia.
Qed.

Lemma accounted_vfs L L' v s :
  accounted L s -> vinv v (vnodes L') -> Forall handle_ok L' -> (forall id w, ends id w L' = ends id w L) -> accounted L' (with_sv v s).
Proof. intros [A B C D] V Hh He. constructor; [done|done| |exact D]. intros id Hid. rewrite !He. by apply C. Qed.

Lemma ends_other id w h L : is_pipe h = false -> ends id w (h :: L) = ends id w L.
Proof.
  intros Ep. rewrite ends_cons. destruct (Z.eqb_spec h (UFD_PIPE_MAKE id w)) as [E|]; [|done]. exfalso.
  assert (Z.testbit (UFD_PIPE_MAKE id w) 30 = true) as Hb by (unfold UFD_PIPE_MAKE, UFD_PIPE_FLAG; rewrite !Z.lor_spec; done).
  rewrite <- E in Hb. unfold is_pipe, UFD_PIPE_FLAG in Ep. change 0x40000000 with (1 << 30) in Ep. rewrite truthy_land_bit in Ep by lia. congruence.
Qed.

Lemma fd_kind i : (i < Vfs.MAX_INODES)%nat -> is_pipe (Vfs.fd_of i) = false /\ is_sock (Vfs.fd_of i) = false.
Proof. intros Hi. apply vfs_handle_kind. unfold Vfs.fd_of, Vfs.MAX_INODES in *. lia. Qed.

(** Sockets are not accounted for. *)
Lemma accounted_sock h L s : is_pipe h = false -> is_sock h = true -> accounted (h :: L) s <-> accounted L s.
Proof.
  intros Hp Hs. assert (vnodes (h :: L) = vnodes L) as Ev by (unfold vnodes; cbn; unfold vnode; by rewrite Hp, Hs). split; intros [A B C D]; constructor; try exact D.
  - by rewrite <- Ev.
  - by apply Forall_cons_iff in B as [_ B].
  - intros id Hid. specialize (C id Hid). by rewrite !ends_other in C.
  - by rewrite Ev.
  - constructor; [unfold handle_ok; by rewrite Hp, Hs|done].
  - intros id Hid. rewrite !ends_other by done. by apply C.
Qed.

Lemma held_index L s i : accounted L s -> i ∈ vnodes L -> (i < Vfs.MAX_INODES)%nat.
Proof. intros [A _ _ _] Hi. eapply VfsSafe.live_bound; [exact A|]. eapply VfsSafe.held_live; [exact A|done]. Qed.

(** Closing what is in hand, except a socket. *)
Lemma swp_vfs_close i (Q : Z -> sys F -> Prop) L s :
  (i < Vfs.MAX_INODES)%nat -> accounted (Vfs.fd_of i :: L) s -> (forall r s', accounted L s' -> sk s' = sk s -> Q r s') -> swp (on_vfs (Vfs.vfs_close (Vfs.fd_of i))) Q s.
Proof.
  intros Hi A HQ. pose proof (ac_vfs _ _ A) as V. rewrite vnodes_cons_fd in V by done. apply swp_vfs.
  apply (VfsSafe.vwp_close (I := I) _ (i :: vnodes L) (vnodes L) i); [done|done|]. intros r v' V'. apply HQ; [|done].
  apply (accounted_vfs (Vfs.fd_of i :: L)); [done|done|by destruct A as [_ [_ B]%Forall_cons_iff _ _]|]. intros id w. symmetry. apply ends_other, (fd_kind i Hi).
Qed.

Lemma swp_close_handle h (Q : Z -> sys F -> Prop) L s :
  accounted (h :: L) s -> (forall r s', accounted L s' -> same_fds (sk s) (sk s') -> Q r s') -> swp (close_handle h) Q s.
Proof.
  intros A HQ. unfold close_handle. destruct (handle_kind h _ s A ltac:(by left)) as [(id & w & Hid & -> & ->)|[[Hp Hs]|(i & -> & -> & -> & Hi)]]; [|rewrite Hp, Hs|].
  - destruct (pipe_make_decode id w Hid) as (_ & -> & Hw). apply swp_bind. apply (swp_close_pipe (I := I) id _ _ L); [done|by rewrite Hw|]. intros s' A' S'. apply swp_ret. by apply HQ.
  - apply swp_bind. unfold swp, on_net. destruct (NetPoll.nsock_close _ _) as [r n]. apply HQ; [|done]. pose proof (proj1 (accounted_sock h L s Hp Hs) A) as [A1 A2 A3 A4]. constructor; [exact A1|exact A2|exact A3|exact A4].
  - pose proof (held_index _ _ _ A Hi). apply (swp_vfs_close i _ L); [done|done|]. intros r s' A' E. apply HQ; [done|by rewrite E].
Qed.

(** * Calls *)

(** The call ends or parks with the books in order and nothing in hand. *)
Definition settles (m : M F outcome) s : Prop := swp m (fun _ s' => owns [] s') s.

Lemma settles_value r s : owns [] s -> settles (value r) s. Proof. done. Qed.
Lemma settles_fail s : owns [] s -> settles fail s. Proof. done. Qed.
Lemma settles_wait c s : owns [] s -> settles (ret (Wait c)) s. Proof. done. Qed.
Hint Resolve settles_value settles_fail settles_wait : core.

Lemma copy_length cr3 n : forall a m, (length (copy_from_user cr3 a n m).2 <= n)%nat.
Proof.
  induction n as [|n IH]; intros a m; cbn; [lia|]. destruct (negb _); [cbn; lia|]. specialize (IH (u64 (a + 1)) m). destruct (copy_from_user cr3 (u64 (a + 1)) n m) as [r b]. cbn in *. lia.
Qed.

Lemma settles_from_user a n k s :
  owns [] s -> (forall b s', owns [] s' -> sk s' = sk s -> len b <= Z.max 0 n -> swp (k b) (fun _ s' => owns [] s') s') -> settles (from_user a n k) s.
Proof.
  intros O Hk. unfold from_user. apply swp_bind, (swp_kmalloc (I := I) _ _ []); [done|]. intros [b|] s1 O1 E1; [|by apply settles_fail].
  apply swp_bind. unfold swp, user_read. cbn [fst snd]. pose proof (copy_length (user_cr3 (sk s1)) (Z.to_nat n) a (pm (kvm (sk s1)))) as Hl.
  destruct (copy_from_user _ _ _ _) as [r bytes]. cbn [fst snd] in *. destruct (r =? 0); [|by apply settles_fail].
  apply (swp_bind (k bytes) (fun n => value n)). eapply swp_mono; [apply Hk; [done|done|lia]|]. intros r' s2 O2. by apply settles_value.
Qed.

Lemma write_loop_refs src : forall p k, let p' := (Pipe.write_loop src p k).2 in (Pipe.used p', Pipe.read_refs p', Pipe.write_refs p') = (Pipe.used p, Pipe.read_refs p, Pipe.write_refs p).
Proof. induction src as [|c src IH]; intros p k; cbn; [done|]. destruct (_ <? _); [|done]. apply (IH (Pipe.push p c)). Qed.
Lemma drain_refs n : forall p, let p' := (Pipe.drain n p).2 in (Pipe.used p', Pipe.read_refs p', Pipe.write_refs p') = (Pipe.used p, Pipe.read_refs p, Pipe.write_refs p).
Proof.
  induction n as [|n IH]; intros p; cbn; [done|]. destruct (_ <? _); [|done]. cbn zeta in IH. set (p1 := Pipe.Pipe _ _ _ _ _ _ _). specialize (IH p1).
  destruct (Pipe.drain n p1) as [l p2]. exact IH.
Qed.

(** Pipe operations that move bytes leave the counts. *)
Definition keeps_refs (st st' : Pipe.pipes_st) : Prop :=
  forall j, let p' := Pipe.pipes st' j in let p := Pipe.pipes st j in (Pipe.used p', Pipe.read_refs p', Pipe.write_refs p') = (Pipe.used p, Pipe.read_refs p, Pipe.write_refs p).

Lemma keeps_refs_set id p st : (Pipe.used p, Pipe.read_refs p, Pipe.write_refs p) = (Pipe.used (Pipe.pipes st id), Pipe.read_refs (Pipe.pipes st id), Pipe.write_refs (Pipe.pipes st id)) ->
  keeps_refs st (Pipe.set_pipe id p st).
Proof. intros E j. cbn. destruct (decide (id = j)) as [<-|]; [by rewrite fn_lookup_insert|by rewrite fn_lookup_insert_ne]. Qed.

Lemma pipe_write_refs id src n st : keeps_refs st (Pipe.pipe_write id src n st).2.
Proof.
  unfold Pipe.pipe_write. destruct (_ || _); [done|]. destruct (_ =? 0); [done|]. pose proof (write_loop_refs (take (Z.to_nat n) src) (Pipe.pipes st id) 0) as H.
  destruct (Pipe.write_loop _ _ _) as [w p]. cbn [snd] in *. pose proof (keeps_refs_set id p st H) as K. destruct (0 <? w); [|done]. intros j. cbn zeta. etrans; [apply wake_refs|apply K].
Qed.

Lemma owns_pipe_bytes X st s : keeps_refs (pipe_view s) st -> owns X s -> owns X (pipe_absorb st s).
Proof.
  intros K O. eapply (owns_same (I := I) _ s); [|apply same_parks]. apply (accounted_pipes (I := I) (X ++ slots (sk s))); [exact O|done|apply O|]. intros id Hid. eapply refs_ok_same; [apply K|]. by apply (ac_pipes _ _ O).
Qed.

(** ** Writing *)

(** The descriptor's offset leaves room for [n] bytes and the block behind them. *)
Definition offset_room (fd n : Z) (k : kst) : Prop :=
  forall h o, ufd_lookup fd k = Some h -> is_pipe h = false -> is_sock h = false -> ufd_offset_of fd k = Some o -> 0 <= o /\ o + n + Vfs.BLOCK_SIZE < 2 ^ 32.

Lemma offset_some fd k h : ufd_lookup fd k = Some h -> exists o, ufd_offset_of fd k = Some o.
Proof. unfold ufd_lookup, ufd_offset_of. destruct (fd_entry fd k); [by eexists|done]. Qed.

Lemma settles_write a1 a2 a3 s : owns [] s -> offset_room (s32 a1) COPY_MAX (sk s) -> settles (sys_write a1 a2 a3) s.
Proof.
  intros O Hroom. unfold sys_write. destruct (_ || _); [by auto|]. apply swp_bind, swp_gets. destruct (ufd_lookup (s32 a1) (sk s)) as [h|] eqn:El.
  - destruct (handle_kind h _ s O (lookup_slot _ _ _ El)) as [(id & w & Hid & -> & ->)|[[Hp Hs]|(i & Hp & Hs & -> & Hi)]].
    + destruct (negb _); [by auto|]. apply settles_from_user; [done|]. intros b s1 O1 _ _. unfold swp, on_pipes.
      pose proof (pipe_write_refs (UFD_PIPE_ID (UFD_PIPE_MAKE id w)) b (Z.min (s32 a3) COPY_MAX) (pipe_view s1)) as K. destruct (Pipe.pipe_write _ _ _ _) as [r st]. by apply owns_pipe_bytes.
    + rewrite Hp, Hs. apply settles_from_user; [done|]. intros b s1 O1 _ _. by apply (swp_net (I := I) _ _ []).
    + rewrite Hp, Hs. apply swp_bind, swp_gets. destruct (offset_some _ _ _ El) as [o Eo]. rewrite Eo. change (default 0 (Some o)) with o. destruct (Hroom _ o El Hp Hs Eo) as [H0 H1].
      apply settles_from_user; [done|]. intros b s1 O1 E1 Hb. apply swp_bind, (swp_vfs_owns (I := I) _ _ []); [done| |].
      * intros R HR. apply (VfsFile.vwp_pwrite (I := I) _ (vnodes ([] ++ slots (sk s1)))); [apply O1|by rewrite E1|done| |by intros; apply HR]. unfold COPY_MAX, Vfs.BLOCK_SIZE in *. lia.
      * intros r s2 O2 E2. apply swp_bind. destruct (0 <? r); [|by apply swp_ret]. apply swp_mod_kst. by apply owns_set_offset.
  - destruct (_ || _); [|by auto]. apply swp_bind, swp_user_read. intros r. apply swp_bind, (swp_putchars (I := I) _ _ []); [done|]. intros s1 O1 _. by apply settles_value.
Qed.

(** ** Reading *)

Lemma settles_deliver ubuf n b s : owns [] s -> settles (deliver ubuf n b) s.
Proof. intros O. by apply (swp_deliver (I := I) _ _ _ _ []). Qed.

Lemma settles_read_pipe ubuf id n cr3 rsp s : owns [] s -> settles (read_pipe ubuf id n cr3 rsp) s.
Proof.
  intros O. unfold read_pipe. apply swp_bind, swp_gets. set (self := get_cur_proc (sk s)). unfold settles, swp.
  assert (match Pipe.pipe_read_iter id n self (pipe_view s) with Pipe.ReadDone _ _ st => keeps_refs (pipe_view s) st | Pipe.ReadPark st => keeps_refs (pipe_view s) st end) as K.
  { unfold Pipe.pipe_read_iter. set (st0 := if truthy self then _ else _). assert (Pipe.pipes st0 = sp s) as E0 by (unfold st0; by destruct (truthy self)).
    assert (forall p, (Pipe.used p, Pipe.read_refs p, Pipe.write_refs p) = (Pipe.used (Pipe.pipes st0 id), Pipe.read_refs (Pipe.pipes st0 id), Pipe.write_refs (Pipe.pipes st0 id)) ->
      forall st1, Pipe.pipes st1 = Pipe.pipes st0 -> keeps_refs (pipe_view s) (Pipe.set_pipe id p st1)) as Hset.
    { intros p Ep st1 E1 j. rewrite E0 in Ep. cbn. rewrite E1, E0. destruct (decide (id = j)) as [<-|]; [by rewrite fn_lookup_insert|by rewrite fn_lookup_insert_ne]. }
    assert (keeps_refs (pipe_view s) st0) as K0 by (intros j; by rewrite E0). destruct (0 <? _).
    - pose proof (drain_refs (Z.to_nat n) (Pipe.pipes st0 id)) as Hd. destruct (Pipe.drain _ _) as [l p']. by apply Hset.
    - destruct (_ =? 0); [done|]. destruct (negb _); [done|]. by apply Hset. }
  destruct (Pipe.pipe_read_iter _ _ _ _) as [got b st|st].
  - change (swp (restore cr3 rsp ;; deliver ubuf got b) (fun _ s' => owns [] s') (pipe_absorb st s)). apply swp_bind, swp_mod_kst. apply settles_deliver, owns_restore. by apply owns_pipe_bytes.
  - by apply owns_pipe_bytes.
Qed.

(** Reads from a descriptor; an empty descriptor 0 is the keyboard's. *)
Lemma settles_read_fd a1 a2 a3 s : owns [] s -> ufd_lookup (s32 a1) (sk s) <> None -> offset_room (s32 a1) 0 (sk s) -> settles (sys_read a1 a2 a3) s.
Proof.
  intros O Hl Hroom. unfold sys_read. destruct ((s32 a3 <? 0) || _) eqn:Ec; [by auto|]. apply orb_false_iff in Ec as [Hn _]. apply Z.ltb_ge in Hn.
  set (n := Z.min (s32 a3) COPY_MAX). assert (0 <= n) as Hn0 by (unfold n, COPY_MAX; lia).
  apply swp_bind, swp_get. destruct (ufd_lookup (s32 a1) (sk s)) as [h|] eqn:El; [|done]. clear Hl.
  destruct (is_pipe h && _) eqn:Ew; [by auto|]. apply swp_bind, (swp_kmalloc (I := I) _ _ []); [done|]. intros [b|] s1 O1 E1; [|by apply settles_fail].
  rewrite <- E1 in El |- *. destruct (handle_kind h _ s1 O1 (lookup_slot _ _ _ El)) as [(id & w & Hid & -> & Hp)|[[Hp Hs]|(i & Hp & Hs & -> & Hi)]].
  - rewrite Hp. destruct (_ || _); [by apply settles_fail|]. by apply settles_read_pipe.
  - rewrite Hp, Hs. apply swp_bind. unfold swp at 1, on_net. destruct (NetPoll.nsock_recv _ _ _) as [[got d] m]. apply settles_deliver. by apply owns_net.
  - rewrite Hp, Hs. destruct (offset_some _ _ _ El) as [o Eo]. rewrite Eo. change (default 0 (Some o)) with o. rewrite E1 in El, Eo. destruct (Hroom _ o El Hp Hs Eo) as [H0 _].
    apply swp_bind, (swp_vfs_owns (I := I) _ _ []); [done| |].
    + intros R HR. apply (VfsOps.vwp_pread (I := I) _ (vnodes ([] ++ slots (sk s1)))); [apply O1|done|done|done|by intros; apply HR].
    + intros [r d] s2 O2 _. destruct (0 <? r); [|by apply settles_value]. apply swp_bind, (swp_user_write (I := I) _ _ _ []); [done|]. intros e s3 O3 _ _.
      apply swp_bind. destruct (0 <? _); [apply swp_mod_kst|apply swp_ret]; apply settles_value; [by apply owns_set_offset|done].
Qed.

(** ** Names *)

Lemma path_nonempty cwd path : Path.path_resolve cwd path Path.MAX_PATH <> [].
Proof.
  unfold Path.path_resolve. destruct (Path.scan_comps _ _ _) as [|c l]; [done|]. rewrite Path.emit_comps by (unfold Path.MAX_PATH; cbn; lia). change (Z.to_nat (Path.MAX_PATH - 1)) with 255%nat. done.
Qed.

Lemma settles_with_path uptr k s : owns [] s -> (forall p, p <> [] -> settles (k p) s) -> settles (with_path uptr k) s.
Proof.
  intros O Hk. unfold with_path. destruct (negb _); [by auto|]. apply swp_bind. unfold copy_path_from_user. apply swp_bind, swp_gets. destruct (negb _); [by apply swp_ret, settles_fail|].
  apply swp_bind, swp_gets, swp_ret. apply Hk, path_nonempty.
Qed.

Lemma accounted_bound L s : accounted L s -> len L < 2 ^ 31 -> len (vnodes L) < 2 ^ 31.
Proof. intros _ H. enough (length (vnodes L) <= length L)%nat by lia. unfold vnodes. clear. induction L as [|h L IH]; cbn; [lia|]. destruct (vnode h); cbn; lia. Qed.

(** Few enough descriptors for the counts of the nodes. *)
Definition few (k : kst) : Prop := len (slots k) < 2 ^ 30.

Lemma swp_open path flags (Q : Z -> sys F -> Prop) X s :
  owns X s -> path <> [] -> len X < 2 ^ 30 -> few (sk s) ->
  (forall s', owns X s' -> sk s' = sk s -> Q (-1) s') ->
  (forall i s', (i < Vfs.MAX_INODES)%nat -> owns (Vfs.fd_of i :: X) s' -> sk s' = sk s -> Q (Vfs.fd_of i) s') ->
  swp (on_vfs (Vfs.vfs_open path flags)) Q s.
Proof.
  intros O Hp HX Hf HN HQ. apply swp_vfs. apply (VfsOps.vwp_open (I := I) _ _ _ (vnodes (X ++ slots (sk s)))); [apply O|done| |split].
  - eapply accounted_bound; [exact O|]. rewrite length_app. unfold few in Hf. lia.
  - intros v V. apply HN; [by apply owns_vfs|done].
  - intros i v V Li. assert (i < Vfs.MAX_INODES)%nat as Hi by (eapply VfsSafe.live_bound; [exact V|exact Li]). apply HQ; [done| |done].
    unfold SysInv.owns. cbn [sk with_sv app]. eapply accounted_vfs; [exact O|by rewrite vnodes_cons_fd| |].
    + constructor; [|apply O]. unfold handle_ok. destruct (fd_kind i Hi) as [-> ->]. unfold Vfs.fd_of. lia.
    + intros id w. apply ends_other, (fd_kind i Hi).
Qed.

(** The handle in hand is closed. *)
Lemma swp_close_hand i (Q : Z -> sys F -> Prop) X s :
  (i < Vfs.MAX_INODES)%nat -> owns (Vfs.fd_of i :: X) s -> (forall r s', owns X s' -> Q r s') -> swp (on_vfs (Vfs.vfs_close (Vfs.fd_of i))) Q s.
Proof.
  intros Hi O HQ. apply (swp_vfs_close i _ (X ++ slots (sk s))); [done|exact O|]. intros r s' A E. apply HQ. unfold SysInv.owns. by rewrite E.
Qed.

Lemma settles_open a1 a2 s : owns [] s -> few (sk s) -> settles (sys_open a1 a2) s.
Proof.
  intros O Hf. unfold sys_open. apply settles_with_path; [done|]. intros p Hp. apply swp_bind, (swp_open _ _ _ []); [done|done|done|done|intros s1 O1 _; by apply settles_fail|].
  intros i s1 Hi O1 E1. destruct (VfsSafe.fd_nonnull i) as (_ & _ & ->). apply swp_bind, (swp_alloc _ _ []); [done| |].
  - intros O2. cbn [Z.ltb Z.compare]. apply swp_bind, (swp_close_hand _ _ []); [done|done|]. intros. by apply settles_fail.
  - intros r s2 Hr O2 _ El _. destruct (Z.ltb_spec r 0); [lia|]. apply swp_bind. destruct (truthy _); [|by apply swp_ret, settles_value].
    apply swp_bind, (swp_vfs_owns (I := I) _ _ []); [done| |].
    + intros R HR. pose proof (lookup_slot _ _ _ El) as Hin. apply (VfsTree.vwp_fsize (I := I) _ (vnodes ([] ++ slots (sk s2)))); [apply O2| |intros; apply HR, O2].
      destruct (fd_kind i Hi). apply list_elem_of_omap. exists (Vfs.fd_of i). split; [done|]. unfold vnode. rewrite H0, H1. cbn. unfold Vfs.fd_of. f_equal. lia.
    + intros sz s3 O3 _. apply swp_mod_kst, settles_value. by apply owns_set_offset.
Qed.

(** ** Descriptors *)

Lemma settles_close a1 s : owns [] s -> settles (sys_close a1) s.
Proof.
  intros O. unfold sys_close. apply swp_bind, swp_gets. destruct (ufd_lookup (s32 a1) (sk s)) as [h|] eqn:El; [|by auto].
  apply swp_bind, swp_mod_kst. set (s1 := with_sk _ s). pose proof (owns_release _ _ _ _ El O) as O1. fold s1 in O1.
  apply swp_bind, (swp_close_handle _ _ (slots (sk s1))); [exact O1|]. intros r s2 A S. apply settles_value. by apply (owns_same (I := I) [] s1).
Qed.

Lemma lookup_vnode fd h i X s : ufd_lookup fd (sk s) = Some h -> (i < Vfs.MAX_INODES)%nat -> h = Vfs.fd_of i -> i ∈ vnodes (X ++ slots (sk s)).
Proof.
  intros El Hi ->. apply list_elem_of_omap. exists (Vfs.fd_of i). split; [apply elem_of_app; right; by apply lookup_slot in El|].
  unfold vnode. destruct (fd_kind i Hi) as [-> ->]. cbn. unfold Vfs.fd_of. f_equal. lia.
Qed.

Lemma swp_fsize i (Q : Z -> sys F -> Prop) s :
  owns [] s -> i ∈ vnodes ([] ++ slots (sk s)) -> (forall r s', owns [] s' -> sk s' = sk s -> Q r s') -> swp (on_vfs (Vfs.vfs_fsize (Vfs.fd_of i))) Q s.
Proof.
  intros O Hi HQ. apply (swp_vfs_owns (I := I) _ _ []); [done| |done]. intros R HR. apply (VfsTree.vwp_fsize (I := I) _ (vnodes ([] ++ slots (sk s)))); [apply O|done|intros; apply HR, O].
Qed.

Lemma flags_either h : truthy (h .& (UFD_PIPE_FLAG .| UFD_SOCK_FLAG)) = is_pipe h || is_sock h.
Proof.
  unfold is_pipe, is_sock. rewrite Z.land_lor_distr_r. unfold truthy. destruct (Z.eqb_spec (h .& UFD_PIPE_FLAG) 0) as [->|Hn]; [by rewrite Z.lor_0_l|].
  cbn [negb orb]. apply negb_true_iff, Z.eqb_neq. intros E. apply Z.lor_eq_0_l in E. done.
Qed.

Lemma settles_lseek a1 a2 a3 s : owns [] s -> settles (sys_lseek a1 a2 a3) s.
Proof.
  intros O. unfold sys_lseek. apply swp_bind, swp_gets, swp_bind, swp_gets. destruct (ufd_lookup (s32 a1) (sk s)) as [h|] eqn:El; [|by auto].
  destruct (offset_some _ _ _ El) as [o ->]. rewrite flags_either. destruct (is_pipe h || is_sock h) eqn:Ek; [by auto|]. apply orb_false_iff in Ek as [Ep Es].
  assert (forall b s', owns [] s' -> settles (let noff := Format.s64 (b + Format.s64 a2) in if noff <? 0 then fail else mod_kst (set_fd_offset (s32 a1) (u32 noff)) ;; value (u32 noff)) s') as Hst.
  { intros b s' O'. cbn zeta. destruct (_ <? 0); [by apply settles_fail|]. apply swp_bind, swp_mod_kst, settles_value. by apply owns_set_offset. }
  destruct (s32 a3 =? 0); [by apply Hst|]. destruct (s32 a3 =? 1); [by apply Hst|]. destruct (s32 a3 =? 2); [|by auto].
  destruct (handle_kind h _ s O (lookup_slot _ _ _ El)) as [(?&?&?&?&?)|[[? ?]|(i & _ & _ & -> & Hi)]]; [congruence..|].
  apply swp_bind, swp_fsize; [done|done|]. intros r s1 O1 _. by apply Hst.
Qed.

Lemma owns_undo_alloc r h X s : (0 <=? r) = true -> ufd_lookup r (sk s) = Some h -> owns X s ->
  swp (if 0 <=? r then mod_kst (ufd_release r) else ret tt) (fun _ s' => owns (h :: X) s' /\ forall j, j <> r -> ufd_lookup j (sk s') = ufd_lookup j (sk s)) s.
Proof. intros -> El O. apply swp_mod_kst. split; [by apply owns_release|]. by apply release_spec in El as [_ Hj]. Qed.

Lemma swp_close_ends id (Q : outcome -> sys F -> Prop) s :
  0 <= id < Pipe.MAX_PIPES -> owns [UFD_PIPE_MAKE id false; UFD_PIPE_MAKE id true] s -> (forall s', owns [] s' -> Q (Ret (-1)) s') ->
  swp (close_pipe id 0 ;; close_pipe id 1 ;; fail) Q s.
Proof.
  intros Hid O HQ. apply swp_bind, (swp_close_pipe (I := I) id 0 _ (UFD_PIPE_MAKE id true :: slots (sk s))); [done|exact O|]. intros s1 A1 S1.
  apply swp_bind, (swp_close_pipe (I := I) id 1 _ (slots (sk s))); [done|exact A1|]. intros s2 A2 S2. apply swp_fail, HQ. apply (owns_same (I := I) [] s); [exact A2|]. by eapply same_fds_trans.
Qed.

Lemma settles_pipe a1 s : owns [] s -> settles (sys_pipe a1) s.
Proof.
  intros O. unfold sys_pipe. destruct (negb _); [by auto|]. apply swp_bind, (swp_pipe_new (I := I) _ _ (slots (sk s))); [exact O| |].
  { intros s1 A1 S1. apply settles_fail. by apply (owns_same (I := I) [] s). }
  intros id s1 Hid A1 S1. destruct (Z.ltb_spec id 0); [lia|]. set (R := UFD_PIPE_MAKE id false) in *. set (W := UFD_PIPE_MAKE id true) in *.
  assert (owns [R; W] s1) as O1 by (apply (owns_same (I := I) [R; W] s); [exact A1|done]). clear A1 S1.
  apply swp_bind, (swp_alloc R _ [W]); [done| |].
  { intros O2. apply swp_bind, (swp_alloc W _ [R]).
    - eapply accounted_perm; [|exact O2]. apply perm_swap.
    - intros O3. cbn [Z.ltb Z.leb Z.compare orb]. apply swp_bind, swp_ret, swp_bind, swp_ret. apply swp_close_ends; [done| |done]. exact O2.
    - intros w s2 Hw O3 _ El _. cbn [Z.ltb Z.leb Z.compare orb]. apply swp_bind, swp_ret, swp_bind. rewrite (proj2 (Z.leb_le 0 w)) by lia. apply swp_mod_kst. apply swp_close_ends; [done| |done].
      eapply accounted_perm; [|exact (owns_release _ _ _ _ El O3)]. apply perm_swap. }
  intros r s2 Hr O2 _ Elr _. apply swp_bind, (swp_alloc W _ []); [done| |].
  { intros O3. destruct (Z.ltb_spec r 0); [lia|]. cbn [Z.ltb Z.leb Z.compare orb]. apply swp_bind. rewrite (proj2 (Z.leb_le 0 r)) by lia. apply swp_mod_kst, swp_bind, swp_ret.
    apply swp_close_ends; [done| |done]. exact (owns_release _ _ _ _ Elr O3). }
  intros w s3 Hw O3 Enw Elw Hj. destruct (Z.ltb_spec r 0); [lia|]. destruct (Z.ltb_spec w 0); [lia|]. cbn [orb].
  assert (r <> w) as Hne by (intros ->; congruence).
  apply swp_bind, (swp_user_write (I := I) _ _ _ []); [done|]. intros e s4 O4 _ El4. destruct (e =? 0); [by apply settles_value|].
  assert (ufd_lookup r (sk s4) = Some R) as Elr4 by (rewrite El4, Hj by done; done). assert (ufd_lookup w (sk s4) = Some W) as Elw4 by (by rewrite El4).
  apply swp_bind. rewrite (proj2 (Z.leb_le 0 r)) by lia. apply swp_mod_kst. pose proof (owns_release _ _ _ _ Elr4 O4) as O5. destruct (release_spec _ _ _ Elr4) as [_ Hj5].
  set (s5 := with_sk (ufd_release r (sk s4)) s4) in *. apply swp_bind. rewrite (proj2 (Z.leb_le 0 w)) by lia. apply swp_mod_kst. apply swp_close_ends; [done| |done].
  eapply accounted_perm; [|refine (owns_release w W [R] s5 _ O5); cbn; by rewrite Hj5]. apply perm_swap.
Qed.

Lemma lookup_released fd k : ufd_lookup fd (ufd_release fd k) = None.
Proof.
  unfold ufd_release. destruct ((0 <=? fd) && (fd <? PROC_MAX_FDS)) eqn:Er.
  - unfold ufd_lookup, fd_entry. rewrite fd_owner_upd by done. cbn [upd set_pstore pstore]. rewrite lookup_alter_eq. destruct (pstore k !! fd_owner k); [|done]. cbn. rewrite fn_lookup_insert. by rewrite orb_true_r.
  - unfold ufd_lookup, fd_entry. destruct (pstore k !! _); [|done]. destruct (Z.leb_spec 0 fd), (Z.ltb_spec fd PROC_MAX_FDS); cbn in Er; try done.
    + destruct (Z.leb_spec PROC_MAX_FDS fd); [|lia]. by rewrite orb_true_r.
    + by destruct (Z.ltb_spec fd 0); [|lia].
    + by destruct (Z.ltb_spec fd 0); [|lia].
Qed.

(** A descriptor that is about to be replaced. *)
Definition vacate (newfd : Z) (old : option Z) : M F unit :=
  match old with
  | Some old =>
      (if is_pipe old then close_pipe (UFD_PIPE_ID old) (UFD_PIPE_IS_WRITE old) else let* _ := on_vfs (Vfs.vfs_close old) in ret tt) ;;
      mod_kst (ufd_release newfd)
  | None => ret tt
  end.

Lemma swp_vacate newfd (Q : unit -> sys F -> Prop) s :
  owns [] s -> (forall h, ufd_lookup newfd (sk s) = Some h -> is_pipe h || negb (is_sock h) = true) ->
  (forall s', owns [] s' -> ufd_lookup newfd (sk s') = None -> (forall j, j <> newfd -> ufd_lookup j (sk s') = ufd_lookup j (sk s)) -> Q tt s') ->
  swp (vacate newfd (ufd_lookup newfd (sk s))) Q s.
Proof.
  intros O Hs HQ. unfold vacate. destruct (ufd_lookup newfd (sk s)) as [old|] eqn:El; [|by apply swp_ret, HQ]. specialize (Hs old eq_refl).
  destruct (release_spec _ _ _ El) as [Hsl _]. set (L := slots (ufd_release newfd (sk s))) in *. assert (accounted (old :: L) s) as A by (by apply (accounted_perm (slots (sk s)))).
  assert (forall s1, accounted L s1 -> same_fds (sk s) (sk s1) -> swp (mod_kst (ufd_release newfd)) Q s1) as Hend.
  { intros s1 A1 S1. apply swp_mod_kst. destruct (same_fds_lookup _ _ newfd S1) as [El1 _]. rewrite El in El1. destruct (release_spec _ _ _ El1) as [Hsl1 Hj].
    apply HQ; [|apply lookup_released|intros j Hj'; cbn; rewrite Hj by done; apply (same_fds_lookup _ _ j S1)].
    eapply owns_intro; [|apply accounted_kst, A1]. cbn [app sk with_sk]. apply (Permutation_cons_inv (a := old)). rewrite <- Hsl, <- Hsl1. symmetry. by apply same_fds_slots. }
  apply swp_bind. destruct (handle_kind old _ s O (lookup_slot _ _ _ El)) as [(id & w & Hid & -> & Hp)|[[Hp Hk]|(i & Hp & Hk & -> & Hi)]].
  - rewrite Hp. destruct (pipe_make_decode id w Hid) as (_ & -> & Hw). apply (swp_close_pipe (I := I) id _ _ L); [done|by rewrite Hw|]. by apply Hend.
  - by rewrite Hp, Hk in Hs.
  - rewrite Hp. apply swp_bind, (swp_vfs_close i _ L); [exact (held_index _ _ _ O Hi)|done|]. intros r s1 A1 E1. apply swp_ret, Hend; [done|by rewrite E1].
Qed.

Lemma take_free fd h o k p : pstore k !! fd_owner k = Some p -> 0 <= fd < PROC_MAX_FDS -> ufd_lookup fd k = None -> slots (upd (fd_owner k) (take_fd fd h o) k) ≡ₚ h :: slots k.
Proof.
  intros Hp Hfd El. rewrite (lookup_of_slot _ _ _ Hp Hfd) in El. rewrite (slots_upd _ _ _ _ Hp), (occupied_take fd h o p Hfd El). by rewrite (slots_at _ _ _ Hp).
Qed.

Lemma move_free oldfd newfd h o k : ufd_lookup oldfd k = Some h -> 0 <= newfd < PROC_MAX_FDS -> newfd <> oldfd -> ufd_lookup newfd k = None ->
  slots (upd (fd_owner k) (fun p => Reap.clear_fd oldfd (take_fd newfd h o p)) k) ≡ₚ slots k.
Proof.
  intros El Hn Hne En. destruct (lookup_inv _ _ _ El) as (Hold & p & Hp & Hs). rewrite (lookup_of_slot _ _ _ Hp Hn) in En.
  apply slots_upd_same. intros q Hq. assert (q = p) as -> by congruence. apply (Permutation_cons_inv (a := h)).
  rewrite <- (occupied_clear oldfd h (take_fd newfd h o p) Hold), (occupied_take newfd h o p Hn En); [done|]. by rewrite slot_take, decide_False.
Qed.

(** Duplicating does not go over an open socket. *)
Definition not_over_socket (newfd : Z) (k : kst) : Prop := forall h, ufd_lookup newfd k = Some h -> is_pipe h || negb (is_sock h) = true.

Lemma settles_dup2 a1 a2 s : owns [] s -> not_over_socket (s32 a2) (sk s) -> settles (sys_dup2 a1 a2) s.
Proof.
  intros O Hsock. unfold sys_dup2. set (oldfd := s32 a1). set (newfd := s32 a2) in *. apply swp_bind, swp_gets. destruct (ufd_lookup oldfd (sk s)) as [h|] eqn:El; [|by auto].
  destruct (Z.ltb_spec newfd 0); [by auto|]. destruct (Z.leb_spec PROC_MAX_FDS newfd); [by auto|]. cbn [orb]. destruct (Z.eqb_spec newfd oldfd) as [|Hne]; [by auto|].
  apply swp_bind, swp_gets, swp_bind. apply (swp_vacate newfd _ s O Hsock). intros s1 O1 En Hj. assert (ufd_lookup oldfd (sk s1) = Some h) as El1 by (by rewrite Hj).
  apply swp_bind. destruct (handle_kind h _ s1 O1 (lookup_slot _ _ _ El1)) as [(id & w & Hid & -> & Hp)|Hk].
  - rewrite Hp. destruct (pipe_make_decode id w Hid) as (_ & -> & Hw). apply swp_bind, (swp_incref_pipe (I := I) id _ _ (slots (sk s1))); [done|exact O1|rewrite Hw; by eapply lookup_slot|].
    intros s2 A2 S2. rewrite Hw in A2. apply swp_mod_kst, settles_value. destruct (lookup_inv _ _ _ El1) as (_ & p & Hp1 & _). pose proof (proj2 S2 (fd_owner (sk s1))) as Hm. rewrite Hp1 in Hm.
    destruct (pstore (sk s2) !! fd_owner (sk s1)) as [q|] eqn:Hq; [|done]. destruct (same_fds_lookup _ _ newfd S2) as [En2 _]. rewrite En in En2.
    eapply owns_intro; [|apply accounted_kst, A2]. cbn [app sk with_sk]. rewrite <- (proj1 S2) in Hq.
    rewrite (take_free newfd _ 0 _ q Hq ltac:(lia) En2). f_equiv. symmetry. by apply same_fds_slots.
  - assert (is_pipe h = false) as -> by (by destruct Hk as [[? _]|(? & ? & _)]). apply swp_bind, swp_gets, swp_mod_kst, settles_value. apply owns_kst; [|done]. by apply move_free.
Qed.

Lemma settles_dup a1 s : owns [] s -> few (sk s) -> settles (sys_dup a1) s.
Proof.
  intros O Hf. unfold sys_dup. apply swp_bind, swp_gets. destruct (ufd_lookup (s32 a1) (sk s)) as [h|] eqn:El; [|by auto]. pose proof (lookup_slot _ _ _ El) as Hin.
  apply swp_bind. unfold swp, on_kst. pose proof (alloc_spec h (sk s)) as Ha. destruct (ufd_alloc h (sk s)) as [r k].
  destruct Ha as [[-> ->]|(Hr & _ & _ & Hsl & _)]; [by replace (with_sk (sk s) s) with s by (by destruct s)|]. destruct (Z.ltb_spec r 0); [unfold UFD_BASE in Hr; lia|].
  set (s1 := with_sk k s). assert (accounted (slots (sk s)) s1) as A1 by (apply accounted_kst, O).
  assert (forall s2, accounted (h :: slots (sk s)) s2 -> same_fds (sk s1) (sk s2) ->
    settles (let* off := gets (ufd_offset_of (s32 a1)) in mod_kst (set_fd_offset r (default 0 off)) ;; value r) s2) as Hend.
  { intros s2 A2 S2. apply swp_bind, swp_gets, swp_bind, swp_mod_kst, settles_value. apply owns_set_offset. apply (owns_intro (h :: slots (sk s))); [|done].
    cbn [app]. rewrite (same_fds_slots _ _ S2). by symmetry. }
  match goal with |- match ?m s1 with _ => _ end => change (settles m s1) end. apply swp_bind.
  destruct (handle_kind h _ s O Hin) as [(id & w & Hid & -> & Hp)|[[Hp Hs]|(i & Hp & Hs & -> & Hi)]]; rewrite Hp; [|rewrite Hs; cbn [negb]..].
  - destruct (pipe_make_decode id w Hid) as (_ & -> & Hw). apply (swp_incref_pipe (I := I) id _ _ (slots (sk s))); [done|done|by rewrite Hw|]. intros s2 A2 S2. rewrite Hw in A2. by apply Hend.
  - apply swp_ret, Hend; [|done]. by apply accounted_sock.
  - pose proof (held_index _ _ _ A1 Hi) as Hlt. apply swp_vfs. apply (VfsSafe.vwp_dup (I := I) _ (vnodes (slots (sk s)))); [apply A1|done|eapply accounted_bound; [exact A1|unfold few in Hf; lia]|].
    intros v V _. apply Hend; [|done]. eapply accounted_vfs; [exact A1|by rewrite vnodes_cons_fd| |].
    + constructor; [|apply A1]. unfold handle_ok. rewrite Hp, Hs. unfold Vfs.fd_of. lia.
    + intros id w. by apply ends_other.
Qed.

(** ** Sockets *)

Lemma settles_with_sock fd k s : owns [] s -> (forall id, settles (k id) s) -> settles (with_sock fd k) s.
Proof. intros O Hk. unfold with_sock. apply swp_bind, swp_gets. destruct (ufd_lookup _ _) as [h|]; [|by auto]. destruct (is_sock h); [by apply Hk|by auto]. Qed.

Lemma settles_net_value f s : owns [] s -> settles (let* r := on_net f in value r) s.
Proof. intros O. apply swp_bind, (swp_net (I := I) _ _ []); [done|]. intros. by apply settles_value. Qed.

Lemma settles_install_sock k s : owns [] s -> settles (install_sock k) s.
Proof.
  intros O. unfold install_sock. destruct (k <? 0); [by auto|]. destruct (sock_make_kind k) as [Hp Hs].
  assert (owns [UFD_SOCK_MAKE k] s) as O1 by (apply (accounted_sock (UFD_SOCK_MAKE k)); done). apply swp_bind, (swp_alloc _ _ []); [done| |].
  - intros _. cbn [Z.ltb Z.compare]. apply swp_bind, (swp_net (I := I) _ _ []); [done|]. intros. by apply settles_fail.
  - intros r s1 Hr O2 _ _ _. destruct (Z.ltb_spec r 0); [lia|]. by apply settles_value.
Qed.

Lemma settles_socket a2 s : owns [] s -> settles (sys_socket a2) s.
Proof. intros O. apply swp_bind, (swp_net (I := I) _ _ []); [done|]. intros. by apply settles_install_sock. Qed.
Lemma settles_connect a1 a2 a3 s : owns [] s -> settles (sys_connect a1 a2 a3) s.
Proof. intros O. apply settles_with_sock; [done|]. intros. by apply settles_net_value. Qed.
Lemma settles_bind a1 a3 s : owns [] s -> settles (sys_bind a1 a3) s.
Proof. intros O. apply settles_with_sock; [done|]. intros. by apply settles_net_value. Qed.
Lemma settles_listen a1 s : owns [] s -> settles (sys_listen a1) s.
Proof. intros O. apply settles_with_sock; [done|]. intros. by apply settles_net_value. Qed.
Lemma settles_accept a1 s : owns [] s -> settles (sys_accept a1) s.
Proof. intros O. apply settles_with_sock; [done|]. intros id. apply swp_bind, (swp_net (I := I) _ _ []); [done|]. intros. by apply settles_install_sock. Qed.

Lemma settles_sendto a1 a2 a3 a5 a6 s : owns [] s -> settles (sys_sendto a1 a2 a3 a5 a6) s.
Proof.
  intros O. unfold sys_sendto. destruct (_ || _); [by auto|]. apply settles_with_sock; [done|]. intros id. apply settles_from_user; [done|]. intros b s1 O1 _ _. by apply (swp_net (I := I) _ _ []).
Qed.

Lemma settles_user_write a b m s : owns [] s -> (forall r s', owns [] s' -> settles (m r) s') -> settles (let* r := user_write a b in m r) s.
Proof. intros O Hm. apply swp_bind, (swp_user_write (I := I) _ _ _ []); [done|]. intros r s1 O1 _ _. by apply Hm. Qed.

Lemma swp_write_if (c : bool) a b (Q : unit -> sys F -> Prop) s : owns [] s -> (forall s', owns [] s' -> Q tt s') -> swp (if c then let* _ := user_write a b in ret tt else ret tt) Q s.
Proof. intros O HQ. destruct c; [|by apply swp_ret, HQ]. apply swp_bind, (swp_user_write (I := I) _ _ _ []); [done|]. intros r s1 O1 _ _. by apply swp_ret, HQ. Qed.

Lemma settles_recvfrom a1 a2 a3 a5 a6 s : owns [] s -> settles (sys_recvfrom a1 a2 a3 a5 a6) s.
Proof.
  intros O. unfold sys_recvfrom. destruct (_ || _); [by auto|]. apply settles_with_sock; [done|]. intros id. apply swp_bind, (swp_kmalloc (I := I) _ _ []); [done|]. intros [b|] s1 O1 _; [|by apply settles_fail].
  apply swp_bind, (swp_net (I := I) _ _ []); [done|]. intros [[[d ip] port]|] s2 O2 _; [|by apply settles_fail].
  apply swp_bind, (swp_deliver (I := I) _ _ _ _ []); [done|]. intros n s3 O3. apply swp_bind. destruct (0 <? n); [|by apply swp_ret, settles_value].
  apply swp_bind, swp_write_if; [done|]. intros s4 O4. apply swp_write_if; [done|]. intros. by apply settles_value.
Qed.

(** ** Files *)

(** The descriptor is a file of the virtual file system. *)
Definition is_file (fd : Z) (k : kst) : Prop := forall h, ufd_lookup fd k = Some h -> is_pipe h = false /\ is_sock h = false.

Lemma settles_fsize a1 s : owns [] s -> is_file (s32 a1) (sk s) -> settles (sys_fsize a1) s.
Proof.
  intros O Hf. unfold sys_fsize. apply swp_bind, swp_gets. destruct (ufd_lookup (s32 a1) (sk s)) as [h|] eqn:El; [|by auto]. destruct (Hf h El) as [Hp Hs].
  destruct (handle_kind h _ s O (lookup_slot _ _ _ El)) as [(?&?&?&?&?)|[[? ?]|(i & _ & _ & -> & Hi)]]; [congruence..|]. apply swp_bind, swp_fsize; [done|done|]. intros. by apply settles_value.
Qed.

Lemma settles_write_stat a size d s : owns [] s -> settles (let* w := user_write a (stat_record size d) in value (if w =? 0 then 0 else -1)) s.
Proof. intros O. apply settles_user_write; [done|]. intros. by apply settles_value. Qed.

Lemma swp_stat path (Q : Z * Z * Z -> sys F -> Prop) s :
  owns [] s -> path <> [] -> few (sk s) -> (forall r s', owns [] s' -> sk s' = sk s -> Q r s') -> swp (on_vfs (Vfs.vfs_stat path)) Q s.
Proof.
  intros O Hp Hf HQ. apply (swp_vfs_owns (I := I) _ _ []); [done| |done]. intros R HR. apply (VfsTree.vwp_stat (I := I) _ _ (vnodes ([] ++ slots (sk s)))); [apply O|done| |by intros; apply HR].
  eapply accounted_bound; [exact O|]. unfold few in Hf. cbn [app]. lia.
Qed.

Lemma settles_stat a1 a2 s : owns [] s -> few (sk s) -> settles (sys_stat a1 a2) s.
Proof.
  intros O Hf. unfold sys_stat. destruct (_ || _); [by auto|]. apply settles_with_path; [done|]. intros p Hp. apply swp_bind, swp_stat; [done..|]. intros [[e size] d] s1 O1 _.
  destruct (negb _); [by apply settles_fail|]. by apply settles_write_stat.
Qed.

Lemma settles_fstat a1 a2 s : owns [] s -> settles (sys_fstat a1 a2) s.
Proof.
  intros O. unfold sys_fstat. destruct (negb _); [by auto|]. apply swp_bind, swp_gets. destruct (ufd_lookup (s32 a1) (sk s)) as [h|] eqn:El; [|by auto]. rewrite flags_either.
  assert (forall r s', owns [] s' -> settles (let '(e, size, isdir) := r in if negb (e =? 0) then fail else let* w := user_write a2 (stat_record size isdir) in value (if w =? 0 then 0 else -1)) s') as Hend.
  { intros [[e size] d] s1 O1. destruct (negb _); [by apply settles_fail|]. by apply settles_write_stat. }
  apply swp_bind. destruct (handle_kind h _ s O (lookup_slot _ _ _ El)) as [(id & w & Hid & _ & Hp)|[[Hp Hs]|(i & Hp & Hs & -> & Hi)]].
  - rewrite Hp. apply swp_ret. exact (Hend (0, 0, 0) s O).
  - rewrite Hp, Hs. apply swp_ret. exact (Hend (0, 0, 0) s O).
  - rewrite Hp, Hs. apply (swp_vfs_owns (I := I) _ _ []); [done| |intros; by apply Hend]. intros R HR. apply (VfsTree.vwp_fstat (I := I) _ (vnodes ([] ++ slots (sk s)))); [apply O|done|intros; apply HR, O].
Qed.

Lemma swp_vfs_keeps {A} (m : Vfs.M F A) (Q : A -> sys F -> Prop) s :
  owns [] s -> (forall v H (R : A -> Vfs.vfs F -> Prop), vinv v H -> (forall r v', vinv v' H -> R r v') -> VfsPool.vwp m R v) ->
  (forall r s', owns [] s' -> sk s' = sk s -> Q r s') -> swp (on_vfs m) Q s.
Proof. intros O Hm HQ. apply (swp_vfs_owns (I := I) _ _ []); [done| |done]. intros R HR. apply (Hm _ (vnodes ([] ++ slots (sk s)))); [apply O|done]. Qed.

Lemma swp_readdir_hand i (Q : option Ext2.dirent -> sys F -> Prop) s :
  (i < Vfs.MAX_INODES)%nat -> owns [Vfs.fd_of i] s -> (forall r s', owns [Vfs.fd_of i] s' -> Q r s') -> swp (on_vfs (Vfs.vfs_readdir (Vfs.fd_of i))) Q s.
Proof.
  intros Hi O HQ. apply (swp_vfs_owns (I := I) _ _ [Vfs.fd_of i]); [done| |intros; by apply HQ]. intros R HR. apply (VfsTree.vwp_readdir (I := I) _ (vnodes ([Vfs.fd_of i] ++ slots (sk s)))); [apply O| |by intros; apply HR].
  cbn [app]. rewrite vnodes_cons_fd by done. by left.
Qed.

Lemma swp_getdents fuel i ubuf (Q : Z -> sys F -> Prop) : (i < Vfs.MAX_INODES)%nat -> forall count rec s,
  owns [Vfs.fd_of i] s -> (forall r s', owns [Vfs.fd_of i] s' -> Q r s') -> swp (getdents_loop fuel (Vfs.fd_of i) ubuf count rec) Q s.
Proof.
  intros Hi. induction fuel as [|fuel IH]; intros count rec s O HQ; cbn [getdents_loop]; [by apply swp_ret, HQ|].
  apply swp_bind, swp_readdir_hand; [done|done|]. intros [e|] s1 O1; [|by apply swp_ret, HQ]. apply swp_bind, (swp_user_write (I := I) _ _ _ [Vfs.fd_of i]); [done|].
  intros r s2 O2 _ _. destruct (r =? 0); [by apply IH|by apply swp_ret, HQ].
Qed.

Lemma settles_getdents stale a1 a2 a3 s : owns [] s -> few (sk s) -> settles (sys_getdents stale a1 a2 a3) s.
Proof.
  intros O Hf. unfold sys_getdents. apply settles_with_path; [done|]. intros p Hp. destruct (s32 a3 <=? 0); [by auto|]. destruct (negb _); [by auto|].
  apply swp_bind, (swp_open _ _ _ []); [done|done|done|done|intros; by apply settles_fail|]. intros i s1 Hi O1 E1. destruct (VfsSafe.fd_nonnull i) as (_ & _ & ->).
  apply swp_bind, swp_getdents; [done|done|]. intros n s2 O2. apply swp_bind. assert (forall s3, owns [Vfs.fd_of i] s3 -> settles (let* _ := on_vfs (Vfs.vfs_close (Vfs.fd_of i)) in value n) s3) as Hend.
  { intros s3 O3. apply swp_bind, (swp_close_hand _ _ []); [done|done|]. intros. by apply settles_value. }
  destruct (n =? _); [|by apply swp_ret, Hend]. apply swp_bind, swp_readdir_hand; [done|done|]. intros. by apply swp_ret, Hend.
Qed.

Lemma settles_chdir a1 s : owns [] s -> settles (sys_chdir a1) s.
Proof.
  intros O. unfold sys_chdir. destruct (negb _); [by auto|]. apply swp_bind, swp_gets. destruct (pstore (sk s) !! _) as [q|]; [|by auto]. apply settles_with_path; [done|]. intros p _.
  apply swp_bind, swp_vfs_keeps; [done|intros; by apply (VfsTree.vwp_isdir (I := I) _ _ H)|]. intros d s1 O1 _. destruct (negb _); [by apply settles_fail|].
  apply swp_bind, swp_mod_kst, settles_value. by apply owns_upd.
Qed.

Lemma settles_getcwd a1 a2 s : owns [] s -> settles (sys_getcwd a1 a2) s.
Proof.
  intros O. unfold sys_getcwd. apply swp_bind, swp_gets. destruct (pstore (sk s) !! _) as [p|]; [|by auto]. destruct (_ || _); [by auto|]. apply settles_user_write; [done|]. intros. by apply settles_value.
Qed.

Lemma settles_mkdir a1 s : owns [] s -> settles (sys_mkdir a1) s.
Proof.
  intros O. apply settles_with_path; [done|]. intros p _. apply swp_bind, swp_vfs_keeps; [done|intros; by apply (VfsTree.vwp_isdir (I := I) _ _ H)|]. intros d s1 O1 _. destruct (negb _); [by apply settles_fail|].
  apply swp_bind, swp_vfs_keeps; [done|intros; by apply (VfsTree.vwp_mkdir (I := I) _ _ H)|]. intros. by apply settles_value.
Qed.

(** /proc itself is not removed. *)
Definition spares (a1 : Z) s : Prop :=
  forall p s', copy_path_from_user Path.MAX_PATH a1 s = Some (Some p, s') -> VfsTree.mounted (sv s) p \/ VfsTree.spares_proc (sv s) p.

Lemma settles_unlink a1 s : owns [] s -> spares a1 s -> settles (sys_unlink a1) s.
Proof.
  intros O Hs. unfold sys_unlink, with_path. destruct (negb _); [by auto|]. unfold settles, swp, bind at 1. destruct (copy_path_from_user Path.MAX_PATH a1 s) as [[[p|] s1]|] eqn:Ec.
  - assert (s1 = s) as ->.
    { unfold copy_path_from_user, bind, user_str, gets in Ec. cbn in Ec. destruct (negb _) in Ec; [done|]. by injection Ec. }
    change (settles (let* r := on_vfs (Vfs.vfs_unlink p) in value r) s). apply swp_bind, (swp_vfs_owns (I := I) _ _ []); [done| |intros; by apply settles_value].
    intros R HR. apply (VfsTree.vwp_unlink (I := I) _ _ (vnodes ([] ++ slots (sk s)))); [apply O|by eapply Hs|by intros; apply HR].
  - assert (s1 = s) as -> by (unfold copy_path_from_user, bind, user_str, gets in Ec; cbn in Ec; destruct (negb _) in Ec; [by injection Ec|done]). by apply settles_fail.
  - unfold copy_path_from_user, bind, user_str, gets in Ec. cbn in Ec. by destruct (negb _) in Ec.
Qed.

Lemma settles_print a1 s : owns [] s -> settles (sys_print a1) s.
Proof.
  intros O. unfold sys_print. destruct (negb _); [by auto|]. apply swp_bind, swp_gets. destruct (_ =? 0); [|by auto]. apply swp_bind, (swp_putchars (I := I) _ _ []); [done|]. intros. by apply settles_value.
Qed.
End Calls.
