(* ===== verification/SysProc.v ===== *)
(** Every other call keeps the books too: reads of the keyboard, calls on processes, sleeping,
    polling, and what a parked call goes on with.

    [drains hs k k']: the process code has taken the handles [hs] out of the tables and asked
    for each of them to be closed. *)
From Stdlib Require Import ZArith Lia.
From S2P Require Import Prelude Packed Phys Paging Process Descr SysFile Stdin SysIo Syscall SysInv SysCalls.
From S2P Require Ext2 Vfs VfsPool VfsSafe VfsOps VfsTree Pipe Reap Signal Spawn Futex Mmap NetBase Udp NetPoll Keyboard Path.
#[local] Open Scope sys_scope.

Section Proc.
Context {F : Type} `{FO : Vfs.FsOps F} {I : F -> Prop} {FT : @VfsSafe.FsTotal F FO I} `{BH : Ext2.BlockHeap} {NH : NetBase.NetHeap} {PL : NetBase.Poll}
  {KH : Spawn.KernelHeap} {FR : Mmap.FileReader} {KN : KernelHandles}.
Implicit Types (s : sys F) (L X : list Z).
Local Notation owns := (@owns F I).
Local Notation accounted := (@accounted F I).
Local Notation settles := (@settles F I).
Hint Resolve settles_value settles_fail settles_wait : core.

(** * The keyboard *)

Lemma owns_tty X s s' : tty_frame s s' -> owns X s -> owns X s'.
Proof. intros (b & c & Hb & ->) O. by apply owns_con, owns_kbd. Qed.
Lemma tty_sk s s' : tty_frame s s' -> sk s' = sk s.
Proof. by intros (b & c & _ & ->). Qed.

(** Process code that leaves the tables. *)
Definition keeps (k k' : kst) : Prop := slots k' ≡ₚ slots k.
Lemma tables_refl k : keeps k k. Proof. unfold keeps. reflexivity. Qed.
Lemma tables_trans k1 k2 k3 : keeps k1 k2 -> keeps k2 k3 -> keeps k1 k3. Proof. unfold keeps. intros A B. by etrans. Qed.
Lemma keeps_upd a f k : keeps_table f -> keeps k (upd a f k). Proof. apply slots_keeps. Qed.
Lemma keeps_wake a k : keeps k (wake_waiters a k).
Proof.
  unfold wake_waiters. destruct (pstore k !! a); [|apply tables_refl]. destruct (negb _); [apply tables_refl|]. destruct (pstore k !! find_process _ k); [|apply tables_refl]. destruct (_ && _); [|apply tables_refl]. by apply keeps_upd.
Qed.

Lemma keeps_stop a k k' : Signal.signal_check_stop a k = Some k' -> keeps k k'.
Proof.
  unfold Signal.signal_check_stop. destruct (pstore k !! a); [|done]. destruct (negb _); [done|]. intros [= <-].
  eapply tables_trans; [|by apply keeps_upd]. eapply tables_trans; [|apply keeps_wake]. by apply keeps_upd.
Qed.

Lemma settles_mod f m s : keeps (sk s) (f (sk s)) -> owns [] s -> (forall s', owns [] s' -> settles m s') -> settles (mod_kst f ;; m) s.
Proof. intros K O Hm. apply swp_bind, swp_mod_kst, Hm. by apply owns_kst. Qed.

Lemma settles_park self c m s : owns [] s -> (forall s', owns [] s' -> settles m s') -> settles (park_or_interrupt self c m) s.
Proof.
  intros O Hm. unfold park_or_interrupt. apply swp_bind, swp_gets. destruct (pstore (sk s) !! self) as [p|]; [|by apply Hm]. destruct (Signal.signal_pending p).
  - apply swp_bind, swp_gets. destruct (Signal.signal_check_stop self (sk s)) as [k|] eqn:Es; [|by apply Hm]. apply settles_mod; [by eapply keeps_stop|done|]. intros. by apply settles_wait.
  - apply settles_mod; [by apply keeps_upd|done|]. intros. by apply settles_wait.
Qed.

Lemma settles_restore cr3 rsp m s : owns [] s -> (forall s', owns [] s' -> settles m s') -> settles (restore cr3 rsp ;; m) s.
Proof. intros O Hm. apply swp_bind, swp_mod_kst, Hm. by apply owns_restore. Qed.

Lemma settles_read_line ubuf max kbuf cr3 rsp s : owns [] s -> settles (stdin_read_line ubuf max kbuf cr3 rsp) s.
Proof.
  intros O. unfold stdin_read_line. apply swp_bind, swp_get, swp_bind. destruct (line_loop_total (S (ready (skb s))) max kbuf s (ac_kbd _ _ O) ltac:(lia)) as ([full k] & s1 & E & T). unfold swp at 1. rewrite E.
  pose proof (owns_tty _ _ _ T O) as O1. assert (forall n s', owns [] s' -> settles (restore cr3 rsp ;; deliver ubuf n k) s') as Hf by (intros; apply settles_restore; [done|intros; by apply settles_deliver]).
  destruct full; [by apply Hf|]. destruct (negb _); [by apply Hf|]. apply settles_park; [done|]. intros. by apply Hf.
Qed.
Lemma settles_read_raw ubuf max kbuf cr3 rsp s : owns [] s -> settles (stdin_read_raw ubuf max kbuf cr3 rsp) s.
Proof.
  intros O. unfold stdin_read_raw. apply swp_bind, swp_get, swp_bind. destruct (raw_loop_total (S (ready (skb s))) max kbuf s (ac_kbd _ _ O) ltac:(lia)) as ([full k] & s1 & E & T). unfold swp at 1. rewrite E.
  pose proof (owns_tty _ _ _ T O) as O1. assert (forall n s', owns [] s' -> settles (restore cr3 rsp ;; deliver ubuf n k) s') as Hf by (intros; apply settles_restore; [done|intros; by apply settles_deliver]).
  destruct full; [by apply Hf|]. destruct (negb _); [by apply Hf|]. apply settles_park; [done|]. intros. by apply Hf.
Qed.

Lemma settles_readkey timeout deadline cr3 rsp s : owns [] s -> settles (stdin_readkey timeout deadline cr3 rsp) s.
Proof.
  intros O. unfold stdin_readkey. apply swp_bind. unfold swp, getkey. pose proof (getkey_ready _ (ac_kbd _ _ O)) as Hg. destruct (Keyboard.getkey_poll (skb s)) as [c b]. destruct Hg as [Hb _].
  assert (owns [] (with_skb b s)) as O1 by (by apply owns_kbd). assert (forall r s', owns [] s' -> settles (restore cr3 rsp ;; value r) s') as Hf by (intros; by apply settles_restore; auto).
  match goal with |- match ?m ?x with _ => _ end => change (settles m x) end. destruct (negb _); [by apply Hf|]. apply swp_bind, swp_gets, swp_bind, swp_gets, swp_bind, swp_gets.
  destruct (pstore _ !! _) as [q|].
  - destruct (Signal.signal_pending q); [apply settles_park; auto|]. destruct (_ && _); [by apply Hf|apply settles_park; auto].
  - destruct (_ && _); [by apply Hf|by apply settles_wait].
Qed.

Lemma settles_sys_readkey a1 s : owns [] s -> settles (sys_readkey a1) s.
Proof. intros O. apply swp_bind, swp_gets. by apply settles_readkey. Qed.

Lemma settles_read a1 a2 a3 s : owns [] s -> offset_room (s32 a1) 0 (sk s) -> settles (sys_read a1 a2 a3) s.
Proof.
  intros O Hr. destruct (ufd_lookup (s32 a1) (sk s)) as [h|] eqn:El; [apply settles_read_fd; [done|by rewrite El|done]|].
  unfold sys_read. destruct (_ || _); [by auto|]. apply swp_bind, swp_get. rewrite El. destruct (_ =? 0); [|by auto]. destruct (_ =? 0); [by auto|].
  apply swp_bind, (swp_kmalloc (I := I) _ _ []); [done|]. intros [b|] s1 O1 _; [|by apply settles_fail]. destruct (match pstore _ !! _ with Some _ => _ | None => _ end); [by apply settles_read_raw|by apply settles_read_line].
Qed.

(** * The calls the process code makes *)

Definition incref_call (h : Z) : kcall := CallPipeIncref (UFD_PIPE_ID h) (UFD_PIPE_IS_WRITE h).

(** What a sequence of calls makes of the handles: a closed one goes, a shared pipe end is
    there once more. *)
Inductive posted : list kcall -> list Z -> list Z -> Prop :=
| posted_nil L L' : L ≡ₚ L' -> posted [] L L'
| posted_kfree a l L L' : posted l L L' -> posted (CallKfree a :: l) L L'
| posted_close h l L L1 L' : L ≡ₚ h :: L1 -> posted l L1 L' -> posted (Reap.close_call h :: l) L L'
| posted_share h l L L' : h ∈ L -> is_pipe h = true -> posted l (h :: L) L' -> posted (incref_call h :: l) L L'.

Lemma posted_perm l L L' L1 : posted l L L' -> L ≡ₚ L1 -> posted l L1 L'.
Proof.
  intros P. revert L1. induction P as [L L' E|a l L L' P IH|h l L L2 L' E P IH|h l L L' Hin Hp P IH]; intros L1 E1.
  - apply posted_nil. by rewrite <- E1.
  - by apply posted_kfree, IH.
  - eapply posted_close; [by rewrite <- E1|done].
  - apply posted_share; [by rewrite <- E1|done|]. apply IH. by f_equiv.
Qed.
Lemma posted_app l1 l2 L L1 L2 : posted l1 L L1 -> posted l2 L1 L2 -> posted (l1 ++ l2) L L2.
Proof.
  intros P Q. induction P as [L L' E|a l L L' P IH|h l L L3 L' E P IH|h l L L' Hin Hp P IH]; cbn [app].
  - eapply posted_perm; [exact Q|by symmetry].
  - by apply posted_kfree, IH.
  - eapply posted_close; [exact E|by apply IH].
  - apply posted_share; [done|done|by apply IH].
Qed.

Lemma swp_run_calls l L L' s (Q : unit -> sys F -> Prop) :
  posted l L L' -> accounted L s -> (forall s', accounted L' s' -> same_fds (sk s) (sk s') -> Q tt s') -> swp (run_calls l) Q s.
Proof.
  intros P. revert s Q. induction P as [L L' E|a l L L' P IH|h l L L1 L' E P IH|h l L L' Hin Hp P IH]; intros s Q A HQ; cbn [run_calls].
  - apply swp_ret, HQ; [by eapply accounted_perm|apply same_fds_refl].
  - apply swp_bind, swp_ret. by apply IH.
  - apply swp_bind. assert (accounted (h :: L1) s) as A1 by (by eapply accounted_perm).
    assert (forall s', accounted L1 s' -> same_fds (sk s) (sk s') -> swp (run_calls l) Q s') as Hend.
    { intros s' A' S'. apply IH; [done|]. intros s2 A2 S2. apply HQ; [done|by eapply same_fds_trans]. }
    unfold Reap.close_call. change (truthy (h .& UFD_PIPE_FLAG)) with (is_pipe h). change (truthy (h .& UFD_SOCK_FLAG)) with (is_sock h).
    destruct (handle_kind h _ s A1 ltac:(by left)) as [(id & w & Hid & -> & ->)|[[Hp Hs]|(i & -> & -> & -> & Hi)]]; [|rewrite Hp, Hs|]; cbn [run_call].
    + destruct (pipe_make_decode id w Hid) as (_ & -> & Hw). by apply (swp_close_pipe (I := I) id _ _ L1); [done|rewrite Hw|].
    + apply swp_bind. unfold swp at 1, on_net. destruct (NetPoll.nsock_close _ _) as [r n]. apply swp_ret, Hend; [|done].
      pose proof (proj1 (accounted_sock h L1 s Hp Hs) A1) as [B1 B2 B3 B4]. by constructor.
    + apply swp_bind, (swp_vfs_close (I := I) i _ L1); [exact (held_index _ _ _ A1 Hi)|done|]. intros r s' A' E'. apply swp_ret, Hend; [done|by rewrite E'].
  - apply swp_bind. cbn [run_call incref_call]. destruct (handle_kind h _ s A Hin) as [(id & w & Hid & -> & _)|[[? ?]|(i & ? & _)]]; [|congruence..].
    destruct (pipe_make_decode id w Hid) as (_ & -> & Hw). apply (swp_incref_pipe (I := I) id _ _ L); [done|done|by rewrite Hw|]. rewrite Hw. intros s' A' S'. apply IH; [done|].
    intros s2 A2 S2. apply HQ; [done|by eapply same_fds_trans].
Qed.

(** The tables have changed as the calls say. *)
Definition booked (k k' : kst) : Prop := exists l, calls k' = calls k ++ l /\ posted l (slots k) (slots k').

Lemma booked_trans k1 k2 k3 : booked k1 k2 -> booked k2 k3 -> booked k1 k3.
Proof. intros (l1 & E1 & P1) (l2 & E2 & P2). exists (l1 ++ l2). split; [by rewrite E2, E1, app_assoc|]. by eapply posted_app. Qed.
Lemma booked_keeps k k' : calls k' = calls k -> keeps k k' -> booked k k'.
Proof. intros E K. exists []. rewrite app_nil_r. split; [done|]. apply posted_nil. by symmetry. Qed.
Lemma keeps_same k k' : pstore k' = pstore k -> keeps k k'. Proof. intros E. unfold keeps, slots. rewrite E. reflexivity. Qed.
Lemma booked_same k k' : calls k' = calls k -> pstore k' = pstore k -> booked k k'. Proof. intros. apply booked_keeps; [done|by apply keeps_same]. Qed.
Lemma booked_refl k : booked k k. Proof. apply booked_keeps; [done|apply tables_refl]. Qed.
Lemma booked_upd a f k : keeps_table f -> booked k (upd a f k). Proof. intros H. apply booked_keeps; [done|by apply keeps_upd]. Qed.
Lemma booked_kfree a k : booked k (log_call (CallKfree a) k).
Proof. exists [CallKfree a]. split; [done|]. apply posted_kfree, posted_nil. reflexivity. Qed.
Lemma booked_for n lo body k : (forall i k, lo <= i < lo + Z.of_nat n -> booked k (body i k)) -> booked k (for_range n lo body k).
Proof. intros H. apply (for_range_ind (fun _ k' => booked k k')); [apply booked_refl|]. intros i k' Hi B. eapply booked_trans; [exact B|]. by apply H. Qed.

Lemma swp_with_calls {A} (f : kst -> A * kst) (Q : A -> sys F -> Prop) s :
  owns [] s -> booked (set_calls [] (sk s)) (f (set_calls [] (sk s))).2 -> (forall r s', owns [] s' -> Q r s') -> swp (with_calls f) Q s.
Proof.
  intros O (l & El & P) HQ. unfold swp, with_calls. destruct (f (set_calls [] (sk s))) as [r k]. cbn [snd] in *. cbn in El.
  set (s1 := with_sk (set_calls (calls (sk s)) k) s). rewrite El.
  assert (swp (run_calls l) (fun _ s' => Q r s') s1) as H.
  { eapply swp_run_calls; [exact P|apply accounted_kst, O|]. intros s' A' S'. apply HQ. by apply (owns_same (I := I) [] s1). }
  unfold swp at 1 in H. by destruct (run_calls l s1) as [[[] s']|].
Qed.

Lemma settles_with_calls {A} (f : kst -> A * kst) (m : A -> M F outcome) s :
  owns [] s -> booked (set_calls [] (sk s)) (f (set_calls [] (sk s))).2 -> (forall r s', owns [] s' -> settles (m r) s') -> settles (bind (with_calls f) m) s.
Proof. intros O B Hm. by apply swp_bind, swp_with_calls. Qed.

Lemma settles_process_call f s : owns [] s -> booked (set_calls [] (sk s)) (f (set_calls [] (sk s))).2 -> settles (process_call f) s.
Proof. intros O B. apply settles_with_calls; [done|done|]. intros. by apply settles_value. Qed.

(** * Processes *)

Lemma keeps_mm f : (forall m, ufd_inuse (f m) = ufd_inuse m /\ ufd_handle (f m) = ufd_handle m) -> keeps_table (on_mm f).
Proof. intros H p j. unfold slot. cbn. by destruct (H (p_mm p)) as [-> ->]. Qed.
Lemma keeps_raise sig : keeps_table (Signal.raise_proc sig).
Proof. intros p j. unfold Signal.raise_proc. repeat case_match; done. Qed.
Lemma booked_kvm v k : booked k (set_kvm v k).
Proof. by apply booked_same. Qed.
Lemma booked_wake a k : booked k (wake_waiters a k).
Proof. apply booked_keeps; [|apply keeps_wake]. unfold wake_waiters. repeat case_match; done. Qed.

Lemma booked_kill id sig k : booked k (Signal.do_kill id sig k).2.
Proof.
  unfold Signal.do_kill. destruct (_ || _); [apply booked_refl|]. destruct (negb _); [apply booked_refl|]. destruct (sig =? 0); [apply booked_refl|]. cbn [snd]. unfold Signal.signal_raise.
  destruct (_ || _); [apply booked_refl|]. apply booked_upd, keeps_raise.
Qed.
Lemma booked_signal sig h t k : booked k (Signal.do_signal sig h t k).2.
Proof. unfold Signal.do_signal. destruct (_ || _); [apply booked_refl|]. destruct (pstore k !! _); [|apply booked_refl]. by apply booked_upd. Qed.
Lemma booked_sigprocmask how set old k : booked k (Signal.do_sigprocmask how set old k).2.
Proof.
  unfold Signal.do_sigprocmask. destruct (pstore k !! _) as [p|]; [|apply booked_refl].
  assert (booked k (if truthy old then Signal.kcopy_to_user old (Signal.le64 (sig_mask (p_sig p))) k else (0, k)).2) as B.
  { destruct (truthy old); [|apply booked_refl]. unfold Signal.kcopy_to_user. destruct (copy_to_user _ _ _ _). apply booked_kvm. }
  destruct (if truthy old then _ else _) as [r k1]. destruct (negb _); [done|]. eapply booked_trans; [exact B|]. by apply booked_upd.
Qed.
Lemma booked_alarm n k : booked k (Signal.do_alarm n k).2.
Proof. unfold Signal.do_alarm. destruct (pstore k !! _); [|apply booked_refl]. by apply booked_upd. Qed.
Lemma keeps_sigreturn k : keeps k (Signal.do_sigreturn k).
Proof.
  unfold Signal.do_sigreturn. destruct (pstore k !! _); [|apply tables_refl]. destruct (negb _); [apply tables_refl|]. destruct (syscall_frame k) as [f|]; [|apply tables_refl].
  match goal with |- keeps k (upd ?a ?g (set_user_rsp ?x (set_syscall_frame ?y k))) => apply (keeps_upd a g (set_user_rsp x (set_syscall_frame y k))) end. done.
Qed.

Lemma booked_wake_futex l key limit : forall woken k, booked k (Futex.wake_loop l key limit woken k).2.
Proof.
  induction l as [|a l IH]; intros woken k; cbn [Futex.wake_loop]; [apply booked_refl|]. destruct (negb _); [apply booked_refl|]. destruct (Futex.waits_on k key a); [|apply IH].
  eapply booked_trans; [|apply IH]. by apply booked_upd.
Qed.

Definition wait_booked (k : kst) (w : Reap.wait_res) : Prop := booked k (waited w).2.
Lemma booked_restore cr3 rsp k : booked k (set_user_rsp rsp (set_user_cr3 cr3 k)).
Proof. by apply booked_same. Qed.
Lemma wait_booked_return k k' cr3 rsp r c : booked k k' -> wait_booked k (Reap.wait_return cr3 rsp r c k').
Proof. intros B. eapply booked_trans; [exact B|]. apply booked_restore. Qed.

Lemma booked_futex_check self key val cr3 rsp k : wait_booked k (Futex.futex_check self key val cr3 rsp k).
Proof. unfold Futex.futex_check. destruct (negb _); [apply wait_booked_return|]; by apply booked_upd. Qed.
Lemma booked_futex a op v k : wait_booked k (Futex.do_futex a op v k).
Proof.
  unfold Futex.do_futex. destruct (pstore k !! _); [|apply booked_refl]. do 3 (destruct (_ : bool); [apply booked_refl|]). destruct (_ =? _).
  - pose proof (booked_wake_futex (process_table k) (user_v2p (user_cr3 k) a (pm (kvm k))) (s32 v) 0 k) as B. by destruct (Futex.wake_loop _ _ _ _ _).
  - destruct (negb _); [apply booked_refl|]. apply booked_futex_check.
Qed.
Lemma booked_futex_resume self key val cr3 rsp k : wait_booked k (Futex.futex_resume self key val cr3 rsp k).
Proof.
  unfold Futex.futex_resume. set (k1 := upd self (Signal.mark_in_kernel 0) k). assert (booked k k1) as B by (by apply booked_upd).
  assert (wait_booked k (Futex.futex_check self key val cr3 rsp k1)) as Hc by (eapply booked_trans; [exact B|apply booked_futex_check]).
  destruct (pstore k1 !! self); [|done]. destruct (_ =? 0); [|done]. apply wait_booked_return. eapply booked_trans; [exact B|]. by apply booked_upd.
Qed.

(** ** The end of a process *)

Lemma slot_handle p i h : slot p i = Some h -> ufd_handle (p_mm p) i = h.
Proof. unfold slot. destruct (truthy _); [by intros [= ->]|done]. Qed.

Lemma booked_close_fd a i k : 0 <= i < PROC_MAX_FDS -> booked k (Reap.close_fd a i k).
Proof.
  intros Hi. unfold Reap.close_fd. destruct (pstore k !! a) as [p|] eqn:Hp; [|apply booked_refl]. destruct (truthy (ufd_inuse (p_mm p) i)) eqn:Eu; [|apply booked_refl].
  set (h := ufd_handle (p_mm p) i). assert (slot p i = Some h) as Hs by (unfold slot; by rewrite Eu).
  exists [Reap.close_call h]. split; [done|]. eapply posted_close; [|apply posted_nil; reflexivity].
  change (slots (upd a (Reap.clear_fd i) (log_call (Reap.close_call h) k))) with (slots (upd a (Reap.clear_fd i) k)).
  rewrite (slots_upd _ _ _ _ Hp). rewrite (slots_at _ _ _ Hp). by rewrite (occupied_clear i h p Hi Hs).
Qed.
Lemma booked_close_fds a k : booked k (Reap.close_proc_fds a k).
Proof. apply booked_for. intros i k' Hi. apply booked_close_fd. unfold PROC_MAX_FDS in *. lia. Qed.

Lemma settles_exit a1 s : owns [] s -> settles (sys_exit a1) s.
Proof.
  intros O. unfold sys_exit. apply swp_bind, swp_gets. set (a := get_cur_proc (sk s)). apply swp_bind. destruct (truthy a); [|apply swp_ret; by apply settles_wait].
  apply swp_bind, swp_mod_kst. set (s1 := with_sk _ s). assert (owns [] s1) as O1 by (by apply owns_upd).
  apply swp_bind, swp_with_calls; [done|apply booked_close_fds|]. intros _ s2 O2. apply swp_mod_kst, settles_wait, owns_kst; [|done].
  eapply tables_trans; [|apply keeps_wake]. by apply keeps_upd.
Qed.

(** A process with no open descriptor. *)
Definition bare (p : proc) : Prop := forall i, 0 <= i < PROC_MAX_FDS -> truthy (ufd_inuse (p_mm p) i) = false.

Lemma omap_none {A B} (f : A -> option B) l : (forall x, x ∈ l -> f x = None) -> omap f l = [].
Proof. induction l as [|x l IH]; intros H; [done|]. cbn. rewrite (H x) by (by left). apply IH. intros y Hy. apply H. by right. Qed.
#[local] Transparent occupied slots_of.
Lemma bare_occupied p : bare p -> occupied p = [].
Proof. intros H. apply omap_none. intros i Hi. apply elem_of_seqZ in Hi. unfold slot. by rewrite H by lia. Qed.
#[local] Opaque occupied slots_of.

Lemma slots_delete a k p : pstore k !! a = Some p -> bare p -> rest a k ≡ₚ slots k.
Proof. intros Hp Hb. rewrite (slots_at _ _ _ Hp), (bare_occupied p Hb). reflexivity. Qed.

Lemma booked_kfree_proc a k : (forall p, pstore k !! a = Some p -> bare p) -> booked k (Reap.kfree_proc a k).
Proof.
  intros H. unfold Reap.kfree_proc. set (k1 := set_pstore _ k). eapply booked_trans; [|apply booked_kfree]. apply booked_keeps; [done|]. unfold keeps, slots at 1. cbn [k1 set_pstore pstore].
  destruct (pstore k !! a) as [p|] eqn:Hp; [by eapply slots_delete, H|]. rewrite delete_id by done. reflexivity.
Qed.

Lemma booked_mmap_free a k : booked k (Reap.mmap_free_bufs a k).
Proof.
  apply booked_for. intros i k' _. unfold Reap.free_buf. destruct (pstore k' !! a ≫= _) as [v|]; [|apply booked_refl]. destruct (truthy _); [|apply booked_refl].
  eapply booked_trans; [apply booked_kfree|]. apply booked_upd. by apply keeps_mm.
Qed.
Lemma booked_space a k : booked k (Reap.release_space a k).
Proof. unfold Reap.release_space. destruct (pstore k !! a); [|apply booked_refl]. destruct (_ && _); [|apply booked_refl]. apply booked_kvm. Qed.
Lemma booked_kstack a k : booked k (Reap.release_kstack a k).
Proof. unfold Reap.release_kstack. destruct (pstore k !! a); [|apply booked_refl]. destruct (truthy _); [|apply booked_refl]. apply booked_kfree. Qed.

(** The members of a thread group other than its leader have no descriptors of their own, and
    there is no process at the null address. *)
Definition threads_bare (k : kst) : Prop :=
  pstore k !! 0 = None /\ forall a b p q, pstore k !! a = Some p -> pstore k !! b = Some q -> a <> b -> tgid q = pid p -> bare q.

Lemma table_find_test k test : table_find k test <> 0 -> test (table_find k test) = true.
Proof.
  unfold table_find. destruct (list_find _ _) as [[i a]|] eqn:E; [|done]. intros _. apply list_find_Some in E as (_ & H & _). by apply Is_true_eq_true.
Qed.

Lemma keeps_fold_upd (c : Z -> kst -> bool) f l : keeps_table f -> forall k, keeps k (foldl (fun k b => if c b k then upd b f k else k) k l).
Proof.
  intros Hf. induction l as [|b l IH]; intros k; cbn [foldl]; [apply tables_refl|]. eapply tables_trans; [|apply IH]. destruct (c b k); [by apply keeps_upd|apply tables_refl].
Qed.

(** The heir of a dead leader takes an empty table. *)
Lemma keeps_reassign d k : threads_bare k -> (forall p, pstore k !! d = Some p -> bare p) -> keeps k (Reap.tg_reassign_leader d k).
Proof.
  intros [H0 Ht] Hb. unfold Reap.tg_reassign_leader. destruct (pstore k !! d) as [p|] eqn:Hp; [|apply tables_refl]. specialize (Hb p eq_refl).
  set (h := table_find k _). destruct (pstore k !! h) as [q|] eqn:Hq; [|apply tables_refl].
  assert (h <> 0) as Hh by (intros E; rewrite E in Hq; congruence). pose proof (table_find_test _ _ Hh) as Htest. fold h in Htest. unfold Reap.in_group_of, entry_is in Htest. rewrite Hq in Htest.
  apply andb_true_iff in Htest as [Hne Htg]. apply negb_true_iff, Z.eqb_neq in Hne. apply Z.eqb_eq in Htg. assert (bare q) as Hbq by (apply (Ht d h p q); congruence).
  set (k1 := upd h (Reap.inherit_group p) k). set (k2 := upd d Reap.disown_group k1).
  assert (keeps k k1) as K1.
  { apply slots_upd_same. intros x Hx. assert (x = q) as -> by congruence. rewrite (bare_occupied q Hbq), bare_occupied; [reflexivity|]. intros i Hi. cbn.
    rewrite (proj2 (Z.leb_le 0 i)), (proj2 (Z.ltb_lt i PROC_MAX_FDS)) by lia. cbn. by apply Hb. }
  assert (keeps k1 k2) as K2.
  { apply slots_upd_same. intros x Hx. unfold k1, upd in Hx. cbn in Hx. rewrite lookup_alter_ne in Hx by done. assert (x = p) as -> by congruence.
    rewrite (bare_occupied p Hb), bare_occupied; [reflexivity|]. intros i Hi. cbn. rewrite (proj2 (Z.leb_le 0 i)), (proj2 (Z.ltb_lt i PROC_MAX_FDS)) by lia. done. }
  eapply tables_trans; [|by apply keeps_upd]. eapply tables_trans; [exact K1|]. eapply tables_trans; [exact K2|].
  exact (keeps_fold_upd (fun b k => Reap.in_group_of k d (pid p) b) (set_tgid (pid q)) _ ltac:(done) k2).
Qed.

Definition bare_at (d : Z) (k : kst) : Prop := forall p, pstore k !! d = Some p -> bare p.
Lemma bare_upd d b f k : (forall p, bare p -> bare (f p)) -> bare_at d k -> bare_at d (upd b f k).
Proof.
  intros Hf Hd p. cbn. destruct (decide (b = d)) as [->|Hne]; [rewrite lookup_alter_eq|rewrite lookup_alter_ne by done; apply Hd].
  destruct (pstore k !! d) as [q|] eqn:Hq; [|done]. intros [= <-]. by apply Hf, Hd.
Qed.

Lemma bare_reassign d k : bare_at d k -> bare_at d (Reap.tg_reassign_leader d k).
Proof.
  intros Hd. unfold Reap.tg_reassign_leader. destruct (pstore k !! d) as [p|] eqn:Hp; [|done]. set (h := table_find k _). destruct (pstore k !! h) as [q|]; [|done].
  assert (bare p) as Hbp by (by apply Hd).
  assert (forall l k1, bare_at d k1 -> bare_at d (foldl (fun k b => if Reap.in_group_of k d (pid p) b then upd b (set_tgid (pid q)) k else k) k1 l)) as Hfold.
  { induction l as [|b l IH]; intros k1 H1; cbn [foldl]; [done|]. apply IH. destruct (Reap.in_group_of k1 d (pid p) b); [|done]. by apply bare_upd. }
  apply bare_upd; [done|]. apply Hfold, bare_upd.
  - intros x Hx i Hi. cbn. rewrite (proj2 (Z.leb_le 0 i)), (proj2 (Z.ltb_lt i PROC_MAX_FDS)) by lia. done.
  - apply bare_upd; [|done]. intros x Hx i Hi. cbn. rewrite (proj2 (Z.leb_le 0 i)), (proj2 (Z.ltb_lt i PROC_MAX_FDS)) by lia. by apply Hbp.
Qed.
Lemma bare_mmap_free d k : bare_at d k -> bare_at d (Reap.mmap_free_bufs d k).
Proof.
  intros Hd. apply (for_range_ind (fun _ k' => bare_at d k')); [done|]. intros i k' _ H'. unfold Reap.free_buf. destruct (pstore k' !! d ≫= _) as [v|]; [|done]. destruct (truthy _); [|done]. by apply bare_upd.
Qed.
Lemma bare_space d k : bare_at d k -> bare_at d (Reap.release_space d k).
Proof. intros Hd. unfold Reap.release_space. destruct (pstore k !! d); [|done]. by destruct (_ && _). Qed.
Lemma bare_kstack d k : bare_at d k -> bare_at d (Reap.release_kstack d k).
Proof. intros Hd. unfold Reap.release_kstack. destruct (pstore k !! d); [|done]. by destruct (truthy _). Qed.

(** Identities stay, and what was bare stays so. *)
Definition grows_bare (k k' : kst) : Prop :=
  forall b q, pstore k' !! b = Some q -> exists q0, pstore k !! b = Some q0 /\ pid q = pid q0 /\ tgid q = tgid q0 /\ (bare q0 -> bare q).
Lemma threads_bare_grows k k' : grows_bare k k' -> threads_bare k -> threads_bare k'.
Proof.
  intros Hb [H0 Ht]. split; [destruct (pstore k' !! 0) as [q|] eqn:E; [|done]; apply Hb in E as (q0 & E & _); congruence|].
  intros x y px py Hx Hy Hne Htg. apply Hb in Hx as (px0 & Hx0 & E1 & _), Hy as (py0 & Hy0 & _ & E2 & Hby). apply Hby. apply (Ht x y px0 py0); congruence.
Qed.

Lemma close_fds_none a k : pstore k !! a = None -> Reap.close_proc_fds a k = k.
Proof. intros H. apply (for_range_ind (fun _ k' => k' = k)); [done|]. intros i k' _ ->. unfold Reap.close_fd. by rewrite H. Qed.

Lemma close_fds_bare a k : bare_at a (Reap.close_proc_fds a k) /\ (threads_bare k -> threads_bare (Reap.close_proc_fds a k)).
Proof.
  destruct (pstore k !! a) as [p|] eqn:Hp; [|rewrite close_fds_none by done; split; [intros q Hq; congruence|done]].
  destruct (Reap.close_proc_fds_shape a k p Hp) as (f & Es & Hz). split.
  - intros q Hq i Hi. rewrite Es, lookup_insert_eq in Hq. injection Hq as <-. cbn. by rewrite Hz by done.
  - apply threads_bare_grows. intros b q Hq. rewrite Es in Hq.
    destruct (decide (a = b)) as [<-|Hne]; [rewrite lookup_insert_eq in Hq; injection Hq as <-; exists p|rewrite lookup_insert_ne in Hq by done; by exists q].
    split_and!; try done. intros _ i Hi. cbn. by rewrite Hz by done.
Qed.

Lemma calls_fold_upd (c : Z -> kst -> bool) f l : forall k, calls (foldl (fun k b => if c b k then upd b f k else k) k l) = calls k.
Proof. induction l as [|b l IH]; intros k; cbn [foldl]; [done|]. rewrite IH. by destruct (c b k). Qed.
Lemma booked_reassign d k : threads_bare k -> bare_at d k -> booked k (Reap.tg_reassign_leader d k).
Proof.
  intros T B. apply booked_keeps; [|by apply keeps_reassign]. unfold Reap.tg_reassign_leader. destruct (pstore k !! d) as [p|]; [|done]. destruct (pstore k !! _) as [q|]; [|done]. cbn [upd set_pstore calls].
  exact (calls_fold_upd (fun b k => Reap.in_group_of k d (pid p) b) (set_tgid (pid q)) (process_table k) _).
Qed.
Lemma booked_remove i k : booked k (Reap.remove_slot i k).
Proof. unfold Reap.remove_slot. destruct (_ =? _); by apply booked_same. Qed.
Lemma bare_remove d i k : bare_at d k -> bare_at d (Reap.remove_slot i k).
Proof. intros H p. unfold Reap.remove_slot. destruct (_ =? _); exact (H p). Qed.

Lemma booked_reclaim a k : threads_bare k -> booked k (Reap.reclaim a k) /\ bare_at a (Reap.reclaim a k).
Proof.
  intros Ht. unfold Reap.reclaim. pose proof (booked_close_fds a k) as C1. destruct (close_fds_bare a k) as [B1 T1]. specialize (T1 Ht).
  generalize dependent (Reap.close_proc_fds a k). intros k1 C1 B1 T1. pose proof (booked_trans _ _ _ C1 (booked_reassign a k1 T1 B1)) as C2. pose proof (bare_reassign a k1 B1) as B2.
  generalize dependent (Reap.tg_reassign_leader a k1). intros k2 C2 B2. split; [|by apply bare_kstack, bare_space, bare_mmap_free].
  eapply booked_trans; [exact C2|]. eapply booked_trans; [apply (booked_mmap_free a)|]. eapply booked_trans; [apply (booked_space a)|]. apply (booked_kstack a).
Qed.

Lemma booked_collect zi k : threads_bare k -> booked k (Reap.collect_child zi k).
Proof.
  intros Ht. unfold Reap.collect_child. set (a := Sched.table_at k zi). destruct (booked_reclaim a k Ht) as [C B].
  generalize dependent (Reap.reclaim a k). intros k1 C B. eapply booked_trans; [exact C|]. eapply booked_trans; [apply (booked_remove zi)|]. apply booked_kfree_proc. by apply bare_remove.
Qed.

Lemma booked_waitpid_iter self wpid options cr3 rsp k : threads_bare k -> wait_booked k (Reap.waitpid_iter self wpid options cr3 rsp k).
Proof.
  intros Ht. unfold Reap.waitpid_iter. destruct (pstore k !! self) as [me|] eqn:Hme; [|by apply wait_booked_return, booked_refl].
  set (k1 := upd self (Signal.mark_in_kernel 0) k). assert (booked k k1) as B1 by (by apply booked_upd).
  assert (threads_bare k1) as T1.
  { revert Ht. apply threads_bare_grows. intros b q. cbn. destruct (decide (self = b)) as [<-|Hne]; [rewrite lookup_alter_eq, Hme; intros [= <-]; by exists me|rewrite lookup_alter_ne by done; by exists q]. }
  destruct (Reap.wait_scan _ _ _ _ _ _ _ _ _) as [[zi si] any]. destruct (negb any); [by apply wait_booked_return|]. destruct (_ && _).
  { destruct (pstore k1 !! _); [|by apply wait_booked_return]. apply wait_booked_return. eapply booked_trans; [exact B1|]. by apply booked_upd. }
  destruct (0 <=? zi).
  { destruct (pstore k1 !! _); [|by apply wait_booked_return]. apply wait_booked_return. eapply booked_trans; [exact B1|]. by apply booked_collect. }
  destruct (truthy _); [by apply wait_booked_return|]. eapply booked_trans; [exact B1|]. by apply booked_upd.
Qed.
Lemma booked_waitpid wpid options k : threads_bare k -> wait_booked k (Reap.do_waitpid wpid options k).
Proof. intros Ht. unfold Reap.do_waitpid. destruct (negb _); [apply booked_refl|]. by apply booked_waitpid_iter. Qed.

(** ** Births *)

Lemma bare_zero f : (forall p, bare p -> bare (f p)) -> forall n, bare (f (set_pid n zero_proc)).
Proof. intros H n. by apply H. Qed.

Lemma booked_kmalloc n k : booked k (Spawn.kmalloc n k).2.
Proof. destruct (Spawn.kmalloc_keeps n k) as (v & -> & _). apply booked_kvm. Qed.

Lemma booked_new_proc a f k : pstore k !! a = None -> (forall p, bare p -> bare (f p)) -> booked k (Spawn.new_proc a f k).
Proof.
  intros Hn Hf. apply booked_keeps; [done|]. unfold keeps, slots, Spawn.new_proc. cbn [set_pstore pstore set_next_pid].
  set (q := f _). rewrite (slots_split _ a q) by apply lookup_insert_eq. rewrite delete_insert_id by done. rewrite bare_occupied by (by apply bare_zero). reflexivity.
Qed.

Lemma booked_build_stack a alias words k : booked k (Spawn.build_stack a alias words k).2.
Proof.
  unfold Spawn.build_stack. pose proof (booked_kmalloc 4096 k) as B. destruct (Spawn.kmalloc 4096 k) as [mem k1]. cbn [snd] in B. destruct (negb _); [done|].
  destruct (Spawn.push_all _ _ _) as [sp m]. cbn [snd]. eapply booked_trans; [exact B|]. eapply booked_trans; [apply booked_kvm|]. by apply booked_upd.
Qed.
Lemma booked_publish a c w k : booked k (Spawn.publish a c w k).
Proof. unfold Spawn.publish. eapply booked_trans; [by apply (booked_upd a (on_sched (set_sched_managed 1)))|]. eapply booked_trans; [by apply (booked_upd c (on_sched (fun x => set_sched_weight w (set_sched_managed 1 x))))|]. by apply booked_same. Qed.

Lemma bare_build_stack d a alias words k : bare_at d k -> bare_at d (Spawn.build_stack a alias words k).2.
Proof.
  intros Hd. unfold Spawn.build_stack. destruct (Spawn.kmalloc_keeps 4096 k) as (v & E & _). destruct (Spawn.kmalloc 4096 k) as [mem k1]. cbn [snd] in E. subst k1. destruct (negb _); [done|].
  destruct (Spawn.push_all _ _ _) as [sp m]. by apply bare_upd.
Qed.

Lemma booked_clone fn stk arg flags k : booked k (Spawn.do_clone fn stk arg flags k).2.
Proof.
  unfold Spawn.do_clone. destruct (pstore k !! _) as [self|]; [|apply booked_refl]. do 4 (destruct (_ : bool); [apply booked_refl|]).
  pose proof (booked_kmalloc Spawn.SIZEOF_PROCESS k) as B. pose proof (Spawn.kmalloc_fresh Spawn.SIZEOF_PROCESS k) as Hf. destruct (Spawn.kmalloc_keeps Spawn.SIZEOF_PROCESS k) as (v & E & _).
  destruct (Spawn.kmalloc Spawn.SIZEOF_PROCESS k) as [t k1]. cbn [fst snd] in *. unfold truthy. destruct (Z.eqb_spec t 0) as [|Ht]; [done|]. cbn [negb].
  set (f := Spawn.clone_fields _ _ _). assert (forall p, bare p -> bare (f p)) as Hbf by done.
  assert (booked k (Spawn.new_proc t f k1)) as B1 by (eapply booked_trans; [exact B|]; apply booked_new_proc; [subst k1; by apply Hf|done]).
  assert (bare_at t (Spawn.new_proc t f k1)) as T1 by (intros p; unfold Spawn.new_proc; cbn [set_pstore pstore]; rewrite lookup_insert_eq; intros [= <-]; by apply bare_zero).
  generalize dependent (Spawn.new_proc t f k1). intros k2 B1 T1. unfold Spawn.init_thread_task_stack. match goal with |- context [Spawn.build_stack t ?al ?w k2] => pose proof (booked_build_stack t al w k2) as B2; pose proof (bare_build_stack t t al w k2 T1) as T2; destruct (Spawn.build_stack t al w k2) as [r k3] end.
  cbn [snd] in *. pose proof (booked_trans _ _ _ B1 B2) as B3. destruct (r <? 0); cbn [snd]; (eapply booked_trans; [exact B3|]); [by apply booked_kfree_proc|apply booked_publish].
Qed.

(** A fork that fails has nothing to share: it does not undo the counts of the pipe ends it
    has given to the child. *)
Definition fork_clean (k : kst) : Prop :=
  (Spawn.do_fork k).1 <> -1 \/ forall p i, pstore k !! get_current_process k = Some p -> Spawn.inherits p i = false.

Lemma booked_copy_buf child i k : booked k (Spawn.copy_buf child i k).
Proof.
  unfold Spawn.copy_buf. destruct (pstore k !! child ≫= _) as [v|]; [|apply booked_refl]. destruct (_ && _); [|apply booked_refl].
  pose proof (booked_kmalloc (v_file_size v) k) as B. destruct (Spawn.kmalloc (v_file_size v) k) as [nb k1]. cbn [snd] in B. eapply booked_trans; [exact B|].
  assert (forall g, keeps_table (Reap.set_vma (Z.to_nat i) g)) as Hk by (intros g; by apply keeps_mm).
  destruct (truthy nb); [eapply booked_trans; [apply booked_kvm|]|]; by apply booked_upd.
Qed.

Lemma copy_buf_others child i k a : a <> child -> pstore (Spawn.copy_buf child i k) !! a = pstore k !! a.
Proof.
  intros Hne. unfold Spawn.copy_buf. destruct (pstore k !! child ≫= _) as [v|]; [|done]. destruct (_ && _); [|done].
  destruct (Spawn.kmalloc_keeps (v_file_size v) k) as (w & E & _). destruct (Spawn.kmalloc (v_file_size v) k) as [nb k1]. cbn [snd] in E. subst k1.
  destruct (truthy nb); cbn; by rewrite lookup_alter_ne.
Qed.
Lemma copy_buf_bare child i k : bare_at child k -> bare_at child (Spawn.copy_buf child i k).
Proof.
  intros H. unfold Spawn.copy_buf. destruct (pstore k !! child ≫= _) as [v|]; [|done]. destruct (_ && _); [|done].
  destruct (Spawn.kmalloc_keeps (v_file_size v) k) as (w & E & _). destruct (Spawn.kmalloc (v_file_size v) k) as [nb k1]. cbn [snd] in E. subst k1.
  destruct (truthy nb); by apply bare_upd.
Qed.
Lemma copy_buf_there child i k : is_Some (pstore k !! child) -> is_Some (pstore (Spawn.copy_buf child i k) !! child).
Proof.
  intros [c Hc]. unfold Spawn.copy_buf. rewrite Hc. cbn. destruct (mmap_vmas (p_mm c) !! Z.to_nat i) as [v|]; [|by exists c]. destruct (_ && _); [|by exists c].
  destruct (Spawn.kmalloc_keeps (v_file_size v) k) as (w & E & _). destruct (Spawn.kmalloc (v_file_size v) k) as [nb k1]. cbn [snd] in E. subst k1.
  destruct (truthy nb); cbn; rewrite lookup_alter_eq, Hc; by eexists.
Qed.
Lemma copy_bufs_spec child a k : a <> child -> bare_at child k -> is_Some (pstore k !! child) ->
  let k' := for_range (Z.to_nat PROC_MAX_VMAS) 0 (Spawn.copy_buf child) k in booked k k' /\ pstore k' !! a = pstore k !! a /\ bare_at child k' /\ is_Some (pstore k' !! child).
Proof.
  intros Hne Hb Hs k'. split; [apply booked_for; intros; apply booked_copy_buf|]. apply (for_range_ind (fun _ x => pstore x !! a = pstore k !! a /\ bare_at child x /\ is_Some (pstore x !! child))); [done|].
  intros i x _ (E & B & S). split_and!; [by rewrite copy_buf_others|by apply copy_buf_bare|by apply copy_buf_there].
Qed.

(** The slots of the child above those shared so far are free. *)
Definition free_from (n : Z) (child : Z) (k : kst) : Prop := forall p i, pstore k !! child = Some p -> n <= i < PROC_MAX_FDS -> slot p i = None.

Lemma booked_share_fd parent a child i k : 0 <= i < PROC_MAX_FDS -> a <> child -> pstore k !! a = Some parent -> is_Some (pstore k !! child) -> free_from i child k ->
  booked k (Spawn.share_fd parent child i k) /\ pstore (Spawn.share_fd parent child i k) !! a = Some parent /\
  is_Some (pstore (Spawn.share_fd parent child i k) !! child) /\ free_from (i + 1) child (Spawn.share_fd parent child i k).
Proof.
  intros Hi Hne Ha [c Hc] Hfree. unfold Spawn.share_fd. set (h := ufd_handle (p_mm parent) i).
  assert (free_from (i + 1) child k) as Hfree' by (intros p j Hp Hj; apply Hfree; [done|lia]).
  destruct (truthy (ufd_inuse (p_mm parent) i)) eqn:Eu; cbn [andb]; [|split_and!; first [apply booked_refl|done|by exists c]].
  change (truthy (h .& UFD_PIPE_FLAG)) with (is_pipe h). destruct (is_pipe h) eqn:Ep; [|split_and!; first [apply booked_refl|done|by exists c]].
  set (g := on_mm _). change (CallPipeIncref _ _) with (incref_call h). set (k' := upd child g k).
  assert (slot parent i = Some h) as Hs by (unfold slot; by rewrite Eu). assert (h ∈ slots k) as Hin.
  { rewrite (slots_at _ _ _ Ha). apply elem_of_app. left. by eapply slot_in_table. }
  split_and!.
  - exists [incref_call h]. split; [done|]. apply posted_share; [done|done|]. apply posted_nil. change (slots (log_call _ k')) with (slots k').
    unfold k'. rewrite (slots_upd _ _ _ _ Hc). change (g c) with (take_fd i h 0 c). rewrite (occupied_take i h 0 c Hi) by (apply Hfree; [done|lia]). by rewrite (slots_at _ _ _ Hc).
  - cbn. by rewrite lookup_alter_ne.
  - cbn. rewrite lookup_alter_eq, Hc. by eexists.
  - intros p j. cbn. rewrite lookup_alter_eq, Hc. intros [= <-] Hj. change (g c) with (take_fd i h 0 c). rewrite slot_take, decide_False by lia. apply Hfree; [done|lia].
Qed.
Lemma booked_share_fds parent a child k : a <> child -> pstore k !! a = Some parent -> is_Some (pstore k !! child) -> bare_at child k ->
  booked k (for_range (Z.to_nat PROC_MAX_FDS) 0 (Spawn.share_fd parent child) k).
Proof.
  intros Hne Ha Hc Hb.
  apply (for_range_ind (fun n x => booked k x /\ pstore x !! a = Some parent /\ is_Some (pstore x !! child) /\ free_from n child x)).
  - split_and!; [apply booked_refl|done|done|]. intros p i Hp Hi. unfold slot. by rewrite (Hb p Hp i Hi).
  - intros i x Hi (B & Ha' & Hc' & Hf). destruct (booked_share_fd parent a child i x ltac:(unfold PROC_MAX_FDS in *; lia) Hne Ha' Hc' Hf) as (B' & ? & ? & ?). split_and!; try done. by eapply booked_trans.
Qed.

Lemma share_none parent child k : (forall i, Spawn.inherits parent i = false) -> for_range (Z.to_nat PROC_MAX_FDS) 0 (Spawn.share_fd parent child) k = k.
Proof. intros H. apply (for_range_ind (fun _ x => x = k)); [done|]. intros i x _ ->. unfold Spawn.share_fd. specialize (H i). unfold Spawn.inherits in H. by rewrite H. Qed.

Lemma booked_fork k : fork_clean k -> booked k (Spawn.do_fork k).2.
Proof.
  unfold fork_clean, Spawn.do_fork. set (a := get_current_process k). destruct (pstore k !! a) as [parent|] eqn:Ha; [|intros _; apply booked_refl].
  do 2 (destruct (_ : bool); [intros _; apply booked_refl|]). destruct (syscall_frame k) as [frame|]; [|intros _; apply booked_refl].
  destruct (clone_page_directory_cow _ _) as [pml4 v]. set (k0 := set_kvm v k). assert (booked k k0) as B0 by apply booked_kvm. destruct (negb (truthy pml4)); [by intros _|].
  pose proof (booked_kmalloc Spawn.SIZEOF_PROCESS k0) as Bm. pose proof (Spawn.kmalloc_fresh Spawn.SIZEOF_PROCESS k0) as Hf. destruct (Spawn.kmalloc_keeps Spawn.SIZEOF_PROCESS k0) as (v1 & E & _).
  destruct (Spawn.kmalloc Spawn.SIZEOF_PROCESS k0) as [child k1]. cbn [fst snd] in *. unfold truthy. destruct (Z.eqb_spec child 0) as [|Hch].
  { intros _. eapply booked_trans; [eapply booked_trans; [exact B0|exact Bm]|]. apply booked_kvm. }
  cbn [negb]. specialize (Hf Hch). assert (a <> child) as Hne by (intros ->; cbn in Hf; congruence). set (g := Spawn.fork_fields _ _).
  assert (forall p, bare p -> bare (g p)) as Hbg by done. set (k2 := Spawn.new_proc child g k1).
  assert (booked k k2) as B2 by (eapply booked_trans; [eapply booked_trans; [exact B0|exact Bm]|]; apply booked_new_proc; [by subst k1|done]).
  assert (bare_at child k2) as T2 by (intros p; unfold k2, Spawn.new_proc; cbn [set_pstore pstore]; rewrite lookup_insert_eq; intros [= <-]; by apply bare_zero).
  assert (pstore k2 !! a = Some parent) as Ha2 by (unfold k2, Spawn.new_proc; cbn [set_pstore pstore]; rewrite lookup_insert_ne by done; by subst k1).
  assert (is_Some (pstore k2 !! child)) as Hc2 by (unfold k2, Spawn.new_proc; cbn [set_pstore pstore]; rewrite lookup_insert_eq; by eexists).
  assert (a <> child) as Hne' by done. destruct (copy_bufs_spec child a k2 Hne' T2 Hc2) as (B3 & Ha3 & T3 & Hc3). rewrite Ha2 in Ha3.
  generalize dependent (for_range (Z.to_nat PROC_MAX_VMAS) 0 (Spawn.copy_buf child) k2). intros k3 B3 Ha3 T3 Hc3. pose proof (booked_trans _ _ _ B2 B3) as B3'.
  pose proof (booked_share_fds parent a child k3 Hne' Ha3 Hc3 T3) as B4. pose proof (share_none parent child k3) as Hnone.
  generalize dependent (for_range (Z.to_nat PROC_MAX_FDS) 0 (Spawn.share_fd parent child) k3). intros k4 B4 Hnone. pose proof (booked_trans _ _ _ B3' B4) as B4'.
  unfold Spawn.init_forked_task_stack. match goal with |- context [Spawn.build_stack child ?al ?w k4] => pose proof (booked_build_stack child al w k4) as B5; pose proof (bare_build_stack child child al w k4) as T5; destruct (Spawn.build_stack child al w k4) as [r k5] end.
  cbn [snd] in *. pose proof (booked_trans _ _ _ B4' B5) as B5'. destruct (r <? 0); cbn [fst snd]; intros Hclean; (eapply booked_trans; [exact B5'|]); [|apply booked_publish].
  eapply booked_trans; [apply booked_kvm|]. apply booked_kfree_proc. destruct Hclean as [|Hnot]; [done|]. assert (bare_at child k4) as T4 by (rewrite Hnone; [done|]; intros i; by apply Hnot). exact (T5 T4).
Qed.
End Proc.
