(* ===== verification/SysDemo.v ===== *)
(** The theorems about system calls at a concrete kernel: a process that has a file and both
    ends of a pipe open; and what the descriptor calls do not do. *)
From Stdlib Require Import ZArith Lia String.
From S2P Require Import Prelude Packed Phys Paging Process Descr SysFile Stdin SysIo Syscall SysInv SysCalls SysProc SysRun.
From S2P Require PageTables Ext2 Ext2Safe Ext2Demo Vfs VfsSafe VfsExt2 Pipe Spawn Mmap NetBase Ip NetPoll Keyboard Format.
#[local] Open Scope sys_scope.
Import VfsExt2 Format.
#[local] Existing Instance Ext2Demo.demo_heap.
#[local] Existing Instance Ip.ample_heap.
#[local] Existing Instance Ip.quiet_poll.
#[local] Existing Instance Spawn.demo_kheap.
#[local] Existing Instance Mmap.demo_reader.

(** The kernel keeps the device files open. *)
Definition demo_handles : KernelHandles := map Vfs.fd_of boot_handles.
#[local] Existing Instance demo_handles.

(** Descriptor 3 is a file, 4 and 5 are the ends of pipe 0, 6 is a socket. *)
Definition demo_fds (l : list (Z * Z)) (p : proc) : proc := foldl (fun p e => take_fd (fst e) (snd e) 0 p) p l.
Definition demo_proc : proc :=
  demo_fds [(3, Vfs.fd_of 26); (4, UFD_PIPE_MAKE 0 false); (5, UFD_PIPE_MAKE 0 true); (6, UFD_SOCK_MAKE 0)] (on_sched (set_state PROC_RUN) (set_pid 1 zero_proc)).
Definition demo_k : kst := start_kst {[ 16 := demo_proc ]} [16] PageTables.demo_vm0.
Definition demo : sys Ext2.est := Sys Ext2.est demo_k open_state (Pipe.pipes Pipe.demo_pipes) NetPoll.udp_net Keyboard.demo_kbd [].

Lemma demo_slots : slots demo_k = [Vfs.fd_of 26; UFD_PIPE_MAKE 0 false; UFD_PIPE_MAKE 0 true; UFD_SOCK_MAKE 0] ++ map Vfs.fd_of boot_handles.
Proof. vm_compute. reflexivity. Qed.

Lemma handle_ok_pipe id w : 0 <= id < Pipe.MAX_PIPES -> handle_ok (UFD_PIPE_MAKE id w).
Proof. intros H. unfold handle_ok. destruct (pipe_make_decode id w H) as (-> & _). by exists id, w. Qed.
Lemma handle_ok_sock id : handle_ok (UFD_SOCK_MAKE id).
Proof. unfold handle_ok. destruct (sock_make_kind id) as [-> ->]. done. Qed.
Lemma handle_ok_fd i : (i < Vfs.MAX_INODES)%nat -> handle_ok (Vfs.fd_of i).
Proof. intros H. unfold handle_ok. destruct (fd_kind i H) as [-> ->]. unfold Vfs.fd_of. lia. Qed.
Lemma handle_ok_fds l : forallb (fun i => i <? Vfs.MAX_INODES)%nat l = true -> Forall handle_ok (map Vfs.fd_of l).
Proof. induction l as [|i l IH]; cbn; [constructor|]. intros [Hi Hl]%andb_prop. constructor; [by apply handle_ok_fd, Nat.ltb_lt|by apply IH]. Qed.

Lemma demo_owns : owns (I := Ext2Safe.lready (Ext2.fs Ext2Demo.demo_fs) Ext2Safe.all_bufs) [] demo.
Proof.
  unfold owns. cbn [app sk demo]. rewrite demo_slots. constructor.
  - exact open_state_ok.
  - apply Forall_app. split; [|apply handle_ok_fds; vm_compute; reflexivity].
    constructor; [apply handle_ok_fd; vm_compute; lia|]. constructor; [by apply handle_ok_pipe|]. constructor; [by apply handle_ok_pipe|]. constructor; [apply handle_ok_sock|constructor].
  - intros id Hid. assert (exists n, id = Z.of_nat n /\ (n < 16)%nat) as (n & -> & Hn) by (exists (Z.to_nat id); unfold Pipe.MAX_PIPES in Hid; lia).
    do 16 (destruct n as [|n]; [vm_compute; by repeat split|]). lia.
  - by split; split.
Qed.

(** Descriptor 3 is duplicated and closed, the duplicate's offset is moved, the pipe is closed
    at one end and duplicated onto descriptor 9 at the other, a child of nobody is waited for,
    something ready is polled for, and the process exits. *)
Definition demo_session : list event :=
  [ECall 48 3 0 0 0 0 0; ECall 5 3 0 0 0 0 0; ECall 46 7 100 0 0 0 0; ECall 5 5 0 0 0 0 0; ECall 43 0 0 0 0 0 0; ECall 7 4096 0 0 0 0 0; ECall 0 0 0 0 0 0 0].


(** What the session leaves: nothing but what the kernel holds. *)
Lemma demo_session_closes_everything :
  option_map (fun s => (Vfs.open_refs (Vfs.node (sv s) 26), Pipe.used (sp s 0))) (run [] demo_session demo) = Some (0, 0).
Proof. vm_compute. reflexivity. Qed.

(** * Sockets are not files *)

(** Duplicating onto a socket's descriptor, or asking for the size of a socket or a pipe, takes
    the handle for a node's: the access is outside the node table. *)
Lemma dup2_over_socket_faults : sys_dup2 3 6 demo = None /\ sys_fsize 6 demo = None /\ sys_fsize 4 demo = None /\ sys_mmap 4096 1 0 6 0 demo = None.
Proof. vm_compute. done. Qed.

(** A duplicate of a socket is not counted: closing one closes the socket under the other. *)
Lemma dup_socket_is_not_counted :
  option_map (fun s => (ufd_lookup 7 (sk (snd s)), NetBase.in_use <$> NetBase.nsocks (sn (snd s)) !! 0%nat)) ((let* _ := sys_dup 6 in sys_close 6) demo) = Some (Some (UFD_SOCK_MAKE 0), Some 0) /\
  NetBase.in_use <$> NetBase.nsocks (sn demo) !! 0%nat = Some 1.
Proof. vm_compute. done. Qed.

(** ** The keyboard *)

(** The text typed: a slip and its correction. *)
Lemma typed_line_is_read_witness :
  let t := chars "lx" ++ [8] ++ chars "s" in
  let typed := with_skb (Keyboard.irqs (Keyboard.typing 1 (t ++ [LF])) (Keyboard.demo_kbd, demo_k)).1 demo in
  exists b, Keyboard.pending (Keyboard.kbd_buffer b) = [] /\
    stdin_read_line 0x400000 64 [] 0 0 typed =
    (restore 0 0 ;; deliver 0x400000 3 (chars "ls" ++ [LF])) (with_scon (chars "lx" ++ [8; 32; 8] ++ chars "s" ++ [LF]) (with_skb b demo)).
Proof.
  set (t := chars "lx" ++ [8] ++ chars "s").
  destruct (typed_line_is_read 0x400000 64 0 0 t demo demo_k) as (b & _ & Hp & E).
  - by split; split.
  - by split; split.
  - done.
  - unfold t, chars. cbn. repeat constructor; try (vm_compute; reflexivity); vm_compute; eauto.
  - unfold t, chars. cbn. intros H. repeat (apply elem_of_cons in H as [H|H]; [discriminate H|]). by apply elem_of_nil in H.
  - by vm_compute.
  - by vm_compute.
  - exists b. split; [exact Hp|exact E].
Defined.

(** The same text, already in the ring, with another line behind it. *)
Definition ring_of (l : list Z) : Keyboard.ring := foldl (fun r c => Keyboard.ring_put c r) Keyboard.empty_ring l.
Lemma stdin_line_correct_witness :
  let t := chars "lx" ++ [8] ++ chars "s" in
  let s := with_skb (Keyboard.set_buffer (ring_of (t ++ [CR] ++ chars "pwd")) Keyboard.demo_kbd) demo in
  exists b, Keyboard.pending (Keyboard.kbd_buffer b) = chars "pwd" /\
    stdin_read_line 0x400000 64 [] 0 0 s = (restore 0 0 ;; deliver 0x400000 3 (chars "ls" ++ [LF])) (with_scon (chars "lx" ++ [8; 32; 8] ++ chars "s" ++ [LF]) (with_skb b s)).
Proof.
  intros t s.
  destruct (stdin_line_correct 0x400000 64 0 0 t CR (chars "pwd") s) as (b & _ & Hp & E).
  - by split; split.
  - vm_compute. reflexivity.
  - by right.
  - unfold t, chars. cbn. repeat constructor; vm_compute; congruence.
  - by vm_compute.
  - exists b. split; [exact Hp|exact E].
Defined.
